(* ===== verification/_CoqProject ===== *)
-Q . S2P
Prelude.v
Hlc.v
Sched.v
Contention.v
Backoff.v
Packet.v
Outbound.v
Reliable.v
Routes.v
Routing.v
Utf8.v
Relay.v
ClusterDoc.v
ClusterIngest.v
PeerCodec.v
BleRegistry.v
PeerLink.v
AttachmentCodec.v
StreamFrame.v
PhoneApi.v
PhoneTransport.v
Router.v
AdminSession.v
Traffic.v
ClusterSync.v
ClusterExchange.v
NodeDb.v
Lockdown.v
LockdownPhone.v
Bulk.v
Pages.v
KeyStore.v
RecordStore.v
Regions.v
TxPower.v
Channels.v
Presets.v
ConfigStore.v
Pki.v
KeyVerify.v
Clock.v
Attachment.v
