(* ===== verification/Prelude.v ===== *)
(** * Zephyrtastic: a verification library

    Zephyrtastic is a Zephyr port of the Meshtastic mesh radio firmware. This library
    models the parts of it that decide what is sent, when, to whom and what is
    believed, and proves what they promise. The C sources are under src/src and
    src/include/zephyr/meshtastic; every definition keeps the name of the C function,
    struct or constant it translates.

    ** The program and its parts

    A packet travels through these parts. [meshtastic_packet.c] lays out the wire
    header. [meshtastic_outbound.c] owns the transmit queue and the one worker thread
    that keys the radio, under a policy kept by [meshtastic_sched.c] and delays drawn
    by [meshtastic_contention.c]. [meshtastic_reliable.c] tracks sends that want an
    acknowledgement and retransmits them; [meshtastic_routing.c] answers received
    packets, resolves tracked sends and learns next hops, which [meshtastic_nodedb.c]
    keeps with a health record. [meshtastic_relay.c] copies texts between two radio
    presets, after [meshtastic_utf8.c] cleaned them. Beside this, the cluster module
    ([meshtastic_cluster.c], [meshtastic_cluster_doc.c]) replicates a configuration
    document between nodes by anti-entropy, with versions minted by the hybrid logical
    clock of [meshtastic_hlc.c] over the wall clock of [meshtastic_clock.c]. Direct messages
    are encrypted by [meshtastic_pki.c] under keys that [meshtastic_keyverify.c] lets two
    users compare. The node's settings, the identity among them, are in
    [meshtastic_config_store.c], which [meshtastic_settings.c] loads from and saves to
    flash. [meshtastic_channels.c] keeps the channels and their keys,
    [meshtastic_preset.c] moves the node between the presets and bands of
    [meshtastic_region_presets.c]. [meshtastic_backoff.c] paces reconnects.
    [meshtastic_router.c] is where a received frame enters: it drops duplicates, has the
    frame decoded and delivered, and decides whether it is relayed. Two nodes near each
    other also talk over Bluetooth ([meshtastic_ble_peer.c] on the wire format of
    [meshtastic_ble_peer_codec.c], connections told apart by
    [meshtastic_ble_registry.c]), and a node may have a second radio attached, which
    [meshtastic_attachment.c] commands in the envelopes of [meshtastic_attachment_codec.c].
    The phone is served by [meshtastic_phoneapi.c] and [meshtastic_phoneapi_config.c], over a byte stream by
    [meshtastic_serial.c] and [meshtastic_tcp.c]. [meshtastic_traffic.c] decides for the
    router which nodes send too much, [meshtastic_admin_session.c] which remote requests
    may change anything.

    ** Files

    - [Prelude]: integers at their width, errno results, little-endian fields, list,
      ring and counting lemmas, tactics ([bools], [branches]) shared by the rest.
    - [Hlc] (meshtastic_hlc.c, .h): the clock, the stamps and the class [VersionOrder]
      that the document's merge is proved against. Stamps minted on a node increase
      across any mix of local writes and observations, a write made after observing a
      stamp wins over it, and a remote stamp drags the clock no further than the drift
      bound.
    - [Sched] (meshtastic_sched.c, .h): the policy record, its presets, its textual
      interface and the counters. The policy stays in its ranges whatever is typed.
    - [Contention] (meshtastic_contention.c): transmit delays, with 32-bit products
      wrapped where the code wraps them. Delays stay inside the window the policy
      bounds, and a router's window ends before a client's begins.
    - [Backoff] (meshtastic_backoff.c): the capped exponential delay, in closed form.
    - [Packet] (meshtastic.h, meshtastic_packet.c): the packet structs, the wire header
      and its flag byte, both ways.
    - [Outbound] (meshtastic_outbound.c): the queue, its semaphores, eviction,
      cancellation, deferral and the worker, as a step relation whose steps are the
      regions under the lock. Blocking callers are completed exactly once, the choice
      of the next frame is the policy's, the array and the semaphores stay in range.
    - [Reliable] (meshtastic_reliable.c): the pending table and its timer, as runs of
      operations. Every tracked send ends exactly once, the retry budget is kept, a
      send nobody answers is reported as failed, an answer resolves its send.
    - [Routes] (meshtastic_nodedb.c, the route part): next hops and route health behind
      the class [RouteStore] with its laws; a route is used only while fresh and with
      fewer than three failures in a row.
    - [Routing] (meshtastic_routing.c): acknowledgements, relayer log, route learning
      over any [RouteStore]. A route is learned only through every gate, an exchange of
      acknowledgements ends, and the two packet representations are treated alike.
    - [Utf8] (meshtastic_utf8.c): the sanitizer against a byte-range grammar of UTF-8.
    - [Relay] (meshtastic_relay.c): admission with its caches and caps, the send work
      item, the stored settings. Relays do not loop, rates and repeats are bounded,
      settings survive a restart.
    - [ClusterDoc] (meshtastic_cluster_doc.c, .h): the document as a sorted table, its
      merge, scopes, digests, eviction, effective values, fragments and signing buffer.
      Replicas with room for every key converge to the last-writer-wins map whatever the
      order of arrival, the request predicate agrees with the merge, digests of nodes on different tiers
      are comparable, narrowing a claim changes nothing a node runs, and a signature
      covers the whole entry.
    - [ClusterIngest] (meshtastic_cluster.c, the path of an entry): the entry burst with
      its fragment cursor, the reassembly slot, the gates and the ingest handler.
      Only admitted entries are stored, signatures are verified where required,
      fragments of different versions are never spliced, and an entry sent in order
      arrives whole.
    - [PeerCodec] (meshtastic_ble_peer_codec.c, .h): beats, adverts, the chunker and the
      reassembler. A frame cut for any chunk size is delivered once and whole, only
      unbroken runs of chunks are ever delivered, later versions stay readable.
    - [BleRegistry] (meshtastic_ble_registry.c): the connection slots and their
      statistics, which balance under any sequence of operations.
    - [PeerLink] (meshtastic_ble_peer.c): the peer link in both roles as a step relation
      over the Bluetooth stack's callbacks and the work items. The hunt for a peer never
      dies, a preferred peer is waited for, a diverted mesh frame reaches its node.
    - [AttachmentCodec] (meshtastic_attachment_codec.c): the envelopes; the decoder
      accepts exactly what the encoders write, field by field, and what may follow it.
    - [StreamFrame] (meshtastic_serial.c, meshtastic_tcp.c, the framing): frames with
      noise between them, cut anywhere, reach both receivers unchanged.
    - [PhoneApi] (meshtastic_phoneapi.c, meshtastic_phoneapi_config.c): the frame queue
      refines a list, its eviction gives up the least valuable frame, a handshake is
      answered in full and then the backlog, the node walk survives changes.
    - [PhoneTransport]: the senders of both streams, composing [PhoneApi] with
      [StreamFrame]: the other end reads what the session served, a full ring loses
      nothing.
    - [Router] (meshtastic_router.c): a packet is handled once and relayed a bounded
      number of times, a relay rewrites three bytes, a peer-link frame stays local, the
      MQTT downlink cannot administer the node.
    - [AdminSession] (meshtastic_admin_session.c): a key that is accepted was handed out
      within the last 300 seconds.
    - [Traffic] (meshtastic_traffic.c): the gate before delivery and relay; what one node
      gets through in a window length is bounded however the nodes that fit the table
      interleave.
    - [ClusterSync] (meshtastic_cluster.c, the anti-entropy engine): digests, the pull
      state machine, the vector walk, push on change, the claim and its narrowing, the
      fleet view, local writes. What the engine takes on it finishes while the cluster has its
      channel, and a node whose claim may narrow has room for its own settings.
    - [ClusterExchange]: two nodes' engines run against each other. A walk brings over the
      next six rows exactly, and nodes that lack nothing of each other fall silent.
    - [NodeDb] (meshtastic_nodedb.c): the hot store of peers, the warm ring of keys, and
      every operation on them. From a boot whose stored favourites leave the reserve, a new
      peer always finds a place; a protected peer keeps its key whatever the database
      handles; an eviction gives up the least valuable node and no key.
    - [Lockdown] (meshtastic_lockdown.c, .h): the passphrase lock over the settings store,
      over a class of cryptographic functions with their documented laws. What the owner
      saved survives, as long as the unlocked device is given no wrong passphrase, and only the
      key opens it; guesses cost reboots and run out, an
      unlock lasts no longer than its budget.
    - [LockdownPhone] (meshtastic_phoneapi_lockdown.c): the gate on the phone's
      connections; without the passphrase a phone gets nothing through.
    - [Bulk] (meshtastic_bulk.c): the store for large records with every failure of the
      file system as an argument; what was written whole is what is read.
    - [Pages] (meshtastic_nodedb.c, what its two stores share): the page writer, the meta
      record, the export under a lock, and when the flash agrees with the memory.
    - [KeyStore] (meshtastic_nodedb.c, the key records and warm pages): after a save that
      went through, a boot restores every key into its slot.
    - [RecordStore] (meshtastic_nodedb.c, the node records and their pages): the same for
      the peers of the hot store, whose favourites leave the reserve again; a locked device
      writes neither store.
    - [ConfigStore] (meshtastic_config_store.c, meshtastic_settings.c, the security section of
      meshtastic_admin.c, the boot of meshtastic.c): the sections with their versions, the
      setters and merges, what applying them does to the radio and the channels, the records
      and the walk over them, load, save, flush and wipe, each write with its own outcome.
      What leaves the identity alone in RAM and on flash is proved operation by operation.
    - [Pki] (meshtastic_pki.c): the key pair, the pending key, direct messages, the signing
      thread. A message reaches the node it is for; the identity is stable across boots and
      everything [ConfigStore] does in between, on a flash that keeps what it accepted.
    - [KeyVerify] (meshtastic_keyverify.c): the handshake of manual verification over
      [NodeDb] and [Pki]. What is marked is what was compared, two honest nodes that both
      knew each other or neither did succeed, strangers are answered once a minute.
    - [Clock] (meshtastic_clock.c, meshtastic_clock_persist.c, meshtastic_sntp.c): the wall
      clock, its sources and readings, the lock-free reader, the record across a reset.
      The best source is followed, a reading is never torn nor runs backwards, and a reset
      costs at most the time.
    - [Regions] (meshtastic_region_presets.c): the tables of regions, presets and bands and
      the frequency plan. Every legal preset has a plan inside its band, the last slot of
      six bands excepted.
    - [TxPower] (meshtastic_tx_power.c): the configured power, the region's limit and the
      amplifier's gain table; what is radiated stays under the limit.
    - [Channels] (meshtastic_channels.c): the channel slots, their keys and the one-byte
      hashes frames carry. Exactly one slot is primary whatever is edited; when exactly a
      frame of a channel is recognised by a node on another preset.
    - [Presets] (meshtastic_preset.c): the preset switch over [Channels] and [Regions], and
      the hop between presets. A switch takes hold whole or is undone, a hop waits until
      nothing is under way and always comes to an answer.
    - [Attachment] (meshtastic_attachment.c, the brain's side): the table of radio heads,
      their admission, the choice of a radio for a packet and what the heads are asked for.
      A packet leaves by a head that is on its preset and ready, a fan-out by each such head
      once, and a received frame is only believed from a node that was let in.

    ** How the code is modelled

    State is a record per component with one setter per field; an operation is a
    function from the arguments and the state to the new state and what it returns or
    calls (an errno, a result, a list of effects in program order). Where threads meet,
    a region under a lock is one atomic function and the components' runs interleave
    them. Kconfig symbols are fields of a class ([SchedKconfig], [ObKconfig],
    [RelKconfig], [RelayKconfig]) with the ranges Kconfig enforces as laws, or fields
    of an environment record. Clocks, random words, radio results, the node database,
    the generated protobuf codecs, CRC-32 and the signature verifier are arguments:
    the theorems hold for all their values. Unsigned arithmetic wraps where the C types
    make it wrap; where a sum cannot wrap the lemmas show it.

    Loops are structural recursions on the array or carry a fuel that the array length
    bounds: the cancel loop and the table scans run over the indices, the entry-serving
    loop over the keys left of a request (at most six), the fragment loop over at most
    128 payload bytes, the backoff loop over the attempts, the configuration stream over
    five turns ([config_turns_enough]: a turn without a frame moves to a later stage),
    the senders over the frames the session can serve, the cluster's worker over a measure
    of the frames it owes ([work]), one run less after each. Where a theorem runs such a
    loop, the fuel it uses is shown to be enough and the result is the completed one.

    ** Not modelled

    Device, flash and socket I/O, the radio driver, the Bluetooth and MQTT stacks, the
    display and the shell, cryptography, generated protobuf code, and floating-point
    statistics (airtime, duty cycle). The contents of the phone's messages and the
    handlers of what the phone sends. Log lines are left out; the counters and the
    throttles that decide whether a line is written are not.

    Of the program's own logic, these parts are left: the cluster module's stored records
    and its reconciler into the config store, the admin handlers but for the security section,
    the configuration backup, neighbour info, the telemetry cadence, and the head's side of
    an attachment with its bearers. *)
From Stdlib Require Export ZArith Lia ZifyBool.
From stdpp Require Export base decidable option list list_numbers sets gmap strings.

#[global] Open Scope Z_scope.

(** ** Machine integers

    A C integer is a [Z]; a conversion to a narrower or unsigned type is written
    out with the wrap below, at the place where the C code has it. *)
Definition wrap (w z : Z) : Z := z `mod` 2 ^ w.
Abbreviation u8 := (wrap 8).
Abbreviation u16 := (wrap 16).
Abbreviation u32 := (wrap 32).

Definition UINT8_MAX : Z := 255.
Definition UINT16_MAX : Z := 65535.
Definition UINT32_MAX : Z := 4294967295.
Definition INT64_MAX : Z := 9223372036854775807.

(** The two's complement reading of a 32-bit value ([(int32_t)x]). *)
Definition to_i32 (z : Z) : Z :=
  let v := u32 z in if v <? 2 ^ 31 then v else v - 2 ^ 32.

(** The same for a width of [w] bits. *)
Definition to_signed (w z : Z) : Z :=
  let v := wrap w z in if v <? 2 ^ (w - 1) then v else v - 2 ^ w.
Abbreviation to_i8 := (to_signed 8).
Abbreviation to_i16 := (to_signed 16).

Definition in_signed (w z : Z) : Prop := - 2 ^ (w - 1) <= z < 2 ^ (w - 1).
Abbreviation in_i8 := (in_signed 8).
Abbreviation in_i16 := (in_signed 16).
Abbreviation in_i32 := (in_signed 32).

Definition in_u8 (z : Z) : Prop := 0 <= z <= UINT8_MAX.
Definition in_u16 (z : Z) : Prop := 0 <= z <= UINT16_MAX.
Definition in_u32 (z : Z) : Prop := 0 <= z <= UINT32_MAX.

Lemma wrap_range w z : 0 <= w -> 0 <= wrap w z < 2 ^ w.
Proof. intros Hw. apply Z.mod_pos_bound. apply Z.pow_pos_nonneg; lia. Qed.

Lemma wrap_small w z : 0 <= z < 2 ^ w -> wrap w z = z.
Proof. apply Z.mod_small. Qed.

Lemma to_i32_signed z : to_i32 z = to_signed 32 z.
Proof. done. Qed.

Lemma to_signed_range w z : 0 < w -> in_signed w (to_signed w z).
Proof.
  intros Hw. unfold in_signed, to_signed. pose proof (wrap_range w z ltac:(lia)) as Hr.
  assert (E : 2 ^ w = 2 * 2 ^ (w - 1)) by (rewrite <- Z.pow_succ_r by lia; f_equal; lia).
  destruct (_ <? _) eqn:H; [apply Z.ltb_lt in H | apply Z.ltb_ge in H]; lia.
Qed.

(** A signed value survives the passage through the unsigned type of its width. *)
Lemma to_signed_wrap w z : 0 < w -> in_signed w z -> to_signed w (wrap w z) = z.
Proof.
  intros Hw Hz. unfold in_signed, to_signed, wrap in *.
  assert (E : 2 ^ w = 2 * 2 ^ (w - 1)) by (rewrite <- Z.pow_succ_r by lia; f_equal; lia).
  assert (0 < 2 ^ (w - 1)) by (apply Z.pow_pos_nonneg; lia).
  rewrite Z.mod_mod by lia. destruct (Z.lt_ge_cases z 0) as [Hn|Hp].
  - replace (z `mod` 2 ^ w) with (z + 2 ^ w)
      by (rewrite <- (Z.mod_add z 1), Z.mul_1_l by lia; symmetry; apply Z.mod_small; lia).
    destruct (_ <? _) eqn:H'; [apply Z.ltb_lt in H' | apply Z.ltb_ge in H']; lia.
  - rewrite Z.mod_small by lia. destruct (_ <? _) eqn:H'; [done | apply Z.ltb_ge in H'; lia].
Qed.

Lemma u8_range z : 0 <= u8 z <= 255.
Proof. pose proof (wrap_range 8 z). lia. Qed.

Lemma u16_range z : 0 <= u16 z <= 65535.
Proof. pose proof (wrap_range 16 z). lia. Qed.

Lemma u32_range z : 0 <= u32 z <= 4294967295.
Proof. pose proof (wrap_range 32 z). lia. Qed.

Lemma u8_small z : 0 <= z <= 255 -> u8 z = z.
Proof. intros. apply wrap_small. lia. Qed.

Lemma u16_small z : 0 <= z <= 65535 -> u16 z = z.
Proof. intros. apply wrap_small. lia. Qed.

Lemma u32_small z : 0 <= z <= 4294967295 -> u32 z = z.
Proof. intros. apply wrap_small. lia. Qed.

(** ** Results

    The codes the modelled functions return. [OK] is the C return value 0 and
    [ERR e] the negative errno [-e]. *)
Inductive errno : Type :=
  | EPERM | ENOENT | EIO | EAGAIN | ENOMEM | EBUSY | EINVAL | ENOSPC | ENOTSUP
  | ENOMSG | ENOBUFS | EHOSTUNREACH | EMSGSIZE | EALREADY | EINPROGRESS
  | ESTALE | ECANCELED | ENOTCONN | EBADMSG | ENODATA | EEXIST | EACCES | ETIMEDOUT | ENODEV.

#[export] Instance errno_eq_dec : EqDecision errno.
Proof. solve_decision. Defined.

Inductive cret : Type :=
  | OK
  | ERR (e : errno).

#[export] Instance cret_eq_dec : EqDecision cret.
Proof. solve_decision. Defined.

(** A C function that returns a non-negative count or a negative errno. *)
Inductive res (A : Type) : Type :=
  | Val (a : A)
  | Fail (e : errno).
Arguments Val {A} a.
Arguments Fail {A} e.

#[export] Instance res_eq_dec `{EqDecision A} : EqDecision (res A).
Proof. solve_decision. Defined.

Definition res_bind {A B} (r : res A) (k : A -> res B) : res B :=
  match r with
  | Val a => k a
  | Fail e => Fail e
  end.

Declare Scope c_scope.
Delimit Scope c_scope with c.
Notation "'let!' x ':=' r 'in' k" := (res_bind r (fun x => k))
  (at level 10, x pattern, r at level 100, k at level 200) : c_scope.
(** [guard b else e in k]: the early return [if (!b) return -e]. *)
Notation "'guard' b 'else' e 'in' k" := (if b then k else Fail e)
  (at level 10, b at level 100, e at level 100, k at level 200) : c_scope.

(** ** Tactics *)

(** Turn boolean tests in the context into propositions. *)
Ltac bools :=
  repeat match goal with
  | H : _ && _ = true |- _ => apply andb_true_iff in H as [? ?]
  | H : _ || _ = false |- _ => apply orb_false_iff in H as [? ?]
  | H : negb _ = true |- _ => apply negb_true_iff in H
  | H : negb _ = false |- _ => apply negb_false_iff in H
  | H : (_ =? _) = true |- _ => apply Z.eqb_eq in H
  | H : (_ =? _) = false |- _ => apply Z.eqb_neq in H
  | H : (_ <? _) = true |- _ => apply Z.ltb_lt in H
  | H : (_ <? _) = false |- _ => apply Z.ltb_ge in H
  | H : (_ <=? _) = true |- _ => apply Z.leb_le in H
  | H : (_ <=? _) = false |- _ => apply Z.leb_gt in H
  | H : bool_decide _ = true |- _ => apply bool_decide_eq_true in H
  | H : bool_decide _ = false |- _ => apply bool_decide_eq_false in H
  end.

(** Split on the tests of the code, one [if] at a time. *)
Ltac branch :=
  match goal with
  | |- context [if ?b then _ else _] =>
      lazymatch b with
      | context [if _ then _ else _] => fail
      | _ => let E := fresh "Eb" in destruct b eqn:E
      end
  | H : context [if ?b then _ else _] |- _ =>
      lazymatch b with
      | context [if _ then _ else _] => fail
      | _ => let E := fresh "Eb" in destruct b eqn:E
      end
  end.
Ltac branches := repeat branch; bools.

Create HintDb wire discriminated.
Create HintDb mesh discriminated.
#[export] Hint Resolve u8_range u16_range u32_range : mesh.

(** ** First match in an array

    [for (i = 0; i < n; i++) if (p(a[i])) return i; return -1;] *)
Fixpoint find_index {A} (p : A -> bool) (l : list A) : option nat :=
  match l with
  | [] => None
  | x :: l' => if p x then Some 0%nat else S <$> find_index p l'
  end.

Lemma find_index_Some {A} (p : A -> bool) l i :
  find_index p l = Some i <->
  exists x, l !! i = Some x /\ p x = true /\
            forall j y, (j < i)%nat -> l !! j = Some y -> p y = false.
Proof.
  revert i. induction l as [|x l IH]; intros i; simpl.
  { split; [done | intros (y & Hy & _)]. done. }
  destruct (p x) eqn:Hx.
  - split.
    + intros [= <-]. exists x. repeat split; [done | intros; lia].
    + intros (y & Hy & Hp & Hlt). destruct i as [|i]; [done|].
      specialize (Hlt 0%nat x ltac:(lia) eq_refl). congruence.
  - destruct i as [|i].
    + split.
      * destruct (find_index p l); simpl; congruence.
      * intros (y & [= <-] & Hp & _). congruence.
    + rewrite fmap_Some. split.
      * intros (k & Hk & [= <-]). apply IH in Hk as (y & Hy & Hp & Hlt).
        exists y. repeat split; [done | done |].
        intros [|j] z Hj Hz; simpl in Hz; [congruence | apply (Hlt j z); [lia | done]].
      * intros (y & Hy & Hp & Hlt). exists i. split; [|done]. apply IH.
        exists y. repeat split; [done | done |].
        intros j z Hj Hz. apply (Hlt (S j) z); [lia | done].
Qed.

Lemma find_index_None {A} (p : A -> bool) l :
  find_index p l = None <-> forall i x, l !! i = Some x -> p x = false.
Proof.
  induction l as [|x l IH]; simpl.
  { split; [intros _ i y Hy; done | done]. }
  destruct (p x) eqn:Hx.
  - split; [done | intros H; specialize (H 0%nat x eq_refl); congruence].
  - destruct (find_index p l) eqn:E; simpl.
    + split; [done|]. intros H. assert (Hn : Some n = None); [|done].
      apply IH. intros i y Hy. apply (H (S i) y Hy).
    + split; [|done]. intros _ [|i] y Hy; simpl in Hy; [congruence|].
      apply (proj1 IH eq_refl i y Hy).
Qed.

Lemma find_index_Some_1 {A} (p : A -> bool) l i :
  find_index p l = Some i -> exists x, l !! i = Some x /\ p x = true.
Proof. intros (x & ? & ? & _)%find_index_Some. eauto. Qed.

Lemma find_index_lt {A} (p : A -> bool) l i :
  find_index p l = Some i -> (i < length l)%nat.
Proof. intros (x & Hx & _)%find_index_Some_1. by apply lookup_lt_Some in Hx. Qed.

Lemma find_index_is_Some {A} (p : A -> bool) l i x :
  l !! i = Some x -> p x = true -> is_Some (find_index p l).
Proof.
  intros Hx Hp. destruct (find_index p l) eqn:E; [eauto|].
  rewrite find_index_None in E. rewrite (E _ _ Hx) in Hp. done.
Qed.

(** The existence form of the same loop. *)
Lemma existsb_lookup {A} (p : A -> bool) l :
  existsb p l = true <-> exists i x, l !! i = Some x /\ p x = true.
Proof.
  rewrite existsb_exists. setoid_rewrite <- list_elem_of_In.
  setoid_rewrite list_elem_of_lookup. naive_solver.
Qed.

(** ** Best match in an array

    [best = -1; for (i...) { if (!ok(a[i])) continue;
       if (best < 0 || better(a[i], a[best])) best = i; }] *)
Definition scan_step {A} (ok : A -> bool) (better : A -> A -> bool)
    (i : nat) (best : option (nat * A)) (x : A) : option (nat * A) :=
  if ok x then
    match best with
    | None => Some (i, x)
    | Some (_, y) => if better x y then Some (i, x) else best
    end
  else best.

Fixpoint scan_from {A} (ok : A -> bool) (better : A -> A -> bool)
    (i : nat) (best : option (nat * A)) (l : list A) : option (nat * A) :=
  match l with
  | [] => best
  | x :: l' => scan_from ok better (S i) (scan_step ok better i best x) l'
  end.

Definition scan_best {A} (ok : A -> bool) (better : A -> A -> bool) (l : list A) :=
  scan_from ok better 0 None l.

Section ScanBest.
Context {A : Type} (ok : A -> bool) (better : A -> A -> bool).

Lemma scan_from_snoc l x n b :
  scan_from ok better n b (l ++ [x]) =
  scan_step ok better (n + length l) (scan_from ok better n b l) x.
Proof.
  revert n b. induction l as [|y l IH]; intros n b; simpl.
  - by rewrite Nat.add_0_r.
  - rewrite IH. f_equal. lia.
Qed.

Lemma scan_best_snoc l x :
  scan_best ok better (l ++ [x]) =
  scan_step ok better (length l) (scan_best ok better l) x.
Proof. apply scan_from_snoc. Qed.

Lemma scan_best_None l :
  scan_best ok better l = None <-> forall x, x ∈ l -> ok x = false.
Proof.
  induction l as [|x l IH] using rev_ind; [split; [set_solver | done]|].
  rewrite scan_best_snoc. unfold scan_step.
  assert (x ∈ l ++ [x]) by set_solver.
  destruct (ok x) eqn:Hx.
  - split; [|intros H'; rewrite H' in Hx; done].
    destruct (scan_best ok better l) as [[k y]|]; [destruct (better x y)|]; done.
  - rewrite IH. setoid_rewrite elem_of_app. set_solver.
Qed.

Context (key : A -> Z).

(** What the scan returns when [better] ranks by [key]: an admissible entry of
    least key, and on a tie the first such entry (strict comparison) or the
    last one (non-strict comparison). *)
Definition least_entry (tie : nat -> nat -> Prop) (l : list A) (i : nat) (x : A) : Prop :=
  l !! i = Some x /\ ok x = true /\
  forall j y, l !! j = Some y -> ok y = true ->
              key x <= key y /\ (key x = key y -> tie i j).

Lemma least_entry_snoc tie l z i x :
  least_entry tie l i x ->
  (ok z = true -> key x <= key z /\ (key x = key z -> tie i (length l))) ->
  least_entry tie (l ++ [z]) i x.
Proof.
  intros (Hi & Hox & Hall) Hz. split; [by apply lookup_app_l_Some|]. split; [done|].
  intros j y [Hj|[Hlen Hj]]%lookup_app_Some Hoy; [by apply Hall|].
  apply list_lookup_singleton_Some in Hj as [Hj <-].
  replace j with (length l) by lia. by apply Hz.
Qed.

Lemma least_entry_last (tie : nat -> nat -> Prop) l z :
  ok z = true -> tie (length l) (length l) ->
  (forall j y, l !! j = Some y -> ok y = true ->
     key z <= key y /\ (key z = key y -> tie (length l) j)) ->
  least_entry tie (l ++ [z]) (length l) z.
Proof.
  intros Hoz Htie Hall. split; [by apply list_lookup_middle|]. split; [done|].
  intros j y [Hj|[Hlen Hj]]%lookup_app_Some Hoy; [by apply Hall|].
  apply list_lookup_singleton_Some in Hj as [Hj <-].
  replace j with (length l) by lia. split; [lia | done].
Qed.

Lemma scan_best_first l i x :
  (forall x y, better x y = (key x <? key y)) ->
  scan_best ok better l = Some (i, x) -> least_entry le l i x.
Proof.
  intros Hbet. revert i x. induction l as [|z l IH] using rev_ind; intros i x; [done|].
  rewrite scan_best_snoc. unfold scan_step. destruct (ok z) eqn:Hoz.
  - destruct (scan_best ok better l) as [[k y]|] eqn:E.
    + destruct (IH k y eq_refl) as (Hk & Hoy & Hall).
      rewrite Hbet. destruct (key z <? key y) eqn:Hzy; bools; intros [= <- <-].
      * apply least_entry_last; [done | lia |].
        intros j w Hw Hok. destruct (Hall j w Hw Hok). lia.
      * apply least_entry_snoc; [by apply IH|]. intros _.
        apply lookup_lt_Some in Hk. lia.
    + intros [= <- <-]. rewrite scan_best_None in E.
      apply least_entry_last; [done | lia |].
      intros j w Hw Hok. rewrite (E w) in Hok; [done|]. by eapply list_elem_of_lookup_2.
  - intros E. apply least_entry_snoc; [by apply IH | congruence].
Qed.

Lemma scan_best_last l i x :
  (forall x y, better x y = (key x <=? key y)) ->
  scan_best ok better l = Some (i, x) -> least_entry ge l i x.
Proof.
  intros Hbet. revert i x. induction l as [|z l IH] using rev_ind; intros i x; [done|].
  rewrite scan_best_snoc. unfold scan_step. destruct (ok z) eqn:Hoz.
  - destruct (scan_best ok better l) as [[k y]|] eqn:E.
    + destruct (IH k y eq_refl) as (Hk & Hoy & Hall).
      rewrite Hbet. destruct (key z <=? key y) eqn:Hzy; bools; intros [= <- <-].
      * apply least_entry_last; [done | lia |].
        intros j w Hw Hok. destruct (Hall j w Hw Hok). apply lookup_lt_Some in Hw. lia.
      * apply least_entry_snoc; [by apply IH|]. intros _. lia.
    + intros [= <- <-]. rewrite scan_best_None in E.
      apply least_entry_last; [done | lia |].
      intros j w Hw Hok. rewrite (E w) in Hok; [done|]. by eapply list_elem_of_lookup_2.
  - intros E. apply least_entry_snoc; [by apply IH | congruence].
Qed.
End ScanBest.

(** ** Bytes, little-endian

    A byte array is a [list Z] of values in [0, 256). *)
Definition byte_ok (b : Z) : Prop := 0 <= b < 256.
Definition bytes_ok (l : list Z) : Prop := Forall byte_ok l.

Fixpoint le_put (n : nat) (z : Z) : list Z :=
  match n with
  | O => []
  | S n' => z `mod` 256 :: le_put n' (z / 256)
  end.

Fixpoint le_get (l : list Z) : Z :=
  match l with
  | [] => 0
  | b :: l' => b + 256 * le_get l'
  end.

Lemma length_le_put n z : length (le_put n z) = n.
Proof. revert z. induction n; intros; simpl; [done | by rewrite IHn]. Qed.

Lemma le_put_ok n z : bytes_ok (le_put n z).
Proof.
  revert z. induction n as [|n IH]; intros z; constructor; [|apply IH].
  apply Z.mod_pos_bound. lia.
Qed.

Lemma le_get_range l : bytes_ok l -> 0 <= le_get l < 256 ^ Z.of_nat (length l).
Proof.
  induction 1 as [|b l Hb _ IH]; cbn [le_get length]; [lia|].
  rewrite Nat2Z.inj_succ, Z.pow_succ_r by lia. unfold byte_ok in Hb. nia.
Qed.

Lemma le_get_put n z : 0 <= z < 256 ^ Z.of_nat n -> le_get (le_put n z) = z.
Proof.
  revert z. induction n as [|n IH]; intros z Hz; cbn [le_get le_put]; [lia|].
  rewrite Nat2Z.inj_succ, Z.pow_succ_r in Hz by lia.
  rewrite IH; [pose proof (Z.div_mod z 256); lia|].
  split; [apply Z.div_pos; lia | apply Z.div_lt_upper_bound; lia].
Qed.

Lemma le_put_get l : bytes_ok l -> le_put (length l) (le_get l) = l.
Proof.
  induction 1 as [|b l Hb Hl IH]; cbn [le_get le_put length]; [done|].
  unfold byte_ok in Hb.
  rewrite (Z.mul_comm 256), Z.mod_add, Z.mod_small by lia.
  rewrite Z.div_add, (Z.div_small b) by lia. by rewrite Z.add_0_l, IH.
Qed.

(** [n] bytes at offset [off], as a little-endian number. *)
Definition get_le (n off : nat) (l : list Z) : Z := le_get (take n (drop off l)).
Abbreviation get_le16 := (get_le 2).
Abbreviation get_le32 := (get_le 4).
Abbreviation get_le64 := (get_le 8).
Abbreviation put_le16 := (le_put 2).
Abbreviation put_le32 := (le_put 4).
Abbreviation put_le64 := (le_put 8).

Lemma get_le_app_here n z l : 0 <= z < 256 ^ Z.of_nat n -> get_le n 0 (le_put n z ++ l) = z.
Proof.
  intros Hz. unfold get_le. rewrite drop_0, take_app_length' by (symmetry; apply length_le_put).
  by apply le_get_put.
Qed.

Lemma get_le_app_skip n off pre l :
  length pre = off -> get_le n off (pre ++ l) = get_le n 0 l.
Proof. intros <-. unfold get_le. by rewrite drop_app_length, drop_0. Qed.

(** [memcpy(buf + off, bytes, len)] into an array that holds it. *)
Definition buf_write (off : nat) (bytes buf : list Z) : list Z :=
  take off buf ++ bytes ++ drop (off + length bytes) buf.

Lemma length_buf_write off bytes buf :
  (off + length bytes <= length buf)%nat -> length (buf_write off bytes buf) = length buf.
Proof. intros H. unfold buf_write. rewrite !length_app, length_take, length_drop. lia. Qed.

Lemma take_buf_write off bytes buf :
  (off + length bytes <= length buf)%nat ->
  take (off + length bytes) (buf_write off bytes buf) = take off buf ++ bytes.
Proof.
  intros H. unfold buf_write. rewrite app_assoc. apply take_app_length'.
  rewrite length_app, length_take. lia.
Qed.

(** A fact about every byte is checked by running over the 256 values. *)
Lemma byte_all (p : Z -> bool) (b : Z) :
  forallb p (seqZ 0 256) = true -> byte_ok b -> p b = true.
Proof.
  intros Hp Hb. rewrite forallb_forall in Hp. apply Hp, list_elem_of_In, elem_of_seqZ.
  unfold byte_ok in Hb. lia.
Qed.

Lemma land_ones_mod z n m : 0 <= n -> m = 2 ^ n - 1 -> Z.land z m = z `mod` 2 ^ n.
Proof. intros Hn ->. rewrite <- Z.land_ones by lia. f_equal. rewrite Z.ones_equiv. lia. Qed.

(** A low part or-ed with a shifted high part is their sum. *)
Lemma lor_shiftl_add a b n : 0 <= n -> 0 <= a < 2 ^ n -> Z.lor a (Z.shiftl b n) = a + b * 2 ^ n.
Proof.
  intros Hn Ha. rewrite <- Z.shiftl_mul_pow2 by lia. rewrite <- Z.add_lor_land.
  replace (Z.land a (Z.shiftl b n)) with 0; [lia|].
  symmetry. apply Z.bits_inj'. intros k Hk. rewrite Z.land_spec, Z.bits_0.
  destruct (Z.lt_ge_cases k n).
  - rewrite Z.shiftl_spec_low by lia. apply andb_false_r.
  - replace (Z.testbit a k) with false; [done|]. symmetry.
    destruct (Z.eq_dec a 0) as [->|]; [apply Z.bits_0|].
    apply Z.bits_above_log2; [lia|]. apply Z.log2_lt_pow2; [lia|].
    apply (Z.lt_le_trans _ (2 ^ n)); [lia|]. apply Z.pow_le_mono_r; lia.
Qed.

#[export] Hint Resolve le_put_ok : wire.

Arguments le_put : simpl never.
Arguments le_get : simpl never.
Arguments get_le : simpl never.

(** [p[i]], inside the array. *)
Definition byte_at (l : list Z) (i : nat) : Z := default 0 (l !! i).
Abbreviation Zlen l := (Z.of_nat (length l)).

Lemma byte_at_ok l i : bytes_ok l -> in_u8 (byte_at l i).
Proof.
  intros Hl. unfold byte_at, in_u8, UINT8_MAX. destruct (l !! i) as [b|] eqn:E; simpl; [|lia].
  assert (byte_ok b) as Hb by (eapply Forall_lookup_1; eauto). unfold byte_ok in Hb. lia.
Qed.

Lemma byte_at_drop l n i : byte_at (drop n l) i = byte_at l (n + i).
Proof. unfold byte_at. by rewrite lookup_drop. Qed.

Lemma get_le_range n off l : bytes_ok l -> 0 <= get_le n off l < 256 ^ Z.of_nat n.
Proof.
  intros Hl. unfold get_le.
  assert (bytes_ok (take n (drop off l))) as Ht by (apply Forall_take, Forall_drop, Hl).
  pose proof (le_get_range _ Ht) as Hr. rewrite length_take in Hr.
  split; [lia|]. eapply Z.lt_le_trans; [apply Hr|]. apply Z.pow_le_mono_r; lia.
Qed.

Lemma get_le16_ok off l : bytes_ok l -> in_u16 (get_le16 off l).
Proof.
  intros Hl. pose proof (get_le_range 2 off l Hl) as Hr.
  change (256 ^ Z.of_nat 2) with 65536 in Hr. unfold in_u16, UINT16_MAX. lia.
Qed.

Lemma get_le32_ok off l : bytes_ok l -> in_u32 (get_le32 off l).
Proof.
  intros Hl. pose proof (get_le_range 4 off l Hl) as Hr.
  change (256 ^ Z.of_nat 4) with 4294967296 in Hr. unfold in_u32, UINT32_MAX. lia.
Qed.

#[export] Hint Resolve byte_at_ok get_le16_ok get_le32_ok : wire.

Lemma zero_u8 : in_u8 0.
Proof. unfold in_u8, UINT8_MAX. lia. Qed.
Lemma zero_u16 : in_u16 0.
Proof. unfold in_u16, UINT16_MAX. lia. Qed.
#[export] Hint Resolve zero_u8 zero_u16 : wire.

Lemma omap_cons_list {A B} (f : A -> option B) x l :
  omap f (x :: l) = option_list (f x) ++ omap f l.
Proof. simpl. by destruct (f x). Qed.

(** A signed reading of a wrapped difference is the difference, when it is small. *)
Lemma to_i32_of_diff x k :
  x `mod` 2 ^ 32 = k `mod` 2 ^ 32 -> - 2 ^ 31 <= k < 2 ^ 31 -> to_i32 x = k.
Proof.
  intros E Hk. unfold to_i32, wrap. rewrite E.
  destruct (Z.lt_ge_cases k 0) as [Hneg|Hpos].
  - assert (Ek : k `mod` 2 ^ 32 = k + 2 ^ 32).
    { rewrite <- (Z.mod_add k 1) by lia. apply Z.mod_small. lia. }
    rewrite Ek. destruct (_ <? _) eqn:?; bools; lia.
  - rewrite Z.mod_small by lia. destruct (_ <? _) eqn:?; bools; lia.
Qed.

(** ** Sums and slot updates *)
Definition sum_with {A} (f : A -> Z) (l : list A) : Z := foldr (fun x n => f x + n) 0 l.

Lemma sum_with_cons {A} (f : A -> Z) x l : sum_with f (x :: l) = f x + sum_with f l.
Proof. done. Qed.

Lemma sum_with_app {A} (f : A -> Z) l k : sum_with f (l ++ k) = sum_with f l + sum_with f k.
Proof. induction l as [|x l IH]; simpl; [done | rewrite IH; lia]. Qed.

Lemma sum_with_nonneg {A} (f : A -> Z) l : (forall x, x ∈ l -> 0 <= f x) -> 0 <= sum_with f l.
Proof.
  induction l as [|x l IH]; intros Hf; simpl; [done|].
  assert (0 <= f x) by (apply Hf; set_solver). assert (0 <= sum_with f l) by (apply IH; set_solver). lia.
Qed.

Lemma sum_with_insert {A} (f : A -> Z) (l : list A) (i : nat) x y :
  l !! i = Some x -> sum_with f (<[i:=y]> l) = sum_with f l - f x + f y.
Proof.
  intros Hx. pose proof (lookup_lt_Some _ _ _ Hx).
  rewrite insert_take_drop by done. rewrite <- (take_drop_middle l i x Hx) at 3.
  rewrite !sum_with_app. simpl. lia.
Qed.

(** Overwriting one slot exchanges its contribution. *)
Lemma omap_insert_perm {A B} (f : A -> option B) (l : list A) (i : nat) x y :
  l !! i = Some x ->
  omap f (<[i:=y]> l) ++ option_list (f x) ≡ₚ omap f l ++ option_list (f y).
Proof.
  intros Hx. pose proof (lookup_lt_Some _ _ _ Hx).
  rewrite insert_take_drop by done. rewrite <- (take_drop_middle l i x Hx) at 3.
  rewrite !omap_app, !omap_cons_list. rewrite <- !app_assoc.
  apply Permutation_app_head. rewrite (Permutation_app_comm (option_list (f y))).
  rewrite <- app_assoc. rewrite (Permutation_app_comm (option_list (f x)) (_ ++ _)).
  rewrite <- !app_assoc. apply Permutation_app_head, Permutation_app_comm.
Qed.

Lemma alter_insert_lookup {A} (f : A -> A) (l : list A) (i : nat) x :
  l !! i = Some x -> alter f i l = <[i := f x]> l.
Proof.
  revert i. induction l as [|y l IH]; intros [|i] Hx; simplify_eq/=; [done|].
  f_equal. by apply IH.
Qed.

(** A slot that is the first match, or any slot when nothing matches, is the first
    match once a matching value is written to it. *)
Lemma find_index_insert {A} (p : A -> bool) (l : list A) (i : nat) x :
  (i < length l)%nat -> (find_index p l = None \/ find_index p l = Some i) -> p x = true ->
  find_index p (<[i:=x]> l) = Some i.
Proof.
  intros Hi Hf Hx. apply find_index_Some. exists x.
  split; [by apply list_lookup_insert_eq|]. split; [done|].
  intros j y Hj. rewrite list_lookup_insert_ne by lia. intros Hy.
  destruct Hf as [Hf|Hf]; [by eapply find_index_None|].
  apply find_index_Some in Hf as (_ & _ & _ & Hall). by eapply Hall.
Qed.

(** Writing a value with the same answer does not move the first match. *)
Lemma find_index_insert_same {A} (p : A -> bool) (l : list A) (i : nat) x y :
  l !! i = Some x -> p y = p x -> find_index p (<[i:=y]> l) = find_index p l.
Proof.
  revert i. induction l as [|z l IH]; intros [|i] Hx Hp; simplify_eq/=; [by rewrite Hp|].
  destruct (p z); [done|]. by rewrite (IH i).
Qed.

Lemma alter_none {A} (f : A -> A) (l : list A) (i : nat) : l !! i = None -> alter f i l = l.
Proof.
  revert i. induction l as [|y l IH]; intros [|i] Hx; simplify_eq/=; [done | done|].
  f_equal. by apply IH.
Qed.

(** ** Ring buffers

    [log[head] = x; head = (head + 1) % size;] *)
Definition ring_push {A} (size : nat) (g : list A * nat) (x : A) : list A * nat :=
  (<[g.2 := x]> g.1, ((g.2 + 1) `mod` size)%nat).

(** Read from the head on, a ring that was filled with [z] and pushed [xs] holds
    the last [size] values of [z ... z xs]. *)
Lemma ring_recent {A} (size : nat) (z : A) xs :
  (0 < size)%nat ->
  let g := foldl (ring_push size) (replicate size z, 0%nat) xs in
  length g.1 = size /\ (g.2 < size)%nat /\
  drop g.2 g.1 ++ take g.2 g.1 = drop (length xs) (replicate size z ++ xs).
Proof.
  intros Hs. induction xs as [|x xs IH] using rev_ind.
  { simpl. by rewrite !drop_0, take_0, !app_nil_r, length_replicate. }
  rewrite foldl_snoc. destruct (foldl _ _ xs) as [l h]. cbv zeta in *. simpl in *.
  destruct IH as (Hl & Hh & Hrot).
  destruct (lookup_lt_is_Some_2 l h ltac:(lia)) as [y Hy].
  rewrite length_insert. split; [done|]. split; [apply Nat.mod_upper_bound; lia|].
  rewrite length_app, app_assoc. simpl. rewrite !Nat.add_1_r, drop_app_le
    by (rewrite length_app, length_replicate; lia).
  assert (Et : drop (S (length xs)) (replicate size z ++ xs) = drop (S h) l ++ take h l).
  { transitivity (drop 1 (drop (length xs) (replicate size z ++ xs))); [by rewrite drop_drop, Nat.add_1_r|].
    rewrite <- Hrot, (drop_S l y h Hy). done. }
  rewrite Et. rewrite insert_take_drop by lia.
  assert (length (take h l) = h) by (rewrite length_take; lia).
  destruct (decide (S h = size)) as [He|Hne].
  - rewrite He, Nat.Div0.mod_same, drop_0, take_0, app_nil_r.
    rewrite drop_ge by lia. done.
  - rewrite Nat.mod_small by lia.
    rewrite cons_middle, app_assoc, drop_app_length', take_app_length' by (rewrite length_app; simpl; lia).
    by rewrite app_assoc.
Qed.

Lemma ring_elem_of {A} (size : nat) (z : A) xs x :
  (0 < size)%nat -> x <> z ->
  x ∈ (foldl (ring_push size) (replicate size z, 0%nat) xs).1 <-> x ∈ drop (length xs - size) xs.
Proof.
  intros Hs Hx. destruct (ring_recent size z xs Hs) as (_ & _ & Hrot).
  destruct (foldl _ _ xs) as [l h]. simpl in *.
  transitivity (x ∈ drop h l ++ take h l).
  { rewrite <- (take_drop h l) at 1. rewrite !elem_of_app. tauto. }
  rewrite Hrot, drop_app, length_replicate, elem_of_app. split; [intros [Hz|?]; [|done] | by right].
  apply list_elem_of_lookup in Hz as [i Hi]. rewrite lookup_drop in Hi.
  apply lookup_replicate in Hi as [? _]. congruence.
Qed.

(** A position of a ring, less than two rounds from its start. *)
Lemma mod_wrap n m : (n < m + m)%nat -> (n `mod` m = if (n <? m)%nat then n else n - m)%nat.
Proof.
  intros H. destruct (Nat.ltb_spec n m) as [Hn|Hn]; [by apply Nat.mod_small|].
  replace n with ((n - m) + 1 * m)%nat at 1 by lia.
  rewrite Nat.Div0.mod_add. apply Nat.mod_small. lia.
Qed.
