(* ===== verification/Hlc.v ===== *)
(** * The hybrid logical clock (src/src/meshtastic_hlc.c, meshtastic_hlc.h)

    Versions for the last-writer-wins configuration merge. The clock pair and the
    stamps are records, the two operations that advance a clock are functions on
    the record, and [compare] is the three-way comparison of the C code. The
    theorems: stamps are totally ordered, a node's clock only moves forward, a
    node that observed a stamp mints past it (causality), and a peer with a
    broken clock cannot drag a seeded clock beyond the drift window. The class
    [VersionOrder] is what the replicated documents rely on. *)
From S2P Require Import Prelude.

(** ** Data *)

Definition MESHTASTIC_HLC_MAX_DRIFT_MS : Z := 5 * 60 * 1000.

Record hlc := Hlc {
  physical_ms : Z;
  counter : Z;
}.

Record hlc_stamp := HlcStamp {
  st_physical_ms : Z;
  st_counter : Z;
  st_node_id : Z;
}.

#[export] Instance hlc_stamp_eq_dec : EqDecision hlc_stamp.
Proof. solve_decision. Defined.

(** ** Operations *)

(** [bump_counter(&physical, &counter, from)]: the new pair. *)
Definition bump_counter (physical from : Z) : Z * Z :=
  if from =? UINT32_MAX then (physical + 1, 0) else (physical, from + 1).

Definition clamp_now (now_ms : Z) : Z := if now_ms <? 0 then 0 else now_ms.

(** The body of [meshtastic_hlc_local_at] for a non-NULL clock. *)
Definition hlc_local (h : hlc) (node_id now_ms : Z) : hlc * hlc_stamp :=
  let now := clamp_now now_ms in
  let prev := physical_ms h in
  let p := Z.max prev now in
  let '(p', c') := if p =? prev then bump_counter p (counter h) else (p, 0) in
  (Hlc p' c', HlcStamp p' c' node_id).

(** [hlc == NULL] returns at once; [out == NULL] only advances the clock. *)
Definition meshtastic_hlc_local_at (h : option hlc) (node_id now_ms : Z) (out : bool)
    : option hlc * option hlc_stamp :=
  match h with
  | None => (None, None)
  | Some h =>
      let '(h', s) := hlc_local h node_id now_ms in
      (Some h', if out then Some s else None)
  end.

(** The body of [meshtastic_hlc_observe_at] for non-NULL arguments: the new clock
    and whether the remote time was clamped. *)
Definition hlc_observe (h : hlc) (remote : hlc_stamp) (now_ms : Z) : hlc * bool :=
  let now := clamp_now now_ms in
  let clamped :=
    (0 <? now) && (now + MESHTASTIC_HLC_MAX_DRIFT_MS <? st_physical_ms remote) in
  let remote_ms := if clamped then now else st_physical_ms remote in
  let prev := physical_ms h in
  let l := Z.max prev (Z.max remote_ms now) in
  let '(l', c') :=
    if (l =? prev) && (l =? remote_ms) then
      bump_counter l (Z.max (counter h) (st_counter remote))
    else if l =? prev then bump_counter l (counter h)
    else if l =? remote_ms then bump_counter l (st_counter remote)
    else (l, 0) in
  (Hlc l' c', clamped).

Definition meshtastic_hlc_observe_at (h : option hlc) (remote : option hlc_stamp)
    (now_ms : Z) : option hlc * bool :=
  match h, remote with
  | Some h, Some r => let '(h', c) := hlc_observe h r now_ms in (Some h', c)
  | _, _ => (h, false)
  end.

Definition meshtastic_hlc_compare (a b : hlc_stamp) : Z :=
  if negb (st_physical_ms a =? st_physical_ms b) then
    (if st_physical_ms b <? st_physical_ms a then 1 else -1)
  else if negb (st_counter a =? st_counter b) then
    (if st_counter b <? st_counter a then 1 else -1)
  else if negb (st_node_id a =? st_node_id b) then
    (if st_node_id b <? st_node_id a then 1 else -1)
  else 0.

Definition meshtastic_hlc_newer (a b : hlc_stamp) : bool :=
  0 <? meshtastic_hlc_compare a b.

Definition meshtastic_hlc_stamp_is_unset (s : hlc_stamp) : bool :=
  (st_physical_ms s =? 0) && (st_counter s =? 0) && (st_node_id s =? 0).

Definition unset_stamp : hlc_stamp := HlcStamp 0 0 0.

(** The wrappers read the node's wall clock, given here as the value read. *)
Definition meshtastic_hlc_local (h : option hlc) (node_id epoch_ms : Z) (out : bool) :=
  meshtastic_hlc_local_at h node_id epoch_ms out.
Definition meshtastic_hlc_observe (h : option hlc) (remote : option hlc_stamp) (epoch_ms : Z) :=
  meshtastic_hlc_observe_at h remote epoch_ms.

(** ** Well-formedness *)

(** The counter fits its [uint32_t] and the physical part is an epoch time. *)
Definition hlc_wf (h : hlc) : Prop := 0 <= physical_ms h /\ in_u32 (counter h).
Definition stamp_wf (s : hlc_stamp) : Prop := in_u32 (st_counter s) /\ in_u32 (st_node_id s).

(** The order of clock readings: physical time, then counter. *)
Definition tick_lt (p c p' c' : Z) : Prop := p < p' \/ (p = p' /\ c < c').
Definition hlc_before (h h' : hlc) : Prop :=
  tick_lt (physical_ms h) (counter h) (physical_ms h') (counter h').
Definition stamp_before (s : hlc_stamp) (h : hlc) : Prop :=
  tick_lt (st_physical_ms s) (st_counter s) (physical_ms h) (counter h).

(** [s] is a reading of the clock no later than [h]. *)
Definition stamp_upto (s : hlc_stamp) (h : hlc) : Prop :=
  stamp_before s h \/ (st_physical_ms s = physical_ms h /\ st_counter s = counter h).

Ltac hlc_crush :=
  unfold hlc_local, hlc_observe, bump_counter, clamp_now, hlc_wf, stamp_wf, in_u32,
    hlc_before, stamp_before, tick_lt, UINT32_MAX, MESHTASTIC_HLC_MAX_DRIFT_MS in *;
  intros; simpl in *; branches; simplify_eq; simpl in *; lia.

(** *** The clock only moves forward *)

Lemma hlc_local_wf h n now : hlc_wf h -> hlc_wf (hlc_local h n now).1.
Proof. destruct h; hlc_crush. Qed.

Lemma hlc_local_forward h n now : hlc_wf h -> hlc_before h (hlc_local h n now).1.
Proof. destruct h; hlc_crush. Qed.

Lemma hlc_local_stamp h n now :
  (hlc_local h n now).2 =
  HlcStamp (physical_ms (hlc_local h n now).1) (counter (hlc_local h n now).1) n.
Proof. unfold hlc_local. by destruct (if _ =? _ then _ else _). Qed.

Lemma hlc_observe_wf h r now :
  hlc_wf h -> stamp_wf r -> hlc_wf (hlc_observe h r now).1.
Proof. destruct h, r; hlc_crush. Qed.

Lemma hlc_observe_forward h r now :
  hlc_wf h -> stamp_wf r -> hlc_before h (hlc_observe h r now).1.
Proof. destruct h, r; hlc_crush. Qed.

Lemma hlc_observe_ahead_of_remote h r now :
  hlc_wf h -> stamp_wf r -> (hlc_observe h r now).2 = false ->
  stamp_before r (hlc_observe h r now).1.
Proof. destruct h, r; hlc_crush. Qed.

Lemma hlc_before_trans h1 h2 h3 : hlc_before h1 h2 -> hlc_before h2 h3 -> hlc_before h1 h3.
Proof. unfold hlc_before, tick_lt; lia. Qed.

Lemma stamp_upto_before s h h' : stamp_upto s h -> hlc_before h h' -> stamp_before s h'.
Proof. unfold stamp_upto, stamp_before, hlc_before, tick_lt; lia. Qed.

Lemma local_stamp_upto h n now : stamp_upto (hlc_local h n now).2 (hlc_local h n now).1.
Proof. rewrite hlc_local_stamp. by right. Qed.

Lemma local_stamp_newer s h n now :
  stamp_before s (hlc_local h n now).1 ->
  meshtastic_hlc_newer (hlc_local h n now).2 s = true.
Proof.
  rewrite hlc_local_stamp.
  unfold stamp_before, tick_lt, meshtastic_hlc_newer, meshtastic_hlc_compare.
  destruct (hlc_local h n now) as [[p c] ?]; simpl. intros; branches; lia.
Qed.

(** *** Compare is a total order *)

Lemma hlc_compare_eq a b : meshtastic_hlc_compare a b = 0 <-> a = b.
Proof.
  unfold meshtastic_hlc_compare. destruct a as [p c n], b as [p' c' n']; simpl.
  split; [|intros [= -> -> ->]; rewrite !Z.eqb_refl; done].
  intros H. f_equal; branches; lia.
Qed.

Lemma hlc_compare_antisym a b : meshtastic_hlc_compare b a = - meshtastic_hlc_compare a b.
Proof. unfold meshtastic_hlc_compare. branches; lia. Qed.

Lemma hlc_newer_irrefl a : meshtastic_hlc_newer a a = false.
Proof. unfold meshtastic_hlc_newer. by rewrite (proj2 (hlc_compare_eq a a) eq_refl). Qed.

Lemma hlc_newer_trans a b c :
  meshtastic_hlc_newer a b = true -> meshtastic_hlc_newer b c = true ->
  meshtastic_hlc_newer a c = true.
Proof. unfold meshtastic_hlc_newer, meshtastic_hlc_compare. intros. branches; lia. Qed.

Lemma hlc_newer_total a b :
  a = b \/ meshtastic_hlc_newer a b = true \/ meshtastic_hlc_newer b a = true.
Proof.
  destruct (decide (meshtastic_hlc_compare a b = 0)) as [E|E].
  - left. by apply hlc_compare_eq.
  - right. unfold meshtastic_hlc_newer. rewrite (hlc_compare_antisym a b). lia.
Qed.

Lemma hlc_is_unset_iff s : meshtastic_hlc_stamp_is_unset s = true <-> s = unset_stamp.
Proof.
  unfold meshtastic_hlc_stamp_is_unset, unset_stamp. destruct s as [p c n]; simpl. split.
  - intros H. bools. by subst.
  - by intros [= -> -> ->].
Qed.

(** *** Runs of one node's clock

    The events a node's clock sees: a local write at a wall-clock reading, or a
    remote stamp observed at one. *)
Inductive hlc_event : Type :=
  | EvLocal (now : Z)
  | EvObserve (r : hlc_stamp) (now : Z).

Inductive hlc_run (node : Z) : hlc -> list hlc_stamp -> hlc -> Prop :=
  | run_done h : hlc_run node h [] h
  | run_local h now ss h' :
      hlc_run node (hlc_local h node now).1 ss h' ->
      hlc_run node h ((hlc_local h node now).2 :: ss) h'
  | run_observe h r now ss h' :
      stamp_wf r ->
      hlc_run node (hlc_observe h r now).1 ss h' ->
      hlc_run node h ss h'.

Lemma hlc_run_after node h ss h' :
  hlc_run node h ss h' -> hlc_wf h ->
  forall s0, stamp_upto s0 h -> forall s, s ∈ ss -> meshtastic_hlc_newer s s0 = true.
Proof.
  induction 1 as [h|h now ss h' _ IH|h r now ss h' Hr _ IH]; intros Hwf s0 Hs0 s Hin.
  - by apply not_elem_of_nil in Hin.
  - pose proof (stamp_upto_before _ _ _ Hs0 (hlc_local_forward h node now Hwf)) as Hs0'.
    apply elem_of_cons in Hin as [->|Hin]; [by apply local_stamp_newer|].
    by apply (IH (hlc_local_wf _ _ _ Hwf) s0); [left|].
  - apply (IH (hlc_observe_wf _ _ _ Hwf Hr) s0); [|done]. left.
    by eapply stamp_upto_before, hlc_observe_forward.
Qed.

(** ** The interface the replicated documents use

    Last-writer-wins needs versions that every node compares the same way. *)
Class VersionOrder (V : Type) (newer : V -> V -> bool) : Prop := {
  vo_irrefl : forall a, newer a a = false;
  vo_trans : forall a b c, newer a b = true -> newer b c = true -> newer a c = true;
  vo_total : forall a b, a = b \/ newer a b = true \/ newer b a = true;
}.

#[export] Instance hlc_version_order : VersionOrder hlc_stamp meshtastic_hlc_newer.
Proof.
  split; [apply hlc_newer_irrefl | apply hlc_newer_trans | apply hlc_newer_total].
Qed.

Section VersionOrder.
Context {V : Type} {newer : V -> V -> bool} `{!VersionOrder V newer}.

Lemma vo_asym a b : newer a b = true -> newer b a = false.
Proof.
  intros H. destruct (newer b a) eqn:E; [|done].
  pose proof (vo_trans a b a H E) as Haa. by rewrite vo_irrefl in Haa.
Qed.

Lemma vo_not_newer a b : newer a b = false -> a = b \/ newer b a = true.
Proof. intros H. destruct (vo_total a b) as [?|[?|?]]; [by left | congruence | by right]. Qed.

(** The later of two versions, as every merge computes it. *)
Definition later (a b : V) : V := if newer b a then b else a.

Lemma later_comm a b : later a b = later b a.
Proof.
  unfold later. destruct (newer b a) eqn:E1, (newer a b) eqn:E2; try done.
  - rewrite (vo_asym _ _ E1) in E2. done.
  - by destruct (vo_not_newer _ _ E1) as [?|?]; [|congruence].
Qed.

Lemma later_assoc a b c : later a (later b c) = later (later a b) c.
Proof.
  unfold later.
  destruct (newer c b) eqn:Ecb; destruct (newer b a) eqn:Eba; rewrite ?Ecb; try done.
  - by rewrite (vo_trans c b a Ecb Eba).
  - destruct (newer c a) eqn:Eca; [|done].
    destruct (vo_not_newer _ _ Ecb) as [->|Hbc]; [congruence|].
    rewrite (vo_trans b c a Hbc Eca) in Eba. done.
Qed.

Lemma later_idem a : later a a = a.
Proof. unfold later. by rewrite vo_irrefl. Qed.
End VersionOrder.

(** ** Properties *)

(** Every stamp a node mints is newer than every stamp it minted before, over
    any interleaving of local writes and observed remote stamps, at any (also
    negative, unseeded or backward-stepping) wall-clock readings. *)
Theorem hlc_minted_stamps_increase node h ss1 s ss2 h' :
  hlc_wf h -> hlc_run node h (ss1 ++ s :: ss2) h' ->
  forall s', s' ∈ ss2 -> meshtastic_hlc_newer s' s = true.
Proof.
  intros Hwf Hrun. remember (ss1 ++ s :: ss2) as ss eqn:E. revert ss1 E.
  induction Hrun as [h|h now ss h' Hrun IH|h r now ss h' Hr _ IH]; intros ss1 E s' Hin.
  - by destruct ss1.
  - pose proof (hlc_local_wf h node now Hwf) as Hwf'.
    destruct ss1 as [|s1 ss1]; injection E as Es Ess; [|by eapply IH].
    subst. apply (hlc_run_after _ _ _ _ Hrun Hwf' _ (local_stamp_upto h node now) _ Hin).
  - eapply IH; [by apply hlc_observe_wf | done | done].
Qed.

Lemma hlc_minted_stamps_increase_witness :
  meshtastic_hlc_newer (HlcStamp 1000 1 7) (HlcStamp 1000 0 7) = true.
Proof.
  apply (hlc_minted_stamps_increase 7 (Hlc 0 0) [] (HlcStamp 1000 0 7) [HlcStamp 1000 1 7]
           (Hlc 1000 1)).
  - vm_compute. intuition congruence.
  - simpl. apply (run_local 7 (Hlc 0 0) 1000), (run_local 7 (Hlc 1000 0) (-5)), run_done.
  - apply list_elem_of_here.
Defined.

(** Causality. Once a node has observed a stamp that is not beyond the drift
    window, whatever it writes next is newer, whatever its own wall clock says. *)
Theorem hlc_write_after_observe_wins h r node now now' :
  hlc_wf h -> stamp_wf r -> (hlc_observe h r now).2 = false ->
  meshtastic_hlc_newer (hlc_local (hlc_observe h r now).1 node now').2 r = true.
Proof.
  intros Hwf Hr Hc. apply local_stamp_newer.
  eapply stamp_upto_before; [left; by apply hlc_observe_ahead_of_remote|].
  by apply hlc_local_forward, hlc_observe_wf.
Qed.

Lemma hlc_write_after_observe_wins_witness :
  meshtastic_hlc_newer
    (hlc_local (hlc_observe (Hlc 0 0) (HlcStamp 9000 4294967295 2) 0).1 1 0).2
    (HlcStamp 9000 4294967295 2) = true.
Proof.
  apply (hlc_write_after_observe_wins (Hlc 0 0) (HlcStamp 9000 4294967295 2) 1 0 0);
    vm_compute; intuition congruence.
Defined.

(** [meshtastic_hlc_compare] is a total order: it is 0 only on identical
    stamps, swapping the arguments flips its sign, and "newer" is transitive. *)
Theorem hlc_compare_total_order :
  (forall a b, meshtastic_hlc_compare a b = 0 <-> a = b) /\
  (forall a b, meshtastic_hlc_compare b a = - meshtastic_hlc_compare a b) /\
  (forall a b c, meshtastic_hlc_newer a b = true -> meshtastic_hlc_newer b c = true ->
                 meshtastic_hlc_newer a c = true).
Proof.
  split; [apply hlc_compare_eq|]. split; [apply hlc_compare_antisym|].
  exact hlc_newer_trans.
Qed.

(** The drift guard. On a node whose wall clock is seeded, an observed stamp
    never moves the physical part past the later of where it was and the drift
    window (plus the one millisecond the counter may spend); a stamp from beyond
    the window is reported as clamped and leaves the clock within a millisecond
    of what it and the wall clock already said. *)
Theorem hlc_drift_bounded h r now :
  hlc_wf h -> stamp_wf r -> 0 < now ->
  let '(h', clamped) := hlc_observe h r now in
  physical_ms h' <= Z.max (physical_ms h) (now + MESHTASTIC_HLC_MAX_DRIFT_MS) + 1 /\
  (clamped = true <-> now + MESHTASTIC_HLC_MAX_DRIFT_MS < st_physical_ms r) /\
  (clamped = true -> physical_ms h' <= Z.max (physical_ms h) now + 1).
Proof. destruct h, r; hlc_crush. Qed.

Lemma hlc_drift_bounded_witness :
  physical_ms (hlc_observe (Hlc 500 3) (HlcStamp 99999999 0 2) 1000).1 <= 1001.
Proof.
  pose proof (hlc_drift_bounded (Hlc 500 3) (HlcStamp 99999999 0 2) 1000
    ltac:(vm_compute; intuition congruence) ltac:(vm_compute; intuition congruence)
    ltac:(lia)) as H.
  vm_compute in H. vm_compute. destruct H as (_ & _ & H). apply H. reflexivity.
Defined.

(** A minted stamp is never the all-zero "never set" sentinel, also on a node
    whose wall clock was never seeded. *)
Theorem hlc_local_never_unset h node now :
  hlc_wf h -> meshtastic_hlc_stamp_is_unset (hlc_local h node now).2 = false.
Proof.
  intros Hwf. pose proof (hlc_local_forward h node now Hwf) as Hf.
  rewrite hlc_local_stamp. unfold meshtastic_hlc_stamp_is_unset; simpl.
  unfold hlc_wf, hlc_before, tick_lt, in_u32 in *. lia.
Qed.

Lemma hlc_local_never_unset_witness :
  meshtastic_hlc_stamp_is_unset (hlc_local (Hlc 0 0) 0 0).2 = false.
Proof. apply (hlc_local_never_unset (Hlc 0 0) 0 0). vm_compute. intuition congruence. Defined.

(** The bump stays inside [int64_t] unless a clock reading already sits at its
    maximum; on an unseeded node a peer's stamp at that maximum with a saturated
    counter is accepted and drives the physical part one past [INT64_MAX], which
    the C code computes with a signed addition. *)
Theorem hlc_observe_physical_range :
  (forall h r now, hlc_wf h -> stamp_wf r ->
     physical_ms h < INT64_MAX -> st_physical_ms r < INT64_MAX -> now < INT64_MAX ->
     physical_ms (hlc_observe h r now).1 <= INT64_MAX) /\
  (forall h n, hlc_wf h -> physical_ms h < INT64_MAX ->
     hlc_observe h (HlcStamp INT64_MAX UINT32_MAX n) 0 = (Hlc (INT64_MAX + 1) 0, false)).
Proof.
  split.
  - intros [p c] [rp rc rn] now. unfold INT64_MAX. hlc_crush.
  - intros [p c] n [Hp Hc] Hlt. simpl in *. unfold hlc_observe, clamp_now, INT64_MAX in *; simpl.
    rewrite !Z.max_r by lia. destruct (_ =? p) eqn:E; [lia|]. done.
Qed.
