(* ===== verification/Sched.v ===== *)
(** * Scheduler policy (src/src/meshtastic_sched.c, meshtastic_sched.h)

    The egress policy record, its presets, the textual [sched set] interface and
    the live counters. [cfg_lock] makes every operation below atomic, so the
    component is a record of policy and counters with one function per
    operation. The theorems: the policy stays in its documented ranges whatever
    text is set, a refused change changes nothing, and an accepted one changes
    the named knob only and starts a fresh measurement window. *)
From S2P Require Import Prelude.
From Stdlib Require Import Ascii String.
From stdpp Require Import pretty.
Open Scope Z_scope.

(** ** Build-time configuration (Kconfig symbols and their ranges) *)
Class SchedKconfig := {
  OB_MAX : Z;          (* CONFIG_MESHTASTIC_OUTBOUND_QUEUE_MAX *)
  QUEUE_DEPTH : Z;     (* CONFIG_MESHTASTIC_OUTBOUND_QUEUE_DEPTH *)
  OB_MAX_range : 2 <= OB_MAX <= 64;
  QUEUE_DEPTH_range : 2 <= QUEUE_DEPTH <= 64;
}.

(** The Kconfig defaults. *)
Definition default_sched_kconfig : SchedKconfig :=
  {| OB_MAX := 16; QUEUE_DEPTH := 8;
     OB_MAX_range := ltac:(lia); QUEUE_DEPTH_range := ltac:(lia) |}.

Definition OB_DEFAULT `{SchedKconfig} : Z := Z.min QUEUE_DEPTH OB_MAX.

(** ** Data *)

Definition MT_SCHED_TIER_BG : Z := 0.
Definition MT_SCHED_TIER_NORMAL : Z := 1.
Definition MT_SCHED_TIER_HIGH : Z := 2.
Definition MT_SCHED_TIER_ACK : Z := 3.
Definition MT_SCHED_TIER_COUNT : Z := 4.

Inductive sched_order := ORDER_FIFO | ORDER_PRIORITY.
Inductive sched_overflow := OVF_DROP_NEWEST | OVF_DROP_LOWEST.
Inductive sched_phone_evict := PHONE_DROP_OLDEST | PHONE_PROTECT.

#[export] Instance sched_order_eq_dec : EqDecision sched_order.
Proof. solve_decision. Defined.
#[export] Instance sched_overflow_eq_dec : EqDecision sched_overflow.
Proof. solve_decision. Defined.
#[export] Instance sched_phone_evict_eq_dec : EqDecision sched_phone_evict.
Proof. solve_decision. Defined.

Record sched_config := SchedConfig {
  tx_order : sched_order;
  tx_overflow : sched_overflow;
  tx_depth : Z;
  phone_evict : sched_phone_evict;
  airtime_max_util : Z;
  dedup_ttl_sec : Z;
  reliable_retries : Z;
  reliable_timeout_ms : Z;
  route_ttl_sec : Z;
  cw_min : Z;
  cw_max : Z;
  cw_relay_offset : Z;
  cw_slot_ms : Z;
}.
Definition set_tx_order (v : sched_order) (r : sched_config) : sched_config :=
SchedConfig v (tx_overflow r) (tx_depth r) (phone_evict r) (airtime_max_util r)
    (dedup_ttl_sec r) (reliable_retries r) (reliable_timeout_ms r) (route_ttl_sec r) (cw_min
    r) (cw_max r) (cw_relay_offset r) (cw_slot_ms r).
Definition set_tx_overflow (v : sched_overflow) (r : sched_config) : sched_config :=
SchedConfig (tx_order r) v (tx_depth r) (phone_evict r) (airtime_max_util r) (dedup_ttl_sec
    r) (reliable_retries r) (reliable_timeout_ms r) (route_ttl_sec r) (cw_min r) (cw_max r)
    (cw_relay_offset r) (cw_slot_ms r).
Definition set_tx_depth (v : Z) (r : sched_config) : sched_config :=
SchedConfig (tx_order r) (tx_overflow r) v (phone_evict r) (airtime_max_util r)
    (dedup_ttl_sec r) (reliable_retries r) (reliable_timeout_ms r) (route_ttl_sec r) (cw_min
    r) (cw_max r) (cw_relay_offset r) (cw_slot_ms r).
Definition set_phone_evict (v : sched_phone_evict) (r : sched_config) : sched_config :=
SchedConfig (tx_order r) (tx_overflow r) (tx_depth r) v (airtime_max_util r) (dedup_ttl_sec
    r) (reliable_retries r) (reliable_timeout_ms r) (route_ttl_sec r) (cw_min r) (cw_max r)
    (cw_relay_offset r) (cw_slot_ms r).
Definition set_airtime_max_util (v : Z) (r : sched_config) : sched_config :=
SchedConfig (tx_order r) (tx_overflow r) (tx_depth r) (phone_evict r) v (dedup_ttl_sec r)
    (reliable_retries r) (reliable_timeout_ms r) (route_ttl_sec r) (cw_min r) (cw_max r)
    (cw_relay_offset r) (cw_slot_ms r).
Definition set_dedup_ttl_sec (v : Z) (r : sched_config) : sched_config :=
SchedConfig (tx_order r) (tx_overflow r) (tx_depth r) (phone_evict r) (airtime_max_util r) v
    (reliable_retries r) (reliable_timeout_ms r) (route_ttl_sec r) (cw_min r) (cw_max r)
    (cw_relay_offset r) (cw_slot_ms r).
Definition set_reliable_retries (v : Z) (r : sched_config) : sched_config :=
SchedConfig (tx_order r) (tx_overflow r) (tx_depth r) (phone_evict r) (airtime_max_util r)
    (dedup_ttl_sec r) v (reliable_timeout_ms r) (route_ttl_sec r) (cw_min r) (cw_max r)
    (cw_relay_offset r) (cw_slot_ms r).
Definition set_reliable_timeout_ms (v : Z) (r : sched_config) : sched_config :=
SchedConfig (tx_order r) (tx_overflow r) (tx_depth r) (phone_evict r) (airtime_max_util r)
    (dedup_ttl_sec r) (reliable_retries r) v (route_ttl_sec r) (cw_min r) (cw_max r)
    (cw_relay_offset r) (cw_slot_ms r).
Definition set_route_ttl_sec (v : Z) (r : sched_config) : sched_config :=
SchedConfig (tx_order r) (tx_overflow r) (tx_depth r) (phone_evict r) (airtime_max_util r)
    (dedup_ttl_sec r) (reliable_retries r) (reliable_timeout_ms r) v (cw_min r) (cw_max r)
    (cw_relay_offset r) (cw_slot_ms r).
Definition set_cw_min (v : Z) (r : sched_config) : sched_config :=
SchedConfig (tx_order r) (tx_overflow r) (tx_depth r) (phone_evict r) (airtime_max_util r)
    (dedup_ttl_sec r) (reliable_retries r) (reliable_timeout_ms r) (route_ttl_sec r) v
    (cw_max r) (cw_relay_offset r) (cw_slot_ms r).
Definition set_cw_max (v : Z) (r : sched_config) : sched_config :=
SchedConfig (tx_order r) (tx_overflow r) (tx_depth r) (phone_evict r) (airtime_max_util r)
    (dedup_ttl_sec r) (reliable_retries r) (reliable_timeout_ms r) (route_ttl_sec r) (cw_min
    r) v (cw_relay_offset r) (cw_slot_ms r).
Definition set_cw_relay_offset (v : Z) (r : sched_config) : sched_config :=
SchedConfig (tx_order r) (tx_overflow r) (tx_depth r) (phone_evict r) (airtime_max_util r)
    (dedup_ttl_sec r) (reliable_retries r) (reliable_timeout_ms r) (route_ttl_sec r) (cw_min
    r) (cw_max r) v (cw_slot_ms r).
Definition set_cw_slot_ms (v : Z) (r : sched_config) : sched_config :=
SchedConfig (tx_order r) (tx_overflow r) (tx_depth r) (phone_evict r) (airtime_max_util r)
    (dedup_ttl_sec r) (reliable_retries r) (reliable_timeout_ms r) (route_ttl_sec r) (cw_min
    r) (cw_max r) (cw_relay_offset r) v.

#[export] Instance sched_config_eq_dec : EqDecision sched_config.
Proof. solve_decision. Defined.

(** The counters, [atomic_t] each; a reading is the [uint32_t] of the counter. *)
Record sched_stats := SchedStats {
  st_enq : list Z;
  st_drop : list Z;
  st_hiwater : Z;
  st_phone_drop : Z;
  st_phone_drop_protected : Z;
  st_airtime_drop : Z;
  st_dedup_expired : Z;
  st_reliable_acked : Z;
  st_reliable_failed : Z;
  st_relay_sent : Z;
  st_relay_redundant : Z;
  st_relay_cancelled : Z;
  st_relay_deferred_late : Z;
  st_relay_gap : list Z;
}.
Definition set_st_enq (v : list Z) (r : sched_stats) : sched_stats :=
SchedStats v (st_drop r) (st_hiwater r) (st_phone_drop r) (st_phone_drop_protected r)
    (st_airtime_drop r) (st_dedup_expired r) (st_reliable_acked r) (st_reliable_failed r)
    (st_relay_sent r) (st_relay_redundant r) (st_relay_cancelled r) (st_relay_deferred_late
    r) (st_relay_gap r).
Definition set_st_drop (v : list Z) (r : sched_stats) : sched_stats :=
SchedStats (st_enq r) v (st_hiwater r) (st_phone_drop r) (st_phone_drop_protected r)
    (st_airtime_drop r) (st_dedup_expired r) (st_reliable_acked r) (st_reliable_failed r)
    (st_relay_sent r) (st_relay_redundant r) (st_relay_cancelled r) (st_relay_deferred_late
    r) (st_relay_gap r).
Definition set_st_hiwater (v : Z) (r : sched_stats) : sched_stats :=
SchedStats (st_enq r) (st_drop r) v (st_phone_drop r) (st_phone_drop_protected r)
    (st_airtime_drop r) (st_dedup_expired r) (st_reliable_acked r) (st_reliable_failed r)
    (st_relay_sent r) (st_relay_redundant r) (st_relay_cancelled r) (st_relay_deferred_late
    r) (st_relay_gap r).
Definition set_st_phone_drop (v : Z) (r : sched_stats) : sched_stats :=
SchedStats (st_enq r) (st_drop r) (st_hiwater r) v (st_phone_drop_protected r)
    (st_airtime_drop r) (st_dedup_expired r) (st_reliable_acked r) (st_reliable_failed r)
    (st_relay_sent r) (st_relay_redundant r) (st_relay_cancelled r) (st_relay_deferred_late
    r) (st_relay_gap r).
Definition set_st_phone_drop_protected (v : Z) (r : sched_stats) : sched_stats :=
SchedStats (st_enq r) (st_drop r) (st_hiwater r) (st_phone_drop r) v (st_airtime_drop r)
    (st_dedup_expired r) (st_reliable_acked r) (st_reliable_failed r) (st_relay_sent r)
    (st_relay_redundant r) (st_relay_cancelled r) (st_relay_deferred_late r) (st_relay_gap
    r).
Definition set_st_airtime_drop (v : Z) (r : sched_stats) : sched_stats :=
SchedStats (st_enq r) (st_drop r) (st_hiwater r) (st_phone_drop r) (st_phone_drop_protected
    r) v (st_dedup_expired r) (st_reliable_acked r) (st_reliable_failed r) (st_relay_sent r)
    (st_relay_redundant r) (st_relay_cancelled r) (st_relay_deferred_late r) (st_relay_gap
    r).
Definition set_st_dedup_expired (v : Z) (r : sched_stats) : sched_stats :=
SchedStats (st_enq r) (st_drop r) (st_hiwater r) (st_phone_drop r) (st_phone_drop_protected
    r) (st_airtime_drop r) v (st_reliable_acked r) (st_reliable_failed r) (st_relay_sent r)
    (st_relay_redundant r) (st_relay_cancelled r) (st_relay_deferred_late r) (st_relay_gap
    r).
Definition set_st_reliable_acked (v : Z) (r : sched_stats) : sched_stats :=
SchedStats (st_enq r) (st_drop r) (st_hiwater r) (st_phone_drop r) (st_phone_drop_protected
    r) (st_airtime_drop r) (st_dedup_expired r) v (st_reliable_failed r) (st_relay_sent r)
    (st_relay_redundant r) (st_relay_cancelled r) (st_relay_deferred_late r) (st_relay_gap
    r).
Definition set_st_reliable_failed (v : Z) (r : sched_stats) : sched_stats :=
SchedStats (st_enq r) (st_drop r) (st_hiwater r) (st_phone_drop r) (st_phone_drop_protected
    r) (st_airtime_drop r) (st_dedup_expired r) (st_reliable_acked r) v (st_relay_sent r)
    (st_relay_redundant r) (st_relay_cancelled r) (st_relay_deferred_late r) (st_relay_gap
    r).
Definition set_st_relay_sent (v : Z) (r : sched_stats) : sched_stats :=
SchedStats (st_enq r) (st_drop r) (st_hiwater r) (st_phone_drop r) (st_phone_drop_protected
    r) (st_airtime_drop r) (st_dedup_expired r) (st_reliable_acked r) (st_reliable_failed r)
    v (st_relay_redundant r) (st_relay_cancelled r) (st_relay_deferred_late r) (st_relay_gap
    r).
Definition set_st_relay_redundant (v : Z) (r : sched_stats) : sched_stats :=
SchedStats (st_enq r) (st_drop r) (st_hiwater r) (st_phone_drop r) (st_phone_drop_protected
    r) (st_airtime_drop r) (st_dedup_expired r) (st_reliable_acked r) (st_reliable_failed r)
    (st_relay_sent r) v (st_relay_cancelled r) (st_relay_deferred_late r) (st_relay_gap r).
Definition set_st_relay_cancelled (v : Z) (r : sched_stats) : sched_stats :=
SchedStats (st_enq r) (st_drop r) (st_hiwater r) (st_phone_drop r) (st_phone_drop_protected
    r) (st_airtime_drop r) (st_dedup_expired r) (st_reliable_acked r) (st_reliable_failed r)
    (st_relay_sent r) (st_relay_redundant r) v (st_relay_deferred_late r) (st_relay_gap r).
Definition set_st_relay_deferred_late (v : Z) (r : sched_stats) : sched_stats :=
SchedStats (st_enq r) (st_drop r) (st_hiwater r) (st_phone_drop r) (st_phone_drop_protected
    r) (st_airtime_drop r) (st_dedup_expired r) (st_reliable_acked r) (st_reliable_failed r)
    (st_relay_sent r) (st_relay_redundant r) (st_relay_cancelled r) v (st_relay_gap r).
Definition set_st_relay_gap (v : list Z) (r : sched_stats) : sched_stats :=
SchedStats (st_enq r) (st_drop r) (st_hiwater r) (st_phone_drop r) (st_phone_drop_protected
    r) (st_airtime_drop r) (st_dedup_expired r) (st_reliable_acked r) (st_reliable_failed r)
    (st_relay_sent r) (st_relay_redundant r) (st_relay_cancelled r) (st_relay_deferred_late
    r) v.

Record sched := Sched { cfg : sched_config; stats : sched_stats }.

(** ** Presets *)

Definition AIRTIME_MAX_DEFAULT : Z := 40.
Definition DEDUP_TTL_DEFAULT : Z := 300.
Definition RELIABLE_RETRIES_DEFAULT : Z := 3.
Definition RELIABLE_TIMEOUT_DEFAULT : Z := 0.
Definition ROUTE_TTL_DEFAULT : Z := 1800.
Definition CW_MIN_DEFAULT : Z := 3.
Definition CW_MAX_DEFAULT : Z := 8.
Definition CW_RELAY_OFFSET_DEFAULT : Z := 2.
Definition CW_SLOT_MS_DEFAULT : Z := 0.

Definition preset_default `{SchedKconfig} : sched_config :=
  SchedConfig ORDER_PRIORITY OVF_DROP_LOWEST OB_DEFAULT PHONE_PROTECT
    AIRTIME_MAX_DEFAULT DEDUP_TTL_DEFAULT RELIABLE_RETRIES_DEFAULT
    RELIABLE_TIMEOUT_DEFAULT ROUTE_TTL_DEFAULT CW_MIN_DEFAULT CW_MAX_DEFAULT
    CW_RELAY_OFFSET_DEFAULT CW_SLOT_MS_DEFAULT.

Definition preset_no_backoff `{SchedKconfig} : sched_config :=
  SchedConfig ORDER_FIFO OVF_DROP_NEWEST OB_DEFAULT PHONE_DROP_OLDEST
    0 0 RELIABLE_RETRIES_DEFAULT RELIABLE_TIMEOUT_DEFAULT ROUTE_TTL_DEFAULT 0 0 0 0.

Definition presets `{SchedKconfig} : list (string * sched_config) :=
  [("default"%string, preset_default); ("no-backoff"%string, preset_no_backoff)].

(** ** Ports and tiers *)

Definition MESHTASTIC_PORT_TEXT_MESSAGE : Z := 1.
Definition MESHTASTIC_PORT_POSITION : Z := 3.
Definition MESHTASTIC_PORT_NODEINFO : Z := 4.
Definition MESHTASTIC_PORT_ROUTING : Z := 5.
Definition MESHTASTIC_PORT_NODE_STATUS : Z := 36.
Definition MESHTASTIC_PORT_MESH_BEACON : Z := 37.
Definition MESHTASTIC_PORT_TELEMETRY : Z := 67.
Definition MESHTASTIC_PORT_NEIGHBORINFO : Z := 71.
Definition MESHTASTIC_PORT_HEALTH : Z := 258.

Definition background_ports : list Z :=
  [MESHTASTIC_PORT_POSITION; MESHTASTIC_PORT_NODEINFO; MESHTASTIC_PORT_TELEMETRY;
   MESHTASTIC_PORT_NODE_STATUS; MESHTASTIC_PORT_NEIGHBORINFO; MESHTASTIC_PORT_MESH_BEACON;
   MESHTASTIC_PORT_HEALTH].

Definition meshtastic_sched_tier_for (portnum : Z) : Z :=
  if portnum =? MESHTASTIC_PORT_ROUTING then MT_SCHED_TIER_ACK
  else if existsb (Z.eqb portnum) background_ports then MT_SCHED_TIER_BG
  else MT_SCHED_TIER_NORMAL.

(** ** Counters *)

Definition stats_zero : sched_stats :=
  SchedStats (replicate 4 0) (replicate 4 0) 0 0 0 0 0 0 0 0 0 0 0 (replicate 7 0).

Definition meshtastic_sched_stats_reset (s : sched) : sched := Sched (cfg s) stats_zero.

Definition on_stats (f : sched_stats -> sched_stats) (s : sched) : sched :=
  Sched (cfg s) (f (stats s)).

(** [atomic_inc(&a[i])] of a counter array. *)
Definition inc_at (i : Z) (l : list Z) : list Z := alter (Z.add 1) (Z.to_nat i) l.

Definition meshtastic_sched_stat_enq (tier occupancy : Z) : sched_stats -> sched_stats :=
  fun st =>
    let st := if tier <? MT_SCHED_TIER_COUNT then set_st_enq (inc_at tier (st_enq st)) st else st in
    if st_hiwater st <? occupancy then set_st_hiwater occupancy st else st.

Definition meshtastic_sched_stat_drop (tier : Z) (st : sched_stats) : sched_stats :=
  if tier <? MT_SCHED_TIER_COUNT then set_st_drop (inc_at tier (st_drop st)) st else st.

Definition meshtastic_sched_stat_phone_drop (protected : bool) (st : sched_stats) : sched_stats :=
  let st := set_st_phone_drop (st_phone_drop st + 1) st in
  if protected then set_st_phone_drop_protected (st_phone_drop_protected st + 1) st else st.

Definition meshtastic_sched_stat_airtime_drop (st : sched_stats) : sched_stats :=
  set_st_airtime_drop (st_airtime_drop st + 1) st.
Definition meshtastic_sched_stat_dedup_expired (st : sched_stats) : sched_stats :=
  set_st_dedup_expired (st_dedup_expired st + 1) st.
Definition meshtastic_sched_stat_reliable_ack (st : sched_stats) : sched_stats :=
  set_st_reliable_acked (st_reliable_acked st + 1) st.
Definition meshtastic_sched_stat_reliable_fail (st : sched_stats) : sched_stats :=
  set_st_reliable_failed (st_reliable_failed st + 1) st.
Definition meshtastic_sched_stat_relay_sent (st : sched_stats) : sched_stats :=
  set_st_relay_sent (st_relay_sent st + 1) st.
Definition meshtastic_sched_stat_relay_cancelled (st : sched_stats) : sched_stats :=
  set_st_relay_cancelled (st_relay_cancelled st + 1) st.
Definition meshtastic_sched_stat_relay_deferred_late (st : sched_stats) : sched_stats :=
  set_st_relay_deferred_late (st_relay_deferred_late st + 1) st.

Definition meshtastic_relay_gap_bounds : list Z := [25; 50; 100; 250; 500; 1000].
Definition MT_RELAY_GAP_BUCKETS : nat := 7.

Definition relay_gap_bucket (gap_ms : Z) : nat :=
  match find_index (fun bound => gap_ms <? bound) meshtastic_relay_gap_bounds with
  | Some i => i
  | None => (MT_RELAY_GAP_BUCKETS - 1)%nat
  end.

Definition meshtastic_sched_stat_relay_redundant (gap_ms : Z) (st : sched_stats) : sched_stats :=
  let st := set_st_relay_redundant (st_relay_redundant st + 1) st in
  set_st_relay_gap (alter (Z.add 1) (relay_gap_bucket gap_ms) (st_relay_gap st)) st.

(** ** Operations on the policy *)

Definition meshtastic_sched_snapshot (s : sched) : sched_config := cfg s.

Definition meshtastic_sched_defaults `{SchedKconfig} (s : sched) : sched :=
  Sched preset_default stats_zero.

Definition meshtastic_sched_apply_preset `{SchedKconfig} (name : option string) (s : sched)
    : sched * cret :=
  match name with
  | None => (s, ERR EINVAL)
  | Some name =>
      match find_index (fun p => String.eqb name p.1) presets with
      | Some i =>
          match presets !! i with
          | Some p => (Sched p.2 stats_zero, OK)
          | None => (s, ERR ENOENT)
          end
      | None => (s, ERR ENOENT)
      end
  end.

(** [strtol(val, &end, 10)] on a 32-bit target: optional blanks, a sign, digits;
    the value saturates at the bounds of [long], and [end] is the input itself
    when no digit was read. *)
Definition LONG_MAX : Z := 2147483647.
Definition LONG_MIN : Z := -2147483648.

Definition char_code (c : Ascii.ascii) : Z := Z.of_N (Ascii.N_of_ascii c).

Definition is_space (c : Ascii.ascii) : bool :=
  (char_code c =? 32) || ((9 <=? char_code c) && (char_code c <=? 13)).

Definition digit_of (c : Ascii.ascii) : option Z :=
  if (48 <=? char_code c) && (char_code c <=? 57) then Some (char_code c - 48) else None.

Fixpoint skip_space (s : string) : string :=
  match s with
  | String c s' => if is_space c then skip_space s' else s
  | EmptyString => EmptyString
  end.

Fixpoint read_digits (acc : Z) (any : bool) (s : string) : Z * bool * string :=
  match s with
  | String c s' =>
      match digit_of c with
      | Some d => read_digits (10 * acc + d) true s'
      | None => (acc, any, s)
      end
  | EmptyString => (acc, any, s)
  end.

Definition strtol (s : string) : option (Z * string) :=
  let s := skip_space s in
  let '(neg, s') :=
    match s with
    | String c t =>
        if Ascii.eqb c "-"%char then (true, t)
        else if Ascii.eqb c "+"%char then (false, t) else (false, s)
    | EmptyString => (false, s)
    end in
  let '(v, any, rest) := read_digits 0 false s' in
  if any then
    Some (Z.max LONG_MIN (Z.min LONG_MAX (if neg : bool then - v else v)), rest)
  else None.

Definition parse_uint (val : string) (lo hi : Z) : res Z :=
  match strtol val with
  | None => Fail EINVAL
  | Some (v, rest) =>
      if negb (String.eqb rest "") || (v <? lo) || (hi <? v) then Fail EINVAL else Val v
  end.

(** One arm of [meshtastic_sched_set] with a numeric value. *)
Definition set_num (val : string) (lo hi : Z) (f : Z -> sched_config -> sched_config)
    (c : sched_config) : sched_config * cret :=
  match parse_uint val lo hi with
  | Val v => (f v c, OK)
  | Fail e => (c, ERR e)
  end.

(** One arm with two admissible words. *)
Definition set_word {A} (val w1 w2 : string) (a1 a2 : A) (f : A -> sched_config -> sched_config)
    (c : sched_config) : sched_config * cret :=
  if String.eqb val w1 then (f a1 c, OK)
  else if String.eqb val w2 then (f a2 c, OK)
  else (c, ERR EINVAL).

(** The decision taken under [cfg_lock]. *)
Definition sched_set_cfg `{SchedKconfig} (key val : string) (c : sched_config)
    : sched_config * cret :=
  if String.eqb key "tx.order" then
    set_word val "fifo" "priority" ORDER_FIFO ORDER_PRIORITY set_tx_order c
  else if String.eqb key "tx.overflow" then
    set_word val "drop-newest" "drop-lowest" OVF_DROP_NEWEST OVF_DROP_LOWEST set_tx_overflow c
  else if String.eqb key "tx.depth" then set_num val 1 OB_MAX (fun v => set_tx_depth (u8 v)) c
  else if String.eqb key "phone.evict" then
    set_word val "drop-oldest" "protect" PHONE_DROP_OLDEST PHONE_PROTECT set_phone_evict c
  else if String.eqb key "airtime.max" then
    set_num val 0 100 (fun v => set_airtime_max_util (u8 v)) c
  else if String.eqb key "dedup.ttl" then
    set_num val 0 UINT16_MAX (fun v => set_dedup_ttl_sec (u16 v)) c
  else if String.eqb key "reliable.retries" then
    set_num val 0 10 (fun v => set_reliable_retries (u8 v)) c
  else if String.eqb key "reliable.timeout" then
    set_num val 50 60000 (fun v => set_reliable_timeout_ms (u16 v)) c
  else if String.eqb key "route.ttl" then
    set_num val 0 UINT16_MAX (fun v => set_route_ttl_sec (u16 v)) c
  else if String.eqb key "cw.min" then set_num val 0 16 (fun v => set_cw_min (u8 v)) c
  else if String.eqb key "cw.max" then set_num val 0 16 (fun v => set_cw_max (u8 v)) c
  else if String.eqb key "cw.offset" then set_num val 0 8 (fun v => set_cw_relay_offset (u8 v)) c
  else if String.eqb key "cw.slot" then set_num val 0 5000 (fun v => set_cw_slot_ms (u16 v)) c
  else (c, ERR ENOENT).

Definition meshtastic_sched_set `{SchedKconfig} (key val : option string) (s : sched)
    : sched * cret :=
  match key, val with
  | Some key, Some val =>
      let '(c, ret) := sched_set_cfg key val (cfg s) in
      (Sched c (match ret with OK => stats_zero | ERR _ => stats s end), ret)
  | _, _ => (s, ERR EINVAL)
  end.

(** ** The well-formed policy *)

Record sched_wf `{SchedKconfig} (c : sched_config) : Prop := {
  wf_depth : 1 <= tx_depth c <= OB_MAX;
  wf_airtime : 0 <= airtime_max_util c <= 100;
  wf_ttl : in_u16 (dedup_ttl_sec c);
  wf_retries : 0 <= reliable_retries c <= 10;
  wf_timeout : reliable_timeout_ms c = 0 \/ 50 <= reliable_timeout_ms c <= 60000;
  wf_route : in_u16 (route_ttl_sec c);
  wf_cw_min : 0 <= cw_min c <= 16;
  wf_cw_max : 0 <= cw_max c <= 16;
  wf_cw_offset : 0 <= cw_relay_offset c <= 8;
  wf_cw_slot : 0 <= cw_slot_ms c <= 5000;
}.

Lemma parse_uint_range val lo hi v : parse_uint val lo hi = Val v -> lo <= v <= hi.
Proof.
  unfold parse_uint. destruct (strtol val) as [[w rest]|]; [|done].
  intros H. branches; simplify_eq; lia.
Qed.

(** What a successful numeric or word arm does. *)
Lemma set_num_cases val lo hi f c c' ret :
  set_num val lo hi f c = (c', ret) ->
  (exists v, lo <= v <= hi /\ c' = f v c /\ ret = OK) \/ (c' = c /\ exists e, ret = ERR e).
Proof.
  unfold set_num. destruct (parse_uint val lo hi) as [v|e] eqn:E; intros [= <- <-].
  - apply parse_uint_range in E. left. by exists v.
  - right. split; [done | by exists e].
Qed.

Lemma set_word_cases {A} val w1 w2 (a1 a2 : A) f c c' ret :
  set_word val w1 w2 a1 a2 f c = (c', ret) ->
  (exists a, c' = f a c /\ ret = OK) \/ (c' = c /\ exists e, ret = ERR e).
Proof.
  unfold set_word. intros Hs. branches; simplify_eq; [left; by eexists | left; by eexists |].
  right. split; [done | by eexists].
Qed.

(** Walk the arms of [sched_set_cfg] one by one, closing each with [tac]. *)
Ltac sched_arms H tac :=
  unfold sched_set_cfg in H;
  repeat (match type of H with
          | context [if String.eqb ?k ?s then _ else _] =>
              destruct (String.eqb k s); [solve [tac H] |]
          end).

Section Sched.
Context `{SchedKconfig}.

Lemma preset_wf p : p ∈ presets -> sched_wf p.2.
Proof.
  pose proof OB_MAX_range. pose proof QUEUE_DEPTH_range.
  unfold presets. rewrite !elem_of_cons, elem_of_nil.
  intros [->|[->|[]]]; split; simpl; first [unfold OB_DEFAULT; lia | cbv; intuition congruence].
Qed.

Ltac arm_wf H :=
  lazymatch type of H with
  | set_num _ _ _ _ _ = _ => apply set_num_cases in H as [(v & Hv & -> & _)|[-> _]]
  | _ => apply set_word_cases in H as [(v & -> & _)|[-> _]]
  end; [|assumption];
  match goal with W : sched_wf _ |- _ => destruct W end;
  pose proof OB_MAX_range; split; simpl; unfold in_u16, UINT16_MAX in *; rewrite ?u8_small, ?u16_small by lia; lia.

Lemma sched_set_cfg_wf key val c c' ret :
  sched_wf c -> sched_set_cfg key val c = (c', ret) -> sched_wf c'.
Proof. intros Hwf Hs. sched_arms Hs arm_wf. by injection Hs as <- _. Qed.

Ltac arm_error H :=
  lazymatch type of H with
  | set_num _ _ _ _ _ = _ => apply set_num_cases in H as [(v & _ & _ & ?)|[-> _]]
  | _ => apply set_word_cases in H as [(v & _ & ?)|[-> _]]
  end; done.

Lemma sched_set_cfg_error key val c c' e :
  sched_set_cfg key val c = (c', ERR e) -> c' = c.
Proof. intros Hs. sched_arms Hs arm_error. by injection Hs. Qed.

(** The operations a running node offers on the policy. *)
Inductive sched_op : Type :=
  | OpSet (key val : option string)
  | OpPreset (name : option string)
  | OpDefaults
  | OpStat (f : sched_stats -> sched_stats).

Definition sched_step (o : sched_op) (s : sched) : sched :=
  match o with
  | OpSet k v => (meshtastic_sched_set k v s).1
  | OpPreset n => (meshtastic_sched_apply_preset n s).1
  | OpDefaults => meshtastic_sched_defaults s
  | OpStat f => on_stats f s
  end.

Definition sched_run (ops : list sched_op) (s : sched) : sched :=
  foldl (fun s o => sched_step o s) s ops.

Definition sched_boot : sched := Sched preset_default stats_zero.

Lemma sched_step_wf o s : sched_wf (cfg s) -> sched_wf (cfg (sched_step o s)).
Proof.
  intros Hwf. destruct o as [[k|] [v|]|[n|]| |f]; simpl; try done.
  - destruct (sched_set_cfg k v (cfg s)) as [c ret] eqn:E. by eapply sched_set_cfg_wf.
  - case_match; [|done]. destruct (presets !! _) as [p|] eqn:E; [|done].
    by eapply preset_wf, list_elem_of_lookup_2.
  - apply (preset_wf ("default"%string, _)), list_elem_of_here.
Qed.

Lemma sched_run_wf ops s : sched_wf (cfg s) -> sched_wf (cfg (sched_run ops s)).
Proof.
  revert s. induction ops as [|o ops IH]; intros s Hwf; [done|]. by apply IH, sched_step_wf.
Qed.
End Sched.

(** *** Reading back a decimal number *)

Lemma digit_of_pretty (d : N) :
  (d < 10)%N -> digit_of (pretty_N_char d) = Some (Z.of_N d).
Proof.
  intros Hd. assert (Hin : d ∈ (N.of_nat <$> seq 0 10)).
  { apply list_elem_of_fmap. exists (N.to_nat d). rewrite elem_of_seq. lia. }
  simpl in Hin. set_unfold in Hin. naive_solver.
Qed.

Lemma read_digits_pretty (x : N) any s :
  (0 < x)%N -> read_digits 0 any (pretty_N_go x s) = read_digits (Z.of_N x) true s.
Proof.
  revert any s. induction (N.lt_wf_0 x) as [x _ IH]; intros any s Hx.
  rewrite pretty_N_go_step by done.
  pose proof (N.mod_lt x 10 ltac:(done)). pose proof (N.div_mod x 10 ltac:(done)).
  destruct (decide (x `div` 10 = 0)%N) as [E|E].
  - rewrite E, pretty_N_go_0. simpl. rewrite digit_of_pretty by done. f_equal; lia.
  - rewrite IH by (try lia; apply N.div_lt; lia).
    simpl. rewrite digit_of_pretty by done. f_equal; lia.
Qed.

Lemma parse_uint_pretty (n : N) lo hi :
  lo <= Z.of_N n <= hi -> hi <= LONG_MAX ->
  parse_uint (pretty n) lo hi = Val (Z.of_N n).
Proof.
  intros Hr Hhi. unfold parse_uint.
  destruct (decide (n = 0)%N) as [->|Hn0].
  { replace (strtol (pretty 0%N)) with (Some (0, ""%string)) by reflexivity.
    simpl in *. destruct (_ || _) eqn:E; [lia | done]. }
  unfold strtol.
  assert (Hn : (0 < n)%N) by lia.
  assert (Hd : read_digits 0 false (pretty n) = (Z.of_N n, true, ""%string)).
  { unfold pretty, pretty_N. rewrite decide_False by lia. by rewrite read_digits_pretty. }
  assert (Hfirst : exists c t d, pretty n = String c t /\ digit_of c = Some d).
  { destruct (pretty n) as [|c t]; [by injection Hd; lia|]. simpl in Hd.
    destruct (digit_of c) as [d|] eqn:E; [by exists c, t, d | by injection Hd; lia]. }
  destruct Hfirst as (c & t & d & Et & Ed). rewrite Et in *.
  assert (Hc : is_space c = false /\ Ascii.eqb c "-" = false /\ Ascii.eqb c "+" = false).
  { clear Hd Et. unfold digit_of in Ed. unfold is_space. branches; [|done].
    repeat split; [lia| |]; apply Ascii.eqb_neq; intros ->;
      unfold char_code in *; simpl in *; lia. }
  destruct Hc as (H1 & H2 & H3). cbn [skip_space]. rewrite H1, H2, H3, Hd. simpl.
  unfold LONG_MAX, LONG_MIN in *.
  rewrite Z.min_r, Z.max_r by lia. destruct (_ || _) eqn:E; [lia | done].
Qed.

(** *** Different knobs are independent *)

Definition numeric_knob `{SchedKconfig} (key : string)
    : option (Z * Z * (sched_config -> Z)) :=
  if String.eqb key "tx.depth" then Some (1, OB_MAX, tx_depth)
  else if String.eqb key "airtime.max" then Some (0, 100, airtime_max_util)
  else if String.eqb key "dedup.ttl" then Some (0, UINT16_MAX, dedup_ttl_sec)
  else if String.eqb key "reliable.retries" then Some (0, 10, reliable_retries)
  else if String.eqb key "reliable.timeout" then Some (50, 60000, reliable_timeout_ms)
  else if String.eqb key "route.ttl" then Some (0, UINT16_MAX, route_ttl_sec)
  else if String.eqb key "cw.min" then Some (0, 16, cw_min)
  else if String.eqb key "cw.max" then Some (0, 16, cw_max)
  else if String.eqb key "cw.offset" then Some (0, 8, cw_relay_offset)
  else if String.eqb key "cw.slot" then Some (0, 5000, cw_slot_ms)
  else None.

Lemma sched_set_numeric `{SchedKconfig} key lo hi get (n : N) c :
  numeric_knob key = Some (lo, hi, get) -> lo <= Z.of_N n <= hi ->
  exists c', sched_set_cfg key (pretty n) c = (c', OK) /\ get c' = Z.of_N n.
Proof.
  pose proof OB_MAX_range. intros Hk Hn. unfold numeric_knob in Hk.
  repeat match type of Hk with
  | context [if String.eqb ?k ?s then _ else _] =>
      destruct (String.eqb_spec k s) as [->|_];
        [ injection Hk as <- <- <-; cbn [sched_set_cfg String.eqb Ascii.eqb Bool.eqb];
          unfold set_num; rewrite parse_uint_pretty by (unfold UINT16_MAX, LONG_MAX in *; lia);
          eexists; split; [reflexivity|]; simpl;
          unfold UINT16_MAX in *; rewrite ?u8_small, ?u16_small by lia; done |]
  end. done.
Qed.

(** ** Properties *)

Section Properties.
Context `{SchedKconfig}.

(** Whatever sequence of knob settings (any keys, any text), presets, resets
    and counter updates a booted node sees, the policy stays within the ranges
    the rest of the stack relies on. *)
Theorem sched_policy_always_wf ops : sched_wf (cfg (sched_run ops sched_boot)).
Proof.
  apply sched_run_wf. apply (preset_wf ("default"%string, _)), list_elem_of_here.
Qed.

(** A refused setting or preset leaves the policy and the counters as they
    were; an accepted setting restarts the counters. *)
Theorem sched_set_atomic key val name s :
  match meshtastic_sched_set key val s with
  | (s', OK) => stats s' = stats_zero
  | (s', ERR _) => s' = s
  end /\
  match meshtastic_sched_apply_preset name s with
  | (s', OK) => stats s' = stats_zero /\ exists n, (n, cfg s') ∈ presets
  | (s', ERR _) => s' = s
  end.
Proof.
  split.
  - destruct key as [k|], val as [v|]; simpl; try done.
    destruct (sched_set_cfg k v (cfg s)) as [c [|e]] eqn:E; [done|].
    apply sched_set_cfg_error in E as ->. by destruct s.
  - destruct name as [n|]; [|done]. unfold meshtastic_sched_apply_preset.
    destruct (find_index _ presets) as [i|]; [|done].
    destruct (presets !! i) as [p|] eqn:E; [|done].
    split; [done|]. exists p.1. simpl. apply list_elem_of_lookup_2 in E. by destruct p.
Qed.

(** Setting a numeric knob to the decimal text of any number in its range is
    accepted, stores exactly that number in that knob, and starts a fresh
    measurement window. *)
Theorem sched_set_decimal_roundtrip key lo hi get (n : N) s :
  numeric_knob key = Some (lo, hi, get) -> lo <= Z.of_N n <= hi ->
  exists s', meshtastic_sched_set (Some key) (Some (pretty n)) s = (s', OK) /\
             get (cfg s') = Z.of_N n /\ stats s' = stats_zero.
Proof.
  intros Hk Hn. destruct (sched_set_numeric key lo hi get n (cfg s) Hk Hn) as (c' & E & Hg).
  exists (Sched c' stats_zero). simpl. by rewrite E.
Qed.
End Properties.

#[local] Existing Instance default_sched_kconfig.

Lemma sched_set_decimal_roundtrip_witness :
  exists s', meshtastic_sched_set (Some "cw.slot"%string) (Some (pretty 5000%N))
               (Sched preset_default stats_zero) = (s', OK) /\
             cw_slot_ms (cfg s') = 5000 /\ stats s' = stats_zero.
Proof.
  apply (sched_set_decimal_roundtrip "cw.slot" 0 5000 cw_slot_ms 5000 (Sched preset_default stats_zero));
    first [reflexivity | lia].
Defined.
