(* ===== verification/Contention.v ===== *)
(** * Contention window (src/src/meshtastic_contention.c)

    How long a node waits before it transmits: slot time from the modem, window
    exponent from the received SNR or the channel utilisation, and a random draw
    in the window. Every unsigned product is wrapped at 32 bits where the C code
    computes it; the theorems show when no wrap happens. The random word comes
    from the platform (the DRBG, or the cycle counter when it fails): it is an
    argument, and every theorem holds for any draw. *)
From S2P Require Import Prelude Sched.
Open Scope Z_scope.

Definition NUM_SYM_CAD : Z := 2.
Definition NUM_SYM_CAD_24GHZ : Z := 4.
Definition FIXED_TIME_HUNDREDTHS : Z := 760.
Definition MESHTASTIC_CW_MIN : Z := 3.
Definition MESHTASTIC_CW_MAX : Z := 8.
Definition MESHTASTIC_RETX_PROCESSING_MS : Z := 4500.

(** [BIT(n)] *)
Definition BIT (n : Z) : Z := u32 (Z.shiftl 1 n).

(** C's signed division truncates towards zero. *)
Definition map_i32 (x in_min in_max out_min out_max : Z) : Z :=
  Z.quot ((x - in_min) * (out_max - out_min)) (in_max - in_min) + out_min.

Record cw_policy := CwPolicy { lo : Z; hi : Z; offset : Z; slot_override_ms : Z }.

Definition cw_policy_get (c : sched_config) : cw_policy :=
  if cw_max c =? 0 then CwPolicy 0 0 0 (cw_slot_ms c)
  else CwPolicy (cw_min c) (if cw_max c <? cw_min c then cw_min c else cw_max c)
         (cw_relay_offset c) (cw_slot_ms c).

Definition cw_clamp (cw lo hi : Z) : Z :=
  if cw <? lo then lo else if hi <? cw then hi else u8 cw.

(** The random word: the DRBG's when it answers, else the cycle counter's. *)
Record draw := Draw { psa_random : option Z; cycles : Z }.
Definition draw_word (d : draw) : Z :=
  match psa_random d with Some r => u32 r | None => u32 (cycles d) end.

Definition random_below (d : draw) (n : Z) : Z :=
  if n =? 0 then 0 else draw_word d `mod` n.

Definition meshtastic_contention_slot_ms (spread_factor bandwidth_hz : Z) (wide_lora : bool) : Z :=
  if (spread_factor =? 0) || (20 <? spread_factor) || (bandwidth_hz =? 0) then 0
  else
    let bw_khz := bandwidth_hz / 1000 in
    if bw_khz =? 0 then 0
    else
      let cad_hundredths :=
        if wide_lora then (NUM_SYM_CAD_24GHZ + (2 * spread_factor + 3) / 32) * 100
        else Z.max 225 (NUM_SYM_CAD * 100 + 50) in
      let slot_hundredths := u32 (BIT spread_factor * cad_hundredths) / bw_khz in
      u32 (slot_hundredths + FIXED_TIME_HUNDREDTHS) / 100.

Definition cw_from_snr_p (p : cw_policy) (snr : Z) : Z :=
  cw_clamp (map_i32 snr (-20) 10 (lo p) (hi p)) (lo p) (hi p).

Definition cw_from_util_p (p : cw_policy) (util_pct : Z) : Z :=
  cw_clamp (map_i32 (Z.min util_pct 100) 0 100 (lo p) (hi p)) (lo p) (hi p).

Definition relay_offset_slots (p : cw_policy) : Z := u32 (offset p * hi p).

Definition effective_slot_p (p : cw_policy) (spread_factor bandwidth_hz : Z) (wide : bool) : Z :=
  if negb (slot_override_ms p =? 0) then slot_override_ms p
  else meshtastic_contention_slot_ms spread_factor bandwidth_hz wide.

Definition meshtastic_contention_cw_from_snr (c : sched_config) (snr : Z) : Z :=
  cw_from_snr_p (cw_policy_get c) snr.
Definition meshtastic_contention_cw_from_util (c : sched_config) (util_pct : Z) : Z :=
  cw_from_util_p (cw_policy_get c) util_pct.

Definition meshtastic_contention_retransmit_ms (airtime_ms slot_ms util_pct : Z) : Z :=
  let util := if 100 <? util_pct then 100 else util_pct in
  let cw_size :=
    u8 (MESHTASTIC_CW_MIN + util * (MESHTASTIC_CW_MAX - MESHTASTIC_CW_MIN) / 100) in
  let cw_term :=
    BIT cw_size + 2 * MESHTASTIC_CW_MAX + BIT ((MESHTASTIC_CW_MAX + MESHTASTIC_CW_MIN) / 2) in
  u32 (2 * airtime_ms + cw_term * slot_ms + MESHTASTIC_RETX_PROCESSING_MS).

Definition meshtastic_contention_effective_slot_ms (c : sched_config)
    (spread_factor bandwidth_hz : Z) (wide : bool) : Z :=
  effective_slot_p (cw_policy_get c) spread_factor bandwidth_hz wide.

Definition meshtastic_contention_delay_own_ms (c : sched_config) (d : draw)
    (util_pct slot_ms : Z) : Z :=
  u32 (random_below d (BIT (cw_from_util_p (cw_policy_get c) util_pct)) * slot_ms).

(** The client's wait: past the router window, then its own draw. *)
Definition client_delay (p : cw_policy) (d : draw) (cw slot_ms : Z) : Z :=
  u32 (u32 (relay_offset_slots p * slot_ms) + u32 (random_below d (BIT cw) * slot_ms)).
Definition router_delay (d : draw) (cw slot_ms : Z) : Z :=
  u32 (random_below d (2 * cw) * slot_ms).
Definition worst_delay (p : cw_policy) (cw slot_ms : Z) : Z :=
  u32 (u32 (relay_offset_slots p * slot_ms) + u32 (BIT cw * slot_ms)).

Definition meshtastic_contention_delay_relay_ms (c : sched_config) (d : draw) (snr : Z)
    (early_like_router : bool) (slot_ms : Z) : Z :=
  let p := cw_policy_get c in
  let cw := cw_from_snr_p p snr in
  if early_like_router then router_delay d cw slot_ms else client_delay p d cw slot_ms.

Definition meshtastic_contention_delay_relay_worst_ms (c : sched_config) (snr slot_ms : Z) : Z :=
  let p := cw_policy_get c in worst_delay p (cw_from_snr_p p snr) slot_ms.

Record contention_plan := Plan { delay_ms : Z; worst_ms : Z; slot_ms : Z; cw : Z }.

Definition meshtastic_contention_plan_relay (c : sched_config) (d : draw) (snr : Z)
    (early_like_router : bool) (spread_factor bandwidth_hz : Z) (wide : bool) : contention_plan :=
  let p := cw_policy_get c in
  let cw := cw_from_snr_p p snr in
  let slot := effective_slot_p p spread_factor bandwidth_hz wide in
  Plan (if early_like_router then router_delay d cw slot else client_delay p d cw slot)
       (worst_delay p cw slot) slot cw.

Definition meshtastic_contention_plan_own (c : sched_config) (d : draw) (util_pct : Z)
    (spread_factor bandwidth_hz : Z) (wide : bool) : contention_plan :=
  let p := cw_policy_get c in
  let cw := cw_from_util_p p util_pct in
  let slot := effective_slot_p p spread_factor bandwidth_hz wide in
  Plan (u32 (random_below d (BIT cw) * slot)) (u32 (BIT cw * slot)) slot cw.

(** ** Ranges *)

(** What [cw_policy_get] yields from a well-formed policy. *)
Record cw_policy_wf (p : cw_policy) : Prop := {
  pw_lo : 0 <= lo p <= hi p;
  pw_hi : hi p <= 16;
  pw_offset : 0 <= offset p <= 8;
  pw_slot : 0 <= slot_override_ms p <= 5000;
}.

Lemma cw_policy_get_wf `{SchedKconfig} c : sched_wf c -> cw_policy_wf (cw_policy_get c).
Proof.
  intros [_ _ _ _ _ _ Hmin Hmax Hoff Hslot]. unfold cw_policy_get.
  split; branches; simpl; lia.
Qed.

Lemma cw_clamp_range x l h : 0 <= l <= h -> h <= 255 -> l <= cw_clamp x l h <= h.
Proof.
  intros. unfold cw_clamp. branches; try lia. rewrite u8_small; lia.
Qed.

Lemma cw_from_snr_range p snr : cw_policy_wf p -> lo p <= cw_from_snr_p p snr <= hi p.
Proof. intros [? ? _ _]. apply cw_clamp_range; lia. Qed.

Lemma cw_from_util_range p u : cw_policy_wf p -> lo p <= cw_from_util_p p u <= hi p.
Proof. intros [? ? _ _]. apply cw_clamp_range; lia. Qed.

Lemma BIT_pow n : 0 <= n <= 31 -> BIT n = 2 ^ n.
Proof.
  intros Hn. unfold BIT. rewrite Z.shiftl_1_l. apply wrap_small.
  split; [apply Z.pow_nonneg; lia | apply Z.pow_lt_mono_r; lia].
Qed.

Lemma BIT_range n : 0 <= n <= 16 -> 1 <= BIT n <= 65536.
Proof.
  intros Hn. rewrite BIT_pow by lia. split.
  - apply (Z.pow_le_mono_r 2 0 n); lia.
  - apply (Z.pow_le_mono_r 2 n 16); lia.
Qed.

Lemma BIT_double n : 0 <= n <= 16 -> n = 0 \/ 2 * n <= BIT n.
Proof.
  intros Hn. rewrite BIT_pow by lia.
  assert (E : n ∈ (Z.of_nat <$> seq 0 17)).
  { apply list_elem_of_fmap. exists (Z.to_nat n). rewrite elem_of_seq. lia. }
  simpl in E. set_unfold in E. naive_solver lia.
Qed.

Lemma random_below_range d n : 0 < n -> 0 <= random_below d n < n.
Proof.
  intros Hn. unfold random_below. destruct (n =? 0) eqn:E; bools; [lia|].
  apply Z.mod_pos_bound. lia.
Qed.

Lemma relay_offset_slots_range p :
  cw_policy_wf p -> relay_offset_slots p = offset p * hi p /\ 0 <= offset p * hi p <= 128.
Proof. intros [? ? ? _]. unfold relay_offset_slots. rewrite u32_small; nia. Qed.

(** The largest slot time for which no delay computation wraps: a client waits at
    most 8 * 16 + 2^16 slots. *)
Definition slot_fits (slot : Z) : Prop := 0 <= slot /\ 65664 * slot <= UINT32_MAX.

Lemma slot_product k slot : slot_fits slot -> 0 <= k <= 65664 -> 0 <= k * slot <= 4294967295.
Proof. unfold slot_fits, UINT32_MAX. intros [? ?] ?. nia. Qed.

Section Delays.
Context (p : cw_policy) (Hp : cw_policy_wf p) (slot : Z) (Hs : slot_fits slot).

Lemma client_delay_exact d cw :
  0 <= cw <= hi p ->
  client_delay p d cw slot = (offset p * hi p + random_below d (BIT cw)) * slot.
Proof.
  intros Hcw. destruct (relay_offset_slots_range p Hp) as [E ?].
  pose proof (pw_hi p Hp). pose proof (BIT_range cw ltac:(lia)).
  pose proof (random_below_range d (BIT cw) ltac:(lia)).
  unfold client_delay. rewrite E. set (a := offset p * hi p) in *. set (r := random_below _ _) in *.
  rewrite (u32_small (a * slot)), (u32_small (r * slot)) by (apply slot_product; done || lia).
  rewrite <- Z.mul_add_distr_r. apply u32_small, slot_product; done || lia.
Qed.

Lemma router_delay_exact d cw :
  0 <= cw <= hi p -> router_delay d cw slot = random_below d (2 * cw) * slot.
Proof.
  intros Hcw. pose proof (pw_hi p Hp). unfold router_delay.
  destruct (Z.eq_dec cw 0) as [->|?]; [reflexivity|].
  pose proof (random_below_range d (2 * cw) ltac:(lia)).
  apply u32_small, slot_product; done || lia.
Qed.

Lemma worst_delay_exact cw :
  0 <= cw <= hi p -> worst_delay p cw slot = (offset p * hi p + BIT cw) * slot.
Proof.
  intros Hcw. destruct (relay_offset_slots_range p Hp) as [E ?].
  pose proof (pw_hi p Hp). pose proof (BIT_range cw ltac:(lia)).
  unfold worst_delay. rewrite E. set (a := offset p * hi p) in *.
  rewrite (u32_small (a * slot)), (u32_small (BIT cw * slot)) by (apply slot_product; done || lia).
  rewrite <- Z.mul_add_distr_r. apply u32_small, slot_product; done || lia.
Qed.

Lemma router_draw_below_window d cw :
  0 <= cw <= 16 -> 0 <= random_below d (2 * cw) < BIT cw.
Proof.
  intros Hcw. pose proof (BIT_range cw ltac:(lia)).
  destruct (Z.eq_dec cw 0) as [->|?]; [vm_compute; split; congruence|].
  destruct (BIT_double cw Hcw); [lia|].
  pose proof (random_below_range d (2 * cw) ltac:(lia)). lia.
Qed.
End Delays.

Lemma slot_ms_no_wrap sf bw :
  let cad := Z.max 225 (NUM_SYM_CAD * 100 + 50) in
  0 < sf <= 20 -> 1000 <= bw ->
  meshtastic_contention_slot_ms sf bw false =
    (2 ^ sf * cad / (bw / 1000) + FIXED_TIME_HUNDREDTHS) / 100.
Proof.
  intros cad Hsf Hbw. unfold meshtastic_contention_slot_ms.
  assert (1 <= bw / 1000) by (apply Z.div_le_lower_bound; lia).
  assert (0 < 2 ^ sf <= 1048576).
  { split; [apply Z.pow_pos_nonneg; lia | apply (Z.pow_le_mono_r 2 sf 20); lia]. }
  assert (0 <= 2 ^ sf * 250 / (bw / 1000) <= 2 ^ sf * 250).
  { split; [apply Z.div_pos; nia | apply Z.div_le_upper_bound; nia]. }
  destruct ((sf =? 0) || _ || _) eqn:E1; [lia|]. destruct (bw / 1000 =? 0) eqn:E2; [lia|].
  change cad with 250. change (Z.max 225 (NUM_SYM_CAD * 100 + 50)) with 250.
  rewrite BIT_pow by lia. rewrite (u32_small (2 ^ sf * 250)) by lia.
  rewrite u32_small by (unfold FIXED_TIME_HUNDREDTHS; lia). done.
Qed.

(** The harvested reference value: LongFast (SF 11, 250 kHz) has a 28 ms slot. *)
Example slot_long_fast : meshtastic_contention_slot_ms 11 250000 false = 28.
Proof. reflexivity. Qed.

(** ** Properties *)

Section Properties.
Context `{SchedKconfig}.

(** A planned relay's delay lies inside the window whose bound the plan
    reports, for every policy the node can hold, every SNR byte (also a hostile
    one), every random draw and both relay classes; nothing wraps as long as the
    slot time is at most 65 s. *)
Theorem plan_relay_delay_within_bound c d snr early sf bw wide :
  sched_wf c ->
  let plan := meshtastic_contention_plan_relay c d snr early sf bw wide in
  slot_fits (slot_ms plan) ->
  0 <= delay_ms plan <= worst_ms plan /\
  worst_ms plan <= 65664 * slot_ms plan /\
  (0 < slot_ms plan -> delay_ms plan < worst_ms plan) /\
  lo (cw_policy_get c) <= cw plan <= hi (cw_policy_get c).
Proof.
  intros Hc plan Hs. unfold plan, meshtastic_contention_plan_relay in *; simpl in *.
  pose proof (cw_policy_get_wf c Hc) as Hp. set (p := cw_policy_get c) in *.
  set (slot := effective_slot_p p sf bw wide) in *.
  pose proof (cw_from_snr_range p snr Hp) as Hcw. set (k := cw_from_snr_p p snr) in *.
  pose proof (pw_lo p Hp). pose proof (pw_hi p Hp). pose proof Hs as [? _].
  destruct (relay_offset_slots_range p Hp) as [_ Ha].
  pose proof (BIT_range k ltac:(lia)). rewrite (worst_delay_exact p Hp slot Hs k) by lia.
  destruct early.
  - rewrite (router_delay_exact p Hp slot Hs d k) by lia.
    pose proof (router_draw_below_window d k ltac:(lia)). nia.
  - rewrite (client_delay_exact p Hp slot Hs d k) by lia.
    pose proof (random_below_range d (BIT k) ltac:(lia)). nia.
Qed.

(** With the reference offset (2 or more) a router's relay always leaves
    before a client's, whatever SNR each heard the frame at and whatever each of
    them draws. *)
Theorem router_precedes_client c dr dc snr_r snr_c slot :
  sched_wf c -> 2 <= cw_relay_offset c -> 0 < cw_max c -> slot_fits slot -> 0 < slot ->
  meshtastic_contention_delay_relay_ms c dr snr_r true slot <
  meshtastic_contention_delay_relay_ms c dc snr_c false slot.
Proof.
  intros Hc Hoff Hmax Hs Hpos. unfold meshtastic_contention_delay_relay_ms.
  pose proof (cw_policy_get_wf c Hc) as Hp.
  assert (Eo : offset (cw_policy_get c) = cw_relay_offset c /\ 0 < hi (cw_policy_get c)).
  { unfold cw_policy_get. branches; simpl; lia. }
  set (p := cw_policy_get c) in *. destruct Eo as [Eo Hhi].
  pose proof (cw_from_snr_range p snr_r Hp). pose proof (cw_from_snr_range p snr_c Hp).
  pose proof (pw_lo p Hp). pose proof (pw_hi p Hp).
  rewrite (router_delay_exact p Hp slot Hs), (client_delay_exact p Hp slot Hs) by lia.
  pose proof (BIT_range (cw_from_snr_p p snr_c) ltac:(lia)).
  pose proof (random_below_range dc (BIT (cw_from_snr_p p snr_c)) ltac:(lia)).
  assert (2 * hi p <= offset p * hi p) by (apply Z.mul_le_mono_nonneg_r; lia).
  apply Z.mul_lt_mono_pos_r; [done|].
  destruct (Z.eq_dec (cw_from_snr_p p snr_r) 0) as [E|?].
  - rewrite E. change (random_below dr (2 * 0)) with 0. lia.
  - pose proof (random_below_range dr (2 * cw_from_snr_p p snr_r) ltac:(lia)). lia.
Qed.

(** [cw.max 0] switches every voluntary wait off, whatever [cw.min] and
    [cw.offset] are: all delays are zero for every draw. *)
Theorem cw_max_zero_disables_delay c d snr util early slot :
  cw_max c = 0 ->
  meshtastic_contention_delay_relay_ms c d snr early slot = 0 /\
  meshtastic_contention_delay_own_ms c d util slot = 0.
Proof.
  intros E. unfold meshtastic_contention_delay_relay_ms, meshtastic_contention_delay_own_ms.
  unfold cw_policy_get. rewrite E. simpl.
  assert (Hz : forall x, cw_clamp x 0 0 = 0) by (intros; unfold cw_clamp; branches; try done;
    rewrite u8_small; lia).
  unfold cw_from_snr_p, cw_from_util_p; simpl. rewrite !Hz.
  assert (Hr : random_below d (BIT 0) = 0).
  { unfold random_below. change (BIT 0) with 1. simpl. apply Z.mod_1_r. }
  split; [|by rewrite Hr].
  destruct early; [done|]. unfold client_delay. rewrite Hr. done.
Qed.
End Properties.

(** The interval of a reliable retransmission never wraps for airtimes up to a
    million ms and slots up to 65 s, covers two airtimes plus the fixed processing
    time, and does not shrink when the channel gets busier. *)
Theorem retransmit_interval_bounds airtime slot u u' :
  0 <= airtime <= 1000000 -> slot_fits slot -> 0 <= u <= u' ->
  2 * airtime + MESHTASTIC_RETX_PROCESSING_MS <= meshtastic_contention_retransmit_ms airtime slot u /\
  meshtastic_contention_retransmit_ms airtime slot u <=
    meshtastic_contention_retransmit_ms airtime slot u' /\
  meshtastic_contention_retransmit_ms airtime slot u' <= 2 * airtime + 304 * slot + 4500.
Proof.
  intros Ha [Hs0 Hs] Hu.
  set (util v := if 100 <? v then 100 else v).
  set (size v := 3 + util v * 5 / 100).
  assert (Hsize : forall v, 0 <= v -> 3 <= size v <= 8).
  { intros v Hv. unfold size. assert (0 <= util v <= 100) by (unfold util; branches; lia).
    pose proof (Z.div_le_upper_bound (util v * 5) 100 5 ltac:(lia) ltac:(lia)).
    pose proof (Z.div_pos (util v * 5) 100 ltac:(lia) ltac:(lia)). lia. }
  assert (Hmono : size u <= size u').
  { unfold size. apply Z.add_le_mono_l, Z.div_le_mono; [lia|]. unfold util. branches; lia. }
  assert (Eq : forall v, 0 <= v -> meshtastic_contention_retransmit_ms airtime slot v =
            2 * airtime + (2 ^ size v + 48) * slot + 4500 /\ 8 <= 2 ^ size v <= 256).
  { intros v Hv. specialize (Hsize v Hv).
    assert (8 <= 2 ^ size v <= 256).
    { split; [apply (Z.pow_le_mono_r 2 3) | apply (Z.pow_le_mono_r 2 _ 8)]; lia. }
    split; [|done]. unfold meshtastic_contention_retransmit_ms, MESHTASTIC_CW_MIN, MESHTASTIC_CW_MAX.
    fold (util v). change (8 - 3) with 5. fold (size v). rewrite u8_small, BIT_pow by lia.
    change (BIT ((8 + 3) / 2)) with 32. unfold MESHTASTIC_RETX_PROCESSING_MS, UINT32_MAX in *.
    rewrite u32_small by nia. ring. }
  destruct (Eq u ltac:(lia)) as [-> ?], (Eq u' ltac:(lia)) as [-> ?].
  pose proof (Z.pow_le_mono_r 2 (size u) (size u') ltac:(lia) Hmono).
  unfold MESHTASTIC_RETX_PROCESSING_MS. nia.
Qed.

#[local] Existing Instance default_sched_kconfig.

(** The compiled default policy, and the LongFast slot. *)
Lemma default_policy_wf : sched_wf preset_default.
Proof. apply (preset_wf ("default"%string, _)), list_elem_of_here. Qed.

Lemma plan_relay_delay_within_bound_witness :
  delay_ms (meshtastic_contention_plan_relay preset_default (Draw (Some 4000000001) 0) 127 false
              11 250000 false) <=
  worst_ms (meshtastic_contention_plan_relay preset_default (Draw (Some 4000000001) 0) 127 false
              11 250000 false).
Proof.
  apply (plan_relay_delay_within_bound preset_default (Draw (Some 4000000001) 0) 127 false
           11 250000 false default_policy_wf).
  vm_compute. split; congruence.
Defined.

Lemma router_precedes_client_witness :
  meshtastic_contention_delay_relay_ms preset_default (Draw (Some 15) 0) 10 true 28 <
  meshtastic_contention_delay_relay_ms preset_default (Draw None 0) (-20) false 28.
Proof.
  apply (router_precedes_client preset_default (Draw (Some 15) 0) (Draw None 0) 10 (-20) 28
           default_policy_wf); vm_compute; intuition congruence.
Defined.

Lemma cw_max_zero_disables_delay_witness :
  meshtastic_contention_delay_relay_ms (set_cw_min 3 preset_no_backoff) (Draw (Some 77) 0) 5 false 28 = 0.
Proof.
  apply (cw_max_zero_disables_delay (set_cw_min 3 preset_no_backoff) (Draw (Some 77) 0) 5 0 false 28).
  reflexivity.
Defined.

Lemma retransmit_interval_bounds_witness :
  meshtastic_contention_retransmit_ms 500 28 10 <= meshtastic_contention_retransmit_ms 500 28 250.
Proof.
  apply (retransmit_interval_bounds 500 28 10 250); vm_compute; intuition congruence.
Defined.
