(* ===== verification/Backoff.v ===== *)
(** * Reconnect backoff (src/src/meshtastic_backoff.c)

    Exponential backoff with a cap and a jitter of at most a quarter. The loop of
    the C code is the fixpoint [backoff_loop], bounded by the attempt counter; the
    theorem gives its closed form. *)
From S2P Require Import Prelude.
Open Scope Z_scope.

Record backoff := Backoff {
  base_ms : Z;
  cap_ms : Z;
  attempts : Z;
}.
Definition set_base_ms (v : Z) (r : backoff) : backoff :=
Backoff v (cap_ms r) (attempts r).
Definition set_cap_ms (v : Z) (r : backoff) : backoff :=
Backoff (base_ms r) v (attempts r).
Definition set_attempts (v : Z) (r : backoff) : backoff :=
Backoff (base_ms r) (cap_ms r) v.

Definition meshtastic_backoff_init (base cap : Z) : backoff :=
  Backoff base (if cap <? base then base else cap) 0.

(** [for (i = 0; i < attempts && delay < cap; i++)]: at most [n] more rounds. *)
Fixpoint backoff_loop (n : nat) (cap delay : Z) : Z :=
  match n with
  | O => delay
  | S n' =>
      if delay <? cap then
        backoff_loop n' cap (if cap / 2 <? delay then cap else u32 (delay * 2))
      else delay
  end.

Definition meshtastic_backoff_next_ms (b : backoff) (rand : Z) : backoff * Z :=
  let delay := backoff_loop (Z.to_nat (attempts b)) (cap_ms b) (base_ms b) in
  let b' := if attempts b <? UINT32_MAX then set_attempts (u32 (attempts b + 1)) b else b in
  (b', u32 (delay + rand `mod` (delay / 4 + 1))).

Definition meshtastic_backoff_reset (b : backoff) : backoff := set_attempts 0 b.

Definition backoff_wf (b : backoff) : Prop :=
  0 <= base_ms b <= cap_ms b /\ cap_ms b <= UINT32_MAX /\ in_u32 (attempts b).

Lemma backoff_loop_closed n cap delay :
  0 <= delay <= cap -> cap <= UINT32_MAX ->
  backoff_loop n cap delay = Z.min cap (delay * 2 ^ Z.of_nat n).
Proof.
  unfold UINT32_MAX. intros Hd Hc. revert delay Hd.
  induction n as [|n IH]; intros delay Hd; simpl backoff_loop.
  { simpl. lia. }
  rewrite Nat2Z.inj_succ, Z.pow_succ_r by lia.
  assert (1 <= 2 ^ Z.of_nat n) by (apply (Z.pow_le_mono_r 2 0); lia).
  destruct (delay <? cap) eqn:E; bools; [|rewrite Z.min_l; nia].
  destruct (cap / 2 <? delay) eqn:E2; bools.
  - rewrite IH by lia. assert (cap < 2 * delay).
    { pose proof (Z.mul_succ_div_gt cap 2 ltac:(lia)). lia. }
    rewrite !Z.min_l; nia.
  - assert (2 * delay <= cap) by (pose proof (Z.mul_div_le cap 2 ltac:(lia)); lia).
    rewrite u32_small by lia. rewrite IH by lia. f_equal. ring.
Qed.

(** The n-th wait is the base doubled per earlier failure, capped, plus less
    than a quarter of it plus one as jitter, for any random word and however long
    the failure lasts; a reset starts over at the base. *)
Theorem backoff_delay_exact b rand :
  backoff_wf b -> cap_ms b <= 3435973836 -> 0 <= rand ->
  let d := Z.min (cap_ms b) (base_ms b * 2 ^ attempts b) in
  let '(b', wait) := meshtastic_backoff_next_ms b rand in
  backoff_wf b' /\ d <= wait <= d + d / 4 /\
  attempts b' = Z.min UINT32_MAX (attempts b + 1) /\
  backoff_loop (Z.to_nat (attempts (meshtastic_backoff_reset b'))) (cap_ms b') (base_ms b') = base_ms b.
Proof.
  intros (Hb & Hc & Ha) Hcap Hr d. unfold meshtastic_backoff_next_ms, in_u32 in *.
  rewrite backoff_loop_closed by (unfold UINT32_MAX in *; lia). rewrite Z2Nat.id by lia. fold d.
  assert (0 <= 2 ^ attempts b) by (apply Z.pow_nonneg; lia).
  assert (0 <= d <= 3435973836) by (unfold d; split; [apply Z.min_glb; nia | lia]).
  pose proof (Z.mod_pos_bound rand (d / 4 + 1)). pose proof (Z.div_pos d 4).
  assert (d / 4 <= 858993459) by (apply Z.div_le_upper_bound; lia).
  unfold UINT32_MAX, backoff_wf, in_u32 in *.
  destruct (attempts b <? 4294967295) eqn:E; bools; simpl; rewrite !u32_small by lia;
    unfold UINT32_MAX in *; repeat split; lia.
Qed.

Lemma backoff_delay_exact_witness :
  (meshtastic_backoff_next_ms (Backoff 1000 60000 3) 2001).2 <= 10000.
Proof.
  pose proof (backoff_delay_exact (Backoff 1000 60000 3) 2001
    ltac:(vm_compute; intuition congruence) ltac:(vm_compute; congruence) ltac:(lia)) as H.
  vm_compute in H. destruct H as (_ & [_ H] & _). vm_compute. exact H.
Defined.
