(* ===== verification/Packet.v ===== *)
(** * Packets and the wire header (include/zephyr/meshtastic/meshtastic.h,
      src/src/meshtastic_packet.h, src/src/meshtastic_packet.c)

    The data the components exchange: the flat packet struct, the decoded
    MeshPacket with the fields the modelled code reads, and the 16-byte wire
    header with its flag byte. A packet's payload pointer and length are one
    [option] of a byte list: [None] is the NULL pointer. *)
From S2P Require Import Prelude Sched.
Open Scope Z_scope.

Definition MESHTASTIC_NODE_BROADCAST : Z := 4294967295.
Definition MESHTASTIC_PKT_MAX : Z := 255.
Definition MESHTASTIC_HDR_LEN : Z := 16.
Definition MESHTASTIC_MAX_PAYLOAD_LEN : Z := 233.
Definition MESHTASTIC_MAX_TEXT_LEN : Z := 233.
Definition MESHTASTIC_MAX_CHANNELS : Z := 8.
Definition MESHTASTIC_CHANNEL_INDEX_INVALID : Z := 255.
Definition MESHTASTIC_ATTACH_ALL : Z := 255.
Definition MESHTASTIC_ATTACH_OWN : Z := 254.
Definition MESHTASTIC_REPLY_ATTACH (rx_attach : Z) : Z :=
  if rx_attach =? 0 then MESHTASTIC_ATTACH_OWN else u8 rx_attach.

(** ** The flat struct *)
Record packet := MkPacket {
  p_from : Z;
  p_to : Z;
  p_id : Z;
  p_portnum : Z;
  p_payload : option (list Z);
  p_data_dest : Z;
  p_data_source : Z;
  p_request_id : Z;
  p_reply_id : Z;
  p_hop_limit : Z;
  p_hop_start : Z;
  p_rx_attach : Z;
  p_tx_attach : Z;
  p_channel : Z;
  p_channel_index : Z;
  p_next_hop : Z;
  p_relay_node : Z;
  p_want_ack : bool;
  p_via_mqtt : bool;
  p_pki_encrypted : bool;
  p_want_response : bool;
  p_has_bitfield : bool;
  p_bitfield : Z;
  p_rssi : Z;
  p_snr : Z;
}.
Definition set_p_from (v : Z) (r : packet) : packet :=
MkPacket v (p_to r) (p_id r) (p_portnum r) (p_payload r) (p_data_dest r) (p_data_source r)
    (p_request_id r) (p_reply_id r) (p_hop_limit r) (p_hop_start r) (p_rx_attach r)
    (p_tx_attach r) (p_channel r) (p_channel_index r) (p_next_hop r) (p_relay_node r)
    (p_want_ack r) (p_via_mqtt r) (p_pki_encrypted r) (p_want_response r) (p_has_bitfield r)
    (p_bitfield r) (p_rssi r) (p_snr r).
Definition set_p_to (v : Z) (r : packet) : packet :=
MkPacket (p_from r) v (p_id r) (p_portnum r) (p_payload r) (p_data_dest r) (p_data_source r)
    (p_request_id r) (p_reply_id r) (p_hop_limit r) (p_hop_start r) (p_rx_attach r)
    (p_tx_attach r) (p_channel r) (p_channel_index r) (p_next_hop r) (p_relay_node r)
    (p_want_ack r) (p_via_mqtt r) (p_pki_encrypted r) (p_want_response r) (p_has_bitfield r)
    (p_bitfield r) (p_rssi r) (p_snr r).
Definition set_p_id (v : Z) (r : packet) : packet :=
MkPacket (p_from r) (p_to r) v (p_portnum r) (p_payload r) (p_data_dest r) (p_data_source r)
    (p_request_id r) (p_reply_id r) (p_hop_limit r) (p_hop_start r) (p_rx_attach r)
    (p_tx_attach r) (p_channel r) (p_channel_index r) (p_next_hop r) (p_relay_node r)
    (p_want_ack r) (p_via_mqtt r) (p_pki_encrypted r) (p_want_response r) (p_has_bitfield r)
    (p_bitfield r) (p_rssi r) (p_snr r).
Definition set_p_portnum (v : Z) (r : packet) : packet :=
MkPacket (p_from r) (p_to r) (p_id r) v (p_payload r) (p_data_dest r) (p_data_source r)
    (p_request_id r) (p_reply_id r) (p_hop_limit r) (p_hop_start r) (p_rx_attach r)
    (p_tx_attach r) (p_channel r) (p_channel_index r) (p_next_hop r) (p_relay_node r)
    (p_want_ack r) (p_via_mqtt r) (p_pki_encrypted r) (p_want_response r) (p_has_bitfield r)
    (p_bitfield r) (p_rssi r) (p_snr r).
Definition set_p_payload (v : option (list Z)) (r : packet) : packet :=
MkPacket (p_from r) (p_to r) (p_id r) (p_portnum r) v (p_data_dest r) (p_data_source r)
    (p_request_id r) (p_reply_id r) (p_hop_limit r) (p_hop_start r) (p_rx_attach r)
    (p_tx_attach r) (p_channel r) (p_channel_index r) (p_next_hop r) (p_relay_node r)
    (p_want_ack r) (p_via_mqtt r) (p_pki_encrypted r) (p_want_response r) (p_has_bitfield r)
    (p_bitfield r) (p_rssi r) (p_snr r).
Definition set_p_data_dest (v : Z) (r : packet) : packet :=
MkPacket (p_from r) (p_to r) (p_id r) (p_portnum r) (p_payload r) v (p_data_source r)
    (p_request_id r) (p_reply_id r) (p_hop_limit r) (p_hop_start r) (p_rx_attach r)
    (p_tx_attach r) (p_channel r) (p_channel_index r) (p_next_hop r) (p_relay_node r)
    (p_want_ack r) (p_via_mqtt r) (p_pki_encrypted r) (p_want_response r) (p_has_bitfield r)
    (p_bitfield r) (p_rssi r) (p_snr r).
Definition set_p_data_source (v : Z) (r : packet) : packet :=
MkPacket (p_from r) (p_to r) (p_id r) (p_portnum r) (p_payload r) (p_data_dest r) v
    (p_request_id r) (p_reply_id r) (p_hop_limit r) (p_hop_start r) (p_rx_attach r)
    (p_tx_attach r) (p_channel r) (p_channel_index r) (p_next_hop r) (p_relay_node r)
    (p_want_ack r) (p_via_mqtt r) (p_pki_encrypted r) (p_want_response r) (p_has_bitfield r)
    (p_bitfield r) (p_rssi r) (p_snr r).
Definition set_p_request_id (v : Z) (r : packet) : packet :=
MkPacket (p_from r) (p_to r) (p_id r) (p_portnum r) (p_payload r) (p_data_dest r)
    (p_data_source r) v (p_reply_id r) (p_hop_limit r) (p_hop_start r) (p_rx_attach r)
    (p_tx_attach r) (p_channel r) (p_channel_index r) (p_next_hop r) (p_relay_node r)
    (p_want_ack r) (p_via_mqtt r) (p_pki_encrypted r) (p_want_response r) (p_has_bitfield r)
    (p_bitfield r) (p_rssi r) (p_snr r).
Definition set_p_reply_id (v : Z) (r : packet) : packet :=
MkPacket (p_from r) (p_to r) (p_id r) (p_portnum r) (p_payload r) (p_data_dest r)
    (p_data_source r) (p_request_id r) v (p_hop_limit r) (p_hop_start r) (p_rx_attach r)
    (p_tx_attach r) (p_channel r) (p_channel_index r) (p_next_hop r) (p_relay_node r)
    (p_want_ack r) (p_via_mqtt r) (p_pki_encrypted r) (p_want_response r) (p_has_bitfield r)
    (p_bitfield r) (p_rssi r) (p_snr r).
Definition set_p_hop_limit (v : Z) (r : packet) : packet :=
MkPacket (p_from r) (p_to r) (p_id r) (p_portnum r) (p_payload r) (p_data_dest r)
    (p_data_source r) (p_request_id r) (p_reply_id r) v (p_hop_start r) (p_rx_attach r)
    (p_tx_attach r) (p_channel r) (p_channel_index r) (p_next_hop r) (p_relay_node r)
    (p_want_ack r) (p_via_mqtt r) (p_pki_encrypted r) (p_want_response r) (p_has_bitfield r)
    (p_bitfield r) (p_rssi r) (p_snr r).
Definition set_p_hop_start (v : Z) (r : packet) : packet :=
MkPacket (p_from r) (p_to r) (p_id r) (p_portnum r) (p_payload r) (p_data_dest r)
    (p_data_source r) (p_request_id r) (p_reply_id r) (p_hop_limit r) v (p_rx_attach r)
    (p_tx_attach r) (p_channel r) (p_channel_index r) (p_next_hop r) (p_relay_node r)
    (p_want_ack r) (p_via_mqtt r) (p_pki_encrypted r) (p_want_response r) (p_has_bitfield r)
    (p_bitfield r) (p_rssi r) (p_snr r).
Definition set_p_rx_attach (v : Z) (r : packet) : packet :=
MkPacket (p_from r) (p_to r) (p_id r) (p_portnum r) (p_payload r) (p_data_dest r)
    (p_data_source r) (p_request_id r) (p_reply_id r) (p_hop_limit r) (p_hop_start r) v
    (p_tx_attach r) (p_channel r) (p_channel_index r) (p_next_hop r) (p_relay_node r)
    (p_want_ack r) (p_via_mqtt r) (p_pki_encrypted r) (p_want_response r) (p_has_bitfield r)
    (p_bitfield r) (p_rssi r) (p_snr r).
Definition set_p_tx_attach (v : Z) (r : packet) : packet :=
MkPacket (p_from r) (p_to r) (p_id r) (p_portnum r) (p_payload r) (p_data_dest r)
    (p_data_source r) (p_request_id r) (p_reply_id r) (p_hop_limit r) (p_hop_start r)
    (p_rx_attach r) v (p_channel r) (p_channel_index r) (p_next_hop r) (p_relay_node r)
    (p_want_ack r) (p_via_mqtt r) (p_pki_encrypted r) (p_want_response r) (p_has_bitfield r)
    (p_bitfield r) (p_rssi r) (p_snr r).
Definition set_p_channel (v : Z) (r : packet) : packet :=
MkPacket (p_from r) (p_to r) (p_id r) (p_portnum r) (p_payload r) (p_data_dest r)
    (p_data_source r) (p_request_id r) (p_reply_id r) (p_hop_limit r) (p_hop_start r)
    (p_rx_attach r) (p_tx_attach r) v (p_channel_index r) (p_next_hop r) (p_relay_node r)
    (p_want_ack r) (p_via_mqtt r) (p_pki_encrypted r) (p_want_response r) (p_has_bitfield r)
    (p_bitfield r) (p_rssi r) (p_snr r).
Definition set_p_channel_index (v : Z) (r : packet) : packet :=
MkPacket (p_from r) (p_to r) (p_id r) (p_portnum r) (p_payload r) (p_data_dest r)
    (p_data_source r) (p_request_id r) (p_reply_id r) (p_hop_limit r) (p_hop_start r)
    (p_rx_attach r) (p_tx_attach r) (p_channel r) v (p_next_hop r) (p_relay_node r)
    (p_want_ack r) (p_via_mqtt r) (p_pki_encrypted r) (p_want_response r) (p_has_bitfield r)
    (p_bitfield r) (p_rssi r) (p_snr r).
Definition set_p_next_hop (v : Z) (r : packet) : packet :=
MkPacket (p_from r) (p_to r) (p_id r) (p_portnum r) (p_payload r) (p_data_dest r)
    (p_data_source r) (p_request_id r) (p_reply_id r) (p_hop_limit r) (p_hop_start r)
    (p_rx_attach r) (p_tx_attach r) (p_channel r) (p_channel_index r) v (p_relay_node r)
    (p_want_ack r) (p_via_mqtt r) (p_pki_encrypted r) (p_want_response r) (p_has_bitfield r)
    (p_bitfield r) (p_rssi r) (p_snr r).
Definition set_p_relay_node (v : Z) (r : packet) : packet :=
MkPacket (p_from r) (p_to r) (p_id r) (p_portnum r) (p_payload r) (p_data_dest r)
    (p_data_source r) (p_request_id r) (p_reply_id r) (p_hop_limit r) (p_hop_start r)
    (p_rx_attach r) (p_tx_attach r) (p_channel r) (p_channel_index r) (p_next_hop r) v
    (p_want_ack r) (p_via_mqtt r) (p_pki_encrypted r) (p_want_response r) (p_has_bitfield r)
    (p_bitfield r) (p_rssi r) (p_snr r).
Definition set_p_want_ack (v : bool) (r : packet) : packet :=
MkPacket (p_from r) (p_to r) (p_id r) (p_portnum r) (p_payload r) (p_data_dest r)
    (p_data_source r) (p_request_id r) (p_reply_id r) (p_hop_limit r) (p_hop_start r)
    (p_rx_attach r) (p_tx_attach r) (p_channel r) (p_channel_index r) (p_next_hop r)
    (p_relay_node r) v (p_via_mqtt r) (p_pki_encrypted r) (p_want_response r)
    (p_has_bitfield r) (p_bitfield r) (p_rssi r) (p_snr r).
Definition set_p_via_mqtt (v : bool) (r : packet) : packet :=
MkPacket (p_from r) (p_to r) (p_id r) (p_portnum r) (p_payload r) (p_data_dest r)
    (p_data_source r) (p_request_id r) (p_reply_id r) (p_hop_limit r) (p_hop_start r)
    (p_rx_attach r) (p_tx_attach r) (p_channel r) (p_channel_index r) (p_next_hop r)
    (p_relay_node r) (p_want_ack r) v (p_pki_encrypted r) (p_want_response r)
    (p_has_bitfield r) (p_bitfield r) (p_rssi r) (p_snr r).
Definition set_p_pki_encrypted (v : bool) (r : packet) : packet :=
MkPacket (p_from r) (p_to r) (p_id r) (p_portnum r) (p_payload r) (p_data_dest r)
    (p_data_source r) (p_request_id r) (p_reply_id r) (p_hop_limit r) (p_hop_start r)
    (p_rx_attach r) (p_tx_attach r) (p_channel r) (p_channel_index r) (p_next_hop r)
    (p_relay_node r) (p_want_ack r) (p_via_mqtt r) v (p_want_response r) (p_has_bitfield r)
    (p_bitfield r) (p_rssi r) (p_snr r).
Definition set_p_want_response (v : bool) (r : packet) : packet :=
MkPacket (p_from r) (p_to r) (p_id r) (p_portnum r) (p_payload r) (p_data_dest r)
    (p_data_source r) (p_request_id r) (p_reply_id r) (p_hop_limit r) (p_hop_start r)
    (p_rx_attach r) (p_tx_attach r) (p_channel r) (p_channel_index r) (p_next_hop r)
    (p_relay_node r) (p_want_ack r) (p_via_mqtt r) (p_pki_encrypted r) v (p_has_bitfield r)
    (p_bitfield r) (p_rssi r) (p_snr r).
Definition set_p_has_bitfield (v : bool) (r : packet) : packet :=
MkPacket (p_from r) (p_to r) (p_id r) (p_portnum r) (p_payload r) (p_data_dest r)
    (p_data_source r) (p_request_id r) (p_reply_id r) (p_hop_limit r) (p_hop_start r)
    (p_rx_attach r) (p_tx_attach r) (p_channel r) (p_channel_index r) (p_next_hop r)
    (p_relay_node r) (p_want_ack r) (p_via_mqtt r) (p_pki_encrypted r) (p_want_response r) v
    (p_bitfield r) (p_rssi r) (p_snr r).
Definition set_p_bitfield (v : Z) (r : packet) : packet :=
MkPacket (p_from r) (p_to r) (p_id r) (p_portnum r) (p_payload r) (p_data_dest r)
    (p_data_source r) (p_request_id r) (p_reply_id r) (p_hop_limit r) (p_hop_start r)
    (p_rx_attach r) (p_tx_attach r) (p_channel r) (p_channel_index r) (p_next_hop r)
    (p_relay_node r) (p_want_ack r) (p_via_mqtt r) (p_pki_encrypted r) (p_want_response r)
    (p_has_bitfield r) v (p_rssi r) (p_snr r).
Definition set_p_rssi (v : Z) (r : packet) : packet :=
MkPacket (p_from r) (p_to r) (p_id r) (p_portnum r) (p_payload r) (p_data_dest r)
    (p_data_source r) (p_request_id r) (p_reply_id r) (p_hop_limit r) (p_hop_start r)
    (p_rx_attach r) (p_tx_attach r) (p_channel r) (p_channel_index r) (p_next_hop r)
    (p_relay_node r) (p_want_ack r) (p_via_mqtt r) (p_pki_encrypted r) (p_want_response r)
    (p_has_bitfield r) (p_bitfield r) v (p_snr r).
Definition set_p_snr (v : Z) (r : packet) : packet :=
MkPacket (p_from r) (p_to r) (p_id r) (p_portnum r) (p_payload r) (p_data_dest r)
    (p_data_source r) (p_request_id r) (p_reply_id r) (p_hop_limit r) (p_hop_start r)
    (p_rx_attach r) (p_tx_attach r) (p_channel r) (p_channel_index r) (p_next_hop r)
    (p_relay_node r) (p_want_ack r) (p_via_mqtt r) (p_pki_encrypted r) (p_want_response r)
    (p_has_bitfield r) (p_bitfield r) (p_rssi r) v.

(** [(struct meshtastic_packet){0}] *)
Definition packet_zero : packet :=
  MkPacket 0 0 0 0 None 0 0 0 0 0 0 0 0 0 0 0 0 false false false false false 0 0 0.

(** ** The decoded MeshPacket, as far as the modelled code reads it *)
Record mesh_data := MeshData {
  d_portnum : Z;
  d_payload : list Z;
  d_want_response : bool;
  d_dest : Z;
  d_source : Z;
  d_request_id : Z;
  d_reply_id : Z;
  d_emoji : Z;
  d_has_bitfield : bool;
  d_bitfield : Z;
}.
Definition set_d_portnum (v : Z) (r : mesh_data) : mesh_data :=
MeshData v (d_payload r) (d_want_response r) (d_dest r) (d_source r) (d_request_id r)
    (d_reply_id r) (d_emoji r) (d_has_bitfield r) (d_bitfield r).
Definition set_d_payload (v : list Z) (r : mesh_data) : mesh_data :=
MeshData (d_portnum r) v (d_want_response r) (d_dest r) (d_source r) (d_request_id r)
    (d_reply_id r) (d_emoji r) (d_has_bitfield r) (d_bitfield r).
Definition set_d_want_response (v : bool) (r : mesh_data) : mesh_data :=
MeshData (d_portnum r) (d_payload r) v (d_dest r) (d_source r) (d_request_id r) (d_reply_id
    r) (d_emoji r) (d_has_bitfield r) (d_bitfield r).
Definition set_d_dest (v : Z) (r : mesh_data) : mesh_data :=
MeshData (d_portnum r) (d_payload r) (d_want_response r) v (d_source r) (d_request_id r)
    (d_reply_id r) (d_emoji r) (d_has_bitfield r) (d_bitfield r).
Definition set_d_source (v : Z) (r : mesh_data) : mesh_data :=
MeshData (d_portnum r) (d_payload r) (d_want_response r) (d_dest r) v (d_request_id r)
    (d_reply_id r) (d_emoji r) (d_has_bitfield r) (d_bitfield r).
Definition set_d_request_id (v : Z) (r : mesh_data) : mesh_data :=
MeshData (d_portnum r) (d_payload r) (d_want_response r) (d_dest r) (d_source r) v
    (d_reply_id r) (d_emoji r) (d_has_bitfield r) (d_bitfield r).
Definition set_d_reply_id (v : Z) (r : mesh_data) : mesh_data :=
MeshData (d_portnum r) (d_payload r) (d_want_response r) (d_dest r) (d_source r)
    (d_request_id r) v (d_emoji r) (d_has_bitfield r) (d_bitfield r).
Definition set_d_emoji (v : Z) (r : mesh_data) : mesh_data :=
MeshData (d_portnum r) (d_payload r) (d_want_response r) (d_dest r) (d_source r)
    (d_request_id r) (d_reply_id r) v (d_has_bitfield r) (d_bitfield r).
Definition set_d_has_bitfield (v : bool) (r : mesh_data) : mesh_data :=
MeshData (d_portnum r) (d_payload r) (d_want_response r) (d_dest r) (d_source r)
    (d_request_id r) (d_reply_id r) (d_emoji r) v (d_bitfield r).
Definition set_d_bitfield (v : Z) (r : mesh_data) : mesh_data :=
MeshData (d_portnum r) (d_payload r) (d_want_response r) (d_dest r) (d_source r)
    (d_request_id r) (d_reply_id r) (d_emoji r) (d_has_bitfield r) v.

Definition data_zero : mesh_data := MeshData 0 [] false 0 0 0 0 0 false 0.

Inductive payload_variant := VARIANT_NONE | VARIANT_DECODED | VARIANT_ENCRYPTED.
Inductive transport_mechanism := TRANSPORT_LORA | TRANSPORT_MQTT | TRANSPORT_API.

Record mesh_packet := MeshPacket {
  m_from : Z;
  m_to : Z;
  m_channel : Z;
  m_id : Z;
  m_rx_snr : Z;
  m_rx_rssi : Z;
  m_hop_limit : Z;
  m_hop_start : Z;
  m_want_ack : bool;
  m_via_mqtt : bool;
  m_next_hop : Z;
  m_relay_node : Z;
  m_pki_encrypted : bool;
  m_transport : transport_mechanism;
  m_variant : payload_variant;
  m_decoded : mesh_data;
}.
Definition set_m_from (v : Z) (r : mesh_packet) : mesh_packet :=
MeshPacket v (m_to r) (m_channel r) (m_id r) (m_rx_snr r) (m_rx_rssi r) (m_hop_limit r)
    (m_hop_start r) (m_want_ack r) (m_via_mqtt r) (m_next_hop r) (m_relay_node r)
    (m_pki_encrypted r) (m_transport r) (m_variant r) (m_decoded r).
Definition set_m_to (v : Z) (r : mesh_packet) : mesh_packet :=
MeshPacket (m_from r) v (m_channel r) (m_id r) (m_rx_snr r) (m_rx_rssi r) (m_hop_limit r)
    (m_hop_start r) (m_want_ack r) (m_via_mqtt r) (m_next_hop r) (m_relay_node r)
    (m_pki_encrypted r) (m_transport r) (m_variant r) (m_decoded r).
Definition set_m_channel (v : Z) (r : mesh_packet) : mesh_packet :=
MeshPacket (m_from r) (m_to r) v (m_id r) (m_rx_snr r) (m_rx_rssi r) (m_hop_limit r)
    (m_hop_start r) (m_want_ack r) (m_via_mqtt r) (m_next_hop r) (m_relay_node r)
    (m_pki_encrypted r) (m_transport r) (m_variant r) (m_decoded r).
Definition set_m_id (v : Z) (r : mesh_packet) : mesh_packet :=
MeshPacket (m_from r) (m_to r) (m_channel r) v (m_rx_snr r) (m_rx_rssi r) (m_hop_limit r)
    (m_hop_start r) (m_want_ack r) (m_via_mqtt r) (m_next_hop r) (m_relay_node r)
    (m_pki_encrypted r) (m_transport r) (m_variant r) (m_decoded r).
Definition set_m_rx_snr (v : Z) (r : mesh_packet) : mesh_packet :=
MeshPacket (m_from r) (m_to r) (m_channel r) (m_id r) v (m_rx_rssi r) (m_hop_limit r)
    (m_hop_start r) (m_want_ack r) (m_via_mqtt r) (m_next_hop r) (m_relay_node r)
    (m_pki_encrypted r) (m_transport r) (m_variant r) (m_decoded r).
Definition set_m_rx_rssi (v : Z) (r : mesh_packet) : mesh_packet :=
MeshPacket (m_from r) (m_to r) (m_channel r) (m_id r) (m_rx_snr r) v (m_hop_limit r)
    (m_hop_start r) (m_want_ack r) (m_via_mqtt r) (m_next_hop r) (m_relay_node r)
    (m_pki_encrypted r) (m_transport r) (m_variant r) (m_decoded r).
Definition set_m_hop_limit (v : Z) (r : mesh_packet) : mesh_packet :=
MeshPacket (m_from r) (m_to r) (m_channel r) (m_id r) (m_rx_snr r) (m_rx_rssi r) v
    (m_hop_start r) (m_want_ack r) (m_via_mqtt r) (m_next_hop r) (m_relay_node r)
    (m_pki_encrypted r) (m_transport r) (m_variant r) (m_decoded r).
Definition set_m_hop_start (v : Z) (r : mesh_packet) : mesh_packet :=
MeshPacket (m_from r) (m_to r) (m_channel r) (m_id r) (m_rx_snr r) (m_rx_rssi r)
    (m_hop_limit r) v (m_want_ack r) (m_via_mqtt r) (m_next_hop r) (m_relay_node r)
    (m_pki_encrypted r) (m_transport r) (m_variant r) (m_decoded r).
Definition set_m_want_ack (v : bool) (r : mesh_packet) : mesh_packet :=
MeshPacket (m_from r) (m_to r) (m_channel r) (m_id r) (m_rx_snr r) (m_rx_rssi r)
    (m_hop_limit r) (m_hop_start r) v (m_via_mqtt r) (m_next_hop r) (m_relay_node r)
    (m_pki_encrypted r) (m_transport r) (m_variant r) (m_decoded r).
Definition set_m_via_mqtt (v : bool) (r : mesh_packet) : mesh_packet :=
MeshPacket (m_from r) (m_to r) (m_channel r) (m_id r) (m_rx_snr r) (m_rx_rssi r)
    (m_hop_limit r) (m_hop_start r) (m_want_ack r) v (m_next_hop r) (m_relay_node r)
    (m_pki_encrypted r) (m_transport r) (m_variant r) (m_decoded r).
Definition set_m_next_hop (v : Z) (r : mesh_packet) : mesh_packet :=
MeshPacket (m_from r) (m_to r) (m_channel r) (m_id r) (m_rx_snr r) (m_rx_rssi r)
    (m_hop_limit r) (m_hop_start r) (m_want_ack r) (m_via_mqtt r) v (m_relay_node r)
    (m_pki_encrypted r) (m_transport r) (m_variant r) (m_decoded r).
Definition set_m_relay_node (v : Z) (r : mesh_packet) : mesh_packet :=
MeshPacket (m_from r) (m_to r) (m_channel r) (m_id r) (m_rx_snr r) (m_rx_rssi r)
    (m_hop_limit r) (m_hop_start r) (m_want_ack r) (m_via_mqtt r) (m_next_hop r) v
    (m_pki_encrypted r) (m_transport r) (m_variant r) (m_decoded r).
Definition set_m_pki_encrypted (v : bool) (r : mesh_packet) : mesh_packet :=
MeshPacket (m_from r) (m_to r) (m_channel r) (m_id r) (m_rx_snr r) (m_rx_rssi r)
    (m_hop_limit r) (m_hop_start r) (m_want_ack r) (m_via_mqtt r) (m_next_hop r)
    (m_relay_node r) v (m_transport r) (m_variant r) (m_decoded r).
Definition set_m_transport (v : transport_mechanism) (r : mesh_packet) : mesh_packet :=
MeshPacket (m_from r) (m_to r) (m_channel r) (m_id r) (m_rx_snr r) (m_rx_rssi r)
    (m_hop_limit r) (m_hop_start r) (m_want_ack r) (m_via_mqtt r) (m_next_hop r)
    (m_relay_node r) (m_pki_encrypted r) v (m_variant r) (m_decoded r).
Definition set_m_variant (v : payload_variant) (r : mesh_packet) : mesh_packet :=
MeshPacket (m_from r) (m_to r) (m_channel r) (m_id r) (m_rx_snr r) (m_rx_rssi r)
    (m_hop_limit r) (m_hop_start r) (m_want_ack r) (m_via_mqtt r) (m_next_hop r)
    (m_relay_node r) (m_pki_encrypted r) (m_transport r) v (m_decoded r).
Definition set_m_decoded (v : mesh_data) (r : mesh_packet) : mesh_packet :=
MeshPacket (m_from r) (m_to r) (m_channel r) (m_id r) (m_rx_snr r) (m_rx_rssi r)
    (m_hop_limit r) (m_hop_start r) (m_want_ack r) (m_via_mqtt r) (m_next_hop r)
    (m_relay_node r) (m_pki_encrypted r) (m_transport r) (m_variant r) v.

(** [payload_len] of a packet, with the NULL pointer as length 0. *)
Definition payload_bytes (p : packet) : list Z := default [] (p_payload p).

(** The struct/MeshPacket duality: a consumer reads a field from the decoded
    MeshPacket when the caller supplied one and from the flat struct otherwise. *)
Definition dual {A} (mesh : option mesh_packet) (p : packet) (fm : mesh_packet -> A)
    (fp : packet -> A) : A :=
  match mesh with Some m => fm m | None => fp p end.

(** [meshtastic_packet_to_mesh_pb]: the struct as a MeshPacket. *)
Definition meshtastic_packet_to_mesh_pb (p : packet) : res mesh_packet :=
  if MESHTASTIC_MAX_PAYLOAD_LEN <? Z.of_nat (length (payload_bytes p)) then Fail EINVAL
  else
    Val (MeshPacket (p_from p) (p_to p)
      (if negb (p_channel_index p =? MESHTASTIC_CHANNEL_INDEX_INVALID) then p_channel_index p else 0)
      (p_id p) (p_snr p) (p_rssi p) (p_hop_limit p) (p_hop_start p) (p_want_ack p) (p_via_mqtt p)
      (p_next_hop p) (p_relay_node p) (p_pki_encrypted p)
      (if p_via_mqtt p then TRANSPORT_MQTT else TRANSPORT_LORA) VARIANT_DECODED
      (MeshData (p_portnum p) (payload_bytes p) (p_want_response p) (p_data_dest p)
         (p_data_source p) (p_request_id p) (p_reply_id p) 0
         (p_has_bitfield p) (if p_has_bitfield p then p_bitfield p else 0))).

(** [meshtastic_mesh_pb_to_packet] on a decoded MeshPacket, for a caller's buffer
    of [payload_len] bytes ([None]: no buffer). The channel hash of a slot and the
    node's own hash come from the channel table. *)
Section ToPacket.
Context (channels_get_hash : Z -> Z) (ch_hash : Z).

Definition copy_data_payload (d : mesh_data) (buffer : option Z) : res (option (list Z)) :=
  if Z.of_nat (length (d_payload d)) =? 0 then Val None
  else match buffer with
       | None => Fail ENOMEM
       | Some room =>
           if room <? Z.of_nat (length (d_payload d)) then Fail ENOMEM else Val (Some (d_payload d))
       end.

Definition meshtastic_mesh_pb_to_packet (m : mesh_packet) (buffer : option Z) : res packet :=
  (let! payload := copy_data_payload (m_decoded m) buffer in
   let d := m_decoded m in
   Val (MkPacket (m_from m) (m_to m) (m_id m) (d_portnum d) payload (d_dest d) (d_source d)
     (d_request_id d) (d_reply_id d) (u8 (m_hop_limit m)) (u8 (m_hop_start m)) 0 0
     (if m_channel m <? MESHTASTIC_MAX_CHANNELS then channels_get_hash (u8 (m_channel m))
      else if negb (m_channel m =? 0) then u8 (m_channel m) else ch_hash)
     (if m_channel m <? MESHTASTIC_MAX_CHANNELS then u8 (m_channel m)
      else MESHTASTIC_CHANNEL_INDEX_INVALID)
     (u8 (m_next_hop m)) (u8 (m_relay_node m)) (m_want_ack m) (m_via_mqtt m) (m_pki_encrypted m)
     (d_want_response d) (d_has_bitfield d) (if d_has_bitfield d then u8 (d_bitfield d) else 0)
     (m_rx_rssi m) (m_rx_snr m)))%c.
End ToPacket.

(** ** The wire header *)
Record wire_header := WireHeader {
  h_dest : Z;
  h_src : Z;
  h_id : Z;
  h_flags : Z;
  h_channel : Z;
  h_next_hop : Z;
  h_relay_node : Z;
}.
Definition set_h_dest (v : Z) (r : wire_header) : wire_header :=
WireHeader v (h_src r) (h_id r) (h_flags r) (h_channel r) (h_next_hop r) (h_relay_node r).
Definition set_h_src (v : Z) (r : wire_header) : wire_header :=
WireHeader (h_dest r) v (h_id r) (h_flags r) (h_channel r) (h_next_hop r) (h_relay_node r).
Definition set_h_id (v : Z) (r : wire_header) : wire_header :=
WireHeader (h_dest r) (h_src r) v (h_flags r) (h_channel r) (h_next_hop r) (h_relay_node r).
Definition set_h_flags (v : Z) (r : wire_header) : wire_header :=
WireHeader (h_dest r) (h_src r) (h_id r) v (h_channel r) (h_next_hop r) (h_relay_node r).
Definition set_h_channel (v : Z) (r : wire_header) : wire_header :=
WireHeader (h_dest r) (h_src r) (h_id r) (h_flags r) v (h_next_hop r) (h_relay_node r).
Definition set_h_next_hop (v : Z) (r : wire_header) : wire_header :=
WireHeader (h_dest r) (h_src r) (h_id r) (h_flags r) (h_channel r) v (h_relay_node r).
Definition set_h_relay_node (v : Z) (r : wire_header) : wire_header :=
WireHeader (h_dest r) (h_src r) (h_id r) (h_flags r) (h_channel r) (h_next_hop r) v.

Definition MESHTASTIC_FLAGS_HOP_LIMIT_MASK : Z := 7.
Definition MESHTASTIC_FLAGS_WANT_ACK : Z := 8.
Definition MESHTASTIC_FLAGS_VIA_MQTT : Z := 16.
Definition MESHTASTIC_FLAGS_HOP_START_SHIFT : Z := 5.
Definition MESHTASTIC_FLAGS_HOP_START_MASK : Z := 224.

(** The packed struct in memory, and the struct read from the first 16 bytes. *)
Definition header_bytes (h : wire_header) : list Z :=
  put_le32 (h_dest h) ++ put_le32 (h_src h) ++ put_le32 (h_id h) ++
  [h_flags h; h_channel h; h_next_hop h; h_relay_node h].

Definition wire_dest (w : list Z) : Z := get_le32 0 w.
Definition wire_src (w : list Z) : Z := get_le32 4 w.
Definition wire_id (w : list Z) : Z := get_le32 8 w.
Definition wire_byte (i : nat) (w : list Z) : Z := default 0 (w !! i).

Definition header_of (w : list Z) : wire_header :=
  WireHeader (wire_dest w) (wire_src w) (wire_id w) (wire_byte 12 w) (wire_byte 13 w)
    (wire_byte 14 w) (wire_byte 15 w).

Definition fill_packet_from_header (h : wire_header) (rssi snr : Z) (p : packet) : packet :=
  MkPacket (h_src h) (h_dest h) (h_id h) (p_portnum p) (p_payload p) (p_data_dest p)
    (p_data_source p) (p_request_id p) (p_reply_id p)
    (Z.land (h_flags h) MESHTASTIC_FLAGS_HOP_LIMIT_MASK)
    (Z.shiftr (Z.land (h_flags h) MESHTASTIC_FLAGS_HOP_START_MASK) MESHTASTIC_FLAGS_HOP_START_SHIFT)
    (p_rx_attach p) (p_tx_attach p) (h_channel h) MESHTASTIC_CHANNEL_INDEX_INVALID
    (h_next_hop h) (h_relay_node h)
    (negb (Z.land (h_flags h) MESHTASTIC_FLAGS_WANT_ACK =? 0))
    (negb (Z.land (h_flags h) MESHTASTIC_FLAGS_VIA_MQTT =? 0))
    false (p_want_response p) (p_has_bitfield p) (p_bitfield p) rssi snr.

(** The header [meshtastic_build_wire_from_mesh] stamps in front of the ciphertext. *)
Definition stamp_flags (hop_limit hop_start : Z) (want_ack via_mqtt : bool) : Z :=
  let f := Z.lor (Z.land (u8 hop_limit) MESHTASTIC_FLAGS_HOP_LIMIT_MASK)
             (Z.shiftl (Z.land (u8 hop_start) 7) MESHTASTIC_FLAGS_HOP_START_SHIFT) in
  let f := if want_ack then Z.lor f MESHTASTIC_FLAGS_WANT_ACK else f in
  if via_mqtt then Z.lor f MESHTASTIC_FLAGS_VIA_MQTT else f.

Definition stamp_header (m : mesh_packet) (wire_hash : Z) : wire_header :=
  WireHeader (m_to m) (m_from m) (m_id m)
    (stamp_flags (m_hop_limit m) (m_hop_start m) (m_want_ack m) (m_via_mqtt m))
    wire_hash (u8 (m_next_hop m)) (u8 (m_relay_node m)).

(** ** Lemmas *)

Record header_wf (h : wire_header) : Prop := {
  hw_dest : in_u32 (h_dest h);
  hw_src : in_u32 (h_src h);
  hw_id : in_u32 (h_id h);
  hw_bytes : bytes_ok [h_flags h; h_channel h; h_next_hop h; h_relay_node h];
}.

Lemma length_header_bytes h : length (header_bytes h) = 16%nat.
Proof. reflexivity. Qed.

Lemma in_u32_le z : in_u32 z -> 0 <= z < 256 ^ Z.of_nat 4.
Proof. unfold in_u32, UINT32_MAX. lia. Qed.

Lemma header_of_bytes h body : header_wf h -> header_of (header_bytes h ++ body) = h.
Proof.
  intros [Hd Hs Hi _]. unfold header_of, wire_dest, wire_src, wire_id, header_bytes.
  destruct h as [d s i f c n r]; simpl in Hd, Hs, Hi.
  cbn [h_dest h_src h_id h_flags h_channel h_next_hop h_relay_node]. f_equal.
  - rewrite <- !app_assoc. apply get_le_app_here. by apply in_u32_le.
  - rewrite <- !app_assoc, get_le_app_skip by done. apply get_le_app_here. by apply in_u32_le.
  - rewrite <- !app_assoc, (app_assoc (put_le32 d)), get_le_app_skip by done.
    apply get_le_app_here. by apply in_u32_le.
Qed.

Lemma header_bytes_of w :
  bytes_ok w -> (16 <= length w)%nat -> header_bytes (header_of w) = take 16 w.
Proof.
  intros Hw Hlen. do 16 (destruct w as [|? w]; [simpl in Hlen; lia|]).
  unfold bytes_ok in Hw.
  repeat match goal with H : Forall _ (_ :: _) |- _ => apply Forall_cons in H as [? H] end.
  unfold header_bytes, header_of, wire_dest, wire_src, wire_id, get_le; simpl drop; simpl take.
  simpl h_dest; simpl h_src; simpl h_id.
  assert (E : forall b1 b2 b3 b4, byte_ok b1 -> byte_ok b2 -> byte_ok b3 -> byte_ok b4 ->
    put_le32 (le_get [b1; b2; b3; b4]) = [b1; b2; b3; b4]).
  { intros. by apply (le_put_get [b1; b2; b3; b4]); repeat apply Forall_cons_2. }
  rewrite !E by done. reflexivity.
Qed.

(** The flag byte keeps the three low bits of the hop counts and both flags. *)
Lemma stamp_flags_fields hl hs wa mq :
  0 <= hl < 8 -> 0 <= hs < 8 ->
  let f := stamp_flags hl hs wa mq in
  byte_ok f /\
  Z.land f MESHTASTIC_FLAGS_HOP_LIMIT_MASK = hl /\
  Z.shiftr (Z.land f MESHTASTIC_FLAGS_HOP_START_MASK) MESHTASTIC_FLAGS_HOP_START_SHIFT = hs /\
  negb (Z.land f MESHTASTIC_FLAGS_WANT_ACK =? 0) = wa /\
  negb (Z.land f MESHTASTIC_FLAGS_VIA_MQTT =? 0) = mq.
Proof.
  intros Hl Hs.
  assert (Hin : forall x, 0 <= x < 8 -> x ∈ [0; 1; 2; 3; 4; 5; 6; 7]).
  { intros x Hx. set_unfold. lia. }
  apply Hin in Hl, Hs. set_unfold in Hl. set_unfold in Hs.
  destruct_or!; subst; destruct wa, mq; vm_compute; repeat split; congruence.
Qed.

(** ** Properties *)

(** The wire header round-trips in both directions: what a receiver reads from
    the first 16 bytes is what the sender packed, and re-packing it reproduces
    the bytes. *)
Theorem wire_header_roundtrip :
  (forall h body, header_wf h -> header_of (header_bytes h ++ body) = h) /\
  (forall w, bytes_ok w -> (16 <= length w)%nat -> header_bytes (header_of w) = take 16 w).
Proof. split; [exact header_of_bytes | exact header_bytes_of]. Qed.

(** A receiver recovers from the frame the addresses, id, hop counts, flags and
    relay bytes of the MeshPacket the sender built the header from, for every
    MeshPacket whose fields fit the wire format. *)
Theorem stamped_header_decodes m hash body rssi snr :
  in_u32 (m_to m) -> in_u32 (m_from m) -> in_u32 (m_id m) ->
  0 <= m_hop_limit m < 8 -> 0 <= m_hop_start m < 8 ->
  0 <= m_next_hop m < 256 -> 0 <= m_relay_node m < 256 -> byte_ok hash ->
  let p := fill_packet_from_header (header_of (header_bytes (stamp_header m hash) ++ body))
             rssi snr packet_zero in
  p_from p = m_from m /\ p_to p = m_to m /\ p_id p = m_id m /\
  p_hop_limit p = m_hop_limit m /\ p_hop_start p = m_hop_start m /\
  p_want_ack p = m_want_ack m /\ p_via_mqtt p = m_via_mqtt m /\
  p_next_hop p = m_next_hop m /\ p_relay_node p = m_relay_node m /\ p_channel p = hash.
Proof.
  intros Ht Hf Hi Hl Hs Hn Hr Hh.
  destruct (stamp_flags_fields _ _ (m_want_ack m) (m_via_mqtt m) Hl Hs) as (Hb & E1 & E2 & E3 & E4).
  assert (Hw : header_wf (stamp_header m hash)).
  { split; [done | done | done|]. simpl. rewrite !u8_small by lia.
    repeat apply Forall_cons_2; try assumption; constructor. }
  rewrite header_of_bytes by done. simpl. rewrite !u8_small by lia. by repeat split.
Qed.

Definition witness_mesh : mesh_packet :=
  MeshPacket 305419896 4294967295 3 77 0 0 3 7 true false 0 120 false TRANSPORT_LORA
    VARIANT_DECODED data_zero.

Lemma stamped_header_decodes_witness :
  p_hop_start (fill_packet_from_header
    (header_of (header_bytes (stamp_header witness_mesh 8) ++ [1; 2; 3])) (-80) 6 packet_zero) = 7.
Proof.
  apply (stamped_header_decodes witness_mesh 8 [1; 2; 3] (-80) 6);
    unfold in_u32, byte_ok, UINT32_MAX; simpl; lia.
Defined.

(** Converting a decoded struct to a MeshPacket and back gives the struct the
    consumers see: every field but the radio it was heard on, which the
    MeshPacket does not carry, and the channel hash, which is re-derived from the
    channel index. *)
Theorem packet_mesh_roundtrip gh ch p m buffer :
  in_u8 (p_hop_limit p) -> in_u8 (p_hop_start p) -> in_u8 (p_next_hop p) -> in_u8 (p_relay_node p) ->
  in_u8 (p_bitfield p) -> 0 <= p_channel_index p < MESHTASTIC_MAX_CHANNELS ->
  (p_has_bitfield p = false -> p_bitfield p = 0) -> p_payload p <> Some [] ->
  MESHTASTIC_MAX_PAYLOAD_LEN <= buffer ->
  meshtastic_packet_to_mesh_pb p = Val m ->
  meshtastic_mesh_pb_to_packet gh ch m (Some buffer) =
    Val (set_p_channel (gh (p_channel_index p)) (set_p_rx_attach 0 (set_p_tx_attach 0 p))).
Proof.
  unfold in_u8, UINT8_MAX, MESHTASTIC_MAX_CHANNELS, MESHTASTIC_MAX_PAYLOAD_LEN.
  intros H1 H2 H3 H4 H5 Hc Hbf Hp Hbuf Hm. unfold meshtastic_packet_to_mesh_pb in Hm.
  unfold MESHTASTIC_CHANNEL_INDEX_INVALID, MESHTASTIC_MAX_PAYLOAD_LEN in Hm.
  destruct (_ <? _) eqn:El in Hm; [done|]. bools. injection Hm as <-.
  destruct (p_channel_index p =? 255) eqn:Ec; bools; [lia|]. simpl.
  unfold meshtastic_mesh_pb_to_packet, copy_data_payload, payload_bytes, MESHTASTIC_MAX_CHANNELS in *.
  destruct p as [? ? ? ? pl ? ? ? ? hl hst ? ? chn ci nh rn ? ? ? ? hb bf ? ?]; simpl in *.
  rewrite !u8_small by lia. destruct (ci <? 8) eqn:E8; bools; [|lia].
  destruct pl as [[|b pl]|]; simpl in *; [done| |].
  - destruct (buffer <? _) eqn:E; bools; [lia|]. simpl.
    destruct hb; rewrite ?u8_small by lia; [done|]. by rewrite Hbf.
  - destruct hb; rewrite ?u8_small by lia; [done|]. by rewrite Hbf.
Qed.

Definition witness_packet : packet :=
  set_p_payload (Some [104; 105]) (set_p_from 7 (set_p_to 9 (set_p_portnum 1 packet_zero))).

Lemma packet_mesh_roundtrip_witness :
  exists m, meshtastic_packet_to_mesh_pb witness_packet = Val m /\
    meshtastic_mesh_pb_to_packet (fun i => i + 40) 0 m (Some 233) =
      Val (set_p_channel 40 witness_packet).
Proof.
  eexists. split; [reflexivity|].
  apply (packet_mesh_roundtrip (fun i => i + 40) 0 witness_packet); try reflexivity;
    unfold in_u8, UINT8_MAX, MESHTASTIC_MAX_CHANNELS, MESHTASTIC_MAX_PAYLOAD_LEN; simpl;
    congruence || lia.
Defined.
