(* ===== verification/Outbound.v ===== *)
(** * The outbound queue (src/src/meshtastic_outbound.c)

    All LoRa transmits go through one worker thread and one small priority queue.
    The queue state is a record; every region the C code runs under [ob_lock] is
    one function on it, so a function is an atomic step and the threads
    (the worker, fire-and-forget callers, blocking callers, the relay's cancel and
    defer) interleave between them: that is the relation [ob_step]. What the
    worker and the callers do outside the lock (the radio, the BLE divert, the
    head, the duty gate) reaches the model as the values those calls return. *)
From S2P Require Import Prelude Sched Contention Packet.
Open Scope Z_scope.

Class ObKconfig := {
  ob_sched_kconfig :: SchedKconfig;
  TX_DEFER_MAX : Z;          (* CONFIG_MESHTASTIC_TX_DEFER_MAX *)
  TX_DEFER_MAX_range : 1 <= TX_DEFER_MAX <= 255;
  ATTACHMENT_HEAD : bool;    (* CONFIG_MESHTASTIC_ATTACHMENT_HEAD *)
  ATTACHMENT_BRAIN : bool;   (* CONFIG_MESHTASTIC_ATTACHMENT_BRAIN *)
  DUTY_CYCLE : bool;         (* CONFIG_MESHTASTIC_DUTY_CYCLE *)
  AIRTIME : bool;            (* CONFIG_MESHTASTIC_AIRTIME *)
}.

Definition default_ob_kconfig : ObKconfig :=
  {| ob_sched_kconfig := default_sched_kconfig; TX_DEFER_MAX := 32;
     TX_DEFER_MAX_range := ltac:(lia);
     ATTACHMENT_HEAD := false; ATTACHMENT_BRAIN := true; DUTY_CYCLE := true; AIRTIME := true |}.

(** ** State *)

(** [it_wire] is [wire] up to [len]. [it_done] names the blocked caller whose
    semaphore and result the item points to; [None] is fire-and-forget. *)
Record ob_item := ObItem {
  it_wire : list Z;
  it_tier : Z;
  it_send_after : Z;
  it_late : bool;
  it_gen : Z;
  it_defers : Z;
  it_attach : Z;
  it_done : option nat;
}.
Definition set_it_wire (v : list Z) (r : ob_item) : ob_item :=
ObItem v (it_tier r) (it_send_after r) (it_late r) (it_gen r) (it_defers r) (it_attach r)
    (it_done r).
Definition set_it_tier (v : Z) (r : ob_item) : ob_item :=
ObItem (it_wire r) v (it_send_after r) (it_late r) (it_gen r) (it_defers r) (it_attach r)
    (it_done r).
Definition set_it_send_after (v : Z) (r : ob_item) : ob_item :=
ObItem (it_wire r) (it_tier r) v (it_late r) (it_gen r) (it_defers r) (it_attach r) (it_done
    r).
Definition set_it_late (v : bool) (r : ob_item) : ob_item :=
ObItem (it_wire r) (it_tier r) (it_send_after r) v (it_gen r) (it_defers r) (it_attach r)
    (it_done r).
Definition set_it_gen (v : Z) (r : ob_item) : ob_item :=
ObItem (it_wire r) (it_tier r) (it_send_after r) (it_late r) v (it_defers r) (it_attach r)
    (it_done r).
Definition set_it_defers (v : Z) (r : ob_item) : ob_item :=
ObItem (it_wire r) (it_tier r) (it_send_after r) (it_late r) (it_gen r) v (it_attach r)
    (it_done r).
Definition set_it_attach (v : Z) (r : ob_item) : ob_item :=
ObItem (it_wire r) (it_tier r) (it_send_after r) (it_late r) (it_gen r) (it_defers r) v
    (it_done r).
Definition set_it_done (v : option nat) (r : ob_item) : ob_item :=
ObItem (it_wire r) (it_tier r) (it_send_after r) (it_late r) (it_gen r) (it_defers r)
    (it_attach r) v.

Definition it_len (it : ob_item) : Z := Z.of_nat (length (it_wire it)).

(** [ob_cur] is [Some cur] from the dequeue until the transmit returned, that is
    while [ob_inflight] is set. *)
Record ob := OB {
  ob_items : list ob_item;
  ob_cur : option ob_item;
  ob_avail : Z;
  ob_space : Z;
  ob_stats : sched_stats;
}.
Definition set_ob_items (v : list ob_item) (r : ob) : ob :=
OB v (ob_cur r) (ob_avail r) (ob_space r) (ob_stats r).
Definition set_ob_cur (v : option ob_item) (r : ob) : ob :=
OB (ob_items r) v (ob_avail r) (ob_space r) (ob_stats r).
Definition set_ob_avail (v : Z) (r : ob) : ob :=
OB (ob_items r) (ob_cur r) v (ob_space r) (ob_stats r).
Definition set_ob_space (v : Z) (r : ob) : ob :=
OB (ob_items r) (ob_cur r) (ob_avail r) v (ob_stats r).
Definition set_ob_stats (v : sched_stats) (r : ob) : ob :=
OB (ob_items r) (ob_cur r) (ob_avail r) (ob_space r) v.

Definition ob_count (q : ob) : Z := Z.of_nat (length (ob_items q)).
Definition ob_inflight (q : ob) : bool := if ob_cur q then true else false.
Definition ob_init : ob := OB [] None 0 0 stats_zero.

(** What a step makes visible outside the queue. *)
Inductive ob_effect : Type :=
  | Complete (waiter : nat) (ret : cret)  (* *cur.result = ret; k_sem_give(cur.done) *)
  | NoteTxStale
  | TxDeferRequeued
  | TxDroppedBusy
  | TxDroppedQueueFull
  | DutyNoteBlocked (is_relay : bool) (silent : Z).

Section Outbound.
Context `{ObKconfig}.

Definition sem_give (n : Z) : Z := if n <? OB_MAX then n + 1 else n.
Definition sem_take_nowait (n : Z) : Z := if 0 <? n then n - 1 else n.

(** ** Queue helpers *)

Definition ob_eligible (it : ob_item) (now : Z) : bool :=
  (it_send_after it =? 0) || (0 <=? to_i32 (now - it_send_after it)).

(** The scan of [pick_next_locked], from index [i] on: the best index so far and
    the soonest due time seen. *)
Fixpoint pick_loop (order : sched_order) (now : Z) (i : nat) (best : option (nat * ob_item))
    (soonest : option Z) (l : list ob_item) : option (nat * ob_item) * option Z :=
  match l with
  | [] => (best, soonest)
  | it :: l' =>
      if negb (ob_eligible it now) then
        let due := u32 (it_send_after it - now) in
        let soonest' :=
          match soonest with
          | None => Some due
          | Some s => if due <? s then Some due else Some s
          end in
        pick_loop order now (S i) best soonest' l'
      else
        match best with
        | None =>
            match order with
            | ORDER_FIFO => (Some (i, it), soonest)
            | ORDER_PRIORITY => pick_loop order now (S i) (Some (i, it)) soonest l'
            end
        | Some (b, y) =>
            let best' :=
              match order with
              | ORDER_FIFO => best
              | ORDER_PRIORITY => if it_tier y <? it_tier it then Some (i, it) else best
              end in
            pick_loop order now (S i) best' soonest l'
        end
  end.

(** The index to send next, and the time to wait when there is none. *)
Definition pick_next_locked (order : sched_order) (now : Z) (l : list ob_item)
    : option (nat * ob_item) * Z :=
  match pick_loop order now 0 None None l with
  | (None, Some s) => (None, s)
  | (best, _) => (best, 0)
  end.

Definition evict_victim_locked (l : list ob_item) : option (nat * ob_item) :=
  scan_best (fun it => bool_decide (it_done it = None))
    (fun x y => (it_tier x <? it_tier y) || (it_tier x =? it_tier y)) l.

(** [remove_index_locked]: the frames behind index [i] move up by one. *)
Definition remove_index_locked (i : nat) (l : list ob_item) : list ob_item :=
  take i l ++ drop (S i) l.

(** A deadline of 0 means "now": a due time that wraps to 0 becomes 1. *)
Definition due_time (now delay : Z) : Z :=
  let due := u32 (now + delay) in if due =? 0 then 1 else due.

(** The radio state [requeue_deferred_locked] reads. *)
Record radio_env := RadioEnv {
  re_cfg : sched_config; re_draw : draw; re_util : Z; re_sf : Z; re_bw : Z; re_now : Z }.

Definition requeue_delay (e : radio_env) : Z :=
  let util := if AIRTIME then u8 (re_util e) else 0 in
  let slot := meshtastic_contention_effective_slot_ms (re_cfg e) (re_sf e) (re_bw e) false in
  let delay := meshtastic_contention_delay_own_ms (re_cfg e) (re_draw e) util slot in
  Z.max delay (Z.max slot 1).

(** Back in the queue ([inl]), or dropped because the cap was hit ([inr true]) or
    the queue filled up meanwhile ([inr false]). *)
Definition requeue_deferred_locked (e : radio_env) (it : ob_item) (q : ob) : ob + bool :=
  if TX_DEFER_MAX <=? it_defers it then inr true
  else if OB_MAX <=? ob_count q then inr false
  else
    let it := set_it_defers (u8 (it_defers it + 1)) it in
    let it := set_it_send_after (due_time (re_now e) (requeue_delay e)) it in
    inl (set_ob_items (ob_items q ++ [it]) (set_ob_space (sem_take_nowait (ob_space q)) q)).

(** ** The worker *)

(** First critical section of a pass: dequeue the next frame, or compute the
    sleep: forever when the queue is empty, else until the earliest deadline. *)
Inductive pick_result := Picked (it : ob_item) | SleepForever | SleepMs (ms : Z).

Definition worker_pick (c : sched_config) (now : Z) (q : ob) : ob * pick_result :=
  match pick_next_locked (tx_order c) now (ob_items q) with
  | (Some (i, it), _) =>
      (set_ob_items (remove_index_locked i (ob_items q))
         (set_ob_cur (Some it) (set_ob_space (sem_give (ob_space q)) q)), Picked it)
  | (None, wait) =>
      (q, if ob_count q =? 0 then SleepForever else SleepMs (Z.max wait 1))
  end.

(** What the calls made outside the lock returned. *)
Record tx_answers := TxAnswers {
  a_attachment : cret;  (* meshtastic_attachment_tx *)
  a_divert : cret;      (* meshtastic_ble_peer_tx_try_divert *)
  a_radio : cret;       (* meshtastic_radio_send_wire_now *)
  a_generation : Z;     (* meshtastic_preset_generation *)
}.

Definition worker_transmit (a : tx_answers) (it : ob_item) : cret * list ob_effect :=
  let ret :=
    if ATTACHMENT_BRAIN && negb (it_attach it =? 0) then a_attachment a else a_divert a in
  if (it_attach it =? 0) && negb (bool_decide (ret = OK)) && negb (it_gen it =? a_generation a) then
    (ERR ESTALE, [NoteTxStale])
  else if (it_attach it =? 0) && negb (bool_decide (ret = OK)) then (a_radio a, [])
  else (ret, []).

(** The statistics and the completion after the second critical section. *)
Definition complete_frame (it : ob_item) (ret : cret) (q : ob) : ob * list ob_effect :=
  let '(q, fx) :=
    match ret with
    | ERR EBUSY =>
        (set_ob_stats (meshtastic_sched_stat_drop (it_tier it) (ob_stats q)) q, [TxDroppedBusy])
    | ERR ENOBUFS =>
        (set_ob_stats (meshtastic_sched_stat_drop (it_tier it) (ob_stats q)) q, [TxDroppedQueueFull])
    | _ => (q, [])
    end in
  (q, fx ++ match it_done it with Some w => [Complete w ret] | None => [] end).

Definition worker_finish (e : radio_env) (ret : cret) (q : ob) : ob * list ob_effect :=
  match ob_cur q with
  | None => (q, [])
  | Some it =>
      let q := set_ob_cur None q in
      if bool_decide (ret = ERR EINPROGRESS) then
        match requeue_deferred_locked e it q with
        | inl q' => (set_ob_avail (sem_give (ob_avail q')) q', [TxDeferRequeued])
        | inr cap_hit => complete_frame it (ERR (if cap_hit : bool then EBUSY else ENOBUFS)) q
        end
      else complete_frame it ret q
  end.

(** ** Enqueueing *)

Record enqueue_env := EnqueueEnv {
  ee_cfg : sched_config;        (* meshtastic_sched_snapshot, this iteration *)
  ee_tx_ready : Z -> bool;      (* meshtastic_attachment_tx_ready *)
  ee_duty : option Z;           (* meshtastic_duty_blocked: the silent minutes *)
  ee_node_id : Z;
  ee_generation : Z;
  ee_now : Z;
}.

(** The checks before the lock; [pkt] is [None] for the NULL pointer. *)
Definition enqueue_checks (e : enqueue_env) (pkt : option (list Z)) (attach : Z)
    : option errno * list ob_effect :=
  match pkt with
  | None => (Some EINVAL, [])
  | Some w =>
      let len := Z.of_nat (length w) in
      if (len =? 0) || (MESHTASTIC_PKT_MAX <? len) then (Some EINVAL, [])
      else if ATTACHMENT_HEAD then (Some EPERM, [])
      else if negb (attach =? 0) && negb (ATTACHMENT_BRAIN && ee_tx_ready e attach) then
        (Some EHOSTUNREACH, [])
      else match (if DUTY_CYCLE then ee_duty e else None) with
           | Some silent =>
               let is_relay :=
                 (MESHTASTIC_HDR_LEN <=? len) && negb (wire_src w =? ee_node_id e) in
               (Some ECANCELED, [DutyNoteBlocked is_relay silent])
           | None => (None, [])
           end
  end.

Definition soft_depth (c : sched_config) : Z := u8 (Z.max 1 (Z.min (tx_depth c) OB_MAX)).

(** The insertion at the end of the critical section. *)
Definition enqueue_insert (e : enqueue_env) (w : list Z) (tier delay_ms attach : Z)
    (done : option nat) (q : ob) : ob :=
  let it := ObItem w tier (if delay_ms =? 0 then 0 else due_time (ee_now e) delay_ms)
              false (ee_generation e) 0 attach done in
  let items := ob_items q ++ [it] in
  set_ob_avail (sem_give (ob_avail q))
    (set_ob_stats (meshtastic_sched_stat_enq tier (u8 (Z.of_nat (length items))) (ob_stats q))
       (set_ob_items items q)).

(** A fire-and-forget call, whole. *)
Definition outbound_enqueue_nowait (e : enqueue_env) (pkt : option (list Z)) (tier delay_ms attach : Z)
    (q : ob) : ob * cret * list ob_effect :=
  match enqueue_checks e pkt attach, pkt with
  | (Some err, fx), _ => (q, ERR err, fx)
  | (None, fx), None => (q, ERR EINVAL, fx)
  | (None, fx), Some w =>
      let c := ee_cfg e in
      let drop t q := set_ob_stats (meshtastic_sched_stat_drop t (ob_stats q)) q in
      if ob_count q <? soft_depth c then (enqueue_insert e w tier delay_ms attach None q, OK, fx)
      else
        match
          (if bool_decide (tx_order c = ORDER_PRIORITY) && bool_decide (tx_overflow c = OVF_DROP_LOWEST)
           then evict_victim_locked (ob_items q) else None) with
        | Some (i, victim) =>
            if it_tier victim <? tier then
              let q := drop (it_tier victim) q in
              let q := set_ob_items (remove_index_locked i (ob_items q)) q in
              let q := set_ob_avail (sem_take_nowait (ob_avail q)) q in
              (enqueue_insert e w tier delay_ms attach None q, OK, fx)
            else (drop tier q, ERR ENOMSG, fx)
        | None => (drop tier q, ERR ENOMSG, fx)
        end
  end.

(** One iteration of a blocking call's loop: inserted, or it must wait for space. *)
Definition outbound_enqueue_blocking (e : enqueue_env) (w : list Z) (tier delay_ms attach : Z)
    (waiter : nat) (q : ob) : option ob :=
  if ob_count q <? soft_depth (ee_cfg e)
  then Some (enqueue_insert e w tier delay_ms attach (Some waiter) q) else None.

(** The entry points. *)
Definition meshtastic_radio_send_wire_prio (e : enqueue_env) (pkt : option (list Z)) (tier : Z) :=
  outbound_enqueue_nowait e pkt tier 0 0.
Definition meshtastic_radio_send_wire_after (e : enqueue_env) (pkt : option (list Z))
    (tier delay_ms : Z) := outbound_enqueue_nowait e pkt tier delay_ms 0.
Definition meshtastic_radio_send_wire_after_on (e : enqueue_env) (pkt : option (list Z))
    (tier delay_ms attach : Z) := outbound_enqueue_nowait e pkt tier delay_ms attach.
Definition meshtastic_radio_send_wire (e : enqueue_env) (pkt : option (list Z)) :=
  meshtastic_radio_send_wire_prio e pkt MT_SCHED_TIER_NORMAL.

Definition meshtastic_outbound_pending (q : ob) : Z :=
  u8 (ob_count q + (if ob_inflight q then 1 else 0)).

(** ** Cancelling and deferring queued relays *)

Definition frame_matches (src id : Z) (it : ob_item) : bool :=
  (MESHTASTIC_HDR_LEN <=? it_len it) && bool_decide (it_done it = None) &&
  (wire_src (it_wire it) =? src) && (wire_id (it_wire it) =? id).

(** The reverse scan: indices [n-1] down to 0. *)
Fixpoint cancel_loop (src id : Z) (n : nat) (l : list ob_item) (removed : nat)
    : list ob_item * nat :=
  match n with
  | O => (l, removed)
  | S i =>
      match l !! i with
      | Some it =>
          if frame_matches src id it
          then cancel_loop src id i (remove_index_locked i l) (S removed)
          else cancel_loop src id i l removed
      | None => cancel_loop src id i l removed
      end
  end.

Definition meshtastic_outbound_cancel (src id : Z) (q : ob) : ob * nat :=
  let '(items, removed) := cancel_loop src id (length (ob_items q)) (ob_items q) 0 in
  (set_ob_items items (set_ob_space (Nat.iter removed sem_give (ob_space q)) q), removed).

Definition defer_one (src id now delay_ms : Z) (it : ob_item) : ob_item :=
  if frame_matches src id it && negb (it_late it)
  then set_it_late true (set_it_send_after (due_time now delay_ms) it) else it.

Definition meshtastic_outbound_defer_late (src id now delay_ms : Z) (q : ob) : ob * nat :=
  (set_ob_items (defer_one src id now delay_ms <$> ob_items q) q,
   length (List.filter (fun it => frame_matches src id it && negb (it_late it)) (ob_items q))).

(** ** Which frame is next *)

Lemma pick_loop_priority now n best soonest l :
  (pick_loop ORDER_PRIORITY now n best soonest l).1 =
  scan_from (fun it => ob_eligible it now) (fun x y => it_tier y <? it_tier x) n best l.
Proof.
  revert n best soonest. induction l as [|it l IH]; intros n best soonest; simpl; [done|].
  unfold scan_step. destruct (ob_eligible it now); simpl; [|by rewrite IH].
  destruct best as [[b y]|]; by rewrite IH.
Qed.

Lemma pick_loop_fifo now n soonest l :
  (pick_loop ORDER_FIFO now n None soonest l).1 =
  (match find_index (fun it => ob_eligible it now) l with
   | Some i => (fun it => ((n + i)%nat, it)) <$> l !! i
   | None => None
   end).
Proof.
  revert n soonest. induction l as [|it l IH]; intros n soonest; simpl; [done|].
  destruct (ob_eligible it now); simpl; [by rewrite Nat.add_0_r|].
  rewrite IH. destruct (find_index _ l) as [i|]; simpl; [|done].
  destruct (l !! i); simpl; [|done]. do 2 f_equal. lia.
Qed.

(** The soonest due time among the frames that are not eligible yet. *)
Definition least_due (now : Z) (soonest : option Z) (l : list ob_item) (r : option Z) : Prop :=
  match r with
  | None => soonest = None /\ forall it, it ∈ l -> ob_eligible it now = true
  | Some s =>
      (soonest = Some s \/
       exists it, it ∈ l /\ ob_eligible it now = false /\ s = u32 (it_send_after it - now)) /\
      (forall s', soonest = Some s' -> s <= s') /\
      (forall it, it ∈ l -> ob_eligible it now = false -> s <= u32 (it_send_after it - now))
  end.

Lemma pick_loop_soonest order now n best soonest l :
  (pick_loop order now n best soonest l).1 = None ->
  least_due now soonest l (pick_loop order now n best soonest l).2.
Proof.
  revert n best soonest. induction l as [|it l IH]; intros n best soonest; simpl.
  { intros ->. destruct soonest as [s|]; simpl; [|set_solver].
    split; [by left|]. split; [|set_solver]. intros s' [= ->]. lia. }
  destruct (ob_eligible it now) eqn:Hel; simpl.
  - intros Hn. exfalso. revert Hn.
    assert (Hkeep : forall n b y s, (pick_loop order now n (Some (b, y)) s l).1 <> None).
    { clear. induction l as [|it l IH]; intros n b y s; simpl; [done|].
      destruct (ob_eligible it now); simpl; [|apply IH].
      destruct order; [apply IH|]. destruct (it_tier y <? it_tier it); apply IH. }
    destruct best as [[b y]|].
    + destruct order; [apply Hkeep|]. destruct (it_tier y <? it_tier it); apply Hkeep.
    + destruct order; [done | apply Hkeep].
  - intros Hn. specialize (IH _ _ _ Hn). unfold least_due in *.
    destruct (pick_loop _ _ _ _ _ _).2 as [s|].
    + destruct IH as (Hs & Hle & Hall).
      destruct soonest as [s0|]; [destruct (_ <? s0) eqn:E; bools|];
        (split; [set_solver|]; split;
          [intros s' Es; simplify_eq; specialize (Hle _ eq_refl); lia |
           intros z [->|Hz]%elem_of_cons Hez; [specialize (Hle _ eq_refl); lia | by apply Hall]]).
    + destruct IH as [Hs _]. destruct soonest; [destruct (_ <? _)|]; done.
Qed.

Lemma pick_next_Some order now l i it w :
  pick_next_locked order now l = (Some (i, it), w) -> (pick_loop order now 0 None None l).1 = Some (i, it).
Proof. unfold pick_next_locked. destruct (pick_loop _ _ _ _ _ _) as [[?|] [?|]]; simpl; congruence. Qed.

Lemma pick_next_lookup order now l i it w :
  pick_next_locked order now l = (Some (i, it), w) -> l !! i = Some it /\ ob_eligible it now = true.
Proof.
  intros Hp%pick_next_Some. destruct order.
  - rewrite pick_loop_fifo in Hp. destruct (find_index _ l) as [j|] eqn:E; [|done].
    apply find_index_Some_1 in E as (x & Hx & Hel). rewrite Hx in Hp. by simplify_eq/=.
  - rewrite pick_loop_priority in Hp.
    apply (scan_best_first _ _ (fun x => - it_tier x)) in Hp as (? & ? & _); [done|].
    intros x y. destruct (it_tier y <? it_tier x) eqn:E; bools; lia.
Qed.

Lemma remove_index_perm i l it : l !! i = Some it -> l ≡ₚ it :: remove_index_locked i l.
Proof.
  intros Hi. unfold remove_index_locked. rewrite <- delete_take_drop. by apply delete_Permutation.
Qed.

Lemma remove_index_length i l it :
  l !! i = Some it -> length l = S (length (remove_index_locked i l)).
Proof. intros Hi. apply (Permutation_length (remove_index_perm i l it Hi)). Qed.

(** ** Cancelling is filtering *)

Lemma cancel_loop_filter src id n l r :
  (n <= length l)%nat ->
  cancel_loop src id n l r =
  (List.filter (fun it => negb (frame_matches src id it)) (take n l) ++ drop n l,
   (r + length (List.filter (frame_matches src id) (take n l)))%nat).
Proof.
  revert l r. induction n as [|n IH]; intros l r Hn; simpl; [by rewrite drop_0, Nat.add_0_r|].
  destruct (lookup_lt_is_Some_2 l n ltac:(lia)) as [it Hit]. rewrite Hit.
  rewrite (take_S_r l n it) by done. rewrite !List.filter_app, length_app. simpl.
  assert (Hd : drop n l = it :: drop (S n) l) by by apply drop_S.
  assert (Hl : length (take n l) = n) by (rewrite length_take; lia).
  destruct (frame_matches src id it) eqn:Hm; simpl.
  - unfold remove_index_locked. rewrite IH by (rewrite length_app, length_take, length_drop; lia).
    rewrite take_app_length', drop_app_length' by done. rewrite app_nil_r. f_equal; lia.
  - rewrite IH by lia. rewrite Hd, <- app_assoc. simpl. f_equal; lia.
Qed.

(** ** Conservation of frames *)

Definition frames (q : ob) : list ob_item := ob_items q ++ option_list (ob_cur q).

(** The blocked callers whose frame the queue holds or the radio is sending. *)
Definition waiters (q : ob) : list nat := omap it_done (frames q).

Definition completed (fx : list ob_effect) : list nat :=
  omap (fun x => match x with Complete w _ => Some w | _ => None end) fx.

Definition item_ok (it : ob_item) : Prop :=
  1 <= it_len it <= MESHTASTIC_PKT_MAX /\ 0 <= it_defers it <= TX_DEFER_MAX /\
  (it_attach it <> 0 -> ATTACHMENT_BRAIN = true).

Record ob_inv (q : ob) : Prop := {
  inv_len : ob_count q <= OB_MAX;
  inv_items : Forall item_ok (frames q);
  inv_avail : 0 <= ob_avail q <= OB_MAX;
  inv_space : 0 <= ob_space q <= OB_MAX;
}.

(** One atomic step of some thread: the callers admitted by it, and its effects. *)
Inductive ob_step (q : ob) : list nat -> list ob_effect -> ob -> Prop :=
  | step_enqueue e pkt tier delay attach q' ret fx :
      outbound_enqueue_nowait e pkt tier delay attach q = (q', ret, fx) ->
      ob_step q [] fx q'
  | step_block_insert e0 e w tier delay attach waiter fx q' :
      enqueue_checks e0 (Some w) attach = (None, fx) ->
      outbound_enqueue_blocking e w tier delay attach waiter q = Some q' ->
      ob_step q [waiter] fx q'
  | step_block_wait :
      0 < ob_space q -> ob_step q [] [] (set_ob_space (ob_space q - 1) q)
  | step_worker_sleep :
      0 < ob_avail q -> ob_step q [] [] (set_ob_avail (ob_avail q - 1) q)
  | step_worker_pick c now :
      ob_cur q = None -> ob_step q [] [] (worker_pick c now q).1
  | step_worker_finish e a it ret fx1 q' fx2 :
      ob_cur q = Some it -> worker_transmit a it = (ret, fx1) ->
      worker_finish e ret q = (q', fx2) -> ob_step q [] (fx1 ++ fx2) q'
  | step_cancel src id : ob_step q [] [] (meshtastic_outbound_cancel src id q).1
  | step_defer_late src id now delay :
      ob_step q [] [] (meshtastic_outbound_defer_late src id now delay q).1.

Inductive ob_run (q : ob) : list nat -> list ob_effect -> ob -> Prop :=
  | run_refl : ob_run q [] [] q
  | run_step ws fx q1 ws' fx' q2 :
      ob_run q ws fx q1 -> ob_step q1 ws' fx' q2 -> ob_run q (ws ++ ws') (fx ++ fx') q2.

Lemma frames_insert e w tier delay attach d q :
  exists it, frames (enqueue_insert e w tier delay attach d q) ≡ₚ it :: frames q /\
    it_wire it = w /\ it_done it = d /\ it_defers it = 0 /\ it_attach it = attach.
Proof.
  exists (ObItem w tier (if delay =? 0 then 0 else due_time (ee_now e) delay) false
            (ee_generation e) 0 attach d).
  split; [|done]. unfold frames; simpl. rewrite <- app_assoc. simpl. symmetry. apply Permutation_middle.
Qed.

Lemma frames_remove i it q :
  ob_items q !! i = Some it ->
  frames q ≡ₚ it :: (remove_index_locked i (ob_items q) ++ option_list (ob_cur q)).
Proof. intros Hi. apply (Permutation_app_tail _ (remove_index_perm _ _ _ Hi)). Qed.

Lemma evict_victim_spec l i it :
  evict_victim_locked l = Some (i, it) ->
  l !! i = Some it /\ it_done it = None /\
  forall j y, l !! j = Some y -> it_done y = None ->
    it_tier it <= it_tier y /\ (it_tier it = it_tier y -> (j <= i)%nat).
Proof.
  intros Hv. apply (scan_best_last _ _ it_tier) in Hv as (Hi & Hd & Hall).
  - bools. split; [done|]. split; [done|]. intros j y Hj Hy.
    destruct (Hall j y Hj) as [? Ht]; [by apply bool_decide_eq_true|].
    split; [done|]. intros E. specialize (Ht E). lia.
  - intros x y. destruct (it_tier x <=? it_tier y) eqn:E; bools; lia.
Qed.


Lemma frames_cancel src id q :
  frames (meshtastic_outbound_cancel src id q).1 =
  List.filter (fun it => negb (frame_matches src id it)) (ob_items q) ++ option_list (ob_cur q).
Proof.
  unfold meshtastic_outbound_cancel. rewrite cancel_loop_filter by done.
  rewrite take_ge, drop_ge by done. unfold frames. simpl. by rewrite app_nil_r.
Qed.

Lemma waiters_filter src id (l : list ob_item) :
  omap it_done (List.filter (fun it => negb (frame_matches src id it)) l) = omap it_done l.
Proof.
  induction l as [|it l IH]; [done|]. cbn [List.filter].
  rewrite (omap_cons_list it_done it l), <- IH.
  destruct (frame_matches src id it) eqn:Hm; cbn [negb]; [|by rewrite omap_cons_list].
  unfold frame_matches in Hm. bools.
  match goal with E : it_done it = None |- _ => by rewrite E end.
Qed.

Lemma waiters_defer src id now delay (l : list ob_item) :
  omap it_done (defer_one src id now delay <$> l) = omap it_done l.
Proof.
  induction l as [|it l IH]; [done|]. rewrite fmap_cons, !omap_cons_list, IH. f_equal.
  unfold defer_one. by destruct (_ && _).
Qed.

Lemma complete_frame_spec it ret q :
  let '(q', fx) := complete_frame it ret q in
  frames q' = frames q /\ completed fx = option_list (it_done it) /\
  ob_avail q' = ob_avail q /\ ob_space q' = ob_space q.
Proof.
  unfold complete_frame. destruct ret as [|[]]; simpl; destruct (it_done it); done.
Qed.

Lemma requeue_spec e it q q' :
  requeue_deferred_locked e it q = inl q' ->
  exists it', it_done it' = it_done it /\ it_wire it' = it_wire it /\ it_attach it' = it_attach it /\
    it_defers it' = u8 (it_defers it + 1) /\ it_defers it < TX_DEFER_MAX /\ ob_count q < OB_MAX /\
    ob_items q' = ob_items q ++ [it'] /\ ob_cur q' = ob_cur q /\ ob_avail q' = ob_avail q /\
    ob_space q' = sem_take_nowait (ob_space q).
Proof.
  unfold requeue_deferred_locked. intros Hr. branches; simplify_eq.
  exists (set_it_send_after (due_time (re_now e) (requeue_delay e))
            (set_it_defers (u8 (it_defers it + 1)) it)).
  by repeat split.
Qed.

(** The change of [frames] in the worker's second critical section. *)
Lemma finish_cases e ret q q' fx it :
  ob_cur q = Some it -> worker_finish e ret q = (q', fx) ->
  (exists it', frames q' = ob_items q ++ [it'] /\ completed fx = [] /\
     it_done it' = it_done it /\ it_wire it' = it_wire it /\ it_attach it' = it_attach it /\
     it_defers it' = u8 (it_defers it + 1) /\ it_defers it < TX_DEFER_MAX /\
     ob_count q < OB_MAX /\ ob_cur q' = None /\ ob_items q' = ob_items q ++ [it'] /\
     ob_avail q' = sem_give (ob_avail q) /\ ob_space q' = sem_take_nowait (ob_space q)) \/
  (frames q' = ob_items q /\ completed fx = option_list (it_done it) /\
   ob_items q' = ob_items q /\ ob_avail q' = ob_avail q /\ ob_space q' = ob_space q).
Proof.
  intros Hc. unfold worker_finish. rewrite Hc.
  assert (Hcompl : forall r, complete_frame it r (set_ob_cur None q) = (q', fx) ->
    frames q' = ob_items q /\ completed fx = option_list (it_done it) /\
    ob_items q' = ob_items q /\ ob_avail q' = ob_avail q /\ ob_space q' = ob_space q).
  { intros r E. pose proof (complete_frame_spec it r (set_ob_cur None q)) as Hs.
    rewrite E in Hs. destruct Hs as (Hf & ? & ? & ?). unfold frames in Hf; simpl in Hf.
    rewrite app_nil_r in Hf. unfold complete_frame in E.
    destruct r as [|[]]; simplify_eq/=; unfold frames; simpl; by rewrite app_nil_r. }
  destruct (bool_decide (ret = ERR EINPROGRESS)); [|intros E; right; eauto].
  destruct (requeue_deferred_locked _ _ _) as [q1|[]] eqn:Hr; [|intros E; right; eauto..].
  intros [= <- <-]. left.
  apply requeue_spec in Hr as (it' & ? & ? & ? & ? & ? & ? & Hi & Hcur & Ha & Hs). simpl in *.
  exists it'. unfold frames; simpl. rewrite Hi, Hcur, Hs, Ha. simpl. by rewrite app_nil_r.
Qed.

Lemma pick_frames c now q :
  ob_cur q = None -> frames (worker_pick c now q).1 ≡ₚ frames q.
Proof.
  intros Hc. unfold worker_pick.
  destruct (pick_next_locked _ _ _) as [[[i it]|] w] eqn:E; [|done].
  apply pick_next_lookup in E as [Hi _]. unfold frames; simpl. rewrite Hc. simpl.
  rewrite app_nil_r. etrans; [symmetry; apply Permutation_cons_append|].
  symmetry. by apply remove_index_perm.
Qed.

(** The fire-and-forget call: what it changes. *)
Lemma enqueue_nowait_cases e pkt tier delay attach q q' ret fx :
  outbound_enqueue_nowait e pkt tier delay attach q = (q', ret, fx) ->
  completed fx = [] /\
  ((ret <> OK /\ ob_items q' = ob_items q /\ ob_cur q' = ob_cur q /\
    ob_avail q' = ob_avail q /\ ob_space q' = ob_space q) \/
   (exists w, pkt = Some w /\ ret = OK /\ enqueue_checks e pkt attach = (None, fx) /\
     ((ob_count q < soft_depth (ee_cfg e) /\ q' = enqueue_insert e w tier delay attach None q) \/
      (exists i victim q1, evict_victim_locked (ob_items q) = Some (i, victim) /\
         it_tier victim < tier /\ tx_order (ee_cfg e) = ORDER_PRIORITY /\
         tx_overflow (ee_cfg e) = OVF_DROP_LOWEST /\
         ob_items q1 = remove_index_locked i (ob_items q) /\ ob_cur q1 = ob_cur q /\
         ob_avail q1 = sem_take_nowait (ob_avail q) /\ ob_space q1 = ob_space q /\
         q' = enqueue_insert e w tier delay attach None q1)))).
Proof.
  unfold outbound_enqueue_nowait.
  assert (Hfx : forall r fx, enqueue_checks e pkt attach = (r, fx) -> completed fx = []).
  { unfold enqueue_checks. intros r fx0. destruct pkt as [w|]; [|by intros [= <- <-]].
    destruct (_ || _); [by intros [= <- <-]|]. destruct ATTACHMENT_HEAD; [by intros [= <- <-]|].
    destruct (_ && _); [by intros [= <- <-]|].
    destruct (if DUTY_CYCLE then _ else _); by intros [= <- <-]. }
  destruct (enqueue_checks e pkt attach) as [[err|] fx0] eqn:Ec.
  { intros [= <- <- <-]. split; [by eapply Hfx|]. left. split; [congruence | done]. }
  destruct pkt as [w|]; [|intros [= <- <- <-]; split; [by eapply Hfx|]; left; split; [congruence|done]].
  destruct (ob_count q <? _) eqn:Hd; bools.
  { intros [= <- <- <-]. split; [by eapply Hfx|]. right. exists w. naive_solver. }
  destruct (bool_decide (tx_order _ = _) && bool_decide _) eqn:Hpol; bools.
  2:{ intros [= <- <- <-]. split; [by eapply Hfx|]. left. split; [congruence | done]. }
  destruct (evict_victim_locked _) as [[i victim]|] eqn:Hv.
  2:{ intros [= <- <- <-]. split; [by eapply Hfx|]. left. split; [congruence | done]. }
  destruct (it_tier victim <? tier) eqn:Ht; bools; intros [= <- <- <-]; (split; [by eapply Hfx|]).
  - right. exists w. do 3 (split; [done|]). right.
    exists i, victim, (set_ob_avail (sem_take_nowait (ob_avail q))
      (set_ob_items (remove_index_locked i (ob_items q))
         (set_ob_stats (meshtastic_sched_stat_drop (it_tier victim) (ob_stats q)) q))).
    by repeat split.
  - left. split; [congruence | done].
Qed.

(** The callers in the system after a step: those before, plus the admitted one,
    minus the completed one. *)
Lemma step_conservation q ws fx q' :
  ob_step q ws fx q' -> waiters q' ++ completed fx ≡ₚ ws ++ waiters q.
Proof.
  intros [e pkt tier delay attach q1 ret fx1 He|e0 e w tier delay attach waiter fx1 q1 Hck Hb| |
          |c now Hc|e a it ret fx1 q1 fx2 Hc Ht Hf|src id|src id now delay]; unfold waiters.
  - apply enqueue_nowait_cases in He as [Hfx Hcase]. rewrite Hfx, app_nil_r. simpl.
    destruct Hcase as [(_ & Hi & Hcur & _)|(w & -> & _ & _ & [[_ ->]|Hev])].
    + unfold frames. by rewrite Hi, Hcur.
    + destruct (frames_insert e w tier delay attach None q) as (it & Hp & _ & Hd & _).
      rewrite Hp. simpl. by rewrite Hd.
    + destruct Hev as (i & victim & q2 & Hv & _ & _ & _ & Hi & Hcur & _ & _ & ->).
      apply evict_victim_spec in Hv as (Hl & Hdn & _).
      destruct (frames_insert e w tier delay attach None q2) as (it & Hp & _ & Hd & _).
      rewrite Hp. simpl. rewrite Hd, (frames_remove i victim q Hl). simpl. rewrite Hdn.
      unfold frames. by rewrite Hi, Hcur.
  - unfold outbound_enqueue_blocking in Hb. branches; simplify_eq.
    destruct (frames_insert e w tier delay attach (Some waiter) q) as (it & Hp & _ & Hd & _).
    rewrite Hp. simpl. rewrite Hd. simpl.
    assert (Hfx : completed fx1 = []).
    { unfold enqueue_checks in Hck. repeat case_match; simplify_eq; done. }
    by rewrite Hfx, app_nil_r.
  - by rewrite app_nil_r.
  - by rewrite app_nil_r.
  - rewrite app_nil_r, pick_frames by done. done.
  - assert (Hfx1 : completed fx1 = []).
    { unfold worker_transmit in Ht. repeat case_match; simplify_eq; done. }
    unfold completed. rewrite omap_app. fold (completed fx1) (completed fx2). rewrite Hfx1. simpl.
    destruct (finish_cases e ret q q1 fx2 it Hc Hf) as [(it' & Hfr & Hcm & Hd & _)|(Hfr & Hcm & _)];
      rewrite Hfr, Hcm; unfold frames; rewrite Hc; rewrite ?omap_app; simpl;
      rewrite ?Hd, ?app_nil_r; by destruct (it_done it).
  - rewrite frames_cancel, app_nil_r, omap_app, waiters_filter. unfold frames. by rewrite omap_app.
  - rewrite app_nil_r. unfold frames; simpl. by rewrite !omap_app, waiters_defer.
Qed.

(** ** The invariant of reachable queues *)

Lemma soft_depth_range c : 1 <= soft_depth c <= OB_MAX.
Proof. pose proof OB_MAX_range. unfold soft_depth. rewrite u8_small; lia. Qed.

Lemma sem_give_range n : 0 <= n <= OB_MAX -> 0 <= sem_give n <= OB_MAX.
Proof. unfold sem_give. intros. branches; lia. Qed.

Lemma sem_take_range n : 0 <= n <= OB_MAX -> 0 <= sem_take_nowait n <= OB_MAX.
Proof. unfold sem_take_nowait. intros. branches; lia. Qed.

Lemma sem_give_iter_range k n : 0 <= n <= OB_MAX -> 0 <= Nat.iter k sem_give n <= OB_MAX.
Proof. intros Hn. induction k as [|k IH]; simpl; [done | by apply sem_give_range]. Qed.

Lemma enqueue_checks_ok e w attach fx :
  enqueue_checks e (Some w) attach = (None, fx) ->
  1 <= Z.of_nat (length w) <= MESHTASTIC_PKT_MAX /\ (attach <> 0 -> ATTACHMENT_BRAIN = true).
Proof.
  unfold enqueue_checks. destruct (_ || _) eqn:E1; [done|]. destruct ATTACHMENT_HEAD; [done|].
  destruct (negb (attach =? 0) && _) eqn:E2; [done|]. intros _. bools. split; [lia|].
  intros Ha. destruct (attach =? 0) eqn:E; bools; [done|]. by destruct ATTACHMENT_BRAIN.
Qed.

Lemma insert_inv e0 e w tier delay attach d fx q :
  ob_inv q -> ob_count q < OB_MAX -> enqueue_checks e0 (Some w) attach = (None, fx) ->
  ob_inv (enqueue_insert e w tier delay attach d q).
Proof.
  intros [Hl Hi Ha Hs] Hc [Hlen Hat]%enqueue_checks_ok. pose proof TX_DEFER_MAX_range.
  destruct (frames_insert e w tier delay attach d q) as (it & Hp & Hw & _ & Hd & Hatt).
  split; [| | by apply sem_give_range | done].
  - unfold ob_count in *; simpl. rewrite length_app. simpl. lia.
  - rewrite Hp. constructor; [|done]. unfold item_ok, it_len. rewrite Hw, Hd, Hatt. split; [done|].
    split; [lia | done].
Qed.

Lemma remove_inv i it q q1 :
  ob_inv q -> ob_items q !! i = Some it -> ob_items q1 = remove_index_locked i (ob_items q) ->
  ob_cur q1 = ob_cur q -> ob_avail q1 = sem_take_nowait (ob_avail q) -> ob_space q1 = ob_space q ->
  ob_inv q1 /\ ob_count q1 < OB_MAX.
Proof.
  intros [Hl Hi Ha Hs] Hit Eit Ecur Ea Es. pose proof (remove_index_length i _ it Hit) as Hlen.
  unfold ob_count in *. rewrite (frames_remove i it q Hit) in Hi. apply Forall_cons in Hi as [_ Hi].
  split; [split|]; rewrite ?Ea, ?Es; [ |  | by apply sem_take_range | done | ].
  - unfold ob_count. rewrite Eit. lia.
  - unfold frames. by rewrite Eit, Ecur.
  - rewrite Eit. lia.
Qed.

Lemma finish_inv e ret q q1 fx it :
  ob_inv q -> ob_cur q = Some it -> worker_finish e ret q = (q1, fx) -> ob_inv q1.
Proof.
  intros [Hl Hi Ha Hs] Hc Hf. unfold frames in Hi. rewrite Hc in Hi.
  apply Forall_app in Hi as [Hall Hi]. simpl in Hi.
  apply Forall_cons in Hi as [(Hlen & Hdef & Hatt) _]. pose proof TX_DEFER_MAX_range.
  destruct (finish_cases e ret q q1 fx it Hc Hf)
    as [(it' & Hfr & _ & _ & Hw & Hat & Hd & Hlt & Hcnt & _ & Eit & Ea & Es)|(Hfr & _ & Eit & Ea & Es)].
  - split; rewrite ?Ea, ?Es; [ | | by apply sem_give_range | by apply sem_take_range].
    + unfold ob_count in *. rewrite Eit, length_app. simpl. lia.
    + rewrite Hfr. apply Forall_app. split; [done|]. constructor; [|constructor].
      unfold item_ok, it_len. rewrite Hw, Hd, Hat, u8_small by lia. split; [done|]. split; [lia | done].
  - split; rewrite ?Ea, ?Es; [unfold ob_count in *; by rewrite Eit | by rewrite Hfr | done | done].
Qed.

Lemma cancel_inv src id q : ob_inv q -> ob_inv (meshtastic_outbound_cancel src id q).1.
Proof.
  intros [Hl Hi Ha Hs]. split.
  - unfold meshtastic_outbound_cancel. rewrite cancel_loop_filter by done.
    unfold ob_count in *; simpl. rewrite take_ge, drop_ge, app_nil_r by done.
    pose proof (List.filter_length_le (fun it => negb (frame_matches src id it)) (ob_items q)). lia.
  - rewrite frames_cancel. unfold frames in Hi. apply Forall_app in Hi as [Hi1 Hi2].
    apply Forall_app. split; [|done]. rewrite Forall_forall in *. intros x Hx. apply Hi1.
    rewrite !list_elem_of_In in *. by apply filter_In in Hx as [? _].
  - unfold meshtastic_outbound_cancel. by destruct (cancel_loop _ _ _ _ _).
  - unfold meshtastic_outbound_cancel. destruct (cancel_loop _ _ _ _ _). simpl.
    by apply sem_give_iter_range.
Qed.

Lemma defer_inv src id now delay q :
  ob_inv q -> ob_inv (meshtastic_outbound_defer_late src id now delay q).1.
Proof.
  intros [Hl Hi Ha Hs].
  split; simpl; [unfold ob_count in *; simpl; by rewrite length_fmap | | done | done].
  unfold frames in *; simpl. apply Forall_app in Hi as [Hi1 Hi2]. apply Forall_app.
  split; [|done]. apply Forall_fmap. eapply Forall_impl; [exact Hi1|].
  intros x Hx. unfold compose, defer_one. destruct (_ && _); exact Hx.
Qed.

Lemma pick_inv c now q : ob_inv q -> ob_cur q = None -> ob_inv (worker_pick c now q).1.
Proof.
  intros [Hl Hi Ha Hs] Hc. pose proof (pick_frames c now q Hc) as Hp.
  rewrite <- Hp in Hi. unfold worker_pick in *.
  destruct (pick_next_locked _ _ _) as [[[i it]|] w] eqn:E; [|done].
  apply pick_next_lookup in E as [Hit _]. pose proof (remove_index_length i _ it Hit).
  split; simpl in *; [unfold ob_count in *; simpl; lia | done | done | by apply sem_give_range].
Qed.

Lemma enqueue_inv e pkt tier delay attach q q1 ret fx :
  ob_inv q -> outbound_enqueue_nowait e pkt tier delay attach q = (q1, ret, fx) -> ob_inv q1.
Proof.
  intros Hinv He. pose proof Hinv as [Hl Hi Ha Hs].
  apply enqueue_nowait_cases in He as [_ [(_ & Hi' & Hcur & Ha' & Hs')|(w & -> & _ & Hck & Hcase)]].
  - split; unfold ob_count, frames in *; rewrite ?Hi', ?Hcur, ?Ha', ?Hs'; done.
  - pose proof (soft_depth_range (ee_cfg e)).
    destruct Hcase as [[Hroom ->]|(i & v & q2 & Hv & _ & _ & _ & Ei & Ecur & Ea & Es & ->)].
    + eapply insert_inv; [done | lia | done].
    + apply evict_victim_spec in Hv as [Hvl _].
      destruct (remove_inv i v q q2 Hinv Hvl Ei Ecur Ea Es). by eapply insert_inv.
Qed.

Lemma step_inv q ws fx q' : ob_inv q -> ob_step q ws fx q' -> ob_inv q'.
Proof.
  intros Hinv [e pkt tier delay attach q1 ret fx1 He|e0 e w tier delay attach waiter fx1 q1 Hck Hb| |
          |c now Hc|e a it ret fx1 q1 fx2 Hc Ht Hf|src id|src id now delay].
  - by eapply enqueue_inv.
  - unfold outbound_enqueue_blocking in Hb. pose proof (soft_depth_range (ee_cfg e)).
    branches; simplify_eq. eapply insert_inv; [done | lia | done].
  - destruct Hinv. split; simpl; [done | done | done | lia].
  - destruct Hinv. split; simpl; [done | done | lia | done].
  - by apply pick_inv.
  - by eapply finish_inv.
  - by apply cancel_inv.
  - by apply defer_inv.
Qed.

Lemma init_inv : ob_inv ob_init.
Proof.
  pose proof OB_MAX_range. split; simpl; [unfold ob_count; simpl; lia | constructor | lia | lia].
Qed.

Lemma run_inv ws fx q : ob_run ob_init ws fx q -> ob_inv q.
Proof.
  intros Hr. remember ob_init as q0 eqn:E. induction Hr as [|? ? ? ? ? ? ? IH]; subst.
  - apply init_inv.
  - eapply step_inv; [by apply IH | done].
Qed.

Lemma run_conservation q0 ws fx q : ob_run q0 ws fx q -> waiters q ++ completed fx ≡ₚ ws ++ waiters q0.
Proof.
  induction 1 as [|ws fx q1 ws' fx' q2 Hr IH Hst]; [by rewrite app_nil_r|].
  apply step_conservation in Hst. unfold completed in *. rewrite omap_app.
  rewrite (Permutation_app_comm (omap _ fx)), app_assoc, Hst, <- app_assoc, IH, !app_assoc.
  by rewrite (Permutation_app_comm ws').
Qed.

(** ** Timing of a deferred frame *)

Lemma deadline_exact it now delay elapsed :
  0 <= now <= UINT32_MAX -> 0 < delay < 2 ^ 31 -> 0 <= elapsed < 2 ^ 31 ->
  it_send_after it = due_time now delay ->
  ob_eligible it (u32 (now + elapsed)) =
  if u32 (now + delay) =? 0 then delay + 1 <=? elapsed else delay <=? elapsed.
Proof.
  intros Hn Hd He Hs. unfold ob_eligible, due_time in *. rewrite Hs.
  assert (Hm : forall k, (u32 (now + elapsed) - k) `mod` 2 ^ 32 = (now + elapsed - k) `mod` 2 ^ 32).
  { intros k. unfold wrap. by rewrite Zminus_mod_idemp_l. }
  destruct (u32 (now + delay) =? 0) eqn:E; bools.
  - simpl. assert (Hdue : (now + delay) `mod` 2 ^ 32 = 0) by exact E.
    rewrite (to_i32_of_diff _ (elapsed - delay - 1)); [lia| |lia].
    rewrite Hm. replace (now + elapsed - 1) with (elapsed - delay - 1 + (now + delay)) by lia.
    rewrite Zplus_mod, Hdue, Z.add_0_r, Zmod_mod. done.
  - destruct (_ =? 0) eqn:E0; bools; [done|]. simpl.
    rewrite (to_i32_of_diff _ (elapsed - delay)); [lia| |lia].
    rewrite Hm. unfold wrap. rewrite Zminus_mod_idemp_r. f_equal. lia.
Qed.

(** ** Properties *)

(** However the worker, fire-and-forget callers, blocking callers and the relay
    cancel/defer interleave, the queue never holds more than its array, every
    frame in it or on the air fits the wire buffer and has been put back at most
    the configured number of times, and both semaphores stay in range. *)
Theorem outbound_invariant ws fx q : ob_run ob_init ws fx q -> ob_inv q.
Proof. apply run_inv. Qed.

(** C4: A blocking caller's frame is never evicted, cancelled or forgotten: over any
    run, the callers still waiting together with the completed ones are exactly
    the admitted ones; if no caller was admitted twice, each is completed at most
    once and not while its frame is still held. *)
Theorem outbound_blocking_exactly_once ws fx q :
  ob_run ob_init ws fx q ->
  waiters q ++ completed fx ≡ₚ ws /\
  (NoDup ws -> NoDup (completed fx) /\ forall w, w ∈ completed fx -> w ∉ waiters q).
Proof.
  intros Hr%run_conservation. simpl in Hr. rewrite app_nil_r in Hr.
  split; [done|]. rewrite <- Hr. intros (Hn & Hd & Hn2)%NoDup_app. split; [done|].
  intros w Hw Hin. by apply (Hd w).
Qed.

(** The drain interlock. In every reachable state [meshtastic_outbound_pending]
    is the exact number of frames the node still owes the air, so it is 0 only
    when no frame is queued and none is being keyed. *)
Theorem outbound_pending_exact ws fx q :
  ob_run ob_init ws fx q ->
  meshtastic_outbound_pending q = Z.of_nat (length (frames q)) /\
  (meshtastic_outbound_pending q = 0 <-> ob_items q = [] /\ ob_cur q = None).
Proof.
  intros [Hl _ _ _]%run_inv. pose proof OB_MAX_range. unfold ob_count in Hl.
  assert (E : meshtastic_outbound_pending q = Z.of_nat (length (frames q))).
  { unfold meshtastic_outbound_pending, ob_count, ob_inflight, frames.
    rewrite u8_small, length_app; destruct (ob_cur q); simpl; lia. }
  split; [done|]. rewrite E. unfold frames. rewrite length_app.
  destruct (ob_items q), (ob_cur q); simpl; split; intros; try lia; try done; naive_solver.
Qed.

Lemma pick_none order now l :
  (pick_loop order now 0 None None l).1 = None -> forall it, it ∈ l -> ob_eligible it now = false.
Proof.
  destruct order; intros Hn it Hit.
  - rewrite pick_loop_fifo in Hn. destruct (find_index _ l) as [k|] eqn:Ef.
    + destruct (find_index_Some_1 _ _ _ Ef) as (x & Hx & _). by rewrite Hx in Hn.
    + rewrite find_index_None in Ef. apply list_elem_of_lookup in Hit as [k Hk]. by eapply Ef.
  - rewrite pick_loop_priority in Hn.
    exact (proj1 (scan_best_None _ _ _) Hn it Hit).
Qed.

(** The worker sends the right frame: under PRIORITY an eligible frame of the
    highest tier, the oldest of that tier; under FIFO the oldest eligible frame;
    and no frame only when none is eligible. *)
Theorem pick_next_correct order now l :
  match pick_next_locked order now l with
  | (Some (i, it), _) =>
      l !! i = Some it /\ ob_eligible it now = true /\
      forall j y, l !! j = Some y -> ob_eligible y now = true ->
        match order with
        | ORDER_FIFO => (i <= j)%nat
        | ORDER_PRIORITY => it_tier y <= it_tier it /\ (it_tier y = it_tier it -> (i <= j)%nat)
        end
  | (None, _) => forall it, it ∈ l -> ob_eligible it now = false
  end.
Proof.
  destruct (pick_next_locked order now l) as [[[i it]|] w] eqn:E.
  - destruct (pick_next_lookup _ _ _ _ _ _ E) as [Hi Hel]. split; [done|]. split; [done|].
    apply pick_next_Some in E. intros j y Hj Hy. destruct order.
    + rewrite pick_loop_fifo in E. destruct (find_index _ l) as [k|] eqn:Ef; [|done].
      apply find_index_Some in Ef as (x & Hx & _ & Hlt). rewrite Hx in E. simplify_eq/=.
      destruct (decide (j < i)%nat) as [Hji|]; [|lia]. rewrite (Hlt j y Hji Hj) in Hy. done.
    + rewrite pick_loop_priority in E.
      apply (scan_best_first _ _ (fun x => - it_tier x)) in E as (_ & _ & Hall).
      * destruct (Hall j y Hj Hy) as [? Ht]. split; [lia|]. intros ?. apply Ht. lia.
      * intros a b. destruct (it_tier b <? it_tier a) eqn:?; bools; lia.
  - apply (pick_none order now l). unfold pick_next_locked in E.
    by destruct (pick_loop _ _ _ _ _ _) as [[?|] [?|]].
Qed.

(** The worker never oversleeps. It sleeps without a timeout only on an empty
    queue; otherwise no queued frame is eligible and the sleep ends no later than
    the earliest deadline (1 ms at least). *)
Theorem worker_sleep_bounded c now q :
  match (worker_pick c now q).2 with
  | Picked it => ob_cur (worker_pick c now q).1 = Some it
  | SleepForever => ob_items q = []
  | SleepMs ms =>
      1 <= ms /\ ob_items q <> [] /\
      forall it, it ∈ ob_items q ->
        ob_eligible it now = false /\ ms <= Z.max 1 (u32 (it_send_after it - now))
  end.
Proof.
  unfold worker_pick, pick_next_locked.
  pose proof (pick_loop_soonest (tx_order c) now 0 None None (ob_items q)) as Hs.
  pose proof (pick_none (tx_order c) now (ob_items q)) as Hnone.
  destruct (pick_loop _ _ _ _ _ _) as [[[i it]|] so]; simpl in *; [done|].
  specialize (Hs eq_refl). specialize (Hnone eq_refl). unfold ob_count.
  destruct (ob_items q) as [|it l] eqn:Eq; simpl in *; [by destruct so|].
  pose proof (Hnone it ltac:(set_solver)) as Hit.
  destruct so as [s|]; simpl in Hs; [|destruct Hs as [_ Hall]; rewrite Hall in Hit; set_solver].
  destruct Hs as (_ & _ & Hall). split; [lia|]. split; [done|].
  intros y Hy. specialize (Hnone y Hy). split; [done|]. specialize (Hall y Hy Hnone). lia.
Qed.

(** The overflow policy never costs a protected frame. A fire-and-forget call
    either leaves the held frames as they are (refused), adds its frame, or, only
    under PRIORITY with drop-lowest on a full queue, replaces one: a
    fire-and-forget frame of strictly lower tier, the lowest tier present and the
    newest of that tier. *)
Theorem enqueue_overflow_policy e pkt tier delay attach q q' ret fx :
  outbound_enqueue_nowait e pkt tier delay attach q = (q', ret, fx) ->
  (ret <> OK /\ frames q' = frames q) \/
  (ret = OK /\ exists it rest, pkt = Some (it_wire it) /\ it_done it = None /\ it_attach it = attach /\
     frames q' ≡ₚ it :: rest /\
     (frames q ≡ₚ rest \/
      exists i victim, frames q ≡ₚ victim :: rest /\ ob_items q !! i = Some victim /\
        it_done victim = None /\ it_tier victim < tier /\
        tx_order (ee_cfg e) = ORDER_PRIORITY /\ tx_overflow (ee_cfg e) = OVF_DROP_LOWEST /\
        forall j y, ob_items q !! j = Some y -> it_done y = None ->
          it_tier victim <= it_tier y /\ (it_tier victim = it_tier y -> (j <= i)%nat))).
Proof.
  intros He. apply enqueue_nowait_cases in He as [_ [(Hr & Hi & Hc & _)|(w & -> & -> & _ & Hcase)]].
  { left. unfold frames. by rewrite Hi, Hc. }
  right. split; [done|].
  destruct Hcase as [[_ ->]|(i & v & q2 & Hv & Ht & Ho & Hov & Ei & Ec & _ & _ & ->)].
  - destruct (frames_insert e w tier delay attach None q) as (it & Hp & <- & ? & _ & ?).
    exists it, (frames q). repeat split; [done..|]. by left.
  - destruct (frames_insert e w tier delay attach None q2) as (it & Hp & <- & ? & _ & ?).
    apply evict_victim_spec in Hv as (Hl & Hd & Hall).
    exists it, (frames q2). repeat split; [done..|]. right. exists i, v.
    split; [|done]. unfold frames at 2. rewrite Ei, Ec. by apply frames_remove.
Qed.

(** Overhear-cancel removes exactly the queued fire-and-forget frames of that
    source and id, keeps all others in their order, and reports how many. *)
Theorem cancel_exact src id q :
  let '(q', n) := meshtastic_outbound_cancel src id q in
  ob_items q' = List.filter (fun it => negb (frame_matches src id it)) (ob_items q) /\
  n = length (List.filter (frame_matches src id) (ob_items q)) /\ ob_cur q' = ob_cur q.
Proof.
  unfold meshtastic_outbound_cancel. rewrite cancel_loop_filter by done.
  rewrite take_ge, drop_ge, app_nil_r by done. done.
Qed.

(** The late window is entered once. After a defer the matching frames are late,
    a second defer (at any time, by any delay) finds none of them and leaves every
    deadline where it was, and all other frames are untouched. *)
Theorem defer_late_once src id now delay now' delay' q :
  let '(q1, n1) := meshtastic_outbound_defer_late src id now delay q in
  meshtastic_outbound_defer_late src id now' delay' q1 = (q1, 0%nat) /\
  (forall i it, ob_items q !! i = Some it ->
     ob_items q1 !! i = Some (if frame_matches src id it && negb (it_late it)
       then set_it_late true (set_it_send_after (due_time now delay) it) else it)).
Proof.
  unfold meshtastic_outbound_defer_late. simpl.
  assert (Hm : forall it, frame_matches src id (defer_one src id now delay it) &&
                 negb (it_late (defer_one src id now delay it)) = false).
  { intros it. unfold defer_one.
    destruct (frame_matches src id it && negb (it_late it)) eqn:E; [|done].
    simpl. by rewrite andb_false_r. }
  split.
  - f_equal.
    + unfold set_ob_items; simpl. f_equal. rewrite <- list_fmap_compose. apply list_fmap_ext.
      intros i it _. simpl. unfold defer_one at 1. by rewrite Hm.
    + induction (ob_items q) as [|it l IH]; [done|]. rewrite fmap_cons. cbn [List.filter].
      by rewrite Hm.
  - intros i it Hi. rewrite list_lookup_fmap, Hi. done.
Qed.

(** A refusal by the radio is bounded. When the radio answers DEFER the frame is
    either back in the queue, counted once more and not eligible before a fresh
    contention delay, or it is dropped with EBUSY at the cap or ENOBUFS on a full
    queue, and then a blocked caller is told; a frame at the cap is never put
    back. *)
Theorem deferred_frame_requeued_or_reported e q q' fx it :
  ob_cur q = Some it -> worker_finish e (ERR EINPROGRESS) q = (q', fx) ->
  (it_defers it < TX_DEFER_MAX /\ fx = [TxDeferRequeued] /\
   ob_items q' = ob_items q ++
     [set_it_send_after (due_time (re_now e) (requeue_delay e))
        (set_it_defers (u8 (it_defers it + 1)) it)] /\ 1 <= requeue_delay e) \/
  (ob_items q' = ob_items q /\ ob_cur q' = None /\
   exists err, (err = EBUSY /\ TX_DEFER_MAX <= it_defers it \/
                err = ENOBUFS /\ OB_MAX <= ob_count q) /\
               (forall w, it_done it = Some w -> Complete w (ERR err) ∈ fx)).
Proof.
  intros Hc. unfold worker_finish. rewrite Hc. simpl.
  unfold requeue_deferred_locked. change (ob_count (set_ob_cur None q)) with (ob_count q).
  destruct (TX_DEFER_MAX <=? it_defers it) eqn:E1; bools; [|destruct (OB_MAX <=? _) eqn:E2; bools].
  - intros [= <- <-]. right. split; [done|]. split; [done|]. exists EBUSY. split; [by left; split; [|lia]|].
    intros w ->. set_solver.
  - intros [= <- <-]. right. split; [done|]. split; [done|]. exists ENOBUFS.
    split; [by right; split; [|lia]|]. intros w ->. set_solver.
  - intros [= <- <-]. left. split; [lia|]. split; [done|]. split; [done|]. unfold requeue_delay. lia.
Qed.

(** The contention deadline is honoured across the 32-bit uptime wrap: a frame
    deferred by [delay] becomes eligible [delay] ms later, at no time before, and
    one millisecond late only when its deadline would have been the sentinel 0. *)
Theorem deferred_frame_deadline it now delay elapsed :
  0 <= now <= UINT32_MAX -> 0 < delay < 2 ^ 31 -> 0 <= elapsed < 2 ^ 31 ->
  it_send_after it = due_time now delay ->
  (ob_eligible it (u32 (now + elapsed)) = true -> delay <= elapsed) /\
  (delay < elapsed -> ob_eligible it (u32 (now + elapsed)) = true) /\
  (u32 (now + delay) <> 0 -> ob_eligible it (u32 (now + elapsed)) = (delay <=? elapsed)).
Proof.
  intros. rewrite (deadline_exact it now delay elapsed) by done.
  destruct (u32 (now + delay) =? 0) eqn:E; bools; repeat split; intros; bools; try lia; done.
Qed.

End Outbound.

(** ** Witnesses *)

#[local] Existing Instance default_ob_kconfig.

(** A header from node 7 with id 5, and the calls' surroundings at uptime 100. *)
Definition witness_frame : list Z := header_bytes (WireHeader 9 7 5 3 8 0 7).
Definition witness_env : enqueue_env := EnqueueEnv preset_default (fun _ => false) None 9 1 100.
Definition witness_radio : radio_env := RadioEnv preset_default (Draw (Some 3) 0) 0 11 250000 100.

(** A blocking send (caller 4), the worker takes it, the radio sends it. *)
Definition witness_q1 : ob :=
  enqueue_insert witness_env witness_frame MT_SCHED_TIER_NORMAL 0 0 (Some 4%nat) ob_init.
Definition witness_q2 : ob := (worker_pick preset_default 100 witness_q1).1.
Definition witness_q3 : ob := (worker_finish witness_radio OK witness_q2).1.

Lemma witness_run : ob_run ob_init [4%nat] [Complete 4 OK] witness_q3.
Proof.
  apply (run_step _ [4%nat] [] witness_q2 [] [Complete 4 OK]).
  - apply (run_step _ [4%nat] [] witness_q1 [] []); [|by apply step_worker_pick].
    apply (run_step _ [] [] ob_init [4%nat] []); [apply run_refl|].
    apply (step_block_insert _ witness_env witness_env witness_frame MT_SCHED_TIER_NORMAL 0 0);
      reflexivity.
  - apply (step_worker_finish _ witness_radio (TxAnswers OK (ERR ENOTSUP) OK 1)
             (ObItem witness_frame MT_SCHED_TIER_NORMAL 0 false 1 0 0 (Some 4%nat)) OK [] _
             [Complete 4 OK]); reflexivity.
Qed.

Lemma outbound_invariant_witness : ob_count witness_q3 = 0 /\ ob_inv witness_q3.
Proof. split; [reflexivity | exact (outbound_invariant _ _ _ witness_run)]. Defined.

Lemma outbound_blocking_exactly_once_witness :
  waiters witness_q3 ++ completed [Complete 4 OK] ≡ₚ [4%nat].
Proof. exact (proj1 (outbound_blocking_exactly_once _ _ _ witness_run)). Defined.

Lemma outbound_pending_exact_witness :
  meshtastic_outbound_pending witness_q3 = 0.
Proof. exact (proj1 (outbound_pending_exact _ _ _ witness_run)). Defined.

(** Priority order, drop-lowest and a depth of one: a higher tier takes the place
    of a fire-and-forget frame. *)
Definition witness_evict_env : enqueue_env :=
  EnqueueEnv (set_tx_overflow OVF_DROP_LOWEST (set_tx_depth 1 (set_tx_order ORDER_PRIORITY preset_default)))
    (fun _ => false) None 9 1 100.
Definition witness_low : ob :=
  (outbound_enqueue_nowait witness_evict_env (Some witness_frame) MT_SCHED_TIER_BG 0 0 ob_init).1.1.
Definition witness_high :=
  outbound_enqueue_nowait witness_evict_env (Some witness_frame) MT_SCHED_TIER_ACK 0 0 witness_low.

Lemma enqueue_overflow_policy_witness :
  witness_high.1.2 = OK /\ ob_count witness_high.1.1 = 1 /\
  ((witness_high.1.2 <> OK /\ frames witness_high.1.1 = frames witness_low) \/
   exists it rest, it_done it = None /\ frames witness_high.1.1 ≡ₚ it :: rest).
Proof.
  split; [reflexivity|]. split; [reflexivity|].
  destruct (enqueue_overflow_policy witness_evict_env (Some witness_frame) MT_SCHED_TIER_ACK 0 0
              witness_low witness_high.1.1 witness_high.1.2 witness_high.2)
    as [Hr|(_ & it & rest & _ & Hd & _ & Hf & _)]; [reflexivity | by left|].
  right. by exists it, rest.
Defined.

Lemma deferred_frame_requeued_or_reported_witness :
  exists it, ob_cur witness_q2 = Some it /\
    (it_defers it < TX_DEFER_MAX \/ ob_cur (worker_finish witness_radio (ERR EINPROGRESS) witness_q2).1 = None).
Proof.
  exists (ObItem witness_frame MT_SCHED_TIER_NORMAL 0 false 1 0 0 (Some 4%nat)). split; [reflexivity|].
  destruct (deferred_frame_requeued_or_reported witness_radio witness_q2
      (worker_finish witness_radio (ERR EINPROGRESS) witness_q2).1
      (worker_finish witness_radio (ERR EINPROGRESS) witness_q2).2
      (ObItem witness_frame MT_SCHED_TIER_NORMAL 0 false 1 0 0 (Some 4%nat)) eq_refl)
    as [[Hd _]|(_ & Hc & _)]; [reflexivity | by left | by right].
Defined.

(** A deadline beyond the wrap of the uptime counter. *)
Lemma deferred_frame_deadline_witness :
  ob_eligible (ObItem witness_frame 1 (due_time 4294967290 100) false 1 0 0 None)
    (u32 (4294967290 + 100)) = true.
Proof.
  destruct (deferred_frame_deadline (ObItem witness_frame 1 (due_time 4294967290 100) false 1 0 0 None)
              4294967290 100 100) as (_ & _ & Hx); [unfold UINT32_MAX; lia | lia | lia | reflexivity |].
  rewrite Hx; [reflexivity | vm_compute; congruence].
Defined.
