(* ===== verification/Reliable.v ===== *)
(** * Sender-side reliable delivery (src/src/meshtastic_reliable.c)

    A want_ack packet this node originates is kept in a table of [PEND_MAX] slots
    and retransmitted on a timer until it is acknowledged, refused, overheard or
    out of retries. The state is the table and the one-shot timer; every region
    under [pend_lock] is one function. Calls into other components (the outbound
    queue, the statistics, the node database, the phone) and the log lines are
    returned as effects, in the order the code makes them. *)
From S2P Require Import Prelude Sched Contention Packet Outbound.
Open Scope Z_scope.

Class RelKconfig := {
  rel_ob_kconfig :: ObKconfig;
  PEND_MAX : nat;            (* CONFIG_MESHTASTIC_RELIABLE_MAX_PENDING *)
  PEND_MAX_range : (1 <= PEND_MAX <= 32)%nat;
  PHONEAPI : bool;           (* CONFIG_MESHTASTIC_PHONEAPI *)
}.

Definition default_rel_kconfig : RelKconfig :=
  {| rel_ob_kconfig := default_ob_kconfig; PEND_MAX := 8; PEND_MAX_range := ltac:(lia);
     PHONEAPI := true |}.

Definition BROADCAST_RETRIES : Z := 2.

(** ** State *)

(** [pd_wire] is [wire] up to [wire_len]. *)
Record pending := Pending {
  pd_wire : list Z;
  pd_id : Z;
  pd_to : Z;
  pd_next_due : Z;
  pd_retries_left : Z;
  pd_tier : Z;
  pd_attach : Z;
  pd_channel : Z;
  pd_active : bool;
}.
Definition set_pd_wire (v : list Z) (r : pending) : pending :=
Pending v (pd_id r) (pd_to r) (pd_next_due r) (pd_retries_left r) (pd_tier r) (pd_attach r)
    (pd_channel r) (pd_active r).
Definition set_pd_id (v : Z) (r : pending) : pending :=
Pending (pd_wire r) v (pd_to r) (pd_next_due r) (pd_retries_left r) (pd_tier r) (pd_attach
    r) (pd_channel r) (pd_active r).
Definition set_pd_to (v : Z) (r : pending) : pending :=
Pending (pd_wire r) (pd_id r) v (pd_next_due r) (pd_retries_left r) (pd_tier r) (pd_attach
    r) (pd_channel r) (pd_active r).
Definition set_pd_next_due (v : Z) (r : pending) : pending :=
Pending (pd_wire r) (pd_id r) (pd_to r) v (pd_retries_left r) (pd_tier r) (pd_attach r)
    (pd_channel r) (pd_active r).
Definition set_pd_retries_left (v : Z) (r : pending) : pending :=
Pending (pd_wire r) (pd_id r) (pd_to r) (pd_next_due r) v (pd_tier r) (pd_attach r)
    (pd_channel r) (pd_active r).
Definition set_pd_tier (v : Z) (r : pending) : pending :=
Pending (pd_wire r) (pd_id r) (pd_to r) (pd_next_due r) (pd_retries_left r) v (pd_attach r)
    (pd_channel r) (pd_active r).
Definition set_pd_attach (v : Z) (r : pending) : pending :=
Pending (pd_wire r) (pd_id r) (pd_to r) (pd_next_due r) (pd_retries_left r) (pd_tier r) v
    (pd_channel r) (pd_active r).
Definition set_pd_channel (v : Z) (r : pending) : pending :=
Pending (pd_wire r) (pd_id r) (pd_to r) (pd_next_due r) (pd_retries_left r) (pd_tier r)
    (pd_attach r) v (pd_active r).
Definition set_pd_active (v : bool) (r : pending) : pending :=
Pending (pd_wire r) (pd_id r) (pd_to r) (pd_next_due r) (pd_retries_left r) (pd_tier r)
    (pd_attach r) (pd_channel r) v.

(** The timer holds the uptime at which [retx_work] runs; [None] is cancelled. *)
Record rel := Rel {
  pend : list pending;
  retx_timer : option Z;
}.
Definition set_pend (v : list pending) (r : rel) : rel :=
Rel v (retx_timer r).
Definition set_retx_timer (v : option Z) (r : rel) : rel :=
Rel (pend r) v.

Definition pending_zero : pending := Pending [] 0 0 0 0 0 0 0 false.
Definition rel_init `{RelKconfig} : rel := Rel (replicate PEND_MAX pending_zero) None.

(** The part of the Routing message the code reads: its oneof, and the error
    reason when that is the variant. [NONE] is 0, [MAX_RETRANSMIT] is 5. *)
Inductive routing_variant := ErrorReason (reason : Z) | OtherVariant.
#[export] Instance routing_variant_eq_dec : EqDecision routing_variant.
Proof. solve_decision. Defined.
Definition Routing_Error_NONE : Z := 0.
Definition Routing_Error_MAX_RETRANSMIT : Z := 5.

Inductive rel_effect : Type :=
  | LogTrack (id to retries : Z)
  | LogEvict (id : Z)
  | LogRetransmit (id left : Z)
  | SendWirePrio (wire : list Z) (tier : Z)              (* meshtastic_radio_send_wire_prio *)
  | SendWireAfterOn (wire : list Z) (tier delay attach : Z) (* meshtastic_radio_send_wire_after_on *)
  | AttachmentFanOut (wire : list Z) (tier channel : Z)
  | LogDelivered (id : Z)
  | LogNak (id reason : Z)
  | LogImplicitAck (id : Z)
  | LogExhausted (id to : Z)
  | StatReliableAck
  | StatReliableFail
  | NoteRouteSuccess (from : Z)
  | NoteRouteFailure (to : Z)
  | EventTxFailed (from to id : Z)
  | PhonePacket (p : packet).                            (* meshtastic_phoneapi_on_packet *)

(** What the functions read of the rest of the firmware. [nb_encode] and
    [nb_decode] are the generated codec of the Routing message. *)
Record rel_env := RelEnv {
  rv_node_id : Z;
  rv_cfg : sched_config;         (* meshtastic_sched_snapshot *)
  rv_now : Z;                    (* k_uptime_get *)
  rv_sf : Z; rv_bw : Z;          (* mt.modem *)
  rv_airtime : Z -> Z;           (* meshtastic_airtime_packet_ms *)
  rv_util : Z;                   (* meshtastic_airtime_channel_util_percent, integer part *)
  rv_modem : Z -> option (Z * Z); (* meshtastic_attachment_modem *)
  rv_primary : Z;                (* meshtastic_channels_primary_index *)
  nb_encode : routing_variant -> option (list Z);
  nb_decode : list Z -> option routing_variant;
}.

Section Reliable.
Context {KC : RelKconfig}.

(** ** Table helpers *)

Definition soonest_due (l : list pending) : Z :=
  foldl (fun s p => if pd_active p && (pd_next_due p <? s) then pd_next_due p else s) INT64_MAX l.

Definition reschedule_locked (now : Z) (r : rel) : rel :=
  let soonest := soonest_due (pend r) in
  if soonest =? INT64_MAX then set_retx_timer None r
  else set_retx_timer (Some (now + Z.max 0 (soonest - now))) r.

Definition tracks (id : Z) (p : pending) : bool := pd_active p && (pd_id p =? id).

Definition find_locked (id : Z) (r : rel) : option nat := find_index (tracks id) (pend r).

Definition deactivate (i : nat) (r : rel) : rel :=
  set_pend (alter (set_pd_active false) i (pend r)) r.

Definition resolve_locked (id : Z) (r : rel) : option rel :=
  match find_locked id r with
  | None => None
  | Some i => Some (deactivate i r)
  end.

Definition meshtastic_reliable_pending (r : rel) : Z :=
  foldl (fun n p => if pd_active p then u8 (n + 1) else n) 0 (pend r).

Definition meshtastic_reliable_reset (r : rel) : rel :=
  Rel (set_pd_active false <$> pend r) None.

(** ** Reports *)

Definition report_to_phone (e : rel_env) (id from channel reason : Z) : list rel_effect :=
  if PHONEAPI then
    match nb_encode e (ErrorReason reason) with
    | None => []
    | Some buf =>
        [PhonePacket (set_p_from from (set_p_to (rv_node_id e)
           (set_p_portnum MESHTASTIC_PORT_ROUTING (set_p_request_id id
             (set_p_payload (Some buf) (set_p_channel_index channel packet_zero))))))]
    end
  else [].

Definition notify_failure (e : rel_env) (id to : Z) : list rel_effect :=
  let broadcast := to =? MESHTASTIC_NODE_BROADCAST in
  [StatReliableFail; LogExhausted id to] ++
  (if broadcast then [] else [NoteRouteFailure to]) ++
  [EventTxFailed (rv_node_id e) to id] ++
  report_to_phone e id (if broadcast then rv_node_id e else to) (rv_primary e)
    Routing_Error_MAX_RETRANSMIT.

(** ** Operations *)

Definition retx_interval_ms (e : rel_env) (wire_len override_ms attach : Z) : Z :=
  if negb (override_ms =? 0) then override_ms
  else
    let airtime := if AIRTIME then rv_airtime e wire_len else 0 in
    let util := if AIRTIME then
                  if rv_util e <? 0 then 0 else if 100 <? rv_util e then 100 else u8 (rv_util e)
                else 0 in
    let '(sf, bw) :=
      if ATTACHMENT_BRAIN && negb (attach =? 0) && negb (attach =? MESHTASTIC_ATTACH_ALL)
      then default (rv_sf e, rv_bw e) (rv_modem e attach) else (rv_sf e, rv_bw e) in
    let slot := meshtastic_contention_effective_slot_ms (rv_cfg e) sf bw false in
    meshtastic_contention_retransmit_ms airtime slot util.

(** The scan of a full table for the soonest due slot. *)
Fixpoint evict_loop (i slot : nat) (soonest : Z) (l : list pending) : nat :=
  match l with
  | [] => slot
  | p :: l' =>
      if pd_next_due p <? soonest then evict_loop (S i) i (pd_next_due p) l'
      else evict_loop (S i) slot soonest l'
  end.

(** The slot a new send takes, and the eviction it needs. *)
Definition choose_slot (r : rel) : nat * list rel_effect :=
  match find_index (fun p => negb (pd_active p)) (pend r) with
  | Some i => (i, [])
  | None =>
      let i := evict_loop 0 0 INT64_MAX (pend r) in
      (i, match pend r !! i with Some p => [LogEvict (pd_id p)] | None => [] end)
  end.

(** The contents of the slot of a new send. *)
Definition new_entry (e : rel_env) (local : option packet) (w : list Z)
    (mesh : option mesh_packet) (attach : Z) : pending :=
  let p := default packet_zero local in
  let to := dual mesh p m_to p_to in
  let portnum := dual mesh p (fun m => d_portnum (m_decoded m)) p_portnum in
  Pending w (dual mesh p m_id p_id) to
    (rv_now e +
       retx_interval_ms e (Z.of_nat (length w)) (reliable_timeout_ms (rv_cfg e)) attach)
    (if to =? MESHTASTIC_NODE_BROADCAST
     then Z.min (reliable_retries (rv_cfg e)) BROADCAST_RETRIES
     else reliable_retries (rv_cfg e))
    (meshtastic_sched_tier_for portnum) attach
    (match local with Some l => p_channel_index l | None => rv_primary e end) true.

Definition meshtastic_reliable_on_tx (e : rel_env) (local : option packet)
    (wire : option (list Z)) (mesh : option mesh_packet) (attach : Z) (r : rel)
    : rel * list rel_effect :=
  match wire with
  | None => (r, [])
  | Some w =>
      let len := Z.of_nat (length w) in
      if (bool_decide (local = None) && bool_decide (mesh = None)) || (len =? 0) ||
         (MESHTASTIC_PKT_MAX <? len) then (r, [])
      else
        let p := default packet_zero local in
        let want_ack := dual mesh p m_want_ack p_want_ack in
        let from := dual mesh p m_from p_from in
        let to := dual mesh p m_to p_to in
        let portnum := dual mesh p (fun m => d_portnum (m_decoded m)) p_portnum in
        let id := dual mesh p m_id p_id in
        if negb want_ack || negb (from =? rv_node_id e) || (to =? rv_node_id e) ||
           (portnum =? MESHTASTIC_PORT_ROUTING) then (r, [])
        else if reliable_retries (rv_cfg e) =? 0 then (r, [])
        else
          match find_locked id r with
          | Some _ => (r, [])
          | None =>
              let '(slot, fx) := choose_slot r in
              let entry := new_entry e local w mesh attach in
              (reschedule_locked (rv_now e) (set_pend (<[slot := entry]> (pend r)) r),
               fx ++ [LogTrack id to (pd_retries_left entry)])
          end
  end.

Definition meshtastic_reliable_on_routing (e : rel_env) (routing : option packet)
    (mesh : option mesh_packet) (r : rel) : rel * list rel_effect :=
  if bool_decide (routing = None) && bool_decide (mesh = None) then (r, [])
  else
    let p := default packet_zero routing in
    let to := dual mesh p m_to p_to in
    let from := dual mesh p m_from p_from in
    let request_id := dual mesh p (fun m => d_request_id (m_decoded m)) p_request_id in
    let payload := dual mesh p (fun m => d_payload (m_decoded m)) payload_bytes in
    if negb (to =? rv_node_id e) || (request_id =? 0) then (r, [])
    else
      match nb_decode e payload with
      | None => (r, [])
      | Some v =>
          match resolve_locked request_id r with
          | None => (r, [])
          | Some r' =>
              (reschedule_locked (rv_now e) r',
               NoteRouteSuccess from ::
               match v with
               | ErrorReason reason =>
                   if negb (reason =? Routing_Error_NONE)
                   then [StatReliableFail; LogNak request_id reason]
                   else [StatReliableAck; LogDelivered request_id]
               | OtherVariant => [StatReliableAck; LogDelivered request_id]
               end)
          end
      end.

Definition meshtastic_reliable_on_implicit_ack (e : rel_env) (id : Z) (r : rel)
    : rel * list rel_effect :=
  match find_locked id r with
  | None => (r, [])
  | Some i =>
      let channel := match pend r !! i with Some p => pd_channel p | None => 0 end in
      (reschedule_locked (rv_now e) (deactivate i r),
       [StatReliableAck; LogImplicitAck id] ++
       report_to_phone e id (rv_node_id e) channel Routing_Error_NONE)
  end.

(** How a retransmission leaves: by every radio, by a head, or by our own. *)
Definition retx_send (p : pending) : list rel_effect :=
  if pd_attach p =? MESHTASTIC_ATTACH_ALL then
    SendWirePrio (pd_wire p) (pd_tier p) ::
    (if ATTACHMENT_BRAIN then [AttachmentFanOut (pd_wire p) (pd_tier p) (pd_channel p)] else [])
  else if negb (pd_attach p =? 0) then [SendWireAfterOn (pd_wire p) (pd_tier p) 0 (pd_attach p)]
  else [SendWirePrio (pd_wire p) (pd_tier p)].

(** One slot of the work item: the slot after, the sends, and the failure. *)
Definition retx_slot (e : rel_env) (p : pending) : pending * list rel_effect * list (Z * Z) :=
  if negb (pd_active p) || (rv_now e <? pd_next_due p) then (p, [], [])
  else if pd_retries_left p =? 0 then (set_pd_active false p, [], [(pd_id p, pd_to p)])
  else
    let p := set_pd_retries_left (u8 (pd_retries_left p - 1)) p in
    let p := set_pd_next_due
               (rv_now e + retx_interval_ms e (Z.of_nat (length (pd_wire p)))
                             (reliable_timeout_ms (rv_cfg e)) (pd_attach p)) p in
    (p, LogRetransmit (pd_id p) (pd_retries_left p) :: retx_send p, []).

Fixpoint retx_loop (e : rel_env) (l : list pending)
    : list pending * list rel_effect * list (Z * Z) :=
  match l with
  | [] => ([], [], [])
  | p :: l' =>
      let '(p', fx, failed) := retx_slot e p in
      let '(l'', fx', failed') := retx_loop e l' in
      (p' :: l'', fx ++ fx', failed ++ failed')
  end.

Definition retx_work_fn (e : rel_env) (r : rel) : rel * list rel_effect :=
  let '(l, fx, failed) := retx_loop e (pend r) in
  (reschedule_locked (rv_now e) (set_pend l r),
   fx ++ flat_map (fun f => notify_failure e f.1 f.2) failed).

(** ** The active sends *)

Definition active_id (p : pending) : option Z := if pd_active p then Some (pd_id p) else None.
Definition active_ids (l : list pending) : list Z := omap active_id l.

Lemma active_ids_elem l id :
  id ∈ active_ids l <-> exists p, p ∈ l /\ tracks id p = true.
Proof.
  unfold active_ids. rewrite list_elem_of_omap. unfold active_id, tracks.
  split; intros (p & Hp & E); exists p; (split; [done|]); destruct (pd_active p); simplify_eq/=.
  - apply Z.eqb_refl.
  - bools. congruence.
Qed.

Lemma find_locked_None id r : find_locked id r = None <-> id ∉ active_ids (pend r).
Proof.
  unfold find_locked. rewrite find_index_None, active_ids_elem. split.
  - intros Hall (p & [i Hi]%list_elem_of_lookup & Ht). rewrite (Hall _ _ Hi) in Ht. done.
  - intros Hn i p Hi. destruct (tracks id p) eqn:E; [|done]. exfalso. apply Hn.
    exists p. split; [by eapply list_elem_of_lookup_2 | done].
Qed.

Lemma find_locked_Some id r i :
  find_locked id r = Some i ->
  exists p, pend r !! i = Some p /\ pd_active p = true /\ pd_id p = id.
Proof.
  intros (p & Hp & Ht)%find_index_Some_1. exists p. unfold tracks in Ht. bools. done.
Qed.

Lemma deactivate_insert i p r :
  pend r !! i = Some p -> pend (deactivate i r) = <[i := set_pd_active false p]> (pend r).
Proof. intros Hi. simpl. by apply alter_insert_lookup. Qed.

Lemma deactivate_ids i p r :
  pend r !! i = Some p -> pd_active p = true ->
  active_ids (pend r) ≡ₚ pd_id p :: active_ids (pend (deactivate i r)).
Proof.
  intros Hi Ha. rewrite (deactivate_insert i p r Hi).
  pose proof (omap_insert_perm active_id (pend r) i p (set_pd_active false p) Hi) as Hp.
  unfold active_id in Hp at 2 4. rewrite Ha in Hp. simpl in Hp. rewrite app_nil_r in Hp.
  unfold active_ids. rewrite <- Hp. apply Permutation_app_comm.
Qed.

(** ** The timer *)

Lemma soonest_fold l : forall s,
  let m := foldl (fun s p => if pd_active p && (pd_next_due p <? s) then pd_next_due p else s) s l in
  m <= s /\ (forall p, p ∈ l -> pd_active p = true -> m <= pd_next_due p) /\
  (m = s \/ exists p, p ∈ l /\ pd_active p = true /\ m = pd_next_due p).
Proof.
  induction l as [|q l IH]; intros s; simpl; [split; [lia|]; split; [set_solver | by left]|].
  destruct (pd_active q && (pd_next_due q <? s)) eqn:E; bools.
  - destruct (IH (pd_next_due q)) as (H1 & H2 & H3). split; [lia|]. split.
    + intros p [->|Hp]%elem_of_cons Ha; [done | by apply H2].
    + destruct H3 as [H3|(p & ? & ? & ?)]; right; [exists q | exists p]; set_solver.
  - destruct (IH s) as (H1 & H2 & H3). split; [lia|]. split.
    + intros p [->|Hp]%elem_of_cons Ha; [|by apply H2]. rewrite Ha in E. simpl in E. bools. lia.
    + destruct H3 as [H3|(p & ? & ? & ?)]; [by left | right; exists p; set_solver].
Qed.

Definition slot_ok (p : pending) : Prop :=
  pd_active p = true ->
  1 <= Z.of_nat (length (pd_wire p)) <= MESHTASTIC_PKT_MAX /\
  0 <= pd_retries_left p <= UINT8_MAX /\ pd_next_due p < INT64_MAX.

(** The timer is armed exactly while something is tracked, and never later than
    a due time (or than [T], the last time the table was touched). *)
Definition timer_ok (T : Z) (r : rel) : Prop :=
  match retx_timer r with
  | None => active_ids (pend r) = []
  | Some t => active_ids (pend r) <> [] /\
      forall p, p ∈ pend r -> pd_active p = true -> t <= Z.max T (pd_next_due p)
  end.

Lemma reschedule_pend now r : pend (reschedule_locked now r) = pend r.
Proof. unfold reschedule_locked. by destruct (_ =? _). Qed.

Lemma reschedule_timer now r :
  Forall slot_ok (pend r) -> timer_ok now (reschedule_locked now r).
Proof.
  intros Hok. unfold timer_ok. rewrite reschedule_pend. unfold reschedule_locked, soonest_due.
  destruct (soonest_fold (pend r) INT64_MAX) as (_ & Hall & Hex).
  destruct (_ =? INT64_MAX) eqn:E; simpl; bools.
  - apply elem_of_nil_inv. intros id (p & Hp & Ht)%active_ids_elem. unfold tracks in Ht. bools.
    specialize (Hall p Hp ltac:(done)). rewrite Forall_forall in Hok.
    destruct (Hok p Hp ltac:(done)) as (_ & _ & ?). lia.
  - destruct Hex as [|(p & Hp & Ha & Hm)]; [done|]. split.
    + intros Hn. assert (Hin : pd_id p ∈ active_ids (pend r)).
      { apply active_ids_elem. exists p. split; [done|]. unfold tracks. by rewrite Ha, Z.eqb_refl. }
      rewrite Hn in Hin. set_solver.
    + intros q Hq Hqa. specialize (Hall q Hq Hqa). lia.
Qed.

(** ** Runs *)

(** What the rest of the firmware guarantees of the values read: the uptime is a
    realistic 64-bit millisecond count and the policy fields have their width. *)
Record env_ok (e : rel_env) : Prop := {
  ok_now : 0 <= rv_now e < 2 ^ 62;
  ok_retries : in_u8 (reliable_retries (rv_cfg e));
  ok_timeout : in_u32 (reliable_timeout_ms (rv_cfg e));
}.

Inductive rel_op : Type :=
  | OpTx (local : option packet) (wire : option (list Z)) (mesh : option mesh_packet) (attach : Z)
  | OpRouting (routing : option packet) (mesh : option mesh_packet)
  | OpImplicitAck (id : Z)
  | OpTimer
  | OpReset.

Definition rel_apply (o : rel_op) (e : rel_env) (r : rel) : rel * list rel_effect :=
  match o with
  | OpTx local wire mesh attach => meshtastic_reliable_on_tx e local wire mesh attach r
  | OpRouting routing mesh => meshtastic_reliable_on_routing e routing mesh r
  | OpImplicitAck id => meshtastic_reliable_on_implicit_ack e id r
  | OpTimer => retx_work_fn e r
  | OpReset => (meshtastic_reliable_reset r, [])
  end.

(** The sends a reset forgets. *)
Definition dropped (o : rel_op) (r : rel) : list Z :=
  match o with OpReset => active_ids (pend r) | _ => [] end.

(** [rel_run T fx ds r]: from the empty table to [r] by operations at increasing
    times up to [T], with effects [fx]; resets dropped [ds]. *)
Inductive rel_run : Z -> list rel_effect -> list Z -> rel -> Prop :=
  | rel_run_init : rel_run 0 [] [] rel_init
  | rel_run_step T fx ds r o e r' fx' :
      rel_run T fx ds r -> T <= rv_now e -> env_ok e -> rel_apply o e r = (r', fx') ->
      rel_run (rv_now e) (fx ++ fx') (ds ++ dropped o r) r'.

Definition tracked_id (x : rel_effect) : option Z :=
  match x with LogTrack id _ _ => Some id | _ => None end.
Definition resolved_id (x : rel_effect) : option Z :=
  match x with
  | LogEvict id | LogDelivered id | LogNak id _ | LogImplicitAck id | LogExhausted id _ => Some id
  | _ => None
  end.

(** Retransmissions of [id], and retries granted to it. *)
Definition retransmits (id : Z) : list rel_effect -> Z :=
  sum_with (fun x => match x with LogRetransmit i _ => if i =? id then 1 else 0 | _ => 0 end).
Definition granted (id : Z) : list rel_effect -> Z :=
  sum_with (fun x => match x with LogTrack i _ n => if i =? id then n else 0 | _ => 0 end).
Definition left_of (id : Z) (p : pending) : Z := if tracks id p then pd_retries_left p else 0.
Definition left (id : Z) (l : list pending) : Z := sum_with (left_of id) l.

(** An effect that neither starts, ends nor repeats a send. *)
Definition quiet (x : rel_effect) : Prop :=
  tracked_id x = None /\ resolved_id x = None /\
  match x with LogRetransmit _ _ => False | _ => True end.

Lemma quiet_sums id fx : Forall quiet fx -> retransmits id fx = 0 /\ granted id fx = 0.
Proof.
  induction 1 as [|x fx (Ht & Hr & Hx) _ [IH1 IH2]]; [done|]. unfold retransmits, granted in *.
  simpl. rewrite IH1, IH2. by destruct x.
Qed.

Lemma quiet_omap fx : Forall quiet fx -> omap tracked_id fx = [] /\ omap resolved_id fx = [].
Proof.
  induction 1 as [|x fx (Ht & Hr & _) _ [IH1 IH2]]; [done|].
  rewrite !omap_cons_list, Ht, Hr, IH1, IH2. done.
Qed.

Lemma report_quiet e id from ch reason : Forall quiet (report_to_phone e id from ch reason).
Proof.
  unfold report_to_phone. destruct PHONEAPI; [|constructor].
  destruct (nb_encode _ _); repeat constructor.
Qed.

Lemma retx_send_quiet p : Forall quiet (retx_send p).
Proof. unfold retx_send. repeat case_match; repeat constructor. Qed.

(** ** The work item, slot by slot *)

Lemma retx_loop_eq e l :
  retx_loop e l = ((fun p => (retx_slot e p).1.1) <$> l,
                   flat_map (fun p => (retx_slot e p).1.2) l, flat_map (fun p => (retx_slot e p).2) l).
Proof.
  induction l as [|p l IH]; [done|]. simpl. rewrite IH. by destruct (retx_slot e p) as [[p' fx] fl].
Qed.

Lemma interval_range e len attach :
  env_ok e -> 0 <= retx_interval_ms e len (reliable_timeout_ms (rv_cfg e)) attach <= UINT32_MAX.
Proof.
  intros [_ _ Ht]. unfold retx_interval_ms. destruct (_ =? 0); simpl; [|done].
  destruct (if _ : bool then _ else _) as [sf bw]. unfold meshtastic_contention_retransmit_ms.
  apply u32_range.
Qed.

(** The three cases of a slot. *)
Lemma retx_slot_cases e p :
  (pd_active p = false \/ rv_now e < pd_next_due p) /\ retx_slot e p = (p, [], []) \/
  (pd_active p = true /\ pd_next_due p <= rv_now e /\ pd_retries_left p = 0 /\
   retx_slot e p = (set_pd_active false p, [], [(pd_id p, pd_to p)])) \/
  (pd_active p = true /\ pd_next_due p <= rv_now e /\ pd_retries_left p <> 0 /\
   exists due, due = rv_now e + retx_interval_ms e (Z.of_nat (length (pd_wire p)))
                                  (reliable_timeout_ms (rv_cfg e)) (pd_attach p) /\
   retx_slot e p =
     (set_pd_next_due due (set_pd_retries_left (u8 (pd_retries_left p - 1)) p),
      LogRetransmit (pd_id p) (u8 (pd_retries_left p - 1)) :: retx_send p, [])).
Proof.
  unfold retx_slot. destruct (negb (pd_active p) || _) eqn:E1.
  - left. split; [|done]. apply orb_true_iff in E1 as [E1|E1]; bools; auto.
  - bools. right. destruct (pd_retries_left p =? 0) eqn:E2; bools; [left; done|].
    right. split; [done|]. split; [done|]. split; [done|]. simpl. eauto.
Qed.

Lemma retx_slot_ok e p : env_ok e -> slot_ok p -> slot_ok (retx_slot e p).1.1.
Proof.
  intros He Hp. destruct (retx_slot_cases e p) as [[_ ->]|[(_ & _ & _ & ->)|(Ha & _ & Hn & due & -> & ->)]];
    [done | intros ?; done |].
  intros _. destruct (Hp Ha) as (Hlen & Hr & _). simpl. unfold UINT8_MAX in *. rewrite u8_small by lia.
  pose proof (interval_range e (Z.of_nat (length (pd_wire p))) (pd_attach p) He).
  destruct He as [Hnow _ _]. unfold UINT32_MAX, INT64_MAX in *. split; [done|]. split; lia.
Qed.

(** A slot either keeps its send or reports it as failed. *)
Lemma retx_slot_ids e p :
  option_list (active_id p) =
  option_list (active_id (retx_slot e p).1.1) ++ map fst (retx_slot e p).2.
Proof.
  destruct (retx_slot_cases e p) as [[_ ->]|[(Ha & _ & _ & ->)|(Ha & _ & _ & due & _ & ->)]]; simpl.
  - by rewrite app_nil_r.
  - unfold active_id. by rewrite Ha.
  - unfold active_id. simpl. by rewrite Ha.
Qed.

Lemma retx_ids e l :
  active_ids l ≡ₚ active_ids ((fun p => (retx_slot e p).1.1) <$> l) ++
                  map fst (flat_map (fun p => (retx_slot e p).2) l).
Proof.
  unfold active_ids. induction l as [|p l IH]; [done|]. rewrite fmap_cons, !omap_cons_list. simpl.
  rewrite map_app, (retx_slot_ids e p), IH, <- !app_assoc. apply Permutation_app_head.
  rewrite !app_assoc. apply Permutation_app_tail, Permutation_app_comm.
Qed.

Lemma retx_slot_fx e p id :
  slot_ok p ->
  omap tracked_id (retx_slot e p).1.2 = [] /\ omap resolved_id (retx_slot e p).1.2 = [] /\
  granted id (retx_slot e p).1.2 = 0 /\
  retransmits id (retx_slot e p).1.2 + left_of id (retx_slot e p).1.1 <= left_of id p.
Proof.
  intros Hok.
  destruct (retx_slot_cases e p) as [[_ ->]|[(Ha & _ & Hz & ->)|(Ha & _ & Hn & due & _ & ->)]]; cbn [fst snd].
  - split; [done|]. split; [done|]. split; [done|]. simpl. lia.
  - split; [done|]. split; [done|]. split; [done|]. unfold left_of, tracks. simpl. rewrite Hz.
    by destruct (_ && _).
  - destruct (quiet_omap _ (retx_send_quiet p)) as [Et Er].
    destruct (quiet_sums id _ (retx_send_quiet p)) as [Es Eg].
    rewrite !omap_cons_list, Et, Er. split; [done|]. split; [done|].
    unfold granted, retransmits in *. rewrite !sum_with_cons, Es, Eg. split; [done|].
    destruct (Hok Ha) as (_ & Hr & _). unfold UINT8_MAX, left_of, tracks in *. simpl.
    rewrite u8_small, Ha by lia. simpl. destruct (pd_id p =? id); lia.
Qed.

(** ** Admission *)

Lemma evict_loop_spec l : forall i slot s,
  (evict_loop i slot s l = slot /\ forall p, p ∈ l -> s <= pd_next_due p) \/
  exists k p, evict_loop i slot s l = (i + k)%nat /\ l !! k = Some p /\ pd_next_due p < s /\
    forall q, q ∈ l -> pd_next_due p <= pd_next_due q.
Proof.
  induction l as [|p l IH]; intros i slot s; simpl; [left; set_solver|].
  destruct (pd_next_due p <? s) eqn:E; bools.
  - right. destruct (IH (S i) i (pd_next_due p)) as [[-> Hall]|(k & q & -> & Hq & Hlt & Hall)].
    + exists 0%nat, p. split; [lia|]. split; [done|]. split; [done|].
      intros x [->|Hx]%elem_of_cons; [lia | by apply Hall].
    + exists (S k), q. split; [lia|]. split; [done|]. split; [lia|].
      intros x [->|Hx]%elem_of_cons; [lia | by apply Hall].
  - destruct (IH (S i) slot s) as [[-> Hall]|(k & q & -> & Hq & Hlt & Hall)].
    + left. split; [done|]. intros x [->|Hx]%elem_of_cons; [lia | by apply Hall].
    + right. exists (S k), q. split; [lia|]. split; [done|]. split; [done|].
      intros x [->|Hx]%elem_of_cons; [lia | by apply Hall].
Qed.

(** The slot taken is free, or the table is full and it is a soonest due one. *)
Lemma choose_slot_spec r i fx :
  length (pend r) = PEND_MAX -> choose_slot r = (i, fx) ->
  exists p, pend r !! i = Some p /\
    ((pd_active p = false /\ fx = []) \/
     (pd_active p = true /\ fx = [LogEvict (pd_id p)] /\
      (forall q, q ∈ pend r -> pd_active q = true) /\
      (Forall slot_ok (pend r) -> forall q, q ∈ pend r -> pd_next_due p <= pd_next_due q))).
Proof.
  intros Hlen. unfold choose_slot. destruct (find_index _ (pend r)) as [k|] eqn:E.
  - intros [= <- <-]. apply find_index_Some_1 in E as (p & Hp & Ha). exists p. bools. auto.
  - rewrite find_index_None in E.
    assert (Hact : forall q, q ∈ pend r -> pd_active q = true).
    { intros q [j Hj]%list_elem_of_lookup. specialize (E _ _ Hj). by bools. }
    intros [= <- <-]. pose proof PEND_MAX_range.
    assert (Hp : exists p, pend r !! evict_loop 0 0 INT64_MAX (pend r) = Some p /\
      (Forall slot_ok (pend r) -> forall q, q ∈ pend r -> pd_next_due p <= pd_next_due q)).
    { destruct (evict_loop_spec (pend r) 0 0 INT64_MAX) as [[-> Hall]|(j & p & -> & Hj & _ & Hall)]; [|eauto].
      destruct (lookup_lt_is_Some_2 (pend r) 0 ltac:(lia)) as [p Hp]. exists p. split; [done|].
      intros Hok q Hq. rewrite Forall_forall in Hok. destruct (Hok q Hq (Hact q Hq)) as (_ & _ & ?).
      specialize (Hall q Hq). lia. }
    destruct Hp as (p & Hp & Hmin). exists p. rewrite Hp. split; [done|]. right.
    split; [apply Hact; by eapply list_elem_of_lookup_2 | done].
Qed.

Lemma on_tx_cases e local wire mesh attach r r' fx :
  env_ok e -> length (pend r) = PEND_MAX ->
  meshtastic_reliable_on_tx e local wire mesh attach r = (r', fx) ->
  (r' = r /\ fx = []) \/
  exists w i p fx0,
    let entry := new_entry e local w mesh attach in
    wire = Some w /\ 1 <= Z.of_nat (length w) <= MESHTASTIC_PKT_MAX /\
    0 < reliable_retries (rv_cfg e) /\ pd_to entry <> rv_node_id e /\
    pd_id entry ∉ active_ids (pend r) /\ choose_slot r = (i, fx0) /\ pend r !! i = Some p /\
    fx0 = (if pd_active p then [LogEvict (pd_id p)] else []) /\
    r' = reschedule_locked (rv_now e) (set_pend (<[i := entry]> (pend r)) r) /\
    fx = fx0 ++ [LogTrack (pd_id entry) (pd_to entry) (pd_retries_left entry)].
Proof.
  intros He Hlen. unfold meshtastic_reliable_on_tx.
  destruct wire as [w|]; [|intros [= <- <-]; by left].
  destruct (_ || _ || _) eqn:E1; [intros [= <- <-]; by left|].
  destruct (_ || _ || _ || _) eqn:E2; [intros [= <- <-]; by left|].
  destruct (reliable_retries _ =? 0) eqn:E3; [intros [= <- <-]; by left|].
  destruct (find_locked _ r) eqn:E4; [intros [= <- <-]; by left|].
  destruct (choose_slot r) as [i fx0] eqn:E5. intros [= <- <-]. right.
  destruct (choose_slot_spec r i fx0 Hlen E5) as (p & Hp & Hcase).
  apply find_locked_None in E4. destruct He as [_ Hre _]. unfold in_u8 in Hre.
  apply orb_false_iff in E1 as [E1 ?]. apply orb_false_iff in E1 as [_ ?].
  apply orb_false_iff in E2 as [E2 _]. apply orb_false_iff in E2 as [_ E2]. bools.
  exists w, i, p, fx0. cbn [new_entry pd_to pd_id].
  split; [done|]. split; [lia|]. split; [lia|]. do 4 (split; [done|]).
  split; [destruct Hcase as [[-> ->]|(-> & -> & _)]; done | done].
Qed.

Lemma new_entry_ok e local w mesh attach :
  env_ok e -> 1 <= Z.of_nat (length w) <= MESHTASTIC_PKT_MAX ->
  slot_ok (new_entry e local w mesh attach).
Proof.
  intros He Hw _. pose proof (interval_range e (Z.of_nat (length w)) attach He).
  destruct He as [Hnow Hre _]. unfold new_entry, in_u8, UINT8_MAX, UINT32_MAX, INT64_MAX, BROADCAST_RETRIES in *.
  cbn [pd_wire pd_retries_left pd_next_due]. split; [done|]. split; [destruct (_ =? _)|]; lia.
Qed.

(** ** One operation: what is kept, what is counted *)

Record rel_inv (T : Z) (r : rel) : Prop := {
  inv_size : length (pend r) = PEND_MAX;
  inv_ids : NoDup (active_ids (pend r));
  inv_slots : Forall slot_ok (pend r);
  inv_timer : timer_ok T r;
}.

Record rel_facts (now : Z) (r : rel) (fx : list rel_effect) (ds : list Z) (r' : rel) : Prop := {
  f_size : length (pend r') = length (pend r);
  f_slots : Forall slot_ok (pend r');
  f_timer : timer_ok now r';
  f_fresh : NoDup (omap tracked_id fx ++ active_ids (pend r));
  f_ids : omap tracked_id fx ++ active_ids (pend r) ≡ₚ
          active_ids (pend r') ++ omap resolved_id fx ++ ds;
  f_budget : forall id, retransmits id fx + left id (pend r') <= left id (pend r) + granted id fx;
}.

Lemma timer_ok_mono T T' r : T <= T' -> timer_ok T r -> timer_ok T' r.
Proof.
  unfold timer_ok. intros HT. destruct (retx_timer r); [|done]. intros [? Hall]. split; [done|].
  intros p Hp Ha. specialize (Hall p Hp Ha). lia.
Qed.

Lemma facts_none T now r : T <= now -> rel_inv T r -> rel_facts now r [] [] r.
Proof.
  intros HT [Hl Hn Hs Ht]. split; [done | done | by eapply timer_ok_mono | done | |].
  - by rewrite !app_nil_r.
  - intros id. unfold retransmits, granted. simpl. lia.
Qed.

Lemma left_of_nonneg id l p : Forall slot_ok l -> p ∈ l -> 0 <= left_of id p.
Proof.
  intros Hs Hp. rewrite Forall_forall in Hs. specialize (Hs p Hp). unfold left_of, tracks, slot_ok in *.
  destruct (pd_active p); simpl; [|done].
  destruct (Hs eq_refl) as (_ & [? _] & _). destruct (_ =? _); lia.
Qed.

Lemma left_nonneg id l : Forall slot_ok l -> 0 <= left id l.
Proof. intros Hs. apply sum_with_nonneg. intros p. by apply left_of_nonneg. Qed.

(** Ending the send in slot [i], with an effect that says so. *)
Lemma facts_deactivate T now r i p fx :
  rel_inv T r -> pend r !! i = Some p -> pd_active p = true ->
  omap tracked_id fx = [] -> omap resolved_id fx = [pd_id p] ->
  (forall id, retransmits id fx = 0 /\ granted id fx = 0) ->
  rel_facts now r fx [] (reschedule_locked now (deactivate i r)).
Proof.
  intros [Hl Hn Hs Ht] Hi Ha Htr Hre Hsum.
  assert (Hs' : Forall slot_ok (pend (deactivate i r))).
  { rewrite (deactivate_insert i p r Hi). apply Forall_insert; [done|]. intros ?; done. }
  split; rewrite ?reschedule_pend; [| done | by apply reschedule_timer | by rewrite Htr | |].
  - rewrite (deactivate_insert i p r Hi). by rewrite length_insert.
  - rewrite Htr, Hre, app_nil_r. simpl. rewrite (deactivate_ids i p r Hi Ha).
    apply Permutation_cons_append.
  - intros id. destruct (Hsum id) as [-> ->].
    rewrite (deactivate_insert i p r Hi). unfold left. rewrite (sum_with_insert _ _ _ _ _ Hi).
    assert (0 <= left_of id p) by (eapply left_of_nonneg; [exact Hs | by eapply list_elem_of_lookup_2]).
    assert (left_of id (set_pd_active false p) = 0) by done. lia.
Qed.

Lemma facts_on_tx T e local wire mesh attach r r' fx :
  env_ok e -> T <= rv_now e -> rel_inv T r ->
  meshtastic_reliable_on_tx e local wire mesh attach r = (r', fx) ->
  rel_facts (rv_now e) r fx [] r'.
Proof.
  intros He HT Hinv Htx. pose proof Hinv as [Hl Hn Hs Ht].
  destruct (on_tx_cases _ _ _ _ _ _ _ _ He Hl Htx)
    as [[-> ->]|(w & i & p & fx0 & _ & Hw & _ & _ & Hnew & _ & Hi & Efx & -> & ->)];
    [by eapply facts_none|].
  pose proof (new_entry_ok e local w mesh attach He Hw) as Hok.
  set (entry := new_entry e local w mesh attach) in *.
  assert (Hact : pd_active entry = true) by done.
  assert (Hs' : Forall slot_ok (<[i := entry]> (pend r))) by by apply Forall_insert.
  assert (Et : omap tracked_id (fx0 ++ [LogTrack (pd_id entry) (pd_to entry) (pd_retries_left entry)])
               = [pd_id entry]) by (rewrite Efx; by destruct (pd_active p)).
  assert (Er : omap resolved_id (fx0 ++ [LogTrack (pd_id entry) (pd_to entry) (pd_retries_left entry)])
               = option_list (active_id p)) by (rewrite Efx; unfold active_id; by destruct (pd_active p)).
  split; rewrite ?reschedule_pend, ?Et, ?Er; cbn [set_pend pend].
  - by rewrite length_insert.
  - done.
  - by apply reschedule_timer.
  - by constructor.
  - rewrite app_nil_r. unfold active_ids. rewrite (omap_insert_perm active_id _ i p entry Hi).
    unfold active_id at 3. rewrite Hact. apply Permutation_app_comm.
  - intros id. unfold left. rewrite (sum_with_insert _ _ _ _ _ Hi).
    assert (0 <= left_of id p) by (eapply left_of_nonneg; [exact Hs | by eapply list_elem_of_lookup_2]).
    assert (Hsum : forall f : rel_effect -> Z, (forall x, f (LogEvict x) = 0) -> sum_with f fx0 = 0).
    { intros f Hf. rewrite Efx. destruct (pd_active p); [|done]. rewrite sum_with_cons, Hf. done. }
    unfold retransmits, granted. rewrite !sum_with_app, !Hsum, !sum_with_cons by done.
    clearbody entry. cbn [sum_with foldr].
    assert (left_of id entry = if pd_id entry =? id then pd_retries_left entry else 0)
      by (unfold left_of, tracks; by rewrite Hact).
    destruct (pd_id entry =? id); lia.
Qed.

Lemma notify_facts e id to :
  omap tracked_id (notify_failure e id to) = [] /\ omap resolved_id (notify_failure e id to) = [id] /\
  forall i, retransmits i (notify_failure e id to) = 0 /\ granted i (notify_failure e id to) = 0.
Proof.
  unfold notify_failure.
  set (tail := (if to =? _ then [] else _) ++ _).
  assert (Hq : Forall quiet tail).
  { apply Forall_app. split; [destruct (_ =? _); repeat constructor|].
    apply Forall_app. split; [repeat constructor | apply report_quiet]. }
  destruct (quiet_omap _ Hq) as [Q1 Q2]. rewrite !omap_app, Q1, Q2. split; [done|]. split; [done|].
  intros i. destruct (quiet_sums i _ Hq) as [Q3 Q4]. unfold retransmits, granted in *.
  rewrite !sum_with_app, Q3, Q4. done.
Qed.

Lemma notes_facts e (fails : list (Z * Z)) :
  let notes := flat_map (fun f => notify_failure e f.1 f.2) fails in
  omap tracked_id notes = [] /\ omap resolved_id notes = map fst fails /\
  forall i, retransmits i notes = 0 /\ granted i notes = 0.
Proof.
  induction fails as [|[id to] fs (IH1 & IH2 & IH3)]; [done|]. cbn [flat_map map fst snd].
  destruct (notify_facts e id to) as (E1 & E2 & E3). rewrite !omap_app, E1, E2, IH1, IH2.
  split; [done|]. split; [done|]. intros i. destruct (E3 i) as [F1 F2], (IH3 i) as [G1 G2].
  unfold retransmits, granted in *. rewrite !sum_with_app, F1, F2, G1, G2. done.
Qed.

Lemma retx_facts e l :
  Forall slot_ok l ->
  let fx := flat_map (fun p => (retx_slot e p).1.2) l in
  omap tracked_id fx = [] /\ omap resolved_id fx = [] /\
  forall id, granted id fx = 0 /\
    retransmits id fx + left id ((fun p => (retx_slot e p).1.1) <$> l) <= left id l.
Proof.
  induction 1 as [|p l Hp _ (IH1 & IH2 & IH3)]; [done|].
  rewrite fmap_cons. cbn [flat_map].
  destruct (retx_slot_fx e p 0 Hp) as (E1 & E2 & _). rewrite !omap_app, E1, E2, IH1, IH2.
  split; [done|]. split; [done|]. intros id. destruct (retx_slot_fx e p id Hp) as (_ & _ & Eg & Eb).
  destruct (IH3 id) as [Ig Ib]. unfold granted, retransmits, left in *.
  rewrite !sum_with_app, !sum_with_cons, Eg, Ig. split; [done|]. lia.
Qed.

Lemma facts_timer T e r r' fx :
  env_ok e -> rel_inv T r -> retx_work_fn e r = (r', fx) -> rel_facts (rv_now e) r fx [] r'.
Proof.
  intros He [Hl Hn Hs Ht]. unfold retx_work_fn. rewrite retx_loop_eq. intros [= <- <-].
  destruct (notes_facts e (flat_map (fun p => (retx_slot e p).2) (pend r))) as (Nt & Nr & Ng).
  destruct (retx_facts e (pend r) Hs) as (Ft & Fr & Fg).
  assert (Hs' : Forall slot_ok ((fun p => (retx_slot e p).1.1) <$> pend r)).
  { apply Forall_fmap. eapply Forall_impl; [exact Hs|]. intros p Hp. by apply retx_slot_ok. }
  split; rewrite ?reschedule_pend, ?omap_app, ?Ft, ?Fr, ?Nt, ?Nr; cbn [set_pend pend].
  - apply length_fmap.
  - done.
  - by apply reschedule_timer.
  - done.
  - rewrite !app_nil_r. simpl. apply retx_ids.
  - intros id. destruct (Fg id) as [Hg Hb], (Ng id) as [N1 N2]. unfold granted, retransmits in *.
    rewrite !sum_with_app, Hg, N1, N2. lia.
Qed.

Lemma facts_routing T e routing mesh r r' fx :
  T <= rv_now e -> rel_inv T r ->
  meshtastic_reliable_on_routing e routing mesh r = (r', fx) -> rel_facts (rv_now e) r fx [] r'.
Proof.
  intros HT Hinv. unfold meshtastic_reliable_on_routing, resolve_locked.
  destruct (_ && _); [intros [= <- <-]; by eapply facts_none|].
  destruct (_ || _); [intros [= <- <-]; by eapply facts_none|].
  destruct (nb_decode _ _) as [v|]; [|intros [= <- <-]; by eapply facts_none].
  destruct (find_locked _ r) as [i|] eqn:E; [|intros [= <- <-]; by eapply facts_none].
  apply find_locked_Some in E as (p & Hi & Ha & <-).
  destruct v as [reason|]; [destruct (_ =? _)|]; intros [= <- <-]; by eapply facts_deactivate.
Qed.

Lemma facts_implicit T e id r r' fx :
  T <= rv_now e -> rel_inv T r ->
  meshtastic_reliable_on_implicit_ack e id r = (r', fx) -> rel_facts (rv_now e) r fx [] r'.
Proof.
  intros HT Hinv. unfold meshtastic_reliable_on_implicit_ack.
  destruct (find_locked id r) as [i|] eqn:E; [|intros [= <- <-]; by eapply facts_none].
  apply find_locked_Some in E as (p & Hi & Ha & <-). rewrite Hi. intros [= <- <-].
  pose proof (report_quiet e (pd_id p) (rv_node_id e) (pd_channel p) Routing_Error_NONE) as Hq.
  destruct (quiet_omap _ Hq) as [Q1 Q2].
  eapply facts_deactivate; [done | done | done | | |].
  - rewrite !omap_cons_list, Q1. done.
  - rewrite !omap_cons_list, Q2. done.
  - intros i0. destruct (quiet_sums i0 _ Hq) as [Q3 Q4]. unfold retransmits, granted in *.
    rewrite !sum_with_cons, Q3, Q4. done.
Qed.

Lemma facts_reset T r : rel_inv T r ->
  forall now, rel_facts now r [] (active_ids (pend r)) (meshtastic_reliable_reset r).
Proof.
  intros [Hl Hn Hs Ht] now.
  assert (E : active_ids (set_pd_active false <$> pend r) = []).
  { clear. unfold active_ids. induction (pend r) as [|p l IH]; [done|]. by rewrite fmap_cons, omap_cons_list, IH. }
  assert (Hs' : Forall slot_ok (set_pd_active false <$> pend r)).
  { apply Forall_fmap, Forall_true. intros p ?; done. }
  split; simpl; [apply length_fmap | done | done | done | by rewrite E |].
  intros id. pose proof (left_nonneg id _ Hs). unfold retransmits, granted. simpl.
  replace (left id (set_pd_active false <$> pend r)) with 0; [lia|].
  clear. unfold left. induction (pend r) as [|p l IH]; [done|]. by rewrite fmap_cons, sum_with_cons, <- IH.
Qed.

Lemma apply_facts T o e r r' fx :
  env_ok e -> T <= rv_now e -> rel_inv T r -> rel_apply o e r = (r', fx) ->
  rel_facts (rv_now e) r fx (dropped o r) r'.
Proof.
  intros He HT Hinv. destruct o; simpl; intros Ho.
  - by eapply facts_on_tx.
  - by eapply facts_routing.
  - by eapply facts_implicit.
  - by eapply facts_timer.
  - simplify_eq. by eapply facts_reset.
Qed.

Lemma facts_inv T now r fx ds r' : rel_inv T r -> rel_facts now r fx ds r' -> rel_inv now r'.
Proof.
  intros [Hl _ _ _] [Hsz Hs Ht Hf Hp _]. split; [congruence | | done | done].
  rewrite Hp in Hf. by apply NoDup_app in Hf as [? _].
Qed.

Lemma init_rel_inv : rel_inv 0 rel_init.
Proof.
  assert (E : active_ids (replicate PEND_MAX pending_zero) = []).
  { unfold active_ids. induction PEND_MAX as [|n IH]; [done|].
    by rewrite replicate_S, omap_cons_list, IH. }
  split; simpl; [apply length_replicate | rewrite E; constructor | | done].
  apply Forall_replicate. intros ?; done.
Qed.

Lemma run_rel_inv T fx ds r : rel_run T fx ds r -> rel_inv T r.
Proof.
  induction 1 as [|T fx ds r o e r' fx' _ IH HT He Ho]; [apply init_rel_inv|].
  eapply facts_inv; [exact IH | by eapply apply_facts].
Qed.

(** ** Properties *)

(** The table invariant, over any sequence of sends, acknowledgements, timer
    runs and resets: no id is tracked twice, every tracked frame fits the wire
    buffer and its retry counter is in range, and the timer is armed exactly while
    something is tracked, never later than the earliest due time. *)
Theorem reliable_invariant T fx ds r : rel_run T fx ds r -> rel_inv T r.
Proof. apply run_rel_inv. Qed.

(** C28: Every tracked send ends exactly once. Over any run, the sends admitted to the
    table are, as a multiset, those still tracked, those that ended (delivered,
    refused, overheard, out of retries, or evicted) and those a reset dropped. *)
Theorem reliable_exactly_once T fx ds r :
  rel_run T fx ds r ->
  omap tracked_id fx ≡ₚ active_ids (pend r) ++ omap resolved_id fx ++ ds.
Proof.
  induction 1 as [|T fx ds r o e r' fx' Hr IH HT He Ho].
  { destruct init_rel_inv as [_ _ _ Ht]. simpl in Ht. simpl. by rewrite Ht. }
  pose proof (f_ids _ _ _ _ _ (apply_facts T o e r r' fx' He HT (run_rel_inv _ _ _ _ Hr) Ho)) as Hf.
  rewrite !omap_app, IH.
  rewrite (Permutation_app_comm (active_ids (pend r))), <- app_assoc.
  rewrite (Permutation_app_comm (active_ids (pend r))), Hf. solve_Permutation.
Qed.

(** The retry budget is kept. Over any run a packet id is retransmitted at most as
    often as the retries granted when it was tracked (summed over its admissions),
    and what is left in the table is part of that budget. *)
Theorem reliable_retry_budget T fx ds r id :
  rel_run T fx ds r -> retransmits id fx + left id (pend r) <= granted id fx.
Proof.
  induction 1 as [|T fx ds r o e r' fx' Hr IH HT He Ho].
  { unfold retransmits, granted, left, rel_init. simpl.
    assert (E : sum_with (left_of id) (replicate PEND_MAX pending_zero) = 0); [|lia].
    induction PEND_MAX as [|n IHn]; [done|].
    by rewrite replicate_S, sum_with_cons, IHn. }
  pose proof (f_budget _ _ _ _ _ (apply_facts T o e r r' fx' He HT (run_rel_inv _ _ _ _ Hr) Ho) id) as Hf.
  unfold retransmits, granted in *. rewrite !sum_with_app. lia.
Qed.

(** A sequence of timer runs with nothing in between. *)
Fixpoint passes (es : list rel_env) (r : rel) : rel * list rel_effect :=
  match es with
  | [] => (r, [])
  | e :: es' =>
      let '(r1, fx1) := retx_work_fn e r in
      let '(r2, fx2) := passes es' r1 in (r2, fx1 ++ fx2)
  end.

(** Each run finds the send of [p] due. *)
Fixpoint all_due (es : list rel_env) (p : pending) : Prop :=
  match es with
  | [] => True
  | e :: es' => pd_next_due p <= rv_now e /\ all_due es' (retx_slot e p).1.1
  end.

Lemma retx_work_slot e r i p :
  pend r !! i = Some p ->
  pend (retx_work_fn e r).1 !! i = Some (retx_slot e p).1.1 /\
  (forall x, x ∈ (retx_slot e p).1.2 -> x ∈ (retx_work_fn e r).2) /\
  (forall id to, (id, to) ∈ (retx_slot e p).2 -> LogExhausted id to ∈ (retx_work_fn e r).2).
Proof.
  intros Hi. unfold retx_work_fn. rewrite retx_loop_eq. cbn [fst snd].
  rewrite reschedule_pend. cbn [set_pend pend]. split; [by rewrite list_lookup_fmap, Hi|].
  apply list_elem_of_lookup_2 in Hi. rewrite list_elem_of_In in Hi.
  split; [intros x Hx | intros id to Hx]; rewrite elem_of_app, !list_elem_of_In, !in_flat_map in *.
  - left. by exists p.
  - right. exists (id, to). split; [apply in_flat_map; by exists p | simpl; auto].
Qed.

(** A send nobody answers is retried exactly through its budget and then reported.
    After one timer run per retry left and one more, each finding it due, every
    remaining retry was sent (the counter going down to 0), the failure was
    reported, and the slot is free. *)
Theorem silent_send_fails es i p r :
  pend r !! i = Some p -> pd_active p = true -> 0 <= pd_retries_left p <= UINT8_MAX ->
  length es = S (Z.to_nat (pd_retries_left p)) -> all_due es p ->
  let '(r', fx) := passes es r in
  (forall k, 0 <= k < pd_retries_left p -> LogRetransmit (pd_id p) k ∈ fx) /\
  LogExhausted (pd_id p) (pd_to p) ∈ fx /\
  (exists p', pend r' !! i = Some p' /\ pd_active p' = false).
Proof.
  revert p r. induction es as [|e es IH]; intros p r Hi Ha Hr Hlen Hdue; [done|].
  destruct Hdue as [Hnow Hdue]. simpl in Hlen. cbn [passes].
  destruct (retx_work_slot e r i p Hi) as (Hi' & Hfx & Hfail).
  destruct (retx_work_fn e r) as [r1 fx1]. cbn [fst snd] in *.
  destruct (retx_slot_cases e p) as [[[?|?] _]|[(_ & _ & Hz & Es)|(_ & _ & Hnz & due & _ & Es)]];
    [congruence | lia | |]; rewrite Es in *; cbn [fst snd] in *.
  - assert (es = []) as -> by (apply nil_length_inv; lia). simpl. rewrite app_nil_r.
    split; [intros k Hk; lia|]. split; [apply Hfail; set_solver | eauto].
  - unfold UINT8_MAX in *. rewrite u8_small in * by lia.
    set (p' := set_pd_next_due _ _) in *.
    assert (E : pd_retries_left p' = pd_retries_left p - 1) by done.
    specialize (IH p' r1 Hi' Ha ltac:(lia) ltac:(lia) Hdue).
    destruct (passes es r1) as [r2 fx2]. destruct IH as (Hk & Hex & Hp').
    change (pd_id p') with (pd_id p) in *. change (pd_to p') with (pd_to p) in *.
    split; [|split; [set_solver | done]].
    intros k Hkr. destruct (decide (k = pd_retries_left p - 1)) as [->|].
    + apply elem_of_app. left. apply Hfx. set_solver.
    + apply elem_of_app. right. apply Hk. lia.
Qed.

(** A Routing answer resolves exactly the send it names. Addressed to us, naming
    an id and readable, it ends the send with that id and no other, credits the
    route, and counts an ACK or a NAK by its error reason; for an id that is not
    tracked nothing happens at all. *)
Theorem routing_answer_resolves T e m v r r' fx :
  rel_inv T r -> let id := d_request_id (m_decoded m) in
  m_to m = rv_node_id e -> id <> 0 -> nb_decode e (d_payload (m_decoded m)) = Some v ->
  meshtastic_reliable_on_routing e None (Some m) r = (r', fx) ->
  (id ∉ active_ids (pend r) /\ r' = r /\ fx = []) \/
  (active_ids (pend r) ≡ₚ id :: active_ids (pend r') /\ id ∉ active_ids (pend r') /\
   fx = NoteRouteSuccess (m_from m) ::
        (if bool_decide (v = OtherVariant \/ v = ErrorReason Routing_Error_NONE)
         then [StatReliableAck; LogDelivered id]
         else [StatReliableFail; LogNak id (match v with ErrorReason n => n | OtherVariant => 0 end)])).
Proof.
  intros Hinv id Hto Hid Hdec. unfold meshtastic_reliable_on_routing, resolve_locked, dual.
  fold id. rewrite Hto, Z.eqb_refl, Hdec. simpl. destruct (id =? 0) eqn:E; bools; [done|].
  destruct (find_locked id r) as [i|] eqn:Ef.
  - intros [= <- <-]. right. apply find_locked_Some in Ef as (p & Hi & Ha & Ep).
    pose proof (deactivate_ids i p r Hi Ha) as Hids. rewrite Ep in Hids. rewrite reschedule_pend.
    split; [done|]. destruct Hinv as [_ Hn _ _]. rewrite Hids in Hn. apply NoDup_cons in Hn as [Hn _].
    split; [done|]. destruct v as [n|]; simpl; [|done].
    destruct (n =? _) eqn:En; bools; simpl.
    + subst n. rewrite bool_decide_eq_true_2 by auto. done.
    + rewrite bool_decide_eq_false_2; [done|]. intros [?|[= ->]]; done.
  - intros [= <- <-]. left. by apply find_locked_None in Ef.
Qed.

(** A full table gives up the tracked send that is due soonest, and only then:
    a send is tracked in a free slot whenever there is one. *)
Theorem full_table_evicts_soonest_due T e local wire mesh attach r r' fx victim :
  rel_inv T r -> env_ok e ->
  meshtastic_reliable_on_tx e local wire mesh attach r = (r', fx) -> LogEvict victim ∈ fx ->
  (forall q, q ∈ pend r -> pd_active q = true) /\
  exists p, p ∈ pend r /\ pd_id p = victim /\ forall q, q ∈ pend r -> pd_next_due p <= pd_next_due q.
Proof.
  intros [Hl _ Hs _] He Htx Hev.
  destruct (on_tx_cases _ _ _ _ _ _ _ _ He Hl Htx)
    as [[_ ->]|(w & i & p & fx0 & _ & _ & _ & _ & _ & Hch & _ & _ & _ & ->)]; [set_solver|].
  destruct (choose_slot_spec r i fx0 Hl Hch) as (q & Hq & [[_ ->]|(_ & -> & Hall & Hmin)]); [set_solver|].
  split; [done|]. exists q. split; [by eapply list_elem_of_lookup_2|].
  split; [set_solver | by apply Hmin].
Qed.

End Reliable.

(** ** Witnesses *)

Lemma run_next {KC : RelKconfig} T fx ds r o e :
  rel_run T fx ds r -> T <= rv_now e -> env_ok e ->
  rel_run (rv_now e) (fx ++ (rel_apply o e r).2) (ds ++ dropped o r) (rel_apply o e r).1.
Proof. intros. eapply rel_run_step; [done | done | done | apply surjective_pairing]. Qed.

#[local] Existing Instance default_rel_kconfig.

(** Node 9 on LongFast at a given uptime; the Routing error reason is field 3 of
    the message, a varint. *)
Definition witness_rel_env (now : Z) : rel_env :=
  RelEnv 9 preset_default now 11 250000 (fun len => 5 * len) 10 (fun _ => None) 0
    (fun v => match v with ErrorReason n => Some [24; n] | OtherVariant => None end)
    (fun l => match l with [24; n] => Some (ErrorReason n) | _ => None end).

Lemma witness_env_ok now : 0 <= now < 2 ^ 62 -> env_ok (witness_rel_env now).
Proof. intros Hn. split; [done | |]; vm_compute; split; congruence. Qed.

(** A want_ack text to node 7 with the given id, and its frame. *)
Definition witness_local (id : Z) : packet :=
  set_p_want_ack true (set_p_id id (set_p_portnum 1 (set_p_from 9 (set_p_to 7 packet_zero)))).
Definition witness_tx (id : Z) : rel_op :=
  OpTx (Some (witness_local id)) (Some (header_bytes (WireHeader 7 9 id 11 8 0 9))) None 0.

(** The answer of node 7 to packet 5. *)
Definition witness_answer (reason : Z) : mesh_packet :=
  MeshPacket 7 9 0 77 0 0 3 3 false false 0 7 false TRANSPORT_LORA VARIANT_DECODED
    (set_d_payload [24; reason] (set_d_request_id 5 data_zero)).

Definition witness_r1 : rel := (rel_apply (witness_tx 5) (witness_rel_env 1000) rel_init).1.
Definition witness_r2 : rel := (rel_apply OpTimer (witness_rel_env 20000) witness_r1).1.
Definition witness_r3 : rel :=
  (rel_apply (OpRouting None (Some (witness_answer 0))) (witness_rel_env 21000) witness_r2).1.
Definition witness_fx1 : list rel_effect :=
  (rel_apply (witness_tx 5) (witness_rel_env 1000) rel_init).2.
Definition witness_fx2 : list rel_effect :=
  witness_fx1 ++ (rel_apply OpTimer (witness_rel_env 20000) witness_r1).2.
Definition witness_fx : list rel_effect :=
  witness_fx2 ++
  (rel_apply (OpRouting None (Some (witness_answer 0))) (witness_rel_env 21000) witness_r2).2.

Lemma witness_rel_run2 : rel_run 20000 witness_fx2 [] witness_r2.
Proof.
  pose proof (run_next 0 [] [] rel_init (witness_tx 5) (witness_rel_env 1000) rel_run_init) as R1.
  rewrite app_nil_l in R1. cbn [dropped witness_tx] in R1.
  pose proof (run_next 1000 witness_fx1 [] witness_r1 OpTimer (witness_rel_env 20000)) as R2.
  apply R2; [apply R1; [|apply witness_env_ok] | | apply witness_env_ok]; cbn [rv_now witness_rel_env]; lia.
Qed.

Lemma witness_rel_run : rel_run 21000 witness_fx [] witness_r3.
Proof.
  unfold witness_fx, witness_r3.
  apply (run_next 20000 witness_fx2 [] witness_r2 (OpRouting None (Some (witness_answer 0)))
           (witness_rel_env 21000)); 
    [apply witness_rel_run2 | cbn [rv_now witness_rel_env]; lia | apply witness_env_ok; lia].
Qed.

Lemma reliable_invariant_witness :
  retx_timer witness_r2 <> None /\ retx_timer witness_r3 = None /\ rel_inv 21000 witness_r3.
Proof.
  split; [vm_compute; congruence|]. split; [reflexivity|].
  exact (reliable_invariant _ _ _ _ witness_rel_run).
Defined.

Lemma reliable_exactly_once_witness :
  omap tracked_id witness_fx = [5] /\
  omap tracked_id witness_fx ≡ₚ active_ids (pend witness_r3) ++ omap resolved_id witness_fx ++ [].
Proof. split; [reflexivity | exact (reliable_exactly_once _ _ _ _ witness_rel_run)]. Defined.

Lemma reliable_retry_budget_witness :
  retransmits 5 witness_fx = 1 /\
  retransmits 5 witness_fx + left 5 (pend witness_r3) <= granted 5 witness_fx.
Proof. split; [reflexivity | exact (reliable_retry_budget _ _ _ _ 5 witness_rel_run)]. Defined.

Lemma silent_send_fails_witness :
  LogExhausted 5 7 ∈ (passes (witness_rel_env <$> [20000; 40000; 60000; 80000]) witness_r1).2.
Proof.
  pose proof (silent_send_fails (witness_rel_env <$> [20000; 40000; 60000; 80000]) 0
    (new_entry (witness_rel_env 1000) (Some (witness_local 5))
       (header_bytes (WireHeader 7 9 5 11 8 0 9)) None 0) witness_r1) as Hs.
  destruct (passes _ _) as [r' fx]. destruct Hs as (_ & Hx & _).
  - vm_compute. reflexivity.
  - vm_compute. reflexivity.
  - vm_compute. split; congruence.
  - vm_compute. reflexivity.
  - vm_compute. repeat split; congruence.
  - exact Hx.
Defined.

Lemma routing_answer_resolves_witness :
  active_ids (pend witness_r2) = [5] /\
  (5 ∉ active_ids (pend witness_r2) \/ active_ids (pend witness_r2) ≡ₚ 5 :: active_ids (pend witness_r3)).
Proof.
  split; [reflexivity|].
  pose proof (run_rel_inv _ _ _ _ witness_rel_run2) as Hinv.
  destruct (routing_answer_resolves 20000 (witness_rel_env 21000) (witness_answer 0) (ErrorReason 0)
    witness_r2 witness_r3
    (rel_apply (OpRouting None (Some (witness_answer 0))) (witness_rel_env 21000) witness_r2).2 Hinv)
    as [(Hn & _)|(Hp & _)].
  - reflexivity.
  - vm_compute. congruence.
  - reflexivity.
  - unfold witness_r3. apply surjective_pairing.
  - left. exact Hn.
  - right. exact Hp.
Defined.

(** Nine sends in a row: the ninth finds all eight slots taken. *)
Definition witness_full : rel :=
  foldl (fun r id => (rel_apply (witness_tx id) (witness_rel_env (1000 + 10 * id)) r).1)
    rel_init [1; 2; 3; 4; 5; 6; 7; 8].

Lemma full_table_evicts_soonest_due_witness :
  exists p, p ∈ pend witness_full /\ pd_id p = 1 /\
    forall q, q ∈ pend witness_full -> pd_next_due p <= pd_next_due q.
Proof.
  assert (Hinv : exists T, rel_inv T witness_full).
  { assert (Hstep : forall T r id, rel_inv T r -> T <= 1000 + 10 * id -> 0 <= id <= 9 ->
      rel_inv (1000 + 10 * id) (rel_apply (witness_tx id) (witness_rel_env (1000 + 10 * id)) r).1).
    { intros T r id Hi HT Hid. eapply facts_inv; [exact Hi|].
      apply (apply_facts T (witness_tx id) (witness_rel_env (1000 + 10 * id)) r);
        [apply witness_env_ok; lia | done | done | apply surjective_pairing]. }
    eexists. unfold witness_full. cbn [foldl].
    do 8 (eapply Hstep; [|shelve | lia]). apply init_rel_inv. Unshelve. all: lia. }
  destruct Hinv as [T Hinv].
  destruct (full_table_evicts_soonest_due T (witness_rel_env 1090) (Some (witness_local 9))
    (Some (header_bytes (WireHeader 7 9 9 11 8 0 9))) None 0 witness_full
    (meshtastic_reliable_on_tx (witness_rel_env 1090) (Some (witness_local 9))
      (Some (header_bytes (WireHeader 7 9 9 11 8 0 9))) None 0 witness_full).1
    (meshtastic_reliable_on_tx (witness_rel_env 1090) (Some (witness_local 9))
      (Some (header_bytes (WireHeader 7 9 9 11 8 0 9))) None 0 witness_full).2 1 Hinv) as [_ Hp].
  - apply witness_env_ok. lia.
  - apply surjective_pairing.
  - vm_compute. constructor.
  - exact Hp.
Defined.
