(* ===== verification/Routes.v ===== *)
(** * Learned routes in the node database (src/src/meshtastic_nodedb.c)

    The part of the node database that next-hop routing reads and writes: the
    next-hop byte of a node's entry, the resolution of a one-byte relayer id, and
    the route-health table, whose records make a learned route decay to flood when
    it is stale or keeps failing. Routing and reliable delivery use it through the
    class [RouteStore]; the table implements it here. *)
From S2P Require Import Prelude Sched.
Open Scope Z_scope.

Definition ROUTE_HEALTH_SIZE : nat := 16.
Definition ROUTE_HEALTH_MAX_FAIL : Z := 3.

(** ** What routing may assume of the store

    [rs_next_hop] is the next-hop byte stored for a destination (0: flood),
    [rs_resolve] the one known node with a given low byte (0: none or several),
    and [rs_set] stores a route, telling whether the destination is known. *)
Class RouteStore (S : Type) := {
  rs_next_hop : S -> Z -> Z;
  rs_resolve : S -> Z -> Z;
  rs_set : Z -> Z -> S -> S * cret;
}.

Class RouteStoreLaws (S : Type) `{RouteStore S} := {
  rs_set_same s dest b s' : rs_set dest b s = (s', OK) -> rs_next_hop s' dest = b;
  rs_set_other s dest b s' ret d :
    rs_set dest b s = (s', ret) -> d <> dest -> rs_next_hop s' d = rs_next_hop s d;
  rs_set_refused s dest b s' e : rs_set dest b s = (s', ERR e) -> s' = s;
  rs_resolve_byte s b n : rs_resolve s b = n -> n <> 0 -> u8 n = b;
}.

(** ** State: the entries and the health records *)
Record node := Node {
  n_used : bool;
  n_num : Z;
  n_next_hop : Z;
}.
Definition set_n_used (v : bool) (r : node) : node :=
Node v (n_num r) (n_next_hop r).
Definition set_n_num (v : Z) (r : node) : node :=
Node (n_used r) v (n_next_hop r).
Definition set_n_next_hop (v : Z) (r : node) : node :=
Node (n_used r) (n_num r) v.
Record route_health := RouteHealth {
  rh_dest : Z;
  rh_learned_at : Z;
  rh_fail_count : Z;
}.
Definition set_rh_dest (v : Z) (r : route_health) : route_health :=
RouteHealth v (rh_learned_at r) (rh_fail_count r).
Definition set_rh_learned_at (v : Z) (r : route_health) : route_health :=
RouteHealth (rh_dest r) v (rh_fail_count r).
Definition set_rh_fail_count (v : Z) (r : route_health) : route_health :=
RouteHealth (rh_dest r) (rh_learned_at r) v.
Record routes := Routes {
  nodes : list node;
  health : list route_health;
}.
Definition set_nodes (v : list node) (r : routes) : routes :=
Routes v (health r).
Definition set_health (v : list route_health) (r : routes) : routes :=
Routes (nodes r) v.

Definition health_zero : route_health := RouteHealth 0 0 0.

Definition find_entry_locked (num : Z) (r : routes) : option nat :=
  find_index (fun e => n_used e && (n_num e =? num)) (nodes r).

Definition route_health_find_locked (dest : Z) (l : list route_health) : option nat :=
  find_index (fun h => rh_dest h =? dest) l.

(** The slot a new record takes: the first empty one, else the oldest. *)
Fixpoint health_scan (i best : nat) (best_at : Z) (l : list route_health) : nat :=
  match l with
  | [] => best
  | h :: l' =>
      if rh_dest h =? 0 then i
      else if rh_learned_at h <? best_at then health_scan (S i) i (rh_learned_at h) l'
      else health_scan (S i) best best_at l'
  end.

Definition health_victim (l : list route_health) : nat :=
  health_scan 0 0 (match l with h :: _ => rh_learned_at h | [] => 0 end) l.

Definition route_health_upsert_locked (dest now : Z) (l : list route_health) : list route_health :=
  let i := match route_health_find_locked dest l with
           | Some i => i
           | None => health_victim l
           end in
  <[i := RouteHealth dest now 0]> l.

Definition route_health_drop_locked (dest : Z) (l : list route_health) : list route_health :=
  match route_health_find_locked dest l with
  | Some i => <[i := health_zero]> l
  | None => l
  end.

(** [entry->node.next_hop = b] *)
Definition write_next_hop (i : nat) (b : Z) (r : routes) : routes :=
  set_nodes (alter (set_n_next_hop b) i (nodes r)) r.

(** [entry ? entry->node.next_hop : 0] *)
Definition stored_next_hop (dest : Z) (r : routes) : Z :=
  match find_entry_locked dest r with
  | Some i => match nodes r !! i with Some e => n_next_hop e | None => 0 end
  | None => 0
  end.

Definition clear_next_hop (dest : Z) (r : routes) : routes :=
  match find_entry_locked dest r with
  | Some i => if stored_next_hop dest r =? 0 then r else write_next_hop i 0 r
  | None => r
  end.

(** ** Operations; [now] is [uptime_seconds()] *)

Definition meshtastic_nodedb_note_route_failure (dest : Z) (r : routes) : routes :=
  let found := route_health_find_locked dest (health r) in
  let bump h := if rh_fail_count h <? UINT8_MAX then set_rh_fail_count (rh_fail_count h + 1) h else h in
  let r := match found with
           | Some i => set_health (alter bump i (health r)) r
           | None => r
           end in
  let out := match found with
             | None => true
             | Some i => match health r !! i with
                         | Some h => ROUTE_HEALTH_MAX_FAIL <=? rh_fail_count h
                         | None => true
                         end
             end in
  if out then
    let r := clear_next_hop dest r in
    set_health (route_health_drop_locked dest (health r)) r
  else r.

Definition meshtastic_nodedb_note_route_success (dest now : Z) (r : routes) : routes :=
  match route_health_find_locked dest (health r) with
  | Some i => set_health (alter (fun h => set_rh_learned_at now (set_rh_fail_count 0 h)) i (health r)) r
  | None => r
  end.

(** The loop of [resolve_unique_last_byte] with its early exit. *)
Fixpoint resolve_loop (local last_byte : Z) (mtch : Z) (count : nat) (l : list node) : Z * nat :=
  match l with
  | [] => (mtch, count)
  | e :: l' =>
      if negb (n_used e) then resolve_loop local last_byte mtch count l'
      else if n_num e =? local then resolve_loop local last_byte mtch count l'
      else if u8 (Z.land (n_num e) 255) =? last_byte then
        if (1 <? S count)%nat then (n_num e, S count)
        else resolve_loop local last_byte (n_num e) (S count) l'
      else resolve_loop local last_byte mtch count l'
  end.

Definition meshtastic_nodedb_resolve_unique_last_byte (local last_byte : Z) (r : routes) : Z :=
  let '(mtch, count) := resolve_loop local last_byte 0 0 (nodes r) in
  if (count =? 1)%nat then mtch else 0.

(** A tracked route that has struck out or is older than the TTL. *)
Definition route_stale (ttl now : Z) (h : route_health) : bool :=
  (ROUTE_HEALTH_MAX_FAIL <=? rh_fail_count h) ||
  (negb (ttl =? 0) && (ttl <? u32 (now - rh_learned_at h))).

Definition meshtastic_nodedb_get_next_hop (dest ttl now : Z) (r : routes) : routes * Z :=
  let next_hop := stored_next_hop dest r in
  if next_hop =? 0 then (r, 0)
  else
    match route_health_find_locked dest (health r) with
    | Some i =>
        match health r !! i with
        | Some h =>
            if route_stale ttl now h then
              let r := clear_next_hop dest r in
              (set_health (route_health_drop_locked dest (health r)) r, 0)
            else (r, next_hop)
        | None => (r, next_hop)
        end
    | None => (r, next_hop)
    end.

Definition meshtastic_nodedb_set_next_hop (dest next_hop now : Z) (r : routes) : routes * cret :=
  match find_entry_locked dest r with
  | None => (r, ERR ENOENT)
  | Some i =>
      let r := write_next_hop i next_hop r in
      (set_health (if negb (next_hop =? 0)
                   then route_health_upsert_locked dest now (health r)
                   else route_health_drop_locked dest (health r)) r, OK)
  end.

(** ** Entries *)

Lemma write_next_hop_find dest i b r :
  find_entry_locked dest (write_next_hop i b r) = find_entry_locked dest r.
Proof.
  unfold find_entry_locked. simpl. destruct (nodes r !! i) as [e|] eqn:E.
  - rewrite (alter_insert_lookup _ _ _ _ E). by eapply find_index_insert_same.
  - by rewrite alter_none.
Qed.

Lemma find_entry_lookup dest r i :
  find_entry_locked dest r = Some i -> exists e, nodes r !! i = Some e /\ n_num e = dest.
Proof. intros (e & He & Hp)%find_index_Some_1. bools. eauto. Qed.

Lemma stored_write_same dest i b r :
  find_entry_locked dest r = Some i -> stored_next_hop dest (write_next_hop i b r) = b.
Proof.
  intros Hf. unfold stored_next_hop. rewrite write_next_hop_find, Hf. simpl.
  destruct (find_entry_lookup _ _ _ Hf) as (e & He & _). by rewrite list_lookup_alter_eq, He.
Qed.

Lemma stored_write_other dest d i b r :
  find_entry_locked dest r = Some i -> d <> dest ->
  stored_next_hop d (write_next_hop i b r) = stored_next_hop d r.
Proof.
  intros Hf Hd. unfold stored_next_hop. rewrite write_next_hop_find.
  destruct (find_entry_locked d r) as [j|] eqn:Ej; [|done]. simpl.
  destruct (find_entry_lookup _ _ _ Hf) as (e & He & <-), (find_entry_lookup _ _ _ Ej) as (e' & He' & <-).
  rewrite list_lookup_alter_ne; [done|]. intros ->. congruence.
Qed.

Lemma stored_set_health dest l r : stored_next_hop dest (set_health l r) = stored_next_hop dest r.
Proof. done. Qed.

Lemma health_clear dest r : health (clear_next_hop dest r) = health r.
Proof. unfold clear_next_hop. by repeat case_match. Qed.

Lemma stored_clear dest r : stored_next_hop dest (clear_next_hop dest r) = 0.
Proof.
  unfold clear_next_hop. destruct (find_entry_locked dest r) as [i|] eqn:E.
  - destruct (_ =? 0) eqn:Ez; bools; [done|]. by apply stored_write_same.
  - unfold stored_next_hop. by rewrite E.
Qed.

Lemma stored_clear_other dest d r :
  d <> dest -> stored_next_hop d (clear_next_hop dest r) = stored_next_hop d r.
Proof.
  intros Hd. unfold clear_next_hop. destruct (find_entry_locked dest r) as [i|] eqn:E; [|done].
  destruct (_ =? 0); [done|]. by eapply stored_write_other.
Qed.

(** ** Health records *)

(** The record of [dest], as the lookups of the code find it. *)
Definition health_of (dest : Z) (l : list route_health) : option route_health :=
  match route_health_find_locked dest l with Some i => l !! i | None => None end.

Lemma health_find_lookup dest l i :
  route_health_find_locked dest l = Some i -> exists h, l !! i = Some h /\ rh_dest h = dest.
Proof. intros (h & Hh & Hp)%find_index_Some_1. bools. eauto. Qed.

Lemma health_of_Some dest l h :
  health_of dest l = Some h ->
  exists i, route_health_find_locked dest l = Some i /\ l !! i = Some h /\ rh_dest h = dest.
Proof.
  unfold health_of. destruct (route_health_find_locked dest l) as [i|] eqn:E; [|done].
  intros Hh. exists i. destruct (health_find_lookup _ _ _ E) as (h' & Hh' & Hd). naive_solver.
Qed.

Lemma health_write dest l i h :
  (i < length l)%nat ->
  route_health_find_locked dest l = None \/ route_health_find_locked dest l = Some i ->
  rh_dest h = dest -> health_of dest (<[i:=h]> l) = Some h.
Proof.
  intros Hi Hf Hd. unfold health_of, route_health_find_locked.
  rewrite (find_index_insert _ l i h Hi Hf) by (rewrite Hd; apply Z.eqb_refl).
  by apply list_lookup_insert_eq.
Qed.

Lemma health_scan_bound l : forall i best at_,
  (health_scan i best at_ l = best \/ (i <= health_scan i best at_ l < i + length l)%nat).
Proof.
  induction l as [|h l IH]; intros i best at_; simpl; [by left|].
  destruct (_ =? 0); [right; lia|]. destruct (_ <? _).
  - destruct (IH (S i) i (rh_learned_at h)) as [->|?]; right; lia.
  - destruct (IH (S i) best at_) as [->|?]; [by left | right; lia].
Qed.

Lemma health_upsert dest now l :
  (0 < length l)%nat ->
  health_of dest (route_health_upsert_locked dest now l) = Some (RouteHealth dest now 0).
Proof.
  intros Hl. unfold route_health_upsert_locked.
  destruct (route_health_find_locked dest l) as [i|] eqn:E; apply health_write; eauto.
  - destruct (health_find_lookup _ _ _ E) as (h & Hh & _). by eapply lookup_lt_Some.
  - unfold health_victim. destruct (health_scan_bound l 0 0 (match l with h :: _ => rh_learned_at h | [] => 0 end)); lia.
Qed.

(** One failure of a route that is tracked with [f] strikes. *)
Lemma failure_step dest r h nh :
  health_of dest (health r) = Some h -> stored_next_hop dest r = nh ->
  let r' := meshtastic_nodedb_note_route_failure dest r in
  let f' := if rh_fail_count h <? UINT8_MAX then rh_fail_count h + 1 else rh_fail_count h in
  if ROUTE_HEALTH_MAX_FAIL <=? f' then stored_next_hop dest r' = 0
  else stored_next_hop dest r' = nh /\ health_of dest (health r') = Some (set_rh_fail_count f' h).
Proof.
  intros (i & E & Hh & Hd)%health_of_Some Hnh. simpl. unfold meshtastic_nodedb_note_route_failure. rewrite E. simpl.
  rewrite (alter_insert_lookup _ _ _ _ Hh).
  pose proof (lookup_lt_Some _ _ _ Hh) as Hlt. rewrite list_lookup_insert_eq by done.
  set (h2 := if rh_fail_count h <? UINT8_MAX then set_rh_fail_count (rh_fail_count h + 1) h else h).
  assert (E2 : rh_fail_count h2 = if rh_fail_count h <? UINT8_MAX then rh_fail_count h + 1 else rh_fail_count h)
    by (unfold h2; by destruct (_ <? _)).
  rewrite <- E2. destruct (_ <=? rh_fail_count h2) eqn:El.
  - rewrite stored_set_health. apply stored_clear.
  - split; [done|]. simpl. rewrite (health_write _ _ _ h2); [| done | by right | unfold h2; by destruct (_ <? _)].
    f_equal. rewrite E2. unfold h2. destruct (_ <? _); [done|]. by destruct h.
Qed.

Lemma failure_zero dest r :
  stored_next_hop dest r = 0 -> stored_next_hop dest (meshtastic_nodedb_note_route_failure dest r) = 0.
Proof.
  intros Hz. unfold meshtastic_nodedb_note_route_failure.
  destruct (route_health_find_locked dest (health r)) as [i|].
  - destruct (match health _ !! i with Some h => _ | None => _ end).
    + rewrite stored_set_health. apply stored_clear.
    + done.
  - rewrite stored_set_health. apply stored_clear.
Qed.

Lemma iter_failures dest r h nh :
  health_of dest (health r) = Some h -> rh_fail_count h = 0 -> stored_next_hop dest r = nh ->
  forall n, stored_next_hop dest (Nat.iter n (meshtastic_nodedb_note_route_failure dest) r) =
            if (n <? 3)%nat then nh else 0.
Proof.
  intros Hh Hf Hnh n.
  assert (Hn : forall n,
    let rn := Nat.iter n (meshtastic_nodedb_note_route_failure dest) r in
    if (n <? 3)%nat then stored_next_hop dest rn = nh /\
      health_of dest (health rn) = Some (set_rh_fail_count (Z.of_nat n) h)
    else stored_next_hop dest rn = 0).
  { clear n. intros n. induction n as [|n IH]; simpl.
    { split; [done|]. rewrite Hh. f_equal. destruct h; simpl in *. by rewrite Hf. }
    destruct (n <? 3)%nat eqn:En.
    - destruct IH as [Hs Ht]. apply Nat.ltb_lt in En.
      pose proof (failure_step dest _ _ nh Ht Hs) as Hst. cbv zeta in Hst. simpl in Hst.
      assert (Z.of_nat n <? UINT8_MAX = true) as E1 by (unfold UINT8_MAX; lia). rewrite E1 in Hst.
      destruct (S n <? 3)%nat eqn:Es.
      + apply Nat.ltb_lt in Es. destruct (ROUTE_HEALTH_MAX_FAIL <=? _) eqn:E2; [unfold ROUTE_HEALTH_MAX_FAIL in E2; lia|].
        rewrite Nat2Z.inj_succ. exact Hst.
      + apply Nat.ltb_ge in Es. destruct (ROUTE_HEALTH_MAX_FAIL <=? _) eqn:E2; [done | unfold ROUTE_HEALTH_MAX_FAIL in E2; lia].
    - apply Nat.ltb_ge in En. destruct (S n <? 3)%nat eqn:Es; [apply Nat.ltb_lt in Es; lia|].
      by apply failure_zero. }
  specialize (Hn n). cbv zeta in Hn. destruct (n <? 3)%nat; [by destruct Hn | done].
Qed.

(** ** The low-byte resolution *)

Definition byte_match (local b : Z) (e : node) : bool :=
  n_used e && negb (n_num e =? local) && (u8 (Z.land (n_num e) 255) =? b).

Lemma resolve_loop_spec local b l : forall m c, (c <= 1)%nat ->
  resolve_loop local b m c l =
  match List.filter (byte_match local b) l, c with
  | [], _ => (m, c)
  | [e], O => (n_num e, 1%nat)
  | e :: e' :: _, O => (n_num e', 2%nat)
  | e :: _, S _ => (n_num e, 2%nat)
  end.
Proof.
  induction l as [|e l IH]; intros m c Hc; [simpl; by destruct c|]. cbn [resolve_loop List.filter].
  unfold byte_match at 1. destruct (n_used e); simpl; [|by apply IH].
  destruct (n_num e =? local); simpl; [by apply IH|].
  destruct (_ =? b); simpl; [|by apply IH].
  destruct c as [|c]; simpl.
  - rewrite IH by lia. by destruct (List.filter _ l) as [|e1 [|e2 l1]].
  - assert (c = 0)%nat as -> by lia. by destruct (List.filter _ l) as [|e1 l1].
Qed.

(** The low byte of a node number, as [(uint8_t)(num & 0xFF)]. *)
Lemma low_byte n : u8 (Z.land n 255) = u8 n.
Proof.
  change 255 with (Z.ones 8). rewrite Z.land_ones by lia. apply Zmod_mod.
Qed.

(** ** The implementation of the interface *)

#[export] Instance routes_store (local now : Z) : RouteStore routes := {|
  rs_next_hop r dest := stored_next_hop dest r;
  rs_resolve r b := meshtastic_nodedb_resolve_unique_last_byte local b r;
  rs_set dest b r := meshtastic_nodedb_set_next_hop dest b now r;
|}.

Lemma resolve_byte local b r n :
  meshtastic_nodedb_resolve_unique_last_byte local b r = n -> n <> 0 -> u8 n = b.
Proof.
  unfold meshtastic_nodedb_resolve_unique_last_byte. rewrite resolve_loop_spec by lia.
  destruct (List.filter _ _) as [|e [|e' l]] eqn:E; simpl; [congruence | | congruence].
  intros <- _. assert (Hin : In e (List.filter (byte_match local b) (nodes r))) by (rewrite E; by left).
  apply filter_In in Hin as [_ Hm]. unfold byte_match in Hm. bools. by rewrite <- low_byte.
Qed.

#[export] Instance routes_store_laws (local now : Z) :
  @RouteStoreLaws routes (routes_store local now).
Proof.
  split; simpl; unfold meshtastic_nodedb_set_next_hop.
  - intros r dest b r' Hs. destruct (find_entry_locked dest r) as [i|] eqn:E; [|done].
    injection Hs as <-. rewrite stored_set_health. by apply stored_write_same.
  - intros r dest b r' ret d Hs Hd. destruct (find_entry_locked dest r) as [i|] eqn:E; simplify_eq; [|done].
    rewrite stored_set_health. by eapply stored_write_other.
  - intros r dest b r' e Hs. by destruct (find_entry_locked dest r) as [i|]; simplify_eq.
  - intros r b n. apply resolve_byte.
Qed.

(** ** Properties *)

(** Three strikes: a route that was just learned, or just confirmed by a
    delivered send, survives one or two failed sends in a row and is dropped back
    to flood by the third, after which further failures leave it at flood. *)
Theorem route_three_strikes dest nh now r n :
  (0 < length (health r))%nat -> nh <> 0 ->
  (forall r', meshtastic_nodedb_set_next_hop dest nh now r = (r', OK) ->
     stored_next_hop dest (Nat.iter n (meshtastic_nodedb_note_route_failure dest) r') =
       if (n <? 3)%nat then nh else 0) /\
  (stored_next_hop dest r = nh -> health_of dest (health r) <> None ->
     stored_next_hop dest (Nat.iter n (meshtastic_nodedb_note_route_failure dest)
                             (meshtastic_nodedb_note_route_success dest now r)) =
       if (n <? 3)%nat then nh else 0).
Proof.
  intros Hl Hnh. split.
  - unfold meshtastic_nodedb_set_next_hop. intros r'.
    destruct (find_entry_locked dest r) as [i|] eqn:E; [|done]. intros [= <-].
    destruct (nh =? 0) eqn:Ez; bools; [done|]. simpl.
    eapply (iter_failures dest _ (RouteHealth dest now 0)); [|done|].
    + simpl. by apply health_upsert.
    + rewrite stored_set_health. by apply stored_write_same.
  - intros Hs Ht. destruct (health_of dest (health r)) as [h|] eqn:Eh; [|done].
    apply health_of_Some in Eh as (i & Ei & Hi & Hd).
    unfold meshtastic_nodedb_note_route_success. rewrite Ei.
    rewrite (alter_insert_lookup _ _ _ _ Hi).
    eapply (iter_failures dest _ (set_rh_learned_at now (set_rh_fail_count 0 h))); [|done | done].
    simpl. apply health_write; [by eapply lookup_lt_Some | by right | done].
Qed.

(** A route handed out for a send is fresh. [get_next_hop] returns the stored
    byte unchanged only if the route's record (when it has one) has fewer than
    three strikes and is not older than the TTL; when it returns 0, the
    destination is at flood afterwards. *)
Theorem next_hop_is_fresh dest ttl now r :
  let '(r', b) := meshtastic_nodedb_get_next_hop dest ttl now r in
  (b <> 0 -> r' = r /\ b = stored_next_hop dest r /\
     forall h, health_of dest (health r) = Some h ->
       rh_fail_count h < ROUTE_HEALTH_MAX_FAIL /\ (ttl = 0 \/ u32 (now - rh_learned_at h) <= ttl)) /\
  (b = 0 -> stored_next_hop dest r' = 0).
Proof.
  unfold meshtastic_nodedb_get_next_hop.
  destruct (stored_next_hop dest r =? 0) eqn:Ez; bools; [done|].
  unfold health_of. destruct (route_health_find_locked dest (health r)) as [i|] eqn:E; [|done].
  destruct (health r !! i) as [h|] eqn:Eh; [|done].
  destruct (route_stale ttl now h) eqn:Es.
  - split; [done|]. intros _. rewrite stored_set_health. apply stored_clear.
  - split; [|done]. intros _. split; [done|]. split; [done|]. intros h' [= <-].
    unfold route_stale in Es. bools. split; [done|].
    destruct (ttl =? 0) eqn:Et; bools; [by left | right]. simpl in *. bools. lia.
Qed.

(** The one-byte relayer id is resolved only when it is unambiguous: the result is
    the number of the single used entry, other than this node, with that low byte,
    and 0 when there is none or more than one. *)
Theorem resolve_unique_exact local b r :
  meshtastic_nodedb_resolve_unique_last_byte local b r =
  match List.filter (byte_match local b) (nodes r) with
  | [e] => n_num e
  | _ => 0
  end.
Proof.
  unfold meshtastic_nodedb_resolve_unique_last_byte. rewrite resolve_loop_spec by lia.
  by destruct (List.filter _ _) as [|e [|e' l]].
Qed.

Definition witness_routes : routes :=
  Routes [Node true 300 0; Node true 7 0] (replicate ROUTE_HEALTH_SIZE health_zero).

Lemma route_three_strikes_witness :
  stored_next_hop 7 (Nat.iter 3 (meshtastic_nodedb_note_route_failure 7)
    (meshtastic_nodedb_set_next_hop 7 44 100 witness_routes).1) = 0.
Proof.
  apply (proj1 (route_three_strikes 7 44 100 witness_routes 3 ltac:(vm_compute; lia) ltac:(congruence))).
  reflexivity.
Defined.
