(* ===== verification/Routing.v ===== *)
(** * Routing answers and route learning (src/src/meshtastic_routing.c)

    ACKs and NAKs for received packets, the hop budget of a reply, the ring of
    relayers overheard carrying our own packets, and the gates a next-hop route
    must pass before it is learned. The route store is used through [RouteStore];
    the reliable-delivery table is called as the code calls it. A packet handed to
    [meshtastic_send_packet] is an output. *)
From S2P Require Import Prelude Sched Contention Packet Outbound Reliable Routes.
Open Scope Z_scope.

Definition ROUTING_REPLY_HOP_MARGIN : Z := 2.
Definition ROUTING_RELAYER_LOG_SIZE : nat := 8.
Definition PortNum_TEXT_MESSAGE_COMPRESSED_APP : Z := 7.

(** ** State: the ring *)
Record relayer_entry := RelayerEntry { rl_id : Z; rl_relayer : Z }.
Record relayer_ring := RelayerRing {
  relayer_log : list relayer_entry;
  relayer_log_head : nat;
}.
Definition set_relayer_log (v : list relayer_entry) (r : relayer_ring) : relayer_ring :=
RelayerRing v (relayer_log_head r).
Definition set_relayer_log_head (v : nat) (r : relayer_ring) : relayer_ring :=
RelayerRing (relayer_log r) v.

Definition ring_init : relayer_ring :=
  RelayerRing (replicate ROUTING_RELAYER_LOG_SIZE (RelayerEntry 0 0)) 0.

(** A packet handed to [meshtastic_send_packet], and whether the call may block. *)
Inductive timeout := K_NO_WAIT | K_FOREVER.
Record sent := Sent { s_packet : packet; s_wait : timeout }.

(** What the functions read of the node and the channel table. *)
Record routing_env := RoutingEnv {
  ro_node_id : Z;
  ro_hop_limit : Z;                      (* mt.hop_limit *)
  ro_new_id : Z;                         (* meshtastic_allocate_packet_id *)
  ro_primary : Z;                        (* meshtastic_channels_primary_index *)
  ro_resolve_send : Z -> Z -> Z -> Z;    (* meshtastic_channels_resolve_send_index *)
  ro_encode : routing_variant -> option (list Z);
  ro_send_ret : cret;                    (* what meshtastic_send_packet returns *)
}.

(** ** The overheard relayers *)

Definition self_byte (node_id : Z) : Z := u8 (Z.land node_id 255).

Definition meshtastic_routing_note_own_echo (node_id id relay_node : Z) (g : relayer_ring)
    : relayer_ring :=
  if (relay_node =? 0) || (relay_node =? self_byte node_id) then g
  else
    RelayerRing (<[relayer_log_head g := RelayerEntry id relay_node]> (relayer_log g))
      ((relayer_log_head g + 1) `mod` ROUTING_RELAYER_LOG_SIZE)%nat.

Definition relayer_carried_our_packet (id relayer : Z) (g : relayer_ring) : bool :=
  existsb (fun x => (rl_id x =? id) && (rl_relayer x =? relayer)) (relayer_log g).

(** ** Hop budget and ACK policy *)

Definition routing_hop_limit_for_reply (hop_limit : Z) (req : option packet) : Z :=
  match req with
  | None => hop_limit
  | Some req =>
      if p_hop_start req =? 0 then 0
      else if p_hop_start req <? p_hop_limit req then hop_limit
      else
        let hops_used := p_hop_start req - p_hop_limit req in
        if hop_limit <? hops_used then u8 hops_used
        else if u8 (hops_used + ROUTING_REPLY_HOP_MARGIN) <? hop_limit
        then u8 (hops_used + ROUTING_REPLY_HOP_MARGIN)
        else hop_limit
  end.

Definition routing_ack_should_request_ack (node_id : Z) (req : option packet)
    (mesh : option mesh_packet) : bool :=
  if bool_decide (req = None) && bool_decide (mesh = None) then false
  else
    let p := default packet_zero req in
    let want_ack := dual mesh p m_want_ack p_want_ack in
    let to := dual mesh p m_to p_to in
    let portnum := dual mesh p (fun m => d_portnum (m_decoded m)) p_portnum in
    want_ack && (to =? node_id) &&
    ((portnum =? MESHTASTIC_PORT_TEXT_MESSAGE) || (portnum =? PortNum_TEXT_MESSAGE_COMPRESSED_APP)).

(** ** Replies *)

Definition routing_send_reply (e : routing_env) (to request_id ch_index err hop_limit : Z)
    (want_ack : bool) (wait : timeout) (attach : Z) (pki : bool) : list sent * cret :=
  match ro_encode e (ErrorReason err) with
  | None => ([], ERR ENOMEM)
  | Some rbuf =>
      ([Sent
          (set_p_from (ro_node_id e) (set_p_to to (set_p_id (ro_new_id e)
            (set_p_portnum MESHTASTIC_PORT_ROUTING (set_p_payload (Some rbuf)
              (set_p_request_id request_id (set_p_hop_limit hop_limit (set_p_hop_start hop_limit
                (set_p_want_ack want_ack (set_p_channel_index ch_index
                  (set_p_tx_attach (MESHTASTIC_REPLY_ATTACH attach)
                    (set_p_pki_encrypted pki packet_zero)))))))))))) wait], ro_send_ret e)
  end.

(** The channel index a MeshPacket carries, guarded to the table's range. *)
Definition mesh_channel_index (m : mesh_packet) : Z :=
  if m_channel m <? MESHTASTIC_MAX_CHANNELS then u8 (m_channel m)
  else MESHTASTIC_CHANNEL_INDEX_INVALID.

Definition routing_send_ack (e : routing_env) (req : option packet) (mesh : option mesh_packet)
    : list sent * cret :=
  match req with
  | None => ([], ERR EINVAL)
  | Some p =>
      let to := dual mesh p m_to p_to in
      let from := dual mesh p m_from p_from in
      let id := dual mesh p m_id p_id in
      let channel_index := dual mesh p mesh_channel_index p_channel_index in
      if negb (to =? ro_node_id e) then ([], ERR EINVAL)
      else
        let ch_index := if negb (channel_index =? MESHTASTIC_CHANNEL_INDEX_INVALID)
                        then channel_index else ro_primary e in
        routing_send_reply e from id ch_index Routing_Error_NONE
          (routing_hop_limit_for_reply (ro_hop_limit e) req)
          (routing_ack_should_request_ack (ro_node_id e) req mesh) K_FOREVER (p_rx_attach p)
          (dual mesh p m_pki_encrypted p_pki_encrypted)
  end.

Definition meshtastic_routing_reack_duplicate (e : routing_env)
    (from id wire_hash hop_limit hop_start attach : Z) : list sent * cret :=
  let req := set_p_from from (set_p_to (ro_node_id e) (set_p_id id
               (set_p_hop_limit hop_limit (set_p_hop_start hop_start packet_zero)))) in
  let ch_index := ro_resolve_send e from MESHTASTIC_CHANNEL_INDEX_INVALID wire_hash in
  routing_send_reply e from id ch_index Routing_Error_NONE
    (routing_hop_limit_for_reply (ro_hop_limit e) (Some req)) false K_NO_WAIT attach false.

Definition meshtastic_routing_send_error (e : routing_env) (req : option packet) (err : Z)
    : list sent :=
  match req with
  | None => []
  | Some p =>
      if (p_from p =? 0) || (p_from p =? ro_node_id e) then []
      else (routing_send_reply e (p_from p) (p_id p) (ro_primary e) err
              (routing_hop_limit_for_reply (ro_hop_limit e) req) false K_NO_WAIT (p_rx_attach p)
              (p_pki_encrypted p)).1
  end.

Definition meshtastic_routing_reply_hop_limit (e : routing_env) (req_hop_limit req_hop_start : Z) : Z :=
  routing_hop_limit_for_reply (ro_hop_limit e)
    (Some (set_p_hop_limit req_hop_limit (set_p_hop_start req_hop_start packet_zero))).

Definition meshtastic_routing_answer (e : routing_env)
    (to request_id channel_index req_hop_limit req_hop_start : Z) (want_ack : bool)
    (err attach : Z) (pki : bool) : list sent * cret :=
  if (to =? 0) || (to =? ro_node_id e) then ([], ERR EINVAL)
  else
    routing_send_reply e to request_id
      (if channel_index <? MESHTASTIC_MAX_CHANNELS then channel_index else ro_primary e)
      err (meshtastic_routing_reply_hop_limit e req_hop_limit req_hop_start)
      want_ack K_NO_WAIT attach pki.

(** ** A decoded packet *)
Section OnDecoded.
Context {KC : RelKconfig}.

Definition meshtastic_routing_on_decoded (e : routing_env) (re : rel_env) (pkt : option packet)
    (mesh : option mesh_packet) (r : rel) : rel * list rel_effect * list sent :=
  match pkt with
  | None => (r, [], [])
  | Some p =>
      let from := dual mesh p m_from p_from in
      let to := dual mesh p m_to p_to in
      let portnum := dual mesh p (fun m => d_portnum (m_decoded m)) p_portnum in
      let want_ack := dual mesh p m_want_ack p_want_ack in
      if negb ((to =? ro_node_id e) || (to =? MESHTASTIC_NODE_BROADCAST)) ||
         (from =? ro_node_id e) then (r, [], [])
      else
        let '(r, fx) := if portnum =? MESHTASTIC_PORT_ROUTING
                        then meshtastic_reliable_on_routing re pkt mesh r else (r, []) in
        (r, fx, if want_ack && (to =? ro_node_id e) then (routing_send_ack e pkt mesh).1 else [])
  end.
End OnDecoded.

(** ** Learning a next hop *)

Definition meshtastic_routing_learn_next_hop {S} `{RouteStore S} (node_id : Z) (pkt : option packet)
    (mesh : option mesh_packet) (g : relayer_ring) (s : S) : S :=
  match pkt with
  | None => s
  | Some p =>
      let from := dual mesh p m_from p_from in
      let to := dual mesh p m_to p_to in
      let via_mqtt := dual mesh p m_via_mqtt p_via_mqtt in
      let relay_node := dual mesh p (fun m => u8 (m_relay_node m)) p_relay_node in
      let request_id := dual mesh p (fun m => d_request_id (m_decoded m)) p_request_id in
      if negb (to =? node_id) || (from =? 0) || (from =? node_id) || via_mqtt then s
      else if (relay_node =? 0) || (relay_node =? self_byte node_id) then s
      else if request_id =? 0 then s
      else if negb (relayer_carried_our_packet request_id relay_node g) then s
      else if rs_resolve s relay_node =? 0 then s
      else (rs_set from relay_node s).1
  end.

(** ** The ring of relayers *)

Definition echo_accepted (node_id : Z) (n : Z * Z) : bool :=
  negb (n.2 =? 0) && negb (n.2 =? self_byte node_id).

(** The ring after a history of overheard echoes. *)
Definition ring_after (node_id : Z) (notes : list (Z * Z)) : relayer_ring :=
  foldl (fun g n => meshtastic_routing_note_own_echo node_id n.1 n.2 g) ring_init notes.

Lemma ring_after_push node_id notes :
  (relayer_log (ring_after node_id notes), relayer_log_head (ring_after node_id notes)) =
  foldl (ring_push ROUTING_RELAYER_LOG_SIZE) (replicate ROUTING_RELAYER_LOG_SIZE (RelayerEntry 0 0), 0%nat)
    ((fun n => RelayerEntry n.1 n.2) <$> List.filter (echo_accepted node_id) notes).
Proof.
  unfold ring_after. induction notes as [|n notes IH] using rev_ind; [done|].
  rewrite foldl_snoc, List.filter_app, fmap_app, foldl_app, <- IH. cbn [List.filter].
  set (g := foldl _ ring_init notes).
  unfold meshtastic_routing_note_own_echo, echo_accepted.
  destruct (n.2 =? 0); simpl; [done|]. by destruct (n.2 =? self_byte node_id).
Qed.

Lemma carried_elem id b g :
  relayer_carried_our_packet id b g = true <-> RelayerEntry id b ∈ relayer_log g.
Proof.
  unfold relayer_carried_our_packet. rewrite existsb_exists, list_elem_of_In. split.
  - intros ([i c] & Hin & Hp). simpl in Hp. bools. by subst.
  - intros Hin. exists (RelayerEntry id b). split; [done|]. simpl. by rewrite !Z.eqb_refl.
Qed.

(** ** Properties *)

(** The relayer log is a window on the overheard echoes: a relayer counts as having
    carried our packet exactly if that echo is among the last eight accepted ones
    (an echo naming no relayer, or this node itself, is not recorded). *)
Theorem relayer_log_is_recent_window node_id notes id b :
  b <> 0 ->
  relayer_carried_our_packet id b (ring_after node_id notes) = true <->
  (id, b) ∈ (let acc := List.filter (echo_accepted node_id) notes in
             drop (length acc - ROUTING_RELAYER_LOG_SIZE) acc).
Proof.
  intros Hb. rewrite carried_elem. cbv zeta.
  set (acc := List.filter (echo_accepted node_id) notes).
  transitivity (RelayerEntry id b ∈ (relayer_log (ring_after node_id notes),
                                     relayer_log_head (ring_after node_id notes)).1); [done|].
  rewrite ring_after_push. fold acc.
  rewrite ring_elem_of by (unfold ROUTING_RELAYER_LOG_SIZE; (lia || congruence)).
  rewrite length_fmap, <- fmap_drop, list_elem_of_fmap. split.
  - intros ([i c] & [= -> ->] & Hin). done.
  - intros Hin. by exists (id, b).
Qed.

(** A route is learned only through every gate, whatever route store is used. If
    processing a received packet changes the next hop of some node, that node is
    the packet's source, the packet was addressed to this node and did not come
    over MQTT, it answers a packet of ours (request id) that the same relayer was
    overheard carrying, and the relayer byte is neither 0 nor our own and names a
    known node with that low byte. *)
Theorem learned_route_passed_gates {S} `{RouteStoreLaws S} node_id p mesh g (s : S) d :
  let s' := meshtastic_routing_learn_next_hop node_id (Some p) mesh g s in
  let relay := dual mesh p (fun m => u8 (m_relay_node m)) p_relay_node in
  rs_next_hop s' d <> rs_next_hop s d ->
  d = dual mesh p m_from p_from /\ rs_next_hop s' d = relay /\
  dual mesh p m_to p_to = node_id /\ dual mesh p m_via_mqtt p_via_mqtt = false /\
  relay <> 0 /\ relay <> self_byte node_id /\ d <> 0 /\ d <> node_id /\
  (let id := dual mesh p (fun m => d_request_id (m_decoded m)) p_request_id in
   id <> 0 /\ relayer_carried_our_packet id relay g = true) /\
  (exists n, n <> 0 /\ rs_resolve s relay = n /\ u8 n = relay).
Proof.
  cbv zeta. unfold meshtastic_routing_learn_next_hop.
  set (relay := dual mesh p _ p_relay_node). set (from := dual mesh p m_from p_from).
  set (id := dual mesh p _ p_request_id). set (to := dual mesh p m_to p_to).
  destruct (_ || _ || _ || _) eqn:E1; [done|]. destruct ((relay =? 0) || _) eqn:E2; [done|].
  destruct (id =? 0) eqn:E3; [done|]. destruct (relayer_carried_our_packet id relay g) eqn:E4; [|done].
  cbn [negb]. destruct (rs_resolve s relay =? 0) eqn:E5; [done|]. bools.
  destruct (rs_set from relay s) as [s' ret] eqn:Es. cbn [fst]. intros Hd.
  assert (Hdf : d = from).
  { destruct (decide (d = from)) as [|Hne]; [done|]. exfalso. apply Hd.
    by apply (rs_set_other _ _ _ _ _ _ Es). }
  destruct ret as [|err]; [|apply rs_set_refused in Es; subst; done].
  subst d. repeat split; try done; [by apply rs_set_same in Es|].
  exists (rs_resolve s relay). split; [done|]. split; [done|]. by apply (rs_resolve_byte s).
Qed.

(** The hop budget of a reply is enough and bounded. For a request that records
    the hops it started with, the reply may travel at least as far as the request
    did, and no further than that, plus the margin, or the node's own limit; a
    request that records none is answered without relaying. *)
Theorem reply_hop_budget hop_limit req :
  0 <= hop_limit <= 7 -> in_u8 (p_hop_start req) -> in_u8 (p_hop_limit req) ->
  let n := routing_hop_limit_for_reply hop_limit (Some req) in
  let used := p_hop_start req - p_hop_limit req in
  (p_hop_start req = 0 -> n = 0) /\
  (p_hop_start req <> 0 -> 0 <= used ->
     used <= n /\ n <= Z.max used (Z.min hop_limit (used + ROUTING_REPLY_HOP_MARGIN))) /\
  (p_hop_start req <> 0 -> used < 0 -> n = hop_limit).
Proof.
  unfold in_u8, UINT8_MAX, ROUTING_REPLY_HOP_MARGIN. cbv zeta. intros Hl Hs Hh.
  unfold routing_hop_limit_for_reply, ROUTING_REPLY_HOP_MARGIN.
  destruct (p_hop_start req =? 0) eqn:E0; bools; [repeat split; lia|].
  destruct (p_hop_start req <? p_hop_limit req) eqn:E1; bools; [repeat split; lia|].
  destruct (hop_limit <? _) eqn:E2; bools.
  - rewrite u8_small by lia. repeat split; lia.
  - rewrite u8_small by lia. destruct (_ <? hop_limit) eqn:E3; bools; repeat split; lia.
Qed.

Section Decoded.
Context {KC : RelKconfig}.

(** The two representations of a received packet agree. Converting the decoded
    struct to a MeshPacket and reading from that gives the same acknowledgement,
    the same resolution of a tracked send and the same learned route as reading
    the struct, provided the packet's channel was resolved to a table index. *)
Theorem routing_representation_parity {S} `{RouteStore S} e re p m r node_id g (s : S) :
  in_u8 (p_relay_node p) -> 0 <= p_channel_index p < MESHTASTIC_MAX_CHANNELS ->
  meshtastic_packet_to_mesh_pb p = Val m ->
  meshtastic_routing_on_decoded e re (Some p) (Some m) r =
    meshtastic_routing_on_decoded e re (Some p) None r /\
  meshtastic_routing_learn_next_hop node_id (Some p) (Some m) g s =
    meshtastic_routing_learn_next_hop node_id (Some p) None g s.
Proof.
  unfold in_u8, UINT8_MAX, meshtastic_packet_to_mesh_pb.
  intros Hr Hc. destruct (_ <? _) eqn:El; [done|]. intros [= <-].
  assert (Hch : (if negb (p_channel_index p =? MESHTASTIC_CHANNEL_INDEX_INVALID)
                 then p_channel_index p else 0) = p_channel_index p).
  { unfold MESHTASTIC_CHANNEL_INDEX_INVALID, MESHTASTIC_MAX_CHANNELS in *.
    destruct (_ =? 255) eqn:E; bools; [lia | done]. }
  rewrite Hch. split.
  - unfold meshtastic_routing_on_decoded, routing_send_ack, routing_ack_should_request_ack,
      meshtastic_reliable_on_routing, mesh_channel_index, dual; simpl.
    unfold MESHTASTIC_MAX_CHANNELS in *. destruct (p_channel_index p <? 8) eqn:E8; bools; [|lia].
    rewrite u8_small by lia. done.
  - unfold meshtastic_routing_learn_next_hop, dual; simpl. by rewrite u8_small by lia.
Qed.

(** What one node sends for a packet it received. *)
Definition answers (e : routing_env) (re : rel_env) (p : packet) (r : rel) : list sent :=
  (meshtastic_routing_on_decoded e re (Some p) None r).2.

Lemma answers_spec e re p r x :
  x ∈ answers e re p r ->
  p_want_ack p = true /\ p_to p = ro_node_id e /\ p_from p <> ro_node_id e /\
  p_from (s_packet x) = ro_node_id e /\ p_to (s_packet x) = p_from p /\
  p_request_id (s_packet x) = p_id p /\ p_portnum (s_packet x) = MESHTASTIC_PORT_ROUTING /\
  p_want_ack (s_packet x) = routing_ack_should_request_ack (ro_node_id e) (Some p) None.
Proof.
  unfold answers, meshtastic_routing_on_decoded, dual.
  destruct (_ || _) eqn:E1; [set_solver|].
  destruct (if p_portnum p =? _ then _ else _) as [r' fx]. cbn [snd].
  destruct (p_want_ack p && _) eqn:E2; [|set_solver]. bools.
  unfold routing_send_ack, dual. rewrite (proj2 (Z.eqb_eq _ _)) by done. cbn [negb].
  unfold routing_send_reply. destruct (ro_encode _ _); [|set_solver].
  intros ->%list_elem_of_singleton. by repeat split.
Qed.

(** Acknowledgements do not storm. What a node answers to a packet is one routing
    ACK back to its sender; only the ACK of a direct text asks for an ACK itself,
    and the answer to that one asks for none, so it is never answered: an exchange
    started by one packet ends after at most two acknowledgements. *)
Theorem ack_exchange_ends ea rea eb reb p ra rb ra' x y :
  x ∈ answers ea rea p ra -> y ∈ answers eb reb (s_packet x) rb ->
  (length (answers ea rea p ra) <= 1)%nat /\
  p_to (s_packet x) = p_from p /\ p_request_id (s_packet x) = p_id p /\
  (p_portnum p = MESHTASTIC_PORT_TEXT_MESSAGE \/
   p_portnum p = PortNum_TEXT_MESSAGE_COMPRESSED_APP) /\
  answers ea rea (s_packet y) ra' = [].
Proof.
  intros Hx Hy. pose proof (answers_spec _ _ _ _ _ Hx) as (_ & _ & _ & _ & Hto & Hid & Hport & Hwa).
  pose proof (answers_spec _ _ _ _ _ Hy) as (Hxa & _ & _ & _ & _ & _ & _ & Hya).
  split. { unfold answers, meshtastic_routing_on_decoded. destruct (_ || _); [simpl; lia|].
    destruct (if p_portnum p =? _ then _ else _). cbn [snd]. destruct (_ && _); [|simpl; lia].
    unfold routing_send_ack. destruct (negb _); [simpl; lia|].
    unfold routing_send_reply. destruct (ro_encode _ _); simpl; lia. }
  split; [done|]. split; [done|]. split.
  - rewrite Hwa in Hxa. unfold routing_ack_should_request_ack, dual in Hxa. simpl in Hxa. bools.
    match goal with E : _ || _ = true |- _ => apply orb_true_iff in E as [E|E] end; bools; auto.
  - assert (Hno : p_want_ack (s_packet y) = false).
    { rewrite Hya. unfold routing_ack_should_request_ack, dual. simpl. rewrite Hport.
      apply andb_false_r. }
    destruct (answers ea rea (s_packet y) ra') as [|z l] eqn:E; [done|].
    destruct (answers_spec ea rea (s_packet y) ra' z) as [Hwz _]; [rewrite E; by left | congruence].
Qed.
End Decoded.

(** ** Witnesses *)
#[local] Existing Instance default_rel_kconfig.

Lemma relayer_log_is_recent_window_witness :
  relayer_carried_our_packet 5 44 (ring_after 9 [(5, 44); (6, 0); (6, 9)]) = true.
Proof.
  apply (relayer_log_is_recent_window 9 [(5, 44); (6, 0); (6, 9)] 5 44); [lia|].
  apply list_elem_of_In. vm_compute. by left.
Defined.

(** Node 7 answers our packet 5 through relayer 300 (low byte 44), overheard before. *)
Definition witness_reply : packet :=
  set_p_request_id 5 (set_p_relay_node 44 (set_p_from 7 (set_p_to 9
    (set_p_portnum MESHTASTIC_PORT_ROUTING packet_zero)))).

Lemma learned_route_passed_gates_witness :
  relayer_carried_our_packet 5 44 (ring_after 9 [(5, 44)]) = true.
Proof.
  pose proof (@learned_route_passed_gates routes (routes_store 9 100) (routes_store_laws 9 100)
    9 witness_reply None (ring_after 9 [(5, 44)]) witness_routes 7) as Hl.
  cbv zeta in Hl. destruct Hl as (_ & _ & _ & _ & _ & _ & _ & _ & [_ Hc] & _).
  - vm_compute. congruence.
  - exact Hc.
Defined.

Lemma reply_hop_budget_witness :
  2 <= routing_hop_limit_for_reply 3 (Some (set_p_hop_start 3 (set_p_hop_limit 1 packet_zero))).
Proof.
  apply (reply_hop_budget 3 (set_p_hop_start 3 (set_p_hop_limit 1 packet_zero)));
    unfold in_u8, UINT8_MAX; simpl; lia.
Defined.

Definition witness_routing_env (node : Z) : routing_env :=
  RoutingEnv node 3 77 0 (fun _ _ _ => 0)
    (fun v => match v with ErrorReason n => Some [24; n] | OtherVariant => None end) OK.

(** A direct text from node 7 to node 9 that asks for an ACK. *)
Definition witness_text : packet :=
  set_p_want_ack true (set_p_id 5 (set_p_portnum 1 (set_p_from 7 (set_p_to 9 packet_zero)))).

Lemma routing_representation_parity_witness :
  exists m, meshtastic_packet_to_mesh_pb witness_text = Val m /\
    meshtastic_routing_on_decoded (witness_routing_env 9) (witness_rel_env 0) (Some witness_text)
      (Some m) rel_init =
    meshtastic_routing_on_decoded (witness_routing_env 9) (witness_rel_env 0) (Some witness_text)
      None rel_init.
Proof.
  eexists. split; [reflexivity|].
  refine (proj1 (@routing_representation_parity routes (routes_store 9 0) (witness_routing_env 9)
    (witness_rel_env 0) witness_text _ rel_init 9 ring_init witness_routes _ _ _));
    unfold in_u8, UINT8_MAX, MESHTASTIC_MAX_CHANNELS; simpl; reflexivity || lia.
Defined.

Definition witness_ack : packet :=
  set_p_from 9 (set_p_to 7 (set_p_id 77 (set_p_portnum 5 (set_p_payload (Some [24; 0])
    (set_p_request_id 5 (set_p_want_ack true (set_p_tx_attach MESHTASTIC_ATTACH_OWN packet_zero))))))).
Definition witness_ack2 : packet :=
  set_p_from 7 (set_p_to 9 (set_p_id 77 (set_p_portnum 5 (set_p_payload (Some [24; 0])
    (set_p_request_id 77 (set_p_tx_attach MESHTASTIC_ATTACH_OWN packet_zero)))))).

Lemma ack_exchange_ends_witness :
  answers (witness_routing_env 9) (witness_rel_env 0) witness_ack2 rel_init = [].
Proof.
  apply (ack_exchange_ends (witness_routing_env 9) (witness_rel_env 0) (witness_routing_env 7)
    (witness_rel_env 0) witness_text rel_init rel_init rel_init
    (Sent witness_ack K_FOREVER) (Sent witness_ack2 K_FOREVER)).
  - vm_compute. constructor.
  - vm_compute. constructor.
Defined.
