(* ===== verification/Utf8.v ===== *)
(** * UTF-8 sanitizing (src/src/meshtastic_utf8.c)

    The loop of [meshtastic_utf8_sanitize] looks at the string from index [i] on and
    writes only there, so it is a function of that rest: a byte it has passed is
    final. The specification is the byte-range grammar of well-formed UTF-8; the
    code decides by the decoded code point. *)
From S2P Require Import Prelude.
Open Scope Z_scope.

Definition QUESTION : Z := 63.  (* '?' *)

(** The lead byte: length of the sequence, least code point, payload bits. *)
Definition utf8_lead (b : Z) : option (nat * Z * Z) :=
  if Z.land b 224 =? 192 then Some (2%nat, 128, Z.land b 31)
  else if Z.land b 240 =? 224 then Some (3%nat, 2048, Z.land b 15)
  else if Z.land b 248 =? 240 then Some (4%nat, 65536, Z.land b 7)
  else None.

(** The continuation bytes folded into the code point; [None] is [valid = false]. *)
Fixpoint utf8_conts (cp : Z) (l : list Z) : option Z :=
  match l with
  | [] => Some cp
  | c :: l' =>
      if negb (Z.land c 192 =? 128) then None
      else utf8_conts (Z.lor (u32 (Z.shiftl cp 6)) (Z.land c 63)) l'
  end.

Definition utf8_cp_ok (min_cp cp : Z) : bool :=
  negb ((cp <? min_cp) || (1114111 <? cp) || ((55296 <=? cp) && (cp <=? 57343))).

(** The loop, from the current index to [len], with at most [n] iterations. *)
Fixpoint utf8_loop (n : nat) (l : list Z) : list Z * bool :=
  match n, l with
  | O, _ => (l, false)
  | _, [] => ([], false)
  | S n', b :: rest =>
      if b <=? 127 then let '(r, c) := utf8_loop n' rest in (b :: r, c)
      else
        match utf8_lead b with
        | None => let '(r, _) := utf8_loop n' rest in (QUESTION :: r, true)
        | Some (seq, min_cp, cp0) =>
            if (length l <? seq)%nat then (replicate (length l) QUESTION, true)
            else
              let conts := take (seq - 1) rest in
              match utf8_conts cp0 conts with
              | Some cp =>
                  if utf8_cp_ok min_cp cp
                  then let '(r, c) := utf8_loop n' (drop (seq - 1) rest) in (b :: conts ++ r, c)
                  else let '(r, _) := utf8_loop n' rest in (QUESTION :: r, true)
              | None => let '(r, _) := utf8_loop n' rest in (QUESTION :: r, true)
              end
        end
  end.

(** [strlen]: the bytes before the first NUL. *)
Fixpoint c_string (l : list Z) : list Z :=
  match l with
  | [] => []
  | b :: l' => if b =? 0 then [] else b :: c_string l'
  end.

(** The whole function on a buffer of [length buf] bytes; [None] is the NULL
    pointer. The bytes behind the terminator are kept. *)
Definition meshtastic_utf8_sanitize (buf : option (list Z)) : option (list Z) * bool :=
  match buf with
  | None => (None, false)
  | Some [] => (Some [], false)
  | Some l =>
      let last := List.last l 0 in
      let l := removelast l ++ [0] in
      let s := c_string l in
      let '(s', replaced) := utf8_loop (length s) s in
      (Some (s' ++ drop (length s) l), negb (last =? 0) || replaced)
  end.

(** ** Well-formed UTF-8 *)

Definition cont (lo hi c : Z) : Prop := lo <= c <= hi.
Notation tail_byte := (cont 128 191).

Inductive utf8 : list Z -> Prop :=
  | utf8_nil : utf8 []
  | utf8_1 b l : 0 <= b <= 127 -> utf8 l -> utf8 (b :: l)
  | utf8_2 b c l : 194 <= b <= 223 -> tail_byte c -> utf8 l -> utf8 (b :: c :: l)
  | utf8_3 b c d l :
      (b = 224 /\ cont 160 191 c \/ 225 <= b <= 236 /\ tail_byte c \/
       b = 237 /\ cont 128 159 c \/ 238 <= b <= 239 /\ tail_byte c) ->
      tail_byte d -> utf8 l -> utf8 (b :: c :: d :: l)
  | utf8_4 b c d e l :
      (b = 240 /\ cont 144 191 c \/ 241 <= b <= 243 /\ tail_byte c \/ b = 244 /\ cont 128 143 c) ->
      tail_byte d -> tail_byte e -> utf8 l -> utf8 (b :: c :: d :: e :: l).

(** ** Bytes by exhaustion *)

Lemma byte_forall (P : Z -> bool) :
  forallb P (seqZ 0 256) = true -> forall b, byte_ok b -> P b = true.
Proof.
  intros Hall b Hb. rewrite forallb_forall in Hall. apply Hall.
  apply list_elem_of_In, elem_of_seqZ. unfold byte_ok in Hb. lia.
Qed.

Lemma lead_spec b : byte_ok b ->
  utf8_lead b =
    if (192 <=? b) && (b <=? 223) then Some (2%nat, 128, b - 192)
    else if (224 <=? b) && (b <=? 239) then Some (3%nat, 2048, b - 224)
    else if (240 <=? b) && (b <=? 247) then Some (4%nat, 65536, b - 240)
    else None.
Proof.
  intros Hb.
  assert (Hx : bool_decide (utf8_lead b =
    if (192 <=? b) && (b <=? 223) then Some (2%nat, 128, b - 192)
    else if (224 <=? b) && (b <=? 239) then Some (3%nat, 2048, b - 224)
    else if (240 <=? b) && (b <=? 247) then Some (4%nat, 65536, b - 240)
    else None) = true); [|by bools].
  revert b Hb. apply byte_forall. vm_compute. reflexivity.
Qed.

Lemma cont_bits c : byte_ok c ->
  (Z.land c 192 =? 128) = ((128 <=? c) && (c <=? 191)) /\ Z.land c 63 = c `mod` 64.
Proof.
  intros Hc. split.
  - apply eqb_prop. revert c Hc. apply (byte_forall (fun c => Bool.eqb _ _)). vm_compute. reflexivity.
  - change 63 with (Z.ones 6). by apply Z.land_ones.
Qed.

Lemma lor_shift cp d : 0 <= cp < 2 ^ 26 -> 0 <= d < 64 ->
  Z.lor (u32 (Z.shiftl cp 6)) d = cp * 64 + d.
Proof.
  intros Hcp Hd. rewrite Z.shiftl_mul_pow2 by lia. rewrite u32_small by lia.
  rewrite Z.lor_comm. pose proof (Z.add_lor_land d (cp * 2 ^ 6)) as Hsum.
  assert (Hz : Z.land d (cp * 2 ^ 6) = 0); [|lia].
  apply Z.bits_inj'. intros n Hn. rewrite Z.land_spec, Z.bits_0.
  destruct (Z.lt_ge_cases n 6).
  - rewrite Z.mul_pow2_bits_low by lia. apply andb_false_r.
  - rewrite (Z.bits_above_log2 d n); [done | lia|].
    destruct (Z.eq_dec d 0) as [->|]; [simpl; lia|].
    apply Z.log2_lt_pow2; [lia|]. apply Z.lt_le_trans with (2 ^ 6); [lia | apply Z.pow_le_mono_r; lia].
Qed.

Lemma conts_cons cp c l :
  byte_ok c -> 0 <= cp < 2 ^ 26 ->
  utf8_conts cp (c :: l) =
    if (128 <=? c) && (c <=? 191) then utf8_conts (cp * 64 + (c - 128)) l else None.
Proof.
  intros Hc Hcp. cbn [utf8_conts]. destruct (cont_bits c Hc) as [-> ->].
  destruct ((128 <=? c) && (c <=? 191)) eqn:E; [|done]. cbn [negb]. bools.
  assert (Hm : c `mod` 64 = c - 128) by (pose proof (Z.div_mod c 64); pose proof (Z.mod_pos_bound c 64); lia).
  rewrite Hm, lor_shift by lia. done.
Qed.

(** The code accepts a sequence exactly when the grammar does. *)
Definition accepts (b : Z) (rest : list Z) : option nat :=
  match utf8_lead b with
  | None => None
  | Some (seq, min_cp, cp0) =>
      if (length (b :: rest) <? seq)%nat then None
      else match utf8_conts cp0 (take (seq - 1) rest) with
           | Some cp => if utf8_cp_ok min_cp cp then Some (seq - 1)%nat else None
           | None => None
           end
  end.

Ltac conts_tac :=
  repeat match goal with
  | H : Forall byte_ok (_ :: _) |- _ => apply Forall_cons in H as [? H]
  | H : bytes_ok (_ :: _) |- _ => apply Forall_cons in H as [? H]
  end; unfold byte_ok in *.

Lemma accepts_utf8 b rest k tl :
  bytes_ok (b :: rest) -> 128 <= b -> accepts b rest = Some k -> utf8 tl ->
  utf8 (b :: take k rest ++ tl).
Proof.
  intros Hok Hb Hacc Htl. apply Forall_cons in Hok as [Hbb Hrest]. unfold accepts in Hacc.
  rewrite lead_spec in Hacc by done. unfold byte_ok in Hbb.
  destruct ((192 <=? b) && (b <=? 223)) eqn:E2; [|destruct ((224 <=? b) && (b <=? 239)) eqn:E3;
    [|destruct ((240 <=? b) && (b <=? 247)) eqn:E4; [|done]]]; bools.
  - destruct rest as [|c rest]; [done|]. cbn [length Nat.ltb Nat.leb Nat.sub take] in Hacc.
    conts_tac. rewrite conts_cons in Hacc by (unfold byte_ok; lia).
    destruct ((128 <=? c) && (c <=? 191)) eqn:Ec; [|done]. rewrite take_0 in Hacc. cbn [utf8_conts] in Hacc. bools.
    destruct (utf8_cp_ok _ _) eqn:Eok; [|done]. unfold utf8_cp_ok in Eok. bools. simplify_eq. simpl.
    apply utf8_2; unfold cont; [lia | lia | done].
  - destruct rest as [|c [|d rest]]; [done | done|]. cbn [length Nat.ltb Nat.leb Nat.sub take] in Hacc.
    conts_tac. rewrite conts_cons in Hacc by (unfold byte_ok; lia).
    destruct ((128 <=? c) && (c <=? 191)) eqn:Ec; [|done]. bools.
    rewrite conts_cons in Hacc by (unfold byte_ok; lia).
    destruct ((128 <=? d) && (d <=? 191)) eqn:Ed; [|done]. rewrite take_0 in Hacc. cbn [utf8_conts] in Hacc. bools.
    destruct (utf8_cp_ok _ _) eqn:Eok; [|done]. unfold utf8_cp_ok in Eok. bools. simplify_eq. simpl.
    apply utf8_3; unfold cont; [|lia | done].
    match goal with Hx : _ && _ = false |- _ => apply andb_false_iff in Hx as [Hx|Hx] end; bools; lia.
  - destruct rest as [|c [|d [|e rest]]]; [done | done | done|].
    cbn [length Nat.ltb Nat.leb Nat.sub take] in Hacc.
    conts_tac. rewrite conts_cons in Hacc by (unfold byte_ok; lia).
    destruct ((128 <=? c) && (c <=? 191)) eqn:Ec; [|done]. bools.
    rewrite conts_cons in Hacc by (unfold byte_ok; lia).
    destruct ((128 <=? d) && (d <=? 191)) eqn:Ed; [|done]. bools.
    rewrite conts_cons in Hacc by (unfold byte_ok; lia).
    destruct ((128 <=? e) && (e <=? 191)) eqn:Ee; [|done]. rewrite take_0 in Hacc. cbn [utf8_conts] in Hacc. bools.
    destruct (utf8_cp_ok _ _) eqn:Eok; [|done]. unfold utf8_cp_ok in Eok. bools. simplify_eq. simpl.
    apply utf8_4; unfold cont; [lia | lia | lia | done].
Qed.

Lemma utf8_accepts b rest :
  128 <= b -> utf8 (b :: rest) -> exists k, accepts b rest = Some k /\ utf8 (drop k rest).
Proof.
  intros Hb Hu. inversion Hu as [|? ? ? ?|? c l Hl Hc Htl|? c d l Hl Hd Htl|? c d e l Hl Hd He Htl]; subst;
    [lia | exists 1%nat | exists 2%nat | exists 3%nat]; (split; [|done]); unfold accepts, cont in *;
    rewrite lead_spec by (unfold byte_ok; lia).
  - destruct ((192 <=? b) && (b <=? 223)) eqn:E; [|lia]. cbn [length Nat.ltb Nat.leb Nat.sub take].
    rewrite conts_cons by (unfold byte_ok; lia).
    destruct ((128 <=? c) && (c <=? 191)) eqn:E1; [|lia]. rewrite take_0. cbn [utf8_conts].
    destruct (utf8_cp_ok _ _) eqn:Eok; [done|]. unfold utf8_cp_ok in Eok. lia.
  - destruct ((192 <=? b) && (b <=? 223)) eqn:E; [lia|].
    destruct ((224 <=? b) && (b <=? 239)) eqn:E0; [|lia]. cbn [length Nat.ltb Nat.leb Nat.sub take].
    rewrite conts_cons by (unfold byte_ok; lia).
    destruct ((128 <=? c) && (c <=? 191)) eqn:E1; [|lia]. rewrite conts_cons by (unfold byte_ok; lia).
    destruct ((128 <=? d) && (d <=? 191)) eqn:E2; [|lia]. rewrite take_0. cbn [utf8_conts].
    destruct (utf8_cp_ok _ _) eqn:Eok; [done|]. unfold utf8_cp_ok in Eok. lia.
  - destruct ((192 <=? b) && (b <=? 223)) eqn:E; [lia|].
    destruct ((224 <=? b) && (b <=? 239)) eqn:E0; [lia|].
    destruct ((240 <=? b) && (b <=? 247)) eqn:E1; [|lia]. cbn [length Nat.ltb Nat.leb Nat.sub take].
    rewrite conts_cons by (unfold byte_ok; lia).
    destruct ((128 <=? c) && (c <=? 191)) eqn:E2; [|lia]. rewrite conts_cons by (unfold byte_ok; lia).
    destruct ((128 <=? d) && (d <=? 191)) eqn:E3; [|lia]. rewrite conts_cons by (unfold byte_ok; lia).
    destruct ((128 <=? e) && (e <=? 191)) eqn:E4; [|lia]. rewrite take_0. cbn [utf8_conts].
    destruct (utf8_cp_ok _ _) eqn:Eok; [done|]. unfold utf8_cp_ok in Eok. lia.
Qed.

Lemma accepts_length b rest k : accepts b rest = Some k -> (1 <= k <= length rest)%nat.
Proof.
  unfold accepts. destruct (utf8_lead b) as [[[seq mn] cp]|] eqn:E; [|done].
  assert (Hs : (2 <= seq)%nat) by (unfold utf8_lead in E; branches; simplify_eq; lia).
  destruct (_ <? seq)%nat eqn:El; [done|]. apply Nat.ltb_ge in El. simpl in El.
  destruct (utf8_conts _ _); [|done]. destruct (utf8_cp_ok _ _); [|done]. intros [= <-]. lia.
Qed.

(** One iteration, by the outcome for the current byte. *)
Lemma utf8_loop_step n b rest :
  utf8_loop (S n) (b :: rest) =
    if b <=? 127 then (b :: (utf8_loop n rest).1, (utf8_loop n rest).2)
    else match accepts b rest with
         | Some k => (b :: take k rest ++ (utf8_loop n (drop k rest)).1, (utf8_loop n (drop k rest)).2)
         | None =>
             match utf8_lead b with
             | Some (seq, _, _) =>
                 if (length (b :: rest) <? seq)%nat then (replicate (length (b :: rest)) QUESTION, true)
                 else (QUESTION :: (utf8_loop n rest).1, true)
             | None => (QUESTION :: (utf8_loop n rest).1, true)
             end
         end.
Proof.
  unfold accepts. cbn [utf8_loop]. destruct (b <=? 127); [by destruct (utf8_loop n rest)|].
  destruct (utf8_lead b) as [[[seq mn] cp0]|]; [|by destruct (utf8_loop n rest)].
  destruct (_ <? seq)%nat; [done|].
  destruct (utf8_conts _ _) as [cp|]; [|by destruct (utf8_loop n rest)].
  destruct (utf8_cp_ok _ _); [by destruct (utf8_loop n (drop _ _)) | by destruct (utf8_loop n rest)].
Qed.

Lemma utf8_questions n : utf8 (replicate n QUESTION).
Proof. induction n; [constructor|]. apply utf8_1; [unfold QUESTION; lia | done]. Qed.

(** A byte of the output is the input's byte or a question mark. *)
Notation kept_or_replaced := (Forall2 (fun x y => y = x \/ y = QUESTION)).

Lemma kept_refl l : kept_or_replaced l l.
Proof. induction l; constructor; auto. Qed.

Lemma utf8_loop_facts n : forall l, (length l <= n)%nat -> bytes_ok l ->
  utf8 (utf8_loop n l).1 /\ kept_or_replaced l (utf8_loop n l).1 /\
  ((utf8_loop n l).2 = false -> (utf8_loop n l).1 = l).
Proof.
  induction n as [|n IH]; intros [|b rest] Hlen Hok; [split; [constructor | done] | simpl in Hlen; lia |
    split; [constructor | done] |].
  rewrite utf8_loop_step. simpl in Hlen. pose proof Hok as [Hb Hrest]%Forall_cons. unfold byte_ok in Hb.
  destruct (IH rest ltac:(lia) Hrest) as (I1 & I2 & I3).
  destruct (b <=? 127) eqn:E1; bools.
  { cbn [fst snd]. split; [by apply utf8_1; [lia|]|]. split; [constructor; auto|]. intros Hf. by rewrite I3. }
  destruct (accepts b rest) as [k|] eqn:Ea.
  - pose proof (accepts_length _ _ _ Ea). cbn [fst snd].
    assert (Hd : bytes_ok (drop k rest)) by by apply Forall_drop.
    destruct (IH (drop k rest) ltac:(rewrite length_drop; lia) Hd) as (J1 & J2 & J3).
    split; [by apply accepts_utf8; [|lia| |]|]. split.
    + constructor; [by left|]. rewrite <- (take_drop k rest) at 1. apply Forall2_app; [apply kept_refl | done].
    + intros Hf. rewrite J3 by done. by rewrite take_drop.
  - assert (Hq : utf8 (QUESTION :: (utf8_loop n rest).1)) by (apply utf8_1; [unfold QUESTION; lia | done]).
    assert (Hr : forall m, m = length (b :: rest) ->
      kept_or_replaced (b :: rest) (replicate m QUESTION)).
    { intros m ->. clear. induction (b :: rest); constructor; auto. }
    destruct (utf8_lead b) as [[[seq mn] cp0]|]; [destruct (_ <? seq)%nat|]; cbn [fst snd];
      (split; [done || apply utf8_questions|]); (split; [|done]).
    + by apply Hr.
    + constructor; auto.
    + constructor; auto.
Qed.

Lemma utf8_loop_valid n : forall l, (length l <= n)%nat -> utf8 l -> utf8_loop n l = (l, false).
Proof.
  induction n as [|n IH]; intros [|b rest] Hlen Hu; [done | simpl in Hlen; lia | done|].
  rewrite utf8_loop_step. simpl in Hlen. destruct (b <=? 127) eqn:E1; bools.
  - assert (utf8 rest) by (inversion Hu; subst; unfold cont in *; [done | lia..]).
    rewrite IH; [done | lia | done].
  - destruct (utf8_accepts b rest ltac:(lia) Hu) as (k & -> & Hd).
    rewrite IH; [cbn [fst snd]; by rewrite take_drop | rewrite length_drop; lia | done].
Qed.

(** ** The C string in its buffer *)

Lemma c_string_prefix l : l = c_string l ++ drop (length (c_string l)) l.
Proof.
  induction l as [|b l IH]; [done|]. cbn [c_string]. destruct (b =? 0); [done|].
  simpl. by rewrite <- IH.
Qed.

Lemma c_string_nonzero l : Forall (fun b => b <> 0) (c_string l).
Proof.
  induction l as [|b l IH]; [constructor|]. cbn [c_string]. destruct (b =? 0) eqn:E; bools; by constructor.
Qed.

Lemma c_string_app s tl : Forall (fun b => b <> 0) s -> c_string (s ++ 0 :: tl) = s.
Proof.
  induction 1 as [|b s Hb _ IH]; [done|]. cbn [app c_string]. destruct (b =? 0) eqn:E; bools; [done | by rewrite IH].
Qed.

Lemma c_string_terminated l : exists tl, l ++ [0] = c_string (l ++ [0]) ++ 0 :: tl.
Proof.
  induction l as [|b l [tl IH]]; [by exists []|]. cbn [app c_string]. destruct (b =? 0) eqn:E; bools.
  - subst. by exists (l ++ [0]).
  - exists tl. simpl. by rewrite <- IH.
Qed.

Lemma c_string_bytes l : bytes_ok l -> bytes_ok (c_string l).
Proof. intros Hl. rewrite (c_string_prefix l) in Hl. by apply Forall_app in Hl as [? _]. Qed.

(** What sanitizing does to a buffer. *)
Lemma sanitize_facts buf out rep :
  bytes_ok buf -> buf <> [] -> meshtastic_utf8_sanitize (Some buf) = (Some out, rep) ->
  length out = length buf /\ utf8 (c_string out) /\ List.last out 1 = 0 /\
  kept_or_replaced (c_string (removelast buf ++ [0])) (c_string out) /\
  (rep = false <-> List.last buf 0 = 0 /\ utf8 (c_string buf)) /\ (rep = false -> out = buf).
Proof.
  intros Hok Hne. destruct buf as [|b0 l0]; [done|]. unfold meshtastic_utf8_sanitize.
  set (buf := b0 :: l0) in *. pose proof (app_removelast_last 0 Hne) as Hbuf.
  set (l := removelast buf) in *. destruct (c_string_terminated l) as [tl Htl].
  set (s := c_string (l ++ [0])) in *.
  assert (Hlok : bytes_ok (l ++ [0])).
  { rewrite Hbuf in Hok. apply Forall_app in Hok as [Hl _]. apply Forall_app. split; [done|].
    repeat constructor; unfold byte_ok; lia. }
  assert (Hs : bytes_ok s) by by apply c_string_bytes.
  assert (Hdrop : drop (length s) (l ++ [0]) = 0 :: tl) by (rewrite Htl; apply drop_app_length).
  destruct (utf8_loop_facts (length s) s ltac:(lia) Hs) as (Hv & Hk & Hsame).
  pose proof (utf8_loop_valid (length s) s ltac:(lia)) as Hvalid.
  destruct (utf8_loop (length s) s) as [s' c]. cbn [fst snd] in *. rewrite Hdrop. intros [= <- <-].
  assert (Hnz : Forall (fun b => b <> 0) s').
  { pose proof (c_string_nonzero (l ++ [0])) as Hz. fold s in Hz. clear -Hz Hk.
    induction Hk as [|x y sx sy [->| ->] _ IH]; [constructor| |]; apply Forall_cons in Hz as [? Hz];
      constructor; try (unfold QUESTION; lia); auto. }
  assert (Hcs : c_string (s' ++ 0 :: tl) = s') by by apply c_string_app.
  assert (Hlen : length s' = length s) by (by apply Forall2_length in Hk).
  rewrite Hcs. split.
  { rewrite length_app, Hlen, <- length_app, <- Htl. rewrite Hbuf, !length_app. done. }
  split; [done|]. split.
  { assert (Hlast : List.last (l ++ [0]) 1 = 0) by apply last_last. rewrite Htl in Hlast.
    clear -Hlast. revert s' s Hlast. intros s' s. induction tl as [|x tl IH] using rev_ind.
    - rewrite !last_last. done.
    - rewrite (app_comm_cons tl), !app_assoc, !last_last. done. }
  split; [done|]. 
  assert (Hiff : negb (List.last buf 0 =? 0) || c = false <-> List.last buf 0 = 0 /\ utf8 (c_string buf)).
  { rewrite orb_false_iff, negb_false_iff, Z.eqb_eq. split.
    - intros [Hz ->]. split; [done|]. rewrite Hbuf, Hz. fold s. by rewrite <- (Hsame eq_refl).
    - intros [Hz Hu]. split; [done|]. rewrite Hbuf, Hz in Hu. fold s in Hu. specialize (Hvalid Hu). congruence. }
  split; [exact Hiff|]. intros Hf. pose proof (proj1 Hiff Hf) as [Hz _].
  apply orb_false_iff in Hf as [_ ->]. rewrite (Hsame eq_refl), <- Htl, Hbuf, Hz. done.
Qed.

(** C37: Sanitizing a buffer makes it a NUL-terminated string of well-formed UTF-8, in
    place: the length is kept and only bytes of the string that do not belong to
    a well-formed sequence become question marks. It reports no change exactly
    for a buffer that already is such a string, and then leaves it alone. *)
Theorem utf8_sanitize_correct buf out rep :
  bytes_ok buf -> buf <> [] -> meshtastic_utf8_sanitize (Some buf) = (Some out, rep) ->
  length out = length buf /\ utf8 (c_string out) /\ List.last out 1 = 0 /\
  kept_or_replaced (c_string (removelast buf ++ [0])) (c_string out) /\
  (rep = false <-> List.last buf 0 = 0 /\ utf8 (c_string buf)) /\ (rep = false -> out = buf).
Proof. apply sanitize_facts. Qed.

(** A stray continuation byte and a cut sequence: [A \x80 \xE2\x82] in six bytes. *)
Lemma utf8_sanitize_correct_witness :
  utf8 (c_string [65; 63; 63; 63; 0; 0]).
Proof.
  apply (utf8_sanitize_correct [65; 128; 226; 130; 0; 7] [65; 63; 63; 63; 0; 0] true).
  - repeat constructor; unfold byte_ok; lia.
  - congruence.
  - reflexivity.
Defined.
