(* ===== verification/Relay.v ===== *)
(** * Cross-preset text relay, the receiving half (src/src/meshtastic_relay.c)

    Frames another radio heard on a different preset arrive over the BLE peer link;
    broadcast text among them is re-originated here as a new packet with the
    origin's id in front. The state is the module's record (direction, seen cache,
    rate windows, ignore list, counters), the job queue, and the settings record.
    Everything [meshtastic_relay_on_rx] does under [relay_lock] is one function. *)
From S2P Require Import Prelude Sched Packet Utf8.
Open Scope Z_scope.

Class RelayKconfig := {
  SEEN_SIZE : nat;         SEEN_SIZE_range : (4 <= SEEN_SIZE <= 128)%nat;
  SEEN_TTL_SEC : Z;        SEEN_TTL_range : 10 <= SEEN_TTL_SEC <= 3600;
  RATE_MAX : Z;            RATE_MAX_range : 1 <= RATE_MAX <= 255;
  RATE_WINDOW_SEC : Z;     RATE_WINDOW_range : 10 <= RATE_WINDOW_SEC <= 86400;
  PER_ORIGIN_MAX : Z;      PER_ORIGIN_MAX_range : 1 <= PER_ORIGIN_MAX <= 255;
  PER_ORIGIN_WINDOW_SEC : Z; PER_ORIGIN_WINDOW_range : 10 <= PER_ORIGIN_WINDOW_SEC <= 86400;
  ORIGIN_SLOTS : nat;      ORIGIN_SLOTS_range : (2 <= ORIGIN_SLOTS <= 64)%nat;
  LOG_INTERVAL_SEC : Z;    LOG_INTERVAL_range : 1 <= LOG_INTERVAL_SEC <= 3600;
  IGNORE_MAX : nat;        IGNORE_MAX_range : (1 <= IGNORE_MAX <= 16)%nat;
  RELAY_QUEUE_SIZE : nat;  RELAY_QUEUE_range : (1 <= RELAY_QUEUE_SIZE <= 16)%nat;
  INBOUND_AT_BOOT : bool;
}.

Definition default_relay_kconfig : RelayKconfig :=
  {| SEEN_SIZE := 16; SEEN_SIZE_range := ltac:(lia); SEEN_TTL_SEC := 300; SEEN_TTL_range := ltac:(lia);
     RATE_MAX := 10; RATE_MAX_range := ltac:(lia); RATE_WINDOW_SEC := 600; RATE_WINDOW_range := ltac:(lia);
     PER_ORIGIN_MAX := 3; PER_ORIGIN_MAX_range := ltac:(lia); PER_ORIGIN_WINDOW_SEC := 60;
     PER_ORIGIN_WINDOW_range := ltac:(lia); ORIGIN_SLOTS := 8; ORIGIN_SLOTS_range := ltac:(lia);
     LOG_INTERVAL_SEC := 10; LOG_INTERVAL_range := ltac:(lia); IGNORE_MAX := 4;
     IGNORE_MAX_range := ltac:(lia); RELAY_QUEUE_SIZE := 2; RELAY_QUEUE_range := ltac:(lia);
     INBOUND_AT_BOOT := false |}.

Definition RELAY_PREFIX_LEN : Z := 7.
Definition RELAY_REC_VER : Z := 1.
Definition RELAY_REC_HDR_LEN : nat := 3.

(** ** State *)
Inductive relay_dir := RELAY_OFF | RELAY_INBOUND | RELAY_OUTBOUND | RELAY_BOTH.
#[export] Instance relay_dir_eq_dec : EqDecision relay_dir.
Proof. solve_decision. Defined.
Definition dir_code (d : relay_dir) : Z :=
  match d with RELAY_OFF => 0 | RELAY_INBOUND => 1 | RELAY_OUTBOUND => 2 | RELAY_BOTH => 3 end.

Inductive bearer := BEARER_LORA | BEARER_BLE_PEER | BEARER_ATTACHMENT.
#[export] Instance bearer_eq_dec : EqDecision bearer.
Proof. solve_decision. Defined.

Record seen_entry := SeenEntry { se_origin : Z; se_text_hash : Z; se_at_ms : Z }.
Record rate_bucket := RateBucket {
  window_start_ms : Z;
  used : Z;
}.
Definition set_window_start_ms (v : Z) (r : rate_bucket) : rate_bucket :=
RateBucket v (used r).
Definition set_used (v : Z) (r : rate_bucket) : rate_bucket :=
RateBucket (window_start_ms r) v.
Record origin_slot := OriginSlot {
  os_origin : Z;
  os_b : rate_bucket;
}.
Definition set_os_origin (v : Z) (r : origin_slot) : origin_slot :=
OriginSlot v (os_b r).
Definition set_os_b (v : rate_bucket) (r : origin_slot) : origin_slot :=
OriginSlot (os_origin r) v.
Record relay_job := RelayJob { j_channel_index : Z; j_text : list Z }.

(** The fields of [struct meshtastic_relay_stats], each a [uint32_t]. *)
Inductive counter :=
  | CONSIDERED | RELAYED | SENT | TX_FAILED | DIR_OFF | NOT_BROADCAST | NOT_TEXT | REACTION
  | IGNORED | BAD_TEXT | SANITIZED | ORIGIN_LIMITED | LOG_SUPPRESSED | PREFIXED | NO_MAPPING
  | SEEN | RATE_DROPPED | QUEUE_FULL | UNPREFIXED.
#[export] Instance counter_eq_dec : EqDecision counter.
Proof. solve_decision. Defined.
Definition relay_stats := counter -> Z.
Definition inc (c : counter) (st : relay_stats) : relay_stats :=
  fun d => if decide (c = d) then u32 (st d + 1) else st d.

(** [ignore] is the array up to [ignore_count]; [saved] is the stored record, the
    bytes under the key mtrelay/relay. [log_last_ms] and [log_suppressed] are the
    statics of [log_refusal]. *)
Record relay := Relay {
  dir : relay_dir;
  seen : list seen_entry;
  seen_next : nat;
  inbound : rate_bucket;
  origins : list origin_slot;
  ignore : list Z;
  stats : relay_stats;
  relay_q : list relay_job;
  log_last_ms : Z;
  log_suppressed : Z;
  saved : option (list Z);
}.
Definition set_dir (v : relay_dir) (r : relay) : relay :=
Relay v (seen r) (seen_next r) (inbound r) (origins r) (ignore r) (stats r) (relay_q r)
    (log_last_ms r) (log_suppressed r) (saved r).
Definition set_seen (v : list seen_entry) (r : relay) : relay :=
Relay (dir r) v (seen_next r) (inbound r) (origins r) (ignore r) (stats r) (relay_q r)
    (log_last_ms r) (log_suppressed r) (saved r).
Definition set_seen_next (v : nat) (r : relay) : relay :=
Relay (dir r) (seen r) v (inbound r) (origins r) (ignore r) (stats r) (relay_q r)
    (log_last_ms r) (log_suppressed r) (saved r).
Definition set_inbound (v : rate_bucket) (r : relay) : relay :=
Relay (dir r) (seen r) (seen_next r) v (origins r) (ignore r) (stats r) (relay_q r)
    (log_last_ms r) (log_suppressed r) (saved r).
Definition set_origins (v : list origin_slot) (r : relay) : relay :=
Relay (dir r) (seen r) (seen_next r) (inbound r) v (ignore r) (stats r) (relay_q r)
    (log_last_ms r) (log_suppressed r) (saved r).
Definition set_ignore (v : list Z) (r : relay) : relay :=
Relay (dir r) (seen r) (seen_next r) (inbound r) (origins r) v (stats r) (relay_q r)
    (log_last_ms r) (log_suppressed r) (saved r).
Definition set_stats (v : relay_stats) (r : relay) : relay :=
Relay (dir r) (seen r) (seen_next r) (inbound r) (origins r) (ignore r) v (relay_q r)
    (log_last_ms r) (log_suppressed r) (saved r).
Definition set_relay_q (v : list relay_job) (r : relay) : relay :=
Relay (dir r) (seen r) (seen_next r) (inbound r) (origins r) (ignore r) (stats r) v
    (log_last_ms r) (log_suppressed r) (saved r).
Definition set_log_last_ms (v : Z) (r : relay) : relay :=
Relay (dir r) (seen r) (seen_next r) (inbound r) (origins r) (ignore r) (stats r) (relay_q
    r) v (log_suppressed r) (saved r).
Definition set_log_suppressed (v : Z) (r : relay) : relay :=
Relay (dir r) (seen r) (seen_next r) (inbound r) (origins r) (ignore r) (stats r) (relay_q
    r) (log_last_ms r) v (saved r).
Definition set_saved (v : option (list Z)) (r : relay) : relay :=
Relay (dir r) (seen r) (seen_next r) (inbound r) (origins r) (ignore r) (stats r) (relay_q
    r) (log_last_ms r) (log_suppressed r) v.

Definition seen_free : seen_entry := SeenEntry 0 0 0.
Definition bucket_zero : rate_bucket := RateBucket 0 0.
Definition origin_free : origin_slot := OriginSlot 0 bucket_zero.
Definition stats_none : relay_stats := fun _ => 0.
Definition bump (c : counter) (r : relay) : relay := set_stats (inc c (stats r)) r.

Section Relay.
Context {KC : RelayKconfig}.

Definition boot_direction : relay_dir := if INBOUND_AT_BOOT then RELAY_INBOUND else RELAY_OFF.
Definition relay_boot : relay :=
  Relay boot_direction (replicate SEEN_SIZE seen_free) 0 bucket_zero
    (replicate ORIGIN_SLOTS origin_free) [] stats_none [] 0 0 None.

(** ** Pure helpers *)

(** The scan for the closing bracket, from index [i]; [text[i]] is the head. *)
Fixpoint prefix_scan (i : nat) (l : list Z) : bool :=
  match l with
  | [] => false
  | c :: l' =>
      if (9 <? i)%nat then false
      else if c =? 93 then                                     (* ']' *)
        (2 <=? i)%nat && match l' with sp :: _ => sp =? 32 | [] => false end
      else if (c <=? 32) || (126 <? c) then false              (* ' ' and '~' *)
      else prefix_scan (S i) l'
  end.

Definition meshtastic_relay_has_prefix (text : list Z) : bool :=
  match text with
  | c :: l => (4 <=? length text)%nat && (c =? 91) && prefix_scan 1 l   (* '[' *)
  | [] => false
  end.

(** Replacement characters that were not question marks already. *)
Fixpoint count_replaced (out inp : list Z) : Z :=
  match out, inp with
  | o :: out', i :: inp' =>
      (if (o =? 63) && negb (i =? 63) then 1 else 0) + count_replaced out' inp'
  | _, _ => 0
  end.

(** The sanitized text, whether it changed, and whether it is worth sending. *)
Definition text_sanitize (inp : list Z) : list Z * bool * bool :=
  let '(buf, changed) := meshtastic_utf8_sanitize (Some (inp ++ [0])) in
  let out := c_string (default [] buf) in
  let changed := changed || negb (length out =? length inp)%nat in
  let replaced := count_replaced out inp in
  let visible := existsb (fun c => 32 <? c) out in
  (out, changed, visible && (replaced * 4 <=? Z.of_nat (length out))).

Definition fnv1a (s : list Z) : Z :=
  foldl (fun h b => u32 (Z.lxor h b * 16777619)) 2166136261 s.

(** What [map_channel] asks the channel table and the modem. *)
Record channel_view := ChannelView {
  cv_here : list Z;                   (* meshtastic_preset_display_name *)
  cv_is_public_default : Z -> bool;
  cv_get_name : Z -> list Z;
  cv_is_default : Z -> bool;
  cv_is_well_known : Z -> bool;
}.

Definition channel_slots : list Z := seqZ 0 MESHTASTIC_MAX_CHANNELS.

Definition map_channel (cv : channel_view) (src : Z) : Z :=
  if MESHTASTIC_MAX_CHANNELS <=? src then MESHTASTIC_CHANNEL_INDEX_INVALID
  else if cv_is_public_default cv src then
    if bool_decide (cv_get_name cv src = cv_here cv) then MESHTASTIC_CHANNEL_INDEX_INVALID
    else match find_index (cv_is_default cv) channel_slots with
         | Some i => Z.of_nat i
         | None => MESHTASTIC_CHANNEL_INDEX_INVALID
         end
  else if cv_is_well_known cv src then MESHTASTIC_CHANNEL_INDEX_INVALID
  else src.

(** ["[%04x] "] of the origin's low 16 bits. *)
Definition hex_digit (d : Z) : Z := if d <? 10 then 48 + d else 87 + d.
Definition relay_prefix (from : Z) : list Z :=
  let v := Z.land from 65535 in
  [91; hex_digit ((v / 4096) `mod` 16); hex_digit ((v / 256) `mod` 16); hex_digit ((v / 16) `mod` 16);
   hex_digit (v `mod` 16); 93; 32].

(** ** State under the lock *)

Definition nonzero_ms (now : Z) : Z := if now =? 0 then 1 else now.

Definition seen_hit_locked (origin text_hash now : Z) (r : relay) : bool :=
  existsb (fun e => negb (se_at_ms e =? 0) && (se_origin e =? origin) &&
                    (se_text_hash e =? text_hash) && (now - se_at_ms e <? SEEN_TTL_SEC * 1000))
    (seen r).

Definition seen_add_locked (origin text_hash now : Z) (r : relay) : relay :=
  let '(l, h) := ring_push SEEN_SIZE (seen r, seen_next r)
                   (SeenEntry origin text_hash (nonzero_ms now)) in
  set_seen l (set_seen_next h r).

(** A take from a window of [window_ms] and [max]: the bucket after, and the answer. *)
Definition bucket_take (window_ms max now : Z) (b : rate_bucket) : rate_bucket * bool :=
  let b := if (window_start_ms b =? 0) || (window_ms <=? now - window_start_ms b)
           then RateBucket (nonzero_ms now) 0 else b in
  if max <=? used b then (b, false) else (set_used (u16 (used b + 1)) b, true).

Definition rate_take_locked (now : Z) (b : rate_bucket) : rate_bucket * bool :=
  bucket_take (RATE_WINDOW_SEC * 1000) RATE_MAX now b.

(** The slot of an origin, found or the one whose window started longest ago. *)
Fixpoint origin_scan (origin : Z) (i pick : nat) (pick_at : Z) (l : list origin_slot) : nat * bool :=
  match l with
  | [] => (pick, false)
  | s :: l' =>
      let ws := window_start_ms (os_b s) in
      if (os_origin s =? origin) && negb (ws =? 0) then (i, true)
      else if ws <? pick_at then origin_scan origin (S i) i ws l'
      else origin_scan origin (S i) pick pick_at l'
  end.

Definition origin_take_locked (origin now : Z) (l : list origin_slot) : list origin_slot * bool :=
  let at0 := match l with s :: _ => window_start_ms (os_b s) | [] => 0 end in
  let '(pick, found) := origin_scan origin 0 0 at0 l in
  match l !! pick with
  | None => (l, false)
  | Some s =>
      let s := if found : bool then s
               else OriginSlot origin (set_window_start_ms 0 (os_b s)) in
      let '(b, ok) := bucket_take (PER_ORIGIN_WINDOW_SEC * 1000) PER_ORIGIN_MAX now (os_b s) in
      (<[pick := set_os_b b s]> l, ok)
  end.

Definition origin_give_back_locked (origin : Z) (l : list origin_slot) : list origin_slot :=
  match find_index (fun s => (os_origin s =? origin) && (0 <? used (os_b s))) l with
  | Some i => alter (fun s => set_os_b (set_used (used (os_b s) - 1) (os_b s)) s) i l
  | None => l
  end.

Definition ignored_locked (node_id from : Z) (r : relay) : bool :=
  (from =? node_id) || existsb (Z.eqb from) (ignore r).

(** ** Receiving *)

Record relay_env := RelayEnv { ry_now : Z; ry_node_id : Z; ry_channels : channel_view }.

(** Why a refusal is logged. *)
Inductive refusal := BadText | RelayPrefix | PerOriginLimit | DirectionCap | SendQueueFull.

Inductive rx_outcome :=
  | NotConsidered                       (* before the lock *)
  | Dropped (c : counter)               (* counted, silent *)
  | Refused (c : counter) (why : refusal)
  | Accepted (job : relay_job).         (* queued; the work item is submitted *)

(** The job for an admitted text. *)
Definition make_job (dest from : Z) (text : list Z) : relay_job * bool :=
  if Z.of_nat (length text) + RELAY_PREFIX_LEN <=? MESHTASTIC_MAX_TEXT_LEN
  then (RelayJob dest (relay_prefix from ++ text), true) else (RelayJob dest text, false).

(** The checks that do not change the state, in their order: the counter of the
    first one that fails, or the text, whether sanitizing changed it, and where it
    goes. *)
Definition rx_checks (e : relay_env) (pkt : packet) (mesh : option mesh_packet) (r : relay)
    : (counter * option refusal) + (list Z * bool * Z) :=
  if negb (bool_decide (dir r = RELAY_INBOUND)) && negb (bool_decide (dir r = RELAY_BOTH))
  then inl (DIR_OFF, None)
  else if negb (p_to pkt =? MESHTASTIC_NODE_BROADCAST) || p_pki_encrypted pkt
  then inl (NOT_BROADCAST, None)
  else if negb (p_portnum pkt =? MESHTASTIC_PORT_TEXT_MESSAGE) then inl (NOT_TEXT, None)
  else if match mesh with
          | Some m => match m_variant m with
                      | VARIANT_DECODED => negb (d_emoji (m_decoded m) =? 0)
                      | _ => false
                      end
          | None => false
          end then inl (REACTION, None)
  else if ignored_locked (ry_node_id e) (p_from pkt) r then inl (IGNORED, None)
  else
    let payload := payload_bytes pkt in
    if (length payload =? 0)%nat || (MESHTASTIC_MAX_TEXT_LEN <? Z.of_nat (length payload))
    then inl (BAD_TEXT, Some BadText)
    else
      let '(text, changed, good) := text_sanitize payload in
      if negb good then inl (BAD_TEXT, Some BadText)
      else if meshtastic_relay_has_prefix text then inl (PREFIXED, Some RelayPrefix)
      else
        let dest := map_channel (ry_channels e) (p_channel_index pkt) in
        if dest =? MESHTASTIC_CHANNEL_INDEX_INVALID then inl (NO_MAPPING, None)
        else inr (text, changed, dest).

Definition relay_rx (e : relay_env) (pkt : packet) (mesh : option mesh_packet) (r : relay)
    : relay * rx_outcome :=
  let now := ry_now e in
  let r := bump CONSIDERED r in
  let drop c r := (bump c r, Dropped c) in
  let refuse c why r := (bump c r, Refused c why) in
  match rx_checks e pkt mesh r with
  | inl (c, None) => drop c r
  | inl (c, Some why) => refuse c why r
  | inr (text, changed, dest) =>
      let from := p_from pkt in
      let text_hash := fnv1a text in
      if seen_hit_locked from text_hash now r then drop SEEN r
      else
        let '(os, ok) := origin_take_locked from now (origins r) in
        let r := set_origins os r in
        if negb ok then refuse ORIGIN_LIMITED PerOriginLimit r
        else
          let '(b, ok) := rate_take_locked now (inbound r) in
          let r := set_inbound b r in
          if negb ok then refuse RATE_DROPPED DirectionCap r
          else
            let '(job, prefixed) := make_job dest from text in
            let r := if prefixed : bool then r else bump UNPREFIXED r in
            if (RELAY_QUEUE_SIZE <=? length (relay_q r))%nat then
              let r := set_origins (origin_give_back_locked from (origins r)) r in
              let r := if 0 <? used (inbound r)
                       then set_inbound (set_used (used (inbound r) - 1) (inbound r)) r else r in
              refuse QUEUE_FULL SendQueueFull r
            else
              let r := set_relay_q (relay_q r ++ [job]) r in
              let r := bump RELAYED (seen_add_locked from text_hash now r) in
              (if changed then bump SANITIZED r else r, Accepted job)
  end.

(** The limited refusal log: the state after, and whether a line is written. *)
Definition log_refusal (now : Z) (r : relay) : relay * bool :=
  if negb (log_last_ms r =? 0) && (now - log_last_ms r <? LOG_INTERVAL_SEC * 1000)
  then (bump LOG_SUPPRESSED (set_log_suppressed (u32 (log_suppressed r + 1)) r), false)
  else (set_log_last_ms (nonzero_ms now) (set_log_suppressed 0 r), true).

Definition meshtastic_relay_on_rx (e : relay_env) (pkt : option packet) (mesh : option mesh_packet)
    (b : bearer) (r : relay) : relay * rx_outcome :=
  match pkt with
  | None => (r, NotConsidered)
  | Some p =>
      if negb (bool_decide (b = BEARER_BLE_PEER)) then (r, NotConsidered)
      else match relay_rx e p mesh r with
           | (r', Refused c why) => ((log_refusal (ry_now e) r').1, Refused c why)
           | out => out
           end
  end.

(** ** Sending: one pass of the work item, with what each send returned *)
Definition job_packet (job : relay_job) : packet :=
  set_p_to MESHTASTIC_NODE_BROADCAST (set_p_portnum MESHTASTIC_PORT_TEXT_MESSAGE
    (set_p_payload (Some (j_text job)) (set_p_channel_index (j_channel_index job) packet_zero))).

Fixpoint relay_work_fn (send : packet -> cret) (jobs : list relay_job) (r : relay)
    : relay * list packet :=
  match jobs with
  | [] => (r, [])
  | job :: jobs' =>
      let r := set_relay_q jobs' r in
      let r := bump (if bool_decide (send (job_packet job) = OK) then SENT else TX_FAILED) r in
      let '(r, sent) := relay_work_fn send jobs' r in (r, job_packet job :: sent)
  end.

(** ** The settings record *)

Definition relay_record (r : relay) : list Z :=
  [RELAY_REC_VER; dir_code (dir r); Z.of_nat (length (ignore r))] ++ concat (put_le32 <$> ignore r).

Definition relay_save (r : relay) : relay := set_saved (Some (relay_record r)) r.

(** The ids in the record's array, [n] of them. *)
Fixpoint rec_ids (n : nat) (l : list Z) : list Z :=
  match n with
  | O => []
  | S n' => get_le32 0 l :: rec_ids n' (drop 4 l)
  end.

(** [rec_len] is the length settings reports; the read callback returned [rec]. *)
Definition relay_settings_set (key : string) (rec_len : nat) (rec : list Z) (r : relay) : relay * cret :=
  let ver := default 0 (rec !! 0%nat) in
  let d := default 0 (rec !! 1%nat) in
  let n := Z.to_nat (default 0 (rec !! 2%nat)) in
  if negb (String.eqb key "relay") then (r, ERR ENOENT)
  else if (rec_len <? RELAY_REC_HDR_LEN)%nat || (RELAY_REC_HDR_LEN + 4 * IGNORE_MAX <? rec_len)%nat ||
          negb (length rec =? rec_len)%nat || negb (ver =? RELAY_REC_VER) ||
          (IGNORE_MAX <? n)%nat || negb (rec_len =? RELAY_REC_HDR_LEN + 4 * n)%nat
  then (r, ERR EINVAL)
  else if negb (d =? dir_code RELAY_OFF) && negb (d =? dir_code RELAY_INBOUND) then (r, ERR EINVAL)
  else (set_dir (if d =? dir_code RELAY_OFF then RELAY_OFF else RELAY_INBOUND)
          (set_ignore (rec_ids n (drop RELAY_REC_HDR_LEN rec)) r), OK).

Definition relay_intent_is_set (r : relay) : bool :=
  negb (bool_decide (dir r = RELAY_OFF)) || negb (length (ignore r) =? 0)%nat.

Definition relay_intent_clear (r : relay) : relay :=
  set_saved None (set_dir RELAY_OFF (set_ignore [] r)).

(** ** Control *)

Definition meshtastic_relay_set_direction (d : relay_dir) (r : relay) : relay * cret :=
  match d with
  | RELAY_OUTBOUND | RELAY_BOTH => (r, ERR ENOTSUP)
  | _ => (relay_save (set_dir d r), OK)
  end.

Definition meshtastic_relay_get_direction (r : relay) : relay_dir := dir r.

Definition meshtastic_relay_ignore_add (node_id : Z) (r : relay) : relay * cret :=
  if existsb (Z.eqb node_id) (ignore r) then (r, OK)
  else if (IGNORE_MAX <=? length (ignore r))%nat then (r, ERR ENOMEM)
  else (relay_save (set_ignore (ignore r ++ [node_id]) r), OK).

Definition meshtastic_relay_ignore_clear (r : relay) : relay := relay_save (set_ignore [] r).

Definition meshtastic_relay_reset (r : relay) : relay :=
  Relay boot_direction (replicate SEEN_SIZE seen_free) 0 bucket_zero
    (replicate ORIGIN_SLOTS origin_free) [] stats_none [] (log_last_ms r) (log_suppressed r) None.

(** ** The text that goes out *)

Lemma hex_digit_range d : 0 <= d < 16 -> 48 <= hex_digit d <= 102 /\ hex_digit d <> 93.
Proof. unfold hex_digit. intros. destruct (d <? 10) eqn:E; bools; lia. Qed.

Lemma relay_prefix_digits from :
  exists a b c d, relay_prefix from = [91; a; b; c; d; 93; 32] /\
    Forall (fun x => 48 <= x <= 102 /\ x <> 93) [a; b; c; d].
Proof.
  unfold relay_prefix.
  pose proof (fun z => hex_digit_range (z `mod` 16) (Z.mod_pos_bound z 16 ltac:(lia))) as Hh.
  eexists _, _, _, _. split; [reflexivity|].
  do 4 (apply Forall_cons_2; [apply Hh|]). apply Forall_nil_2.
Qed.

Lemma prefixed_has_prefix from text : meshtastic_relay_has_prefix (relay_prefix from ++ text) = true.
Proof.
  destruct (relay_prefix_digits from) as (a & b & c & d & -> & Hd).
  repeat (apply Forall_cons in Hd as [[? ?] Hd]).
  unfold meshtastic_relay_has_prefix. cbn [app length Nat.leb]. cbn [prefix_scan].
  repeat match goal with
  | |- context [?x =? 93] => destruct (x =? 93) eqn:?; bools; [lia|]
  | |- context [(?x <=? 32) || (126 <? ?x)] =>
      replace ((x <=? 32) || (126 <? x)) with false by (symmetry; apply orb_false_iff; lia)
  end.
  reflexivity.
Qed.

Lemma prefixed_utf8 from text :
  utf8 text -> Forall (fun b => b <> 0) text -> bytes_ok text ->
  let s := relay_prefix from ++ text in
  utf8 s /\ Forall (fun b => b <> 0) s /\ bytes_ok s.
Proof.
  intros Hu Hn Hb. destruct (relay_prefix_digits from) as (a & b & c & d & E & Hd). cbv zeta. rewrite E.
  repeat (apply Forall_cons in Hd as [[? ?] Hd]).
  simpl. split; [|split].
  - do 7 (apply utf8_1; [lia|]). done.
  - do 7 (constructor; [lia|]). done.
  - do 7 (constructor; [unfold byte_ok; lia|]). done.
Qed.

Lemma sanitized_text inp text changed good :
  bytes_ok inp -> text_sanitize inp = (text, changed, good) ->
  utf8 text /\ Forall (fun b => b <> 0) text /\ bytes_ok text /\
  (utf8 inp -> Forall (fun b => b <> 0) inp -> text = inp).
Proof.
  intros Hok. unfold text_sanitize.
  destruct (meshtastic_utf8_sanitize (Some (inp ++ [0]))) as [buf rep] eqn:E.
  assert (Hb : exists out, buf = Some out).
  { unfold meshtastic_utf8_sanitize in E. destruct inp as [|x inp]; [injection E as <- _; eauto|].
    cbn [app] in E. cbv zeta in E. destruct (utf8_loop _ _). injection E as <- _. eauto. }
  destruct Hb as [out ->]. intros [= <- _ _].
  assert (Hok' : bytes_ok (inp ++ [0])).
  { apply Forall_app. split; [done|]. repeat constructor; unfold byte_ok; lia. }
  assert (Hne : inp ++ [0] <> []) by by destruct inp.
  destruct (sanitize_facts _ _ _ Hok' Hne E) as (_ & Hu & _ & Hk & Hiff & Hsame).
  rewrite removelast_last in Hk. cbn [default]. split; [done|]. split; [apply c_string_nonzero|]. split.
  - pose proof (c_string_bytes _ Hok') as Hcb. unfold bytes_ok in *. clear -Hk Hcb.
    induction Hk as [|x y l k [->| ->] _ IH]; [constructor | |]; apply Forall_cons in Hcb as [? Hcb];
      constructor; auto. unfold byte_ok, QUESTION. lia.
  - intros Hui Hni. assert (Ec : c_string (inp ++ [0]) = inp) by by apply c_string_app.
    rewrite Hsame; [done|]. apply Hiff. rewrite Ec, last_last. done.
Qed.

(** What an accepted packet passed, and what it left. *)
Lemma rx_accepted e pkt mesh r r' job :
  relay_rx e pkt mesh r = (r', Accepted job) ->
  exists text changed dest, rx_checks e pkt mesh (bump CONSIDERED r) = inr (text, changed, dest) /\
    job = (make_job dest (p_from pkt) text).1 /\
    seen_hit_locked (p_from pkt) (fnv1a text) (ry_now e) r = false /\
    (seen r', seen_next r') = ring_push SEEN_SIZE (seen r, seen_next r)
       (SeenEntry (p_from pkt) (fnv1a text) (nonzero_ms (ry_now e))).
Proof.
  unfold relay_rx. destruct (rx_checks _ _ _ _) as [[c [why|]]|[[text changed] dest]]; [done | done|].
  change (seen_hit_locked _ _ _ (bump CONSIDERED r)) with
    (seen_hit_locked (p_from pkt) (fnv1a text) (ry_now e) r).
  destruct (seen_hit_locked _ _ _ r) eqn:Es; [done|].
  destruct (origin_take_locked _ _ _) as [os [|]]; [|done]. cbn [negb].
  destruct (rate_take_locked _ _) as [b [|]]; [|done]. cbn [negb].
  destruct (make_job _ _ _) as [jb pre] eqn:Ej.
  destruct (_ <=? _)%nat; [done|]. intros Heq. exists text, changed, dest. split; [done|].
  assert (Hj : job = jb) by (destruct changed; congruence). rewrite Ej. split; [done|]. split; [done|].
  destruct changed, pre; injection Heq as <- _; done.
Qed.

Lemma checks_text e pkt mesh r text changed dest :
  rx_checks e pkt mesh r = inr (text, changed, dest) ->
  exists good, text_sanitize (payload_bytes pkt) = (text, changed, good) /\ good = true /\
    meshtastic_relay_has_prefix text = false /\ dest = map_channel (ry_channels e) (p_channel_index pkt).
Proof.
  unfold rx_checks.
  destruct (negb _ && negb _); [done|]. destruct (negb _ || _); [done|]. destruct (negb _); [done|].
  destruct (match mesh with Some _ => _ | None => _ end); [done|]. destruct (ignored_locked _ _ _); [done|].
  destruct (_ || _); [done|]. destruct (text_sanitize _) as [[t c] g]. destruct g; [|done]. cbn [negb].
  destruct (meshtastic_relay_has_prefix t) eqn:Ep; [done|]. destruct (_ =? _); [done|].
  intros [= <- <- <-]. exists true. done.
Qed.

Lemma on_rx_accepted e pkt mesh b r r' job :
  meshtastic_relay_on_rx e pkt mesh b r = (r', Accepted job) ->
  exists p, pkt = Some p /\ b = BEARER_BLE_PEER /\ relay_rx e p mesh r = (r', Accepted job).
Proof.
  unfold meshtastic_relay_on_rx. destruct pkt as [p|]; [|done].
  destruct (bool_decide (b = BEARER_BLE_PEER)) eqn:Eb; [|done]. bools. cbn [negb].
  destruct (relay_rx e p mesh r) as [r1 o] eqn:E. intros Ho. exists p. split; [done|]. split; [done|].
  by destruct o; simplify_eq.
Qed.

(** ** Runs of received packets *)

Record rx_event := RxEvent {
  ev_env : relay_env; ev_pkt : option packet; ev_mesh : option mesh_packet; ev_bearer : bearer }.

Definition rx_one (ev : rx_event) (r : relay) : relay * rx_outcome :=
  meshtastic_relay_on_rx (ev_env ev) (ev_pkt ev) (ev_mesh ev) (ev_bearer ev) r.

Fixpoint rx_run (evs : list rx_event) (r : relay) : relay * list rx_outcome :=
  match evs with
  | [] => (r, [])
  | ev :: evs' =>
      let '(r1, o) := rx_one ev r in
      let '(r2, os) := rx_run evs' r1 in (r2, o :: os)
  end.

Definition is_accepted (o : rx_outcome) : bool := match o with Accepted _ => true | _ => false end.
Definition accepted (os : list rx_outcome) : Z := sum_with (fun o => if is_accepted o then 1 else 0) os.

(** ** Rate windows *)

Definition bucket_ok (max : Z) (b : rate_bucket) : Prop := 0 <= used b <= max.

(** What one packet does to the direction's window: nothing, a take that is
    refused or given back, or a take that is kept by an accepted text. *)
Lemma rx_inbound ev r r' o :
  rx_one ev r = (r', o) ->
  (inbound r' = inbound r /\ is_accepted o = false) \/
  exists b ok, rate_take_locked (ry_now (ev_env ev)) (inbound r) = (b, ok) /\
    ((ok = false /\ inbound r' = b /\ is_accepted o = false) \/
     (ok = true /\ is_accepted o = false /\
      inbound r' = if 0 <? used b then set_used (used b - 1) b else b) \/
     (ok = true /\ is_accepted o = true /\ inbound r' = b)).
Proof.
  unfold rx_one, meshtastic_relay_on_rx. destruct (ev_pkt ev) as [p|]; [|intros [= <- <-]; by left].
  destruct (negb _); [intros [= <- <-]; by left|].
  assert (Hlog : forall now x, inbound (log_refusal now x).1 = inbound x).
  { intros now x. unfold log_refusal. by destruct (_ && _). }
  unfold relay_rx.
  destruct (rx_checks _ _ _ _) as [[c [why|]]|[[text changed] dest]];
    [intros [= <- <-]; left; by rewrite Hlog | intros [= <- <-]; by left|].
  destruct (seen_hit_locked _ _ _ _); [intros [= <- <-]; by left|].
  destruct (origin_take_locked _ _ _) as [os [|]]; cbn [negb];
    [|intros [= <- <-]; left; by rewrite Hlog].
  cbn [inbound set_origins bump set_stats].
  destruct (rate_take_locked _ _) as [b [|]] eqn:Et; cbn [negb].
  2:{ intros [= <- <-]. right. exists b, false. split; [done|]. left. rewrite Hlog. done. }
  destruct (make_job _ _ _) as [jb pre].
  destruct (_ <=? _)%nat eqn:Eq.
  - intros [= <- <-]. right. exists b, true. split; [done|]. right. left. rewrite Hlog.
    split; [done|]. split; [done|]. destruct pre; cbn [inbound bump set_stats set_inbound set_origins]; by destruct (0 <? used b).
  - intros Heq. right. exists b, true. split; [done|]. right. right.
    destruct changed, pre; injection Heq as <- <-; done.
Qed.

(** The window has not been restarted since [T], or it has. *)
Definition budget (T max : Z) (b : rate_bucket) : Z :=
  if negb (window_start_ms b =? 0) && (T <=? window_start_ms b) then max - used b else 2 * max - used b.

Lemma bucket_take_budget T W max now b b' ok :
  1 <= max <= 255 -> 0 < W -> 0 <= T <= now -> now < T + W -> bucket_ok max b ->
  bucket_take W max now b = (b', ok) ->
  bucket_ok max b' /\ (ok = true -> 1 <= used b') /\
  (if ok then 1 else 0) + budget T max b' <= budget T max b.
Proof.
  unfold bucket_take, bucket_ok, budget, nonzero_ms. intros Hm HW HT Hnow Hb.
  destruct (window_start_ms b =? 0) eqn:E0; bools.
  - cbn [orb negb andb]. simpl. destruct (max <=? 0) eqn:Em; bools; [lia|]. intros [= <- <-]. simpl.
    destruct (now =? 0) eqn:En; bools; simpl; (rewrite u16_small by lia);
      repeat match goal with |- context [?x =? 0] => destruct (x =? 0) eqn:? end; simpl;
      repeat match goal with |- context [T <=? ?x] => destruct (T <=? x) eqn:? end; bools; lia.
  - cbn [orb]. destruct (W <=? now - window_start_ms b) eqn:EW; bools.
    + simpl. destruct (max <=? 0) eqn:Em; bools; [lia|]. intros [= <- <-]. simpl.
      assert (Hold : T <=? window_start_ms b = false) by lia. rewrite Hold.
      destruct (now =? 0) eqn:En; bools; simpl; (rewrite u16_small by lia);
      repeat match goal with |- context [?x =? 0] => destruct (x =? 0) eqn:? end; simpl;
      repeat match goal with |- context [T <=? ?x] => destruct (T <=? x) eqn:? end; bools; lia.
    + destruct (max <=? used b) eqn:Em; bools; intros [= <- <-]; simpl.
      * split; [lia|]. split; [done|].
        rewrite (proj2 (Z.eqb_neq _ _) E0). simpl. destruct (T <=? _); lia.
      * rewrite u16_small by lia. rewrite (proj2 (Z.eqb_neq _ _) E0). simpl. destruct (T <=? _); lia.
Qed.

Lemma budget_give_back T max b :
  1 <= used b <= max -> budget T max (set_used (used b - 1) b) = budget T max b + 1 /\
  bucket_ok max (set_used (used b - 1) b).
Proof. unfold budget, bucket_ok. simpl. intros. destruct (_ && _); lia. Qed.

Lemma rx_budget T ev r r' o :
  0 <= T <= ry_now (ev_env ev) -> ry_now (ev_env ev) < T + RATE_WINDOW_SEC * 1000 ->
  bucket_ok RATE_MAX (inbound r) -> rx_one ev r = (r', o) ->
  bucket_ok RATE_MAX (inbound r') /\
  (if is_accepted o then 1 else 0) + budget T RATE_MAX (inbound r') <= budget T RATE_MAX (inbound r).
Proof.
  intros HT Hnow Hb Hrx. pose proof RATE_MAX_range. pose proof RATE_WINDOW_range.
  destruct (rx_inbound ev r r' o Hrx) as [[-> ->]|(b & ok & Ht & Hcase)]; [split; [done | simpl; lia]|].
  destruct (bucket_take_budget T (RATE_WINDOW_SEC * 1000) RATE_MAX _ _ _ _ ltac:(lia) ltac:(lia) HT Hnow Hb Ht) as (Hok & Hone & Hbud).
  destruct Hcase as [(-> & -> & ->)|[(-> & -> & ->)|(-> & -> & ->)]]; [split; [done | simpl in *; lia] | | split; [done | simpl in *; lia]].
  specialize (Hone eq_refl). unfold bucket_ok in Hok. destruct (0 <? used b) eqn:E; bools; [|lia].
  assert (Hu : 1 <= used b <= RATE_MAX) by lia.
  destruct (budget_give_back T RATE_MAX b Hu) as [Eb ?]. split; [done|]. simpl in *. lia.
Qed.

Lemma rx_run_budget T evs : forall r r' os,
  0 <= T -> Forall (fun ev => T <= ry_now (ev_env ev) < T + RATE_WINDOW_SEC * 1000) evs ->
  bucket_ok RATE_MAX (inbound r) -> rx_run evs r = (r', os) ->
  accepted os <= budget T RATE_MAX (inbound r) - budget T RATE_MAX (inbound r') /\
  bucket_ok RATE_MAX (inbound r').
Proof.
  unfold accepted. induction evs as [|ev evs IH]; intros r r' os HT Hev Hb; cbn [rx_run].
  { intros [= <- <-]. simpl. split; [lia | done]. }
  apply Forall_cons in Hev as [Hnow Hev]. destruct (rx_one ev r) as [r1 o] eqn:E1.
  destruct (rx_run evs r1) as [r2 os2] eqn:E2. intros [= <- <-].
  destruct (rx_budget T ev r r1 o ltac:(lia) ltac:(lia) Hb E1) as [Hb1 Hbud].
  destruct (IH r1 r2 os2 HT Hev Hb1 E2) as [Hacc Hb2]. rewrite sum_with_cons. split; [lia | done].
Qed.

(** ** The seen cache *)

Lemma rx_seen ev r r' o :
  rx_one ev r = (r', o) ->
  (is_accepted o = false /\ seen r' = seen r /\ seen_next r' = seen_next r) \/
  (is_accepted o = true /\
   exists x, (seen r', seen_next r') = ring_push SEEN_SIZE (seen r, seen_next r) x).
Proof.
  unfold rx_one. destruct (meshtastic_relay_on_rx _ _ _ _ r) as [r1 o1] eqn:E. intros [= <- <-].
  destruct o1 as [|c|c why|job]; [left|left|left|right].
  4:{ split; [done|]. apply on_rx_accepted in E as (p & _ & _ & Hrx).
      apply rx_accepted in Hrx as (t & ch & d & _ & _ & _ & Hs). eauto. }
  all: split; [done|]; revert E; unfold meshtastic_relay_on_rx; destruct (ev_pkt ev) as [p|];
    [|by intros [= <-]]; destruct (negb _); [by intros [= <-]|].
  all: assert (Hlog : forall now x, seen (log_refusal now x).1 = seen x /\
                        seen_next (log_refusal now x).1 = seen_next x)
         by (intros now x; unfold log_refusal; by destruct (_ && _)).
  all: unfold relay_rx; destruct (rx_checks _ _ _ _) as [[c' [why'|]]|[[text changed] dest]];
    try (intros [= <- ?]; by rewrite ?(proj1 (Hlog _ _)), ?(proj2 (Hlog _ _))); try done.
  all: destruct (seen_hit_locked _ _ _ _); [try done; by intros [= <-]|].
  all: destruct (origin_take_locked _ _ _) as [os [|]]; cbn [negb];
    [|try done; intros [= <- ?]; by rewrite ?(proj1 (Hlog _ _)), ?(proj2 (Hlog _ _))].
  all: destruct (rate_take_locked _ _) as [b [|]]; cbn [negb];
    [|try done; intros [= <- ?]; by rewrite ?(proj1 (Hlog _ _)), ?(proj2 (Hlog _ _))].
  all: destruct (make_job _ _ _) as [jb pre]; destruct (_ <=? _)%nat; [|destruct changed; done].
  all: try done; intros [= <- ?]; rewrite ?(proj1 (Hlog _ _)), ?(proj2 (Hlog _ _)).
  all: destruct pre; cbn [bump set_stats set_origins inbound set_inbound];
    destruct (0 <? used b); done.
Qed.

(** The cache has its size and its cursor is in range. *)
Definition seen_wf (r : relay) : Prop := length (seen r) = SEEN_SIZE /\ (seen_next r < SEEN_SIZE)%nat.

Lemma ring_push_wf {A} size (l l' : list A) h h' x :
  (0 < size)%nat -> length l = size -> (l', h') = ring_push size (l, h) x ->
  length l' = size /\ (h' < size)%nat.
Proof.
  intros Hs Hl [= -> ->]. rewrite length_insert. split; [done|]. apply Nat.mod_upper_bound. lia.
Qed.

(** A slot written [d] pushes ago is overwritten by the push number [size]. *)
Lemma ring_push_keeps {A} size (l l' : list A) s h h' d x y :
  (s < size)%nat -> (1 <= d < size)%nat -> h = ((s + d) `mod` size)%nat -> l !! s = Some y ->
  (l', h') = ring_push size (l, h) x ->
  l' !! s = Some y /\ h' = ((s + S d) `mod` size)%nat.
Proof.
  intros Hs Hd -> Hy [= -> ->]. split.
  - rewrite list_lookup_insert_ne; [done|]. intros E.
    destruct (decide (s + d < size)%nat).
    + rewrite Nat.mod_small in E by lia. lia.
    + replace (s + d)%nat with (s + d - size + 1 * size)%nat in E by lia.
      rewrite Nat.Div0.mod_add, Nat.mod_small in E by lia. lia.
  - rewrite Nat.Div0.add_mod_idemp_l. f_equal. lia.
Qed.

Lemma rx_run_keeps evs : forall r r' os s d x,
  (s < SEEN_SIZE)%nat -> (1 <= d)%nat -> seen_next r = ((s + d) `mod` SEEN_SIZE)%nat ->
  seen r !! s = Some x -> rx_run evs r = (r', os) ->
  Z.of_nat d + accepted os <= Z.of_nat SEEN_SIZE -> seen r' !! s = Some x.
Proof.
  unfold accepted. induction evs as [|ev evs IH]; intros r r' os s d x Hs Hd Hn Hx; cbn [rx_run].
  { by intros [= <- <-]. }
  destruct (rx_one ev r) as [r1 o] eqn:E1. destruct (rx_run evs r1) as [r2 os2] eqn:E2.
  intros [= <- <-]. rewrite sum_with_cons.
  assert (0 <= sum_with (fun o => if is_accepted o then 1 else 0) os2).
  { apply sum_with_nonneg. intros o' _. destruct (is_accepted o'); lia. }
  destruct (rx_seen ev r r1 o E1) as [(-> & Hs1 & Hn1)|(-> & y & Hp)]; intros Hle.
  - apply (IH r1 r2 os2 s d x Hs Hd); [congruence | congruence | done | lia].
  - destruct (ring_push_keeps SEEN_SIZE (seen r) (seen r1) s (seen_next r) (seen_next r1) d y x
                Hs ltac:(lia) Hn Hx Hp) as [Hx1 Hn1].
    apply (IH r1 r2 os2 s (S d) x Hs); [lia | done | done | done | lia].
Qed.

(** ** The settings record *)

Lemma rec_ids_put l : Forall in_u32 l -> rec_ids (length l) (concat (put_le32 <$> l)) = l.
Proof.
  induction 1 as [|z l Hz _ IH]; [done|]. rewrite fmap_cons. cbn [concat length rec_ids].
  unfold in_u32, UINT32_MAX in Hz. rewrite get_le_app_here by lia.
  rewrite drop_app_length' by (symmetry; apply length_le_put). by rewrite IH.
Qed.

Lemma record_length r : length (relay_record r) = (RELAY_REC_HDR_LEN + 4 * length (ignore r))%nat.
Proof.
  unfold relay_record, RELAY_REC_HDR_LEN. rewrite length_app. simpl. f_equal. f_equal. f_equal.
  induction (ignore r) as [|z l IH]; [done|]. rewrite fmap_cons. cbn [concat].
  rewrite length_app, length_le_put, IH. simpl. lia.
Qed.

Lemma settings_load r r0 :
  dir r = RELAY_OFF \/ dir r = RELAY_INBOUND -> (length (ignore r) <= IGNORE_MAX)%nat ->
  Forall in_u32 (ignore r) ->
  relay_settings_set "relay" (length (relay_record r)) (relay_record r) r0 =
  (set_dir (dir r) (set_ignore (ignore r) r0), OK).
Proof.
  intros Hd Hn Hids. unfold relay_settings_set. rewrite record_length.
  assert (E0 : default 0 (relay_record r !! 0%nat) = RELAY_REC_VER) by done.
  assert (E1 : default 0 (relay_record r !! 1%nat) = dir_code (dir r)) by done.
  assert (E2 : default 0 (relay_record r !! 2%nat) = Z.of_nat (length (ignore r))) by done.
  rewrite E0, E1, E2, Nat2Z.id.
  assert (Hdrop : drop RELAY_REC_HDR_LEN (relay_record r) = concat (put_le32 <$> ignore r)) by done.
  rewrite Hdrop, rec_ids_put, Nat.eqb_refl by done. cbn [String.eqb negb].
  unfold RELAY_REC_HDR_LEN. change (String.eqb "relay" "relay") with true. cbn [negb].
  destruct (_ <? 3)%nat eqn:L1; [apply Nat.ltb_lt in L1; lia|].
  destruct (3 + 4 * IGNORE_MAX <? _)%nat eqn:L2; [apply Nat.ltb_lt in L2; lia|].
  destruct (IGNORE_MAX <? _)%nat eqn:L3; [apply Nat.ltb_lt in L3; lia|].
  destruct Hd as [Hd|Hd]; rewrite Hd; done.
Qed.

(** Receiving touches neither the operator's settings nor their record. *)
Lemma rx_settings ev r r' o :
  rx_one ev r = (r', o) -> dir r' = dir r /\ ignore r' = ignore r /\ saved r' = saved r.
Proof.
  unfold rx_one, meshtastic_relay_on_rx. destruct (ev_pkt ev) as [p|]; [|by intros [= <- <-]].
  destruct (negb _); [by intros [= <- <-]|].
  assert (Hlog : forall now x, dir (log_refusal now x).1 = dir x /\
    ignore (log_refusal now x).1 = ignore x /\ saved (log_refusal now x).1 = saved x).
  { intros now x. unfold log_refusal. by destruct (_ && _). }
  assert (Hrx : forall r1 o1, relay_rx (ev_env ev) p (ev_mesh ev) r = (r1, o1) ->
    dir r1 = dir r /\ ignore r1 = ignore r /\ saved r1 = saved r).
  { intros r1 o1. unfold relay_rx.
    destruct (rx_checks _ _ _ _) as [[c [why|]]|[[text changed] dest]]; [by intros [= <- <-].. |].
    destruct (seen_hit_locked _ _ _ _); [by intros [= <- <-]|].
    destruct (origin_take_locked _ _ _) as [os [|]]; cbn [negb]; [|by intros [= <- <-]].
    destruct (rate_take_locked _ _) as [b [|]]; cbn [negb]; [|by intros [= <- <-]].
    destruct (make_job _ _ _) as [jb pre]. destruct (_ <=? _)%nat.
    - intros [= <- <-]. destruct pre; cbn [bump set_stats set_origins inbound set_inbound];
        by destruct (0 <? used b).
    - intros Heq. destruct changed, pre; injection Heq as <- _; done. }
  destruct (relay_rx _ _ _ _) as [r1 o1]. destruct (Hrx r1 o1 eq_refl) as (? & ? & ?).
  destruct o1; intros [= <- <-]; try done.
  destruct (Hlog (ry_now (ev_env ev)) r1) as (-> & -> & ->). done.
Qed.

Inductive relay_ctl :=
  | CtlDirection (d : relay_dir)
  | CtlIgnoreAdd (node_id : Z)
  | CtlIgnoreClear
  | CtlReset
  | CtlReceive (ev : rx_event).

Definition relay_ctl_apply (c : relay_ctl) (r : relay) : relay :=
  match c with
  | CtlDirection d => (meshtastic_relay_set_direction d r).1
  | CtlIgnoreAdd n => (meshtastic_relay_ignore_add n r).1
  | CtlIgnoreClear => meshtastic_relay_ignore_clear r
  | CtlReset => meshtastic_relay_reset r
  | CtlReceive ev => (rx_one ev r).1
  end.

(** The module after a restart that finds the stored record. *)
Definition relay_reboot (r : relay) : relay :=
  match saved r with
  | None => relay_boot
  | Some rec => (relay_settings_set "relay" (length rec) rec relay_boot).1
  end.

Definition ctl_inv (r : relay) : Prop :=
  (dir r = RELAY_OFF \/ dir r = RELAY_INBOUND) /\ (length (ignore r) <= IGNORE_MAX)%nat /\
  Forall in_u32 (ignore r) /\
  match saved r with
  | None => dir r = boot_direction /\ ignore r = []
  | Some rec => rec = relay_record r
  end.

Lemma ctl_inv_boot r : dir r = boot_direction -> ignore r = [] -> saved r = None -> ctl_inv r.
Proof.
  intros Hd Hi Hs. unfold ctl_inv. rewrite Hd, Hi, Hs. split; [unfold boot_direction; destruct INBOUND_AT_BOOT; auto|].
  split; [simpl; lia|]. split; [constructor | done].
Qed.

Lemma ctl_inv_step c r :
  match c with CtlIgnoreAdd n => in_u32 n | _ => True end -> ctl_inv r -> ctl_inv (relay_ctl_apply c r).
Proof.
  intros Hc Hinv. pose proof Hinv as (Hd & Hn & Hids & Hs). destruct c as [d|n| | |ev]; simpl.
  - destruct d; simpl; try done; unfold ctl_inv; simpl; auto.
  - unfold meshtastic_relay_ignore_add. destruct (existsb _ _); [done|].
    destruct (_ <=? _)%nat eqn:E; [done|]. apply Nat.leb_gt in E. unfold ctl_inv; simpl.
    split; [done|]. split; [rewrite length_app; simpl; lia|]. split; [|done].
    apply Forall_app. split; [done|]. by apply Forall_singleton.
  - unfold ctl_inv; simpl. split; [done|]. split; [lia|]. split; [constructor | done].
  - by apply ctl_inv_boot.
  - destruct (rx_one ev r) as [r' o] eqn:E. destruct (rx_settings ev r r' o E) as (E1 & E2 & E3).
    simpl. unfold ctl_inv, relay_record in *. rewrite E1, E2, E3. done.
Qed.

Lemma ctl_inv_run cs : forall r,
  Forall (fun c => match c with CtlIgnoreAdd n => in_u32 n | _ => True end) cs ->
  ctl_inv r -> ctl_inv (foldl (fun r c => relay_ctl_apply c r) r cs).
Proof.
  induction cs as [|c cs IH]; intros r Hcs Hr; [done|]. apply Forall_cons in Hcs as [Hc Hcs].
  simpl. apply IH; [done | by apply ctl_inv_step].
Qed.

End Relay.

Section Properties.
Context {KC : RelayKconfig}.

(** ** Properties *)

(** Relays running this code do not loop. A text this relay sends with its origin
    prefix is not accepted by any such relay that receives it, whatever its
    configuration, state and channels; only a text too long to carry the prefix
    is sent without it, unchanged. *)
Theorem relay_output_not_relayed e pkt mesh b r r' job :
  bytes_ok (payload_bytes pkt) ->
  meshtastic_relay_on_rx e (Some pkt) mesh b r = (r', Accepted job) ->
  exists text, utf8 text /\
    ((j_text job = text /\ MESHTASTIC_MAX_TEXT_LEN - RELAY_PREFIX_LEN < Z.of_nat (length text)) \/
     (j_text job = relay_prefix (p_from pkt) ++ text /\
      Z.of_nat (length (j_text job)) <= MESHTASTIC_MAX_TEXT_LEN /\
      forall (KC2 : RelayKconfig) e2 p2 mesh2 b2 r2 r2' job2,
        payload_bytes p2 = j_text job ->
        @meshtastic_relay_on_rx KC2 e2 (Some p2) mesh2 b2 r2 <> (r2', Accepted job2))).
Proof.
  intros Hok (p & [= <-] & _ & Hrx)%on_rx_accepted.
  apply rx_accepted in Hrx as (text & changed & dest & Hck & -> & _).
  apply checks_text in Hck as (good & Hsan & _ & _ & _).
  destruct (sanitized_text _ _ _ _ Hok Hsan) as (Hu & Hn & Hb & _). exists text. split; [done|].
  unfold make_job. destruct (_ <=? _) eqn:El; bools; cbn [fst j_text]; [right | left; split; [done | lia]].
  split; [done|]. split.
  { destruct (relay_prefix_digits (p_from pkt)) as (? & ? & ? & ? & E & _).
    rewrite E, length_app. unfold RELAY_PREFIX_LEN in El. simpl. lia. }
  intros KC2 e2 p2 mesh2 b2 r2 r2' job2 Hp Hon.
  apply on_rx_accepted in Hon as (p3 & [= <-] & _ & Hrx2).
  apply rx_accepted in Hrx2 as (text2 & changed2 & dest2 & Hck2 & _).
  apply checks_text in Hck2 as (good2 & Hsan2 & _ & Hnp & _).
  destruct (prefixed_utf8 (p_from pkt) text Hu Hn Hb) as (Hu' & Hn' & Hb').
  rewrite Hp in Hsan2. destruct (sanitized_text _ _ _ _ Hb' Hsan2) as (_ & _ & _ & Hsame).
  rewrite (Hsame Hu' Hn'), prefixed_has_prefix in Hnp. done.
Qed.

(** The direction's rate cap. However many texts arrive in an interval as long as
    the rate window, at most twice the cap is accepted in it, and at most the cap
    once the window was restarted inside the interval; a text that could not be
    queued does not count. *)
Theorem relay_rate_bounded T evs r r' os :
  0 <= T -> Forall (fun ev => T <= ry_now (ev_env ev) < T + RATE_WINDOW_SEC * 1000) evs ->
  bucket_ok RATE_MAX (inbound r) -> rx_run evs r = (r', os) ->
  bucket_ok RATE_MAX (inbound r') /\ accepted os <= 2 * RATE_MAX /\
  (window_start_ms (inbound r) <> 0 -> T <= window_start_ms (inbound r) -> accepted os <= RATE_MAX).
Proof.
  intros HT Hev Hb Hrun. destruct (rx_run_budget T evs r r' os HT Hev Hb Hrun) as [Hacc Hb'].
  split; [done|]. unfold budget, bucket_ok in *. split.
  - repeat destruct (negb _ && _); lia.
  - intros Hw Hw'. rewrite (proj2 (Z.eqb_neq _ _) Hw), (proj2 (Z.leb_le _ _) Hw') in Hacc. simpl in Hacc.
    destruct (negb _ && _); lia.
Qed.

(** The same text from the same node is not relayed twice: once accepted, a repeat
    inside the lifetime of the seen cache is not accepted, as long as fewer texts
    than the cache holds were accepted in between. *)
Theorem relay_no_repeat e pkt mesh b r r1 job evs r2 os e' pkt' mesh' b' r3 job' :
  seen_wf r ->
  meshtastic_relay_on_rx e (Some pkt) mesh b r = (r1, Accepted job) ->
  rx_run evs r1 = (r2, os) -> accepted os < Z.of_nat SEEN_SIZE ->
  p_from pkt' = p_from pkt -> payload_bytes pkt' = payload_bytes pkt ->
  ry_now e' - nonzero_ms (ry_now e) < SEEN_TTL_SEC * 1000 -> 0 <= ry_now e ->
  meshtastic_relay_on_rx e' (Some pkt') mesh' b' r2 <> (r3, Accepted job').
Proof.
  intros [Hlen Hnext] (p & [= <-] & _ & Hrx)%on_rx_accepted Hrun Hacc Hfrom Hpay Httl Hnow0.
  apply rx_accepted in Hrx as (text & changed & dest & Hck & _ & _ & Hpush).
  apply checks_text in Hck as (good & Hsan & _).
  intros (p & [= <-] & _ & Hrx2)%on_rx_accepted.
  apply rx_accepted in Hrx2 as (text2 & changed2 & dest2 & Hck2 & _ & Hmiss & _).
  apply checks_text in Hck2 as (good2 & Hsan2 & _).
  rewrite Hpay, Hsan in Hsan2. injection Hsan2 as <- <- <-. rewrite Hfrom in Hmiss.
  pose proof SEEN_SIZE_range.
  set (x := SeenEntry (p_from pkt) (fnv1a text) (nonzero_ms (ry_now e))) in *.
  assert (Hx : seen r1 !! seen_next r = Some x /\ seen_next r1 = ((seen_next r + 1) `mod` SEEN_SIZE)%nat).
  { injection Hpush as -> ->. split; [|done]. apply list_lookup_insert_eq. lia. }
  destruct Hx as [Hx Hn1].
  assert (Hx2 : seen r2 !! seen_next r = Some x).
  { apply (rx_run_keeps evs r1 r2 os (seen_next r) 1 x); [done | lia | done | done | done | lia]. }
  assert (Hhit : seen_hit_locked (p_from pkt) (fnv1a text) (ry_now e') r2 = true); [|congruence].
  apply existsb_lookup. exists (seen_next r), x. split; [done|]. cbn.
  rewrite !Z.eqb_refl. unfold nonzero_ms in *. destruct (ry_now e =? 0) eqn:E; bools; simpl; [lia|].
  destruct (ry_now e =? 0) eqn:E'; bools; [done | simpl; lia].
Qed.

(** What the operator set survives a restart: after any sequence of direction and
    ignore-list commands, resets and received packets, restarting the module with
    the record it stored gives the same direction and the same ignore list. *)
Theorem relay_settings_survive_restart cs :
  Forall (fun c => match c with CtlIgnoreAdd n => in_u32 n | _ => True end) cs ->
  let r := foldl (fun r c => relay_ctl_apply c r) relay_boot cs in
  dir (relay_reboot r) = dir r /\ ignore (relay_reboot r) = ignore r.
Proof.
  intros Hcs. cbv zeta.
  pose proof (ctl_inv_run cs relay_boot Hcs (ctl_inv_boot relay_boot eq_refl eq_refl eq_refl)) as Hinv.
  set (r := foldl _ relay_boot cs) in *. destruct Hinv as (Hd & Hn & Hids & Hs). unfold relay_reboot.
  destruct (saved r) as [rec|].
  - subst rec. by rewrite (settings_load r relay_boot Hd Hn Hids).
  - by destruct Hs as [-> ->].
Qed.

End Properties.

(** ** Witnesses *)
#[local] Existing Instance default_relay_kconfig.

(** Slot 1 reads the other preset's public channel, slot 0 is ours. *)
Definition witness_channels : channel_view :=
  ChannelView [77; 70] (fun i => i =? 1) (fun _ => [76; 70]) (fun i => i =? 0) (fun _ => false).
Definition witness_relay_env (now : Z) : relay_env := RelayEnv now 9 witness_channels.
Definition witness_relay : relay := set_dir RELAY_INBOUND relay_boot.

(** The broadcast text "hi" of node 0x1abcd. *)
Definition witness_hi : packet :=
  set_p_from 109517 (set_p_to MESHTASTIC_NODE_BROADCAST (set_p_portnum 1
    (set_p_channel_index 1 (set_p_payload (Some [104; 105]) packet_zero)))).
Definition witness_rx (now : Z) (r : relay) : relay * rx_outcome :=
  meshtastic_relay_on_rx (witness_relay_env now) (Some witness_hi) None BEARER_BLE_PEER r.

(** "[abcd] hi" on channel 0. *)
Definition witness_job : relay_job := RelayJob 0 [91; 97; 98; 99; 100; 93; 32; 104; 105].

Lemma relay_output_not_relayed_witness :
  exists text, utf8 text /\ (j_text witness_job = text \/ j_text witness_job = relay_prefix 109517 ++ text).
Proof.
  destruct (relay_output_not_relayed (witness_relay_env 1000) witness_hi None BEARER_BLE_PEER
    witness_relay (witness_rx 1000 witness_relay).1 witness_job) as (text & Hu & Hc).
  - repeat (apply Forall_cons_2; [unfold byte_ok; lia|]). apply Forall_nil_2.
  - reflexivity.
  - exists text. split; [exact Hu|]. destruct Hc as [[Hc _]|[Hc _]]; [left | right]; exact Hc.
Defined.

Definition witness_event (now : Z) : rx_event :=
  RxEvent (witness_relay_env now) (Some witness_hi) None BEARER_BLE_PEER.

Lemma relay_rate_bounded_witness :
  accepted (rx_run [witness_event 1000; witness_event 2000] witness_relay).2 <= 20.
Proof.
  refine (proj1 (proj2 (relay_rate_bounded 1000 [witness_event 1000; witness_event 2000] witness_relay
    (rx_run [witness_event 1000; witness_event 2000] witness_relay).1
    (rx_run [witness_event 1000; witness_event 2000] witness_relay).2 _ _ _ _))).
  - lia.
  - repeat (apply Forall_cons_2; [vm_compute; split; congruence|]). apply Forall_nil_2.
  - vm_compute. split; congruence.
  - apply surjective_pairing.
Defined.

Lemma relay_no_repeat_witness :
  (witness_rx 2000 (witness_rx 1000 witness_relay).1).2 = Dropped SEEN /\
  (witness_rx 2000 (witness_rx 1000 witness_relay).1) <>
    ((witness_rx 2000 (witness_rx 1000 witness_relay).1).1, Accepted witness_job).
Proof.
  split; [reflexivity|].
  apply (relay_no_repeat (witness_relay_env 1000) witness_hi None BEARER_BLE_PEER witness_relay
    (witness_rx 1000 witness_relay).1 witness_job [] (witness_rx 1000 witness_relay).1 []).
  - split; vm_compute; lia.
  - reflexivity.
  - reflexivity.
  - vm_compute. reflexivity.
  - reflexivity.
  - reflexivity.
  - vm_compute. reflexivity.
  - vm_compute. congruence.
Defined.

Lemma relay_settings_survive_restart_witness :
  ignore (relay_reboot (relay_ctl_apply (CtlIgnoreAdd 77) (relay_ctl_apply (CtlDirection RELAY_INBOUND)
    relay_boot))) = [77].
Proof.
  refine (proj2 (relay_settings_survive_restart [CtlDirection RELAY_INBOUND; CtlIgnoreAdd 77] _)).
  apply Forall_cons_2; [exact I|]. apply Forall_cons_2; [unfold in_u32, UINT32_MAX; lia | apply Forall_nil_2].
Defined.
