(* ===== verification/ClusterDoc.v ===== *)
(** * The cluster document (src/src/meshtastic_cluster_doc.c, .h)

    A sorted table of independently versioned configuration entries, merged by
    last-writer-wins on hybrid-logical-clock stamps. The document is the list of
    the used entries (the array up to [count]) and its capacity; the array beyond
    [count] is all zero and never read. CRC-32 comes from the platform and is an
    argument. The merge is proved against the class [VersionOrder] that the clock
    implements. *)
From stdpp Require Import sorting.
From S2P Require Import Prelude Hlc.
Open Scope Z_scope.

Definition MESHTASTIC_CLUSTER_PAYLOAD_MAX : Z := 128.
Definition MESHTASTIC_CLUSTER_SIG_LEN : nat := 64.
Definition LAYER_BASE : Z := 0.
Definition LAYER_NODE : Z := 1.

(** ** Data *)
Record cluster_key := ClusterKey { k_layer : Z; k_node_id : Z; k_section : Z }.
#[export] Instance cluster_key_eq_dec : EqDecision cluster_key.
Proof. solve_decision. Defined.

(** [e_sig] is [sig] when [has_sig], else the slot is zeroed. *)
Record cluster_entry := ClusterEntry {
  e_key : cluster_key;
  e_stamp : hlc_stamp;
  e_tombstone : bool;
  e_payload : list Z;
  e_sig : option (list Z);
}.
#[export] Instance cluster_entry_eq_dec : EqDecision cluster_entry.
Proof. solve_decision. Defined.

Record cluster_doc := ClusterDoc {
  entries : list cluster_entry;
  doc_cap : nat;
}.
Definition set_entries (v : list cluster_entry) (r : cluster_doc) : cluster_doc :=
ClusterDoc v (doc_cap r).
Definition set_doc_cap (v : nat) (r : cluster_doc) : cluster_doc :=
ClusterDoc (entries r) v.

Inductive scope_kind := SCOPE_BASE | SCOPE_CORE | SCOPE_FULL.
#[export] Instance scope_kind_eq_dec : EqDecision scope_kind.
Proof. solve_decision. Defined.
Record cluster_scope := ClusterScope { sc_kind : scope_kind; sc_owner : Z }.

Inductive cluster_want := WANT_NO | WANT_YES | WANT_NO_SPACE.

Inductive sig_verdict :=
  | SIG_ACCEPT_VERIFIED | SIG_ACCEPT_UNSIGNED | SIG_ACCEPT_UNCHECKED
  | SIG_REFUSE_UNSIGNED | SIG_REFUSE_MALFORMED | SIG_REFUSE_NO_KEY | SIG_REFUSE_BAD.

(** ** Keys and scopes *)

Definition meshtastic_cluster_doc_init (cap : nat) : cluster_doc := ClusterDoc [] cap.

Definition meshtastic_cluster_key_cmp (a b : cluster_key) : Z :=
  if negb (k_layer a =? k_layer b) then k_layer a - k_layer b
  else if negb (k_node_id a =? k_node_id b) then (if k_node_id a <? k_node_id b then -1 else 1)
  else k_section a - k_section b.

Definition meshtastic_cluster_scope_make (kind : scope_kind) (owner : Z) : cluster_scope :=
  ClusterScope kind (if bool_decide (kind = SCOPE_CORE) then owner else 0).

Definition meshtastic_cluster_scope_contains (scope : cluster_scope) (key : cluster_key) : bool :=
  if bool_decide (sc_kind scope = SCOPE_FULL) then true
  else if k_layer key =? LAYER_BASE then true
  else bool_decide (sc_kind scope = SCOPE_CORE) && (k_node_id key =? sc_owner scope).

Definition meshtastic_cluster_scope_intersect (a b : cluster_scope) : cluster_scope :=
  if bool_decide (sc_kind a = SCOPE_FULL) then b
  else if bool_decide (sc_kind b = SCOPE_FULL) then a
  else if bool_decide (sc_kind a = SCOPE_CORE) && bool_decide (sc_kind b = SCOPE_CORE) &&
          (sc_owner a =? sc_owner b) then a
  else meshtastic_cluster_scope_make SCOPE_BASE 0.

(** ** Lookup *)

(** The sorted-insert position and whether the key is there. *)
Fixpoint doc_pos (key : cluster_key) (l : list cluster_entry) : nat * bool :=
  match l with
  | [] => (0%nat, false)
  | e :: l' =>
      let c := meshtastic_cluster_key_cmp key (e_key e) in
      if c =? 0 then (0%nat, true)
      else if c <? 0 then (0%nat, false)
      else let '(i, found) := doc_pos key l' in (S i, found)
  end.

Definition meshtastic_cluster_doc_find (key : cluster_key) (d : cluster_doc) : option cluster_entry :=
  let '(i, found) := doc_pos key (entries d) in
  if found : bool then entries d !! i else None.

Definition key_is_valid (key : cluster_key) : bool :=
  if k_layer key =? LAYER_BASE then k_node_id key =? 0
  else if k_layer key =? LAYER_NODE then negb (k_node_id key =? 0)
  else false.

(** ** The merge: 1 stored, 0 stale or equal, or an error *)
Definition meshtastic_cluster_doc_accept_signed (key : cluster_key) (stamp : hlc_stamp)
    (tombstone : bool) (payload : list Z) (sig : option (list Z)) (d : cluster_doc)
    : cluster_doc * res Z :=
  let payload_len := Z.of_nat (length payload) in
  if MESHTASTIC_CLUSTER_PAYLOAD_MAX <? payload_len then (d, Fail EINVAL)
  else if tombstone && negb (payload_len =? 0) then (d, Fail EINVAL)
  else if negb tombstone && (payload_len =? 0) then (d, Fail EINVAL)
  else if negb (key_is_valid key) then (d, Fail EINVAL)
  else if (k_layer key =? LAYER_BASE) && tombstone then (d, Fail EINVAL)
  else if meshtastic_hlc_stamp_is_unset stamp then (d, Fail EINVAL)
  else
    let e := ClusterEntry key stamp tombstone payload sig in
    let '(i, found) := doc_pos key (entries d) in
    if found : bool then
      if negb (match entries d !! i with
               | Some old => meshtastic_hlc_newer stamp (e_stamp old)
               | None => true
               end) then (d, Val 0)
      else (set_entries (<[i := e]> (entries d)) d, Val 1)
    else if (doc_cap d <=? length (entries d))%nat then (d, Fail ENOSPC)
    else (set_entries (take i (entries d) ++ e :: drop i (entries d)) d, Val 1).

Definition meshtastic_cluster_doc_accept (key : cluster_key) (stamp : hlc_stamp) (tombstone : bool)
    (payload : list Z) (d : cluster_doc) : cluster_doc * res Z :=
  meshtastic_cluster_doc_accept_signed key stamp tombstone payload None d.

(** ** Digest *)

(** [(uint64_t)physical_ms] *)
Definition u64 (z : Z) : Z := wrap 64 z.

Definition row_bytes (e : cluster_entry) : list Z :=
  [k_layer (e_key e)] ++ le_put 4 (k_node_id (e_key e)) ++
  [Z.land (k_section (e_key e)) 255; u8 (Z.shiftr (k_section (e_key e)) 8)] ++
  le_put 8 (u64 (st_physical_ms (e_stamp e))) ++ le_put 4 (st_counter (e_stamp e)) ++
  le_put 4 (st_node_id (e_stamp e)) ++ [if e_tombstone e then 1 else 0].

Section Digest.
Context (crc32_ieee_update : Z -> list Z -> Z).

Definition meshtastic_cluster_doc_hash_scoped (scope : cluster_scope) (d : cluster_doc) : Z :=
  foldl (fun crc e =>
           if negb (meshtastic_cluster_scope_contains scope (e_key e)) then crc
           else crc32_ieee_update crc (row_bytes e)) 0 (entries d).

Definition meshtastic_cluster_doc_hash (d : cluster_doc) : Z :=
  meshtastic_cluster_doc_hash_scoped (meshtastic_cluster_scope_make SCOPE_FULL 0) d.
End Digest.

Definition meshtastic_cluster_doc_count_scoped (scope : cluster_scope) (d : cluster_doc) : Z :=
  foldl (fun n e => if meshtastic_cluster_scope_contains scope (e_key e) then u16 (n + 1) else n)
    0 (entries d).

Definition meshtastic_cluster_doc_max_stamp_scoped (scope : cluster_scope) (d : cluster_doc) : hlc_stamp :=
  foldl (fun out e =>
           if negb (meshtastic_cluster_scope_contains scope (e_key e)) then out
           else if meshtastic_hlc_newer (e_stamp e) out then e_stamp e else out) unset_stamp (entries d).

Definition meshtastic_cluster_doc_max_stamp (d : cluster_doc) : hlc_stamp :=
  meshtastic_cluster_doc_max_stamp_scoped (meshtastic_cluster_scope_make SCOPE_FULL 0) d.

(** ** Anti-entropy *)

Definition meshtastic_cluster_doc_want (mine_scope : cluster_scope) (key : cluster_key)
    (stamp : hlc_stamp) (d : cluster_doc) : cluster_want :=
  if negb (key_is_valid key) || meshtastic_hlc_stamp_is_unset stamp then WANT_NO
  else if negb (meshtastic_cluster_scope_contains mine_scope key) then WANT_NO
  else match meshtastic_cluster_doc_find key d with
       | Some mine => if meshtastic_hlc_newer stamp (e_stamp mine) then WANT_YES else WANT_NO
       | None => if (length (entries d) <? doc_cap d)%nat then WANT_YES else WANT_NO_SPACE
       end.

Definition meshtastic_cluster_doc_wants (key : cluster_key) (stamp : hlc_stamp) (d : cluster_doc) : bool :=
  match meshtastic_cluster_doc_want (meshtastic_cluster_scope_make SCOPE_FULL 0) key stamp d with
  | WANT_YES => true
  | _ => false
  end.

(** ** Eviction: the document after, and the keys given to [on_evict] in order *)

Definition meshtastic_cluster_doc_clear (d : cluster_doc) : cluster_doc * list cluster_key :=
  (set_entries [] d, e_key <$> entries d).

(** The compacting pass: kept entries and dropped keys. *)
Fixpoint retain_loop (scope : cluster_scope) (l : list cluster_entry)
    : list cluster_entry * list cluster_key :=
  match l with
  | [] => ([], [])
  | e :: l' =>
      let '(keep, dropped) := retain_loop scope l' in
      if meshtastic_cluster_scope_contains scope (e_key e) then (e :: keep, dropped)
      else (keep, e_key e :: dropped)
  end.

Definition meshtastic_cluster_doc_retain (scope : cluster_scope) (d : cluster_doc)
    : cluster_doc * list cluster_key :=
  let '(keep, dropped) := retain_loop scope (entries d) in (set_entries keep d, dropped).

(** ** The effective value and its version *)

Definition live (e : option cluster_entry) : option cluster_entry :=
  match e with Some x => if e_tombstone x then None else Some x | None => None end.

Definition meshtastic_cluster_doc_effective (node_id section : Z) (d : cluster_doc)
    : option cluster_entry :=
  match live (meshtastic_cluster_doc_find (ClusterKey LAYER_NODE node_id section) d) with
  | Some e => Some e
  | None => live (meshtastic_cluster_doc_find (ClusterKey LAYER_BASE 0 section) d)
  end.

(** The stamp written to [out], and the returned flag. *)
Definition meshtastic_cluster_doc_effective_version (node_id section : Z) (d : cluster_doc)
    : hlc_stamp * bool :=
  let node := meshtastic_cluster_doc_find (ClusterKey LAYER_NODE node_id section) d in
  let base := meshtastic_cluster_doc_find (ClusterKey LAYER_BASE 0 section) d in
  let '(out, have) := match node with Some e => (e_stamp e, true) | None => (unset_stamp, false) end in
  match base with
  | Some b => if meshtastic_hlc_newer (e_stamp b) out then (e_stamp b, true) else (out, have)
  | None => (out, have)
  end.

(** ** Fragments *)

(** The cursor after its repair, and the bytes to send. *)
Definition meshtastic_cluster_frag_take (payload_len off cap : Z) : Z * Z :=
  let off := if payload_len <? off then 0 else off in
  let remain := u16 (payload_len - off) in
  (off, if remain <? cap then remain else cap).

Definition meshtastic_cluster_frag_fits (total off len payload_max frag_max : Z) : Z * bool :=
  let total := if total =? 0 then len else total in
  (total, (total <=? payload_max) && (len <=? frag_max) && (off + len <=? total)).

(** ** Signatures *)

(** "zephyrtastic/cluster-entry/v1" with its terminator. *)
Definition MESHTASTIC_CLUSTER_SIGBUF_PREFIX : list Z :=
  (Z.of_N ∘ Ascii.N_of_ascii) <$> String.list_ascii_of_string "zephyrtastic/cluster-entry/v1" ++ [Ascii.zero].

Definition signed_fields (key : cluster_key) (stamp : hlc_stamp) (tombstone : bool) (payload_len : Z)
    : list Z :=
  le_put 1 (k_layer key) ++ le_put 4 (k_node_id key) ++ le_put 2 (k_section key) ++
  le_put 8 (u64 (st_physical_ms stamp)) ++ le_put 4 (st_counter stamp) ++ le_put 4 (st_node_id stamp) ++
  le_put 1 (if tombstone then 1 else 0) ++ le_put 2 payload_len.

(** [None] is the return value 0. [payload] is [None] for the NULL pointer. *)
Definition meshtastic_cluster_signing_buffer (cap : Z) (key : cluster_key) (stamp : hlc_stamp)
    (tombstone : bool) (payload : option (list Z)) (payload_len : Z) : option (list Z) :=
  let need := Z.of_nat (length MESHTASTIC_CLUSTER_SIGBUF_PREFIX) + 26 + payload_len in
  if (MESHTASTIC_CLUSTER_PAYLOAD_MAX <? payload_len) || (cap <? need) ||
     ((0 <? payload_len) && bool_decide (payload = None)) then None
  else Some (MESHTASTIC_CLUSTER_SIGBUF_PREFIX ++ signed_fields key stamp tombstone payload_len ++
             take (Z.to_nat payload_len) (default [] payload)).

Definition meshtastic_cluster_sig_policy (sig_len : nat)
    (require_signed author_is_self can_verify have_key verifies : bool) : sig_verdict :=
  if (sig_len =? 0)%nat then
    if require_signed && negb author_is_self then SIG_REFUSE_UNSIGNED else SIG_ACCEPT_UNSIGNED
  else if negb (sig_len =? MESHTASTIC_CLUSTER_SIG_LEN)%nat then SIG_REFUSE_MALFORMED
  else if negb can_verify then SIG_ACCEPT_UNCHECKED
  else if negb have_key then SIG_REFUSE_NO_KEY
  else if verifies then SIG_ACCEPT_VERIFIED else SIG_REFUSE_BAD.

Definition meshtastic_cluster_sig_accepts (v : sig_verdict) : bool :=
  match v with SIG_ACCEPT_VERIFIED | SIG_ACCEPT_UNSIGNED | SIG_ACCEPT_UNCHECKED => true | _ => false end.

(** ** The order of the keys *)

Definition key_lt (a b : cluster_key) : Prop := meshtastic_cluster_key_cmp a b < 0.
Definition entry_lt (a b : cluster_entry) : Prop := key_lt (e_key a) (e_key b).
Definition doc_sorted (l : list cluster_entry) : Prop := StronglySorted entry_lt l.

Lemma key_cmp_eq a b : meshtastic_cluster_key_cmp a b = 0 <-> a = b.
Proof.
  unfold meshtastic_cluster_key_cmp. destruct a as [x y z], b as [x' y' z']; simpl.
  split; [|intros [= -> -> ->]; rewrite !Z.eqb_refl; simpl; lia].
  intros Hc. f_equal; branches; lia.
Qed.

Lemma key_cmp_flip a b : 0 < meshtastic_cluster_key_cmp a b <-> key_lt b a.
Proof. unfold key_lt, meshtastic_cluster_key_cmp. branches; lia. Qed.

Lemma key_lt_irrefl a : ~ key_lt a a.
Proof. unfold key_lt. rewrite (proj2 (key_cmp_eq a a) eq_refl). lia. Qed.

Lemma key_lt_trans a b c : key_lt a b -> key_lt b c -> key_lt a c.
Proof. unfold key_lt, meshtastic_cluster_key_cmp. intros. branches; lia. Qed.

#[local] Instance entry_lt_antisymm : AntiSymm eq entry_lt.
Proof. intros x y H1 H2. exfalso. by eapply key_lt_irrefl, key_lt_trans. Qed.

Lemma entry_lt_ne x y : entry_lt x y -> e_key x <> e_key y.
Proof. unfold entry_lt. intros Hlt E. rewrite E in Hlt. by apply key_lt_irrefl in Hlt. Qed.

Lemma sorted_keys_nodup l : doc_sorted l -> NoDup (e_key <$> l).
Proof.
  induction 1 as [|x l _ IH Hall]; [constructor|]. rewrite fmap_cons. constructor; [|done].
  intros (y & E & Hy)%list_elem_of_fmap. rewrite Forall_forall in Hall.
  by apply (entry_lt_ne x y); [apply Hall|].
Qed.

Lemma sorted_key_inj l x y : doc_sorted l -> x ∈ l -> y ∈ l -> e_key x = e_key y -> x = y.
Proof.
  induction 1 as [|z l _ IH Hall]; [set_solver|]. rewrite Forall_forall in Hall.
  intros [->|Hx]%elem_of_cons [->|Hy]%elem_of_cons E; [done | | | by apply IH].
  - by destruct (entry_lt_ne z y (Hall y Hy)).
  - by destruct (entry_lt_ne z x (Hall x Hx)).
Qed.

(** Sorted tables with the same entries are the same table. *)
Lemma sorted_ext l1 l2 : doc_sorted l1 -> doc_sorted l2 -> (forall e, e ∈ l1 <-> e ∈ l2) -> l1 = l2.
Proof.
  intros H1 H2 Hel. apply (StronglySorted_unique entry_lt); [done | done|].
  apply NoDup_Permutation; [| | done]; eapply NoDup_fmap_1; by apply sorted_keys_nodup.
Qed.

(** ** Storing an entry, as a recursion *)

Fixpoint put_entry (e : cluster_entry) (l : list cluster_entry) : list cluster_entry :=
  match l with
  | [] => [e]
  | x :: l' =>
      let c := meshtastic_cluster_key_cmp (e_key e) (e_key x) in
      if c =? 0 then e :: l' else if c <? 0 then e :: x :: l' else x :: put_entry e l'
  end.

Lemma put_entry_pos e l i found :
  doc_pos (e_key e) l = (i, found) ->
  (if found then <[i := e]> l else take i l ++ e :: drop i l) = put_entry e l.
Proof.
  revert i. induction l as [|x l IH]; intros i; cbn [doc_pos put_entry].
  { by intros [= <- <-]. }
  destruct (_ =? 0); [by intros [= <- <-]|]. destruct (_ <? 0); [by intros [= <- <-]|].
  destruct (doc_pos _ l) as [j f]. intros [= <- <-]. specialize (IH j eq_refl).
  destruct f; simpl; by rewrite IH.
Qed.

Lemma put_entry_elem e l x :
  doc_sorted l -> x ∈ put_entry e l <-> x = e \/ (x ∈ l /\ e_key x <> e_key e).
Proof.
  induction 1 as [|y l _ IH Hall]; cbn [put_entry]; [set_solver|].
  rewrite Forall_forall in Hall.
  destruct (_ =? 0) eqn:E0; [|destruct (_ <? 0) eqn:E1]; bools.
  - apply key_cmp_eq in E0. rewrite !elem_of_cons. split.
    + intros [->|Hx]; [by left|]. right. split; [by right|]. rewrite E0.
      intros E. by destruct (entry_lt_ne y x (Hall x Hx)).
    + intros [->|[[->|Hx] Hne]]; [by left | congruence | by right].
  - rewrite !elem_of_cons. split; [|naive_solver].
    intros [->|[->|Hx]]; [by left | |]; right; (split; [naive_solver|]).
    + intros E. rewrite E in E1. by apply key_lt_irrefl in E1.
    + intros E. pose proof (key_lt_trans _ _ _ E1 (Hall x Hx)) as Hlt. rewrite E in Hlt.
      by apply key_lt_irrefl in Hlt.
  - rewrite !elem_of_cons, IH. assert (Hgt : key_lt (e_key y) (e_key e)) by (apply key_cmp_flip; lia).
    split; [|naive_solver]. intros [->|[->|[Hx Hne]]]; [right | by left | naive_solver].
    split; [by left|]. intros E. rewrite E in Hgt. by apply key_lt_irrefl in Hgt.
Qed.

Lemma put_entry_sorted e l : doc_sorted l -> doc_sorted (put_entry e l).
Proof.
  intros Hs. induction Hs as [|y l Hs IH Hall]; cbn [put_entry]; [repeat constructor|].
  destruct (_ =? 0) eqn:E0; [|destruct (_ <? 0) eqn:E1]; bools.
  - apply key_cmp_eq in E0. constructor; [done|]. eapply Forall_impl; [exact Hall|].
    intros x. unfold entry_lt. by rewrite E0.
  - constructor; [by constructor|]. constructor; [done|]. eapply Forall_impl; [exact Hall|].
    intros x Hx. by eapply key_lt_trans.
  - constructor; [done|]. apply Forall_forall. intros x Hx. apply put_entry_elem in Hx; [|done].
    destruct Hx as [->|[Hx _]]; [apply key_cmp_flip; lia|]. rewrite Forall_forall in Hall. by apply Hall.
Qed.

Lemma doc_pos_found key l i : doc_pos key l = (i, true) -> exists e, l !! i = Some e /\ e_key e = key.
Proof.
  revert i. induction l as [|x l IH]; intros i; cbn [doc_pos]; [done|].
  destruct (_ =? 0) eqn:E0; bools.
  - intros [= <-]. apply key_cmp_eq in E0. by exists x.
  - destruct (_ <? 0); [done|]. destruct (doc_pos key l) as [j f]. intros [= <- ->]. by apply IH.
Qed.

Lemma doc_pos_absent key l i :
  doc_sorted l -> doc_pos key l = (i, false) -> forall e, e ∈ l -> e_key e <> key.
Proof.
  intros Hs. revert i. induction Hs as [|x l Hs IH Hall]; intros i; cbn [doc_pos]; [set_solver|].
  rewrite Forall_forall in Hall. destruct (_ =? 0) eqn:E0; [done|]. bools.
  destruct (_ <? 0) eqn:E1; bools.
  - intros _ e [->|He]%elem_of_cons E.
    + by rewrite E, (proj2 (key_cmp_eq key key) eq_refl) in E0.
    + pose proof (key_lt_trans _ _ _ E1 (Hall e He)) as Hlt. rewrite E in Hlt. by apply key_lt_irrefl in Hlt.
  - destruct (doc_pos key l) as [j f]. intros [= <- ->] e [->|He]%elem_of_cons E.
    + by rewrite E, (proj2 (key_cmp_eq key key) eq_refl) in E0.
    + by apply (IH j eq_refl e He).
Qed.

Lemma find_spec key d e :
  doc_sorted (entries d) ->
  meshtastic_cluster_doc_find key d = Some e <-> e ∈ entries d /\ e_key e = key.
Proof.
  intros Hs. unfold meshtastic_cluster_doc_find. destruct (doc_pos key (entries d)) as [i [|]] eqn:E.
  - apply doc_pos_found in E as (x & Hx & Ek). rewrite Hx. split.
    + intros [= ->]. split; [by eapply list_elem_of_lookup_2 | done].
    + intros [He Ee]. f_equal. apply (sorted_key_inj (entries d)); [done | | done | congruence].
      by eapply list_elem_of_lookup_2.
  - split; [done|]. intros [He Ee]. by destruct (doc_pos_absent key _ i Hs E e He).
Qed.

Lemma find_None key d :
  doc_sorted (entries d) ->
  meshtastic_cluster_doc_find key d = None <-> forall e, e ∈ entries d -> e_key e <> key.
Proof.
  intros Hs. split.
  - intros Hn e He Ek. rewrite (proj2 (find_spec key d e Hs) (conj He Ek)) in Hn. done.
  - intros Hall. destruct (meshtastic_cluster_doc_find key d) as [e|] eqn:E; [|done].
    apply find_spec in E as [He Ek]; [|done]. by destruct (Hall e He).
Qed.

(** ** The merge, by cases *)

(** What [accept] requires of an entry, whatever the document holds. *)
Definition entry_ok (e : cluster_entry) : bool :=
  (Z.of_nat (length (e_payload e)) <=? MESHTASTIC_CLUSTER_PAYLOAD_MAX) &&
  Bool.eqb (e_tombstone e) (Z.of_nat (length (e_payload e)) =? 0) &&
  key_is_valid (e_key e) && negb ((k_layer (e_key e) =? LAYER_BASE) && e_tombstone e) &&
  negb (meshtastic_hlc_stamp_is_unset (e_stamp e)).

Definition accept_entry (e : cluster_entry) (d : cluster_doc) : cluster_doc * res Z :=
  meshtastic_cluster_doc_accept_signed (e_key e) (e_stamp e) (e_tombstone e) (e_payload e) (e_sig e) d.

Lemma accept_spec e d :
  accept_entry e d =
  if negb (entry_ok e) then (d, Fail EINVAL)
  else match meshtastic_cluster_doc_find (e_key e) d with
       | Some old =>
           if meshtastic_hlc_newer (e_stamp e) (e_stamp old)
           then (set_entries (put_entry e (entries d)) d, Val 1) else (d, Val 0)
       | None =>
           if (doc_cap d <=? length (entries d))%nat then (d, Fail ENOSPC)
           else (set_entries (put_entry e (entries d)) d, Val 1)
       end.
Proof.
  unfold accept_entry, meshtastic_cluster_doc_accept_signed, entry_ok, meshtastic_cluster_doc_find.
  destruct e as [key stamp tomb payload sig]. cbn [e_key e_stamp e_tombstone e_payload e_sig].
  rewrite Z.leb_antisym. destruct (MESHTASTIC_CLUSTER_PAYLOAD_MAX <? _); [done|]. cbn [negb andb].
  destruct tomb, (Z.of_nat (length payload) =? 0); cbn [negb andb Bool.eqb]; try done;
    (destruct (key_is_valid key); [|done]); cbn [negb andb];
    (destruct (k_layer key =? LAYER_BASE); cbn [negb andb]; try done);
    (destruct (meshtastic_hlc_stamp_is_unset stamp); [done|]); cbn [negb];
    destruct (doc_pos key (entries d)) as [i f] eqn:E;
    match goal with |- context [ClusterEntry key stamp ?t payload sig] =>
      pose proof (put_entry_pos (ClusterEntry key stamp t payload sig) (entries d) i f E) as Hput end;
    (destruct f; [destruct (doc_pos_found _ _ _ E) as (old & -> & _); destruct (meshtastic_hlc_newer _ _)|
                  destruct (_ <=? _)%nat]); cbn [negb]; try done; by rewrite Hput.
Qed.

(** ** Reachable documents *)

Record doc_wf (d : cluster_doc) : Prop := {
  wf_sorted : doc_sorted (entries d);
  wf_room : (length (entries d) <= doc_cap d)%nat;
  wf_entries : Forall (fun e => entry_ok e = true) (entries d);
}.


Lemma put_entry_length e d :
  length (put_entry e (entries d)) =
  match meshtastic_cluster_doc_find (e_key e) d with
  | Some _ => length (entries d)
  | None => S (length (entries d))
  end.
Proof.
  unfold meshtastic_cluster_doc_find. destruct (doc_pos (e_key e) (entries d)) as [i f] eqn:E.
  rewrite <- (put_entry_pos e _ i f E). destruct f.
  - destruct (doc_pos_found _ _ _ E) as (x & -> & _). apply length_insert.
  - rewrite length_app. cbn [length]. rewrite Nat.add_succ_r, <- length_app, take_drop. done.
Qed.

Lemma accept_wf e d : doc_wf d -> doc_wf (accept_entry e d).1.
Proof.
  intros [Hs Hr He]. rewrite accept_spec. destruct (entry_ok e) eqn:Eok; [|done]. cbn [negb].
  pose proof (put_entry_length e d) as Hlen.
  assert (Hall : Forall (fun x => entry_ok x = true) (put_entry e (entries d))).
  { apply Forall_forall. intros x Hx. rewrite put_entry_elem in Hx by done. rewrite Forall_forall in He.
    destruct Hx as [->|[Hx _]]; [done | by apply He]. }
  destruct (meshtastic_cluster_doc_find _ _) as [old|].
  - destruct (meshtastic_hlc_newer _ _); [|done]. split; simpl; [by apply put_entry_sorted | lia | done].
  - destruct (_ <=? _)%nat eqn:E; [done|]. apply Nat.leb_gt in E.
    split; simpl; [by apply put_entry_sorted | lia | done].
Qed.

Lemma retain_filter scope l :
  retain_loop scope l =
  (List.filter (fun e => meshtastic_cluster_scope_contains scope (e_key e)) l,
   e_key <$> List.filter (fun e => negb (meshtastic_cluster_scope_contains scope (e_key e))) l).
Proof.
  induction l as [|e l IH]; [done|]. cbn [retain_loop List.filter]. rewrite IH.
  by destruct (meshtastic_cluster_scope_contains _ _).
Qed.

Lemma retain_entries scope d :
  entries (meshtastic_cluster_doc_retain scope d).1 =
  List.filter (fun e => meshtastic_cluster_scope_contains scope (e_key e)) (entries d).
Proof. unfold meshtastic_cluster_doc_retain. by rewrite retain_filter. Qed.

Lemma filter_sorted p l : doc_sorted l -> doc_sorted (List.filter p l).
Proof.
  induction 1 as [|x l _ IH Hall]; [constructor|]. cbn [List.filter]. destruct (p x); [|done].
  constructor; [done|]. rewrite Forall_forall in *. intros y Hy. apply Hall.
  rewrite list_elem_of_In in *. by apply filter_In in Hy as [? _].
Qed.

Lemma retain_wf scope d : doc_wf d -> doc_wf (meshtastic_cluster_doc_retain scope d).1.
Proof.
  intros [Hs Hr He]. split; rewrite ?retain_entries.
  - by apply filter_sorted.
  - assert (Hc : doc_cap (meshtastic_cluster_doc_retain scope d).1 = doc_cap d)
      by (unfold meshtastic_cluster_doc_retain; by destruct (retain_loop _ _)).
    rewrite Hc. pose proof (List.filter_length_le
      (fun e => meshtastic_cluster_scope_contains scope (e_key e)) (entries d)). lia.
  - rewrite Forall_forall in *. intros x Hx. apply He. rewrite list_elem_of_In in *.
    by apply filter_In in Hx as [? _].
Qed.

(** ** Last writer wins *)

(** [e] is the last version of its key among [es]. *)
Definition winner (es : list cluster_entry) (e : cluster_entry) : Prop :=
  e ∈ es /\ forall e', e' ∈ es -> e_key e' = e_key e -> meshtastic_hlc_newer (e_stamp e') (e_stamp e) = false.

(** A stamp names one version of a key. *)
Definition versions_unique (es : list cluster_entry) : Prop :=
  forall e e', e ∈ es -> e' ∈ es -> e_key e = e_key e' -> e_stamp e = e_stamp e' -> e = e'.

Definition doc_after (cap : nat) (es : list cluster_entry) : cluster_doc :=
  foldl (fun d e => (accept_entry e d).1) (meshtastic_cluster_doc_init cap) es.

Lemma doc_after_cap cap es : doc_cap (doc_after cap es) = cap.
Proof.
  unfold doc_after. induction es as [|e es IH] using rev_ind; [done|]. rewrite foldl_snoc, accept_spec.
  repeat case_match; done.
Qed.

Lemma doc_after_wf cap es : doc_wf (doc_after cap es).
Proof.
  unfold doc_after. induction es as [|e es IH] using rev_ind; [|rewrite foldl_snoc; by apply accept_wf].
  split; simpl; [constructor | lia | constructor].
Qed.

(** Enough room: the table has a slot for every distinct key. *)
Definition distinct_keys (es : list cluster_entry) : nat := length (remove_dups (e_key <$> es)).

Lemma keys_room (l es : list cluster_entry) :
  NoDup (e_key <$> l) -> (forall e, e ∈ l -> e_key e ∈ (e_key <$> es)) -> (length l <= distinct_keys es)%nat.
Proof.
  intros Hn Hin. unfold distinct_keys. rewrite <- (length_fmap e_key l).
  apply submseteq_length, NoDup_submseteq; [done|]. intros k (e & -> & He)%list_elem_of_fmap.
  apply elem_of_remove_dups. by apply Hin.
Qed.

Lemma not_newer_both (a b : hlc_stamp) :
  meshtastic_hlc_newer a b = false -> meshtastic_hlc_newer b a = false -> a = b.
Proof. intros Hab Hba. destruct (vo_not_newer a b Hab) as [?|?]; [done | congruence]. Qed.

Lemma winner_unique es e e' :
  versions_unique es -> winner es e -> winner es e' -> e_key e = e_key e' -> e = e'.
Proof.
  intros Hu [He Hb] [He' Hb'] Ek. apply Hu; [done.. |]. by apply not_newer_both; [apply Hb' | apply Hb].
Qed.


(** [a] beats every version of its key seen so far. *)
Lemma winner_snoc_win es a e :
  versions_unique (es ++ [a]) ->
  (forall x, x ∈ es -> e_key x = e_key a -> meshtastic_hlc_newer (e_stamp x) (e_stamp a) = false) ->
  winner (es ++ [a]) e <-> e = a \/ (winner es e /\ e_key e <> e_key a).
Proof.
  intros Hu Hbeat. split.
  - intros [He Hb]. destruct (decide (e_key e = e_key a)) as [Ek|Ek].
    + left. apply Hu; [done | set_solver | done|]. apply not_newer_both.
      * apply elem_of_app in He as [He| ->%list_elem_of_singleton]; [by apply Hbeat | apply vo_irrefl].
      * apply Hb; [set_solver | done].
    + right. split; [|done]. apply elem_of_app in He as [He| ->%list_elem_of_singleton]; [|done].
      split; [done|]. intros e' He'. apply Hb. set_solver.
  - intros [->|[[He Hb] Ek]].
    + split; [set_solver|]. intros e' [He'| ->%list_elem_of_singleton]%elem_of_app Ek;
        [by apply Hbeat | apply vo_irrefl].
    + split; [set_solver|]. intros e' [He'| ->%list_elem_of_singleton]%elem_of_app Ek'; [by apply Hb | done].
Qed.

(** [a] is not newer than the version held. *)
Lemma winner_snoc_lose es a old e :
  versions_unique (es ++ [a]) -> winner es old -> e_key old = e_key a ->
  meshtastic_hlc_newer (e_stamp a) (e_stamp old) = false ->
  winner (es ++ [a]) e <-> winner es e.
Proof.
  intros Hu Hold Ek Hn.
  assert (Hu' : versions_unique es) by (intros x y Hx Hy; apply Hu; set_solver). split.
  - intros [He Hb]. apply elem_of_app in He as [He| ->%list_elem_of_singleton].
    + split; [done|]. intros e' He'. apply Hb. set_solver.
    + replace a with old; [done|]. destruct Hold as [Ho Hbo]. apply Hu; [set_solver | set_solver | done|].
      apply not_newer_both; [apply Hb; [set_solver | done] | done].
  - intros [He Hb]. split; [set_solver|].
    intros e' [He'| ->%list_elem_of_singleton]%elem_of_app Ek'; [by apply Hb|].
    replace e with old; [done|]. apply (winner_unique es); [done | done | by split | congruence].
Qed.

(** A version newer than the one held beats all versions of the key. *)
Lemma newer_than_winner es a old :
  winner es old -> e_key old = e_key a -> meshtastic_hlc_newer (e_stamp a) (e_stamp old) = true ->
  forall x, x ∈ es -> e_key x = e_key a -> meshtastic_hlc_newer (e_stamp x) (e_stamp a) = false.
Proof.
  intros [Ho Hb] Ek Hn x Hx Ekx. specialize (Hb x Hx ltac:(congruence)).
  apply vo_asym. destruct (vo_not_newer _ _ Hb) as [->|Hox]; [done | by eapply vo_trans].
Qed.

Lemma winner_exists es x : versions_unique es -> x ∈ es -> exists w, winner es w /\ e_key w = e_key x.
Proof.
  revert x. induction es as [|a es IH] using rev_ind; intros x Hu Hx; [set_solver|].
  assert (Hu' : versions_unique es) by (intros y z Hy Hz; apply Hu; set_solver).
  assert (Hwin : (forall y, y ∈ es -> e_key y = e_key a ->
                    meshtastic_hlc_newer (e_stamp y) (e_stamp a) = false) ->
                 exists w, winner (es ++ [a]) w /\ e_key w = e_key x).
  { intros Hbeat. destruct (decide (e_key x = e_key a)) as [Ek|Ek].
    - exists a. split; [apply winner_snoc_win; auto | done].
    - apply elem_of_app in Hx as [Hx| ->%list_elem_of_singleton]; [|done].
      destruct (IH x Hu' Hx) as (w & Hw & Ew). exists w. split; [|done].
      apply winner_snoc_win; [done | done|]. right. split; [done | congruence]. }
  destruct (decide (Exists (fun y => e_key y = e_key a) es)) as [Hex|Hno].
  - apply Exists_exists in Hex as (y & Hy & Ey). destruct (IH y Hu' Hy) as (w & Hw & Ew).
    destruct (meshtastic_hlc_newer (e_stamp a) (e_stamp w)) eqn:En.
    + apply Hwin. apply (newer_than_winner es a w); [done | congruence | done].
    + assert (Hall : forall v, winner (es ++ [a]) v <-> winner es v)
        by (intros v; apply (winner_snoc_lose es a w); [done | done | congruence | done]).
      apply elem_of_app in Hx as [Hx| ->%list_elem_of_singleton].
      * destruct (IH x Hu' Hx) as (v & Hv & Ev). exists v. by rewrite Hall.
      * exists w. rewrite Hall. split; [done | congruence].
  - apply Hwin. intros y Hy Ey. exfalso. apply Hno, Exists_exists. eauto.
Qed.

Lemma versions_unique_prefix es es' : versions_unique (es ++ es') -> versions_unique es.
Proof. intros Hu x y Hx Hy. apply Hu; set_solver. Qed.

Lemma doc_after_winners cap es :
  Forall (fun e => entry_ok e = true) es -> versions_unique es -> (distinct_keys es <= cap)%nat ->
  forall pre post, es = pre ++ post -> forall e, e ∈ entries (doc_after cap pre) <-> winner pre e.
Proof.
  intros Hok Hu Hroom pre. induction pre as [|a pre IH] using rev_ind; intros post Epost e.
  { split; [set_solver|]. intros [? _]. set_solver. }
  specialize (IH (a :: post) ltac:(by rewrite Epost, <- app_assoc)).
  unfold doc_after. rewrite foldl_snoc. fold (doc_after cap pre).
  pose proof (doc_after_wf cap pre) as [Hs _ _]. pose proof (doc_after_cap cap pre) as Hcap.
  set (d := doc_after cap pre) in *.
  assert (Hua : versions_unique (pre ++ [a])) by (rewrite Epost in Hu; by eapply versions_unique_prefix).
  assert (Hin : forall x, x ∈ pre ++ [a] -> x ∈ es) by (intros x Hx; rewrite Epost; set_solver).
  rewrite accept_spec, (proj1 (Forall_forall _ _) Hok a (Hin a ltac:(set_solver))). cbn [negb].
  destruct (meshtastic_cluster_doc_find (e_key a) d) as [old|] eqn:Ef.
  - apply find_spec in Ef as [Hold Ek]; [|done]. apply IH in Hold.
    destruct (meshtastic_hlc_newer _ _) eqn:En.
    + cbn [fst entries set_entries]. rewrite put_entry_elem, IH by done. symmetry.
      apply winner_snoc_win; [done|]. by apply (newer_than_winner pre a old).
    + cbn [fst]. rewrite IH. symmetry. by apply (winner_snoc_lose pre a old).
  - pose proof (proj1 (find_None _ d Hs) Ef) as Habs.
    assert (Hnone : forall x, x ∈ pre -> e_key x <> e_key a).
    { intros x Hx Ek. destruct (winner_exists pre x (versions_unique_prefix _ _ Hua) Hx) as (w & Hw & Ew).
      apply (Habs w); [by apply IH | congruence]. }
    assert (Hlen : (length (put_entry a (entries d)) <= distinct_keys es)%nat).
    { apply keys_room; [by apply sorted_keys_nodup, put_entry_sorted|]. intros x Hx.
      apply list_elem_of_fmap_2, Hin. rewrite put_entry_elem in Hx by done.
      destruct Hx as [->|[Hx _]]; [set_solver|]. apply IH in Hx as [Hx _]. set_solver. }
    rewrite put_entry_length, Ef in Hlen. destruct (_ <=? _)%nat eqn:E; [apply Nat.leb_le in E; lia|].
    cbn [fst entries set_entries]. rewrite put_entry_elem, IH by done. symmetry.
    apply winner_snoc_win; [done|]. intros x Hx Ek. by destruct (Hnone x Hx).
Qed.

(** ** Lookup after eviction *)

Lemma find_retain scope key d :
  doc_wf d -> meshtastic_cluster_scope_contains scope key = true ->
  meshtastic_cluster_doc_find key (meshtastic_cluster_doc_retain scope d).1 =
  meshtastic_cluster_doc_find key d.
Proof.
  intros Hwf Hin. pose proof (wf_sorted _ (retain_wf scope d Hwf)) as Hs'. pose proof (wf_sorted _ Hwf) as Hs.
  destruct (meshtastic_cluster_doc_find key d) as [e|] eqn:E.
  - apply find_spec in E as [He Ek]; [|done]. apply find_spec; [done|]. split; [|done].
    rewrite retain_entries. apply list_elem_of_In, filter_In. rewrite Ek. by rewrite <- list_elem_of_In.
  - apply find_None; [done|]. intros e He. rewrite retain_entries in He.
    apply list_elem_of_In, filter_In in He as [He _]. apply (proj1 (find_None key d Hs) E).
    by apply list_elem_of_In.
Qed.

Lemma hash_filter (crc : Z -> list Z -> Z) scope (l : list cluster_entry) (c : Z) :
  foldl (fun crc0 e => if negb (meshtastic_cluster_scope_contains scope (e_key e)) then crc0
                       else crc crc0 (row_bytes e)) c l =
  foldl (fun crc0 e => crc crc0 (row_bytes e)) c
    (List.filter (fun e => meshtastic_cluster_scope_contains scope (e_key e)) l).
Proof.
  revert c. induction l as [|e l IH]; intros c; [done|]. cbn [foldl List.filter].
  destruct (meshtastic_cluster_scope_contains scope (e_key e)); cbn [negb foldl]; apply IH.
Qed.

(** ** Fixed-width fields *)

Lemma le_put_inj n x y :
  0 <= x < 256 ^ Z.of_nat n -> 0 <= y < 256 ^ Z.of_nat n -> le_put n x = le_put n y -> x = y.
Proof. intros Hx Hy E. by rewrite <- (le_get_put n x), E, le_get_put. Qed.

(** The widths of the C fields. *)
Definition key_width (k : cluster_key) : Prop :=
  in_u8 (k_layer k) /\ in_u32 (k_node_id k) /\ in_u16 (k_section k).
Definition stamp_width (s : hlc_stamp) : Prop :=
  - 2 ^ 63 <= st_physical_ms s < 2 ^ 63 /\ in_u32 (st_counter s) /\ in_u32 (st_node_id s).

Lemma u64_inj x y : - 2 ^ 63 <= x < 2 ^ 63 -> - 2 ^ 63 <= y < 2 ^ 63 -> u64 x = u64 y -> x = y.
Proof.
  unfold u64, wrap. intros Hx Hy E.
  assert (Hd : (x - y) `mod` 2 ^ 64 = 0) by (rewrite Zminus_mod, E, Z.sub_diag; done).
  apply Z.mod_divide in Hd as [k Hk]; [|lia]. assert (k = 0) by lia. lia.
Qed.

Lemma u64_range x : 0 <= u64 x < 256 ^ Z.of_nat 8.
Proof. apply (wrap_range 64 x). lia. Qed.

Lemma signed_fields_inj k k' s s' t t' n n' p p' :
  key_width k -> key_width k' -> stamp_width s -> stamp_width s' -> in_u16 n -> in_u16 n' ->
  signed_fields k s t n ++ p = signed_fields k' s' t' n' ++ p' ->
  k = k' /\ s = s' /\ t = t' /\ n = n' /\ p = p'.
Proof.
  intros (K1 & K2 & K3) (K1' & K2' & K3') (S1 & S2 & S3) (S1' & S2' & S3') Hn Hn' E.
  unfold in_u8, in_u16, in_u32, UINT8_MAX, UINT16_MAX, UINT32_MAX in *.
  unfold signed_fields in E. rewrite <- !app_assoc in E.
  repeat match type of E with
  | le_put ?w ?x ++ _ = le_put ?w ?y ++ _ =>
      let F := fresh "F" in
      apply app_inj_1 in E as [F E]; [|by rewrite !length_le_put];
      apply le_put_inj in F;
        [|first [apply u64_range | destruct t; simpl; lia | simpl; lia]
         |first [apply u64_range | destruct t'; simpl; lia | simpl; lia]]
  end.
  apply u64_inj in F2; [|done..].
  destruct k, k', s, s'; simpl in *. subst. split; [done|]. split; [done|].
  split; [destruct t, t'; done | done].
Qed.

Lemma signing_buffer_Some cap k s t p b :
  meshtastic_cluster_signing_buffer cap k s t (Some p) (Z.of_nat (length p)) = Some b ->
  Z.of_nat (length p) <= 128 /\
  b = MESHTASTIC_CLUSTER_SIGBUF_PREFIX ++ signed_fields k s t (Z.of_nat (length p)) ++ p.
Proof.
  unfold meshtastic_cluster_signing_buffer. rewrite Nat2Z.id. cbn [default]. rewrite firstn_all.
  destruct (MESHTASTIC_CLUSTER_PAYLOAD_MAX <? Z.of_nat (length p)) eqn:E1; [done|].
  destruct (_ || _); [done|]. intros [= <-]. bools. unfold MESHTASTIC_CLUSTER_PAYLOAD_MAX in *.
  split; [lia | done].
Qed.

(** ** Scopes and digests *)

Lemma scope_intersect_contains a b key :
  meshtastic_cluster_scope_contains (meshtastic_cluster_scope_intersect a b) key =
  meshtastic_cluster_scope_contains a key && meshtastic_cluster_scope_contains b key.
Proof.
  destruct a as [[] x], b as [[] y]; unfold meshtastic_cluster_scope_intersect; simpl; try done;
    try (by rewrite andb_true_r); unfold meshtastic_cluster_scope_contains; simpl;
    try (by destruct (k_layer key =? LAYER_BASE)).
  - destruct (k_layer key =? LAYER_BASE) eqn:E; simpl; [|by rewrite ?andb_false_r].
    by destruct (_ =? _).
  - destruct (x =? y) eqn:Exy; simpl; destruct (k_layer key =? LAYER_BASE) eqn:E; try done;
      destruct (k_node_id key =? x) eqn:E1, (k_node_id key =? y) eqn:E2; try done; bools; lia.
Qed.

Definition in_scope (scope : cluster_scope) (l : list cluster_entry) : list cluster_entry :=
  List.filter (fun e => meshtastic_cluster_scope_contains scope (e_key e)) l.

Lemma in_scope_elem scope l e :
  e ∈ in_scope scope l <-> e ∈ l /\ meshtastic_cluster_scope_contains scope (e_key e) = true.
Proof. unfold in_scope. by rewrite !list_elem_of_In, filter_In. Qed.

Lemma foldl_in_scope {A} (f : A -> cluster_entry -> A) scope l a :
  foldl (fun x e => if meshtastic_cluster_scope_contains scope (e_key e) then f x e else x) a l =
  foldl f a (in_scope scope l).
Proof.
  revert a. induction l as [|e l IH]; intros a; [done|]. cbn [foldl in_scope List.filter].
  destruct (meshtastic_cluster_scope_contains scope (e_key e)); apply IH.
Qed.

Lemma foldl_ext_all {A B} (f g : A -> B -> A) l a : (forall x y, f x y = g x y) -> foldl f a l = foldl g a l.
Proof. intros E. revert a. induction l as [|b l IH]; intros a; [done|]. cbn [foldl]. by rewrite E, IH. Qed.

Lemma in_scope_ext scope d1 d2 :
  doc_wf d1 -> doc_wf d2 ->
  (forall key, meshtastic_cluster_scope_contains scope key = true ->
     meshtastic_cluster_doc_find key d1 = meshtastic_cluster_doc_find key d2) ->
  in_scope scope (entries d1) = in_scope scope (entries d2).
Proof.
  intros [S1 _ _] [S2 _ _] Hsame. apply sorted_ext; [by apply filter_sorted.. |]. intros e.
  rewrite !in_scope_elem. split; intros [He Hin]; (split; [|done]); specialize (Hsame _ Hin).
  - apply (find_spec (e_key e) d2 e S2). rewrite <- Hsame. by apply find_spec.
  - apply (find_spec (e_key e) d1 e S1). rewrite Hsame. by apply find_spec.
Qed.

Lemma scoped_digest_ext crc scope d1 d2 :
  doc_wf d1 -> doc_wf d2 ->
  (forall key, meshtastic_cluster_scope_contains scope key = true ->
     meshtastic_cluster_doc_find key d1 = meshtastic_cluster_doc_find key d2) ->
  meshtastic_cluster_doc_hash_scoped crc scope d1 = meshtastic_cluster_doc_hash_scoped crc scope d2 /\
  meshtastic_cluster_doc_count_scoped scope d1 = meshtastic_cluster_doc_count_scoped scope d2 /\
  meshtastic_cluster_doc_max_stamp_scoped scope d1 = meshtastic_cluster_doc_max_stamp_scoped scope d2.
Proof.
  intros W1 W2 Hsame. pose proof (in_scope_ext scope d1 d2 W1 W2 Hsame) as E.
  unfold meshtastic_cluster_doc_hash_scoped, meshtastic_cluster_doc_count_scoped,
    meshtastic_cluster_doc_max_stamp_scoped.
  rewrite !hash_filter. fold (in_scope scope (entries d1)). fold (in_scope scope (entries d2)). rewrite E.
  split; [done|]. rewrite !foldl_in_scope, E. split; [done|].
  rewrite !(foldl_ext_all (fun out e =>
    if negb (meshtastic_cluster_scope_contains scope (e_key e)) then out
    else if meshtastic_hlc_newer (e_stamp e) out then e_stamp e else out)
    (fun out e => if meshtastic_cluster_scope_contains scope (e_key e)
                  then (if meshtastic_hlc_newer (e_stamp e) out then e_stamp e else out) else out))
    by (intros x e; by destruct (meshtastic_cluster_scope_contains scope (e_key e))).
  rewrite (foldl_in_scope (fun out e => if meshtastic_hlc_newer (e_stamp e) out then e_stamp e else out)).
  rewrite (foldl_in_scope (fun out e => if meshtastic_hlc_newer (e_stamp e) out then e_stamp e else out)).
  by rewrite E.
Qed.

(** A set stamp from the epoch on is newer than the zero stamp. *)
Lemma set_stamp_newer s :
  meshtastic_hlc_stamp_is_unset s = false -> 0 <= st_physical_ms s -> stamp_width s ->
  meshtastic_hlc_newer s unset_stamp = true.
Proof.
  intros Hu Hp (_ & Hc & Hn). unfold in_u32 in *. destruct s as [p c n]; simpl in *.
  unfold meshtastic_hlc_stamp_is_unset, meshtastic_hlc_newer, meshtastic_hlc_compare in *; simpl in *.
  branches; lia.
Qed.

Lemma entry_stamp_set d e : doc_wf d -> e ∈ entries d -> meshtastic_hlc_stamp_is_unset (e_stamp e) = false.
Proof.
  intros [_ _ Hok] He. rewrite Forall_forall in Hok. specialize (Hok e He). unfold entry_ok in Hok.
  by bools.
Qed.

(** ** Operations of a document's owner *)
Inductive doc_op :=
  | OpAccept (e : cluster_entry)
  | OpRetain (scope : cluster_scope)
  | OpClear.

Definition doc_apply (o : doc_op) (d : cluster_doc) : cluster_doc :=
  match o with
  | OpAccept e => (accept_entry e d).1
  | OpRetain scope => (meshtastic_cluster_doc_retain scope d).1
  | OpClear => (meshtastic_cluster_doc_clear d).1
  end.

Lemma doc_apply_wf o d : doc_wf d -> doc_wf (doc_apply o d).
Proof.
  intros Hwf. destruct o; simpl; [by apply accept_wf | by apply retain_wf|].
  split; simpl; [constructor | lia | constructor].
Qed.

(** ** Properties *)

(** C2: Replicas converge. Two documents that were offered the same entries, in any
    order and with any repetitions, are identical, provided a stamp names one
    version of a key and the tables have room for the distinct keys; what each
    holds is the last version of every key. Hence their digests agree too. *)
Theorem cluster_docs_converge cap es1 es2 :
  Forall (fun e => entry_ok e = true) es1 -> versions_unique es1 -> (distinct_keys es1 <= cap)%nat ->
  (forall e, e ∈ es1 <-> e ∈ es2) ->
  doc_after cap es1 = doc_after cap es2 /\
  (forall e, e ∈ entries (doc_after cap es1) <-> winner es1 e).
Proof.
  intros Hok Hu Hroom Hsame.
  assert (Hok2 : Forall (fun e => entry_ok e = true) es2).
  { rewrite Forall_forall in *. intros e He. by apply Hok, Hsame. }
  assert (Hu2 : versions_unique es2) by (intros x y Hx%Hsame Hy%Hsame; by apply Hu).
  assert (Hroom2 : (distinct_keys es2 <= cap)%nat).
  { etrans; [|exact Hroom]. unfold distinct_keys. apply submseteq_length, NoDup_submseteq.
    - apply NoDup_remove_dups.
    - intros k Hk. rewrite elem_of_remove_dups in *. apply list_elem_of_fmap in Hk as (e & -> & He).
      by apply list_elem_of_fmap_2, Hsame. }
  pose proof (doc_after_winners cap es1 Hok Hu Hroom es1 [] ltac:(by rewrite app_nil_r)) as W1.
  pose proof (doc_after_winners cap es2 Hok2 Hu2 Hroom2 es2 [] ltac:(by rewrite app_nil_r)) as W2.
  split; [|done]. pose proof (doc_after_cap cap es1) as C1. pose proof (doc_after_cap cap es2) as C2.
  pose proof (wf_sorted _ (doc_after_wf cap es1)) as S1. pose proof (wf_sorted _ (doc_after_wf cap es2)) as S2.
  destruct (doc_after cap es1) as [l1 c1], (doc_after cap es2) as [l2 c2]; simpl in *. subst. f_equal.
  apply sorted_ext; [done | done|]. intros e. rewrite W1, W2. unfold winner. rewrite Hsame.
  split; intros [He Hb]; (split; [done|]); intros e' He'; by apply Hb, Hsame.
Qed.

(** The table stays a table: under any sequence of merges, narrowings and clears
    its entries are strictly sorted by key, no more than its capacity, and each one
    that the merge would admit again. *)
Theorem cluster_doc_invariant cap ops :
  doc_wf (foldl (fun d o => doc_apply o d) (meshtastic_cluster_doc_init cap) ops).
Proof.
  induction ops as [|o ops IH] using rev_ind; [|rewrite foldl_snoc; by apply doc_apply_wf].
  split; simpl; [constructor | lia | constructor].
Qed.

(** Asking and storing agree. For an entry that is well-formed apart from its place
    in the table, the document wants it exactly if merging it would store it, and
    reports no space exactly if merging it would fail for lack of space, so a row
    that was asked for is never refused and the request loop makes progress. *)
Theorem want_agrees_with_accept e d :
  entry_ok e = true ->
  match meshtastic_cluster_doc_want (meshtastic_cluster_scope_make SCOPE_FULL 0) (e_key e) (e_stamp e) d with
  | WANT_YES => (accept_entry e d).2 = Val 1
  | WANT_NO_SPACE => (accept_entry e d).2 = Fail ENOSPC
  | WANT_NO => (accept_entry e d).2 = Val 0
  end.
Proof.
  intros Hok. rewrite accept_spec, Hok. cbn [negb].
  unfold meshtastic_cluster_doc_want, meshtastic_cluster_scope_contains. simpl.
  unfold entry_ok in Hok. bools.
  match goal with Hk : key_is_valid _ = true |- _ => rewrite Hk end.
  match goal with Hk : meshtastic_hlc_stamp_is_unset _ = false |- _ => rewrite Hk end. simpl.
  destruct (meshtastic_cluster_doc_find _ _) as [old|]; [by destruct (meshtastic_hlc_newer _ _)|].
  rewrite Nat.leb_antisym. by destruct (_ <? _)%nat.
Qed.

(** Narrowing a node's claim to its core changes neither what it runs nor what it
    advertises. After dropping everything outside CORE(me), the effective entry and
    its version are the same for every section, the digest over the narrowed scope
    is the digest the whole document had over it, and exactly the dropped keys are
    reported. *)
Theorem narrowing_is_invisible crc me d :
  doc_wf d ->
  let core := meshtastic_cluster_scope_make SCOPE_CORE me in
  let '(d', evicted) := meshtastic_cluster_doc_retain core d in
  (forall section, meshtastic_cluster_doc_effective me section d' =
                   meshtastic_cluster_doc_effective me section d) /\
  (forall section, meshtastic_cluster_doc_effective_version me section d' =
                   meshtastic_cluster_doc_effective_version me section d) /\
  meshtastic_cluster_doc_hash crc d' = meshtastic_cluster_doc_hash_scoped crc core d /\
  (forall key, key ∈ evicted <-> key ∈ (e_key <$> entries d) /\
                                 meshtastic_cluster_scope_contains core key = false).
Proof.
  intros Hwf. cbv zeta. set (core := meshtastic_cluster_scope_make SCOPE_CORE me).
  destruct (meshtastic_cluster_doc_retain core d) as [d' evicted] eqn:Er.
  assert (Hd' : d' = (meshtastic_cluster_doc_retain core d).1) by by rewrite Er.
  assert (Hnode : forall s, meshtastic_cluster_scope_contains core (ClusterKey LAYER_NODE me s) = true)
    by (intros s; cbn; apply Z.eqb_refl).
  assert (Hbase : forall s, meshtastic_cluster_scope_contains core (ClusterKey LAYER_BASE 0 s) = true) by done.
  split; [|split; [|split]].
  - intros s. unfold meshtastic_cluster_doc_effective. by rewrite Hd', !find_retain by done.
  - intros s. unfold meshtastic_cluster_doc_effective_version. by rewrite Hd', !find_retain by done.
  - unfold meshtastic_cluster_doc_hash, meshtastic_cluster_doc_hash_scoped. rewrite !hash_filter.
    f_equal. rewrite Hd', retain_entries. induction (entries d) as [|e l IH]; [done|]. cbn [List.filter].
    destruct (meshtastic_cluster_scope_contains core (e_key e)); cbn [List.filter]; [|done].
    cbn [meshtastic_cluster_scope_contains meshtastic_cluster_scope_make sc_kind]. simpl. by rewrite IH.
  - intros key. unfold meshtastic_cluster_doc_retain in Er. rewrite retain_filter in Er. injection Er as _ <-.
    rewrite !list_elem_of_fmap. setoid_rewrite list_elem_of_In. setoid_rewrite filter_In. split.
    + intros (e & -> & He & Hn). bools. split; [eauto | done].
    + intros [(e & -> & He) Hn]. exists e. rewrite Hn. done.
Qed.

(** An author's signature covers the whole entry. Two entries whose signing buffers
    are the same bytes have the same key, stamp (with its author), tombstone flag
    and payload, so a signature cannot be moved to another entry. *)
Theorem signing_buffer_injective cap cap' k k' s s' t t' p p' b :
  key_width k -> key_width k' -> stamp_width s -> stamp_width s' ->
  meshtastic_cluster_signing_buffer cap k s t (Some p) (Z.of_nat (length p)) = Some b ->
  meshtastic_cluster_signing_buffer cap' k' s' t' (Some p') (Z.of_nat (length p')) = Some b ->
  k = k' /\ s = s' /\ t = t' /\ p = p'.
Proof.
  intros Hk Hk' Hs Hs' [Hp ->]%signing_buffer_Some [Hp' E]%signing_buffer_Some.
  apply app_inv_head in E. apply signed_fields_inj in E as (-> & -> & -> & _ & ->);
    [done | done..| |]; unfold in_u16, UINT16_MAX; lia.
Qed.

(** Nodes on different tiers compare like with like. The intersection of two
    scopes claims exactly the keys both claim, and two documents that hold the same
    entries for those keys have the same digest (hash, count and newest stamp) over
    it, whatever else each of them holds. *)
Theorem tiers_compare_like_with_like crc a b d1 d2 :
  doc_wf d1 -> doc_wf d2 ->
  let both := meshtastic_cluster_scope_intersect a b in
  (forall key, meshtastic_cluster_scope_contains both key =
     meshtastic_cluster_scope_contains a key && meshtastic_cluster_scope_contains b key) /\
  ((forall key, meshtastic_cluster_scope_contains a key = true ->
                meshtastic_cluster_scope_contains b key = true ->
                meshtastic_cluster_doc_find key d1 = meshtastic_cluster_doc_find key d2) ->
   meshtastic_cluster_doc_hash_scoped crc both d1 = meshtastic_cluster_doc_hash_scoped crc both d2 /\
   meshtastic_cluster_doc_count_scoped both d1 = meshtastic_cluster_doc_count_scoped both d2 /\
   meshtastic_cluster_doc_max_stamp_scoped both d1 = meshtastic_cluster_doc_max_stamp_scoped both d2).
Proof.
  intros W1 W2. cbv zeta. split; [apply scope_intersect_contains|]. intros Hsame.
  apply scoped_digest_ext; [done | done|]. intros key Hin. rewrite scope_intersect_contains in Hin.
  apply andb_true_iff in Hin as [Ha Hb]. by apply Hsame.
Qed.

(** The version of a section is the newest stamp of its two layers, tombstones
    included, and is reported exactly if the document has an entry for the section,
    for documents whose stamps are not before the epoch. Hence an unpin is a new
    version although the value it leaves in force is older. *)
Theorem effective_version_newest node_id section d :
  doc_wf d -> (forall e, e ∈ entries d -> 0 <= st_physical_ms (e_stamp e)) ->
  (forall e, e ∈ entries d -> stamp_width (e_stamp e)) ->
  let layer := fun k => meshtastic_cluster_doc_find k d in
  let held := omap layer [ClusterKey LAYER_NODE node_id section; ClusterKey LAYER_BASE 0 section] in
  let '(out, have) := meshtastic_cluster_doc_effective_version node_id section d in
  (have = true <-> held <> []) /\
  (have = true -> out ∈ (e_stamp <$> held)) /\
  (forall e, e ∈ held -> meshtastic_hlc_newer (e_stamp e) out = false).
Proof.
  intros Hwf Hpos Hwid. cbv zeta. unfold meshtastic_cluster_doc_effective_version. cbn [omap list_omap].
  pose proof (wf_sorted _ Hwf) as Hs.
  destruct (meshtastic_cluster_doc_find (ClusterKey LAYER_NODE node_id section) d) as [n|];
    destruct (meshtastic_cluster_doc_find (ClusterKey LAYER_BASE 0 section) d) as [b|] eqn:Eb.
  - destruct (meshtastic_hlc_newer (e_stamp b) (e_stamp n)) eqn:En;
      (split; [done|]); (split; [set_solver|]); intros e He;
      apply elem_of_cons in He as [->| ->%list_elem_of_singleton];
      solve [apply vo_irrefl | by apply vo_asym | done].
  - split; [done|]. split; [set_solver|]. intros e ->%list_elem_of_singleton. apply vo_irrefl.
  - apply find_spec in Eb as [He _]; [|done].
    assert (Hn : meshtastic_hlc_newer (e_stamp b) unset_stamp = true).
    { apply set_stamp_newer; [by apply (entry_stamp_set d) | by apply Hpos | by apply Hwid]. }
    rewrite Hn. split; [done|]. split; [set_solver|]. intros e ->%list_elem_of_singleton. apply vo_irrefl.
  - split; [done|]. split; [done | set_solver].
Qed.

(** A base section with a stamp before the epoch is stored and in force, but has no
    version. *)
Example effective_version_before_epoch :
  let e := ClusterEntry (ClusterKey LAYER_BASE 0 6) (HlcStamp (-1) 1 7) false [1] None in
  let d := (accept_entry e (meshtastic_cluster_doc_init 4)).1 in
  meshtastic_cluster_doc_effective 9 6 d = Some e /\
  meshtastic_cluster_doc_effective_version 9 6 d = (unset_stamp, false).
Proof. done. Qed.

(** ** Witnesses *)

(** A base section, its newer version, a pin of node 9 and its removal. *)
Definition base_v1 := ClusterEntry (ClusterKey LAYER_BASE 0 6) (HlcStamp 1000 0 7) false [1; 2] None.
Definition base_v2 := ClusterEntry (ClusterKey LAYER_BASE 0 6) (HlcStamp 1000 1 7) false [3] None.
Definition pin_v1 := ClusterEntry (ClusterKey LAYER_NODE 9 6) (HlcStamp 2000 0 9) false [5] None.
Definition pin_gone := ClusterEntry (ClusterKey LAYER_NODE 9 6) (HlcStamp 3000 0 7) true [] None.
Definition other_pin := ClusterEntry (ClusterKey LAYER_NODE 8 6) (HlcStamp 2500 0 8) false [4] None.

Lemma cluster_docs_converge_witness :
  let es1 := [base_v1; pin_v1; base_v2; pin_gone] in
  let es2 := [pin_gone; base_v2; pin_gone; base_v1; pin_v1] in
  doc_after 2 es1 = doc_after 2 es2 /\ entries (doc_after 2 es1) = [base_v2; pin_gone].
Proof.
  cbv zeta. split; [|vm_compute; done].
  eapply (cluster_docs_converge 2 [base_v1; pin_v1; base_v2; pin_gone]
    [pin_gone; base_v2; pin_gone; base_v1; pin_v1]).
  - repeat (apply Forall_cons_2; [reflexivity|]). apply Forall_nil_2.
  - intros x y Hx Hy. rewrite !elem_of_cons, elem_of_nil in Hx, Hy.
    destruct Hx as [->|[->|[->|[->|[]]]]]; destruct Hy as [->|[->|[->|[->|[]]]]]; simpl; intros; congruence.
  - vm_compute. lia.
  - set_solver.
Defined.

Lemma want_agrees_with_accept_witness :
  entry_ok base_v2 = true /\
  (accept_entry base_v2 (doc_after 1 [base_v1])).2 = Val 1 /\
  (accept_entry pin_v1 (doc_after 1 [base_v1])).2 = Fail ENOSPC.
Proof.
  split; [reflexivity|]. split.
  - apply (want_agrees_with_accept base_v2 (doc_after 1 [base_v1])). reflexivity.
  - apply (want_agrees_with_accept pin_v1 (doc_after 1 [base_v1])). reflexivity.
Defined.

Lemma narrowing_is_invisible_witness :
  let d := doc_after 4 [base_v1; pin_v1; other_pin] in
  meshtastic_cluster_doc_effective 9 6
    (meshtastic_cluster_doc_retain (meshtastic_cluster_scope_make SCOPE_CORE 9) d).1 =
  meshtastic_cluster_doc_effective 9 6 d /\
  (meshtastic_cluster_doc_retain (meshtastic_cluster_scope_make SCOPE_CORE 9) d).2 = [e_key other_pin].
Proof.
  split; [|vm_compute; done].
  apply (narrowing_is_invisible (fun c _ => c) 9 (doc_after 4 [base_v1; pin_v1; other_pin])
           (doc_after_wf 4 [base_v1; pin_v1; other_pin])).
Defined.

Lemma signing_buffer_injective_witness :
  exists b,
    meshtastic_cluster_signing_buffer 57 (e_key pin_v1) (e_stamp pin_v1) false (Some [5]) 1 = Some b /\
    meshtastic_cluster_signing_buffer 256 (ClusterKey 1 9 6) (HlcStamp 2000 0 9) false (Some [5]) 1 = Some b /\
    e_key pin_v1 = ClusterKey 1 9 6 /\ e_stamp pin_v1 = HlcStamp 2000 0 9 /\ false = false /\ [5] = [5].
Proof.
  eexists. split; [reflexivity|]. split; [reflexivity|].
  apply (signing_buffer_injective 57 256 (e_key pin_v1) (ClusterKey 1 9 6) (e_stamp pin_v1) (HlcStamp 2000 0 9)
    false false [5] [5] _ ltac:(vm_compute; intuition discriminate) ltac:(vm_compute; intuition discriminate)
    ltac:(vm_compute; intuition discriminate) ltac:(vm_compute; intuition discriminate) eq_refl eq_refl).
Defined.

Lemma tiers_compare_like_with_like_witness :
  let core := meshtastic_cluster_scope_make SCOPE_CORE in
  meshtastic_cluster_doc_count_scoped (meshtastic_cluster_scope_intersect (core 8) (core 9))
    (doc_after 4 [base_v1; pin_v1]) =
  meshtastic_cluster_doc_count_scoped (meshtastic_cluster_scope_intersect (core 8) (core 9))
    (doc_after 4 [base_v1; other_pin]).
Proof.
  cbv zeta.
  apply (tiers_compare_like_with_like (fun c _ => c) (meshtastic_cluster_scope_make SCOPE_CORE 8)
    (meshtastic_cluster_scope_make SCOPE_CORE 9) (doc_after 4 [base_v1; pin_v1])
    (doc_after 4 [base_v1; other_pin]) (doc_after_wf 4 _) (doc_after_wf 4 _)).
  intros [l n s]. unfold meshtastic_cluster_scope_contains, meshtastic_cluster_doc_find. simpl.
  destruct (l =? LAYER_BASE) eqn:E; [|intros; bools; lia]. bools. subst l. intros _ _.
  unfold meshtastic_cluster_key_cmp; simpl. branches; try done; lia.
Defined.

Lemma effective_version_newest_witness :
  meshtastic_cluster_doc_effective_version 9 6 (doc_after 4 [base_v1; pin_v1; pin_gone]) =
    (e_stamp pin_gone, true) /\
  meshtastic_cluster_doc_effective 9 6 (doc_after 4 [base_v1; pin_v1; pin_gone]) = Some base_v1 /\
  (true = true <->
   omap (fun k => meshtastic_cluster_doc_find k (doc_after 4 [base_v1; pin_v1; pin_gone]))
     [ClusterKey LAYER_NODE 9 6; ClusterKey LAYER_BASE 0 6] <> []).
Proof.
  split; [vm_compute; done|]. split; [vm_compute; done|].
  apply (effective_version_newest 9 6 (doc_after 4 [base_v1; pin_v1; pin_gone]) (doc_after_wf 4 _)).
  - intros e He. change (e ∈ [base_v1; pin_gone]) in He.
    apply elem_of_cons in He as [->| ->%list_elem_of_singleton]; simpl; lia.
  - intros e He. change (e ∈ [base_v1; pin_gone]) in He.
    apply elem_of_cons in He as [->| ->%list_elem_of_singleton]; vm_compute; intuition discriminate.
Defined.
