(* ===== verification/ClusterIngest.v ===== *)
(** * Cluster entries on the air (src/src/meshtastic_cluster.c)

    The path of an entry between two nodes: the responder's entry burst with its
    fragment cursor, the receiver's one reassembly slot, the gates an entry passes,
    and the ingest handler up to the merge. A handler runs at one instant: the
    uptime and the wall clock it reads are fields of the environment, like the
    NodeDB, the admin keys, the protobuf decoders and the signature verifier. The
    locks are left out (one handler at a time); log lines are left out, their
    throttle is not. *)
From S2P Require Import Prelude Hlc ClusterDoc.
Open Scope Z_scope.

Definition CLUSTER_PULL_KEYS : nat := 6.
Definition MESHTASTIC_CLUSTER_FRAG_MAX : Z := 88.
Definition MESHTASTIC_CLUSTER_SECTION_PRIVATE : Z := 256.
Definition MESHTASTIC_CLUSTER_SECTION_FW : Z := 256.
Definition CLUSTER_SERVE_BURST : Z := 3.
Definition MESHTASTIC_CLUSTER_SIGBUF_MAX : Z :=
  Z.of_nat (length MESHTASTIC_CLUSTER_SIGBUF_PREFIX) + 26 + MESHTASTIC_CLUSTER_PAYLOAD_MAX.

(** ** Messages *)

Record pb_key := PbKey { pk_layer : Z; pk_node_id : Z; pk_section : Z }.

(** [has_key]/[key] and [has_stamp]/[stamp] are options; [pe_sig] is empty when
    [author_sig.size] is 0. *)
Record pb_entry := PbEntry {
  pe_key : option pb_key;
  pe_stamp : option hlc_stamp;
  pe_tombstone : bool;
  pe_payload : list Z;
  pe_total : Z;
  pe_offset : Z;
  pe_sig : list Z;
}.

Record class_intent := ClassIntent { ci_class_id : Z; ci_version : Z; ci_hash_prefix : list Z; ci_flags : Z }.

Definition key_to_pb (k : cluster_key) : pb_key :=
  PbKey (if k_layer k =? LAYER_BASE then 0 else 1) (k_node_id k) (k_section k).

Definition key_from_pb (k : pb_key) : cluster_key :=
  ClusterKey (if pk_layer k =? 0 then LAYER_BASE else LAYER_NODE) (pk_node_id k)
    (if pk_section k <=? UINT16_MAX then u16 (pk_section k) else 0).

(** ** State *)

(** The counters this path touches, each a [uint32_t]. *)
Inductive counter :=
  | RX_UNDECODABLE | ENTRY_TX | ENTRY_RX_APPLIED | ENTRY_RX_STALE | ENTRY_RX_REFUSED
  | ENTRY_RX_NO_SPACE | ENTRY_RX_OUT_OF_SCOPE | ENTRY_RX_FUTURE | FRAG_RX | FRAG_ASSEMBLED
  | FRAG_OUT_OF_ORDER | FRAG_DISPLACED | FRAG_TIMED_OUT | TX_BUSY | SIG_VERIFIED | SIG_UNSIGNED
  | SIG_REFUSED_UNSIGNED | SIG_REFUSED_MALFORMED | SIG_REFUSED_NO_KEY | SIG_REFUSED_BAD.
#[export] Instance counter_eq_dec : EqDecision counter.
Proof. solve_decision. Defined.
Definition cluster_stats := counter -> Z.
Definition stat_inc (c : counter) (s : cluster_stats) : cluster_stats :=
  fun c' => if decide (c' = c) then u32 (s c' + 1) else s c'.

Record asm_slot := AsmSlot {
  as_active : bool;
  as_from : Z;
  as_key : cluster_key;
  as_stamp : hlc_stamp;
  as_tombstone : bool;
  as_total : Z;
  as_have : Z;
  as_deadline_ms : Z;
  as_buf : list Z;
}.
Definition set_as_active (v : bool) (r : asm_slot) : asm_slot :=
AsmSlot v (as_from r) (as_key r) (as_stamp r) (as_tombstone r) (as_total r) (as_have r)
    (as_deadline_ms r) (as_buf r).
Definition set_as_from (v : Z) (r : asm_slot) : asm_slot :=
AsmSlot (as_active r) v (as_key r) (as_stamp r) (as_tombstone r) (as_total r) (as_have r)
    (as_deadline_ms r) (as_buf r).
Definition set_as_key (v : cluster_key) (r : asm_slot) : asm_slot :=
AsmSlot (as_active r) (as_from r) v (as_stamp r) (as_tombstone r) (as_total r) (as_have r)
    (as_deadline_ms r) (as_buf r).
Definition set_as_stamp (v : hlc_stamp) (r : asm_slot) : asm_slot :=
AsmSlot (as_active r) (as_from r) (as_key r) v (as_tombstone r) (as_total r) (as_have r)
    (as_deadline_ms r) (as_buf r).
Definition set_as_tombstone (v : bool) (r : asm_slot) : asm_slot :=
AsmSlot (as_active r) (as_from r) (as_key r) (as_stamp r) v (as_total r) (as_have r)
    (as_deadline_ms r) (as_buf r).
Definition set_as_total (v : Z) (r : asm_slot) : asm_slot :=
AsmSlot (as_active r) (as_from r) (as_key r) (as_stamp r) (as_tombstone r) v (as_have r)
    (as_deadline_ms r) (as_buf r).
Definition set_as_have (v : Z) (r : asm_slot) : asm_slot :=
AsmSlot (as_active r) (as_from r) (as_key r) (as_stamp r) (as_tombstone r) (as_total r) v
    (as_deadline_ms r) (as_buf r).
Definition set_as_deadline_ms (v : Z) (r : asm_slot) : asm_slot :=
AsmSlot (as_active r) (as_from r) (as_key r) (as_stamp r) (as_tombstone r) (as_total r)
    (as_have r) v (as_buf r).
Definition set_as_buf (v : list Z) (r : asm_slot) : asm_slot :=
AsmSlot (as_active r) (as_from r) (as_key r) (as_stamp r) (as_tombstone r) (as_total r)
    (as_have r) (as_deadline_ms r) v.

Record cluster := Cluster {
  doc : cluster_doc;
  scope_kind_of : scope_kind;
  scope_id_warned : bool;
  clock : hlc;
  stats : cluster_stats;
  ent_dest : Z;
  ent_keys : list cluster_key;
  ent_next : nat;
  ent_frag_off : Z;
  push_frag_off : Z;
  asm_rx : asm_slot;
  serve_tokens : Z;
  serve_refill_ms : Z;
  pull_fruitless : Z;
  pull_hold_until_ms : Z;
  refuse_log_next_ms : Z;
  refuse_since_log : Z;
}.
Definition set_doc (v : cluster_doc) (r : cluster) : cluster :=
Cluster v (scope_kind_of r) (scope_id_warned r) (clock r) (stats r) (ent_dest r) (ent_keys
    r) (ent_next r) (ent_frag_off r) (push_frag_off r) (asm_rx r) (serve_tokens r)
    (serve_refill_ms r) (pull_fruitless r) (pull_hold_until_ms r) (refuse_log_next_ms r)
    (refuse_since_log r).
Definition set_scope_kind_of (v : scope_kind) (r : cluster) : cluster :=
Cluster (doc r) v (scope_id_warned r) (clock r) (stats r) (ent_dest r) (ent_keys r)
    (ent_next r) (ent_frag_off r) (push_frag_off r) (asm_rx r) (serve_tokens r)
    (serve_refill_ms r) (pull_fruitless r) (pull_hold_until_ms r) (refuse_log_next_ms r)
    (refuse_since_log r).
Definition set_scope_id_warned (v : bool) (r : cluster) : cluster :=
Cluster (doc r) (scope_kind_of r) v (clock r) (stats r) (ent_dest r) (ent_keys r) (ent_next
    r) (ent_frag_off r) (push_frag_off r) (asm_rx r) (serve_tokens r) (serve_refill_ms r)
    (pull_fruitless r) (pull_hold_until_ms r) (refuse_log_next_ms r) (refuse_since_log r).
Definition set_clock (v : hlc) (r : cluster) : cluster :=
Cluster (doc r) (scope_kind_of r) (scope_id_warned r) v (stats r) (ent_dest r) (ent_keys r)
    (ent_next r) (ent_frag_off r) (push_frag_off r) (asm_rx r) (serve_tokens r)
    (serve_refill_ms r) (pull_fruitless r) (pull_hold_until_ms r) (refuse_log_next_ms r)
    (refuse_since_log r).
Definition set_stats (v : cluster_stats) (r : cluster) : cluster :=
Cluster (doc r) (scope_kind_of r) (scope_id_warned r) (clock r) v (ent_dest r) (ent_keys r)
    (ent_next r) (ent_frag_off r) (push_frag_off r) (asm_rx r) (serve_tokens r)
    (serve_refill_ms r) (pull_fruitless r) (pull_hold_until_ms r) (refuse_log_next_ms r)
    (refuse_since_log r).
Definition set_ent_dest (v : Z) (r : cluster) : cluster :=
Cluster (doc r) (scope_kind_of r) (scope_id_warned r) (clock r) (stats r) v (ent_keys r)
    (ent_next r) (ent_frag_off r) (push_frag_off r) (asm_rx r) (serve_tokens r)
    (serve_refill_ms r) (pull_fruitless r) (pull_hold_until_ms r) (refuse_log_next_ms r)
    (refuse_since_log r).
Definition set_ent_keys (v : list cluster_key) (r : cluster) : cluster :=
Cluster (doc r) (scope_kind_of r) (scope_id_warned r) (clock r) (stats r) (ent_dest r) v
    (ent_next r) (ent_frag_off r) (push_frag_off r) (asm_rx r) (serve_tokens r)
    (serve_refill_ms r) (pull_fruitless r) (pull_hold_until_ms r) (refuse_log_next_ms r)
    (refuse_since_log r).
Definition set_ent_next (v : nat) (r : cluster) : cluster :=
Cluster (doc r) (scope_kind_of r) (scope_id_warned r) (clock r) (stats r) (ent_dest r)
    (ent_keys r) v (ent_frag_off r) (push_frag_off r) (asm_rx r) (serve_tokens r)
    (serve_refill_ms r) (pull_fruitless r) (pull_hold_until_ms r) (refuse_log_next_ms r)
    (refuse_since_log r).
Definition set_ent_frag_off (v : Z) (r : cluster) : cluster :=
Cluster (doc r) (scope_kind_of r) (scope_id_warned r) (clock r) (stats r) (ent_dest r)
    (ent_keys r) (ent_next r) v (push_frag_off r) (asm_rx r) (serve_tokens r)
    (serve_refill_ms r) (pull_fruitless r) (pull_hold_until_ms r) (refuse_log_next_ms r)
    (refuse_since_log r).
Definition set_push_frag_off (v : Z) (r : cluster) : cluster :=
Cluster (doc r) (scope_kind_of r) (scope_id_warned r) (clock r) (stats r) (ent_dest r)
    (ent_keys r) (ent_next r) (ent_frag_off r) v (asm_rx r) (serve_tokens r)
    (serve_refill_ms r) (pull_fruitless r) (pull_hold_until_ms r) (refuse_log_next_ms r)
    (refuse_since_log r).
Definition set_asm_rx (v : asm_slot) (r : cluster) : cluster :=
Cluster (doc r) (scope_kind_of r) (scope_id_warned r) (clock r) (stats r) (ent_dest r)
    (ent_keys r) (ent_next r) (ent_frag_off r) (push_frag_off r) v (serve_tokens r)
    (serve_refill_ms r) (pull_fruitless r) (pull_hold_until_ms r) (refuse_log_next_ms r)
    (refuse_since_log r).
Definition set_serve_tokens (v : Z) (r : cluster) : cluster :=
Cluster (doc r) (scope_kind_of r) (scope_id_warned r) (clock r) (stats r) (ent_dest r)
    (ent_keys r) (ent_next r) (ent_frag_off r) (push_frag_off r) (asm_rx r) v
    (serve_refill_ms r) (pull_fruitless r) (pull_hold_until_ms r) (refuse_log_next_ms r)
    (refuse_since_log r).
Definition set_serve_refill_ms (v : Z) (r : cluster) : cluster :=
Cluster (doc r) (scope_kind_of r) (scope_id_warned r) (clock r) (stats r) (ent_dest r)
    (ent_keys r) (ent_next r) (ent_frag_off r) (push_frag_off r) (asm_rx r) (serve_tokens r)
    v (pull_fruitless r) (pull_hold_until_ms r) (refuse_log_next_ms r) (refuse_since_log r).
Definition set_pull_fruitless (v : Z) (r : cluster) : cluster :=
Cluster (doc r) (scope_kind_of r) (scope_id_warned r) (clock r) (stats r) (ent_dest r)
    (ent_keys r) (ent_next r) (ent_frag_off r) (push_frag_off r) (asm_rx r) (serve_tokens r)
    (serve_refill_ms r) v (pull_hold_until_ms r) (refuse_log_next_ms r) (refuse_since_log
    r).
Definition set_pull_hold_until_ms (v : Z) (r : cluster) : cluster :=
Cluster (doc r) (scope_kind_of r) (scope_id_warned r) (clock r) (stats r) (ent_dest r)
    (ent_keys r) (ent_next r) (ent_frag_off r) (push_frag_off r) (asm_rx r) (serve_tokens r)
    (serve_refill_ms r) (pull_fruitless r) v (refuse_log_next_ms r) (refuse_since_log r).
Definition set_refuse_log_next_ms (v : Z) (r : cluster) : cluster :=
Cluster (doc r) (scope_kind_of r) (scope_id_warned r) (clock r) (stats r) (ent_dest r)
    (ent_keys r) (ent_next r) (ent_frag_off r) (push_frag_off r) (asm_rx r) (serve_tokens r)
    (serve_refill_ms r) (pull_fruitless r) (pull_hold_until_ms r) v (refuse_since_log r).
Definition set_refuse_since_log (v : Z) (r : cluster) : cluster :=
Cluster (doc r) (scope_kind_of r) (scope_id_warned r) (clock r) (stats r) (ent_dest r)
    (ent_keys r) (ent_next r) (ent_frag_off r) (push_frag_off r) (asm_rx r) (serve_tokens r)
    (serve_refill_ms r) (pull_fruitless r) (pull_hold_until_ms r) (refuse_log_next_ms r) v.

Definition bump (c : counter) (st : cluster) : cluster := set_stats (stat_inc c (stats st)) st.

(** What a handler reads and calls. *)
Record cluster_env := ClusterEnv {
  node_id : Z;                                (* meshtastic_get_node_id *)
  epoch_ms : Z;                               (* meshtastic_clock_now_epoch_ms *)
  uptime_ms : Z;                              (* k_uptime_get *)
  admin_trusts : Z -> bool;                   (* meshtastic_admin_node_is_trusted *)
  nodedb_has : Z -> bool;                     (* meshtastic_nodedb_get = 0 *)
  nodedb_pubkey : Z -> option (list Z);       (* meshtastic_nodedb_copy_pubkey *)
  own_pubkey : option (list Z);               (* meshtastic_pki_get_public_key *)
  decode_config : list Z -> option Z;         (* pb_decode of a Config: its variant *)
  decode_intent : list Z -> option (list class_intent);
  xeddsa_verify : list Z -> list Z -> list Z -> bool;
  cfg_admin : bool;                           (* CONFIG_MESHTASTIC_ADMIN *)
  cfg_xeddsa : bool;                          (* CONFIG_MESHTASTIC_XEDDSA *)
  cfg_sig_required : bool;                    (* CONFIG_MESHTASTIC_CLUSTER_SIG_REQUIRED *)
  cfg_frag_timeout_sec : Z;                   (* CONFIG_MESHTASTIC_CLUSTER_FRAG_TIMEOUT_SEC *)
  cfg_serve_min_interval_ms : Z;              (* CONFIG_MESHTASTIC_CLUSTER_SERVE_MIN_INTERVAL_MS *)
}.

Inductive effect :=
  | Persist (e : cluster_entry)               (* persist_entry *)
  | SubmitReconcile                           (* k_work_submit(&reconcile_work) *)
  | KickTx.                                   (* k_work_reschedule(&tx_work, K_NO_WAIT) *)

(** ** Gates *)

(** The tags of the Config variants. *)
Definition Config_device_tag : Z := 1.
Definition Config_position_tag : Z := 2.
Definition Config_power_tag : Z := 3.
Definition Config_network_tag : Z := 4.
Definition Config_display_tag : Z := 5.
Definition Config_lora_tag : Z := 6.
Definition Config_bluetooth_tag : Z := 7.
Definition Config_security_tag : Z := 8.

Definition shareable_sections : list Z :=
  [Config_device_tag; Config_position_tag; Config_power_tag; Config_display_tag; Config_lora_tag;
   Config_bluetooth_tag; MESHTASTIC_CLUSTER_SECTION_FW].

Definition section_shareable (section : Z) : bool := existsb (Z.eqb section) shareable_sections.

Definition meshtastic_cluster_section_is_private (section : Z) : bool :=
  MESHTASTIC_CLUSTER_SECTION_PRIVATE <=? section.

Definition FLEET_INTENT_FLAGS_KNOWN : Z := 3.

Definition intent_row_ok (r : class_intent) : bool :=
  negb ((255 <? ci_class_id r) || (ci_version r =? 0)) &&
  negb (negb (length (ci_hash_prefix r) =? 0)%nat && negb (length (ci_hash_prefix r) =? 4)%nat) &&
  (Z.land (ci_flags r) (UINT32_MAX - FLEET_INTENT_FLAGS_KNOWN) =? 0).

Definition private_payload_is_valid (env : cluster_env) (section : Z) (payload : list Z) : bool :=
  if negb (section =? MESHTASTIC_CLUSTER_SECTION_FW) then false
  else match decode_intent env payload with
       | None => false
       | Some rows => negb (length rows =? 0)%nat && forallb intent_row_ok rows
       end.

Definition payload_is_its_section (env : cluster_env) (section : Z) (payload : list Z) (tombstone : bool)
    : bool :=
  if tombstone then (length payload =? 0)%nat
  else if meshtastic_cluster_section_is_private section then private_payload_is_valid env section payload
  else match decode_config env payload with Some variant => variant =? section | None => false end.

Definition stamp_within_horizon (env : cluster_env) (stamp : hlc_stamp) : bool :=
  if epoch_ms env <=? 0 then true
  else st_physical_ms stamp <=? epoch_ms env + MESHTASTIC_HLC_MAX_DRIFT_MS.

Definition refuse_entry (env : cluster_env) (st : cluster) : cluster :=
  let now := uptime_ms env in
  let st := bump ENTRY_RX_REFUSED st in
  if refuse_log_next_ms st <=? now
  then set_refuse_log_next_ms (now + 60 * 1000) (set_refuse_since_log 0 st)
  else set_refuse_since_log (u32 (refuse_since_log st + 1)) st.

Definition author_is_master (env : cluster_env) (n : Z) : bool := cfg_admin env && admin_trusts env n.

Definition entry_authorized (env : cluster_env) (key : cluster_key) (stamp : hlc_stamp) : bool :=
  let author := st_node_id stamp in
  if author =? node_id env then true
  else if (k_layer key =? LAYER_NODE) && (author =? k_node_id key) then true
  else author_is_master env author.

Definition node_owner_is_known (env : cluster_env) (n : Z) : bool :=
  if n =? node_id env then true
  else if nodedb_has env n then true
  else match nodedb_pubkey env n with Some _ => true | None => false end.

(** The advertised scope, and the warn-once flag. *)
Definition my_scope_locked (env : cluster_env) (st : cluster) : cluster_scope * cluster :=
  let me := node_id env in
  if bool_decide (scope_kind_of st = SCOPE_CORE) && (me =? 0) then
    (meshtastic_cluster_scope_make SCOPE_FULL 0, set_scope_id_warned true st)
  else (meshtastic_cluster_scope_make (scope_kind_of st) me, st).

(** ** Sending an entry *)

(** The message, the cursor after its repair, and the offset after the fragment. *)
Definition entry_to_pb_frag (e : cluster_entry) (off : Z) : pb_entry * Z * Z :=
  let payload_len := Z.of_nat (length (e_payload e)) in
  let '(off, take_len) := meshtastic_cluster_frag_take payload_len off MESHTASTIC_CLUSTER_FRAG_MAX in
  let sig :=
    match e_sig e with
    | Some s => if payload_len <=? off + take_len then s else []
    | None => []
    end in
  (PbEntry (Some (key_to_pb (e_key e))) (Some (e_stamp e)) (e_tombstone e)
     (take (Z.to_nat take_len) (drop (Z.to_nat off) (e_payload e))) payload_len off sig,
   off, u16 (off + take_len)).

Definition ent_advance_locked (st : cluster) : cluster :=
  let st := set_ent_next (S (ent_next st)) (set_ent_frag_off 0 st) in
  if (length (ent_keys st) <=? ent_next st)%nat then set_ent_dest 0 st else st.

Definition frag_reset_locked (st : cluster) : cluster :=
  set_asm_rx (set_as_active false (asm_rx st)) (set_push_frag_off 0 (set_ent_frag_off 0 st)).

(** The first part of [tx_next_locked]: the next frame of an entry a peer asked for.
    The loop skips at most the keys left, which is its fuel. *)
Fixpoint tx_entry_loop (fuel : nat) (st : cluster) : option (Z * pb_entry) * cluster :=
  match fuel with
  | O => (None, set_ent_dest 0 st)
  | S fuel =>
      if negb (ent_dest st =? 0) && (ent_next st <? length (ent_keys st))%nat then
        match ent_keys st !! ent_next st with
        | None => (None, st)
        | Some key =>
            match meshtastic_cluster_doc_find key (doc st) with
            | None => tx_entry_loop fuel (ent_advance_locked st)
            | Some e =>
                let dest := ent_dest st in
                let '(msg, off, next) := entry_to_pb_frag e (ent_frag_off st) in
                let st := set_ent_frag_off off st in
                let st := if Z.of_nat (length (e_payload e)) <=? next
                          then ent_advance_locked st else set_ent_frag_off next st in
                (Some (dest, msg), bump ENTRY_TX st)
            end
        end
      else (None, set_ent_dest 0 st)
  end.

Definition tx_entry_locked (st : cluster) : option (Z * pb_entry) * cluster :=
  tx_entry_loop (S (length (ent_keys st) - ent_next st)) st.

(** ** Serving entry requests *)

Definition may_serve_locked (env : cluster_env) (st : cluster) : bool * cluster :=
  let interval := cfg_serve_min_interval_ms env in
  if interval =? 0 then (true, st)
  else
    let elapsed := uptime_ms env - serve_refill_ms st in
    let st :=
      if interval <=? elapsed then
        let gained := u32 (elapsed / interval) in
        set_serve_refill_ms (serve_refill_ms st + gained * interval)
          (set_serve_tokens (u8 (Z.min (u32 (serve_tokens st + gained)) CLUSTER_SERVE_BURST)) st)
      else st in
    if serve_tokens st =? 0 then (false, bump TX_BUSY st) else (true, st).

Definition serve_started_locked (st : cluster) : cluster :=
  if 0 <? serve_tokens st then set_serve_tokens (serve_tokens st - 1) st else st.

Definition on_entry_req (env : cluster_env) (from : Z) (keys : list pb_key) (st : cluster)
    : cluster * list effect :=
  let '(serve, st1) := if ent_dest st =? 0 then may_serve_locked env st else (false, st) in
  if serve then
    let ks := take CLUSTER_PULL_KEYS (key_from_pb <$> keys) in
    let st2 := set_ent_frag_off 0 (set_ent_next 0%nat (set_ent_keys ks
                 (set_ent_dest from (serve_started_locked st1)))) in
    if (length ks =? 0)%nat then (set_ent_dest 0 st2, []) else (st2, [KickTx])
  else (if negb (ent_dest st1 =? 0) then bump TX_BUSY st1 else st1, []).

(** ** Reassembly *)

Definition slot_matches (a : asm_slot) (from : Z) (key : cluster_key) (stamp : hlc_stamp)
    (tombstone : bool) (total : Z) : bool :=
  as_active a && (as_from a =? from) && (meshtastic_cluster_key_cmp (as_key a) key =? 0) &&
  (meshtastic_hlc_compare (as_stamp a) stamp =? 0) && Bool.eqb (as_tombstone a) tombstone &&
  (as_total a =? total).

(** The complete payload ([*out], [*out_len]) when the function returns true. *)
Definition reassemble_entry (env : cluster_env) (from : Z) (e : pb_entry) (key : cluster_key)
    (stamp : hlc_stamp) (st : cluster) : cluster * option (list Z) :=
  let len := u16 (Z.of_nat (length (pe_payload e))) in
  let '(wide_total, fits) :=
    meshtastic_cluster_frag_fits (pe_total e) (pe_offset e) (Z.of_nat (length (pe_payload e)))
      MESHTASTIC_CLUSTER_PAYLOAD_MAX MESHTASTIC_CLUSTER_FRAG_MAX in
  if negb fits then (refuse_entry env st, None)
  else
    let total := u16 wide_total in
    let off := u16 (pe_offset e) in
    if (off =? 0) && (len =? total) then (st, Some (pe_payload e))
    else
      let now := uptime_ms env in
      let st := if as_active (asm_rx st) && (as_deadline_ms (asm_rx st) <? now)
                then bump FRAG_TIMED_OUT (set_asm_rx (set_as_active false (asm_rx st)) st) else st in
      let matches := slot_matches (asm_rx st) from key stamp (pe_tombstone e) total in
      if negb matches && negb (off =? 0) then (bump FRAG_OUT_OF_ORDER st, None)
      else
        let st :=
          if matches then st
          else
            let st := if as_active (asm_rx st) then bump FRAG_DISPLACED st else st in
            set_asm_rx (AsmSlot true from key stamp (pe_tombstone e) total 0
                          (as_deadline_ms (asm_rx st)) (as_buf (asm_rx st))) st in
        if negb (off =? as_have (asm_rx st)) then (bump FRAG_OUT_OF_ORDER st, None)
        else
          let a := set_as_deadline_ms (now + cfg_frag_timeout_sec env * 1000)
                     (set_as_have (u16 (off + len))
                       (set_as_buf (buf_write (Z.to_nat off) (pe_payload e) (as_buf (asm_rx st)))
                         (asm_rx st))) in
          if as_have a <? total then (bump FRAG_RX (set_asm_rx a st), None)
          else (bump FRAG_ASSEMBLED (set_asm_rx (set_as_active false a) st),
                Some (take (Z.to_nat total) (as_buf a))).

(** ** Signatures *)

(** The facts the policy decides on: the key known, the signature verified. *)
Definition signature_facts (env : cluster_env) (key : cluster_key) (stamp : hlc_stamp) (e : pb_entry)
    (payload : list Z) : bool * bool :=
  if cfg_xeddsa env && (length (pe_sig e) =? MESHTASTIC_CLUSTER_SIG_LEN)%nat then
    match (if st_node_id stamp =? node_id env then own_pubkey env else nodedb_pubkey env (st_node_id stamp))
    with
    | None => (false, false)
    | Some pub =>
        (true,
         match meshtastic_cluster_signing_buffer MESHTASTIC_CLUSTER_SIGBUF_MAX key stamp (pe_tombstone e)
                 (Some payload) (Z.of_nat (length payload)) with
         | Some buf => xeddsa_verify env pub buf (pe_sig e)
         | None => false
         end)
    end
  else (false, false).

Definition entry_verdict (env : cluster_env) (key : cluster_key) (stamp : hlc_stamp) (e : pb_entry)
    (payload : list Z) : sig_verdict :=
  let '(have_key, verifies) := signature_facts env key stamp e payload in
  meshtastic_cluster_sig_policy (length (pe_sig e)) (cfg_sig_required env)
    (st_node_id stamp =? node_id env) (cfg_xeddsa env) have_key verifies.

(** [*sig_out] when the entry passes. *)
Definition entry_signature_ok (env : cluster_env) (key : cluster_key) (stamp : hlc_stamp) (e : pb_entry)
    (payload : list Z) (st : cluster) : cluster * option (option (list Z)) :=
  let pass st := (st, Some (if (length (pe_sig e) =? MESHTASTIC_CLUSTER_SIG_LEN)%nat
                            then Some (pe_sig e) else None)) in
  match entry_verdict env key stamp e payload with
  | SIG_ACCEPT_VERIFIED => pass (bump SIG_VERIFIED st)
  | SIG_ACCEPT_UNSIGNED => pass (bump SIG_UNSIGNED st)
  | SIG_ACCEPT_UNCHECKED => pass st
  | SIG_REFUSE_UNSIGNED => (refuse_entry env (bump SIG_REFUSED_UNSIGNED st), None)
  | SIG_REFUSE_MALFORMED => (refuse_entry env (bump SIG_REFUSED_MALFORMED st), None)
  | SIG_REFUSE_NO_KEY => (refuse_entry env (bump SIG_REFUSED_NO_KEY st), None)
  | SIG_REFUSE_BAD => (refuse_entry env (bump SIG_REFUSED_BAD st), None)
  end.

(** ** The ingest handler *)

(** From the complete payload on: observe the stamp, merge, persist, count. *)
Definition merge_entry (env : cluster_env) (key : cluster_key) (stamp : hlc_stamp) (tombstone : bool)
    (payload : list Z) (sig : option (list Z)) (st : cluster) : cluster * list effect :=
  let st := set_clock (hlc_observe (clock st) stamp (epoch_ms env)).1 st in
  let '(d, ret) := meshtastic_cluster_doc_accept_signed key stamp tombstone payload sig (doc st) in
  let st := set_doc d st in
  match ret with
  | Val 1 =>
      (set_pull_hold_until_ms 0 (set_pull_fruitless 0 (bump ENTRY_RX_APPLIED st)),
       (match meshtastic_cluster_doc_find key d with Some e => [Persist e] | None => [] end)
       ++ [SubmitReconcile])
  | Val 0 => (bump ENTRY_RX_STALE st, [])
  | Fail ENOSPC => (bump ENTRY_RX_NO_SPACE st, [])
  | _ => (bump RX_UNDECODABLE st, [])
  end.

Definition on_entry (env : cluster_env) (from : Z) (e : pb_entry) (st : cluster) : cluster * list effect :=
  match pe_key e, pe_stamp e with
  | Some pk, Some stamp =>
      let key := key_from_pb pk in
      if negb (section_shareable (k_section key)) then (refuse_entry env st, [])
      else
        let '(mine, st) := my_scope_locked env st in
        if negb (meshtastic_cluster_scope_contains mine key) then (bump ENTRY_RX_OUT_OF_SCOPE st, [])
        else if negb (entry_authorized env key stamp) then (refuse_entry env st, [])
        else if negb (stamp_within_horizon env stamp)
        then (refuse_entry env (bump ENTRY_RX_FUTURE st), [])
        else if (k_layer key =? LAYER_NODE) && negb (node_owner_is_known env (k_node_id key))
        then (refuse_entry env st, [])
        else
          let '(st, whole) := reassemble_entry env from e key stamp st in
          match whole with
          | None => (st, [])
          | Some payload =>
              if negb (payload_is_its_section env (k_section key) payload (pe_tombstone e))
              then (refuse_entry env st, [])
              else
                let '(st, sig) := entry_signature_ok env key stamp e payload st in
                match sig with
                | None => (st, [])
                | Some sig => merge_entry env key stamp (pe_tombstone e) payload sig st
                end
          end
  | _, _ => (bump RX_UNDECODABLE st, [])
  end.

(** ** What the gates leave alone *)

(** Nothing but the merge touches the document and the clock. *)
Definition same_doc (st st' : cluster) : Prop :=
  doc st' = doc st /\ clock st' = clock st /\ scope_kind_of st' = scope_kind_of st.

#[local] Instance same_doc_preorder : PreOrder same_doc.
Proof. split; [done|]. intros a b c (H1 & H2 & H3) (G1 & G2 & G3). unfold same_doc. by rewrite G1, G2, G3. Qed.

Lemma bump_same c st : same_doc st (bump c st).
Proof. done. Qed.

Lemma refuse_same env st : same_doc st (refuse_entry env st).
Proof. unfold refuse_entry. by destruct (_ <=? _). Qed.

Lemma my_scope_same env st : same_doc st (my_scope_locked env st).2.
Proof. unfold my_scope_locked. by destruct (_ && _). Qed.

Lemma reassemble_same env from e key stamp st : same_doc st (reassemble_entry env from e key stamp st).1.
Proof.
  unfold reassemble_entry. destruct (meshtastic_cluster_frag_fits _ _ _ _ _) as [wt fits].
  destruct fits; [cbn [negb] | apply refuse_same].
  destruct (_ && _); [done|].
  set (st1 := if as_active (asm_rx st) && _ then _ else _).
  assert (H1 : same_doc st st1) by (unfold st1; by destruct (_ && _)). clearbody st1.
  destruct (_ && _); [done|].
  set (st2 := if slot_matches _ _ _ _ _ _ then _ else _).
  assert (H2 : same_doc st st2) by (unfold st2; destruct (slot_matches _ _ _ _ _ _); [done|];
                                    by destruct (as_active _)). clearbody st2.
  destruct (negb _); [done|]. by destruct (_ <? _).
Qed.

Lemma signature_same env key stamp e payload st :
  same_doc st (entry_signature_ok env key stamp e payload st).1.
Proof.
  unfold entry_signature_ok. destruct (entry_verdict _ _ _ _ _); try done;
    (etrans; [apply bump_same | apply refuse_same]).
Qed.

(** The signature handed to the merge, when the gate lets the entry pass. *)
Lemma signature_ok_inv env key stamp e payload st st' sig :
  entry_signature_ok env key stamp e payload st = (st', Some sig) ->
  meshtastic_cluster_sig_accepts (entry_verdict env key stamp e payload) = true /\
  sig = (if (length (pe_sig e) =? MESHTASTIC_CLUSTER_SIG_LEN)%nat then Some (pe_sig e) else None).
Proof. unfold entry_signature_ok. destruct (entry_verdict _ _ _ _ _); intros [= _ <-]; done. Qed.

(** ** Admission *)

(** [e] passed every gate as an entry with this key, stamp, payload and signature. *)
Record admitted (env : cluster_env) (st : cluster) (e : pb_entry) (key : cluster_key) (stamp : hlc_stamp)
    (payload : list Z) (sig : option (list Z)) : Prop := PassedGates {
  ad_key : key_from_pb <$> pe_key e = Some key;
  ad_stamp : pe_stamp e = Some stamp;
  ad_section : section_shareable (k_section key) = true;
  ad_scope : meshtastic_cluster_scope_contains (my_scope_locked env st).1 key = true;
  ad_author : entry_authorized env key stamp = true;
  ad_horizon : stamp_within_horizon env stamp = true;
  ad_owner : k_layer key = LAYER_NODE -> node_owner_is_known env (k_node_id key) = true;
  ad_payload : payload_is_its_section env (k_section key) payload (pe_tombstone e) = true;
  ad_verdict : meshtastic_cluster_sig_accepts (entry_verdict env key stamp e payload) = true;
  ad_sig : sig = (if (length (pe_sig e) =? MESHTASTIC_CLUSTER_SIG_LEN)%nat then Some (pe_sig e) else None);
}.

(** The handler refuses without touching the document or the clock, or merges an
    admitted entry. *)
Lemma on_entry_cases env from e st :
  (same_doc st (on_entry env from e st).1 /\ (on_entry env from e st).2 = []) \/
  exists key stamp payload sig st1,
    admitted env st e key stamp payload sig /\ same_doc st st1 /\
    (reassemble_entry env from e key stamp (my_scope_locked env st).2).2 = Some payload /\
    on_entry env from e st = merge_entry env key stamp (pe_tombstone e) payload sig st1.
Proof.
  unfold on_entry. destruct (pe_key e) as [pk|] eqn:Ek; [|by left].
  destruct (pe_stamp e) as [stamp|] eqn:Es; [|by left]. set (key := key_from_pb pk).
  destruct (section_shareable (k_section key)) eqn:G1; cbn [negb]; [|left; split; [apply refuse_same | done]].
  pose proof (my_scope_same env st) as Hst0. destruct (my_scope_locked env st) as [mine st0] eqn:Em.
  cbn [snd] in Hst0.
  assert (Hr : same_doc st (refuse_entry env st0)) by (etrans; [exact Hst0 | apply refuse_same]).
  destruct (meshtastic_cluster_scope_contains mine key) eqn:G2; cbn [negb]; [|by left].
  destruct (entry_authorized env key stamp) eqn:G3; cbn [negb]; [|by left].
  destruct (stamp_within_horizon env stamp) eqn:G4; cbn [negb];
    [|left; split; [etrans; [exact Hst0|]; etrans; [apply (bump_same ENTRY_RX_FUTURE) | apply refuse_same] | done]].
  destruct ((k_layer key =? LAYER_NODE) && negb (node_owner_is_known env (k_node_id key))) eqn:G5; [by left|].
  pose proof (reassemble_same env from e key stamp st0) as Hst1.
  destruct (reassemble_entry env from e key stamp st0) as [st1 [payload|]] eqn:Er;
    [|left; split; [etrans; [exact Hst0 | exact Hst1] | done]]. cbn [fst] in Hst1.
  destruct (payload_is_its_section env (k_section key) payload (pe_tombstone e)) eqn:G6; cbn [negb];
    [|left; split; [etrans; [exact Hst0|]; etrans; [exact Hst1 | apply refuse_same] | done]].
  pose proof (signature_same env key stamp e payload st1) as Hst2.
  destruct (entry_signature_ok env key stamp e payload st1) as [st2 [sig|]] eqn:Eg; cbn [fst] in Hst2;
    [|left; split; [etrans; [exact Hst0|]; etrans; [exact Hst1 | exact Hst2] | done]].
  apply signature_ok_inv in Eg as [G7 Hsig].
  right. exists key, stamp, payload, sig, st2. split; [|split; [|split; [|done]]].
  - split; [by rewrite Ek | done | done | by rewrite Em | done | done | | done | done | done].
    intros E. apply andb_false_iff in G5 as [G5|G5]; bools; [lia | done].
  - etrans; [exact Hst0|]. etrans; [exact Hst1 | exact Hst2].
  - cbn [snd]. by rewrite Er.
Qed.

(** ** The merge *)

Lemma accept_stored e d d' :
  doc_wf d -> accept_entry e d = (d', Val 1) ->
  meshtastic_cluster_doc_find (e_key e) d' = Some e /\
  (forall k, k <> e_key e -> meshtastic_cluster_doc_find k d' = meshtastic_cluster_doc_find k d) /\
  entries d' = put_entry e (entries d).
Proof.
  intros Hwf E. pose proof (accept_wf e d Hwf) as Hwf'. rewrite E in Hwf'. cbn [fst] in Hwf'.
  assert (Hput : entries d' = put_entry e (entries d)).
  { rewrite accept_spec in E. destruct (negb (entry_ok e)); [done|].
    destruct (meshtastic_cluster_doc_find _ _) as [old|]; [destruct (meshtastic_hlc_newer _ _)|];
      [| | destruct (_ <=? _)%nat]; inversion E; subst; done. }
  assert (Hel : forall x, x ∈ entries d' <-> x = e \/ (x ∈ entries d /\ e_key x <> e_key e))
    by (intros x; rewrite Hput; by apply put_entry_elem, wf_sorted).
  pose proof (wf_sorted _ Hwf) as Hs. pose proof (wf_sorted _ Hwf') as Hs'.
  split; [|split; [|done]].
  - apply find_spec; [done|]. split; [|done]. apply Hel. by left.
  - intros k Hk. destruct (meshtastic_cluster_doc_find k d) as [x|] eqn:Ex.
    + apply find_spec in Ex as [Hx <-]; [|done]. apply find_spec; [done|]. split; [|done]. apply Hel. by right.
    + apply find_None; [done|]. intros x [->|[Hx _]]%Hel; [by apply not_eq_sym|].
      apply (proj1 (find_None k d Hs) Ex x Hx).
Qed.

Lemma accept_codes e d d' r :
  accept_entry e d = (d', r) -> (r = Val 1) \/ (d' = d /\ r <> Val 1).
Proof.
  rewrite accept_spec. intros E. destruct (negb (entry_ok e)); [right; by inversion E|].
  destruct (meshtastic_cluster_doc_find _ _) as [old|]; [destruct (meshtastic_hlc_newer _ _)|];
    [| | destruct (_ <=? _)%nat]; inversion E; (by left) || (by right).
Qed.

Lemma merge_entry_spec env key stamp tomb payload sig st :
  doc_wf (doc st) ->
  let ent := ClusterEntry key stamp tomb payload sig in
  let '(st', eff) := merge_entry env key stamp tomb payload sig st in
  clock st' = (hlc_observe (clock st) stamp (epoch_ms env)).1 /\ scope_kind_of st' = scope_kind_of st /\
  doc st' = (accept_entry ent (doc st)).1 /\
  ((doc st' = doc st /\ eff = []) \/
   (accept_entry ent (doc st) = (doc st', Val 1) /\ eff = [Persist ent; SubmitReconcile])).
Proof.
  intros Hwf. cbv zeta. unfold merge_entry. cbn [doc set_clock].
  pose proof (accept_stored (ClusterEntry key stamp tomb payload sig) (doc st)) as Hst.
  pose proof (accept_codes (ClusterEntry key stamp tomb payload sig) (doc st)) as Hco.
  unfold accept_entry in *. cbn [e_key e_stamp e_tombstone e_payload e_sig] in *.
  destruct (meshtastic_cluster_doc_accept_signed key stamp tomb payload sig (doc st)) as [d ret].
  specialize (Hco d ret eq_refl).
  destruct Hco as [->|[-> Hne]].
  - destruct (Hst d Hwf eq_refl) as (Hf & _ & _). rewrite Hf. repeat split. right. done.
  - destruct ret as [[|[p|p|]|p]|[]]; repeat split; left; done.
Qed.

(** The part of the environment fixed in a build on one node. *)
Definition same_build (env env' : cluster_env) : Prop :=
  node_id env' = node_id env /\
  decode_config env' = decode_config env /\ decode_intent env' = decode_intent env.

(** Every entry held is shareable, claimed, and carries the section of its key. *)
Definition doc_clean (env : cluster_env) (st : cluster) : Prop :=
  forall x, x ∈ entries (doc st) ->
    section_shareable (k_section (e_key x)) = true /\
    meshtastic_cluster_scope_contains (my_scope_locked env st).1 (e_key x) = true /\
    payload_is_its_section env (k_section (e_key x)) (e_payload x) (e_tombstone x) = true.

Lemma my_scope_ext env env' st st' :
  same_build env env' -> scope_kind_of st' = scope_kind_of st ->
  (my_scope_locked env' st').1 = (my_scope_locked env st).1.
Proof. intros (Hn & _) Hk. unfold my_scope_locked. rewrite Hn, Hk. by destruct (_ && _). Qed.

Lemma build_gates env env' s payload t :
  same_build env env' ->
  payload_is_its_section env' s payload t = payload_is_its_section env s payload t.
Proof.
  intros (_ & Hc & Hi). unfold payload_is_its_section, private_payload_is_valid. by rewrite Hc, Hi.
Qed.

Lemma on_entry_clean env0 env from e st :
  same_build env0 env -> doc_wf (doc st) -> doc_clean env0 st ->
  doc_wf (doc (on_entry env from e st).1) /\ doc_clean env0 (on_entry env from e st).1.
Proof.
  intros Hb Hwf Hc. destruct (on_entry_cases env from e st)
    as [[(Hd & _ & Hk) _]|(key & stamp & payload & sig & st1 & Had & (Hd & _ & Hk) & _ & E)].
  { rewrite Hd. split; [done|]. intros x Hx. rewrite Hd in Hx.
    rewrite (my_scope_ext env0 env0 st) by done. by apply Hc. }
  rewrite E. rewrite <- Hd in Hwf.
  pose proof (merge_entry_spec env key stamp (pe_tombstone e) payload sig st1 Hwf) as M.
  destruct (merge_entry env key stamp (pe_tombstone e) payload sig st1) as [st' eff].
  destruct M as (_ & Hk' & Hdoc & Hcase). cbn [fst]. rewrite Hdoc. split; [by apply accept_wf|].
  intros x Hx. rewrite (my_scope_ext env0 env0 st) by (done || congruence).
  destruct Hcase as [[Hsame _]|[Hacc _]].
  { apply Hc. by rewrite Hsame, Hd in Hx. }
  destruct (accept_stored _ _ _ Hwf Hacc) as (_ & _ & Hput). rewrite Hput in Hx.
  apply put_entry_elem in Hx as [->|[Hx _]]; [| apply Hc; by rewrite <- Hd | by apply wf_sorted].
  cbn [e_key e_payload e_tombstone].
  rewrite <- (build_gates env0 env (k_section key) payload (pe_tombstone e) Hb), <- (my_scope_ext env0 env st st) by done. by destruct Had.
Qed.

Lemma frames_clean env0 frames st :
  doc_wf (doc st) -> doc_clean env0 st ->
  Forall (fun f : cluster_env * Z * pb_entry => same_build env0 f.1.1) frames ->
  let st' := foldl (fun s f => (on_entry f.1.1 f.1.2 f.2 s).1) st frames in
  doc_wf (doc st') /\ doc_clean env0 st'.
Proof.
  intros Hwf Hc Hall. cbv zeta. revert st Hwf Hc.
  induction Hall as [|[[env from] e] frames Hb _ IH]; intros st Hwf Hc; [done|]. cbn [foldl].
  destruct (on_entry_clean env0 env from e st Hb Hwf Hc). by apply IH.
Qed.

(** ** The reassembly slot *)

(** A decoded fragment: the two [uint32_t] fields. *)
Definition frag_width (e : pb_entry) : Prop := in_u32 (pe_total e) /\ in_u32 (pe_offset e).

Definition frag_total (e : pb_entry) : Z :=
  if pe_total e =? 0 then Z.of_nat (length (pe_payload e)) else pe_total e.

(** What one fragment does to the slot, without the casts and the counters. *)
Definition slot_step (env : cluster_env) (from : Z) (e : pb_entry) (key : cluster_key) (stamp : hlc_stamp)
    (a : asm_slot) : asm_slot * option (list Z) :=
  let len := Z.of_nat (length (pe_payload e)) in
  let total := frag_total e in
  let off := pe_offset e in
  if negb ((total <=? 128) && (len <=? 88) && (off + len <=? total)) then (a, None)
  else if (off =? 0) && (len =? total) then (a, Some (pe_payload e))
  else
    let a := if as_active a && (as_deadline_ms a <? uptime_ms env) then set_as_active false a else a in
    let m := slot_matches a from key stamp (pe_tombstone e) total in
    if negb m && negb (off =? 0) then (a, None)
    else
      let a := if m then a
               else AsmSlot true from key stamp (pe_tombstone e) total 0 (as_deadline_ms a) (as_buf a) in
      if negb (off =? as_have a) then (a, None)
      else
        let a := set_as_deadline_ms (uptime_ms env + cfg_frag_timeout_sec env * 1000)
                   (set_as_have (off + len) (set_as_buf (buf_write (Z.to_nat off) (pe_payload e) (as_buf a)) a)) in
        if off + len <? total then (a, None)
        else (set_as_active false a, Some (take (Z.to_nat total) (as_buf a))).

Lemma refuse_slot env st : asm_rx (refuse_entry env st) = asm_rx st.
Proof. unfold refuse_entry. by destruct (_ <=? _). Qed.

Lemma reassemble_slot env from e key stamp st :
  frag_width e ->
  let '(st', out) := reassemble_entry env from e key stamp st in
  slot_step env from e key stamp (asm_rx st) = (asm_rx st', out).
Proof.
  intros [Ht Ho]. unfold in_u32 in *. unfold reassemble_entry, slot_step, meshtastic_cluster_frag_fits.
  fold (frag_total e). cbv zeta. change MESHTASTIC_CLUSTER_PAYLOAD_MAX with 128.
  change MESHTASTIC_CLUSTER_FRAG_MAX with 88.
  destruct ((frag_total e <=? 128) && _ && _) eqn:Ef; cbn [negb]; [|by rewrite refuse_slot].
  bools.
  rewrite !(u16_small (frag_total e)), !(u16_small (pe_offset e)),
    !(u16_small (Z.of_nat (length (pe_payload e)))), (u16_small (pe_offset e + _)) by lia.
  destruct ((pe_offset e =? 0) && _); [done|].
  set (st1 := if as_active (asm_rx st) && _ then bump _ _ else st).
  set (a1 := if as_active (asm_rx st) && _ then set_as_active _ _ else _).
  assert (Ea : asm_rx st1 = a1) by (unfold st1, a1; by destruct (_ && _)).
  rewrite Ea. clearbody st1 a1. subst a1.
  destruct (slot_matches _ _ _ _ _ _); cbn [negb andb].
  - destruct (negb _); [done|]. cbn [asm_rx set_asm_rx bump set_stats as_have set_as_deadline_ms set_as_have].
    by destruct (_ <? _).
  - destruct (negb (pe_offset e =? 0)); [done|].
    destruct (as_active (asm_rx st1)); cbn [asm_rx set_asm_rx bump set_stats as_have];
      (destruct (negb _); [done|]); cbn [asm_rx set_asm_rx bump set_stats as_have set_as_deadline_ms set_as_have];
      by destruct (_ <? _).
Qed.

Lemma slot_matches_spec a from key stamp tomb total :
  slot_matches a from key stamp tomb total = true <->
  as_active a = true /\ as_from a = from /\ as_key a = key /\ as_stamp a = stamp /\
  as_tombstone a = tomb /\ as_total a = total.
Proof.
  unfold slot_matches. rewrite !andb_true_iff, !Z.eqb_eq, key_cmp_eq, hlc_compare_eq, eqb_true_iff. tauto.
Qed.

(** ** Splicing *)

(** A fragment of the payload [p]. *)
Definition slice_of (p : list Z) (e : pb_entry) : Prop :=
  frag_total e = Z.of_nat (length p) /\
  pe_payload e = take (length (pe_payload e)) (drop (Z.to_nat (pe_offset e)) p).

Section Splice.
Context (from : Z) (key : cluster_key) (stamp : hlc_stamp) (tomb : bool) (p : list Z).

(** If the slot is assembling this entry, it holds a prefix of its payload. *)
Definition slot_good (a : asm_slot) : Prop :=
  length (as_buf a) = 128%nat /\
  (as_active a = true -> as_from a = from -> as_key a = key -> as_stamp a = stamp -> as_tombstone a = tomb ->
   as_total a = Z.of_nat (length p) /\ 0 <= as_have a <= as_total a /\
   take (Z.to_nat (as_have a)) (as_buf a) = take (Z.to_nat (as_have a)) p).

(** The fragment claims to be of this entry. *)
Definition claims (from' : Z) (key' : cluster_key) (stamp' : hlc_stamp) (e : pb_entry) : Prop :=
  from' = from /\ key' = key /\ stamp' = stamp /\ pe_tombstone e = tomb.

Lemma slot_good_expire b a : slot_good a -> slot_good (if b : bool then set_as_active false a else a).
Proof. by destruct b; [intros [? _]; split|]. Qed.

(** Appending a fragment at the offset the slot expects. *)
Lemma slot_good_append now a f' k' s' e :
  slot_good a -> frag_width e -> as_from a = f' -> as_key a = k' -> as_stamp a = s' ->
  as_tombstone a = pe_tombstone e -> as_total a = frag_total e ->
  (claims f' k' s' e -> slice_of p e) ->
  pe_offset e = as_have a -> as_active a = true ->
  frag_total e <= 128 -> pe_offset e + Z.of_nat (length (pe_payload e)) <= frag_total e ->
  slot_good (set_as_deadline_ms now (set_as_have (pe_offset e + Z.of_nat (length (pe_payload e)))
    (set_as_buf (buf_write (Z.to_nat (pe_offset e)) (pe_payload e) (as_buf a)) a))).
Proof.
  intros [Hl Hg] [_ Hw] Ef Ek Es Et Etot Hsl Eoff Hact Hmax Hfit. unfold in_u32 in Hw. split; cbn.
  { rewrite length_buf_write; lia. }
  intros _ Cf Ck Cs Ct. destruct (Hg Hact Cf Ck Cs Ct) as (Gt & Gh & Gp).
  destruct Hsl as [St Sp]; [unfold claims; split; [congruence|]; split; [congruence|]; split; congruence|].
  split; [done|]. split; [lia|].
  rewrite Z2Nat.inj_add, Nat2Z.id, take_buf_write by lia. rewrite Eoff, Gp, <- Eoff.
  rewrite Sp at 1. rewrite take_take_drop. done.
Qed.

Lemma slot_step_good env f' k' s' e a :
  frag_width e -> slot_good a -> (claims f' k' s' e -> slice_of p e) ->
  slot_good (slot_step env f' e k' s' a).1 /\
  (claims f' k' s' e -> forall q, (slot_step env f' e k' s' a).2 = Some q -> q = p).
Proof.
  intros Hw Hg Hsl. unfold slot_step. cbv zeta.
  destruct (_ && _ && _) eqn:Ef; cbn [negb]; [|done]. bools.
  destruct ((pe_offset e =? 0) && _) eqn:E1.
  { bools. split; [done|]. intros Hc q [= <-]. destruct (Hsl Hc) as [St Sp].
    assert (pe_offset e = 0) as E0 by lia. rewrite Sp, E0, drop_0. apply take_ge. lia. }
  pose proof (slot_good_expire (as_active a && (as_deadline_ms a <? uptime_ms env)) a Hg) as Hg1.
  set (a1 := if as_active a && _ then _ else _) in *. clearbody a1.
  destruct (slot_matches a1 f' k' s' (pe_tombstone e) (frag_total e)) eqn:Em; cbn [negb andb].
  - apply slot_matches_spec in Em as (M1 & M2 & M3 & M4 & M5 & M6).
    destruct (pe_offset e =? as_have a1) eqn:Eo; cbn [negb]; [|done]. bools.
    pose proof (slot_good_append (uptime_ms env + cfg_frag_timeout_sec env * 1000) a1 f' k' s' e
      Hg1 Hw M2 M3 M4 M5 M6 Hsl Eo M1 ltac:(lia) ltac:(lia)) as Hn.
    destruct (_ <? _) eqn:El; bools; [done|]. split; [by destruct Hn; split|].
    intros (Cf & Ck & Cs & Ct) q [= <-]. destruct Hn as [_ Hn]. cbn in *.
    destruct Hn as (Nt & Nh & Np); [done|congruence..|].
    assert (frag_total e = pe_offset e + Z.of_nat (length (pe_payload e))) as -> by lia.
    rewrite Np. apply take_ge. lia.
  - destruct (pe_offset e =? 0) eqn:Eo0; cbn [negb]; [|done]. bools.
    set (a2 := AsmSlot _ _ _ _ _ _ _ _ _).
    assert (Hg2 : slot_good a2).
    { destruct Hg1 as [Hl _]. split; [done|]. cbn. intros _ Cf Ck Cs Ct.
      destruct Hsl as [St _]; [by unfold claims|]. split; [done|]. split; [lia|]. done. }
    cbn [as_have a2]. rewrite Eo0. cbn [Z.eqb negb].
    pose proof (slot_good_append (uptime_ms env + cfg_frag_timeout_sec env * 1000) a2 f' k' s' e
      Hg2 Hw eq_refl eq_refl eq_refl eq_refl eq_refl Hsl Eo0 eq_refl ltac:(lia) ltac:(lia)) as Hn.
    rewrite Eo0 in Hn. destruct (_ <? _) eqn:El; bools; [done|]. split; [by destruct Hn; split|].
    intros (Cf & Ck & Cs & Ct) q [= <-]. destruct Hn as [_ Hn]. cbn in *.
    destruct Hn as (Nt & Nh & Np); [done..|].
    assert (frag_total e = 0 + Z.of_nat (length (pe_payload e))) as -> by lia.
    rewrite Np. apply take_ge. lia.
Qed.
End Splice.

(** ** The frames of an entry *)

(** The frames a cursor at [off] still sends, while the entry stays the same. An entry
    is shorter than [fuel] fragments of one byte. *)
Fixpoint frames_from (fuel : nat) (x : cluster_entry) (off : Z) : list pb_entry :=
  let '(msg, _, next) := entry_to_pb_frag x off in
  msg :: (if Z.of_nat (length (e_payload x)) <=? next then []
          else match fuel with O => [] | S f => frames_from f x next end).
Definition entry_frames (x : cluster_entry) : list pb_entry :=
  frames_from (Z.to_nat MESHTASTIC_CLUSTER_PAYLOAD_MAX) x 0.

(** One frame: the [n] bytes at [off], the signature on the last. *)
Definition frame_at (x : cluster_entry) (off n : nat) : pb_entry :=
  PbEntry (Some (key_to_pb (e_key x))) (Some (e_stamp x)) (e_tombstone x)
    (take n (drop off (e_payload x))) (Z.of_nat (length (e_payload x))) (Z.of_nat off)
    (if (length (e_payload x) <=? off + n)%nat then default [] (e_sig x) else []).

Lemma entry_to_pb_frag_at x off :
  (length (e_payload x) <= 128)%nat -> (off <= length (e_payload x))%nat ->
  let n := Nat.min 88 (length (e_payload x) - off) in
  entry_to_pb_frag x (Z.of_nat off) = (frame_at x off n, Z.of_nat off, Z.of_nat (off + n)).
Proof.
  intros Hl Ho. cbv zeta. unfold entry_to_pb_frag, meshtastic_cluster_frag_take, frame_at.
  change MESHTASTIC_CLUSTER_FRAG_MAX with 88.
  destruct (Z.of_nat (length (e_payload x)) <? Z.of_nat off) eqn:E; bools; [lia|].
  rewrite (u16_small (_ - _)) by lia.
  assert (Hn : (if Z.of_nat (length (e_payload x)) - Z.of_nat off <? 88
                then Z.of_nat (length (e_payload x)) - Z.of_nat off else 88) =
               Z.of_nat (Nat.min 88 (length (e_payload x) - off))) by (branches; lia).
  rewrite Hn, !Nat2Z.id, u16_small, <- Nat2Z.inj_add by lia. f_equal. f_equal. f_equal.
  destruct (e_sig x) as [s|]; cbn [default]; [|by destruct (_ <=? _)%nat].
  destruct (length (e_payload x) <=? off + _)%nat eqn:E1; [apply Nat.leb_le in E1 | apply Nat.leb_gt in E1];
    branches; (done || lia).
Qed.

(** An entry travels in one frame or in two. *)
Lemma entry_frames_shape x :
  (length (e_payload x) <= 128)%nat ->
  entry_frames x = if (length (e_payload x) <=? 88)%nat
                   then [frame_at x 0 (length (e_payload x))]
                   else [frame_at x 0 88; frame_at x 88 (length (e_payload x) - 88)].
Proof.
  intros Hl. unfold entry_frames. change (Z.to_nat MESHTASTIC_CLUSTER_PAYLOAD_MAX) with (S 127).
  cbn [frames_from]. change 0 with (Z.of_nat 0). rewrite entry_to_pb_frag_at by lia.
  destruct (length (e_payload x) <=? 88)%nat eqn:E; [apply Nat.leb_le in E | apply Nat.leb_gt in E].
  - rewrite Nat.min_r, Nat.sub_0_r, Nat.add_0_l by lia. rewrite (proj2 (Z.leb_le _ _)) by lia. done.
  - rewrite Nat.min_l by lia. rewrite (proj2 (Z.leb_gt _ _)) by lia.
    rewrite Nat.add_0_l. change 127%nat with (S 126). cbn [frames_from].
    rewrite entry_to_pb_frag_at by lia. rewrite Nat.min_r by lia.
    rewrite (proj2 (Z.leb_le _ _)) by lia. done.
Qed.

Lemma key_pb_roundtrip k : key_width k -> key_is_valid k = true -> key_from_pb (key_to_pb k) = k.
Proof.
  intros (_ & _ & Hs) Hv. destruct k as [l n s]. unfold key_from_pb, key_to_pb, key_is_valid in *.
  unfold in_u16 in Hs. cbn in *. rewrite (proj2 (Z.leb_le _ _)) by lia.
  assert (u16 s = s) as -> by (unfold u16; apply wrap_small; unfold UINT16_MAX in *; lia).
  destruct (l =? LAYER_BASE) eqn:E; cbn; bools; [by subst|].
  destruct (l =? LAYER_NODE) eqn:E1; bools; [by subst | done].
Qed.

(** ** A burst *)

(** Frames taken by the work item until the burst is over. *)
Fixpoint tx_run (fuel : nat) (st : cluster) : list (Z * pb_entry) * cluster :=
  match fuel with
  | O => ([], st)
  | S fuel =>
      match tx_entry_locked st with
      | (None, st') => ([], st')
      | (Some m, st') => let '(ms, st'') := tx_run fuel st' in (m :: ms, st'')
      end
  end.

(** The entries the document holds for the keys asked for, in the order asked. *)
Definition found (d : cluster_doc) (ks : list cluster_key) : list cluster_entry :=
  omap (fun k => meshtastic_cluster_doc_find k d) ks.

Lemma tx_entry_skip st k :
  ent_dest st <> 0 -> ent_keys st !! ent_next st = Some k ->
  meshtastic_cluster_doc_find k (doc st) = None ->
  tx_entry_locked st = tx_entry_locked (ent_advance_locked st).
Proof.
  intros Hd Hk Hf. pose proof (lookup_lt_Some _ _ _ Hk) as Hlt.
  unfold tx_entry_locked at 1. cbn [tx_entry_loop].
  rewrite (proj2 (Z.eqb_neq _ _) Hd), (proj2 (Nat.ltb_lt _ _) Hlt), Hk, Hf. cbn [negb andb].
  unfold tx_entry_locked. f_equal.
  assert (Hn : ent_next (ent_advance_locked st) = S (ent_next st) /\
               ent_keys (ent_advance_locked st) = ent_keys st)
    by (unfold ent_advance_locked; destruct (_ <=? _)%nat; done).
  destruct Hn as [-> ->]. lia.
Qed.

Lemma tx_entry_done st :
  (length (ent_keys st) <= ent_next st)%nat -> tx_entry_locked st = (None, set_ent_dest 0 st).
Proof.
  intros H. unfold tx_entry_locked. cbn [tx_entry_loop]. rewrite (proj2 (Nat.ltb_ge _ _) H).
  by rewrite andb_false_r.
Qed.

Lemma tx_entry_here st k x off :
  ent_dest st <> 0 -> ent_keys st !! ent_next st = Some k ->
  meshtastic_cluster_doc_find k (doc st) = Some x -> ent_frag_off st = Z.of_nat off ->
  (length (e_payload x) <= 128)%nat -> (off <= length (e_payload x))%nat ->
  let n := Nat.min 88 (length (e_payload x) - off) in
  tx_entry_locked st =
  (Some (ent_dest st, frame_at x off n),
   bump ENTRY_TX (if (length (e_payload x) <=? off + n)%nat
                  then ent_advance_locked (set_ent_frag_off (Z.of_nat off) st)
                  else set_ent_frag_off (Z.of_nat (off + n)) st)).
Proof.
  intros Hd Hk Hf Ho Hl Hle n. pose proof (lookup_lt_Some _ _ _ Hk) as Hlt.
  unfold tx_entry_locked. cbn [tx_entry_loop].
  rewrite (proj2 (Z.eqb_neq _ _) Hd), (proj2 (Nat.ltb_lt _ _) Hlt), Hk, Hf. cbn [negb andb].
  rewrite Ho, entry_to_pb_frag_at by done. fold n.
  destruct (length (e_payload x) <=? off + n)%nat eqn:E; [apply Nat.leb_le in E | apply Nat.leb_gt in E].
  - rewrite (proj2 (Z.leb_le _ _)) by lia. done.
  - rewrite (proj2 (Z.leb_gt _ _)) by lia. done.
Qed.

(** The state of a burst at the start of the keys [rest]. *)
Definition burst_at (d : Z) (rest : list cluster_key) (dc : cluster_doc) (st : cluster) : Prop :=
  drop (ent_next st) (ent_keys st) = rest /\ ent_frag_off st = 0 /\ doc st = dc /\
  (rest <> [] -> ent_dest st = d).

Lemma burst_advance d k rest dc st :
  ent_dest st = d -> doc st = dc -> drop (ent_next st) (ent_keys st) = k :: rest ->
  burst_at d rest dc (ent_advance_locked st).
Proof.
  intros Hd Hdc Hr. unfold ent_advance_locked, burst_at. cbn [ent_next ent_keys set_ent_next set_ent_frag_off].
  assert (Hr' : drop (S (ent_next st)) (ent_keys st) = rest)
    by (rewrite <- Nat.add_1_r, <- drop_drop, Hr; done).
  destruct (_ <=? _)%nat eqn:E; cbn; [|done]. split; [done|]. split; [done|]. split; [done|].
  apply Nat.leb_le in E. intros []. rewrite <- Hr'. apply drop_ge. lia.
Qed.

Lemma tx_run_step st m st' fuel :
  tx_entry_locked st = (Some m, st') -> tx_run (S fuel) st = (m :: (tx_run fuel st').1, (tx_run fuel st').2).
Proof. intros E. cbn [tx_run]. rewrite E. by destruct (tx_run fuel st'). Qed.

Lemma tx_run_burst d dc : d <> 0 -> doc_wf dc ->
  forall rest fuel st, (2 * length rest < fuel)%nat -> burst_at d rest dc st ->
  (tx_run fuel st).1 = (d,.) <$> concat (entry_frames <$> found dc rest) /\
  ent_dest (tx_run fuel st).2 = 0.
Proof.
  intros Hd Hwf. induction rest as [|k rest IH]; intros fuel st Hf (Hr & Ho & Hdc & Hdest).
  { destruct fuel as [|fuel]; [lia|]. cbn [tx_run]. rewrite tx_entry_done; [done|].
    apply (f_equal length) in Hr. rewrite length_drop in Hr. cbn in Hr. lia. }
  specialize (Hdest ltac:(done)).
  assert (Hk : ent_keys st !! ent_next st = Some k)
    by (rewrite <- (Nat.add_0_r (ent_next st)), <- lookup_drop, Hr; done).
  destruct (meshtastic_cluster_doc_find k dc) as [x|] eqn:Ef; cycle 1.
  { unfold found. cbn [omap list_omap]. rewrite Ef. destruct fuel as [|fuel]; [lia|].
    assert (E : tx_run (S fuel) st = tx_run (S fuel) (ent_advance_locked st)).
    { cbn [tx_run]. rewrite (tx_entry_skip st k); [done | congruence | done | congruence]. }
    rewrite E. apply IH; [cbn in Hf; lia|]. by apply (burst_advance d k). }
  assert (Hl : (length (e_payload x) <= 128)%nat).
  { apply find_spec in Ef as [Hx _]; [|by apply wf_sorted]. pose proof (wf_entries _ Hwf) as Hok.
    rewrite Forall_forall in Hok. specialize (Hok x Hx). unfold entry_ok, MESHTASTIC_CLUSTER_PAYLOAD_MAX in Hok.
    bools. lia. }
  unfold found. cbn [omap list_omap]. rewrite Ef. fold (found dc rest).
  cbn [fmap list_fmap concat]. rewrite entry_frames_shape by done.
  destruct fuel as [|[|fuel]]; [cbn in Hf; lia..|].
  pose proof (tx_entry_here st k x 0 ltac:(congruence) Hk ltac:(congruence) Ho Hl ltac:(lia)) as S1.
  cbv zeta in S1. rewrite Nat.sub_0_r, Nat.add_0_l in S1.
  destruct (length (e_payload x) <=? 88)%nat eqn:E88; [apply Nat.leb_le in E88 | apply Nat.leb_gt in E88].
  - rewrite Nat.min_r, Nat.leb_refl in S1 by done. rewrite (tx_run_step _ _ _ _ S1).
    destruct (IH (S fuel) (bump ENTRY_TX (ent_advance_locked (set_ent_frag_off 0 st)))) as [I1 I2];
      [cbn in Hf; lia | apply (burst_advance d k rest dc (set_ent_frag_off 0 st)); done |].
    cbn [fst snd]. change (Z.of_nat 0) with 0. rewrite I1, I2, Hdest. done.
  - rewrite Nat.min_l, (proj2 (Nat.leb_gt _ _)) in S1 by lia. rewrite (tx_run_step _ _ _ _ S1).
    set (st1 := bump _ _) in *.
    pose proof (tx_entry_here st1 k x 88 ltac:(cbn; congruence) Hk ltac:(cbn; congruence) eq_refl Hl ltac:(lia)) as S2.
    cbv zeta in S2. rewrite Nat.min_r, (proj2 (Nat.leb_le _ (88 + _))) in S2 by lia.
    rewrite (tx_run_step _ _ _ _ S2). cbn [fst snd].
    destruct (IH fuel (bump ENTRY_TX (ent_advance_locked (set_ent_frag_off (Z.of_nat 88) st1)))) as [I1 I2];
      [cbn in Hf; lia | apply (burst_advance d k rest dc (set_ent_frag_off (Z.of_nat 88) st1)); done |].
    rewrite I1, I2. cbn. by rewrite Hdest.
Qed.

(** ** A transfer *)

(** The gates that see only the key and the stamp. *)
Definition gates_open (env : cluster_env) (st : cluster) (key : cluster_key) (stamp : hlc_stamp) : bool :=
  section_shareable (k_section key) &&
  meshtastic_cluster_scope_contains (my_scope_locked env st).1 key &&
  entry_authorized env key stamp && stamp_within_horizon env stamp &&
  negb ((k_layer key =? LAYER_NODE) && negb (node_owner_is_known env (k_node_id key))).

Lemma gates_open_same env st st' key stamp :
  same_doc st st' -> gates_open env st' key stamp = gates_open env st key stamp.
Proof. intros (_ & _ & Hk). unfold gates_open. by rewrite (my_scope_ext env env st st'). Qed.

Lemma on_entry_open env from e st key stamp :
  key_from_pb <$> pe_key e = Some key -> pe_stamp e = Some stamp -> gates_open env st key stamp = true ->
  on_entry env from e st =
  (let '(st1, whole) := reassemble_entry env from e key stamp (my_scope_locked env st).2 in
   match whole with
   | None => (st1, [])
   | Some payload =>
       if negb (payload_is_its_section env (k_section key) payload (pe_tombstone e))
       then (refuse_entry env st1, [])
       else let '(st2, sig) := entry_signature_ok env key stamp e payload st1 in
            match sig with
            | None => (st2, [])
            | Some sig => merge_entry env key stamp (pe_tombstone e) payload sig st2
            end
   end).
Proof.
  intros Hk Hs Hg. unfold on_entry, gates_open in *. destruct (pe_key e) as [pk|]; [|done].
  cbn [fmap option_fmap option_map] in Hk. injection Hk as ->. rewrite Hs.
  rewrite !andb_true_iff, negb_true_iff in Hg. destruct Hg as [[[[G1 G2] G3] G4] G5]. rewrite G1. cbn [negb].
  destruct (my_scope_locked env st) as [mine st0]. cbn [fst snd] in *. by rewrite G2, G3, G4, G5.
Qed.

Lemma my_scope_slot env st : asm_rx (my_scope_locked env st).2 = asm_rx st.
Proof. unfold my_scope_locked. by destruct (_ && _). Qed.

Lemma merge_entry_stored env key stamp tomb payload sig st d' :
  doc_wf (doc st) -> accept_entry (ClusterEntry key stamp tomb payload sig) (doc st) = (d', Val 1) ->
  doc (merge_entry env key stamp tomb payload sig st).1 = d' /\
  (merge_entry env key stamp tomb payload sig st).2 =
    [Persist (ClusterEntry key stamp tomb payload sig); SubmitReconcile].
Proof.
  intros Hwf Ha. destruct (accept_stored _ _ _ Hwf Ha) as (Hf & _). cbn [e_key] in Hf.
  unfold accept_entry in Ha. cbn [e_key e_stamp e_tombstone e_payload e_sig] in Ha.
  unfold merge_entry. cbn [doc set_clock]. rewrite Ha, Hf. done.
Qed.

(** The last frame of an open entry, once the slot gives the whole payload. *)
Lemma on_entry_completes env from e st x d' :
  key_from_pb <$> pe_key e = Some (e_key x) -> pe_stamp e = Some (e_stamp x) ->
  pe_tombstone e = e_tombstone x -> pe_sig e = default [] (e_sig x) ->
  (forall s, e_sig x = Some s -> length s = MESHTASTIC_CLUSTER_SIG_LEN) ->
  gates_open env st (e_key x) (e_stamp x) = true -> frag_width e -> doc_wf (doc st) ->
  payload_is_its_section env (k_section (e_key x)) (e_payload x) (e_tombstone x) = true ->
  meshtastic_cluster_sig_accepts (entry_verdict env (e_key x) (e_stamp x) e (e_payload x)) = true ->
  accept_entry x (doc st) = (d', Val 1) ->
  (slot_step env from e (e_key x) (e_stamp x) (asm_rx st)).2 = Some (e_payload x) ->
  doc (on_entry env from e st).1 = d' /\ (on_entry env from e st).2 = [Persist x; SubmitReconcile].
Proof.
  intros Hk Hs Ht Hsig Hlen Hg Hw Hwf Hp Hv Ha Hslot. rewrite (on_entry_open _ _ _ _ _ _ Hk Hs Hg).
  pose proof (reassemble_slot env from e (e_key x) (e_stamp x) (my_scope_locked env st).2 Hw) as R.
  pose proof (reassemble_same env from e (e_key x) (e_stamp x) (my_scope_locked env st).2) as D.
  destruct (reassemble_entry _ _ _ _ _ _) as [st1 whole]. rewrite my_scope_slot in R. rewrite R in Hslot.
  cbn [fst snd] in *. subst whole. rewrite Ht, Hp. cbn [negb].
  pose proof (signature_same env (e_key x) (e_stamp x) e (e_payload x) st1) as D2.
  assert (Hdoc : doc (entry_signature_ok env (e_key x) (e_stamp x) e (e_payload x) st1).1 = doc st)
    by (destruct (my_scope_same env st) as (M1 & _); destruct D as (D1 & _), D2 as (D2 & _); congruence).
  assert (Hx : (if (length (pe_sig e) =? MESHTASTIC_CLUSTER_SIG_LEN)%nat then Some (pe_sig e) else None) = e_sig x).
  { rewrite Hsig. destruct (e_sig x) as [s|] eqn:Es; [|done]. cbn [default from_option id]. by rewrite (Hlen s eq_refl). }
  unfold entry_signature_ok in *. rewrite Hx in *.
  destruct (entry_verdict _ _ _ _ _); try done; cbn [fst] in Hdoc;
    rewrite <- Hdoc in Ha, Hwf; destruct x; apply merge_entry_stored; done.
Qed.

Lemma frame_width x off n : (length (e_payload x) <= 128)%nat -> (off <= 128)%nat -> frag_width (frame_at x off n).
Proof. intros. unfold frag_width, in_u32, UINT32_MAX; cbn. lia. Qed.

(** The slot after the first of two fragments. *)
Lemma slot_step_first env from x a :
  (88 < length (e_payload x) <= 128)%nat ->
  slot_matches a from (e_key x) (e_stamp x) (e_tombstone x) (Z.of_nat (length (e_payload x))) = false ->
  slot_step env from (frame_at x 0 88) (e_key x) (e_stamp x) a =
  (AsmSlot true from (e_key x) (e_stamp x) (e_tombstone x) (Z.of_nat (length (e_payload x))) 88
     (uptime_ms env + cfg_frag_timeout_sec env * 1000) (buf_write 0 (take 88 (e_payload x)) (as_buf a)), None).
Proof.
  intros Hl Hm. unfold slot_step, frag_total. cbn [pe_payload pe_offset pe_total pe_tombstone frame_at].
  rewrite drop_0, length_take, Nat.min_l by lia. cbv zeta.
  rewrite (proj2 (Z.eqb_neq (Z.of_nat (length (e_payload x))) 0)) by lia.
  rewrite (proj2 (Z.leb_le (Z.of_nat (length (e_payload x))) 128)) by lia.
  rewrite (proj2 (Z.leb_le (Z.of_nat 0 + _) _)) by lia. cbn [Z.of_nat Z.leb Z.compare andb negb Z.eqb].
  rewrite (proj2 (Z.eqb_neq _ (Z.of_nat (length (e_payload x))))) by lia.
  assert (Hm' : forall b : bool, slot_matches (if b then set_as_active false a else a) from (e_key x) (e_stamp x)
            (e_tombstone x) (Z.of_nat (length (e_payload x))) = false) by (intros []; [reflexivity | exact Hm]).
  rewrite Hm'. cbn [negb andb as_have Z.eqb].
  rewrite (proj2 (Z.ltb_lt _ (Z.of_nat (length (e_payload x))))) by lia. clear Hm'. cbn [negb].
  by destruct (as_active a && (as_deadline_ms a <? uptime_ms env)).
Qed.

Lemma two_writes n p buf :
  (n <= length p <= length buf)%nat ->
  take (length p) (buf_write n (drop n p) (buf_write 0 (take n p) buf)) = p.
Proof.
  intros Hn. assert (Ht : length (take n p) = n) by (rewrite length_take; lia).
  assert (Hd : length p = (n + length (drop n p))%nat) by (rewrite length_drop; lia).
  rewrite Hd at 1. rewrite take_buf_write; [|rewrite length_buf_write; rewrite ?Ht, ?length_drop; lia].
  pose proof (take_buf_write 0 (take n p) buf ltac:(rewrite Ht; lia)) as E. rewrite Ht in E. cbn in E.
  rewrite E. apply take_drop.
Qed.

(** The second fragment completes the payload, if it comes in time. *)
Lemma slot_step_second env from x dl buf :
  (88 < length (e_payload x) <= 128)%nat -> length buf = 128%nat -> uptime_ms env <= dl ->
  let r := slot_step env from (frame_at x 88 (length (e_payload x) - 88)) (e_key x) (e_stamp x)
    (AsmSlot true from (e_key x) (e_stamp x) (e_tombstone x) (Z.of_nat (length (e_payload x))) 88 dl
       (buf_write 0 (take 88 (e_payload x)) buf)) in
  r.2 = Some (e_payload x) /\ as_active r.1 = false /\ length (as_buf r.1) = 128%nat.
Proof.
  intros Hl Hb Hdl. unfold slot_step, frag_total. cbn [pe_payload pe_offset pe_total pe_tombstone frame_at].
  rewrite length_take, length_drop, Nat.min_l by lia. cbv zeta.
  rewrite (proj2 (Z.eqb_neq (Z.of_nat (length (e_payload x))) 0)) by lia.
  rewrite (proj2 (Z.leb_le (Z.of_nat (length (e_payload x))) 128)) by lia.
  rewrite (proj2 (Z.leb_le (Z.of_nat (_ - _)) 88)) by lia.
  rewrite (proj2 (Z.leb_le (Z.of_nat 88 + _) _)) by lia. cbn [andb negb as_active as_deadline_ms].
  rewrite (proj2 (Z.ltb_ge dl _)) by lia.
  rewrite (proj2 (slot_matches_spec _ _ _ _ _ _)) by done.
  cbn [negb andb as_have]. rewrite (proj2 (Z.ltb_ge (Z.of_nat 88 + _) _)) by lia. change (negb (Z.of_nat 88 =? 88)) with false.
  change (Z.of_nat 88 =? 0) with false. cbn [andb].
  cbn [fst snd as_active as_buf set_as_active set_as_deadline_ms set_as_have set_as_buf]. rewrite !Nat2Z.id.
  rewrite (take_ge (drop 88 (e_payload x))) by (rewrite length_drop; lia).
  split; [f_equal; apply two_writes; lia|]. split; [done|].
  assert (Hw : length (buf_write 0 (take 88 (e_payload x)) buf) = 128%nat)
    by (rewrite length_buf_write; [done|]; rewrite length_take; lia).
  rewrite length_buf_write; [done|]. rewrite Hw, length_drop. lia.
Qed.

(** Frames delivered one after the other: the state and the effects. *)
Definition deliver (from : Z) (fs : list (cluster_env * pb_entry)) (st : cluster) : cluster * list effect :=
  foldl (fun acc f => let '(s, eff) := on_entry f.1 from f.2 acc.1 in (s, acc.2 ++ eff)) (st, []) fs.

(** ** Runs of the receiver *)

(** A frame handled, or part-received work abandoned. *)
Inductive rx_event :=
  | RxEntry (env : cluster_env) (from : Z) (e : pb_entry)
  | RxReset.

Definition rx_step (ev : rx_event) (st : cluster) : cluster * list effect :=
  match ev with
  | RxEntry env from e => on_entry env from e st
  | RxReset => (frag_reset_locked st, [])
  end.
Definition rx_run (evs : list rx_event) (st : cluster) : cluster :=
  foldl (fun s ev => (rx_step ev s).1) st evs.

(** The frames of this sender for this entry carry slices of [p]. *)
Definition honest (from : Z) (key : cluster_key) (stamp : hlc_stamp) (tomb : bool) (p : list Z)
    (ev : rx_event) : Prop :=
  match ev with
  | RxEntry _ from' e =>
      frag_width e /\
      (from' = from -> key_from_pb <$> pe_key e = Some key -> pe_stamp e = Some stamp ->
       pe_tombstone e = tomb -> slice_of p e)
  | RxReset => True
  end.

Lemma signature_slot env key stamp e payload st :
  asm_rx (entry_signature_ok env key stamp e payload st).1 = asm_rx st.
Proof. unfold entry_signature_ok. by destruct (entry_verdict _ _ _ _ _); cbn [fst]; rewrite ?refuse_slot. Qed.

Lemma merge_slot env key stamp tomb payload sig st :
  asm_rx (merge_entry env key stamp tomb payload sig st).1 = asm_rx st.
Proof.
  unfold merge_entry. destruct (meshtastic_cluster_doc_accept_signed _ _ _ _ _ _) as [d ret].
  by destruct ret as [[|[]|]|[]].
Qed.

(** The handler steps the slot when the gates are open, and else leaves it. *)
Lemma on_entry_slot_open env from e st key stamp :
  frag_width e -> key_from_pb <$> pe_key e = Some key -> pe_stamp e = Some stamp -> gates_open env st key stamp = true ->
  asm_rx (on_entry env from e st).1 = (slot_step env from e key stamp (asm_rx st)).1.
Proof.
  intros Hw Hk Hs Hg. rewrite (on_entry_open env from e st key stamp) by done.
  pose proof (reassemble_slot env from e key stamp (my_scope_locked env st).2 Hw) as R.
  destruct (reassemble_entry _ _ _ _ _ _) as [st1 [payload|]]; rewrite my_scope_slot in R; rewrite R; [|done].
  destruct (negb _); [cbn [fst]; by rewrite refuse_slot|].
  pose proof (signature_slot env key stamp e payload st1) as S.
  destruct (entry_signature_ok _ _ _ _ _ _) as [st2 [sig|]]; cbn [fst] in *; [by rewrite merge_slot | done].
Qed.

Lemma on_entry_slot env from e st :
  frag_width e ->
  asm_rx (on_entry env from e st).1 = asm_rx st \/
  exists key stamp, key_from_pb <$> pe_key e = Some key /\ pe_stamp e = Some stamp /\
    asm_rx (on_entry env from e st).1 = (slot_step env from e key stamp (asm_rx st)).1.
Proof.
  intros Hw. destruct (pe_key e) as [pk|] eqn:Ek; [|left; unfold on_entry; by rewrite Ek].
  destruct (pe_stamp e) as [stamp|] eqn:Es; [|left; unfold on_entry; by rewrite Ek, Es].
  set (key := key_from_pb pk). destruct (gates_open env st key stamp) eqn:Hg.
  - right. exists key, stamp. split; [done|]. split; [done|].
    apply on_entry_slot_open; rewrite ?Ek, ?Es; done.
  - left. unfold on_entry, gates_open in *. rewrite Ek, Es. fold key.
    destruct (section_shareable (k_section key)); cbn [negb andb] in *; [|cbn [fst]; by rewrite refuse_slot].
    pose proof (my_scope_slot env st) as Hm. destruct (my_scope_locked env st) as [mine st0]. cbn [fst snd] in *.
    destruct (meshtastic_cluster_scope_contains mine key); cbn [negb andb] in *; [|done].
    destruct (entry_authorized env key stamp); cbn [negb andb] in *; [|cbn [fst]; by rewrite refuse_slot].
    destruct (stamp_within_horizon env stamp); cbn [negb andb] in *; [|cbn [fst]; by rewrite refuse_slot].
    apply negb_false_iff in Hg. rewrite Hg. cbn [fst]. by rewrite refuse_slot.
Qed.

Lemma rx_step_good from key stamp tomb p ev st :
  honest from key stamp tomb p ev -> slot_good from key stamp tomb p (asm_rx st) ->
  slot_good from key stamp tomb p (asm_rx (rx_step ev st).1).
Proof.
  destruct ev as [env from' e|]; cbn [honest rx_step]; [|by intros _ [? _]; split].
  intros [Hw Hsl] Hg. destruct (on_entry_slot env from' e st Hw) as [->|(key' & stamp' & Hk & Hs & ->)]; [done|].
  apply slot_step_good; [done | done|]. intros (-> & -> & -> & Ht). by apply Hsl.
Qed.

Lemma on_entry_wf env from e st : doc_wf (doc st) -> doc_wf (doc (on_entry env from e st).1).
Proof.
  intros Hwf. destruct (on_entry_cases env from e st)
    as [[(Hd & _) _]|(key & stamp & payload & sig & st1 & _ & (Hd & _) & _ & E)]; [by rewrite Hd|].
  rewrite E. rewrite <- Hd in Hwf.
  pose proof (merge_entry_spec env key stamp (pe_tombstone e) payload sig st1 Hwf) as M.
  destruct (merge_entry _ _ _ _ _ _ _) as [st' eff]. destruct M as (_ & _ & Hdoc & _). cbn [fst].
  rewrite Hdoc. by apply accept_wf.
Qed.

Lemma rx_run_wf evs st : doc_wf (doc st) -> doc_wf (doc (rx_run evs st)).
Proof.
  intros Hwf. unfold rx_run. induction evs as [|ev evs IH] using rev_ind; [done|]. rewrite foldl_snoc.
  destruct ev; [by apply on_entry_wf | done].
Qed.

Lemma rx_run_good from key stamp tomb p evs st :
  Forall (honest from key stamp tomb p) evs -> slot_good from key stamp tomb p (asm_rx st) ->
  slot_good from key stamp tomb p (asm_rx (rx_run evs st)).
Proof.
  intros Hall. revert st. induction Hall as [|ev evs Hev _ IH]; intros st Hg; [done|].
  apply IH. by apply rx_step_good.
Qed.

Lemma slot_step_single env from x a :
  (length (e_payload x) <= 88)%nat ->
  slot_step env from (frame_at x 0 (length (e_payload x))) (e_key x) (e_stamp x) a = (a, Some (e_payload x)).
Proof.
  intros Hl. unfold slot_step, frag_total. cbn [pe_payload pe_offset pe_total pe_tombstone frame_at].
  rewrite drop_0, firstn_all. cbv zeta.
  assert ((if Z.of_nat (length (e_payload x)) =? 0 then Z.of_nat (length (e_payload x))
           else Z.of_nat (length (e_payload x))) = Z.of_nat (length (e_payload x))) as -> by (by destruct (Z.of_nat (length (e_payload x)) =? 0)).
  rewrite (proj2 (Z.leb_le _ 128)), (proj2 (Z.leb_le _ 88)), (proj2 (Z.leb_le (Z.of_nat 0 + _) _)) by lia.
  cbn [andb negb]. by rewrite (Z.eqb_refl (Z.of_nat (length (e_payload x)))).
Qed.

(** The first of two frames is taken into the slot and nothing else happens. *)
Lemma on_entry_partial env from x st :
  (length (e_payload x) <= 128)%nat -> (88 < length (e_payload x))%nat ->
  key_from_pb <$> pe_key (frame_at x 0 88) = Some (e_key x) ->
  gates_open env st (e_key x) (e_stamp x) = true ->
  slot_matches (asm_rx st) from (e_key x) (e_stamp x) (e_tombstone x) (Z.of_nat (length (e_payload x))) = false ->
  same_doc st (on_entry env from (frame_at x 0 88) st).1 /\ (on_entry env from (frame_at x 0 88) st).2 = [] /\
  asm_rx (on_entry env from (frame_at x 0 88) st).1 =
    AsmSlot true from (e_key x) (e_stamp x) (e_tombstone x) (Z.of_nat (length (e_payload x))) 88
     (uptime_ms env + cfg_frag_timeout_sec env * 1000) (buf_write 0 (take 88 (e_payload x)) (as_buf (asm_rx st))).
Proof.
  intros Hl E Hk Hg Hm. rewrite (on_entry_open env from _ st (e_key x) (e_stamp x) Hk eq_refl Hg).
  pose proof (reassemble_slot env from (frame_at x 0 88) (e_key x) (e_stamp x) (my_scope_locked env st).2
                (frame_width x 0 88 Hl ltac:(lia))) as R.
  pose proof (reassemble_same env from (frame_at x 0 88) (e_key x) (e_stamp x) (my_scope_locked env st).2) as D.
  destruct (reassemble_entry _ _ _ _ _ _) as [st1 out]. rewrite my_scope_slot in R.
  rewrite slot_step_first in R by (done || lia). injection R as Hs <-. cbn [fst snd] in *.
  split; [|done]. etrans; [apply my_scope_same | exact D].
Qed.

Lemma found_short d ks :
  doc_wf d -> Forall (fun x => (length (e_payload x) <= 128)%nat) (found d ks).
Proof.
  intros Hwf. apply Forall_forall. intros x (k & _ & Hf)%list_elem_of_omap.
  apply find_spec in Hf as [Hx _]; [|by apply wf_sorted]. pose proof (wf_entries _ Hwf) as Hok.
  rewrite Forall_forall in Hok. specialize (Hok x Hx). unfold entry_ok, MESHTASTIC_CLUSTER_PAYLOAD_MAX in Hok.
  bools. lia.
Qed.

Lemma burst_length xs :
  Forall (fun x => (length (e_payload x) <= 128)%nat) xs ->
  (length (concat (entry_frames <$> xs)) <= 2 * length xs)%nat.
Proof.
  induction 1 as [|x xs Hx _ IH]; [done|]. cbn [fmap list_fmap concat]. rewrite length_app, entry_frames_shape by done.
  cbn [fmap list_fmap] in IH. destruct (_ <=? _)%nat; cbn [length]; lia.
Qed.

Lemma length_omap_le {A B} (f : A -> option B) (l : list A) : (length (omap f l) <= length l)%nat.
Proof. induction l as [|a l IH]; [done|]. cbn. destruct (f a); cbn; lia. Qed.

(** ** Properties *)

(** C29: Ingest stores only what passed every gate. A frame either leaves the document
    as it was and has no effect, or it carried an entry of a shareable section, in
    the advertised scope, by an authorised author, inside the drift horizon, for a
    known owner, whose whole payload is the section its key names and whose signature
    the policy accepts; then exactly that entry replaces the older version of its key,
    every other key keeps its entry, and it is persisted and reconciled once. *)
Theorem ingest_stores_only_admitted env from e st :
  doc_wf (doc st) ->
  let '(st', eff) := on_entry env from e st in
  (doc st' = doc st /\ eff = []) \/
  exists key stamp payload sig,
    let ent := ClusterEntry key stamp (pe_tombstone e) payload sig in
    admitted env st e key stamp payload sig /\
    accept_entry ent (doc st) = (doc st', Val 1) /\
    meshtastic_cluster_doc_find key (doc st') = Some ent /\
    (forall k, k <> key ->
       meshtastic_cluster_doc_find k (doc st') = meshtastic_cluster_doc_find k (doc st)) /\
    eff = [Persist ent; SubmitReconcile].
Proof.
  intros Hwf. destruct (on_entry_cases env from e st)
    as [[(Hd & _) Heff]|(key & stamp & payload & sig & st1 & Had & (Hd & _) & _ & E)].
  { destruct (on_entry env from e st). by left. }
  rewrite E. rewrite <- Hd in Hwf. pose proof (merge_entry_spec env key stamp (pe_tombstone e) payload sig st1 Hwf) as M.
  destruct (merge_entry env key stamp (pe_tombstone e) payload sig st1) as [st' eff].
  destruct M as (_ & _ & _ & [[Hsame ->]|[Hacc ->]]); [left; split; [congruence | done]|].
  right. exists key, stamp, payload, sig. rewrite Hd in Hacc, Hwf.
  destruct (accept_stored _ _ _ Hwf Hacc) as (Hf & Hother & _). done.
Qed.

(** The secret boundary and the scope hold in every reachable document. Whatever
    frames arrive, from whom and when, a document that starts clean stays a sorted
    table within its capacity in which every entry is of a shareable section, inside
    the scope this node advertises, and carries the section its key names; so it never
    holds the network or the security section, which carry secrets. *)
Theorem ingest_keeps_document_clean env0 frames st :
  doc_wf (doc st) -> doc_clean env0 st ->
  Forall (fun f => same_build env0 f.1.1) frames ->
  let st' := foldl (fun s f => (on_entry f.1.1 f.1.2 f.2 s).1) st frames in
  doc_wf (doc st') /\ doc_clean env0 st' /\
  (forall x, x ∈ entries (doc st') ->
     k_section (e_key x) <> Config_network_tag /\ k_section (e_key x) <> Config_security_tag).
Proof.
  intros Hwf Hc Hall. cbv zeta. destruct (frames_clean env0 frames st Hwf Hc Hall) as [Hw' Hc'].
  split; [done|]. split; [done|]. intros x Hx. destruct (Hc' x Hx) as (Hs & _).
  split; intros E; rewrite E in Hs; done.
Qed.

(** Where signatures are required they are verified. On a build that can check
    signatures and requires them, an entry merged from the air whose author is another
    node carries a signature that verifies, under the author's key in the NodeDB, over
    the signing buffer of exactly the entry stored. *)
Theorem required_signatures_verified env from e st ent :
  doc_wf (doc st) -> cfg_xeddsa env = true -> cfg_sig_required env = true ->
  Persist ent ∈ (on_entry env from e st).2 -> st_node_id (e_stamp ent) <> node_id env ->
  exists pub sig buf,
    nodedb_pubkey env (st_node_id (e_stamp ent)) = Some pub /\ e_sig ent = Some sig /\
    meshtastic_cluster_signing_buffer MESHTASTIC_CLUSTER_SIGBUF_MAX (e_key ent) (e_stamp ent)
      (e_tombstone ent) (Some (e_payload ent)) (Z.of_nat (length (e_payload ent))) = Some buf /\
    xeddsa_verify env pub buf sig = true.
Proof.
  intros Hwf Hx Hr Hin Hself. destruct (on_entry_cases env from e st)
    as [[_ Heff]|(key & stamp & payload & sig & st1 & Had & (Hd & _) & _ & E)].
  { rewrite Heff in Hin. by apply not_elem_of_nil in Hin. }
  rewrite <- Hd in Hwf. pose proof (merge_entry_spec env key stamp (pe_tombstone e) payload sig st1 Hwf) as M.
  rewrite E in Hin. destruct (merge_entry env key stamp (pe_tombstone e) payload sig st1) as [st' eff].
  destruct M as (_ & _ & _ & [[_ ->]|[_ ->]]); [by apply not_elem_of_nil in Hin|].
  assert (ent = ClusterEntry key stamp (pe_tombstone e) payload sig) as ->.
  { cbn [snd] in Hin. apply elem_of_cons in Hin as [[= ->]|Hin]; [done|].
    by apply list_elem_of_singleton in Hin. }
  cbn [e_key e_stamp e_sig e_payload e_tombstone] in *. destruct Had as [_ _ _ _ _ _ _ _ Hv ->].
  unfold entry_verdict, signature_facts in Hv. rewrite Hx, Hr in Hv. apply Z.eqb_neq in Hself. rewrite Hself in Hv.
  cbn [andb] in Hv. unfold meshtastic_cluster_sig_policy in Hv.
  destruct (length (pe_sig e) =? MESHTASTIC_CLUSTER_SIG_LEN)%nat eqn:El.
  - destruct (nodedb_pubkey env (st_node_id stamp)) as [pub|] eqn:Ep; cycle 1.
    { by destruct (length (pe_sig e) =? 0)%nat. }
    destruct (meshtastic_cluster_signing_buffer _ _ _ _ _ _) as [buf|] eqn:Eb; cycle 1.
    { by destruct (length (pe_sig e) =? 0)%nat. }
    exists pub, (pe_sig e), buf. split; [done|]. split; [done|]. split; [done|].
    by destruct (length (pe_sig e) =? 0)%nat, (xeddsa_verify env pub buf (pe_sig e)).
  - by destruct (length (pe_sig e) =? 0)%nat.
Qed.

(** C35: Reassembly never splices. If the frames one sender sends for one version of a
    key carry pieces of that version's payload, then whatever else arrives in between
    (other senders, other versions, repeats, losses, reordering, timeouts, resets),
    an entry of that version stored from that sender's frame has exactly that payload. *)
Theorem reassembly_never_splices from key stamp tomb p st evs env e ent :
  length (as_buf (asm_rx st)) = 128%nat -> as_active (asm_rx st) = false -> doc_wf (doc st) ->
  Forall (honest from key stamp tomb p) (evs ++ [RxEntry env from e]) ->
  key_from_pb <$> pe_key e = Some key -> pe_stamp e = Some stamp -> pe_tombstone e = tomb ->
  Persist ent ∈ (on_entry env from e (rx_run evs st)).2 ->
  ent = ClusterEntry key stamp tomb p (e_sig ent).
Proof.
  intros Hb Ha Hwf0 Hall Hk Hs Ht Hin. pose proof (rx_run_wf evs st Hwf0) as Hwf. apply Forall_app in Hall as [Hevs Hlast]. apply (proj1 (Forall_singleton _ _)) in Hlast.
  assert (Hg : slot_good from key stamp tomb p (asm_rx (rx_run evs st))).
  { apply rx_run_good; [done|]. split; [done|]. intros E. congruence. }
  destruct Hlast as [Hw Hsl]. destruct (on_entry_cases env from e (rx_run evs st))
    as [[_ Heff]|(key' & stamp' & payload & sig & st1 & Had & (Hd & _) & Hre & E)].
  { rewrite Heff in Hin. by apply not_elem_of_nil in Hin. }
  destruct Had as [Hk' Hs' _ _ _ _ _ _ _ _].
  assert (key' = key) as -> by congruence. assert (stamp' = stamp) as -> by congruence.
  pose proof (reassemble_slot env from e key stamp (my_scope_locked env (rx_run evs st)).2 Hw) as R.
  destruct (reassemble_entry _ _ _ _ _ _) as [st2 out]. rewrite my_scope_slot in R. cbn [snd] in Hre. subst out.
  assert (Hp : payload = p).
  { destruct (slot_step_good from key stamp tomb p env from key stamp e _ Hw Hg) as [_ Hq].
    - intros _. by apply Hsl.
    - apply Hq; [done|]. by rewrite R. }
  rewrite <- Hd in Hwf. pose proof (merge_entry_spec env key stamp (pe_tombstone e) payload sig st1 Hwf) as M.
  rewrite E in Hin. destruct (merge_entry env key stamp (pe_tombstone e) payload sig st1) as [st' eff].
  destruct M as (_ & _ & _ & [[_ ->]|[_ ->]]); [by apply not_elem_of_nil in Hin|].
  cbn [snd] in Hin. apply elem_of_cons in Hin as [[= ->]|Hin]; [by subst|].
  by apply list_elem_of_singleton in Hin.
Qed.

(** C6: An entry reaches the other side whole. If a node's gates are open for an entry
    another node holds, its slot is not already part-way through that entry, and the
    entry would win the merge, then handling the sender's frames of it in order, each
    before the slot's deadline, stores exactly that entry: key, stamp, tombstone,
    payload and signature. *)
Theorem entry_transfer from x st envs d' :
  entry_ok x = true -> key_width (e_key x) ->
  (forall s, e_sig x = Some s -> length s = MESHTASTIC_CLUSTER_SIG_LEN) ->
  doc_wf (doc st) -> length (as_buf (asm_rx st)) = 128%nat ->
  slot_matches (asm_rx st) from (e_key x) (e_stamp x) (e_tombstone x) (Z.of_nat (length (e_payload x))) = false ->
  length envs = length (entry_frames x) ->
  Forall (fun env => gates_open env st (e_key x) (e_stamp x) = true /\
            payload_is_its_section env (k_section (e_key x)) (e_payload x) (e_tombstone x) = true) envs ->
  (forall env f, (env, f) ∈ zip envs (entry_frames x) -> pe_sig f = default [] (e_sig x) ->
     meshtastic_cluster_sig_accepts (entry_verdict env (e_key x) (e_stamp x) f (e_payload x)) = true) ->
  (forall i env env', envs !! i = Some env -> envs !! S i = Some env' ->
     uptime_ms env' <= uptime_ms env + cfg_frag_timeout_sec env * 1000) ->
  accept_entry x (doc st) = (d', Val 1) ->
  doc (deliver from (zip envs (entry_frames x)) st).1 = d' /\
  (deliver from (zip envs (entry_frames x)) st).2 = [Persist x; SubmitReconcile].
Proof.
  intros Hok Hkw Hsig Hwf Hb Hm Hn Hg Hv Ht Ha.
  assert (Hl : (length (e_payload x) <= 128)%nat).
  { unfold entry_ok, MESHTASTIC_CLUSTER_PAYLOAD_MAX in Hok. bools. lia. }
  assert (Hk : forall off n, key_from_pb <$> pe_key (frame_at x off n) = Some (e_key x)).
  { intros. cbn. f_equal. apply key_pb_roundtrip; [done|]. unfold entry_ok in Hok. by bools. }
  rewrite entry_frames_shape in * by done.
  destruct (length (e_payload x) <=? 88)%nat eqn:E; [apply Nat.leb_le in E | apply Nat.leb_gt in E].
  - destruct envs as [|env [|]]; try done. apply Forall_singleton in Hg as [G1 G2].
    cbn [zip zip_with deliver foldl fst snd] in *. unfold deliver. cbn [foldl fst snd].
    assert (Hs : pe_sig (frame_at x 0 (length (e_payload x))) = default [] (e_sig x))
      by (cbn; by rewrite Nat.leb_refl).
    assert (C := on_entry_completes env from (frame_at x 0 (length (e_payload x))) st x d' (Hk _ _)
      eq_refl eq_refl Hs Hsig G1 (frame_width x 0 _ Hl ltac:(lia)) Hwf G2
      (Hv env _ ltac:(by left) Hs) Ha (f_equal snd (slot_step_single env from x (asm_rx st) E))).
    destruct (on_entry _ _ _ _) as [s eff]. exact C.
  - destruct envs as [|env1 [|env2 [|]]]; try done. apply Forall_cons in Hg as [[G1 _] [G3 G4]%Forall_singleton].
    specialize (Ht 0%nat env1 env2 eq_refl eq_refl).
    cbn [zip zip_with] in *. unfold deliver. cbn [foldl fst snd].
    pose proof (on_entry_partial env1 from x st Hl E (Hk _ _) G1 Hm) as (D1 & E1 & S1).
    destruct (on_entry env1 from (frame_at x 0 88) st) as [s1 eff1]. cbn [fst snd] in *. subst eff1.
    assert (Hs : pe_sig (frame_at x 88 (length (e_payload x) - 88)) = default [] (e_sig x))
      by (cbn; rewrite (proj2 (Nat.leb_le _ _)) by lia; done).
    assert (Hd1 : doc s1 = doc st) by apply D1.
    assert (C := on_entry_completes env2 from (frame_at x 88 (length (e_payload x) - 88)) s1 x d' (Hk _ _)
      eq_refl eq_refl Hs Hsig ltac:(by rewrite (gates_open_same _ _ _ _ _ D1)) (frame_width x 88 _ Hl ltac:(lia))
      ltac:(by rewrite Hd1) G4 (Hv env2 _ ltac:(right; by left) Hs) ltac:(by rewrite Hd1)
      ltac:(rewrite S1; apply slot_step_second; [lia | done | done])).
    destruct (on_entry _ _ _ _) as [s2 eff2]. exact C.
Qed.

(** A request is answered exactly and at bounded cost. When an entry request is
    taken up, the frames sent are, for each of the first six keys in order that the
    document holds, the frames of its entry; they all go to the requester, at most
    twelve in all, and then the responder is idle again. *)
Theorem entry_burst_exact env from keys st :
  doc_wf (doc st) -> from <> 0 -> ent_dest st = 0 ->
  let '(st1, eff) := on_entry_req env from keys st in
  eff = [KickTx] ->
  let '(frames, st2) := tx_run 13 st1 in
  frames = (from,.) <$> concat (entry_frames <$> found (doc st) (take CLUSTER_PULL_KEYS (key_from_pb <$> keys))) /\
  (length frames <= 12)%nat /\ ent_dest st2 = 0.
Proof.
  intros Hwf Hf Hd. unfold on_entry_req. rewrite Hd. cbn [Z.eqb].
  assert (Hms : doc (may_serve_locked env st).2 = doc st).
  { unfold may_serve_locked. destruct (_ =? 0); [done|]. destruct (_ <=? _); by destruct (_ =? 0). }
  destruct (may_serve_locked env st) as [serve st0]. cbn [snd] in Hms. destruct serve; [|done].
  set (ks := take CLUSTER_PULL_KEYS (key_from_pb <$> keys)). cbv zeta.
  destruct (length ks =? 0)%nat eqn:E0; [done|]. intros _.
  set (st1 := set_ent_frag_off _ _).
  assert (Hks : (length ks <= 6)%nat) by (unfold ks, CLUSTER_PULL_KEYS; rewrite length_take; lia).
  assert (Hb : burst_at from ks (doc st) st1).
  { unfold burst_at, st1. cbn. split; [apply drop_0|]. split; [done|]. split; [|done].
    unfold serve_started_locked. by destruct (_ <? _). }
  pose proof (tx_run_burst from (doc st) Hf Hwf ks 13 st1 ltac:(lia) Hb) as [R1 R2].
  destruct (tx_run 13 st1) as [frames st2]. cbn [fst snd] in *. split; [done|]. split; [|done].
  rewrite R1, length_fmap. etrans; [apply burst_length; by apply found_short|].
  assert (length (found (doc st) ks) <= length ks)%nat by apply length_omap_le. lia.
Qed.

(** ** Witnesses *)

(** A base section of 100 bytes by the master 7, signed; node 9 receives it. *)
Definition sample : cluster_entry :=
  ClusterEntry (ClusterKey LAYER_BASE 0 6) (HlcStamp 1000 0 7) false (replicate 100 5) (Some (replicate 64 1)).
Definition sample_env (now : Z) : cluster_env :=
  {| node_id := 9; epoch_ms := 2000; uptime_ms := now; 
     admin_trusts := fun n => n =? 7; nodedb_has := fun n => n =? 7;
     nodedb_pubkey := fun n => if n =? 7 then Some [3] else None; own_pubkey := None;
     decode_config := fun p => if (length p =? 100)%nat then Some 6 else None; decode_intent := fun _ => None;
     xeddsa_verify := fun _ _ s => bool_decide (s = replicate 64 1);
     cfg_admin := true; cfg_xeddsa := true; cfg_sig_required := true; cfg_frag_timeout_sec := 30;
     cfg_serve_min_interval_ms := 0 |}.
Definition idle_slot : asm_slot :=
  AsmSlot false 0 (ClusterKey 0 0 0) unset_stamp false 0 0 0 (replicate 128 0).
Definition fresh (d : cluster_doc) : cluster :=
  Cluster d SCOPE_FULL false (Hlc 0 0) (fun _ => 0) 0 [] 0 0 0 idle_slot 3 0 0 0 0 0.
Definition receiver : cluster := fresh (meshtastic_cluster_doc_init 4).
Definition first_frame : pb_entry := frame_at sample 0 88.
Definition last_frame : pb_entry := frame_at sample 88 12.
(** The receiver with the first frame taken in. *)
Definition half_way : cluster := (on_entry (sample_env 0) 7 first_frame receiver).1.

Lemma receiver_wf : doc_wf (doc receiver).
Proof. split; [constructor | vm_compute; lia | constructor]. Qed.

Lemma half_way_wf : doc_wf (doc half_way).
Proof. split; [vm_compute; constructor | vm_compute; lia | vm_compute; constructor]. Qed.

Lemma last_frame_stores :
  (on_entry (sample_env 500) 7 last_frame half_way).2 = [Persist sample; SubmitReconcile].
Proof. vm_compute. reflexivity. Qed.

Lemma ingest_stores_only_admitted_witness :
  exists ent st', on_entry (sample_env 500) 7 last_frame half_way = (st', [Persist ent; SubmitReconcile]) /\
    meshtastic_cluster_doc_find (e_key ent) (doc st') = Some ent.
Proof.
  pose proof (ingest_stores_only_admitted (sample_env 500) 7 last_frame half_way half_way_wf) as H.
  pose proof last_frame_stores as Hs.
  destruct (on_entry (sample_env 500) 7 last_frame half_way) as [st' eff]. cbn [snd] in Hs.
  destruct H as [[_ H]|(key & stamp & payload & sig & _ & _ & Hf & _ & He)]; [congruence|].
  eexists. exists st'. split; [rewrite He; reflexivity | exact Hf].
Defined.

Lemma ingest_keeps_document_clean_witness :
  doc_clean (sample_env 0)
    (foldl (fun s f => (on_entry f.1.1 f.1.2 f.2 s).1) receiver
       [(sample_env 0, 7, first_frame); (sample_env 500, 7, last_frame)]).
Proof.
  apply (ingest_keeps_document_clean (sample_env 0)
    [(sample_env 0, 7, first_frame); (sample_env 500, 7, last_frame)] receiver receiver_wf).
  - intros x Hx. exfalso. exact (not_elem_of_nil x Hx).
  - apply Forall_cons_2; [done|]. apply Forall_cons_2; [done|]. apply Forall_nil_2.
Defined.

Lemma required_signatures_verified_witness :
  exists pub sig buf, nodedb_pubkey (sample_env 500) 7 = Some pub /\ e_sig sample = Some sig /\
    meshtastic_cluster_signing_buffer MESHTASTIC_CLUSTER_SIGBUF_MAX (e_key sample) (e_stamp sample)
      (e_tombstone sample) (Some (e_payload sample)) (Z.of_nat (length (e_payload sample))) = Some buf /\
    xeddsa_verify (sample_env 500) pub buf sig = true.
Proof.
  apply (required_signatures_verified (sample_env 500) 7 last_frame half_way sample half_way_wf
    eq_refl eq_refl).
  - rewrite last_frame_stores. left.
  - cbn. lia.
Defined.

Lemma slice_width off n : (off <= 128)%nat -> frag_width (frame_at sample off n).
Proof. apply frame_width. cbn. lia. Qed.

Lemma reassembly_never_splices_witness :
  sample = ClusterEntry (e_key sample) (e_stamp sample) false (e_payload sample) (e_sig sample).
Proof.
  apply (reassembly_never_splices 7 (e_key sample) (e_stamp sample) false (e_payload sample) receiver
    [RxEntry (sample_env 0) 8 first_frame; RxEntry (sample_env 200) 7 first_frame] (sample_env 500) last_frame sample
    eq_refl eq_refl receiver_wf).
  - apply Forall_cons_2; [|apply Forall_cons_2; [|apply Forall_cons_2; [|apply Forall_nil_2]]];
      (split; [apply slice_width; lia|]); intros _ _ _ _; (split; [reflexivity|]); vm_compute; reflexivity.
  - reflexivity.
  - reflexivity.
  - reflexivity.
  - vm_compute. constructor.
Defined.

Lemma entry_transfer_witness :
  (deliver 7 (zip [sample_env 0; sample_env 500] (entry_frames sample)) receiver).2 =
  [Persist sample; SubmitReconcile].
Proof.
  apply (entry_transfer 7 sample receiver [sample_env 0; sample_env 500]
    (accept_entry sample (doc receiver)).1).
  - reflexivity.
  - vm_compute; intuition discriminate.
  - intros s [= <-]. reflexivity.
  - exact receiver_wf.
  - reflexivity.
  - reflexivity.
  - reflexivity.
  - apply Forall_cons_2; [|apply Forall_singleton]; (split; vm_compute; reflexivity).
  - intros env f Hf Hs. apply elem_of_cons in Hf as [[= -> ->]|Hf].
    + exfalso. vm_compute in Hs. discriminate Hs.
    + apply list_elem_of_singleton in Hf as [= -> ->]. vm_compute. reflexivity.
  - intros [|i] env env'; [|destruct i; done]. intros [= <-] [= <-]. cbn. lia.
  - vm_compute. reflexivity.
Defined.

Lemma entry_burst_exact_witness :
  let sender := fresh (accept_entry sample (meshtastic_cluster_doc_init 4)).1 in
  let st1 := (on_entry_req (sample_env 0) 9 [PbKey 1 5 6; PbKey 0 0 6] sender).1 in
  (tx_run 13 st1).1 = [(9, first_frame); (9, last_frame)] /\ ent_dest (tx_run 13 st1).2 = 0.
Proof.
  cbv zeta. split; [vm_compute; reflexivity|].
  pose proof (entry_burst_exact (sample_env 0) 9 [PbKey 1 5 6; PbKey 0 0 6]
    (fresh (accept_entry sample (meshtastic_cluster_doc_init 4)).1)
    (accept_wf sample _ receiver_wf) ltac:(discriminate) eq_refl) as H.
  assert (Hk : (on_entry_req (sample_env 0) 9 [PbKey 1 5 6; PbKey 0 0 6]
    (fresh (accept_entry sample (meshtastic_cluster_doc_init 4)).1)).2 = [KickTx]) by (vm_compute; reflexivity).
  destruct (on_entry_req _ _ _ _) as [st1 eff]. cbn [fst snd] in *. specialize (H Hk).
  destruct (tx_run 13 st1) as [fs st2]. apply H.
Defined.
