(* ===== verification/PeerCodec.v ===== *)
(** * The BLE peer link codec (src/src/meshtastic_ble_peer_codec.c, .h)

    The beat and advertisement formats, the loss accounting of received beats, the
    chunker that cuts a frame into ATT payloads and the reassembler, with the two send
    loops and the receive tail of meshtastic_ble_peer.c that use them. A send loop calls
    the Bluetooth stack once per chunk: the k-th call's result is an argument. *)
From Stdlib Require Import Sorted.
From S2P Require Import Prelude.
Open Scope Z_scope.

Definition MESHTASTIC_BLE_PEER_BEAT_V1_LEN : Z := 16.
Definition MESHTASTIC_BLE_PEER_BEAT_LEN : Z := 20.
Definition MESHTASTIC_BLE_PEER_BEAT_MAGIC : Z := 77.
Definition MESHTASTIC_BLE_PEER_BEAT_VERSION : Z := 2.
Definition MESHTASTIC_BLE_PEER_FLAG_HELLO : Z := 1.
Definition MESHTASTIC_BLE_PEER_ADV_LEN : Z := 7.
Definition MESHTASTIC_BLE_PEER_ADV_COMPANY : Z := 65535.
Definition MESHTASTIC_BLE_PEER_ADV_FORMAT : Z := 1.
Definition MESHTASTIC_BLE_PEER_CHUNK_FIRST : Z := 128.
Definition MESHTASTIC_BLE_PEER_CHUNK_LAST : Z := 64.
Definition MESHTASTIC_BLE_PEER_CHUNK_SEQ_MASK : Z := 63.
Definition MESHTASTIC_BLE_PEER_CHUNK_HDR_LEN : Z := 1.
Definition MESHTASTIC_BLE_PEER_CHUNK_MIN_BUF : Z := 4.
Definition MESHTASTIC_BLE_PEER_CHUNK_MTU23 : Z := 20.
Definition MESHTASTIC_BLE_PEER_FRAME_MAX : Z := 255.
Definition MESHTASTIC_BLE_PEER_KIND_WIRE : Z := 0.
Definition MESHTASTIC_BLE_PEER_KIND_MAX : Z := 15.
Definition MESHTASTIC_BLE_PEER_ENV_MAX : Z := MESHTASTIC_BLE_PEER_FRAME_MAX + 16.
Definition MESHTASTIC_BLE_PEER_REASM_MAX : Z := MESHTASTIC_BLE_PEER_ENV_MAX.

(** ** Beats *)
Record beat := Beat {
  b_version : Z;
  b_flags : Z;
  b_class_id : Z;
  b_node_num : Z;
  b_seq : Z;
  b_uptime_s : Z;
  b_fw_major : Z;
  b_fw_minor : Z;
  b_fw_revision : Z;
}.

Definition meshtastic_ble_peer_beat_encode (b : beat) : list Z :=
  [MESHTASTIC_BLE_PEER_BEAT_MAGIC; MESHTASTIC_BLE_PEER_BEAT_VERSION; b_flags b; b_class_id b] ++
  put_le32 (b_node_num b) ++ put_le32 (b_seq b) ++ put_le32 (b_uptime_s b) ++
  [b_fw_major b; b_fw_minor b] ++ put_le16 (b_fw_revision b).

Definition meshtastic_ble_peer_beat_decode (buf : list Z) : res beat :=
  if Zlen buf <? MESHTASTIC_BLE_PEER_BEAT_V1_LEN then Fail EINVAL
  else if negb (byte_at buf 0 =? MESHTASTIC_BLE_PEER_BEAT_MAGIC) then Fail EBADMSG
  else if byte_at buf 1 <? 1 then Fail ENOTSUP
  else
    let v2 := (2 <=? byte_at buf 1) && (MESHTASTIC_BLE_PEER_BEAT_LEN <=? Zlen buf) in
    Val (Beat (byte_at buf 1) (byte_at buf 2)
           (if v2 then byte_at buf 3 else 0)
           (get_le32 4 buf) (get_le32 8 buf) (get_le32 12 buf)
           (if v2 then byte_at buf 16 else 0)
           (if v2 then byte_at buf 17 else 0)
           (if v2 then get_le16 18 buf else 0)).

(** ** Advertisements and link policy *)
Definition meshtastic_ble_peer_adv_encode (node_num : Z) : list Z :=
  [Z.land MESHTASTIC_BLE_PEER_ADV_COMPANY 255; u8 (Z.shiftr MESHTASTIC_BLE_PEER_ADV_COMPANY 8);
   MESHTASTIC_BLE_PEER_ADV_FORMAT] ++ put_le32 node_num.

Definition meshtastic_ble_peer_adv_decode (buf : list Z) : res Z :=
  if negb (Zlen buf =? MESHTASTIC_BLE_PEER_ADV_LEN) then Fail EINVAL
  else if negb (byte_at buf 0 =? u8 (Z.land MESHTASTIC_BLE_PEER_ADV_COMPANY 255)) ||
          negb (byte_at buf 1 =? u8 (Z.shiftr MESHTASTIC_BLE_PEER_ADV_COMPANY 8)) ||
          negb (byte_at buf 2 =? MESHTASTIC_BLE_PEER_ADV_FORMAT) then Fail EBADMSG
  else Val (get_le32 3 buf).

Definition meshtastic_ble_peer_scan_admits (target last node since_ms sticky_ms : Z) : bool :=
  if negb (target =? 0) then node =? target
  else if negb (last =? 0) && negb (node =? last) && (since_ms <? sticky_ms) then false
  else true.

Definition meshtastic_ble_peer_bringup_expired (started_ms now_ms timeout_ms : Z) : bool :=
  negb (started_ms =? 0) && (timeout_ms <=? now_ms - started_ms).

(** ** Loss accounting *)
Record rx := RxState {
  rx_synced : bool;
  rx_beats : Z;
  rx_lost : Z;
  rx_resyncs : Z;
  rx_last : beat;
}.
Definition set_rx_synced (v : bool) (r : rx) : rx :=
RxState v (rx_beats r) (rx_lost r) (rx_resyncs r) (rx_last r).
Definition set_rx_beats (v : Z) (r : rx) : rx :=
RxState (rx_synced r) v (rx_lost r) (rx_resyncs r) (rx_last r).
Definition set_rx_lost (v : Z) (r : rx) : rx :=
RxState (rx_synced r) (rx_beats r) v (rx_resyncs r) (rx_last r).
Definition set_rx_resyncs (v : Z) (r : rx) : rx :=
RxState (rx_synced r) (rx_beats r) (rx_lost r) v (rx_last r).
Definition set_rx_last (v : beat) (r : rx) : rx :=
RxState (rx_synced r) (rx_beats r) (rx_lost r) (rx_resyncs r) v.

Definition meshtastic_ble_peer_rx_reset : rx := RxState false 0 0 0 (Beat 0 0 0 0 0 0 0 0 0).

Definition meshtastic_ble_peer_rx_account (st : rx) (b : beat) : rx :=
  let hello := negb (Z.land (b_flags b) MESHTASTIC_BLE_PEER_FLAG_HELLO =? 0) in
  let st1 :=
    if negb (rx_synced st) then set_rx_synced true st
    else if hello || (b_seq b <=? b_seq (rx_last st))
    then set_rx_resyncs (u32 (rx_resyncs st + 1)) st
    else set_rx_lost (u32 (rx_lost st + u32 (b_seq b - u32 (b_seq (rx_last st) + 1)))) st in
  set_rx_last b (set_rx_beats (u32 (rx_beats st1 + 1)) st1).

(** ** The chunker *)
Record chunker := Chunker {
  ck_frame : list Z;
  ck_len : Z;
  ck_off : Z;
  ck_seq : Z;
  ck_kind : Z;
  ck_first_sent : bool;
}.
Definition set_ck_frame (v : list Z) (r : chunker) : chunker :=
Chunker v (ck_len r) (ck_off r) (ck_seq r) (ck_kind r) (ck_first_sent r).
Definition set_ck_len (v : Z) (r : chunker) : chunker :=
Chunker (ck_frame r) v (ck_off r) (ck_seq r) (ck_kind r) (ck_first_sent r).
Definition set_ck_off (v : Z) (r : chunker) : chunker :=
Chunker (ck_frame r) (ck_len r) v (ck_seq r) (ck_kind r) (ck_first_sent r).
Definition set_ck_seq (v : Z) (r : chunker) : chunker :=
Chunker (ck_frame r) (ck_len r) (ck_off r) v (ck_kind r) (ck_first_sent r).
Definition set_ck_kind (v : Z) (r : chunker) : chunker :=
Chunker (ck_frame r) (ck_len r) (ck_off r) (ck_seq r) v (ck_first_sent r).
Definition set_ck_first_sent (v : bool) (r : chunker) : chunker :=
Chunker (ck_frame r) (ck_len r) (ck_off r) (ck_seq r) (ck_kind r) v.

Definition kind_cap (kind : Z) : Z :=
  if kind =? MESHTASTIC_BLE_PEER_KIND_WIRE then MESHTASTIC_BLE_PEER_FRAME_MAX
  else MESHTASTIC_BLE_PEER_ENV_MAX.

Definition meshtastic_ble_peer_chunker_start_kind (frame : list Z) (kind : Z) : res chunker :=
  let len := Zlen frame in
  if (len =? 0) || (MESHTASTIC_BLE_PEER_KIND_MAX <? kind) then Fail EINVAL
  else if kind_cap kind <? len then Fail EMSGSIZE
  else Val (Chunker frame (u16 len) 0 0 kind false).

Definition meshtastic_ble_peer_chunker_start (frame : list Z) : res chunker :=
  meshtastic_ble_peer_chunker_start_kind frame MESHTASTIC_BLE_PEER_KIND_WIRE.

(** The chunk written to [out]; the empty list is the return value 0. *)
Definition meshtastic_ble_peer_chunker_next (ck : chunker) (out_size : Z) : chunker * res (list Z) :=
  let first := negb (ck_first_sent ck) in
  if out_size <? MESHTASTIC_BLE_PEER_CHUNK_MIN_BUF then (ck, Fail EINVAL)
  else if ck_first_sent ck && (ck_off ck =? ck_len ck) then (ck, Val [])
  else
    let prefix :=
      if first then
        [u8 (Z.land (ck_len ck) 255);
         u8 (Z.lor (Z.land (Z.shiftr (ck_len ck) 8) 15) (u8 (Z.shiftl (ck_kind ck) 4)))]
      else [] in
    let pos := MESHTASTIC_BLE_PEER_CHUNK_HDR_LEN + Zlen prefix in
    let body_cap := out_size - pos in
    let left := ck_len ck - ck_off ck in
    let n := if body_cap <? left then body_cap else left in
    let body := take (Z.to_nat n) (drop (Z.to_nat (ck_off ck)) (ck_frame ck)) in
    let off := u16 (ck_off ck + u16 n) in
    let h0 := Z.land (ck_seq ck) MESHTASTIC_BLE_PEER_CHUNK_SEQ_MASK in
    let h1 := if first then Z.lor h0 MESHTASTIC_BLE_PEER_CHUNK_FIRST else h0 in
    let h2 := if off =? ck_len ck then Z.lor h1 MESHTASTIC_BLE_PEER_CHUNK_LAST else h1 in
    (set_ck_first_sent true
       (set_ck_seq (Z.land (ck_seq ck + 1) MESHTASTIC_BLE_PEER_CHUNK_SEQ_MASK)
          (set_ck_off off ck)),
     Val (h2 :: prefix ++ body)).

(** ** The reassembler *)
Record reasm := Reasm {
  rs_active : bool;
  rs_next_seq : Z;
  rs_kind : Z;
  rs_expect : Z;
  rs_got : Z;
  rs_frame : list Z;
  rs_frames : Z;
  rs_aborted : Z;
  rs_rejected : Z;
}.
Definition set_rs_active (v : bool) (r : reasm) : reasm :=
Reasm v (rs_next_seq r) (rs_kind r) (rs_expect r) (rs_got r) (rs_frame r) (rs_frames r)
    (rs_aborted r) (rs_rejected r).
Definition set_rs_next_seq (v : Z) (r : reasm) : reasm :=
Reasm (rs_active r) v (rs_kind r) (rs_expect r) (rs_got r) (rs_frame r) (rs_frames r)
    (rs_aborted r) (rs_rejected r).
Definition set_rs_kind (v : Z) (r : reasm) : reasm :=
Reasm (rs_active r) (rs_next_seq r) v (rs_expect r) (rs_got r) (rs_frame r) (rs_frames r)
    (rs_aborted r) (rs_rejected r).
Definition set_rs_expect (v : Z) (r : reasm) : reasm :=
Reasm (rs_active r) (rs_next_seq r) (rs_kind r) v (rs_got r) (rs_frame r) (rs_frames r)
    (rs_aborted r) (rs_rejected r).
Definition set_rs_got (v : Z) (r : reasm) : reasm :=
Reasm (rs_active r) (rs_next_seq r) (rs_kind r) (rs_expect r) v (rs_frame r) (rs_frames r)
    (rs_aborted r) (rs_rejected r).
Definition set_rs_frame (v : list Z) (r : reasm) : reasm :=
Reasm (rs_active r) (rs_next_seq r) (rs_kind r) (rs_expect r) (rs_got r) v (rs_frames r)
    (rs_aborted r) (rs_rejected r).
Definition set_rs_frames (v : Z) (r : reasm) : reasm :=
Reasm (rs_active r) (rs_next_seq r) (rs_kind r) (rs_expect r) (rs_got r) (rs_frame r) v
    (rs_aborted r) (rs_rejected r).
Definition set_rs_aborted (v : Z) (r : reasm) : reasm :=
Reasm (rs_active r) (rs_next_seq r) (rs_kind r) (rs_expect r) (rs_got r) (rs_frame r)
    (rs_frames r) v (rs_rejected r).
Definition set_rs_rejected (v : Z) (r : reasm) : reasm :=
Reasm (rs_active r) (rs_next_seq r) (rs_kind r) (rs_expect r) (rs_got r) (rs_frame r)
    (rs_frames r) (rs_aborted r) v.

Definition meshtastic_ble_peer_reasm_reset : reasm :=
  Reasm false 0 0 0 0 (replicate (Z.to_nat MESHTASTIC_BLE_PEER_REASM_MAX) 0) 0 0 0.

Definition reasm_abort (rs : reasm) : reasm :=
  if rs_active rs then set_rs_aborted (u32 (rs_aborted rs + 1)) (set_rs_active false rs) else rs.

(** [rs->rejected++; return -e;] *)
Definition reasm_reject (e : errno) (rs : reasm) : reasm * res (option Z) :=
  (set_rs_rejected (u32 (rs_rejected rs + 1)) rs, Fail e).

(** The common tail: [Val (Some n)] is the return value 1 with [*frame_len = n],
    [Val None] the return value 0. *)
Definition reasm_finish (last : bool) (rs : reasm) : reasm * res (option Z) :=
  if last then
    if negb (rs_got rs =? rs_expect rs) then reasm_reject EBADMSG (reasm_abort rs)
    else (set_rs_frames (u32 (rs_frames rs + 1)) (set_rs_active false rs), Val (Some (rs_got rs)))
  else if rs_got rs =? rs_expect rs then reasm_reject EBADMSG (reasm_abort rs)
  else (rs, Val None).

Definition meshtastic_ble_peer_reasm_ingest (rs : reasm) (chunk : list Z) : reasm * res (option Z) :=
  if Zlen chunk <? MESHTASTIC_BLE_PEER_CHUNK_HDR_LEN + 1 then reasm_reject EBADMSG rs
  else
    let c0 := byte_at chunk 0 in
    let first := negb (Z.land c0 MESHTASTIC_BLE_PEER_CHUNK_FIRST =? 0) in
    let last := negb (Z.land c0 MESHTASTIC_BLE_PEER_CHUNK_LAST =? 0) in
    let seq := Z.land c0 MESHTASTIC_BLE_PEER_CHUNK_SEQ_MASK in
    let next := Z.land (seq + 1) MESHTASTIC_BLE_PEER_CHUNK_SEQ_MASK in
    let body := drop 1 chunk in
    let blen := Zlen chunk - MESHTASTIC_BLE_PEER_CHUNK_HDR_LEN in
    if first then
      let rs := reasm_abort rs in
      if blen <? 2 then reasm_reject EBADMSG rs
      else
        let kind := Z.shiftr (byte_at body 1) 4 in
        let declared := Z.lor (byte_at body 0) (Z.shiftl (Z.land (byte_at body 1) 15) 8) in
        let body := drop 2 body in
        let blen := blen - 2 in
        if declared =? 0 then reasm_reject EBADMSG rs
        else if kind_cap kind <? declared then reasm_reject EMSGSIZE rs
        else if declared <? blen then reasm_reject EBADMSG rs
        else
          reasm_finish last
            (Reasm true next kind declared (u16 blen) (buf_write 0 body (rs_frame rs))
               (rs_frames rs) (rs_aborted rs) (rs_rejected rs))
    else if negb (rs_active rs) then reasm_reject EBADMSG rs
    else if negb (seq =? rs_next_seq rs) || (rs_expect rs - rs_got rs <? blen)
    then reasm_reject EBADMSG (reasm_abort rs)
    else
      reasm_finish last
        (set_rs_next_seq next
           (set_rs_got (u16 (rs_got rs + u16 blen))
              (set_rs_frame (buf_write (Z.to_nat (rs_got rs)) body (rs_frame rs)) rs))).

(** ** The frame channel (meshtastic_ble_peer.c) *)

(** [peer_chunk_size]: [mtu] is the live ATT MTU, [tx_mtu] is CONFIG_BT_L2CAP_TX_MTU. *)
Definition peer_chunk_size (tx_mtu mtu : Z) : Z :=
  if mtu <? MESHTASTIC_BLE_PEER_CHUNK_MTU23 + 3 then MESHTASTIC_BLE_PEER_CHUNK_MTU23
  else Z.min (u16 (mtu - 3)) (u16 (tx_mtu - 3)).

(** The chunk loop of [frame_notify_kind] and [central_send_frame]: the k-th call of the
    stack returns [gatt k]. The result is what the loop leaves in [ret] and the chunks
    the stack accepted; [None] is a loop that did not end within the fuel. *)
Fixpoint send_chunks (fuel : nat) (gatt : nat -> cret) (chunk : Z) (k : nat) (ck : chunker)
    : option (cret * list (list Z)) :=
  match fuel with
  | O => None
  | S fuel' =>
      match meshtastic_ble_peer_chunker_next ck chunk with
      | (ck', Val (b :: c)) =>
          match gatt k with
          | OK =>
              match send_chunks fuel' gatt chunk (S k) ck' with
              | Some (r, cs) => Some (r, (b :: c) :: cs)
              | None => None
              end
          | ERR e => Some (ERR e, [])
          end
      | _ => Some (OK, [])
      end
  end.

(** One send: [ready] is [frame_notify_enabled], or [frame_ready] and a connection. *)
Definition frame_send (gatt : nat -> cret) (ready : bool) (chunk : Z) (frame : list Z) (kind : Z)
    : option (cret * list (list Z)) :=
  if negb ready then Some (ERR ENOTCONN, [])
  else
    match meshtastic_ble_peer_chunker_start_kind frame kind with
    | Fail e => Some (ERR e, [])
    | Val ck => send_chunks (S (length frame)) gatt chunk 0 ck
    end.

(** [frame_chunk_ingest]: the frame handed to [frame_cb], with its kind. *)
Definition frame_chunk_ingest (rs : reasm) (chunk : list Z) : reasm * list (list Z * Z) :=
  match meshtastic_ble_peer_reasm_ingest rs chunk with
  | (rs', Val (Some n)) => (rs', [(take (Z.to_nat n) (rs_frame rs'), rs_kind rs')])
  | (rs', _) => (rs', [])
  end.

Fixpoint frame_ingest_all (rs : reasm) (cs : list (list Z)) : reasm * list (list Z * Z) :=
  match cs with
  | [] => (rs, [])
  | c :: cs' =>
      let '(rs1, out1) := frame_chunk_ingest rs c in
      let '(rs2, out2) := frame_ingest_all rs1 cs' in (rs2, out1 ++ out2)
  end.

(** ** Widths *)
Record beat_wf (b : beat) : Prop := BeatWf {
  bw_version : in_u8 (b_version b);
  bw_flags : in_u8 (b_flags b);
  bw_class_id : in_u8 (b_class_id b);
  bw_node_num : in_u32 (b_node_num b);
  bw_seq : in_u32 (b_seq b);
  bw_uptime_s : in_u32 (b_uptime_s b);
  bw_fw_major : in_u8 (b_fw_major b);
  bw_fw_minor : in_u8 (b_fw_minor b);
  bw_fw_revision : in_u16 (b_fw_revision b);
}.

(** The beat as a version-[v] sender of this layout says it, [ext] being the fields it
    appends. *)
Definition beat_of_version (v : Z) (b : beat) (ext : list Z) : list Z :=
  [MESHTASTIC_BLE_PEER_BEAT_MAGIC; v] ++ drop 2 (meshtastic_ble_peer_beat_encode b) ++ ext.

(** Whatever bytes a peer sends, an accepted beat has every field inside its C type. *)
Theorem beat_decode_typed (buf : list Z) (b : beat) :
  bytes_ok buf -> meshtastic_ble_peer_beat_decode buf = Val b -> beat_wf b.
Proof.
  unfold meshtastic_ble_peer_beat_decode. intros Hb Hd.
  branches; try discriminate; injection Hd as <-; constructor; simpl; auto with wire.
Qed.

(** The 20 bytes of an encoded beat, field by field. *)
Lemma beat_layout v b ext :
  beat_wf b ->
  let buf := beat_of_version v b ext in
  length buf = (20 + length ext)%nat /\
  byte_at buf 0 = MESHTASTIC_BLE_PEER_BEAT_MAGIC /\ byte_at buf 1 = v /\
  byte_at buf 2 = b_flags b /\ byte_at buf 3 = b_class_id b /\
  get_le32 4 buf = b_node_num b /\ get_le32 8 buf = b_seq b /\ get_le32 12 buf = b_uptime_s b /\
  byte_at buf 16 = b_fw_major b /\ byte_at buf 17 = b_fw_minor b /\
  get_le16 18 buf = b_fw_revision b.
Proof.
  intros [_ _ _ Hn Hs Hu _ _ Hr]. cbv zeta.
  unfold in_u32, in_u16, UINT32_MAX, UINT16_MAX in *.
  repeat split; try reflexivity.
  - exact (le_get_put 4 (b_node_num b) ltac:(simpl; lia)).
  - exact (le_get_put 4 (b_seq b) ltac:(simpl; lia)).
  - exact (le_get_put 4 (b_uptime_s b) ltac:(simpl; lia)).
  - exact (le_get_put 2 (b_fw_revision b) ltac:(simpl; lia)).
Qed.

(** What the decoder makes of such a beat. *)
Lemma beat_decode_of_version v b ext :
  beat_wf b -> 1 <= v ->
  meshtastic_ble_peer_beat_decode (beat_of_version v b ext) =
  let v2 (x : Z) := if 2 <=? v then x else 0 in
  Val (Beat v (b_flags b) (v2 (b_class_id b)) (b_node_num b) (b_seq b) (b_uptime_s b)
         (v2 (b_fw_major b)) (v2 (b_fw_minor b)) (v2 (b_fw_revision b))).
Proof.
  intros Hb Hv. destruct (beat_layout v b ext Hb) as (E0 & E1 & E2 & E3 & E4 & E5 & E6 & E7 & E8 & E9 & E10).
  unfold meshtastic_ble_peer_beat_decode.
  rewrite E0, E1, E2, E3, E4, E5, E6, E7, E8, E9, E10, Z.eqb_refl.
  replace (_ <? MESHTASTIC_BLE_PEER_BEAT_V1_LEN) with false
    by (symmetry; apply Z.ltb_ge; unfold MESHTASTIC_BLE_PEER_BEAT_V1_LEN; lia).
  replace (MESHTASTIC_BLE_PEER_BEAT_LEN <=? _) with true
    by (symmetry; apply Z.leb_le; unfold MESHTASTIC_BLE_PEER_BEAT_LEN; lia).
  rewrite andb_true_r. replace (v <? 1) with false by (symmetry; apply Z.ltb_ge; lia). done.
Qed.

Lemma beat_decode_prefix v b ext :
  beat_wf b -> 1 <= v ->
  meshtastic_ble_peer_beat_decode (take 16 (beat_of_version v b ext)) =
  Val (Beat v (b_flags b) 0 (b_node_num b) (b_seq b) (b_uptime_s b) 0 0 0).
Proof.
  intros Hb Hv. destruct (beat_layout v b ext Hb) as (_ & _ & _ & _ & _ & E5 & E6 & E7 & _).
  rewrite <- E5, <- E6, <- E7. unfold meshtastic_ble_peer_beat_decode.
  change (byte_at (take 16 (beat_of_version v b ext)) 1) with v.
  replace (v <? 1) with false by (symmetry; apply Z.ltb_ge; lia).
  change (MESHTASTIC_BLE_PEER_BEAT_LEN <=? _) with false. rewrite andb_false_r. reflexivity.
Qed.

(** A beat is read back by every decoder of this rule: the sender may be newer and
    append what it likes, all fields are read; cut to the version-1 frame, or sent by a
    version-1 node, the fields version 1 had are read and the others are zero. *)
Theorem beat_forward_compatible (v : Z) (b : beat) (ext : list Z) :
  beat_wf b -> 2 <= v ->
  let full v := Beat v (b_flags b) (b_class_id b) (b_node_num b) (b_seq b) (b_uptime_s b)
                  (b_fw_major b) (b_fw_minor b) (b_fw_revision b) in
  let old v := Beat v (b_flags b) 0 (b_node_num b) (b_seq b) (b_uptime_s b) 0 0 0 in
  meshtastic_ble_peer_beat_decode (meshtastic_ble_peer_beat_encode b) = Val (full 2) /\
  meshtastic_ble_peer_beat_decode (beat_of_version v b ext) = Val (full v) /\
  meshtastic_ble_peer_beat_decode (take 16 (beat_of_version v b ext)) = Val (old v) /\
  meshtastic_ble_peer_beat_decode (beat_of_version 1 b ext) = Val (old 1).
Proof.
  intros Hb Hv full old.
  change (meshtastic_ble_peer_beat_encode b) with (beat_of_version 2 b []).
  rewrite !beat_decode_of_version, beat_decode_prefix by (done || lia).
  replace (2 <=? v) with true by (symmetry; apply Z.leb_le; lia). done.
Qed.

Definition beat0 : beat := Beat 2 9 7 305419896 41 86400 2 7 1234.

Lemma beat0_wf : beat_wf beat0.
Proof. by constructor; vm_compute. Qed.

Lemma beat_decode_typed_witness : beat_wf (Beat 3 9 7 305419896 41 86400 2 7 1234).
Proof.
  apply (beat_decode_typed (beat_of_version 3 beat0 [1; 2])).
  - unfold bytes_ok. repeat (apply Forall_cons_2; [by vm_compute|]). apply Forall_nil_2.
  - reflexivity.
Defined.

Lemma beat_forward_compatible_witness :
  meshtastic_ble_peer_beat_decode (beat_of_version 3 beat0 [1; 2]) =
  Val (Beat 3 9 7 305419896 41 86400 2 7 1234).
Proof. exact (proj1 (proj2 (beat_forward_compatible 3 beat0 [1; 2] beat0_wf ltac:(lia)))). Defined.

Lemma adv_roundtrip n : in_u32 n ->
  meshtastic_ble_peer_adv_decode (meshtastic_ble_peer_adv_encode n) = Val n.
Proof.
  intros Hn. unfold in_u32, UINT32_MAX in Hn. unfold meshtastic_ble_peer_adv_decode.
  cbn -[get_le]. f_equal. exact (le_get_put 4 n ltac:(simpl; lia)).
Qed.

(** An advert that decodes is exactly the advert of its node number. *)
Lemma adv_decode_exact buf n : bytes_ok buf ->
  meshtastic_ble_peer_adv_decode buf = Val n -> buf = meshtastic_ble_peer_adv_encode n.
Proof.
  intros Hb Hd. unfold meshtastic_ble_peer_adv_decode in Hd. branches; try discriminate.
  injection Hd as <-. unfold MESHTASTIC_BLE_PEER_ADV_LEN in *.
  assert (Hl : length buf = 7%nat) by lia.
  destruct buf as [|b0 [|b1 [|b2 [|b3 [|b4 [|b5 [|b6 [|]]]]]]]]; try discriminate Hl.
  assert (Ht : bytes_ok [b3; b4; b5; b6]) by (apply (Forall_drop _ 3) in Hb; exact Hb).
  pose proof (le_put_get _ Ht) as E. cbn in *. subst. unfold meshtastic_ble_peer_adv_encode.
  f_equal. f_equal. f_equal. symmetry. exact E.
Qed.

(** ** Loss accounting *)

(** Beats received in order on one link, with no restart announced. *)
Definition later (st : rx) (bs : list beat) : Prop :=
  Forall (fun b => in_u32 (b_seq b) /\ Z.land (b_flags b) MESHTASTIC_BLE_PEER_FLAG_HELLO = 0) bs /\
  StronglySorted Z.lt (b_seq (rx_last st) :: map b_seq bs).

Lemma account_in_order st b :
  rx_synced st = true -> in_u32 (b_seq (rx_last st)) -> in_u32 (b_seq b) ->
  Z.land (b_flags b) MESHTASTIC_BLE_PEER_FLAG_HELLO = 0 -> b_seq (rx_last st) < b_seq b ->
  meshtastic_ble_peer_rx_account st b =
  RxState true (u32 (rx_beats st + 1)) (u32 (rx_lost st + (b_seq b - b_seq (rx_last st) - 1)))
    (rx_resyncs st) b.
Proof.
  intros Hs Hl Hb Hf Hlt. unfold meshtastic_ble_peer_rx_account. rewrite Hs, Hf. simpl.
  replace (b_seq b <=? _) with false by (symmetry; apply Z.leb_gt; lia).
  unfold in_u32, UINT32_MAX in *. rewrite (u32_small (b_seq (rx_last st) + 1)) by lia.
  rewrite (u32_small (b_seq b - _)) by lia. unfold set_rx_last, set_rx_beats, set_rx_lost. simpl.
  rewrite Hs. do 2 f_equal. lia.
Qed.

(** On a synchronised link the loss figure is exact: after any run of beats that
    arrive in order, beats received plus beats lost is the distance the sender's
    sequence number has moved (modulo the 32 bits of the counters), and nothing is
    booked as a restart. *)
Theorem beat_loss_exact (st : rx) (bs : list beat) :
  rx_synced st = true -> in_u32 (b_seq (rx_last st)) -> later st bs ->
  let st' := foldl meshtastic_ble_peer_rx_account st bs in
  u32 (rx_beats st' + rx_lost st') =
    u32 (rx_beats st + rx_lost st + (b_seq (rx_last st') - b_seq (rx_last st))) /\
  rx_resyncs st' = rx_resyncs st /\ rx_last st' = default (rx_last st) (last bs).
Proof.
  cbv zeta. revert st. induction bs as [|b bs IH]; intros st Hs Hl [Hf Ho]; cbn [foldl].
  { split; [f_equal; lia | done]. }
  apply Forall_cons in Hf as [[Hb Hh] Hf]. cbn [map] in Ho.
  apply StronglySorted_inv in Ho as [Ho Hlt].
  assert (Hlt0 : b_seq (rx_last st) < b_seq b) by (apply Forall_cons in Hlt as [? _]; done).
  rewrite account_in_order by done.
  set (st1 := RxState _ _ _ _ _). destruct (IH st1 eq_refl Hb (conj Hf Ho)) as (E1 & E2 & E3).
  rewrite E1, E2. split; [|split; [done | rewrite E3, last_cons; by destruct (last bs)]].
  subst st1. simpl. unfold wrap. rewrite <- Zplus_mod_idemp_l, <- Zplus_mod, Zplus_mod_idemp_l.
  f_equal. lia.
Qed.

Lemma beat_loss_exact_witness :
  let b n := Beat 2 0 0 7 n 0 0 0 0 in
  let st := meshtastic_ble_peer_rx_account meshtastic_ble_peer_rx_reset (b 4) in
  rx_lost (foldl meshtastic_ble_peer_rx_account st [b 5; b 9; b 10]) = 3 /\
  u32 (4 + 3) = u32 (1 + 0 + (10 - 4)).
Proof.
  split; [reflexivity|].
  apply (proj1 (beat_loss_exact
    (meshtastic_ble_peer_rx_account meshtastic_ble_peer_rx_reset (Beat 2 0 0 7 4 0 0 0 0))
    [Beat 2 0 0 7 5 0 0 0 0; Beat 2 0 0 7 9 0 0 0 0; Beat 2 0 0 7 10 0 0 0 0]
    eq_refl ltac:(by vm_compute)
    ltac:(split; [repeat (apply Forall_cons_2; [by vm_compute|]); apply Forall_nil_2
                 | repeat constructor]))).
Defined.

(** ** Chunks *)

(** The header byte of a chunk and what the receiver reads of it. *)
Definition chunk_hdr (seq : Z) (first last : bool) : Z :=
  let h1 := if first then Z.lor seq MESHTASTIC_BLE_PEER_CHUNK_FIRST else seq in
  if last then Z.lor h1 MESHTASTIC_BLE_PEER_CHUNK_LAST else h1.

Lemma chunk_hdr_bits seq first last :
  0 <= seq < 64 ->
  negb (Z.land (chunk_hdr seq first last) MESHTASTIC_BLE_PEER_CHUNK_FIRST =? 0) = first /\
  negb (Z.land (chunk_hdr seq first last) MESHTASTIC_BLE_PEER_CHUNK_LAST =? 0) = last /\
  Z.land (chunk_hdr seq first last) MESHTASTIC_BLE_PEER_CHUNK_SEQ_MASK = seq.
Proof.
  intros Hs.
  pose proof (byte_all (fun s => (64 <=? s) ||
    (Bool.eqb (negb (Z.land (chunk_hdr s first last) 128 =? 0)) first &&
     Bool.eqb (negb (Z.land (chunk_hdr s first last) 64 =? 0)) last &&
     (Z.land (chunk_hdr s first last) 63 =? s))) seq) as H.
  destruct first, last; specialize (H ltac:(by vm_compute) ltac:(unfold byte_ok; lia));
    (replace (64 <=? seq) with false in H by (symmetry; apply Z.leb_gt; lia));
    simpl orb in H; bools;
    repeat match goal with E : Bool.eqb _ _ = true |- _ => apply Bool.eqb_prop in E end; done.
Qed.

(** The length prefix of a first chunk and what the receiver reads of it. *)
Definition len_prefix (len kind : Z) : list Z :=
  [u8 (Z.land len 255); u8 (Z.lor (Z.land (Z.shiftr len 8) 15) (u8 (Z.shiftl kind 4)))].

Lemma len_prefix_hi hi kind :
  0 <= hi < 16 -> 0 <= kind <= 15 ->
  let b := u8 (Z.lor (Z.land hi 15) (u8 (Z.shiftl kind 4))) in
  Z.shiftr b 4 = kind /\ Z.land b 15 = hi.
Proof.
  intros Hh Hk.
  pose proof (byte_all (fun x =>
    let hi := x `mod` 16 in let kind := x / 16 in
    let b := u8 (Z.lor (Z.land hi 15) (u8 (Z.shiftl kind 4))) in
    (Z.shiftr b 4 =? kind) && (Z.land b 15 =? hi)) (hi + kind * 16)) as H.
  specialize (H ltac:(by vm_compute) ltac:(unfold byte_ok; lia)). cbv beta zeta in H.
  rewrite Z.mod_add, Z.div_add, (Z.mod_small hi), (Z.div_small hi) in H by lia.
  rewrite Z.add_0_l in H. by bools.
Qed.

Lemma len_prefix_bits len kind rest :
  0 <= len < 4096 -> 0 <= kind <= 15 ->
  let body := len_prefix len kind ++ rest in
  Z.shiftr (byte_at body 1) 4 = kind /\
  Z.lor (byte_at body 0) (Z.shiftl (Z.land (byte_at body 1) 15) 8) = len.
Proof.
  intros Hl Hk. cbv zeta.
  change (byte_at (len_prefix len kind ++ rest) 0) with (u8 (Z.land len 255)).
  change (byte_at (len_prefix len kind ++ rest) 1) with
    (u8 (Z.lor (Z.land (Z.shiftr len 8) 15) (u8 (Z.shiftl kind 4)))).
  destruct (len_prefix_hi (Z.shiftr len 8) kind) as [E1 E2]; [|done|].
  { rewrite Z.shiftr_div_pow2 by lia. change (2 ^ 8) with 256. 
    split; [apply Z.div_pos; lia | apply Z.div_lt_upper_bound; lia]. }
  split; [exact E1|]. rewrite E2, (land_ones_mod len 8 255) by (done || lia).
  change (2 ^ 8) with 256. rewrite u8_small by (pose proof (Z.mod_pos_bound len 256); lia).
  rewrite lor_shiftl_add by (try lia; apply Z.mod_pos_bound; lia).
  rewrite Z.shiftr_div_pow2 by lia. change (2 ^ 8) with 256. pose proof (Z.div_mod len 256). lia.
Qed.

(** ** One frame through the channel *)
Record ck_wf (ck : chunker) : Prop := CkWf {
  cw_kind : 0 <= ck_kind ck <= MESHTASTIC_BLE_PEER_KIND_MAX;
  cw_len : ck_len ck = Zlen (ck_frame ck);
  cw_fits : 0 < ck_len ck <= kind_cap (ck_kind ck);
  cw_off : 0 <= ck_off ck <= ck_len ck;
  cw_seq : 0 <= ck_seq ck < 64;
  cw_start : ck_first_sent ck = false -> ck_off ck = 0;
}.

(** The receiver holds what the sender has sent of the frame. *)
Record fed (ck : chunker) (rs : reasm) : Prop := Fed {
  fd_active : rs_active rs = true;
  fd_seq : rs_next_seq rs = ck_seq ck;
  fd_kind : rs_kind rs = ck_kind ck;
  fd_expect : rs_expect rs = ck_len ck;
  fd_got : rs_got rs = ck_off ck;
  fd_bytes : take (Z.to_nat (ck_off ck)) (rs_frame rs) = take (Z.to_nat (ck_off ck)) (ck_frame ck);
}.

Definition room (rs : reasm) : Prop := Zlen (rs_frame rs) = MESHTASTIC_BLE_PEER_REASM_MAX.

Lemma kind_cap_le kind : kind_cap kind <= MESHTASTIC_BLE_PEER_REASM_MAX.
Proof. unfold kind_cap. destruct (_ =? _); vm_compute; congruence. Qed.

Lemma next_seq_range seq : 0 <= Z.land (seq + 1) MESHTASTIC_BLE_PEER_CHUNK_SEQ_MASK < 64.
Proof. rewrite (land_ones_mod _ 6) by done. apply Z.mod_pos_bound. lia. Qed.

Definition first_prefix (ck : chunker) : list Z :=
  if ck_first_sent ck then [] else len_prefix (ck_len ck) (ck_kind ck).

(** How many frame bytes the next chunk takes. *)
Definition chunk_take (ck : chunker) (size : Z) : Z :=
  Z.min (size - 1 - Zlen (first_prefix ck)) (ck_len ck - ck_off ck).

Definition advanced (ck : chunker) (n : Z) : chunker :=
  Chunker (ck_frame ck) (ck_len ck) (ck_off ck + n)
    (Z.land (ck_seq ck + 1) MESHTASTIC_BLE_PEER_CHUNK_SEQ_MASK) (ck_kind ck) true.

Lemma chunk_take_range ck size :
  ck_wf ck -> 4 <= size -> ck_off ck < ck_len ck ->
  0 < chunk_take ck size <= ck_len ck - ck_off ck.
Proof.
  intros Hw Hs Ho. unfold chunk_take, first_prefix. destruct (ck_first_sent ck); simpl length; lia.
Qed.

Lemma chunker_next_eq ck size :
  ck_wf ck -> 4 <= size -> ck_off ck < ck_len ck ->
  let n := chunk_take ck size in
  meshtastic_ble_peer_chunker_next ck size =
  (advanced ck n,
   Val (chunk_hdr (ck_seq ck) (negb (ck_first_sent ck)) (ck_off ck + n =? ck_len ck) ::
        first_prefix ck ++ take (Z.to_nat n) (drop (Z.to_nat (ck_off ck)) (ck_frame ck)))).
Proof.
  intros Hw Hs Ho n. pose proof (chunk_take_range ck size Hw Hs Ho) as Hn. fold n in Hn.
  destruct Hw as [Hk Hl Hf Hoff Hseq Hst]. pose proof (kind_cap_le (ck_kind ck)) as Hc.
  change MESHTASTIC_BLE_PEER_REASM_MAX with 271 in Hc.
  unfold meshtastic_ble_peer_chunker_next.
  replace (size <? _) with false by (symmetry; apply Z.ltb_ge; done).
  replace (ck_off ck =? ck_len ck) with false by (symmetry; apply Z.eqb_neq; lia).
  rewrite andb_false_r.
  assert (E : (if negb (ck_first_sent ck)
     then [u8 (Z.land (ck_len ck) 255);
           u8 (Z.lor (Z.land (Z.shiftr (ck_len ck) 8) 15) (u8 (Z.shiftl (ck_kind ck) 4)))]
     else []) = first_prefix ck) by (unfold first_prefix; by destruct (ck_first_sent ck)).
  rewrite E. cbv zeta. change MESHTASTIC_BLE_PEER_CHUNK_HDR_LEN with 1.
  rewrite Z.sub_add_distr.
  set (m := if _ <? _ then _ else _).
  assert (Em : m = n) by (subst m n; unfold chunk_take; destruct (_ <? _) eqn:?; bools; lia).
  rewrite Em. rewrite !u16_small by (rewrite ?u16_small; lia).
  rewrite (land_ones_mod (ck_seq ck) 6), Z.mod_small by (done || lia). done.
Qed.

Lemma advanced_wf ck size :
  ck_wf ck -> 4 <= size -> ck_off ck < ck_len ck -> ck_wf (advanced ck (chunk_take ck size)).
Proof.
  intros Hw Hs Ho. pose proof (chunk_take_range ck size Hw Hs Ho).
  destruct Hw. constructor; simpl; try done; [lia | apply next_seq_range].
Qed.

(** The receiver after a chunk was stored, before the check of the LAST flag. *)
Definition stored (ck : chunker) (rs : reasm) : Prop := fed ck rs /\ room rs.

Lemma finish_stored ck rs :
  stored ck rs -> ck_wf ck ->
  let '(rs', r) := reasm_finish (ck_off ck =? ck_len ck) rs in
  room rs' /\
  if ck_off ck =? ck_len ck
  then r = Val (Some (ck_len ck)) /\
       take (Z.to_nat (ck_len ck)) (rs_frame rs') = ck_frame ck /\ rs_kind rs' = ck_kind ck
  else r = Val None /\ fed ck rs'.
Proof.
  intros [Hf Hr] Hw. pose proof Hf as [Ha Hs Hk He Hg Hb]. unfold reasm_finish. rewrite Hg, He.
  destruct (ck_off ck =? ck_len ck) eqn:E; [|done]. simpl. bools.
  split; [done|]. rewrite E in *. split; [by rewrite ?E|]. split; [|done].
  rewrite Hb, (cw_len _ Hw), Nat2Z.id. by rewrite firstn_all.
Qed.

Lemma ingest_first ck rs size :
  ck_wf ck -> 4 <= size -> ck_first_sent ck = false -> room rs ->
  let n := chunk_take ck size in
  exists rs1, stored (advanced ck n) rs1 /\
  meshtastic_ble_peer_reasm_ingest rs
    (chunk_hdr (ck_seq ck) true (ck_off ck + n =? ck_len ck) ::
     first_prefix ck ++ take (Z.to_nat n) (drop (Z.to_nat (ck_off ck)) (ck_frame ck))) =
  reasm_finish (ck_off (advanced ck n) =? ck_len (advanced ck n)) rs1.
Proof.
  intros Hw Hs Hfirst Hr n. pose proof Hw as [Hk Hl Hf Hoff Hseq Hst]. specialize (Hst Hfirst).
  pose proof (chunk_take_range ck size Hw Hs ltac:(lia)) as Hn. fold n in Hn.
  pose proof (kind_cap_le (ck_kind ck)) as Hc. unfold room in Hr.
  change MESHTASTIC_BLE_PEER_REASM_MAX with 271 in Hc, Hr.
  change MESHTASTIC_BLE_PEER_KIND_MAX with 15 in Hk.
  unfold first_prefix. rewrite Hfirst, Hst, drop_0, !Z.add_0_l.
  set (body := take _ _). assert (Hbl : Zlen body = n) by (subst body; rewrite length_take; lia).
  destruct (chunk_hdr_bits (ck_seq ck) true (n =? ck_len ck) Hseq) as (B1 & B2 & B3).
  destruct (len_prefix_bits (ck_len ck) (ck_kind ck) body ltac:(lia) ltac:(lia)) as (P1 & P2).
  unfold meshtastic_ble_peer_reasm_ingest.
  change (byte_at (?h :: _) 0) with h. rewrite B1, B2, B3. change (drop 1 (_ :: ?l)) with l.
  set (c := len_prefix _ _ ++ body) in *.
  assert (Hcl : Zlen c = 2 + n) by (subst c; rewrite length_app; simpl; lia).
  cbn [length]. rewrite Nat2Z.inj_succ, Hcl. change MESHTASTIC_BLE_PEER_CHUNK_HDR_LEN with 1.
  replace (Z.succ (2 + n) <? 1 + 1) with false by (symmetry; apply Z.ltb_ge; lia).
  replace (Z.succ (2 + n) - 1 <? 2) with false by (symmetry; apply Z.ltb_ge; lia).
  rewrite P1, P2.
  replace (ck_len ck =? 0) with false by (symmetry; apply Z.eqb_neq; lia).
  replace (kind_cap (ck_kind ck) <? ck_len ck) with false by (symmetry; apply Z.ltb_ge; lia).
  replace (Z.succ (2 + n) - 1 - 2) with n by lia.
  replace (ck_len ck <? n) with false by (symmetry; apply Z.ltb_ge; lia).
  rewrite u16_small by lia.
  change (ck_off (advanced ck n)) with (ck_off ck + n).
  change (ck_len (advanced ck n)) with (ck_len ck). rewrite Hst, Z.add_0_l.
  eexists. split; [|reflexivity]. change (drop 2 c) with body.
  assert (Hrf : rs_frame (reasm_abort rs) = rs_frame rs) by (unfold reasm_abort; by destruct (rs_active rs)).
  rewrite Hrf. split.
  - constructor; simpl; try done; rewrite ?Hst; try lia.
    replace (0 + n) with (Zlen body) by lia. rewrite Nat2Z.id.
    pose proof (take_buf_write 0 body (rs_frame rs) ltac:(lia)) as E. cbn [Nat.add take app] in E.
    rewrite E. replace (length body) with (Z.to_nat n) by lia. done.
  - unfold room. simpl. rewrite length_buf_write by (cbn; lia). exact Hr.
Qed.

Lemma ingest_later ck rs size :
  ck_wf ck -> 4 <= size -> ck_first_sent ck = true -> ck_off ck < ck_len ck -> room rs ->
  fed ck rs ->
  let n := chunk_take ck size in
  exists rs1, stored (advanced ck n) rs1 /\
  meshtastic_ble_peer_reasm_ingest rs
    (chunk_hdr (ck_seq ck) false (ck_off ck + n =? ck_len ck) ::
     first_prefix ck ++ take (Z.to_nat n) (drop (Z.to_nat (ck_off ck)) (ck_frame ck))) =
  reasm_finish (ck_off (advanced ck n) =? ck_len (advanced ck n)) rs1.
Proof.
  intros Hw Hs Hfirst Ho Hr [Fa Fs Fk Fe Fg Fb] n. pose proof Hw as [Hk Hl Hf Hoff Hseq _].
  pose proof (chunk_take_range ck size Hw Hs Ho) as Hn. fold n in Hn.
  pose proof (kind_cap_le (ck_kind ck)) as Hc. unfold room in Hr.
  change MESHTASTIC_BLE_PEER_REASM_MAX with 271 in Hc, Hr.
  unfold first_prefix. rewrite Hfirst. cbn [app].
  set (body := take _ _).
  assert (Hbl : Zlen body = n) by (subst body; rewrite length_take, length_drop; lia).
  destruct (chunk_hdr_bits (ck_seq ck) false (ck_off ck + n =? ck_len ck) Hseq) as (B1 & B2 & B3).
  unfold meshtastic_ble_peer_reasm_ingest.
  change (byte_at (?h :: _) 0) with h. rewrite B1, B2, B3. change (drop 1 (_ :: ?l)) with l. cbn [length].
  rewrite Nat2Z.inj_succ, Hbl. change MESHTASTIC_BLE_PEER_CHUNK_HDR_LEN with 1.
  replace (Z.succ n <? 1 + 1) with false by (symmetry; apply Z.ltb_ge; lia).
  rewrite Fa, Fs, Fe, Fg, Z.eqb_refl. cbn [negb orb].
  replace (Z.succ n - 1) with n by lia.
  replace (ck_len ck - ck_off ck <? n) with false by (symmetry; apply Z.ltb_ge; lia).
  rewrite !u16_small by (rewrite ?u16_small; lia). eexists. split; [|reflexivity].
  assert (Hsp : Z.to_nat (ck_off ck + n) = (Z.to_nat (ck_off ck) + length body)%nat) by lia.
  split.
  - constructor; simpl; try done. rewrite Hsp, take_buf_write by lia.
    rewrite Fb, <- Hsp, Z2Nat.inj_add by lia. apply take_take_drop.
  - unfold room. simpl. rewrite length_buf_write by lia. exact Hr.
Qed.

(** One step of sender and receiver together. *)
Lemma channel_step ck rs size :
  ck_wf ck -> 4 <= size -> ck_off ck < ck_len ck -> room rs ->
  (ck_first_sent ck = true -> fed ck rs) ->
  let ck' := advanced ck (chunk_take ck size) in
  exists b c rs',
  meshtastic_ble_peer_chunker_next ck size = (ck', Val (b :: c)) /\ ck_wf ck' /\
  ck_off ck < ck_off ck' /\ room rs' /\
  if ck_off ck' =? ck_len ck'
  then frame_chunk_ingest rs (b :: c) = (rs', [(ck_frame ck, ck_kind ck)])
  else frame_chunk_ingest rs (b :: c) = (rs', []) /\ fed ck' rs'.
Proof.
  intros Hw Hs Ho Hr Hfed ck'.
  pose proof (chunk_take_range ck size Hw Hs Ho) as Hn.
  pose proof (advanced_wf ck size Hw Hs Ho) as Hw'. fold ck' in Hw'.
  assert (Hi : exists rs1, stored ck' rs1 /\
    meshtastic_ble_peer_reasm_ingest rs
      (chunk_hdr (ck_seq ck) (negb (ck_first_sent ck)) (ck_off ck + chunk_take ck size =? ck_len ck) ::
       first_prefix ck ++
       take (Z.to_nat (chunk_take ck size)) (drop (Z.to_nat (ck_off ck)) (ck_frame ck))) =
    reasm_finish (ck_off ck' =? ck_len ck') rs1).
  { destruct (ck_first_sent ck) eqn:E; [by apply ingest_later; auto | by apply ingest_first]. }
  destruct Hi as (rs1 & Hst & Hi). pose proof (finish_stored ck' rs1 Hst Hw') as Hfin.
  eexists _, _. rewrite chunker_next_eq by done. unfold frame_chunk_ingest. rewrite Hi.
  destruct (reasm_finish _ rs1) as [rs' r]. destruct Hfin as [Hr' Hfin]. exists rs'.
  split; [done|]. split; [done|]. split; [simpl; lia|]. split; [done|].
  destruct (ck_off ck' =? ck_len ck').
  - destruct Hfin as (-> & -> & ->). done.
  - destruct Hfin as (-> & Hfed'). done.
Qed.

Lemma send_chunks_delivers gatt size fuel :
  4 <= size -> forall k ck rs,
  ck_wf ck -> ck_off ck < ck_len ck -> room rs -> (ck_first_sent ck = true -> fed ck rs) ->
  ck_len ck - ck_off ck < Z.of_nat fuel ->
  exists r cs, send_chunks fuel gatt size k ck = Some (r, cs) /\
  exists rs', room rs' /\
  frame_ingest_all rs cs = (rs', if decide (r = OK) then [(ck_frame ck, ck_kind ck)] else []).
Proof.
  intros Hs. induction fuel as [|fuel IH]; intros k ck rs Hw Ho Hr Hfed Hfu; [lia|].
  destruct (channel_step ck rs size Hw Hs Ho Hr Hfed) as (b & c & rs1 & E & Hw1 & Ho1 & Hr1 & Hin).
  cbn [send_chunks]. rewrite E. destruct (gatt k) as [|e].
  2: { exists (ERR e), []. split; [done|]. exists rs. by rewrite decide_False. }
  set (ck1 := advanced ck _) in *.
  destruct (ck_off ck1 =? ck_len ck1) eqn:El.
  - assert (Hend : send_chunks fuel gatt size (S k) ck1 = Some (OK, [])).
    { destruct fuel as [|f]; [lia|]. cbn [send_chunks].
      unfold meshtastic_ble_peer_chunker_next.
      replace (size <? _) with false by (symmetry; apply Z.ltb_ge; done).
      change (ck_first_sent ck1) with true. rewrite El. done. }
    rewrite Hend. exists OK, [b :: c]. split; [done|]. exists rs1. split; [done|].
    cbn [frame_ingest_all]. rewrite Hin, decide_True by done. done.
  - destruct Hin as [Hin Hfed1]. bools. pose proof (cw_off _ Hw1).
    assert (ck_len ck1 = ck_len ck) by done.
    destruct (IH (S k) ck1 rs1 Hw1 ltac:(lia) Hr1 (fun _ => Hfed1) ltac:(lia))
      as (r & cs & -> & rs2 & Hr2 & Hin2).
    exists r, ((b :: c) :: cs). split; [done|]. exists rs2. split; [done|].
    cbn [frame_ingest_all]. by rewrite Hin, Hin2.
Qed.

Lemma frame_send_delivers gatt ready size frame kind rs :
  4 <= size -> 0 <= kind -> room rs ->
  exists r cs, frame_send gatt ready size frame kind = Some (r, cs) /\
  exists rs', room rs' /\
  frame_ingest_all rs cs = (rs', if decide (r = OK) then [(frame, kind)] else []).
Proof.
  intros Hs Hk Hr. unfold frame_send, meshtastic_ble_peer_chunker_start_kind.
  pose proof (kind_cap_le kind) as Hc. change MESHTASTIC_BLE_PEER_REASM_MAX with 271 in Hc.
  branches.
  - eexists _, _. split; [done|]. exists rs. by rewrite decide_False.
  - eexists _, _. split; [done|]. exists rs. by rewrite decide_False.
  - eexists _, _. split; [done|]. exists rs. by rewrite decide_False.
  - rewrite u16_small by lia.
    apply (send_chunks_delivers gatt size _ Hs 0 (Chunker frame (Zlen frame) 0 0 kind false) rs);
      simpl; try done; try lia.
    constructor; simpl; try done; lia.
Qed.

(** A send on the link: how the stack answers, whether the channel is up, the chunk
    size, the frame and its kind. *)
Record send := Send {
  sd_gatt : nat -> cret;
  sd_ready : bool;
  sd_size : Z;
  sd_frame : list Z;
  sd_kind : Z;
}.
Definition send_run (s : send) : option (cret * list (list Z)) :=
  frame_send (sd_gatt s) (sd_ready s) (sd_size s) (sd_frame s) (sd_kind s).

Lemma frame_ingest_all_app rs cs ds :
  frame_ingest_all rs (cs ++ ds) =
  let '(rs1, o1) := frame_ingest_all rs cs in
  let '(rs2, o2) := frame_ingest_all rs1 ds in (rs2, o1 ++ o2).
Proof.
  revert rs. induction cs as [|c cs IH]; intros rs; simpl; [by destruct (frame_ingest_all rs ds)|].
  destruct (frame_chunk_ingest rs c) as [rs1 o1]. rewrite IH.
  destruct (frame_ingest_all rs1 cs) as [rs2 o2]. destruct (frame_ingest_all rs2 ds) as [rs3 o3].
  by rewrite app_assoc.
Qed.

(** The frame channel refines a queue of whole frames: however sends of any kind,
    size and chunk size follow each other, and wherever the stack refuses a chunk and a
    frame is abandoned, every send loop ends, and the receiver, whatever partial it held
    before, hands up exactly the frames whose send reported success, in order, with
    their bytes and kind. *)
Theorem frame_channel_delivers (sends : list send) (rs : reasm) :
  room rs -> Forall (fun s => MESHTASTIC_BLE_PEER_CHUNK_MIN_BUF <= sd_size s /\ 0 <= sd_kind s) sends ->
  exists results, Forall2 (fun s r => send_run s = Some r) sends results /\
  (frame_ingest_all rs (concat (snd <$> results))).2 =
  concat (zip_with (fun s r => if decide (r.1 = OK) then [(sd_frame s, sd_kind s)] else [])
            sends results).
Proof.
  intros Hr Hs. revert rs Hr. induction Hs as [|s sends [Hsz Hk] _ IH]; intros rs Hr.
  { exists []. split; [constructor | done]. }
  destruct (frame_send_delivers (sd_gatt s) (sd_ready s) (sd_size s) (sd_frame s) (sd_kind s) rs Hsz Hk Hr)
    as (r & cs & E & rs1 & Hr1 & Ein).
  destruct (IH rs1 Hr1) as (results & Hf & Eout).
  exists ((r, cs) :: results). split; [by constructor|].
  cbn [fmap list_fmap concat snd zip_with fst]. rewrite frame_ingest_all_app, Ein.
  destruct (frame_ingest_all rs1 _) as [rs2 out]. simpl in *. by rewrite Eout.
Qed.

Lemma frame_channel_delivers_witness :
  let f := seqZ 0 45 in
  let refuse k := if (k =? 2)%nat then ERR ENOMEM else OK in
  let sends := [Send refuse true 20 f 1; Send (fun _ => OK) true 20 f 1;
                Send (fun _ => OK) true 244 [7] 0] in
  exists results, Forall2 (fun s r => send_run s = Some r) sends results /\
  (frame_ingest_all meshtastic_ble_peer_reasm_reset (concat (snd <$> results))).2 =
  concat (zip_with (fun s r => if decide (r.1 = OK) then [(sd_frame s, sd_kind s)] else [])
            sends results).
Proof.
  apply (frame_channel_delivers
    [Send (fun k => if (k =? 2)%nat then ERR ENOMEM else OK) true 20 (seqZ 0 45) 1;
     Send (fun _ => OK) true 20 (seqZ 0 45) 1; Send (fun _ => OK) true 244 [7] 0]).
  - by vm_compute.
  - repeat (apply Forall_cons_2; [by vm_compute|]). apply Forall_nil_2.
Defined.

Example frame_channel_sample :
  send_run (Send (fun _ => OK) true 20 (seqZ 0 45) 1) =
  Some (OK, [128 :: 45 :: 16 :: seqZ 0 17; 1 :: seqZ 17 19; 66 :: seqZ 36 9]).
Proof. by vm_compute. Qed.

(** ** Arbitrary input *)

(** What every accepted frame is: a first chunk that declares kind and length, then
    chunks with consecutive sequence numbers; chunks too short to carry anything are
    passed over. [run cs kind declared bytes next]: the chunks [cs] leave [bytes]. *)
Definition is_first (c : list Z) : bool := negb (Z.land (byte_at c 0) MESHTASTIC_BLE_PEER_CHUNK_FIRST =? 0).
Definition seq_of (c : list Z) : Z := Z.land (byte_at c 0) MESHTASTIC_BLE_PEER_CHUNK_SEQ_MASK.
Definition succ_seq (s : Z) : Z := Z.land (s + 1) MESHTASTIC_BLE_PEER_CHUNK_SEQ_MASK.

Inductive run : list (list Z) -> Z -> Z -> list Z -> Z -> Prop :=
  | run_first c :
      is_first c = true -> 3 <= Zlen c ->
      run [c] (Z.shiftr (byte_at c 2) 4)
        (Z.lor (byte_at c 1) (Z.shiftl (Z.land (byte_at c 2) 15) 8)) (drop 3 c) (succ_seq (seq_of c))
  | run_more cs k d bs s c :
      run cs k d bs s -> is_first c = false -> seq_of c = s -> 2 <= Zlen c ->
      run (cs ++ [c]) k d (bs ++ drop 1 c) (succ_seq s)
  | run_skip cs k d bs s c :
      run cs k d bs s -> Zlen c < 2 -> run (cs ++ [c]) k d bs s.

Definition held (rs : reasm) : list Z := take (Z.to_nat (rs_got rs)) (rs_frame rs).

(** The reassembler after the chunks [h]. *)
Record reasm_inv (h : list (list Z)) (rs : reasm) : Prop := ReasmInv {
  ri_room : room rs;
  ri_partial : rs_active rs = true ->
    0 <= rs_got rs < rs_expect rs /\ rs_expect rs <= kind_cap (rs_kind rs) /\
    exists pre cs, h = pre ++ cs /\ run cs (rs_kind rs) (rs_expect rs) (held rs) (rs_next_seq rs);
}.

(** The same while a chunk has been stored and LAST is still to be checked. *)
Definition reasm_full (h : list (list Z)) (rs : reasm) : Prop :=
  room rs /\ rs_active rs = true /\
  0 <= rs_got rs <= rs_expect rs /\ rs_expect rs <= kind_cap (rs_kind rs) /\
  exists pre cs, h = pre ++ cs /\ run cs (rs_kind rs) (rs_expect rs) (held rs) (rs_next_seq rs).

Definition delivered_run (h : list (list Z)) (rs : reasm) (n : Z) : Prop :=
  0 <= n <= kind_cap (rs_kind rs) /\
  exists pre cs s, h = pre ++ cs /\ run cs (rs_kind rs) n (take (Z.to_nat n) (rs_frame rs)) s /\
  Zlen (take (Z.to_nat n) (rs_frame rs)) = n.

Definition verdict_ok (h : list (list Z)) (p : reasm * res (option Z)) : Prop :=
  reasm_inv h p.1 /\ forall n, p.2 = Val (Some n) -> delivered_run h p.1 n.

Lemma abort_inactive rs : rs_active (reasm_abort rs) = false.
Proof. unfold reasm_abort. by destruct (rs_active rs) eqn:E. Qed.

Lemma abort_room rs : room rs -> room (reasm_abort rs).
Proof. unfold room, reasm_abort. by destruct (rs_active rs). Qed.

Lemma reject_dead h e rs : room rs -> rs_active rs = false -> verdict_ok h (reasm_reject e rs).
Proof. intros Hr Ha. split; [split; simpl; [done | congruence] | done]. Qed.

Lemma finish_ok h last rs : reasm_full h rs -> verdict_ok h (reasm_finish last rs).
Proof.
  intros (Hr & Ha & Hg & Hc & pre & cs & Hh & Hrun). unfold reasm_finish.
  pose proof (abort_room rs Hr). pose proof (abort_inactive rs).
  pose proof (kind_cap_le (rs_kind rs)) as Hm.
  destruct last; [destruct (rs_got rs =? rs_expect rs) eqn:E | destruct (rs_got rs =? rs_expect rs) eqn:E];
    simpl negb; cbn match; bools; try (by apply reject_dead).
  - split; [by split|]. simpl. intros n [= <-]. split; [simpl; lia|].
    exists pre, cs, (rs_next_seq rs). simpl. rewrite <- E in Hrun. unfold room in Hr. split; [done|].
    split; [exact Hrun|]. rewrite length_take. lia.
  - split; [|done]. split; [done|]. simpl. intros _. split; [lia|]. split; [done|]. by exists pre, cs.
Qed.

Lemma ingest_ok h rs c :
  bytes_ok c -> reasm_inv h rs -> verdict_ok (h ++ [c]) (meshtastic_ble_peer_reasm_ingest rs c).
Proof.
  intros Hb [Hr Hp]. unfold meshtastic_ble_peer_reasm_ingest.
  change MESHTASTIC_BLE_PEER_CHUNK_HDR_LEN with 1.
  pose proof (abort_room rs Hr). pose proof (abort_inactive rs).
  destruct (Zlen c <? 1 + 1) eqn:Es; bools.
  { (* too short: nothing but the counter changes *)
    split; [|done]. split; [done|]. simpl. intros Ha.
    destruct (Hp Ha) as (Hg & Hc & pre & cs & -> & Hrun). split; [done|]. split; [done|].
    exists pre, (cs ++ [c]). split; [by rewrite app_assoc|]. apply run_skip; [done | lia]. }
  fold (is_first c). fold (seq_of c). fold (succ_seq (seq_of c)).
  destruct (is_first c) eqn:Ef.
  - (* FIRST *)
    destruct (Zlen c - 1 <? 2) eqn:E2; bools; [by apply reject_dead|].
    rewrite !byte_at_drop. cbn [Nat.add].
    set (kind := Z.shiftr (byte_at c 2) 4). set (declared := Z.lor (byte_at c 1) _).
    destruct (declared =? 0) eqn:?; [by apply reject_dead|].
    destruct (kind_cap kind <? declared) eqn:?; [by apply reject_dead|].
    destruct (declared <? _) eqn:?; [by apply reject_dead|]. bools.
    pose proof (kind_cap_le kind) as Hm. unfold room in *.
    change MESHTASTIC_BLE_PEER_REASM_MAX with 271 in *.
    assert (Hbl : Zlen (drop 2 (drop 1 c)) = Zlen c - 1 - 2) by (rewrite !length_drop; lia).
    rewrite u16_small by lia. apply finish_ok.
    split; [unfold room; cbn [rs_frame]; rewrite length_buf_write by (cbn [Nat.add]; lia); done|].
    split; [done|]. cbn [rs_got rs_expect rs_kind rs_next_seq]. split; [lia|]. split; [done|].
    exists h, [c]. split; [done|]. unfold held. cbn [rs_got rs_frame]. rewrite <- Hbl, Nat2Z.id.
    pose proof (take_buf_write 0 (drop 2 (drop 1 c)) (rs_frame (reasm_abort rs)) ltac:(lia)) as E.
    cbn [Nat.add] in E. rewrite E, take_0, app_nil_l, drop_drop. apply run_first; [done | lia].
  - (* a later chunk *)
    destruct (rs_active rs) eqn:Ea; simpl negb; cbn match; [|by apply reject_dead].
    destruct (Hp eq_refl) as (Hg & Hc & pre & cs & -> & Hrun).
    pose proof (kind_cap_le (rs_kind rs)) as Hm.
    destruct (negb (seq_of c =? rs_next_seq rs) || _) eqn:Eo; [by apply reject_dead|].
    apply orb_false_iff in Eo as [Eseq Efit]. bools.
    unfold room in *. change MESHTASTIC_BLE_PEER_REASM_MAX with 271 in *.
    assert (Hbl : Zlen (drop 1 c) = Zlen c - 1) by (rewrite length_drop; lia).
    rewrite (u16_small (Zlen c - 1)), u16_small by lia. apply finish_ok.
    split; [unfold room; simpl; rewrite length_buf_write by lia; done|].
    split; [done|]. simpl. split; [lia|]. split; [done|].
    exists pre, (cs ++ [c]). split; [by rewrite app_assoc|]. unfold held. simpl.
    replace (Z.to_nat (rs_got rs + (Zlen c - 1))) with (Z.to_nat (rs_got rs) + length (drop 1 c))%nat by lia.
    rewrite take_buf_write by lia. rewrite Eseq. apply run_more; [done | done | done | lia].
Qed.

Fixpoint reasm_run (rs : reasm) (cs : list (list Z)) : reasm :=
  match cs with
  | [] => rs
  | c :: cs' => reasm_run (meshtastic_ble_peer_reasm_ingest rs c).1 cs'
  end.

Lemma reasm_run_inv h rs cs : Forall bytes_ok cs -> reasm_inv h rs -> reasm_inv (h ++ cs) (reasm_run rs cs).
Proof.
  intros Hc. revert h rs. induction Hc as [|c cs Hb _ IH]; intros h rs Hi; simpl.
  { by rewrite app_nil_r. }
  rewrite cons_middle, app_assoc. apply IH, ingest_ok; done.
Qed.

(** Against any sequence of chunks, well-formed or hostile, the reassembler writes
    only inside its buffer, and a frame it delivers is what an unbroken run of chunks
    spelled out: a first chunk declaring this kind and length, then chunks with
    consecutive sequence numbers whose bytes add up to exactly the declared length,
    which is within the kind's limit. *)
Theorem reasm_delivers_only_runs (cs : list (list Z)) (c : list Z) :
  Forall bytes_ok cs -> bytes_ok c ->
  let '(rs', r) := meshtastic_ble_peer_reasm_ingest (reasm_run meshtastic_ble_peer_reasm_reset cs) c in
  room rs' /\ forall n, r = Val (Some n) -> delivered_run (cs ++ [c]) rs' n.
Proof.
  intros Hcs Hc.
  assert (Hi : reasm_inv cs (reasm_run meshtastic_ble_peer_reasm_reset cs)).
  { apply (reasm_run_inv []); [done|]. split; [by vm_compute | done]. }
  destruct (ingest_ok cs _ c Hc Hi) as [[Hr _] Hd].
  by destruct (meshtastic_ble_peer_reasm_ingest _ c) as [rs' r].
Qed.

Lemma reasm_delivers_only_runs_witness :
  exists rs', meshtastic_ble_peer_reasm_ingest
    (reasm_run meshtastic_ble_peer_reasm_reset [[1; 9]; [128; 3; 0; 10]; []]) [65; 11; 12] =
    (rs', Val (Some 3)) /\
  delivered_run ([[1; 9]; [128; 3; 0; 10]; []] ++ [[65; 11; 12]]) rs' 3.
Proof.
  eexists. split; [vm_compute; reflexivity|].
  exact (proj2 (reasm_delivers_only_runs [[1; 9]; [128; 3; 0; 10]; []] [65; 11; 12]
    ltac:(repeat (apply Forall_cons_2; [unfold bytes_ok; repeat (apply Forall_cons_2; [by vm_compute|]);
            apply Forall_nil_2|]); apply Forall_nil_2)
    ltac:(unfold bytes_ok; repeat (apply Forall_cons_2; [by vm_compute|]); apply Forall_nil_2)) 3 eq_refl).
Defined.

(** A chunk without payload is refused but leaves the partial frame in flight. *)
Lemma empty_chunk_keeps_partial rs c :
  Zlen c < 2 ->
  meshtastic_ble_peer_reasm_ingest rs c = (set_rs_rejected (u32 (rs_rejected rs + 1)) rs, Fail EBADMSG).
Proof.
  intros Hc. unfold meshtastic_ble_peer_reasm_ingest.
  change MESHTASTIC_BLE_PEER_CHUNK_HDR_LEN with 1.
  replace (Zlen c <? 1 + 1) with true by (symmetry; apply Z.ltb_lt; lia). done.
Qed.
