(* ===== verification/BleRegistry.v ===== *)
(** * The BLE connection registry (src/src/meshtastic_ble_registry.c, .h)

    One slot per host connection: its kind, and whether the phone's light-sleep
    inhibitor was charged for it. The number of slots is CONFIG_BT_MAX_CONN. *)
From S2P Require Import Prelude.
Open Scope Z_scope.

Inductive conn_kind := CONN_NONE | CONN_UNCLASSIFIED | CONN_PHONE | CONN_PEER.
Inductive classify_reason := CLASSIFY_ROLE | CLASSIFY_HELLO | CLASSIFY_TRAFFIC | CLASSIFY_TIMER.

#[export] Instance conn_kind_eq_dec : EqDecision conn_kind.
Proof. solve_decision. Defined.
#[export] Instance classify_reason_eq_dec : EqDecision classify_reason.
Proof. solve_decision. Defined.

Record reg_slot := RegSlot {
  sl_kind : conn_kind;
  sl_phone_noted : bool;
}.
Definition set_sl_kind (v : conn_kind) (r : reg_slot) : reg_slot :=
RegSlot v (sl_phone_noted r).
Definition set_sl_phone_noted (v : bool) (r : reg_slot) : reg_slot :=
RegSlot (sl_kind r) v.

Record reg_stats := RegStats {
  phone_notes : Z;
  phone_unnotes : Z;
  classified_peer_by_role : Z;
  classified_peer_by_hello : Z;
  classified_phone_by_traffic : Z;
  classified_phone_default : Z;
  slot_index_out_of_range : Z;
}.
Definition set_phone_notes (v : Z) (r : reg_stats) : reg_stats :=
RegStats v (phone_unnotes r) (classified_peer_by_role r) (classified_peer_by_hello r)
    (classified_phone_by_traffic r) (classified_phone_default r) (slot_index_out_of_range
    r).
Definition set_phone_unnotes (v : Z) (r : reg_stats) : reg_stats :=
RegStats (phone_notes r) v (classified_peer_by_role r) (classified_peer_by_hello r)
    (classified_phone_by_traffic r) (classified_phone_default r) (slot_index_out_of_range
    r).
Definition set_classified_peer_by_role (v : Z) (r : reg_stats) : reg_stats :=
RegStats (phone_notes r) (phone_unnotes r) v (classified_peer_by_hello r)
    (classified_phone_by_traffic r) (classified_phone_default r) (slot_index_out_of_range
    r).
Definition set_classified_peer_by_hello (v : Z) (r : reg_stats) : reg_stats :=
RegStats (phone_notes r) (phone_unnotes r) (classified_peer_by_role r) v
    (classified_phone_by_traffic r) (classified_phone_default r) (slot_index_out_of_range
    r).
Definition set_classified_phone_by_traffic (v : Z) (r : reg_stats) : reg_stats :=
RegStats (phone_notes r) (phone_unnotes r) (classified_peer_by_role r)
    (classified_peer_by_hello r) v (classified_phone_default r) (slot_index_out_of_range r).
Definition set_classified_phone_default (v : Z) (r : reg_stats) : reg_stats :=
RegStats (phone_notes r) (phone_unnotes r) (classified_peer_by_role r)
    (classified_peer_by_hello r) (classified_phone_by_traffic r) v (slot_index_out_of_range
    r).
Definition set_slot_index_out_of_range (v : Z) (r : reg_stats) : reg_stats :=
RegStats (phone_notes r) (phone_unnotes r) (classified_peer_by_role r)
    (classified_peer_by_hello r) (classified_phone_by_traffic r) (classified_phone_default
    r) v.

Record registry := Registry {
  slots : list reg_slot;
  stats : reg_stats;
}.
Definition set_slots (v : list reg_slot) (r : registry) : registry :=
Registry v (stats r).
Definition set_stats (v : reg_stats) (r : registry) : registry :=
Registry (slots r) v.

Definition free_slot : reg_slot := RegSlot CONN_NONE false.

Definition meshtastic_ble_reg_reset (n : nat) : registry :=
  Registry (replicate n free_slot) (RegStats 0 0 0 0 0 0 0).

(** [stats.x++] *)
Definition inc (get : reg_stats -> Z) (set : Z -> reg_stats -> reg_stats) (g : registry) : registry :=
  set_stats (set (u32 (get (stats g) + 1)) (stats g)) g.
Definition inc_out_of_range := inc slot_index_out_of_range set_slot_index_out_of_range.

(** [slots[index] = s] *)
Definition put_slot (index : nat) (s : reg_slot) (g : registry) : registry :=
  set_slots (<[index := s]> (slots g)) g.

Definition meshtastic_ble_reg_connect (index : nat) (initial : conn_kind) (g : registry)
    : registry * cret :=
  match slots g !! index with
  | None => (inc_out_of_range g, ERR EINVAL)
  | Some s =>
      if negb (bool_decide (initial = CONN_PEER)) && negb (bool_decide (initial = CONN_UNCLASSIFIED))
      then (g, ERR EINVAL)
      else if negb (bool_decide (sl_kind s = CONN_NONE)) then (g, ERR EALREADY)
      else
        let g1 := put_slot index (RegSlot initial false) g in
        (if bool_decide (initial = CONN_PEER)
         then inc classified_peer_by_role set_classified_peer_by_role g1 else g1, OK)
  end.

Definition meshtastic_ble_reg_classify (index : nat) (kind : conn_kind) (reason : classify_reason)
    (g : registry) : registry * cret :=
  match slots g !! index with
  | None => (inc_out_of_range g, ERR EINVAL)
  | Some s =>
      if negb (bool_decide (kind = CONN_PHONE)) && negb (bool_decide (kind = CONN_PEER))
      then (g, ERR EINVAL)
      else if bool_decide (sl_kind s = CONN_NONE) then (g, ERR EINVAL)
      else if negb (bool_decide (sl_kind s = CONN_UNCLASSIFIED)) then (g, ERR EALREADY)
      else if bool_decide (kind = CONN_PHONE) then
        let g1 := inc phone_notes set_phone_notes (put_slot index (RegSlot kind true) g) in
        (if bool_decide (reason = CLASSIFY_TIMER)
         then inc classified_phone_default set_classified_phone_default g1
         else inc classified_phone_by_traffic set_classified_phone_by_traffic g1, OK)
      else
        (inc classified_peer_by_hello set_classified_peer_by_hello
           (put_slot index (set_sl_kind kind s) g), OK)
  end.

Definition meshtastic_ble_reg_disconnect (index : nat) (g : registry) : registry * bool :=
  match slots g !! index with
  | None => (inc_out_of_range g, false)
  | Some s =>
      if bool_decide (sl_kind s = CONN_NONE) then (g, false)
      else
        let g1 := put_slot index free_slot g in
        (if sl_phone_noted s then inc phone_unnotes set_phone_unnotes g1 else g1, sl_phone_noted s)
  end.

Definition meshtastic_ble_reg_kind (index : nat) (g : registry) : conn_kind :=
  match slots g !! index with
  | None => CONN_NONE
  | Some s => sl_kind s
  end.

Definition meshtastic_ble_reg_phone_noted (index : nat) (g : registry) : bool :=
  match slots g !! index with
  | None => false
  | Some s => sl_phone_noted s
  end.

Definition count_slots (p : reg_slot -> bool) (l : list reg_slot) : Z :=
  sum_with (fun s => if p s then 1 else 0) l.

Definition meshtastic_ble_reg_active (g : registry) : Z :=
  count_slots (fun s => negb (bool_decide (sl_kind s = CONN_NONE))) (slots g).

Definition meshtastic_ble_reg_unclassified (g : registry) : Z :=
  count_slots (fun s => bool_decide (sl_kind s = CONN_UNCLASSIFIED)) (slots g).

(** [meshtastic_ble_classify_peer_evidence] of meshtastic_ble.c: [Val 0] on the
    transition, [Val 1] when the link is a peer already. *)
Definition meshtastic_ble_classify_peer_evidence (index : nat) (g : registry) : registry * res Z :=
  match meshtastic_ble_reg_kind index g with
  | CONN_PEER => (g, Val 1)
  | CONN_PHONE => (g, Fail EBUSY)
  | CONN_UNCLASSIFIED =>
      match meshtastic_ble_reg_classify index CONN_PEER CLASSIFY_HELLO g with
      | (g', OK) => (g', Val 0)
      | (g', ERR e) => (g', Fail e)
      end
  | CONN_NONE => (g, Fail EINVAL)
  end.

(** ** The ledger *)

(** What callers do, and the charge they owe the light-sleep inhibitor after it: one
    when a slot turned phone, minus one when a noted slot was released. *)
Inductive reg_op :=
  | Connect (index : nat) (initial : conn_kind)
  | Classify (index : nat) (kind : conn_kind) (reason : classify_reason)
  | Disconnect (index : nat).

Definition reg_do (o : reg_op) (g : registry) : registry * Z :=
  match o with
  | Connect i k => ((meshtastic_ble_reg_connect i k g).1, 0)
  | Classify i k r =>
      let '(g', ret) := meshtastic_ble_reg_classify i k r g in
      (g', if bool_decide (ret = OK) && bool_decide (k = CONN_PHONE) then 1 else 0)
  | Disconnect i => let '(g', b) := meshtastic_ble_reg_disconnect i g in (g', if b then -1 else 0)
  end.

(** The registry and the inhibitor's count after a sequence of calls. *)
Fixpoint reg_run (os : list reg_op) (g : registry) (pm : Z) : registry * Z :=
  match os with
  | [] => (g, pm)
  | o :: os' => let '(g', d) := reg_do o g in reg_run os' g' (pm + d)
  end.

Definition slot_wf (s : reg_slot) : Prop := sl_phone_noted s = bool_decide (sl_kind s = CONN_PHONE).
Definition phones (g : registry) : Z := count_slots (fun s => bool_decide (sl_kind s = CONN_PHONE)) (slots g).

Record reg_inv (n : nat) (g : registry) (pm : Z) : Prop := RegInv {
  rg_len : length (slots g) = n;
  rg_slots : Forall slot_wf (slots g);
  rg_pm : pm = phones g;
  rg_ledger : u32 (phone_notes (stats g) - phone_unnotes (stats g)) = u32 pm;
}.

Lemma phones_put g i s s' :
  slots g !! i = Some s ->
  phones (put_slot i s' g) =
  phones g - (if bool_decide (sl_kind s = CONN_PHONE) then 1 else 0) +
             (if bool_decide (sl_kind s' = CONN_PHONE) then 1 else 0).
Proof. intros Hs. unfold phones, count_slots. simpl. by rewrite (sum_with_insert _ _ _ _ _ Hs). Qed.

Lemma u32_idemp_l a b : u32 (u32 a - b) = u32 (a - b).
Proof. unfold wrap. apply Zminus_mod_idemp_l. Qed.
Lemma u32_idemp_r a b : u32 (a - u32 b) = u32 (a - b).
Proof. unfold wrap. apply Zminus_mod_idemp_r. Qed.
Lemma u32_cong a b c : u32 a = u32 b -> u32 (a + c) = u32 (b + c).
Proof. unfold wrap. intros E. by rewrite <- Zplus_mod_idemp_l, E, Zplus_mod_idemp_l. Qed.

(** A slot is overwritten and the counters move by what the slot's phones move. *)
Lemma reg_inv_put n g g' pm i s s' d :
  reg_inv n g pm -> slots g !! i = Some s -> slot_wf s' ->
  slots g' = <[i := s']> (slots g) ->
  d = (if bool_decide (sl_kind s' = CONN_PHONE) then 1 else 0) -
      (if bool_decide (sl_kind s = CONN_PHONE) then 1 else 0) ->
  u32 (phone_notes (stats g') - phone_unnotes (stats g')) =
    u32 (phone_notes (stats g) - phone_unnotes (stats g) + d) ->
  reg_inv n g' (pm + d).
Proof.
  intros [Hl Hw Hp Hu] Hs Hs' Eg Ed Eu. split.
  - by rewrite Eg, length_insert.
  - rewrite Eg. by apply Forall_insert.
  - pose proof (phones_put g i s s' Hs) as E. unfold phones in *. simpl in E. rewrite Eg, E. lia.
  - rewrite Eu. by apply u32_cong.
Qed.

Lemma reg_inv_same n g g' pm :
  reg_inv n g pm -> slots g' = slots g -> phone_notes (stats g') = phone_notes (stats g) ->
  phone_unnotes (stats g') = phone_unnotes (stats g) -> reg_inv n g' (pm + 0).
Proof.
  intros [Hl Hw Hp Hu] Es En Eu. rewrite Z.add_0_r. unfold phones in *.
  by split; unfold phones; rewrite ?Es, ?En, ?Eu.
Qed.

Ltac reg_put Hi Es :=
  eapply reg_inv_put; [exact Hi | exact Es | | reflexivity | | ]; simpl;
  [by vm_compute | by vm_compute | rewrite ?u32_idemp_l, ?u32_idemp_r; f_equal; lia].

Lemma reg_do_inv n o g pm : reg_inv n g pm -> let '(g', d) := reg_do o g in reg_inv n g' (pm + d).
Proof.
  intros Hi. destruct o as [i k|i k r|i]; cbn [reg_do];
    [unfold meshtastic_ble_reg_connect | unfold meshtastic_ble_reg_classify
    | unfold meshtastic_ble_reg_disconnect];
    (destruct (slots g !! i) as [[k0 nt]|] eqn:Es; [|by apply (reg_inv_same n g)]);
    pose proof (Forall_lookup_1 _ _ _ _ (rg_slots _ _ _ Hi) Es) as Hs; unfold slot_wf in Hs;
    destruct k0; simpl in Hs; subst nt.
  all: try (destruct k); try (by apply (reg_inv_same n g)); try (destruct r); try (reg_put Hi Es).
Qed.

Lemma reg_run_inv n os g pm :
  reg_inv n g pm -> reg_inv n (reg_run os g pm).1 (reg_run os g pm).2.
Proof.
  revert g pm. induction os as [|o os IH]; intros g pm Hi; cbn [reg_run]; [done|].
  pose proof (reg_do_inv n o g pm Hi) as H. destruct (reg_do o g) as [g' d]. by apply IH.
Qed.

(** For any interleaving of connects, classifications and disconnects, bad indices
    and repeated calls included, the inhibitor's count is the number of connections
    classified as phones, so it is never negative and is zero on an idle registry; a
    slot's note is set exactly while it is a phone; and the two ledger counters differ
    by the count. *)
Theorem ble_ledger_balanced (n : nat) (os : list reg_op) :
  let '(g, pm) := reg_run os (meshtastic_ble_reg_reset n) 0 in
  0 <= pm <= meshtastic_ble_reg_active g /\
  (meshtastic_ble_reg_active g = 0 -> pm = 0) /\
  u32 (phone_notes (stats g) - phone_unnotes (stats g)) = u32 pm /\
  (forall i, meshtastic_ble_reg_phone_noted i g = true <-> meshtastic_ble_reg_kind i g = CONN_PHONE).
Proof.
  assert (H0 : reg_inv n (meshtastic_ble_reg_reset n) 0).
  { split; simpl; [apply length_replicate | by apply Forall_replicate | | done].
    unfold phones, count_slots. simpl. clear. by induction n. }
  pose proof (reg_run_inv n os _ _ H0) as [Hl Hw Hp Hu].
  destruct (reg_run os _ _) as [g pm]. simpl in *.
  assert (Hle : 0 <= pm <= meshtastic_ble_reg_active g).
  { rewrite Hp. unfold phones, meshtastic_ble_reg_active, count_slots. clear.
    induction (slots g) as [|[k nt] l IH]; simpl; [lia|]. destruct k; simpl; lia. }
  split; [done|]. split; [lia|]. split; [done|].
  intros i. unfold meshtastic_ble_reg_phone_noted, meshtastic_ble_reg_kind.
  destruct (slots g !! i) as [s|] eqn:Es; [|done].
  pose proof (Forall_lookup_1 _ _ _ _ Hw Es) as Hs. unfold slot_wf in Hs. rewrite Hs.
  apply bool_decide_eq_true.
Qed.
