(* ===== verification/PeerLink.v ===== *)
(** * The BLE peer link (src/src/meshtastic_ble_peer.c)

    The module that hunts for, dials and keeps the links between two nodes: the
    peripheral half (beats and frames written to this node), the central half (scan,
    dial, discovery, subscribe, watchdog), the beat engine and the frame routing. Each
    region under [peer_lock] is one function; a callback that leaves the lock in between
    is split there. Calls into the Bluetooth stack return what the arguments say; a
    connection object is its index. The three delayable work items are fields that say
    whether they are pending. *)
From S2P Require Import Prelude Backoff PeerCodec BleRegistry.
Open Scope Z_scope.

Definition MESHTASTIC_BLE_PEER_FLAG_HOLD : Z := 2.
Definition MESHTASTIC_BLE_PEER_FLAG_TESTBOOT : Z := 4.
Definition MESHTASTIC_BLE_PEER_FLAG_COURIER : Z := 8.
Definition MESHTASTIC_BLE_PEER_FLAG_ATTACH : Z := 16.
Definition MESHTASTIC_NODE_BROADCAST : Z := 4294967295.
Definition MESHTASTIC_HDR_LEN : Z := 16.

(** Configuration, and what the running image is. *)
Record peer_env := PeerEnv {
  pe_node_id : Z;             (* mt.node_id *)
  pe_sticky_ms : Z;           (* CONFIG_MESHTASTIC_BLE_PEER_STICKY_MS *)
  pe_bringup_timeout_ms : Z;  (* CONFIG_MESHTASTIC_BLE_PEER_BRINGUP_TIMEOUT_MS *)
  pe_tx_mtu : Z;              (* CONFIG_BT_L2CAP_TX_MTU *)
  pe_fleet_class : Z;         (* CONFIG_MESHTASTIC_FLEET_CLASS *)
  pe_smp_central : bool;      (* CONFIG_MESHTASTIC_SMP_CENTRAL *)
  pe_attachment_brain : bool; (* CONFIG_MESHTASTIC_ATTACHMENT_BRAIN *)
  pe_unconfirmed : bool;      (* MCUboot image manager built in, image not confirmed *)
  pe_fw : Z * Z * Z;          (* image version, zeros when unknown *)
  pe_service_uuid : list Z;   (* meshtastic_ble_service_uuid128() *)
}.

Inductive peer_counter :=
  | ADVERTS_MATCHED | REFLECTIONS | STICKY_DEFERRED | CONNECTS_ATTEMPTED | CONNECTS_FAILED
  | DISCOVERY_FAILURES | NOTIFY_TX_BEATS | WRITE_TX_BEATS | HELLO_MALFORMED
  | HELLO_REJECTED_LATE | FRAME_RX_FRAMES | FRAME_RX_REJECTED | FRAME_TX_FRAMES
  | FRAME_TX_FAILED | SCAN_START_FAILURES | ALREADY_LINKED | BRINGUP_TIMEOUTS.
#[export] Instance peer_counter_eq_dec : EqDecision peer_counter.
Proof. solve_decision. Defined.
Definition peer_stats := peer_counter -> Z.

(** ** State *)
Record seen := Seen {
  sn_node_num : Z;
  sn_rssi : Z;
  sn_last_ms : Z;
}.
Definition set_sn_node_num (v : Z) (r : seen) : seen :=
Seen v (sn_rssi r) (sn_last_ms r).
Definition set_sn_rssi (v : Z) (r : seen) : seen :=
Seen (sn_node_num r) v (sn_last_ms r).
Definition set_sn_last_ms (v : Z) (r : seen) : seen :=
Seen (sn_node_num r) (sn_rssi r) v.

Record peer := Peer {
  p_notify_enabled : bool;
  p_hello_pending : bool;
  p_tx_seq : Z;
  p_hold : bool;
  p_rx : list rx;
  p_rx_last_ms : list Z;
  p_frame_notify_enabled : bool;
  p_frame_rx : list reasm;
  p_frame_cb : bool;
  p_stats : peer_stats;
}.
Definition set_p_notify_enabled (v : bool) (r : peer) : peer :=
Peer v (p_hello_pending r) (p_tx_seq r) (p_hold r) (p_rx r) (p_rx_last_ms r)
    (p_frame_notify_enabled r) (p_frame_rx r) (p_frame_cb r) (p_stats r).
Definition set_p_hello_pending (v : bool) (r : peer) : peer :=
Peer (p_notify_enabled r) v (p_tx_seq r) (p_hold r) (p_rx r) (p_rx_last_ms r)
    (p_frame_notify_enabled r) (p_frame_rx r) (p_frame_cb r) (p_stats r).
Definition set_p_tx_seq (v : Z) (r : peer) : peer :=
Peer (p_notify_enabled r) (p_hello_pending r) v (p_hold r) (p_rx r) (p_rx_last_ms r)
    (p_frame_notify_enabled r) (p_frame_rx r) (p_frame_cb r) (p_stats r).
Definition set_p_hold (v : bool) (r : peer) : peer :=
Peer (p_notify_enabled r) (p_hello_pending r) (p_tx_seq r) v (p_rx r) (p_rx_last_ms r)
    (p_frame_notify_enabled r) (p_frame_rx r) (p_frame_cb r) (p_stats r).
Definition set_p_rx (v : list rx) (r : peer) : peer :=
Peer (p_notify_enabled r) (p_hello_pending r) (p_tx_seq r) (p_hold r) v (p_rx_last_ms r)
    (p_frame_notify_enabled r) (p_frame_rx r) (p_frame_cb r) (p_stats r).
Definition set_p_rx_last_ms (v : list Z) (r : peer) : peer :=
Peer (p_notify_enabled r) (p_hello_pending r) (p_tx_seq r) (p_hold r) (p_rx r) v
    (p_frame_notify_enabled r) (p_frame_rx r) (p_frame_cb r) (p_stats r).
Definition set_p_frame_notify_enabled (v : bool) (r : peer) : peer :=
Peer (p_notify_enabled r) (p_hello_pending r) (p_tx_seq r) (p_hold r) (p_rx r) (p_rx_last_ms
    r) v (p_frame_rx r) (p_frame_cb r) (p_stats r).
Definition set_p_frame_rx (v : list reasm) (r : peer) : peer :=
Peer (p_notify_enabled r) (p_hello_pending r) (p_tx_seq r) (p_hold r) (p_rx r) (p_rx_last_ms
    r) (p_frame_notify_enabled r) v (p_frame_cb r) (p_stats r).
Definition set_p_frame_cb (v : bool) (r : peer) : peer :=
Peer (p_notify_enabled r) (p_hello_pending r) (p_tx_seq r) (p_hold r) (p_rx r) (p_rx_last_ms
    r) (p_frame_notify_enabled r) (p_frame_rx r) v (p_stats r).
Definition set_p_stats (v : peer_stats) (r : peer) : peer :=
Peer (p_notify_enabled r) (p_hello_pending r) (p_tx_seq r) (p_hold r) (p_rx r) (p_rx_last_ms
    r) (p_frame_notify_enabled r) (p_frame_rx r) (p_frame_cb r) v.

Record central := Central {
  c_scan_on : bool;
  c_scanning : bool;
  c_target_node : Z;
  c_last_node : Z;
  c_looking_since_ms : Z;
  c_conn : option nat;
  c_conn_node : Z;
  c_link_ready : bool;
  c_value_handle : Z;
  c_frame_ready : bool;
  c_frame_value_handle : Z;
  c_tx_seq : Z;
  c_hello_pending : bool;
  c_bringup_started_ms : Z;
  c_scan_backoff : backoff;
  c_connect_backoff : backoff;
  c_last_scan_err : cret;
  c_seen : list seen;
}.
Definition set_c_scan_on (v : bool) (r : central) : central :=
Central v (c_scanning r) (c_target_node r) (c_last_node r) (c_looking_since_ms r) (c_conn r)
    (c_conn_node r) (c_link_ready r) (c_value_handle r) (c_frame_ready r)
    (c_frame_value_handle r) (c_tx_seq r) (c_hello_pending r) (c_bringup_started_ms r)
    (c_scan_backoff r) (c_connect_backoff r) (c_last_scan_err r) (c_seen r).
Definition set_c_scanning (v : bool) (r : central) : central :=
Central (c_scan_on r) v (c_target_node r) (c_last_node r) (c_looking_since_ms r) (c_conn r)
    (c_conn_node r) (c_link_ready r) (c_value_handle r) (c_frame_ready r)
    (c_frame_value_handle r) (c_tx_seq r) (c_hello_pending r) (c_bringup_started_ms r)
    (c_scan_backoff r) (c_connect_backoff r) (c_last_scan_err r) (c_seen r).
Definition set_c_target_node (v : Z) (r : central) : central :=
Central (c_scan_on r) (c_scanning r) v (c_last_node r) (c_looking_since_ms r) (c_conn r)
    (c_conn_node r) (c_link_ready r) (c_value_handle r) (c_frame_ready r)
    (c_frame_value_handle r) (c_tx_seq r) (c_hello_pending r) (c_bringup_started_ms r)
    (c_scan_backoff r) (c_connect_backoff r) (c_last_scan_err r) (c_seen r).
Definition set_c_last_node (v : Z) (r : central) : central :=
Central (c_scan_on r) (c_scanning r) (c_target_node r) v (c_looking_since_ms r) (c_conn r)
    (c_conn_node r) (c_link_ready r) (c_value_handle r) (c_frame_ready r)
    (c_frame_value_handle r) (c_tx_seq r) (c_hello_pending r) (c_bringup_started_ms r)
    (c_scan_backoff r) (c_connect_backoff r) (c_last_scan_err r) (c_seen r).
Definition set_c_looking_since_ms (v : Z) (r : central) : central :=
Central (c_scan_on r) (c_scanning r) (c_target_node r) (c_last_node r) v (c_conn r)
    (c_conn_node r) (c_link_ready r) (c_value_handle r) (c_frame_ready r)
    (c_frame_value_handle r) (c_tx_seq r) (c_hello_pending r) (c_bringup_started_ms r)
    (c_scan_backoff r) (c_connect_backoff r) (c_last_scan_err r) (c_seen r).
Definition set_c_conn (v : option nat) (r : central) : central :=
Central (c_scan_on r) (c_scanning r) (c_target_node r) (c_last_node r) (c_looking_since_ms
    r) v (c_conn_node r) (c_link_ready r) (c_value_handle r) (c_frame_ready r)
    (c_frame_value_handle r) (c_tx_seq r) (c_hello_pending r) (c_bringup_started_ms r)
    (c_scan_backoff r) (c_connect_backoff r) (c_last_scan_err r) (c_seen r).
Definition set_c_conn_node (v : Z) (r : central) : central :=
Central (c_scan_on r) (c_scanning r) (c_target_node r) (c_last_node r) (c_looking_since_ms
    r) (c_conn r) v (c_link_ready r) (c_value_handle r) (c_frame_ready r)
    (c_frame_value_handle r) (c_tx_seq r) (c_hello_pending r) (c_bringup_started_ms r)
    (c_scan_backoff r) (c_connect_backoff r) (c_last_scan_err r) (c_seen r).
Definition set_c_link_ready (v : bool) (r : central) : central :=
Central (c_scan_on r) (c_scanning r) (c_target_node r) (c_last_node r) (c_looking_since_ms
    r) (c_conn r) (c_conn_node r) v (c_value_handle r) (c_frame_ready r)
    (c_frame_value_handle r) (c_tx_seq r) (c_hello_pending r) (c_bringup_started_ms r)
    (c_scan_backoff r) (c_connect_backoff r) (c_last_scan_err r) (c_seen r).
Definition set_c_value_handle (v : Z) (r : central) : central :=
Central (c_scan_on r) (c_scanning r) (c_target_node r) (c_last_node r) (c_looking_since_ms
    r) (c_conn r) (c_conn_node r) (c_link_ready r) v (c_frame_ready r) (c_frame_value_handle
    r) (c_tx_seq r) (c_hello_pending r) (c_bringup_started_ms r) (c_scan_backoff r)
    (c_connect_backoff r) (c_last_scan_err r) (c_seen r).
Definition set_c_frame_ready (v : bool) (r : central) : central :=
Central (c_scan_on r) (c_scanning r) (c_target_node r) (c_last_node r) (c_looking_since_ms
    r) (c_conn r) (c_conn_node r) (c_link_ready r) (c_value_handle r) v
    (c_frame_value_handle r) (c_tx_seq r) (c_hello_pending r) (c_bringup_started_ms r)
    (c_scan_backoff r) (c_connect_backoff r) (c_last_scan_err r) (c_seen r).
Definition set_c_frame_value_handle (v : Z) (r : central) : central :=
Central (c_scan_on r) (c_scanning r) (c_target_node r) (c_last_node r) (c_looking_since_ms
    r) (c_conn r) (c_conn_node r) (c_link_ready r) (c_value_handle r) (c_frame_ready r) v
    (c_tx_seq r) (c_hello_pending r) (c_bringup_started_ms r) (c_scan_backoff r)
    (c_connect_backoff r) (c_last_scan_err r) (c_seen r).
Definition set_c_tx_seq (v : Z) (r : central) : central :=
Central (c_scan_on r) (c_scanning r) (c_target_node r) (c_last_node r) (c_looking_since_ms
    r) (c_conn r) (c_conn_node r) (c_link_ready r) (c_value_handle r) (c_frame_ready r)
    (c_frame_value_handle r) v (c_hello_pending r) (c_bringup_started_ms r) (c_scan_backoff
    r) (c_connect_backoff r) (c_last_scan_err r) (c_seen r).
Definition set_c_hello_pending (v : bool) (r : central) : central :=
Central (c_scan_on r) (c_scanning r) (c_target_node r) (c_last_node r) (c_looking_since_ms
    r) (c_conn r) (c_conn_node r) (c_link_ready r) (c_value_handle r) (c_frame_ready r)
    (c_frame_value_handle r) (c_tx_seq r) v (c_bringup_started_ms r) (c_scan_backoff r)
    (c_connect_backoff r) (c_last_scan_err r) (c_seen r).
Definition set_c_bringup_started_ms (v : Z) (r : central) : central :=
Central (c_scan_on r) (c_scanning r) (c_target_node r) (c_last_node r) (c_looking_since_ms
    r) (c_conn r) (c_conn_node r) (c_link_ready r) (c_value_handle r) (c_frame_ready r)
    (c_frame_value_handle r) (c_tx_seq r) (c_hello_pending r) v (c_scan_backoff r)
    (c_connect_backoff r) (c_last_scan_err r) (c_seen r).
Definition set_c_scan_backoff (v : backoff) (r : central) : central :=
Central (c_scan_on r) (c_scanning r) (c_target_node r) (c_last_node r) (c_looking_since_ms
    r) (c_conn r) (c_conn_node r) (c_link_ready r) (c_value_handle r) (c_frame_ready r)
    (c_frame_value_handle r) (c_tx_seq r) (c_hello_pending r) (c_bringup_started_ms r) v
    (c_connect_backoff r) (c_last_scan_err r) (c_seen r).
Definition set_c_connect_backoff (v : backoff) (r : central) : central :=
Central (c_scan_on r) (c_scanning r) (c_target_node r) (c_last_node r) (c_looking_since_ms
    r) (c_conn r) (c_conn_node r) (c_link_ready r) (c_value_handle r) (c_frame_ready r)
    (c_frame_value_handle r) (c_tx_seq r) (c_hello_pending r) (c_bringup_started_ms r)
    (c_scan_backoff r) v (c_last_scan_err r) (c_seen r).
Definition set_c_last_scan_err (v : cret) (r : central) : central :=
Central (c_scan_on r) (c_scanning r) (c_target_node r) (c_last_node r) (c_looking_since_ms
    r) (c_conn r) (c_conn_node r) (c_link_ready r) (c_value_handle r) (c_frame_ready r)
    (c_frame_value_handle r) (c_tx_seq r) (c_hello_pending r) (c_bringup_started_ms r)
    (c_scan_backoff r) (c_connect_backoff r) v (c_seen r).
Definition set_c_seen (v : list seen) (r : central) : central :=
Central (c_scan_on r) (c_scanning r) (c_target_node r) (c_last_node r) (c_looking_since_ms
    r) (c_conn r) (c_conn_node r) (c_link_ready r) (c_value_handle r) (c_frame_ready r)
    (c_frame_value_handle r) (c_tx_seq r) (c_hello_pending r) (c_bringup_started_ms r)
    (c_scan_backoff r) (c_connect_backoff r) (c_last_scan_err r) v.

(** The module: both halves, the pending work items (the scan restarter with its
    delay), the discovery parameters and the connection registry. *)
Record link := Link {
  lk_peer : peer;
  lk_central : central;
  lk_scan_work : option Z;
  lk_bringup_work : bool;
  lk_beat_work : bool;
  lk_disc_frame : bool;
  lk_sub_handle : Z;
  lk_frame_sub_handle : Z;
  lk_reg : registry;
}.
Definition set_lk_peer (v : peer) (r : link) : link :=
Link v (lk_central r) (lk_scan_work r) (lk_bringup_work r) (lk_beat_work r) (lk_disc_frame
    r) (lk_sub_handle r) (lk_frame_sub_handle r) (lk_reg r).
Definition set_lk_central (v : central) (r : link) : link :=
Link (lk_peer r) v (lk_scan_work r) (lk_bringup_work r) (lk_beat_work r) (lk_disc_frame r)
    (lk_sub_handle r) (lk_frame_sub_handle r) (lk_reg r).
Definition set_lk_scan_work (v : option Z) (r : link) : link :=
Link (lk_peer r) (lk_central r) v (lk_bringup_work r) (lk_beat_work r) (lk_disc_frame r)
    (lk_sub_handle r) (lk_frame_sub_handle r) (lk_reg r).
Definition set_lk_bringup_work (v : bool) (r : link) : link :=
Link (lk_peer r) (lk_central r) (lk_scan_work r) v (lk_beat_work r) (lk_disc_frame r)
    (lk_sub_handle r) (lk_frame_sub_handle r) (lk_reg r).
Definition set_lk_beat_work (v : bool) (r : link) : link :=
Link (lk_peer r) (lk_central r) (lk_scan_work r) (lk_bringup_work r) v (lk_disc_frame r)
    (lk_sub_handle r) (lk_frame_sub_handle r) (lk_reg r).
Definition set_lk_disc_frame (v : bool) (r : link) : link :=
Link (lk_peer r) (lk_central r) (lk_scan_work r) (lk_bringup_work r) (lk_beat_work r) v
    (lk_sub_handle r) (lk_frame_sub_handle r) (lk_reg r).
Definition set_lk_sub_handle (v : Z) (r : link) : link :=
Link (lk_peer r) (lk_central r) (lk_scan_work r) (lk_bringup_work r) (lk_beat_work r)
    (lk_disc_frame r) v (lk_frame_sub_handle r) (lk_reg r).
Definition set_lk_frame_sub_handle (v : Z) (r : link) : link :=
Link (lk_peer r) (lk_central r) (lk_scan_work r) (lk_bringup_work r) (lk_beat_work r)
    (lk_disc_frame r) (lk_sub_handle r) v (lk_reg r).
Definition set_lk_reg (v : registry) (r : link) : link :=
Link (lk_peer r) (lk_central r) (lk_scan_work r) (lk_bringup_work r) (lk_beat_work r)
    (lk_disc_frame r) (lk_sub_handle r) (lk_frame_sub_handle r) v.

Definition upd_peer (f : peer -> peer) (l : link) : link := set_lk_peer (f (lk_peer l)) l.
Definition upd_central (f : central -> central) (l : link) : link := set_lk_central (f (lk_central l)) l.
Definition count (c : peer_counter) (l : link) : link :=
  upd_peer (fun p => set_p_stats
    (fun c' => if decide (c' = c) then u32 (p_stats p c' + 1) else p_stats p c') p) l.

(** What the module asks of its surroundings. *)
Inductive call :=
  | CallScanStop                      (* bt_le_scan_stop *)
  | CallDisconnect (conn : nat)       (* bt_conn_disconnect *)
  | CallDiscoverPrimary
  | CallDiscover (frame : bool) (descriptor : bool) (start : Z)
  | CallSubscribe (frame : bool) (value_handle ccc_handle : Z)
  | CallSaveIntent (rec : list Z)     (* settings_save_one *)
  | CallFrameCb (index : nat) (frame : list Z) (kind : Z).

(** ** Work items *)
Definition scan_kick (delay_ms : Z) (l : link) : link := set_lk_scan_work (Some delay_ms) l.
Definition beat_kick (l : link) : link := set_lk_beat_work true l.

Definition connect_retry_delay_locked (rand : Z) (l : link) : link * Z :=
  let '(b, d) := meshtastic_backoff_next_ms (c_connect_backoff (lk_central l)) rand in
  (upd_central (set_c_connect_backoff b) l, d).

(** ** Stored intent *)
Definition peer_intent_rec (c : central) : list Z :=
  [if c_scan_on c then 1 else 0] ++ put_le32 (c_target_node c) ++ put_le32 (c_last_node c).

Definition peer_intent_save (l : link) : list call := [CallSaveIntent (peer_intent_rec (lk_central l))].

(** [peer_intent_settings_set] for the key "central": [rec] is the stored value. *)
Definition peer_intent_settings_set (rec : list Z) (l : link) : link * cret :=
  if negb (Zlen rec =? 9) && negb (Zlen rec =? 5) then (l, ERR EINVAL)
  else
    (upd_central (fun c => set_c_last_node (if Zlen rec =? 5 then 0 else get_le32 5 rec)
       (set_c_target_node (get_le32 1 rec)
          (set_c_scan_on (negb (byte_at rec 0 =? 0)) c))) l, OK).

Definition peer_intent_is_set (l : link) : bool :=
  c_scan_on (lk_central l) || negb (c_target_node (lk_central l) =? 0) ||
  negb (c_last_node (lk_central l) =? 0).

Definition peer_intent_clear (l : link) : link :=
  upd_central (fun c => set_c_last_node 0 (set_c_target_node 0 (set_c_scan_on false c))) l.

(** ** Operator commands *)
Definition meshtastic_ble_peer_start (l : link) : link :=
  if negb (c_scan_on (lk_central l)) then l else scan_kick 0 l.

Definition fresh_hunt_locked (c : central) : central :=
  set_c_connect_backoff (meshtastic_backoff_reset (c_connect_backoff c))
    (set_c_scan_backoff (meshtastic_backoff_reset (c_scan_backoff c))
       (set_c_last_scan_err OK (set_c_looking_since_ms 0 c))).

(** [meshtastic_ble_peer_scan_set], up to the calls outside the lock; switching off goes
    on with [scan_set_off_end]. *)
Definition meshtastic_ble_peer_scan_set (on : bool) (l : link) : link * list call :=
  let l1 := upd_central (fun c =>
              let c1 := set_c_scan_on on c in
              fresh_hunt_locked (if negb on then set_c_target_node 0 c1 else c1)) l in
  if on then (scan_kick 0 l1, peer_intent_save l1)
  else (set_lk_scan_work None l1, peer_intent_save l1 ++ [CallScanStop]).

(** After [bt_le_scan_stop] returned. *)
Definition scan_set_off_end (l : link) : link := upd_central (set_c_scanning false) l.

Definition meshtastic_ble_peer_connect (env : peer_env) (node_num : Z) (l : link)
    : link * cret * list call :=
  if node_num =? pe_node_id env then (l, ERR EINVAL, [])
  else if bool_decide (is_Some (c_conn (lk_central l))) then (l, ERR EALREADY, [])
  else
    let l1 := upd_central (fun c =>
                fresh_hunt_locked (set_c_scan_on true (set_c_target_node node_num c))) l in
    (scan_kick 0 l1, OK, peer_intent_save l1).

Definition meshtastic_ble_peer_disconnect (l : link) : list call :=
  match c_conn (lk_central l) with
  | None => []
  | Some i => [CallDisconnect i]
  end.

Definition meshtastic_ble_peer_hold_set (on : bool) (l : link) : link :=
  beat_kick (upd_peer (set_p_hold on) l).

(** ** Adverts *)

(** The slot of [seen_note]: the node's own, or the first one seen longest ago. *)
Definition seen_slot (node_num : Z) (t : list seen) : nat :=
  match find_index (fun s => sn_node_num s =? node_num) t with
  | Some i => i
  | None =>
      match scan_best (fun s => sn_last_ms s <? INT64_MAX)
              (fun s best => sn_last_ms s <? sn_last_ms best) t with
      | Some (i, _) => i
      | None => 0%nat
      end
  end.

Definition seen_note (node_num rssi now : Z) (t : list seen) : list seen :=
  <[seen_slot node_num t := Seen node_num rssi now]> t.

Inductive ad_type := UUID128_SOME | UUID128_ALL | MANUFACTURER_DATA | AD_OTHER.

Record peer_ad_match := AdMatch {
  m_service_uuid : bool;
  m_blob : bool;
  m_node_num : Z;
}.
Definition set_m_service_uuid (v : bool) (r : peer_ad_match) : peer_ad_match :=
AdMatch v (m_blob r) (m_node_num r).
Definition set_m_blob (v : bool) (r : peer_ad_match) : peer_ad_match :=
AdMatch (m_service_uuid r) v (m_node_num r).
Definition set_m_node_num (v : Z) (r : peer_ad_match) : peer_ad_match :=
AdMatch (m_service_uuid r) (m_blob r) v.

(** [for (off = 0; off + 16 <= data_len; off += 16) if (memcmp(...) == 0)] *)
Definition has_uuid128 (uuid data : list Z) : bool :=
  existsb (fun k => bool_decide (take 16 (drop (16 * k) data) = uuid)) (seq 0 (length data / 16)).

Definition peer_ad_cb (env : peer_env) (m : peer_ad_match) (ad : ad_type * list Z) : peer_ad_match :=
  match ad.1 with
  | UUID128_SOME | UUID128_ALL =>
      if has_uuid128 (pe_service_uuid env) ad.2 then set_m_service_uuid true m else m
  | MANUFACTURER_DATA =>
      match meshtastic_ble_peer_adv_decode ad.2 with
      | Val n => set_m_blob true (set_m_node_num n m)
      | Fail _ => m
      end
  | AD_OTHER => m
  end.

Definition beats_from (node : Z) (r : rx) : bool :=
  (0 <? rx_beats r) && (b_node_num (rx_last r) =? node).

(** [peer_scan_cb] up to the dial decision: [Some node] when it goes on to dial. *)
Definition peer_scan_decide (env : peer_env) (adv_ind : bool) (ads : list (ad_type * list Z))
    (rssi now : Z) (l : link) : link * option Z :=
  if negb adv_ind then (l, None)
  else
    let m := foldl (peer_ad_cb env) (AdMatch false false 0) ads in
    if negb (m_service_uuid m) || negb (m_blob m) then (l, None)
    else if m_node_num m =? pe_node_id env then (count REFLECTIONS l, None)
    else
      let node := m_node_num m in
      let l1 := count ADVERTS_MATCHED
                  (upd_central (fun c => set_c_seen (seen_note node rssi now (c_seen c)) c) l) in
      let c := lk_central l1 in
      let idle := c_scan_on c && bool_decide (c_conn c = None) && c_scanning c in
      if idle && meshtastic_ble_peer_scan_admits (c_target_node c) (c_last_node c) node
                   (now - c_looking_since_ms c) (pe_sticky_ms env)
      then (l1, if existsb (beats_from node) (p_rx (lk_peer l1)) then None else Some node)
      else if idle && (c_target_node c =? 0) && negb (c_last_node c =? 0) &&
              negb (node =? c_last_node c)
      then (count STICKY_DEFERRED l1, None)
      else (l1, None).

(** The scan stop: [existing] when the host holds a link to the address already. *)
Definition peer_scan_stop (existing : bool) (stop : cret) (node : Z) (l : link) : link * bool :=
  if existing then (count ALREADY_LINKED l, false)
  else if negb (bool_decide (stop = OK)) && negb (bool_decide (stop = ERR EALREADY))
  then (scan_kick (base_ms (c_scan_backoff (lk_central l))) (upd_central (set_c_scanning false) l), false)
  else
    (count CONNECTS_ATTEMPTED
       (upd_central (fun c => set_c_conn_node node (set_c_scanning false c)) l), true).

(** The dial: the first attempt's result, whether the advert could be paused for a
    second one, that one's result, and the index of the connection object created. *)
Definition peer_scan_dial (create1 : cret) (paused : bool) (create2 : cret) (conn : nat) (rand : Z)
    (l : link) : link :=
  let err := if bool_decide (create1 = ERR ENOMEM) && paused then create2 else create1 in
  match err with
  | ERR _ =>
      let '(l1, delay) := connect_retry_delay_locked rand (count CONNECTS_FAILED l) in
      scan_kick delay l1
  | OK => upd_central (set_c_conn (Some conn)) l
  end.

(** ** The scan restarter *)

(** The work item has been taken off the queue; [true] when it goes on to start a scan. *)
Definition scan_work_begin (now : Z) (l : link) : link * bool :=
  let l0 := set_lk_scan_work None l in
  let c := lk_central l in
  if c_scan_on c && negb (c_scanning c) && bool_decide (c_conn c = None)
  then (if c_looking_since_ms c =? 0 then upd_central (set_c_looking_since_ms now) l0 else l0, true)
  else (l0, false).

Definition scan_work_end (err : cret) (rand : Z) (l : link) : link * list call :=
  if negb (bool_decide (err = OK)) && negb (bool_decide (err = ERR EALREADY)) then
    let '(b, delay) := meshtastic_backoff_next_ms (c_scan_backoff (lk_central l)) rand in
    (scan_kick delay
       (upd_central (set_c_scan_backoff b)
          (count SCAN_START_FAILURES (upd_central (set_c_last_scan_err err) l))), [])
  else if negb (c_scan_on (lk_central l)) then (l, [CallScanStop])
  else
    (upd_central (fun c => set_c_scan_backoff (meshtastic_backoff_reset (c_scan_backoff c))
                    (set_c_last_scan_err OK (set_c_scanning true c))) l, []).

(** ** Beats received *)

(** The accounting of a decoded beat, on slot [index]. *)
Definition account_beat (index : nat) (b : beat) (now : Z) (l : link) : link :=
  upd_peer (fun p =>
    set_p_rx_last_ms (alter (fun _ => now) index (p_rx_last_ms p))
      (set_p_rx (alter (fun r => meshtastic_ble_peer_rx_account r b) index (p_rx p)) p)) l.

(** [write_beat]: [Fail] is the ATT error, [Val] the length accepted. *)
Definition write_beat (index : nat) (buf : list Z) (offset now : Z) (l : link) : link * res Z :=
  if negb (offset =? 0) then (l, Fail EINVAL)
  else
    match meshtastic_ble_peer_beat_decode buf with
    | Fail _ => (count HELLO_MALFORMED l, Fail EACCES)
    | Val b =>
        let '(g, ret) := meshtastic_ble_classify_peer_evidence index (lk_reg l) in
        let l1 := set_lk_reg g l in
        match ret with
        | Fail EBUSY => (count HELLO_REJECTED_LATE l1, Fail EACCES)
        | _ => (account_beat index b now l1, Val (Zlen buf))
        end
    end.

(** A notification on the outbound link's beat characteristic; [None] is a null pointer. *)
Definition central_notify_cb (conn : nat) (data : option (list Z)) (now : Z) (l : link)
    : link * list call :=
  match data with
  | None => (set_lk_sub_handle 0 l, [])
  | Some buf =>
      match meshtastic_ble_peer_beat_decode buf with
      | Fail _ => (count HELLO_MALFORMED l, [])
      | Val b =>
          if (conn <? length (p_rx (lk_peer l)))%nat then
            let l1 := account_beat conn b now l in
            if bool_decide (c_conn (lk_central l1) = Some conn) &&
               negb (Z.land (b_flags b) MESHTASTIC_BLE_PEER_FLAG_COURIER =? 0) &&
               negb (c_last_node (lk_central l1) =? b_node_num b)
            then
              let l2 := upd_central (set_c_last_node (b_node_num b)) l1 in
              (l2, peer_intent_save l2)
            else (l1, [])
          else (l, [])
      end
  end.

(** ** Frames received *)
Definition meshtastic_ble_peer_frame_rx_register (cb : bool) (l : link) : link :=
  upd_peer (set_p_frame_cb cb) l.

Definition link_chunk_ingest (index : nat) (chunk : list Z) (l : link) : link * res (option Z) * list call :=
  match p_frame_rx (lk_peer l) !! index with
  | None => (l, Fail EINVAL, [])
  | Some rs =>
      let '(rs', ret) := meshtastic_ble_peer_reasm_ingest rs chunk in
      let l1 := upd_peer (fun p => set_p_frame_rx (<[index := rs']> (p_frame_rx p)) p) l in
      match ret with
      | Val (Some n) =>
          (count FRAME_RX_FRAMES l1, ret,
           if p_frame_cb (lk_peer l) then
             [CallFrameCb index (take (Z.to_nat n) (rs_frame rs')) (rs_kind rs')]
           else [])
      | Val None => (l1, ret, [])
      | Fail _ => (count FRAME_RX_REJECTED l1, ret, [])
      end
  end.

Definition write_frame (index : nat) (buf : list Z) (offset : Z) (l : link) : link * res Z * list call :=
  if negb (offset =? 0) then (l, Fail EINVAL, [])
  else if (length (p_frame_rx (lk_peer l)) <=? index)%nat then (l, Fail EIO, [])
  else
    let '(g, ev) := meshtastic_ble_classify_peer_evidence index (lk_reg l) in
    let l1 := set_lk_reg g l in
    match ev with
    | Fail EBUSY => (count HELLO_REJECTED_LATE l1, Fail EACCES, [])
    | _ =>
        let '(l2, ret, calls) := link_chunk_ingest index buf l1 in
        match ret with
        | Fail _ => (l2, Fail EACCES, calls)
        | Val _ => (l2, Val (Zlen buf), calls)
        end
    end.

Definition central_frame_notify_cb (conn : nat) (data : option (list Z)) (l : link) : link * list call :=
  match data with
  | None => (set_lk_frame_sub_handle 0 l, [])
  | Some buf =>
      if (conn <? length (p_frame_rx (lk_peer l)))%nat
      then let '(l1, _, calls) := link_chunk_ingest conn buf l in (l1, calls)
      else (l, [])
  end.

Definition meshtastic_ble_peer_conn_down (index : nat) (l : link) : link :=
  upd_peer (fun p =>
    set_p_frame_rx (alter (fun _ => meshtastic_ble_peer_reasm_reset) index (p_frame_rx p))
      (set_p_rx (alter (fun _ => meshtastic_ble_peer_rx_reset) index (p_rx p)) p)) l.

(** ** Subscriptions and beats sent *)
Definition beat_ccc_changed (notify : bool) (l : link) : link :=
  let l1 := upd_peer (fun p =>
              let p1 := set_p_notify_enabled notify p in
              if notify then set_p_hello_pending true (set_p_tx_seq 0 p1) else p1) l in
  if notify then beat_kick l1 else l1.

Definition frame_ccc_changed (notify : bool) (l : link) : link :=
  upd_peer (set_p_frame_notify_enabled notify) l.

Definition beat_fill_identity (env : peer_env) (hold hello : bool) (seq now : Z) : beat :=
  let f0 := if hello then MESHTASTIC_BLE_PEER_FLAG_HELLO else 0 in
  let f1 := if hold then Z.lor f0 MESHTASTIC_BLE_PEER_FLAG_HOLD else f0 in
  let f2 := if pe_unconfirmed env then Z.lor f1 MESHTASTIC_BLE_PEER_FLAG_TESTBOOT else f1 in
  let f3 := if pe_smp_central env then Z.lor f2 MESHTASTIC_BLE_PEER_FLAG_COURIER else f2 in
  let f4 := if pe_attachment_brain env then Z.lor f3 MESHTASTIC_BLE_PEER_FLAG_ATTACH else f3 in
  Beat MESHTASTIC_BLE_PEER_BEAT_VERSION f4 (u8 (pe_fleet_class env)) (pe_node_id env) seq
    (u32 (now / 1000)) (pe_fw env).1.1 (pe_fw env).1.2 (pe_fw env).2.

(** [ret] is what the notification returns; the beat sent, when one was tried. *)
Definition meshtastic_ble_peer_send_beat (env : peer_env) (now : Z) (ret : cret) (l : link)
    : link * cret * option (list Z) :=
  let p := lk_peer l in
  if negb (p_notify_enabled p) then (l, ERR ENOTCONN, None)
  else
    let b := beat_fill_identity env (p_hold p) (p_hello_pending p) (p_tx_seq p) now in
    let l1 := if bool_decide (ret = OK)
              then upd_peer (set_p_hello_pending false)
                     (count NOTIFY_TX_BEATS (upd_peer (fun p => set_p_tx_seq (u32 (p_tx_seq p + 1)) p) l))
              else l in
    (l1, ret, Some (meshtastic_ble_peer_beat_encode b)).

Definition central_send_beat (env : peer_env) (now : Z) (ret : cret) (l : link)
    : link * cret * option (list Z) :=
  let c := lk_central l in
  if negb (c_link_ready c) || bool_decide (c_conn c = None) then (l, ERR ENOTCONN, None)
  else
    let b := beat_fill_identity env (p_hold (lk_peer l)) (c_hello_pending c) (c_tx_seq c) now in
    let l1 := if bool_decide (ret = OK)
              then count WRITE_TX_BEATS
                     (upd_central (fun c => set_c_hello_pending false
                                     (set_c_tx_seq (u32 (c_tx_seq c + 1)) c)) l)
              else l in
    (l1, ret, Some (meshtastic_ble_peer_beat_encode b)).

(** One run of the beat engine. *)
Definition beat_work_fn (env : peer_env) (now : Z) (notify_ret write_ret : cret) (l : link) : link :=
  let l0 := set_lk_beat_work false l in
  let any1 := p_notify_enabled (lk_peer l0) in
  let l1 := if any1 then (meshtastic_ble_peer_send_beat env now notify_ret l0).1.1 else l0 in
  let '(l2, ret, _) := central_send_beat env now write_ret l1 in
  if any1 || negb (bool_decide (ret = ERR ENOTCONN)) then beat_kick l2 else l2.

(** ** The outbound link *)
Definition central_bringup_failed (conn : nat) (l : link) : link * list call :=
  (count DISCOVERY_FAILURES l, [CallDisconnect conn]).

Definition bringup_work_fn (env : peer_env) (now : Z) (l : link) : link * list call :=
  let l0 := set_lk_bringup_work false l in
  match c_conn (lk_central l) with
  | Some conn =>
      if meshtastic_ble_peer_bringup_expired (c_bringup_started_ms (lk_central l)) now
           (pe_bringup_timeout_ms env)
      then (count BRINGUP_TIMEOUTS l0, [CallDisconnect conn])
      else (l0, [])
  | None => (l0, [])
  end.

Definition peer_central_connected (conn : nat) (err : Z) (now rand : Z) (discover : cret) (l : link)
    : link * list call :=
  if negb (bool_decide (c_conn (lk_central l) = Some conn)) then (l, [])
  else if negb (err =? 0) then
    let '(l1, delay) := connect_retry_delay_locked rand
                          (count CONNECTS_FAILED (upd_central (set_c_conn None) l)) in
    (scan_kick delay l1, [])
  else
    let l1 := set_lk_disc_frame false
                (set_lk_sub_handle 0 (set_lk_frame_sub_handle 0
                  (set_lk_bringup_work true (upd_central (set_c_bringup_started_ms now) l)))) in
    match discover with
    | OK => (l1, [CallDiscoverPrimary])
    | ERR _ =>
        let '(l2, calls) := central_bringup_failed conn l1 in (l2, CallDiscoverPrimary :: calls)
    end.

Definition peer_central_disconnected (conn : nat) (rand : Z) (l : link) : link :=
  if negb (bool_decide (c_conn (lk_central l) = Some conn)) then l
  else
    let '(l1, delay) :=
      if negb (c_link_ready (lk_central l))
      then connect_retry_delay_locked rand (count CONNECTS_FAILED l) else (l, 0) in
    scan_kick delay
      (set_lk_bringup_work false
         (upd_central (fun c =>
            set_c_conn_node 0 (set_c_frame_value_handle 0 (set_c_frame_ready false
              (set_c_value_handle 0 (set_c_bringup_started_ms 0
                (set_c_link_ready false (set_c_conn None c))))))) l1)).

Inductive disc_stage := DISCOVER_PRIMARY | DISCOVER_CHARACTERISTIC | DISCOVER_DESCRIPTOR.

(** The beat chain is complete. *)
Definition link_becomes_ready (c : central) (value_handle : Z) : central * bool :=
  let c1 := set_c_connect_backoff (meshtastic_backoff_reset (c_connect_backoff c))
              (set_c_bringup_started_ms 0 (set_c_looking_since_ms 0 (set_c_hello_pending true
                (set_c_tx_seq 0 (set_c_link_ready true (set_c_value_handle value_handle c)))))) in
  if c_last_node c1 =? 0 then (set_c_last_node (c_conn_node c1) c1, true) else (c1, false).

(** [central_discover_cb]: [attr] is the handle found, [None] when the stage found
    nothing; [ret] is what the stack returns to the discover or subscribe call made here. *)
Definition central_discover_cb (conn : nat) (attr : option Z) (stage : disc_stage) (ret : cret)
    (l : link) : link * list call :=
  match attr with
  | None => if lk_disc_frame l then (l, []) else central_bringup_failed conn l
  | Some handle =>
      match stage with
      | DISCOVER_PRIMARY =>
          let call := CallDiscover false false (u16 (handle + 1)) in
          match ret with
          | OK => (l, [call])
          | ERR _ => let '(l1, cs) := central_bringup_failed conn l in (l1, call :: cs)
          end
      | DISCOVER_CHARACTERISTIC =>
          let call := CallDiscover (lk_disc_frame l) true (u16 (handle + 2)) in
          let l1 := if lk_disc_frame l then set_lk_frame_sub_handle (u16 (handle + 1)) l
                    else set_lk_sub_handle (u16 (handle + 1)) l in
          match ret with
          | OK => (l1, [call])
          | ERR _ =>
              if lk_disc_frame l then (l1, [call])
              else let '(l2, cs) := central_bringup_failed conn l1 in (l2, call :: cs)
          end
      | DISCOVER_DESCRIPTOR =>
          let sub := CallSubscribe (lk_disc_frame l)
                       (if lk_disc_frame l then lk_frame_sub_handle l else lk_sub_handle l) handle in
          let accepted := bool_decide (ret = OK) || bool_decide (ret = ERR EALREADY) in
          if negb (lk_disc_frame l) then
            if negb accepted then let '(l1, cs) := central_bringup_failed conn l in (l1, sub :: cs)
            else
              let '(c1, remember) := link_becomes_ready (lk_central l) (lk_sub_handle l) in
              let l1 := set_lk_disc_frame true (beat_kick (set_lk_central c1 l)) in
              (l1, [sub] ++ (if remember then peer_intent_save l1 else []) ++
                   [CallDiscover true false (u16 (handle + 1))])
          else if negb accepted then (l, [sub])
          else
            (upd_central (fun c => set_c_frame_ready true
               (set_c_frame_value_handle (lk_frame_sub_handle l) c)) l, [sub])
      end
  end.

(** ** Frames sent *)

(** [frame_notify_kind] and [central_send_frame] around the chunk loop. *)
Definition frame_tx (gatt : nat -> cret) (ready : bool) (chunk : Z) (frame : list Z) (kind : Z)
    (l : link) : option (link * cret * list (list Z)) :=
  if negb ready then Some (l, ERR ENOTCONN, [])
  else
    match meshtastic_ble_peer_chunker_start_kind frame kind with
    | Fail e => Some (l, ERR e, [])
    | Val ck =>
        match send_chunks (S (length frame)) gatt chunk 0 ck with
        | Some (OK, cs) => Some (count FRAME_TX_FRAMES l, OK, cs)
        | Some (ERR e, cs) => Some (count FRAME_TX_FAILED l, ERR e, cs)
        | None => None
        end
    end.

Definition frame_notify_kind (env : peer_env) (gatt : nat -> cret) (mtu : Z) (frame : list Z)
    (kind : Z) (l : link) : option (link * cret * list (list Z)) :=
  frame_tx gatt (p_frame_notify_enabled (lk_peer l)) (peer_chunk_size (pe_tx_mtu env) mtu) frame kind l.

Definition central_send_frame (env : peer_env) (gatt : nat -> cret) (mtu : Z) (frame : list Z)
    (kind : Z) (l : link) : option (link * cret * list (list Z)) :=
  let c := lk_central l in
  frame_tx gatt (c_frame_ready c && negb (bool_decide (c_conn c = None)))
    (peer_chunk_size (pe_tx_mtu env) mtu) frame kind l.

Inductive route := ViaCentral | ViaSlot (index : nat) | NoRoute.

(** The link [meshtastic_ble_peer_frame_send_to_kind] picks for a node. *)
Definition frame_route (node_num : Z) (l : link) : route :=
  let c := lk_central l in
  if c_frame_ready c && negb (bool_decide (c_conn c = None)) && (c_conn_node c =? node_num)
  then ViaCentral
  else if p_frame_notify_enabled (lk_peer l) then
    match find_index (fun ir : nat * rx => negb (bool_decide (Some ir.1 = c_conn c)) && beats_from node_num ir.2)
            (zip (seq 0 (length (p_rx (lk_peer l)))) (p_rx (lk_peer l))) with
    | Some i => ViaSlot i
    | None => NoRoute
    end
  else NoRoute.

(** [slot_conn i]: the connection in registry slot [i] is still there. *)
Definition meshtastic_ble_peer_frame_send_to_kind (env : peer_env) (gatt : nat -> cret)
    (mtu : nat -> Z) (slot_conn : nat -> bool) (node_num : Z) (frame : list Z) (kind : Z) (l : link)
    : option (link * cret * list (list Z)) :=
  match frame_route node_num l with
  | ViaCentral =>
      central_send_frame env gatt (mtu (default 0%nat (c_conn (lk_central l)))) frame kind l
  | ViaSlot i =>
      if negb (slot_conn i) then Some (l, ERR EHOSTUNREACH, [])
      else frame_notify_kind env gatt (mtu i) frame kind l
  | NoRoute => Some (l, ERR EHOSTUNREACH, [])
  end.

Definition meshtastic_ble_peer_tx_try_divert (env : peer_env) (gatt : nat -> cret) (mtu : nat -> Z)
    (slot_conn : nat -> bool) (wire : list Z) (l : link) : option (link * cret * list (list Z)) :=
  if Zlen wire <? MESHTASTIC_HDR_LEN then Some (l, ERR EINVAL, [])
  else
    let dest := get_le32 0 wire in
    if negb (get_le32 4 wire =? pe_node_id env) || (dest =? MESHTASTIC_NODE_BROADCAST)
    then Some (l, ERR EHOSTUNREACH, [])
    else meshtastic_ble_peer_frame_send_to_kind env gatt mtu slot_conn dest wire
           MESHTASTIC_BLE_PEER_KIND_WIRE l.

(** The flags of the node's last beat on any slot ([meshtastic_ble_peer_node_flags]). *)
Definition meshtastic_ble_peer_node_flags (node_num : Z) (l : link) : option Z :=
  if node_num =? 0 then None
  else
    match find_index (beats_from node_num) (p_rx (lk_peer l)) with
    | Some i => (fun r => b_flags (rx_last r)) <$> p_rx (lk_peer l) !! i
    | None => None
    end.

Definition meshtastic_ble_peer_slot_flags (index : nat) (l : link) : option Z :=
  match p_rx (lk_peer l) !! index with
  | Some r => if 0 <? rx_beats r then Some (b_flags (rx_last r)) else None
  | None => None
  end.

(** ** The module as a state machine

    Between two regions a thread remembers where it is: the Bluetooth receive thread
    while it dials, the work queue while a scan start is in flight, the operator while
    a scan stop is. [y_up] says that the outbound connection has come up, [y_release]
    that its release has been requested. Operator commands run one at a time. *)
Inductive bt_pc := BtIdle | BtDial (node : Z) | BtStopped (node : Z).
Inductive sw_pc := SwIdle | SwStarting.
Inductive op_pc := OpIdle | OpStopping.

Record sys := Sys {
  y_link : link;
  y_bt : bt_pc;
  y_sw : sw_pc;
  y_op : op_pc;
  y_up : bool;
  y_release : bool;
}.

Definition releases (cs : list call) : bool :=
  existsb (fun c => match c with CallDisconnect _ => true | _ => false end) cs.

Inductive step (env : peer_env) : sys -> sys -> Prop :=
  | st_advert l sw op up rl adv ads rssi now :
      step env (Sys l BtIdle sw op up rl)
        (let '(l', d) := peer_scan_decide env adv ads rssi now l in
         Sys l' (match d with Some n => BtDial n | None => BtIdle end) sw op up rl)
  | st_stop l node sw op up rl existing ret :
      step env (Sys l (BtDial node) sw op up rl)
        (let '(l', go) := peer_scan_stop existing ret node l in
         Sys l' (if go then BtStopped node else BtIdle) sw op up rl)
  | st_dial l node sw op up rl create1 paused create2 conn rand :
      step env (Sys l (BtStopped node) sw op up rl)
        (Sys (peer_scan_dial create1 paused create2 conn rand l) BtIdle sw op false false)
  | st_scan_begin l bt op up rl delay now :
      lk_scan_work l = Some delay ->
      step env (Sys l bt SwIdle op up rl)
        (let '(l', go) := scan_work_begin now l in
         Sys l' bt (if go then SwStarting else SwIdle) op up rl)
  | st_scan_end l bt op up rl err rand :
      step env (Sys l bt SwStarting op up rl)
        (Sys (scan_work_end err rand l).1 bt SwIdle op up rl)
  | st_connected l sw op rl conn err now rand disc :
      0 < now -> c_conn (lk_central l) = Some conn ->
      step env (Sys l BtIdle sw op false rl)
        (let '(l', cs) := peer_central_connected conn err now rand disc l in
         Sys l' BtIdle sw op (err =? 0) (releases cs))
  | st_disconnected l sw op rl conn rand :
      c_conn (lk_central l) = Some conn ->
      step env (Sys l BtIdle sw op true rl)
        (Sys (peer_central_disconnected conn rand l) BtIdle sw op false false)
  | st_discover l sw op rl conn attr stage ret :
      c_conn (lk_central l) = Some conn ->
      step env (Sys l BtIdle sw op true rl)
        (let '(l', cs) := central_discover_cb conn attr stage ret l in
         Sys l' BtIdle sw op true (rl || releases cs))
  | st_bringup l bt sw op up rl now :
      lk_bringup_work l = true ->
      (c_bringup_started_ms (lk_central l) = 0 \/
       pe_bringup_timeout_ms env <= now - c_bringup_started_ms (lk_central l)) ->
      step env (Sys l bt sw op up rl)
        (let '(l', cs) := bringup_work_fn env now l in Sys l' bt sw op up (rl || releases cs))
  | st_notify l sw op up rl conn data now :
      step env (Sys l BtIdle sw op up rl)
        (Sys (central_notify_cb conn data now l).1 BtIdle sw op up rl)
  | st_frame_notify l sw op up rl conn data :
      step env (Sys l BtIdle sw op up rl)
        (Sys (central_frame_notify_cb conn data l).1 BtIdle sw op up rl)
  | st_write_beat l sw op up rl index buf offset now :
      step env (Sys l BtIdle sw op up rl) (Sys (write_beat index buf offset now l).1 BtIdle sw op up rl)
  | st_write_frame l sw op up rl index buf offset :
      step env (Sys l BtIdle sw op up rl) (Sys (write_frame index buf offset l).1.1 BtIdle sw op up rl)
  | st_beat_ccc l sw op up rl on :
      step env (Sys l BtIdle sw op up rl) (Sys (beat_ccc_changed on l) BtIdle sw op up rl)
  | st_frame_ccc l sw op up rl on :
      step env (Sys l BtIdle sw op up rl) (Sys (frame_ccc_changed on l) BtIdle sw op up rl)
  | st_conn_down l sw op up rl index :
      step env (Sys l BtIdle sw op up rl) (Sys (meshtastic_ble_peer_conn_down index l) BtIdle sw op up rl)
  | st_beat_work l bt sw op up rl now r1 r2 :
      lk_beat_work l = true ->
      step env (Sys l bt sw op up rl) (Sys (beat_work_fn env now r1 r2 l) bt sw op up rl)
  | st_on l bt sw up rl :
      step env (Sys l bt sw OpIdle up rl) (Sys (meshtastic_ble_peer_scan_set true l).1 bt sw OpIdle up rl)
  | st_off l bt sw up rl :
      step env (Sys l bt sw OpIdle up rl)
        (Sys (meshtastic_ble_peer_scan_set false l).1 bt sw OpStopping up rl)
  | st_off_end l bt sw up rl :
      step env (Sys l bt sw OpStopping up rl) (Sys (scan_set_off_end l) bt sw OpIdle up rl)
  | st_connect l bt sw up rl node :
      step env (Sys l bt sw OpIdle up rl)
        (Sys (meshtastic_ble_peer_connect env node l).1.1 bt sw OpIdle up rl)
  | st_drop l bt sw up rl :
      step env (Sys l bt sw OpIdle up rl)
        (Sys l bt sw OpIdle up (rl || releases (meshtastic_ble_peer_disconnect l)))
  | st_hold l bt sw up rl on :
      step env (Sys l bt sw OpIdle up rl) (Sys (meshtastic_ble_peer_hold_set on l) bt sw OpIdle up rl)
  | st_clear l bt sw up rl :
      step env (Sys l bt sw OpIdle up rl) (Sys (peer_intent_clear l) bt sw OpIdle up rl).

(** Start-up: the memory of a fresh boot with the stored intent, if any, then the start
    call. [n] connection slots, [m] entries of the seen table. *)
Definition boot_link (n m : nat) : link :=
  Link (Peer false false 0 false (replicate n meshtastic_ble_peer_rx_reset) (replicate n 0) false
          (replicate n meshtastic_ble_peer_reasm_reset) false (fun _ => 0))
       (Central false false 0 0 0 None 0 false 0 false 0 0 false 0 (Backoff 500 30000 0)
          (Backoff 1000 60000 0) OK (replicate m (Seen 0 0 0)))
       None false false false 0 0 (meshtastic_ble_reg_reset n).

Definition boot (n m : nat) (intent : option (list Z)) : link :=
  let l := boot_link n m in
  meshtastic_ble_peer_start
    (match intent with Some rec => (peer_intent_settings_set rec l).1 | None => l end).

Inductive reachable (env : peer_env) (n m : nat) : sys -> Prop :=
  | reach_boot intent : reachable env n m (Sys (boot n m intent) BtIdle SwIdle OpIdle false false)
  | reach_step y y' : reachable env n m y -> step env y y' -> reachable env n m y'.

(** ** The hunt never dies *)

(** An armed hunt has something that carries it on. *)
Definition hunting (y : sys) : Prop :=
  let c := lk_central (y_link y) in
  c_scan_on c = true ->
  c_scanning c = true \/ is_Some (c_conn c) \/ is_Some (lk_scan_work (y_link y)) \/
  (exists node, y_bt y = BtStopped node) \/ y_sw y = SwStarting.

(** An outbound connection that is up but not ready is on the clock, or being released. *)
Definition watched (y : sys) : Prop :=
  let c := lk_central (y_link y) in
  is_Some (c_conn c) -> y_up y = true -> c_link_ready c = false ->
  0 < c_bringup_started_ms c /\ (lk_bringup_work (y_link y) = true \/ y_release y = true).

Record hunt_inv (y : sys) : Prop := HuntInv {
  hi_hunting : hunting y;
  hi_watched : watched y;
  hi_stopping : y_op y = OpStopping -> c_scan_on (lk_central (y_link y)) = false;
  hi_dialing : y_bt y <> BtIdle -> c_conn (lk_central (y_link y)) = None;
  hi_ready : c_link_ready (lk_central (y_link y)) = true ->
    is_Some (c_conn (lk_central (y_link y))) /\ y_up y = true;
}.

(** What the invariant looks at. *)
Definition hunt_view (l : link) :=
  let c := lk_central l in
  (c_scan_on c, c_scanning c, c_conn c, c_link_ready c, c_bringup_started_ms c,
   lk_scan_work l, lk_bringup_work l).

Lemma hunt_inv_view l l' bt sw op up rl :
  hunt_view l' = hunt_view l -> hunt_inv (Sys l bt sw op up rl) -> hunt_inv (Sys l' bt sw op up rl).
Proof.
  unfold hunt_view. intros [= E1 E2 E3 E4 E5 E6 E7] [H1 H2 H3 H4 H5].
  by split; unfold hunting, watched in *; simpl in *; rewrite ?E1, ?E2, ?E3, ?E4, ?E5, ?E6, ?E7.
Qed.

Lemma account_beat_view i b now l : hunt_view (account_beat i b now l) = hunt_view l.
Proof. done. Qed.
Lemma count_view c l : hunt_view (count c l) = hunt_view l.
Proof. done. Qed.
Lemma upd_peer_view f l : hunt_view (upd_peer f l) = hunt_view l.
Proof. done. Qed.

Lemma notify_view conn data now l : hunt_view (central_notify_cb conn data now l).1 = hunt_view l.
Proof.
  unfold central_notify_cb. destruct data as [buf|]; [|done].
  destruct (meshtastic_ble_peer_beat_decode buf); [|done]. by repeat case_match.
Qed.

Lemma chunk_ingest_view i c l : hunt_view (link_chunk_ingest i c l).1.1 = hunt_view l.
Proof.
  unfold link_chunk_ingest. destruct (p_frame_rx _ !! i); [|done].
  destruct (meshtastic_ble_peer_reasm_ingest _ c) as [rs' [[n|]|e]]; done.
Qed.

Lemma frame_notify_view conn data l : hunt_view (central_frame_notify_cb conn data l).1 = hunt_view l.
Proof.
  unfold central_frame_notify_cb. destruct data as [buf|]; [|done]. branch; [|done].
  pose proof (chunk_ingest_view conn buf l). by destruct (link_chunk_ingest conn buf l) as [[l1 r] cs].
Qed.

Lemma write_beat_view i buf off now l : hunt_view (write_beat i buf off now l).1 = hunt_view l.
Proof.
  unfold write_beat. branch; [done|]. destruct (meshtastic_ble_peer_beat_decode buf); [|done].
  destruct (meshtastic_ble_classify_peer_evidence i (lk_reg l)) as [g [z|e]]; [done|]. by destruct e.
Qed.

Lemma write_frame_view i buf off l : hunt_view (write_frame i buf off l).1.1 = hunt_view l.
Proof.
  unfold write_frame. branch; [done|]. branch; [done|].
  destruct (meshtastic_ble_classify_peer_evidence i (lk_reg l)) as [g ev].
  pose proof (chunk_ingest_view i buf (set_lk_reg g l)) as E.
  destruct (link_chunk_ingest i buf (set_lk_reg g l)) as [[l2 ret] cs]. simpl in E.
  destruct ev as [z|e]; [by destruct ret|]. destruct e; (by destruct ret) || done.
Qed.

Lemma beat_work_view env now r1 r2 l : hunt_view (beat_work_fn env now r1 r2 l) = hunt_view l.
Proof.
  unfold beat_work_fn, central_send_beat, meshtastic_ble_peer_send_beat.
  by repeat case_match; simplify_eq/=.
Qed.

Lemma decide_view env adv ads rssi now l : hunt_view (peer_scan_decide env adv ads rssi now l).1 = hunt_view l.
Proof. unfold peer_scan_decide. by repeat case_match. Qed.

(** A dial is decided only when nothing is linked. *)
Lemma decide_idle env adv ads rssi now l node :
  (peer_scan_decide env adv ads rssi now l).2 = Some node -> c_conn (lk_central l) = None.
Proof.
  unfold peer_scan_decide. cbv zeta. destruct adv; [|done]. simpl negb. cbn match.
  set (m := foldl _ _ _). destruct (negb _ || _); [done|]. destruct (_ =? _); [done|].
  match goal with |- context [bool_decide (c_conn ?c = None)] =>
    change (c_conn c) with (c_conn (lk_central l)) end.
  destruct (bool_decide (c_conn (lk_central l) = None)) eqn:E; [by apply bool_decide_eq_true in E|].
  rewrite !andb_false_r. done.
Qed.

#[local] Arguments meshtastic_backoff_next_ms : simpl never.

Ltac pick := first [done | congruence | by eexists | left; pick | right; pick].

Ltac hunt_solve :=
  repeat match goal with
  | |- context [meshtastic_backoff_next_ms ?b ?r] => destruct (meshtastic_backoff_next_ms b r)
  end;
  split; unfold hunting, watched in *; simpl in *; intros;
  repeat match goal with
  | H : is_Some (@None _) |- _ => destruct H; discriminate
  | H : ?P -> _, HP : ?P |- _ => specialize (H HP)
  | H : ?x = ?x -> _ |- _ => specialize (H eq_refl)
  | H : _ /\ _ |- _ => destruct H
  | H : _ \/ _ |- _ => destruct H
  | H : exists _, _ |- _ => destruct H
  | |- _ /\ _ => split
  end; try pick.

Lemma dial_inv l node sw op up rl create1 paused create2 conn rand :
  hunt_inv (Sys l (BtStopped node) sw op up rl) ->
  hunt_inv (Sys (peer_scan_dial create1 paused create2 conn rand l) BtIdle sw op false false).
Proof.
  intros [H1 H2 H3 H4 H5]. unfold peer_scan_dial, connect_retry_delay_locked.
  pose proof (H4 ltac:(done)) as Hn. simpl in *.
  assert (Hr : c_link_ready (lk_central l) = false).
  { destruct (c_link_ready _); [|done]. destruct (H5 eq_refl) as [[x Hx] _]. congruence. }
  destruct (if bool_decide (create1 = ERR ENOMEM) && paused then create2 else create1); hunt_solve.
Qed.

Lemma stop_inv l node sw op up rl existing ret :
  hunt_inv (Sys l (BtDial node) sw op up rl) ->
  hunt_inv (let '(l', go) := peer_scan_stop existing ret node l in
            Sys l' (if go then BtStopped node else BtIdle) sw op up rl).
Proof.
  intros [H1 H2 H3 H4 H5]. pose proof (H4 ltac:(done)) as Hn. simpl in *.
  unfold peer_scan_stop. destruct existing; [hunt_solve|]. destruct (_ && _); hunt_solve.
Qed.

Lemma scan_begin_inv l bt op up rl now :
  hunt_inv (Sys l bt SwIdle op up rl) ->
  hunt_inv (let '(l', go) := scan_work_begin now l in
            Sys l' bt (if go then SwStarting else SwIdle) op up rl).
Proof.
  intros [H1 H2 H3 H4 H5]. unfold scan_work_begin. 
  destruct (c_scan_on (lk_central l)) eqn:E1; [|hunt_solve].
  destruct (c_scanning (lk_central l)) eqn:E2; [hunt_solve|].
  destruct (c_conn (lk_central l)) as [i|] eqn:E3; simpl; [hunt_solve|].
  destruct (_ =? _); hunt_solve.
Qed.

Lemma scan_end_inv l bt op up rl err rand :
  hunt_inv (Sys l bt SwStarting op up rl) ->
  hunt_inv (Sys (scan_work_end err rand l).1 bt SwIdle op up rl).
Proof.
  intros [H1 H2 H3 H4 H5]. unfold scan_work_end.
  destruct (_ && _); [hunt_solve|].
  destruct (c_scan_on (lk_central l)) eqn:E1; simpl; hunt_solve.
Qed.

Lemma connected_inv l sw op rl conn err now rand disc :
  0 < now -> c_conn (lk_central l) = Some conn ->
  hunt_inv (Sys l BtIdle sw op false rl) ->
  hunt_inv (let '(l', cs) := peer_central_connected conn err now rand disc l in
            Sys l' BtIdle sw op (err =? 0) (releases cs)).
Proof.
  intros Hnow Hc [H1 H2 H3 H4 H5]. unfold peer_central_connected, connect_retry_delay_locked. simpl in *.
  rewrite Hc in *. rewrite bool_decide_true by done. simpl negb. cbn match.
  assert (Hr : c_link_ready (lk_central l) = false) by (destruct (c_link_ready _); naive_solver).
  destruct (err =? 0); simpl negb; cbn match.
  - destruct disc; hunt_solve.
  - hunt_solve.
Qed.

Lemma disconnected_inv l sw op rl conn rand :
  c_conn (lk_central l) = Some conn ->
  hunt_inv (Sys l BtIdle sw op true rl) ->
  hunt_inv (Sys (peer_central_disconnected conn rand l) BtIdle sw op false false).
Proof.
  intros Hc [H1 H2 H3 H4 H5]. unfold peer_central_disconnected, connect_retry_delay_locked.
  rewrite Hc, bool_decide_true by done. simpl negb. cbn match.
  destruct (c_link_ready (lk_central l)); simpl negb; cbn match; hunt_solve.
Qed.

Lemma discover_inv l sw op rl conn attr stage ret :
  c_conn (lk_central l) = Some conn ->
  hunt_inv (Sys l BtIdle sw op true rl) ->
  hunt_inv (let '(l', cs) := central_discover_cb conn attr stage ret l in
            Sys l' BtIdle sw op true (rl || releases cs)).
Proof.
  intros Hc Hi.
  assert (Hsame : forall l' cs, hunt_view l' = hunt_view l ->
            hunt_inv (Sys l' BtIdle sw op true (rl || releases cs))).
  { intros l' cs Hv. apply (hunt_inv_view l); [done|]. destruct Hi as [H1 H2 H3 H4 H5].
    split; unfold hunting, watched in *; simpl in *; try done.
    intros Hs Hu Hr. destruct (H2 Hs Hu Hr) as [? [?| ->]]; [by split; [|left] | by split; [|right]]. }
  unfold central_discover_cb, central_bringup_failed.
  destruct attr as [h|]; [|destruct (lk_disc_frame l); by apply Hsame].
  destruct stage.
  - destruct ret; by apply Hsame.
  - destruct (lk_disc_frame l) eqn:?; destruct ret; by apply Hsame.
  - destruct (lk_disc_frame l); simpl negb; cbn match; destruct (negb _); try by apply Hsame.
    unfold link_becomes_ready. destruct Hi as [H1 H2 H3 H4 H5]. simpl.
    destruct (_ =? 0); hunt_solve.
Qed.

Lemma bringup_inv env l bt sw op up rl now :
  (c_bringup_started_ms (lk_central l) = 0 \/
   pe_bringup_timeout_ms env <= now - c_bringup_started_ms (lk_central l)) ->
  hunt_inv (Sys l bt sw op up rl) ->
  hunt_inv (let '(l', cs) := bringup_work_fn env now l in Sys l' bt sw op up (rl || releases cs)).
Proof.
  intros Hdue [H1 H2 H3 H4 H5]. unfold bringup_work_fn, meshtastic_ble_peer_bringup_expired.
  destruct (c_conn (lk_central l)) as [i|] eqn:Hc.
  - destruct (_ && _) eqn:E; simpl.
    + rewrite orb_true_r. split; unfold hunting, watched in *; simpl in *; try done.
      rewrite Hc. intros _ Hu Hr. destruct (H2 ltac:(by rewrite Hc) Hu Hr). by split; [|right].
    + split; unfold hunting, watched in *; simpl in *; try done.
      rewrite Hc. intros _ Hu Hr. destruct (H2 ltac:(by rewrite Hc) Hu Hr) as [Hs Ho].
      exfalso. apply andb_false_iff in E as [E|E]; bools; lia.
  - simpl. rewrite orb_false_r. split; unfold hunting, watched in *; simpl in *; try done.
    rewrite Hc. by intros [x Hx].
Qed.

Lemma hunt_step_inv env y y' : step env y y' -> hunt_inv y -> hunt_inv y'.
Proof.
  intros Hs Hi.
  destruct Hs as [l sw op up rl adv ads rssi now| | | | | | | | | | | | | | | | | | | | | | |];
    try (by eauto using stop_inv, dial_inv, scan_begin_inv, scan_end_inv, connected_inv,
                        disconnected_inv, discover_inv, bringup_inv);
    try (by apply (hunt_inv_view l); auto using notify_view, frame_notify_view, write_beat_view,
                        write_frame_view, beat_work_view).
  - pose proof (decide_view env adv ads rssi now l) as Hv.
    pose proof (decide_idle env adv ads rssi now l) as Hd.
    destruct (peer_scan_decide env adv ads rssi now l) as [l' d]. simpl in *.
    apply (hunt_inv_view l); [done|]. destruct Hi as [H1 H2 H3 H4 H5].
    destruct d as [n|]; [|by split]. specialize (Hd n eq_refl). split; try done.
    unfold hunting in *; simpl in *. intros Hon.
    destruct (H1 Hon) as [?|[?|[?|[[? ?]|?]]]]; pick.
  - apply (hunt_inv_view l); [|done]. unfold beat_ccc_changed. by destruct on.
  - destruct Hi as [H1 H2 H3 H4 H5]. hunt_solve.
  - destruct Hi as [H1 H2 H3 H4 H5]. hunt_solve.
  - destruct Hi as [H1 H2 H3 H4 H5]. hunt_solve.
  - unfold meshtastic_ble_peer_connect. destruct (_ =? _); [done|].
    destruct (bool_decide _); [done|]. destruct Hi as [H1 H2 H3 H4 H5]. hunt_solve.
  - destruct Hi as [H1 H2 H3 H4 H5]. split; try done. unfold watched in *. simpl in *.
    intros Hc Hu Hr. destruct (H2 Hc Hu Hr) as [? [?| ->]]; pick || (split; [done|]; pick).
  - destruct Hi as [H1 H2 H3 H4 H5]. hunt_solve.
Qed.

Lemma boot_inv n m intent : hunt_inv (Sys (boot n m intent) BtIdle SwIdle OpIdle false false).
Proof.
  unfold boot, meshtastic_ble_peer_start, peer_intent_settings_set.
  destruct intent as [rec|]; [destruct (_ && _)|]; simpl; try (split; by unfold hunting, watched).
  destruct (byte_at rec 0 =? 0); simpl; hunt_solve.
Qed.

Lemma reachable_inv env n m y : reachable env n m y -> hunt_inv y.
Proof. induction 1; eauto using boot_inv, hunt_step_inv. Qed.

(** C27: However scans, dials, failures, timeouts, disconnects and operator commands
    interleave, the hunt never dies and no link is held without becoming useful: when
    it is armed and no thread is in the middle of it, then it is scanning, or linked, or
    the restarter is pending and will start a scan; and an outbound connection that is
    up but not ready is already being released, or the watchdog is pending and releases
    it when the bring-up budget is spent. *)
Theorem hunt_never_dies (env : peer_env) (n m : nat) (y : sys) :
  reachable env n m y ->
  let l := y_link y in let c := lk_central l in
  (c_scan_on c = true -> y_bt y = BtIdle -> y_sw y = SwIdle ->
   c_scanning c = false -> c_conn c = None ->
   is_Some (lk_scan_work l) /\ forall now, (scan_work_begin now l).2 = true) /\
  (forall conn, c_conn c = Some conn -> y_up y = true -> c_link_ready c = false ->
   y_release y = true \/
   lk_bringup_work l = true /\
   forall now, pe_bringup_timeout_ms env <= now - c_bringup_started_ms c ->
     (bringup_work_fn env now l).2 = [CallDisconnect conn]).
Proof.
  intros [Hh Hw _ _ _]%reachable_inv. cbv zeta. split.
  - intros Hon Hb Hs Hn Hc. split.
    + destruct (Hh Hon) as [?|[[? ?]|[?|[[? ?]|?]]]]; congruence || done.
    + intros now. unfold scan_work_begin. by rewrite Hon, Hn, Hc.
  - intros conn Hc Hu Hr. unfold watched in Hw.
    destruct (Hw ltac:(by rewrite Hc) Hu Hr) as [Hst [Hb|Hrel]]; [right | by left].
    split; [done|]. intros now Hdue. unfold bringup_work_fn. rewrite Hc.
    unfold meshtastic_ble_peer_bringup_expired.
    replace (_ =? 0) with false by (symmetry; apply Z.eqb_neq; lia).
    by replace (_ <=? _) with true by (symmetry; apply Z.leb_le; lia).
Qed.

Definition env0 : peer_env :=
  PeerEnv 7 60000 10000 247 3 true false false (2, 7, 12) (seqZ 1 16).

Lemma hunt_never_dies_witness :
  is_Some (lk_scan_work (boot 2 8 (Some [1; 9; 0; 0; 0; 0; 0; 0; 0]))) /\
  forall now, (scan_work_begin now (boot 2 8 (Some [1; 9; 0; 0; 0; 0; 0; 0; 0]))).2 = true.
Proof.
  exact (proj1 (hunt_never_dies env0 2 8 _ (reach_boot env0 2 8 (Some [1; 9; 0; 0; 0; 0; 0; 0; 0])))
           eq_refl eq_refl eq_refl eq_refl eq_refl).
Defined.

(** ** Whom a node dials *)

Lemma scan_admits_iff target last node since sticky :
  meshtastic_ble_peer_scan_admits target last node since sticky = true <->
  (target <> 0 -> node = target) /\
  (target = 0 -> last = 0 \/ node = last \/ sticky <= since).
Proof.
  unfold meshtastic_ble_peer_scan_admits. branches; split; intros; try done; lia.
Qed.

Lemma existsb_elem {A} (p : A -> bool) l :
  existsb p l = false <-> forall x, x ∈ l -> p x = false.
Proof.
  rewrite <- not_true_iff_false, existsb_exists. setoid_rewrite <- list_elem_of_In.
  split; [intros Hn x Hx; destruct (p x) eqn:E; naive_solver | intros Hn (x & Hx & E)].
  rewrite (Hn x Hx) in E. done.
Qed.

(** The advert of a peer: the service UUID in a list of 128-bit UUIDs, and the blob. *)
Definition advertises (env : peer_env) (ads : list (ad_type * list Z)) (node : Z) : Prop :=
  let m := foldl (peer_ad_cb env) (AdMatch false false 0) ads in
  m_service_uuid m = true /\ m_blob m = true /\ m_node_num m = node.

(** An advert makes the node dial exactly when the hunt is armed, a scan is running,
    no outbound link exists, the advert carries both the service and the identity of
    another node whose beats are not already being received, and this node is the
    target if there is one, or else the preferred peer unless none is remembered or its
    grace window has passed. *)
Theorem dial_decision_exact (env : peer_env) (adv : bool) (ads : list (ad_type * list Z))
    (rssi now : Z) (l : link) (node : Z) :
  let c := lk_central l in
  (peer_scan_decide env adv ads rssi now l).2 = Some node <->
  adv = true /\ advertises env ads node /\ node <> pe_node_id env /\
  c_scan_on c = true /\ c_scanning c = true /\ c_conn c = None /\
  (forall r, r ∈ p_rx (lk_peer l) -> beats_from node r = false) /\
  (c_target_node c <> 0 -> node = c_target_node c) /\
  (c_target_node c = 0 -> c_last_node c = 0 \/ node = c_last_node c \/
     pe_sticky_ms env <= now - c_looking_since_ms c).
Proof.
  cbv zeta. unfold peer_scan_decide, advertises. cbv zeta.
  set (m := foldl _ _ _).
  destruct adv; simpl negb; cbn match; [|naive_solver].
  destruct (m_service_uuid m); simpl negb; cbn [orb]; [|naive_solver].
  destruct (m_blob m); simpl negb; cbn match; [|naive_solver].
  destruct (m_node_num m =? pe_node_id env) eqn:Eself; bools; [naive_solver|].
  set (l1 := count ADVERTS_MATCHED _).
  change (c_scan_on (lk_central l1)) with (c_scan_on (lk_central l)).
  change (c_scanning (lk_central l1)) with (c_scanning (lk_central l)).
  change (c_conn (lk_central l1)) with (c_conn (lk_central l)).
  change (c_target_node (lk_central l1)) with (c_target_node (lk_central l)).
  change (c_last_node (lk_central l1)) with (c_last_node (lk_central l)).
  change (c_looking_since_ms (lk_central l1)) with (c_looking_since_ms (lk_central l)).
  change (p_rx (lk_peer l1)) with (p_rx (lk_peer l)).
  destruct (c_scan_on (lk_central l)); [|simpl; naive_solver].
  destruct (c_conn (lk_central l)) as [i|]; [simpl; naive_solver|].
  destruct (c_scanning (lk_central l)); [|simpl; naive_solver].
  rewrite bool_decide_true by done. simpl andb.
  pose proof (scan_admits_iff (c_target_node (lk_central l)) (c_last_node (lk_central l))
    (m_node_num m) (now - c_looking_since_ms (lk_central l)) (pe_sticky_ms env)) as Hadm.
  destruct (meshtastic_ble_peer_scan_admits _ _ _ _ _).
  - destruct Hadm as [Hadm _]. specialize (Hadm eq_refl). simpl.
    pose proof (existsb_elem (beats_from (m_node_num m)) (p_rx (lk_peer l))) as Hex.
    destruct (existsb _ _); naive_solver.
  - destruct Hadm as [_ Hadm]. destruct (_ && _ && _); simpl; (split; [done|]);
      intros (_ & (_ & _ & <-) & _ & _ & _ & _ & _ & Ht); by specialize (Hadm Ht).
Qed.

Lemma dial_decision_exact_witness :
  let ads := [(UUID128_ALL, seqZ 1 16); (MANUFACTURER_DATA, meshtastic_ble_peer_adv_encode 9)] in
  let l := upd_central (fun c => set_c_scanning true (set_c_scan_on true c)) (boot_link 2 8) in
  c_conn (lk_central l) = None /\ (peer_scan_decide env0 true ads (-60) 5000 l).2 = Some 9.
Proof.
  split; [reflexivity|].
  apply (dial_decision_exact env0 true
    [(UUID128_ALL, seqZ 1 16); (MANUFACTURER_DATA, meshtastic_ble_peer_adv_encode 9)] (-60) 5000
    (upd_central (fun c => set_c_scanning true (set_c_scan_on true c)) (boot_link 2 8)) 9).
  split; [done|]. split; [by vm_compute|]. split; [done|]. split; [done|]. split; [done|].
  split; [done|]. split; [|split; [by intros H; destruct H | by left]].
  intros r Hr. apply elem_of_replicate_inv in Hr. by subst r.
Defined.

(** ** Whom a node prefers *)
Definition courier (b : beat) : Prop := Z.land (b_flags b) MESHTASTIC_BLE_PEER_FLAG_COURIER <> 0.

Abbreviation preferred l := (c_last_node (lk_central l)).

Lemma decide_preferred env adv ads rssi now l : preferred (peer_scan_decide env adv ads rssi now l).1 = preferred l.
Proof. unfold peer_scan_decide. by repeat case_match. Qed.

Lemma stop_preferred existing ret node l : preferred (peer_scan_stop existing ret node l).1 = preferred l.
Proof. unfold peer_scan_stop. by repeat case_match. Qed.

Lemma dial_preferred c1 p c2 conn rand l : preferred (peer_scan_dial c1 p c2 conn rand l) = preferred l.
Proof. unfold peer_scan_dial, connect_retry_delay_locked. by repeat case_match; simplify_eq/=. Qed.

Lemma scan_begin_preferred now l : preferred (scan_work_begin now l).1 = preferred l.
Proof. unfold scan_work_begin. by repeat case_match. Qed.

Lemma scan_end_preferred err rand l : preferred (scan_work_end err rand l).1 = preferred l.
Proof. unfold scan_work_end. by repeat case_match. Qed.

Lemma connected_preferred conn err now rand disc l :
  preferred (peer_central_connected conn err now rand disc l).1 = preferred l.
Proof.
  unfold peer_central_connected, connect_retry_delay_locked, central_bringup_failed.
  by repeat case_match; simplify_eq/=.
Qed.

Lemma disconnected_preferred conn rand l :
  preferred (peer_central_disconnected conn rand l) = preferred l.
Proof.
  unfold peer_central_disconnected, connect_retry_delay_locked. by repeat case_match; simplify_eq/=.
Qed.

Lemma bringup_preferred env now l : preferred (bringup_work_fn env now l).1 = preferred l.
Proof. unfold bringup_work_fn. by repeat case_match. Qed.

Lemma chunk_ingest_preferred i c l : preferred (link_chunk_ingest i c l).1.1 = preferred l.
Proof. unfold link_chunk_ingest. by repeat case_match. Qed.

Lemma frame_notify_preferred conn data l : preferred (central_frame_notify_cb conn data l).1 = preferred l.
Proof.
  unfold central_frame_notify_cb. destruct data as [buf|]; [|done]. branch; [|done].
  pose proof (chunk_ingest_preferred conn buf l). by destruct (link_chunk_ingest conn buf l) as [[l1 r] cs].
Qed.

Lemma write_beat_preferred i buf off now l : preferred (write_beat i buf off now l).1 = preferred l.
Proof. unfold write_beat. by repeat case_match. Qed.

Lemma write_frame_preferred i buf off l : preferred (write_frame i buf off l).1.1 = preferred l.
Proof.
  unfold write_frame. branch; [done|]. branch; [done|].
  destruct (meshtastic_ble_classify_peer_evidence i (lk_reg l)) as [g ev].
  pose proof (chunk_ingest_preferred i buf (set_lk_reg g l)) as E.
  destruct (link_chunk_ingest i buf (set_lk_reg g l)) as [[l2 ret] cs]. simpl in E.
  destruct ev as [z|e]; [by destruct ret|]. destruct e; (by destruct ret) || done.
Qed.

Lemma beat_work_preferred env now r1 r2 l : preferred (beat_work_fn env now r1 r2 l) = preferred l.
Proof.
  unfold beat_work_fn, central_send_beat, meshtastic_ble_peer_send_beat.
  by repeat case_match; simplify_eq/=.
Qed.

Lemma connect_preferred env node l : preferred (meshtastic_ble_peer_connect env node l).1.1 = preferred l.
Proof. unfold meshtastic_ble_peer_connect. by repeat case_match. Qed.

(** The two operations that may change it. *)
Lemma notify_preferred conn data now l :
  preferred (central_notify_cb conn data now l).1 <> preferred l ->
  exists buf b, data = Some buf /\ meshtastic_ble_peer_beat_decode buf = Val b /\
    c_conn (lk_central l) = Some conn /\ courier b /\
    preferred (central_notify_cb conn data now l).1 = b_node_num b.
Proof.
  unfold central_notify_cb. destruct data as [buf|]; [|done].
  destruct (meshtastic_ble_peer_beat_decode buf) as [b|] eqn:Ed; [|done].
  destruct (_ <? _)%nat; [|done].
  destruct (bool_decide _ && _ && _) eqn:E; [|done]. intros _. bools.
  exists buf, b. unfold courier. naive_solver.
Qed.

Lemma discover_preferred conn attr stage ret l :
  preferred (central_discover_cb conn attr stage ret l).1 <> preferred l ->
  preferred l = 0 /\
  preferred (central_discover_cb conn attr stage ret l).1 = c_conn_node (lk_central l) /\
  c_link_ready (lk_central (central_discover_cb conn attr stage ret l).1) = true.
Proof.
  unfold central_discover_cb, central_bringup_failed, link_becomes_ready.
  destruct attr as [h|]; [|by destruct (lk_disc_frame l)].
  destruct stage; [by destruct ret | by destruct (lk_disc_frame l), ret |].
  destruct (lk_disc_frame l); simpl negb; cbn match; destruct (negb _); try done.
  simpl. destruct (c_last_node (lk_central l) =? 0) eqn:E; [|done]. bools. done.
Qed.

(** The peer a bare rescan prefers changes in three ways only: the operator clears
    the intent; none was remembered and the first link becomes ready; or a beat arriving
    on the outbound link itself says that its sender is a courier. A link to some other
    node never displaces it. *)
Theorem preferred_peer_kept (env : peer_env) (y y' : sys) :
  step env y y' ->
  let old := c_last_node (lk_central (y_link y)) in
  let new := c_last_node (lk_central (y_link y')) in
  new <> old ->
  new = 0 \/
  (old = 0 /\ new = c_conn_node (lk_central (y_link y)) /\ c_link_ready (lk_central (y_link y')) = true) \/
  (exists conn buf b now, c_conn (lk_central (y_link y)) = Some conn /\
     meshtastic_ble_peer_beat_decode buf = Val b /\ courier b /\ new = b_node_num b /\
     y_link y' = (central_notify_cb conn (Some buf) now (y_link y)).1).
Proof.
  intros Hs. cbv zeta. destruct Hs; simpl; try done.
  - pose proof (decide_preferred env adv ads rssi now l). by destruct (peer_scan_decide env adv ads rssi now l).
  - pose proof (stop_preferred existing ret node l). by destruct (peer_scan_stop existing ret node l).
  - by rewrite dial_preferred.
  - pose proof (scan_begin_preferred now l). by destruct (scan_work_begin now l).
  - by rewrite scan_end_preferred.
  - pose proof (connected_preferred conn err now rand disc l). by destruct (peer_central_connected conn err now rand disc l).
  - by rewrite disconnected_preferred.
  - pose proof (discover_preferred conn attr stage ret l) as Hd.
    destruct (central_discover_cb conn attr stage ret l) as [l' cs]. simpl in *. naive_solver.
  - pose proof (bringup_preferred env now l). by destruct (bringup_work_fn env now l).
  - intros Hne. destruct (notify_preferred _ _ _ _ Hne) as (buf & b & -> & Hd & Hc & Hf & En).
    right. right. exists conn, buf, b, now. done.
  - by rewrite frame_notify_preferred.
  - by rewrite write_beat_preferred.
  - by rewrite write_frame_preferred.
  - unfold beat_ccc_changed. by destruct on.
  - by rewrite beat_work_preferred.
  - by rewrite connect_preferred.
  - by left.
Qed.

Lemma preferred_peer_kept_witness :
  let l := upd_central (set_c_conn (Some 0%nat)) (boot_link 2 8) in
  let buf := meshtastic_ble_peer_beat_encode (Beat 2 8 0 9 0 0 0 0 0) in
  let l' := (central_notify_cb 0 (Some buf) 5 l).1 in
  preferred l' = 9 /\
  (preferred l' = 0 \/
   (preferred l = 0 /\ preferred l' = c_conn_node (lk_central l) /\ c_link_ready (lk_central l') = true) \/
   (exists conn buf b now, c_conn (lk_central l) = Some conn /\
      meshtastic_ble_peer_beat_decode buf = Val b /\ courier b /\ preferred l' = b_node_num b /\
      l' = (central_notify_cb conn (Some buf) now l).1)).
Proof.
  split; [reflexivity|].
  exact (preferred_peer_kept env0 _ _
    (st_notify env0 (upd_central (set_c_conn (Some 0%nat)) (boot_link 2 8)) SwIdle OpIdle true false
       0 (Some (meshtastic_ble_peer_beat_encode (Beat 2 8 0 9 0 0 0 0 0))) 5) ltac:(by vm_compute)).
Defined.

(** ** Where frames go *)

(** The link a frame for [node] may take: the outbound link to it, or an inbound one whose
    last beat came from it. *)
Definition link_of (node : Z) (l : link) (r : route) : Prop :=
  match r with
  | ViaCentral => is_Some (c_conn (lk_central l)) /\ c_frame_ready (lk_central l) = true /\
                  c_conn_node (lk_central l) = node
  | ViaSlot i => c_conn (lk_central l) <> Some i /\ p_frame_notify_enabled (lk_peer l) = true /\
                 exists r, p_rx (lk_peer l) !! i = Some r /\ beats_from node r = true
  | NoRoute => False
  end.

Lemma zip_seq_lookup {A} (l : list A) k i :
  zip (seq k (length l)) l !! i = (fun x => ((k + i)%nat, x)) <$> l !! i.
Proof.
  revert k i. induction l as [|x l IH]; intros k [|i]; simpl; try done.
  - by rewrite Nat.add_0_r.
  - rewrite IH. replace (S k + i)%nat with (k + S i)%nat by lia. done.
Qed.

Lemma frame_route_ok node l : frame_route node l <> NoRoute -> link_of node l (frame_route node l).
Proof.
  unfold frame_route.
  destruct (c_frame_ready (lk_central l) && _ && _) eqn:E.
  { bools. intros _. split; [|done]. destruct (c_conn (lk_central l)); [done | naive_solver]. }
  destruct (p_frame_notify_enabled (lk_peer l)) eqn:En; [|done].
  destruct (find_index _ _) as [i|] eqn:Ef; [|done]. intros _.
  apply find_index_Some_1 in Ef as ([j r] & Hl & Hp). rewrite zip_seq_lookup in Hl.
  apply fmap_Some in Hl as (r' & Hr & [= -> ->]). simpl in Hp. bools.
  split; [congruence|]. split; [done|]. by exists r'.
Qed.

Lemma frame_tx_sent gatt ready size frame kind l :
  (fun p => (p.1.2, p.2)) <$> frame_tx gatt ready size frame kind l = frame_send gatt ready size frame kind.
Proof.
  unfold frame_tx, frame_send. destruct ready; simpl negb; cbn match; [|done].
  destruct (meshtastic_ble_peer_chunker_start_kind frame kind); [|done].
  by destruct (send_chunks _ _ _ _ _) as [[[|e] cs]|].
Qed.

Lemma chunk_size_min tx_mtu mtu :
  23 <= tx_mtu <= 65535 -> in_u16 mtu -> MESHTASTIC_BLE_PEER_CHUNK_MTU23 <= peer_chunk_size tx_mtu mtu.
Proof.
  unfold peer_chunk_size, MESHTASTIC_BLE_PEER_CHUNK_MTU23, in_u16, UINT16_MAX. intros Ht Hm.
  branches; [lia|]. rewrite !u16_small by lia. lia.
Qed.

(** The outcome of a send: an answer; chunks or success only under [allowed]; and what
    the far end's reassembler [far] makes of the chunks. *)
Definition sent_as (allowed : Prop) (far : reasm) (frame : list Z) (kind : Z) (l : link)
    (r : option (link * cret * list (list Z))) : Prop :=
  exists l' ret cs, r = Some (l', ret, cs) /\ lk_central l' = lk_central l /\
  (cs <> [] \/ ret = OK -> allowed) /\
  (frame_ingest_all far cs).2 = if decide (ret = OK) then [(frame, kind)] else [].

Lemma sent_refused allowed far frame kind l e : sent_as allowed far frame kind l (Some (l, ERR e, [])).
Proof.
  exists l, (ERR e), []. split; [done|]. split; [done|]. split; [by intros [?|?]|].
  by rewrite decide_False.
Qed.

Lemma sent_frame_tx (allowed : Prop) far gatt ready size frame kind l :
  allowed -> room far -> MESHTASTIC_BLE_PEER_CHUNK_MTU23 <= size -> 0 <= kind ->
  sent_as allowed far frame kind l (frame_tx gatt ready size frame kind l).
Proof.
  intros Ha Hr Hsz Hk. unfold MESHTASTIC_BLE_PEER_CHUNK_MTU23 in Hsz.
  destruct (frame_send_delivers gatt ready size frame kind far ltac:(lia) Hk Hr)
    as (ret & cs & E & far' & _ & Ein).
  rewrite <- (frame_tx_sent gatt ready size frame kind l) in E.
  apply fmap_Some in E as ([[l' ret'] cs'] & E & [= -> ->]).
  exists l', ret', cs'. split; [done|]. split; [|split; [done | by rewrite Ein]].
  unfold frame_tx in E. by repeat case_match; simplify_eq/=.
Qed.

(** A frame the radio queue offers to the peer link always gets a definite answer;
    chunks leave only for a frame this node originates to a single node, on a link that
    identified itself as that node; and when the answer is success, the far end's
    reassembler, in whatever state, delivers exactly that frame as a wire frame. *)
Theorem diverted_frame_reaches_its_node (env : peer_env) (gatt : nat -> cret) (mtu : nat -> Z)
    (slot_conn : nat -> bool) (wire : list Z) (l : link) (far : reasm) :
  23 <= pe_tx_mtu env <= 65535 -> (forall i, in_u16 (mtu i)) -> room far ->
  let dest := get_le32 0 wire in
  sent_as (get_le32 4 wire = pe_node_id env /\ dest <> MESHTASTIC_NODE_BROADCAST /\
           link_of dest l (frame_route dest l))
    far wire MESHTASTIC_BLE_PEER_KIND_WIRE l
    (meshtastic_ble_peer_tx_try_divert env gatt mtu slot_conn wire l).
Proof.
  intros Hmtu Hm Hr dest. unfold meshtastic_ble_peer_tx_try_divert. fold dest.
  destruct (_ <? _); [apply sent_refused|].
  destruct (negb _ || _) eqn:Eg; [apply sent_refused|]. apply orb_false_iff in Eg as [Esrc Ebc]. bools.
  unfold meshtastic_ble_peer_frame_send_to_kind. pose proof (frame_route_ok dest l) as Hroute.
  destruct (frame_route dest l) as [|i|].
  - apply sent_frame_tx; [split; [done|]; split; [done|]; by apply Hroute | done | | done].
    by apply chunk_size_min.
  - destruct (slot_conn i); simpl negb; cbn match; [|apply sent_refused].
    apply sent_frame_tx; [split; [done|]; split; [done|]; by apply Hroute | done | | done].
    by apply chunk_size_min.
  - apply sent_refused.
Qed.

Lemma diverted_frame_reaches_its_node_witness :
  let wire := put_le32 9 ++ put_le32 7 ++ seqZ 0 40 in
  let l := upd_central (fun c => set_c_frame_ready true (set_c_conn_node 9 (set_c_conn (Some 0%nat) c)))
             (boot_link 2 8) in
  sent_as (get_le32 4 wire = 7 /\ get_le32 0 wire <> MESHTASTIC_NODE_BROADCAST /\
           link_of (get_le32 0 wire) l (frame_route (get_le32 0 wire) l))
    meshtastic_ble_peer_reasm_reset wire 0 l
    (meshtastic_ble_peer_tx_try_divert env0 (fun _ => OK) (fun _ => 23) (fun _ => true) wire l).
Proof.
  exact (diverted_frame_reaches_its_node env0 (fun _ => OK) (fun _ => 23) (fun _ => true)
    (put_le32 9 ++ put_le32 7 ++ seqZ 0 40)
    (upd_central (fun c => set_c_frame_ready true (set_c_conn_node 9 (set_c_conn (Some 0%nat) c)))
       (boot_link 2 8)) meshtastic_ble_peer_reasm_reset
    ltac:(vm_compute; split; congruence) ltac:(intros; vm_compute; split; congruence) eq_refl).
Defined.

Example diverted_frame_sample :
  let wire := put_le32 9 ++ put_le32 7 ++ seqZ 0 40 in
  let l := upd_central (fun c => set_c_frame_ready true (set_c_conn_node 9 (set_c_conn (Some 0%nat) c)))
             (boot_link 2 8) in
  (fun p => (p.1.2, length p.2)) <$>
    meshtastic_ble_peer_tx_try_divert env0 (fun _ => OK) (fun _ => 23) (fun _ => true) wire l =
  Some (OK, 3%nat).
Proof. by vm_compute. Qed.

(** ** Stored intent and the seen table *)

(** What the operator armed survives a reboot, and an image upgrade from the record
    without a preferred peer. *)
Lemma peer_intent_roundtrip l l0 :
  in_u32 (c_target_node (lk_central l)) -> in_u32 (c_last_node (lk_central l)) ->
  let rec := peer_intent_rec (lk_central l) in
  let view l := (c_scan_on (lk_central l), c_target_node (lk_central l), c_last_node (lk_central l)) in
  view (peer_intent_settings_set rec l0).1 = view l /\
  view (peer_intent_settings_set (take 5 rec) l0).1 =
    (c_scan_on (lk_central l), c_target_node (lk_central l), 0).
Proof.
  unfold in_u32, UINT32_MAX. intros Ht Hl. cbv zeta.
  assert (E1 : get_le32 1 (peer_intent_rec (lk_central l)) = c_target_node (lk_central l))
    by exact (le_get_put 4 (c_target_node (lk_central l)) ltac:(simpl; lia)).
  assert (E2 : get_le32 5 (peer_intent_rec (lk_central l)) = c_last_node (lk_central l))
    by exact (le_get_put 4 (c_last_node (lk_central l)) ltac:(simpl; lia)).
  assert (E3 : negb (byte_at (peer_intent_rec (lk_central l)) 0 =? 0) = c_scan_on (lk_central l))
    by (unfold peer_intent_rec; by destruct (c_scan_on _)).
  split.
  - unfold peer_intent_settings_set. change (Zlen (peer_intent_rec (lk_central l))) with 9.
    cbn -[get_le byte_at peer_intent_rec]. by rewrite E1, E2, E3.
  - change (get_le32 1 (peer_intent_rec (lk_central l))) with
      (get_le32 1 (take 5 (peer_intent_rec (lk_central l)))) in E1.
    change (byte_at (peer_intent_rec (lk_central l)) 0) with
      (byte_at (take 5 (peer_intent_rec (lk_central l))) 0) in E3.
    unfold peer_intent_settings_set. change (Zlen (take 5 (peer_intent_rec (lk_central l)))) with 5.
    cbn -[get_le byte_at peer_intent_rec take]. by rewrite E1, E3.
Qed.

(** The seen table holds a node at most once, and a newly heard node takes the place of
    the one heard longest ago. *)
Definition seen_wf (t : list seen) : Prop :=
  forall i j a b, t !! i = Some a -> t !! j = Some b ->
    sn_node_num a = sn_node_num b -> sn_node_num a <> 0 -> i = j.

Lemma seen_slot_own t node j b :
  seen_wf t -> t !! j = Some b -> sn_node_num b = node -> node <> 0 -> seen_slot node t = j.
Proof.
  intros Hw Hj E Hn. unfold seen_slot. destruct (find_index _ t) as [k|] eqn:Ef.
  - apply find_index_Some_1 in Ef as (s & Hk & Hp). bools. apply (Hw k j s b Hk Hj); congruence.
  - rewrite find_index_None in Ef. specialize (Ef _ _ Hj). bools. congruence.
Qed.

Lemma seen_note_wf node rssi now t : seen_wf t -> seen_wf (seen_note node rssi now t).
Proof.
  intros Hw i j a b Hi Hj E Hn. unfold seen_note in *.
  apply list_lookup_insert_Some in Hi as [(Ei & Ea & Hlt)|[Ni Hi]],
        Hj as [(Ej & Eb & _)|[Nj Hj]].
  - congruence.
  - exfalso. apply Nj. subst a. simpl in *. by apply (seen_slot_own t node j b).
  - exfalso. apply Ni. subst b. simpl in *. apply (seen_slot_own t node i a); [done | done | done | congruence].
  - by apply (Hw i j a b).
Qed.
