(* ===== verification/AttachmentCodec.v ===== *)
(** * The attachment envelope (src/src/meshtastic_attachment_codec.c, .h)

    What a radio head and its brain say to each other. An encoder gets the size of the
    output buffer, [None] being a null pointer, and returns the bytes written; a wire
    pointer that is null is the empty wire, which every encoder that needs one refuses
    alike. Decoding zeroes the message first, so fields a type does not carry are zero. *)
From S2P Require Import Prelude.
Open Scope Z_scope.

Definition MESHTASTIC_ATTACHMENT_WIRE_MAX : Z := 255.
Definition MESHTASTIC_ATTACHMENT_HDR_MAX : Z := 16.
Definition MESHTASTIC_ATTACHMENT_ENV_MAX : Z :=
  MESHTASTIC_ATTACHMENT_WIRE_MAX + MESHTASTIC_ATTACHMENT_HDR_MAX.

Definition MESHTASTIC_ATTACHMENT_RX_FRAME : Z := 1.
Definition MESHTASTIC_ATTACHMENT_TX_FRAME : Z := 2.
Definition MESHTASTIC_ATTACHMENT_TX_RESULT : Z := 3.
Definition MESHTASTIC_ATTACHMENT_STATUS : Z := 4.
Definition MESHTASTIC_ATTACHMENT_SET_PRESET : Z := 5.
Definition MESHTASTIC_ATTACHMENT_TX_CANCEL : Z := 7.
Definition MESHTASTIC_ATTACHMENT_SET_POLICY : Z := 8.

Definition MESHTASTIC_ATTACHMENT_RX_HDR_LEN : Z := 10.
Definition MESHTASTIC_ATTACHMENT_TX_HDR_LEN : Z := 5.
Definition MESHTASTIC_ATTACHMENT_TX_RELAY_HDR_LEN : Z := 22.
Definition MESHTASTIC_ATTACHMENT_TX_CANCEL_LEN : Z := 9.
Definition MESHTASTIC_ATTACHMENT_SET_POLICY_LEN : Z := 3.
Definition MESHTASTIC_ATTACHMENT_TX_RESULT_LEN : Z := 9.
Definition MESHTASTIC_ATTACHMENT_TX_RESULT_LAG_LEN : Z := 11.
Definition MESHTASTIC_ATTACHMENT_STATUS_LEN : Z := 27.
Definition MESHTASTIC_ATTACHMENT_STATUS_POS_LEN : Z := 39.
Definition MESHTASTIC_ATTACHMENT_SET_PRESET_LEN : Z := 2.

Definition MESHTASTIC_ATTACHMENT_TXF_RELAY : Z := 4.
Definition MESHTASTIC_ATTACHMENT_ST_HAS_POS : Z := 4.

(** ** Messages *)
Record rx_frame := RxFrame {
  rf_preset : Z; rf_rssi : Z; rf_snr : Z; rf_rx_ms : Z; rf_flags : Z; rf_wire : list Z;
}.
Record tx_frame := TxFrame {
  tf_preset : Z; tf_flags : Z; tf_tx_seq : Z; tf_relay_src : Z; tf_relay_id : Z; tf_rx_ms : Z;
  tf_not_before_ms : Z; tf_dupe : Z; tf_wire : list Z;
}.
Record tx_result := TxResult {
  tr_tx_seq : Z; tr_rc : Z; tr_defers : Z; tr_tx_ms : Z; tr_has_lag : bool; tr_lag_ms : Z;
}.
Record status := Status {
  st_preset : Z; st_flags : Z; st_hwid : Z; st_brain : Z; st_rx_frames : Z; st_tx_frames : Z;
  st_uptime_s : Z; st_rx_dropped : Z; st_lat : Z; st_lon : Z; st_alt : Z;
}.
Inductive attachment_msg :=
  | MsgRx (m : rx_frame)
  | MsgTx (m : tx_frame)
  | MsgResult (m : tx_result)
  | MsgStatus (m : status)
  | MsgPreset (preset : Z)
  | MsgCancel (src id : Z)
  | MsgPolicy (flags tx_power : Z).

Definition has_flag (flags mask : Z) : bool := negb (Z.land flags mask =? 0).

(** ** Encoders *)
Definition meshtastic_attachment_encode_rx_frame (m : rx_frame) (out : option Z) : res (list Z) :=
  match out with
  | None => Fail EINVAL
  | Some out_size =>
      if Zlen (rf_wire m) =? 0 then Fail EINVAL
      else if MESHTASTIC_ATTACHMENT_WIRE_MAX <? Zlen (rf_wire m) then Fail EMSGSIZE
      else if out_size <? MESHTASTIC_ATTACHMENT_RX_HDR_LEN + Zlen (rf_wire m) then Fail EMSGSIZE
      else Val ([MESHTASTIC_ATTACHMENT_RX_FRAME; rf_preset m] ++ put_le16 (u16 (rf_rssi m)) ++
                [u8 (rf_snr m)] ++ put_le32 (rf_rx_ms m) ++ [rf_flags m] ++ rf_wire m)
  end.

Definition tx_hdr_len (flags : Z) : Z :=
  if has_flag flags MESHTASTIC_ATTACHMENT_TXF_RELAY then MESHTASTIC_ATTACHMENT_TX_RELAY_HDR_LEN
  else MESHTASTIC_ATTACHMENT_TX_HDR_LEN.

Definition meshtastic_attachment_encode_tx_frame (m : tx_frame) (out : option Z) : res (list Z) :=
  match out with
  | None => Fail EINVAL
  | Some out_size =>
      if Zlen (tf_wire m) =? 0 then Fail EINVAL
      else if MESHTASTIC_ATTACHMENT_WIRE_MAX <? Zlen (tf_wire m) then Fail EMSGSIZE
      else
        let hdr := tx_hdr_len (tf_flags m) in
        if out_size <? hdr + Zlen (tf_wire m) then Fail EMSGSIZE
        else Val ([MESHTASTIC_ATTACHMENT_TX_FRAME; tf_preset m; tf_flags m] ++
                  put_le16 (tf_tx_seq m) ++
                  (if hdr =? MESHTASTIC_ATTACHMENT_TX_RELAY_HDR_LEN then
                     put_le32 (tf_relay_src m) ++ put_le32 (tf_relay_id m) ++
                     put_le32 (tf_rx_ms m) ++ put_le32 (tf_not_before_ms m) ++ [tf_dupe m]
                   else []) ++ tf_wire m)
  end.

Definition meshtastic_attachment_encode_tx_result (m : tx_result) (out : option Z) : res (list Z) :=
  match out with
  | None => Fail EINVAL
  | Some out_size =>
      if out_size <? MESHTASTIC_ATTACHMENT_TX_RESULT_LEN then Fail EMSGSIZE
      else
        let base := [MESHTASTIC_ATTACHMENT_TX_RESULT] ++ put_le16 (tr_tx_seq m) ++
                    [u8 (tr_rc m); tr_defers m] ++ put_le32 (tr_tx_ms m) in
        if tr_has_lag m && (MESHTASTIC_ATTACHMENT_TX_RESULT_LAG_LEN <=? out_size)
        then Val (base ++ put_le16 (tr_lag_ms m)) else Val base
  end.

Definition meshtastic_attachment_encode_status (m : status) (out : option Z) : res (list Z) :=
  let pos := has_flag (st_flags m) MESHTASTIC_ATTACHMENT_ST_HAS_POS in
  let len := if pos then MESHTASTIC_ATTACHMENT_STATUS_POS_LEN else MESHTASTIC_ATTACHMENT_STATUS_LEN in
  match out with
  | None => Fail EINVAL
  | Some out_size =>
      if out_size <? len then Fail EMSGSIZE
      else Val ([MESHTASTIC_ATTACHMENT_STATUS; st_preset m; st_flags m] ++
                put_le32 (st_hwid m) ++ put_le32 (st_brain m) ++ put_le32 (st_rx_frames m) ++
                put_le32 (st_tx_frames m) ++ put_le32 (st_uptime_s m) ++ put_le32 (st_rx_dropped m) ++
                (if pos then put_le32 (u32 (st_lat m)) ++ put_le32 (u32 (st_lon m)) ++
                             put_le32 (u32 (st_alt m)) else []))
  end.

Definition meshtastic_attachment_encode_tx_cancel (src id : Z) (out : option Z) : res (list Z) :=
  match out with
  | None => Fail EMSGSIZE
  | Some out_size =>
      if out_size <? MESHTASTIC_ATTACHMENT_TX_CANCEL_LEN then Fail EMSGSIZE
      else Val ([MESHTASTIC_ATTACHMENT_TX_CANCEL] ++ put_le32 src ++ put_le32 id)
  end.

Definition meshtastic_attachment_encode_set_policy (flags tx_power : Z) (out : option Z) : res (list Z) :=
  match out with
  | None => Fail EMSGSIZE
  | Some out_size =>
      if out_size <? MESHTASTIC_ATTACHMENT_SET_POLICY_LEN then Fail EMSGSIZE
      else Val [MESHTASTIC_ATTACHMENT_SET_POLICY; flags; u8 tx_power]
  end.

Definition meshtastic_attachment_encode_set_preset (preset : Z) (out : option Z) : res (list Z) :=
  match out with
  | None => Fail EINVAL
  | Some out_size =>
      if out_size <? MESHTASTIC_ATTACHMENT_SET_PRESET_LEN then Fail EMSGSIZE
      else Val [MESHTASTIC_ATTACHMENT_SET_PRESET; preset]
  end.

(** The encoder of a message's type. *)
Definition attachment_encode (m : attachment_msg) (out : option Z) : res (list Z) :=
  match m with
  | MsgRx r => meshtastic_attachment_encode_rx_frame r out
  | MsgTx t => meshtastic_attachment_encode_tx_frame t out
  | MsgResult r => meshtastic_attachment_encode_tx_result r out
  | MsgStatus s => meshtastic_attachment_encode_status s out
  | MsgPreset p => meshtastic_attachment_encode_set_preset p out
  | MsgCancel src id => meshtastic_attachment_encode_tx_cancel src id out
  | MsgPolicy f p => meshtastic_attachment_encode_set_policy f p out
  end.

(** ** Decoder, one branch of the switch each *)
Definition decode_rx_frame (env : list Z) : res attachment_msg :=
  let len := Zlen env in
  if (len <=? MESHTASTIC_ATTACHMENT_RX_HDR_LEN) ||
     (MESHTASTIC_ATTACHMENT_RX_HDR_LEN + MESHTASTIC_ATTACHMENT_WIRE_MAX <? len) then Fail EBADMSG
  else Val (MsgRx (RxFrame (byte_at env 1) (to_i16 (get_le16 2 env)) (to_i8 (byte_at env 4))
              (get_le32 5 env) (byte_at env 9) (drop 10 env))).

Definition decode_tx_frame (env : list Z) : res attachment_msg :=
  let len := Zlen env in
  let hdr := if (2 <? len) && has_flag (byte_at env 2) MESHTASTIC_ATTACHMENT_TXF_RELAY
             then MESHTASTIC_ATTACHMENT_TX_RELAY_HDR_LEN else MESHTASTIC_ATTACHMENT_TX_HDR_LEN in
  if (len <=? hdr) || (hdr + MESHTASTIC_ATTACHMENT_WIRE_MAX <? len) then Fail EBADMSG
  else
    let relay := hdr =? MESHTASTIC_ATTACHMENT_TX_RELAY_HDR_LEN in
    Val (MsgTx (TxFrame (byte_at env 1) (byte_at env 2) (get_le16 3 env)
           (if relay then get_le32 5 env else 0) (if relay then get_le32 9 env else 0)
           (if relay then get_le32 13 env else 0) (if relay then get_le32 17 env else 0)
           (if relay then byte_at env 21 else 0) (drop (Z.to_nat hdr) env))).

Definition decode_tx_result (env : list Z) : res attachment_msg :=
  let len := Zlen env in
  if len <? MESHTASTIC_ATTACHMENT_TX_RESULT_LEN then Fail EBADMSG
  else
    let has_lag := MESHTASTIC_ATTACHMENT_TX_RESULT_LAG_LEN <=? len in
    Val (MsgResult (TxResult (get_le16 1 env) (to_i8 (byte_at env 3)) (byte_at env 4)
           (get_le32 5 env) has_lag (if has_lag then get_le16 9 env else 0))).

Definition decode_status (env : list Z) : res attachment_msg :=
  let len := Zlen env in
  if len <? MESHTASTIC_ATTACHMENT_STATUS_LEN then Fail EBADMSG
  else
    let pos := has_flag (byte_at env 2) MESHTASTIC_ATTACHMENT_ST_HAS_POS in
    if pos && (len <? MESHTASTIC_ATTACHMENT_STATUS_POS_LEN) then Fail EBADMSG
    else Val (MsgStatus (Status (byte_at env 1) (byte_at env 2) (get_le32 3 env) (get_le32 7 env)
           (get_le32 11 env) (get_le32 15 env) (get_le32 19 env) (get_le32 23 env)
           (if pos then to_i32 (get_le32 27 env) else 0)
           (if pos then to_i32 (get_le32 31 env) else 0)
           (if pos then to_i32 (get_le32 35 env) else 0))).

Definition meshtastic_attachment_decode (env : list Z) : res attachment_msg :=
  let len := Zlen env in
  if len <? 1 then Fail EINVAL
  else
    let t := byte_at env 0 in
    if t =? MESHTASTIC_ATTACHMENT_RX_FRAME then decode_rx_frame env
    else if t =? MESHTASTIC_ATTACHMENT_TX_FRAME then decode_tx_frame env
    else if t =? MESHTASTIC_ATTACHMENT_TX_CANCEL then
      if len <? MESHTASTIC_ATTACHMENT_TX_CANCEL_LEN then Fail EBADMSG
      else Val (MsgCancel (get_le32 1 env) (get_le32 5 env))
    else if t =? MESHTASTIC_ATTACHMENT_SET_POLICY then
      if len <? MESHTASTIC_ATTACHMENT_SET_POLICY_LEN then Fail EBADMSG
      else Val (MsgPolicy (byte_at env 1) (to_i8 (byte_at env 2)))
    else if t =? MESHTASTIC_ATTACHMENT_TX_RESULT then decode_tx_result env
    else if t =? MESHTASTIC_ATTACHMENT_STATUS then decode_status env
    else if t =? MESHTASTIC_ATTACHMENT_SET_PRESET then
      if len <? MESHTASTIC_ATTACHMENT_SET_PRESET_LEN then Fail EBADMSG
      else Val (MsgPreset (byte_at env 1))
    else Fail EBADMSG.

(** ** Types *)
Definition msg_typed (m : attachment_msg) : Prop :=
  match m with
  | MsgRx r => in_u8 (rf_preset r) /\ in_i16 (rf_rssi r) /\ in_i8 (rf_snr r) /\
      in_u32 (rf_rx_ms r) /\ in_u8 (rf_flags r) /\ bytes_ok (rf_wire r) /\
      1 <= Zlen (rf_wire r) <= MESHTASTIC_ATTACHMENT_WIRE_MAX
  | MsgTx t => in_u8 (tf_preset t) /\ in_u8 (tf_flags t) /\ in_u16 (tf_tx_seq t) /\
      in_u32 (tf_relay_src t) /\ in_u32 (tf_relay_id t) /\ in_u32 (tf_rx_ms t) /\
      in_u32 (tf_not_before_ms t) /\ in_u8 (tf_dupe t) /\ bytes_ok (tf_wire t) /\
      1 <= Zlen (tf_wire t) <= MESHTASTIC_ATTACHMENT_WIRE_MAX /\
      (has_flag (tf_flags t) MESHTASTIC_ATTACHMENT_TXF_RELAY = false ->
       tf_relay_src t = 0 /\ tf_relay_id t = 0 /\ tf_rx_ms t = 0 /\ tf_not_before_ms t = 0 /\ tf_dupe t = 0)
  | MsgResult r => in_u16 (tr_tx_seq r) /\ in_i8 (tr_rc r) /\ in_u8 (tr_defers r) /\
      in_u32 (tr_tx_ms r) /\ in_u16 (tr_lag_ms r) /\ (tr_has_lag r = false -> tr_lag_ms r = 0)
  | MsgStatus s => in_u8 (st_preset s) /\ in_u8 (st_flags s) /\ in_u32 (st_hwid s) /\
      in_u32 (st_brain s) /\ in_u32 (st_rx_frames s) /\ in_u32 (st_tx_frames s) /\
      in_u32 (st_uptime_s s) /\ in_u32 (st_rx_dropped s) /\
      in_i32 (st_lat s) /\ in_i32 (st_lon s) /\ in_i32 (st_alt s) /\
      (has_flag (st_flags s) MESHTASTIC_ATTACHMENT_ST_HAS_POS = false ->
       st_lat s = 0 /\ st_lon s = 0 /\ st_alt s = 0)
  | MsgPreset p => in_u8 p
  | MsgCancel src id => in_u32 src /\ in_u32 id
  | MsgPolicy f p => in_u8 f /\ in_i8 p
  end.

Lemma to_i8_ok z : in_i8 (to_i8 z).
Proof. by apply to_signed_range. Qed.
Lemma to_i16_ok z : in_i16 (to_i16 z).
Proof. by apply to_signed_range. Qed.
Lemma to_i32_ok z : in_i32 (to_i32 z).
Proof. rewrite to_i32_signed. by apply to_signed_range. Qed.
Lemma zero_i32 : in_i32 0.
Proof. by vm_compute. Qed.
Lemma zero_u32 : in_u32 0.
Proof. by vm_compute. Qed.
#[local] Hint Resolve to_i8_ok to_i16_ok to_i32_ok zero_i32 zero_u32 : wire.

Lemma drop_bytes_ok n l : bytes_ok l -> bytes_ok (drop n l).
Proof. apply Forall_drop. Qed.
#[local] Hint Resolve drop_bytes_ok : wire.

Lemma decode_rx_typed env m : bytes_ok env -> decode_rx_frame env = Val m -> msg_typed m.
Proof.
  unfold decode_rx_frame. intros Hb Hd. branches; try discriminate. injection Hd as <-.
  unfold MESHTASTIC_ATTACHMENT_RX_HDR_LEN, MESHTASTIC_ATTACHMENT_WIRE_MAX in *.
  unfold msg_typed. cbn [rf_preset rf_rssi rf_snr rf_rx_ms rf_flags rf_wire].
  unfold MESHTASTIC_ATTACHMENT_WIRE_MAX. rewrite length_drop.
  repeat (split; [by auto with wire|]). lia.
Qed.

Lemma decode_tx_eq env m :
  decode_tx_frame env = Val m ->
  let relay := has_flag (byte_at env 2) MESHTASTIC_ATTACHMENT_TXF_RELAY in
  let hdr := tx_hdr_len (byte_at env 2) in
  hdr < Zlen env <= hdr + MESHTASTIC_ATTACHMENT_WIRE_MAX /\
  m = MsgTx (TxFrame (byte_at env 1) (byte_at env 2) (get_le16 3 env)
           (if relay then get_le32 5 env else 0) (if relay then get_le32 9 env else 0)
           (if relay then get_le32 13 env else 0) (if relay then get_le32 17 env else 0)
           (if relay then byte_at env 21 else 0) (drop (Z.to_nat hdr) env)).
Proof.
  unfold decode_tx_frame, tx_hdr_len. intros Hd.
  destruct (2 <? Zlen env) eqn:E2; cbn [andb] in Hd.
  - destruct (has_flag (byte_at env 2) MESHTASTIC_ATTACHMENT_TXF_RELAY); cbn -[drop Z.leb Z.ltb] in Hd |- *;
      branches; try discriminate; injection Hd as <-; (split; [lia | done]).
  - bools. replace (Zlen env <=? MESHTASTIC_ATTACHMENT_TX_HDR_LEN) with true in Hd; [done|].
    symmetry. apply Z.leb_le. unfold MESHTASTIC_ATTACHMENT_TX_HDR_LEN. lia.
Qed.

Lemma decode_tx_typed env m : bytes_ok env -> decode_tx_frame env = Val m -> msg_typed m.
Proof.
  intros Hb [Hlen ->]%decode_tx_eq. revert Hlen. unfold tx_hdr_len, msg_typed.
  cbn [tf_preset tf_flags tf_tx_seq tf_relay_src tf_relay_id tf_rx_ms tf_not_before_ms tf_dupe tf_wire].
  unfold MESHTASTIC_ATTACHMENT_TX_RELAY_HDR_LEN, MESHTASTIC_ATTACHMENT_TX_HDR_LEN,
    MESHTASTIC_ATTACHMENT_WIRE_MAX.
  destruct (has_flag _ _); intros Hlen; rewrite !length_drop;
    repeat (split; [by auto with wire || lia|]); [done | by auto].
Qed.

Lemma decode_result_typed env m : bytes_ok env -> decode_tx_result env = Val m -> msg_typed m.
Proof.
  unfold decode_tx_result. intros Hb Hd. destruct (_ <? _); [done|]. injection Hd as <-. simpl.
  destruct (_ <=? _); repeat (split; [by auto with wire|]); by auto with wire.
Qed.

Lemma decode_status_typed env m : bytes_ok env -> decode_status env = Val m -> msg_typed m.
Proof.
  unfold decode_status. intros Hb Hd. destruct (_ <? _); [done|].
  destruct (has_flag _ _) eqn:E; [destruct (_ <? _); [done|]|]; injection Hd as <-; simpl;
    repeat (split; [by auto with wire|]); [by rewrite E | done].
Qed.

(** A message the decoder accepts has every field in its C type and a wire within the bounds. *)
Lemma attachment_decode_typed (env : list Z) (m : attachment_msg) :
  bytes_ok env -> meshtastic_attachment_decode env = Val m -> msg_typed m.
Proof.
  intros Hb. unfold meshtastic_attachment_decode.
  destruct (_ <? 1); [done|].
  destruct (_ =? MESHTASTIC_ATTACHMENT_RX_FRAME); [by apply decode_rx_typed|].
  destruct (_ =? MESHTASTIC_ATTACHMENT_TX_FRAME); [by apply decode_tx_typed|].
  destruct (_ =? MESHTASTIC_ATTACHMENT_TX_CANCEL); [destruct (_ <? _); [done|]|].
  { intros [= <-]. split; by auto with wire. }
  destruct (_ =? MESHTASTIC_ATTACHMENT_SET_POLICY); [destruct (_ <? _); [done|]|].
  { intros [= <-]. split; by auto with wire. }
  destruct (_ =? MESHTASTIC_ATTACHMENT_TX_RESULT); [by apply decode_result_typed|].
  destruct (_ =? MESHTASTIC_ATTACHMENT_STATUS); [by apply decode_status_typed|].
  destruct (_ =? MESHTASTIC_ATTACHMENT_SET_PRESET); [destruct (_ <? _); [done|] | done].
  intros [= <-]. simpl. by auto with wire.
Qed.

(** ** Round trip *)
Definition msg_len (m : attachment_msg) : Z :=
  match m with
  | MsgRx r => MESHTASTIC_ATTACHMENT_RX_HDR_LEN + Zlen (rf_wire r)
  | MsgTx t => tx_hdr_len (tf_flags t) + Zlen (tf_wire t)
  | MsgResult r => if tr_has_lag r then MESHTASTIC_ATTACHMENT_TX_RESULT_LAG_LEN
                   else MESHTASTIC_ATTACHMENT_TX_RESULT_LEN
  | MsgStatus s => if has_flag (st_flags s) MESHTASTIC_ATTACHMENT_ST_HAS_POS
                   then MESHTASTIC_ATTACHMENT_STATUS_POS_LEN else MESHTASTIC_ATTACHMENT_STATUS_LEN
  | MsgPreset _ => MESHTASTIC_ATTACHMENT_SET_PRESET_LEN
  | MsgCancel _ _ => MESHTASTIC_ATTACHMENT_TX_CANCEL_LEN
  | MsgPolicy _ _ => MESHTASTIC_ATTACHMENT_SET_POLICY_LEN
  end.

(** A later sender may append to a message of fixed layout: all that do not end in a
    wire. A result without its lag is the older layout of one with it. *)
Definition appendable (m : attachment_msg) : Prop :=
  match m with
  | MsgRx _ | MsgTx _ => False
  | MsgResult r => tr_has_lag r = true
  | _ => True
  end.

Lemma rd16 z : in_u16 z -> le_get (put_le16 z) = z.
Proof. unfold in_u16, UINT16_MAX. intros Hz. apply (le_get_put 2). simpl. lia. Qed.
Lemma rd32 z : in_u32 z -> le_get (put_le32 z) = z.
Proof. unfold in_u32, UINT32_MAX. intros Hz. apply (le_get_put 4). simpl. lia. Qed.
Lemma rdi8 z : in_i8 z -> to_i8 (u8 z) = z.
Proof. by apply to_signed_wrap. Qed.
Lemma rdi16 z : in_i16 z -> to_i16 (le_get (put_le16 (u16 z))) = z.
Proof.
  intros Hz. rewrite rd16; [by apply to_signed_wrap|]. pose proof (u16_range z).
  unfold in_u16, UINT16_MAX. lia.
Qed.
Lemma rdi32 z : in_i32 z -> to_i32 (le_get (put_le32 (u32 z))) = z.
Proof.
  intros Hz. rewrite rd32; [rewrite to_i32_signed; by apply to_signed_wrap|]. pose proof (u32_range z).
  unfold in_u32, UINT32_MAX. lia.
Qed.

Lemma Zlen_cons {A} (x : A) l : Zlen (x :: l) = 1 + Zlen l.
Proof. simpl length. lia. Qed.

Lemma decode_encoded_rx r n :
  msg_typed (MsgRx r) -> msg_len (MsgRx r) <= n ->
  exists env, meshtastic_attachment_encode_rx_frame r (Some n) = Val env /\
    Zlen env = msg_len (MsgRx r) /\ meshtastic_attachment_decode env = Val (MsgRx r).
Proof.
  intros (Hp & Hr & Hs & Hm & Hf & Hw & Hl) Hn.
  unfold msg_len, meshtastic_attachment_encode_rx_frame in *.
  unfold MESHTASTIC_ATTACHMENT_RX_HDR_LEN, MESHTASTIC_ATTACHMENT_WIRE_MAX in *.
  replace (_ =? 0) with false by (symmetry; apply Z.eqb_neq; lia).
  replace (_ <? Zlen _) with false by (symmetry; apply Z.ltb_ge; lia).
  replace (n <? _) with false by (symmetry; apply Z.ltb_ge; lia).
  eexists. split; [reflexivity|].
  set (env := [_; _] ++ _).
  assert (He : Zlen env = 10 + Zlen (rf_wire r)).
  { unfold env. rewrite !length_app, !length_le_put. simpl length. lia. }
  split; [done|]. unfold meshtastic_attachment_decode.
  replace (_ <? 1) with false by (symmetry; apply Z.ltb_ge; lia).
  change (byte_at env 0) with MESHTASTIC_ATTACHMENT_RX_FRAME. rewrite Z.eqb_refl.
  unfold decode_rx_frame. rewrite He.
  unfold MESHTASTIC_ATTACHMENT_RX_HDR_LEN, MESHTASTIC_ATTACHMENT_WIRE_MAX.
  replace (_ <=? 10) with false by (symmetry; apply Z.leb_gt; lia).
  replace (10 + 255 <? _) with false by (symmetry; apply Z.ltb_ge; lia).
  change (to_i16 (get_le16 2 env)) with (to_i16 (le_get (put_le16 (u16 (rf_rssi r))))).
  change (get_le32 5 env) with (le_get (put_le32 (rf_rx_ms r))).
  change (byte_at env 4) with (u8 (rf_snr r)).
  rewrite rdi16, rdi8, rd32 by done. by destruct r.
Qed.

Lemma decode_tx_relay pr fl sq rs ri rm nb du w :
  has_flag fl MESHTASTIC_ATTACHMENT_TXF_RELAY = true -> 1 <= Zlen w <= 255 ->
  in_u16 sq -> in_u32 rs -> in_u32 ri -> in_u32 rm -> in_u32 nb ->
  let env := [MESHTASTIC_ATTACHMENT_TX_FRAME; pr; fl] ++ put_le16 sq ++
             (put_le32 rs ++ put_le32 ri ++ put_le32 rm ++ put_le32 nb ++ [du]) ++ w in
  Zlen env = 22 + Zlen w /\ decode_tx_frame env = Val (MsgTx (TxFrame pr fl sq rs ri rm nb du w)).
Proof.
  intros Er Hl Hs Hrs Hri Hrm Hnb env.
  assert (He : Zlen env = 22 + Zlen w).
  { unfold env. rewrite !length_app, !length_le_put. simpl length. lia. }
  split; [done|]. unfold decode_tx_frame. rewrite He. change (byte_at env 2) with fl. rewrite Er.
  unfold MESHTASTIC_ATTACHMENT_WIRE_MAX, MESHTASTIC_ATTACHMENT_TX_RELAY_HDR_LEN.
  replace (2 <? 22 + Zlen w) with true by (symmetry; apply Z.ltb_lt; lia). cbn [andb].
  replace (22 + Zlen w <=? 22) with false by (symmetry; apply Z.leb_gt; lia).
  replace (22 + 255 <? 22 + Zlen w) with false by (symmetry; apply Z.ltb_ge; lia).
  cbn [orb Z.eqb Pos.eqb].
  change (get_le16 3 env) with (le_get (put_le16 sq)).
  change (get_le32 5 env) with (le_get (put_le32 rs)).
  change (get_le32 9 env) with (le_get (put_le32 ri)).
  change (get_le32 13 env) with (le_get (put_le32 rm)).
  change (get_le32 17 env) with (le_get (put_le32 nb)).
  rewrite rd16, !rd32 by done. reflexivity.
Qed.

Lemma decode_tx_own pr fl sq w :
  has_flag fl MESHTASTIC_ATTACHMENT_TXF_RELAY = false -> 1 <= Zlen w <= 255 -> in_u16 sq ->
  let env := [MESHTASTIC_ATTACHMENT_TX_FRAME; pr; fl] ++ put_le16 sq ++ [] ++ w in
  Zlen env = 5 + Zlen w /\ decode_tx_frame env = Val (MsgTx (TxFrame pr fl sq 0 0 0 0 0 w)).
Proof.
  intros Er Hl Hs env.
  assert (He : Zlen env = 5 + Zlen w).
  { unfold env. rewrite !length_app, !length_le_put. simpl length. lia. }
  split; [done|]. unfold decode_tx_frame. rewrite He. change (byte_at env 2) with fl.
  rewrite Er, andb_false_r. unfold MESHTASTIC_ATTACHMENT_WIRE_MAX, MESHTASTIC_ATTACHMENT_TX_HDR_LEN.
  replace (5 + Zlen w <=? 5) with false by (symmetry; apply Z.leb_gt; lia).
  replace (5 + 255 <? 5 + Zlen w) with false by (symmetry; apply Z.ltb_ge; lia).
  change (5 =? MESHTASTIC_ATTACHMENT_TX_RELAY_HDR_LEN) with false. cbn [orb].
  change (get_le16 3 env) with (le_get (put_le16 sq)). rewrite rd16 by done. reflexivity.
Qed.

Lemma decode_tx_dispatch env :
  0 < Zlen env -> byte_at env 0 = MESHTASTIC_ATTACHMENT_TX_FRAME ->
  meshtastic_attachment_decode env = decode_tx_frame env.
Proof.
  intros Hl Ht. unfold meshtastic_attachment_decode. rewrite Ht.
  by replace (Zlen env <? 1) with false by (symmetry; apply Z.ltb_ge; lia).
Qed.

Lemma decode_encoded_tx t n :
  msg_typed (MsgTx t) -> msg_len (MsgTx t) <= n ->
  exists env, meshtastic_attachment_encode_tx_frame t (Some n) = Val env /\
    Zlen env = msg_len (MsgTx t) /\ meshtastic_attachment_decode env = Val (MsgTx t).
Proof.
  intros (Hp & Hf & Hs & Hrs & Hri & Hrm & Hnb & Hd & Hw & Hl & Hz) Hn.
  unfold msg_len, meshtastic_attachment_encode_tx_frame, MESHTASTIC_ATTACHMENT_WIRE_MAX in *.
  replace (_ =? 0) with false by (symmetry; apply Z.eqb_neq; lia).
  replace (_ <? Zlen _) with false by (symmetry; apply Z.ltb_ge; lia).
  replace (n <? _) with false by (symmetry; apply Z.ltb_ge; lia).
  eexists. split; [reflexivity|]. clear Hn. unfold tx_hdr_len.
  destruct t as [pr fl sq rs ri rm nb du w].
  cbn [tf_preset tf_flags tf_tx_seq tf_relay_src tf_relay_id tf_rx_ms tf_not_before_ms tf_dupe tf_wire] in *.
  destruct (has_flag fl MESHTASTIC_ATTACHMENT_TXF_RELAY) eqn:Er.
  - destruct (decode_tx_relay pr fl sq rs ri rm nb du w) as [El Ed]; try done.
    split; [exact El|]. rewrite decode_tx_dispatch; [exact Ed | simpl length; lia | done].
  - destruct (Hz eq_refl) as (-> & -> & -> & -> & ->).
    destruct (decode_tx_own pr fl sq w) as [El Ed]; try done.
    split; [exact El|]. rewrite decode_tx_dispatch; [exact Ed | simpl length; lia | done].
Qed.

(** The types of fixed layout, with whatever a later sender appends. *)
Lemma decode_encoded_result r n ext :
  msg_typed (MsgResult r) -> msg_len (MsgResult r) <= n -> (tr_has_lag r = false -> (length ext <= 1)%nat) ->
  exists env, meshtastic_attachment_encode_tx_result r (Some n) = Val env /\
    Zlen env = msg_len (MsgResult r) /\ meshtastic_attachment_decode (env ++ ext) = Val (MsgResult r).
Proof.
  intros (Hs & Hr & Hd & Hm & Hl & Hz) Hn Hx. destruct r as [sq rc df ms lag lms].
  cbn [tr_tx_seq tr_rc tr_defers tr_tx_ms tr_has_lag tr_lag_ms msg_len] in *.
  unfold meshtastic_attachment_encode_tx_result, MESHTASTIC_ATTACHMENT_TX_RESULT_LEN,
    MESHTASTIC_ATTACHMENT_TX_RESULT_LAG_LEN in *.
  replace (n <? 9) with false by (symmetry; apply Z.ltb_ge; destruct lag; lia).
  destruct lag; cbn [tr_tx_seq tr_rc tr_defers tr_tx_ms tr_has_lag tr_lag_ms andb].
  - replace (11 <=? n) with true by (symmetry; apply Z.leb_le; lia).
    eexists. split; [reflexivity|]. split; [done|]. set (env := (_ ++ _) ++ ext).
    assert (He : Zlen env = 11 + Zlen ext) by (unfold env; rewrite !length_app, !length_le_put; simpl length; lia).
    change (meshtastic_attachment_decode env) with (if Zlen env <? 1 then Fail EINVAL else decode_tx_result env).
    unfold decode_tx_result, MESHTASTIC_ATTACHMENT_TX_RESULT_LEN, MESHTASTIC_ATTACHMENT_TX_RESULT_LAG_LEN.
    rewrite He. replace (_ <? 1) with false by (symmetry; apply Z.ltb_ge; lia).
    replace (_ <? 9) with false by (symmetry; apply Z.ltb_ge; lia).
    replace (11 <=? _) with true by (symmetry; apply Z.leb_le; lia).
    change (get_le16 1 env) with (le_get (put_le16 sq)).
    change (byte_at env 3) with (u8 rc). change (get_le32 5 env) with (le_get (put_le32 ms)).
    change (get_le16 9 env) with (le_get (put_le16 lms)).
    rewrite !rd16, rd32, rdi8 by done. reflexivity.
  - rewrite (Hz eq_refl). specialize (Hx eq_refl). eexists. split; [reflexivity|]. split; [done|].
    set (env := _ ++ ext).
    assert (He : Zlen env = 9 + Zlen ext) by (unfold env; rewrite !length_app, !length_le_put; simpl length; lia).
    change (meshtastic_attachment_decode env) with (if Zlen env <? 1 then Fail EINVAL else decode_tx_result env).
    unfold decode_tx_result, MESHTASTIC_ATTACHMENT_TX_RESULT_LEN, MESHTASTIC_ATTACHMENT_TX_RESULT_LAG_LEN.
    rewrite He. replace (_ <? 1) with false by (symmetry; apply Z.ltb_ge; lia).
    replace (_ <? 9) with false by (symmetry; apply Z.ltb_ge; lia).
    replace (11 <=? _) with false by (symmetry; apply Z.leb_gt; lia).
    change (get_le16 1 env) with (le_get (put_le16 sq)).
    change (byte_at env 3) with (u8 rc). change (get_le32 5 env) with (le_get (put_le32 ms)).
    rewrite rd16, rd32, rdi8 by done. reflexivity.
Qed.

Lemma decode_encoded_status s n ext :
  msg_typed (MsgStatus s) -> msg_len (MsgStatus s) <= n ->
  exists env, meshtastic_attachment_encode_status s (Some n) = Val env /\
    Zlen env = msg_len (MsgStatus s) /\ meshtastic_attachment_decode (env ++ ext) = Val (MsgStatus s).
Proof.
  intros (Hp & Hf & Hh & Hb & Hrx & Htx & Hu & Hd & Hla & Hlo & Hal & Hz) Hn.
  destruct s as [pr fl hw br rx tx up dr lat lon alt].
  cbn [st_preset st_flags st_hwid st_brain st_rx_frames st_tx_frames st_uptime_s st_rx_dropped
       st_lat st_lon st_alt msg_len] in *.
  unfold meshtastic_attachment_encode_status.
  cbn [st_preset st_flags st_hwid st_brain st_rx_frames st_tx_frames st_uptime_s st_rx_dropped
       st_lat st_lon st_alt].
  destruct (has_flag fl MESHTASTIC_ATTACHMENT_ST_HAS_POS) eqn:Ef;
    (replace (n <? _) with false by (symmetry; apply Z.ltb_ge; lia));
    (eexists; split; [reflexivity|]; split; [done|]); set (env := (_ ++ _) ++ ext).
  - assert (He : Zlen env = 39 + Zlen ext) by (unfold env; rewrite !length_app, !length_le_put; simpl length; lia).
    change (meshtastic_attachment_decode env) with (if Zlen env <? 1 then Fail EINVAL else decode_status env).
    unfold decode_status, MESHTASTIC_ATTACHMENT_STATUS_LEN, MESHTASTIC_ATTACHMENT_STATUS_POS_LEN.
    change (byte_at env 2) with fl. rewrite He, Ef.
    replace (_ <? 1) with false by (symmetry; apply Z.ltb_ge; lia).
    replace (_ <? 27) with false by (symmetry; apply Z.ltb_ge; lia).
    replace (_ <? 39) with false by (symmetry; apply Z.ltb_ge; lia). cbn [andb].
    change (get_le32 3 env) with (le_get (put_le32 hw)). change (get_le32 7 env) with (le_get (put_le32 br)).
    change (get_le32 11 env) with (le_get (put_le32 rx)). change (get_le32 15 env) with (le_get (put_le32 tx)).
    change (get_le32 19 env) with (le_get (put_le32 up)). change (get_le32 23 env) with (le_get (put_le32 dr)).
    change (get_le32 27 env) with (le_get (put_le32 (u32 lat))).
    change (get_le32 31 env) with (le_get (put_le32 (u32 lon))).
    change (get_le32 35 env) with (le_get (put_le32 (u32 alt))).
    rewrite !rdi32, !rd32 by done. reflexivity.
  - destruct (Hz eq_refl) as (-> & -> & ->).
    assert (He : Zlen env = 27 + Zlen ext) by (unfold env; rewrite !length_app, !length_le_put; simpl length; lia).
    change (meshtastic_attachment_decode env) with (if Zlen env <? 1 then Fail EINVAL else decode_status env).
    unfold decode_status, MESHTASTIC_ATTACHMENT_STATUS_LEN.
    change (byte_at env 2) with fl. rewrite He, Ef.
    replace (_ <? 1) with false by (symmetry; apply Z.ltb_ge; lia).
    replace (_ <? 27) with false by (symmetry; apply Z.ltb_ge; lia). cbn [andb].
    change (get_le32 3 env) with (le_get (put_le32 hw)). change (get_le32 7 env) with (le_get (put_le32 br)).
    change (get_le32 11 env) with (le_get (put_le32 rx)). change (get_le32 15 env) with (le_get (put_le32 tx)).
    change (get_le32 19 env) with (le_get (put_le32 up)). change (get_le32 23 env) with (le_get (put_le32 dr)).
    rewrite !rd32 by done. reflexivity.
Qed.

Lemma decode_encoded_small m n ext :
  match m with MsgPreset _ | MsgCancel _ _ | MsgPolicy _ _ => True | _ => False end ->
  msg_typed m -> msg_len m <= n ->
  exists env, attachment_encode m (Some n) = Val env /\
    Zlen env = msg_len m /\ meshtastic_attachment_decode (env ++ ext) = Val m.
Proof.
  intros Hk Ht Hn. destruct m as [| | | |p|src id|f p]; try done; cbn [msg_len attachment_encode] in *;
    [unfold meshtastic_attachment_encode_set_preset | unfold meshtastic_attachment_encode_tx_cancel
    | unfold meshtastic_attachment_encode_set_policy];
    (replace (n <? _) with false by (symmetry; apply Z.ltb_ge; lia));
    (eexists; split; [reflexivity|]; split; [done|]); set (env := _ ++ ext).
  - assert (He : Zlen env = 2 + Zlen ext) by (unfold env; rewrite !length_app; simpl length; lia).
    change (meshtastic_attachment_decode env) with
      (if Zlen env <? 1 then Fail EINVAL else if Zlen env <? 2 then Fail EBADMSG else Val (MsgPreset p)).
    rewrite He. replace (_ <? 1) with false by (symmetry; apply Z.ltb_ge; lia).
    by replace (_ <? 2) with false by (symmetry; apply Z.ltb_ge; lia).
  - assert (He : Zlen env = 9 + Zlen ext) by (unfold env; rewrite !length_app, !length_le_put; simpl length; lia).
    change (meshtastic_attachment_decode env) with
      (if Zlen env <? 1 then Fail EINVAL else if Zlen env <? 9 then Fail EBADMSG
       else Val (MsgCancel (le_get (put_le32 src)) (le_get (put_le32 id)))).
    rewrite He, !rd32 by apply Ht. replace (_ <? 1) with false by (symmetry; apply Z.ltb_ge; lia).
    by replace (_ <? 9) with false by (symmetry; apply Z.ltb_ge; lia).
  - assert (He : Zlen env = 3 + Zlen ext) by (unfold env; rewrite !length_app; simpl length; lia).
    change (meshtastic_attachment_decode env) with
      (if Zlen env <? 1 then Fail EINVAL else if Zlen env <? 3 then Fail EBADMSG
       else Val (MsgPolicy f (to_i8 (u8 p)))).
    rewrite He, rdi8 by apply Ht. replace (_ <? 1) with false by (symmetry; apply Z.ltb_ge; lia).
    by replace (_ <? 3) with false by (symmetry; apply Z.ltb_ge; lia).
Qed.

Lemma carried m enc len (P : list Z -> Prop) ext :
  P [] -> (appendable m -> P ext) ->
  (forall x, P x -> exists env, enc = Val env /\ Zlen env = len /\
     meshtastic_attachment_decode (env ++ x) = Val m) ->
  exists env, enc = Val env /\ Zlen env = len /\ meshtastic_attachment_decode env = Val m /\
    (appendable m -> meshtastic_attachment_decode (env ++ ext) = Val m).
Proof.
  intros H0 Hx Hall. destruct (Hall [] H0) as (env & E & El & Ed). rewrite app_nil_r in Ed.
  exists env. split; [done|]. split; [done|]. split; [done|]. intros Ha.
  destruct (Hall ext (Hx Ha)) as (env' & E' & _ & Ed'). congruence.
Qed.

(** One byte short. *)
Lemma encode_short m :
  msg_typed m ->
  attachment_encode m (Some (msg_len m - 1)) =
  match m with
  | MsgResult r => if tr_has_lag r
                   then attachment_encode (MsgResult (TxResult (tr_tx_seq r) (tr_rc r) (tr_defers r)
                                            (tr_tx_ms r) false 0)) (Some 9)
                   else Fail EMSGSIZE
  | _ => Fail EMSGSIZE
  end.
Proof.
  intros Ht. destruct m as [r|t|r|s|p|src id|f p]; cbn [attachment_encode msg_len]; try done.
  - destruct Ht as (_ & _ & _ & _ & _ & _ & Hl). unfold meshtastic_attachment_encode_rx_frame.
    unfold MESHTASTIC_ATTACHMENT_WIRE_MAX in *.
    replace (_ =? 0) with false by (symmetry; apply Z.eqb_neq; lia).
    replace (255 <? _) with false by (symmetry; apply Z.ltb_ge; lia).
    by replace (_ <? _) with true by (symmetry; apply Z.ltb_lt; lia).
  - destruct Ht as (_ & _ & _ & _ & _ & _ & _ & _ & _ & Hl & _). unfold meshtastic_attachment_encode_tx_frame.
    unfold MESHTASTIC_ATTACHMENT_WIRE_MAX in *.
    replace (_ =? 0) with false by (symmetry; apply Z.eqb_neq; lia).
    replace (255 <? _) with false by (symmetry; apply Z.ltb_ge; lia). cbv zeta.
    by replace (_ <? _) with true by (symmetry; apply Z.ltb_lt; lia).
  - unfold meshtastic_attachment_encode_tx_result. by destruct (tr_has_lag r).
  - unfold meshtastic_attachment_encode_status. by destruct (has_flag _ _).
Qed.

(** Every message of every type is carried exactly: given room, it encodes to its
    length and decodes to itself, also when a later sender has appended fields to a
    type of fixed layout; a buffer one byte short is refused, except that a result sheds
    its lag and goes out in the older layout. *)
Theorem attachment_roundtrip (m : attachment_msg) (n : Z) (ext : list Z) :
  msg_typed m -> msg_len m <= n ->
  (exists env, attachment_encode m (Some n) = Val env /\ Zlen env = msg_len m /\
    meshtastic_attachment_decode env = Val m /\
    (appendable m -> meshtastic_attachment_decode (env ++ ext) = Val m)) /\
  (attachment_encode m (Some (msg_len m - 1)) =
   match m with
   | MsgResult r => if tr_has_lag r
                    then attachment_encode (MsgResult (TxResult (tr_tx_seq r) (tr_rc r) (tr_defers r)
                                             (tr_tx_ms r) false 0)) (Some 9)
                    else Fail EMSGSIZE
   | _ => Fail EMSGSIZE
   end).
Proof.
  intros Ht Hn. split; [|by apply encode_short].
  destruct m as [r|t|r|s|p|src id|f p]; cbn [attachment_encode].
  - destruct (decode_encoded_rx r n Ht Hn) as (env & E & El & Ed). exists env. naive_solver.
  - destruct (decode_encoded_tx t n Ht Hn) as (env & E & El & Ed). exists env. naive_solver.
  - apply (carried (MsgResult r) _ _ (fun x => tr_has_lag r = false -> (length x <= 1)%nat));
      [cbn; lia | intros Ha; simpl in Ha; congruence | intros x Hx; by apply decode_encoded_result].
  - apply (carried (MsgStatus s) _ _ (fun _ => True)); [done | done | intros x _; by apply decode_encoded_status].
  - apply (carried (MsgPreset p) _ _ (fun _ => True)); [done | done | intros x _; by apply (decode_encoded_small (MsgPreset p))].
  - apply (carried (MsgCancel src id) _ _ (fun _ => True)); [done | done | intros x _; by apply (decode_encoded_small (MsgCancel src id))].
  - apply (carried (MsgPolicy f p) _ _ (fun _ => True)); [done | done | intros x _; by apply (decode_encoded_small (MsgPolicy f p))].
Qed.

(** ** The decoder reads exactly the encoder's layout *)

(** What may follow a message: nothing after a wire, which runs to the end, one byte after a
    result without its lag, which two would be, and anything after the other layouts. *)
Definition tail_ok (m : attachment_msg) (ext : list Z) : Prop :=
  match m with
  | MsgRx _ | MsgTx _ => ext = []
  | MsgResult r => tr_has_lag r = false -> (length ext <= 1)%nat
  | _ => True
  end.

Lemma drop_byte i env : (i < length env)%nat -> drop i env = byte_at env i :: drop (S i) env.
Proof. intros [x Hx]%lookup_lt_is_Some. unfold byte_at. rewrite Hx. by apply drop_S. Qed.
Lemma drop_le n i j env : bytes_ok env -> j = (i + n)%nat -> (j <= length env)%nat ->
  drop i env = le_put n (get_le n i env) ++ drop j env.
Proof.
  intros Hb -> Hl. unfold get_le. rewrite <- (take_drop n (drop i env)) at 1. f_equal; [|by rewrite drop_drop].
  rewrite <- (le_put_get (take n (drop i env))) at 1 by (by apply Forall_take, Forall_drop).
  by rewrite length_take, length_drop, Nat.min_l by lia.
Qed.
Lemma wrap_to_signed w z : 0 < w -> 0 <= z < 2 ^ w -> wrap w (to_signed w z) = z.
Proof.
  intros Hw Hz. unfold to_signed. rewrite (wrap_small w z Hz). cbv zeta. destruct (_ <? _); [by apply wrap_small|].
  unfold wrap. replace (z - 2 ^ w) with (z + (-1) * 2 ^ w) by lia. rewrite Z.mod_add by (by apply Z.pow_nonzero; lia).
  by apply Z.mod_small.
Qed.
Lemma back8 env i : bytes_ok env -> u8 (to_i8 (byte_at env i)) = byte_at env i.
Proof. intros Hb. apply wrap_to_signed; [lia|]. pose proof (byte_at_ok env i Hb). unfold in_u8, UINT8_MAX in *. lia. Qed.
Lemma back16 env i : bytes_ok env -> u16 (to_i16 (get_le16 i env)) = get_le16 i env.
Proof. intros Hb. apply wrap_to_signed; [lia|]. by apply get_le_range. Qed.
Lemma back32 env i : bytes_ok env -> u32 (to_i32 (get_le32 i env)) = get_le32 i env.
Proof. intros Hb. rewrite to_i32_signed. apply wrap_to_signed; [lia|]. by apply get_le_range. Qed.

(** What the message [m] read from [env] encodes to is a prefix of [env]. *)
Definition read_off (env : list Z) (m : attachment_msg) : Prop :=
  exists body ext, attachment_encode m (Some (msg_len m)) = Val body /\ env = body ++ ext /\ tail_ok m ext.

Lemma rx_read_off env m :
  bytes_ok env -> byte_at env 0 = MESHTASTIC_ATTACHMENT_RX_FRAME -> decode_rx_frame env = Val m -> read_off env m.
Proof.
  intros Hb H0 Hd. pose proof (decode_rx_typed env m Hb Hd) as Ht. unfold decode_rx_frame in Hd. branches; try discriminate.
  injection Hd as <-. destruct Ht as (_ & _ & _ & _ & _ & _ & Hl). cbn [rf_wire] in Hl.
  unfold read_off, msg_len, attachment_encode, meshtastic_attachment_encode_rx_frame. cbn [rf_preset rf_rssi rf_snr rf_rx_ms rf_flags rf_wire].
  unfold MESHTASTIC_ATTACHMENT_RX_HDR_LEN, MESHTASTIC_ATTACHMENT_WIRE_MAX in *.
  replace (_ =? 0) with false by (symmetry; apply Z.eqb_neq; lia). rewrite (proj2 (Z.ltb_ge 255 _)), Z.ltb_irrefl by lia.
  eexists _, []. split; [reflexivity|]. split; [|done]. rewrite app_nil_r, back16, back8 by done. rewrite <- H0.
  rewrite <- (drop_0 env) at 1.
  by rewrite (drop_byte 0), (drop_byte 1), (drop_le 2 2 4), (drop_byte 4), (drop_le 4 5 9), (drop_byte 9) by (done || lia).
Qed.

Lemma tx_read_off env m :
  bytes_ok env -> byte_at env 0 = MESHTASTIC_ATTACHMENT_TX_FRAME -> decode_tx_frame env = Val m -> read_off env m.
Proof.
  intros Hb H0 [Hlen ->]%decode_tx_eq. unfold read_off, msg_len, attachment_encode, meshtastic_attachment_encode_tx_frame.
  cbn [tf_preset tf_flags tf_tx_seq tf_relay_src tf_relay_id tf_rx_ms tf_not_before_ms tf_dupe tf_wire]. revert Hlen. unfold tx_hdr_len.
  unfold MESHTASTIC_ATTACHMENT_TX_RELAY_HDR_LEN, MESHTASTIC_ATTACHMENT_TX_HDR_LEN, MESHTASTIC_ATTACHMENT_WIRE_MAX.
  destruct (has_flag _ _); intros Hlen; rewrite !length_drop; cbn [Z.to_nat Pos.to_nat Pos.iter_op Nat.add Init.Nat.add];
    (replace (_ =? 0) with false by (symmetry; apply Z.eqb_neq; lia)); rewrite (proj2 (Z.ltb_ge 255 _)), Z.ltb_irrefl by lia;
    eexists _, []; (split; [reflexivity|]); (split; [|done]); rewrite app_nil_r, <- H0; rewrite <- (drop_0 env) at 1.
  - by rewrite (drop_byte 0), (drop_byte 1), (drop_byte 2), (drop_le 2 3 5), (drop_le 4 5 9), (drop_le 4 9 13), (drop_le 4 13 17),
      (drop_le 4 17 21), (drop_byte 21) by (done || lia).
  - by rewrite (drop_byte 0), (drop_byte 1), (drop_byte 2), (drop_le 2 3 5) by (done || lia).
Qed.

Lemma result_read_off env m :
  bytes_ok env -> byte_at env 0 = MESHTASTIC_ATTACHMENT_TX_RESULT -> decode_tx_result env = Val m -> read_off env m.
Proof.
  intros Hb H0. unfold decode_tx_result, MESHTASTIC_ATTACHMENT_TX_RESULT_LEN, MESHTASTIC_ATTACHMENT_TX_RESULT_LAG_LEN.
  destruct (Z.ltb_spec (Zlen env) 9); [done|]. intros [= <-].
  unfold read_off, msg_len, attachment_encode, meshtastic_attachment_encode_tx_result.
  cbn [tr_tx_seq tr_rc tr_defers tr_tx_ms tr_has_lag tr_lag_ms].
  unfold MESHTASTIC_ATTACHMENT_TX_RESULT_LEN, MESHTASTIC_ATTACHMENT_TX_RESULT_LAG_LEN. rewrite back8, <- H0 by done.
  destruct (Z.leb_spec 11 (Zlen env)).
  - eexists _, (drop 11 env). split; [reflexivity|]. split; [|done]. rewrite <- (drop_0 env) at 1.
    by rewrite (drop_byte 0), (drop_le 2 1 3), (drop_byte 3), (drop_byte 4), (drop_le 4 5 9), (drop_le 2 9 11) by (done || lia).
  - eexists _, (drop 9 env). split; [reflexivity|]. split; [|cbn; rewrite length_drop; lia]. rewrite <- (drop_0 env) at 1.
    by rewrite (drop_byte 0), (drop_le 2 1 3), (drop_byte 3), (drop_byte 4), (drop_le 4 5 9) by (done || lia).
Qed.

Lemma status_read_off env m :
  bytes_ok env -> byte_at env 0 = MESHTASTIC_ATTACHMENT_STATUS -> decode_status env = Val m -> read_off env m.
Proof.
  intros Hb H0. unfold decode_status, MESHTASTIC_ATTACHMENT_STATUS_LEN, MESHTASTIC_ATTACHMENT_STATUS_POS_LEN.
  destruct (Z.ltb_spec (Zlen env) 27); [done|].
  destruct (has_flag _ _) eqn:Ef; cbn [andb]; [destruct (Z.ltb_spec (Zlen env) 39); [done|]|]; intros [= <-];
    unfold read_off, msg_len, attachment_encode, meshtastic_attachment_encode_status;
    cbn [st_preset st_flags st_hwid st_brain st_rx_frames st_tx_frames st_uptime_s st_rx_dropped st_lat st_lon st_alt];
    rewrite Ef, Z.ltb_irrefl, ?back32, <- H0 by done.
  - eexists _, (drop 39 env). split; [reflexivity|]. split; [|done]. rewrite <- (drop_0 env) at 1.
    by rewrite (drop_byte 0), (drop_byte 1), (drop_byte 2), (drop_le 4 3 7), (drop_le 4 7 11), (drop_le 4 11 15), (drop_le 4 15 19),
      (drop_le 4 19 23), (drop_le 4 23 27), (drop_le 4 27 31), (drop_le 4 31 35), (drop_le 4 35 39) by (done || lia).
  - eexists _, (drop 27 env). split; [reflexivity|]. split; [|done]. rewrite <- (drop_0 env) at 1.
    by rewrite (drop_byte 0), (drop_byte 1), (drop_byte 2), (drop_le 4 3 7), (drop_le 4 7 11), (drop_le 4 11 15), (drop_le 4 15 19),
      (drop_le 4 19 23), (drop_le 4 23 27) by (done || lia).
Qed.

Lemma decode_read_off env m : bytes_ok env -> meshtastic_attachment_decode env = Val m -> read_off env m.
Proof.
  intros Hb. unfold meshtastic_attachment_decode. destruct (Z.ltb_spec (Zlen env) 1); [done|].
  destruct (Z.eqb_spec (byte_at env 0) MESHTASTIC_ATTACHMENT_RX_FRAME) as [H0|_]; [by apply rx_read_off|].
  destruct (Z.eqb_spec (byte_at env 0) MESHTASTIC_ATTACHMENT_TX_FRAME) as [H0|_]; [by apply tx_read_off|].
  destruct (Z.eqb_spec (byte_at env 0) MESHTASTIC_ATTACHMENT_TX_CANCEL) as [H0|_].
  { destruct (Z.ltb_spec (Zlen env) MESHTASTIC_ATTACHMENT_TX_CANCEL_LEN) as [|Hl]; [done|]. unfold MESHTASTIC_ATTACHMENT_TX_CANCEL_LEN in Hl.
    intros [= <-]. exists ([byte_at env 0] ++ put_le32 (get_le32 1 env) ++ put_le32 (get_le32 5 env)), (drop 9 env).
    split; [by rewrite H0|]. split; [|done]. rewrite <- (drop_0 env) at 1.
    by rewrite (drop_byte 0), (drop_le 4 1 5), (drop_le 4 5 9) by (done || lia). }
  destruct (Z.eqb_spec (byte_at env 0) MESHTASTIC_ATTACHMENT_SET_POLICY) as [H0|_].
  { destruct (Z.ltb_spec (Zlen env) MESHTASTIC_ATTACHMENT_SET_POLICY_LEN) as [|Hl]; [done|]. unfold MESHTASTIC_ATTACHMENT_SET_POLICY_LEN in Hl.
    intros [= <-]. exists [byte_at env 0; byte_at env 1; byte_at env 2], (drop 3 env).
    split; [unfold attachment_encode, meshtastic_attachment_encode_set_policy; by rewrite back8, H0|].
    split; [|done]. rewrite <- (drop_0 env) at 1. by rewrite (drop_byte 0), (drop_byte 1), (drop_byte 2) by lia. }
  destruct (Z.eqb_spec (byte_at env 0) MESHTASTIC_ATTACHMENT_TX_RESULT) as [H0|_]; [by apply result_read_off|].
  destruct (Z.eqb_spec (byte_at env 0) MESHTASTIC_ATTACHMENT_STATUS) as [H0|_]; [by apply status_read_off|].
  destruct (Z.eqb_spec (byte_at env 0) MESHTASTIC_ATTACHMENT_SET_PRESET) as [H0|_]; [|done].
  destruct (Z.ltb_spec (Zlen env) MESHTASTIC_ATTACHMENT_SET_PRESET_LEN) as [|Hl]; [done|]. unfold MESHTASTIC_ATTACHMENT_SET_PRESET_LEN in Hl.
  intros [= <-]. exists [byte_at env 0; byte_at env 1], (drop 2 env). split; [by rewrite H0|].
  split; [|done]. rewrite <- (drop_0 env) at 1. by rewrite (drop_byte 0), (drop_byte 1) by lia.
Qed.

(** Any tail the layout allows is read over. *)
Lemma decode_over_tail m ext :
  msg_typed m -> tail_ok m ext ->
  exists body, attachment_encode m (Some (msg_len m)) = Val body /\ meshtastic_attachment_decode (body ++ ext) = Val m.
Proof.
  intros Ht Hx. destruct m as [r|t|r|s|p|src id|f p]; cbn [attachment_encode].
  - destruct (decode_encoded_rx r (msg_len (MsgRx r)) Ht ltac:(lia)) as (e & E & _ & Ed). exists e. cbn in Hx. by rewrite Hx, app_nil_r.
  - destruct (decode_encoded_tx t (msg_len (MsgTx t)) Ht ltac:(lia)) as (e & E & _ & Ed). exists e. cbn in Hx. by rewrite Hx, app_nil_r.
  - destruct (decode_encoded_result r (msg_len (MsgResult r)) ext Ht ltac:(lia) Hx) as (e & E & _ & Ed). by exists e.
  - destruct (decode_encoded_status s (msg_len (MsgStatus s)) ext Ht ltac:(lia)) as (e & E & _ & Ed). by exists e.
  - destruct (decode_encoded_small (MsgPreset p) (msg_len (MsgPreset p)) ext I Ht ltac:(lia)) as (e & E & _ & Ed). by exists e.
  - destruct (decode_encoded_small (MsgCancel src id) (msg_len (MsgCancel src id)) ext I Ht ltac:(lia)) as (e & E & _ & Ed). by exists e.
  - destruct (decode_encoded_small (MsgPolicy f p) (msg_len (MsgPolicy f p)) ext I Ht ltac:(lia)) as (e & E & _ & Ed). by exists e.
Qed.

Lemma decode_fails env e : meshtastic_attachment_decode env = Fail e -> e = if bool_decide (env = []) then EINVAL else EBADMSG.
Proof.
  unfold meshtastic_attachment_decode. destruct env as [|b env]; [by intros [= <-]|]. rewrite bool_decide_eq_false_2 by done.
  replace (Zlen (b :: env) <? 1) with false by (symmetry; apply Z.ltb_ge; rewrite Zlen_cons; lia).
  unfold decode_rx_frame, decode_tx_frame, decode_tx_result, decode_status. cbv zeta.
  intros H. repeat case_match; simplify_eq; done.
Qed.

(** C39: The decoder accepts exactly what the encoders write. Whatever bytes arrive, they decode
    to a message when, and only when, they are that message as its encoder lays it out, every
    field within its C type, followed by what the layout lets follow: nothing after a wire, at
    most one byte after a result without its lag, anything after the others. What is too short
    for its type, of no known type, or carries a wire of no bytes or more than 255 is refused,
    with a bad-message error, an empty buffer with an invalid-argument one. *)
Theorem attachment_decode_exact (env : list Z) :
  bytes_ok env ->
  (forall m, meshtastic_attachment_decode env = Val m <->
     msg_typed m /\ exists body ext, attachment_encode m (Some (msg_len m)) = Val body /\ env = body ++ ext /\ tail_ok m ext) /\
  (forall e, meshtastic_attachment_decode env = Fail e -> e = if bool_decide (env = []) then EINVAL else EBADMSG).
Proof.
  intros Hb. split; [|apply decode_fails]. intros m. split.
  - intros Hd. split; [by apply (attachment_decode_typed env) | by apply decode_read_off].
  - intros (Ht & body & ext & He & -> & Hx). destruct (decode_over_tail m ext Ht Hx) as (body' & E' & Hd). congruence.
Qed.

(** C40: The one envelope size both ends allow is too small for a relay: although a wire
    of up to 255 bytes is accepted everywhere, a relay of 250 bytes or more is refused
    by the encoder for lack of room, and an own frame or a report of that size is not. *)
Theorem relay_envelope_too_small (t : tx_frame) (r : rx_frame) :
  has_flag (tf_flags t) MESHTASTIC_ATTACHMENT_TXF_RELAY = true ->
  250 <= Zlen (tf_wire t) <= MESHTASTIC_ATTACHMENT_WIRE_MAX ->
  1 <= Zlen (rf_wire r) <= MESHTASTIC_ATTACHMENT_WIRE_MAX ->
  meshtastic_attachment_encode_tx_frame t (Some MESHTASTIC_ATTACHMENT_ENV_MAX) = Fail EMSGSIZE /\
  (exists env, meshtastic_attachment_encode_rx_frame r (Some MESHTASTIC_ATTACHMENT_ENV_MAX) = Val env) /\
  (exists env, meshtastic_attachment_encode_tx_frame
     (TxFrame (tf_preset t) 0 (tf_tx_seq t) 0 0 0 0 0 (tf_wire t)) (Some MESHTASTIC_ATTACHMENT_ENV_MAX) = Val env).
Proof.
  unfold MESHTASTIC_ATTACHMENT_ENV_MAX, MESHTASTIC_ATTACHMENT_WIRE_MAX, MESHTASTIC_ATTACHMENT_HDR_MAX.
  intros Hf Hl Hr. unfold meshtastic_attachment_encode_tx_frame, meshtastic_attachment_encode_rx_frame.
  unfold tx_hdr_len. rewrite Hf. cbn [tf_wire tf_flags].
  unfold MESHTASTIC_ATTACHMENT_WIRE_MAX, MESHTASTIC_ATTACHMENT_TX_RELAY_HDR_LEN,
    MESHTASTIC_ATTACHMENT_TX_HDR_LEN, MESHTASTIC_ATTACHMENT_RX_HDR_LEN.
  replace (Zlen (tf_wire t) =? 0) with false by (symmetry; apply Z.eqb_neq; lia).
  replace (Zlen (rf_wire r) =? 0) with false by (symmetry; apply Z.eqb_neq; lia).
  replace (255 <? Zlen (tf_wire t)) with false by (symmetry; apply Z.ltb_ge; lia).
  replace (255 <? Zlen (rf_wire r)) with false by (symmetry; apply Z.ltb_ge; lia).
  cbv zeta. split; [by replace (_ <? _) with true by (symmetry; apply Z.ltb_lt; lia)|].
  split; eexists.
  - by replace (_ <? _) with false by (symmetry; apply Z.ltb_ge; lia).
  - change (has_flag 0 MESHTASTIC_ATTACHMENT_TXF_RELAY) with false. cbn match.
    by replace (_ <? _) with false by (symmetry; apply Z.ltb_ge; lia).
Qed.

Definition relay0 (w : list Z) : tx_frame := TxFrame 3 5 513 305419896 77 100000 250 1 w.

Lemma attachment_decode_exact_witness :
  meshtastic_attachment_decode [8; 1; 253; 99] = Val (MsgPolicy 1 (-3)) /\
  exists body ext, attachment_encode (MsgPolicy 1 (-3)) (Some 3) = Val body /\ [8; 1; 253; 99] = body ++ ext /\
    tail_ok (MsgPolicy 1 (-3)) ext.
Proof.
  split; [reflexivity|]. apply (attachment_decode_exact [8; 1; 253; 99]); [|reflexivity].
  unfold bytes_ok. repeat (apply Forall_cons_2; [by vm_compute|]). apply Forall_nil_2.
Defined.

Lemma attachment_roundtrip_witness :
  exists env, meshtastic_attachment_encode_tx_frame (relay0 [1; 2; 3]) (Some 30) = Val env /\
    Zlen env = 25 /\ meshtastic_attachment_decode env = Val (MsgTx (relay0 [1; 2; 3])).
Proof.
  destruct (attachment_roundtrip (MsgTx (relay0 [1; 2; 3])) 30 []) as [(env & E & El & Ed & _) _].
  - repeat (split; [by vm_compute|]). split; [|split; [by vm_compute | by intros H; vm_compute in H]].
    unfold bytes_ok. repeat (apply Forall_cons_2; [by vm_compute|]). apply Forall_nil_2.
  - by vm_compute.
  - exists env. split; [exact E|]. split; [exact El | exact Ed].
Defined.

Lemma relay_envelope_too_small_witness :
  meshtastic_attachment_encode_tx_frame (relay0 (replicate 250 0)) (Some MESHTASTIC_ATTACHMENT_ENV_MAX) =
  Fail EMSGSIZE.
Proof.
  exact (proj1 (relay_envelope_too_small (relay0 (replicate 250 0)) (RxFrame 0 0 0 0 0 [1]) eq_refl
    ltac:(vm_compute; split; congruence) ltac:(vm_compute; split; congruence))).
Defined.
