(* ===== verification/StreamFrame.v ===== *)
(** * Stream framing (src/src/meshtastic_serial.c, src/src/meshtastic_tcp.c)

    The phone API over a byte stream: 0x94 0xc3, a big-endian length, the payload. The
    serial transport takes frames out of its receive ring, the TCP transport (and
    [meshtastic_serial_decode_byte]) runs a byte-wise state machine. A ring buffer is the
    list of the bytes in it, oldest first. *)
From S2P Require Import Prelude.
Open Scope Z_scope.

Definition MESHTASTIC_API_FRAME_MAX : Z := 512.
Definition MESHTASTIC_SERIAL_START1 : Z := 148.
Definition MESHTASTIC_SERIAL_START2 : Z := 195.
Definition MESHTASTIC_SERIAL_HEADER : Z := 4.
Definition MESHTASTIC_SERIAL_WIRE_MAX : Z := MESHTASTIC_API_FRAME_MAX + MESHTASTIC_SERIAL_HEADER.

(** ** Encoding: the bytes written, [[]] being the return value 0. *)
Definition meshtastic_serial_encode_frame (payload : list Z) (out_len : Z) : list Z :=
  if (MESHTASTIC_API_FRAME_MAX <? Zlen payload) || (out_len <? Zlen payload + MESHTASTIC_SERIAL_HEADER)
  then []
  else [MESHTASTIC_SERIAL_START1; MESHTASTIC_SERIAL_START2; u8 (Z.shiftr (Zlen payload) 8);
        u8 (Zlen payload)] ++ payload.

Definition tcp_encode_frame (payload : list Z) (out_len : Z) : list Z :=
  if (MESHTASTIC_API_FRAME_MAX <? Zlen payload) || (out_len <? Zlen payload + MESHTASTIC_SERIAL_HEADER)
  then []
  else [MESHTASTIC_SERIAL_START1; MESHTASTIC_SERIAL_START2; u8 (Z.shiftr (Zlen payload) 8);
        u8 (Zlen payload)] ++ payload.

(** ** The byte-wise parser *)
Inductive parse_state := WAIT_START1 | WAIT_START2 | LEN_HI | LEN_LO | PAYLOAD.
#[export] Instance parse_state_eq_dec : EqDecision parse_state.
Proof. solve_decision. Defined.

Record parser := Parser {
  px_state : parse_state;
  px_len : Z;
  px_pos : Z;
  px_payload : list Z;
}.
Definition set_px_state (v : parse_state) (r : parser) : parser :=
Parser v (px_len r) (px_pos r) (px_payload r).
Definition set_px_len (v : Z) (r : parser) : parser :=
Parser (px_state r) v (px_pos r) (px_payload r).
Definition set_px_pos (v : Z) (r : parser) : parser :=
Parser (px_state r) (px_len r) v (px_payload r).
Definition set_px_payload (v : list Z) (r : parser) : parser :=
Parser (px_state r) (px_len r) (px_pos r) v.

(** [tcp_rx_byte]; a payload handed to [meshtastic_phoneapi_handle_toradio] is returned. *)
Definition tcp_rx_byte (byte : Z) (p : parser) : parser * list (list Z) :=
  match px_state p with
  | WAIT_START1 =>
      (if byte =? MESHTASTIC_SERIAL_START1 then set_px_state WAIT_START2 p else p, [])
  | WAIT_START2 =>
      (if byte =? MESHTASTIC_SERIAL_START2 then set_px_state LEN_HI p
       else if byte =? MESHTASTIC_SERIAL_START1 then p
       else set_px_state WAIT_START1 p, [])
  | LEN_HI => (set_px_state LEN_LO (set_px_len (u16 (Z.shiftl byte 8)) p), [])
  | LEN_LO =>
      let len := Z.lor (px_len p) byte in
      let p1 := set_px_pos 0 (set_px_len len p) in
      (if MESHTASTIC_API_FRAME_MAX <? len then set_px_state WAIT_START1 p1
       else if len =? 0 then set_px_state WAIT_START1 p1
       else set_px_state PAYLOAD p1, [])
  | PAYLOAD =>
      let p1 := set_px_pos (u16 (px_pos p + 1))
                  (set_px_payload (buf_write (Z.to_nat (px_pos p)) [byte] (px_payload p)) p) in
      if px_pos p1 =? px_len p1
      then (set_px_state WAIT_START1 p1, [take (Z.to_nat (px_len p1)) (px_payload p1)])
      else (p1, [])
  end.

(** [meshtastic_serial_decode_byte], with the caller's buffer in [px_payload] and its size;
    [Val (Some n)] is the return value 1 with [*frame_len = n]. *)
Definition meshtastic_serial_decode_byte (byte payload_len : Z) (p : parser) : parser * res (option Z) :=
  match px_state p with
  | WAIT_START1 =>
      (if byte =? MESHTASTIC_SERIAL_START1 then set_px_state WAIT_START2 p else p, Val None)
  | WAIT_START2 =>
      (if byte =? MESHTASTIC_SERIAL_START2 then set_px_state LEN_HI p
       else if byte =? MESHTASTIC_SERIAL_START1 then p
       else set_px_state WAIT_START1 p, Val None)
  | LEN_HI => (set_px_state LEN_LO (set_px_len (u16 (Z.shiftl byte 8)) p), Val None)
  | LEN_LO =>
      let len := Z.lor (px_len p) byte in
      let p1 := set_px_pos 0 (set_px_len len p) in
      if (MESHTASTIC_API_FRAME_MAX <? len) || (payload_len <? len)
      then (set_px_state WAIT_START1 p1, Fail EMSGSIZE)
      else if len =? 0 then (set_px_state WAIT_START1 p1, Val (Some 0))
      else (set_px_state PAYLOAD p1, Val None)
  | PAYLOAD =>
      let p1 := set_px_pos (u16 (px_pos p + 1))
                  (set_px_payload (buf_write (Z.to_nat (px_pos p)) [byte] (px_payload p)) p) in
      if px_pos p1 =? px_len p1
      then (set_px_state WAIT_START1 p1, Val (Some (px_len p1)))
      else (p1, Val None)
  end.

(** The loop over what [zsock_recv] returned. *)
Fixpoint tcp_rx (bytes : list Z) (p : parser) : parser * list (list Z) :=
  match bytes with
  | [] => (p, [])
  | b :: bytes' =>
      let '(p1, o1) := tcp_rx_byte b p in
      let '(p2, o2) := tcp_rx bytes' p1 in (p2, o1 ++ o2)
  end.

(** ** The serial receive ring *)

(** [serial_rx_pop_frame]: [PopMore] is 0, [PopSkip] is -1, [PopFrame p] is 1 with the
    payload in [serial.rx_payload]; the ring that is left. *)
Inductive pop := PopMore | PopSkip | PopFrame (payload : list Z).

Definition serial_rx_pop_frame (rb : list Z) : list Z * pop :=
  let avail := Zlen rb in
  if avail <? MESHTASTIC_SERIAL_HEADER then (rb, PopMore)
  else if negb (byte_at rb 0 =? MESHTASTIC_SERIAL_START1) then (drop 1 rb, PopSkip)
  else if negb (byte_at rb 1 =? MESHTASTIC_SERIAL_START2) then (drop 1 rb, PopSkip)
  else
    let pkt_len := Z.lor (Z.shiftl (byte_at rb 2) 8) (byte_at rb 3) in
    if MESHTASTIC_API_FRAME_MAX <? pkt_len then (drop 1 rb, PopSkip)
    else
      let frame_len := MESHTASTIC_SERIAL_HEADER + pkt_len in
      if avail <? frame_len then (rb, PopMore)
      else (drop (Z.to_nat frame_len) rb, PopFrame (take (Z.to_nat pkt_len) (drop 4 rb))).

(** The loop of [rx_work_handler]: the payloads handed up. [None] is a loop that did not
    end within the fuel. *)
Fixpoint rx_work_loop (fuel : nat) (rb : list Z) : option (list Z * list (list Z)) :=
  match fuel with
  | O => None
  | S fuel' =>
      match serial_rx_pop_frame rb with
      | (rb', PopMore) => Some (rb', [])
      | (rb', PopSkip) => rx_work_loop fuel' rb'
      | (rb', PopFrame p) =>
          match rx_work_loop fuel' rb' with
          | Some (rb2, o) => Some (rb2, if Zlen p =? 0 then o else p :: o)
          | None => None
          end
      end
  end.

Record serial := Serial {
  sr_rb : list Z;
  sr_overflow : bool;
}.
Definition set_sr_rb (v : list Z) (r : serial) : serial :=
Serial v (sr_overflow r).
Definition set_sr_overflow (v : bool) (r : serial) : serial :=
Serial (sr_rb r) v.

Definition rx_work_handler (s : serial) : option (serial * list (list Z)) :=
  match rx_work_loop (S (length (sr_rb s))) (sr_rb s) with
  | Some (rb, out) => Some (Serial rb false, out)
  | None => None
  end.

(** [serial_isr_rx]: [space] is the contiguous space of the ring, [fifo] what the UART
    holds. The bytes left in the UART, and whether the work item was submitted. *)
Definition serial_isr_rx (space : nat) (fifo : list Z) (s : serial) : serial * list Z * bool :=
  match space with
  | O => (set_sr_overflow true s, [], false)
  | _ =>
      match take space fifo with
      | [] => (s, fifo, false)
      | got => (set_sr_rb (sr_rb s ++ got) s, drop space fifo, true)
      end
  end.

(** Bytes arriving in pieces, each followed by the receive work or the receive loop. *)
Fixpoint serial_rx_chunks (chunks : list (list Z)) (s : serial) : option (serial * list (list Z)) :=
  match chunks with
  | [] => Some (s, [])
  | c :: chunks' =>
      match rx_work_handler (set_sr_rb (sr_rb s ++ c) s) with
      | Some (s1, o1) =>
          match serial_rx_chunks chunks' s1 with
          | Some (s2, o2) => Some (s2, o1 ++ o2)
          | None => None
          end
      | None => None
      end
  end.

Fixpoint tcp_rx_chunks (chunks : list (list Z)) (p : parser) : parser * list (list Z) :=
  match chunks with
  | [] => (p, [])
  | c :: chunks' =>
      let '(p1, o1) := tcp_rx c p in
      let '(p2, o2) := tcp_rx_chunks chunks' p1 in (p2, o1 ++ o2)
  end.

(** ** The length field *)
Lemma be_len_add hi lo : 0 <= lo < 256 -> Z.lor (Z.shiftl hi 8) lo = lo + hi * 256.
Proof. intros Hl. rewrite Z.lor_comm. by apply (lor_shiftl_add lo hi 8). Qed.

Lemma be_len_of n : 0 <= n < 65536 -> u8 n + u8 (Z.shiftr n 8) * 256 = n.
Proof.
  intros Hn. rewrite Z.shiftr_div_pow2 by lia. change (2 ^ 8) with 256.
  assert (0 <= n / 256 < 256) by (split; [apply Z.div_pos | apply Z.div_lt_upper_bound]; lia).
  rewrite (u8_small (n / 256)) by lia. unfold wrap. change (2 ^ 8) with 256.
  pose proof (Z.div_mod n 256). lia.
Qed.

Lemma byte_at_range l i : bytes_ok l -> 0 <= byte_at l i < 256.
Proof. intros Hl. pose proof (byte_at_ok l i Hl) as Hb. unfold in_u8, UINT8_MAX in Hb. lia. Qed.

Lemma pkt_len_nonneg rb :
  bytes_ok rb -> 0 <= Z.lor (Z.shiftl (byte_at rb 2) 8) (byte_at rb 3).
Proof.
  intros Hb. pose proof (byte_at_range rb 2 Hb). pose proof (byte_at_range rb 3 Hb).
  rewrite be_len_add by lia. lia.
Qed.

(** ** The receive loop ends *)
Lemma pop_shrinks rb rb' r :
  bytes_ok rb -> serial_rx_pop_frame rb = (rb', r) ->
  bytes_ok rb' /\ match r with PopMore => rb' = rb | _ => (length rb' < length rb)%nat end.
Proof.
  intros Hb. pose proof (pkt_len_nonneg rb Hb) as Hp.
  unfold serial_rx_pop_frame, MESHTASTIC_SERIAL_HEADER. intros H.
  destruct (_ <? 4) eqn:E4; [by injection H as <- <-|]. bools.
  assert (Hd : bytes_ok (drop 1 rb) /\ (length (drop 1 rb) < length rb)%nat)
    by (split; [by apply Forall_drop | rewrite length_drop; lia]).
  branches; injection H as <- <-; try done. rewrite length_drop.
  set (pkt := Z.lor _ _) in *. split; [by apply Forall_drop | lia].
Qed.

(** Enough fuel gives the result, and more fuel the same one. *)
Lemma rx_work_loop_total fuel rb :
  bytes_ok rb -> (length rb < fuel)%nat ->
  exists rb' out, rx_work_loop fuel rb = Some (rb', out) /\ bytes_ok rb' /\
    forall fuel', (length rb < fuel')%nat -> rx_work_loop fuel' rb = Some (rb', out).
Proof.
  revert rb. induction fuel as [|fuel IH]; intros rb Hb Hf; [lia|].
  destruct (serial_rx_pop_frame rb) as [rb1 r] eqn:E.
  destruct (pop_shrinks rb rb1 r Hb E) as [Hb1 Hs].
  assert (Hmore : forall fuel', (length rb < fuel')%nat -> exists f, fuel' = S f /\ (length rb <= f)%nat)
    by (intros [|f] ?; [lia | exists f; split; [done | lia]]).
  destruct r as [| |p].
  - exists rb1, []. cbn [rx_work_loop]. rewrite E. split; [done|]. split; [done|].
    intros fuel' (f & -> & _)%Hmore. cbn [rx_work_loop]. by rewrite E.
  - destruct (IH rb1 Hb1 ltac:(lia)) as (rb' & out & E1 & Hb' & Hany). exists rb', out.
    cbn [rx_work_loop]. rewrite E. split; [done|]. split; [done|].
    intros fuel' (f & -> & ?)%Hmore. cbn [rx_work_loop]. rewrite E. apply Hany. lia.
  - destruct (IH rb1 Hb1 ltac:(lia)) as (rb' & out & E1 & Hb' & Hany). eexists rb', _.
    cbn [rx_work_loop]. rewrite E, E1. split; [done|]. split; [done|].
    intros fuel' (f & -> & ?)%Hmore. cbn [rx_work_loop]. by rewrite E, Hany by lia.
Qed.

(** The completed loop. *)
Definition rx_all (rb : list Z) : list Z * list (list Z) :=
  default (rb, []) (rx_work_loop (S (length rb)) rb).

Lemma rx_work_handler_all s :
  bytes_ok (sr_rb s) ->
  rx_work_handler s = Some (Serial (rx_all (sr_rb s)).1 false, (rx_all (sr_rb s)).2).
Proof.
  intros Hb. unfold rx_work_handler, rx_all.
  destruct (rx_work_loop_total (S (length (sr_rb s))) (sr_rb s) Hb ltac:(lia)) as (rb' & out & -> & _).
  done.
Qed.

Lemma rx_all_step rb :
  bytes_ok rb ->
  rx_all rb =
  match serial_rx_pop_frame rb with
  | (rb', PopMore) => (rb', [])
  | (rb', PopSkip) => rx_all rb'
  | (rb', PopFrame p) => let '(rb2, o) := rx_all rb' in (rb2, if Zlen p =? 0 then o else p :: o)
  end.
Proof.
  intros Hb. unfold rx_all at 1. cbn [rx_work_loop].
  destruct (serial_rx_pop_frame rb) as [rb1 r] eqn:E.
  destruct (pop_shrinks rb rb1 r Hb E) as [Hb1 Hs].
  destruct r as [| |p]; [done | |];
    (destruct (rx_work_loop_total (S (length rb1)) rb1 Hb1 ltac:(lia)) as (rb' & out & E1 & _ & Hany);
     unfold rx_all; rewrite E1, (Hany (length rb)) by lia; done).
Qed.

(** ** Arrival in pieces does not matter *)
Lemma pop_app rb more rb' r :
  bytes_ok rb -> serial_rx_pop_frame rb = (rb', r) -> r <> PopMore ->
  serial_rx_pop_frame (rb ++ more) = (rb' ++ more, r).
Proof.
  intros Hb H Hr. pose proof (pkt_len_nonneg rb Hb) as Hp. revert H.
  unfold serial_rx_pop_frame, MESHTASTIC_SERIAL_HEADER.
  destruct (Zlen rb <? 4) eqn:E4; [by intros [= <- <-]|]. bools.
  assert (Hat : forall i, (i < 4)%nat -> byte_at (rb ++ more) i = byte_at rb i)
    by (intros i Hi; unfold byte_at; by rewrite lookup_app_l by lia).
  rewrite !Hat by lia. rewrite length_app, Nat2Z.inj_add.
  replace (_ <? 4) with false by (symmetry; apply Z.ltb_ge; lia).
  rewrite (drop_app_le rb more 1), (drop_app_le rb more 4) by lia.
  set (pkt := Z.lor _ _) in *.
  branch; [by intros [= <- <-]|]. branch; [by intros [= <- <-]|]. branch; [by intros [= <- <-]|].
  destruct (Zlen rb <? 4 + pkt) eqn:E5; [by intros [= <- <-]|]. bools.
  replace (_ <? 4 + pkt) with false by (symmetry; apply Z.ltb_ge; lia). intros [= <- <-].
  rewrite drop_app_le by lia. f_equal. f_equal. rewrite take_app_le by (rewrite length_drop; lia). done.
Qed.

Lemma rx_all_app rb more :
  bytes_ok rb -> bytes_ok more ->
  rx_all (rb ++ more) = let '(rb1, o1) := rx_all rb in
                        let '(rb2, o2) := rx_all (rb1 ++ more) in (rb2, o1 ++ o2).
Proof.
  intros Hb Hm. remember (length rb) as n eqn:En. revert rb En Hb.
  induction (lt_wf n) as [n _ IH]; intros rb -> Hb.
  rewrite (rx_all_step rb) by done.
  destruct (serial_rx_pop_frame rb) as [rb1 r] eqn:E.
  destruct (pop_shrinks rb rb1 r Hb E) as [Hb1 Hs].
  destruct r as [| |p].
  - subst rb1. by destruct (rx_all (rb ++ more)).
  - rewrite (rx_all_step (rb ++ more)) by (by apply Forall_app).
    rewrite (pop_app rb more rb1 PopSkip) by done. by apply (IH (length rb1)).
  - rewrite (rx_all_step (rb ++ more)) by (by apply Forall_app).
    rewrite (pop_app rb more rb1 (PopFrame p)), (IH (length rb1) Hs rb1) by done.
    destruct (rx_all rb1) as [rb2 o2]. destruct (rx_all (rb2 ++ more)) as [rb3 o3].
    by destruct (Zlen p =? 0).
Qed.

Lemma rx_all_ok rb : bytes_ok rb -> bytes_ok (rx_all rb).1.
Proof.
  intros Hb. unfold rx_all.
  by destruct (rx_work_loop_total (S (length rb)) rb Hb ltac:(lia)) as (rb' & out & -> & ? & _).
Qed.

Lemma rx_all_settled rb : bytes_ok rb -> rx_all (rx_all rb).1 = ((rx_all rb).1, []).
Proof.
  intros Hb. pose proof (rx_all_app rb [] Hb ltac:(by apply Forall_nil_2)) as E.
  rewrite app_nil_r in E. destruct (rx_all rb) as [rb1 o1]. rewrite app_nil_r in E. simpl in *.
  destruct (rx_all rb1) as [rb2 o2]. injection E as -> E. f_equal.
  apply (f_equal length) in E. rewrite length_app in E. destruct o2; [done | simpl in E; lia].
Qed.

Lemma serial_rx_chunks_all chunks rb :
  bytes_ok rb -> rx_all rb = (rb, []) -> Forall bytes_ok chunks ->
  serial_rx_chunks chunks (Serial rb false) =
  Some (Serial (rx_all (rb ++ concat chunks)).1 false, (rx_all (rb ++ concat chunks)).2).
Proof.
  intros Hb Hset Hc. revert rb Hb Hset. induction Hc as [|c chunks Hok Hc IH]; intros rb Hb Hset; simpl.
  { by rewrite app_nil_r, Hset. }
  assert (Hrc : bytes_ok (rb ++ c)) by (by apply Forall_app).
  assert (Hcc : bytes_ok (concat chunks)) by (by apply Forall_concat).
  rewrite rx_work_handler_all by done. simpl.
  rewrite IH by (by apply rx_all_ok || by apply rx_all_settled).
  rewrite (app_assoc rb), (rx_all_app (rb ++ c)) by done.
  destruct (rx_all (rb ++ c)) as [rb1 o1]. simpl. by destruct (rx_all (rb1 ++ concat chunks)).
Qed.

(** Framing by content alone: whatever bytes arrive and however the interrupts cut
    them into pieces, every run of the receive work ends, and what is handed up and what
    is left in the ring are the same as if all bytes had arrived at once. *)
Theorem serial_pieces_irrelevant (chunks : list (list Z)) :
  Forall bytes_ok chunks ->
  exists s' out, serial_rx_chunks chunks (Serial [] false) = Some (s', out) /\
    rx_work_handler (Serial (concat chunks) false) = Some (s', out).
Proof.
  intros Hc. assert (Hcc : bytes_ok (concat chunks)) by (by apply Forall_concat).
  eexists _, _. split; [by apply serial_rx_chunks_all; [apply Forall_nil_2 | |]|].
  by rewrite rx_work_handler_all.
Qed.

Lemma serial_pieces_irrelevant_witness :
  exists s' out, serial_rx_chunks [[7; 148]; [195; 0]; [2; 10; 11; 148]] (Serial [] false) = Some (s', out) /\
    rx_work_handler (Serial [7; 148; 195; 0; 2; 10; 11; 148] false) = Some (s', out).
Proof.
  apply (serial_pieces_irrelevant [[7; 148]; [195; 0]; [2; 10; 11; 148]]).
  repeat (apply Forall_cons_2; [unfold bytes_ok; repeat (apply Forall_cons_2; [by vm_compute|]);
    apply Forall_nil_2|]). apply Forall_nil_2.
Defined.

(** ** Round trip *)
Definition payload_ok (p : list Z) : Prop := bytes_ok p /\ 1 <= Zlen p <= MESHTASTIC_API_FRAME_MAX.
(** Bytes between frames that do not begin one. *)
Definition noise (g : list Z) : Prop := bytes_ok g /\ Forall (fun b => b <> MESHTASTIC_SERIAL_START1) g.

Definition wire_frame (p : list Z) : list Z := meshtastic_serial_encode_frame p MESHTASTIC_SERIAL_WIRE_MAX.

Lemma wire_frame_eq p :
  payload_ok p ->
  wire_frame p = [148; 195; u8 (Z.shiftr (Zlen p) 8); u8 (Zlen p)] ++ p /\
  tcp_encode_frame p MESHTASTIC_SERIAL_WIRE_MAX = wire_frame p /\ bytes_ok (wire_frame p).
Proof.
  intros [Hb Hl]. assert (E : wire_frame p = [148; 195; u8 (Z.shiftr (Zlen p) 8); u8 (Zlen p)] ++ p).
  { unfold wire_frame, meshtastic_serial_encode_frame, MESHTASTIC_SERIAL_WIRE_MAX.
    replace (_ <? Zlen p) with false by (symmetry; apply Z.ltb_ge; lia).
    by replace (_ <? _) with false by (symmetry; apply Z.ltb_ge; lia). }
  split; [done|]. split; [done|]. rewrite E.
  repeat (apply Forall_cons_2;
    [try (by vm_compute); match goal with |- byte_ok (u8 ?x) => pose proof (u8_range x); unfold byte_ok; lia end|]).
  done.
Qed.

Lemma rx_all_noise g rest :
  noise g -> bytes_ok rest -> (4 <= length rest)%nat -> rx_all (g ++ rest) = rx_all rest.
Proof.
  intros [Hb Hg] Hr Hl. induction g as [|b g IH]; [done|]. simpl.
  apply Forall_cons in Hb as [Hb Hbs]. apply Forall_cons in Hg as [Hn Hg].
  rewrite rx_all_step by (apply Forall_cons_2; [done | by apply Forall_app]).
  unfold serial_rx_pop_frame, MESHTASTIC_SERIAL_HEADER.
  replace (_ <? 4) with false by (symmetry; apply Z.ltb_ge; simpl length; rewrite length_app; lia).
  change (byte_at (b :: g ++ rest) 0) with b.
  replace (b =? MESHTASTIC_SERIAL_START1) with false by (symmetry; by apply Z.eqb_neq).
  simpl negb. cbn match. by apply IH.
Qed.

Lemma rx_all_frame p rest :
  payload_ok p -> bytes_ok rest ->
  rx_all (wire_frame p ++ rest) = let '(rb, o) := rx_all rest in (rb, p :: o).
Proof.
  intros Hp Hr. destruct (wire_frame_eq p Hp) as (E & _ & Hw). destruct Hp as [Hb Hl].
  unfold MESHTASTIC_API_FRAME_MAX in Hl.
  rewrite rx_all_step by (by apply Forall_app). rewrite E, <- app_assoc.
  set (rb := [_; _; _; _] ++ p ++ rest).
  assert (Hlen : Zlen rb = 4 + Zlen p + Zlen rest) by (unfold rb; rewrite !length_app; simpl length; lia).
  assert (Hk : Z.lor (Z.shiftl (byte_at rb 2) 8) (byte_at rb 3) = Zlen p).
  { change (byte_at rb 2) with (u8 (Z.shiftr (Zlen p) 8)). change (byte_at rb 3) with (u8 (Zlen p)).
    pose proof (u8_range (Zlen p)). rewrite be_len_add, be_len_of by lia. done. }
  unfold serial_rx_pop_frame, MESHTASTIC_SERIAL_HEADER, MESHTASTIC_API_FRAME_MAX.
  rewrite Hk, Hlen.
  replace (4 + Zlen p + Zlen rest <? 4) with false by (symmetry; apply Z.ltb_ge; lia).
  change (byte_at rb 0) with 148. change (byte_at rb 1) with 195.
  change (negb (148 =? MESHTASTIC_SERIAL_START1)) with false.
  change (negb (195 =? MESHTASTIC_SERIAL_START2)) with false. cbn match.
  replace (512 <? Zlen p) with false by (symmetry; apply Z.ltb_ge; lia).
  replace (_ <? 4 + Zlen p) with false by (symmetry; apply Z.ltb_ge; lia).
  replace (Z.to_nat (4 + Zlen p)) with (4 + length p)%nat by lia.
  rewrite <- drop_drop. change (drop 4 rb) with (p ++ rest). rewrite Nat2Z.id, drop_app_length, take_app_length.
  by replace (Zlen p =? 0) with false by (symmetry; apply Z.eqb_neq; lia).
Qed.

Lemma rx_all_only_noise g : noise g -> (rx_all g).2 = [].
Proof.
  intros [Hb Hg]. induction g as [|b g IH]; [done|].
  rewrite rx_all_step by done. unfold serial_rx_pop_frame.
  destruct (_ <? _); [done|]. change (byte_at (b :: g) 0) with b.
  apply Forall_cons in Hb as [Hb Hbs]. apply Forall_cons in Hg as [Hn Hg].
  replace (b =? MESHTASTIC_SERIAL_START1) with false by (symmetry; by apply Z.eqb_neq).
  simpl negb. cbn match. by apply IH.
Qed.

(** The parser between frames. *)
Definition waiting (q : parser) : Prop := px_state q = WAIT_START1 /\ Zlen (px_payload q) = 512.

Lemma tcp_rx_app l k q :
  tcp_rx (l ++ k) q = let '(q1, o1) := tcp_rx l q in let '(q2, o2) := tcp_rx k q1 in (q2, o1 ++ o2).
Proof.
  revert q. induction l as [|b l IH]; intros q; simpl; [by destruct (tcp_rx k q)|].
  destruct (tcp_rx_byte b q) as [q1 o1]. rewrite IH. destruct (tcp_rx l q1) as [q2 o2].
  destruct (tcp_rx k q2) as [q3 o3]. by rewrite app_assoc.
Qed.

Lemma tcp_rx_chunks_all chunks q : tcp_rx_chunks chunks q = tcp_rx (concat chunks) q.
Proof.
  revert q. induction chunks as [|c chunks IH]; intros q; simpl; [done|]. rewrite tcp_rx_app.
  destruct (tcp_rx c q) as [q1 o1]. by rewrite IH.
Qed.

Lemma tcp_rx_noise g q : noise g -> waiting q -> tcp_rx g q = (q, []).
Proof.
  intros [_ Hg] [Hs Hl]. induction Hg as [|b g Hb _ IH]; simpl; [done|].
  unfold tcp_rx_byte. rewrite Hs. replace (b =? _) with false by (symmetry; by apply Z.eqb_neq).
  by rewrite IH.
Qed.

(** The payload bytes from position [k] on. *)
Lemma tcp_rx_payload p q k :
  1 <= Zlen p <= 512 -> (k < length p)%nat ->
  px_state q = PAYLOAD -> px_len q = Zlen p -> px_pos q = Z.of_nat k -> Zlen (px_payload q) = 512 ->
  take k (px_payload q) = take k p ->
  exists q', tcp_rx (drop k p) q = (q', [p]) /\ waiting q'.
Proof.
  intros Hl. remember (length p - k)%nat as n eqn:En. revert k q En.
  induction n as [|n IH]; intros k q En Hk Hs Hlen Hpos Hbuf Htake; [lia|].
  destruct (lookup_lt_is_Some_2 p k Hk) as [b Hb]. rewrite (drop_S p b k Hb). cbn [tcp_rx].
  unfold tcp_rx_byte. rewrite Hs, Hpos, Nat2Z.id. rewrite u16_small by lia. cbn [px_pos px_len set_px_pos
    set_px_payload px_state px_payload]. rewrite Hlen.
  assert (Hw : take (S k) (buf_write k [b] (px_payload q)) = take (S k) p).
  { pose proof (take_buf_write k [b] (px_payload q) ltac:(simpl; lia)) as E. cbn [length] in E.
    rewrite Nat.add_1_r in E. by rewrite E, Htake, (take_S_r p k b Hb). }
  assert (Hbl : Zlen (buf_write k [b] (px_payload q)) = 512) by (rewrite length_buf_write by (simpl; lia); done).
  destruct (Z.of_nat k + 1 =? Zlen p) eqn:E; bools.
  - assert (Ek : S k = length p) by lia. rewrite (drop_ge p (S k)) by lia. simpl.
    rewrite Nat2Z.id. rewrite Ek in Hw. rewrite Hw, firstn_all.
    eexists. split; [done|]. by split.
  - match goal with |- context [tcp_rx (drop (S k) p) ?q1] =>
      destruct (IH (S k) q1) as (q' & Eq & Hq'); simpl; try done; try lia end.
    rewrite Eq. by exists q'.
Qed.

Lemma tcp_rx_frame p q :
  payload_ok p -> waiting q -> exists q', tcp_rx (wire_frame p) q = (q', [p]) /\ waiting q'.
Proof.
  intros Hp [Hs Hl]. destruct (wire_frame_eq p Hp) as (-> & _ & _). destruct Hp as [Hb Hp].
  unfold MESHTASTIC_API_FRAME_MAX in Hp.
  assert (Hhi : 0 <= u8 (Z.shiftr (Zlen p) 8) <= 2).
  { rewrite Z.shiftr_div_pow2 by lia. change (2 ^ 8) with 256.
    assert (0 <= Zlen p / 256 <= 2) by (split; [apply Z.div_pos | apply Z.div_le_upper_bound]; lia).
    rewrite u8_small by lia. done. }
  assert (Hlen : Z.lor (u16 (Z.shiftl (u8 (Z.shiftr (Zlen p) 8)) 8)) (u8 (Zlen p)) = Zlen p).
  { rewrite u16_small by (rewrite Z.shiftl_mul_pow2 by lia; change (2 ^ 8) with 256; lia).
    pose proof (u8_range (Zlen p)). rewrite be_len_add, be_len_of by lia. done. }
  cbn [app tcp_rx]. unfold tcp_rx_byte at 1. rewrite Hs. cbn match.
  change (148 =? MESHTASTIC_SERIAL_START1) with true. cbn match.
  unfold tcp_rx_byte at 1. cbn [px_state set_px_state].
  change (195 =? MESHTASTIC_SERIAL_START2) with true. cbn match.
  unfold tcp_rx_byte at 1. cbn [px_state set_px_state].
  unfold tcp_rx_byte at 1. cbn [px_state set_px_state px_len set_px_len]. rewrite Hlen.
  unfold MESHTASTIC_API_FRAME_MAX.
  replace (512 <? Zlen p) with false by (symmetry; apply Z.ltb_ge; lia).
  replace (Zlen p =? 0) with false by (symmetry; apply Z.eqb_neq; lia).
  match goal with |- context [tcp_rx p ?q1] =>
    destruct (tcp_rx_payload p q1 0) as (q' & Eq & Hq'); try done; try lia end.
  rewrite drop_0 in Eq. rewrite Eq. by exists q'.
Qed.

(** What a sender puts on the line: frames, with noise before each of them. *)
Definition line (segs : list (list Z * list Z)) : list Z :=
  concat ((fun s => s.1 ++ wire_frame s.2) <$> segs).

Lemma line_ok segs : Forall (fun s => noise s.1 /\ payload_ok s.2) segs -> bytes_ok (line segs).
Proof.
  intros Hs. apply Forall_concat, Forall_fmap. eapply Forall_impl; [exact Hs|].
  intros [g p] [[Hg _] Hp]. apply Forall_app. split; [done|]. apply (wire_frame_eq p Hp).
Qed.

Lemma rx_all_line segs tail :
  Forall (fun s => noise s.1 /\ payload_ok s.2) segs -> noise tail ->
  (rx_all (line segs ++ tail)).2 = segs.*2.
Proof.
  intros Hs Ht. induction Hs as [|[g p] segs [Hg Hp] Hs IH]; [by apply rx_all_only_noise|].
  simpl in Hg, Hp. unfold line in *. cbn [fmap list_fmap concat fst snd]. rewrite <- !app_assoc.
  pose proof (line_ok segs Hs) as Hok. destruct (wire_frame_eq p Hp) as (E & _ & Hw).
  rewrite rx_all_noise; [|done | repeat (apply Forall_app; split); try done; apply Ht
                         | rewrite E, length_app; simpl; lia].
  rewrite rx_all_frame; [|done | apply Forall_app; split; [done | apply Ht]].
  destruct (rx_all _) as [rb o]. simpl in *. by rewrite IH.
Qed.

Lemma tcp_rx_line segs q :
  Forall (fun s => noise s.1 /\ payload_ok s.2) segs -> waiting q ->
  exists q', tcp_rx (line segs) q = (q', segs.*2) /\ waiting q'.
Proof.
  intros Hs. revert q. induction Hs as [|[g p] segs [Hg Hp] Hs IH]; intros q Hq; [by exists q|].
  unfold line. cbn [fmap list_fmap concat fst snd]. rewrite <- app_assoc, tcp_rx_app.
  rewrite tcp_rx_noise, tcp_rx_app by done. destruct (tcp_rx_frame p q Hp Hq) as (q1 & -> & Hq1).
  destruct (IH q1 Hq1) as (q2 & E & Hq2). unfold line in E. rewrite E. by exists q2.
Qed.

(** The two transports agree with each other and with the sender: frames written by
    either encoder, with noise before, between and after them, and cut into pieces
    anywhere, are handed to the phone API by both receivers completely, in order and
    unchanged, and nothing else is. *)
Theorem stream_delivers_frames (segs : list (list Z * list Z)) (tail : list Z)
    (chunks : list (list Z)) (q : parser) :
  Forall (fun s => noise s.1 /\ payload_ok s.2) segs -> noise tail ->
  concat chunks = line segs ++ tail -> waiting q ->
  (exists s', serial_rx_chunks chunks (Serial [] false) = Some (s', segs.*2)) /\
  (tcp_rx_chunks chunks q).2 = segs.*2 /\
  Forall (fun s => tcp_encode_frame s.2 MESHTASTIC_SERIAL_WIRE_MAX = wire_frame s.2) segs.
Proof.
  intros Hs Ht Hc Hq.
  assert (Hok : bytes_ok (concat chunks)).
  { rewrite Hc. apply Forall_app. split; [by apply line_ok | apply Ht]. }
  split; [|split].
  - rewrite serial_rx_chunks_all; [|by apply Forall_nil_2 | done | by apply Forall_concat].
    cbn [app]. rewrite Hc, rx_all_line by done. eauto.
  - rewrite tcp_rx_chunks_all, Hc, tcp_rx_app.
    destruct (tcp_rx_line segs q Hs Hq) as (q' & -> & Hq').
    rewrite tcp_rx_noise by done. simpl. by rewrite app_nil_r.
  - eapply Forall_impl; [exact Hs|]. intros [g p] [_ Hp]. apply (wire_frame_eq p Hp).
Qed.

Lemma stream_delivers_frames_witness :
  exists s', serial_rx_chunks [[1; 2; 148]; [195; 0; 2; 10]; [11; 148; 195; 0; 1; 7; 5]] (Serial [] false) =
    Some (s', [[10; 11]; [7]]).
Proof.
  apply (stream_delivers_frames [([1; 2], [10; 11]); ([], [7])] [5]
    [[1; 2; 148]; [195; 0; 2; 10]; [11; 148; 195; 0; 1; 7; 5]] (Parser WAIT_START1 0 0 (replicate 512 0))).
  - repeat (apply Forall_cons_2; [split; (split; [unfold bytes_ok;
      repeat (apply Forall_cons_2; [by vm_compute|]); apply Forall_nil_2 |
      first [by vm_compute | repeat (apply Forall_cons_2; [by vm_compute|]); apply Forall_nil_2]])|]).
    apply Forall_nil_2.
  - split; [unfold bytes_ok|]; (apply Forall_cons_2; [by vm_compute | apply Forall_nil_2]).
  - reflexivity.
  - split; reflexivity.
Defined.

(** ** Arbitrary input *)

(** The parser's buffer is never written outside, and a frame handed up has 1 to 512 bytes. *)
Record parser_wf (q : parser) : Prop := ParserWf {
  pw_buf : Zlen (px_payload q) = MESHTASTIC_API_FRAME_MAX;
  pw_hi : px_state q = LEN_LO -> 0 <= px_len q <= 65280 /\ px_len q `mod` 256 = 0;
  pw_pos : px_state q = PAYLOAD -> 0 <= px_pos q < px_len q /\ px_len q <= MESHTASTIC_API_FRAME_MAX;
}.

Lemma tcp_rx_byte_wf b q :
  0 <= b < 256 -> parser_wf q ->
  parser_wf (tcp_rx_byte b q).1 /\
  Forall (fun p => 1 <= Zlen p <= MESHTASTIC_API_FRAME_MAX) (tcp_rx_byte b q).2.
Proof.
  intros Hb [H1 H2 H3]. unfold tcp_rx_byte. destruct (px_state q) eqn:Es.
  - destruct (_ =? _); (split; [|apply Forall_nil_2]);
      (split; [done | | ]; intros E; simpl in E; congruence).
  - destruct (_ =? _); [|destruct (_ =? _)]; (split; [|apply Forall_nil_2]);
      (split; [done | | ]; intros E; simpl in E; congruence).
  - split; [|apply Forall_nil_2]. split; simpl; try done. intros _.
    rewrite Z.shiftl_mul_pow2 by lia. change (2 ^ 8) with 256. rewrite u16_small by lia.
    split; [lia|]. by rewrite Z.mod_mul.
  - destruct (H2 eq_refl) as [Hr Hm]. unfold MESHTASTIC_API_FRAME_MAX in *.
    assert (0 <= Z.lor (px_len q) b) by (apply Z.lor_nonneg; lia).
    destruct (512 <? _) eqn:E1; [|destruct (_ =? 0) eqn:E2]; (split; [|apply Forall_nil_2]);
      split; simpl; unfold MESHTASTIC_API_FRAME_MAX; try done. bools. lia.
  - destruct (H3 eq_refl) as [Hp Hl]. unfold MESHTASTIC_API_FRAME_MAX in *.
    rewrite u16_small by lia. cbn [px_pos px_len set_px_pos set_px_payload px_payload].
    assert (Hbl : Zlen (buf_write (Z.to_nat (px_pos q)) [b] (px_payload q)) = 512)
      by (rewrite length_buf_write by (simpl; lia); done).
    destruct (px_pos q + 1 =? px_len q) eqn:E; bools; split.
    + by split.
    + apply Forall_cons_2; [|apply Forall_nil_2]. rewrite length_take. lia.
    + split; simpl; [done | rewrite Es; done |]. intros _. unfold MESHTASTIC_API_FRAME_MAX. lia.
    + apply Forall_nil_2.
Qed.

(** The byte-wise decoder of the serial module, given a buffer of the full frame
    size, is the TCP parser: same state after every byte from every state, and it
    reports a frame with its length exactly when the TCP parser hands one up (an empty
    frame, which TCP drops, it reports with length 0). *)
Theorem decode_byte_is_tcp_parser (b payload_len : Z) (q : parser) :
  MESHTASTIC_API_FRAME_MAX <= payload_len ->
  let '(q1, r) := meshtastic_serial_decode_byte b payload_len q in
  let '(q2, out) := tcp_rx_byte b q in
  q1 = q2 /\
  out = match r with
        | Val (Some n) => if (n =? 0) && bool_decide (px_state q = LEN_LO) then []
                          else [take (Z.to_nat n) (px_payload q1)]
        | _ => []
        end.
Proof.
  intros Hn. unfold meshtastic_serial_decode_byte, tcp_rx_byte. destruct (px_state q) eqn:Es; try done.
  - set (len := Z.lor (px_len q) b). unfold MESHTASTIC_API_FRAME_MAX in *.
    destruct (512 <? len) eqn:E1; [done|]. bools.
    replace (payload_len <? len) with false by (symmetry; apply Z.ltb_ge; lia).
    by destruct (len =? 0).
  - cbn [px_pos px_len set_px_pos set_px_payload px_payload].
    destruct (_ =? px_len q); [|done]. by rewrite andb_false_r.
Qed.

Lemma decode_byte_is_tcp_parser_witness :
  let q := Parser PAYLOAD 2 1 (9 :: replicate 511 0) in
  (meshtastic_serial_decode_byte 8 512 q).2 = Val (Some 2) /\ (tcp_rx_byte 8 q).2 = [[9; 8]].
Proof.
  split; [reflexivity|].
  pose proof (decode_byte_is_tcp_parser 8 512 (Parser PAYLOAD 2 1 (9 :: replicate 511 0))
    ltac:(vm_compute; congruence)) as H. exact (proj2 H).
Defined.
