(* ===== verification/PhoneApi.v ===== *)
(** * The phone API session (src/src/meshtastic_phoneapi.c, meshtastic_phoneapi_config.c)

    What a connected phone is sent: the configuration stream of a handshake, then the
    queue of encoded frames, kept across connections in a circular array with an
    eviction ladder. The contents of a protobuf message are opaque: its encoding is an
    argument ([None] when the generated encoder fails), and for the configuration stream
    a function of the item. The node database is the list of the node numbers in use.
    Indices into the circular array are natural numbers; [queue_size] is a byte, so the
    casts to [uint8_t] change nothing. *)
From Stdlib Require Import Sorted.
From S2P Require Import Prelude Sched.
Open Scope Z_scope.

(** ** Frames and their rank *)
Definition MT_PHONE_RANK_STATUS : Z := 0.
Definition MT_PHONE_RANK_LOG : Z := 1.
Definition MT_PHONE_RANK_SAMPLE : Z := 2.
Definition MT_PHONE_RANK_IDENTITY : Z := 3.
Definition MT_PHONE_RANK_KEEP : Z := 4.
Definition MT_PHONE_FRAME_F_CTRL : Z := 1.

Definition PortNum_POSITION_APP : Z := 3.
Definition PortNum_NODEINFO_APP : Z := 4.
Definition PortNum_TELEMETRY_APP : Z := 67.

Record pframe := PFrame {
  pf_data : list Z;
  pf_evict_rank : Z;
  pf_flags : Z;
}.
Definition pframe0 : pframe := PFrame [] 0 0.

(** The payload variant of a FromRadio, as far as the queue looks at it: a mesh packet
    with the port number of its decoded payload, [None] when it is encrypted. *)
Inductive from_radio :=
  | FrQueueStatus | FrLogRecord | FrMqttProxy | FrRebooted | FrLockdownStatus
  | FrPacket (portnum : option Z)
  | FrOther.

Definition fromradio_evict_rank (from : from_radio) : Z :=
  match from with
  | FrQueueStatus => MT_PHONE_RANK_STATUS
  | FrLogRecord => MT_PHONE_RANK_LOG
  | FrMqttProxy => MT_PHONE_RANK_SAMPLE
  | FrPacket (Some portnum) =>
      if (portnum =? PortNum_POSITION_APP) || (portnum =? PortNum_TELEMETRY_APP)
      then MT_PHONE_RANK_SAMPLE
      else if portnum =? PortNum_NODEINFO_APP then MT_PHONE_RANK_IDENTITY
      else MT_PHONE_RANK_KEEP
  | _ => MT_PHONE_RANK_KEEP
  end.

Definition rank_is_protected (rank : Z) : bool := MT_PHONE_RANK_KEEP <=? rank.

Definition fromradio_frame_flags (from : from_radio) : Z :=
  match from with
  | FrQueueStatus | FrRebooted | FrLockdownStatus => MT_PHONE_FRAME_F_CTRL
  | _ => 0
  end.

(** ** State *)
Inductive config_state :=
  | CONFIG_IDLE | CONFIG_MY_INFO | CONFIG_DEVICE_UI | CONFIG_NODE_INFO | CONFIG_METADATA
  | CONFIG_REGION_PRESETS | CONFIG_CHANNELS | CONFIG_CONFIGS | CONFIG_MODULES
  | CONFIG_OTHER_NODEINFOS | CONFIG_FILEMANIFEST | CONFIG_QUEUE_STATUS | CONFIG_COMPLETE
  | CONFIG_LOCKDOWN_STATUS.
#[export] Instance config_state_eq_dec : EqDecision config_state.
Proof. solve_decision. Defined.

Record phoneapi := Api {
  a_queue : list pframe;
  a_head : nat;
  a_tail : nat;
  a_count : nat;
  a_saturated : bool;
  a_has_current : bool;
  a_current : pframe;
  a_current_valid : bool;
  a_from_num : Z;
  a_config_state : config_state;
  a_config_index : Z;
  a_node_cursor : Z;
  a_request_id : Z;
  a_admin_authorized : bool;
  a_pending_unlock : bool;
  a_conn_epoch : Z;
}.
Definition set_a_queue (v : list pframe) (r : phoneapi) : phoneapi :=
Api v (a_head r) (a_tail r) (a_count r) (a_saturated r) (a_has_current r) (a_current r)
    (a_current_valid r) (a_from_num r) (a_config_state r) (a_config_index r) (a_node_cursor
    r) (a_request_id r) (a_admin_authorized r) (a_pending_unlock r) (a_conn_epoch r).
Definition set_a_head (v : nat) (r : phoneapi) : phoneapi :=
Api (a_queue r) v (a_tail r) (a_count r) (a_saturated r) (a_has_current r) (a_current r)
    (a_current_valid r) (a_from_num r) (a_config_state r) (a_config_index r) (a_node_cursor
    r) (a_request_id r) (a_admin_authorized r) (a_pending_unlock r) (a_conn_epoch r).
Definition set_a_tail (v : nat) (r : phoneapi) : phoneapi :=
Api (a_queue r) (a_head r) v (a_count r) (a_saturated r) (a_has_current r) (a_current r)
    (a_current_valid r) (a_from_num r) (a_config_state r) (a_config_index r) (a_node_cursor
    r) (a_request_id r) (a_admin_authorized r) (a_pending_unlock r) (a_conn_epoch r).
Definition set_a_count (v : nat) (r : phoneapi) : phoneapi :=
Api (a_queue r) (a_head r) (a_tail r) v (a_saturated r) (a_has_current r) (a_current r)
    (a_current_valid r) (a_from_num r) (a_config_state r) (a_config_index r) (a_node_cursor
    r) (a_request_id r) (a_admin_authorized r) (a_pending_unlock r) (a_conn_epoch r).
Definition set_a_saturated (v : bool) (r : phoneapi) : phoneapi :=
Api (a_queue r) (a_head r) (a_tail r) (a_count r) v (a_has_current r) (a_current r)
    (a_current_valid r) (a_from_num r) (a_config_state r) (a_config_index r) (a_node_cursor
    r) (a_request_id r) (a_admin_authorized r) (a_pending_unlock r) (a_conn_epoch r).
Definition set_a_has_current (v : bool) (r : phoneapi) : phoneapi :=
Api (a_queue r) (a_head r) (a_tail r) (a_count r) (a_saturated r) v (a_current r)
    (a_current_valid r) (a_from_num r) (a_config_state r) (a_config_index r) (a_node_cursor
    r) (a_request_id r) (a_admin_authorized r) (a_pending_unlock r) (a_conn_epoch r).
Definition set_a_current (v : pframe) (r : phoneapi) : phoneapi :=
Api (a_queue r) (a_head r) (a_tail r) (a_count r) (a_saturated r) (a_has_current r) v
    (a_current_valid r) (a_from_num r) (a_config_state r) (a_config_index r) (a_node_cursor
    r) (a_request_id r) (a_admin_authorized r) (a_pending_unlock r) (a_conn_epoch r).
Definition set_a_current_valid (v : bool) (r : phoneapi) : phoneapi :=
Api (a_queue r) (a_head r) (a_tail r) (a_count r) (a_saturated r) (a_has_current r)
    (a_current r) v (a_from_num r) (a_config_state r) (a_config_index r) (a_node_cursor r)
    (a_request_id r) (a_admin_authorized r) (a_pending_unlock r) (a_conn_epoch r).
Definition set_a_from_num (v : Z) (r : phoneapi) : phoneapi :=
Api (a_queue r) (a_head r) (a_tail r) (a_count r) (a_saturated r) (a_has_current r)
    (a_current r) (a_current_valid r) v (a_config_state r) (a_config_index r) (a_node_cursor
    r) (a_request_id r) (a_admin_authorized r) (a_pending_unlock r) (a_conn_epoch r).
Definition set_a_config_state (v : config_state) (r : phoneapi) : phoneapi :=
Api (a_queue r) (a_head r) (a_tail r) (a_count r) (a_saturated r) (a_has_current r)
    (a_current r) (a_current_valid r) (a_from_num r) v (a_config_index r) (a_node_cursor r)
    (a_request_id r) (a_admin_authorized r) (a_pending_unlock r) (a_conn_epoch r).
Definition set_a_config_index (v : Z) (r : phoneapi) : phoneapi :=
Api (a_queue r) (a_head r) (a_tail r) (a_count r) (a_saturated r) (a_has_current r)
    (a_current r) (a_current_valid r) (a_from_num r) (a_config_state r) v (a_node_cursor r)
    (a_request_id r) (a_admin_authorized r) (a_pending_unlock r) (a_conn_epoch r).
Definition set_a_node_cursor (v : Z) (r : phoneapi) : phoneapi :=
Api (a_queue r) (a_head r) (a_tail r) (a_count r) (a_saturated r) (a_has_current r)
    (a_current r) (a_current_valid r) (a_from_num r) (a_config_state r) (a_config_index r) v
    (a_request_id r) (a_admin_authorized r) (a_pending_unlock r) (a_conn_epoch r).
Definition set_a_request_id (v : Z) (r : phoneapi) : phoneapi :=
Api (a_queue r) (a_head r) (a_tail r) (a_count r) (a_saturated r) (a_has_current r)
    (a_current r) (a_current_valid r) (a_from_num r) (a_config_state r) (a_config_index r)
    (a_node_cursor r) v (a_admin_authorized r) (a_pending_unlock r) (a_conn_epoch r).
Definition set_a_admin_authorized (v : bool) (r : phoneapi) : phoneapi :=
Api (a_queue r) (a_head r) (a_tail r) (a_count r) (a_saturated r) (a_has_current r)
    (a_current r) (a_current_valid r) (a_from_num r) (a_config_state r) (a_config_index r)
    (a_node_cursor r) (a_request_id r) v (a_pending_unlock r) (a_conn_epoch r).
Definition set_a_pending_unlock (v : bool) (r : phoneapi) : phoneapi :=
Api (a_queue r) (a_head r) (a_tail r) (a_count r) (a_saturated r) (a_has_current r)
    (a_current r) (a_current_valid r) (a_from_num r) (a_config_state r) (a_config_index r)
    (a_node_cursor r) (a_request_id r) (a_admin_authorized r) v (a_conn_epoch r).
Definition set_a_conn_epoch (v : Z) (r : phoneapi) : phoneapi :=
Api (a_queue r) (a_head r) (a_tail r) (a_count r) (a_saturated r) (a_has_current r)
    (a_current r) (a_current_valid r) (a_from_num r) (a_config_state r) (a_config_index r)
    (a_node_cursor r) (a_request_id r) (a_admin_authorized r) (a_pending_unlock r) v.

Definition a_size (a : phoneapi) : nat := length (a_queue a).

Definition meshtastic_phoneapi_init (queue_size : nat) : phoneapi :=
  Api (replicate queue_size pframe0) 0 0 0 false false pframe0 false 0 CONFIG_IDLE 0 0 0 false false 0.

Definition meshtastic_phoneapi_session_reset (a : phoneapi) : phoneapi :=
  set_a_conn_epoch (u32 (a_conn_epoch a + 1)) (set_a_pending_unlock false
    (set_a_admin_authorized false (set_a_from_num 0 (set_a_request_id 0 (set_a_node_cursor 0
      (set_a_config_index 0 (set_a_config_state CONFIG_IDLE (set_a_current_valid false a)))))))).

Definition meshtastic_phoneapi_reset (a : phoneapi) : phoneapi :=
  meshtastic_phoneapi_session_reset
    (set_a_saturated false (set_a_count 0 (set_a_tail 0 (set_a_head 0 a)))).

Definition config_active (a : phoneapi) : bool := negb (bool_decide (a_config_state a = CONFIG_IDLE)).

Definition meshtastic_phoneapi_pending_count (a : phoneapi) : Z :=
  Z.of_nat (a_count a) + (if a_current_valid a then 1 else 0) + (if config_active a then 1 else 0).

(** [active] is [meshtastic_lockdown_active()]. *)
Definition meshtastic_phoneapi_authorized (active : bool) (a : phoneapi) : bool :=
  negb active || a_admin_authorized a.

(** ** The circular queue *)
Definition slot (a : phoneapi) (i : nat) : nat := ((a_tail a + i) `mod` a_size a)%nat.
Definition frame_at (a : phoneapi) (i : nat) : pframe := default pframe0 (a_queue a !! slot a i).

(** [for (i = k; i + 1 < count; i++) queue[cur] = queue[nxt];], [n] rounds left. *)
Fixpoint queue_shift (n i : nat) (a : phoneapi) : phoneapi :=
  match n with
  | O => a
  | S n' => queue_shift n' (S i) (set_a_queue (<[slot a i := frame_at a (S i)]> (a_queue a)) a)
  end.

Definition queue_remove_at (k : nat) (a : phoneapi) : phoneapi :=
  let a1 := queue_shift (a_count a - 1 - k) k a in
  set_a_count (a_count a - 1) (set_a_head ((a_head a + a_size a - 1) `mod` a_size a)%nat a1).

(** The loop of [queue_take_servable], [n] frames left to look at. *)
Fixpoint take_servable_loop (n i : nat) (auth : bool) (a : phoneapi) : phoneapi * option pframe :=
  match n with
  | O => (a, None)
  | S n' =>
      let f := frame_at a i in
      if negb auth && (Z.land (pf_flags f) MT_PHONE_FRAME_F_CTRL =? 0)
      then take_servable_loop n' (S i) auth a
      else if (i =? 0)%nat
      then (set_a_count (a_count a - 1) (set_a_tail (slot a 1) a), Some f)
      else (queue_remove_at i a, Some f)
  end.

Definition queue_take_servable (active : bool) (a : phoneapi) : phoneapi * option pframe :=
  take_servable_loop (a_count a) 0 (meshtastic_phoneapi_authorized active a) a.

Definition meshtastic_phoneapi_push_frame_front (f : pframe) (a : phoneapi) : phoneapi :=
  let a1 := if (a_count a =? a_size a)%nat
            then set_a_count (a_count a - 1) (set_a_head ((a_head a + a_size a - 1) `mod` a_size a)%nat a)
            else a in
  let tail := ((a_tail a1 + a_size a1 - 1) `mod` a_size a1)%nat in
  set_a_count (a_count a1 + 1) (set_a_queue (<[tail := f]> (a_queue a1)) (set_a_tail tail a1)).

(** [queue[head] = frame; head = (head + 1) % size; count++] *)
Definition queue_append (f : pframe) (a : phoneapi) : phoneapi :=
  set_a_count (a_count a + 1)
    (set_a_head ((a_head a + 1) `mod` a_size a)%nat (set_a_queue (<[a_head a := f]> (a_queue a)) a)).

(** The argument of [meshtastic_sched_stat_phone_drop] is the drop reported. *)
Definition queue_drop_oldest (a : phoneapi) : phoneapi * bool :=
  (set_a_count (a_count a - 1) (set_a_tail (slot a 1) a),
   rank_is_protected (pf_evict_rank (frame_at a 0))).

(** The queued frame to evict: cheapest, and the oldest among these. *)
Definition find_victim (a : phoneapi) : option (nat * pframe) :=
  scan_best (fun _ => true) (fun f best => pf_evict_rank f <? pf_evict_rank best)
    (frame_at a <$> seq 0 (a_count a)).

(** The part of [meshtastic_phoneapi_enqueue_fromradio] under the lock: the drops
    reported, and whether the frame was taken. *)
Definition enqueue_frame (evict : sched_phone_evict) (f : pframe) (a : phoneapi)
    : phoneapi * list bool * bool :=
  let rank := pf_evict_rank f in
  let unlatch (a : phoneapi) := if a_saturated a then set_a_saturated false a else a in
  let last_resort :=
    let '(a1, d) := queue_drop_oldest a in
    (queue_append f (if a_saturated a1 then a1 else set_a_saturated true a1), [d], true) in
  if negb (a_count a =? a_size a)%nat then (queue_append f (unlatch a), [], true)
  else
    match evict with
    | PHONE_PROTECT =>
        match find_victim a with
        | Some (k, v) =>
            if (pf_evict_rank v <? MT_PHONE_RANK_KEEP) && (pf_evict_rank v <=? rank)
            then (queue_append f (unlatch (queue_remove_at k a)), [false], true)
            else if rank <? MT_PHONE_RANK_KEEP then (a, [false], false)
            else last_resort
        | None => if rank <? MT_PHONE_RANK_KEEP then (a, [false], false) else last_resort
        end
    | PHONE_DROP_OLDEST =>
        let '(a1, d) := queue_drop_oldest a in (queue_append f (unlatch a1), [d], true)
    end.

(** [encoded] is what the generated encoder makes of the message. *)
Definition meshtastic_phoneapi_enqueue_fromradio (evict : sched_phone_evict) (from : from_radio)
    (encoded : option (list Z)) (a : phoneapi) : phoneapi * cret * list bool :=
  match encoded with
  | None => (a, ERR ENOMEM, [])
  | Some data =>
      let f := PFrame data (fromradio_evict_rank from) (fromradio_frame_flags from) in
      let '(a', drops, _) := enqueue_frame evict f a in (a', OK, drops)
  end.

(** One transport's turn in [meshtastic_phoneapi_enqueue_log_record]: [true] when the
    record was queued, [false] when it was dropped. *)
Definition enqueue_log_frame (data : list Z) (a : phoneapi) : phoneapi * bool :=
  if (a_size a <=? a_count a)%nat then (a, false)
  else (queue_append (PFrame data MT_PHONE_RANK_LOG 0) a, true).

(** ** The configuration stream *)
Definition NONCE_ONLY_CONFIG : Z := 69420.
Definition NONCE_ONLY_NODES : Z := 69421.
Definition MESHTASTIC_MAX_CHANNELS : Z := 8.
Definition N_CONFIG_TAGS : Z := 10.
Definition N_MODULE_TAGS : Z := 17.

(** What a frame of the stream says; [auth] where its content depends on it. *)
Inductive config_item :=
  | CMyInfo (auth : bool)
  | CDeviceUi
  | CNodeInfo
  | CMetadata (auth : bool)
  | CRegionPresets
  | CChannel (index : Z) (auth : bool)
  | CConfig (tag : Z) (auth : bool)
  | CModule (tag : Z) (auth : bool)
  | COtherNode (num : Z)
  | CQueueStatus
  | CComplete (id : Z)
  | CLockdownStatus.

Record config_env := ConfigEnv {
  ce_lockdown : bool;                       (* CONFIG_MESHTASTIC_LOCKDOWN *)
  ce_active : bool;                         (* meshtastic_lockdown_active() *)
  ce_node_id : Z;                           (* meshtastic_get_node_id() *)
  ce_nodes : list Z;                        (* the node numbers in use in the NodeDB *)
  ce_has_config : Z -> bool;                (* the config store serves the i-th tag *)
  ce_has_module : Z -> bool;
  ce_encode : config_item -> option (list Z);
}.

(** The smallest node number above the cursor. *)
Definition meshtastic_nodedb_get_next_after (after : Z) (nodes : list Z) : option Z :=
  snd <$> scan_best (fun n => after <? n) (fun n best => n <? best) nodes.

Definition emit_frame (env : config_env) (item : config_item) (next : config_state) (index : Z)
    (a : phoneapi) : phoneapi * res (config_item * pframe) :=
  match ce_encode env item with
  | None => (a, Fail ENOMEM)
  | Some data =>
      (set_a_config_index index (set_a_config_state next a), Val (item, PFrame data 0 0))
  end.

(** [while (index < total)] skipping what the store does not serve; [n] rounds left. *)
Fixpoint skip_missing (n : nat) (has : Z -> bool) (total index : Z) : Z :=
  match n with
  | O => index
  | S n' => if index <? total then if has index then index else skip_missing n' has total (u16 (index + 1))
            else index
  end.

(** One section of a table of sections: emit the next one served, or move on. *)
Definition table_stage (env : config_env) (has : Z -> bool) (total : Z) (item : Z -> config_item)
    (stage after : config_state) (a : phoneapi) : phoneapi * option (res (config_item * pframe)) :=
  let i := skip_missing (Z.to_nat total) has total (a_config_index a) in
  let a1 := set_a_config_index i a in
  if i <? total then
    let last := total <=? i + 1 in
    let '(a2, r) := emit_frame env (item i) (if last then after else stage)
                      (if last then 0 else u16 (i + 1)) a1 in (a2, Some r)
  else (set_a_config_index 0 (set_a_config_state after a1), None).

(** The node loop: the own node is passed over; [n] rounds left. *)
Fixpoint node_stage (n : nat) (env : config_env) (a : phoneapi)
    : phoneapi * option (res (config_item * pframe)) :=
  match n with
  | O => (a, None)
  | S n' =>
      match meshtastic_nodedb_get_next_after (a_node_cursor a) (ce_nodes env) with
      | Some num =>
          if num =? ce_node_id env then node_stage n' env (set_a_node_cursor num a)
          else
            let '(a1, r) := emit_frame env (COtherNode num) CONFIG_OTHER_NODEINFOS 0 a in
            (match r with Val _ => set_a_node_cursor num a1 | Fail _ => a1 end, Some r)
      | None =>
          (set_a_node_cursor 0 (set_a_config_index 0 (set_a_config_state CONFIG_FILEMANIFEST a)), None)
      end
  end.

(** One turn of the outer loop; [None] is the [break] that goes round again. *)
Definition config_turn (env : config_env) (a : phoneapi)
    : phoneapi * option (res (config_item * pframe)) :=
  let auth := meshtastic_phoneapi_authorized (ce_active env) a in
  let emit item next := let '(a', r) := emit_frame env item next 0 a in (a', Some r) in
  match a_config_state a with
  | CONFIG_IDLE => (a, Some (Fail ENOENT))
  | CONFIG_MY_INFO => emit (CMyInfo auth) CONFIG_DEVICE_UI
  | CONFIG_DEVICE_UI => emit CDeviceUi CONFIG_NODE_INFO
  | CONFIG_NODE_INFO =>
      emit CNodeInfo (if a_request_id a =? NONCE_ONLY_NODES
                      then if auth then CONFIG_OTHER_NODEINFOS else CONFIG_COMPLETE
                      else CONFIG_METADATA)
  | CONFIG_METADATA => emit (CMetadata auth) CONFIG_REGION_PRESETS
  | CONFIG_REGION_PRESETS => emit CRegionPresets CONFIG_CHANNELS
  | CONFIG_CHANNELS =>
      let i := a_config_index a in
      let last := MESHTASTIC_MAX_CHANNELS <=? i + 1 in
      let '(a', r) := emit_frame env (CChannel i auth) (if last then CONFIG_CONFIGS else CONFIG_CHANNELS)
                        (if last then 0 else u16 (i + 1)) a in (a', Some r)
  | CONFIG_CONFIGS =>
      table_stage env (ce_has_config env) N_CONFIG_TAGS (fun i => CConfig i auth)
        CONFIG_CONFIGS CONFIG_MODULES a
  | CONFIG_MODULES =>
      table_stage env (ce_has_module env) N_MODULE_TAGS (fun i => CModule i auth) CONFIG_MODULES
        (if (a_request_id a =? NONCE_ONLY_CONFIG) || negb auth
         then CONFIG_FILEMANIFEST else CONFIG_OTHER_NODEINFOS) a
  | CONFIG_OTHER_NODEINFOS => node_stage 2 env a
  | CONFIG_FILEMANIFEST =>
      (set_a_config_index 0
         (set_a_config_state (if a_request_id a =? NONCE_ONLY_NODES
                              then CONFIG_COMPLETE else CONFIG_QUEUE_STATUS) a), None)
  | CONFIG_QUEUE_STATUS => emit CQueueStatus CONFIG_COMPLETE
  | CONFIG_COMPLETE =>
      emit (CComplete (a_request_id a)) (if ce_lockdown env then CONFIG_LOCKDOWN_STATUS else CONFIG_IDLE)
  | CONFIG_LOCKDOWN_STATUS =>
      if negb (ce_lockdown env) then
        (set_a_config_index 0 (set_a_config_state CONFIG_IDLE a), Some (Fail EINVAL))
      else if ce_active env && a_admin_authorized a then
        (set_a_config_index 0 (set_a_config_state CONFIG_IDLE a), Some (Fail ENOENT))
      else emit CLockdownStatus CONFIG_IDLE
  end.

(** The outer loop; five turns are enough (see [config_turns_enough]). *)
Fixpoint config_turns (n : nat) (env : config_env) (a : phoneapi)
    : phoneapi * option (res (config_item * pframe)) :=
  match n with
  | O => (a, None)
  | S n' =>
      match config_turn env a with
      | (a1, None) => config_turns n' env a1
      | (a1, Some r) => (a1, Some r)
      end
  end.

Definition meshtastic_phoneapi_next_config_frame (env : config_env) (a : phoneapi)
    : phoneapi * res (config_item * pframe) :=
  let '(a1, r) := config_turns 5 env a in (a1, default (Fail EINVAL) r).

Definition meshtastic_phoneapi_enqueue_phone_config (request_id : Z) (a : phoneapi) : phoneapi :=
  set_a_request_id request_id (set_a_node_cursor 0 (set_a_config_index 0
    (set_a_config_state (if request_id =? NONCE_ONLY_NODES then CONFIG_NODE_INFO else CONFIG_MY_INFO)
       (set_a_current_valid false a)))).

(** ** Serving a connection *)
Definition meshtastic_phoneapi_pop_frame (env : config_env) (a : phoneapi) : phoneapi * option pframe :=
  let from_queue a := if (0 <? a_count a)%nat then queue_take_servable (ce_active env) a else (a, None) in
  if config_active a then
    match meshtastic_phoneapi_next_config_frame env a with
    | (a1, Val (_, f)) => (a1, Some f)
    | (a1, Fail _) => if config_active a1 then (a1, None) else from_queue a1
    end
  else from_queue a.

Definition meshtastic_phoneapi_set_current (a : phoneapi) : phoneapi :=
  set_a_current_valid false (set_a_has_current true a).

Definition meshtastic_phoneapi_current_frame (env : config_env) (a : phoneapi) : phoneapi * option pframe :=
  if negb (a_has_current a) then (a, None)
  else
    let a1 :=
      if negb (a_current_valid a) && config_active a then
        match meshtastic_phoneapi_next_config_frame env a with
        | (a1, Val (_, f)) => set_a_current_valid true (set_a_current f a1)
        | (a1, Fail _) => a1
        end
      else a in
    let a2 :=
      if negb (a_current_valid a1) && negb (config_active a1) && (0 <? a_count a1)%nat then
        match queue_take_servable (ce_active env) a1 with
        | (a2, Some f) => set_a_current_valid true (set_a_current f a2)
        | (a2, None) => a2
        end
      else a1 in
    (a2, if a_current_valid a2 then Some (a_current a2) else None).

Definition meshtastic_phoneapi_release_current_frame (a : phoneapi) : phoneapi :=
  set_a_current_valid false a.

(** ** The queue as a list *)
Definition view (a : phoneapi) : list pframe := frame_at a <$> seq 0 (a_count a).

Record phone_wf (a : phoneapi) : Prop := {
  pw_size : (0 < a_size a)%nat;
  pw_count : (a_count a <= a_size a)%nat;
  pw_tail : (a_tail a < a_size a)%nat;
  pw_head : a_head a = ((a_tail a + a_count a) `mod` a_size a)%nat;
}.

(** What the queue promises its users: a list, oldest frame first. *)
Definition servable (auth : bool) (f : pframe) : bool :=
  auth || negb (Z.land (pf_flags f) MT_PHONE_FRAME_F_CTRL =? 0).

Fixpoint list_take (auth : bool) (l : list pframe) : option (pframe * list pframe) :=
  match l with
  | [] => None
  | f :: l' => if servable auth f then Some (f, l')
               else (fun p => (p.1, f :: p.2)) <$> list_take auth l'
  end.

Definition list_remove (k : nat) (l : list pframe) : list pframe := take k l ++ drop (S k) l.

(** The eviction ladder on lists: the queue, the drops reported, the newcomer taken. *)
Definition list_enqueue (evict : sched_phone_evict) (size : nat) (f : pframe) (l : list pframe)
    : list pframe * list bool * bool :=
  let oldest := [rank_is_protected (pf_evict_rank (default pframe0 (head l)))] in
  if negb (length l =? size)%nat then (l ++ [f], [], true)
  else
    match evict with
    | PHONE_DROP_OLDEST => (tail l ++ [f], oldest, true)
    | PHONE_PROTECT =>
        match scan_best (fun _ => true) (fun f best => pf_evict_rank f <? pf_evict_rank best) l with
        | Some (k, v) =>
            if (pf_evict_rank v <? MT_PHONE_RANK_KEEP) && (pf_evict_rank v <=? pf_evict_rank f)
            then (list_remove k l ++ [f], [false], true)
            else if pf_evict_rank f <? MT_PHONE_RANK_KEEP then (l, [false], false)
            else (tail l ++ [f], oldest, true)
        | None => if pf_evict_rank f <? MT_PHONE_RANK_KEEP then (l, [false], false)
                  else (tail l ++ [f], oldest, true)
        end
    end.

Definition list_push_front (size : nat) (f : pframe) (l : list pframe) : list pframe :=
  f :: take (size - 1) l.

(** *** Index arithmetic *)
(** One place back from [c] places forward. *)
Lemma mod_step_back t c m :
  (t < m)%nat -> (0 < c <= m)%nat ->
  (((t + c) `mod` m + m - 1) `mod` m = (t + (c - 1)) `mod` m)%nat.
Proof.
  intros Ht Hc. rewrite (mod_wrap (t + c)) by lia.
  destruct (Nat.ltb_spec (t + c) m); rewrite !mod_wrap by lia; repeat case_match; bools; lia.
Qed.

Lemma slot_lt a i : phone_wf a -> (slot a i < a_size a)%nat.
Proof. intros []. apply Nat.mod_upper_bound. lia. Qed.

Lemma slot_inj a i j :
  phone_wf a -> (i < a_size a)%nat -> (j < a_size a)%nat -> slot a i = slot a j -> i = j.
Proof. unfold slot. intros [] Hi Hj. rewrite !mod_wrap by lia. repeat case_match; bools; lia. Qed.

Lemma length_view a : length (view a) = a_count a.
Proof. unfold view. by rewrite length_fmap, length_seq. Qed.

Lemma view_lookup a i : (i < a_count a)%nat -> view a !! i = Some (frame_at a i).
Proof. intros H. unfold view. by rewrite list_lookup_fmap, lookup_seq_lt. Qed.

Lemma frame_at_lookup a i : phone_wf a -> a_queue a !! slot a i = Some (frame_at a i).
Proof.
  intros Hw. unfold frame_at.
  destruct (lookup_lt_is_Some_2 (a_queue a) (slot a i) (slot_lt a i Hw)) as [f ->]. done.
Qed.

(** A list is the view when it has its length and its entries. *)
Lemma view_eq a l :
  length l = a_count a -> (forall i, (i < a_count a)%nat -> l !! i = Some (frame_at a i)) -> view a = l.
Proof.
  intros Hl H. apply list_eq_same_length with (a_count a); [done | apply length_view |].
  intros i x y Hi. rewrite view_lookup, H by done. congruence.
Qed.

(** *** Every operation on the array is the operation on the list *)
Lemma view_append f a :
  phone_wf a -> (a_count a < a_size a)%nat ->
  phone_wf (queue_append f a) /\ view (queue_append f a) = view a ++ [f].
Proof.
  intros Hw Hc. pose proof Hw as [Hs _ Ht Hh].
  assert (Hsz : a_size (queue_append f a) = a_size a) by (unfold a_size; simpl; by rewrite length_insert).
  assert (Hslot : forall i, slot (queue_append f a) i = slot a i) by (intros; unfold slot; by rewrite Hsz).
  split.
  - split; rewrite ?Hsz; simpl; [lia | lia | lia |].
    rewrite Hh. rewrite Nat.Div0.add_mod_idemp_l. f_equal. lia.
  - apply view_eq; [rewrite length_app, length_view; simpl; lia|].
    simpl. intros i Hi. unfold frame_at. rewrite Hslot. simpl.
    destruct (decide (i = a_count a)) as [->|Hne].
    + rewrite lookup_app_r, length_view, Nat.sub_diag by (rewrite length_view; lia).
      rewrite Hh. fold (slot a (a_count a)).
      by rewrite list_lookup_insert_eq by (by apply slot_lt).
    + rewrite lookup_app_l, view_lookup by (rewrite ?length_view; lia).
      rewrite list_lookup_insert_ne; [done|]. rewrite Hh. fold (slot a (a_count a)).
      intros E. apply slot_inj in E; lia || done.
Qed.

(** Removing the oldest frame by moving the tail. *)
Lemma view_advance a :
  phone_wf a -> (0 < a_count a)%nat ->
  let a' := set_a_count (a_count a - 1) (set_a_tail (slot a 1) a) in
  phone_wf a' /\ view a = frame_at a 0 :: view a'.
Proof.
  intros Hw Hc a'. pose proof Hw as [Hs Hn Ht Hh].
  assert (Hsz : a_size a' = a_size a) by done.
  assert (Hslot : forall i, slot a' i = slot a (S i)).
  { intros i. unfold slot. rewrite Hsz. simpl. unfold slot.
    rewrite Nat.Div0.add_mod_idemp_l. f_equal. lia. }
  split.
  - split; rewrite ?Hsz; simpl; [done | lia | by apply slot_lt |].
    rewrite Hh. unfold slot. rewrite Nat.Div0.add_mod_idemp_l. f_equal. lia.
  - apply view_eq; [simpl; rewrite length_view; simpl; lia|].
    intros [|i] Hi; [done|]. simpl. rewrite view_lookup by (simpl; lia).
    unfold frame_at. by rewrite Hslot.
Qed.

(** The shift copies each later frame one place down. *)
Lemma queue_shift_spec n k a :
  phone_wf a -> (k + n < a_size a)%nat ->
  let a' := queue_shift n k a in
  a_size a' = a_size a /\ a_tail a' = a_tail a /\ a_count a' = a_count a /\ a_head a' = a_head a /\
  forall i, (i < a_size a)%nat ->
    frame_at a' i = if ((k <=? i) && (i <? k + n))%nat then frame_at a (S i) else frame_at a i.
Proof.
  revert k a. induction n as [|n IH]; intros k a Hw Hk; simpl.
  - repeat split; try done. intros i _. case_match; bools; [lia | done].
  - set (b := set_a_queue (<[slot a k := frame_at a (S k)]> (a_queue a)) a).
    assert (Hsz : a_size b = a_size a) by (unfold a_size, b; simpl; by rewrite length_insert).
    assert (Hslot : forall i, slot b i = slot a i) by (intros; unfold slot; by rewrite Hsz).
    assert (Hwb : phone_wf b) by (destruct Hw; split; rewrite ?Hsz; done).
    assert (Hb : forall i, (i < a_size a)%nat ->
              frame_at b i = if (i =? k)%nat then frame_at a (S k) else frame_at a i).
    { intros i Hi. unfold frame_at at 1. rewrite Hslot. unfold b; simpl.
      destruct (Nat.eqb_spec i k) as [->|Hne].
      - by rewrite list_lookup_insert_eq by (by apply slot_lt).
      - rewrite list_lookup_insert_ne; [done|]. intros E. apply slot_inj in E; lia || done. }
    destruct (IH (S k) b Hwb ltac:(lia)) as (Hs & Ht & Hc & Hh & Hf).
    repeat split; [by rewrite Hs | by rewrite Ht | by rewrite Hc | by rewrite Hh |].
    intros i Hi. rewrite Hf by lia.
    destruct (Nat.leb_spec (S k) i), (Nat.ltb_spec i (S k + n)), (Nat.leb_spec k i),
      (Nat.ltb_spec i (k + S n)); simpl; try lia.
    all: rewrite Hb by lia; case_match; first [done | lia | f_equal; lia].
Qed.

Lemma view_remove k a :
  phone_wf a -> (k < a_count a)%nat ->
  phone_wf (queue_remove_at k a) /\ view (queue_remove_at k a) = list_remove k (view a).
Proof.
  intros Hw Hk. pose proof Hw as [Hs Hn Ht Hh].
  destruct (queue_shift_spec (a_count a - 1 - k) k a Hw ltac:(lia)) as (Hsz & Ht' & _ & _ & Hf).
  set (a1 := queue_shift (a_count a - 1 - k) k a) in *.
  assert (Hfr : forall i, frame_at (queue_remove_at k a) i = frame_at a1 i) by done.
  assert (Hsz' : a_size (queue_remove_at k a) = a_size a) by done || (unfold queue_remove_at; exact Hsz).
  split.
  - split; rewrite ?Hsz'; simpl; fold a1; [lia | lia | lia |].
    rewrite Ht', Hh. apply mod_step_back; lia.
  - apply view_eq; unfold list_remove.
    + simpl. rewrite length_app, length_take, length_drop, length_view. lia.
    + simpl. intros i Hi. rewrite Hfr, Hf by lia.
      destruct (decide (i < k)%nat).
      * rewrite lookup_app_l by (rewrite length_take, length_view; lia).
        rewrite lookup_take_lt, view_lookup by lia. case_match; bools; lia || done.
      * rewrite lookup_app_r by (rewrite length_take, length_view; lia).
        rewrite length_take, length_view, lookup_drop, view_lookup by lia.
        case_match; bools; [|lia]. do 2 f_equal. lia.
Qed.

(** Dropping the newest frame by moving the head. *)
Lemma view_retreat a :
  phone_wf a -> (0 < a_count a)%nat ->
  let a' := set_a_count (a_count a - 1) (set_a_head ((a_head a + a_size a - 1) `mod` a_size a)%nat a) in
  phone_wf a' /\ view a' = take (a_count a - 1) (view a).
Proof.
  intros Hw Hc a'. pose proof Hw as [Hs Hn Ht Hh]. split.
  - split; [done | simpl; change (a_size a') with (a_size a); lia | done |].
    simpl. change (a_size a') with (a_size a). rewrite Hh. apply mod_step_back; lia.
  - apply view_eq; [rewrite length_take, length_view; simpl; lia|].
    simpl. intros i Hi. by rewrite lookup_take_lt, view_lookup by lia.
Qed.

Lemma view_push f a :
  phone_wf a -> (a_count a < a_size a)%nat ->
  let tail := ((a_tail a + a_size a - 1) `mod` a_size a)%nat in
  let a' := set_a_count (a_count a + 1) (set_a_queue (<[tail := f]> (a_queue a)) (set_a_tail tail a)) in
  phone_wf a' /\ view a' = f :: view a.
Proof.
  intros Hw Hc tail a'. pose proof Hw as [Hs Hn Ht Hh].
  assert (Hsz : a_size a' = a_size a) by (unfold a_size; simpl; by rewrite length_insert).
  assert (Htl : (tail < a_size a)%nat) by (apply Nat.mod_upper_bound; lia).
  assert (Hslot : forall i, (i < a_size a)%nat -> slot a' (S i) = slot a i).
  { intros i Hi. unfold slot. rewrite Hsz. simpl. unfold tail.
    rewrite Nat.Div0.add_mod_idemp_l.
    replace (a_tail a + a_size a - 1 + S i)%nat with (a_tail a + i + 1 * a_size a)%nat by lia.
    apply Nat.Div0.mod_add. }
  assert (Hslot0 : slot a' 0 = tail) by (unfold slot; rewrite Hsz; simpl; rewrite Nat.add_0_r; by apply Nat.mod_small).
  assert (Htl' : forall i, (i + 1 < a_size a)%nat -> slot a i <> tail).
  { intros i Hi. unfold slot, tail. rewrite !mod_wrap by lia. repeat case_match; bools; lia. }
  split.
  - split; rewrite ?Hsz; simpl; [lia | lia | lia |].
    rewrite Hh. destruct (a_count a) as [|c] eqn:Hcount.
    + replace (tail + (0 + 1))%nat with (tail + 1)%nat by lia. unfold tail.
      rewrite Nat.Div0.add_mod_idemp_l, Nat.add_0_r.
      replace (a_tail a + a_size a - 1 + 1)%nat with (a_tail a + 1 * a_size a)%nat by lia.
      symmetry. apply Nat.Div0.mod_add.
    + unfold tail. rewrite Nat.Div0.add_mod_idemp_l.
      replace (a_tail a + a_size a - 1 + (S c + 1))%nat with (a_tail a + S c + 1 * a_size a)%nat by lia.
      symmetry. apply Nat.Div0.mod_add.
  - apply view_eq; [simpl; rewrite length_view; lia|].
    simpl. intros [|i] Hi; unfold frame_at.
    + rewrite Hslot0. simpl. by rewrite list_lookup_insert_eq by done.
    + simpl. rewrite view_lookup, Hslot by lia. simpl.
      rewrite list_lookup_insert_ne; [done|]. intros E. by apply (Htl' i); [lia|].
Qed.

Lemma push_frame_front_list f a :
  phone_wf a ->
  let a' := meshtastic_phoneapi_push_frame_front f a in
  phone_wf a' /\ view a' = list_push_front (a_size a) f (view a) /\ a_size a' = a_size a.
Proof.
  intros Hw a'. pose proof Hw as [Hs Hn Ht Hh].
  unfold a', meshtastic_phoneapi_push_frame_front, list_push_front.
  destruct (Nat.eqb_spec (a_count a) (a_size a)) as [Hf|Hf].
  - destruct (view_retreat a Hw ltac:(lia)) as [Hw1 Hv1].
    set (a1 := set_a_count (a_count a - 1) _) in *.
    destruct (view_push f a1 Hw1) as [Hw2 Hv2]; [simpl; change (a_size a1) with (a_size a); lia|].
    split; [exact Hw2|]. split; [rewrite Hv2, Hv1, Hf; done|].
    unfold a_size. simpl. by rewrite length_insert.
  - destruct (view_push f a Hw ltac:(lia)) as [Hw2 Hv2].
    split; [exact Hw2|]. split; [etrans; [exact Hv2|]; rewrite take_ge; [done | rewrite length_view; lia]|].
    unfold a_size. simpl. by rewrite length_insert.
Qed.

Lemma list_take_prefix auth l k :
  (forall i f, (i < k)%nat -> l !! i = Some f -> servable auth f = false) ->
  (k <= length l)%nat ->
  list_take auth l = (fun p => (p.1, take k l ++ p.2)) <$> list_take auth (drop k l).
Proof.
  revert l. induction k as [|k IH]; intros l Hp Hl.
  { rewrite drop_0, take_0. by destruct (list_take auth l) as [[]|]. }
  destruct l as [|f l]; [simpl in Hl; lia|]. simpl.
  rewrite (Hp O f) by (done || lia).
  rewrite (IH l); [|intros i g Hi Hg; apply (Hp (S i) g); [lia | done] | simpl in Hl; lia].
  destruct (list_take auth (drop k l)) as [[]|]; done.
Qed.

(** The loop looks at the frames in order and takes the first one it may serve. *)
Lemma take_servable_loop_list n i auth a a' r :
  phone_wf a -> (i + n = a_count a)%nat ->
  (forall j f, (j < i)%nat -> view a !! j = Some f -> servable auth f = false) ->
  take_servable_loop n i auth a = (a', r) ->
  phone_wf a' /\ a_size a' = a_size a /\
  match list_take auth (view a) with
  | Some (f, l) => r = Some f /\ view a' = l
  | None => r = None /\ a' = a
  end.
Proof.
  revert i. induction n as [|n IH]; intros i Hw Hi Hp.
  - simpl. intros [= <- <-]. rewrite (list_take_prefix auth (view a) i Hp) by (rewrite length_view; lia).
    by rewrite drop_ge by (rewrite length_view; lia).
  - cbn [take_servable_loop]. intros E.
    assert (Hlk : view a !! i = Some (frame_at a i)) by (apply view_lookup; lia).
    destruct (servable auth (frame_at a i)) eqn:Hsv.
    + assert (negb auth && (Z.land (pf_flags (frame_at a i)) MT_PHONE_FRAME_F_CTRL =? 0) = false) as Hc.
      { unfold servable in Hsv. destruct auth; [done|]. simpl in *. by apply negb_true_iff. }
      rewrite Hc in E.
      rewrite (list_take_prefix auth (view a) i Hp) by (rewrite length_view; lia).
      rewrite (drop_S _ _ _ Hlk). simpl. rewrite Hsv. simpl.
      destruct (Nat.eqb_spec i 0) as [->|Hne]; injection E as <- <-.
      * destruct (view_advance a Hw ltac:(lia)) as [Hw' Hv].
        split; [exact Hw'|]. split; [done|]. split; [done|]. rewrite Hv. simpl. by rewrite drop_0.
      * destruct (view_remove i a Hw ltac:(lia)) as [Hw' Hv]. split; [exact Hw'|].
        split; [|split; [done | exact Hv]].
        apply (queue_shift_spec (a_count a - 1 - i) i a); [done | destruct Hw; lia].
    + assert (negb auth && (Z.land (pf_flags (frame_at a i)) MT_PHONE_FRAME_F_CTRL =? 0) = true) as Hc.
      { unfold servable in Hsv. destruct auth; [done|]. simpl in *. by apply negb_false_iff in Hsv. }
      rewrite Hc in E. apply (IH (S i)) in E; [done | done | lia |].
      intros j f Hj Hf. destruct (decide (j = i)) as [->|]; [congruence|]. apply (Hp j); [lia | done].
Qed.

Lemma queue_take_servable_list active a a' r :
  phone_wf a -> queue_take_servable active a = (a', r) ->
  phone_wf a' /\ a_size a' = a_size a /\
  match list_take (meshtastic_phoneapi_authorized active a) (view a) with
  | Some (f, l) => r = Some f /\ view a' = l
  | None => r = None /\ a' = a
  end.
Proof. intros Hw. apply take_servable_loop_list; [done | done |]. intros j f Hj. lia. Qed.

Lemma head_view a : (0 < a_count a)%nat -> head (view a) = Some (frame_at a 0).
Proof. intros H. by rewrite head_lookup, view_lookup. Qed.

(** The latch does not touch the queue. *)
Lemma view_saturated b a : phone_wf a -> phone_wf (set_a_saturated b a) /\ view (set_a_saturated b a) = view a.
Proof. intros []. split; [split; done|]. done. Qed.

Lemma view_append_full (b : bool) (s : bool) f a l :
  phone_wf a -> view a = l -> (length l < a_size a)%nat ->
  let a' := queue_append f (if b then set_a_saturated s a else a) in
  phone_wf a' /\ view a' = l ++ [f] /\ a_size a' = a_size a.
Proof.
  intros Hw Hv Hl a'. rewrite <- Hv, length_view in Hl. unfold a'. destruct b.
  - destruct (view_saturated s a Hw) as [Hw1 Hv1].
    destruct (view_append f (set_a_saturated s a) Hw1 Hl) as [Hw2 Hv2].
    rewrite Hv2, Hv1, Hv. repeat split; [by apply Hw2..|]. unfold a_size. simpl. by rewrite length_insert.
  - destruct (view_append f a Hw Hl) as [Hw2 Hv2].
    rewrite Hv2, Hv. repeat split; [by apply Hw2..|]. unfold a_size. simpl. by rewrite length_insert.
Qed.

Lemma queue_drop_oldest_list a :
  phone_wf a -> (0 < a_count a)%nat ->
  phone_wf (queue_drop_oldest a).1 /\ view (queue_drop_oldest a).1 = tail (view a) /\
  a_size (queue_drop_oldest a).1 = a_size a /\
  (queue_drop_oldest a).2 = rank_is_protected (pf_evict_rank (default pframe0 (head (view a)))).
Proof.
  intros Hw Hc. destruct (view_advance a Hw Hc) as [Hw' Hv].
  rewrite head_view by done. rewrite Hv. simpl. done.
Qed.

Lemma negb_if {A} (b : bool) (x y : A) : (if b then x else y) = if negb b then y else x.
Proof. by destruct b. Qed.

Lemma enqueue_frame_list evict f a :
  phone_wf a ->
  let '(a', drops, taken) := enqueue_frame evict f a in
  phone_wf a' /\ a_size a' = a_size a /\
  list_enqueue evict (a_size a) f (view a) = (view a', drops, taken).
Proof.
  intros Hw. pose proof Hw as [Hs Hn _ _].
  unfold enqueue_frame, list_enqueue, find_victim. fold (view a). rewrite !length_view.
  destruct (Nat.eqb_spec (a_count a) (a_size a)) as [Hf|Hf]; simpl negb; cbn match.
  2:{ destruct (view_append_full (a_saturated a) false f a (view a) Hw eq_refl) as (H1 & H2 & H3);
        [rewrite length_view; lia|]. rewrite H2. done. }
  destruct (queue_drop_oldest_list a Hw ltac:(lia)) as (Hw1 & Hv1 & Hs1 & Hd).
  assert (Hc1 : a_count (queue_drop_oldest a).1 = (a_count a - 1)%nat) by done.
  destruct (queue_drop_oldest a) as [a1 d]. simpl in Hw1, Hv1, Hs1, Hd, Hc1.
  assert (Hlt : (length (tail (view a)) < a_size a1)%nat) 
    by (rewrite <- Hv1, length_view, Hc1, Hs1; lia).
  assert (Hlast : forall b s : bool, let a' := queue_append f (if b then set_a_saturated s a1 else a1) in
     phone_wf a' /\ a_size a' = a_size a /\ view a' = tail (view a) ++ [f]).
  { intros b s. destruct (view_append_full b s f a1 _ Hw1 Hv1 Hlt) as (H1 & H2 & H3).
    split; [done|]. split; [congruence | done]. }
  assert (Hresort : let a' := queue_append f (if a_saturated a1 then a1 else set_a_saturated true a1) in
     phone_wf a' /\ a_size a' = a_size a /\ view a' = tail (view a) ++ [f]).
  { simpl. rewrite negb_if. apply Hlast. }
  destruct evict.
  { destruct (Hlast (a_saturated a1) false) as (H1 & H2 & ->). rewrite Hd. done. }
  destruct (scan_best _ _ (view a)) as [[k v]|] eqn:Ev.
  - destruct (_ && _) eqn:Hc.
    + apply (scan_best_first _ _ pf_evict_rank) in Ev as (Hk & _); [|done].
      apply lookup_lt_Some in Hk. rewrite length_view in Hk.
      destruct (view_remove k a Hw Hk) as [Hw2 Hv2].
      assert (Hs2 : a_size (queue_remove_at k a) = a_size a).
      { apply (queue_shift_spec (a_count a - 1 - k) k a); [done | lia]. }
      destruct (view_append_full (a_saturated (queue_remove_at k a)) false f _ _ Hw2 Hv2) as (H1 & H2 & H3).
      { rewrite Hs2. unfold list_remove. rewrite length_app, length_take, length_drop, length_view. lia. }
      rewrite H2. split; [done|]. split; [etrans; [exact H3 | exact Hs2] | done]. 
    + destruct (pf_evict_rank f <? MT_PHONE_RANK_KEEP); [done|].
      destruct Hresort as (H1 & H2 & ->). rewrite Hd. done.
  - destruct (pf_evict_rank f <? MT_PHONE_RANK_KEEP); [done|]. destruct Hresort as (H1 & H2 & ->). rewrite Hd. done.
Qed.

(** ** Any sequence of operations on the queue *)
Inductive queue_op :=
  | QEnqueue (evict : sched_phone_evict) (from : from_radio) (encoded : option (list Z))
  | QLog (data : list Z)
  | QTake (active : bool)
  | QPushFront (f : pframe)
  | QAuthorize (b : bool)          (* the passphrase was proved, or the session revoked *)
  | QSessionReset
  | QReset.

(** What an operation shows: the drops it reports, the frame it hands out. *)
Definition queue_out : Type := list bool * option pframe.

Definition queue_step (op : queue_op) (a : phoneapi) : phoneapi * queue_out :=
  match op with
  | QEnqueue evict from encoded =>
      let '(a', _, drops) := meshtastic_phoneapi_enqueue_fromradio evict from encoded a in (a', (drops, None))
  | QLog data => let '(a', _) := enqueue_log_frame data a in (a', ([], None))
  | QTake active => let '(a', r) := queue_take_servable active a in (a', ([], r))
  | QPushFront f => (meshtastic_phoneapi_push_frame_front f a, ([], None))
  | QAuthorize b => (set_a_admin_authorized b a, ([], None))
  | QSessionReset => (meshtastic_phoneapi_session_reset a, ([], None))
  | QReset => (meshtastic_phoneapi_reset a, ([], None))
  end.

(** The same on the abstract state: the list, and whether the session is authorized. *)
Definition spec_step (size : nat) (op : queue_op) (s : list pframe * bool)
    : (list pframe * bool) * queue_out :=
  let '(l, auth) := s in
  match op with
  | QEnqueue evict from encoded =>
      match encoded with
      | None => (s, ([], None))
      | Some data =>
          let f := PFrame data (fromradio_evict_rank from) (fromradio_frame_flags from) in
          let '(l', drops, _) := list_enqueue evict size f l in ((l', auth), (drops, None))
      end
  | QLog data =>
      if (size <=? length l)%nat then (s, ([], None))
      else ((l ++ [PFrame data MT_PHONE_RANK_LOG 0], auth), ([], None))
  | QTake active =>
      match list_take (negb active || auth) l with
      | Some (f, l') => ((l', auth), ([], Some f))
      | None => (s, ([], None))
      end
  | QPushFront f => ((list_push_front size f l, auth), ([], None))
  | QAuthorize b => ((l, b), ([], None))
  | QSessionReset => ((l, false), ([], None))
  | QReset => (([], false), ([], None))
  end.

Fixpoint run_ops {S : Type} (step : queue_op -> S -> S * queue_out) (ops : list queue_op) (s : S)
    : S * list queue_out :=
  match ops with
  | [] => (s, [])
  | op :: ops' => let '(s1, o) := step op s in let '(s2, os) := run_ops step ops' s1 in (s2, o :: os)
  end.

Definition queue_abs (a : phoneapi) : list pframe * bool := (view a, a_admin_authorized a).

(** The queue operations leave the rest of the session alone. *)
Definition session_part (a : phoneapi) :=
  (a_config_state a, a_config_index a, a_node_cursor a, a_request_id a, a_admin_authorized a,
   a_has_current a).

Lemma queue_shift_session n k a : session_part (queue_shift n k a) = session_part a.
Proof. revert k a. induction n as [|n IH]; intros k a; simpl; [done|]. by rewrite IH. Qed.

Lemma take_servable_session n i auth a :
  session_part (take_servable_loop n i auth a).1 = session_part a.
Proof.
  revert i. induction n as [|n IH]; intros i; [done|]. cbn [take_servable_loop].
  destruct (negb auth && _); [apply IH|]. destruct (i =? 0)%nat; [done|].
  apply (queue_shift_session (a_count a - 1 - i) i a).
Qed.

Lemma enqueue_frame_session evict f a : session_part (enqueue_frame evict f a).1.1 = session_part a.
Proof.
  unfold enqueue_frame.
  assert (Hl : session_part (let '(a1, d) := queue_drop_oldest a in
     (queue_append f (if a_saturated a1 then a1 else set_a_saturated true a1), [d], true)).1.1 = session_part a).
  { simpl. by destruct (a_saturated a). }
  destruct (negb _); [by simpl; destruct (a_saturated a)|].
  destruct evict; [by simpl; destruct (a_saturated a)|].
  destruct (find_victim a) as [[k v]|]; repeat case_match; try done; simpl.
  all: rewrite <- (queue_shift_session (a_count a - 1 - k) k a).
  all: by destruct (a_saturated _).
Qed.

Lemma session_auth a b : session_part a = session_part b -> a_admin_authorized a = a_admin_authorized b.
Proof. by intros [=]. Qed.

Lemma queue_step_refines op a :
  phone_wf a ->
  let '(a', o) := queue_step op a in
  phone_wf a' /\ a_size a' = a_size a /\ spec_step (a_size a) op (queue_abs a) = (queue_abs a', o).
Proof.
  intros Hw. pose proof Hw as [Hs Hn Ht Hh]. unfold queue_abs. destruct op; simpl.
  - unfold meshtastic_phoneapi_enqueue_fromradio. destruct encoded as [data|]; [|done].
    set (f := PFrame _ _ _). pose proof (enqueue_frame_list evict f a Hw) as H.
    pose proof (session_auth _ _ (enqueue_frame_session evict f a)) as Ha.
    destruct (enqueue_frame evict f a) as [[a' drops] t]. destruct H as (H1 & H2 & ->).
    simpl in Ha. by rewrite Ha.
  - unfold enqueue_log_frame. rewrite length_view. destruct (Nat.leb_spec (a_size a) (a_count a)); [done|].
    destruct (view_append_full false false (PFrame data MT_PHONE_RANK_LOG 0) a (view a) Hw eq_refl)
      as (H1 & H2 & H3); [by rewrite length_view|]. simpl in *. by rewrite H2.
  - destruct (queue_take_servable active a) as [a' r] eqn:E.
    pose proof (session_auth _ _ (take_servable_session (a_count a) 0 (meshtastic_phoneapi_authorized active a) a)) as Ha.
    unfold queue_take_servable in E. rewrite E in Ha. simpl in Ha.
    apply queue_take_servable_list in E as (H1 & H2 & H3); [|done].
    unfold meshtastic_phoneapi_authorized in H3. split; [done|]. split; [done|].
    destruct (list_take _ (view a)) as [[f l]|]; destruct H3 as [-> H3]; [|by subst].
    by rewrite <- H3, Ha.
  - destruct (push_frame_front_list f a Hw) as (H1 & H2 & H3). split; [done|]. split; [done|].
    rewrite H2. f_equal. f_equal. unfold meshtastic_phoneapi_push_frame_front. by case_match.
  - done.
  - done.
  - split; [|done]. split; simpl; [done | lia | done |]. by rewrite Nat.Div0.mod_0_l.
Qed.

(** The circular array is a queue. From an empty queue of any size up to 255, any
    sequence of operations - frames queued under either eviction policy, log records,
    frames taken with or without authorization, frames pushed back, sessions authorized,
    reset or cleared - shows exactly what the same sequence shows on a plain list, drop
    for drop and frame for frame; the list is what the array holds from its tail, and the
    indices stay within it. *)
Theorem phone_queue_is_a_list (size : nat) (ops : list queue_op) :
  (0 < size <= 255)%nat ->
  let '(a, outs) := run_ops queue_step ops (meshtastic_phoneapi_init size) in
  run_ops (spec_step size) ops ([], false) = (queue_abs a, outs) /\
  phone_wf a /\ a_size a = size /\ (length (view a) <= size)%nat.
Proof.
  intros Hsize.
  assert (Hgen : forall ops a, phone_wf a ->
    let '(a', outs) := run_ops queue_step ops a in
    run_ops (spec_step (a_size a)) ops (queue_abs a) = (queue_abs a', outs) /\
    phone_wf a' /\ a_size a' = a_size a).
  { clear. intros ops. induction ops as [|op ops IH]; intros a Hw; cbn [run_ops]; [done|].
    pose proof (queue_step_refines op a Hw) as H. destruct (queue_step op a) as [a1 o].
    destruct H as (Hw1 & Hs1 & ->). specialize (IH a1 Hw1). rewrite Hs1 in IH.
    destruct (run_ops queue_step ops a1) as [a2 os]. destruct IH as (-> & Hw2 & Hs2). done. }
  assert (Hsz : a_size (meshtastic_phoneapi_init size) = size)
    by (unfold a_size; simpl; apply length_replicate).
  assert (Hw : phone_wf (meshtastic_phoneapi_init size)).
  { split; rewrite ?Hsz; simpl; [lia | lia | lia |]. by rewrite Nat.Div0.mod_0_l. }
  specialize (Hgen ops _ Hw). destruct (run_ops queue_step ops _) as [a outs].
  rewrite Hsz in Hgen. destruct Hgen as (H1 & H2 & H3). split; [done|]. split; [done|].
  split; [done|]. rewrite length_view, <- H3. apply H2.
Qed.

Definition sample_ops : list queue_op :=
  [QEnqueue PHONE_PROTECT (FrPacket (Some 1)) (Some [10]); QEnqueue PHONE_PROTECT (FrPacket (Some 3)) (Some [11]);
   QTake true; QEnqueue PHONE_PROTECT FrQueueStatus (Some [12]); QTake true; QPushFront (PFrame [13] 4 0);
   QEnqueue PHONE_PROTECT (FrPacket (Some 4)) (Some [14]); QLog [15]; QTake true; QAuthorize true;
   QTake true; QSessionReset; QTake false].

Lemma phone_queue_is_a_list_witness :
  (0 < 3 <= 255)%nat /\
  let '(a, outs) := run_ops queue_step sample_ops (meshtastic_phoneapi_init 3) in
  run_ops (spec_step 3) sample_ops ([], false) = (queue_abs a, outs) /\
  phone_wf a /\ a_size a = 3%nat /\ (length (view a) <= 3)%nat.
Proof. split; [lia | apply (phone_queue_is_a_list 3 sample_ops); lia]. Defined.

(** *** The eviction ladder *)
Lemma evict_rank_range from : 0 <= fromradio_evict_rank from <= MT_PHONE_RANK_KEEP.
Proof.
  destruct from as [| | | | |[p|]|]; simpl; repeat case_match;
    unfold MT_PHONE_RANK_KEEP, MT_PHONE_RANK_STATUS, MT_PHONE_RANK_LOG, MT_PHONE_RANK_SAMPLE, MT_PHONE_RANK_IDENTITY; lia.
Qed.

Lemma list_remove_app k l r : (k < length l)%nat -> list_remove k (l ++ r) = list_remove k l ++ r.
Proof. intros H. unfold list_remove. by rewrite take_app_le, drop_app_le, app_assoc by lia. Qed.

Lemma list_remove_last l x : list_remove (length l) (l ++ [x]) = l.
Proof. unfold list_remove. rewrite take_app_length, drop_ge, app_nil_r; [done|]. rewrite length_app. simpl. lia. Qed.

(** The ladder on a full list: one frame of the queue with the newcomer goes, a least
    ranked one, the oldest of these. *)
Lemma list_enqueue_least size f l :
  length l = size -> (0 < size)%nat ->
  Forall (fun g => pf_evict_rank g <= MT_PHONE_RANK_KEEP) l -> pf_evict_rank f <= MT_PHONE_RANK_KEEP ->
  exists k g,
    least_entry (fun _ => true) pf_evict_rank le (l ++ [f]) k g /\
    (list_enqueue PHONE_PROTECT size f l).1 =
      (list_remove k (l ++ [f]), [rank_is_protected (pf_evict_rank g)]).
Proof.
  intros Hl Hs Hall Hf. unfold list_enqueue. rewrite Hl, Nat.eqb_refl. cbn [negb].
  destruct (scan_best _ _ l) as [[k v]|] eqn:Ev.
  2:{ exfalso. destruct l as [|x l]; [simpl in Hl; lia|].
      pose proof (proj1 (scan_best_None _ _ _) Ev x) as H. discriminate H. set_solver. }
  apply (scan_best_first _ _ pf_evict_rank) in Ev; [|done].
  pose proof Ev as (Hk & _ & Hmin). pose proof (lookup_lt_Some _ _ _ Hk) as Hkl.
  rewrite Forall_forall in Hall. unfold rank_is_protected.
  destruct (Z.ltb_spec (pf_evict_rank v) MT_PHONE_RANK_KEEP) as [Hv|Hv]; cbn [andb];
    [destruct (Z.leb_spec (pf_evict_rank v) (pf_evict_rank f)) as [Hvf|Hvf]|].
  - exists k, v. split; [apply least_entry_snoc; [done | lia]|]. simpl.
    rewrite list_remove_app by done. do 2 f_equal. symmetry. apply Z.leb_gt. lia.
  - exists (length l), f. split.
    + apply least_entry_last; [done | lia |]. intros j w Hw _. destruct (Hmin j w Hw eq_refl). lia.
    + rewrite (proj2 (Z.ltb_lt (pf_evict_rank f) MT_PHONE_RANK_KEEP)) by lia. simpl.
      rewrite list_remove_last. do 2 f_equal. symmetry. apply Z.leb_gt. lia.
  - assert (Heq : forall j w, l !! j = Some w -> pf_evict_rank w = MT_PHONE_RANK_KEEP).
    { intros j w Hw. destruct (Hmin j w Hw eq_refl).
      pose proof (Hall w (list_elem_of_lookup_2 _ _ _ Hw)). lia. }
    destruct (Z.ltb_spec (pf_evict_rank f) MT_PHONE_RANK_KEEP) as [Hr|Hr].
    + exists (length l), f. split.
      * apply least_entry_last; [done | lia |]. intros j w Hw _. rewrite (Heq j w Hw). lia.
      * simpl. rewrite list_remove_last. do 2 f_equal. symmetry. apply Z.leb_gt. lia.
    + destruct l as [|x l]; [simpl in Hl; lia|]. exists O, x. split; [|done].
      split; [done|]. split; [done|]. intros j y Hy _. rewrite (Heq O x eq_refl).
      assert (pf_evict_rank y = MT_PHONE_RANK_KEEP) as ->; [|lia].
      apply lookup_app_Some in Hy as [Hy|[_ Hy]]; [by apply (Heq j)|].
      apply list_lookup_singleton_Some in Hy as [_ <-]. lia.
Qed.

(** A full queue under the protecting policy loses the least valuable frame. Among
    the frames queued and the newcomer exactly one goes: one of least rank, the oldest of
    these, the order of the others kept; the drop is reported, and reported as the loss
    of a protected frame only when that frame - and so every other - was protected. The
    call succeeds in each case. *)
Theorem eviction_drops_the_least (a : phoneapi) (from : from_radio) (data : list Z) :
  phone_wf a -> a_count a = a_size a ->
  Forall (fun g => pf_evict_rank g <= MT_PHONE_RANK_KEEP) (view a) ->
  let f := PFrame data (fromradio_evict_rank from) (fromradio_frame_flags from) in
  let '(a', ret, drops) := meshtastic_phoneapi_enqueue_fromradio PHONE_PROTECT from (Some data) a in
  ret = OK /\ phone_wf a' /\
  exists k g,
    least_entry (fun _ => true) pf_evict_rank le (view a ++ [f]) k g /\
    view a' = list_remove k (view a ++ [f]) /\
    drops = [rank_is_protected (pf_evict_rank g)].
Proof.
  intros Hw Hfull Hall f. pose proof Hw as [Hs _ _ _].
  unfold meshtastic_phoneapi_enqueue_fromradio. fold f.
  pose proof (enqueue_frame_list PHONE_PROTECT f a Hw) as H.
  destruct (enqueue_frame PHONE_PROTECT f a) as [[a' drops] t]. destruct H as (H1 & _ & H2).
  destruct (list_enqueue_least (a_size a) f (view a)) as (k & g & Hl & He);
    [by rewrite length_view | done | done | apply evict_rank_range |].
  rewrite H2 in He. simpl in He. injection He as He1 He2.
  split; [done|]. split; [done|]. by exists k, g.
Qed.

(** Three frames after two were served, so that the array is used round its end. *)
Definition full_sample : phoneapi :=
  Api [PFrame [1] 4 0; PFrame [2] 3 0; PFrame [3] 2 0] 1 1 3 false false pframe0 false 0 CONFIG_IDLE 0 0 0 true false 0.

Lemma eviction_drops_the_least_witness :
  let f := PFrame [9] (fromradio_evict_rank (FrPacket (Some 1))) (fromradio_frame_flags (FrPacket (Some 1))) in
  let '(a', ret, drops) :=
    meshtastic_phoneapi_enqueue_fromradio PHONE_PROTECT (FrPacket (Some 1)) (Some [9]) full_sample in
  ret = OK /\ phone_wf a' /\
  exists k g,
    least_entry (fun _ => true) pf_evict_rank le (view full_sample ++ [f]) k g /\
    view a' = list_remove k (view full_sample ++ [f]) /\
    drops = [rank_is_protected (pf_evict_rank g)].
Proof.
  apply (eviction_drops_the_least full_sample (FrPacket (Some 1)) [9]).
  - split; vm_compute; lia || done.
  - done.
  - vm_compute. repeat apply Forall_cons_2; try apply Forall_nil_2; done.
Defined.

(** ** The configuration stream *)

(** *** The walk over the node database *)
Lemma next_after_Some c nodes x :
  meshtastic_nodedb_get_next_after c nodes = Some x ->
  x ∈ nodes /\ c < x /\ forall y, y ∈ nodes -> c < y -> x <= y.
Proof.
  unfold meshtastic_nodedb_get_next_after.
  destruct (scan_best _ _ nodes) as [[k v]|] eqn:E; simpl; [intros [= ->]|done].
  apply (scan_best_first _ _ (fun n => n)) in E as (Hk & Hx & Hmin); [|done].
  split; [by eapply list_elem_of_lookup_2|]. split; [bools; lia|].
  intros y Hy Hc. apply list_elem_of_lookup in Hy as [j Hj].
  destruct (Hmin j y Hj); [bools; lia | done].
Qed.

Lemma next_after_None c nodes :
  meshtastic_nodedb_get_next_after c nodes = None -> forall y, y ∈ nodes -> y <= c.
Proof.
  unfold meshtastic_nodedb_get_next_after.
  destruct (scan_best _ _ nodes) as [[k v]|] eqn:E; simpl; [done|]. intros _ y Hy.
  pose proof (proj1 (scan_best_None _ _ _) E y Hy). simpl in *. bools; lia.
Qed.

(** *** The loop always comes to a frame or an error *)
Definition quiet_rank (s : config_state) : nat :=
  match s with
  | CONFIG_CONFIGS => 4 | CONFIG_MODULES => 3 | CONFIG_OTHER_NODEINFOS => 2 | CONFIG_FILEMANIFEST => 1
  | _ => 0
  end.

Lemma table_stage_quiet env has total item stage after a a' :
  table_stage env has total item stage after a = (a', None) -> a_config_state a' = after.
Proof.
  unfold table_stage. destruct (_ <? total); [|by intros [= <-]].
  destruct (emit_frame _ _ _ _ _). done.
Qed.

Lemma node_stage_own env a :
  node_stage 2 env a = node_stage 3 env a.
Proof.
  cbn [node_stage]. destruct (meshtastic_nodedb_get_next_after (a_node_cursor a) _) as [x|]; [|done].
  destruct (Z.eqb_spec x (ce_node_id env)) as [->|]; [|done].
  cbn [a_node_cursor set_a_node_cursor].
  destruct (meshtastic_nodedb_get_next_after (ce_node_id env) _) as [y|] eqn:E; [|done].
  apply next_after_Some in E as (_ & Hlt & _). destruct (Z.eqb_spec y (ce_node_id env)); [lia | done].
Qed.

Lemma node_stage_quiet env a a' :
  node_stage 2 env a = (a', None) -> a_config_state a' = CONFIG_FILEMANIFEST.
Proof.
  cbn [node_stage]. destruct (meshtastic_nodedb_get_next_after (a_node_cursor a) _) as [x|]; [|by intros [= <-]].
  destruct (Z.eqb_spec x (ce_node_id env)) as [->|]; [|by destruct (emit_frame _ _ _ _ _)].
  cbn [a_node_cursor set_a_node_cursor].
  destruct (meshtastic_nodedb_get_next_after (ce_node_id env) _) as [y|] eqn:E; [|by intros [= <-]].
  apply next_after_Some in E as (_ & Hlt & _). destruct (Z.eqb_spec y (ce_node_id env)); [lia|].
  by destruct (emit_frame _ _ _ _ _).
Qed.

(** A turn without a frame moves the stream to a later stage. *)
Lemma config_turn_descends env a a' :
  config_turn env a = (a', None) ->
  (quiet_rank (a_config_state a') < quiet_rank (a_config_state a))%nat /\ config_active a' = true.
Proof.
  unfold config_turn, config_active.
  destruct (a_config_state a) eqn:Hst; try (by destruct (emit_frame _ _ _ _ _)); intros E.
  - done.
  - apply table_stage_quiet in E. rewrite E. simpl. split; [lia | done].
  - apply table_stage_quiet in E. rewrite E. case_match; simpl; split; done || lia.
  - apply node_stage_quiet in E. rewrite E. simpl. split; [lia | done].
  - injection E as <-. simpl. case_match; simpl; split; done || lia.
  - repeat case_match; by simplify_eq.
Qed.

Lemma config_turns_enough n env a :
  (quiet_rank (a_config_state a) < n)%nat -> is_Some (config_turns n env a).2.
Proof.
  revert a. induction n as [|n IH]; intros a Hn; [lia|]. simpl.
  destruct (config_turn env a) as [a1 [r|]] eqn:E; [done|].
  apply config_turn_descends in E as [Hr _]. apply IH. lia.
Qed.

Lemma config_turns_more n m env a :
  (n <= m)%nat -> is_Some (config_turns n env a).2 -> config_turns m env a = config_turns n env a.
Proof.
  revert m a. induction n as [|n IH]; intros m a Hm; simpl; [by intros []|].
  destruct m as [|m]; [lia|]. simpl. destruct (config_turn env a) as [a1 [r|]]; [done|].
  intros H. apply IH; [lia | done].
Qed.

Lemma config_turns_quiet env a a1 :
  config_turn env a = (a1, None) -> config_turns 5 env a = config_turns 5 env a1.
Proof.
  intros E. assert (config_turns 5 env a = config_turns 4 env a1) as -> by (simpl; by rewrite E).
  symmetry. apply config_turns_more; [lia|]. apply config_turns_enough.
  apply config_turn_descends in E as [Hr _]. destruct (a_config_state a); simpl in Hr; lia.
Qed.

(** *** Popping frame by frame *)
Lemma config_turn_idle env a : config_active a = false -> config_turn env a = (a, Some (Fail ENOENT)).
Proof. unfold config_active, config_turn. by destruct (a_config_state a). Qed.

Lemma pop_quiet env a a1 :
  config_turn env a = (a1, None) ->
  meshtastic_phoneapi_pop_frame env a = meshtastic_phoneapi_pop_frame env a1.
Proof.
  intros E. unfold meshtastic_phoneapi_pop_frame, meshtastic_phoneapi_next_config_frame.
  rewrite (config_turns_quiet env a a1 E). apply config_turn_descends in E as [Hr ->].
  destruct (config_active a) eqn:Ha; [done|]. exfalso.
  unfold config_active in Ha. destruct (a_config_state a); simpl in *; done || lia.
Qed.

Lemma pop_emit env a a1 item f :
  config_turn env a = (a1, Some (Val (item, f))) ->
  meshtastic_phoneapi_pop_frame env a = (a1, Some f).
Proof.
  intros E. unfold meshtastic_phoneapi_pop_frame, meshtastic_phoneapi_next_config_frame. simpl.
  rewrite E. simpl. destruct (config_active a) eqn:Ha; [done|].
  rewrite config_turn_idle in E by done. done.
Qed.

(** A client that keeps asking until there is nothing for it. *)
Fixpoint pops (n : nat) (env : config_env) (a : phoneapi) : phoneapi * list pframe :=
  match n with
  | O => (a, [])
  | S n' =>
      match meshtastic_phoneapi_pop_frame env a with
      | (a1, Some f) => let '(a2, fs) := pops n' env a1 in (a2, f :: fs)
      | (a1, None) => (a1, [])
      end
  end.

(** *** The frames of one handshake *)
Section Handshake.
Context (env : config_env) (Henc : forall item, is_Some (ce_encode env item)).

Definition item_frame (e : config_env) (item : config_item) : pframe :=
  PFrame (default [] (ce_encode e item)) 0 0.

(** A session at a place of the stream. *)
Definition conf (s : config_state) (i c : Z) (b : phoneapi) : phoneapi :=
  set_a_config_state s (set_a_config_index i (set_a_node_cursor c b)).

(** The turn of a session whose stage is given. *)
Ltac at_stage :=
  unfold config_turn; cbn [conf a_config_state a_config_index a_node_cursor a_request_id a_admin_authorized
    set_a_config_state set_a_config_index set_a_node_cursor].

Lemma emit_total item next i a :
  emit_frame env item next i a =
  (set_a_config_index i (set_a_config_state next a), Val (item, item_frame env item)).
Proof. unfold emit_frame, item_frame. destruct (Henc item) as [d ->]. done. Qed.

(** The turns that lead from one place to another, and what they emit. *)
Inductive flows : phoneapi -> list config_item -> phoneapi -> Prop :=
  | flows_refl a : flows a [] a
  | flows_quiet a a1 l a2 : config_turn env a = (a1, None) -> flows a1 l a2 -> flows a l a2
  | flows_emit a a1 item f l a2 :
      config_turn env a = (a1, Some (Val (item, f))) -> f = item_frame env item ->
      flows a1 l a2 -> flows a (item :: l) a2.

Lemma flows_trans a l1 b l2 c : flows a l1 b -> flows b l2 c -> flows a (l1 ++ l2) c.
Proof. induction 1; [done | |]; intros; [eapply flows_quiet | eapply flows_emit]; eauto. Qed.

Lemma pops_flows a l a2 n :
  flows a l a2 ->
  pops (length l + S n) env a = let '(a3, fs) := pops (S n) env a2 in (a3, (item_frame env <$> l) ++ fs).
Proof.
  induction 1 as [a|a a1 l a2 E _ IH|a a1 item f l a2 E -> _ IH].
  - change (length [] + S n)%nat with (S n). by destruct (pops (S n) env a).
  - assert (pops (length l + S n) env a = pops (length l + S n) env a1) as ->; [|done].
    rewrite Nat.add_succ_r. cbn [pops]. by rewrite (pop_quiet env a a1 E).
  - change (length (item :: l) + S n)%nat with (S (length l + S n)).
    destruct (pops (S n) env a2) as [a3 fs]. cbn [pops]. by rewrite (pop_emit env a a1 item _ E), IH.
Qed.

Variable b : phoneapi.
Notation auth := (meshtastic_phoneapi_authorized (ce_active env) b).

(** One emission that moves the stream to stage [s] and index [i]. *)
Ltac emit1 s i c :=
  eapply (flows_emit _ (conf s i c b));
  [at_stage; rewrite emit_total; reflexivity
  | reflexivity | ].

Lemma flows_channels c :
  flows (conf CONFIG_CHANNELS 0 c b) ((fun i => CChannel i auth) <$> seqZ 0 8) (conf CONFIG_CONFIGS 0 c b).
Proof.
  change (seqZ 0 8) with [0; 1; 2; 3; 4; 5; 6; 7]. cbn [fmap list_fmap].
  emit1 CONFIG_CHANNELS 1 c. emit1 CONFIG_CHANNELS 2 c. emit1 CONFIG_CHANNELS 3 c.
  emit1 CONFIG_CHANNELS 4 c. emit1 CONFIG_CHANNELS 5 c. emit1 CONFIG_CHANNELS 6 c.
  emit1 CONFIG_CHANNELS 7 c. emit1 CONFIG_CONFIGS 0 c. apply flows_refl.
Qed.

Definition table_items (has : Z -> bool) (total i : Z) : list Z :=
  filter (fun j => has j = true) (seqZ i (total - i)).

Lemma table_items_cons has total i :
  i < total -> table_items has total i =
    if has i then i :: table_items has total (i + 1) else table_items has total (i + 1).
Proof.
  intros H. unfold table_items. rewrite seqZ_cons by lia. rewrite filter_cons.
  replace (Z.pred (total - i)) with (total - (i + 1)) by lia.
  replace (Z.succ i) with (i + 1) by lia. destruct (has i); [by rewrite decide_True by done|].
  by rewrite decide_False by done.
Qed.

Lemma skip_missing_spec n has total i :
  0 <= i <= total -> total < 65536 -> total - i <= Z.of_nat n ->
  let j := skip_missing n has total i in
  (j = total /\ table_items has total i = []) \/
  (i <= j < total /\ table_items has total i = j :: table_items has total (j + 1)).
Proof.
  revert i. induction n as [|n IH]; intros i Hi Ht Hn; simpl.
  - left. assert (i = total) as -> by lia. split; [done|]. unfold table_items. by rewrite Z.sub_diag.
  - destruct (Z.ltb_spec i total) as [Hlt|Hge].
    + rewrite table_items_cons by done. destruct (has i); [right; split; [lia | done]|].
      assert (u16 (i + 1) = i + 1) as -> by (unfold u16; apply wrap_small; simpl; lia).
      destruct (IH (i + 1)) as [[-> ->]|[H1 H2]]; [lia | done | lia | by left |].
      right. rewrite H2. split; [lia | done].
    + left. assert (i = total) as -> by lia. split; [done|]. unfold table_items. by rewrite Z.sub_diag.
Qed.

(** A table of sections is streamed section by section, those served and in order. *)
Lemma flows_table has total item stage after c i :
  (forall j, config_turn env (conf stage j c b) =
             table_stage env has total item stage after (conf stage j c b)) ->
  0 <= i < total -> total < 65536 ->
  flows (conf stage i c b) (item <$> table_items has total i) (conf after 0 c b).
Proof.
  intros Hturn Hi Ht. remember (Z.to_nat (total - i)) as n eqn:Hn. revert i Hi Hn.
  induction n as [n IH] using lt_wf_ind. intros i Hi Hn.
  destruct (skip_missing_spec (Z.to_nat total) has total i) as [[Hj ->]|[Hj ->]]; [lia | done | lia | |].
  - eapply flows_quiet; [|apply flows_refl]. rewrite Hturn. unfold table_stage.
    cbn [conf a_config_index set_a_config_state set_a_config_index]. rewrite Hj, Z.ltb_irrefl. done.
  - set (j := skip_missing _ _ _ _) in *. cbn [fmap list_fmap].
    assert (Hj1 : u16 (j + 1) = j + 1) by (unfold u16; apply wrap_small; simpl; lia).
    eapply flows_emit with (a1 := conf (if total <=? j + 1 then after else stage)
                                    (if total <=? j + 1 then 0 else j + 1) c b); [|done|].
    + rewrite Hturn. unfold table_stage. cbn [conf a_config_index set_a_config_state set_a_config_index].
      fold j. rewrite (proj2 (Z.ltb_lt j total)) by lia. rewrite emit_total, Hj1. done.
    + destruct (Z.leb_spec total (j + 1)).
      * unfold table_items. replace (total - (j + 1)) with 0 by lia. apply flows_refl.
      * apply (IH (Z.to_nat (total - (j + 1)))); lia.
Qed.

(** The numbers the walk sends: above the cursor, not the own one, each once and in order. *)
Definition walk_list (e : config_env) (c : Z) (peers : list Z) : Prop :=
  StronglySorted Z.lt peers /\
  forall x, x ∈ peers <-> x ∈ ce_nodes e /\ c < x /\ x <> ce_node_id e.

Lemma walk_list_cons e c x peers :
  meshtastic_nodedb_get_next_after c (ce_nodes e) = Some x -> x <> ce_node_id e ->
  walk_list e x peers -> walk_list e c (x :: peers).
Proof.
  intros E Hx [Hs Hp]. apply next_after_Some in E as (Hin & Hc & Hmin). split.
  - constructor; [done|]. apply Forall_forall. intros y Hy. by apply Hp in Hy as (_ & ? & _).
  - intros y. rewrite elem_of_cons, Hp. split.
    { intros [->|(?&?&?)]; (split; [done|]; split; [lia | done]). }
    intros (H1 & H2 & H3). destruct (decide (y = x)) as [|Hyx]; [by left|]. right.
    split; [done|]. split; [|done]. specialize (Hmin y H1 H2). lia.
Qed.

Lemma walk_list_own e c peers :
  meshtastic_nodedb_get_next_after c (ce_nodes e) = Some (ce_node_id e) ->
  walk_list e (ce_node_id e) peers -> walk_list e c peers.
Proof.
  intros E [Hs Hp]. apply next_after_Some in E as (Hin & Hc & Hmin). split; [done|].
  intros y. rewrite Hp. split; intros (H1 & H2 & H3); (split; [done|]; split; [|done]); [lia|].
  specialize (Hmin y H1 H2). lia.
Qed.

Lemma walk_list_nil e c : meshtastic_nodedb_get_next_after c (ce_nodes e) = None -> walk_list e c [].
Proof.
  intros E. split; [constructor|]. intros x. split; [set_solver|]. intros (H1 & H2 & _).
  pose proof (next_after_None _ _ E x H1). lia.
Qed.

Definition above (c : Z) (l : list Z) : list Z := filter (fun n => c < n) l.

Lemma above_lt c x l :
  meshtastic_nodedb_get_next_after c l = Some x -> (length (above x l) < length (above c l))%nat.
Proof.
  intros E. apply next_after_Some in E as (Hin & Hc & _).
  induction l as [|y l IH]; [set_solver|].
  assert (Hle : (length (above x l) <= length (above c l))%nat).
  { clear -Hc. induction l as [|z l IH]; [done|]. unfold above in *. rewrite !filter_cons.
    destruct (decide (x < z)), (decide (c < z)); simpl; lia. }
  destruct (decide (y = x)) as [->|Hne].
  - unfold above in *. rewrite !filter_cons, decide_False by lia. rewrite decide_True by done. simpl. lia.
  - specialize (IH ltac:(set_solver)). unfold above in *. rewrite !filter_cons.
    destruct (decide (x < y)), (decide (c < y)); simpl; lia.
Qed.

Lemma flows_nodes c :
  exists peers, walk_list env c peers /\
    flows (conf CONFIG_OTHER_NODEINFOS 0 c b) (COtherNode <$> peers) (conf CONFIG_FILEMANIFEST 0 0 b).
Proof.
  remember (length (above c (ce_nodes env))) as n eqn:Hn. revert c Hn.
  induction n as [n IH] using lt_wf_ind. intros c Hn.
  assert (Hturn : forall c, config_turn env (conf CONFIG_OTHER_NODEINFOS 0 c b) =
                  node_stage 2 env (conf CONFIG_OTHER_NODEINFOS 0 c b)) by done.
  destruct (meshtastic_nodedb_get_next_after c (ce_nodes env)) as [x|] eqn:E.
  - destruct (IH (length (above x (ce_nodes env)))) with (c := x) as (peers & Hw & Hf); [subst; by apply above_lt | done |].
    destruct (decide (x = ce_node_id env)) as [->|Hne].
    + exists peers. split; [by apply walk_list_own|].
      assert (Hsame : config_turn env (conf CONFIG_OTHER_NODEINFOS 0 c b) =
                      config_turn env (conf CONFIG_OTHER_NODEINFOS 0 (ce_node_id env) b)).
      { rewrite !Hturn, (node_stage_own env (conf _ 0 c b)). cbn [node_stage].
        cbn [conf a_node_cursor set_a_node_cursor set_a_config_state set_a_config_index].
        rewrite E, Z.eqb_refl. done. }
      inversion Hf as [? Hl|? a1 l a2 Ht Hr|? a1 item f l a2 Ht Hi Hr]; subst.
      * eapply flows_quiet; [by rewrite Hsame | done].
      * eapply flows_emit; [by rewrite Hsame | done | done].
    + exists (x :: peers). split; [by apply walk_list_cons|]. cbn [fmap list_fmap].
      eapply flows_emit; [|done | exact Hf]. rewrite Hturn. cbn [node_stage].
      cbn [conf a_node_cursor set_a_node_cursor set_a_config_state set_a_config_index].
      rewrite E, (proj2 (Z.eqb_neq _ _) Hne), emit_total. done.
  - exists []. split; [by apply walk_list_nil|].
    eapply flows_quiet; [|apply flows_refl]. rewrite Hturn. cbn [node_stage].
    cbn [conf a_node_cursor set_a_node_cursor set_a_config_state set_a_config_index]. by rewrite E.
Qed.

(** Everything after the node database. *)
Definition closing (e : config_env) (adm : bool) (id : Z) : list config_item :=
  CComplete id :: (if ce_lockdown e && negb (ce_active e && adm) then [CLockdownStatus] else []).

(** What a request with the nonce [id] is answered. *)
Definition handshake (e : config_env) (adm : bool) (id : Z) (peers : list Z) : list config_item :=
  let ok := negb (ce_active e) || adm in
  if id =? NONCE_ONLY_NODES then
    [CNodeInfo] ++ (if ok then COtherNode <$> peers else []) ++ closing e adm id
  else
    [CMyInfo ok; CDeviceUi; CNodeInfo; CMetadata ok; CRegionPresets] ++
    ((fun i => CChannel i ok) <$> seqZ 0 8) ++
    ((fun i => CConfig i ok) <$> table_items (ce_has_config e) N_CONFIG_TAGS 0) ++
    ((fun i => CModule i ok) <$> table_items (ce_has_module e) N_MODULE_TAGS 0) ++
    (if (id =? NONCE_ONLY_CONFIG) || negb ok then [] else COtherNode <$> peers) ++
    [CQueueStatus] ++ closing e adm id.

(** The stream is over: the next frame is what an idle session would be given. *)
Definition stream_over (z : phoneapi) : Prop :=
  meshtastic_phoneapi_pop_frame env z = meshtastic_phoneapi_pop_frame env (conf CONFIG_IDLE 0 0 b).

Lemma flows_closing :
  exists z, stream_over z /\
    flows (conf CONFIG_COMPLETE 0 0 b) (closing env (a_admin_authorized b) (a_request_id b)) z.
Proof.
  unfold closing, stream_over. destruct (ce_lockdown env) eqn:Hl; cbn [andb].
  - destruct (ce_active env && a_admin_authorized b) eqn:Ha; cbn [negb].
    + exists (conf CONFIG_LOCKDOWN_STATUS 0 0 b). split.
      * unfold meshtastic_phoneapi_pop_frame, meshtastic_phoneapi_next_config_frame.
        cbn [config_turns]. at_stage.
        rewrite Hl, Ha. done.
      * eapply flows_emit; [|done | apply flows_refl]. at_stage.
        rewrite emit_total, Hl. done.
    + exists (conf CONFIG_IDLE 0 0 b). split; [done|].
      eapply (flows_emit _ (conf CONFIG_LOCKDOWN_STATUS 0 0 b)); [|done|].
      { at_stage.
        rewrite emit_total, Hl. done. }
      eapply flows_emit; [|done | apply flows_refl]. at_stage.
      rewrite Hl, Ha, emit_total. done.
  - exists (conf CONFIG_IDLE 0 0 b). split; [done|].
    eapply flows_emit; [|done | apply flows_refl]. at_stage.
    rewrite emit_total, Hl. done.
Qed.

Definition start_of (id : Z) : config_state :=
  if id =? NONCE_ONLY_NODES then CONFIG_NODE_INFO else CONFIG_MY_INFO.

(** From the node database to the end of the stream. *)
Lemma flows_tail (only_nodes : bool) :
  (a_request_id b =? NONCE_ONLY_NODES) = only_nodes ->
  exists z, stream_over z /\
    flows (conf CONFIG_FILEMANIFEST 0 0 b)
      ((if only_nodes then [] else [CQueueStatus]) ++ closing env (a_admin_authorized b) (a_request_id b)) z.
Proof.
  intros Hid. destruct flows_closing as (z & Hz & Hf). exists z. split; [done|].
  eapply flows_quiet.
  { at_stage.
    rewrite Hid. reflexivity. }
  destruct only_nodes; [exact Hf|]. cbn [app].
  eapply (flows_emit _ (conf CONFIG_COMPLETE 0 0 b)); [|done | exact Hf].
  at_stage. by rewrite emit_total.
Qed.

Lemma flows_handshake :
  exists peers z, walk_list env 0 peers /\ stream_over z /\
    flows (conf (start_of (a_request_id b)) 0 0 b)
      (handshake env (a_admin_authorized b) (a_request_id b) peers) z.
Proof.
  destruct (flows_nodes 0) as (peers & Hp & Hn). unfold handshake, start_of.
  fold (meshtastic_phoneapi_authorized (ce_active env) b).
  destruct (a_request_id b =? NONCE_ONLY_NODES) eqn:Hid.
  - destruct (flows_tail true Hid) as (z & Hz & Ht). destruct flows_closing as (z' & Hz' & Hc).
    destruct auth eqn:Hau.
    + exists peers, z. split; [done|]. split; [done|].
      eapply (flows_emit _ (conf CONFIG_OTHER_NODEINFOS 0 0 b)); [|done | by eapply flows_trans].
      at_stage.
      rewrite emit_total, Hid. change (meshtastic_phoneapi_authorized _ (conf _ _ _ _)) with auth.
      by rewrite Hau.
    + exists peers, z'. split; [done|]. split; [done|].
      eapply (flows_emit _ (conf CONFIG_COMPLETE 0 0 b)); [|done | exact Hc].
      at_stage.
      rewrite emit_total, Hid. change (meshtastic_phoneapi_authorized _ (conf _ _ _ _)) with auth.
      by rewrite Hau.
  - destruct (flows_tail false Hid) as (z & Hz & Ht).
    exists peers, z. split; [done|]. split; [done|].
    emit1 CONFIG_DEVICE_UI 0 0. emit1 CONFIG_NODE_INFO 0 0.
    eapply (flows_emit _ (conf CONFIG_METADATA 0 0 b)); [|done |].
    { at_stage.
      by rewrite emit_total, Hid. }
    emit1 CONFIG_REGION_PRESETS 0 0. emit1 CONFIG_CHANNELS 0 0.
    eapply flows_trans; [apply flows_channels|].
    eapply flows_trans; [apply (flows_table _ N_CONFIG_TAGS _ _ CONFIG_MODULES); done|].
    eapply flows_trans.
    { apply (flows_table _ N_MODULE_TAGS _ _ (if (a_request_id b =? NONCE_ONLY_CONFIG) || negb auth
         then CONFIG_FILEMANIFEST else CONFIG_OTHER_NODEINFOS)); done. }
    destruct ((a_request_id b =? NONCE_ONLY_CONFIG) || negb auth); [exact Ht|].
    by eapply flows_trans.
Qed.
End Handshake.

(** *** The backlog *)
Definition served (auth : bool) (l : list pframe) : list pframe :=
  filter (fun f => servable auth f = true) l.
Definition withheld (auth : bool) (l : list pframe) : list pframe :=
  filter (fun f => servable auth f = false) l.

Lemma served_cons auth f l :
  served auth (f :: l) = if servable auth f then f :: served auth l else served auth l.
Proof.
  unfold served. rewrite filter_cons. destruct (servable auth f);
    [by rewrite decide_True by done | by rewrite decide_False by done].
Qed.

Lemma withheld_cons auth f l :
  withheld auth (f :: l) = if servable auth f then withheld auth l else f :: withheld auth l.
Proof.
  unfold withheld. rewrite filter_cons. destruct (servable auth f);
    [by rewrite decide_False by done | by rewrite decide_True by done].
Qed.

Lemma list_take_served auth l :
  match list_take auth l with
  | Some (f, l') => served auth l = f :: served auth l' /\ withheld auth l' = withheld auth l
  | None => served auth l = [] /\ withheld auth l = l
  end.
Proof.
  induction l as [|f l IH]; [done|]. cbn [list_take]. rewrite served_cons, withheld_cons.
  destruct (servable auth f) eqn:Hs; [done|].
  destruct (list_take auth l) as [[g l']|]; cbn [fmap option_fmap option_map fst snd];
    destruct IH as [H1 H2]; rewrite ?served_cons, ?withheld_cons, ?Hs; by rewrite H1, H2.
Qed.

Lemma pop_idle env a :
  config_active a = false ->
  meshtastic_phoneapi_pop_frame env a = queue_take_servable (ce_active env) a.
Proof.
  intros Ha. unfold meshtastic_phoneapi_pop_frame. rewrite Ha.
  destruct (Nat.ltb_spec 0 (a_count a)); [done|].
  unfold queue_take_servable. by replace (a_count a) with O by lia.
Qed.

Lemma session_active a b : session_part a = session_part b -> config_active a = config_active b.
Proof. unfold config_active. by intros [= -> _]. Qed.

(** An idle session hands out its backlog in order, what it may serve, and keeps the rest. *)
Lemma pops_idle n env a auth :
  phone_wf a -> config_active a = false -> meshtastic_phoneapi_authorized (ce_active env) a = auth ->
  (length (served auth (view a)) < n)%nat ->
  exists a', pops n env a = (a', served auth (view a)) /\ phone_wf a' /\
    session_part a' = session_part a /\ view a' = withheld auth (view a).
Proof.
  revert a. induction n as [|n IH]; intros a Hw Hi Hau Hn; [lia|]. cbn [pops].
  rewrite pop_idle by done. destruct (queue_take_servable (ce_active env) a) as [a1 r] eqn:E.
  pose proof (take_servable_session (a_count a) 0 auth a) as Hse.
  unfold queue_take_servable in E. rewrite Hau in E. rewrite E in Hse. simpl in Hse.
  assert (E' : queue_take_servable (ce_active env) a = (a1, r)) by (unfold queue_take_servable; by rewrite Hau).
  apply queue_take_servable_list in E' as (Hw1 & Hs1 & Hm); [|done]. rewrite Hau in Hm.
  pose proof (list_take_served auth (view a)) as Hls.
  destruct (list_take auth (view a)) as [[f l]|]; destruct Hm as [-> Hm]; destruct Hls as [H1 H2].
  - destruct (IH a1) as (a' & Hp & Hw' & Hse' & Hv); [done | by rewrite (session_active _ _ Hse) | | |].
    { unfold meshtastic_phoneapi_authorized in *. by rewrite (session_auth _ _ Hse). }
    { rewrite Hm. rewrite H1 in Hn. simpl in Hn. lia. }
    exists a'. rewrite Hp, H1, Hm, Hv, Hm, H2. repeat split; [by apply Hw'.. | congruence].
  - exists a1. rewrite H1, H2, Hm. repeat split; done || apply Hw.
Qed.

(** C5: A handshake is answered in full, and then the backlog. Whatever was queued and
    whatever stage an earlier handshake had reached, a client that asks for the
    configuration and then takes frames until there is none is given exactly: the items
    its nonce selects, in the protocol's order - a table's sections are those the store
    serves, the node database is walked once, each peer once and by number, and only for
    an authorized client -, then every queued frame it is allowed, oldest first. The
    frames withheld from an unauthorized client stay queued in order. The stream always
    ends: any number of requests above the number of frames gives the same. *)
Theorem handshake_then_backlog (env : config_env) (id : Z) (a : phoneapi) :
  phone_wf a -> (forall item, is_Some (ce_encode env item)) ->
  let auth := meshtastic_phoneapi_authorized (ce_active env) a in
  exists peers, walk_list env 0 peers /\
    let items := handshake env (a_admin_authorized a) id peers in
    let frames := (item_frame env <$> items) ++ served auth (view a) in
    forall n, (length frames < n)%nat ->
      exists a', pops n env (meshtastic_phoneapi_enqueue_phone_config id a) = (a', frames) /\
        config_active a' = false /\ phone_wf a' /\ view a' = withheld auth (view a).
Proof.
  intros Hw Henc auth.
  set (b := set_a_request_id id (set_a_current_valid false a)).
  destruct (flows_handshake env Henc b) as (peers & z & Hp & Hz & Hf).
  exists peers. split; [done|]. intros items frames n Hn.
  assert (Hwb : phone_wf (conf CONFIG_IDLE 0 0 b)) by (destruct Hw; split; done).
  assert (Hlen : length frames = (length items + length (served auth (view a)))%nat)
    by (unfold frames; by rewrite length_app, length_fmap).
  destruct (pops_idle (n - length items) env (conf CONFIG_IDLE 0 0 b) auth Hwb eq_refl eq_refl)
    as (a' & Hq & Hw' & Hse & Hv); [change (view (conf CONFIG_IDLE 0 0 b)) with (view a); lia|].
  change (view (conf CONFIG_IDLE 0 0 b)) with (view a) in Hq, Hv.
  exists a'. repeat split; [| by rewrite (session_active _ _ Hse) | apply Hw'.. | done].
  pose proof (pops_flows env _ _ _ (n - length items - 1) Hf) as Hrun.
  change (handshake env (a_admin_authorized b) (a_request_id b) peers) with items in Hrun.
  change (conf (start_of (a_request_id b)) 0 0 b) with (meshtastic_phoneapi_enqueue_phone_config id a) in Hrun.
  replace (length items + S (n - length items - 1))%nat with n in Hrun by lia.
  rewrite Hrun. assert (pops (S (n - length items - 1)) env z = (a', served auth (view a))) as ->; [|done].
  rewrite <- Hq. replace (n - length items)%nat with (S (n - length items - 1)) by lia.
  cbn [pops]. replace (S (n - length items - 1) - 1)%nat with (n - length items - 1)%nat by lia.
  by rewrite Hz.
Qed.

Definition sample_env (nodes : list Z) : config_env :=
  ConfigEnv true true 5 nodes (fun i => negb (i =? 8)) (fun i => i <? 14) (fun item =>
    Some [match item with CComplete id => id mod 256 | COtherNode n => n mod 256 | _ => 0 end]).

Definition served_session : phoneapi :=
  Api [PFrame [1] 4 0; PFrame [2] 0 1; PFrame [3] 2 0] 1 2 2 false false pframe0 false 0 CONFIG_MODULES 4 0 7 false false 0.

Lemma handshake_then_backlog_witness :
  let auth := meshtastic_phoneapi_authorized true served_session in
  exists peers, walk_list (sample_env [9; 3; 5; 7]) 0 peers /\
    let items := handshake (sample_env [9; 3; 5; 7]) (a_admin_authorized served_session) 77 peers in
    let frames := (item_frame (sample_env [9; 3; 5; 7]) <$> items) ++ served auth (view served_session) in
    forall n, (length frames < n)%nat ->
      exists a', pops n (sample_env [9; 3; 5; 7]) (meshtastic_phoneapi_enqueue_phone_config 77 served_session) =
                 (a', frames) /\
        config_active a' = false /\ phone_wf a' /\ view a' = withheld auth (view served_session).
Proof.
  apply (handshake_then_backlog (sample_env [9; 3; 5; 7]) 77 served_session).
  - split; vm_compute; lia || done.
  - intros item. by eexists.
Defined.

(** ** The walk while the node database changes *)
(** The numbers sent while the stream is at the node database, one database per frame. *)
Fixpoint walk_run (envs : list config_env) (a : phoneapi) : phoneapi * list Z :=
  match envs with
  | [] => (a, [])
  | env :: envs' =>
      if negb (bool_decide (a_config_state a = CONFIG_OTHER_NODEINFOS)) then (a, [])
      else
        match meshtastic_phoneapi_next_config_frame env a with
        | (a1, Val (COtherNode x, _)) => let '(a2, xs) := walk_run envs' a1 in (a2, x :: xs)
        | (a1, _) => walk_run envs' a1
        end
  end.

(** No peer of the database lies strictly above [c] and below [c']. *)
Definition no_peer_between (env : config_env) (c c' : Z) : Prop :=
  forall y, y ∈ ce_nodes env -> y <> ce_node_id env -> c < y -> c' <= y.

Inductive walk_step (env : config_env) (a : phoneapi) : phoneapi -> res (config_item * pframe) -> Prop :=
  | walk_sent a' x f :
      a_config_state a' = CONFIG_OTHER_NODEINFOS -> a_node_cursor a' = x ->
      x ∈ ce_nodes env -> x <> ce_node_id env -> a_node_cursor a < x ->
      no_peer_between env (a_node_cursor a) x ->
      walk_step env a a' (Val (COtherNode x, f))
  | walk_stalled a' e :
      a_config_state a' = CONFIG_OTHER_NODEINFOS -> a_node_cursor a <= a_node_cursor a' ->
      no_peer_between env (a_node_cursor a) (a_node_cursor a' + 1) ->
      walk_step env a a' (Fail e)
  | walk_left a' r :
      a_config_state a' <> CONFIG_OTHER_NODEINFOS ->
      (forall y, y ∈ ce_nodes env -> y <> ce_node_id env -> y <= a_node_cursor a) ->
      (forall x f, r <> Val (COtherNode x, f)) ->
      walk_step env a a' r.

Lemma no_peer_between_next env c x :
  meshtastic_nodedb_get_next_after c (ce_nodes env) = Some x -> no_peer_between env c x.
Proof. intros E y Hy _ Hc. apply next_after_Some in E as (_ & _ & Hmin). by apply Hmin. Qed.

Lemma no_peer_over_own env c x :
  meshtastic_nodedb_get_next_after c (ce_nodes env) = Some (ce_node_id env) ->
  no_peer_between env (ce_node_id env) x -> no_peer_between env c x.
Proof.
  intros E H y Hy Hne Hc. apply (H y Hy Hne). pose proof (no_peer_between_next env c _ E y Hy Hne Hc). lia.
Qed.

(** After the walk the stream does not come back to it. *)
Lemma config_turns_after env n a a' r :
  a_config_state a = CONFIG_FILEMANIFEST -> config_turns n env a = (a', r) ->
  a_config_state a' <> CONFIG_OTHER_NODEINFOS /\ (forall x f, r <> Some (Val (COtherNode x, f))).
Proof.
  intros Ha. destruct n as [|n]; [intros [= <- <-]; by rewrite Ha|]. cbn [config_turns].
  assert (E : config_turn env a = (set_a_config_index 0 (set_a_config_state
     (if a_request_id a =? NONCE_ONLY_NODES then CONFIG_COMPLETE else CONFIG_QUEUE_STATUS) a), None))
    by (unfold config_turn; by rewrite Ha).
  rewrite E. destruct n as [|n]; cbn [config_turns].
  { intros [= <- <-]. simpl. by case_match. }
  unfold config_turn. cbn [a_config_state set_a_config_state set_a_config_index].
  destruct (a_request_id a =? NONCE_ONLY_NODES); unfold emit_frame; destruct (ce_encode env _);
    intros [= <- <-]; simpl; repeat case_match; done.
Qed.

Lemma node_emit_step env a x :
  meshtastic_nodedb_get_next_after (a_node_cursor a) (ce_nodes env) = Some x -> x <> ce_node_id env ->
  a_config_state a = CONFIG_OTHER_NODEINFOS ->
  let '(a1, r) := emit_frame env (COtherNode x) CONFIG_OTHER_NODEINFOS 0 a in
  walk_step env a (match r with Val _ => set_a_node_cursor x a1 | Fail _ => a1 end) r.
Proof.
  intros E Hne Hst. pose proof (no_peer_between_next _ _ _ E) as Hb.
  apply next_after_Some in E as (Hin & Hlt & _). unfold emit_frame.
  destruct (ce_encode env (COtherNode x)); [by apply walk_sent|].
  apply walk_stalled; [done | lia |]. intros y Hy Hyne Hc. lia.
Qed.

(** One frame of the walk. *)
Lemma walk_step_ok env a a' r :
  a_config_state a = CONFIG_OTHER_NODEINFOS ->
  meshtastic_phoneapi_next_config_frame env a = (a', r) -> walk_step env a a' r.
Proof.
  intros Hst. unfold meshtastic_phoneapi_next_config_frame.
  change (config_turns 5 env a) with
    (match config_turn env a with (a1, None) => config_turns 4 env a1 | (a1, Some r) => (a1, Some r) end).
  assert (Ht : config_turn env a = node_stage 2 env a) by (unfold config_turn; by rewrite Hst).
  rewrite Ht. cbn [node_stage].
  assert (Hleft : forall c,
    (forall y, y ∈ ce_nodes env -> y <> ce_node_id env -> y <= a_node_cursor a) ->
    (let '(a1, r0) := config_turns 4 env (set_a_node_cursor 0 (set_a_config_index 0
        (set_a_config_state CONFIG_FILEMANIFEST (set_a_node_cursor c a)))) in (a1, default (Fail EINVAL) r0)) = (a', r) ->
    walk_step env a a' r).
  { intros c Hall. destruct (config_turns 4 env _) as [a1 r0] eqn:E.
    apply config_turns_after in E as [H1 H2]; [|done]. intros [= <- <-].
    apply walk_left; [done | done |]. destruct r0 as [r0|]; [|done]. simpl. intros x f ->. by apply (H2 x f). }
  destruct (meshtastic_nodedb_get_next_after (a_node_cursor a) (ce_nodes env)) as [x|] eqn:E.
  2:{ intros H. apply (Hleft (a_node_cursor a)); [|exact H]. intros y Hy _. by eapply next_after_None. }
  destruct (Z.eqb_spec x (ce_node_id env)) as [->|Hne].
  2:{ pose proof (node_emit_step env a x E Hne Hst) as Hs.
      destruct (emit_frame _ _ _ _ _) as [a1 r0]. by intros [= <- <-]. }
  cbn [a_node_cursor set_a_node_cursor].
  destruct (meshtastic_nodedb_get_next_after (ce_node_id env) (ce_nodes env)) as [x|] eqn:E2.
  2:{ intros H. apply (Hleft (ce_node_id env)); [|exact H]. intros y Hy Hyne.
      pose proof (next_after_None _ _ E2 y Hy).
      destruct (decide (a_node_cursor a < y)) as [Hc|]; [|lia].
      pose proof (no_peer_between_next _ _ _ E y Hy Hyne Hc). lia. }
  pose proof (next_after_Some _ _ _ E2) as (_ & Hlt & _).
  pose proof (next_after_Some _ _ _ E) as (_ & Hlt0 & _).
  destruct (Z.eqb_spec x (ce_node_id env)) as [->|Hne]; [lia|].
  pose proof (node_emit_step env (set_a_node_cursor (ce_node_id env) a) x E2 Hne Hst) as Hs.
  destruct (emit_frame _ _ _ _ _) as [a1 r0]. intros [= <- <-].
  inversion Hs as [? x' f H1 H2 H3 H4 H5 H6 Heq|? e H1 H2 H3 Heq|? r' H1 H2 H3 Heq]; subst; simpl in *.
  - apply walk_sent; try done; [lia | by eapply no_peer_over_own].
  - apply walk_stalled; [done | lia | by eapply no_peer_over_own].
  - apply walk_left; [done | | done]. intros y Hy Hyne. specialize (H2 y Hy Hyne).
    destruct (decide (a_node_cursor a < y)) as [Hc|]; [|lia].
    pose proof (no_peer_between_next _ _ _ E y Hy Hyne Hc). lia.
Qed.

(** The walk from any cursor. *)
Lemma walk_run_spec own envs a :
  Forall (fun e => ce_node_id e = own) envs -> a_config_state a = CONFIG_OTHER_NODEINFOS ->
  let '(a', sent) := walk_run envs a in
  StronglySorted Z.lt sent /\
  Forall (fun x => a_node_cursor a < x /\ x <> own /\ exists e, e ∈ envs /\ x ∈ ce_nodes e) sent /\
  (a_config_state a' <> CONFIG_OTHER_NODEINFOS ->
   forall x, a_node_cursor a < x -> x <> own -> (forall e, e ∈ envs -> x ∈ ce_nodes e) -> x ∈ sent).
Proof.
  intros Hown. revert a. induction Hown as [|env envs <- _ IH]; intros a Hst; cbn [walk_run].
  { split; [constructor|]. split; [constructor|]. done. }
  rewrite bool_decide_eq_true_2 by done. cbn [negb].
  destruct (meshtastic_phoneapi_next_config_frame env a) as [a1 r] eqn:E.
  apply walk_step_ok in E; [|done].
  inversion E as [? x f H1 H2 H3 H4 H5 H6|? e H1 H2 H3|? r' H1 H2 H3]; subst.
  - specialize (IH a1 H1). destruct (walk_run envs a1) as [a2 xs]. destruct IH as (Hs & Hf & Hc).
    split; [constructor; [done|]; eapply Forall_impl; [exact Hf|]; naive_solver|].
    split; [constructor; [set_solver|]; eapply Forall_impl; [exact Hf|]; intros y (?&?&e&?&?)|].
    { split; [lia|]. split; [done|]. exists e. set_solver. }
    intros Hleft y Hy Hne Hall. destruct (decide (y = a_node_cursor a1)) as [->|Hyx]; [set_solver|].
    apply list_elem_of_further. apply Hc; [done | | done | set_solver].
    pose proof (H6 y (Hall env ltac:(set_solver)) Hne Hy). lia.
  - specialize (IH a1 H1). destruct (walk_run envs a1) as [a2 xs]. destruct IH as (Hs & Hf & Hc).
    split; [done|].
    split; [eapply Forall_impl; [exact Hf|]; intros y (?&?&e'&?&?)|].
    { split; [lia|]. split; [done|]. exists e'. set_solver. }
    intros Hleft y Hy Hne Hall. apply Hc; [done | | done | set_solver].
    pose proof (H3 y (Hall env ltac:(set_solver)) Hne Hy). lia.
  - assert (Hrun : walk_run envs a1 = (a1, [])).
    { destruct envs; [done|]. cbn [walk_run]. by rewrite bool_decide_eq_false_2. }
    assert (Hm : (match r with
        | Val (COtherNode x, _) => let '(a2, xs) := walk_run envs a1 in (a2, x :: xs)
        | _ => walk_run envs a1 end) = (a1, [])).
    { destruct r as [[[] f]|]; try done. by destruct (H3 num f). }
    replace (match r with
        | Val (COtherNode x, _) => let '(a2, xs) := walk_run envs a1 in (a2, x :: xs)
        | _ => walk_run envs a1 end) with (a1, @nil Z) by done.
    split; [constructor|]. split; [constructor|]. intros _ y Hy Hne Hall.
    pose proof (H2 y (Hall env ltac:(set_solver)) Hne). lia.
Qed.

(** The node database may be sorted, compacted or changed between any two frames of
    a handshake, and the client still sees every lasting peer exactly once. Whatever the
    database holds at each frame, and whatever frames fail to be encoded, the numbers
    sent are strictly increasing - no peer twice, never the own node, nothing the
    database did not hold -, and when the stream has moved on, every peer that was there
    throughout has been sent. *)
Theorem node_walk_survives_changes (own : Z) (envs : list config_env) (a : phoneapi) :
  Forall (fun e => ce_node_id e = own) envs ->
  a_config_state a = CONFIG_OTHER_NODEINFOS -> a_node_cursor a = 0 ->
  let '(a', sent) := walk_run envs a in
  StronglySorted Z.lt sent /\
  (forall x, x ∈ sent -> x <> own /\ exists e, e ∈ envs /\ x ∈ ce_nodes e) /\
  (a_config_state a' <> CONFIG_OTHER_NODEINFOS ->
   forall x, 0 < x -> x <> own -> (forall e, e ∈ envs -> x ∈ ce_nodes e) -> x ∈ sent).
Proof.
  intros Hown Hst Hc. pose proof (walk_run_spec own envs a Hown Hst) as H.
  destruct (walk_run envs a) as [a' sent]. destruct H as (Hs & Hf & Hp). rewrite Hc in Hp.
  split; [done|]. split; [|done]. rewrite Forall_forall in Hf. intros x Hx. by destruct (Hf x Hx).
Qed.

(** Peer 3 arrives behind the cursor, 9 and 7 change places, 8 goes before its turn. *)
Definition changing : list config_env :=
  [sample_env [9; 5; 4; 7]; sample_env [7; 5; 8; 9; 3; 4]; sample_env [9; 7; 4; 5]; sample_env [9; 7; 4];
   sample_env [4; 7; 9]].

Definition walking : phoneapi := set_a_config_state CONFIG_OTHER_NODEINFOS (meshtastic_phoneapi_init 2).

Lemma node_walk_survives_changes_witness :
  (walk_run changing walking).2 = [4; 7; 9] /\
  let '(a', sent) := walk_run changing walking in
  StronglySorted Z.lt sent /\
  (forall x, x ∈ sent -> x <> 5 /\ exists e, e ∈ changing /\ x ∈ ce_nodes e) /\
  (a_config_state a' <> CONFIG_OTHER_NODEINFOS ->
   forall x, 0 < x -> x <> 5 -> (forall e, e ∈ changing -> x ∈ ce_nodes e) -> x ∈ sent).
Proof.
  split; [vm_compute; reflexivity|].
  apply (node_walk_survives_changes 5 changing walking); [|done | done].
  repeat apply Forall_cons_2; try apply Forall_nil_2; done.
Defined.
