(* ===== verification/PhoneTransport.v ===== *)
(** * The phone API on its byte streams (src/src/meshtastic_serial.c, src/src/meshtastic_tcp.c)

    The senders of the serial and of the TCP transport: frames are taken from the session
    one by one, framed, and put into the transmit ring or written to the socket; a frame
    that finds no room, or whose write fails, goes back to the front of the queue. This
    file composes the session of [PhoneApi] with the framing of [StreamFrame]. *)
From S2P Require Import Prelude Sched StreamFrame PhoneApi.
Open Scope Z_scope.

(** The loop both senders run: [accept k wire] is whether the [k]-th frame offered is
    taken. The result is the session, the frames taken, and whether the loop ran to the
    end of what the session serves; [None] when [fuel] is used up. *)
Section Drain.
Context (encode : list Z -> Z -> list Z) (accept : nat -> list Z -> bool) (env : config_env).

Fixpoint drain (fuel k : nat) (a : phoneapi) : option (phoneapi * list (list Z) * bool) :=
  match fuel with
  | O => None
  | S n =>
      match meshtastic_phoneapi_pop_frame env a with
      | (a1, None) => Some (a1, [], true)
      | (a1, Some f) =>
          let wire := encode (pf_data f) MESHTASTIC_SERIAL_WIRE_MAX in
          if Zlen wire =? 0 then drain n k a1
          else if accept k wire
          then (fun r => (r.1.1, wire :: r.1.2, r.2)) <$> drain n (S k) a1
          else Some (meshtastic_phoneapi_push_frame_front f a1, [], false)
      end
  end.
End Drain.

(** [room k]: the free bytes of the ring when the [k]-th frame is offered; the ring is
    emptied by the interrupt meanwhile. *)
Definition tx_work_handler (fuel : nat) (room : nat -> Z) (env : config_env) (a : phoneapi) :=
  drain meshtastic_serial_encode_frame (fun k wire => Zlen wire <=? room k) env fuel 0 a.

(** [sent k]: whether the socket took the whole of the [k]-th frame. *)
Definition tcp_drain_tx (fuel : nat) (sent : nat -> bool) (env : config_env) (a : phoneapi) :=
  drain tcp_encode_frame (fun k _ => sent k) env fuel 0 a.

(** ** Everything the session serves *)
Definition frame_ok (f : pframe) : Prop := payload_ok (pf_data f).

Lemma wire_frame_nonempty p : payload_ok p -> (Zlen (wire_frame p) =? 0) = false.
Proof.
  intros Hp. apply Z.eqb_neq. destruct (wire_frame_eq p Hp) as (-> & _ & _). rewrite length_app. simpl. lia.
Qed.

Lemma wire_frame_max p : payload_ok p -> Zlen (wire_frame p) <= MESHTASTIC_SERIAL_WIRE_MAX.
Proof.
  intros Hp. destruct (wire_frame_eq p Hp) as (-> & _ & _). destruct Hp as [_ Hp].
  unfold MESHTASTIC_SERIAL_WIRE_MAX, MESHTASTIC_SERIAL_HEADER. rewrite length_app. simpl length. lia.
Qed.

Lemma drain_all encode accept env n k a a' fs :
  (forall p, payload_ok p -> encode p MESHTASTIC_SERIAL_WIRE_MAX = wire_frame p) ->
  (forall j p, payload_ok p -> accept j (wire_frame p) = true) ->
  pops n env a = (a', fs) -> (length fs < n)%nat -> Forall frame_ok fs ->
  drain encode accept env n k a = Some (a', (fun f => wire_frame (pf_data f)) <$> fs, true).
Proof.
  intros He Ha. revert k a fs. induction n as [|n IH]; intros k a fs; [intros; lia|]. cbn [pops drain].
  destruct (meshtastic_phoneapi_pop_frame env a) as [a1 [f|]]; [|by intros [= <- <-]].
  destruct (pops n env a1) as [a2 fs'] eqn:E. intros [= <- <-] Hn Hok.
  apply Forall_cons in Hok as [Hf Hok]. rewrite He by done.
  rewrite wire_frame_nonempty, Ha by done.
  rewrite (IH (S k) a1 fs') by (done || (simpl in Hn; lia)). done.
Qed.

Lemma line_of_frames fs :
  line ((fun f => ([], pf_data f)) <$> fs) = concat ((fun f => wire_frame (pf_data f)) <$> fs).
Proof. unfold line. by rewrite <- list_fmap_compose. Qed.

(** What a session serves is what the other end reads. When the transmit ring has
    room for a whole frame each time, and the socket accepts every write, the serial and
    the TCP sender put the same bytes on the line for the same session - a handshake in
    progress, a backlog, or both -, they stop when the session has nothing more, and a
    receiver of either kind, fed these bytes in any pieces, is handed exactly the
    session's frames in the order in which it served them. *)
Theorem session_carried_by_stream (env : config_env) (n : nat) (a a' : phoneapi) (fs : list pframe)
    (room : nat -> Z) (chunks : list (list Z)) (q : parser) :
  pops n env a = (a', fs) -> (length fs < n)%nat -> Forall frame_ok fs ->
  (forall k, MESHTASTIC_SERIAL_WIRE_MAX <= room k) -> waiting q ->
  exists wires,
    tx_work_handler n room env a = Some (a', wires, true) /\
    tcp_drain_tx n (fun _ => true) env a = Some (a', wires, true) /\
    (concat chunks = concat wires ->
     (exists s', serial_rx_chunks chunks (Serial [] false) = Some (s', pf_data <$> fs)) /\
     (tcp_rx_chunks chunks q).2 = pf_data <$> fs).
Proof.
  intros Hp Hn Hok Hroom Hq. exists ((fun f => wire_frame (pf_data f)) <$> fs). split; [|split].
  - apply drain_all; try done. intros j p Hpay. apply Z.leb_le.
    pose proof (wire_frame_max p Hpay). specialize (Hroom j). lia.
  - apply drain_all; try done.
  - intros Hc.
    set (segs := (fun f : pframe => (@nil Z, pf_data f)) <$> fs).
    assert (Hs : Forall (fun s => noise s.1 /\ payload_ok s.2) segs).
    { apply Forall_fmap. eapply Forall_impl; [exact Hok|]. intros f Hf. split; [|exact Hf].
      split; apply Forall_nil_2. }
    assert (Hseg : segs.*2 = pf_data <$> fs) by (unfold segs; by rewrite <- list_fmap_compose).
    rewrite <- line_of_frames in Hc. fold segs in Hc. rewrite <- Hseg.
    assert (Hbytes : bytes_ok (concat chunks)) by (rewrite Hc; by apply line_ok).
    split.
    + rewrite serial_rx_chunks_all; [|by apply Forall_nil_2 | done | by apply Forall_concat].
      cbn [app]. rewrite Hc. replace (line segs) with (line segs ++ []) by apply app_nil_r.
      rewrite rx_all_line; [eauto | done | split; apply Forall_nil_2].
    + rewrite tcp_rx_chunks_all, Hc. by destruct (tcp_rx_line segs q Hs Hq) as (q' & -> & _).
Qed.

Definition talking : phoneapi :=
  Api [PFrame [1; 9] 4 0; PFrame [2] 0 1; PFrame [3] 2 0] 1 2 2 false false pframe0 false 0 CONFIG_COMPLETE 0 0 7 true false 0.

Lemma session_carried_by_stream_witness :
  exists wires,
    tx_work_handler 6 (fun _ => 516) (sample_env [9; 3]) talking =
      Some ((pops 6 (sample_env [9; 3]) talking).1, wires, true) /\
    tcp_drain_tx 6 (fun _ => true) (sample_env [9; 3]) talking =
      Some ((pops 6 (sample_env [9; 3]) talking).1, wires, true) /\
    (concat [[148; 195; 0]; [1; 7; 148; 195; 0; 1]; [3; 148]; [195; 0; 2; 1; 9]] = concat wires ->
     (exists s', serial_rx_chunks [[148; 195; 0]; [1; 7; 148; 195; 0; 1]; [3; 148]; [195; 0; 2; 1; 9]]
                   (Serial [] false) = Some (s', [[7]; [3]; [1; 9]])) /\
     (tcp_rx_chunks [[148; 195; 0]; [1; 7; 148; 195; 0; 1]; [3; 148]; [195; 0; 2; 1; 9]]
        (Parser WAIT_START1 0 0 (replicate 512 0))).2 = [[7]; [3]; [1; 9]]).
Proof.
  apply (session_carried_by_stream (sample_env [9; 3]) 6 talking (pops 6 (sample_env [9; 3]) talking).1
    [PFrame [7] 0 0; PFrame [3] 2 0; PFrame [1; 9] 4 0] (fun _ => 516)
    [[148; 195; 0]; [1; 7; 148; 195; 0; 1]; [3; 148]; [195; 0; 2; 1; 9]] (Parser WAIT_START1 0 0 (replicate 512 0))).
  - vm_compute. reflexivity.
  - simpl. lia.
  - repeat apply Forall_cons_2; try apply Forall_nil_2; (split; [|simpl; unfold MESHTASTIC_API_FRAME_MAX; lia]);
      repeat apply Forall_cons_2; try apply Forall_nil_2; unfold byte_ok; simpl; lia.
  - intros k. vm_compute. discriminate.
  - by split.
Defined.

(** ** Frames put back *)
(** A frame taken by an authorized idle session and put back leaves the queue as it was. *)
Lemma put_back_restores env a a1 f :
  phone_wf a -> config_active a = false -> meshtastic_phoneapi_authorized (ce_active env) a = true ->
  meshtastic_phoneapi_pop_frame env a = (a1, Some f) ->
  exists l, view a = f :: l /\ view a1 = l /\ phone_wf a1 /\ session_part a1 = session_part a /\
    phone_wf (meshtastic_phoneapi_push_frame_front f a1) /\
    view (meshtastic_phoneapi_push_frame_front f a1) = f :: l.
Proof.
  intros Hw Hi Hau E. rewrite pop_idle in E by done.
  pose proof (take_servable_session (a_count a) 0 true a) as Hse.
  assert (E' : take_servable_loop (a_count a) 0 true a = (a1, Some f)) by (rewrite <- Hau; exact E).
  rewrite E' in Hse. simpl in Hse.
  apply queue_take_servable_list in E as (Hw1 & Hs1 & Hm); [|done]. rewrite Hau in Hm.
  destruct (view a) as [|g l] eqn:Hv; simpl in Hm; [by destruct Hm|].
  destruct Hm as [[= ->] Hv1]. exists l. split; [done|]. split; [done|]. split; [done|]. split; [done|].
  destruct (push_frame_front_list g a1 Hw1) as (Hw2 & Hv2 & _). split; [done|].
  rewrite Hv2. unfold list_push_front. rewrite take_ge; [by rewrite Hv1|].
  pose proof (length_view a) as Hl. rewrite Hv in Hl. simpl in Hl.
  pose proof (pw_count _ Hw). rewrite Hv1, Hs1. lia.
Qed.

(** A transmit ring that is full loses nothing. For an authorized session past its
    handshake, whatever room the ring has at each frame, one run of the sender - it needs
    at most one turn per queued frame and one more - puts a prefix of the queue on the
    line, whole frames only, and leaves exactly the rest queued, in order; it stops short
    only when a frame found no room. *)
Theorem deferral_loses_nothing (env : config_env) (room : nat -> Z) (a : phoneapi) (n : nat) :
  phone_wf a -> config_active a = false -> meshtastic_phoneapi_authorized (ce_active env) a = true ->
  Forall frame_ok (view a) -> (a_count a < n)%nat ->
  exists a' wires all,
    tx_work_handler n room env a = Some (a', wires, all) /\ phone_wf a' /\
    wires = (fun f => wire_frame (pf_data f)) <$> take (length wires) (view a) /\
    view a' = drop (length wires) (view a) /\
    (if all then view a' = []
     else exists f, head (view a') = Some f /\ room (length wires) < Zlen (wire_frame (pf_data f))).
Proof.
  intros Hw Hi Hau Hok Hn. unfold tx_work_handler.
  enough (H : forall k, exists a' wires (all : bool),
    drain meshtastic_serial_encode_frame (fun k wire => Zlen wire <=? room k) env n k a =
      Some (a', wires, all) /\ phone_wf a' /\
    wires = (fun f => wire_frame (pf_data f)) <$> take (length wires) (view a) /\
    view a' = drop (length wires) (view a) /\
    (if all then view a' = []
     else exists f, head (view a') = Some f /\ room (k + length wires)%nat < Zlen (wire_frame (pf_data f))))
    by exact (H O).
  revert a Hw Hi Hau Hok Hn. induction n as [|n IH]; intros a Hw Hi Hau Hok Hn k; [lia|]. cbn [drain].
  destruct (meshtastic_phoneapi_pop_frame env a) as [a1 [f|]] eqn:E.
  - destruct (put_back_restores env a a1 f Hw Hi Hau E) as (l & Hv & Hv1 & Hw1 & Hse & Hwp & Hvp).
    rewrite Hv in Hok. apply Forall_cons in Hok as [Hf Hok].
    change (meshtastic_serial_encode_frame (pf_data f) MESHTASTIC_SERIAL_WIRE_MAX) with (wire_frame (pf_data f)).
    rewrite wire_frame_nonempty by done.
    destruct (Z.leb_spec (Zlen (wire_frame (pf_data f))) (room k)) as [Hr|Hr].
    + destruct (IH a1) with (k := S k) as (a' & wires & all & Hd & Hw' & Hwi & Hv' & Hall).
      { done. } { by rewrite (session_active _ _ Hse). }
      { unfold meshtastic_phoneapi_authorized in *. by rewrite (session_auth _ _ Hse). }
      { by rewrite Hv1. }
      { pose proof (length_view a) as H1. pose proof (length_view a1) as H2.
        rewrite Hv in H1. rewrite Hv1 in H2. simpl in H1. lia. }
      rewrite Hd. exists a', (wire_frame (pf_data f) :: wires), all. cbn [fmap option_fmap option_map fst snd].
      rewrite Hv. cbn [length take drop fmap list_fmap]. rewrite Hv1 in Hwi, Hv'. split; [done|]. split; [done|].
      split; [by f_equal|]. split; [done|]. destruct all; [done|].
      by rewrite Nat.add_succ_r.
    + eexists _, [], false. split; [done|]. split; [done|]. split; [done|]. simpl.
      rewrite Hv, Hvp. split; [done|]. exists f. by rewrite Nat.add_0_r.
  - rewrite pop_idle in E by done. apply queue_take_servable_list in E as (_ & _ & Hm); [|done].
    rewrite Hau in Hm. destruct (view a) as [|g l] eqn:Hv; simpl in Hm; [|by destruct Hm].
    destruct Hm as [_ ->]. exists a, [], true. rewrite Hv. done.
Qed.

Definition queued : phoneapi := set_a_config_state CONFIG_IDLE talking.

Lemma deferral_loses_nothing_witness :
  exists a' wires all,
    tx_work_handler 3 (fun k => if (k =? 0)%nat then 5 else 4) (sample_env []) queued = Some (a', wires, all) /\
    phone_wf a' /\
    wires = (fun f => wire_frame (pf_data f)) <$> take (length wires) (view queued) /\
    view a' = drop (length wires) (view queued) /\
    (if all then view a' = []
     else exists f, head (view a') = Some f /\
            (if (length wires =? 0)%nat then 5 else 4) < Zlen (wire_frame (pf_data f))).
Proof.
  apply (deferral_loses_nothing (sample_env []) (fun k => if (k =? 0)%nat then 5 else 4) queued 3).
  - split; vm_compute; lia || done.
  - done.
  - done.
  - vm_compute view. repeat apply Forall_cons_2; try apply Forall_nil_2;
      (split; [|simpl; unfold MESHTASTIC_API_FRAME_MAX; lia]);
      repeat apply Forall_cons_2; try apply Forall_nil_2; unfold byte_ok; simpl; lia.
  - vm_compute. lia.
Defined.

(** A frame of a configuration stream is put back into the queue too, but the stream is
    served before the queue: the deferred frame is overtaken by the rest of its stream,
    here the own node's frame (content 0) by the peers and the completion (77). *)
Example deferred_config_frame_overtaken :
  let s := meshtastic_phoneapi_enqueue_phone_config NONCE_ONLY_NODES
             (set_a_admin_authorized true (meshtastic_phoneapi_init 4)) in
  exists s1,
    tx_work_handler 8 (fun _ => 4) (sample_env [9; 3]) s = Some (s1, [], false) /\
    (exists s2, tx_work_handler 8 (fun _ => 516) (sample_env [9; 3]) s1 =
       Some (s2, [wire_frame [3]; wire_frame [9]; wire_frame [NONCE_ONLY_NODES mod 256]; wire_frame [0]], true)).
Proof. eexists. split; [vm_compute; reflexivity|]. eexists. vm_compute. reflexivity. Qed.

(** An authorization revoked while the node database is being streamed does not stop the
    stream: the peers go to a connection that is no longer authorized. *)
Example revoked_session_still_sees_nodes :
  let s := set_a_config_state CONFIG_OTHER_NODEINFOS (meshtastic_phoneapi_init 4) in
  meshtastic_phoneapi_authorized (ce_active (sample_env [9; 3])) s = false /\
  (pops 2 (sample_env [9; 3]) s).2 = [PFrame [3] 0 0; PFrame [9] 0 0].
Proof. split; vm_compute; reflexivity. Qed.
