(* ===== verification/Router.v ===== *)
(** * The router (src/src/meshtastic_router.c)

    A received frame on its way through the node: the ingress guards, duplicate
    suppression with hop upgrades, decoding, the signature and traffic gates, delivery,
    and the decision to relay. What the router hands to other components is the list of
    effects of a call, in order; what it asks them is a field of the environment. The
    firmware with all optional modules is modelled; the radio-head support
    (CONFIG_MESHTASTIC_ATTACHMENT_BRAIN) is the flag [re_brain]. *)
From Stdlib Require Import Sorting.Sorted.
From S2P Require Import Prelude Sched Contention Packet Relay.
Open Scope Z_scope.

Inductive role := ROLE_CLIENT | ROLE_CLIENT_MUTE | ROLE_ROUTER | ROLE_ROUTER_LATE | ROLE_CLIENT_BASE | ROLE_OTHER.
#[export] Instance role_eq_dec : EqDecision role.
Proof. solve_decision. Defined.

Inductive rebroadcast_mode := MODE_ALL | MODE_LOCAL_ONLY | MODE_NONE | MODE_CORE_PORTNUMS_ONLY | MODE_OTHER.
#[export] Instance rebroadcast_mode_eq_dec : EqDecision rebroadcast_mode.
Proof. solve_decision. Defined.

Inductive decode_fail := FAIL_NONE | FAIL_NO_CHANNEL | FAIL_PKI_UNKNOWN_PUBKEY.
#[export] Instance decode_fail_eq_dec : EqDecision decode_fail.
Proof. solve_decision. Defined.
Inductive routing_error := NO_CHANNEL | PKI_UNKNOWN_PUBKEY.

Definition MESHTASTIC_PORT_ADMIN : Z := 6.
Definition MESHTASTIC_PAYLOAD_MAX : Z := 239.

Definition meshtastic_bearer_is_rf (b : bearer) : bool :=
  bool_decide (b = BEARER_LORA) || bool_decide (b = BEARER_ATTACHMENT).

(** ** State *)
Record dup_entry := DupEntry {
  de_src : Z;
  de_id : Z;
  de_ms : Z;
  de_relayed_ms : Z;
  de_hop_limit : Z;
  de_attach : Z;
  de_relay_node : Z;
  de_relay_attach : Z;
  de_attach_rx_ms : Z;
  de_relayed : bool;
}.
Definition set_de_src (v : Z) (r : dup_entry) : dup_entry :=
DupEntry v (de_id r) (de_ms r) (de_relayed_ms r) (de_hop_limit r) (de_attach r)
    (de_relay_node r) (de_relay_attach r) (de_attach_rx_ms r) (de_relayed r).
Definition set_de_id (v : Z) (r : dup_entry) : dup_entry :=
DupEntry (de_src r) v (de_ms r) (de_relayed_ms r) (de_hop_limit r) (de_attach r)
    (de_relay_node r) (de_relay_attach r) (de_attach_rx_ms r) (de_relayed r).
Definition set_de_ms (v : Z) (r : dup_entry) : dup_entry :=
DupEntry (de_src r) (de_id r) v (de_relayed_ms r) (de_hop_limit r) (de_attach r)
    (de_relay_node r) (de_relay_attach r) (de_attach_rx_ms r) (de_relayed r).
Definition set_de_relayed_ms (v : Z) (r : dup_entry) : dup_entry :=
DupEntry (de_src r) (de_id r) (de_ms r) v (de_hop_limit r) (de_attach r) (de_relay_node r)
    (de_relay_attach r) (de_attach_rx_ms r) (de_relayed r).
Definition set_de_hop_limit (v : Z) (r : dup_entry) : dup_entry :=
DupEntry (de_src r) (de_id r) (de_ms r) (de_relayed_ms r) v (de_attach r) (de_relay_node r)
    (de_relay_attach r) (de_attach_rx_ms r) (de_relayed r).
Definition set_de_attach (v : Z) (r : dup_entry) : dup_entry :=
DupEntry (de_src r) (de_id r) (de_ms r) (de_relayed_ms r) (de_hop_limit r) v (de_relay_node
    r) (de_relay_attach r) (de_attach_rx_ms r) (de_relayed r).
Definition set_de_relay_node (v : Z) (r : dup_entry) : dup_entry :=
DupEntry (de_src r) (de_id r) (de_ms r) (de_relayed_ms r) (de_hop_limit r) (de_attach r) v
    (de_relay_attach r) (de_attach_rx_ms r) (de_relayed r).
Definition set_de_relay_attach (v : Z) (r : dup_entry) : dup_entry :=
DupEntry (de_src r) (de_id r) (de_ms r) (de_relayed_ms r) (de_hop_limit r) (de_attach r)
    (de_relay_node r) v (de_attach_rx_ms r) (de_relayed r).
Definition set_de_attach_rx_ms (v : Z) (r : dup_entry) : dup_entry :=
DupEntry (de_src r) (de_id r) (de_ms r) (de_relayed_ms r) (de_hop_limit r) (de_attach r)
    (de_relay_node r) (de_relay_attach r) v (de_relayed r).
Definition set_de_relayed (v : bool) (r : dup_entry) : dup_entry :=
DupEntry (de_src r) (de_id r) (de_ms r) (de_relayed_ms r) (de_hop_limit r) (de_attach r)
    (de_relay_node r) (de_relay_attach r) (de_attach_rx_ms r) v.

Record router := Router {
  r_dup_cache : list dup_entry;
  r_dup_head : nat;
  r_duplicate_packets : Z;
  r_rx_packets : Z;
  r_relayed_packets : Z;
  r_decode_failures : Z;
  r_self_heard : Z;
  r_last_rx : Z * Z * Z;
}.
Definition set_r_dup_cache (v : list dup_entry) (r : router) : router :=
Router v (r_dup_head r) (r_duplicate_packets r) (r_rx_packets r) (r_relayed_packets r)
    (r_decode_failures r) (r_self_heard r) (r_last_rx r).
Definition set_r_dup_head (v : nat) (r : router) : router :=
Router (r_dup_cache r) v (r_duplicate_packets r) (r_rx_packets r) (r_relayed_packets r)
    (r_decode_failures r) (r_self_heard r) (r_last_rx r).
Definition set_r_duplicate_packets (v : Z) (r : router) : router :=
Router (r_dup_cache r) (r_dup_head r) v (r_rx_packets r) (r_relayed_packets r)
    (r_decode_failures r) (r_self_heard r) (r_last_rx r).
Definition set_r_rx_packets (v : Z) (r : router) : router :=
Router (r_dup_cache r) (r_dup_head r) (r_duplicate_packets r) v (r_relayed_packets r)
    (r_decode_failures r) (r_self_heard r) (r_last_rx r).
Definition set_r_relayed_packets (v : Z) (r : router) : router :=
Router (r_dup_cache r) (r_dup_head r) (r_duplicate_packets r) (r_rx_packets r) v
    (r_decode_failures r) (r_self_heard r) (r_last_rx r).
Definition set_r_decode_failures (v : Z) (r : router) : router :=
Router (r_dup_cache r) (r_dup_head r) (r_duplicate_packets r) (r_rx_packets r)
    (r_relayed_packets r) v (r_self_heard r) (r_last_rx r).
Definition set_r_self_heard (v : Z) (r : router) : router :=
Router (r_dup_cache r) (r_dup_head r) (r_duplicate_packets r) (r_rx_packets r)
    (r_relayed_packets r) (r_decode_failures r) v (r_last_rx r).
Definition set_r_last_rx (v : Z * Z * Z) (r : router) : router :=
Router (r_dup_cache r) (r_dup_head r) (r_duplicate_packets r) (r_rx_packets r)
    (r_relayed_packets r) (r_decode_failures r) (r_self_heard r) v.

Record rx_meta := RxMeta {
  mt_bearer : bearer; mt_attach : Z; mt_preset : Z; mt_rssi : Z; mt_snr : Z; mt_rx_ms : Z }.

Record peer_info := PeerInfo { pi_is_favorite : bool; pi_has_user : bool; pi_role : role }.

(** What decoding a wire frame gives: the packet, its decoded form, the reason of a failure. *)
Definition decode_result : Type := packet * option mesh_packet * decode_fail.

Record router_env := RouterEnv {
  re_node_id : Z;                        (* mt.node_id *)
  re_brain : bool;                       (* CONFIG_MESHTASTIC_ATTACHMENT_BRAIN *)
  re_ignore_mqtt : bool;                 (* CONFIG_MESHTASTIC_MQTT_IGNORE_MQTT *)
  re_role : role;
  re_mode : rebroadcast_mode;
  re_sched : sched_config;
  re_now : Z;                            (* k_uptime_get_32() *)
  re_draw : draw;                        (* the random numbers of the contention window *)
  re_modem : Z * Z;                      (* spreading factor and bandwidth *)
  re_ignored : Z -> bool;                (* meshtastic_nodedb_is_ignored *)
  re_resolve : Z -> Z;                   (* meshtastic_nodedb_resolve_unique_last_byte *)
  re_peer : Z -> option peer_info;       (* meshtastic_nodedb_get *)
  re_favorite : Z -> Z -> bool;          (* meshtastic_nodedb_is_from_or_to_favorite *)
  re_next_hop : Z -> Z;                  (* meshtastic_nodedb_get_next_hop *)
  re_attach_modem : Z -> option (Z * Z); (* meshtastic_attachment_modem *)
  re_send : cret;                        (* meshtastic_radio_send_wire_after *)
  re_attach_send : cret;                 (* meshtastic_attachment_relay *)
  re_attach_cancel : cret;               (* meshtastic_attachment_cancel *)
  re_cancelled : Z;                      (* meshtastic_outbound_cancel *)
  re_deferred : Z;                       (* meshtastic_outbound_defer_late *)
  re_decode : list Z -> rx_meta -> res decode_result;
  re_channel_hash : Z -> Z;              (* meshtastic_channels_get_hash *)
  re_ch_hash : Z;                        (* mt.ch_hash *)
  re_signature_ok : packet -> bool;      (* meshtastic_xeddsa_check_rx_policy *)
  re_traffic_drop : packet -> bool -> bool;
  re_solicited : packet -> bool;         (* meshtastic_admin_take_solicited_response *)
  re_admin_answered : packet -> bool;    (* meshtastic_admin_handle_remote *)
}.

(** What the router does to the rest of the node. *)
Inductive fx :=
  | FxOwnEcho (id relay_node : Z)
  | FxImplicitAck (id : Z)
  | FxReack (src id channel hop_limit hop_start attach : Z)
  | FxStatRelaySent | FxStatRedundant (gap : Z) | FxStatCancelled | FxStatDeferredLate | FxStatDedupExpired
  | FxCancel (src id : Z)
  | FxDeferLate (src id late_ms : Z)
  | FxAttachCancel (attach src id : Z)
  | FxLatency (attach delta : Z)
  | FxRelay (wire : list Z) (delay : Z)
  | FxAttachRelay (attach : Z) (wire : list Z) (src id rx_ms delay dupe : Z)
  | FxSendWire (wire : list Z)
  | FxSendMesh (m : mesh_packet)
  | FxSendError (p : packet) (err : routing_error)
  | FxDeliver (p : packet)
  | FxAdmin (p : packet)
  | FxMqttUplink (p : packet)
  | FxOnDecoded (p : packet)
  | FxDispatch (p : packet)
  | FxRelayText (p : packet) (b : bearer)
  | FxEar (p : packet) (wire : list Z)
  | FxLearn (p : packet).

(** ** The duplicate cache *)
Inductive dup_verdict := DUP_NEW | DUP_SEEN | DUP_UPGRADE.

Definition dup_is (src id : Z) (e : dup_entry) : bool := (de_src e =? src) && (de_id e =? id).

Definition ttl_ms (env : router_env) : Z := u32 (dedup_ttl_sec (re_sched env) * 1000).

Definition dup_expired (env : router_env) (e : dup_entry) : bool :=
  negb (ttl_ms env =? 0) && (ttl_ms env <? u32 (re_now env - de_ms e)).

Definition dup_check_hops (env : router_env) (src id hop_limit : Z) (allow_upgrade : bool) (r : router)
    : router * dup_verdict * list fx :=
  match find_index (fun e => dup_is src id e && negb (dup_expired env e)) (r_dup_cache r) with
  | Some i =>
      match r_dup_cache r !! i with
      | Some e =>
          if allow_upgrade && (de_hop_limit e <? hop_limit)
          then (set_r_dup_cache (<[i := set_de_attach 255 (set_de_hop_limit hop_limit e)]> (r_dup_cache r)) r,
                DUP_UPGRADE, [])
          else (set_r_duplicate_packets (u32 (r_duplicate_packets r + 1)) r, DUP_SEEN, [])
      | None => (r, DUP_NEW, [])
      end
  | None => (r, DUP_NEW, if existsb (dup_is src id) (r_dup_cache r) then [FxStatDedupExpired] else [])
  end.

Definition dup_check (env : router_env) (src id : Z) (r : router) : router * bool * list fx :=
  let '(r', v, f) := dup_check_hops env src id 0 false r in
  (r', match v with DUP_NEW => false | _ => true end, f).

Definition dup_find (src id : Z) (r : router) : option dup_entry :=
  i ← find_index (dup_is src id) (r_dup_cache r); r_dup_cache r !! i.

(** Change the entry [dup_find] points at. *)
Definition dup_update (src id : Z) (f : dup_entry -> dup_entry) (r : router) : router :=
  match find_index (dup_is src id) (r_dup_cache r) with
  | Some i => set_r_dup_cache (alter f i (r_dup_cache r)) r
  | None => r
  end.

Definition dup_mark_relayed (env : router_env) (src id : Z) (r : router) : router * list fx :=
  (dup_update src id (fun e => set_de_relayed_ms (re_now env) (set_de_relayed true e)) r, [FxStatRelaySent]).

Definition dup_add (env : router_env) (src id hop_limit attach relay_node attach_rx_ms : Z) (r : router) : router :=
  set_r_dup_head ((r_dup_head r + 1) `mod` length (r_dup_cache r))%nat
    (set_r_dup_cache
       (<[r_dup_head r := DupEntry src id (re_now env) 0 hop_limit attach relay_node 0 attach_rx_ms false]>
          (r_dup_cache r)) r).

(** ** Relay policy *)
Definition relay_local_ok (b : bearer) : bool := bool_decide (b = BEARER_LORA).

Definition role_is_router_like (role : role) : bool :=
  match role with ROLE_ROUTER | ROLE_ROUTER_LATE | ROLE_CLIENT_BASE => true | _ => false end.

Definition hop_start_of (h : wire_header) : Z :=
  Z.shiftr (Z.land (h_flags h) MESHTASTIC_FLAGS_HOP_START_MASK) MESHTASTIC_FLAGS_HOP_START_SHIFT.
Definition hop_limit_of (h : wire_header) : Z := Z.land (h_flags h) MESHTASTIC_FLAGS_HOP_LIMIT_MASK.

Definition relay_should_decrement_hop_limit (env : router_env) (h : wire_header) (hop_limit : Z) : bool :=
  if (hop_start_of h =? 0) || (hop_start_of h <=? hop_limit) then true
  else if negb (role_is_router_like (re_role env)) then true
  else if re_resolve env (h_relay_node h) =? 0 then true
  else
    match re_peer env (re_resolve env (h_relay_node h)) with
    | None => true
    | Some p => negb (pi_is_favorite p && pi_has_user p && role_is_router_like (pi_role p))
    end.

Definition relay_early_like_router (env : router_env) : bool := bool_decide (re_role env = ROLE_ROUTER).

Inductive relay_dupe := RELAY_DUPE_CANCEL | RELAY_DUPE_KEEP | RELAY_DUPE_LATE.

Definition relay_dupe_action (env : router_env) (from to : Z) : relay_dupe :=
  match re_role env with
  | ROLE_ROUTER => RELAY_DUPE_KEEP
  | ROLE_ROUTER_LATE => RELAY_DUPE_LATE
  | ROLE_CLIENT_BASE => if re_favorite env from to then RELAY_DUPE_LATE else RELAY_DUPE_CANCEL
  | _ => RELAY_DUPE_CANCEL
  end.

(** MESHTASTIC_ATTACHMENT_DUPE_KEEP, _CANCEL, _LATE *)
Definition attachment_dupe (d : relay_dupe) : Z :=
  match d with RELAY_DUPE_KEEP => 0 | RELAY_DUPE_CANCEL => 1 | RELAY_DUPE_LATE => 2 end.

Definition note_possible_redundant_relay (env : router_env) (h : wire_header) (src id rx_hop_limit snr : Z)
    (r : router) : list fx :=
  match dup_find src id r with
  | None => []
  | Some e =>
      if negb (de_relayed e) then []
      else if (h_relay_node h =? 0) || (h_relay_node h =? u8 (Z.land (re_node_id env) 255)) then []
      else if negb (hop_start_of h =? 0) && (hop_start_of h =? rx_hop_limit) then []
      else
        FxStatRedundant (u32 (re_now env - de_relayed_ms e)) ::
        (let action := relay_dupe_action env src (h_dest h) in
         if re_brain env && negb (de_relay_attach e =? 0) then
           match action with
           | RELAY_DUPE_CANCEL =>
               FxAttachCancel (de_relay_attach e) src id ::
               (if bool_decide (re_attach_cancel env = OK) then [FxStatCancelled] else [])
           | _ => []
           end
         else
           match action with
           | RELAY_DUPE_CANCEL =>
               FxCancel src id :: (if 0 <? re_cancelled env then [FxStatCancelled] else [])
           | RELAY_DUPE_LATE =>
               let late := meshtastic_contention_delay_relay_worst_ms (re_sched env) snr
                             (meshtastic_contention_effective_slot_ms (re_sched env) (re_modem env).1
                                (re_modem env).2 false) in
               FxDeferLate src id late :: (if 0 <? re_deferred env then [FxStatDeferredLate] else [])
           | RELAY_DUPE_KEEP => []
           end)
  end.

(** The frame that goes back on the air: three bytes of the header are rewritten. *)
Definition relay_frame (env : router_env) (buf : list Z) (h : wire_header) (hop_limit : Z) : list Z :=
  let out := if relay_should_decrement_hop_limit env h hop_limit then hop_limit - 1 else hop_limit in
  <[14%nat := re_next_hop env (h_dest h)]>
    (<[15%nat := u8 (Z.land (re_node_id env) 255)]>
       (<[12%nat := u8 (Z.lor (Z.land (h_flags h) (Z.lnot MESHTASTIC_FLAGS_HOP_LIMIT_MASK))
                          (Z.land out MESHTASTIC_FLAGS_HOP_LIMIT_MASK))]> buf)).

Definition count_relayed (env : router_env) (src id : Z) (r : router) : router * list fx :=
  dup_mark_relayed env src id (set_r_relayed_packets (u32 (r_relayed_packets r + 1)) r).

Definition relay_packet (env : router_env) (buf : list Z) (h : wire_header) (hop_limit snr attach : Z)
    (r : router) : router * list fx :=
  if (MESHTASTIC_PKT_MAX <? Zlen buf) || (hop_limit =? 0) then (r, [])
  else
    let frame := relay_frame env buf h hop_limit in
    let plan m := meshtastic_contention_plan_relay (re_sched env) (re_draw env) snr
                    (relay_early_like_router env) m.1 m.2 false in
    if re_brain env && negb (attach =? 0) then
      match dup_find (h_src h) (h_id h) r, re_attach_modem env attach with
      | Some e, Some m =>
          let call := FxAttachRelay attach frame (h_src h) (h_id h) (de_attach_rx_ms e) (delay_ms (plan m))
                        (attachment_dupe (relay_dupe_action env (h_src h) (h_dest h))) in
          match re_attach_send env with
          | ERR _ => (r, [call])
          | OK =>
              let '(r1, f) := count_relayed env (h_src h) (h_id h) r in
              (dup_update (h_src h) (h_id h) (set_de_relay_attach attach) r1, call :: f)
          end
      | _, _ => (r, [])
      end
    else
      let call := FxRelay frame (delay_ms (plan (re_modem env))) in
      match re_send env with
      | ERR _ => (r, [call])
      | OK => let '(r1, f) := count_relayed env (h_src h) (h_id h) r in (r1, call :: f)
      end.

Definition meshtastic_is_rebroadcaster (env : router_env) : bool :=
  negb (bool_decide (re_role env = ROLE_CLIENT_MUTE)) && negb (bool_decide (re_mode env = MODE_NONE)).

Definition meshtastic_routing_sniff_rebroadcast (env : router_env) (h : wire_header) (wire : list Z)
    (p : packet) (mesh : option mesh_packet) (r : router) : router * list fx :=
  if Zlen wire <? MESHTASTIC_HDR_LEN then (r, [])
  else if negb (meshtastic_is_rebroadcaster env) then (r, [])
  else if (h_src h =? re_node_id env) || (h_dest h =? re_node_id env) then (r, [])
  else if hop_limit_of h =? 0 then (r, [])
  else if (h_dest h =? MESHTASTIC_NODE_BROADCAST) && (h_id h =? 0) then (r, [])
  else if bool_decide (re_mode env = MODE_LOCAL_ONLY) then (r, [])
  else if negb (h_next_hop h =? 0) && negb (h_next_hop h =? u8 (Z.land (re_node_id env) 255)) then (r, [])
  else relay_packet env wire h (hop_limit_of h)
         (match mesh with Some m => m_rx_snr m | None => p_snr p end) (p_rx_attach p) r.

(** ** Delivery *)
Definition is_core_port (portnum : Z) : bool :=
  bool_decide (portnum ∈ [MESHTASTIC_PORT_TEXT_MESSAGE; MESHTASTIC_PORT_POSITION; MESHTASTIC_PORT_NODEINFO;
                          MESHTASTIC_PORT_ROUTING; MESHTASTIC_PORT_TELEMETRY]).

(** The local side of a decoded packet: what is done, and whether the mode suppresses
    the portnum. *)
Definition handle_decoded (env : router_env) (p : packet) (wire : option (list Z)) (b : bearer)
    : list fx * bool :=
  let rf := meshtastic_bearer_is_rf b in
  let suppress := bool_decide (re_mode env = MODE_CORE_PORTNUMS_ONLY) && negb (is_core_port (p_portnum p)) in
  let '(local, answered) :=
    if suppress then ([], false)
    else if (p_to p =? re_node_id env) || (p_to p =? MESHTASTIC_NODE_BROADCAST) then
      if (p_portnum p =? MESHTASTIC_PORT_ADMIN) && (p_to p =? re_node_id env) &&
         negb (p_from p =? re_node_id env)
      then if re_solicited env p then ([FxDeliver p], false) else ([FxAdmin p], re_admin_answered env p)
      else ([FxDeliver p], false)
    else ([], false) in
  (local ++ (if rf then [FxMqttUplink p] else []) ++ (if answered then [] else [FxOnDecoded p]) ++
   [FxDispatch p; FxRelayText p b] ++
   (match wire with Some w => if bool_decide (b = BEARER_LORA) then [FxEar p w] else [] | None => [] end) ++
   (if rf && (p_rx_attach p =? 0) then [FxLearn p] else []), suppress).

Definition materialize (env : router_env) (m : mesh_packet) : res packet :=
  meshtastic_mesh_pb_to_packet (re_channel_hash env) (re_ch_hash env) m (Some MESHTASTIC_MAX_PAYLOAD_LEN).

Definition handle_inbound_impl (env : router_env) (packet : option packet) (wire : option (list Z))
    (decoded : bool) (mesh : option mesh_packet) (b : bearer) (r : router) : router * list fx :=
  let hdr := w ← wire; if Zlen w <? MESHTASTIC_HDR_LEN then None else Some (header_of w) in
  let pkt :=
    match mesh with
    | Some m =>
        if decoded then
          match materialize env m with
          | Val p =>
              let p1 := match hdr with Some h => set_p_channel (h_channel h) p | None => p end in
              Some (set_p_rx_attach (match packet with Some q => p_rx_attach q | None => 0 end) p1)
          | Fail _ => packet
          end
        else packet
    | None => packet
    end in
  match pkt with
  | None => (r, [])
  | Some p =>
      if decoded && negb (re_signature_ok env p) then (r, [])
      else if re_traffic_drop env p decoded then (r, [])
      else
        let '(local, suppress) := if decoded then handle_decoded env p wire b else ([], false) in
        match hdr, wire with
        | Some h, Some w =>
            if negb suppress && (relay_local_ok b || (re_brain env && negb (p_rx_attach p =? 0))) then
              let '(r1, f) := meshtastic_routing_sniff_rebroadcast env h w p mesh r in (r1, local ++ f)
            else (r, local)
        | _, _ => (r, local)
        end
  end.

Definition decode_fail_to_routing_err (f : decode_fail) : routing_error :=
  match f with FAIL_PKI_UNKNOWN_PUBKEY => PKI_UNKNOWN_PUBKEY | _ => NO_CHANNEL end.

(** ** Reception *)
Definition low_byte (env : router_env) : Z := u8 (Z.land (re_node_id env) 255).

(** A duplicate: an acknowledgement lost on its way is sent again, our own relay may
    have become redundant, and the latency of a radio head may show. *)
Definition on_duplicate (env : router_env) (h : wire_header) (meta : rx_meta) (r : router) : list fx :=
  let rf := meshtastic_bearer_is_rf (mt_bearer meta) in
  let lim := hop_limit_of h in
  (if (h_dest h =? re_node_id env) && negb (Z.land (h_flags h) MESHTASTIC_FLAGS_WANT_ACK =? 0) &&
      negb (hop_start_of h =? 0) && (hop_start_of h =? lim)
   then [FxReack (h_src h) (h_id h) (h_channel h) lim (hop_start_of h) (mt_attach meta)] else []) ++
  (if rf then note_possible_redundant_relay env h (h_src h) (h_id h) lim (mt_snr meta) r else []) ++
  (if re_brain env && negb (mt_attach meta =? 0) then
     match dup_find (h_src h) (h_id h) r with
     | Some e => if (de_attach e =? 0) && (de_hop_limit e =? lim) && (de_relay_node e =? h_relay_node h)
                 then [FxLatency (mt_attach meta) (u32 (re_now env - de_ms e))] else []
     | None => []
     end
   else []).

(** A first sighting, already in the cache. *)
Definition on_new (env : router_env) (buf : list Z) (meta : rx_meta) (r : router) : router * list fx :=
  let rf := meshtastic_bearer_is_rf (mt_bearer meta) in
  match re_decode env buf meta with
  | Fail _ => (r, [])
  | Val (p0, mesh, fail) =>
      let p := set_p_rx_attach (mt_attach meta) p0 in
      let decoded := bool_decide (is_Some mesh) in
      let r1 := if decoded then r else set_r_decode_failures (u32 (r_decode_failures r + 1)) r in
      let err := if negb decoded && negb (bool_decide (fail = FAIL_NONE)) && p_want_ack p &&
                    (p_to p =? re_node_id env)
                 then [FxSendError p (decode_fail_to_routing_err fail)] else [] in
      let r2 := set_r_rx_packets (u32 (r_rx_packets r1 + 1)) r1 in
      let r3 := if rf then set_r_last_rx (wire_src buf, mt_rssi meta, mt_snr meta) r2 else r2 in
      let mesh' := if negb rf then set_m_transport TRANSPORT_API <$> mesh else mesh in
      let '(r4, f) := handle_inbound_impl env (Some p) (Some buf) decoded mesh' (mt_bearer meta) r3 in
      (r4, err ++ f)
  end.

Definition meshtastic_router_process_rx_meta (env : router_env) (buf : list Z) (meta : rx_meta) (r : router)
    : router * list fx :=
  let rf := meshtastic_bearer_is_rf (mt_bearer meta) in
  if Zlen buf <? MESHTASTIC_HDR_LEN then (r, [])
  else
    let h := header_of buf in
    if re_ignored env (h_src h) then (r, [])
    else if h_src h =? MESHTASTIC_NODE_BROADCAST then (r, [])
    else if re_ignore_mqtt env && negb (Z.land (h_flags h) MESHTASTIC_FLAGS_VIA_MQTT =? 0) then (r, [])
    else if h_src h =? re_node_id env then
      if negb rf then (r, [])
      else if negb (mt_attach meta =? 0) && (h_relay_node h =? low_byte env)
      then (set_r_self_heard (u32 (r_self_heard r + 1)) r, [])
      else (r, [FxOwnEcho (h_id h) (h_relay_node h); FxImplicitAck (h_id h)])
    else
      let '(r1, verdict, f1) := dup_check_hops env (h_src h) (h_id h) (hop_limit_of h) true r in
      match verdict with
      | DUP_SEEN => (r1, f1 ++ on_duplicate env h meta r1)
      | DUP_UPGRADE =>
          let upgraded := set_p_rx_attach (mt_attach meta)
                            (set_p_id (h_id h) (set_p_to (h_dest h) (set_p_from (h_src h) packet_zero))) in
          let f2 := if rf then note_possible_redundant_relay env h (h_src h) (h_id h) (hop_limit_of h)
                                 (mt_snr meta) r1 else [] in
          if relay_local_ok (mt_bearer meta) || (re_brain env && negb (mt_attach meta =? 0)) then
            let '(r2, f3) := meshtastic_routing_sniff_rebroadcast env h buf upgraded None r1 in
            (r2, f1 ++ f2 ++ f3)
          else (r1, f1 ++ f2)
      | DUP_NEW =>
          let r2 := dup_add env (h_src h) (h_id h) (hop_limit_of h) (mt_attach meta) (h_relay_node h)
                      (mt_rx_ms meta) r1 in
          let '(r3, f2) := on_new env buf meta r2 in (r3, f1 ++ f2)
      end.

Definition meshtastic_router_process_lora_rx (env : router_env) (preset : Z) (buf : list Z) (rssi snr : Z)
    (r : router) : router * list fx :=
  meshtastic_router_process_rx_meta env buf (RxMeta BEARER_LORA 0 preset rssi snr (re_now env)) r.

Definition meshtastic_router_stamp_originated (env : router_env) (to from next_hop relay_node : Z) : Z * Z :=
  if (to =? MESHTASTIC_NODE_BROADCAST) || negb (from =? re_node_id env) then (next_hop, relay_node)
  else (if next_hop =? 0 then re_next_hop env to else next_hop,
        if relay_node =? 0 then low_byte env else relay_node).

(** ** Packets from the MQTT downlink *)
Definition inject_is_admin (m : mesh_packet) : bool :=
  match m_variant m with
  | VARIANT_DECODED => d_portnum (m_decoded m) =? MESHTASTIC_PORT_ADMIN
  | _ => false
  end.

Definition is_encrypted (m : mesh_packet) : bool :=
  match m_variant m with VARIANT_ENCRYPTED => true | _ => false end.

(** [encrypted] are the bytes of the encrypted variant, [fresh_id] the identifier
    [meshtastic_allocate_packet_id] would give. *)
Definition relay_injected_encrypted_mesh_packet (env : router_env) (m : mesh_packet) (encrypted : list Z)
    (fresh_id : Z) (sent : cret) : cret * list fx :=
  if negb (is_encrypted m) then (ERR EINVAL, [])
  else if MESHTASTIC_PAYLOAD_MAX <? Zlen encrypted then (ERR EINVAL, [])
  else
    let wire_hash := if m_channel m <? MESHTASTIC_MAX_CHANNELS then re_channel_hash env (u8 (m_channel m))
                     else if negb (m_channel m =? 0) then u8 (m_channel m) else re_ch_hash env in
    let flags := Z.lor (Z.land (m_hop_limit m) MESHTASTIC_FLAGS_HOP_LIMIT_MASK)
                   (Z.shiftl (Z.land (m_hop_start m) 7) MESHTASTIC_FLAGS_HOP_START_SHIFT) in
    let flags := if m_want_ack m then Z.lor flags MESHTASTIC_FLAGS_WANT_ACK else flags in
    let flags := if m_via_mqtt m then Z.lor flags MESHTASTIC_FLAGS_VIA_MQTT else flags in
    let h := WireHeader (if negb (m_to m =? 0) then m_to m else MESHTASTIC_NODE_BROADCAST)
               (if negb (m_from m =? 0) then m_from m else re_node_id env)
               (if negb (m_id m =? 0) then m_id m else fresh_id) flags wire_hash
               (u8 (m_next_hop m)) (u8 (m_relay_node m)) in
    (sent, [FxSendWire (header_bytes h ++ encrypted)]).

(** [pki] and [channel]: what decryption with the node's key, and under the channel the
    hash names, gives for the encrypted bytes. *)
Definition meshtastic_mesh_pb_try_decode (env : router_env) (encrypted : list Z) (pki : res mesh_data)
    (channel : res (mesh_data * Z)) (m : mesh_packet) : res mesh_packet :=
  match m_variant m with
  | VARIANT_DECODED => Val m
  | _ =>
      if negb (is_encrypted m) && (Zlen encrypted =? 0) then Fail ENOTSUP
      else if Zlen encrypted =? 0 then Fail EINVAL
      else
        match pki, (u8 (m_channel m) =? 0) && (m_to m =? re_node_id env) &&
                   negb (m_to m =? MESHTASTIC_NODE_BROADCAST) with
        | Val d, true =>
            Val (set_m_pki_encrypted true (set_m_channel 0 (set_m_variant VARIANT_DECODED (set_m_decoded d m))))
        | _, _ =>
            match channel with
            | Fail e => Fail e
            | Val (d, i) => Val (set_m_channel i (set_m_variant VARIANT_DECODED (set_m_decoded d m)))
            end
        end
  end.

Definition meshtastic_inject_downlink_mesh_packet (env : router_env) (initialized : bool) (mesh : mesh_packet)
    (encrypted : list Z) (fresh_id : Z) (sent_wire sent_mesh : cret)
    (pki : res mesh_data) (channel : res (mesh_data * Z)) (r : router) : router * cret * list fx :=
  if negb initialized then (r, ERR EINVAL, [])
  else
    let work := set_m_transport TRANSPORT_MQTT (set_m_via_mqtt true mesh) in
    if inject_is_admin work then (r, ERR EACCES, [])
    else
      let '(r1, dup, f1) := dup_check env (m_from work) (m_id work) r in
      if dup then (r1, ERR EALREADY, f1)
      else
        let r2 := dup_add env (m_from work) (m_id work)
                    (u8 (Z.land (m_hop_limit work) MESHTASTIC_FLAGS_HOP_LIMIT_MASK)) 0 0 0 r1 in
        let local := (m_to work =? re_node_id env) || (m_to work =? MESHTASTIC_NODE_BROADCAST) in
        let relay := negb (m_to work =? re_node_id env) &&
                     ((0 <? m_hop_limit work) || ((m_hop_limit work =? 0) && is_encrypted work)) in
        let '(ret, f2) :=
          if relay then
            if (m_hop_limit work =? 0) && is_encrypted work
            then relay_injected_encrypted_mesh_packet env work encrypted fresh_id sent_wire
            else (sent_mesh, [FxSendMesh work])
          else (OK, []) in
        match ret with
        | ERR e => (r2, ERR e, f1 ++ f2)
        | OK =>
            if negb local then (r2, OK, f1 ++ f2)
            else
              match m_variant work with
              | VARIANT_DECODED =>
                  let '(r3, f3) := handle_inbound_impl env None None true (Some work) BEARER_LORA r2 in
                  (r3, OK, f1 ++ f2 ++ f3)
              | _ =>
                  match meshtastic_mesh_pb_try_decode env encrypted pki channel work with
                  | Fail _ => (r2, OK, f1 ++ f2)
                  | Val work' =>
                      if inject_is_admin work' then (r2, ERR EACCES, f1 ++ f2)
                      else
                        let '(r3, f3) := handle_inbound_impl env None None true (Some work') BEARER_LORA r2 in
                        (r3, OK, f1 ++ f2 ++ f3)
                  end
              end
        end.

(** ** What is put back on the air *)
Definition is_relay (f : fx) : bool :=
  match f with FxRelay _ _ | FxAttachRelay _ _ _ _ _ _ _ => true | _ => false end.

Definition relayed_wire (f : fx) : option (list Z) :=
  match f with FxRelay w _ | FxAttachRelay _ w _ _ _ _ _ => Some w | _ => None end.

Lemma redundant_not_relay env h src id lim snr r :
  Forall (fun f => is_relay f = false) (note_possible_redundant_relay env h src id lim snr r).
Proof.
  unfold note_possible_redundant_relay. destruct (dup_find src id r); [|by constructor].
  repeat (case_match; try by constructor); repeat constructor.
Qed.

Lemma on_duplicate_not_relay env h meta r : Forall (fun f => is_relay f = false) (on_duplicate env h meta r).
Proof.
  unfold on_duplicate. repeat apply Forall_app_2.
  - case_match; repeat constructor.
  - case_match; [apply redundant_not_relay | constructor].
  - repeat (case_match; try by constructor); repeat constructor.
Qed.

(** The conditions under which a frame is relayed, and the frame. *)
Record relay_ok (env : router_env) (w : list Z) : Prop := {
  ro_len : MESHTASTIC_HDR_LEN <= Zlen w <= MESHTASTIC_PKT_MAX;
  ro_rebroadcaster : meshtastic_is_rebroadcaster env = true;
  ro_src : wire_src w <> re_node_id env;
  ro_dest : wire_dest w <> re_node_id env;
  ro_hops : hop_limit_of (header_of w) <> 0;
  ro_id : ~ (wire_dest w = MESHTASTIC_NODE_BROADCAST /\ wire_id w = 0);
  ro_mode : re_mode env <> MODE_LOCAL_ONLY;
  ro_next : wire_byte 14 w = 0 \/ wire_byte 14 w = low_byte env;
}.

Definition relays_of (env : router_env) (w : list Z) (f : fx) : Prop :=
  is_relay f = false \/
  relay_ok env w /\ relayed_wire f = Some (relay_frame env w (header_of w) (hop_limit_of (header_of w))).

Lemma relay_packet_fx env w h lim snr attach r :
  Forall (fun f => is_relay f = false \/
     relayed_wire f = Some (relay_frame env w h lim) /\ Zlen w <= MESHTASTIC_PKT_MAX)
    (relay_packet env w h lim snr attach r).2.
Proof.
  unfold relay_packet. destruct (Z.ltb_spec MESHTASTIC_PKT_MAX (Zlen w)); cbn [orb]; [constructor|].
  destruct (lim =? 0); [constructor|].
  destruct (re_brain env && _).
  - destruct (dup_find _ _ _); [|constructor]. destruct (re_attach_modem env attach); [|constructor].
    destruct (re_attach_send env); simpl; repeat (apply Forall_cons_2; [first [by left | by right]|]); done.
  - destruct (re_send env); simpl; repeat (apply Forall_cons_2; [first [by left | by right]|]); done.
Qed.

Lemma sniff_fx env w p mesh r :
  Forall (relays_of env w) (meshtastic_routing_sniff_rebroadcast env (header_of w) w p mesh r).2.
Proof.
  unfold meshtastic_routing_sniff_rebroadcast.
  destruct (Z.ltb_spec (Zlen w) MESHTASTIC_HDR_LEN); [constructor|].
  destruct (meshtastic_is_rebroadcaster env) eqn:H1; [|constructor].
  destruct (Z.eqb_spec (h_src (header_of w)) (re_node_id env)); [constructor|].
  destruct (Z.eqb_spec (h_dest (header_of w)) (re_node_id env)); [constructor|].
  destruct (Z.eqb_spec (hop_limit_of (header_of w)) 0); [constructor|].
  destruct (andb _ _) eqn:H2; [constructor|].
  destruct (bool_decide_reflect (re_mode env = MODE_LOCAL_ONLY)); [constructor|].
  destruct (andb (negb _) _) eqn:H3; [constructor|].
  cbn [negb orb]. eapply Forall_impl; [apply relay_packet_fx|].
  intros f [Hf|[Hf Hl]]; [by left|]. right. split; [|done].
  split; try done.
  - intros [Hd Hi]. rewrite andb_false_iff, !Z.eqb_neq in H2. by destruct H2.
  - rewrite andb_false_iff, !negb_false_iff, !Z.eqb_eq in H3. exact H3.
Qed.

(** A relay goes out only for a frame of the local radio, or of a radio head. *)
Definition relay_bearer (env : router_env) (meta : rx_meta) : bool :=
  relay_local_ok (mt_bearer meta) || (re_brain env && negb (mt_attach meta =? 0)).

Definition good_fx (env : router_env) (w : list Z) (ok : bool) (f : fx) : Prop :=
  relays_of env w f /\ (ok = false -> is_relay f = false).

Lemma good_quiet env w ok f : is_relay f = false -> good_fx env w ok f.
Proof. intros H. split; [by left | done]. Qed.

Lemma sniff_good env w p mesh r :
  Forall (good_fx env w true) (meshtastic_routing_sniff_rebroadcast env (header_of w) w p mesh r).2.
Proof. eapply Forall_impl; [apply sniff_fx|]. by split. Qed.

Lemma handle_decoded_quiet env p w b : Forall (fun f => is_relay f = false) (handle_decoded env p w b).1.
Proof.
  unfold handle_decoded.
  destruct (bool_decide _ && _); [|destruct (_ || _); [destruct (_ && _ && _); [destruct (re_solicited env p)|]|]];
    simpl; repeat (case_match || apply Forall_app_2 || apply Forall_cons_2 || done).
Qed.

Lemma handle_inbound_good env p w decoded mesh b r :
  Forall (good_fx env w (relay_local_ok b || (re_brain env && negb (p_rx_attach p =? 0))))
    (handle_inbound_impl env (Some p) (Some w) decoded mesh b r).2.
Proof.
  unfold handle_inbound_impl. cbn [mbind option_bind].
  set (hdr := if Zlen w <? MESHTASTIC_HDR_LEN then None else Some (header_of w)).
  match goal with |- context [match ?pk with None => (r, []) | Some _ => _ end] => set (pkt := pk) end.
  assert (Hpkt : forall q, pkt = Some q -> p_rx_attach q = p_rx_attach p).
  { intros q. unfold pkt. destruct mesh as [m|]; [|by intros [= ->]].
    destruct decoded; [|by intros [= ->]]. destruct (materialize env m); [|by intros [= ->]].
    by intros [= <-]. }
  destruct pkt as [q|]; [|constructor]. rewrite <- (Hpkt q eq_refl).
  destruct (decoded && _); [constructor|]. destruct (re_traffic_drop env q decoded); [constructor|].
  assert (Hq : Forall (fun f => is_relay f = false) (if decoded then handle_decoded env q (Some w) b else ([], false)).1).
  { destruct decoded; [apply handle_decoded_quiet | constructor]. }
  destruct (if decoded then _ else _) as [local suppress]. simpl in Hq.
  assert (Hq' : forall ok, Forall (good_fx env w ok) local).
  { intros ok. eapply Forall_impl; [exact Hq|]. intros f. apply good_quiet. }
  unfold hdr. destruct (Zlen w <? MESHTASTIC_HDR_LEN); [apply Hq'|].
  destruct (relay_local_ok b || _); [|by rewrite andb_false_r; apply Hq'].
  destruct suppress; [apply Hq'|]. cbn [negb andb].
  pose proof (sniff_good env w q mesh r) as Hs.
  destruct (meshtastic_routing_sniff_rebroadcast _ _ _ _ _ _) as [r1 f1]. apply Forall_app_2; [apply Hq' | exact Hs].
Qed.

Lemma on_new_good env w meta r : Forall (good_fx env w (relay_bearer env meta)) (on_new env w meta r).2.
Proof.
  unfold on_new. destruct (re_decode env w meta) as [[[p0 mesh] fail]|]; [|constructor].
  match goal with |- context [handle_inbound_impl env (Some ?p) (Some w) ?d ?m ?b ?r'] =>
    pose proof (handle_inbound_good env p w d m b r') as H; destruct (handle_inbound_impl env (Some p) (Some w) d m b r') as [r4 f4] end.
  apply Forall_app_2; [|exact H]. case_match; [|constructor]. by apply Forall_cons_2; [apply good_quiet|].
Qed.

Lemma process_good env w meta r :
  Forall (good_fx env w (relay_bearer env meta)) (meshtastic_router_process_rx_meta env w meta r).2.
Proof.
  unfold meshtastic_router_process_rx_meta.
  destruct (Zlen w <? MESHTASTIC_HDR_LEN); [constructor|].
  destruct (re_ignored env _); [constructor|]. destruct (_ =? MESHTASTIC_NODE_BROADCAST); [constructor|].
  destruct (re_ignore_mqtt env && _); [constructor|].
  destruct (_ =? re_node_id env).
  { destruct (negb (meshtastic_bearer_is_rf _)); [constructor|].
    destruct (_ && _); [constructor|]. repeat (apply Forall_cons_2; [by apply good_quiet|]). done. }
  destruct (dup_check_hops _ _ _ _ _ _) as [[r1 v] f1] eqn:Ed.
  assert (Hf1 : Forall (good_fx env w (relay_bearer env meta)) f1).
  { unfold dup_check_hops in Ed. destruct (find_index _ _); [destruct (_ !! _); [destruct (true && _)|]|];
      simplify_eq; try constructor. case_match; [|constructor]. by apply Forall_cons_2; [apply good_quiet|]. }
  assert (Hr : Forall (good_fx env w (relay_bearer env meta))
    (if meshtastic_bearer_is_rf (mt_bearer meta) then note_possible_redundant_relay env (header_of w)
       (h_src (header_of w)) (h_id (header_of w)) (hop_limit_of (header_of w)) (mt_snr meta) r1 else [])).
  { case_match; [|constructor]. eapply Forall_impl; [apply redundant_not_relay|]. intros f. apply good_quiet. }
  destruct v.
  - pose proof (on_new_good env w meta (dup_add env (h_src (header_of w)) (h_id (header_of w))
       (hop_limit_of (header_of w)) (mt_attach meta) (h_relay_node (header_of w)) (mt_rx_ms meta) r1)) as Hn.
    destruct (on_new _ _ _ _) as [r3 f3]. by apply Forall_app_2.
  - apply Forall_app_2; [done|]. eapply Forall_impl; [apply on_duplicate_not_relay|]. intros f. apply good_quiet.
  - fold (relay_bearer env meta). destruct (relay_bearer env meta) eqn:Hb; [|by apply Forall_app_2].
    match goal with |- context [meshtastic_routing_sniff_rebroadcast env ?h w ?p None ?r'] =>
      pose proof (sniff_good env w p None r') as Hs;
      destruct (meshtastic_routing_sniff_rebroadcast env h w p None r') as [r2 f2] end.
    repeat apply Forall_app_2; done.
Qed.

(** The rewritten flags: the upper five bits are kept, the lower three are the new limit. *)
Lemma relay_flags fl out :
  0 <= fl < 256 -> 0 <= out < 8 ->
  let fl' := u8 (Z.lor (Z.land fl (Z.lnot 7)) (Z.land out 7)) in
  Z.land fl' 248 = Z.land fl 248 /\ Z.land fl' 7 = out.
Proof.
  intros Hf Ho.
  assert (H : forallb (fun fl => forallb (fun out =>
      let fl' := u8 (Z.lor (Z.land fl (Z.lnot 7)) (Z.land out 7)) in
      (Z.land fl' 248 =? Z.land fl 248) && (Z.land fl' 7 =? out)) (seqZ 0 8)) (seqZ 0 256) = true)
    by (vm_compute; reflexivity).
  rewrite forallb_forall in H. specialize (H fl). rewrite forallb_forall in H.
  assert (H1 : List.In fl (seqZ 0 256)) by (apply list_elem_of_In, elem_of_seqZ; lia).
  assert (H2 : List.In out (seqZ 0 8)) by (apply list_elem_of_In, elem_of_seqZ; lia).
  specialize (H H1 out H2). simpl. apply andb_true_iff in H as [Ha Hb]. by rewrite Z.eqb_eq in Ha, Hb.
Qed.

Definition relay_limit (env : router_env) (h : wire_header) (lim : Z) : Z :=
  if relay_should_decrement_hop_limit env h lim then lim - 1 else lim.

Lemma relay_frame_bytes env w h lim :
  MESHTASTIC_HDR_LEN <= Zlen w ->
  let w' := relay_frame env w h lim in
  length w' = length w /\
  (forall i, i <> 12%nat -> i <> 14%nat -> i <> 15%nat -> w' !! i = w !! i) /\
  wire_byte 15 w' = low_byte env /\ wire_byte 14 w' = re_next_hop env (h_dest h) /\
  wire_byte 12 w' = u8 (Z.lor (Z.land (h_flags h) (Z.lnot 7)) (Z.land (relay_limit env h lim) 7)).
Proof.
  unfold relay_frame, wire_byte, MESHTASTIC_HDR_LEN. intros Hl. simpl.
  repeat rewrite length_insert. split; [done|]. split.
  { intros i H12 H14 H15. by rewrite !list_lookup_insert_ne by done. }
  split; [|split].
  - rewrite list_lookup_insert_ne by done. rewrite list_lookup_insert_eq by (rewrite !length_insert; lia). done.
  - rewrite list_lookup_insert_eq by (rewrite !length_insert; lia). done.
  - rewrite !list_lookup_insert_ne by done. rewrite list_lookup_insert_eq by lia. done.
Qed.

Lemma hop_limit_range h : 0 <= hop_limit_of h < 8.
Proof.
  unfold hop_limit_of, MESHTASTIC_FLAGS_HOP_LIMIT_MASK. change 7 with (Z.ones 3).
  rewrite Z.land_ones by lia. apply (Z.mod_pos_bound _ (2 ^ 3)). lia.
Qed.

(** The hop limit is kept only for a frame from a trusted router. *)
Lemma relay_limit_kept env h lim :
  relay_limit env h lim = lim - 1 \/
  relay_limit env h lim = lim /\ lim < hop_start_of h /\ role_is_router_like (re_role env) = true /\
  exists p, re_peer env (re_resolve env (h_relay_node h)) = Some p /\
    pi_is_favorite p = true /\ pi_has_user p = true /\ role_is_router_like (pi_role p) = true.
Proof.
  unfold relay_limit, relay_should_decrement_hop_limit.
  destruct (_ || _) eqn:E1; [by left|]. destruct (role_is_router_like (re_role env)); [|by left].
  cbn [negb]. destruct (re_resolve env (h_relay_node h) =? 0); [by left|].
  destruct (re_peer env _) as [p|]; [|by left].
  destruct (pi_is_favorite p) eqn:?, (pi_has_user p) eqn:?, (role_is_router_like (pi_role p)) eqn:?;
    try (by left). right. split; [done|].
  apply orb_false_iff in E1 as [_ E1]. split; [bools; lia|]. split; [done|]. by exists p.
Qed.

(** C26: What a node puts back on the air is the frame it heard. Whatever arrives, in
    whatever state, a relayed frame has the received frame's length and all its bytes but
    three: the relayer byte is our own, the next hop is the one our route table gives for
    the destination, and of the flags only the hop limit changes - it is one less, and
    kept only beyond the first hop, by a router-like node, for a frame from a neighbour
    that the relayer byte names uniquely and that is a favourite router-like node. And it
    is relayed only under the policy: not our own frame nor one to us, hops left, not
    addressed to another next hop, heard by the local radio or by a radio head. *)
Theorem relay_rewrites_three_bytes (env : router_env) (w : list Z) (meta : rx_meta) (r : router)
    (f : fx) (w' : list Z) :
  bytes_ok w -> f ∈ (meshtastic_router_process_rx_meta env w meta r).2 -> relayed_wire f = Some w' ->
  relay_ok env w /\ relay_bearer env meta = true /\
  length w' = length w /\
  (forall i, i <> 12%nat -> i <> 14%nat -> i <> 15%nat -> w' !! i = w !! i) /\
  wire_byte 15 w' = low_byte env /\ wire_byte 14 w' = re_next_hop env (wire_dest w) /\
  Z.land (wire_byte 12 w') 248 = Z.land (wire_byte 12 w) 248 /\
  (hop_limit_of (header_of w') = hop_limit_of (header_of w) - 1 \/
   hop_limit_of (header_of w') = hop_limit_of (header_of w) /\
   hop_limit_of (header_of w) < hop_start_of (header_of w) /\ role_is_router_like (re_role env) = true /\
   exists p, re_peer env (re_resolve env (wire_byte 15 w)) = Some p /\
     pi_is_favorite p = true /\ pi_has_user p = true /\ role_is_router_like (pi_role p) = true).
Proof.
  intros Hw Hf Hwire. pose proof (process_good env w meta r) as Hg.
  rewrite Forall_forall in Hg. destruct (Hg f Hf) as [Hrel Hb].
  assert (Hir : is_relay f = true) by (destruct f; done).
  destruct Hrel as [Hno|[Hok Hfr]]; [congruence|].
  split; [done|]. split; [by destruct (relay_bearer env meta); [|rewrite Hb in Hir]|].
  rewrite Hwire in Hfr. injection Hfr as ->.
  destruct Hok as [[Hlen _] _ _ _ Hhops _ _ _].
  destruct (relay_frame_bytes env w (header_of w) (hop_limit_of (header_of w)) Hlen) as (H1 & H2 & H3 & H4 & H5).
  set (w' := relay_frame env w (header_of w) _) in *.
  split; [done|]. split; [done|]. split; [done|]. split; [done|].
  assert (Hfl : 0 <= wire_byte 12 w < 256).
  { unfold wire_byte. destruct (w !! 12%nat) as [b|] eqn:E; [|simpl; lia].
    exact (Forall_lookup_1 byte_ok w 12%nat b Hw E). }
  pose proof (hop_limit_range (header_of w)) as Hlim.
  destruct (relay_flags (wire_byte 12 w) (relay_limit env (header_of w) (hop_limit_of (header_of w))) Hfl)
    as [Hk Hl]; [unfold relay_limit; case_match; lia|].
  change (h_flags (header_of w)) with (wire_byte 12 w) in H5. rewrite H5. split; [exact Hk|].
  assert (hop_limit_of (header_of w') = relay_limit env (header_of w) (hop_limit_of (header_of w))) as ->
    by (etrans; [|exact Hl]; rewrite <- H5; done).
  apply relay_limit_kept.
Qed.

(** A node 0x11223344 that routes to 0x55 over 0x99 hears a frame with three hops left. *)
Definition sched_sample : sched_config :=
  SchedConfig ORDER_FIFO OVF_DROP_NEWEST 8 PHONE_PROTECT 0 600 3 0 0 3 8 2 0.

Definition env_at (now : Z) (decode : list Z -> rx_meta -> res decode_result) : router_env :=
  RouterEnv 287454020 true false ROLE_CLIENT MODE_ALL sched_sample now (Draw (Some 3) 0) (11, 250000)
    (fun _ => false) (fun _ => 0) (fun _ => None) (fun _ _ => false) (fun d => if d =? 85 then 153 else 0)
    (fun _ => Some (9, 125000)) OK OK OK 0 0
    decode (fun _ => 8) 8 (fun _ => true) (fun _ _ => false) (fun _ => false) (fun _ => false).

(** The channel of the frame is unknown, or known. *)
Definition env_sample : router_env := env_at 5000 (fun w _ =>
  Val (fill_packet_from_header (header_of w) 0 0 packet_zero, None, FAIL_NO_CHANNEL)).
Definition env_reading : router_env := env_at 5000 (fun w _ =>
  let p := fill_packet_from_header (header_of w) 0 0 packet_zero in
  Val (p, match meshtastic_packet_to_mesh_pb p with Val m => Some m | Fail _ => None end, FAIL_NONE)).

Definition wire_sample : list Z := [85; 0; 0; 0; 7; 0; 0; 0; 42; 0; 0; 0; 99; 8; 0; 17; 200; 201].
Definition meta_sample : rx_meta := RxMeta BEARER_LORA 0 0 (-90) 5 5000.
Definition entry0 : dup_entry := DupEntry 0 0 0 0 0 0 0 0 0 false.
Definition router0 (size : nat) : router := Router (replicate size entry0) 0 0 0 0 0 0 (0, 0, 0).

Lemma relay_rewrites_three_bytes_witness :
  exists f w', f ∈ (meshtastic_router_process_rx_meta env_sample wire_sample meta_sample (router0 4)).2 /\
    relayed_wire f = Some w' /\
    w' = [85; 0; 0; 0; 7; 0; 0; 0; 42; 0; 0; 0; 98; 8; 153; 68; 200; 201] /\
    relay_ok env_sample wire_sample /\ relay_bearer env_sample meta_sample = true /\
    length w' = length wire_sample.
Proof.
  eexists _, _. split; [vm_compute; apply list_elem_of_here|]. split; [reflexivity|]. split; [reflexivity|].
  match goal with |- relay_ok _ _ /\ _ /\ length ?w' = _ =>
    destruct (relay_rewrites_three_bytes env_sample wire_sample meta_sample (router0 4)
      (FxRelay w' (delay_ms (meshtastic_contention_plan_relay sched_sample (Draw (Some 3) 0) 0 false 11 250000 false))) w')
      as (H1 & H2 & H3 & _) end.
  - repeat (apply Forall_cons_2; [unfold byte_ok; lia|]). apply Forall_nil_2.
  - vm_compute. apply list_elem_of_here.
  - reflexivity.
  - split; [exact H1|]. split; [exact H2 | exact H3].
Defined.

(** ** The peer link is not the air *)
(** Effects that speak of the air: relaying, the uplink, route learning, the echo and
    redundancy bookkeeping. *)
Definition rf_only (f : fx) : bool :=
  match f with
  | FxRelay _ _ | FxAttachRelay _ _ _ _ _ _ _ | FxMqttUplink _ | FxLearn _ | FxEar _ _ | FxOwnEcho _ _
  | FxImplicitAck _ | FxStatRedundant _ | FxCancel _ _ | FxDeferLate _ _ _ | FxAttachCancel _ _ _ => true
  | _ => false
  end.

Lemma handle_inbound_peer env p w decoded mesh r :
  p_rx_attach p = 0 ->
  let '(r', f) := handle_inbound_impl env (Some p) (Some w) decoded mesh BEARER_BLE_PEER r in
  r' = r /\ Forall (fun f => rf_only f = false) f.
Proof.
  intros Hp. unfold handle_inbound_impl. cbn [mbind option_bind].
  set (hdr := if Zlen w <? MESHTASTIC_HDR_LEN then None else Some (header_of w)).
  match goal with |- context [match ?pk with None => (r, []) | Some _ => _ end] => set (pkt := pk) end.
  assert (Hpkt : forall q, pkt = Some q -> p_rx_attach q = 0).
  { intros q. unfold pkt. destruct mesh as [m|]; [|by intros [= ->]].
    destruct decoded; [|by intros [= ->]]. destruct (materialize env m); [|by intros [= ->]].
    intros [= <-]. exact Hp. }
  destruct pkt as [q|]; [|done]. specialize (Hpkt q eq_refl).
  destruct (decoded && _); [done|]. destruct (re_traffic_drop env q decoded); [done|].
  assert (Hq : Forall (fun f => rf_only f = false)
    (if decoded then handle_decoded env q (Some w) BEARER_BLE_PEER else ([], false)).1).
  { destruct decoded; [|constructor]. unfold handle_decoded.
    destruct (bool_decide _ && _); [|destruct (_ || _); [destruct (_ && _ && _); [destruct (re_solicited env q)|]|]];
      simpl; repeat (case_match || apply Forall_app_2 || apply Forall_cons_2 || done). }
  destruct (if decoded then _ else _) as [local suppress]. simpl in Hq.
  rewrite Hpkt. change (relay_local_ok BEARER_BLE_PEER) with false.
  rewrite Z.eqb_refl, andb_false_r, orb_false_r, andb_false_r. by destruct hdr.
Qed.

(** A frame from the Bluetooth peer link stays here. It is decoded and delivered
    like any other, but it is never relayed, never uplinked, never counted as an echo of
    our own frame, teaches no route, neither cancels nor defers a queued relay, and
    leaves the last radio measurement alone - even if the same packet is later or was
    earlier heard on the air. *)
Theorem peer_link_frame_stays_local (env : router_env) (w : list Z) (meta : rx_meta) (r : router) :
  mt_bearer meta = BEARER_BLE_PEER -> mt_attach meta = 0 ->
  let '(r', fxs) := meshtastic_router_process_rx_meta env w meta r in
  Forall (fun f => rf_only f = false) fxs /\ r_last_rx r' = r_last_rx r /\
  r_relayed_packets r' = r_relayed_packets r.
Proof.
  intros Hb Ha. unfold meshtastic_router_process_rx_meta. rewrite Hb, Ha.
  change (meshtastic_bearer_is_rf BEARER_BLE_PEER) with false. change (relay_local_ok BEARER_BLE_PEER) with false.
  destruct (Zlen w <? MESHTASTIC_HDR_LEN); [done|].
  destruct (re_ignored env _); [done|]. destruct (_ =? MESHTASTIC_NODE_BROADCAST); [done|].
  destruct (re_ignore_mqtt env && _); [done|]. destruct (_ =? re_node_id env); [done|].
  destruct (dup_check_hops _ _ _ _ _ _) as [[r1 v] f1] eqn:Ed.
  assert (Hf1 : Forall (fun f => rf_only f = false) f1 /\ r_last_rx r1 = r_last_rx r /\
     r_relayed_packets r1 = r_relayed_packets r).
  { unfold dup_check_hops in Ed. destruct (find_index _ _); [destruct (_ !! _); [destruct (true && _)|]|];
      simplify_eq; try done. split; [|done]. case_match; [|constructor]. by apply Forall_cons_2. }
  destruct Hf1 as (Hf1 & Hl1 & Hr1). rewrite Z.eqb_refl, andb_false_r. cbn [orb].
  destruct v.
  - unfold on_new. destruct (re_decode env w meta) as [[[p0 mesh] fail]|]; [|split; [by apply Forall_app_2 | done]].
    rewrite Hb, Ha. change (meshtastic_bearer_is_rf BEARER_BLE_PEER) with false. cbn [negb].
    match goal with |- context [handle_inbound_impl env (Some ?p) (Some w) ?d ?m _ ?r'] =>
      pose proof (handle_inbound_peer env p w d m r' eq_refl) as H;
      destruct (handle_inbound_impl env (Some p) (Some w) d m BEARER_BLE_PEER r') as [r4 f4] end.
    destruct H as [-> Hf4]. split.
    + apply Forall_app_2; [done|]. apply Forall_app_2; [|done].
      case_match; [by apply Forall_cons_2 | constructor].
    + by destruct (bool_decide (is_Some mesh)).
  - split; [|done]. apply Forall_app_2; [done|]. unfold on_duplicate.
    rewrite Hb, Ha. change (meshtastic_bearer_is_rf BEARER_BLE_PEER) with false.
    rewrite Z.eqb_refl, andb_false_r. rewrite !app_nil_r. case_match; [by apply Forall_cons_2 | constructor].
  - split; [by rewrite app_nil_r | done].
Qed.

Lemma peer_link_frame_stays_local_witness :
  let '(r', fxs) := meshtastic_router_process_rx_meta env_sample wire_sample
                      (RxMeta BEARER_BLE_PEER 0 255 0 0 5000) (router0 4) in
  Forall (fun f => rf_only f = false) fxs /\ r_last_rx r' = r_last_rx (router0 4) /\
  r_relayed_packets r' = r_relayed_packets (router0 4).
Proof. by apply (peer_link_frame_stays_local env_sample wire_sample (RxMeta BEARER_BLE_PEER 0 255 0 0 5000) (router0 4)). Defined.

(** ** The MQTT downlink cannot administer the node *)
Definition touches_admin (f : fx) : bool :=
  match f with
  | FxAdmin _ => true
  | FxDeliver p | FxDispatch p | FxOnDecoded p | FxMqttUplink p | FxRelayText p _ | FxEar p _ | FxLearn p =>
      p_portnum p =? MESHTASTIC_PORT_ADMIN
  | FxSendMesh m => inject_is_admin m
  | _ => false
  end.

Lemma materialize_portnum env m p : materialize env m = Val p -> p_portnum p = d_portnum (m_decoded m).
Proof.
  unfold materialize, meshtastic_mesh_pb_to_packet. destruct (copy_data_payload _ _) as [pl|]; [|done].
  by intros [= <-].
Qed.

Lemma handle_inbound_not_admin env m r :
  m_variant m = VARIANT_DECODED -> inject_is_admin m = false ->
  let '(r', f) := handle_inbound_impl env None None true (Some m) BEARER_LORA r in
  r' = r /\ Forall (fun f => touches_admin f = false) f.
Proof.
  intros Hv Hm. unfold inject_is_admin in Hm. rewrite Hv in Hm.
  unfold handle_inbound_impl. cbn [mbind option_bind].
  destruct (materialize env m) as [p|] eqn:Em; [|done]. apply materialize_portnum in Em.
  rewrite <- Em in Hm. set (q := set_p_rx_attach 0 p).
  assert (Hq : (p_portnum q =? MESHTASTIC_PORT_ADMIN) = false) by exact Hm. clearbody q.
  destruct (true && _); [done|]. destruct (re_traffic_drop env q true); [done|].
  unfold handle_decoded. rewrite Hq. cbn [andb].
  destruct (bool_decide (re_mode env = _) && _); [|destruct (_ || _)]; split; try done;
    simpl; repeat (case_match || apply Forall_app_2 || apply Forall_cons_2 || done).
Qed.

Lemma try_decode_variant env enc pki channel m m' :
  meshtastic_mesh_pb_try_decode env enc pki channel m = Val m' -> m_variant m' = VARIANT_DECODED.
Proof.
  unfold meshtastic_mesh_pb_try_decode. destruct (m_variant m) eqn:Hv; try (intros [= <-]; exact Hv).
  all: repeat case_match; intros; simplify_eq; done.
Qed.

(** C36: Nothing that comes from the MQTT broker administers this node. A downlink packet
    on the admin port in the clear is refused with EACCES and leaves no trace; whatever is
    injected and whatever it decrypts to, nothing on that port is delivered or dispatched,
    no readable packet on it is sent on, and no request reaches the admin handler. A
    packet that is accepted was not in the duplicate cache before. *)
Theorem downlink_never_administers (env : router_env) (initialized : bool) (mesh : mesh_packet)
    (encrypted : list Z) (fresh_id : Z) (sent_wire sent_mesh : cret) (pki : res mesh_data)
    (channel : res (mesh_data * Z)) (r : router) :
  let '(r', ret, fxs) := meshtastic_inject_downlink_mesh_packet env initialized mesh encrypted fresh_id
                           sent_wire sent_mesh pki channel r in
  Forall (fun f => touches_admin f = false) fxs /\
  (inject_is_admin mesh = true -> fxs = [] /\ r' = r /\ ret <> OK) /\
  (ret = OK -> (dup_check env (m_from mesh) (m_id mesh) r).1.2 = false).
Proof.
  unfold meshtastic_inject_downlink_mesh_packet. destruct initialized; [|done]. cbn [negb].
  set (work := set_m_transport TRANSPORT_MQTT (set_m_via_mqtt true mesh)).
  change (inject_is_admin mesh) with (inject_is_admin work).
  change (m_from mesh) with (m_from work). change (m_id mesh) with (m_id work).
  destruct (inject_is_admin work) eqn:Hadm; [done|].
  destruct (dup_check env (m_from work) (m_id work) r) as [[r1 dup] f1] eqn:Ed.
  assert (Hf1 : Forall (fun f => touches_admin f = false) f1).
  { unfold dup_check, dup_check_hops in Ed.
    destruct (find_index _ _); [destruct (_ !! _); [destruct (false && _)|]|]; simplify_eq; try constructor.
    case_match; [by apply Forall_cons_2 | constructor]. }
  destruct dup; [done|].
  set (relayed := if negb (m_to work =? re_node_id env) && _ then _ else _).
  assert (Hf2 : Forall (fun f => touches_admin f = false) relayed.2).
  { unfold relayed. destruct (negb _ && _); [|constructor]. destruct ((m_hop_limit work =? 0) && _).
    - unfold relay_injected_encrypted_mesh_packet. destruct (negb _); [constructor|].
      destruct (_ <? _); [constructor | by apply Forall_cons_2].
    - by apply Forall_cons_2. }
  destruct relayed as [ret f2]. simpl in Hf2.
  assert (Hf12 : Forall (fun f => touches_admin f = false) (f1 ++ f2)) by (by apply Forall_app_2).
  destruct ret; [|done]. destruct (negb _); [done|].
  assert (Hin : forall m r2, m_variant m = VARIANT_DECODED -> inject_is_admin m = false ->
    let '(r', ret', fxs) := (let '(r3, f3) := handle_inbound_impl env None None true (Some m) BEARER_LORA r2 in
       (r3, OK, f1 ++ f2 ++ f3)) in
    Forall (fun f => touches_admin f = false) fxs /\
    (false = true -> fxs = [] /\ r' = r /\ ret' <> OK) /\ (ret' = OK -> ((r1, false), f1).1.2 = false)).
  { intros m r2 Hv Ha. pose proof (handle_inbound_not_admin env m r2 Hv Ha) as H.
    destruct (handle_inbound_impl _ _ _ _ _ _ _) as [r3 f3]. destruct H as [_ Hf3].
    split; [by repeat apply Forall_app_2 | done]. }
  destruct (m_variant work) eqn:Hv; [|by apply Hin|].
  all: destruct (meshtastic_mesh_pb_try_decode _ _ _ _ _) as [work'|] eqn:Edec; [|done].
  all: apply try_decode_variant in Edec; destruct (inject_is_admin work') eqn:Ha; [done | by apply Hin].
Qed.

(** An encrypted broadcast goes on the air before it is decrypted: that it is an admin
    packet is found out, and refused, only then. *)
Example encrypted_admin_relayed_first :
  let m := MeshPacket 7 MESHTASTIC_NODE_BROADCAST 8 77 0 0 0 3 false false 0 0 false TRANSPORT_LORA
             VARIANT_ENCRYPTED data_zero in
  let '(_, ret, fxs) := meshtastic_inject_downlink_mesh_packet env_sample true m [1; 2; 3] 9 OK OK (Fail EINVAL)
                          (Val (set_d_portnum MESHTASTIC_PORT_ADMIN data_zero, 0)) (router0 4) in
  ret = ERR EACCES /\ exists w, fxs = [FxSendWire w].
Proof. split; [reflexivity|]. eexists. reflexivity. Qed.

(** ** Each packet once *)
(** What identifies a packet, and what the cache knows about it. *)
Definition core (e : dup_entry) : Z * Z * Z * Z := (de_src e, de_id e, de_ms e, de_hop_limit e).
Definition cores (r : router) : list (Z * Z * Z * Z) := core <$> r_dup_cache r.
Definition shape (r : router) := (cores r, r_dup_head r).

Lemma dup_update_shape src id f r : (forall e, core (f e) = core e) -> shape (dup_update src id f r) = shape r.
Proof.
  intros Hf. unfold dup_update, shape, cores. destruct (find_index _ _) as [i|]; [|done]. simpl. f_equal.
  apply list_eq. intros j. rewrite !list_lookup_fmap.
  destruct (decide (i = j)) as [->|Hne].
  - rewrite list_lookup_alter_eq. destruct (r_dup_cache r !! j); simpl; [by rewrite Hf | done].
  - by rewrite list_lookup_alter_ne.
Qed.

Lemma relay_packet_shape env w h lim snr attach r : shape (relay_packet env w h lim snr attach r).1 = shape r.
Proof.
  unfold relay_packet, count_relayed, dup_mark_relayed. destruct (_ || _); [done|].
  destruct (re_brain env && _).
  - destruct (dup_find _ _ _); [|done]. destruct (re_attach_modem env attach); [|done].
    destruct (re_attach_send env); [|done]. cbn [fst]. by rewrite !dup_update_shape.
  - destruct (re_send env); [|done]. cbn [fst]. by rewrite dup_update_shape.
Qed.

Lemma sniff_shape env h w p mesh r : shape (meshtastic_routing_sniff_rebroadcast env h w p mesh r).1 = shape r.
Proof.
  unfold meshtastic_routing_sniff_rebroadcast. repeat (destruct (_ : bool); [done|]). apply relay_packet_shape.
Qed.

Lemma handle_inbound_shape env p w decoded mesh b r :
  shape (handle_inbound_impl env p w decoded mesh b r).1 = shape r.
Proof.
  unfold handle_inbound_impl. cbn zeta.
  match goal with |- context [match ?pk with None => (r, []) | Some _ => _ end] => destruct pk as [q|] end; [|done].
  destruct (decoded && _); [done|]. destruct (re_traffic_drop env q decoded); [done|].
  destruct (if decoded then _ else _) as [local suppress].
  match goal with |- context [match ?hd with None => _ | Some _ => _ end] => destruct hd as [h|] end; [|done].
  destruct w as [w|]; [|done]. destruct (_ && _); [|done].
  pose proof (sniff_shape env h w q mesh r) as Hs.
  by destruct (meshtastic_routing_sniff_rebroadcast env h w q mesh r).
Qed.

Lemma on_new_shape env w meta r : shape (on_new env w meta r).1 = shape r.
Proof.
  unfold on_new. destruct (re_decode env w meta) as [[[p0 mesh] fail]|]; [|done].
  match goal with |- context [handle_inbound_impl env (Some ?p) (Some w) ?d ?m ?b ?r'] =>
    pose proof (handle_inbound_shape env (Some p) (Some w) d m b r') as H;
    destruct (handle_inbound_impl env (Some p) (Some w) d m b r') as [r4 f4] end.
  simpl in *. rewrite H. by destruct (bool_decide _), (meshtastic_bearer_is_rf _).
Qed.

(** *** Counting relays *)
Definition relays (l : list fx) : nat := length (List.filter is_relay l).

Lemma relays_app l1 l2 : relays (l1 ++ l2) = (relays l1 + relays l2)%nat.
Proof. unfold relays. by rewrite List.filter_app, length_app. Qed.

Lemma relays_quiet l : Forall (fun f => is_relay f = false) l -> relays l = 0%nat.
Proof. unfold relays. induction 1 as [|f l Hf _ IH]; [done|]. simpl. by rewrite Hf. Qed.

Lemma sniff_relays env h w p mesh r :
  (relays (meshtastic_routing_sniff_rebroadcast env h w p mesh r).2 <= if (hop_limit_of h =? 0)%Z then 0 else 1)%nat.
Proof.
  unfold meshtastic_routing_sniff_rebroadcast.
  destruct (Zlen w <? MESHTASTIC_HDR_LEN); [apply Nat.le_0_l|].
  destruct (meshtastic_is_rebroadcaster env); [|apply Nat.le_0_l]. cbn [negb].
  destruct (_ || _); [apply Nat.le_0_l|].
  destruct (hop_limit_of h =? 0) eqn:E; [done|].
  destruct (_ && _); [unfold relays; simpl; lia|]. destruct (bool_decide _); [unfold relays; simpl; lia|]. destruct (_ && _); [unfold relays; simpl; lia|].
  unfold relay_packet. destruct (_ || _); [unfold relays; simpl; lia|]. destruct (re_brain env && _).
  - destruct (dup_find _ _ _); [|unfold relays; simpl; lia]. destruct (re_attach_modem env _); [|unfold relays; simpl; lia].
    destruct (re_attach_send env); unfold relays; simpl; lia.
  - destruct (re_send env); unfold relays; simpl; lia.
Qed.

(** *** What one frame does to the cache *)
Definition is_handling (f : fx) : bool :=
  match f with
  | FxDeliver _ | FxDispatch _ | FxAdmin _ | FxOnDecoded _ | FxMqttUplink _ | FxRelayText _ _ | FxEar _ _
  | FxLearn _ | FxSendError _ _ => true
  | _ => false
  end.

Definition core_of (env : router_env) (w : list Z) : Z * Z * Z * Z :=
  (wire_src w, wire_id w, re_now env, hop_limit_of (header_of w)).

Definition core_matches (env : router_env) (src id : Z) (c : Z * Z * Z * Z) : bool :=
  let '(s, i, ms, _) := c in
  (s =? src) && (i =? id) && negb (negb (ttl_ms env =? 0) && (ttl_ms env <? u32 (re_now env - ms))).

Lemma dup_match_core env src id e :
  dup_is src id e && negb (dup_expired env e) = core_matches env src id (core e).
Proof. done. Qed.

Inductive outcome (env : router_env) (w : list Z) (r : router) : router -> list fx -> Prop :=
  | out_quiet r' f :
      shape r' = shape r -> relays f = 0%nat -> existsb is_handling f = false -> outcome env w r r' f
  | out_upgrade i s d ms lim r' f :
      cores r !! i = Some (s, d, ms, lim) -> s = wire_src w -> d = wire_id w ->
      lim < hop_limit_of (header_of w) ->
      shape r' = (<[i := (s, d, ms, hop_limit_of (header_of w))]> (cores r), r_dup_head r) ->
      (relays f <= 1)%nat -> existsb is_handling f = false -> outcome env w r r' f
  | out_new r' f :
      (forall i c, cores r !! i = Some c -> core_matches env (wire_src w) (wire_id w) c = false) ->
      shape r' = (<[r_dup_head r := core_of env w]> (cores r), ((r_dup_head r + 1) `mod` length (cores r))%nat) ->
      (relays f <= if (hop_limit_of (header_of w) =? 0)%Z then 0 else 1)%nat -> outcome env w r r' f.

Lemma relay_packet_not_handling env w h lim snr attach r :
  existsb is_handling (relay_packet env w h lim snr attach r).2 = false.
Proof.
  unfold relay_packet. destruct (_ || _); [done|]. destruct (re_brain env && _).
  - destruct (dup_find _ _ _); [|done]. destruct (re_attach_modem env _); [|done]. by destruct (re_attach_send env).
  - by destruct (re_send env).
Qed.

Lemma sniff_not_handling env h w p mesh r :
  existsb is_handling (meshtastic_routing_sniff_rebroadcast env h w p mesh r).2 = false.
Proof.
  unfold meshtastic_routing_sniff_rebroadcast.
  repeat (apply relay_packet_not_handling || (case_match; [done|])).
Qed.

Lemma redundant_not_handling env h src id lim snr r :
  existsb is_handling (note_possible_redundant_relay env h src id lim snr r) = false.
Proof. unfold note_possible_redundant_relay. repeat (case_match; try done). Qed.

Lemma on_duplicate_not_handling env h meta r : existsb is_handling (on_duplicate env h meta r) = false.
Proof.
  unfold on_duplicate. rewrite !existsb_app, !orb_false_iff. split; [by case_match|]. split.
  - case_match; [apply redundant_not_handling | done].
  - repeat (case_match; try done).
Qed.

Lemma handle_inbound_relays env p w decoded mesh b r :
  (relays (handle_inbound_impl env (Some p) (Some w) decoded mesh b r).2 <=
   if (hop_limit_of (header_of w) =? 0)%Z then 0 else 1)%nat.
Proof.
  unfold handle_inbound_impl. cbn [mbind option_bind]. cbn zeta.
  match goal with |- context [match ?pk with None => (r, []) | Some _ => _ end] => destruct pk as [q|] end;
    [|apply Nat.le_0_l].
  destruct (decoded && _); [apply Nat.le_0_l|]. destruct (re_traffic_drop env q decoded); [apply Nat.le_0_l|].
  assert (Hq : relays (if decoded then handle_decoded env q (Some w) b else ([], false)).1 = 0%nat).
  { destruct decoded; [apply relays_quiet, handle_decoded_quiet | done]. }
  destruct (if decoded then _ else _) as [local suppress]. simpl in Hq.
  destruct (Zlen w <? MESHTASTIC_HDR_LEN); [simpl; rewrite Hq; apply Nat.le_0_l|].
  destruct (_ && _); [|simpl; rewrite Hq; apply Nat.le_0_l].
  pose proof (sniff_relays env (header_of w) w q mesh r) as Hs.
  destruct (meshtastic_routing_sniff_rebroadcast _ _ _ _ _ _) as [r1 f1]. simpl in *.
  rewrite relays_app, Hq. exact Hs.
Qed.

Lemma on_new_relays env w meta r :
  (relays (on_new env w meta r).2 <= if (hop_limit_of (header_of w) =? 0)%Z then 0 else 1)%nat.
Proof.
  unfold on_new. destruct (re_decode env w meta) as [[[p0 mesh] fail]|]; [|apply Nat.le_0_l].
  match goal with |- context [handle_inbound_impl env (Some ?p) (Some w) ?d ?m ?b ?r'] =>
    pose proof (handle_inbound_relays env p w d m b r') as H;
    destruct (handle_inbound_impl env (Some p) (Some w) d m b r') as [r4 f4] end.
  simpl in *. rewrite relays_app.
  match goal with |- (relays (if ?c then ?x else []) + _ <= _)%nat => by destruct c end.
Qed.

Lemma process_outcome env w meta r :
  let '(r', f) := meshtastic_router_process_rx_meta env w meta r in outcome env w r r' f.
Proof.
  unfold meshtastic_router_process_rx_meta.
  destruct (Zlen w <? MESHTASTIC_HDR_LEN); [by apply out_quiet|].
  destruct (re_ignored env _); [by apply out_quiet|].
  destruct (_ =? MESHTASTIC_NODE_BROADCAST); [by apply out_quiet|].
  destruct (re_ignore_mqtt env && _); [by apply out_quiet|].
  destruct (_ =? re_node_id env).
  { destruct (negb _); [by apply out_quiet|]. destruct (_ && _); by apply out_quiet. }
  unfold dup_check_hops. destruct (find_index _ (r_dup_cache r)) as [i|] eqn:Ei.
  - apply find_index_Some_1 in Ei as (e & He & Hm). rewrite He. cbn [andb].
    destruct (Z.ltb_spec (de_hop_limit e) (hop_limit_of (header_of w))) as [Hlt|Hge].
    + assert (Hc : cores r !! i = Some (core e)) by (unfold cores; by rewrite list_lookup_fmap, He).
      unfold dup_is in Hm. apply andb_true_iff in Hm as [Hm _]. apply andb_true_iff in Hm as [Hs Hd].
      rewrite Z.eqb_eq in Hs, Hd.
      assert (Hshape : forall r0, r0 = set_r_dup_cache (<[i:=set_de_attach 255 (set_de_hop_limit (hop_limit_of (header_of w)) e)]> (r_dup_cache r)) r ->
        shape r0 = (<[i := (de_src e, de_id e, de_ms e, hop_limit_of (header_of w))]> (cores r), r_dup_head r)).
      { intros r0 ->. unfold shape, cores. simpl. by rewrite list_fmap_insert. }
      set (r1 := set_r_dup_cache _ r) in *.
      assert (Hred : relays (if meshtastic_bearer_is_rf (mt_bearer meta)
         then note_possible_redundant_relay env (header_of w) (h_src (header_of w)) (h_id (header_of w)) (hop_limit_of (header_of w)) (mt_snr meta) r1 else []) = 0%nat).
      { case_match; [apply relays_quiet, redundant_not_relay | done]. }
      assert (Hredh : existsb is_handling (if meshtastic_bearer_is_rf (mt_bearer meta)
         then note_possible_redundant_relay env (header_of w) (h_src (header_of w)) (h_id (header_of w)) (hop_limit_of (header_of w)) (mt_snr meta) r1 else []) = false).
      { case_match; [apply redundant_not_handling | done]. }
      destruct (_ || _).
      * match goal with |- context [meshtastic_routing_sniff_rebroadcast env ?h w ?p None r1] =>
          pose proof (sniff_shape env h w p None r1) as H1; pose proof (sniff_relays env h w p None r1) as H2;
          pose proof (sniff_not_handling env h w p None r1) as H3;
          destruct (meshtastic_routing_sniff_rebroadcast env h w p None r1) as [r2 f2] end.
        simpl in H1, H2, H3. apply (out_upgrade env w r i (de_src e) (de_id e) (de_ms e) (de_hop_limit e));
          [done | done | done | done | by rewrite H1; apply Hshape | |].
        -- rewrite !relays_app, Hred. simpl. etrans; [exact H2|]. case_match; lia.
        -- rewrite !existsb_app, Hredh, H3. done.
      * apply (out_upgrade env w r i (de_src e) (de_id e) (de_ms e) (de_hop_limit e));
          [done | done | done | done | by apply Hshape | |].
        -- rewrite relays_app, Hred. simpl. lia.
        -- rewrite existsb_app, Hredh. done.
    + apply out_quiet; [done | |].
      * rewrite relays_app. rewrite relays_quiet by constructor. apply relays_quiet, on_duplicate_not_relay.
      * rewrite existsb_app. apply on_duplicate_not_handling.
  - pose proof (on_new_shape env w meta (dup_add env (h_src (header_of w)) (h_id (header_of w))
       (hop_limit_of (header_of w)) (mt_attach meta) (h_relay_node (header_of w)) (mt_rx_ms meta) r)) as H1.
    pose proof (on_new_relays env w meta (dup_add env (h_src (header_of w)) (h_id (header_of w))
       (hop_limit_of (header_of w)) (mt_attach meta) (h_relay_node (header_of w)) (mt_rx_ms meta) r)) as H2.
    destruct (on_new _ _ _ _) as [r3 f3]. simpl in H1, H2. apply out_new.
    + rewrite find_index_None in Ei. intros i c Hc. unfold cores in Hc. rewrite list_lookup_fmap in Hc.
      destruct (r_dup_cache r !! i) as [e|] eqn:He; [|done]. injection Hc as <-. exact (Ei i e He).
    + rewrite H1. unfold shape, cores. simpl. rewrite list_fmap_insert, length_fmap. done.
    + rewrite relays_app.
      match goal with |- (relays (if ?c then ?x else []) + _ <= _)%nat => by destruct c end.
Qed.

(** *** A packet and its entry *)
Definition keyed (s i : Z) (c : Z * Z * Z * Z) : Prop := let '(s', i', _, _) := c in s' = s /\ i' = i.

(** The packet has one entry, recorded at [t] with the hop limit [lim], and at least [d]
    packets can still be recorded before it is overwritten. *)
Definition tracked (s i t lim : Z) (d : nat) (sh : list (Z * Z * Z * Z) * nat) : Prop :=
  exists j, sh.1 !! j = Some (s, i, t, lim) /\
    (forall j' c, sh.1 !! j' = Some c -> keyed s i c -> j' = j) /\
    (sh.2 < length sh.1)%nat /\ (d <= (j + length sh.1 - sh.2) `mod` length sh.1)%nat.

Definition absent (s i : Z) (sh : list (Z * Z * Z * Z) * nat) : Prop :=
  (sh.2 < length sh.1)%nat /\ forall j c, sh.1 !! j = Some c -> ~ keyed s i c.

Definition in_time (t : Z) (env : router_env) : Prop :=
  ttl_ms env = 0 \/ u32 (re_now env - t) <= ttl_ms env.

Lemma in_time_matches env s i t lim : in_time t env -> core_matches env s i (s, i, t, lim) = true.
Proof.
  intros H. unfold core_matches. rewrite !Z.eqb_refl. cbn [andb].
  destruct H as [->|H]; [done|]. rewrite (proj2 (Z.ltb_ge _ _) H), andb_false_r. done.
Qed.

Lemma ring_distance j h n :
  (j < n)%nat -> (h < n)%nat -> (0 < (j + n - h) `mod` n)%nat ->
  j <> h /\ ((j + n - (h + 1) `mod` n) `mod` n = (j + n - h) `mod` n - 1)%nat.
Proof.
  intros Hj Hh. rewrite (mod_wrap (h + 1)) by lia. rewrite (mod_wrap (j + n - h)) by lia.
  destruct (Nat.ltb_spec (h + 1) n), (Nat.ltb_spec (j + n - h) n); intros Hd; (split; [lia|]);
    rewrite mod_wrap by lia; case_match; bools; lia.
Qed.

(** A frame of another packet, or a duplicate of this one, keeps the entry. *)
Lemma outcome_tracked env w r r' f s i t lim d :
  outcome env w r r' f -> tracked s i t lim (S d) (shape r) -> in_time t env ->
  existsb is_handling f = false /\ (wire_src w = s /\ wire_id w = i) /\
    (exists lim', tracked s i t lim' d (shape r') /\
       (lim' = lim /\ relays f = 0%nat \/
        lim < lim' /\ lim' = hop_limit_of (header_of w) /\ (relays f <= 1)%nat)) \/
  ~ (wire_src w = s /\ wire_id w = i) /\ tracked s i t lim d (shape r').
Proof.
  intros Ho (j & Hj & Huniq & Hh & Hd) Ht. simpl in Hj, Huniq, Hh, Hd.
  assert (Hweak : tracked s i t lim d (shape r)) by (exists j; simpl; repeat split; done || lia).
  assert (Hjl : (j < length (cores r))%nat) by (by apply lookup_lt_Some in Hj).
  inversion Ho as [? ? Hs Hr Hn|k s' i' ms l ? ? Hk -> -> Hl Hs Hr Hn|? ? Hno Hs Hr]; subst.
  - destruct (decide (wire_src w = s /\ wire_id w = i)) as [Hk|Hk].
    + left. split; [done|]. split; [done|]. exists lim. rewrite Hs. split; [done|]. by left.
    + right. rewrite Hs. done.
  - assert (Hkl : (k < length (cores r))%nat) by (by apply lookup_lt_Some in Hk).
    destruct (decide (wire_src w = s /\ wire_id w = i)) as [[<- <-]|Hkey].
    + assert (k = j) as -> by (by apply (Huniq k _ Hk)). rewrite Hj in Hk. injection Hk as <- <-.
      left. split; [done|]. split; [done|]. exists (hop_limit_of (header_of w)).
      split; [|right; done]. rewrite Hs. exists j. simpl. rewrite length_insert. split; [|split; [|split; lia]].
      * by rewrite list_lookup_insert_eq.
      * intros j' c Hc Hck. destruct (decide (j' = j)) as [|Hne]; [done|].
        rewrite list_lookup_insert_ne in Hc by done. by apply (Huniq j' c).
    + right. split; [done|]. rewrite Hs. exists j. simpl. rewrite length_insert.
      assert (k <> j) by (intros ->; rewrite Hj in Hk; injection Hk; intros; subst; by apply Hkey).
      split; [by rewrite list_lookup_insert_ne|]. split; [|split; lia].
      intros j' c Hc Hck. destruct (decide (j' = k)) as [->|Hne].
      * rewrite list_lookup_insert_eq in Hc by done. injection Hc as <-. by destruct (Hkey Hck).
      * rewrite list_lookup_insert_ne in Hc by done. by apply (Huniq j' c).
  - right. assert (Hkey : ~ (wire_src w = s /\ wire_id w = i)).
    { intros [<- <-]. specialize (Hno j _ Hj). by rewrite (in_time_matches env _ _ t lim Ht) in Hno. }
    split; [done|]. destruct (ring_distance j (r_dup_head r) (length (cores r)) Hjl Hh ltac:(lia)) as [Hne Hdist].
    rewrite Hs. exists j. simpl. rewrite length_insert. split; [by rewrite list_lookup_insert_ne|].
    split; [|split; [apply Nat.mod_upper_bound; lia | rewrite Hdist; lia]].
    intros j' c Hc Hck. destruct (decide (j' = r_dup_head r)) as [->|Hne'].
    + rewrite list_lookup_insert_eq in Hc by done. injection Hc as <-. by destruct (Hkey Hck).
    + rewrite list_lookup_insert_ne in Hc by done. by apply (Huniq j' c).
Qed.

(** The first frame of the packet that gets through makes its entry. *)
Lemma outcome_absent env w r r' f s i :
  outcome env w r r' f -> absent s i (shape r) ->
  absent s i (shape r') /\ (wire_src w = s -> wire_id w = i -> relays f = 0%nat /\ existsb is_handling f = false) \/
  wire_src w = s /\ wire_id w = i /\
    tracked s i (re_now env) (hop_limit_of (header_of w)) (length (cores r) - 1) (shape r') /\
    (relays f <= if (hop_limit_of (header_of w) =? 0)%Z then 0 else 1)%nat.
Proof.
  intros Ho [Hh Hab]. simpl in Hh, Hab.
  inversion Ho as [? ? Hs Hr Hn|k s' i' ms l ? ? Hk -> -> Hl Hs Hr Hn|? ? Hno Hs Hr]; subst.
  - left. rewrite Hs. done.
  - left. assert (Hkey : ~ (wire_src w = s /\ wire_id w = i)) by (intros [<- <-]; by apply (Hab k _ Hk)).
    split; [|intros; exfalso; by apply Hkey]. rewrite Hs. split; simpl; [by rewrite length_insert|].
    intros j c Hc. destruct (decide (j = k)) as [->|Hne].
    + rewrite list_lookup_insert_eq in Hc by (by apply lookup_lt_Some in Hk). injection Hc as <-. exact Hkey.
    + rewrite list_lookup_insert_ne in Hc by done. by apply (Hab j).
  - destruct (decide (wire_src w = s /\ wire_id w = i)) as [[<- <-]|Hkey].
    + right. split; [done|]. split; [done|]. split; [|done]. rewrite Hs.
      exists (r_dup_head r). simpl. rewrite length_insert. split; [by rewrite list_lookup_insert_eq|].
      split; [|split; [apply Nat.mod_upper_bound; lia|]].
      * intros j c Hc Hck. destruct (decide (j = r_dup_head r)) as [|Hne]; [done|].
        rewrite list_lookup_insert_ne in Hc by done. exfalso. by apply (Hab j c Hc).
      * rewrite (mod_wrap (r_dup_head r + 1)) by lia.
        destruct (Nat.ltb_spec (r_dup_head r + 1) (length (cores r))); rewrite mod_wrap by lia;
          match goal with |- context [(?a <? ?b)%nat] => destruct (Nat.ltb_spec a b) end; lia.
    + left. split; [|intros; exfalso; by apply Hkey]. rewrite Hs.
      split; simpl; [rewrite length_insert; apply Nat.mod_upper_bound; lia|].
      intros j c Hc. destruct (decide (j = r_dup_head r)) as [->|Hne].
      * rewrite list_lookup_insert_eq in Hc by done. injection Hc as <-. exact Hkey.
      * rewrite list_lookup_insert_ne in Hc by done. by apply (Hab j).
Qed.

(** *** Any sequence of frames *)
Definition rx_event : Type := router_env * list Z * rx_meta.

(** How often frames of the packet [(s, i)] were handled, and the hop limits its copies that
    were relayed had come with, in order, one for each relay put on the air. *)
Fixpoint tally (s i : Z) (evs : list rx_event) (r : router) : nat * list Z :=
  match evs with
  | [] => (0%nat, [])
  | (env, w, meta) :: evs' =>
      let '(r1, fxs) := meshtastic_router_process_rx_meta env w meta r in
      let '(h, lims) := tally s i evs' r1 in
      if (wire_src w =? s) && (wire_id w =? i)
      then ((h + (if existsb is_handling fxs then 1 else 0))%nat,
            replicate (relays fxs) (hop_limit_of (header_of w)) ++ lims) else (h, lims)
  end.

(** Every frame comes within the time the cache keeps the ones before it. *)
Fixpoint within_ttl (evs : list rx_event) : Prop :=
  match evs with
  | [] => True
  | (env, _, _) :: evs' => Forall (fun ev => in_time (re_now env) ev.1.1) evs' /\ within_ttl evs'
  end.

Lemma key_test w s i : (wire_src w =? s) && (wire_id w =? i) = true <-> wire_src w = s /\ wire_id w = i.
Proof. rewrite andb_true_iff, !Z.eqb_eq. done. Qed.

(** Hop limits above [lim], each larger than the ones before. *)
Definition rising (lim : Z) (l : list Z) : Prop := StronglySorted Z.lt l /\ Forall (fun z => lim < z <= 7) l.

Lemma rising_weaken lim lim' l : lim <= lim' -> rising lim' l -> rising lim l.
Proof. intros H [Hs Hf]. split; [done|]. eapply Forall_impl; [exact Hf|]. simpl. lia. Qed.
Lemma rising_replicate n lim lim' l :
  (n <= 1)%nat -> lim < lim' <= 7 -> rising lim' l -> rising lim (replicate n lim' ++ l).
Proof.
  intros Hn Hl Hr. destruct n as [|[|]]; [by apply (rising_weaken lim lim'); [lia|] | | lia].
  destruct (rising_weaken lim lim' l ltac:(lia) Hr) as [_ Hf]. destruct Hr as [Hs Hf'].
  split; simpl; constructor; [done | | done | done]. eapply Forall_impl; [exact Hf'|]. simpl. lia.
Qed.
Lemma rising_length lim l : lim <= 7 -> rising lim l -> Z.of_nat (length l) <= 7 - lim.
Proof.
  revert lim. induction l as [|x l IH]; intros lim Hl [Hs Hf]; simpl; [lia|].
  apply StronglySorted_inv in Hs as [Hs Hx]. apply Forall_cons in Hf as [Hlx Hf].
  assert (rising x l); [|specialize (IH x ltac:(lia) ltac:(done)); lia].
  split; [done|]. apply Forall_forall. intros y Hy. rewrite Forall_forall in Hx, Hf. split; [by apply Hx | by apply Hf].
Qed.

Lemma tally_tracked s i t lim evs r :
  0 <= lim < 8 -> tracked s i t lim (length evs) (shape r) -> Forall (fun ev => in_time t ev.1.1) evs ->
  (tally s i evs r).1 = 0%nat /\ rising lim (tally s i evs r).2.
Proof.
  intros Hlim Htr Hev. revert lim r Hlim Htr. induction Hev as [|[[env w] meta] evs Ht Hev IH]; intros lim r Hlim Htr.
  { split; [done|]. split; constructor. }
  cbn [tally]. pose proof (process_outcome env w meta r) as Ho.
  destruct (meshtastic_router_process_rx_meta env w meta r) as [r1 fxs].
  destruct (outcome_tracked _ _ _ _ _ _ _ _ _ _ Ho Htr Ht) as
    [(Hn & Hk & lim' & Htr' & Hrel)|(Hk & Htr')].
  - rewrite (proj2 (key_test w s i) Hk), Hn.
    pose proof (hop_limit_range (header_of w)) as Hr.
    destruct (IH lim' r1 ltac:(lia) Htr') as [H1 H2]. destruct (tally s i evs r1) as [h lims].
    simpl in *. split; [lia|]. destruct Hrel as [[-> Hz]|(Hlt & -> & Hle)]; [by rewrite Hz|].
    apply rising_replicate; [done | lia | done].
  - destruct (IH lim r1 Hlim Htr') as [H1 H2]. destruct (tally s i evs r1) as [h lims].
    replace ((wire_src w =? s) && (wire_id w =? i)) with false; [done|].
    symmetry. apply not_true_iff_false. by rewrite key_test.
Qed.

Lemma tally_absent s i evs r :
  absent s i (shape r) -> (length evs <= length (cores r))%nat -> within_ttl evs ->
  ((tally s i evs r).1 <= 1)%nat /\ rising 0 (tally s i evs r).2.
Proof.
  revert r. induction evs as [|[[env w] meta] evs IH]; intros r Hab Hlen Hin; [split; [simpl; lia | split; constructor]|].
  destruct Hin as [Ht Hin]. simpl in Hlen. cbn [tally].
  pose proof (process_outcome env w meta r) as Ho.
  destruct (meshtastic_router_process_rx_meta env w meta r) as [r1 fxs].
  assert (Hsize : length (cores r1) = length (cores r)).
  { inversion Ho as [? ? Hs|? ? ? ? ? ? ? ? ? ? ? Hs|? ? ? Hs];
      (unfold shape in Hs; injection Hs as -> _; by rewrite ?length_insert). }
  destruct (outcome_absent _ _ _ _ _ s i Ho Hab) as [[Hab' Hq]|(Hs & Hi & Htr & Hrel)].
  - specialize (IH r1 Hab' ltac:(lia) Hin). destruct (tally s i evs r1) as [h lims].
    destruct ((wire_src w =? s) && (wire_id w =? i)) eqn:Hk; [|done].
    apply key_test in Hk as [Hs Hi]. destruct (Hq Hs Hi) as [-> ->]. cbn [fst snd] in *. split; [lia | apply IH].
  - rewrite (proj2 (key_test w s i) (conj Hs Hi)).
    pose proof (hop_limit_range (header_of w)) as Hr.
    assert (Htr' : tracked s i (re_now env) (hop_limit_of (header_of w)) (length evs) (shape r1)).
    { destruct Htr as (j & H1 & H2 & H3 & H4). exists j. repeat split; done || lia. }
    destruct (tally_tracked s i _ _ evs r1 Hr Htr' Ht) as [H1 H2].
    destruct (tally s i evs r1) as [h lims]. cbn [fst snd] in *. split; [destruct (existsb is_handling fxs); lia|].
    revert Hrel. destruct (Z.eqb_spec (hop_limit_of (header_of w)) 0) as [E|]; intros Hrel.
    + replace (relays fxs) with 0%nat by lia. by rewrite E in H2.
    + apply rising_replicate; [done | lia | done].
Qed.

(** C1: A packet is handled once and relayed a bounded number of times, whatever copies of
    it the mesh sends. Starting from a cache that does not know the packet, let any frames
    arrive - copies from every direction and with any hop limit, other packets in between,
    from the radio, a radio head or the peer link, the configuration changing at will - no
    more of them than the cache has entries and within its time to live: the packet is
    delivered and dispatched for at most one of its copies; each relay of it put on the air is
    for a copy that came with a hop limit of 1 to 7 strictly larger than that of every copy
    relayed before, so there are at most seven. *)
Theorem packet_handled_once (s i : Z) (evs : list rx_event) (r : router) :
  absent s i (shape r) -> (length evs <= length (cores r))%nat -> within_ttl evs ->
  let '(handled, limits) := tally s i evs r in
  (handled <= 1)%nat /\ StronglySorted Z.lt limits /\ Forall (fun z => 1 <= z <= 7) limits /\ (length limits <= 7)%nat.
Proof.
  intros Hab Hlen Hin. destruct (tally_absent s i evs r Hab Hlen Hin) as [H1 H2].
  destruct (tally s i evs r) as [h lims]. cbn [fst snd] in *. split; [done|].
  pose proof (rising_length 0 lims ltac:(lia) H2). destruct H2 as [Hs Hf]. split; [done|].
  split; [|lia]. eapply Forall_impl; [exact Hf|]. simpl. lia.
Qed.

(** Four copies of a packet, from hop limit 3 down, up, and over the peer link. *)
Definition copies : list rx_event :=
  [(env_reading, wire_sample, meta_sample); (env_reading, <[12%nat := 98]> wire_sample, meta_sample);
   (env_reading, <[12%nat := 101]> wire_sample, meta_sample);
   (env_reading, <[12%nat := 103]> wire_sample, RxMeta BEARER_BLE_PEER 0 255 0 0 5000)].

Lemma packet_handled_once_witness :
  tally 7 42 copies (router0 4) = (1%nat, [3; 5]) /\
  let '(handled, limits) := tally 7 42 copies (router0 4) in
  (handled <= 1)%nat /\ StronglySorted Z.lt limits /\ Forall (fun z => 1 <= z <= 7) limits /\ (length limits <= 7)%nat.
Proof.
  split; [vm_compute; reflexivity|]. apply (packet_handled_once 7 42 copies (router0 4)).
  - split; [vm_compute; lia|]. intros j c Hj.
    assert (Hc : c ∈ cores (router0 4)) by (by eapply list_elem_of_lookup_2).
    change (cores (router0 4)) with (replicate 4 (0, 0, 0, 0)) in Hc.
    apply elem_of_replicate in Hc as [-> _]. by intros [].
  - simpl. lia.
  - simpl. repeat split; repeat apply Forall_cons_2; try apply Forall_nil_2; right; vm_compute; discriminate.
Defined.

(** [dup_find] takes the first entry of the packet, fresh or not: when the packet is heard
    again after its entry expired, the relay handed to a radio head is timed by the
    expired entry's reception (111) instead of this one's (699990). *)
Example stale_entry_times_the_relay :
  let env := env_at 700000 (re_decode env_sample) in
  let r := Router [DupEntry 7 42 1000 0 3 2 17 0 111 false; entry0; entry0; entry0] 1 0 0 0 0 0 (0, 0, 0) in
  exists w delay dupe,
    (meshtastic_router_process_rx_meta env wire_sample (RxMeta BEARER_ATTACHMENT 2 0 (-90) 5 699990) r).2 =
    [FxStatDedupExpired; FxAttachRelay 2 w 7 42 111 delay dupe; FxStatRelaySent].
Proof. do 3 eexists. vm_compute. reflexivity. Qed.
