(* ===== verification/AdminSession.v ===== *)
(** * Admin session keys (src/src/meshtastic_admin_session.c)

    A remote administrator must quote the session key this node handed out. The key is
    replaced when it is handed out at an age of more than 150 seconds, and accepted up to
    an age of 300. Time is the uptime in seconds, an [int64_t] that does not wrap; the
    bytes of the random generator are an argument. *)
From S2P Require Import Prelude.
Open Scope Z_scope.

Definition MESHTASTIC_ADMIN_SESSION_KEY_LEN : Z := 8.
Definition SESSION_ROTATE_SECONDS : Z := 150.
Definition SESSION_VALID_SECONDS : Z := 300.

Record session := Session {
  ss_key : list Z;
  ss_born : Z;
  ss_present : bool;
}.
Definition set_ss_key (v : list Z) (r : session) : session :=
Session v (ss_born r) (ss_present r).
Definition set_ss_born (v : Z) (r : session) : session :=
Session (ss_key r) v (ss_present r).
Definition set_ss_present (v : bool) (r : session) : session :=
Session (ss_key r) (ss_born r) v.

Definition session0 : session := Session (replicate 8 0) 0 false.

(** [rand] are the bytes [sys_rand_get] would give. *)
Definition meshtastic_admin_session_current (now : Z) (rand : list Z) (s : session) : session * list Z :=
  let s1 := if negb (ss_present s) || (SESSION_ROTATE_SECONDS <? now - ss_born s)
            then Session rand now true else s in
  (s1, ss_key s1).

Definition meshtastic_admin_session_valid (now : Z) (key : option (list Z)) (s : session) : bool :=
  match key with
  | None => false
  | Some key =>
      if negb (Zlen key =? MESHTASTIC_ADMIN_SESSION_KEY_LEN) then false
      else ss_present s && (now - ss_born s <? SESSION_VALID_SECONDS) && bool_decide (key = ss_key s)
  end.

Definition meshtastic_admin_session_reset (s : session) : session := session0.

(** ** Any use of the module *)
Inductive session_op :=
  | SCurrent (now : Z) (rand : list Z)
  | SReset.

(** What happened: keys handed out, with the time they were. *)
Fixpoint session_run (ops : list session_op) (s : session) : session * list (Z * list Z) :=
  match ops with
  | [] => (s, [])
  | SCurrent now rand :: ops' =>
      let '(s1, key) := meshtastic_admin_session_current now rand s in
      let '(s2, out) := session_run ops' s1 in (s2, (now, key) :: out)
  | SReset :: ops' => session_run ops' (meshtastic_admin_session_reset s)
  end.

(** The key held was handed out when it was made. *)
Definition session_inv (s : session) (out : list (Z * list Z)) : Prop :=
  ss_present s = true -> (ss_born s, ss_key s) ∈ out.

Lemma session_run_inv ops s out :
  session_inv s out -> session_inv (session_run ops s).1 (out ++ (session_run ops s).2).
Proof.
  revert s out. induction ops as [|[now rand|] ops IH]; intros s out Hi; cbn [session_run].
  - simpl. by rewrite app_nil_r.
  - unfold meshtastic_admin_session_current.
    set (s1 := if negb (ss_present s) || _ then _ else s).
    assert (Hi1 : session_inv s1 (out ++ [(now, ss_key s1)])).
    { unfold s1. destruct (_ || _); intros Hp; simpl in *; [set_solver|].
      specialize (Hi Hp). set_solver. }
    specialize (IH s1 _ Hi1). destruct (session_run ops s1) as [s2 o]. simpl in *.
    by rewrite <- app_assoc in IH.
  - apply IH. done.
Qed.

(** A session key is good for one session. Whatever requests and resets there were, a
    key the node accepts was handed out by it less than 300 seconds before, at the moment
    it was made; and a key just handed out is accepted for at least 150 seconds if no
    other request makes the node replace it meanwhile. *)
Theorem admin_key_lifetime (ops : list session_op) (now : Z) (key : list Z) (t : Z) (rand : list Z) :
  length rand = 8%nat ->
  Forall (fun op => match op with SCurrent _ r => length r = 8%nat | SReset => True end) ops ->
  let '(s, out) := session_run ops session0 in
  (meshtastic_admin_session_valid now (Some key) s = true ->
   exists born, (born, key) ∈ out /\ now - born < SESSION_VALID_SECONDS) /\
  (let '(s', fresh) := meshtastic_admin_session_current t rand s in
   t <= now -> now - t < 150 -> meshtastic_admin_session_valid now (Some fresh) s' = true).
Proof.
  intros Hr Hops. pose proof (session_run_inv ops session0 [] ltac:(done)) as Hinv.
  assert (Hlen : forall ops s, length (ss_key s) = 8%nat ->
    Forall (fun op => match op with SCurrent _ r => length r = 8%nat | SReset => True end) ops ->
    length (ss_key (session_run ops s).1) = 8%nat).
  { clear. intros ops. induction ops as [|[now r|] ops IH]; intros s Hs Ho; [done| |];
      apply Forall_cons in Ho as [H1 H2]; cbn [session_run].
    - unfold meshtastic_admin_session_current.
      set (s1 := if negb (ss_present s) || _ then _ else s).
      assert (H3 : length (ss_key s1) = 8%nat) by (unfold s1; by destruct (_ || _)).
      specialize (IH s1 H3 H2). by destruct (session_run ops s1).
    - by apply IH. }
  specialize (Hlen ops session0 eq_refl Hops).
  destruct (session_run ops session0) as [s out]. simpl in Hinv, Hlen. split.
  - unfold meshtastic_admin_session_valid. destruct (negb _); [done|]. intros H.
    apply andb_true_iff in H as [H Hk]. apply andb_true_iff in H as [Hp Ht].
    apply bool_decide_eq_true in Hk as ->. exists (ss_born s). split; [by apply Hinv|]. bools; lia.
  - unfold meshtastic_admin_session_current, meshtastic_admin_session_valid, MESHTASTIC_ADMIN_SESSION_KEY_LEN,
      SESSION_ROTATE_SECONDS, SESSION_VALID_SECONDS.
    intros Hle Hlt. destruct (_ || _) eqn:E; cbn [ss_key ss_present ss_born].
    + rewrite Hr. cbn [negb andb]. change (negb (Z.of_nat 8 =? 8)) with false. cbn match.
      rewrite bool_decide_true by done. apply andb_true_iff. split; [apply Z.ltb_lt; lia | done].
    + apply orb_false_iff in E as [Hp Ha]. apply negb_false_iff in Hp. apply Z.ltb_ge in Ha.
      rewrite Hlen, Hp. change (negb (Z.of_nat 8 =? 8)) with false. cbn match. cbn [andb].
      rewrite bool_decide_true by done. apply andb_true_iff. split; [apply Z.ltb_lt; lia | done].
Qed.

Lemma admin_key_lifetime_witness :
  let '(s, out) := session_run [SCurrent 10 [1;2;3;4;5;6;7;8]; SCurrent 100 [9;9;9;9;9;9;9;9]] session0 in
  (meshtastic_admin_session_valid 309 (Some [1;2;3;4;5;6;7;8]) s = true ->
   exists born, (born, [1;2;3;4;5;6;7;8]) ∈ out /\ 309 - born < SESSION_VALID_SECONDS) /\
  (let '(s', fresh) := meshtastic_admin_session_current 160 [7;7;7;7;7;7;7;7] s in
   160 <= 309 -> 309 - 160 < 150 -> meshtastic_admin_session_valid 309 (Some fresh) s' = true).
Proof.
  apply (admin_key_lifetime [SCurrent 10 [1;2;3;4;5;6;7;8]; SCurrent 100 [9;9;9;9;9;9;9;9]] 309
    [1;2;3;4;5;6;7;8] 160 [7;7;7;7;7;7;7;7]); [done|].
  repeat apply Forall_cons_2; try apply Forall_nil_2; done.
Defined.

(** There is no overlap of two keys: once a request made the node take a new key, the one
    a client was given two seconds earlier is refused. *)
Example rotation_revokes_old_key :
  let '(s1, k1) := meshtastic_admin_session_current 0 [1;2;3;4;5;6;7;8] session0 in
  let '(s2, k2) := meshtastic_admin_session_current 149 [9;9;9;9;9;9;9;9] s1 in
  let '(s3, k3) := meshtastic_admin_session_current 151 [5;5;5;5;5;5;5;5] s2 in
  k2 = k1 /\ meshtastic_admin_session_valid 150 (Some k2) s2 = true /\
  meshtastic_admin_session_valid 151 (Some k2) s3 = false.
Proof. vm_compute. done. Qed.
