(* ===== verification/Traffic.v ===== *)
(** * Traffic management (src/src/meshtastic_traffic.c)

    The gate every received packet passes before it is delivered or relayed: repeated
    positions, nodes that send too much, and nodes whose frames cannot be decoded. Time
    is the uptime in milliseconds, an [int64_t] that does not wrap. *)
From S2P Require Import Prelude Sched Packet Router.
Open Scope Z_scope.

Definition TRAFFIC_COUNT_CAP : Z := 60.
Definition TRAFFIC_UNKNOWN_WINDOW_MS : Z := 5 * 60 * 1000.
Definition TRAFFIC_TRACKER_CAP_MS : Z := 60 * 60 * 1000.
Definition TRAFFIC_LOST_AND_FOUND_CAP_MS : Z := 15 * 60 * 1000.

Record traffic_entry := TrafficEntry {
  te_node : Z;
  te_seen_ms : Z;
  te_pos_fingerprint : Z;
  te_pos_ms : Z;
  te_rate_count : Z;
  te_rate_start_ms : Z;
  te_unknown_count : Z;
  te_unknown_start_ms : Z;
}.
Definition set_te_node (v : Z) (r : traffic_entry) : traffic_entry :=
TrafficEntry v (te_seen_ms r) (te_pos_fingerprint r) (te_pos_ms r) (te_rate_count r)
    (te_rate_start_ms r) (te_unknown_count r) (te_unknown_start_ms r).
Definition set_te_seen_ms (v : Z) (r : traffic_entry) : traffic_entry :=
TrafficEntry (te_node r) v (te_pos_fingerprint r) (te_pos_ms r) (te_rate_count r)
    (te_rate_start_ms r) (te_unknown_count r) (te_unknown_start_ms r).
Definition set_te_pos_fingerprint (v : Z) (r : traffic_entry) : traffic_entry :=
TrafficEntry (te_node r) (te_seen_ms r) v (te_pos_ms r) (te_rate_count r) (te_rate_start_ms
    r) (te_unknown_count r) (te_unknown_start_ms r).
Definition set_te_pos_ms (v : Z) (r : traffic_entry) : traffic_entry :=
TrafficEntry (te_node r) (te_seen_ms r) (te_pos_fingerprint r) v (te_rate_count r)
    (te_rate_start_ms r) (te_unknown_count r) (te_unknown_start_ms r).
Definition set_te_rate_count (v : Z) (r : traffic_entry) : traffic_entry :=
TrafficEntry (te_node r) (te_seen_ms r) (te_pos_fingerprint r) (te_pos_ms r) v
    (te_rate_start_ms r) (te_unknown_count r) (te_unknown_start_ms r).
Definition set_te_rate_start_ms (v : Z) (r : traffic_entry) : traffic_entry :=
TrafficEntry (te_node r) (te_seen_ms r) (te_pos_fingerprint r) (te_pos_ms r) (te_rate_count
    r) v (te_unknown_count r) (te_unknown_start_ms r).
Definition set_te_unknown_count (v : Z) (r : traffic_entry) : traffic_entry :=
TrafficEntry (te_node r) (te_seen_ms r) (te_pos_fingerprint r) (te_pos_ms r) (te_rate_count
    r) (te_rate_start_ms r) v (te_unknown_start_ms r).
Definition set_te_unknown_start_ms (v : Z) (r : traffic_entry) : traffic_entry :=
TrafficEntry (te_node r) (te_seen_ms r) (te_pos_fingerprint r) (te_pos_ms r) (te_rate_count
    r) (te_rate_start_ms r) (te_unknown_count r) v.

Record traffic := Traffic {
  tr_table : list traffic_entry;
  tr_packets_inspected : Z;
  tr_unknown_packet_drops : Z;
  tr_position_dedup_drops : Z;
  tr_rate_limit_drops : Z;
}.
Definition set_tr_table (v : list traffic_entry) (r : traffic) : traffic :=
Traffic v (tr_packets_inspected r) (tr_unknown_packet_drops r) (tr_position_dedup_drops r)
    (tr_rate_limit_drops r).
Definition set_tr_packets_inspected (v : Z) (r : traffic) : traffic :=
Traffic (tr_table r) v (tr_unknown_packet_drops r) (tr_position_dedup_drops r)
    (tr_rate_limit_drops r).
Definition set_tr_unknown_packet_drops (v : Z) (r : traffic) : traffic :=
Traffic (tr_table r) (tr_packets_inspected r) v (tr_position_dedup_drops r)
    (tr_rate_limit_drops r).
Definition set_tr_position_dedup_drops (v : Z) (r : traffic) : traffic :=
Traffic (tr_table r) (tr_packets_inspected r) (tr_unknown_packet_drops r) v
    (tr_rate_limit_drops r).
Definition set_tr_rate_limit_drops (v : Z) (r : traffic) : traffic :=
Traffic (tr_table r) (tr_packets_inspected r) (tr_unknown_packet_drops r)
    (tr_position_dedup_drops r) v.

Definition traffic_entry0 : traffic_entry := TrafficEntry 0 0 0 0 0 0 0 0.

Record traffic_settings := TrafficSettings {
  position_min_interval_secs : Z; rate_limit_window_secs : Z; rate_limit_max_packets : Z;
  unknown_packet_threshold : Z }.

(** The stored configuration with the thresholds capped. *)
Definition meshtastic_traffic_settings (cfg : traffic_settings) : traffic_settings :=
  TrafficSettings (position_min_interval_secs cfg) (rate_limit_window_secs cfg)
    (Z.min (rate_limit_max_packets cfg) TRAFFIC_COUNT_CAP)
    (Z.min (unknown_packet_threshold cfg) TRAFFIC_COUNT_CAP).

(** The module section a client writes, of which one feature is refused. *)
Record traffic_config := TrafficConfig {
  tc_settings : traffic_settings; nodeinfo_direct_response_max_hops : Z }.

Definition meshtastic_traffic_validate (cfg : option traffic_config) : cret :=
  match cfg with
  | None => ERR EINVAL
  | Some c => if negb (nodeinfo_direct_response_max_hops c =? 0) then ERR ENOTSUP else OK
  end.

(** Validate, then persist; [store] is what the configuration store answers. *)
Definition meshtastic_traffic_set (store : cret) (cfg : option traffic_config) (stored : traffic_config)
    : traffic_config * cret :=
  match meshtastic_traffic_validate cfg, cfg, store with
  | OK, Some c, OK => (c, OK)
  | OK, _, ERR e => (stored, ERR e)
  | ret, _, _ => (stored, ret)
  end.

Inductive sender := SENDER_LOST_AND_FOUND | SENDER_TRACKER | SENDER_OTHER.

(** The clock, the configuration, and what the other modules say of a packet. *)
Record traffic_env := TrafficEnv {
  tv_node_id : Z;
  tv_now : Z;
  tv_cfg : traffic_settings;
  tv_role : Z -> sender;                      (* sender_role *)
  tv_precision : Z -> option Z;               (* the channel's position_precision *)
  tv_default_precision : Z;                   (* CONFIG_MESHTASTIC_TRAFFIC_POSITION_PRECISION_BITS *)
  tv_well_known : Z -> bool;                  (* meshtastic_channels_is_well_known *)
  tv_position : list Z -> option (Z * Z);     (* the decoded coordinates, when both are there *)
}.

(** ** The table *)
(** Find or create the entry of a node: the table, the index, and whether it is new. *)
Definition entry_locked (node now : Z) (t : list traffic_entry) : list traffic_entry * nat * bool :=
  match find_index (fun e => te_node e =? node) t with
  | Some i => (alter (set_te_seen_ms now) i t, i, false)
  | None =>
      let slot := match find_index (fun e => te_node e =? 0) t with
                  | Some i => i
                  | None => match scan_best (fun _ => true) (fun e b => te_seen_ms e <? te_seen_ms b) t with
                            | Some (i, _) => i
                            | None => 0%nat
                            end
                  end in
      (<[slot := TrafficEntry node now 0 0 0 0 0 0]> t, slot, true)
  end.

(** Work on the entry of a node: [f] is told whether it is new, and gives the verdict. *)
Definition with_entry (node now : Z) (f : bool -> traffic_entry -> traffic_entry * bool)
    (t : list traffic_entry) : list traffic_entry * bool :=
  let '(t1, i, is_new) := entry_locked node now t in
  match t1 !! i with
  | Some e => let '(e', v) := f is_new e in (<[i := e']> t1, v)
  | None => (t1, false)
  end.

Definition meshtastic_traffic_tracked (t : traffic) : nat :=
  length (List.filter (fun e => negb (te_node e =? 0)) (tr_table t)).

Definition meshtastic_traffic_reset (t : traffic) : traffic :=
  Traffic (replicate (length (tr_table t)) traffic_entry0) 0 0 0 0.

(** ** Positions *)
Definition position_fingerprint (lat_t lon_t precision : Z) : Z :=
  let bits := if precision <? 4 then precision else 4 in
  let shift := u8 (32 - precision) in
  let lat_bits := u8 (Z.land (Z.shiftr (u32 lat_t) shift) (2 ^ bits - 1)) in
  let lon_bits := u8 (Z.land (Z.shiftr (u32 lon_t) shift) (2 ^ bits - 1)) in
  let fp := u8 (Z.lor (Z.shiftl lat_bits 4) lon_bits) in
  if fp =? 0 then 255 else fp.

Definition dedup_precision (env : traffic_env) (channel_index : Z) : Z :=
  let p := default 0 (tv_precision env channel_index) in
  u8 (if (p =? 0) || (32 <? p) then tv_default_precision env else p).

Definition meshtastic_position_truncate_latlon (lat lon precision : Z) : Z * Z :=
  if (precision =? 0) || (32 <=? precision) then (lat, lon)
  else
    let mask := u32 (Z.shiftl UINT32_MAX (32 - precision)) in
    let center := Z.shiftl 1 (31 - precision) in
    let trunc z := to_i32 (u32 (Z.land (u32 z) mask + center)) in
    (trunc lat, trunc lon).

(** The interval within which a repeated position is dropped. *)
Definition position_window_ms (env : traffic_env) (from min_interval_secs : Z) : Z :=
  let window := min_interval_secs * 1000 in
  match tv_role env from with
  | SENDER_LOST_AND_FOUND =>
      if negb (window =? 0) && (TRAFFIC_LOST_AND_FOUND_CAP_MS <? window)
      then TRAFFIC_LOST_AND_FOUND_CAP_MS else window
  | SENDER_TRACKER => if TRAFFIC_TRACKER_CAP_MS <? window then TRAFFIC_TRACKER_CAP_MS else window
  | SENDER_OTHER => window
  end.

Definition position_verdict (fp window now : Z) (is_new : bool) (e : traffic_entry) : traffic_entry * bool :=
  let has_state := negb is_new && negb (te_pos_fingerprint e =? 0) in
  let same := has_state && (te_pos_fingerprint e =? fp) in
  let within := has_state && negb (window =? 0) && (now - te_pos_ms e <? window) in
  let drop := same && within in
  (if drop then e else set_te_pos_ms now (set_te_pos_fingerprint fp e), drop).

Definition should_drop_position (env : traffic_env) (p : packet) (payload : list Z) (min_interval_secs : Z)
    (t : list traffic_entry) : list traffic_entry * bool :=
  match tv_position env payload with
  | None => (t, false)
  | Some (lat, lon) =>
      let precision := dedup_precision env (p_channel_index p) in
      let '(lat_t, lon_t) := meshtastic_position_truncate_latlon lat lon precision in
      with_entry (p_from p) (tv_now env)
        (position_verdict (position_fingerprint lat_t lon_t precision)
           (position_window_ms env (p_from p) min_interval_secs) (tv_now env)) t
  end.

(** ** Rates *)
Definition saturating_inc (n : Z) : Z := if n <? UINT8_MAX then n + 1 else n.

Definition rate_verdict (window_ms max_packets now : Z) (is_new : bool) (e : traffic_entry)
    : traffic_entry * bool :=
  if is_new || (te_rate_count e =? 0) || (window_ms <=? now - te_rate_start_ms e)
  then (set_te_rate_count 1 (set_te_rate_start_ms now e), false)
  else
    let count := saturating_inc (te_rate_count e) in
    (set_te_rate_count count e, max_packets <? count).

Definition is_rate_limited (env : traffic_env) (from window_secs max_packets : Z) (t : list traffic_entry)
    : list traffic_entry * bool :=
  with_entry from (tv_now env) (rate_verdict (window_secs * 1000) max_packets (tv_now env)) t.

Definition unknown_verdict (threshold now : Z) (is_new : bool) (e : traffic_entry) : traffic_entry * bool :=
  let e1 := if is_new || (te_unknown_count e =? 0) || (TRAFFIC_UNKNOWN_WINDOW_MS <=? now - te_unknown_start_ms e)
            then set_te_unknown_count 0 (set_te_unknown_start_ms now e) else e in
  let count := saturating_inc (te_unknown_count e1) in
  (set_te_unknown_count count e1, threshold <? count).

Definition should_drop_unknown (env : traffic_env) (from threshold : Z) (t : list traffic_entry)
    : list traffic_entry * bool :=
  with_entry from (tv_now env) (unknown_verdict threshold (tv_now env)) t.

(** The first of the two tests on a decoded packet: a repeated position. *)
Definition inspect_position (env : traffic_env) (p : packet) (portnum : Z) (payload : option (list Z))
    (min_interval_secs : Z) (t : traffic) : traffic * bool :=
  match payload with
  | Some bytes =>
      if negb (min_interval_secs =? 0) && (portnum =? MESHTASTIC_PORT_POSITION) &&
         tv_well_known env (p_channel_index p)
      then let '(tb, d) := should_drop_position env p bytes min_interval_secs (tr_table t) in
           (set_tr_table tb t, d)
      else (t, false)
  | None => (t, false)
  end.

(** ** The gate: [true] when the packet is dropped. *)
Definition meshtastic_traffic_inspect (env : traffic_env) (pkt : option packet) (mesh : option mesh_packet)
    (decoded : bool) (t : traffic) : traffic * bool :=
  match pkt with
  | None => (t, false)
  | Some p =>
      let s := meshtastic_traffic_settings (tv_cfg env) in
      let t0 := set_tr_packets_inspected (u32 (tr_packets_inspected t + 1)) t in
      let from := match mesh with Some m => m_from m | None => p_from p end in
      let to := match mesh with Some m => m_to m | None => p_to p end in
      if negb decoded then
        if negb (unknown_packet_threshold s =? 0) && negb (from =? 0) then
          let '(tb, drop) := should_drop_unknown env from (unknown_packet_threshold s) (tr_table t0) in
          let t1 := set_tr_table tb t0 in
          (if drop then set_tr_unknown_packet_drops (u32 (tr_unknown_packet_drops t1 + 1)) t1 else t1, drop)
        else (t0, false)
      else if (from =? 0) || (from =? tv_node_id env) || (to =? tv_node_id env) then (t0, false)
      else
        let portnum := match mesh with Some m => d_portnum (m_decoded m) | None => p_portnum p end in
        let payload := match mesh with Some m => Some (d_payload (m_decoded m)) | None => p_payload p end in
        let '(t1, drop1) := inspect_position env p portnum payload (position_min_interval_secs s) t0 in
        if drop1 then (set_tr_position_dedup_drops (u32 (tr_position_dedup_drops t1 + 1)) t1, true)
        else if negb (rate_limit_window_secs s =? 0) && negb (rate_limit_max_packets s =? 0) &&
                negb (portnum =? MESHTASTIC_PORT_ROUTING) && negb (portnum =? MESHTASTIC_PORT_ADMIN)
        then
          let '(tb, d) := is_rate_limited env from (rate_limit_window_secs s) (rate_limit_max_packets s) (tr_table t1) in
          let t2 := set_tr_table tb t1 in
          (if d then set_tr_rate_limit_drops (u32 (tr_rate_limit_drops t2 + 1)) t2 else t2, d)
        else (t1, false)
  end.

(** Two cells that touch at a corner can have the same fingerprint: the grid index ends
    in (15, 15) for one and in (0, 0) for the other, whose fingerprint 0 is written 255. *)
Example touching_cells_collide :
  let cell lat lon := meshtastic_position_truncate_latlon (lat * 2 ^ 13) (lon * 2 ^ 13) 19 in
  let fp p := position_fingerprint p.1 p.2 19 in
  cell 15 15 <> cell 16 16 /\ fp (cell 15 15) = fp (cell 16 16).
Proof. vm_compute. done. Qed.

(** ** The table under enough room *)
Definition entry_of (n : Z) (t : list traffic_entry) : option traffic_entry :=
  i ← find_index (fun e => te_node e =? n) t; t !! i.

(** Each node has one entry, and there is an entry for each node of [N]. *)
Record table_ok (N : list Z) (t : list traffic_entry) : Prop := {
  to_room : (length N <= length t)%nat;
  to_nodes : forall i e, t !! i = Some e -> te_node e <> 0 -> te_node e ∈ N;
  to_once : forall i j e e', t !! i = Some e -> t !! j = Some e' -> te_node e = te_node e' ->
              te_node e <> 0 -> i = j;
}.

(** Replacing an entry that does not match by another that does not keeps the search. *)
Lemma find_index_insert_other {A} (p : A -> bool) (l : list A) i x y :
  l !! i = Some y -> p y = false -> p x = false -> find_index p (<[i:=x]> l) = find_index p l.
Proof.
  revert i. induction l as [|z l IH]; intros [|i] Hl Hy Hx; simpl in *; try done.
  - injection Hl as ->. by rewrite Hx, Hy.
  - destruct (p z); [done|]. by rewrite (IH i).
Qed.

Lemma entry_of_insert_other n t i x y :
  t !! i = Some y -> te_node y <> n -> te_node x <> n -> entry_of n (<[i:=x]> t) = entry_of n t.
Proof.
  intros Hl Hy Hx. unfold entry_of.
  rewrite (find_index_insert_other _ t i x y) by (done || by apply Z.eqb_neq).
  destruct (find_index (fun e => te_node e =? n) t) as [j|] eqn:E; [|done]. simpl.
  apply find_index_Some_1 in E as (e & He & Hn). apply Z.eqb_eq in Hn.
  destruct (decide (i = j)) as [->|]; [congruence | by apply list_lookup_insert_ne].
Qed.

Lemma entry_of_unique N t i e :
  table_ok N t -> t !! i = Some e -> te_node e <> 0 -> entry_of (te_node e) t = Some e.
Proof.
  intros Ht Hi Hn. unfold entry_of.
  destruct (find_index_is_Some (fun x => te_node x =? te_node e) t i e Hi (Z.eqb_refl _)) as [j Hj].
  rewrite Hj. simpl. apply find_index_Some_1 in Hj as (e' & He' & Hm). apply Z.eqb_eq in Hm.
  rewrite He'. f_equal. assert (j = i) as -> by (eapply (to_once N t Ht j i e' e); congruence). congruence.
Qed.

Lemma table_ok_insert N t i y x :
  table_ok N t -> t !! i = Some y -> (te_node y = 0 \/ te_node y = te_node x) ->
  te_node x ∈ N -> te_node x <> 0 ->
  (te_node y = 0 -> forall j e, t !! j = Some e -> te_node e <> te_node x) ->
  table_ok N (<[i:=x]> t).
Proof.
  intros [H1 H2 H3] Hi Hy HxN Hx0 Habs.
  assert (Hlen : (i < length t)%nat) by (by apply lookup_lt_Some in Hi).
  assert (Hlook : forall j e, <[i:=x]> t !! j = Some e -> (j = i /\ e = x) \/ (j <> i /\ t !! j = Some e)).
  { intros j e He. destruct (decide (j = i)) as [->|Hne].
    - rewrite list_lookup_insert_eq in He by done. left. by injection He.
    - rewrite list_lookup_insert_ne in He by done. by right. }
  assert (Hno : forall j e, j <> i -> t !! j = Some e -> te_node e <> te_node x).
  { intros j e Hji Hj. destruct Hy as [Hy|Hy]; [by eapply Habs|]. intros He.
    apply Hji. eapply (H3 j i e y); congruence. }
  split; [by rewrite length_insert| |].
  - intros j e He Hn. apply Hlook in He as [[-> ->]|[_ He]]; [done | by eapply H2].
  - intros j k e e' Hj Hk Heq Hn. apply Hlook in Hj as [[-> ->]|[Hji Hj]], Hk as [[-> ->]|[Hki Hk]]; [done| | |].
    + exfalso. by apply (Hno k e' Hki Hk).
    + exfalso. by apply (Hno j e Hji Hj).
    + by apply (H3 j k e e').
Qed.

(** With room for every node an absent one finds an empty slot. *)
Lemma empty_slot N t n :
  table_ok N t -> n ∈ N -> (forall i e, t !! i = Some e -> te_node e <> n) ->
  is_Some (find_index (fun e => te_node e =? 0) t).
Proof.
  intros [H1 H2 H3] Hn Habs. destruct (find_index _ t) eqn:E; [done|]. exfalso.
  rewrite find_index_None in E.
  assert (Hnz : forall i e, t !! i = Some e -> te_node e <> 0) by (intros i e He; by apply Z.eqb_neq, (E i)).
  assert (Hnd : NoDup (n :: (te_node <$> t))).
  { constructor.
    - intros (e & -> & He)%list_elem_of_fmap. apply list_elem_of_lookup in He as [i Hi]. by apply (Habs i e Hi).
    - apply NoDup_alt. intros i j x Hi Hj. rewrite list_lookup_fmap in Hi, Hj.
      destruct (t !! i) as [e|] eqn:Ei; [|done]. destruct (t !! j) as [e'|] eqn:Ej; [|done].
      injection Hi as <-. injection Hj as Hj. eapply (H3 i j e e'); eauto. }
  assert (Hsub : forall x, x ∈ n :: (te_node <$> t) -> x ∈ N).
  { intros x [->|Hx]%elem_of_cons; [done|]. apply list_elem_of_fmap in Hx as (e & -> & He).
    apply list_elem_of_lookup in He as [i Hi]. eapply H2; eauto. }
  pose proof (submseteq_length _ _ (NoDup_submseteq _ _ Hnd Hsub)) as Hl.
  simpl in Hl. rewrite length_fmap in Hl. lia.
Qed.

(** What working on the entry of one node does. *)
Lemma with_entry_spec N n now f t t' v :
  table_ok N t -> n ∈ N -> n <> 0 -> (forall b e, te_node (f b e).1 = te_node e) ->
  with_entry n now f t = (t', v) ->
  table_ok N t' /\ length t' = length t /\
  (forall m, m <> n -> m <> 0 -> entry_of m t' = entry_of m t) /\
  exists is_new e, f is_new e = (default traffic_entry0 (entry_of n t'), v) /\ is_Some (entry_of n t') /\
    match entry_of n t with
    | Some e0 => is_new = false /\ e = set_te_seen_ms now e0
    | None => is_new = true /\ e = TrafficEntry n now 0 0 0 0 0 0
    end.
Proof.
  intros Ht Hn Hn0 Hf. unfold with_entry, entry_locked.
  destruct (find_index (fun e => te_node e =? n) t) as [i|] eqn:Ei.
  - assert (Hen : entry_of n t = t !! i) by (unfold entry_of; by rewrite Ei).
    apply find_index_Some_1 in Ei as (e0 & He0 & Hm). apply Z.eqb_eq in Hm. rewrite He0 in Hen.
    assert (Hlen : (i < length t)%nat) by (by apply lookup_lt_Some in He0).
    rewrite (list_lookup_alter_eq (set_te_seen_ms now)), He0. cbn [fmap option_fmap option_map].
    destruct (f false (set_te_seen_ms now e0)) as [e' v'] eqn:Ef. intros [= <- <-].
    assert (He' : te_node e' = n) by (specialize (Hf false (set_te_seen_ms now e0)); rewrite Ef in Hf; simpl in Hf; congruence).
    assert (Halt : <[i:=e']> (alter (set_te_seen_ms now) i t) = <[i:=e']> t).
    { apply list_eq. intros j. destruct (decide (i = j)) as [<-|Hne].
      - by rewrite !list_lookup_insert_eq by (rewrite ?length_alter; done).
      - by rewrite !list_lookup_insert_ne, list_lookup_alter_ne by done. }
    rewrite Halt.
    assert (Hok : table_ok N (<[i:=e']> t)).
    { apply (table_ok_insert N t i e0); [done | done | right; congruence | congruence | congruence |].
      intros Hz. congruence. }
    assert (Hself : entry_of n (<[i:=e']> t) = Some e').
    { rewrite <- He'. apply (entry_of_unique N _ i); [done | by apply list_lookup_insert_eq | congruence]. }
    split; [done|]. split; [by rewrite length_insert|].
    split; [intros m Hmn Hm0; by apply (entry_of_insert_other m t i e' e0); congruence|].
    exists false, (set_te_seen_ms now e0). rewrite Hself, Hen. done.
  - assert (Hen : entry_of n t = None) by (unfold entry_of; by rewrite Ei).
    assert (Habs : forall i e, t !! i = Some e -> te_node e <> n).
    { rewrite find_index_None in Ei. intros i e He. by apply Z.eqb_neq, (Ei i). }
    destruct (empty_slot N t n Ht Hn Habs) as [i Hi]. rewrite Hi.
    apply find_index_Some_1 in Hi as (y & Hy & Hz). apply Z.eqb_eq in Hz.
    assert (Hlen : (i < length t)%nat) by (by apply lookup_lt_Some in Hy).
    rewrite list_lookup_insert_eq by done. set (e := TrafficEntry n now 0 0 0 0 0 0).
    destruct (f true e) as [e' v'] eqn:Ef. intros [= <- <-].
    assert (He' : te_node e' = n) by (specialize (Hf true e); rewrite Ef in Hf; exact Hf).
    rewrite list_insert_insert_eq.
    assert (Hok : table_ok N (<[i:=e']> t)).
    { apply (table_ok_insert N t i y); [done | done | by left | congruence | congruence |].
      intros _ j x Hj. rewrite He'. by apply (Habs j). }
    assert (Hself : entry_of n (<[i:=e']> t) = Some e').
    { rewrite <- He'. apply (entry_of_unique N _ i); [done | by apply list_lookup_insert_eq | congruence]. }
    split; [done|]. split; [by rewrite length_insert|].
    split; [intros m Hmn Hm0; apply (entry_of_insert_other m t i e' y); congruence|].
    exists true, e. rewrite Hself, Hen. done.
Qed.

(** ** How much of a node gets through *)
Record inspection := Inspection {
  in_env : traffic_env; in_pkt : packet; in_mesh : option mesh_packet; in_decoded : bool }.

Definition in_from (ev : inspection) : Z := match in_mesh ev with Some m => m_from m | None => p_from (in_pkt ev) end.
Definition in_to (ev : inspection) : Z := match in_mesh ev with Some m => m_to m | None => p_to (in_pkt ev) end.
Definition in_port (ev : inspection) : Z :=
  match in_mesh ev with Some m => d_portnum (m_decoded m) | None => p_portnum (in_pkt ev) end.

(** The packets of [n] that the rate limit is about. *)
Definition shaped (n : Z) (ev : inspection) : bool :=
  in_decoded ev && (in_from ev =? n) && negb (n =? tv_node_id (in_env ev)) &&
  negb (in_to ev =? tv_node_id (in_env ev)) &&
  negb (in_port ev =? MESHTASTIC_PORT_ROUTING) && negb (in_port ev =? MESHTASTIC_PORT_ADMIN).

Fixpoint passes (n : Z) (evs : list inspection) (t : traffic) : Z :=
  match evs with
  | [] => 0
  | ev :: evs' =>
      let '(t1, drop) := meshtastic_traffic_inspect (in_env ev) (Some (in_pkt ev)) (in_mesh ev) (in_decoded ev) t in
      (if shaped n ev && negb drop then 1 else 0) + passes n evs' t1
  end.

Section RateLimit.
Context (N : list Z) (n T W M : Z).
Context (HnN : n ∈ N) (Hn0 : n <> 0) (HM : 1 <= M <= TRAFFIC_COUNT_CAP) (HW : 0 < W).

(** What [n] can still send before [T + W]: a full window when none is open; else the rest
    of the open one, and a full one more if that was opened before [T]. *)
Definition rate_left (t : list traffic_entry) : Z :=
  match entry_of n t with
  | None => M
  | Some e => if te_rate_count e =? 0 then M
              else M - Z.min (te_rate_count e) M + (if T <=? te_rate_start_ms e then 0 else M)
  end.

Record rate_ok (t : list traffic_entry) : Prop := {
  ra_table : table_ok N t;
  ra_count : forall e, entry_of n t = Some e -> 0 <= te_rate_count e;
}.

Lemma rate_left_nonneg t : 0 <= rate_left t.
Proof. unfold rate_left. repeat case_match; lia. Qed.

(** A verdict that leaves the rate fields alone leaves the budget. *)
Lemma keeps_rate node now f t t' v :
  rate_ok t -> node ∈ N -> node <> 0 ->
  (forall b e, te_node (f b e).1 = te_node e /\ te_rate_count (f b e).1 = te_rate_count e /\
               te_rate_start_ms (f b e).1 = te_rate_start_ms e) ->
  with_entry node now f t = (t', v) -> rate_ok t' /\ rate_left t' = rate_left t.
Proof.
  intros [Ht Hc] Hno Hno0 Hf E.
  destruct (with_entry_spec N node now f t t' v Ht Hno Hno0 (fun b e => proj1 (Hf b e)) E)
    as (Ht' & _ & Hother & is_new & e & He & [e' He'] & Hm).
  destruct (decide (n = node)) as [<-|Hne].
  2:{ unfold rate_left. rewrite Hother by done. split; [split; [done|]|done]. intros x Hx. rewrite Hother in Hx by done. by apply Hc. }
  rewrite He' in He. simpl in He. destruct (Hf is_new e) as (_ & H1 & H2). rewrite He in H1, H2. simpl in H1, H2.
  unfold rate_left. rewrite He'. destruct (entry_of n t) as [e0|] eqn:E0; destruct Hm as [-> ->]; simpl in H1, H2.
  - split; [split; [done|]|by rewrite H1, H2]. intros x Hx. rewrite He' in Hx. injection Hx as <-. rewrite H1. by apply Hc.
  - split; [split; [done|]|by rewrite H1]. intros x Hx. rewrite He' in Hx. injection Hx as <-. rewrite H1. done.
Qed.

(** The rate verdict takes one from the budget for each packet it lets through. *)
Lemma rate_step node now t t' v :
  rate_ok t -> node ∈ N -> node <> 0 -> T <= now < T + W ->
  with_entry node now (rate_verdict W M now) t = (t', v) ->
  rate_ok t' /\ rate_left t' + (if (node =? n) && negb v then 1 else 0) <= rate_left t.
Proof.
  intros [Ht Hc] Hno Hno0 Hnow E.
  assert (Hf : forall b e, te_node (rate_verdict W M now b e).1 = te_node e)
    by (intros b e; unfold rate_verdict; by destruct (_ || _)).
  destruct (with_entry_spec N node now _ t t' v Ht Hno Hno0 Hf E)
    as (Ht' & _ & Hother & is_new & e & He & [e' He'] & Hm).
  destruct (Z.eqb_spec node n) as [->|Hne]; cbn [andb].
  2:{ unfold rate_left. rewrite Hother by done. split; [split; [done|]|lia]. intros x Hx.
      rewrite Hother in Hx by done. by apply Hc. }
  rewrite He' in He. simpl in He. unfold rate_verdict in He.
  assert (Hfresh : forall e1, e' = set_te_rate_count 1 (set_te_rate_start_ms now e1) -> v = false ->
     M <= rate_left t -> rate_ok t' /\ rate_left t' + (if negb v then 1 else 0) <= rate_left t).
  { intros e1 -> -> Hleft. split.
    - split; [done|]. intros x Hx. rewrite He' in Hx. injection Hx as <-. simpl. lia.
    - unfold rate_left at 1. rewrite He'. simpl. rewrite (proj2 (Z.leb_le T now)) by lia. cbn [negb]. lia. }
  destruct (entry_of n t) as [e0|] eqn:E0; destruct Hm as [-> ->]; cbn [orb] in He.
  2:{ injection He as He <-. apply (Hfresh _ (eq_sym He) eq_refl). unfold rate_left. rewrite E0. lia. }
  simpl in He. specialize (Hc e0 eq_refl).
  destruct (Z.eqb_spec (te_rate_count e0) 0) as [Hz|Hnz].
  { injection He as He <-. apply (Hfresh _ (eq_sym He) eq_refl). unfold rate_left. rewrite E0, Hz. simpl. lia. }
  cbn [orb] in He. destruct (Z.leb_spec W (now - te_rate_start_ms e0)) as [Hexp|Hin].
  { injection He as He <-. apply (Hfresh _ (eq_sym He) eq_refl). unfold rate_left. rewrite E0.
    rewrite (proj2 (Z.eqb_neq _ _) Hnz), (proj2 (Z.leb_gt T (te_rate_start_ms e0))) by lia. lia. }
  injection He as He <-. assert (Hinc : te_rate_count e0 < saturating_inc (te_rate_count e0) \/
      saturating_inc (te_rate_count e0) = te_rate_count e0 /\ UINT8_MAX <= te_rate_count e0)
    by (unfold saturating_inc, UINT8_MAX; destruct (Z.ltb_spec (te_rate_count e0) 255); lia).
  assert (Hsat : saturating_inc (te_rate_count e0) <= te_rate_count e0 + 1)
    by (unfold saturating_inc; destruct (te_rate_count e0 <? UINT8_MAX); lia).
  unfold UINT8_MAX, TRAFFIC_COUNT_CAP in *. split.
  - split; [done|]. intros x Hx. rewrite He' in Hx. injection Hx as <-. rewrite <- He. simpl. lia.
  - unfold rate_left. rewrite He', E0, <- He. simpl.
    rewrite (proj2 (Z.eqb_neq _ _) Hnz), (proj2 (Z.eqb_neq (saturating_inc _) 0)) by lia.
    destruct (Z.ltb_spec M (saturating_inc (te_rate_count e0))); cbn [negb]; lia.
Qed.

(** An inspection the statement is about: inside the period, from a node of [N], with
    the limit switched on. *)
Record in_period (ev : inspection) : Prop := {
  ip_now : T <= tv_now (in_env ev) < T + W;
  ip_from : in_from ev = 0 \/ in_from ev ∈ N;
  ip_same : p_from (in_pkt ev) = in_from ev;
  ip_window : rate_limit_window_secs (tv_cfg (in_env ev)) * 1000 = W;
  ip_max : Z.min (rate_limit_max_packets (tv_cfg (in_env ev))) TRAFFIC_COUNT_CAP = M;
}.

Lemma position_keeps_rate env p payload secs t t' v :
  rate_ok t -> p_from p ∈ N -> p_from p <> 0 ->
  should_drop_position env p payload secs t = (t', v) -> rate_ok t' /\ rate_left t' = rate_left t.
Proof.
  intros Ht Hp Hp0. unfold should_drop_position.
  destruct (tv_position env payload) as [[lat lon]|]; [|by intros [= <- <-]].
  destruct (meshtastic_position_truncate_latlon lat lon _) as [a b]. apply keeps_rate; [done..|].
  intros is_new e. unfold position_verdict. by destruct (_ && _).
Qed.

Lemma unknown_keeps_rate env node threshold t t' v :
  rate_ok t -> node ∈ N -> node <> 0 ->
  should_drop_unknown env node threshold t = (t', v) -> rate_ok t' /\ rate_left t' = rate_left t.
Proof.
  intros Ht Hp Hp0. apply keeps_rate; [done..|].
  intros is_new e. unfold unknown_verdict. by destruct (_ || _).
Qed.

Lemma inspect_position_keeps_rate env p portnum payload secs t t' v :
  rate_ok (tr_table t) -> p_from p ∈ N -> p_from p <> 0 ->
  inspect_position env p portnum payload secs t = (t', v) ->
  rate_ok (tr_table t') /\ rate_left (tr_table t') = rate_left (tr_table t).
Proof.
  intros Ht Hp Hp0. unfold inspect_position.
  destruct payload as [bytes|]; [|by intros [= <- <-]].
  destruct (_ && _ && _); [|by intros [= <- <-]].
  destruct (should_drop_position _ _ _ _ _) as [tb d] eqn:E. intros [= <- <-].
  by apply position_keeps_rate in E.
Qed.

(** Every inspection keeps the budget, less one for a packet that is let through. *)
Lemma inspect_rate ev t t' drop :
  in_period ev -> rate_ok (tr_table t) ->
  meshtastic_traffic_inspect (in_env ev) (Some (in_pkt ev)) (in_mesh ev) (in_decoded ev) t = (t', drop) ->
  rate_ok (tr_table t') /\
  rate_left (tr_table t') + (if shaped n ev && negb drop then 1 else 0) <= rate_left (tr_table t).
Proof.
  intros [Hnow Hfrom Hsame Hwin Hmax] Ht. unfold meshtastic_traffic_inspect, shaped.
  change (match in_mesh ev with Some m => m_from m | None => p_from (in_pkt ev) end) with (in_from ev).
  change (match in_mesh ev with Some m => m_to m | None => p_to (in_pkt ev) end) with (in_to ev).
  change (match in_mesh ev with Some m => d_portnum (m_decoded m) | None => p_portnum (in_pkt ev) end) with (in_port ev).
  destruct (in_decoded ev); cbn [negb andb].
  2:{ destruct (negb _ && negb (in_from ev =? 0)) eqn:Ec; [|intros [= <- <-]; cbn; split; [done|lia]].
      apply andb_true_iff in Ec as [_ Hf0%negb_true_iff%Z.eqb_neq].
      destruct Hfrom as [?|Hfrom]; [done|].
      destruct (should_drop_unknown _ _ _ _) as [tb d] eqn:Eu.
      apply unknown_keeps_rate in Eu as [? ?]; [|done..].
      intros [= <- <-]. destruct d; cbn; (split; [done|]); cbn in *; lia. }
  destruct (Z.eqb_spec (in_from ev) 0) as [Hz|Hnz]; cbn [orb].
  { intros [= <- <-]. rewrite Hz, (proj2 (Z.eqb_neq 0 n)) by done. cbn. split; [done|lia]. }
  destruct Hfrom as [?|Hfrom]; [done|].
  destruct ((in_from ev =? tv_node_id (in_env ev)) || (in_to ev =? tv_node_id (in_env ev))) eqn:Eus.
  { intros [= <- <-]. split; [done|]. cbn [tr_table set_tr_packets_inspected].
    enough ((in_from ev =? n) && negb (n =? tv_node_id (in_env ev)) && negb (in_to ev =? tv_node_id (in_env ev)) = false)
      as -> by (cbn; lia).
    destruct (Z.eqb_spec (in_from ev) n) as [<-|]; [|done].
    by destruct (in_from ev =? _), (in_to ev =? _). }
  destruct (inspect_position _ _ _ _ _ _) as [t1 drop1] eqn:Epos.
  apply inspect_position_keeps_rate in Epos as [Ht1 Hl1]; [|cbn; congruence..]. cbn [tr_table set_tr_packets_inspected] in Hl1.
  destruct drop1.
  { intros [= <- <-]. split; [done|]. rewrite andb_false_r. cbn in *. lia. }
  cbn [rate_limit_window_secs rate_limit_max_packets meshtastic_traffic_settings]. rewrite Hmax.
  rewrite (proj2 (Z.eqb_neq (rate_limit_window_secs _) 0)), (proj2 (Z.eqb_neq M 0)) by lia. cbn [negb andb].
  destruct (negb (in_port ev =? MESHTASTIC_PORT_ROUTING) && negb (in_port ev =? MESHTASTIC_PORT_ADMIN)) eqn:Ep.
  2:{ intros [= <- <-]. split; [done|].
      destruct (in_port ev =? MESHTASTIC_PORT_ROUTING), (in_port ev =? MESHTASTIC_PORT_ADMIN); try done;
        cbn [negb]; rewrite ?andb_false_r; cbn; lia. }
  unfold is_rate_limited. rewrite Hwin.
  destruct (with_entry _ _ _ _) as [tb d] eqn:Er.
  apply rate_step in Er as [Htb Hlb]; [|done..]. intros [= <- <-].
  split; [by destruct d|]. rewrite <- Hl1.
  apply (Z.le_trans _ (rate_left tb + (if (in_from ev =? n) && negb d then 1 else 0))); [|done].
  clear. destruct d, (in_from ev =? n), (n =? _), (in_to ev =? _), (in_port ev =? _), (in_port ev =? _); cbn; lia.
Qed.

(** Over a whole history: what gets through is paid from the budget. *)
Lemma passes_bounded evs : forall t,
  rate_ok (tr_table t) -> Forall in_period evs -> passes n evs t <= rate_left (tr_table t).
Proof.
  induction evs as [|ev evs IH]; intros t Ht Hev; cbn [passes]; [apply rate_left_nonneg|].
  apply Forall_cons in Hev as [Hev Hevs].
  destruct (meshtastic_traffic_inspect _ _ _ _ _) as [t1 drop] eqn:E.
  apply inspect_rate in E as [Ht1 Hl]; [|done..]. specialize (IH t1 Ht1 Hevs). lia.
Qed.
End RateLimit.

(** C38: However the packets of up to as many nodes as the table holds are interleaved,
    and whatever was sent before, at most [2 M - 1] shaped packets of one node pass the gate
    within one window length, where [M] is [rate_limit_max_packets] capped at 60: the
    windows are fixed ones, so a burst across the edge of two gets the most through. *)
Theorem traffic_rate_bounded (N : list Z) (n T W M : Z) (evs : list inspection) (t : traffic) :
  n ∈ N -> n <> 0 -> 1 <= M <= TRAFFIC_COUNT_CAP -> 0 < W ->
  table_ok N (tr_table t) -> (forall e, e ∈ tr_table t -> 0 <= te_rate_count e) ->
  Forall (in_period N T W M) evs ->
  passes n evs t <= 2 * M - 1.
Proof.
  intros HnN Hn0 HM HW Ht Hc Hev.
  assert (Hok : rate_ok N n (tr_table t)).
  { split; [done|]. intros e He. apply Hc. unfold entry_of in He.
    destruct (find_index _ _) as [i|]; [|done]. by apply list_elem_of_lookup_2 in He. }
  pose proof (passes_bounded N n T W M HnN Hn0 HM HW evs t Hok Hev) as H.
  assert (rate_left n T M (tr_table t) <= 2 * M - 1); [|lia].
  unfold rate_left. destruct (entry_of n (tr_table t)) as [e|] eqn:Ee; [|lia].
  pose proof (ra_count _ _ _ Hok e Ee).
  destruct (Z.eqb_spec (te_rate_count e) 0), (T <=? te_rate_start_ms e); lia.
Qed.

(** Two nodes, two packets in ten seconds: node 17 opened a window before the period. *)
Definition witness_event (now from : Z) : inspection :=
  Inspection (TrafficEnv 1 now (TrafficSettings 0 10 2 0) (fun _ => SENDER_OTHER) (fun _ => None) 19
                (fun _ => true) (fun _ => None))
    (set_p_from from (set_p_to 4294967295 (set_p_portnum 1 packet_zero))) None true.

Lemma traffic_rate_bounded_witness :
  let evs := [witness_event 100000 17; witness_event 100001 18; witness_event 101000 17;
              witness_event 101001 17; witness_event 101002 17; witness_event 109999 17] in
  let t := Traffic [TrafficEntry 17 91000 0 0 1 91000 0 0; traffic_entry0] 0 0 0 0 in
  passes 17 evs t = 3 /\ passes 17 evs t <= 2 * 2 - 1.
Proof.
  intros evs t. split; [reflexivity|].
  apply (traffic_rate_bounded [17; 18] 17 100000 10000 2 evs t).
  - set_solver.
  - done.
  - unfold TRAFFIC_COUNT_CAP. lia.
  - lia.
  - split; [done| |].
    + intros [|[|]] e He Hz; cbn in He; [|by injection He as <-|done]. injection He as <-. set_solver.
    + intros [|[|]] [|[|]] e e' He He' Heq Hz; cbn in He, He'; try done;
        injection He as <-; injection He' as <-; done.
  - intros e [->|[->|[]%elem_of_nil]%elem_of_cons]%elem_of_cons; cbn; lia.
  - repeat constructor; cbn; (lia || (right; set_solver) || done).
Defined.
