(* ===== verification/ClusterSync.v ===== *)
(** * Cluster anti-entropy (src/src/meshtastic_cluster.c)

    The engine that keeps the documents of a fleet equal: the periodic digest, its
    comparison, the pull of a stamp vector and then of entries, the push of a local
    write, the declared scope and its narrowing, the table of peers. The path of one
    entry is [ClusterIngest]; its state is the field [cl]. Handlers run under one lock,
    so each is one atomic function; a work item is the absolute time it is due, if it is
    pending. What leaves the module (frames, flash records, the reconciler) is a list of
    outputs. *)
From S2P Require Import Prelude Hlc ClusterDoc ClusterIngest.
Open Scope Z_scope.

Definition CLUSTER_VECTOR_ROWS : nat := 4.
Definition CLUSTER_PUSH_BURST : Z := 3.
Definition CLUSTER_PUSH_QUEUE : nat := 4.
Definition CLUSTER_FRUITLESS_THRESHOLD : Z := 3.
Definition CLUSTER_FRUITLESS_MAX_SHIFT : Z := 5.
Definition MESHTASTIC_NODE_BROADCAST : Z := 4294967295.

(** ** Messages *)

Inductive pb_scope := SCOPE_PB_UNSPECIFIED | SCOPE_PB_FULL | SCOPE_PB_CORE.

(** [dg_max_stamp] is all zero when the field is absent. *)
Record pb_digest := PbDigest {
  dg_doc_hash : Z; dg_entry_count : Z; dg_max_stamp : hlc_stamp; dg_scope : pb_scope;
  dg_base_hash : Z; dg_base_count : Z }.

Record pb_vector := PbVector {
  vc_offset : Z; vc_total : Z; vc_rows : list (option pb_key * option hlc_stamp) }.

Inductive cluster_message :=
  | MsgDigest (d : pb_digest)
  | MsgVectorReq (scope : pb_scope)
  | MsgVector (v : pb_vector)
  | MsgEntryReq (keys : list pb_key)
  | MsgEntry (e : pb_entry)
  | MsgOther.

(** ** State *)

Inductive cluster_pull_state := PULL_IDLE | PULL_SEND_VECTOR_REQ | PULL_AWAIT_VECTOR | PULL_SEND_ENTRY_REQ.
#[export] Instance pull_state_eq_dec : EqDecision cluster_pull_state.
Proof. solve_decision. Defined.
Inductive cluster_pull_reason := PULL_REASON_DIGEST | PULL_REASON_SHELL | PULL_REASON_BACKSTOP.
#[export] Instance pull_reason_eq_dec : EqDecision cluster_pull_reason.
Proof. solve_decision. Defined.

Record cluster_peer := ClusterPeer {
  pr_node_id : Z; pr_heard_uptime_sec : Z; pr_doc_hash : Z; pr_entry_count : Z; pr_scope : pb_scope;
  pr_agreed : bool; pr_comparable : bool }.

Record cluster_fleet := ClusterFleet {
  fl_known : Z; fl_agreed : Z; fl_diverged : Z; fl_incomparable : Z; fl_stale : Z; fl_window_sec : Z }.

(** The counters of this part, each a [uint32_t]. *)
Inductive sync_counter :=
  | N_DIGEST_TX | N_DIGEST_RX_MATCH | N_DIGEST_RX_MISMATCH | N_DIGEST_RX_INCOMPARABLE | N_RX_WRONG_CHANNEL
  | N_RX_UNDECODABLE | N_RX_NOT_IMPLEMENTED | N_PULL_STARTED | N_PULL_TIMED_OUT | N_PULL_FRUITLESS
  | N_PULL_EMPTY | N_PULL_HELD | N_VECTOR_TX | N_VECTOR_RX | N_WANT_NO_SPACE | N_ENTRIES_EVICTED
  | N_SCOPE_DEMOTIONS | N_BACKSTOP_WALKS | N_RX_UNSOLICITED | N_TX_BUSY | N_PUSH_TX | N_PUSH_SUPPRESSED
  | N_SIG_SIGNED | N_SIG_SIGN_FAILED.
#[export] Instance sync_counter_eq_dec : EqDecision sync_counter.
Proof. solve_decision. Defined.

(** [pull_keys] holds the first [pull_key_count] keys; the push queue is the ring of the
    code. *)
Record sync := Sync {
  cl : cluster;
  scope_pinned : bool;
  backstop_peer : Z;
  backstop_countdown : Z;
  channel_missing_logged : bool;
  peers : list cluster_peer;
  pull_state : cluster_pull_state;
  pull_reason : cluster_pull_reason;
  pull_peer : Z;
  pull_deadline_ms : Z;
  pull_keys : list cluster_key;
  vec_dest : Z;
  vec_offset : nat;
  vec_emitted : Z;
  vec_scope_kind : scope_kind;
  push_keys : list cluster_key;
  push_head : nat;
  push_count : nat;
  push_tokens : Z;
  push_refill_ms : Z;
  pull_last_applied : Z;
  pull_asked_entries : bool;
  sstats : (sync_counter -> Z);
  tx_at : option Z;
  digest_at : option Z;
}.
Definition set_cl (v : cluster) (r : sync) : sync :=
Sync v (scope_pinned r) (backstop_peer r) (backstop_countdown r) (channel_missing_logged r)
    (peers r) (pull_state r) (pull_reason r) (pull_peer r) (pull_deadline_ms r) (pull_keys
    r) (vec_dest r) (vec_offset r) (vec_emitted r) (vec_scope_kind r) (push_keys r)
    (push_head r) (push_count r) (push_tokens r) (push_refill_ms r) (pull_last_applied r)
    (pull_asked_entries r) (sstats r) (tx_at r) (digest_at r).
Definition set_scope_pinned (v : bool) (r : sync) : sync :=
Sync (cl r) v (backstop_peer r) (backstop_countdown r) (channel_missing_logged r) (peers r)
    (pull_state r) (pull_reason r) (pull_peer r) (pull_deadline_ms r) (pull_keys r)
    (vec_dest r) (vec_offset r) (vec_emitted r) (vec_scope_kind r) (push_keys r) (push_head
    r) (push_count r) (push_tokens r) (push_refill_ms r) (pull_last_applied r)
    (pull_asked_entries r) (sstats r) (tx_at r) (digest_at r).
Definition set_backstop_peer (v : Z) (r : sync) : sync :=
Sync (cl r) (scope_pinned r) v (backstop_countdown r) (channel_missing_logged r) (peers r)
    (pull_state r) (pull_reason r) (pull_peer r) (pull_deadline_ms r) (pull_keys r)
    (vec_dest r) (vec_offset r) (vec_emitted r) (vec_scope_kind r) (push_keys r) (push_head
    r) (push_count r) (push_tokens r) (push_refill_ms r) (pull_last_applied r)
    (pull_asked_entries r) (sstats r) (tx_at r) (digest_at r).
Definition set_backstop_countdown (v : Z) (r : sync) : sync :=
Sync (cl r) (scope_pinned r) (backstop_peer r) v (channel_missing_logged r) (peers r)
    (pull_state r) (pull_reason r) (pull_peer r) (pull_deadline_ms r) (pull_keys r)
    (vec_dest r) (vec_offset r) (vec_emitted r) (vec_scope_kind r) (push_keys r) (push_head
    r) (push_count r) (push_tokens r) (push_refill_ms r) (pull_last_applied r)
    (pull_asked_entries r) (sstats r) (tx_at r) (digest_at r).
Definition set_channel_missing_logged (v : bool) (r : sync) : sync :=
Sync (cl r) (scope_pinned r) (backstop_peer r) (backstop_countdown r) v (peers r)
    (pull_state r) (pull_reason r) (pull_peer r) (pull_deadline_ms r) (pull_keys r)
    (vec_dest r) (vec_offset r) (vec_emitted r) (vec_scope_kind r) (push_keys r) (push_head
    r) (push_count r) (push_tokens r) (push_refill_ms r) (pull_last_applied r)
    (pull_asked_entries r) (sstats r) (tx_at r) (digest_at r).
Definition set_peers (v : list cluster_peer) (r : sync) : sync :=
Sync (cl r) (scope_pinned r) (backstop_peer r) (backstop_countdown r)
    (channel_missing_logged r) v (pull_state r) (pull_reason r) (pull_peer r)
    (pull_deadline_ms r) (pull_keys r) (vec_dest r) (vec_offset r) (vec_emitted r)
    (vec_scope_kind r) (push_keys r) (push_head r) (push_count r) (push_tokens r)
    (push_refill_ms r) (pull_last_applied r) (pull_asked_entries r) (sstats r) (tx_at r)
    (digest_at r).
Definition set_pull_state (v : cluster_pull_state) (r : sync) : sync :=
Sync (cl r) (scope_pinned r) (backstop_peer r) (backstop_countdown r)
    (channel_missing_logged r) (peers r) v (pull_reason r) (pull_peer r) (pull_deadline_ms
    r) (pull_keys r) (vec_dest r) (vec_offset r) (vec_emitted r) (vec_scope_kind r)
    (push_keys r) (push_head r) (push_count r) (push_tokens r) (push_refill_ms r)
    (pull_last_applied r) (pull_asked_entries r) (sstats r) (tx_at r) (digest_at r).
Definition set_pull_reason (v : cluster_pull_reason) (r : sync) : sync :=
Sync (cl r) (scope_pinned r) (backstop_peer r) (backstop_countdown r)
    (channel_missing_logged r) (peers r) (pull_state r) v (pull_peer r) (pull_deadline_ms r)
    (pull_keys r) (vec_dest r) (vec_offset r) (vec_emitted r) (vec_scope_kind r) (push_keys
    r) (push_head r) (push_count r) (push_tokens r) (push_refill_ms r) (pull_last_applied r)
    (pull_asked_entries r) (sstats r) (tx_at r) (digest_at r).
Definition set_pull_peer (v : Z) (r : sync) : sync :=
Sync (cl r) (scope_pinned r) (backstop_peer r) (backstop_countdown r)
    (channel_missing_logged r) (peers r) (pull_state r) (pull_reason r) v (pull_deadline_ms
    r) (pull_keys r) (vec_dest r) (vec_offset r) (vec_emitted r) (vec_scope_kind r)
    (push_keys r) (push_head r) (push_count r) (push_tokens r) (push_refill_ms r)
    (pull_last_applied r) (pull_asked_entries r) (sstats r) (tx_at r) (digest_at r).
Definition set_pull_deadline_ms (v : Z) (r : sync) : sync :=
Sync (cl r) (scope_pinned r) (backstop_peer r) (backstop_countdown r)
    (channel_missing_logged r) (peers r) (pull_state r) (pull_reason r) (pull_peer r) v
    (pull_keys r) (vec_dest r) (vec_offset r) (vec_emitted r) (vec_scope_kind r) (push_keys
    r) (push_head r) (push_count r) (push_tokens r) (push_refill_ms r) (pull_last_applied r)
    (pull_asked_entries r) (sstats r) (tx_at r) (digest_at r).
Definition set_pull_keys (v : list cluster_key) (r : sync) : sync :=
Sync (cl r) (scope_pinned r) (backstop_peer r) (backstop_countdown r)
    (channel_missing_logged r) (peers r) (pull_state r) (pull_reason r) (pull_peer r)
    (pull_deadline_ms r) v (vec_dest r) (vec_offset r) (vec_emitted r) (vec_scope_kind r)
    (push_keys r) (push_head r) (push_count r) (push_tokens r) (push_refill_ms r)
    (pull_last_applied r) (pull_asked_entries r) (sstats r) (tx_at r) (digest_at r).
Definition set_vec_dest (v : Z) (r : sync) : sync :=
Sync (cl r) (scope_pinned r) (backstop_peer r) (backstop_countdown r)
    (channel_missing_logged r) (peers r) (pull_state r) (pull_reason r) (pull_peer r)
    (pull_deadline_ms r) (pull_keys r) v (vec_offset r) (vec_emitted r) (vec_scope_kind r)
    (push_keys r) (push_head r) (push_count r) (push_tokens r) (push_refill_ms r)
    (pull_last_applied r) (pull_asked_entries r) (sstats r) (tx_at r) (digest_at r).
Definition set_vec_offset (v : nat) (r : sync) : sync :=
Sync (cl r) (scope_pinned r) (backstop_peer r) (backstop_countdown r)
    (channel_missing_logged r) (peers r) (pull_state r) (pull_reason r) (pull_peer r)
    (pull_deadline_ms r) (pull_keys r) (vec_dest r) v (vec_emitted r) (vec_scope_kind r)
    (push_keys r) (push_head r) (push_count r) (push_tokens r) (push_refill_ms r)
    (pull_last_applied r) (pull_asked_entries r) (sstats r) (tx_at r) (digest_at r).
Definition set_vec_emitted (v : Z) (r : sync) : sync :=
Sync (cl r) (scope_pinned r) (backstop_peer r) (backstop_countdown r)
    (channel_missing_logged r) (peers r) (pull_state r) (pull_reason r) (pull_peer r)
    (pull_deadline_ms r) (pull_keys r) (vec_dest r) (vec_offset r) v (vec_scope_kind r)
    (push_keys r) (push_head r) (push_count r) (push_tokens r) (push_refill_ms r)
    (pull_last_applied r) (pull_asked_entries r) (sstats r) (tx_at r) (digest_at r).
Definition set_vec_scope_kind (v : scope_kind) (r : sync) : sync :=
Sync (cl r) (scope_pinned r) (backstop_peer r) (backstop_countdown r)
    (channel_missing_logged r) (peers r) (pull_state r) (pull_reason r) (pull_peer r)
    (pull_deadline_ms r) (pull_keys r) (vec_dest r) (vec_offset r) (vec_emitted r) v
    (push_keys r) (push_head r) (push_count r) (push_tokens r) (push_refill_ms r)
    (pull_last_applied r) (pull_asked_entries r) (sstats r) (tx_at r) (digest_at r).
Definition set_push_keys (v : list cluster_key) (r : sync) : sync :=
Sync (cl r) (scope_pinned r) (backstop_peer r) (backstop_countdown r)
    (channel_missing_logged r) (peers r) (pull_state r) (pull_reason r) (pull_peer r)
    (pull_deadline_ms r) (pull_keys r) (vec_dest r) (vec_offset r) (vec_emitted r)
    (vec_scope_kind r) v (push_head r) (push_count r) (push_tokens r) (push_refill_ms r)
    (pull_last_applied r) (pull_asked_entries r) (sstats r) (tx_at r) (digest_at r).
Definition set_push_head (v : nat) (r : sync) : sync :=
Sync (cl r) (scope_pinned r) (backstop_peer r) (backstop_countdown r)
    (channel_missing_logged r) (peers r) (pull_state r) (pull_reason r) (pull_peer r)
    (pull_deadline_ms r) (pull_keys r) (vec_dest r) (vec_offset r) (vec_emitted r)
    (vec_scope_kind r) (push_keys r) v (push_count r) (push_tokens r) (push_refill_ms r)
    (pull_last_applied r) (pull_asked_entries r) (sstats r) (tx_at r) (digest_at r).
Definition set_push_count (v : nat) (r : sync) : sync :=
Sync (cl r) (scope_pinned r) (backstop_peer r) (backstop_countdown r)
    (channel_missing_logged r) (peers r) (pull_state r) (pull_reason r) (pull_peer r)
    (pull_deadline_ms r) (pull_keys r) (vec_dest r) (vec_offset r) (vec_emitted r)
    (vec_scope_kind r) (push_keys r) (push_head r) v (push_tokens r) (push_refill_ms r)
    (pull_last_applied r) (pull_asked_entries r) (sstats r) (tx_at r) (digest_at r).
Definition set_push_tokens (v : Z) (r : sync) : sync :=
Sync (cl r) (scope_pinned r) (backstop_peer r) (backstop_countdown r)
    (channel_missing_logged r) (peers r) (pull_state r) (pull_reason r) (pull_peer r)
    (pull_deadline_ms r) (pull_keys r) (vec_dest r) (vec_offset r) (vec_emitted r)
    (vec_scope_kind r) (push_keys r) (push_head r) (push_count r) v (push_refill_ms r)
    (pull_last_applied r) (pull_asked_entries r) (sstats r) (tx_at r) (digest_at r).
Definition set_push_refill_ms (v : Z) (r : sync) : sync :=
Sync (cl r) (scope_pinned r) (backstop_peer r) (backstop_countdown r)
    (channel_missing_logged r) (peers r) (pull_state r) (pull_reason r) (pull_peer r)
    (pull_deadline_ms r) (pull_keys r) (vec_dest r) (vec_offset r) (vec_emitted r)
    (vec_scope_kind r) (push_keys r) (push_head r) (push_count r) (push_tokens r) v
    (pull_last_applied r) (pull_asked_entries r) (sstats r) (tx_at r) (digest_at r).
Definition set_pull_last_applied (v : Z) (r : sync) : sync :=
Sync (cl r) (scope_pinned r) (backstop_peer r) (backstop_countdown r)
    (channel_missing_logged r) (peers r) (pull_state r) (pull_reason r) (pull_peer r)
    (pull_deadline_ms r) (pull_keys r) (vec_dest r) (vec_offset r) (vec_emitted r)
    (vec_scope_kind r) (push_keys r) (push_head r) (push_count r) (push_tokens r)
    (push_refill_ms r) v (pull_asked_entries r) (sstats r) (tx_at r) (digest_at r).
Definition set_pull_asked_entries (v : bool) (r : sync) : sync :=
Sync (cl r) (scope_pinned r) (backstop_peer r) (backstop_countdown r)
    (channel_missing_logged r) (peers r) (pull_state r) (pull_reason r) (pull_peer r)
    (pull_deadline_ms r) (pull_keys r) (vec_dest r) (vec_offset r) (vec_emitted r)
    (vec_scope_kind r) (push_keys r) (push_head r) (push_count r) (push_tokens r)
    (push_refill_ms r) (pull_last_applied r) v (sstats r) (tx_at r) (digest_at r).
Definition set_sstats (v : (sync_counter -> Z)) (r : sync) : sync :=
Sync (cl r) (scope_pinned r) (backstop_peer r) (backstop_countdown r)
    (channel_missing_logged r) (peers r) (pull_state r) (pull_reason r) (pull_peer r)
    (pull_deadline_ms r) (pull_keys r) (vec_dest r) (vec_offset r) (vec_emitted r)
    (vec_scope_kind r) (push_keys r) (push_head r) (push_count r) (push_tokens r)
    (push_refill_ms r) (pull_last_applied r) (pull_asked_entries r) v (tx_at r) (digest_at
    r).
Definition set_tx_at (v : option Z) (r : sync) : sync :=
Sync (cl r) (scope_pinned r) (backstop_peer r) (backstop_countdown r)
    (channel_missing_logged r) (peers r) (pull_state r) (pull_reason r) (pull_peer r)
    (pull_deadline_ms r) (pull_keys r) (vec_dest r) (vec_offset r) (vec_emitted r)
    (vec_scope_kind r) (push_keys r) (push_head r) (push_count r) (push_tokens r)
    (push_refill_ms r) (pull_last_applied r) (pull_asked_entries r) (sstats r) v (digest_at
    r).
Definition set_digest_at (v : option Z) (r : sync) : sync :=
Sync (cl r) (scope_pinned r) (backstop_peer r) (backstop_countdown r)
    (channel_missing_logged r) (peers r) (pull_state r) (pull_reason r) (pull_peer r)
    (pull_deadline_ms r) (pull_keys r) (vec_dest r) (vec_offset r) (vec_emitted r)
    (vec_scope_kind r) (push_keys r) (push_head r) (push_count r) (push_tokens r)
    (push_refill_ms r) (pull_last_applied r) (pull_asked_entries r) (sstats r) (tx_at r) v.

Definition scount (c : sync_counter) (n : Z) (s : sync) : sync :=
  set_sstats (fun c' => if decide (c' = c) then u32 (sstats s c' + n) else sstats s c') s.
Definition count1 (c : sync_counter) (s : sync) : sync := scount c 1 s.

Inductive cfg_scope := SCOPE_BUILD_AUTO | SCOPE_BUILD_FULL | SCOPE_BUILD_CORE.
#[export] Instance cfg_scope_eq_dec : EqDecision cfg_scope.
Proof. solve_decision. Defined.

Record channel_row := ChannelRow { cr_has_settings : bool; cr_disabled : bool; cr_name : option string }.

Record sync_env := SyncEnv {
  ce : cluster_env;
  channels : list (option channel_row);        (* meshtastic_channels_get, _get_name *)
  cfg_channel_name : string;                   (* CONFIG_MESHTASTIC_CLUSTER_CHANNEL_NAME *)
  rand32 : Z;                                  (* sys_rand32_get *)
  crc32 : Z -> list Z -> Z;                    (* crc32_ieee_update *)
  send_ok : bool;                              (* meshtastic_send_packet returned 0 *)
  sign_bytes : list Z -> option (list Z);      (* meshtastic_pki_sign_bytes *)
  is_managed : bool;                           (* meshtastic_admin_is_managed *)
  cfg_sign : bool;                             (* CONFIG_MESHTASTIC_CLUSTER_SIGN *)
  cfg_build_scope : cfg_scope;
  cfg_push_min_interval_ms : Z;
  cfg_tx_gap_ms : Z;
  cfg_digest_period_sec : Z;
  cfg_backstop_periods : Z;
  cfg_sync_timeout_sec : Z;
  cfg_pull_delay_ms : Z;
  cfg_peers : nat;
}.

Definition me (env : sync_env) : Z := node_id (ce env).
Definition now_ms (env : sync_env) : Z := uptime_ms (ce env).

Inductive sync_out :=
  | OSend (to channel : Z) (m : cluster_message)   (* meshtastic_send_packet *)
  | OPersist (e : cluster_entry)                   (* persist_entry *)
  | OForget (k : cluster_key)                      (* forget_entry *)
  | OPersistScope (kind : scope_kind)
  | OForgetScope
  | OForgetSubtree
  | OReconcile.                                    (* k_work_submit(&reconcile_work) *)

(** A step on the ingest state alone, and what its effects do here. *)
Definition on_cl (f : cluster -> cluster) (s : sync) : sync := set_cl (f (cl s)) s.
Definition run_effect (env : sync_env) (acc : sync * list sync_out) (e : effect) : sync * list sync_out :=
  let '(s, out) := acc in
  match e with
  | Persist x => (s, out ++ [OPersist x])
  | SubmitReconcile => (s, out ++ [OReconcile])
  | KickTx => (set_tx_at (Some (now_ms env)) s, out)
  end.
Definition with_cl (env : sync_env) (r : cluster * list effect) (s : sync) : sync * list sync_out :=
  foldl (run_effect env) (set_cl r.1 s, []) r.2.

(** ** The channel *)
Definition cluster_channel_index (env : sync_env) : option Z :=
  Z.of_nat <$> find_index (fun c =>
    match c with
    | Some r => cr_has_settings r && negb (cr_disabled r) &&
                bool_decide (cr_name r = Some (cfg_channel_name env))
    | None => false
    end) (channels env).

Definition meshtastic_cluster_channel_resolved (env : sync_env) : option Z := cluster_channel_index env.

(** [port], [pki] and [channel_index] are those of the packet; NULL is [None]. *)
Definition meshtastic_cluster_is_internal_frame (env : sync_env) (pkt : option (Z * bool * Z)) : bool :=
  match pkt with
  | Some (port, pki, channel_index) =>
      (port =? 256) && negb pki &&
      match cluster_channel_index env with Some i => channel_index =? i | None => false end
  | None => false
  end.

(** ** Scopes *)
Definition scope_from_pb (p : pb_scope) (from : Z) : cluster_scope * bool :=
  match p with
  | SCOPE_PB_CORE => (meshtastic_cluster_scope_make SCOPE_CORE from, true)
  | SCOPE_PB_FULL => (meshtastic_cluster_scope_make SCOPE_FULL 0, true)
  | SCOPE_PB_UNSPECIFIED => (meshtastic_cluster_scope_make SCOPE_FULL 0, false)
  end.

Definition scope_to_pb (sc : cluster_scope) : pb_scope :=
  if bool_decide (sc_kind sc = SCOPE_CORE) then SCOPE_PB_CORE else SCOPE_PB_FULL.

Definition scope_eq (a b : cluster_scope) : bool :=
  bool_decide (sc_kind a = sc_kind b) && (sc_owner a =? sc_owner b).

Definition base_scope : cluster_scope := meshtastic_cluster_scope_make SCOPE_BASE 0.

Definition my_scope (env : sync_env) (s : sync) : cluster_scope * sync :=
  let '(sc, c) := my_scope_locked (ce env) (cl s) in (sc, set_cl c s).

Definition pull_reset_locked (s : sync) : sync :=
  set_pull_deadline_ms 0 (set_pull_keys [] (set_pull_peer 0 (set_pull_state PULL_IDLE s))).

(** ** Push on change *)
Definition may_push_locked (env : sync_env) (s : sync) : bool * sync :=
  let interval := cfg_push_min_interval_ms env in
  if interval =? 0 then (true, s)
  else
    let elapsed := now_ms env - push_refill_ms s in
    let s :=
      if interval <=? elapsed then
        let gained := u32 (elapsed / interval) in
        set_push_refill_ms (push_refill_ms s + gained * interval)
          (set_push_tokens (u8 (Z.min (u32 (push_tokens s + gained)) CLUSTER_PUSH_BURST)) s)
      else s in
    (0 <? push_tokens s, s).

Definition push_slot (i : nat) (s : sync) : nat := ((push_head s + i) mod CLUSTER_PUSH_QUEUE)%nat.
Definition push_queued (key : cluster_key) (s : sync) : bool :=
  existsb (fun i => match push_keys s !! push_slot i s with
                    | Some k => meshtastic_cluster_key_cmp k key =? 0
                    | None => false
                    end) (seq 0 (push_count s)).

Definition push_enqueue_locked (env : sync_env) (key : cluster_key) (s : sync) : sync :=
  if push_queued key s then count1 N_PUSH_SUPPRESSED s
  else
    let '(ok, s1) := if (CLUSTER_PUSH_QUEUE <=? push_count s)%nat then (false, s) else may_push_locked env s in
    if negb ok then count1 N_PUSH_SUPPRESSED s1
    else
      let s2 := if 0 <? push_tokens s1 then set_push_tokens (push_tokens s1 - 1) s1 else s1 in
      set_push_count (S (push_count s2))
        (set_push_keys (<[push_slot (push_count s2) s2 := key]> (push_keys s2)) s2).

Definition push_advance_locked (s : sync) : sync :=
  set_push_count (push_count s - 1)
    (set_push_head ((push_head s + 1) mod CLUSTER_PUSH_QUEUE)%nat (on_cl (set_push_frag_off 0) s)).

(** ** Choosing a frame *)

(** The rows of one chunk: from the table at [vec_offset], those the requester claims. *)
Fixpoint vector_fill (want : cluster_scope) (rest : list cluster_entry) (rows : list (option pb_key * option hlc_stamp))
    (offset : nat) (emitted : Z) : list (option pb_key * option hlc_stamp) * nat * Z :=
  match rest with
  | [] => (rows, offset, emitted)
  | e :: rest' =>
      if (length rows <? CLUSTER_VECTOR_ROWS)%nat then
        if meshtastic_cluster_scope_contains want (e_key e)
        then vector_fill want rest' (rows ++ [(Some (key_to_pb (e_key e)), Some (e_stamp e))]) (S offset) (u16 (emitted + 1))
        else vector_fill want rest' rows (S offset) emitted
      else (rows, offset, emitted)
  end.

Definition tx_vector_locked (s : sync) : pb_vector * sync :=
  let want := meshtastic_cluster_scope_make (vec_scope_kind s) (vec_dest s) in
  let d := doc (cl s) in
  let '(rows, offset, emitted) :=
    vector_fill want (drop (vec_offset s) (entries d)) [] (vec_offset s) (vec_emitted s) in
  let s1 := set_vec_emitted emitted (set_vec_offset offset s) in
  let s2 := if (length (entries d) <=? offset)%nat then set_vec_dest 0 s1 else s1 in
  (PbVector (vec_emitted s) (meshtastic_cluster_doc_count_scoped want d) rows, count1 N_VECTOR_TX s2).

(** The loop over the push queue takes one key off it in each turn but the last. *)
Fixpoint tx_push_loop (fuel : nat) (s : sync) : option (Z * cluster_message) * sync :=
  match fuel with
  | O => (None, s)
  | S fuel =>
      if (0 <? push_count s)%nat then
        match push_keys s !! push_head s ≫= (fun key => meshtastic_cluster_doc_find key (doc (cl s))) with
        | None => tx_push_loop fuel (push_advance_locked s)
        | Some e =>
            let '(msg, off, next) := entry_to_pb_frag e (push_frag_off (cl s)) in
            let s := on_cl (set_push_frag_off off) s in
            let s := if Z.of_nat (length (e_payload e)) <=? next
                     then push_advance_locked s else on_cl (set_push_frag_off next) s in
            (Some (MESHTASTIC_NODE_BROADCAST, MsgEntry msg), count1 N_PUSH_TX s)
        end
      else (None, s)
  end.

(** The destination and the message, if there is anything to send. *)
Definition tx_next_locked (env : sync_env) (s : sync) : option (Z * cluster_message) * sync :=
  let '(ent, c) := tx_entry_locked (cl s) in
  let s := set_cl c s in
  match ent with
  | Some (dest, e) => (Some (dest, MsgEntry e), s)
  | None =>
      if negb (vec_dest s =? 0) then
        let '(v, s') := tx_vector_locked s in (Some (vec_dest s, MsgVector v), s')
      else
        match pull_state s with
        | PULL_SEND_ENTRY_REQ =>
            (Some (pull_peer s, MsgEntryReq (key_to_pb <$> pull_keys s)),
             pull_reset_locked (set_pull_last_applied (stats (cl s) ENTRY_RX_APPLIED)
               (set_pull_asked_entries true s)))
        | PULL_SEND_VECTOR_REQ =>
            let '(mine, s) := my_scope env s in
            (Some (pull_peer s, MsgVectorReq (scope_to_pb mine)), set_pull_state PULL_AWAIT_VECTOR s)
        | _ => tx_push_loop (S (push_count s)) s
        end
  end.

(** ** The transmit work item *)
Definition tx_work_fn (env : sync_env) (s : sync) : sync * list sync_out :=
  let s := set_tx_at None s in
  let now := now_ms env in
  match cluster_channel_index env with
  | None =>
      (on_cl (fun c => frag_reset_locked (set_ent_dest 0 c)) (set_vec_dest 0 (pull_reset_locked s)), [])
  | Some ch =>
      let s := if bool_decide (pull_state s = PULL_AWAIT_VECTOR) && (pull_deadline_ms s <? now)
               then pull_reset_locked (count1 N_PULL_TIMED_OUT s) else s in
      let '(frame, s) := tx_next_locked env s in
      match frame with
      | Some (dest, m) =>
          (set_tx_at (Some (now + cfg_tx_gap_ms env)) s, [OSend dest ch m])
      | None =>
          if bool_decide (pull_state s = PULL_AWAIT_VECTOR)
          then (set_tx_at (Some (now + Z.max 100 (Z.min (pull_deadline_ms s - now) 1000))) s, [])
          else (s, [])
      end
  end.

(** ** The declared scope *)
Definition scope_set_locked (env : sync_env) (kind : scope_kind) (pinned : bool) (s : sync)
    : sync * list sync_out :=
  let s := on_cl (set_scope_kind_of kind) (set_scope_pinned pinned s) in
  let '(sc, s) := my_scope env s in
  let '(d, dropped) := meshtastic_cluster_doc_retain sc (doc (cl s)) in
  let s := scount N_ENTRIES_EVICTED (Z.of_nat (length dropped)) (on_cl (set_doc d) s) in
  (if (0 <? length dropped)%nat
   then on_cl (fun c => frag_reset_locked (set_ent_next 0%nat (set_ent_keys [] (set_ent_dest 0 c))))
          (set_vec_dest 0 (pull_reset_locked s))
   else s,
   OForget <$> dropped).

Definition demote_locked (env : sync_env) (s : sync) : sync * list sync_out :=
  if scope_pinned s || bool_decide (scope_kind_of (cl s) = SCOPE_CORE) then (s, [])
  else
    let '(s, out) := scope_set_locked env SCOPE_CORE false s in
    (set_digest_at (Some (now_ms env)) (count1 N_SCOPE_DEMOTIONS s), out ++ [OPersistScope SCOPE_CORE]).

(** ** Opening a walk *)
Definition digest_period_ms (env : sync_env) : Z :=
  let base := u32 (cfg_digest_period_sec env * 1000) in
  let jitter := base / 8 in
  u32 (base - jitter / 2 + rand32 env `mod` (jitter + 1)).

Definition fruitless_inc (s : sync) : sync :=
  count1 N_PULL_FRUITLESS
    (if pull_fruitless (cl s) <? UINT8_MAX then on_cl (fun c => set_pull_fruitless (pull_fruitless c + 1) c) s else s).

(** The verdict on the last walk, once entries have had time to arrive. *)
Definition judge_last_walk (s : sync) : sync :=
  if pull_asked_entries s then
    let s := set_pull_asked_entries false s in
    if stats (cl s) ENTRY_RX_APPLIED =? pull_last_applied s then fruitless_inc s
    else on_cl (set_pull_fruitless 0) s
  else s.

Definition pull_start_locked (env : sync_env) (peer delay_ms : Z) (reason : cluster_pull_reason) (s : sync)
    : bool * sync :=
  let now := now_ms env in
  if negb (bool_decide (pull_state s = PULL_IDLE)) || (peer =? 0) || (peer =? me env) then (false, s)
  else
    let s := judge_last_walk s in
    let backoff := negb (bool_decide (reason = PULL_REASON_BACKSTOP)) &&
                   (CLUSTER_FRUITLESS_THRESHOLD <=? pull_fruitless (cl s)) in
    if backoff && (now <? pull_hold_until_ms (cl s)) then (false, count1 N_PULL_HELD s)
    else
      let shift := Z.min (pull_fruitless (cl s) - CLUSTER_FRUITLESS_THRESHOLD) CLUSTER_FRUITLESS_MAX_SHIFT in
      let s := if backoff
               then on_cl (set_pull_hold_until_ms (now + cfg_digest_period_sec env * 1000 * 2 ^ shift)) s
               else s in
      (true,
       count1 N_PULL_STARTED
         (set_pull_deadline_ms (now + delay_ms + cfg_sync_timeout_sec env * 1000)
           (set_pull_keys [] (set_pull_peer peer (set_pull_reason reason
             (set_pull_state PULL_SEND_VECTOR_REQ s)))))).

(** ** Digests *)
Definition backstop_tick (env : sync_env) (s : sync) : sync :=
  if cfg_backstop_periods env =? 0 then s
  else if negb (bool_decide (scope_kind_of (cl s) = SCOPE_CORE)) then set_backstop_countdown 0 s
  else if 0 <? backstop_countdown s then set_backstop_countdown (backstop_countdown s - 1) s
  else
    let s := set_backstop_countdown (u16 (cfg_backstop_periods env)) s in
    if backstop_peer s =? 0 then s
    else
      let '(fire, s) := pull_start_locked env (backstop_peer s) 0 PULL_REASON_BACKSTOP s in
      if fire then set_tx_at (Some (now_ms env)) (count1 N_BACKSTOP_WALKS s) else s.

(** What this node says of its document. *)
Definition my_digest (env : sync_env) (mine : cluster_scope) (d : cluster_doc) : pb_digest :=
  PbDigest (meshtastic_cluster_doc_hash_scoped (crc32 env) mine d)
    (meshtastic_cluster_doc_count_scoped mine d) (meshtastic_cluster_doc_max_stamp_scoped mine d)
    (scope_to_pb mine) (meshtastic_cluster_doc_hash_scoped (crc32 env) base_scope d)
    (meshtastic_cluster_doc_count_scoped base_scope d).

Definition digest_work_fn (env : sync_env) (s : sync) : sync * list sync_out :=
  let s := set_digest_at None s in
  let next := Some (now_ms env + digest_period_ms env) in
  match cluster_channel_index env with
  | None => (set_digest_at next (set_channel_missing_logged true s), [])
  | Some ch =>
      let s := set_channel_missing_logged false s in
      let '(mine, s) := my_scope env s in
      let dg := my_digest env mine (doc (cl s)) in
      let s := if send_ok env then count1 N_DIGEST_TX s else s in
      (set_digest_at next (backstop_tick env s), [OSend MESHTASTIC_NODE_BROADCAST ch (MsgDigest dg)])
  end.

(** Comparable: whether they match, and the peer's hash of what was compared. *)
Definition digest_compare_locked (env : sync_env) (from : Z) (d : pb_digest) (s : sync)
    : option (bool * Z) * sync :=
  let '(peer, has_base_leg) := scope_from_pb (dg_scope d) from in
  let '(mine, s) := my_scope env s in
  let inter := meshtastic_cluster_scope_intersect mine peer in
  let s := if bool_decide (sc_kind peer = SCOPE_FULL) && negb (from =? me env)
           then set_backstop_peer from s else s in
  let doc := doc (cl s) in
  if scope_eq inter peer then
    (Some ((meshtastic_cluster_doc_hash_scoped (crc32 env) peer doc =? dg_doc_hash d) &&
           (meshtastic_cluster_doc_count_scoped peer doc =? dg_entry_count d) &&
           (meshtastic_hlc_compare (meshtastic_cluster_doc_max_stamp_scoped peer doc) (dg_max_stamp d) =? 0),
           dg_doc_hash d), s)
  else if negb has_base_leg then (None, s)
  else
    (Some ((meshtastic_cluster_doc_hash_scoped (crc32 env) base_scope doc =? dg_base_hash d) &&
           (meshtastic_cluster_doc_count_scoped base_scope doc =? dg_base_count d),
           dg_base_hash d), s).

(** ** The fleet view *)
Definition CLUSTER_FLEET_WINDOW_SEC (env : sync_env) : Z := Z.min (u32 (3 * cfg_digest_period_sec env)) 3600.
Definition cluster_now_sec (env : sync_env) : Z := u32 (now_ms env / 1000).

(** The last of the least recently heard. *)
Fixpoint peer_oldest (l : list cluster_peer) (i : nat) (oldest : Z) (slot : option nat) : option nat :=
  match l with
  | [] => slot
  | p :: l' => if pr_heard_uptime_sec p <=? oldest then peer_oldest l' (S i) (pr_heard_uptime_sec p) (Some i)
               else peer_oldest l' (S i) oldest slot
  end.

Definition peer_note_locked (env : sync_env) (from : Z) (d : pb_digest) (comparable agreed : bool) (their_hash : Z)
    (s : sync) : sync :=
  if (from =? 0) || (from =? me env) then s
  else
    let row := ClusterPeer from (cluster_now_sec env) their_hash (u16 (dg_entry_count d)) (dg_scope d) agreed comparable in
    match find_index (fun p => pr_node_id p =? from) (peers s) with
    | Some i => set_peers (<[i := row]> (peers s)) s
    | None =>
        if (length (peers s) <? cfg_peers env)%nat then set_peers (peers s ++ [row]) s
        else match peer_oldest (peers s) 0 UINT32_MAX None with
             | Some i => set_peers (<[i := row]> (peers s)) s
             | None => s
             end
    end.

Definition peer_age (now : Z) (p : cluster_peer) : Z :=
  if pr_heard_uptime_sec p <? now then now - pr_heard_uptime_sec p else 0.

Definition fleet_tally (window now : Z) (f : cluster_fleet) (p : cluster_peer) : cluster_fleet :=
  let '(ClusterFleet k a d i st w) := f in
  if window <? peer_age now p then ClusterFleet k a d i (u16 (st + 1)) w
  else if negb (pr_comparable p) then ClusterFleet k a d (u16 (i + 1)) st w
  else if pr_agreed p then ClusterFleet k (u16 (a + 1)) d i st w
  else ClusterFleet k a (u16 (d + 1)) i st w.

Definition meshtastic_cluster_fleet_converged (env : sync_env) (s : sync) : bool * cluster_fleet :=
  let w := CLUSTER_FLEET_WINDOW_SEC env in
  let f := foldl (fleet_tally w (cluster_now_sec env))
             (ClusterFleet (u16 (Z.of_nat (length (peers s)))) 0 0 0 0 w) (peers s) in
  ((0 <? fl_known f) && (fl_agreed f =? fl_known f), f).

Definition meshtastic_cluster_peer_get (idx : nat) (s : sync) : option cluster_peer := peers s !! idx.
Definition meshtastic_cluster_peer_count (s : sync) : Z := u16 (Z.of_nat (length (peers s))).

(** ** Receiving *)
Definition kick_if_idle (at_ms : Z) (s : sync) : sync :=
  match tx_at s with Some _ => s | None => set_tx_at (Some at_ms) s end.

Definition on_digest (env : sync_env) (from : Z) (d : pb_digest) (s : sync) : sync :=
  let s := on_cl (fun c => set_clock (hlc_observe (clock c) (dg_max_stamp d) (epoch_ms (ce env))).1 c) s in
  let '(verdict, s) := digest_compare_locked env from d s in
  let comparable := match verdict with Some _ => true | None => false end in
  let agreed := match verdict with Some (m, _) => m | None => false end in
  let their_hash := match verdict with Some (_, h) => h | None => 0 end in
  let s := peer_note_locked env from d comparable agreed their_hash s in
  match verdict with
  | None => count1 N_DIGEST_RX_INCOMPARABLE s
  | Some (true, _) => count1 N_DIGEST_RX_MATCH s
  | Some (false, _) =>
      let s := count1 N_DIGEST_RX_MISMATCH s in
      let delay := rand32 env `mod` (cfg_pull_delay_ms env + 1) in
      let '(pulling, s) := pull_start_locked env from delay PULL_REASON_DIGEST s in
      if pulling then kick_if_idle (now_ms env + delay) s else s
  end.

Definition on_vector_req (env : sync_env) (from : Z) (scope : pb_scope) (s : sync) : sync :=
  if negb (vec_dest s =? 0) then count1 N_TX_BUSY s
  else
    let '(serve, c) := may_serve_locked (ce env) (cl s) in
    let s := set_cl c s in
    if negb serve then s
    else
      let '(req, _) := scope_from_pb scope from in
      set_tx_at (Some (now_ms env))
        (on_cl serve_started_locked
          (set_vec_emitted 0 (set_vec_offset 0%nat (set_vec_dest from (set_vec_scope_kind (sc_kind req) s))))).

(** One row: whether the key is wanted and cannot be held. *)
Definition vector_row (env : sync_env) (mine : cluster_scope) (row : option pb_key * option hlc_stamp) (s : sync)
    : sync * bool :=
  match row with
  | (Some pk, Some stamp) =>
      let key := key_from_pb pk in
      if negb (section_shareable (k_section key)) || negb (stamp_within_horizon (ce env) stamp) then (s, false)
      else
        let s := on_cl (fun c => set_clock (hlc_observe (clock c) stamp (epoch_ms (ce env))).1 c) s in
        match meshtastic_cluster_doc_want mine key stamp (doc (cl s)) with
        | WANT_YES => (set_pull_keys (pull_keys s ++ [key]) s, false)
        | WANT_NO_SPACE => (count1 N_WANT_NO_SPACE s, true)
        | WANT_NO => (s, false)
        end
  | _ => (s, false)
  end.

Fixpoint vector_rows (env : sync_env) (mine : cluster_scope) (rows : list (option pb_key * option hlc_stamp))
    (s : sync) (no_space : bool) : sync * bool :=
  match rows with
  | [] => (s, no_space)
  | row :: rows' =>
      if (length (pull_keys s) <? CLUSTER_PULL_KEYS)%nat then
        let '(s, full) := vector_row env mine row s in vector_rows env mine rows' s (no_space || full)
      else (s, no_space)
  end.

Definition on_vector (env : sync_env) (from : Z) (v : pb_vector) (s : sync) : sync * list sync_out :=
  let '(mine, s) := my_scope env s in
  if negb (bool_decide (pull_state s = PULL_AWAIT_VECTOR)) || negb (from =? pull_peer s) then
    (if negb (from =? pull_peer s) then count1 N_RX_UNSOLICITED s else s, [])
  else
    let s := count1 N_VECTOR_RX s in
    let '(s, no_space) := vector_rows env mine (vc_rows v) s false in
    if no_space then
      let '(s, out) := demote_locked env s in (pull_reset_locked (set_pull_keys [] s), out)
    else
      let last := (vc_total v =? 0) || (vc_total v <=? u32 (vc_offset v + Z.of_nat (length (vc_rows v)))) in
      if (CLUSTER_PULL_KEYS <=? length (pull_keys s))%nat || last then
        if (0 <? length (pull_keys s))%nat
        then (set_tx_at (Some (now_ms env)) (set_pull_state PULL_SEND_ENTRY_REQ s), [])
        else
          let s := count1 N_PULL_EMPTY s in
          let s := if bool_decide (pull_reason s = PULL_REASON_DIGEST) then fruitless_inc s else s in
          (pull_reset_locked s, [])
      else (s, []).

(** [m] is the decoded payload, [None] when it does not decode. *)
Definition cluster_on_packet (env : sync_env) (from channel_index : Z) (pki_encrypted : bool)
    (m : option cluster_message) (s : sync) : sync * list sync_out :=
  let gate := match cluster_channel_index env with
              | Some ch => pki_encrypted || (channel_index =? ch)
              | None => false
              end in
  if negb gate then (count1 N_RX_WRONG_CHANNEL s, [])
  else match m with
       | None => (count1 N_RX_UNDECODABLE s, [])
       | Some (MsgDigest d) => (on_digest env from d s, [])
       | Some (MsgVectorReq sc) => (on_vector_req env from sc s, [])
       | Some (MsgVector v) => on_vector env from v s
       | Some (MsgEntryReq ks) => with_cl env (on_entry_req (ce env) from ks (cl s)) s
       | Some (MsgEntry e) => with_cl env (on_entry (ce env) from e (cl s)) s
       | Some MsgOther => (count1 N_RX_NOT_IMPLEMENTED s, [])
       end.

(** ** Local writes *)
Definition push_kick (env : sync_env) (s : sync) : sync := kick_if_idle (now_ms env) s.

Definition sign_entry_locked (env : sync_env) (key : cluster_key) (stamp : hlc_stamp) (tombstone : bool)
    (payload : list Z) (s : sync) : option (list Z) * sync :=
  match meshtastic_cluster_signing_buffer MESHTASTIC_CLUSTER_SIGBUF_MAX key stamp tombstone (Some payload)
          (Z.of_nat (length payload)) ≫= sign_bytes env with
  | Some sig => (Some sig, count1 N_SIG_SIGNED s)
  | None => (None, count1 N_SIG_SIGN_FAILED s)
  end.

(** The merge; a write that does not fit narrows the claim and is tried once more. *)
Definition accept_or_narrow (env : sync_env) (key : cluster_key) (stamp : hlc_stamp) (tombstone : bool)
    (payload : list Z) (sig : option (list Z)) (s : sync) : sync * list sync_out * cluster_doc * res Z :=
  let accept s := meshtastic_cluster_doc_accept_signed key stamp tombstone payload sig (doc (cl s)) in
  match accept s with
  | (_, Fail ENOSPC) =>
      let '(s, out) := demote_locked env s in
      let '(d, ret) := accept s in (s, out, d, ret)
  | (d, ret) => (s, [], d, ret)
  end.

(** The result and the stamp it minted. *)
Definition doc_write_local (env : sync_env) (key : cluster_key) (store_stamp : hlc_stamp) (tombstone : bool)
    (payload : list Z) (s : sync) : sync * list sync_out * cret * hlc_stamp :=
  let c := clock (cl s) in
  let c := (hlc_observe c store_stamp (epoch_ms (ce env))).1 in
  let '(c, minted) := hlc_local c (me env) (epoch_ms (ce env)) in
  let s := on_cl (set_clock c) s in
  let '(sig, s) := if cfg_sign env then sign_entry_locked env key minted tombstone payload s else (None, s) in
  let '(s, out, d, ret) := accept_or_narrow env key minted tombstone payload sig s in
  let s := on_cl (set_doc d) s in
  match ret with
  | Val 1 =>
      let s := push_enqueue_locked env key s in
      (push_kick env s,
       out ++ match meshtastic_cluster_doc_find key d with Some e => [OPersist e] | None => [] end ++ [OReconcile],
       OK, minted)
  | Val _ => (s, out, ERR EINVAL, minted)
  | Fail e => (s, out, ERR e, minted)
  end.

Definition meshtastic_cluster_publish (env : sync_env) (section layer node : Z) (payload : list Z) (s : sync)
    : sync * list sync_out * cret :=
  let key := ClusterKey layer (if layer =? LAYER_BASE then 0 else node) section in
  let tombstone := (length payload =? 0)%nat in
  if negb (meshtastic_cluster_section_is_private section) || negb (section_shareable section) ||
     (cfg_admin (ce env) && is_managed env) then (s, [], ERR EPERM)
  else if MESHTASTIC_CLUSTER_PAYLOAD_MAX <? Z.of_nat (length payload) then (s, [], ERR EMSGSIZE)
  else if negb (payload_is_its_section (ce env) section payload tombstone) then (s, [], ERR EINVAL)
  else let '(s, out, ret, _) := doc_write_local env key unset_stamp tombstone payload s in (s, out, ret).

(** ** Control *)
Definition meshtastic_cluster_pull (env : sync_env) (node : Z) (s : sync) : sync * cret :=
  if (node =? 0) || (node =? me env) then (s, ERR EINVAL)
  else match cluster_channel_index env with
       | None => (s, ERR ENOTCONN)
       | Some _ =>
           let '(started, s) := pull_start_locked env node 0 PULL_REASON_SHELL s in
           if started then (set_tx_at (Some (now_ms env)) s, OK) else (s, ERR EBUSY)
       end.

Inductive scope_choice := CHOICE_AUTO | CHOICE_FULL | CHOICE_CORE | CHOICE_OTHER.

Definition meshtastic_cluster_scope_select (env : sync_env) (choice : scope_choice) (s : sync)
    : sync * list sync_out * cret :=
  let select kind pinned persist :=
    if bool_decide (scope_kind_of (cl s) = kind) && Bool.eqb (scope_pinned s) pinned then (s, [], ERR EALREADY)
    else
      let '(s, out) := scope_set_locked env kind pinned s in
      (set_digest_at (Some (now_ms env)) s, out ++ [persist], OK) in
  match choice with
  | CHOICE_AUTO => select SCOPE_FULL false OForgetScope
  | CHOICE_FULL => select SCOPE_FULL true (OPersistScope SCOPE_FULL)
  | CHOICE_CORE => select SCOPE_CORE true (OPersistScope SCOPE_CORE)
  | CHOICE_OTHER => (s, [], ERR EINVAL)
  end.

(** The claim this build starts with. *)
Definition compiled_scope (env : sync_env) : scope_kind * bool :=
  match cfg_build_scope env with
  | SCOPE_BUILD_CORE => (SCOPE_CORE, true)
  | SCOPE_BUILD_FULL => (SCOPE_FULL, true)
  | SCOPE_BUILD_AUTO => (SCOPE_FULL, false)
  end.

Definition meshtastic_cluster_reset (env : sync_env) (s : sync) : sync * list sync_out * Z :=
  let '(d, dropped) := meshtastic_cluster_doc_clear (doc (cl s)) in
  let '(kind, pinned) := compiled_scope env in
  let zero c s := set_sstats (fun c' => if decide (c' = c) then 0 else sstats s c') s in
  let s := on_cl (fun c => set_scope_kind_of kind (set_doc d c)) (set_scope_pinned pinned s) in
  let s := zero N_ENTRIES_EVICTED (zero N_SCOPE_DEMOTIONS s) in
  let s := pull_reset_locked (set_peers [] s) in
  let s := set_push_head 0%nat (set_push_count 0%nat (set_vec_dest 0 s)) in
  (on_cl (fun c => frag_reset_locked (set_ent_next 0%nat (set_ent_keys [] (set_ent_dest 0 c)))) s,
   (OForget <$> dropped) ++ [OForgetSubtree; OForgetScope], Z.of_nat (length dropped)).

Definition meshtastic_cluster_digest_now (env : sync_env) (s : sync) : sync :=
  set_digest_at (Some (now_ms env)) s.

Definition meshtastic_cluster_entry_count (s : sync) : Z := Z.of_nat (length (entries (doc (cl s)))).
Definition meshtastic_cluster_doc_hash_now (env : sync_env) (s : sync) : Z :=
  meshtastic_cluster_doc_hash (crc32 env) (doc (cl s)).
Definition meshtastic_cluster_entry_get (idx : nat) (s : sync) : option cluster_entry := entries (doc (cl s)) !! idx.
Definition meshtastic_cluster_effective_copy (node section : Z) (s : sync) : option cluster_entry :=
  meshtastic_cluster_doc_effective node section (doc (cl s)).
Definition meshtastic_cluster_scope_name (s : sync) : string * bool :=
  (if bool_decide (scope_kind_of (cl s) = SCOPE_CORE) then "CORE"%string else "FULL"%string, scope_pinned s).
Definition meshtastic_cluster_sync_state (s : sync) : string * Z :=
  (match pull_state s with
   | PULL_IDLE => "idle"
   | PULL_SEND_VECTOR_REQ => "sending vector request"
   | PULL_AWAIT_VECTOR => "awaiting vector"
   | PULL_SEND_ENTRY_REQ => "sending entry request"
   end%string, pull_peer s).

(** The zeroed static state, with room for [cap] entries. *)
Definition cluster_zero (cap : nat) : cluster :=
  Cluster (meshtastic_cluster_doc_init cap) SCOPE_BASE false (Hlc 0 0) (fun _ => 0) 0 [] 0 0 0
    (AsmSlot false 0 (ClusterKey 0 0 0) unset_stamp false 0 0 0 (replicate (Z.to_nat MESHTASTIC_CLUSTER_PAYLOAD_MAX) 0))
    0 0 0 0 0 0.
Definition sync_zero (cap : nat) : sync :=
  Sync (cluster_zero cap) false 0 0 false [] PULL_IDLE PULL_REASON_DIGEST 0 0 [] 0 0 0 SCOPE_BASE
    (replicate CLUSTER_PUSH_QUEUE (ClusterKey 0 0 0)) 0 0 0 0 0 false (fun _ => 0) None None.

(** [load] is what the settings subsystem reads back through the handler. *)
Definition meshtastic_cluster_init (env : sync_env) (cap : nat) (load : sync -> sync) : sync * list sync_out :=
  let '(kind, pinned) := compiled_scope env in
  let s := on_cl (set_scope_kind_of kind) (set_scope_pinned pinned (sync_zero cap)) in
  let s := load s in
  let now := now_ms env in
  let s := on_cl (fun c => set_serve_refill_ms now (set_serve_tokens CLUSTER_SERVE_BURST c)) s in
  let s := set_push_refill_ms now (set_push_tokens CLUSTER_PUSH_BURST s) in
  (set_digest_at (Some (now + digest_period_ms env)) s,
   if (0 <? length (entries (doc (cl s))))%nat then [OReconcile] else []).

(** ** Runs *)

(** Everything that can happen to the module. The work items run when they are due. *)
Inductive sync_event :=
  | EvTxWork (env : sync_env)
  | EvDigestWork (env : sync_env)
  | EvPacket (env : sync_env) (from channel_index : Z) (pki : bool) (m : option cluster_message)
  | EvWrite (env : sync_env) (key : cluster_key) (store_stamp : hlc_stamp) (tombstone : bool) (payload : list Z)
  | EvPull (env : sync_env) (node : Z)
  | EvScope (env : sync_env) (choice : scope_choice)
  | EvReset (env : sync_env)
  | EvDigestNow (env : sync_env).

Definition due (at_ms : option Z) (now : Z) : bool :=
  match at_ms with Some t => t <=? now | None => false end.

Definition sync_step (ev : sync_event) (s : sync) : sync * list sync_out :=
  match ev with
  | EvTxWork env => if due (tx_at s) (now_ms env) then tx_work_fn env s else (s, [])
  | EvDigestWork env => if due (digest_at s) (now_ms env) then digest_work_fn env s else (s, [])
  | EvPacket env from ch pki m => cluster_on_packet env from ch pki m s
  | EvWrite env key st tomb payload => let '(s, out, _, _) := doc_write_local env key st tomb payload s in (s, out)
  | EvPull env node => ((meshtastic_cluster_pull env node s).1, [])
  | EvScope env choice => (meshtastic_cluster_scope_select env choice s).1
  | EvReset env => (meshtastic_cluster_reset env s).1
  | EvDigestNow env => (meshtastic_cluster_digest_now env s, [])
  end.

Definition sync_run (evs : list sync_event) (s : sync) : sync := foldl (fun s ev => (sync_step ev s).1) s evs.

(** ** The worker is scheduled while anything is owed *)

Definition owes (s : sync) : Prop := pull_state s <> PULL_IDLE \/ vec_dest s <> 0 \/ ent_dest (cl s) <> 0.
Definition scheduled (s : sync) : Prop := owes s -> is_Some (tx_at s).

(** Operations that neither take on work nor stop the worker. *)
Definition no_new_work (s s' : sync) : Prop :=
  (owes s' -> owes s) /\ (is_Some (tx_at s) -> is_Some (tx_at s')).

#[export] Instance no_new_work_preorder : PreOrder no_new_work.
Proof. split; [done|]. intros a b c [H1 H2] [H3 H4]. split; auto. Qed.

Lemma no_new_work_scheduled s s' : no_new_work s s' -> scheduled s -> scheduled s'.
Proof. intros [H1 H2] Hs Ho. auto. Qed.

(** The fields that matter here are untouched. *)
Definition same_work (s s' : sync) : Prop :=
  pull_state s' = pull_state s /\ vec_dest s' = vec_dest s /\ ent_dest (cl s') = ent_dest (cl s) /\ tx_at s' = tx_at s.
Lemma same_work_new s s' : same_work s s' -> no_new_work s s'.
Proof. intros (H1 & H2 & H3 & H4). unfold no_new_work, owes. by rewrite H1, H2, H3, H4. Qed.
#[export] Instance same_work_preorder : PreOrder same_work.
Proof. split; [done|]. intros a b c (?&?&?&?) (?&?&?&?). repeat split; congruence. Qed.

Lemma same_work_scheduled s s' : same_work s s' -> scheduled s -> scheduled s'.
Proof. intros H. by apply no_new_work_scheduled, same_work_new. Qed.

Lemma my_scope_work env s : same_work s (my_scope env s).2.
Proof. unfold my_scope, my_scope_locked. by destruct (_ && _). Qed.

Lemma fruitless_work s : same_work s (fruitless_inc s).
Proof. unfold fruitless_inc. by destruct (_ <? _). Qed.

Lemma judge_work s : same_work s (judge_last_walk s).
Proof.
  unfold judge_last_walk. destruct (pull_asked_entries s); [|done]. cbv zeta.
  destruct (_ =? _); [|done]. apply (fruitless_work (set_pull_asked_entries false s)).
Qed.

(** A walk is refused without a trace on the worker, or opened: then the caller must
    wake the worker. *)
Lemma pull_start_work env peer delay reason s :
  match pull_start_locked env peer delay reason s with
  | (false, s') => same_work s s'
  | (true, s') => vec_dest s' = vec_dest s /\ ent_dest (cl s') = ent_dest (cl s) /\ tx_at s' = tx_at s
  end.
Proof.
  unfold pull_start_locked. destruct (negb _ || _ || _); [done|]. cbv zeta.
  pose proof (judge_work s) as (J1 & J2 & J3 & J4). set (s1 := judge_last_walk s) in *. clearbody s1.
  destruct (_ && (_ <? _)); [repeat split; cbn; congruence|].
  destruct (_ && (_ <=? _)); cbn; (repeat split; congruence).
Qed.

Lemma pull_reset_work s : no_new_work s (pull_reset_locked s).
Proof. split; [|done]. intros [H|[H|H]]; [done | by right; left | by right; right]. Qed.

Lemma scope_set_work env kind pinned s : no_new_work s (scope_set_locked env kind pinned s).1.
Proof.
  unfold scope_set_locked.
  set (s1 := on_cl _ (set_scope_pinned pinned s)).
  pose proof (my_scope_work env s1) as (M1 & M2 & M3 & M4).
  destruct (my_scope env s1) as [sc s2]. cbn [snd] in *.
  destruct (meshtastic_cluster_doc_retain sc _) as [d dropped]. cbn [fst].
  assert (Hs : no_new_work s s2) by (unfold no_new_work, owes; rewrite M1, M2, M3, M4; done).
  etrans; [exact Hs|]. destruct (0 <? length dropped)%nat; [|done].
  split; [|done]. intros [H|[H|H]]; cbn in H; done.
Qed.

Lemma demote_work env s : no_new_work s (demote_locked env s).1.
Proof.
  unfold demote_locked. destruct (_ || _); [done|].
  pose proof (scope_set_work env SCOPE_CORE false s). by destruct (scope_set_locked _ _ _ _).
Qed.

Lemma compare_work env from d s : same_work s (digest_compare_locked env from d s).2.
Proof.
  unfold digest_compare_locked. destruct (scope_from_pb _ _) as [peer leg].
  pose proof (my_scope_work env s) as (M1 & M2 & M3 & M4). destruct (my_scope env s) as [mine s1]. cbn [snd] in *.
  cbv zeta. set (s2 := if bool_decide _ && _ then _ else s1).
  assert (same_work s s2) by (unfold s2; destruct (_ && _); done). clearbody s2.
  destruct (scope_eq _ _); [done|]. by destruct (negb leg).
Qed.

Lemma peer_note_work env from d c a h s : same_work s (peer_note_locked env from d c a h s).
Proof.
  unfold peer_note_locked. destruct (_ || _); [done|]. cbv zeta. destruct (find_index _ _); [done|].
  destruct (_ <? _)%nat; [done|]. by destruct (peer_oldest _ _ _ _).
Qed.

Lemma kicked_scheduled at_ms s : scheduled (kick_if_idle at_ms s).
Proof. intros _. unfold kick_if_idle. destruct (tx_at s) eqn:E; [by rewrite E | done]. Qed.

Lemma on_digest_scheduled env from d s : scheduled s -> scheduled (on_digest env from d s).
Proof.
  intros Hs. unfold on_digest. set (s1 := on_cl _ s).
  pose proof (compare_work env from d s1) as C. destruct (digest_compare_locked env from d s1) as [verdict s2].
  cbn [snd] in C. cbv zeta. set (s3 := peer_note_locked _ _ _ _ _ _ s2).
  assert (H3 : same_work s s3) by (etrans; [exact C | apply peer_note_work]).
  clearbody s3. destruct verdict as [[[] h]|].
  - by apply (same_work_scheduled s).
  - set (s4 := count1 _ s3). pose proof (pull_start_work env from (rand32 env `mod` (cfg_pull_delay_ms env + 1)) PULL_REASON_DIGEST s4) as P.
    destruct (pull_start_locked _ _ _ _ s4) as [[] s5]; [apply kicked_scheduled|].
    apply (same_work_scheduled s), Hs. etrans; [exact H3 | exact P].
  - by apply (same_work_scheduled s).
Qed.

Lemma may_serve_dest env c : ent_dest (may_serve_locked env c).2 = ent_dest c.
Proof. unfold may_serve_locked. destruct (_ =? 0); [done|]. cbv zeta. destruct (_ <=? _), (_ =? 0); done. Qed.

Lemma on_vector_req_scheduled env from sc s : scheduled s -> scheduled (on_vector_req env from sc s).
Proof.
  intros Hs. unfold on_vector_req. destruct (negb _); [done|].
  pose proof (may_serve_dest (ce env) (cl s)) as D. destruct (may_serve_locked _ _) as [serve c]. cbn [snd] in D. cbv zeta.
  destruct serve; cbn [negb].
  - destruct (scope_from_pb sc from). intros _. done.
  - apply (no_new_work_scheduled s), Hs. apply same_work_new. by repeat split.
Qed.

Lemma vector_row_work env mine row s : same_work s (vector_row env mine row s).1.
Proof.
  unfold vector_row. destruct row as [[pk|] [stamp|]]; try done. cbv zeta.
  destruct (_ || _); [done|]. destruct (meshtastic_cluster_doc_want _ _ _ _); done.
Qed.

Lemma vector_rows_work env mine rows : forall s b, same_work s (vector_rows env mine rows s b).1.
Proof.
  induction rows as [|row rows IH]; intros s b; cbn [vector_rows]; [done|].
  destruct (_ <? _)%nat; [|done]. pose proof (vector_row_work env mine row s) as R.
  destruct (vector_row env mine row s) as [s1 full]. etrans; [exact R | apply IH].
Qed.

Lemma on_vector_scheduled env from v s : scheduled s -> scheduled (on_vector env from v s).1.
Proof.
  intros Hs. unfold on_vector. pose proof (my_scope_work env s) as M. destruct (my_scope env s) as [mine s1]. cbn [snd] in M.
  assert (Hs1 : scheduled s1) by (by apply (same_work_scheduled s)).
  destruct (_ || _); [destruct (negb _); exact Hs1|]. cbv zeta.
  pose proof (vector_rows_work env mine (vc_rows v) (count1 N_VECTOR_RX s1) false) as R.
  destruct (vector_rows _ _ _ _ _) as [s2 ns]. cbn [fst] in R.
  assert (Hs2 : scheduled s2) by (by apply (same_work_scheduled s1)).
  destruct ns.
  - pose proof (demote_work env s2) as D. destruct (demote_locked env s2) as [s3 out]. cbn [fst] in *.
    apply (no_new_work_scheduled s2), Hs2. etrans; [exact D|].
    etrans; [apply (same_work_new _ (set_pull_keys [] s3)); done | apply pull_reset_work].
  - destruct ((_ <=? _)%nat || _); [|exact Hs2]. destruct (0 <? _)%nat; [intros _; done|].
    apply (no_new_work_scheduled s2), Hs2. cbn [fst].
    etrans; [|apply pull_reset_work]. apply same_work_new.
    destruct (bool_decide _); [|done]. apply (fruitless_work (count1 N_PULL_EMPTY s2)).
Qed.

(** The entry handler leaves the burst alone. *)
Definition burst (c : cluster) := (ent_dest c, ent_keys c, ent_next c, ent_frag_off c, push_frag_off c).
Lemma on_entry_burst env from e c : burst (on_entry env from e c).1 = burst c.
Proof.
  assert (Hr : forall c, burst (refuse_entry env c) = burst c)
    by (intros; unfold refuse_entry; by destruct (_ <=? _)).
  assert (Hm : burst (my_scope_locked env c).2 = burst c) by (unfold my_scope_locked; by destruct (_ && _)).
  unfold on_entry. destruct (pe_key e) as [pk|]; [|done]. destruct (pe_stamp e) as [stamp|]; [|done]. cbv zeta.
  destruct (negb _); [apply Hr|]. destruct (my_scope_locked env c) as [mine c1]. cbn [snd] in Hm.
  destruct (negb _); [done|]. destruct (negb _); [cbn [fst]; by rewrite Hr|].
  destruct (negb _); [cbn [fst]; by rewrite Hr|]. destruct (_ && _); [cbn [fst]; by rewrite Hr|].
  assert (Hre : burst (reassemble_entry env from e (key_from_pb pk) stamp c1).1 = burst c).
  { unfold reassemble_entry. destruct (meshtastic_cluster_frag_fits _ _ _ _ _) as [wt fits].
    destruct fits; cbn [negb fst]; [|by rewrite Hr].
    destruct (_ && _); [done|]. cbv zeta.
    set (c2 := if as_active (asm_rx c1) && _ then _ else _).
    assert (burst c2 = burst c) by (unfold c2; by destruct (_ && _)). clearbody c2.
    destruct (_ && _); [done|]. set (c3 := if slot_matches _ _ _ _ _ _ then _ else _).
    assert (burst c3 = burst c) by (unfold c3; destruct (slot_matches _ _ _ _ _ _); [done|]; by destruct (as_active _)).
    clearbody c3. destruct (negb _); [done|]. by destruct (_ <? _). }
  destruct (reassemble_entry _ _ _ _ _ _) as [c2 [payload|]]; cbn [fst] in Hre; [|done].
  destruct (negb _); [cbn [fst]; by rewrite Hr|].
  assert (Hsg : burst (entry_signature_ok env (key_from_pb pk) stamp e payload c2).1 = burst c)
    by (unfold entry_signature_ok; destruct (entry_verdict _ _ _ _ _); cbn [fst]; rewrite ?Hr; done).
  destruct (entry_signature_ok _ _ _ _ _ _) as [c3 [sig|]]; cbn [fst] in Hsg; [|done].
  unfold merge_entry. destruct (meshtastic_cluster_doc_accept_signed _ _ _ _ _ _) as [d ret].
  destruct ret as [[|[p|p|]|p]|[]]; done.
Qed.

Lemma on_entry_dest env from e c : ent_dest (on_entry env from e c).1 = ent_dest c.
Proof. pose proof (on_entry_burst env from e c) as H. by injection H. Qed.

Lemma with_cl_no_kick env r s :
  KickTx ∉ r.2 -> tx_at (with_cl env r s).1 = tx_at s /\ cl (with_cl env r s).1 = r.1 /\
  pull_state (with_cl env r s).1 = pull_state s /\ vec_dest (with_cl env r s).1 = vec_dest s.
Proof.
  unfold with_cl. assert (H : forall l acc, KickTx ∉ l -> (foldl (run_effect env) acc l).1 = acc.1).
  { induction l as [|e l IH]; intros [s0 o] Hn; cbn [foldl]; [done|]. rewrite IH by set_solver.
    destruct e; [done | done | set_solver]. }
  intros Hn. rewrite H by done. done.
Qed.

Lemma on_entry_no_kick env from e c : KickTx ∉ (on_entry env from e c).2.
Proof.
  destruct (on_entry_cases env from e c) as [[_ ->]|(key & stamp & payload & sig & st1 & _ & _ & _ & ->)]; [set_solver|].
  unfold merge_entry. destruct (meshtastic_cluster_doc_accept_signed _ _ _ _ _ _) as [d ret].
  destruct ret as [[|[p|p|]|p]|[]]; cbn [snd]; try set_solver. destruct (meshtastic_cluster_doc_find _ _); set_solver.
Qed.

Lemma on_entry_scheduled env from e s : scheduled s -> scheduled (with_cl env (on_entry (ce env) from e (cl s)) s).1.
Proof.
  intros Hs. destruct (with_cl_no_kick env (on_entry (ce env) from e (cl s)) s (on_entry_no_kick _ _ _ _)) as (T & C & P & V).
  apply (no_new_work_scheduled s), Hs. apply same_work_new. repeat split; try done. rewrite C. apply on_entry_dest.
Qed.

Lemma on_entry_req_scheduled env from ks s :
  scheduled s -> scheduled (with_cl env (on_entry_req (ce env) from ks (cl s)) s).1.
Proof.
  intros Hs. unfold on_entry_req.
  destruct (if ent_dest (cl s) =? 0 then may_serve_locked (ce env) (cl s) else (false, cl s)) as [serve c1] eqn:E.
  assert (Hd : ent_dest c1 = ent_dest (cl s)).
  { destruct (_ =? 0); [|by injection E as _ <-]. pose proof (may_serve_dest (ce env) (cl s)) as D. by rewrite E in D. }
  destruct serve.
  - cbv zeta. destruct (length _ =? 0)%nat; [|intros _; done]. cbn [fst with_cl foldl snd].
    intros [H|[H|H]]; [apply Hs; by left | apply Hs; right; by left | done].
  - unfold with_cl. cbn [foldl fst snd]. intros Ho. apply Hs. unfold owes in *. cbn in Ho.
    rewrite <- Hd. destruct (negb _) in Ho; done.
Qed.

(** ** The worker *)
Lemma tx_entry_loop_None fuel : forall c c', tx_entry_loop fuel c = (None, c') -> ent_dest c' = 0.
Proof.
  induction fuel as [|fuel IH]; intros c c'; cbn [tx_entry_loop]; [by intros [= <-]|].
  destruct (negb _ && _) eqn:E; [|by intros [= <-]]. apply andb_true_iff in E as [_ Hlt%Nat.ltb_lt].
  destruct (lookup_lt_is_Some_2 _ _ Hlt) as [k ->]. destruct (meshtastic_cluster_doc_find _ _); [|apply IH].
  destruct (entry_to_pb_frag _ _) as [[? ?] ?]. done.
Qed.

Lemma push_advance_frame s :
  push_count (push_advance_locked s) = (push_count s - 1)%nat /\ same_work s (push_advance_locked s).
Proof. done. Qed.

Lemma tx_push_loop_spec fuel : forall s,
  (push_count s < fuel)%nat ->
  match tx_push_loop fuel s with
  | (None, s') => push_count s' = 0%nat /\ same_work s s'
  | (Some m, s') => m.1 = MESHTASTIC_NODE_BROADCAST /\ same_work s s' /\ (push_count s' <= push_count s)%nat
  end.
Proof.
  induction fuel as [|fuel IH]; intros s Hf; cbn [tx_push_loop]; [lia|].
  destruct (Nat.ltb_spec 0 (push_count s)); [|split; [lia | done]].
  destruct (_ ≫= _) as [e|].
  - destruct (entry_to_pb_frag _ _) as [[msg off] next]. cbv zeta. destruct (_ <=? next); cbn; (split; [done|]).
    + split; [done | lia].
    + done.
  - specialize (IH (push_advance_locked s) ltac:(cbn; lia)).
    destruct (tx_push_loop fuel _) as [[m|] s']; cbn in *.
    + destruct IH as (? & ? & ?). split; [done|]. split; [done | lia].
    + done.
Qed.

(** When there is nothing to send nothing is owed but a vector we wait for. *)
Lemma tx_next_None env s s' :
  tx_next_locked env s = (None, s') ->
  ent_dest (cl s') = 0 /\ vec_dest s' = 0 /\ push_count s' = 0%nat /\
  pull_state s' = pull_state s /\ pull_deadline_ms s' = pull_deadline_ms s /\
  (pull_state s = PULL_IDLE \/ pull_state s = PULL_AWAIT_VECTOR).
Proof.
  unfold tx_next_locked. destruct (tx_entry_locked (cl s)) as [[[dest e]|] c] eqn:Ee; [done|].
  apply tx_entry_loop_None in Ee. cbn [vec_dest set_cl].
  destruct (Z.eqb_spec (vec_dest s) 0) as [Hv|]; cbn [negb]; [|destruct (tx_vector_locked _); done].
  assert (P := tx_push_loop_spec (S (push_count s)) (set_cl c s) ltac:(cbn; lia)).
  assert (D : pull_deadline_ms (tx_push_loop (S (push_count s)) (set_cl c s)).2 = pull_deadline_ms s).
  { clear. generalize (S (push_count s)) as fuel. intros fuel. change (pull_deadline_ms s) with (pull_deadline_ms (set_cl c s)).
    generalize (set_cl c s). induction fuel as [|fuel IH]; intros s0; cbn [tx_push_loop]; [done|].
    destruct (_ <? _)%nat; [|done]. destruct (_ ≫= _); [|by rewrite IH].
    destruct (entry_to_pb_frag _ _) as [[? ?] ?]. cbv zeta. by destruct (_ <=? _). }
  cbn [pull_state set_cl]. destruct (pull_state s) eqn:Ep; try done.
  - intros E. cbn [push_count set_cl] in E. rewrite E in P, D. destruct P as (Hc & H1 & H2 & H3 & H4). cbn in *.
    repeat split; try congruence. by left.
  - unfold my_scope. destruct (my_scope_locked _ _). done.
  - intros E. cbn [push_count set_cl] in E. rewrite E in P, D. destruct P as (Hc & H1 & H2 & H3 & H4). cbn in *.
    repeat split; try congruence. by right.
Qed.

Lemma tx_work_scheduled env s : scheduled (tx_work_fn env s).1.
Proof.
  unfold tx_work_fn. destruct (cluster_channel_index env) as [ch|].
  2:{ intros [H|[H|H]]; cbn in H; done. }
  set (s1 := if bool_decide _ && _ then _ else _). clearbody s1.
  destruct (tx_next_locked env s1) as [[[dest m]|] s2] eqn:E; [intros _; done|].
  apply tx_next_None in E as (H1 & H2 & _ & H3 & _ & H4). rewrite H3.
  destruct (bool_decide_reflect (pull_state s1 = PULL_AWAIT_VECTOR)); [intros _; done|].
  intros [H|[H|H]]; cbn in H; destruct H4; congruence.
Qed.

Lemma backstop_scheduled env s : scheduled s -> scheduled (backstop_tick env s).
Proof.
  intros Hs. unfold backstop_tick. destruct (_ =? 0); [done|]. destruct (negb _); [exact Hs|].
  destruct (0 <? _); [exact Hs|]. cbv zeta. set (s1 := set_backstop_countdown _ s).
  destruct (_ =? 0); [exact Hs|]. pose proof (pull_start_work env (backstop_peer s1) 0 PULL_REASON_BACKSTOP s1) as P.
  destruct (pull_start_locked _ _ _ _ _) as [[] s2]; [intros _; done|].
  by apply (same_work_scheduled s1).
Qed.

Lemma doc_write_work env key st tomb payload s :
  no_new_work s (doc_write_local env key st tomb payload s).1.1.1.
Proof.
  unfold doc_write_local. cbv zeta. destruct (hlc_local _ _ _) as [c minted].
  set (s1 := on_cl _ s).
  assert (Hsg : same_work s (if cfg_sign env then sign_entry_locked env key minted tomb payload s1 else (None, s1)).2)
    by (unfold sign_entry_locked; destruct (cfg_sign env); [|done]; by destruct (_ ≫= _)).
  destruct (if cfg_sign env then _ else _) as [sig s2]. cbn [snd] in Hsg.
  destruct (accept_or_narrow env key minted tomb payload sig s2) as [[[s3 out] d] ret] eqn:E.
  assert (H3 : no_new_work s s3).
  { etrans; [by apply same_work_new|]. unfold accept_or_narrow in E.
    destruct (meshtastic_cluster_doc_accept_signed _ _ _ _ _ _) as [d0 [v|[]]];
      try (injection E as <- <- <- <-; done).
    pose proof (demote_work env s2) as D. destruct (demote_locked env s2) as [s4 o].
    destruct (meshtastic_cluster_doc_accept_signed _ _ _ _ _ _). injection E as <- <- <- <-. exact D. }
  assert (Hp : forall s0, no_new_work s0 (push_kick env (push_enqueue_locked env key s0))).
  { intros s0. assert (same_work s0 (push_enqueue_locked env key s0)) as Hq.
    { unfold push_enqueue_locked. destruct (push_queued key s0); [done|].
      assert (Hm : same_work s0 (if (CLUSTER_PUSH_QUEUE <=? push_count s0)%nat then (false, s0) else may_push_locked env s0).2).
      { destruct (_ <=? _)%nat; [done|]. unfold may_push_locked. destruct (_ =? 0); [done|]. cbv zeta. by destruct (_ <=? _). }
      destruct (if (_ <=? _)%nat then _ else _) as [ok s5]. cbn [snd] in Hm. destruct (negb ok); [done|]. cbv zeta.
      by destruct (0 <? _). }
    etrans; [by apply same_work_new|]. unfold push_kick, kick_if_idle. destruct (tx_at _) eqn:Et; [done|].
    split; [done|]. done. }
  destruct ret as [[|[p|p|]|p]|e]; cbn [fst]; try (etrans; [exact H3 | by apply same_work_new]).
  etrans; [exact H3|]. etrans; [|apply Hp]. by apply same_work_new.
Qed.

Lemma sync_step_scheduled ev s : scheduled s -> scheduled (sync_step ev s).1.
Proof.
  intros Hs. destruct ev as [env|env|env from ch pki m|env key st tomb payload|env node|env choice|env|env]; cbn [sync_step].
  - destruct (due _ _); [apply tx_work_scheduled | exact Hs].
  - destruct (due _ _); [|exact Hs]. unfold digest_work_fn. destruct (cluster_channel_index env) as [ch|]; [|exact Hs].
    set (s1 := set_channel_missing_logged false _). pose proof (my_scope_work env s1) as M.
    destruct (my_scope env s1) as [mine s2]. cbn [snd fst] in *.
    apply (same_work_scheduled (backstop_tick env (if send_ok env then count1 N_DIGEST_TX s2 else s2))); [done|].
    apply backstop_scheduled, (same_work_scheduled s); [|done]. etrans; [exact M|]. by destruct (send_ok env).
  - unfold cluster_on_packet. cbv zeta. destruct (negb _); [exact Hs|].
    destruct m as [[d|sc|v|ks|e|]|]; cbn [fst]; try exact Hs.
    + by apply on_digest_scheduled.
    + by apply on_vector_req_scheduled.
    + by apply on_vector_scheduled.
    + by apply on_entry_req_scheduled.
    + by apply on_entry_scheduled.
  - pose proof (doc_write_work env key st tomb payload s) as W. destruct (doc_write_local _ _ _ _ _ _) as [[[s1 o] r] m].
    cbn [fst] in *. by apply (no_new_work_scheduled s).
  - cbn [fst]. unfold meshtastic_cluster_pull. destruct (_ || _); [exact Hs|].
    destruct (cluster_channel_index env); [|exact Hs]. pose proof (pull_start_work env node 0 PULL_REASON_SHELL s) as P.
    destruct (pull_start_locked _ _ _ _ _) as [[] s1]; [intros _; done|]. by apply (same_work_scheduled s).
  - unfold meshtastic_cluster_scope_select. cbv zeta.
    assert (H : forall kind pinned, scheduled (scope_set_locked env kind pinned s).1)
      by (intros; by apply (no_new_work_scheduled s), Hs; apply scope_set_work).
    destruct choice; cbn [fst]; try exact Hs; (destruct (_ && _); [exact Hs|]);
      [specialize (H SCOPE_FULL false) | specialize (H SCOPE_FULL true) | specialize (H SCOPE_CORE true)];
      destruct (scope_set_locked _ _ _ _); exact H.
  - unfold meshtastic_cluster_reset. destruct (meshtastic_cluster_doc_clear _) as [d dr].
    destruct (compiled_scope env) as [k p]. cbv zeta. cbn [fst]. intros [H|[H|H]]; cbn in H; done.
  - exact Hs.
Qed.

(** ** Well-formed states *)

(** A fragment cursor: at the start, or after the first of two frames. *)
Definition cursor_ok (off : Z) : Prop := off = 0 \/ off = MESHTASTIC_CLUSTER_FRAG_MAX.

Record sync_wf (s : sync) : Prop := {
  sw_doc : doc_wf (doc (cl s));
  sw_ent : cursor_ok (ent_frag_off (cl s));
  sw_push : cursor_ok (push_frag_off (cl s));
  sw_keys : (length (pull_keys s) <= CLUSTER_PULL_KEYS)%nat;
  sw_ring : length (push_keys s) = CLUSTER_PUSH_QUEUE;
  sw_head : (push_head s < CLUSTER_PUSH_QUEUE)%nat;
  sw_count : (push_count s <= CLUSTER_PUSH_QUEUE)%nat;
}.

Definition core (s : sync) :=
  (doc (cl s), ent_frag_off (cl s), push_frag_off (cl s), pull_keys s, push_keys s, push_head s, push_count s).
Lemma core_wf s s' : core s' = core s -> sync_wf s -> sync_wf s'.
Proof.
  unfold core. intros [= H1 H2 H3 H4 H5 H6 H7] [W1 W2 W3 W4 W5 W6 W7].
  split; rewrite ?H1, ?H2, ?H3, ?H4, ?H5, ?H6, ?H7; done.
Qed.

Lemma cursor_zero : cursor_ok 0.
Proof. by left. Qed.
#[local] Hint Resolve cursor_zero : mesh.

(** Sending one fragment: the entry is finished, or it is long and was at its start. *)
Lemma frag_step e off msg off1 next :
  (length (e_payload e) <= 128)%nat -> cursor_ok off -> entry_to_pb_frag e off = (msg, off1, next) ->
  cursor_ok off1 /\ (Z.of_nat (length (e_payload e)) <= next \/ (off = 0 /\ next = MESHTASTIC_CLUSTER_FRAG_MAX)).
Proof.
  intros Hl Hc. unfold entry_to_pb_frag, meshtastic_cluster_frag_take, cursor_ok, MESHTASTIC_CLUSTER_FRAG_MAX in *.
  set (n := Z.of_nat (length (e_payload e))) in *. assert (0 <= n <= 128) by lia. clearbody n. clear Hl.
  intros [= _ <- <-].
  set (o := if n <? off then 0 else off).
  assert (Ho : (o = 0 \/ o = 88) /\ o <= n /\ (o = 88 -> off = 88) /\ (off = 88 -> o = 0 -> n < 88))
    by (unfold o; destruct (Z.ltb_spec n off); destruct Hc; lia).
  clearbody o. split; [apply Ho|]. rewrite (u16_small (n - o)) by lia.
  destruct (Z.ltb_spec (n - o) 88); rewrite u16_small by lia; lia.
Qed.

Lemma find_short c k e : doc_wf (doc c) -> meshtastic_cluster_doc_find k (doc c) = Some e -> (length (e_payload e) <= 128)%nat.
Proof.
  intros Hwf Hf. pose proof (found_short (doc c) [k] Hwf) as F. unfold found in F. cbn [omap list_omap] in F.
  rewrite Hf in F. by apply Forall_cons in F as [? _].
Qed.

(** The frames still owed for the entries asked for. *)
Definition ent_work (c : cluster) : nat :=
  if ent_dest c =? 0 then 0%nat
  else (2 * (length (ent_keys c) - ent_next c) - (if (ent_frag_off c =? 0)%Z then 0 else 1))%nat.

Lemma ent_advance_work c :
  (ent_next c < length (ent_keys c))%nat -> ent_dest c <> 0 ->
  (ent_work (ent_advance_locked c) < ent_work c)%nat /\ doc (ent_advance_locked c) = doc c /\
  ent_frag_off (ent_advance_locked c) = 0 /\ push_frag_off (ent_advance_locked c) = push_frag_off c.
Proof.
  intros Hlt Hd. unfold ent_work, ent_advance_locked. cbn [ent_keys ent_next set_ent_next set_ent_frag_off].
  rewrite (proj2 (Z.eqb_neq (ent_dest c) 0) Hd).
  destruct (Nat.leb_spec (length (ent_keys c)) (S (ent_next c))); cbn.
  - destruct (_ =? 0); repeat split; lia.
  - rewrite (proj2 (Z.eqb_neq (ent_dest c) 0) Hd). destruct (ent_frag_off c =? 0); repeat split; lia.
Qed.

Lemma tx_entry_work fuel : forall c m c',
  doc_wf (doc c) -> cursor_ok (ent_frag_off c) -> tx_entry_loop fuel c = (m, c') ->
  doc c' = doc c /\ push_frag_off c' = push_frag_off c /\ cursor_ok (ent_frag_off c') /\
  (ent_work c' <= ent_work c)%nat /\ (m = None -> ent_work c' = 0%nat) /\ (is_Some m -> (ent_work c' < ent_work c)%nat).
Proof.
  induction fuel as [|fuel IH]; intros c m c' Hwf Hc; cbn [tx_entry_loop].
  { intros [= <- <-]. repeat split; try done; try (unfold ent_work; cbn; lia); by intros [? ?]. }
  destruct (negb _ && _) eqn:E.
  2:{ intros [= <- <-]. repeat split; try done; try (unfold ent_work; cbn; lia); by intros [? ?]. }
  apply andb_true_iff in E as [Hd%negb_true_iff%Z.eqb_neq Hlt%Nat.ltb_lt].
  destruct (lookup_lt_is_Some_2 _ _ Hlt) as [k ->].
  destruct (ent_advance_work c Hlt Hd) as (A1 & A2 & A3 & A4).
  destruct (meshtastic_cluster_doc_find k (doc c)) as [e|] eqn:Ef.
  - pose proof (find_short c k e Hwf Ef) as Hl.
    destruct (entry_to_pb_frag e (ent_frag_off c)) as [[msg off1] next] eqn:Eg. cbv zeta.
    destruct (frag_step _ _ _ _ _ Hl Hc Eg) as [C1 C2].
    destruct (Z.leb_spec (Z.of_nat (length (e_payload e))) next); intros [= <- <-].
    + destruct (ent_advance_work (set_ent_frag_off off1 c) Hlt Hd) as (B1 & B2 & B3 & B4).
      assert (ent_work (ent_advance_locked (set_ent_frag_off off1 c)) = ent_work (ent_advance_locked c)) as Hsame by done.
      cbn [bump] in *. change (ent_work (bump ENTRY_TX ?x)) with (ent_work x).
      repeat split; try done; cbn [doc bump set_stats push_frag_off ent_frag_off];
        rewrite ?B2, ?B3, ?B4; (done || (by left) || lia || (intros _; lia)).
    + destruct C2 as [C2|[C2 ->]]; [lia|].
      assert (Hw : ent_work (set_ent_frag_off MESHTASTIC_CLUSTER_FRAG_MAX (set_ent_frag_off off1 c)) = (ent_work c - 1)%nat /\ (0 < ent_work c)%nat).
      { unfold ent_work. cbn. rewrite (proj2 (Z.eqb_neq (ent_dest c) 0) Hd), C2. cbn. lia. }
      change (ent_work (bump ENTRY_TX ?x)) with (ent_work x).
      repeat split; try done; [by right | lia | lia].
  - intros E. destruct (IH (ent_advance_locked c) m c') as (I1 & I2 & I3 & I4 & I5 & I6);
      [by rewrite A2 | rewrite A3; by left | done |].
    repeat split; try congruence; try done; [lia | intros Hm; specialize (I6 Hm); lia].
Qed.

Definition vec_work (s : sync) : nat :=
  if vec_dest s =? 0 then 0%nat else S (length (entries (doc (cl s))) - vec_offset s).
Definition push_work (s : sync) : nat :=
  (2 * push_count s - (if (push_frag_off (cl s) =? 0)%Z then 0 else 1))%nat.

(** Runs of the worker until the vector is given up. *)
Definition waits (deadline now : Z) : nat :=
  if deadline <? now then 1%nat else (2 + Z.to_nat ((deadline - now) / 100))%nat.
Definition pull_work (now : Z) (s : sync) : nat :=
  match pull_state s with
  | PULL_IDLE => 0
  | PULL_SEND_ENTRY_REQ => 1
  | PULL_SEND_VECTOR_REQ => 1 + waits (pull_deadline_ms s) now
  | PULL_AWAIT_VECTOR => waits (pull_deadline_ms s) now
  end%nat.
Definition work (now : Z) (s : sync) : nat :=
  (ent_work (cl s) + vec_work s + push_work s + pull_work now s)%nat.

Lemma waits_mono deadline now now' : now <= now' -> (waits deadline now' <= waits deadline now)%nat.
Proof.
  intros H. unfold waits. destruct (Z.ltb_spec deadline now), (Z.ltb_spec deadline now'); try lia.
  assert ((deadline - now') / 100 <= (deadline - now) / 100) by (apply Z.div_le_mono; lia). lia.
Qed.

Lemma waits_step deadline now :
  now <= deadline -> (waits deadline (now + Z.max 100 (Z.min (deadline - now) 1000)) < waits deadline now)%nat.
Proof.
  intros H. unfold waits. rewrite (proj2 (Z.ltb_ge deadline now)) by lia.
  set (t := now + _). destruct (Z.ltb_spec deadline t); [lia|].
  assert ((deadline - t) / 100 + 1 <= (deadline - now) / 100).
  { rewrite <- Z.div_add by lia. apply Z.div_le_mono; [lia|]. unfold t. lia. }
  pose proof (Z.div_pos (deadline - t) 100 ltac:(lia) ltac:(lia)). lia.
Qed.

(** The fields the work is about, apart from the pull. *)
Lemma vector_fill_offset want rest : forall rows offset emitted,
  let '(_, offset', _) := vector_fill want rest rows offset emitted in
  (offset <= offset')%nat /\ (rest <> [] -> (length rows < CLUSTER_VECTOR_ROWS)%nat -> (offset < offset')%nat) /\
  (offset' <= offset + length rest)%nat.
Proof.
  induction rest as [|e rest IH]; intros rows offset emitted; cbn [vector_fill]; [repeat split; (done || lia || cbn; lia)|].
  destruct (Nat.ltb_spec (length rows) CLUSTER_VECTOR_ROWS); [|repeat split; cbn; lia].
  destruct (meshtastic_cluster_scope_contains _ _).
  - specialize (IH (rows ++ [(Some (key_to_pb (e_key e)), Some (e_stamp e))]) (S offset) (u16 (emitted + 1))).
    destruct (vector_fill _ _ _ _ _) as [[r o] m]. cbn [length]. destruct IH as (? & _ & ?). repeat split; lia.
  - specialize (IH rows (S offset) emitted).
    destruct (vector_fill _ _ _ _ _) as [[r o] m]. cbn [length]. destruct IH as (? & _ & ?). repeat split; lia.
Qed.

(** What choosing a vector frame leaves alone. *)
Definition vec_frame (s s' : sync) : Prop :=
  cl s' = cl s /\ core s' = core s /\ pull_state s' = pull_state s /\ pull_deadline_ms s' = pull_deadline_ms s /\ tx_at s' = tx_at s.

Lemma tx_vector_work s v s' :
  vec_dest s <> 0 -> tx_vector_locked s = (v, s') -> vec_frame s s' /\ (vec_work s' < vec_work s)%nat.
Proof.
  intros Hd. unfold tx_vector_locked. cbv zeta.
  pose proof (vector_fill_offset (meshtastic_cluster_scope_make (vec_scope_kind s) (vec_dest s))
    (drop (vec_offset s) (entries (doc (cl s)))) [] (vec_offset s) (vec_emitted s)) as F.
  destruct (vector_fill _ _ _ _ _) as [[rows offset] emitted]. destruct F as (F1 & F2 & F3).
  intros [= _ <-]. unfold vec_work. rewrite (proj2 (Z.eqb_neq (vec_dest s) 0) Hd).
  rewrite length_drop in F3.
  destruct (Nat.leb_spec (length (entries (doc (cl s)))) offset).
  - split; [done|]. cbn. lia.
  - split; [done|]. cbn. rewrite (proj2 (Z.eqb_neq (vec_dest s) 0) Hd).
    assert (offset > vec_offset s)%nat; [|lia]. apply F2; [|cbn; unfold CLUSTER_VECTOR_ROWS; lia].
    intros Hn. apply (f_equal length) in Hn. rewrite length_drop in Hn. cbn in Hn. lia.
Qed.

(** What the push loop leaves alone. *)
Definition push_frame (s s' : sync) : Prop :=
  (doc (cl s'), ent_frag_off (cl s'), ent_work (cl s'), pull_keys s', push_keys s') =
  (doc (cl s), ent_frag_off (cl s), ent_work (cl s), pull_keys s, push_keys s) /\
  vec_dest s' = vec_dest s /\ vec_offset s' = vec_offset s /\
  pull_state s' = pull_state s /\ pull_deadline_ms s' = pull_deadline_ms s /\ tx_at s' = tx_at s.

Lemma push_advance_ok s :
  sync_wf s -> (0 < push_count s)%nat ->
  push_frame s (push_advance_locked s) /\ sync_wf (push_advance_locked s) /\
  (push_work (push_advance_locked s) < push_work s)%nat.
Proof.
  intros [W1 W2 W3 W4 W5 W6 W7] Hc. split; [done|]. split.
  - split; cbn; try done; [by left | unfold CLUSTER_PUSH_QUEUE; lia | lia].
  - unfold push_work. cbn. destruct (_ =? 0); lia.
Qed.

Lemma tx_push_work fuel : forall s m s',
  sync_wf s -> (push_count s < fuel)%nat -> tx_push_loop fuel s = (m, s') ->
  push_frame s s' /\ sync_wf s' /\ (push_work s' <= push_work s)%nat /\
  (m = None -> push_work s' = 0%nat) /\ (is_Some m -> (push_work s' < push_work s)%nat).
Proof.
  induction fuel as [|fuel IH]; intros s m s' Hwf Hf; cbn [tx_push_loop]; [lia|].
  destruct (Nat.ltb_spec 0 (push_count s)) as [Hc|Hc].
  2:{ intros [= <- <-]. split; [done|]. split; [done|]. split; [lia|]. split; [intros _; unfold push_work; lia | by intros [? ?]]. }
  destruct (push_advance_ok s Hwf Hc) as (A1 & A2 & A3).
  destruct (_ ≫= _) as [e|] eqn:Ef.
  - apply bind_Some in Ef as (k & _ & Ef). pose proof (find_short (cl s) k e (sw_doc s Hwf) Ef) as Hl.
    destruct (entry_to_pb_frag e (push_frag_off (cl s))) as [[msg off1] next] eqn:Eg. cbv zeta.
    destruct (frag_step _ _ _ _ _ Hl (sw_push s Hwf) Eg) as [C1 C2].
    destruct (Z.leb_spec (Z.of_nat (length (e_payload e))) next); intros [= <- <-].
    + assert (Heq : push_work (count1 N_PUSH_TX (push_advance_locked (on_cl (set_push_frag_off off1) s))) = push_work (push_advance_locked s)) by done.
      split; [exact A1|]. split; [destruct A2; by split|]. rewrite Heq. split; [lia|]. split; [done | lia].
    + destruct C2 as [C2|[C2 ->]]; [lia|]. split; [done|].
      split; [destruct Hwf; split; try done; by right|].
      assert (Hw : push_work (count1 N_PUSH_TX (on_cl (set_push_frag_off MESHTASTIC_CLUSTER_FRAG_MAX) (on_cl (set_push_frag_off off1) s))) = (push_work s - 1)%nat /\ (0 < push_work s)%nat).
      { unfold push_work. cbn. rewrite C2. cbn. lia. }
      split; [lia|]. split; [done | lia].
  - intros E. destruct (IH (push_advance_locked s) m s' A2 ltac:(cbn; lia) E) as (I1 & I2 & I3 & I4 & I5).
    split; [exact I1|]. split; [done|]. split; [lia|]. split; [done|]. intros Hm. specialize (I5 Hm). lia.
Qed.

Lemma my_scope_keeps env s :
  core (my_scope env s).2 = core s /\ burst (cl (my_scope env s).2) = burst (cl s) /\
  vec_offset (my_scope env s).2 = vec_offset s /\ pull_deadline_ms (my_scope env s).2 = pull_deadline_ms s /\
  stats (cl (my_scope env s).2) = stats (cl s).
Proof. unfold my_scope, my_scope_locked. by destruct (_ && _). Qed.

Lemma burst_work c c' : burst c' = burst c -> ent_work c' = ent_work c.
Proof. unfold burst, ent_work. by intros [= -> -> -> -> _]. Qed.

(** Each frame sent pays for itself. *)
Lemma tx_next_work env s m s' :
  sync_wf s -> tx_next_locked env s = (m, s') ->
  sync_wf s' /\ tx_at s' = tx_at s /\
  (is_Some m -> forall now now', now <= now' -> (work now' s' < work now s)%nat) /\
  (m = None -> ent_work (cl s') = 0%nat /\ vec_work s' = 0%nat /\ push_work s' = 0%nat /\
               pull_state s' = pull_state s /\ pull_deadline_ms s' = pull_deadline_ms s).
Proof.
  intros Hwf. unfold tx_next_locked. destruct (tx_entry_locked (cl s)) as [ent c] eqn:Ee. cbv zeta.
  destruct (tx_entry_work _ _ _ _ (sw_doc s Hwf) (sw_ent s Hwf) Ee) as (E1 & E2 & E3 & E4 & E5 & E6).
  assert (Hwf1 : sync_wf (set_cl c s)) by (destruct Hwf; split; cbn; rewrite ?E1, ?E2; done).
  assert (Hpw : push_work (set_cl c s) = push_work s) by (unfold push_work; cbn; by rewrite E2).
  assert (Hvw : vec_work (set_cl c s) = vec_work s) by (unfold vec_work; cbn; by rewrite E1).
  assert (Hpm : forall now now', now <= now' -> (pull_work now' (set_cl c s) <= pull_work now s)%nat).
  { intros now now' H. unfold pull_work. cbn. pose proof (waits_mono (pull_deadline_ms s) now now' H).
    destruct (pull_state s); lia. }
  destruct ent as [[dest e]|].
  { intros [= <- <-]. split; [done|]. split; [done|]. split; [|done]. intros _ now now' H.
    specialize (Hpm now now' H). specialize (E6 ltac:(done)). unfold work. rewrite Hpw, Hvw. cbn [cl set_cl]. lia. }
  specialize (E5 eq_refl). set (s1 := set_cl c s) in *.
  destruct (Z.eqb_spec (vec_dest s1) 0) as [Hv|Hv]; cbn [negb].
  2:{ destruct (tx_vector_locked s1) as [v s2] eqn:Ev. intros [= <- <-].
      destruct (tx_vector_work s1 v s2 Hv Ev) as [(V1 & V2 & V3 & V4 & V5) V6].
      split; [by apply (core_wf s1)|]. split; [done|]. split; [|done]. intros _ now now' H.
      specialize (Hpm now now' H). unfold work.
      assert (push_work s2 = push_work s1) as -> by (unfold push_work; injection V2 as _ _ -> _ _ _ ->; done).
      rewrite V1. change (cl s1) with c.
      assert (pull_work now' s2 = pull_work now' s1) as -> by (unfold pull_work; by rewrite V3, V4). lia. }
  assert (Hv0 : vec_work s1 = 0%nat) by (unfold vec_work; by rewrite Hv).
  assert (Hpush : forall m s', tx_push_loop (S (push_count s1)) s1 = (m, s') ->
    (pull_state s1 = PULL_IDLE \/ pull_state s1 = PULL_AWAIT_VECTOR) ->
    sync_wf s' /\ tx_at s' = tx_at s /\
    (is_Some m -> forall now now', now <= now' -> (work now' s' < work now s)%nat) /\
    (m = None -> ent_work (cl s') = 0%nat /\ vec_work s' = 0%nat /\ push_work s' = 0%nat /\
               pull_state s' = pull_state s /\ pull_deadline_ms s' = pull_deadline_ms s)).
  { intros m0 s0 Ep _. destruct (tx_push_work (S (push_count s1)) s1 m0 s0 Hwf1 ltac:(lia) Ep) as (F & P2 & P3 & P4 & P5).
    destruct F as (F1 & F2 & F3 & F4 & F5 & F6). injection F1 as F1a F1b F1c _ _.
    assert (Hv2 : vec_work s0 = 0%nat) by (unfold vec_work; by rewrite F2, Hv).
    split; [done|]. split; [done|]. split.
    - intros Hm now now' H. specialize (P5 Hm). specialize (Hpm now now' H). unfold work. rewrite Hv2, F1c. change (cl s1) with c.
      assert (pull_work now' s0 = pull_work now' s1) as -> by (unfold pull_work; by rewrite F4, F5). lia.
    - intros Hm. rewrite F1c. change (cl s1) with c. repeat split; [done | done | by apply P4 | done | done]. }
  destruct (pull_state s1) eqn:Ep; [intros E; apply Hpush; [done | by left] | | intros E; apply Hpush; [done | by right] |].
  - pose proof (my_scope_work env s1) as (M1 & M2 & M3 & M4). pose proof (my_scope_keeps env s1) as (K1 & K2 & K3 & K4 & _).
    destruct (my_scope env s1) as [mine s2]. cbn [snd] in *. intros [= <- <-].
    split; [apply (core_wf s1); done|]. split; [done|]. split; [|done]. intros _ now now' H.
    pose proof (waits_mono (pull_deadline_ms s) now now' H).
    assert (push_work (set_pull_state PULL_AWAIT_VECTOR s2) = push_work s1) as Hp2
      by (unfold push_work; cbn [cl push_count set_pull_state]; injection K1 as _ _ -> _ _ _ ->; done).
    assert (vec_work (set_pull_state PULL_AWAIT_VECTOR s2) = 0%nat) as Hv2 by (unfold vec_work; cbn; by rewrite M2, Hv).
    unfold work. rewrite Hp2, Hv2. cbn [cl set_pull_state]. rewrite (burst_work _ _ K2). change (cl s1) with c.
    change (pull_state s = PULL_SEND_VECTOR_REQ) in Ep.
    unfold pull_work. cbn [pull_state set_pull_state pull_deadline_ms]. rewrite Ep, K4. change (pull_deadline_ms s1) with (pull_deadline_ms s).
    lia.
  - intros [= <- <-]. change (pull_state s = PULL_SEND_ENTRY_REQ) in Ep.
    split; [destruct Hwf1; split; try done; cbn; lia|]. split; [done|]. split; [|done]. intros _ now now' H.
    unfold work. cbn [cl pull_reset_locked set_pull_deadline_ms set_pull_keys set_pull_peer set_pull_state set_pull_last_applied set_pull_asked_entries].
    change (push_work (pull_reset_locked ?x)) with (push_work s1).
    change (vec_work (pull_reset_locked ?x)) with (vec_work s1). rewrite Hpw, Hv0.
    change (pull_work now' (pull_reset_locked ?x)) with 0%nat. change (cl s1) with c.
    unfold pull_work. rewrite Ep. lia.
Qed.

(** ** Draining *)

Definition cluster_env_at (t : Z) (e : cluster_env) : cluster_env :=
  ClusterEnv (node_id e) (epoch_ms e) t (admin_trusts e) (nodedb_has e) (nodedb_pubkey e) (own_pubkey e)
    (decode_config e) (decode_intent e) (xeddsa_verify e) (cfg_admin e) (cfg_xeddsa e) (cfg_sig_required e)
    (cfg_frag_timeout_sec e) (cfg_serve_min_interval_ms e).
Definition env_at (t : Z) (e : sync_env) : sync_env :=
  SyncEnv (cluster_env_at t (ce e)) (channels e) (cfg_channel_name e) (rand32 e) (crc32 e) (send_ok e)
    (sign_bytes e) (is_managed e) (cfg_sign e) (cfg_build_scope e) (cfg_push_min_interval_ms e) (cfg_tx_gap_ms e)
    (cfg_digest_period_sec e) (cfg_backstop_periods e) (cfg_sync_timeout_sec e) (cfg_pull_delay_ms e) (cfg_peers e).

(** The worker run at the times it asked for, until it asks no more. *)
Fixpoint worker (env : sync_env) (fuel : nat) (s : sync) : sync :=
  match fuel with
  | O => s
  | S fuel => match tx_at s with
              | None => s
              | Some t => worker env fuel (tx_work_fn (env_at t env) s).1
              end
  end.

Lemma tx_work_step env s t :
  sync_wf s -> tx_at s = Some t -> is_Some (cluster_channel_index env) -> 0 <= cfg_tx_gap_ms env ->
  let s' := (tx_work_fn (env_at t env) s).1 in
  sync_wf s' /\
  match tx_at s' with
  | None => push_count s' = 0%nat
  | Some t' => (work t' s' < work t s)%nat
  end.
Proof.
  intros Hwf Ht [ch Hch] Hgap. unfold tx_work_fn. change (cluster_channel_index (env_at t env)) with (cluster_channel_index env).
  rewrite Hch. change (now_ms (env_at t env)) with t.
  set (s0 := set_tx_at None s). assert (Hwf0 : sync_wf s0) by (by apply (core_wf s)).
  set (s1 := if bool_decide _ && _ then _ else _).
  assert (H1 : sync_wf s1 /\ (work t s1 <= work t s)%nat /\ tx_at s1 = None /\
               (pull_state s1 = PULL_AWAIT_VECTOR -> t <= pull_deadline_ms s1)).
  { unfold s1. destruct (bool_decide_reflect (pull_state s0 = PULL_AWAIT_VECTOR)) as [Hp|Hp]; cbn [andb].
    - destruct (Z.ltb_spec (pull_deadline_ms s0) t).
      + split; [destruct Hwf0; split; try done; cbn; lia|]. split; [|done].
        unfold work. change (vec_work (pull_reset_locked ?x)) with (vec_work s). change (push_work (pull_reset_locked ?x)) with (push_work s).
        change (pull_work t (pull_reset_locked ?x)) with 0%nat. cbn [cl pull_reset_locked set_pull_deadline_ms set_pull_keys set_pull_peer set_pull_state count1 scount set_sstats set_tx_at s0]. lia.
      + split; [done|]. split; [|done]. change (work t s0) with (work t s). lia.
    - split; [done|]. split; [|done]. change (work t s0) with (work t s). lia. }
  destruct H1 as (Hwf1 & Hw1 & Ht1 & Hd1). clearbody s1.
  destruct (tx_next_locked (env_at t env) s1) as [m s2] eqn:E.
  destruct (tx_next_work _ _ _ _ Hwf1 E) as (Hwf2 & Ht2 & Hsome & Hnone).
  destruct m as [[dest msg]|].
  - cbn [fst tx_at set_tx_at]. split; [by apply (core_wf s2)|]. change (work (t + ?g) (set_tx_at ?x s2)) with (work (t + g) s2).
    change (cfg_tx_gap_ms (env_at t env)) with (cfg_tx_gap_ms env).
    specialize (Hsome ltac:(done) t (t + cfg_tx_gap_ms env) ltac:(lia)). change (work _ (set_tx_at _ s2)) with (work (t + cfg_tx_gap_ms env) s2). lia.
  - specialize (Hnone eq_refl) as (N1 & N2 & N3 & N4 & N5). apply tx_next_None in E as (_ & _ & Hc & _).
    destruct (bool_decide_reflect (pull_state s2 = PULL_AWAIT_VECTOR)) as [Hp|Hp].
    + cbn [fst tx_at set_tx_at]. split; [by apply (core_wf s2)|].
      rewrite N4 in Hp. specialize (Hd1 Hp). rewrite N5.
      set (t' := t + _). change (work t' (set_tx_at (Some t') s2)) with (work t' s2).
      assert (work t' s2 = waits (pull_deadline_ms s1) t') as -> by (unfold work; rewrite N1, N2, N3; unfold pull_work; by rewrite N4, N5, Hp).
      assert (waits (pull_deadline_ms s1) t <= work t s1)%nat by (unfold work, pull_work; rewrite Hp; lia).
      pose proof (waits_step (pull_deadline_ms s1) t Hd1) as Hs. fold t' in Hs. lia.
    + cbn [fst]. split; [done|]. by rewrite Ht2, Ht1.
Qed.

Lemma worker_drains env fuel : forall s,
  sync_wf s -> scheduled s -> is_Some (cluster_channel_index env) -> 0 <= cfg_tx_gap_ms env ->
  match tx_at s with Some t => (work t s < fuel)%nat | None => True end ->
  let s' := worker env fuel s in
  ~ owes s' /\ tx_at s' = None /\ (is_Some (tx_at s) -> push_count s' = 0%nat).
Proof.
  induction fuel as [|fuel IH]; intros s Hwf Hs Hch Hg Hf; cbn [worker].
  { destruct (tx_at s) eqn:E; [lia|]. split; [|split; [done | by intros [? ?]]].
    intros Ho. specialize (Hs Ho). rewrite E in Hs. by destruct Hs. }
  destruct (tx_at s) as [t|] eqn:E.
  - destruct (tx_work_step env s t Hwf E Hch Hg) as [Hwf' Hstep].
    pose proof (tx_work_scheduled (env_at t env) s) as Hs'. cbv zeta in *.
    set (s' := (tx_work_fn (env_at t env) s).1) in *. clearbody s'.
    destruct (IH s' Hwf' Hs' Hch Hg) as (I1 & I2 & I3); [destruct (tx_at s'); [lia | done]|].
    split; [done|]. split; [done|]. intros _. destruct (tx_at s') eqn:E'; [by apply I3|].
    destruct fuel; cbn [worker]; rewrite ?E'; done.
  - split; [|split; [done | by intros [? ?]]]. intros Ho. specialize (Hs Ho). rewrite E in Hs. by destruct Hs.
Qed.

(** ** Every operation keeps the state well formed *)

Lemma pull_reset_wf s : sync_wf s -> sync_wf (pull_reset_locked s).
Proof. intros []. split; try done. cbn. lia. Qed.

Lemma frag_reset_wf f s :
  (forall c, doc (f c) = doc c) -> sync_wf s -> sync_wf (on_cl (fun c => frag_reset_locked (f c)) s).
Proof. intros Hf []. split; cbn; rewrite ?Hf; try done; by left. Qed.

Lemma scope_set_wf env kind pinned s : sync_wf s -> sync_wf (scope_set_locked env kind pinned s).1.
Proof.
  intros Hwf. unfold scope_set_locked. set (s1 := on_cl _ (set_scope_pinned pinned s)).
  pose proof (my_scope_keeps env s1) as (K1 & _). destruct (my_scope env s1) as [sc s2]. cbn [snd] in K1.
  assert (Hwf2 : sync_wf s2) by (apply (core_wf s); [rewrite K1; done | done]).
  pose proof (retain_wf sc _ (sw_doc _ Hwf2)) as Hr.
  destruct (meshtastic_cluster_doc_retain sc _) as [d dropped]. cbn [fst] in *.
  set (s3 := scount _ _ _). assert (Hwf3 : sync_wf s3) by (destruct Hwf2; split; done).
  destruct (0 <? length dropped)%nat; [|done].
  apply (frag_reset_wf (fun c => set_ent_next 0%nat (set_ent_keys [] (set_ent_dest 0 c)))); [done|].
  apply (core_wf (pull_reset_locked s3)); [done|]. by apply pull_reset_wf.
Qed.

Lemma demote_wf env s : sync_wf s -> sync_wf (demote_locked env s).1.
Proof.
  intros Hwf. unfold demote_locked. destruct (_ || _); [done|].
  pose proof (scope_set_wf env SCOPE_CORE false s Hwf) as H. destruct (scope_set_locked _ _ _ _) as [s1 o]. cbn [fst] in *.
  by apply (core_wf s1).
Qed.

Lemma fruitless_core s : core (fruitless_inc s) = core s.
Proof. unfold fruitless_inc. by destruct (_ <? _). Qed.

Lemma pull_start_wf env peer delay reason s : sync_wf s -> sync_wf (pull_start_locked env peer delay reason s).2.
Proof.
  intros Hwf. unfold pull_start_locked. destruct (_ || _); [done|]. cbv zeta.
  assert (Hj : core (judge_last_walk s) = core s).
  { unfold judge_last_walk. destruct (pull_asked_entries s); [|done]. cbv zeta. destruct (_ =? _); [|done].
    apply (fruitless_core (set_pull_asked_entries false s)). }
  set (s1 := judge_last_walk s) in *. clearbody s1. assert (Hwf1 : sync_wf s1) by (by apply (core_wf s)).
  destruct (_ && (_ <? _)); [by apply (core_wf s1)|].
  destruct (_ && (_ <=? _)); cbn [snd]; destruct Hwf1; split; try done; cbn; lia.
Qed.

Lemma compare_core env from d s : core (digest_compare_locked env from d s).2 = core s.
Proof.
  unfold digest_compare_locked. destruct (scope_from_pb _ _) as [peer leg].
  pose proof (my_scope_keeps env s) as (K1 & _). destruct (my_scope env s) as [mine s1]. cbn [snd] in *.
  cbv zeta. set (s2 := if bool_decide _ && _ then _ else s1).
  assert (Hc : core s2 = core s) by (unfold s2; destruct (_ && _); exact K1). clearbody s2.
  destruct (scope_eq _ _); [done|]. by destruct (negb leg).
Qed.

Lemma peer_note_core env from d c a h s : core (peer_note_locked env from d c a h s) = core s.
Proof.
  unfold peer_note_locked. destruct (_ || _); [done|]. cbv zeta. destruct (find_index _ _); [done|].
  destruct (_ <? _)%nat; [done|]. by destruct (peer_oldest _ _ _ _).
Qed.

Lemma on_digest_wf env from d s : sync_wf s -> sync_wf (on_digest env from d s).
Proof.
  intros Hwf. unfold on_digest. set (s1 := on_cl _ s).
  pose proof (compare_core env from d s1) as C. destruct (digest_compare_locked env from d s1) as [verdict s2].
  cbn [snd] in C. cbv zeta. set (s3 := peer_note_locked _ _ _ _ _ _ s2).
  assert (H3 : sync_wf s3) by (apply (core_wf s); [unfold s3; rewrite peer_note_core; exact C | done]).
  clearbody s3. destruct verdict as [[[] h]|]; [by apply (core_wf s3) | | by apply (core_wf s3)].
  pose proof (pull_start_wf env from (rand32 env `mod` (cfg_pull_delay_ms env + 1)) PULL_REASON_DIGEST
    (count1 N_DIGEST_RX_MISMATCH s3) ltac:(by apply (core_wf s3))) as P.
  destruct (pull_start_locked _ _ _ _ _) as [[] s5]; [|done]. cbn [snd] in P.
  unfold kick_if_idle. destruct (tx_at s5); [done|]. by apply (core_wf s5).
Qed.

Lemma may_serve_keeps env c : doc (may_serve_locked env c).2 = doc c /\ burst (may_serve_locked env c).2 = burst c.
Proof. unfold may_serve_locked. destruct (_ =? 0); [done|]. cbv zeta. destruct (_ <=? _), (_ =? 0); done. Qed.

Lemma vector_row_wf env mine row s :
  sync_wf s -> (length (pull_keys s) < CLUSTER_PULL_KEYS)%nat -> sync_wf (vector_row env mine row s).1.
Proof.
  intros Hwf Hl. unfold vector_row. destruct row as [[pk|] [stamp|]]; try done. cbv zeta.
  destruct (_ || _); [done|]. destruct (meshtastic_cluster_doc_want _ _ _ _); cbn [fst].
  - by apply (core_wf s).
  - destruct Hwf. split; try done. cbn. rewrite length_app. cbn. lia.
  - by apply (core_wf s).
Qed.

Lemma vector_rows_wf env mine rows : forall s b, sync_wf s -> sync_wf (vector_rows env mine rows s b).1.
Proof.
  induction rows as [|row rows IH]; intros s b Hwf; cbn [vector_rows]; [done|].
  destruct (Nat.ltb_spec (length (pull_keys s)) CLUSTER_PULL_KEYS); [|done].
  pose proof (vector_row_wf env mine row s Hwf ltac:(done)) as R.
  destruct (vector_row env mine row s) as [s1 full]. by apply IH.
Qed.

Lemma on_vector_wf env from v s : sync_wf s -> sync_wf (on_vector env from v s).1.
Proof.
  intros Hwf. unfold on_vector. pose proof (my_scope_keeps env s) as (M & _). destruct (my_scope env s) as [mine s1]. cbn [snd] in M.
  assert (Hs1 : sync_wf s1) by (by apply (core_wf s)).
  destruct (_ || _); [destruct (negb _); [by apply (core_wf s1) | done]|]. cbv zeta.
  pose proof (vector_rows_wf env mine (vc_rows v) (count1 N_VECTOR_RX s1) false ltac:(by apply (core_wf s1))) as R.
  destruct (vector_rows _ _ _ _ _) as [s2 ns]. cbn [fst] in R. destruct ns.
  - pose proof (demote_wf env s2 R) as D. destruct (demote_locked env s2) as [s3 out]. cbn [fst] in *.
    destruct D. split; try done. cbn. lia.
  - destruct ((_ <=? _)%nat || _); [|done]. destruct (0 <? _)%nat; [by apply (core_wf s2)|]. cbn [fst].
    apply pull_reset_wf, (core_wf s2); [|done]. destruct (bool_decide _); [|done].
    by rewrite (fruitless_core (count1 N_PULL_EMPTY s2)).
Qed.

Lemma with_cl_wf env r s :
  sync_wf s -> doc_wf (doc r.1) -> cursor_ok (ent_frag_off r.1) -> cursor_ok (push_frag_off r.1) -> sync_wf (with_cl env r s).1.
Proof.
  intros Hwf H1 H2 H3. unfold with_cl.
  assert (H : forall l acc, core (foldl (run_effect env) acc l).1 = core acc.1).
  { induction l as [|e l IH]; intros [s0 o]; cbn [foldl]; [done|]. rewrite IH. by destruct e. }
  apply (core_wf (set_cl r.1 s)); [apply H|]. destruct Hwf. by split.
Qed.

Lemma push_enqueue_wf env key s : sync_wf s -> sync_wf (push_enqueue_locked env key s).
Proof.
  intros Hwf. unfold push_enqueue_locked. destruct (push_queued key s); [by apply (core_wf s)|].
  destruct (Nat.leb_spec CLUSTER_PUSH_QUEUE (push_count s)) as [Hf|Hf]; [by apply (core_wf s)|].
  assert (Hm : core (may_push_locked env s).2 = core s).
  { unfold may_push_locked. destruct (_ =? 0); [done|]. cbv zeta. by destruct (_ <=? _). }
  destruct (may_push_locked env s) as [ok s1]. cbn [snd] in Hm. assert (Hwf1 : sync_wf s1) by (by apply (core_wf s)).
  destruct (negb ok); [by apply (core_wf s1)|]. cbv zeta.
  set (s2 := if 0 <? push_tokens s1 then _ else s1).
  assert (Hc2 : core s2 = core s) by (unfold s2; destruct (0 <? _); exact Hm).
  assert (Hwf2 : sync_wf s2) by (by apply (core_wf s)). clearbody s2.
  assert (Hcnt : push_count s2 = push_count s) by (unfold core in Hc2; congruence).
  destruct Hwf2. split; try done; cbn; [by rewrite length_insert | lia].
Qed.

Lemma doc_write_wf env key st tomb payload s :
  sync_wf s -> sync_wf (doc_write_local env key st tomb payload s).1.1.1.
Proof.
  intros Hwf. unfold doc_write_local. cbv zeta. destruct (hlc_local _ _ _) as [c minted]. set (s1 := on_cl _ s).
  assert (Hsg : core (if cfg_sign env then sign_entry_locked env key minted tomb payload s1 else (None, s1)).2 = core s)
    by (unfold sign_entry_locked; destruct (cfg_sign env); [|done]; by destruct (_ ≫= _)).
  destruct (if cfg_sign env then _ else _) as [sig s2]. cbn [snd] in Hsg.
  assert (Hwf2 : sync_wf s2) by (by apply (core_wf s)).
  destruct (accept_or_narrow env key minted tomb payload sig s2) as [[[s3 out] d] ret] eqn:E.
  assert (H3 : sync_wf s3 /\ doc_wf d).
  { unfold accept_or_narrow in E. pose proof (accept_wf (ClusterEntry key minted tomb payload sig) (doc (cl s2)) (sw_doc _ Hwf2)) as Ha.
    unfold accept_entry in Ha. cbn [e_key e_stamp e_tombstone e_payload e_sig] in Ha.
    destruct (meshtastic_cluster_doc_accept_signed key minted tomb payload sig (doc (cl s2))) as [d0 [v|[]]];
      try (injection E as <- <- <- <-; done).
    pose proof (demote_wf env s2 Hwf2) as D. destruct (demote_locked env s2) as [s4 o]. cbn [fst] in D.
    pose proof (accept_wf (ClusterEntry key minted tomb payload sig) (doc (cl s4)) (sw_doc _ D)) as Hb.
    unfold accept_entry in Hb. cbn [e_key e_stamp e_tombstone e_payload e_sig] in Hb.
    destruct (meshtastic_cluster_doc_accept_signed key minted tomb payload sig (doc (cl s4))). injection E as <- <- <- <-. done. }
  destruct H3 as [H3 Hd]. assert (H4 : sync_wf (on_cl (set_doc d) s3)) by (destruct H3; by split).
  destruct ret as [[|[p|p|]|p]|e]; cbn [fst]; try done.
  pose proof (push_enqueue_wf env key _ H4) as H5. unfold push_kick, kick_if_idle.
  destruct (tx_at _); [done|]. by apply (core_wf (push_enqueue_locked env key (on_cl (set_doc d) s3))).
Qed.

Lemma tx_work_wf env s : sync_wf s -> sync_wf (tx_work_fn env s).1.
Proof.
  intros Hwf. unfold tx_work_fn. destruct (cluster_channel_index env) as [ch|].
  2:{ cbn [fst]. apply (frag_reset_wf (set_ent_dest 0)); [done|]. apply (core_wf (pull_reset_locked s)); [done|]. by apply pull_reset_wf. }
  set (s1 := if bool_decide _ && _ then _ else _).
  assert (H1 : sync_wf s1).
  { unfold s1. destruct (_ && _); [|by apply (core_wf s)]. apply pull_reset_wf. by apply (core_wf s). }
  clearbody s1. destruct (tx_next_locked env s1) as [m s2] eqn:E.
  destruct (tx_next_work _ _ _ _ H1 E) as (H2 & _). destruct m as [[dest msg]|]; [by apply (core_wf s2)|].
  destruct (bool_decide _); [by apply (core_wf s2) | done].
Qed.

Lemma backstop_wf env s : sync_wf s -> sync_wf (backstop_tick env s).
Proof.
  intros Hwf. unfold backstop_tick. destruct (_ =? 0); [done|]. destruct (negb _); [by apply (core_wf s)|].
  destruct (0 <? _); [by apply (core_wf s)|]. cbv zeta. set (s1 := set_backstop_countdown _ s).
  assert (H1 : sync_wf s1) by (by apply (core_wf s)). destruct (_ =? 0); [done|].
  pose proof (pull_start_wf env (backstop_peer s1) 0 PULL_REASON_BACKSTOP s1 H1) as P.
  destruct (pull_start_locked _ _ _ _ _) as [[] s2]; [by apply (core_wf s2) | done].
Qed.

Lemma sync_step_wf ev s : sync_wf s -> sync_wf (sync_step ev s).1.
Proof.
  intros Hwf. destruct ev as [env|env|env from ch pki m|env key st tomb payload|env node|env choice|env|env]; cbn [sync_step].
  - destruct (due _ _); [by apply tx_work_wf | done].
  - destruct (due _ _); [|done]. unfold digest_work_fn. destruct (cluster_channel_index env) as [ch|]; [|by apply (core_wf s)].
    set (s1 := set_channel_missing_logged false _). pose proof (my_scope_keeps env s1) as (M & _).
    destruct (my_scope env s1) as [mine s2]. cbn [snd fst] in *.
    set (s3 := if send_ok env then count1 N_DIGEST_TX s2 else s2).
    apply (core_wf (backstop_tick env s3)); [done|]. apply backstop_wf, (core_wf s); [|done].
    unfold s3. destruct (send_ok env); exact M.
  - unfold cluster_on_packet. cbv zeta. destruct (negb _); [by apply (core_wf s)|].
    destruct m as [[d|sc|v|ks|e|]|]; cbn [fst]; try (by apply (core_wf s)).
    + by apply on_digest_wf.
    + unfold on_vector_req. destruct (negb _); [by apply (core_wf s)|].
      pose proof (may_serve_keeps (ce env) (cl s)) as [K1 K2]. destruct (may_serve_locked _ _) as [serve c]. cbn [snd] in *.
      injection K2 as _ _ _ K3 K4. cbv zeta.
      assert (H1 : sync_wf (set_cl c s)) by (destruct Hwf; split; cbn; rewrite ?K1, ?K3, ?K4; done).
      destruct (negb serve); [done|]. destruct (scope_from_pb sc from). apply (core_wf (set_cl c s)); [|done].
      unfold core, on_cl, serve_started_locked. cbn. by destruct (0 <? _).
    + by apply on_vector_wf.
    + apply with_cl_wf; [done|..]; unfold on_entry_req;
        (assert (K : doc (if ent_dest (cl s) =? 0 then may_serve_locked (ce env) (cl s) else (false, cl s)).2 = doc (cl s) /\
                     burst (if ent_dest (cl s) =? 0 then may_serve_locked (ce env) (cl s) else (false, cl s)).2 = burst (cl s))
           by (destruct (_ =? 0); [apply may_serve_keeps | done]));
        destruct (if ent_dest (cl s) =? 0 then _ else _) as [serve c]; cbn [snd] in K;
        destruct K as [K1 K2]; injection K2 as _ _ _ K3 K4; destruct Hwf; cbv zeta;
        unfold serve_started_locked; destruct serve; cbn; repeat case_match; cbn; rewrite ?K1, ?K3, ?K4; (done || by left).
    + pose proof (on_entry_burst (ce env) from e (cl s)) as K. injection K as _ _ _ K3 K4.
      apply with_cl_wf; [done | apply on_entry_wf, Hwf | rewrite K3; apply Hwf | rewrite K4; apply Hwf].
  - pose proof (doc_write_wf env key st tomb payload s Hwf) as W. by destruct (doc_write_local _ _ _ _ _ _) as [[[s1 o] r] m].
  - cbn [fst]. unfold meshtastic_cluster_pull. destruct (_ || _); [done|]. destruct (cluster_channel_index env); [|done].
    pose proof (pull_start_wf env node 0 PULL_REASON_SHELL s Hwf) as P.
    destruct (pull_start_locked _ _ _ _ _) as [[] s1]; [by apply (core_wf s1) | done].
  - unfold meshtastic_cluster_scope_select. cbv zeta.
    assert (H : forall kind pinned, sync_wf (scope_set_locked env kind pinned s).1) by (intros; by apply scope_set_wf).
    destruct choice; cbn [fst]; try done; (destruct (_ && _); [done|]);
      [specialize (H SCOPE_FULL false) | specialize (H SCOPE_FULL true) | specialize (H SCOPE_CORE true)];
      destruct (scope_set_locked _ _ _ _) as [s1 o]; by apply (core_wf s1).
  - unfold meshtastic_cluster_reset. destruct (meshtastic_cluster_doc_clear _) as [d dr] eqn:Ed.
    destruct (compiled_scope env) as [k p]. cbv zeta. cbn [fst]. injection Ed as <- _.
    destruct Hwf. split; cbn; try done; try (by left); try (unfold CLUSTER_PULL_KEYS, CLUSTER_PUSH_QUEUE; lia).
    split; [constructor | cbn; lia | constructor].
  - by apply (core_wf s).
Qed.

Lemma sync_run_inv evs : forall s, sync_wf s -> scheduled s -> sync_wf (sync_run evs s) /\ scheduled (sync_run evs s).
Proof.
  induction evs as [|ev evs IH]; intros s Hwf Hs; [done|]. cbn [sync_run foldl].
  apply IH; [by apply sync_step_wf | by apply sync_step_scheduled].
Qed.

(** ** Queued pushes keep the worker scheduled *)

(** The worker's runs find the cluster's channel. *)
Definition channel_up (ev : sync_event) : Prop :=
  match ev with EvTxWork env => is_Some (cluster_channel_index env) | _ => True end.

Definition armed (s : sync) : Prop := (0 < push_count s)%nat -> is_Some (tx_at s).
Definition keeps_pushes (s s' : sync) : Prop :=
  push_count s' = push_count s /\ (is_Some (tx_at s) -> is_Some (tx_at s')).
#[export] Instance keeps_pushes_preorder : PreOrder keeps_pushes.
Proof. split; [done|]. intros a b c [H1 H2] [H3 H4]. split; [congruence | auto]. Qed.
Lemma keeps_armed s s' : keeps_pushes s s' -> armed s -> armed s'.
Proof. intros [H1 H2] Ha Hp. apply H2, Ha. lia. Qed.
Lemma scheduled_armed s : is_Some (tx_at s) -> armed s.
Proof. by intros H _. Qed.

(** An operation that leaves the fields [core] alone. *)
Lemma core_keeps s s' : core s' = core s -> (is_Some (tx_at s) -> is_Some (tx_at s')) -> keeps_pushes s s'.
Proof. unfold core. intros H Ht. split; [congruence | done]. Qed.

Lemma my_scope_pushes env s : keeps_pushes s (my_scope env s).2.
Proof.
  apply core_keeps; [apply my_scope_keeps|]. by destruct (my_scope_work env s) as (_ & _ & _ & ->).
Qed.

Lemma pull_start_pushes env peer delay reason s : keeps_pushes s (pull_start_locked env peer delay reason s).2.
Proof.
  unfold pull_start_locked, judge_last_walk, fruitless_inc. cbv zeta. repeat case_match; done.
Qed.

Lemma scope_set_pushes env kind pinned s : keeps_pushes s (scope_set_locked env kind pinned s).1.
Proof.
  unfold scope_set_locked. set (s1 := on_cl _ (set_scope_pinned pinned s)).
  pose proof (my_scope_pushes env s1) as M. destruct (my_scope env s1) as [sc s2]. cbn [snd] in M.
  destruct (meshtastic_cluster_doc_retain sc _) as [d dropped]. cbn [fst].
  etrans; [exact M|]. by destruct (0 <? length dropped)%nat.
Qed.
Lemma demote_pushes env s : keeps_pushes s (demote_locked env s).1.
Proof.
  unfold demote_locked. destruct (_ || _); [done|].
  pose proof (scope_set_pushes env SCOPE_CORE false s). by destruct (scope_set_locked _ _ _ _).
Qed.
Lemma vector_rows_pushes env mine rows : forall s b, keeps_pushes s (vector_rows env mine rows s b).1.
Proof.
  induction rows as [|row rows IH]; intros s b; cbn [vector_rows]; [done|]. destruct (_ <? _)%nat; [|done].
  assert (keeps_pushes s (vector_row env mine row s).1) as R.
  { unfold vector_row. destruct row as [[pk|] [stamp|]]; try done. cbv zeta. destruct (_ || _); [done|]. by repeat case_match. }
  destruct (vector_row env mine row s) as [s1 full]. etrans; [exact R | apply IH].
Qed.

Lemma on_digest_pushes env from d s : keeps_pushes s (on_digest env from d s).
Proof.
  unfold on_digest. set (s1 := on_cl _ s). cbv zeta.
  assert (C : keeps_pushes s1 (digest_compare_locked env from d s1).2)
    by (apply core_keeps; [apply compare_core|]; by destruct (compare_work env from d s1) as (_ & _ & _ & ->)).
  destruct (digest_compare_locked env from d s1) as [verdict s2]. cbn [snd] in C. set (s3 := peer_note_locked _ _ _ _ _ _ s2).
  assert (H3 : keeps_pushes s s3).
  { etrans; [exact C|]. apply core_keeps; [apply peer_note_core|]. unfold s3. by destruct (peer_note_work env from d
      match verdict with Some _ => true | None => false end match verdict with Some (v, _) => v | None => false end
      match verdict with Some (_, h) => h | None => 0 end s2) as (_ & _ & _ & ->). }
  clearbody s3. destruct verdict as [[[] h]|]; [exact H3| |exact H3].
  pose proof (pull_start_pushes env from (rand32 env `mod` (cfg_pull_delay_ms env + 1)) PULL_REASON_DIGEST (count1 N_DIGEST_RX_MISMATCH s3)) as P.
  destruct (pull_start_locked _ _ _ _ _) as [[] s5]; cbn [snd] in P; [|etrans; [exact H3 | exact P]].
  etrans; [exact H3|]. etrans; [exact P|]. unfold kick_if_idle. by destruct (tx_at s5).
Qed.

Lemma on_vector_pushes env from v s : keeps_pushes s (on_vector env from v s).1.
Proof.
  unfold on_vector. pose proof (my_scope_pushes env s) as M. destruct (my_scope env s) as [mine s1]. cbn [snd] in M.
  destruct (_ || _); [destruct (negb _); exact M|]. cbv zeta. etrans; [exact M|].
  pose proof (vector_rows_pushes env mine (vc_rows v) (count1 N_VECTOR_RX s1) false) as R.
  destruct (vector_rows _ _ _ _ _) as [s2 ns]. cbn [fst] in R. destruct ns.
  - pose proof (demote_pushes env s2) as D. destruct (demote_locked env s2) as [s3 out]. cbn [fst] in *.
    etrans; [exact R | exact D].
  - etrans; [exact R|]. unfold fruitless_inc. repeat case_match; done.
Qed.

Lemma with_cl_pushes env r s : keeps_pushes s (with_cl env r s).1.
Proof.
  unfold with_cl. assert (H : forall l acc, keeps_pushes acc.1 (foldl (run_effect env) acc l).1); [|apply (H r.2 (set_cl r.1 s, []))].
  induction l as [|e l IH]; intros [s0 o]; cbn [foldl]; [done|]. etrans; [|apply IH]. by destruct e.
Qed.

Lemma packet_pushes env from ch pki m s : keeps_pushes s (cluster_on_packet env from ch pki m s).1.
Proof.
  unfold cluster_on_packet. cbv zeta. destruct (negb _); [done|].
  destruct m as [[d|sc|v|ks|e|]|]; cbn [fst]; try done; [apply on_digest_pushes| |apply on_vector_pushes|apply with_cl_pushes..].
  unfold on_vector_req. destruct (negb _); [done|]. destruct (may_serve_locked _ _) as [serve c].
  destruct (negb serve); [done|]. by destruct (scope_from_pb sc from).
Qed.

(** A write may queue a push, and then wakes the worker. *)
Lemma doc_write_armed env key st tomb payload s : armed s -> armed (doc_write_local env key st tomb payload s).1.1.1.
Proof.
  intros Ha. unfold doc_write_local. cbv zeta. destruct (hlc_local _ _ _) as [c minted]. set (s1 := on_cl _ s).
  assert (Hsg : keeps_pushes s (if cfg_sign env then sign_entry_locked env key minted tomb payload s1 else (None, s1)).2)
    by (unfold sign_entry_locked; destruct (cfg_sign env); [|done]; by destruct (_ ≫= _)).
  destruct (if cfg_sign env then _ else _) as [sig s2]. cbn [snd] in Hsg.
  destruct (accept_or_narrow env key minted tomb payload sig s2) as [[[s3 out] d] ret] eqn:E.
  assert (H3 : keeps_pushes s s3).
  { etrans; [exact Hsg|]. unfold accept_or_narrow in E.
    destruct (meshtastic_cluster_doc_accept_signed _ _ _ _ _ _) as [d0 [v|[]]]; try (injection E as <- <- <- <-; done).
    pose proof (demote_pushes env s2) as D. destruct (demote_locked env s2) as [s4 o].
    destruct (meshtastic_cluster_doc_accept_signed _ _ _ _ _ _). injection E as <- <- <- <-. exact D. }
  destruct ret as [[|[p|p|]|p]|e]; cbn [fst]; try (by apply (keeps_armed s), Ha; etrans; [exact H3|]).
  apply scheduled_armed. unfold push_kick, kick_if_idle.
  destruct (tx_at (push_enqueue_locked env key (on_cl (set_doc d) s3))) eqn:Et; [by rewrite Et | done].
Qed.

Lemma tx_work_armed env s : is_Some (cluster_channel_index env) -> armed (tx_work_fn env s).1.
Proof.
  intros [ch Hch]. unfold tx_work_fn. rewrite Hch. set (s1 := if bool_decide _ && _ then _ else _). clearbody s1.
  destruct (tx_next_locked env s1) as [[[dest m]|] s2] eqn:E; [by apply scheduled_armed|].
  apply tx_next_None in E as (_ & _ & Hz & _). intros Hp. exfalso. revert Hp.
  destruct (bool_decide _); cbn; lia.
Qed.

Lemma sync_step_armed ev s : channel_up ev -> armed s -> armed (sync_step ev s).1.
Proof.
  intros Hc Ha. destruct ev as [env|env|env from ch pki m|env key st tomb payload|env node|env choice|env|env]; cbn [sync_step].
  - destruct (due _ _); [by apply tx_work_armed | done].
  - destruct (due _ _); [|done]. unfold digest_work_fn. destruct (cluster_channel_index env) as [ch|]; [|exact Ha].
    set (s1 := set_channel_missing_logged false _). pose proof (my_scope_pushes env s1) as M.
    destruct (my_scope env s1) as [mine s2]. cbn [snd fst] in *. set (s3 := if send_ok env then count1 N_DIGEST_TX s2 else s2).
    assert (H3 : keeps_pushes s s3) by (etrans; [exact M|]; unfold s3; by destruct (send_ok env)). clearbody s3.
    apply (keeps_armed s), Ha. etrans; [exact H3|]. cut (keeps_pushes s3 (backstop_tick env s3)); [done|].
    unfold backstop_tick. destruct (_ =? 0); [done|]. destruct (negb _); [done|]. destruct (0 <? _); [done|].
    cbv zeta. set (s4 := set_backstop_countdown _ s3). destruct (_ =? 0); [done|].
    pose proof (pull_start_pushes env (backstop_peer s4) 0 PULL_REASON_BACKSTOP s4) as P.
    by destruct (pull_start_locked _ _ _ _ _) as [[] s5]; [destruct P as [P _]; split|].
  - by apply (keeps_armed s), Ha; apply packet_pushes.
  - pose proof (doc_write_armed env key st tomb payload s Ha) as W. by destruct (doc_write_local _ _ _ _ _ _) as [[[s1 o] r] m].
  - cbn [fst]. unfold meshtastic_cluster_pull. destruct (_ || _); [exact Ha|]. destruct (cluster_channel_index env); [|exact Ha].
    pose proof (pull_start_pushes env node 0 PULL_REASON_SHELL s) as P.
    destruct (pull_start_locked _ _ _ _ _) as [[] s1]; [by apply scheduled_armed | by apply (keeps_armed s)].
  - apply (keeps_armed s), Ha. unfold meshtastic_cluster_scope_select. cbv zeta.
    assert (H : forall kind pinned, keeps_pushes s (scope_set_locked env kind pinned s).1) by (intros; apply scope_set_pushes).
    destruct choice; cbn [fst]; try done; (destruct (_ && _); [done|]);
      [specialize (H SCOPE_FULL false) | specialize (H SCOPE_FULL true) | specialize (H SCOPE_CORE true)];
      destruct (scope_set_locked _ _ _ _); exact H.
  - unfold meshtastic_cluster_reset. destruct (meshtastic_cluster_doc_clear _) as [d dr].
    destruct (compiled_scope env) as [k p]. cbv zeta. cbn [fst]. intros Hp. cbn in Hp. lia.
  - exact Ha.
Qed.
Lemma sync_run_armed evs : forall s, Forall channel_up evs -> armed s -> armed (sync_run evs s).
Proof.
  induction evs as [|ev evs IH]; intros s Hc Ha; [done|]. apply Forall_cons in Hc as [Hc1 Hc2].
  cbn [sync_run foldl]. apply IH; [done | by apply sync_step_armed].
Qed.

(** ** The document and the claim *)

Definition claim_of (s : sync) := (doc (cl s), scope_kind_of (cl s)).

Lemma my_scope_claim env s : claim_of (my_scope env s).2 = claim_of s.
Proof. unfold my_scope, my_scope_locked. by destruct (_ && _). Qed.

Lemma pull_start_claim env peer delay reason s : claim_of (pull_start_locked env peer delay reason s).2 = claim_of s.
Proof.
  unfold pull_start_locked. destruct (_ || _); [done|]. cbv zeta.
  assert (Hj : claim_of (judge_last_walk s) = claim_of s).
  { unfold judge_last_walk. destruct (pull_asked_entries s); [|done]. cbv zeta. destruct (_ =? _); [|done].
    unfold fruitless_inc. by destruct (_ <? _). }
  set (s1 := judge_last_walk s) in *. clearbody s1. destruct (_ && (_ <? _)); [done|]. by destruct (_ && (_ <=? _)).
Qed.

Lemma tx_entry_claim n : forall c, doc (tx_entry_loop n c).2 = doc c /\ scope_kind_of (tx_entry_loop n c).2 = scope_kind_of c.
Proof.
  assert (Ha : forall c, doc (ent_advance_locked c) = doc c /\ scope_kind_of (ent_advance_locked c) = scope_kind_of c)
    by (intros; unfold ent_advance_locked; cbv zeta; by destruct (_ <=? _)%nat).
  induction n as [|n IH]; intros c; cbn [tx_entry_loop]; [done|]. destruct (_ && _); [|done].
  destruct (ent_keys c !! _); [|done]. destruct (meshtastic_cluster_doc_find _ _).
  - destruct (entry_to_pb_frag _ _) as [[? off] ?]. cbv zeta. destruct (_ <=? _); [|done]. exact (Ha (set_ent_frag_off off c)).
  - destruct (IH (ent_advance_locked c)) as [-> ->]. apply Ha.
Qed.

Lemma tx_push_claim n : forall s, claim_of (tx_push_loop n s).2 = claim_of s.
Proof.
  induction n as [|n IH]; intros s; cbn [tx_push_loop]; [done|]. destruct (_ <? _)%nat; [|done].
  destruct (_ ≫= _); [|by rewrite IH]. destruct (entry_to_pb_frag _ _) as [[? ?] ?]. cbv zeta. by destruct (_ <=? _).
Qed.

Lemma tx_next_claim env s : claim_of (tx_next_locked env s).2 = claim_of s.
Proof.
  unfold tx_next_locked. pose proof (tx_entry_claim (S (length (ent_keys (cl s)) - ent_next (cl s))) (cl s)) as [E1 E2].
  fold (tx_entry_locked (cl s)) in E1, E2. destruct (tx_entry_locked (cl s)) as [ent c]. cbn [snd] in *. cbv zeta.
  assert (H1 : claim_of (set_cl c s) = claim_of s) by (unfold claim_of; cbn; congruence).
  destruct ent as [[dest e]|]; [done|]. destruct (negb _).
  { unfold tx_vector_locked. cbv zeta. destruct (vector_fill _ _ _ _ _) as [[? ?] ?]. destruct (_ <=? _)%nat; exact H1. }
  destruct (pull_state (set_cl c s)); [by rewrite tx_push_claim | | by rewrite tx_push_claim | exact H1].
  pose proof (my_scope_claim env (set_cl c s)) as M. destruct (my_scope env (set_cl c s)) as [mine s2]. cbn [snd] in *. exact (eq_trans M H1).
Qed.

Lemma tx_work_claim env s : claim_of (tx_work_fn env s).1 = claim_of s.
Proof.
  unfold tx_work_fn. destruct (cluster_channel_index env); [|done].
  set (s1 := if bool_decide _ && _ then _ else _). assert (H1 : claim_of s1 = claim_of s) by (unfold s1; by destruct (_ && _)).
  clearbody s1. pose proof (tx_next_claim env s1) as N. destruct (tx_next_locked env s1) as [[[d m]|] s2]; cbn [snd] in N.
  - exact (eq_trans N H1).
  - destruct (bool_decide _); exact (eq_trans N H1).
Qed.

Lemma on_digest_claim env from d s : claim_of (on_digest env from d s) = claim_of s.
Proof.
  unfold on_digest. set (s1 := on_cl _ s). assert (H2 : claim_of (digest_compare_locked env from d s1).2 = claim_of s).
  { unfold digest_compare_locked. destruct (scope_from_pb _ _) as [peer leg]. pose proof (my_scope_claim env s1) as M.
    destruct (my_scope env s1) as [mine s2]. cbn [snd] in M. cbv zeta. set (s3 := if bool_decide _ && _ then _ else s2).
    assert (claim_of s3 = claim_of s) by (unfold s3; destruct (_ && _); exact M). clearbody s3.
    destruct (scope_eq _ _); [done|]. by destruct (negb leg). }
  destruct (digest_compare_locked env from d s1) as [verdict s2]. cbn [snd] in H2. cbv zeta.
  assert (H3 : forall c a h, claim_of (peer_note_locked env from d c a h s2) = claim_of s2).
  { intros. unfold peer_note_locked. destruct (_ || _); [done|]. cbv zeta. destruct (find_index _ _); [done|].
    destruct (_ <? _)%nat; [done|]. by destruct (peer_oldest _ _ _ _). }
  destruct verdict as [[[] h]|]; [exact (eq_trans (H3 _ _ _) H2) | | exact (eq_trans (H3 _ _ _) H2)].
  set (s4 := count1 _ _). pose proof (pull_start_claim env from (rand32 env `mod` (cfg_pull_delay_ms env + 1)) PULL_REASON_DIGEST s4) as P.
  destruct (pull_start_locked _ _ _ _ s4) as [[] s5]; cbn [snd] in P; [|exact (eq_trans P (eq_trans (H3 _ _ _) H2))].
  unfold kick_if_idle. destruct (tx_at s5); exact (eq_trans P (eq_trans (H3 _ _ _) H2)).
Qed.

Lemma on_vector_req_claim env from sc s : claim_of (on_vector_req env from sc s) = claim_of s.
Proof.
  unfold on_vector_req. destruct (negb _); [done|].
  assert (M : doc (may_serve_locked (ce env) (cl s)).2 = doc (cl s) /\ scope_kind_of (may_serve_locked (ce env) (cl s)).2 = scope_kind_of (cl s)).
  { unfold may_serve_locked. destruct (_ =? 0); [done|]. cbv zeta. destruct (_ <=? _), (_ =? 0); done. }
  destruct (may_serve_locked _ _) as [serve c]. cbn [snd] in M. destruct M as [M1 M2]. cbv zeta.
  destruct (negb serve); [unfold claim_of; cbn; congruence|]. destruct (scope_from_pb sc from).
  unfold claim_of, serve_started_locked. cbn. destruct (0 <? _); cbn; congruence.
Qed.

Lemma vector_rows_claim env mine rows : forall s b, claim_of (vector_rows env mine rows s b).1 = claim_of s.
Proof.
  induction rows as [|row rows IH]; intros s b; cbn [vector_rows]; [done|]. destruct (_ <? _)%nat; [|done].
  assert (R : claim_of (vector_row env mine row s).1 = claim_of s).
  { unfold vector_row. destruct row as [[pk|] [stamp|]]; try done. cbv zeta. destruct (_ || _); [done|].
    by destruct (meshtastic_cluster_doc_want _ _ _ _). }
  destruct (vector_row env mine row s) as [s1 full]. by rewrite IH.
Qed.

(** A vector narrows the claim or leaves it. *)
Lemma on_vector_claim env from v s :
  exists s1, claim_of s1 = claim_of s /\ scope_pinned s1 = scope_pinned s /\
    (claim_of (on_vector env from v s).1 = claim_of s1 \/ claim_of (on_vector env from v s).1 = claim_of (demote_locked env s1).1).
Proof.
  unfold on_vector. pose proof (my_scope_claim env s) as M.
  assert (Mp : scope_pinned (my_scope env s).2 = scope_pinned s) by (unfold my_scope, my_scope_locked; by destruct (_ && _)).
  destruct (my_scope env s) as [mine s1]. cbn [snd] in *.
  destruct (_ || _); [exists s1; destruct (negb _); repeat split; (done || by left)|]. cbv zeta.
  pose proof (vector_rows_claim env mine (vc_rows v) (count1 N_VECTOR_RX s1) false) as R.
  assert (Rp : forall rows s b, scope_pinned (vector_rows env mine rows s b).1 = scope_pinned s).
  { induction rows as [|row rows IH]; intros s0 b; cbn [vector_rows]; [done|]. destruct (_ <? _)%nat; [|done].
    assert (Q : scope_pinned (vector_row env mine row s0).1 = scope_pinned s0).
    { unfold vector_row. destruct row as [[pk|] [stamp|]]; try done. cbv zeta. destruct (_ || _); [done|].
      by destruct (meshtastic_cluster_doc_want _ _ _ _). }
    destruct (vector_row env mine row s0) as [s3 full]. by rewrite IH. }
  specialize (Rp (vc_rows v) (count1 N_VECTOR_RX s1) false).
  destruct (vector_rows _ _ _ _ _) as [s2 ns]. cbn [fst] in *. exists s2.
  split; [exact (eq_trans R M)|]. split; [exact (eq_trans Rp Mp)|].
  destruct ns; [right; by destruct (demote_locked env s2) as [s3 out]|]. left.
  destruct ((_ <=? _)%nat || _); [|done]. destruct (0 <? _)%nat; [done|]. cbn [fst].
  destruct (bool_decide _); [|done]. unfold fruitless_inc. by destruct (_ <? _).
Qed.

(** Everything held is claimed, on a node with the id [n]. *)
Definition claim_held (n : Z) (s : sync) : Prop :=
  forall x, x ∈ entries (doc (cl s)) ->
    section_shareable (k_section (e_key x)) = true /\
    meshtastic_cluster_scope_contains (meshtastic_cluster_scope_make (scope_kind_of (cl s)) n) (e_key x) = true.

(** A key every claim covers: the base, or this node's own. *)
Definition own_key (n : Z) (k : cluster_key) : Prop :=
  section_shareable (k_section k) = true /\
  meshtastic_cluster_scope_contains (meshtastic_cluster_scope_make SCOPE_CORE n) k = true.

Lemma claim_held_ext n s s' : claim_of s' = claim_of s -> claim_held n s -> claim_held n s'.
Proof. unfold claim_of, claim_held. intros [= -> ->]. done. Qed.

Lemma my_scope_is n env s : me env = n -> n <> 0 -> (my_scope_locked (ce env) (cl s)).1 = meshtastic_cluster_scope_make (scope_kind_of (cl s)) n.
Proof. intros <- Hn. unfold my_scope_locked, me in *. rewrite (proj2 (Z.eqb_neq _ _) Hn), andb_false_r. done. Qed.

Lemma scope_set_claim env kind pinned s :
  me env <> 0 ->
  let s' := (scope_set_locked env kind pinned s).1 in
  scope_kind_of (cl s') = kind /\
  doc (cl s') = (meshtastic_cluster_doc_retain (meshtastic_cluster_scope_make kind (me env)) (doc (cl s))).1.
Proof.
  intros Hn. unfold scope_set_locked. set (s1 := on_cl _ (set_scope_pinned pinned s)).
  pose proof (my_scope_claim env s1) as M. pose proof (my_scope_is (me env) env s1 eq_refl Hn) as Hsc.
  unfold my_scope in *. destruct (my_scope_locked (ce env) (cl s1)) as [sc c]. cbn [fst snd] in *. unfold claim_of in M. injection M as M1 M2.
  cbn in M1, M2, Hsc. subst sc. cbn [cl set_cl]. rewrite M1. change (doc (cl s1)) with (doc (cl s)).
  destruct (meshtastic_cluster_doc_retain _ _) as [d dropped]. destruct (0 <? length dropped)%nat; cbn; done.
Qed.

Lemma retain_held n kind s d' :
  d' = (meshtastic_cluster_doc_retain (meshtastic_cluster_scope_make kind n) (doc (cl s))).1 -> claim_held n s ->
  forall x, x ∈ entries d' -> section_shareable (k_section (e_key x)) = true /\
    meshtastic_cluster_scope_contains (meshtastic_cluster_scope_make kind n) (e_key x) = true.
Proof.
  intros -> Hh x Hx. rewrite retain_entries in Hx. apply list_elem_of_In, filter_In in Hx as [Hx Hc].
  apply list_elem_of_In in Hx. split; [by apply Hh | done].
Qed.

Lemma scope_set_held n env kind pinned s :
  me env = n -> n <> 0 -> claim_held n s -> claim_held n (scope_set_locked env kind pinned s).1.
Proof.
  intros <- Hn Hh. destruct (scope_set_claim env kind pinned s Hn) as [Hk Hd]. intros x Hx. rewrite Hk.
  by apply (retain_held (me env) kind s _ Hd Hh).
Qed.

Lemma own_key_any n k kind : own_key n k -> kind <> SCOPE_BASE ->
  meshtastic_cluster_scope_contains (meshtastic_cluster_scope_make kind n) k = true.
Proof. intros [_ H] Hk. by destruct kind. Qed.

Lemma accept_elem key stamp tomb payload sig d d' r x :
  doc_wf d -> meshtastic_cluster_doc_accept_signed key stamp tomb payload sig d = (d', r) ->
  x ∈ entries d' -> e_key x = key \/ x ∈ entries d.
Proof.
  intros Hwf E Hx. change (accept_entry (ClusterEntry key stamp tomb payload sig) d = (d', r)) in E.
  destruct (accept_codes _ _ _ _ E) as [->|[-> _]]; [|by right].
  destruct (accept_stored _ _ _ Hwf E) as (_ & _ & Hput). rewrite Hput in Hx.
  apply put_entry_elem in Hx as [->|[Hx _]]; [by left | by right | by apply wf_sorted].
Qed.

Lemma sign_claim env key m tomb payload s :
  claim_of (if cfg_sign env then sign_entry_locked env key m tomb payload s else (None, s)).2 = claim_of s /\
  scope_pinned (if cfg_sign env then sign_entry_locked env key m tomb payload s else (None, s)).2 = scope_pinned s.
Proof. unfold sign_entry_locked. destruct (cfg_sign env); [|done]. by destruct (_ ≫= _). Qed.

Lemma push_enqueue_claim env key s : claim_of (push_kick env (push_enqueue_locked env key s)) = claim_of s.
Proof.
  assert (H : claim_of (push_enqueue_locked env key s) = claim_of s).
  { unfold push_enqueue_locked. destruct (push_queued key s); [done|].
    assert (M : claim_of (if (CLUSTER_PUSH_QUEUE <=? push_count s)%nat then (false, s) else may_push_locked env s).2 = claim_of s).
    { destruct (_ <=? _)%nat; [done|]. unfold may_push_locked. destruct (_ =? 0); [done|]. cbv zeta. by destruct (_ <=? _). }
    destruct (if (_ <=? _)%nat then _ else _) as [ok s1]. cbn [snd] in M. destruct (negb ok); [done|]. cbv zeta. by destruct (0 <? _). }
  unfold push_kick, kick_if_idle. by destruct (tx_at _).
Qed.

(** The document after a local write is what the merge made of it, in the claim then. *)
Lemma doc_write_claim env key st tomb payload s :
  exists minted sig s2, claim_of s2 = claim_of s /\ scope_pinned s2 = scope_pinned s /\
  let '(s3, _, d, ret) := accept_or_narrow env key minted tomb payload sig s2 in
  let '(s', _, r, _) := doc_write_local env key st tomb payload s in
  doc (cl s') = d /\ scope_kind_of (cl s') = scope_kind_of (cl s3) /\
  r = (match ret with Val 1 => OK | Val _ => ERR EINVAL | Fail e => ERR e end).
Proof.
  unfold doc_write_local. cbv zeta. destruct (hlc_local _ _ _) as [c minted]. set (s1 := on_cl _ s).
  destruct (sign_claim env key minted tomb payload s1) as [C P].
  destruct (if cfg_sign env then _ else _) as [sig s2]. cbn [snd] in *. exists minted, sig, s2.
  split; [exact C|]. split; [exact P|].
  destruct (accept_or_narrow env key minted tomb payload sig s2) as [[[s3 out] d] ret].
  destruct ret as [[|[p|p|]|p]|e]; try done.
  pose proof (push_enqueue_claim env key (on_cl (set_doc d) s3)) as Q. unfold claim_of in Q. injection Q as Q1 Q2.
  rewrite Q1, Q2. done.
Qed.

(** ** A narrowed claim always fits *)

(** The keys a narrowed node claims: twice the shareable sections. *)
Definition core_keys (n : Z) : list cluster_key :=
  (ClusterKey LAYER_BASE 0 <$> shareable_sections) ++ (ClusterKey LAYER_NODE n <$> shareable_sections).

Lemma own_key_listed n k : own_key n k -> key_is_valid k = true -> k ∈ core_keys n.
Proof.
  intros [Hs Hc] Hv. destruct k as [l nd sec]. unfold section_shareable in Hs. cbn [k_section] in Hs.
  apply existsb_exists in Hs as (sec' & Hin & Heq%Z.eqb_eq). subst sec'. apply list_elem_of_In in Hin.
  unfold key_is_valid, meshtastic_cluster_scope_contains, meshtastic_cluster_scope_make in Hv, Hc. cbn in Hv, Hc.
  unfold core_keys. apply elem_of_app. destruct (Z.eqb_spec l LAYER_BASE) as [->|].
  - left. apply Z.eqb_eq in Hv as ->. by apply list_elem_of_fmap_2.
  - right. destruct (Z.eqb_spec l LAYER_NODE) as [->|]; [|done]. apply Z.eqb_eq in Hc as ->. by apply list_elem_of_fmap_2.
Qed.

(** With a key that is not there, a narrowed table has a free row. *)
Lemma core_has_room n s key :
  doc_wf (doc (cl s)) -> claim_held n s -> scope_kind_of (cl s) = SCOPE_CORE -> own_key n key -> key_is_valid key = true ->
  meshtastic_cluster_doc_find key (doc (cl s)) = None -> (length (entries (doc (cl s))) < 14)%nat.
Proof.
  intros Hd Hh Hk Hkey Hv Hf.
  assert (Hnd : NoDup (key :: (e_key <$> entries (doc (cl s))))).
  { apply NoDup_cons. split; [|apply sorted_keys_nodup, Hd]. intros (x & Hx & Hin)%list_elem_of_fmap.
    by apply (proj1 (find_None key _ (wf_sorted _ Hd)) Hf x Hin). }
  assert (Hsub : forall k, k ∈ key :: (e_key <$> entries (doc (cl s))) -> k ∈ core_keys n).
  { intros k [->|(x & -> & Hx)%list_elem_of_fmap]%elem_of_cons; [by apply own_key_listed|].
    destruct (Hh x Hx) as [H1 H2]. rewrite Hk in H2. apply own_key_listed; [by split|].
    pose proof (wf_entries _ Hd) as Hok. rewrite Forall_forall in Hok. specialize (Hok x Hx). unfold entry_ok in Hok. by bools. }
  pose proof (submseteq_length _ _ (NoDup_submseteq _ _ Hnd Hsub)) as Hl.
  cbn [length] in Hl. rewrite length_fmap in Hl. change (length (core_keys n)) with 14%nat in Hl. lia.
Qed.

Lemma accept_no_space key stamp tomb payload sig d d' :
  meshtastic_cluster_doc_accept_signed key stamp tomb payload sig d = (d', Fail ENOSPC) ->
  key_is_valid key = true /\ meshtastic_cluster_doc_find key d = None /\ (doc_cap d <= length (entries d))%nat.
Proof.
  intros E. change (accept_entry (ClusterEntry key stamp tomb payload sig) d = (d', Fail ENOSPC)) in E. rewrite accept_spec in E.
  destruct (entry_ok _) eqn:Ok; [|done]. cbn [negb e_key] in E. destruct (meshtastic_cluster_doc_find key d); [by destruct (meshtastic_hlc_newer _ _)|].
  destruct (Nat.leb_spec (doc_cap d) (length (entries d))); [|done]. unfold entry_ok in Ok. bools. done.
Qed.

Definition event_env (ev : sync_event) : sync_env :=
  match ev with
  | EvTxWork env | EvDigestWork env | EvPacket env _ _ _ _ | EvWrite env _ _ _ _ | EvPull env _
  | EvScope env _ | EvReset env | EvDigestNow env => env
  end.

(** An event on the node [n] that writes, if it does, a key every claim of [n] covers. *)
Definition own_event (n : Z) (ev : sync_event) : Prop :=
  me (event_env ev) = n /\ match ev with EvWrite _ key _ _ _ => own_key n key | _ => True end.

Definition kind_ok (s : sync) : Prop := scope_kind_of (cl s) <> SCOPE_BASE.

Lemma accept_cap key stamp tomb payload sig d :
  doc_cap (meshtastic_cluster_doc_accept_signed key stamp tomb payload sig d).1 = doc_cap d.
Proof.
  change (doc_cap (accept_entry (ClusterEntry key stamp tomb payload sig) d).1 = doc_cap d). rewrite accept_spec.
  destruct (negb _); [done|]. destruct (meshtastic_cluster_doc_find _ _); [by destruct (meshtastic_hlc_newer _ _)|]. by destruct (_ <=? _)%nat.
Qed.

(** What a run of the node [n] keeps: everything held is claimed, the claim holds the
    node's own keys, the table does not shrink. *)
Definition kept (n : Z) (cap : nat) (s : sync) : Prop :=
  claim_held n s /\ kind_ok s /\ doc_cap (doc (cl s)) = cap.

Lemma kept_ext n cap s s' : claim_of s' = claim_of s -> kept n cap s -> kept n cap s'.
Proof.
  intros E (H1 & H2 & H3). pose proof (claim_held_ext n _ _ E H1). injection E as E1 E2.
  split; [done|]. unfold kind_ok. by rewrite E1, E2.
Qed.

Lemma scope_set_kept n cap env kind pinned s :
  me env = n -> n <> 0 -> kind <> SCOPE_BASE -> kept n cap s -> kept n cap (scope_set_locked env kind pinned s).1.
Proof.
  intros He Hn Hk (H1 & _ & H3). destruct (scope_set_claim env kind pinned s ltac:(congruence)) as [Ek Ed].
  split; [by apply scope_set_held|]. unfold kind_ok. rewrite Ek, Ed. split; [done|].
  unfold meshtastic_cluster_doc_retain. by destruct (retain_loop _ _).
Qed.

Lemma demote_kept n cap env s : me env = n -> n <> 0 -> kept n cap s -> kept n cap (demote_locked env s).1.
Proof.
  intros He Hn H. unfold demote_locked. destruct (_ || _); [done|].
  pose proof (scope_set_kept n cap env SCOPE_CORE false s He Hn ltac:(done) H) as K. by destruct (scope_set_locked _ _ _ _).
Qed.

Lemma on_entry_kept n cap env from e s :
  me env = n -> n <> 0 -> sync_wf s -> kept n cap s -> kept n cap (with_cl env (on_entry (ce env) from e (cl s)) s).1.
Proof.
  intros He Hn Hwf (Hh & Hk & Hc).
  destruct (with_cl_no_kick env (on_entry (ce env) from e (cl s)) s (on_entry_no_kick _ _ _ _)) as (_ & C & _).
  unfold kept, claim_held, kind_ok. rewrite C. destruct (on_entry_cases (ce env) from e (cl s))
    as [[(Hd & _ & Hsk) _]|(key & stamp & payload & sig & c1 & Had & (Hd & _ & Hsk) & _ & E)].
  { rewrite Hd, Hsk. done. }
  pose proof (sw_doc _ Hwf) as Hdw. rewrite <- Hd in Hdw.
  pose proof (merge_entry_spec (ce env) key stamp (pe_tombstone e) payload sig c1 Hdw) as M. rewrite E.
  destruct (merge_entry _ _ _ _ _ _ _) as [c2 eff]. destruct M as (_ & Mk & Md & _). cbn [fst]. rewrite Mk, Hsk, Md.
  unfold accept_entry. cbn [e_key e_stamp e_tombstone e_payload e_sig].
  rewrite accept_cap, Hd. split; [|done]. intros x Hx. rewrite <- Hd in Hx.
  destruct (meshtastic_cluster_doc_accept_signed key stamp (pe_tombstone e) payload sig (doc c1)) as [d r] eqn:Ea. cbn [fst] in Hx.
  destruct (accept_elem _ _ _ _ _ _ _ _ x Hdw Ea Hx) as [Hxk|Hin].
  - rewrite Hxk. split; [apply (ad_section _ _ _ _ _ _ _ Had)|]. pose proof (ad_scope _ _ _ _ _ _ _ Had) as Hs.
    by rewrite (my_scope_is n env s He Hn) in Hs.
  - rewrite Hd in Hin. by apply Hh.
Qed.

Lemma demote_doc_wf env s : me env <> 0 -> doc_wf (doc (cl s)) -> doc_wf (doc (cl (demote_locked env s).1)).
Proof.
  intros Hn Hd. unfold demote_locked. destruct (_ || _); [done|]. destruct (scope_set_claim env SCOPE_CORE false s Hn) as [_ E].
  destruct (scope_set_locked _ _ _ _) as [s1 o]. cbn in *. rewrite E. by apply retain_wf.
Qed.

(** The table the merge leaves holds the new key and what the claim then covers. *)
Lemma accept_or_narrow_kept n cap env key m tomb payload sig s :
  me env = n -> n <> 0 -> doc_wf (doc (cl s)) -> kept n cap s ->
  let '(s3, _, d, _) := accept_or_narrow env key m tomb payload sig s in
  kept n cap s3 /\ doc_cap d = cap /\ (forall x, x ∈ entries d -> e_key x = key \/ x ∈ entries (doc (cl s3))).
Proof.
  intros He Hn Hd Hk. unfold accept_or_narrow.
  assert (A : forall s, kept n cap s -> doc_wf (doc (cl s)) ->
    let '(d, _) := meshtastic_cluster_doc_accept_signed key m tomb payload sig (doc (cl s)) in
    kept n cap s /\ doc_cap d = cap /\ (forall x, x ∈ entries d -> e_key x = key \/ x ∈ entries (doc (cl s)))).
  { intros s0 K0 D0. pose proof (accept_cap key m tomb payload sig (doc (cl s0))) as Ac.
    pose proof (accept_elem key m tomb payload sig (doc (cl s0))) as Ae.
    destruct (meshtastic_cluster_doc_accept_signed _ _ _ _ _ _) as [d r]. split; [done|].
    split; [rewrite <- (proj2 (proj2 K0)); exact Ac|]. intros x Hx. by eapply Ae. }
  pose proof (A s Hk Hd) as A1.
  destruct (meshtastic_cluster_doc_accept_signed key m tomb payload sig (doc (cl s))) as [d [v|ee]]; [exact A1|].
  destruct ee; try exact A1.
  pose proof (demote_kept n cap env s He Hn Hk) as D1. pose proof (demote_doc_wf env s ltac:(congruence) Hd) as D2.
  destruct (demote_locked env s) as [s4 o]. pose proof (A s4 D1 D2) as A4.
  by destruct (meshtastic_cluster_doc_accept_signed key m tomb payload sig (doc (cl s4))) as [d4 r4].
Qed.

Lemma write_kept n cap env key st tomb payload s :
  me env = n -> n <> 0 -> sync_wf s -> kept n cap s -> own_key n key ->
  kept n cap (doc_write_local env key st tomb payload s).1.1.1.
Proof.
  intros He Hn Hwf Hk Hkey. destruct (doc_write_claim env key st tomb payload s) as (m & sig & s2 & C & _ & W).
  assert (Hd2 : doc_wf (doc (cl s2))) by (injection C as -> _; apply Hwf).
  pose proof (accept_or_narrow_kept n cap env key m tomb payload sig s2 He Hn Hd2 (kept_ext _ _ _ _ C Hk)) as K.
  destruct (accept_or_narrow env key m tomb payload sig s2) as [[[s3 o] d] ret]. destruct K as ((A1 & A2 & _) & A3 & A4).
  destruct (doc_write_local env key st tomb payload s) as [[[s' o'] r] m']. destruct W as (W1 & W2 & _). cbn [fst].
  split; [|unfold kind_ok; by rewrite W1, W2]. intros x Hx. rewrite W1 in Hx. rewrite W2.
  destruct (A4 x Hx) as [Hxk|Hin]; [|by apply A1]. rewrite Hxk. split; [apply Hkey | by apply own_key_any].
Qed.

Lemma backstop_claim env s : claim_of (backstop_tick env s) = claim_of s.
Proof.
  unfold backstop_tick. destruct (_ =? 0); [done|]. destruct (negb _); [done|]. destruct (0 <? _); [done|]. cbv zeta.
  destruct (_ =? 0); [done|]. set (s1 := set_backstop_countdown _ s).
  pose proof (pull_start_claim env (backstop_peer s1) 0 PULL_REASON_BACKSTOP s1) as P.
  destruct (pull_start_locked _ _ _ _ _) as [[] s2]; exact P.
Qed.

Lemma digest_work_claim env s : claim_of (digest_work_fn env s).1 = claim_of s.
Proof.
  unfold digest_work_fn. destruct (cluster_channel_index env); [|done]. set (s1 := set_channel_missing_logged false _).
  pose proof (my_scope_claim env s1) as M. destruct (my_scope env s1) as [mine s2]. cbn [snd fst] in *.
  set (s3 := if send_ok env then _ else _). assert (claim_of s3 = claim_of s2) as E by (unfold s3; by destruct (send_ok env)).
  exact (eq_trans (backstop_claim env s3) (eq_trans E M)).
Qed.

Lemma pull_claim env node s : claim_of (meshtastic_cluster_pull env node s).1 = claim_of s.
Proof.
  unfold meshtastic_cluster_pull. destruct (_ || _); [done|]. destruct (cluster_channel_index env); [|done].
  pose proof (pull_start_claim env node 0 PULL_REASON_SHELL s) as P. destruct (pull_start_locked _ _ _ _ _) as [[] s1]; exact P.
Qed.

Lemma with_cl_claim env r s : claim_of (with_cl env r s).1 = (doc r.1, scope_kind_of r.1).
Proof.
  unfold with_cl. change (doc r.1, scope_kind_of r.1) with (claim_of (set_cl r.1 s, @nil sync_out).1).
  generalize (set_cl r.1 s, @nil sync_out). induction r.2 as [|e es IH]; intros acc; [done|]. cbn [foldl].
  rewrite IH. destruct acc as [s0 o], e; done.
Qed.

Lemma on_entry_req_claim env from ks c :
  doc (on_entry_req env from ks c).1 = doc c /\ scope_kind_of (on_entry_req env from ks c).1 = scope_kind_of c.
Proof.
  unfold on_entry_req.
  assert (M : doc (if ent_dest c =? 0 then may_serve_locked env c else (false, c)).2 = doc c /\
              scope_kind_of (if ent_dest c =? 0 then may_serve_locked env c else (false, c)).2 = scope_kind_of c).
  { destruct (_ =? 0); [|done]. unfold may_serve_locked. destruct (_ =? 0); [done|]. cbv zeta. destruct (_ <=? _), (_ =? 0); done. }
  destruct (if ent_dest c =? 0 then _ else _) as [serve c1]. cbn [snd] in M. destruct M as [M1 M2]. cbv zeta.
  unfold serve_started_locked. destruct serve; repeat case_match; cbn; done.
Qed.

Lemma packet_kept n cap env from ch pki m s :
  me env = n -> n <> 0 -> sync_wf s -> kept n cap s -> kept n cap (cluster_on_packet env from ch pki m s).1.
Proof.
  intros He Hn Hwf Hk. unfold cluster_on_packet. cbv zeta. destruct (negb _); [exact Hk|].
  destruct m as [[d|sc|v|ks|e|]|]; cbn [fst]; try exact Hk.
  - apply (kept_ext n cap s); [apply on_digest_claim | done].
  - apply (kept_ext n cap s); [apply on_vector_req_claim | done].
  - destruct (on_vector_claim env from v s) as (s1 & C & _ & [E|E]); [apply (kept_ext n cap s); [congruence | done]|].
    apply (kept_ext _ _ _ _ E), demote_kept; [done..|]. by apply (kept_ext n cap s).
  - apply (kept_ext n cap s); [|done]. rewrite with_cl_claim.
    destruct (on_entry_req_claim (ce env) from ks (cl s)) as [-> ->]. done.
  - by apply on_entry_kept.
Qed.

Lemma reset_kept n cap env s : kept n cap s -> kept n cap (meshtastic_cluster_reset env s).1.1.
Proof.
  intros (_ & _ & Hc). unfold meshtastic_cluster_reset. destruct (meshtastic_cluster_doc_clear _) as [d dr] eqn:Ed.
  injection Ed as <- _. unfold compiled_scope. destruct (cfg_build_scope env); cbv zeta; cbn;
    (split; [intros x Hx; cbn in Hx; by apply elem_of_nil in Hx | split; [done | exact Hc]]).
Qed.

Lemma own_step_kept n cap ev s :
  n <> 0 -> own_event n ev -> sync_wf s -> kept n cap s -> kept n cap (sync_step ev s).1.
Proof.
  intros Hn [He Ho] Hwf Hk. destruct ev as [env|env|env from ch pki m|env key st tomb payload|env node|env choice|env|env];
    cbn [sync_step event_env] in *.
  - destruct (due _ _); [|done]. apply (kept_ext n cap s); [apply tx_work_claim | done].
  - destruct (due _ _); [|done]. apply (kept_ext n cap s); [apply digest_work_claim | done].
  - by apply packet_kept.
  - pose proof (write_kept n cap env key st tomb payload s He Hn Hwf Hk Ho) as W.
    by destruct (doc_write_local _ _ _ _ _ _) as [[[s1 o] r] m].
  - apply (kept_ext n cap s); [apply pull_claim | done].
  - assert (S : forall kind p, kind <> SCOPE_BASE -> kept n cap (scope_set_locked env kind p s).1) by (intros; by apply scope_set_kept).
    unfold meshtastic_cluster_scope_select. cbv zeta. destruct choice; cbn [fst]; try exact Hk; (destruct (_ && _); [exact Hk|]);
      [specialize (S SCOPE_FULL false) | specialize (S SCOPE_FULL true) | specialize (S SCOPE_CORE true)];
      destruct (scope_set_locked _ _ _ _); by apply S.
  - by apply reset_kept.
  - exact Hk.
Qed.

Lemma own_run_kept n cap evs : forall s, n <> 0 -> Forall (own_event n) evs -> sync_wf s -> kept n cap s ->
  sync_wf (sync_run evs s) /\ kept n cap (sync_run evs s).
Proof.
  induction evs as [|ev evs IH]; intros s Hn Ho Hwf Hk; [done|]. apply Forall_cons in Ho as [Ho Hos]. cbn [sync_run foldl].
  apply IH; [done | done | by apply sync_step_wf | by apply own_step_kept].
Qed.

Lemma init_ok env cap n :
  let s := (meshtastic_cluster_init env cap (fun s => s)).1 in
  sync_wf s /\ scheduled s /\ kept n cap s.
Proof.
  unfold meshtastic_cluster_init, compiled_scope. destruct (cfg_build_scope env); cbv zeta; cbn [fst];
    (split; [split; cbn; try done; try (by left); try (unfold CLUSTER_PULL_KEYS, CLUSTER_PUSH_QUEUE; lia);
               split; [constructor | cbn; lia | constructor]
            |split; [intros [H|[H|H]]; done
                    |split; [intros x Hx; by apply elem_of_nil in Hx | done]]]).
Qed.

Lemma accept_room n cap key m tomb payload sig s :
  (14 <= cap)%nat -> own_key n key -> doc_wf (doc (cl s)) -> kept n cap s ->
  (meshtastic_cluster_doc_accept_signed key m tomb payload sig (doc (cl s))).2 = Fail ENOSPC -> scope_kind_of (cl s) = SCOPE_FULL.
Proof.
  intros Hcap Hkey Hd (Q1 & Q2 & Q3) Hf. destruct (meshtastic_cluster_doc_accept_signed _ _ _ _ _ _) as [d r] eqn:Ea.
  cbn [snd] in Hf. subst r. apply accept_no_space in Ea as (Hv & Hnone & Hfull). destruct (scope_kind_of (cl s)) eqn:Ek; try done.
  pose proof (core_has_room n s key Hd Q1 Ek Hkey Hv Hnone). lia.
Qed.

(** The second try fails for space only where the claim could not be narrowed. *)
Lemma narrow_room n cap env key m tomb payload sig s :
  n <> 0 -> (14 <= cap)%nat -> me env = n -> own_key n key -> doc_wf (doc (cl s)) -> kept n cap s ->
  (accept_or_narrow env key m tomb payload sig s).2 = Fail ENOSPC ->
  scope_pinned s = true /\ scope_kind_of (cl s) = SCOPE_FULL.
Proof.
  intros Hn Hcap He Hkey Hd K. unfold accept_or_narrow.
  pose proof (accept_room n cap key m tomb payload sig s Hcap Hkey Hd K) as R.
  pose proof (demote_kept n cap env s He Hn K) as Kd. pose proof (demote_doc_wf env s ltac:(congruence) Hd) as Dd.
  pose proof (accept_room n cap key m tomb payload sig _ Hcap Hkey Dd Kd) as Rd.
  destruct (meshtastic_cluster_doc_accept_signed key m tomb payload sig (doc (cl s))) as [d [v|e]]; [done|].
  intros Hr. assert (e = ENOSPC) as -> by (destruct e; cbn in Hr; congruence). specialize (R eq_refl). split; [|exact R].
  destruct (scope_pinned s) eqn:Hp; [done|]. exfalso.
  assert (scope_kind_of (cl (demote_locked env s).1) = SCOPE_CORE) as Hcore.
  { unfold demote_locked. rewrite Hp, R. destruct (scope_set_claim env SCOPE_CORE false s ltac:(congruence)) as [Hs _].
    cbn [orb]. rewrite bool_decide_false by done. by destruct (scope_set_locked _ _ _ _). }
  destruct (demote_locked env s) as [s4 o4]. cbn [fst] in *.
  destruct (meshtastic_cluster_doc_accept_signed key m tomb payload sig (doc (cl s4))) as [d4 r4].
  specialize (Rd Hr). congruence.
Qed.

Lemma owes_nothing s : ~ owes s -> pull_state s = PULL_IDLE /\ vec_dest s = 0 /\ ent_dest (cl s) = 0.
Proof.
  unfold owes. intros H. destruct (decide (pull_state s = PULL_IDLE)); [|tauto].
  destruct (decide (vec_dest s = 0)); [|tauto]. destruct (decide (ent_dest (cl s) = 0)); tauto.
Qed.

(** ** The theorems *)

(** C7: liveness of the anti-entropy engine: from a first boot, after any sequence of
    packets, writes, commands and work items, running the worker at the times it asks for
    ends. Nothing is left owed then: no pull is open, no vector and no entries are promised
    to a peer, the worker is not scheduled. If every earlier run of the worker found the
    cluster's channel, or the worker is scheduled now, every queued push has been sent or
    dropped too; a run that found no channel leaves the pushes queued until the next one
    wakes the worker ([missing_channel_keeps_pushes]). *)
Theorem sync_work_ends env0 cap evs env :
  is_Some (cluster_channel_index env) -> 0 <= cfg_tx_gap_ms env ->
  let s := sync_run evs (meshtastic_cluster_init env0 cap (fun s => s)).1 in
  exists fuel, let s' := worker env fuel s in
    pull_state s' = PULL_IDLE /\ vec_dest s' = 0 /\ ent_dest (cl s') = 0 /\ tx_at s' = None /\
    (Forall channel_up evs \/ is_Some (tx_at s) -> push_count s' = 0%nat).
Proof.
  intros Hch Hg. destruct (init_ok env0 cap 0) as (W & Sc & _).
  assert (A : armed (meshtastic_cluster_init env0 cap (fun s => s)).1)
    by (unfold meshtastic_cluster_init; destruct (compiled_scope env0); intros H; cbn in H; lia).
  destruct (sync_run_inv evs _ W Sc) as [W' Sc']. cbv zeta. set (s := sync_run evs _) in *.
  set (fuel := S (match tx_at s with Some t => work t s | None => 0%nat end)). exists fuel.
  destruct (worker_drains env fuel s W' Sc' Hch Hg) as (D1 & D2 & D3); [unfold fuel; destruct (tx_at s); [lia | done]|].
  apply owes_nothing in D1 as (D4 & D5 & D6). do 4 (split; [done|]). intros [Hup|Ht]; [|by apply D3].
  pose proof (sync_run_armed evs _ Hup A) as Ha. fold s in Ha. destruct (tx_at s) as [t|] eqn:Et; [by apply D3|].
  unfold fuel. cbn [worker]. rewrite Et. destruct (push_count s) as [|n] eqn:En; [done|].
  destruct Ha as [t Ht]; [lia | congruence].
Qed.

(** C30: a node whose claim may narrow always has room for its own settings: with a table of
    at least fourteen rows, after any run in which the local writes are of the base or of
    the node's own keys, and whatever peers have filled the table with, writing such a key is
    never refused for space, unless an operator pinned the claim to the whole fleet's
    document. The run starts at a first boot, with nothing stored; a write of another node's
    key can fill the table beyond what narrowing frees ([narrowed_write_refused]). *)
Theorem local_write_fits env0 cap n evs env key store_stamp tombstone payload :
  n <> 0 -> (14 <= cap)%nat -> Forall (own_event n) evs -> me env = n -> own_key n key ->
  let s := sync_run evs (meshtastic_cluster_init env0 cap (fun s => s)).1 in
  scope_pinned s = false \/ scope_kind_of (cl s) = SCOPE_CORE ->
  (doc_write_local env key store_stamp tombstone payload s).1.2 <> ERR ENOSPC.
Proof.
  intros Hn Hcap Ho He Hkey. destruct (init_ok env0 cap n) as (W & _ & K).
  destruct (own_run_kept n cap evs _ Hn Ho W K) as [Hwf Hk]. cbv zeta. set (s := sync_run evs _) in *. clearbody s.
  destruct (doc_write_claim env key store_stamp tombstone payload s) as (m & sig & s2 & C & P & D).
  pose proof (kept_ext n cap _ _ C Hk) as K2. assert (Hd2 : doc_wf (doc (cl s2))) by (injection C as -> _; apply Hwf).
  intros Hp Hr. destruct (doc_write_local _ _ _ _ _ _) as [[[s' o'] r] m'] eqn:Ew. cbn [fst snd] in Hr.
  pose proof (narrow_room n cap env key m tombstone payload sig s2 Hn Hcap He Hkey Hd2 K2) as R.
  injection C as _ C2. rewrite P, C2 in R.
  destruct (accept_or_narrow env key m tombstone payload sig s2) as [[[s3 o3] d3] ret]. destruct D as (_ & _ & D).
  cbn [snd] in R. rewrite Hr in D. destruct R as [R1 R2]; [|destruct Hp; congruence].
  destruct ret as [v|e]; [by destruct v as [|[]|] | congruence].
Qed.

(** ** Concrete runs *)

(** The node [id] of a fleet whose administrator is 7. *)
Definition peer_env (id now : Z) : sync_env :=
  {| ce := {| node_id := id; epoch_ms := 2000; uptime_ms := now;
              admin_trusts := fun n => n =? 7; nodedb_has := fun _ => true;
              nodedb_pubkey := fun n => if n =? 7 then Some [3] else None; own_pubkey := None;
              decode_config := fun p => hd_error p; decode_intent := fun _ => None;
              xeddsa_verify := fun _ _ s => bool_decide (s = replicate 64 1);
              cfg_admin := true; cfg_xeddsa := true; cfg_sig_required := true; cfg_frag_timeout_sec := 30;
              cfg_serve_min_interval_ms := 1000 |};
     channels := [Some (ChannelRow true false (Some "fleet"%string))]; cfg_channel_name := "fleet";
     rand32 := 0; crc32 := fun c bs => u32 (c * 31 + foldr Z.add 0 bs); send_ok := true;
     sign_bytes := fun _ => Some (replicate 64 1); is_managed := false; cfg_sign := true;
     cfg_build_scope := SCOPE_BUILD_AUTO; cfg_push_min_interval_ms := 1000; cfg_tx_gap_ms := 500;
     cfg_digest_period_sec := 60; cfg_backstop_periods := 4; cfg_sync_timeout_sec := 30;
     cfg_pull_delay_ms := 100; cfg_peers := 2 |}.
Definition demo_env (now : Z) : sync_env := peer_env 9 now.

(** Another node's radio settings, signed by the administrator 7. *)
Definition foreign_entry (node : Z) : cluster_entry :=
  ClusterEntry (ClusterKey LAYER_NODE node 6) (HlcStamp 1000 0 7) false [6; 1; 2] (Some (replicate 64 1)).
Definition filled : list sync_event :=
  (fun i => EvPacket (demo_env 0) 7 0 false (Some (MsgEntry (frame_at (foreign_entry (100 + Z.of_nat i)) 0 3)))) <$> seq 0 14.
Definition booted (cap : nat) : sync := (meshtastic_cluster_init (demo_env 0) cap (fun s => s)).1.
Definition base_radio : cluster_key := ClusterKey LAYER_BASE 0 6.

Lemma sync_work_ends_witness :
  let evs := [EvWrite (demo_env 5) base_radio unset_stamp false [6; 9]; EvPull (demo_env 5) 7] in
  let s := sync_run evs (booted 14) in
  (pull_state s = PULL_SEND_VECTOR_REQ /\ push_count s = 1%nat) /\
  exists fuel, let s' := worker (demo_env 5) fuel s in
    pull_state s' = PULL_IDLE /\ vec_dest s' = 0 /\ ent_dest (cl s') = 0 /\ tx_at s' = None /\
    (Forall channel_up evs \/ is_Some (tx_at s) -> push_count s' = 0%nat).
Proof.
  intros evs s. split; [vm_compute; split; reflexivity|].
  apply (sync_work_ends (demo_env 0) 14 evs (demo_env 5)); [by exists 0 | vm_compute; congruence].
Defined.

(** Peers fill the table with other nodes' rows; the base still takes a new value. *)
Lemma local_write_fits_witness :
  length (entries (doc (cl (sync_run filled (booted 14))))) = 14%nat /\
  (doc_write_local (demo_env 10) base_radio unset_stamp false [6; 9] (sync_run filled (booted 14))).1.2 <> ERR ENOSPC.
Proof.
  split; [vm_compute; reflexivity|].
  apply (local_write_fits (demo_env 0) 14 9 filled (demo_env 10)); [lia | lia | | done | done | left; vm_compute; reflexivity].
  apply Forall_fmap, Forall_forall. intros i _. split; [reflexivity | exact I].
Defined.

Definition set_hash (h : Z) (d : pb_digest) : pb_digest :=
  PbDigest (dg_doc_hash d + h) (dg_entry_count d) (dg_max_stamp d) (dg_scope d) (dg_base_hash d) (dg_base_count d).

(** The table of peers is full and the one that disagreed is forgotten: every peer that is
    left agrees, and the fleet is reported converged. *)
Definition digest_at_time (now from hash : Z) : sync_event :=
  EvPacket (demo_env now) from 0 false
    (Some (MsgDigest (set_hash hash (my_digest (demo_env 0) (my_scope (demo_env 0) (booted 14)).1 (doc (cl (booted 14))))))).

Lemma full_table_hides_divergence :
  let evs := [digest_at_time 0 21 1; digest_at_time 1000 22 0] in
  (meshtastic_cluster_fleet_converged (demo_env 2000) (sync_run evs (booted 14))).1 = false /\
  (meshtastic_cluster_fleet_converged (demo_env 2000) (sync_run (evs ++ [digest_at_time 2000 23 0]) (booted 14))).1 = true.
Proof. vm_compute. done. Qed.

(** A narrowed node publishes for nodes it does not claim; the rows are kept, and its own
    settings have no room. *)
Definition pin_others (s : sync) : sync :=
  foldl (fun s i => (meshtastic_cluster_publish (demo_env 10) MESHTASTIC_CLUSTER_SECTION_FW LAYER_NODE
                       (100 + Z.of_nat i) [] s).1.1) s (seq 0 14).

Lemma narrowed_write_refused :
  let s := pin_others (sync_run [EvScope (demo_env 5) CHOICE_CORE] (booted 14)) in
  scope_kind_of (cl s) = SCOPE_CORE /\
  (doc_write_local (demo_env 20) base_radio unset_stamp false [6; 9] s).1.2 = ERR ENOSPC.
Proof. vm_compute. done. Qed.

(** Without the channel the worker stops with the queued pushes in place. *)
Definition no_channel (env : sync_env) : sync_env :=
  SyncEnv (ce env) [] (cfg_channel_name env) (rand32 env) (crc32 env) (send_ok env) (sign_bytes env) (is_managed env)
    (cfg_sign env) (cfg_build_scope env) (cfg_push_min_interval_ms env) (cfg_tx_gap_ms env) (cfg_digest_period_sec env)
    (cfg_backstop_periods env) (cfg_sync_timeout_sec env) (cfg_pull_delay_ms env) (cfg_peers env).

Lemma missing_channel_keeps_pushes :
  let s := sync_run [EvWrite (demo_env 5) base_radio unset_stamp false [6; 9]; EvTxWork (no_channel (demo_env 6))] (booted 14) in
  push_count s = 1%nat /\ tx_at s = None.
Proof. vm_compute. done. Qed.
