(* ===== verification/ClusterExchange.v ===== *)
(** * One exchange between two nodes (src/src/meshtastic_cluster.c)

    The composition of the two halves of [ClusterSync]: a node that found its document
    different from a peer's asks for the peer's stamp vector, diffs it, asks for what it
    lacks and merges what comes. No frame is lost and nothing else happens meanwhile. *)
From S2P Require Import Prelude Hlc ClusterDoc ClusterIngest ClusterSync.
Open Scope Z_scope.

(** ** Handing over entries *)

(** The receiver's reassembly slot is free. *)
Definition slot_idle (c : cluster) : Prop :=
  as_active (asm_rx c) = false /\ length (as_buf (asm_rx c)) = 128%nat.

(** What a receiver must think of an entry to take it. *)
Record takes (env : cluster_env) (c : cluster) (x : cluster_entry) : Prop := {
  tk_gates : gates_open env c (e_key x) (e_stamp x) = true;
  tk_payload : payload_is_its_section env (k_section (e_key x)) (e_payload x) (e_tombstone x) = true;
  tk_sig : forall f, pe_sig f = default [] (e_sig x) -> pe_tombstone f = e_tombstone x ->
             meshtastic_cluster_sig_accepts (entry_verdict env (e_key x) (e_stamp x) f (e_payload x)) = true;
}.

(** An entry as a document holds it: valid, its key and signature of the right widths. *)
Record sendable (x : cluster_entry) : Prop := {
  sb_ok : entry_ok x = true;
  sb_width : key_width (e_key x);
  sb_sig : forall s, e_sig x = Some s -> length s = MESHTASTIC_CLUSTER_SIG_LEN;
}.

Definition rx_all (env : cluster_env) (from : Z) (fs : list pb_entry) (c : cluster) : cluster :=
  foldl (fun c f => (on_entry env from f c).1) c fs.

Lemma on_entry_kind env from e c : doc_wf (doc c) -> scope_kind_of (on_entry env from e c).1 = scope_kind_of c.
Proof.
  intros Hwf. destruct (on_entry_cases env from e c)
    as [[(_ & _ & Hk) _]|(key & stamp & payload & sig & st1 & _ & (Hd & _ & Hk) & _ & E)]; [done|].
  rewrite E. rewrite <- Hd in Hwf.
  pose proof (merge_entry_spec env key stamp (pe_tombstone e) payload sig st1 Hwf) as M.
  destruct (merge_entry _ _ _ _ _ _ _) as [st' eff]. destruct M as (_ & Hs & _). cbn [fst]. congruence.
Qed.

Lemma transfer_one env from x c d' :
  sendable x -> takes env c x -> doc_wf (doc c) -> slot_idle c -> 0 <= cfg_frag_timeout_sec env ->
  accept_entry x (doc c) = (d', Val 1) ->
  doc (rx_all env from (entry_frames x) c) = d' /\ slot_idle (rx_all env from (entry_frames x) c) /\
  scope_kind_of (rx_all env from (entry_frames x) c) = scope_kind_of c.
Proof.
  intros [Hok Hkw Hsig] [Hg Hp Hv] Hwf [Hi Hb] Ht Ha.
  assert (Hl : (length (e_payload x) <= 128)%nat) by (unfold entry_ok, MESHTASTIC_CLUSTER_PAYLOAD_MAX in Hok; bools; lia).
  assert (Hk : forall off n, key_from_pb <$> pe_key (frame_at x off n) = Some (e_key x)).
  { intros. cbn. f_equal. apply key_pb_roundtrip; [done|]. unfold entry_ok in Hok. by bools. }
  assert (Hno : slot_matches (asm_rx c) from (e_key x) (e_stamp x) (e_tombstone x) (Z.of_nat (length (e_payload x))) = false)
    by (unfold slot_matches; by rewrite Hi).
  rewrite entry_frames_shape by done. unfold rx_all.
  destruct (Nat.leb_spec (length (e_payload x)) 88) as [E|E]; cbn [foldl].
  - assert (Hs : pe_sig (frame_at x 0 (length (e_payload x))) = default [] (e_sig x)) by (cbn; by rewrite Nat.leb_refl).
    pose proof (slot_step_single env from x (asm_rx c) E) as Hsl.
    destruct (on_entry_completes env from (frame_at x 0 (length (e_payload x))) c x d' (Hk _ _)
      eq_refl eq_refl Hs Hsig Hg (frame_width x 0 _ Hl ltac:(lia)) Hwf Hp (Hv _ Hs eq_refl) Ha (f_equal snd Hsl)) as [C1 _].
    split; [done|]. split; [|by apply on_entry_kind].
    unfold slot_idle. rewrite (on_entry_slot_open env from _ c (e_key x) (e_stamp x) (frame_width x 0 _ Hl ltac:(lia)) (Hk _ _) eq_refl Hg).
    by rewrite Hsl.
  - pose proof (on_entry_partial env from x c Hl E (Hk _ _) Hg Hno) as (D1 & _ & S1).
    pose proof (on_entry_kind env from (frame_at x 0 88) c Hwf) as K1.
    destruct (on_entry env from (frame_at x 0 88) c) as [c1 eff1]. cbn [fst] in *.
    assert (Hs : pe_sig (frame_at x 88 (length (e_payload x) - 88)) = default [] (e_sig x))
      by (cbn; rewrite (proj2 (Nat.leb_le _ _)) by lia; done).
    assert (Hd1 : doc c1 = doc c) by apply D1.
    destruct (slot_step_second env from x (uptime_ms env + cfg_frag_timeout_sec env * 1000) (as_buf (asm_rx c))
      ltac:(lia) Hb ltac:(lia)) as (Z1 & Z2 & Z3).
    destruct (on_entry_completes env from (frame_at x 88 (length (e_payload x) - 88)) c1 x d' (Hk _ _)
      eq_refl eq_refl Hs Hsig ltac:(by rewrite (gates_open_same _ _ _ _ _ D1)) (frame_width x 88 _ Hl ltac:(lia))
      ltac:(by rewrite Hd1) Hp (Hv _ Hs eq_refl) ltac:(by rewrite Hd1) ltac:(by rewrite S1)) as [C1 _].
    split; [done|]. split; [|rewrite on_entry_kind by (by rewrite Hd1); done].
    unfold slot_idle. rewrite (on_entry_slot_open env from _ c1 (e_key x) (e_stamp x) (frame_width x 88 _ Hl ltac:(lia)) (Hk _ _) eq_refl
      ltac:(by rewrite (gates_open_same _ _ _ _ _ D1))).
    by rewrite S1.
Qed.

(** ** Several entries *)

Definition merge_all (xs : list cluster_entry) (d : cluster_doc) : cluster_doc :=
  foldl (fun d x => (accept_entry x d).1) d xs.

(** The entry is newer than what the document has for its key. *)
Definition wins (d : cluster_doc) (x : cluster_entry) : Prop :=
  match meshtastic_cluster_doc_find (e_key x) d with
  | Some old => meshtastic_hlc_newer (e_stamp x) (e_stamp old) = true
  | None => True
  end.

Lemma accept_wins x d :
  doc_wf d -> entry_ok x = true -> wins d x -> (length (entries d) < doc_cap d)%nat ->
  exists d', accept_entry x d = (d', Val 1) /\ doc_wf d' /\ doc_cap d' = doc_cap d /\
    (length (entries d') <= S (length (entries d)))%nat /\
    meshtastic_cluster_doc_find (e_key x) d' = Some x /\
    (forall k, k <> e_key x -> meshtastic_cluster_doc_find k d' = meshtastic_cluster_doc_find k d).
Proof.
  intros Hwf Hok Hw Hroom. unfold wins in Hw.
  assert (E : accept_entry x d = (set_entries (put_entry x (entries d)) d, Val 1)).
  { rewrite accept_spec, Hok. cbn [negb]. destruct (meshtastic_cluster_doc_find _ _); [by rewrite Hw|].
    by rewrite (proj2 (Nat.leb_gt _ _) Hroom). }
  eexists. split; [exact E|]. pose proof (accept_wf x d Hwf) as Hwf'. rewrite E in Hwf'.
  destruct (accept_stored _ _ _ Hwf E) as (H1 & H2 & _).
  split; [done|]. split; [done|]. split; [|done].
  cbn. rewrite put_entry_length. destruct (meshtastic_cluster_doc_find _ _); lia.
Qed.

Lemma merge_all_spec xs : forall d,
  doc_wf d -> NoDup (e_key <$> xs) -> Forall (fun x => entry_ok x = true) xs -> Forall (wins d) xs ->
  (length (entries d) + length xs <= doc_cap d)%nat ->
  doc_wf (merge_all xs d) /\ doc_cap (merge_all xs d) = doc_cap d /\
  (length (entries (merge_all xs d)) <= length (entries d) + length xs)%nat /\
  (forall x, x ∈ xs -> meshtastic_cluster_doc_find (e_key x) (merge_all xs d) = Some x) /\
  (forall k, k ∉ (e_key <$> xs) -> meshtastic_cluster_doc_find k (merge_all xs d) = meshtastic_cluster_doc_find k d).
Proof.
  induction xs as [|x xs IH]; intros d Hwf Hnd Hok Hw Hroom.
  { cbn. split; [done|]. split; [done|]. split; [lia|]. split; [|done]. intros x Hx. by apply not_elem_of_nil in Hx. }
  cbn [fmap list_fmap length] in *. apply NoDup_cons in Hnd as [Hx Hnd].
  apply Forall_cons in Hok as [Hox Hok]. apply Forall_cons in Hw as [Hwx Hw].
  destruct (accept_wins x d Hwf Hox Hwx ltac:(lia)) as (d1 & E & Hwf1 & Hcap & Hlen & Hf & Ho).
  assert (Hw1 : Forall (wins d1) xs).
  { apply Forall_forall. intros y Hy. rewrite Forall_forall in Hw. specialize (Hw y Hy). unfold wins in *.
    rewrite Ho; [done|]. intros Heq. apply Hx. rewrite <- Heq. by apply list_elem_of_fmap_2. }
  destruct (IH d1 Hwf1 Hnd Hok Hw1 ltac:(rewrite Hcap; lia)) as (I1 & I2 & I3 & I4 & I5).
  unfold merge_all in *. cbn [foldl]. rewrite E. cbn [fst].
  split; [done|]. split; [congruence|]. split; [lia|]. split.
  - intros y [->|Hy]%elem_of_cons; [|by apply I4]. rewrite I5; done.
  - intros k Hk. apply not_elem_of_cons in Hk as [Hk1 Hk2]. rewrite I5 by done. by apply Ho.
Qed.

Lemma takes_ext env c c' x : scope_kind_of c' = scope_kind_of c -> takes env c x -> takes env c' x.
Proof.
  intros Hk [G P S]. split; [|done..]. unfold gates_open in *. by rewrite (my_scope_ext env env c c').
Qed.

Lemma transfer_all env from xs : forall c,
  doc_wf (doc c) -> slot_idle c -> 0 <= cfg_frag_timeout_sec env ->
  NoDup (e_key <$> xs) -> Forall sendable xs -> Forall (takes env c) xs -> Forall (wins (doc c)) xs ->
  (length (entries (doc c)) + length xs <= doc_cap (doc c))%nat ->
  let c' := rx_all env from (concat (entry_frames <$> xs)) c in
  doc c' = merge_all xs (doc c) /\ slot_idle c' /\ scope_kind_of c' = scope_kind_of c.
Proof.
  induction xs as [|x xs IH]; intros c Hwf Hi Ht Hnd Hs Htk Hw Hroom; [done|].
  cbn [fmap list_fmap concat length] in *. apply NoDup_cons in Hnd as [Hx Hnd].
  apply Forall_cons in Hs as [Hsx Hs]. apply Forall_cons in Htk as [Htx Htk]. apply Forall_cons in Hw as [Hwx Hw].
  destruct (accept_wins x (doc c) Hwf (sb_ok _ Hsx) Hwx ltac:(lia)) as (d1 & E & Hwf1 & Hcap & Hlen & Hf & Ho).
  destruct (transfer_one env from x c d1 Hsx Htx Hwf Hi Ht E) as (T1 & T2 & T3).
  unfold rx_all in *. rewrite foldl_app. set (c1 := foldl _ c (entry_frames x)) in *. clearbody c1.
  assert (Hw1 : Forall (wins (doc c1)) xs).
  { rewrite T1. apply Forall_forall. intros y Hy. rewrite Forall_forall in Hw. specialize (Hw y Hy). unfold wins in *.
    rewrite Ho; [done|]. intros Heq. apply Hx. rewrite <- Heq. by apply list_elem_of_fmap_2. }
  assert (Htk1 : Forall (takes env c1) xs) by (eapply Forall_impl; [exact Htk|]; intros y Hy; by apply (takes_ext env c)).
  destruct (IH c1 ltac:(by rewrite T1) T2 Ht Hnd Hs Htk1 Hw1 ltac:(rewrite T1, Hcap; lia)) as (I1 & I2 & I3).
  split; [|split; [done | congruence]]. rewrite I1, T1. unfold merge_all. cbn [foldl]. by rewrite E.
Qed.

(** ** The stamp vector, responder *)

Definition row_of (e : cluster_entry) : option pb_key * option hlc_stamp :=
  (Some (key_to_pb (e_key e)), Some (e_stamp e)).

(** The chunks that remain of the vector of [R] when [k] rows were sent. *)
Inductive vec_stream (R : list cluster_entry) : nat -> list pb_vector -> Prop :=
  | vs_last k xs :
      drop k R = xs -> vec_stream R k [PbVector (Z.of_nat k) (Z.of_nat (length R)) (row_of <$> xs)]
  | vs_more k xs rest vs :
      drop k R = xs ++ rest -> vec_stream R (k + length xs) vs ->
      vec_stream R k (PbVector (Z.of_nat k) (Z.of_nat (length R)) (row_of <$> xs) :: vs).

Lemma in_scope_app sc l1 l2 : in_scope sc (l1 ++ l2) = in_scope sc l1 ++ in_scope sc l2.
Proof. apply List.filter_app. Qed.

Lemma vector_fill_spec want rest : forall rows offset emitted,
  0 <= emitted -> emitted + Z.of_nat (length (in_scope want rest)) <= 65535 ->
  exists n, (n <= length rest)%nat /\ (n = length rest \/ (length rows + length (in_scope want (take n rest)) >= CLUSTER_VECTOR_ROWS)%nat) /\
  vector_fill want rest rows offset emitted =
    (rows ++ (row_of <$> in_scope want (take n rest)), (offset + n)%nat,
     emitted + Z.of_nat (length (in_scope want (take n rest)))).
Proof.
  induction rest as [|e rest IH]; intros rows offset emitted H0 Hem; cbn [vector_fill].
  { exists 0%nat. cbn. split; [lia|]. split; [by left|]. by rewrite app_nil_r, Nat.add_0_r, Z.add_0_r. }
  destruct (Nat.ltb_spec (length rows) CLUSTER_VECTOR_ROWS) as [Hl|Hl].
  2:{ exists 0%nat. cbn [take in_scope List.filter fmap list_fmap length]. split; [lia|]. split; [right; lia|].
      by rewrite app_nil_r, Nat.add_0_r, Z.add_0_r. }
  unfold in_scope in Hem. cbn [List.filter] in Hem. fold (in_scope want rest) in Hem.
  destruct (meshtastic_cluster_scope_contains want (e_key e)) eqn:Ec.
  - cbn [length] in Hem. rewrite (u16_small (emitted + 1)) by lia.
    destruct (IH (rows ++ [row_of e]) (S offset) (emitted + 1) ltac:(lia) ltac:(lia)) as (n & H1 & H2 & E).
    exists (S n). cbn [length take]. unfold in_scope. cbn [List.filter]. rewrite Ec. fold (in_scope want (take n rest)).
    split; [lia|]. split; [rewrite length_app in H2; cbn in *; lia|].
    unfold row_of in E at 1. rewrite E. cbn [fmap list_fmap length]. f_equal; [f_equal|]; [by rewrite <- app_assoc | lia | lia].
  - destruct (IH rows (S offset) emitted ltac:(lia) ltac:(lia)) as (n & H1 & H2 & E).
    exists (S n). cbn [length take]. unfold in_scope. cbn [List.filter]. rewrite Ec. fold (in_scope want (take n rest)).
    split; [lia|]. split; [lia|]. rewrite E. f_equal. f_equal. lia.
Qed.

Lemma count_scoped_length sc d :
  Z.of_nat (length (entries d)) <= 65535 -> meshtastic_cluster_doc_count_scoped sc d = Z.of_nat (length (in_scope sc (entries d))).
Proof.
  intros Hl. unfold meshtastic_cluster_doc_count_scoped.
  rewrite (foldl_in_scope (fun n _ => u16 (n + 1)) sc).
  pose proof (List.filter_length_le (fun e => meshtastic_cluster_scope_contains sc (e_key e)) (entries d)) as Hi.
  fold (in_scope sc (entries d)) in Hi.
  assert (G : forall (l : list cluster_entry) n, 0 <= n -> n + Z.of_nat (length l) <= 65535 ->
            foldl (fun n _ => u16 (n + 1)) n l = n + Z.of_nat (length l)).
  { induction l as [|e l IH]; intros n H0 Hn; cbn [foldl length] in *; [lia|]. rewrite u16_small by lia. rewrite IH; lia. }
  rewrite G; lia.
Qed.

(** Everything the node has to send, one frame after the other. *)
Fixpoint drain (env : sync_env) (fuel : nat) (s : sync) : list (Z * cluster_message) * sync :=
  match fuel with
  | O => ([], s)
  | S fuel =>
      match tx_next_locked env s with
      | (None, s') => ([], s')
      | (Some m, s') => let '(ms, s'') := drain env fuel s' in (m :: ms, s'')
      end
  end.

(** A responder with no work of its own. *)
Definition responder (b : sync) : Prop := pull_state b = PULL_IDLE /\ push_count b = 0%nat.

Lemma tx_entry_idle c : ent_dest c = 0 -> tx_entry_locked c = (None, c).
Proof.
  intros H. unfold tx_entry_locked. cbn [tx_entry_loop]. rewrite H. cbn. f_equal. destruct c. cbn in *. by subst.
Qed.

Lemma responder_idle env b :
  responder b -> ent_dest (cl b) = 0 -> vec_dest b = 0 -> tx_next_locked env b = (None, b).
Proof.
  intros [H1 H2] H3 H4. unfold tx_next_locked. rewrite tx_entry_idle by done.
  assert (set_cl (cl b) b = b) as -> by (by destruct b). cbv zeta. rewrite H4, H1. cbn [negb Z.eqb tx_push_loop]. by rewrite H2.
Qed.

Lemma drain_vector env A fuel : forall b,
  A <> 0 -> responder b -> ent_dest (cl b) = 0 -> vec_dest b = A -> doc_wf (doc (cl b)) -> Z.of_nat (doc_cap (doc (cl b))) <= 65535 ->
  let want := meshtastic_cluster_scope_make (vec_scope_kind b) A in
  let E := entries (doc (cl b)) in
  (vec_offset b <= length E)%nat -> vec_emitted b = Z.of_nat (length (in_scope want (take (vec_offset b) E))) ->
  (length E - vec_offset b + 1 < fuel)%nat ->
  exists vs b', drain env fuel b = ((fun v => (A, MsgVector v)) <$> vs, b') /\
    vec_stream (in_scope want E) (length (in_scope want (take (vec_offset b) E))) vs /\
    cl b' = cl b /\ responder b' /\ vec_dest b' = 0.
Proof.
  induction fuel as [|fuel IH]; intros b HA Hr He Hv Hwf Hcap want E Hoff Hem Hf; [lia|].
  cbn [drain]. unfold tx_next_locked. rewrite tx_entry_idle by done. cbv zeta.
  assert (set_cl (cl b) b = b) as -> by (by destruct b). rewrite Hv, (proj2 (Z.eqb_neq A 0) HA). cbn [negb].
  unfold tx_vector_locked. cbv zeta. rewrite Hv. fold want. fold E.
  pose proof (wf_room _ Hwf) as Hroom. fold E in Hroom.
  assert (Hsplit : in_scope want E = in_scope want (take (vec_offset b) E) ++ in_scope want (drop (vec_offset b) E))
    by (rewrite <- in_scope_app, take_drop; done).
  pose proof (List.filter_length_le (fun e => meshtastic_cluster_scope_contains want (e_key e)) E) as Htot.
  fold (in_scope want E) in Htot.
  destruct (vector_fill_spec want (drop (vec_offset b) E) [] (vec_offset b) (vec_emitted b)) as (n & Hn1 & Hn2 & Efill);
    [lia | rewrite Hsplit, length_app in Htot; lia|].
  rewrite Efill. rewrite length_drop in Hn1, Hn2. cbn [app length] in *.
  set (o := vec_offset b) in *. set (xs := in_scope want (take n (drop o E))) in *.
  rewrite count_scoped_length by (fold E; lia). fold E.
  assert (Hsplit2 : drop (length (in_scope want (take o E))) (in_scope want E) = xs ++ in_scope want (drop (o + n) E)).
  { rewrite Hsplit, drop_app_length. unfold xs. rewrite <- in_scope_app, <- (drop_drop E n o), take_drop. done. }
  destruct (Nat.leb_spec (length E) (o + n)) as [Hend|Hend].
  - set (b1 := count1 _ _).
    assert (D : drain env fuel b1 = ([], b1)).
    { destruct fuel; [lia|]. cbn [drain]. by rewrite responder_idle by (done || (destruct Hr; by split)). }
    rewrite D. exists [PbVector (vec_emitted b) (Z.of_nat (length (in_scope want E))) (row_of <$> xs)], b1.
    split; [done|]. split; [|done]. rewrite Hem. apply vs_last.
    rewrite Hsplit2, (drop_ge E) by lia. cbn. apply app_nil_r.
  - set (b1 := count1 _ _).
    assert (Hlen : length (in_scope want (take (o + n) E)) = (length (in_scope want (take o E)) + length xs)%nat).
    { unfold xs. rewrite <- length_app, <- in_scope_app. do 2 f_equal.
      rewrite <- (take_drop o (take (o + n) E)). f_equal; [rewrite take_take; f_equal; lia|].
      rewrite take_drop_commute. done. }
    assert (0 < n)%nat.
    { destruct Hn2 as [Hn2|Hn2]; [lia|]. destruct n; [exfalso|lia]. clear -Hn2. unfold xs in Hn2. rewrite take_0 in Hn2. cbn in Hn2. unfold CLUSTER_VECTOR_ROWS in Hn2. lia. }
    assert (Hem1 : vec_emitted b1 = Z.of_nat (length (in_scope want (take (vec_offset b1) E)))).
    { change (vec_offset b1) with (o + n)%nat. rewrite Hlen. change (vec_emitted b1) with (vec_emitted b + Z.of_nat (length xs)).
      rewrite Hem. lia. }
    destruct (IH b1 HA Hr He Hv Hwf Hcap ltac:(change (vec_offset b1) with (o + n)%nat; fold E; cbn; fold E; lia) Hem1
      ltac:(change (vec_offset b1) with (o + n)%nat; cbn; fold E; lia)) as (vs & b' & D & Vs & B1 & B2 & B3).
    rewrite D. eexists (_ :: vs), b'. split; [done|]. split; [|done]. rewrite Hem. eapply vs_more; [exact Hsplit2|].
    change (vec_offset b1) with (o + n)%nat in Vs. change (entries (doc (cl b1))) with E in Vs.
    change (meshtastic_cluster_scope_make (vec_scope_kind b1) A) with want in Vs. rewrite Hlen in Vs. exact Vs.
Qed.

(** ** The stamp vector, requester *)

(** The row is worth asking for. *)
Definition wanted_as (env : cluster_env) (mine : cluster_scope) (d : cluster_doc) (e : cluster_entry) : bool :=
  section_shareable (k_section (e_key e)) && stamp_within_horizon env (e_stamp e) &&
  match meshtastic_cluster_doc_want mine (e_key e) (e_stamp e) d with WANT_YES => true | _ => false end.
Definition wanted (env : cluster_env) (c : cluster) : cluster_entry -> bool :=
  wanted_as env (my_scope_locked env c).1 (doc c).

(** What the walk leaves alone. *)
Definition rest_of (s : sync) :=
  (doc (cl s), scope_kind_of (cl s), asm_rx (cl s), burst (cl s), vec_dest s, push_count s).
Definition pull_of (s : sync) := (pull_state s, pull_peer s, pull_keys s).

Lemma my_scope_rest env s :
  rest_of (my_scope env s).2 = rest_of s /\ pull_of (my_scope env s).2 = pull_of s /\
  (my_scope env s).1 = (my_scope_locked (ce env) (cl s)).1.
Proof. unfold my_scope, my_scope_locked. by destruct (_ && _). Qed.

Lemma vector_row_spec env mine e s :
  key_from_pb (key_to_pb (e_key e)) = e_key e -> (length (entries (doc (cl s))) < doc_cap (doc (cl s)))%nat ->
  exists s', vector_row env mine (row_of e) s = (s', false) /\ rest_of s' = rest_of s /\
    pull_state s' = pull_state s /\ pull_peer s' = pull_peer s /\
    pull_keys s' = pull_keys s ++ (if wanted_as (ce env) mine (doc (cl s)) e then [e_key e] else []).
Proof.
  intros Hk Hroom. unfold vector_row, row_of, wanted_as. rewrite Hk. cbv zeta.
  destruct (section_shareable _); cbn [negb orb andb]; [|exists s; rewrite app_nil_r; done].
  destruct (stamp_within_horizon _ _); cbn [negb orb andb]; [|exists s; rewrite app_nil_r; done].
  set (s1 := on_cl _ s). change (doc (cl s1)) with (doc (cl s)).
  assert (Hno : meshtastic_cluster_doc_want mine (e_key e) (e_stamp e) (doc (cl s)) <> WANT_NO_SPACE).
  { unfold meshtastic_cluster_doc_want. destruct (_ || _); [done|]. destruct (negb _); [done|].
    destruct (meshtastic_cluster_doc_find _ _); [by destruct (meshtastic_hlc_newer _ _)|].
    by rewrite (proj2 (Nat.ltb_lt _ _) Hroom). }
  destruct (meshtastic_cluster_doc_want _ _ _ _); [| |done].
  - exists s1. rewrite app_nil_r. done.
  - exists (set_pull_keys (pull_keys s1 ++ [e_key e]) s1). done.
Qed.

Lemma vector_rows_spec env mine xs : forall s,
  Forall (fun e => key_from_pb (key_to_pb (e_key e)) = e_key e) xs ->
  (length (entries (doc (cl s))) < doc_cap (doc (cl s)))%nat -> (length (pull_keys s) <= CLUSTER_PULL_KEYS)%nat ->
  exists s', vector_rows env mine (row_of <$> xs) s false = (s', false) /\ rest_of s' = rest_of s /\
    pull_state s' = pull_state s /\ pull_peer s' = pull_peer s /\
    pull_keys s' = take CLUSTER_PULL_KEYS (pull_keys s ++ (e_key <$> List.filter (wanted_as (ce env) mine (doc (cl s))) xs)).
Proof.
  induction xs as [|e xs IH]; intros s Hk Hroom Hl; cbn [fmap list_fmap vector_rows List.filter].
  { exists s. rewrite app_nil_r, take_ge by lia. done. }
  apply Forall_cons in Hk as [Hke Hk].
  destruct (Nat.ltb_spec (length (pull_keys s)) CLUSTER_PULL_KEYS) as [Hlt|Hge].
  2:{ exists s. rewrite take_app_le, take_ge by lia. done. }
  destruct (vector_row_spec env mine e s Hke Hroom) as (s1 & E & R & P1 & P2 & K). rewrite E. cbn [orb].
  assert (Hd : doc (cl s1) = doc (cl s)) by (by injection R).
  destruct (IH s1 Hk ltac:(by rewrite Hd)) as (s2 & E2 & R2 & Q1 & Q2 & K2).
  { rewrite K, length_app. destruct (wanted_as _ _ _ _); cbn; lia. }
  exists s2. split; [exact E2|]. split; [congruence|]. split; [congruence|]. split; [congruence|].
  rewrite K2, K, Hd. destruct (wanted_as _ _ _ e); cbn [fmap list_fmap]; [by rewrite <- app_assoc | by rewrite app_nil_r].
Qed.

(** The end of the vector phase: the keys to ask for, or nothing. *)
Definition walk_done (B : Z) (W : list cluster_entry) (s : sync) : Prop :=
  match W with
  | [] => pull_state s = PULL_IDLE
  | _ => pull_of s = (PULL_SEND_ENTRY_REQ, B, take CLUSTER_PULL_KEYS (e_key <$> W))
  end.

Lemma on_vector_ignored env from v s :
  pull_state s <> PULL_AWAIT_VECTOR ->
  rest_of (on_vector env from v s).1 = rest_of s /\ pull_of (on_vector env from v s).1 = pull_of s.
Proof.
  intros Hp. unfold on_vector. destruct (my_scope_rest env s) as (R & P & _).
  destruct (my_scope env s) as [mine s1]. cbn [snd] in *. assert (pull_state s1 = pull_state s) as Hp1 by (by injection P).
  rewrite Hp1, bool_decide_false by done. cbn [negb orb]. by destruct (negb _).
Qed.

Lemma walk_done_ignores env from B W vs : forall s,
  walk_done B W s ->
  rest_of (foldl (fun s v => (on_vector env from v s).1) s vs) = rest_of s /\
  walk_done B W (foldl (fun s v => (on_vector env from v s).1) s vs).
Proof.
  induction vs as [|v vs IH]; intros s Hd; [done|]. cbn [foldl].
  assert (Hp : pull_state s <> PULL_AWAIT_VECTOR).
  { destruct W; unfold walk_done in Hd; [by rewrite Hd|]. unfold pull_of in Hd. by injection Hd as -> _ _. }
  destruct (on_vector_ignored env from v s Hp) as [R P].
  destruct (IH (on_vector env from v s).1) as [R2 D2]; [|by rewrite R2].
  destruct W; unfold walk_done in *; [|congruence]. unfold pull_of in P. injection P as -> _ _. done.
Qed.

Lemma walk_done_intro B W K s rest :
  e_key <$> W = K ++ rest -> (rest = [] \/ (CLUSTER_PULL_KEYS <= length K)%nat) ->
  (if (0 <? length (take CLUSTER_PULL_KEYS K))%nat
   then pull_of s = (PULL_SEND_ENTRY_REQ, B, take CLUSTER_PULL_KEYS K) else pull_state s = PULL_IDLE) ->
  walk_done B W s.
Proof.
  intros HW Hend Hs. assert (Ht : take CLUSTER_PULL_KEYS (e_key <$> W) = take CLUSTER_PULL_KEYS K).
  { rewrite HW. destruct Hend as [->|Hl]; [by rewrite app_nil_r | by rewrite take_app_le by lia]. }
  unfold walk_done. destruct W as [|w W].
  - cbn in HW. symmetry in HW. apply app_eq_nil in HW as [-> _]. done.
  - rewrite Ht. destruct K as [|k0 K]; cbn in Hs; [|done].
    destruct Hend as [->|Hl]; [done | cbn in Hl; unfold CLUSTER_PULL_KEYS in Hl; lia].
Qed.

Lemma on_vector_chunk env B R s k xs rest :
  let w := wanted (ce env) (cl s) in
  let K := e_key <$> List.filter w (take k R) in
  let K' := e_key <$> List.filter w (take (k + length xs) R) in
  pull_of s = (PULL_AWAIT_VECTOR, B, K) -> (length K < CLUSTER_PULL_KEYS)%nat ->
  drop k R = xs ++ rest -> (k <= length R)%nat -> Z.of_nat (length R) <= 65535 ->
  Forall (fun e => key_from_pb (key_to_pb (e_key e)) = e_key e) R ->
  (length (entries (doc (cl s))) < doc_cap (doc (cl s)))%nat ->
  let s' := (on_vector env B (PbVector (Z.of_nat k) (Z.of_nat (length R)) (row_of <$> xs)) s).1 in
  rest_of s' = rest_of s /\
  (walk_done B (List.filter w R) s' \/
   (rest <> [] /\ pull_of s' = (PULL_AWAIT_VECTOR, B, K') /\ (length K' < CLUSTER_PULL_KEYS)%nat)).
Proof.
  intros w K K' Hp HK Hd Hk HR Hkeys Hroom. unfold pull_of in Hp. injection Hp as Hp1 Hp2 Hp3.
  assert (HKK : K' = K ++ (e_key <$> List.filter w xs)).
  { unfold K', K. rewrite <- fmap_app, <- List.filter_app. do 2 f_equal.
    rewrite <- (take_drop k (take (k + length xs) R)). rewrite take_take, Nat.min_l by lia. f_equal.
    rewrite skipn_firstn_comm, Hd, Nat.add_comm, Nat.add_sub. by rewrite take_app_length. }
  assert (HWR : e_key <$> List.filter w R = K' ++ (e_key <$> List.filter w rest)).
  { rewrite HKK. unfold K. rewrite <- !fmap_app, <- !List.filter_app, <- app_assoc, <- Hd, take_drop. done. }
  assert (Hlen : (length R = k + length xs + length rest)%nat).
  { apply (f_equal length) in Hd. rewrite length_drop, length_app in Hd. lia. }
  assert (Hxs : Forall (fun e => key_from_pb (key_to_pb (e_key e)) = e_key e) xs).
  { assert (H : Forall (fun e => key_from_pb (key_to_pb (e_key e)) = e_key e) (drop k R)) by (by apply Forall_drop).
    rewrite Hd in H. by apply Forall_app in H as [? _]. }
  unfold on_vector. destruct (my_scope_rest env s) as (R1 & P1 & M1).
  destruct (my_scope env s) as [mine s1]. cbn [fst snd] in *. unfold pull_of in P1. injection P1 as Q1 Q2 Q3.
  rewrite Q1, Q2, Hp1, Hp2, bool_decide_true, Z.eqb_refl by done. cbn [negb orb]. cbv zeta. cbn [vc_rows vc_total vc_offset].
  assert (Hd1 : doc (cl s1) = doc (cl s)) by (by injection R1).
  destruct (vector_rows_spec env mine xs (count1 N_VECTOR_RX s1) Hxs ltac:(cbn; by rewrite Hd1) ltac:(cbn; rewrite Q3, Hp3; lia))
    as (s2 & E2 & R2 & S1 & S2 & K2). rewrite E2. cbn [pull_keys count1 scount set_sstats cl] in K2. rewrite Q3, Hp3, Hd1, M1 in K2.
  change (wanted_as (ce env) (my_scope_locked (ce env) (cl s)).1 (doc (cl s))) with w in K2. rewrite <- HKK in K2.
  assert (Hr2 : rest_of s2 = rest_of s) by (rewrite R2; exact R1).
  rewrite length_fmap, u32_small by lia. rewrite K2.
  set (last := (Z.of_nat (length R) =? 0) || (Z.of_nat (length R) <=? Z.of_nat k + Z.of_nat (length xs))).
  assert (Hlast : last = true <-> rest = []).
  { unfold last. rewrite orb_true_iff, Z.eqb_eq, Z.leb_le. split; [|intros ->; cbn in Hlen; lia].
    intros H. destruct rest; [done|]. cbn in Hlen. lia. }
  destruct ((CLUSTER_PULL_KEYS <=? length (take CLUSTER_PULL_KEYS K'))%nat || last) eqn:Eend.
  - assert (Hend : e_key <$> List.filter w rest = [] \/ (CLUSTER_PULL_KEYS <= length K')%nat).
    { apply orb_true_iff in Eend as [H%Nat.leb_le|H%Hlast]; [right; rewrite length_take in H; lia | left; by rewrite H]. }
    destruct (0 <? length (take CLUSTER_PULL_KEYS K'))%nat eqn:E0.
    + cbn [fst]. split; [exact Hr2|]. left. apply (walk_done_intro _ _ K' _ _ HWR Hend). rewrite E0.
      unfold pull_of. cbn. rewrite S2, K2. cbn. rewrite Q2, Hp2. done.
    + cbn [fst]. set (s3 := if bool_decide _ then _ else _).
      assert (rest_of (pull_reset_locked s3) = rest_of s) as Hr3.
      { unfold s3. destruct (bool_decide _); [|exact Hr2]. unfold fruitless_inc. destruct (_ <? _); exact Hr2. }
      split; [exact Hr3|]. left. apply (walk_done_intro _ _ K' _ _ HWR Hend). rewrite E0. done.
  - apply orb_false_iff in Eend as [H1%Nat.leb_gt H2]. rewrite length_take in H1. split; [exact Hr2|]. right.
    split; [intros Hrn; apply Hlast in Hrn; congruence|]. cbn [fst]. split; [|lia].
    unfold pull_of. rewrite S1, S2, K2, take_ge by lia. cbn [pull_state pull_peer count1 scount set_sstats]. by rewrite Q1, Q2, Hp1, Hp2.
Qed.

Lemma wanted_ext env c c' : doc c' = doc c -> scope_kind_of c' = scope_kind_of c -> wanted env c' = wanted env c.
Proof. intros Hd Hk. unfold wanted. by rewrite Hd, (my_scope_ext env env c c'). Qed.

Lemma vector_walk env B R k vs : vec_stream R k vs -> forall s,
  let w := wanted (ce env) (cl s) in
  let K := e_key <$> List.filter w (take k R) in
  pull_of s = (PULL_AWAIT_VECTOR, B, K) -> (length K < CLUSTER_PULL_KEYS)%nat ->
  (k <= length R)%nat -> Z.of_nat (length R) <= 65535 ->
  Forall (fun e => key_from_pb (key_to_pb (e_key e)) = e_key e) R ->
  (length (entries (doc (cl s))) < doc_cap (doc (cl s)))%nat ->
  let s' := foldl (fun s v => (on_vector env B v s).1) s vs in
  rest_of s' = rest_of s /\ walk_done B (List.filter w R) s'.
Proof.
  induction 1 as [k xs Hd|k xs rest vs Hd Hvs IH]; intros s w K Hp HK Hk HR Hkeys Hroom; cbn [foldl].
  - destruct (on_vector_chunk env B R s k xs [] Hp HK ltac:(by rewrite app_nil_r) Hk HR Hkeys Hroom) as [H1 [H2|[[] _]]]; done.
  - destruct (on_vector_chunk env B R s k xs rest Hp HK Hd Hk HR Hkeys Hroom) as [H1 H2].
    set (s1 := (on_vector env B _ s).1) in *. clearbody s1.
    assert (Hd1 : doc (cl s1) = doc (cl s) /\ scope_kind_of (cl s1) = scope_kind_of (cl s)) by (injection H1; done).
    destruct Hd1 as [Hd1 Hk1]. destruct H2 as [H2|(_ & H2 & H3)].
    + destruct (walk_done_ignores env B B _ vs s1 H2) as [R2 D2]. cbv zeta. by rewrite R2.
    + assert (Hw : wanted (ce env) (cl s1) = w) by (by apply wanted_ext).
      assert (Hkx : (k + length xs <= length R)%nat).
      { apply (f_equal length) in Hd. rewrite length_drop, length_app in Hd. lia. }
      specialize (IH s1). rewrite Hw in IH. destruct (IH H2 H3 Hkx HR Hkeys ltac:(by rewrite Hd1)) as [I1 I2].
      split; [by rewrite I1 | exact I2].
Qed.

(** ** One exchange *)

(** Frames handed to the node they are for; unicasts travel under the peer's key. *)
Definition rx (env : sync_env) (from : Z) (ms : list (Z * cluster_message)) (s : sync) : sync :=
  foldl (fun s m => if m.1 =? me env then (cluster_on_packet env from 0 true (Some m.2) s).1 else s) s ms.

(** The requester sends what it has, the responder answers, twice. *)
Definition exchange (envA envB : sync_env) (fuel : nat) (a b : sync) : sync * sync :=
  let '(ms1, a1) := drain envA fuel a in
  let b1 := rx envB (me envA) ms1 b in
  let '(ms2, b2) := drain envB fuel b1 in
  let a2 := rx envA (me envB) ms2 a1 in
  let '(ms3, a3) := drain envA fuel a2 in
  let b3 := rx envB (me envA) ms3 b2 in
  let '(ms4, b4) := drain envB fuel b3 in
  (rx envA (me envB) ms4 a3, b4).

Lemma rx_map env from (f : sync -> cluster_message -> sync) dest ms s :
  dest = me env -> (forall m s, m ∈ ms -> (cluster_on_packet env from 0 true (Some m) s).1 = f s m) ->
  rx env from ((dest,.) <$> ms) s = foldl f s ms.
Proof.
  intros ->. revert s. induction ms as [|m ms IH]; intros s Hf; [done|]. cbn [fmap list_fmap rx foldl]. unfold rx in *. cbn [foldl fst snd].
  rewrite Z.eqb_refl, Hf by set_solver. apply IH. intros m0 s0 Hm. apply Hf. set_solver.
Qed.

Lemma on_packet_chan env from m s :
  is_Some (cluster_channel_index env) ->
  cluster_on_packet env from 0 true (Some m) s =
  match m with
  | MsgDigest d => (on_digest env from d s, [])
  | MsgVectorReq sc => (on_vector_req env from sc s, [])
  | MsgVector v => on_vector env from v s
  | MsgEntryReq ks => with_cl env (on_entry_req (ce env) from ks (cl s)) s
  | MsgEntry e => with_cl env (on_entry (ce env) from e (cl s)) s
  | MsgOther => (count1 N_RX_NOT_IMPLEMENTED s, [])
  end.
Proof. intros [ch E]. unfold cluster_on_packet. rewrite E. cbn. by destruct m. Qed.

(** The requester's first and second frame. *)
Lemma requester_asks_vector env fuel a :
  pull_state a = PULL_SEND_VECTOR_REQ -> ent_dest (cl a) = 0 -> vec_dest a = 0 -> push_count a = 0%nat -> (1 < fuel)%nat ->
  exists a1, drain env fuel a = ([(pull_peer a, MsgVectorReq (scope_to_pb (my_scope_locked (ce env) (cl a)).1))], a1) /\
    rest_of a1 = rest_of a /\ pull_of a1 = (PULL_AWAIT_VECTOR, pull_peer a, pull_keys a) /\ push_count a1 = 0%nat.
Proof.
  intros Hp He Hv Hc Hf. destruct fuel as [|[|fuel]]; [lia..|].
  cbn [drain]. unfold tx_next_locked at 1. rewrite tx_entry_idle by done. cbv zeta.
  assert (set_cl (cl a) a = a) as -> by (by destruct a). rewrite Hv, Hp. cbn [negb Z.eqb].
  destruct (my_scope_rest env a) as (R & P & M).
  assert (Hc1 : push_count (my_scope env a).2 = push_count a) by (unfold my_scope, my_scope_locked; by destruct (_ && _)).
  destruct (my_scope env a) as [mine a0]. cbn [fst snd] in *. subst mine.
  unfold rest_of, burst in R. injection R as R1 R2 R3 R4 R5 R6 R7 R8 R9 _. unfold pull_of in P. injection P as P1 P2 P3.
  set (a1 := set_pull_state PULL_AWAIT_VECTOR a0).
  assert (E : tx_next_locked env a1 = (None, a1)).
  { unfold tx_next_locked. rewrite tx_entry_idle by (cbn; congruence). cbv zeta.
    assert (set_cl (cl a1) a1 = a1) as -> by (by destruct a0). change (vec_dest a1) with (vec_dest a0). rewrite R9, Hv. cbn [negb Z.eqb].
    change (pull_state a1) with PULL_AWAIT_VECTOR. cbn [tx_push_loop]. change (push_count a1) with (push_count a0). by rewrite Hc1, Hc. }
  rewrite E. exists a1. rewrite P2. split; [done|]. split; [|split; [|cbn; congruence]].
  - unfold rest_of, burst, a1. cbn. congruence.
  - unfold pull_of, a1. cbn. congruence.
Qed.

Lemma requester_asks_entries env fuel B K a :
  pull_of a = (PULL_SEND_ENTRY_REQ, B, K) -> ent_dest (cl a) = 0 -> vec_dest a = 0 -> push_count a = 0%nat -> (1 < fuel)%nat ->
  exists a1, drain env fuel a = ([(B, MsgEntryReq (key_to_pb <$> K))], a1) /\ cl a1 = cl a /\ vec_dest a1 = vec_dest a /\
    pull_state a1 = PULL_IDLE /\ push_count a1 = 0%nat.
Proof.
  intros Hp He Hv Hc Hf. unfold pull_of in Hp. injection Hp as Hp1 Hp2 Hp3. destruct fuel as [|[|fuel]]; [lia..|].
  cbn [drain]. unfold tx_next_locked at 1. rewrite tx_entry_idle by done. cbv zeta.
  assert (set_cl (cl a) a = a) as -> by (by destruct a). rewrite Hv, Hp1, Hp2, Hp3. cbn [negb Z.eqb].
  set (a1 := pull_reset_locked _).
  rewrite (responder_idle env a1) by (done || by split). exists a1. done.
Qed.

Lemma idle_drain env fuel a :
  responder a -> ent_dest (cl a) = 0 -> vec_dest a = 0 -> drain env fuel a = ([], a).
Proof. intros Hr He Hv. destruct fuel; cbn [drain]; [done|]. by rewrite responder_idle. Qed.

(** The responder's budget allows [n] more replies now. *)
Definition serve_ready (env : cluster_env) (c : cluster) (n : Z) : Prop :=
  cfg_serve_min_interval_ms env = 0 \/
  (n <= serve_tokens c /\ uptime_ms env - serve_refill_ms c < cfg_serve_min_interval_ms env).

Lemma may_serve_ready env c n : 1 <= n -> serve_ready env c n -> may_serve_locked env c = (true, c).
Proof.
  intros Hn [H|[H1 H2]]; unfold may_serve_locked; [by rewrite H|]. destruct (_ =? 0); [done|]. cbv zeta.
  rewrite (proj2 (Z.leb_gt _ _)) by lia. by rewrite (proj2 (Z.eqb_neq _ 0)) by lia.
Qed.

Lemma serve_started_keeps c : doc (serve_started_locked c) = doc c /\ burst (serve_started_locked c) = burst c.
Proof. unfold serve_started_locked. by destruct (0 <? _). Qed.

Lemma serve_started_ready env c n : 1 <= n -> serve_ready env c (n + 1) -> serve_ready env (serve_started_locked c) n.
Proof.
  intros Hn [H|[H1 H2]]; [by left|]. right. unfold serve_started_locked. rewrite (proj2 (Z.ltb_lt _ _)) by lia. cbn. lia.
Qed.

(** The requester's claim is what the responder serves. *)
Lemma claim_carried env c A :
  A = node_id env -> scope_kind_of c <> SCOPE_BASE ->
  meshtastic_cluster_scope_make (sc_kind (scope_from_pb (scope_to_pb (my_scope_locked env c).1) A).1) A = (my_scope_locked env c).1.
Proof.
  intros -> Hk. unfold my_scope_locked, scope_to_pb, scope_from_pb, meshtastic_cluster_scope_make.
  destruct (scope_kind_of c); [done | |]; cbn; [|done]. by destruct (node_id env =? 0).
Qed.

Lemma wanted_in_scope env c l :
  List.filter (wanted env c) (in_scope (my_scope_locked env c).1 l) = List.filter (wanted env c) l.
Proof.
  unfold in_scope. induction l as [|e l IH]; [done|]. cbn [List.filter].
  destruct (meshtastic_cluster_scope_contains _ _) eqn:E; cbn [List.filter]; rewrite IH; [done|].
  assert (wanted env c e = false) as ->; [|done].
  unfold wanted, wanted_as, meshtastic_cluster_doc_want. rewrite E. cbn [negb]. destruct (_ || _); apply andb_false_r.
Qed.

Lemma drain_tx_run env fuel : forall b,
  responder b -> vec_dest b = 0 ->
  drain env fuel b = ((fun m => (m.1, MsgEntry m.2)) <$> (tx_run fuel (cl b)).1, set_cl (tx_run fuel (cl b)).2 b).
Proof.
  induction fuel as [|fuel IH]; intros b [Hp Hc] Hv; cbn [drain tx_run]; [by destruct b|].
  unfold tx_next_locked. destruct (tx_entry_locked (cl b)) as [[[dest e]|] c] eqn:E; cbv zeta.
  - rewrite (IH (set_cl c b)) by (done || by split). change (cl (set_cl c b)) with c.
    destruct (tx_run fuel c) as [ms c']. done.
  - change (vec_dest (set_cl c b)) with (vec_dest b). change (pull_state (set_cl c b)) with (pull_state b).
    rewrite Hv, Hp. cbn [negb Z.eqb tx_push_loop]. change (push_count (set_cl c b)) with (push_count b). by rewrite Hc.
Qed.

Lemma rx_entries env from es : forall s,
  let f := fun s m => match m with MsgEntry e => (with_cl env (on_entry (ce env) from e (cl s)) s).1 | _ => s end in
  let s' := foldl f s (MsgEntry <$> es) in
  cl s' = rx_all (ce env) from es (cl s) /\ pull_state s' = pull_state s /\ vec_dest s' = vec_dest s.
Proof.
  induction es as [|e es IH]; intros s; [done|]. cbv zeta. cbn [fmap list_fmap foldl].
  destruct (with_cl_no_kick env (on_entry (ce env) from e (cl s)) s (on_entry_no_kick _ _ _ _)) as (_ & C & P & V).
  specialize (IH (with_cl env (on_entry (ce env) from e (cl s)) s).1). cbv zeta in IH. destruct IH as (I1 & I2 & I3).
  cbn [fmap list_fmap] in *. rewrite I1, I2, I3, C, P, V. done.
Qed.

(** ** What is left to ask for *)

Lemma bool_filter_elem {A} (p : A -> bool) l x : x ∈ List.filter p l <-> x ∈ l /\ p x = true.
Proof. by rewrite !list_elem_of_In, filter_In. Qed.

Lemma bool_filter_all {A} (p : A -> bool) l b :
  (forall x, x ∈ l -> p x = b) -> List.filter p l = if b then l else [].
Proof.
  induction l as [|x l IH]; intros H; [by destruct b|]. cbn [List.filter]. rewrite (H x ltac:(set_solver)).
  rewrite IH by set_solver. by destruct b.
Qed.

Lemma bool_filter_ext {A} (p q : A -> bool) l :
  (forall x, x ∈ l -> p x = q x) -> List.filter p l = List.filter q l.
Proof. intros H. apply filter_ext_in. intros x Hx. apply H. by apply list_elem_of_In. Qed.

Lemma bool_filter_nodup {A} (p : A -> bool) l : NoDup l -> NoDup (List.filter p l).
Proof. rewrite !NoDup_ListNoDup. apply List.NoDup_filter. Qed.

(** Leaving out the first of the elements a filter keeps. *)
Lemma filter_drop_prefix {A} `{EqDecision A} (p : A -> bool) l T W :
  NoDup l -> List.filter p l = T ++ W -> List.filter (fun x => p x && bool_decide (x ∉ T)) l = W.
Proof.
  intros Hnd HTW. pose proof (bool_filter_nodup p l Hnd) as Hn. rewrite HTW in Hn. apply NoDup_app in Hn as (_ & Hdisj & _).
  assert (E : List.filter (fun x => p x && bool_decide (x ∉ T)) l = List.filter (fun x => bool_decide (x ∉ T)) (List.filter p l)).
  { clear. induction l as [|x l IH]; [done|]. cbn [List.filter]. destruct (p x); cbn [List.filter andb]; by rewrite IH. }
  rewrite E, HTW, List.filter_app.
  rewrite (bool_filter_all _ T false) by (intros x Hx; apply bool_decide_false; by intros []).
  rewrite (bool_filter_all _ W true); [done|]. intros x Hx. apply bool_decide_true. intros HxT. by apply (Hdisj x).
Qed.

(** A row just taken is not asked for again. *)
Lemma not_wanted_held env c e : meshtastic_cluster_doc_find (e_key e) (doc c) = Some e -> wanted env c e = false.
Proof.
  intros Hf. unfold wanted, wanted_as, meshtastic_cluster_doc_want. rewrite Hf, hlc_newer_irrefl.
  destruct (_ || _); [apply andb_false_r|]. destruct (negb _); apply andb_false_r.
Qed.

(** With room, a row is judged by what the document has for its key. *)
Lemma wanted_same_key env c c' e :
  scope_kind_of c' = scope_kind_of c ->
  meshtastic_cluster_doc_find (e_key e) (doc c') = meshtastic_cluster_doc_find (e_key e) (doc c) ->
  (length (entries (doc c)) < doc_cap (doc c))%nat ->
  (wanted env c e = true -> (length (entries (doc c')) < doc_cap (doc c'))%nat) -> wanted env c' e = wanted env c e.
Proof.
  intros Hk Hf Hroom Hroom'. unfold wanted, wanted_as, meshtastic_cluster_doc_want in *.
  rewrite (my_scope_ext env env c c'), Hf in * by done.
  destruct (meshtastic_cluster_doc_find (e_key e) (doc c)); [done|].
  rewrite (proj2 (Nat.ltb_lt _ _) Hroom) in *.
  destruct (section_shareable _ && stamp_within_horizon _ _); cbn [andb] in *; [|done].
  destruct (_ || _); [done|]. destruct (negb _); [done|].
  by rewrite (proj2 (Nat.ltb_lt _ _) (Hroom' eq_refl)).
Qed.

Lemma wanted_after env c c' T W l :
  doc_sorted l -> List.filter (wanted env c) l = T ++ W -> scope_kind_of c' = scope_kind_of c ->
  (length (entries (doc c)) < doc_cap (doc c))%nat ->
  (W <> [] -> (length (entries (doc c')) < doc_cap (doc c'))%nat) ->
  (forall x, x ∈ T -> meshtastic_cluster_doc_find (e_key x) (doc c') = Some x) ->
  (forall k, k ∉ (e_key <$> T) -> meshtastic_cluster_doc_find k (doc c') = meshtastic_cluster_doc_find k (doc c)) ->
  List.filter (wanted env c') l = W.
Proof.
  intros Hs HTW Hk Hroom Hroom' HT Hrest.
  assert (Hnd : NoDup l) by (eapply NoDup_fmap_1, sorted_keys_nodup, Hs).
  rewrite <- (filter_drop_prefix _ _ _ _ Hnd HTW). apply bool_filter_ext. intros e He.
  destruct (decide (e ∈ T)) as [HeT|HeT].
  - rewrite (not_wanted_held env c' e) by (by apply HT). rewrite bool_decide_false by (by intros []). by rewrite andb_false_r.
  - rewrite bool_decide_true by done. rewrite andb_true_r. apply wanted_same_key; [done | | done |].
    + apply Hrest. intros (x & Hx & HxT)%list_elem_of_fmap. apply HeT.
      assert (Hxl : x ∈ l) by (eapply (proj1 (proj1 (bool_filter_elem (wanted env c) l x) ltac:(rewrite HTW; set_solver)))).
      by rewrite (sorted_key_inj l e x Hs He Hxl Hx).
    + intros Hw. apply Hroom'. intros ->. apply HeT. rewrite app_nil_r in HTW. rewrite <- HTW. by apply bool_filter_elem.
Qed.

(** ** The exchange *)

(** The rows of the responder the requester lacks, in the responder's order. *)
Definition lacks (env : sync_env) (a b : sync) : list cluster_entry :=
  List.filter (wanted (ce env) (cl a)) (entries (doc (cl b))).

(** A requester that has opened a walk, a responder free to serve it, frames that both
    can read, and gates that let the next rows in. *)
Record exchange_ok (envA envB : sync_env) (a b : sync) : Prop := {
  xo_idA : me envA <> 0; xo_idB : me envB <> 0;
  xo_chanA : is_Some (cluster_channel_index envA); xo_chanB : is_Some (cluster_channel_index envB);
  xo_timeout : 0 <= cfg_frag_timeout_sec (ce envA);
  xo_wfA : sync_wf a; xo_wfB : sync_wf b;
  xo_asking : pull_of a = (PULL_SEND_VECTOR_REQ, me envB, []);
  xo_freeA : ent_dest (cl a) = 0 /\ vec_dest a = 0 /\ push_count a = 0%nat;
  xo_slot : slot_idle (cl a);
  xo_claim : scope_kind_of (cl a) <> SCOPE_BASE;
  xo_freeB : responder b /\ ent_dest (cl b) = 0 /\ vec_dest b = 0;
  xo_budget : serve_ready (ce envB) (cl b) 2;
  xo_cap : Z.of_nat (doc_cap (doc (cl b))) <= 65535;
  xo_rows : Forall sendable (entries (doc (cl b)));
  xo_takes : Forall (takes (ce envA) (cl a)) (take CLUSTER_PULL_KEYS (lacks envA a b));
  xo_room : (length (entries (doc (cl a))) < doc_cap (doc (cl a)))%nat /\
            (length (entries (doc (cl a))) + length (lacks envA a b) <= doc_cap (doc (cl a)))%nat;
}.

(** The first half: the vector is asked for, served and diffed. *)
Lemma exchange_vector envA envB fuel a b :
  exchange_ok envA envB a b -> (length (entries (doc (cl b))) + 2 < fuel)%nat ->
  exists ms1 a1 ms2 b2,
    drain envA fuel a = (ms1, a1) /\ drain envB fuel (rx envB (me envA) ms1 b) = (ms2, b2) /\
    rest_of (rx envA (me envB) ms2 a1) = rest_of a /\ walk_done (me envB) (lacks envA a b) (rx envA (me envB) ms2 a1) /\
    responder b2 /\ vec_dest b2 = 0 /\ ent_dest (cl b2) = 0 /\ doc (cl b2) = doc (cl b) /\ serve_ready (ce envB) (cl b2) 1.
Proof.
  intros X Hf. destruct X as [HA HB HcA HcB Ht HwA HwB Hask (F1 & F2 & F3) Hslot Hclaim (G1 & G2 & G3) Hbud Hcap Hrows Htk [Hr1 Hr2]].
  pose proof Hask as Hask0. unfold pull_of in Hask. injection Hask as P1 P2 P3.
  destruct (requester_asks_vector envA fuel a P1 F1 F2 F3 ltac:(lia)) as (a1 & E1 & R1 & Q1 & C1). rewrite P2, P3 in *.
  set (sc := scope_to_pb (my_scope_locked (ce envA) (cl a)).1) in *.
  set (b1 := on_vector_req envB (me envA) sc b).
  assert (Hrx1 : rx envB (me envA) [(me envB, MsgVectorReq sc)] b = b1).
  { unfold rx. cbn [foldl fst snd]. rewrite Z.eqb_refl, on_packet_chan by done. done. }
  assert (Hb1 : cl b1 = serve_started_locked (cl b) /\ responder b1 /\ vec_dest b1 = me envA /\ vec_offset b1 = 0%nat /\
                vec_emitted b1 = 0 /\ vec_scope_kind b1 = sc_kind (scope_from_pb sc (me envA)).1).
  { unfold b1, on_vector_req. rewrite G3. cbn [negb Z.eqb]. rewrite (may_serve_ready _ _ 2) by (done || lia). cbn [negb].
    destruct (scope_from_pb sc (me envA)). destruct G1. done. }
  destruct Hb1 as (B1 & B2 & B3 & B4 & B5 & B6). destruct (serve_started_keeps (cl b)) as [S1 S2]. unfold burst in S2. injection S2 as S2 _ _ _ _.
  assert (Hd1 : doc (cl b1) = doc (cl b)) by (by rewrite B1).
  destruct (drain_vector envB (me envA) fuel b1 HA B2 ltac:(by rewrite B1, S2) B3 ltac:(rewrite Hd1; apply HwB) ltac:(by rewrite Hd1))
    as (vs & b2 & E2 & Vs & D1 & D2 & D3); [rewrite B4; lia | by rewrite B4, B5 | rewrite Hd1, B4; lia |].
  rewrite B4, Hd1, B6 in Vs. unfold sc in Vs. rewrite claim_carried in Vs by done.
  change (length (in_scope _ (take 0 _))) with 0%nat in Vs.
  exists [(me envB, MsgVectorReq sc)], a1, ((fun v => (me envA, MsgVector v)) <$> vs), b2.
  split; [done|]. rewrite Hrx1. split; [done|].
  assert (Hrx2 : rx envA (me envB) ((fun v => (me envA, MsgVector v)) <$> vs) a1 = foldl (fun s v => (on_vector envA (me envB) v s).1) a1 vs).
  { rewrite (list_fmap_compose MsgVector (me envA,.) vs : (fun v => (me envA, MsgVector v)) <$> vs = _).
    rewrite (rx_map envA (me envB) (fun s m => match m with MsgVector v => (on_vector envA (me envB) v s).1 | _ => s end)); [|done|].
    - clear. revert a1. induction vs as [|v vs IH]; intros a1; [done|]. cbn [fmap list_fmap foldl]. apply IH.
    - intros m s (v & -> & _)%list_elem_of_fmap. by rewrite on_packet_chan. }
  rewrite Hrx2.
  assert (Hda : doc (cl a1) = doc (cl a) /\ scope_kind_of (cl a1) = scope_kind_of (cl a)) by (unfold rest_of in R1; injection R1; done).
  destruct Hda as [Hda Hka]. assert (Hw : wanted (ce envA) (cl a1) = wanted (ce envA) (cl a)) by (by apply wanted_ext).
  pose proof (vector_walk envA (me envB) _ _ vs Vs a1) as Hwalk. cbv zeta in Hwalk. rewrite Hw, wanted_in_scope in Hwalk.
  pose proof (List.filter_length_le (fun e => meshtastic_cluster_scope_contains (my_scope_locked (ce envA) (cl a)).1 (e_key e)) (entries (doc (cl b)))) as Hle.
  fold (in_scope (my_scope_locked (ce envA) (cl a)).1 (entries (doc (cl b)))) in Hle. pose proof (wf_room _ (sw_doc _ HwB)) as Hroom.
  destruct Hwalk as [W1 W2].
  - exact Q1.
  - apply Nat.ltb_lt. reflexivity.
  - lia.
  - lia.
  - apply Forall_forall. intros e [He _]%in_scope_elem. rewrite Forall_forall in Hrows. destruct (Hrows e He) as [Hok Hkw _].
    apply key_pb_roundtrip; [done|]. unfold entry_ok in Hok. by bools.
  - by rewrite Hda.
  - split; [by rewrite W1|]. split; [exact W2|]. split; [done|]. split; [done|]. rewrite D1, B1.
    split; [congruence|]. split; [done|]. by apply serve_started_ready.
Qed.

Lemma found_rows d xs : doc_wf d -> (forall x, x ∈ xs -> x ∈ entries d) -> found d (e_key <$> xs) = xs.
Proof.
  intros Hwf. unfold found. induction xs as [|x xs IH]; intros H; [done|]. cbn [fmap list_fmap omap list_omap].
  rewrite (proj2 (find_spec (e_key x) d x (wf_sorted _ Hwf))) by (split; [set_solver | done]).
  f_equal. apply IH. set_solver.
Qed.

Lemma tx_entry_doc n : forall c, doc (tx_entry_loop n c).2 = doc c.
Proof.
  assert (Ha : forall c, doc (ent_advance_locked c) = doc c)
    by (intros; unfold ent_advance_locked; cbv zeta; by destruct (_ <=? _)%nat).
  induction n as [|n IH]; intros c; cbn [tx_entry_loop]; [done|]. destruct (_ && _); [|done].
  destruct (ent_keys c !! _); [|done]. destruct (meshtastic_cluster_doc_find _ _); [|by rewrite IH].
  destruct (entry_to_pb_frag _ _) as [[? ?] ?]. cbv zeta. destruct (_ <=? _); [|done]. cbn. by rewrite Ha.
Qed.

Lemma tx_run_doc n : forall c, doc (tx_run n c).2 = doc c.
Proof.
  induction n as [|n IH]; intros c; cbn [tx_run]; [done|].
  pose proof (tx_entry_doc (S (length (ent_keys c) - ent_next c)) c) as H. fold (tx_entry_locked c) in H.
  destruct (tx_entry_locked c) as [[m|] c1]; cbn [snd] in H; [|done].
  specialize (IH c1). destruct (tx_run n c1). cbn [snd] in *. congruence.
Qed.

(** The second half: the keys are asked for and the entries served. *)
Lemma exchange_entries envB fuel A T b :
  A <> 0 -> is_Some (cluster_channel_index envB) -> me envB <> 0 ->
  doc_wf (doc (cl b)) -> responder b -> vec_dest b = 0 -> ent_dest (cl b) = 0 -> serve_ready (ce envB) (cl b) 1 ->
  T <> [] -> (length T <= CLUSTER_PULL_KEYS)%nat -> (forall x, x ∈ T -> x ∈ entries (doc (cl b))) ->
  Forall (fun e => key_from_pb (key_to_pb (e_key e)) = e_key e) T -> (13 < fuel)%nat ->
  exists b', drain envB fuel (rx envB A [(me envB, MsgEntryReq (key_to_pb <$> (e_key <$> T)))] b) =
             ((A,.) <$> (MsgEntry <$> concat (entry_frames <$> T)), b') /\ doc (cl b') = doc (cl b).
Proof.
  intros HA Hc HB Hwf Hr Hv He Hs HT Hl Hin Hk Hf.
  assert (Hks : take CLUSTER_PULL_KEYS (key_from_pb <$> (key_to_pb <$> (e_key <$> T))) = e_key <$> T).
  { rewrite take_ge by (rewrite !length_fmap; lia). clear -Hk.
    induction Hk as [|x T Hx Hk IH]; [done|]. cbn [fmap list_fmap] in *. rewrite Hx. f_equal. apply IH. }
  unfold rx. cbn [foldl fst snd]. rewrite Z.eqb_refl, on_packet_chan by done.
  set (r := on_entry_req (ce envB) A _ (cl b)).
  assert (Hreq : exists c, r = (c, [KickTx]) /\ burst_at A (e_key <$> T) (doc (cl b)) c /\ doc c = doc (cl b)).
  { unfold r, on_entry_req. rewrite He. cbn [Z.eqb]. rewrite (may_serve_ready _ _ 1) by (done || lia). rewrite Hks. cbv zeta.
    destruct T as [|x T]; [done|]. cbn [length fmap list_fmap Nat.eqb].
    destruct (serve_started_keeps (cl b)) as [S1 _].
    eexists. split; [done|]. split; [|exact S1]. unfold burst_at. cbn. split; [done|]. split; [done|]. split; [exact S1 | done]. }
  destruct Hreq as (c & -> & Hb & Hd). unfold with_cl. cbn [foldl fst snd run_effect].
  set (b1 := set_tx_at _ (set_cl c b)).
  rewrite (drain_tx_run envB fuel b1) by (done || (destruct Hr; by split)). change (cl b1) with c.
  assert (Hlen : (2 * length (e_key <$> T) < fuel)%nat) by (rewrite length_fmap; unfold CLUSTER_PULL_KEYS in Hl; lia).
  destruct (tx_run_burst A (doc (cl b)) HA Hwf (e_key <$> T) fuel c Hlen Hb) as [R1 _].
  eexists. split.
  - rewrite R1, found_rows by done. f_equal. rewrite <- !list_fmap_compose. done.
  - cbn. by rewrite tx_run_doc.
Qed.

(** What one exchange does: [T] are the rows brought over. *)
Record exchanged (a a' : cluster) (T : list cluster_entry) : Prop := {
  xd_brought : forall x, x ∈ T -> meshtastic_cluster_doc_find (e_key x) (doc a') = Some x;
  xd_kept : forall k, k ∉ (e_key <$> T) -> meshtastic_cluster_doc_find k (doc a') = meshtastic_cluster_doc_find k (doc a);
  xd_wf : doc_wf (doc a');
  xd_cap : doc_cap (doc a') = doc_cap (doc a);
  xd_size : (length (entries (doc a')) <= length (entries (doc a)) + length T)%nat;
  xd_kind : scope_kind_of a' = scope_kind_of a;
  xd_slot : slot_idle a';
}.

Lemma exchange_spec envA envB fuel a b :
  exchange_ok envA envB a b -> (length (entries (doc (cl b))) + 14 < fuel)%nat ->
  let '(a', b') := exchange envA envB fuel a b in
  exchanged (cl a) (cl a') (take CLUSTER_PULL_KEYS (lacks envA a b)) /\
  doc (cl b') = doc (cl b) /\ pull_state a' = PULL_IDLE.
Proof.
  intros X Hf. destruct (exchange_vector envA envB fuel a b X ltac:(lia)) as (ms1 & a1 & ms2 & b2 & E1 & E2 & R & W & Y1 & Y2 & Y3 & Y4 & Y5).
  unfold exchange. rewrite E1, E2. cbv zeta. set (a2 := rx envA (me envB) ms2 a1) in *. clearbody a2.
  destruct X as [HA HB HcA HcB Ht HwA HwB _ (F1 & F2 & F3) Hslot Hclaim _ _ _ Hrows Htk [Hr1 Hr2]].
  unfold rest_of, burst in R. injection R as Rd Rk Ra Re _ _ _ _ Rv Rp.
  assert (Hslot2 : slot_idle (cl a2)) by (unfold slot_idle; by rewrite Ra).
  set (L := lacks envA a b) in *. set (T := take CLUSTER_PULL_KEYS L) in *.
  assert (HTl : (length T <= CLUSTER_PULL_KEYS)%nat) by (unfold T; rewrite length_take; lia).
  assert (HTL : (length T <= length L)%nat) by (unfold T; rewrite length_take; lia).
  assert (HinL : forall x, x ∈ T -> x ∈ entries (doc (cl b)) /\ wanted (ce envA) (cl a) x = true).
  { intros x Hx. apply bool_filter_elem. by apply (subseteq_take CLUSTER_PULL_KEYS L). }
  pose proof (wf_sorted _ (sw_doc _ HwB)) as Hsorted.
  destruct (decide (L = [])) as [HL|HL].
  { rewrite HL in W. cbn in W.
    rewrite (idle_drain envA fuel a2) by (congruence || (split; congruence)).
    cbn [rx foldl]. rewrite (idle_drain envB fuel b2) by done. cbn [rx foldl].
    split; [|done]. unfold T. rewrite HL, take_nil. split; rewrite ?Rd, ?Rk; try done; [by intros x Hx%not_elem_of_nil | apply HwA | cbn; lia]. }
  assert (Wd : pull_of a2 = (PULL_SEND_ENTRY_REQ, me envB, e_key <$> T)).
  { unfold T. rewrite fmap_take. unfold walk_done in W. by destruct L. }
  destruct (requester_asks_entries envA fuel _ _ a2 Wd ltac:(congruence) ltac:(congruence) ltac:(congruence) ltac:(lia))
    as (a3 & E3 & C3 & V3 & P3 & N3). rewrite E3.
  assert (Hkp : Forall (fun e => key_from_pb (key_to_pb (e_key e)) = e_key e) T).
  { apply Forall_forall. intros e He. destruct (HinL e He) as [Hel _]. rewrite Forall_forall in Hrows.
    destruct (Hrows e Hel) as [Hok Hkw _]. apply key_pb_roundtrip; [done|]. unfold entry_ok in Hok. by bools. }
  assert (HT0 : T <> []) by (unfold T, CLUSTER_PULL_KEYS; by destruct L).
  destruct (exchange_entries envB fuel (me envA) T b2 HA HcB HB ltac:(rewrite Y4; apply HwB) Y1 Y2 Y3 Y5 HT0 HTl
    ltac:(intros x Hx; rewrite Y4; by apply HinL) Hkp ltac:(lia)) as (b4 & E4 & D4). rewrite E4.
  rewrite (rx_map envA (me envB) (fun s m => match m with MsgEntry e => (with_cl envA (on_entry (ce envA) (me envB) e (cl s)) s).1 | _ => s end));
    [|done | intros m s (e & -> & _)%list_elem_of_fmap; by rewrite on_packet_chan].
  destruct (rx_entries envA (me envB) (concat (entry_frames <$> T)) a3) as (X1 & X2 & X3). cbv zeta in X1, X2, X3.
  set (a4 := foldl _ a3 _) in *. clearbody a4. rewrite C3 in X1.
  assert (Hnd : NoDup (e_key <$> T)).
  { unfold T. rewrite fmap_take. eapply sublist_NoDup; [|apply sublist_take].
    unfold L, lacks. apply (sorted_keys_nodup (List.filter _ _)). by apply filter_sorted. }
  assert (Hwin : Forall (wins (doc (cl a))) T).
  { apply Forall_forall. intros x Hx. destruct (HinL x Hx) as [_ Hw]. unfold wins, wanted, wanted_as, meshtastic_cluster_doc_want in *.
    destruct (meshtastic_cluster_doc_find _ _); [|done]. apply andb_true_iff in Hw as [_ Hw].
    destruct (_ || _); [done|]. destruct (negb _); [done|]. by destruct (meshtastic_hlc_newer _ _). }
  assert (Hsend : Forall sendable T).
  { apply Forall_forall. intros x Hx. rewrite Forall_forall in Hrows. apply Hrows. by apply HinL. }
  destruct (transfer_all (ce envA) (me envB) T (cl a2)) as (Z1 & Z2 & Z3); try (rewrite ?Rd; done || apply HwA || lia).
  { eapply Forall_impl; [exact Htk|]. intros y Hy. by apply (takes_ext _ (cl a)). }
  rewrite <- X1 in Z1, Z2, Z3. rewrite Rd in Z1.
  destruct (merge_all_spec T (doc (cl a)) (sw_doc _ HwA) Hnd ltac:(eapply Forall_impl; [exact Hsend|]; by intros ? []) Hwin ltac:(lia))
    as (M1 & M2 & M3 & M4 & M5).
  split; [|split; congruence]. split; rewrite ?Z1; try done. congruence.
Qed.

(** ** Properties *)

(** C3: An exchange brings over the next six rows. When a requester has opened a walk
    against a free responder, no frame is lost and its gates take the entries, then after
    the vector request, the vector in chunks of four rows, the entry request and the
    entries in up to two frames each, the requester holds exactly the responder's version
    of the first six rows it lacked, every other key is as it was, the responder is
    unchanged, the walk is over, and what the requester still lacks is the rest. So a node
    that lacks [n] rows has them all after [n / 6], rounded up, exchanges. *)
Theorem exchange_brings_rows envA envB fuel a b :
  exchange_ok envA envB a b -> (length (entries (doc (cl b))) + 14 < fuel)%nat ->
  let '(a', b') := exchange envA envB fuel a b in
  let T := take CLUSTER_PULL_KEYS (lacks envA a b) in
  (forall x, x ∈ T -> meshtastic_cluster_doc_find (e_key x) (doc (cl a')) = Some x) /\
  (forall k, k ∉ (e_key <$> T) ->
     meshtastic_cluster_doc_find k (doc (cl a')) = meshtastic_cluster_doc_find k (doc (cl a))) /\
  doc (cl b') = doc (cl b) /\ pull_state a' = PULL_IDLE /\
  lacks envA a' b' = drop CLUSTER_PULL_KEYS (lacks envA a b).
Proof.
  intros X Hf. pose proof (exchange_spec envA envB fuel a b X Hf) as S.
  destruct (exchange envA envB fuel a b) as [a' b']. destruct S as ([H1 H2 H3 H4 H5 H6 _] & Hd & Hp). cbv zeta.
  split; [done|]. split; [done|]. split; [done|]. split; [done|].
  unfold lacks at 1. rewrite Hd. destruct (xo_room _ _ _ _ X) as [R1 R2].
  set (L := lacks envA a b) in *.
  apply (wanted_after (ce envA) (cl a) (cl a') (take CLUSTER_PULL_KEYS L) (drop CLUSTER_PULL_KEYS L));
    [apply wf_sorted, sw_doc, X | by rewrite take_drop | done | done | | done | done].
  intros Hne. rewrite length_take in H5. rewrite H4.
  assert (length (drop CLUSTER_PULL_KEYS L) <> 0)%nat by (by destruct (drop CLUSTER_PULL_KEYS L)).
  rewrite length_drop in *. lia.
Qed.

(** Every row of a node may be asked for by a node that claims everything. *)
Definition askable (env : cluster_env) (x : cluster_entry) : Prop :=
  section_shareable (k_section (e_key x)) = true /\ stamp_within_horizon env (e_stamp x) = true.

(** What a node that lacks nothing of another holds. *)
Lemma lacks_nothing env a b y :
  scope_kind_of (cl a) = SCOPE_FULL -> (length (entries (doc (cl a))) < doc_cap (doc (cl a)))%nat ->
  doc_wf (doc (cl b)) -> lacks env a b = [] -> y ∈ entries (doc (cl b)) -> askable (ce env) y ->
  exists x, meshtastic_cluster_doc_find (e_key y) (doc (cl a)) = Some x /\
            meshtastic_hlc_newer (e_stamp y) (e_stamp x) = false.
Proof.
  intros Hk Hroom Hwf Hl Hy [Hs Hh].
  assert (Hw : wanted (ce env) (cl a) y = false).
  { destruct (wanted (ce env) (cl a) y) eqn:E; [|done]. exfalso. eapply (not_elem_of_nil (A := cluster_entry) y).
    rewrite <- Hl. unfold lacks. by apply bool_filter_elem. }
  unfold wanted, wanted_as, meshtastic_cluster_doc_want in Hw. rewrite Hs, Hh in Hw. cbn [andb] in Hw.
  pose proof (wf_entries _ Hwf) as Hok. rewrite Forall_forall in Hok. specialize (Hok y Hy). unfold entry_ok in Hok. bools.
  assert (key_is_valid (e_key y) = true) as Hv by done. assert (meshtastic_hlc_stamp_is_unset (e_stamp y) = false) as Hu by done.
  rewrite Hv, Hu in Hw. cbn [negb orb] in Hw.
  assert (meshtastic_cluster_scope_contains (my_scope_locked (ce env) (cl a)).1 (e_key y) = true) as Hc
    by (unfold my_scope_locked; rewrite Hk; done).
  rewrite Hc in Hw. cbn [negb] in Hw. destruct (meshtastic_cluster_doc_find _ _) as [x|].
  - exists x. split; [done|]. by destruct (meshtastic_hlc_newer _ _).
  - by rewrite (proj2 (Nat.ltb_lt _ _) Hroom) in Hw.
Qed.

Lemma mutual_find envA envB a b :
  scope_kind_of (cl a) = SCOPE_FULL -> scope_kind_of (cl b) = SCOPE_FULL ->
  (length (entries (doc (cl a))) < doc_cap (doc (cl a)))%nat -> (length (entries (doc (cl b))) < doc_cap (doc (cl b)))%nat ->
  doc_wf (doc (cl a)) -> doc_wf (doc (cl b)) -> lacks envA a b = [] -> lacks envB b a = [] ->
  (forall x, x ∈ entries (doc (cl a)) -> askable (ce envB) x) -> (forall y, y ∈ entries (doc (cl b)) -> askable (ce envA) y) ->
  versions_unique (entries (doc (cl a)) ++ entries (doc (cl b))) ->
  forall k, meshtastic_cluster_doc_find k (doc (cl a)) = meshtastic_cluster_doc_find k (doc (cl b)).
Proof.
  intros Ka Kb Ra Rb Wa Wb La Lb Aa Ab Hu k.
  assert (Hsame : forall x y, meshtastic_cluster_doc_find k (doc (cl a)) = Some x -> meshtastic_cluster_doc_find k (doc (cl b)) = Some y -> x = y).
  { intros x y Hx Hy. pose proof Hx as Hx0. pose proof Hy as Hy0.
    apply find_spec in Hx as [Hxe Hxk]; [|apply Wa]. apply find_spec in Hy as [Hye Hyk]; [|apply Wb].
    destruct (lacks_nothing envA a b y Ka Ra Wb La Hye (Ab y Hye)) as (x' & Fx & N1).
    destruct (lacks_nothing envB b a x Kb Rb Wa Lb Hxe (Aa x Hxe)) as (y' & Fy & N2).
    rewrite Hyk, Hx0 in Fx. injection Fx as <-. rewrite Hxk, Hy0 in Fy. injection Fy as <-.
    apply (Hu x y); [set_solver | set_solver | congruence|].
    destruct (hlc_newer_total (e_stamp x) (e_stamp y)) as [E|[E|E]]; congruence. }
  destruct (meshtastic_cluster_doc_find k (doc (cl a))) as [x|] eqn:Ex, (meshtastic_cluster_doc_find k (doc (cl b))) as [y|] eqn:Ey.
  - f_equal. by apply Hsame.
  - exfalso. apply find_spec in Ex as [Hxe Hxk]; [|apply Wa].
    destruct (lacks_nothing envB b a x Kb Rb Wa Lb Hxe (Aa x Hxe)) as (y' & Fy & _). rewrite Hxk, Ey in Fy. done.
  - exfalso. apply find_spec in Ey as [Hye Hyk]; [|apply Wb].
    destruct (lacks_nothing envA a b y Ka Ra Wb La Hye (Ab y Hye)) as (x' & Fx & _). rewrite Hyk, Ex in Fx. done.
  - done.
Qed.

(** Two nodes with nothing to exchange fall silent. When two nodes that claim the
    whole document and have room each lack nothing of the other, then they hold the same
    entries, the digest of one matches at the other, which records the agreement, and no
    walk is opened. *)
Theorem caught_up_is_silent envA envB a b :
  scope_kind_of (cl a) = SCOPE_FULL -> scope_kind_of (cl b) = SCOPE_FULL ->
  (length (entries (doc (cl a))) < doc_cap (doc (cl a)))%nat -> (length (entries (doc (cl b))) < doc_cap (doc (cl b)))%nat ->
  doc_wf (doc (cl a)) -> doc_wf (doc (cl b)) -> lacks envA a b = [] -> lacks envB b a = [] ->
  (forall x, x ∈ entries (doc (cl a)) -> askable (ce envB) x) -> (forall y, y ∈ entries (doc (cl b)) -> askable (ce envA) y) ->
  versions_unique (entries (doc (cl a)) ++ entries (doc (cl b))) -> crc32 envA = crc32 envB ->
  let d := my_digest envB (my_scope envB b).1 (doc (cl b)) in
  entries (doc (cl a)) = entries (doc (cl b)) /\
  (exists h, (digest_compare_locked envA (me envB) d a).1 = Some (true, h)) /\
  pull_state (on_digest envA (me envB) d a) = pull_state a /\ tx_at (on_digest envA (me envB) d a) = tx_at a.
Proof.
  intros Ka Kb Ra Rb Wa Wb La Lb Aa Ab Hu Hcrc d.
  pose proof (mutual_find envA envB a b Ka Kb Ra Rb Wa Wb La Lb Aa Ab Hu) as Hf.
  assert (Hd : d = my_digest envB (ClusterScope SCOPE_FULL 0) (doc (cl b))).
  { unfold d, my_scope, my_scope_locked. rewrite Kb. done. }
  clearbody d. subst d. set (d := my_digest envB (ClusterScope SCOPE_FULL 0) (doc (cl b))).
  assert (He : entries (doc (cl a)) = entries (doc (cl b))).
  { apply sorted_ext; [apply Wa | apply Wb |]. intros e. split; intros Hin.
    - apply (find_spec (e_key e) (doc (cl b)) e (wf_sorted _ Wb)). rewrite <- Hf. by apply find_spec; [apply Wa|].
    - apply (find_spec (e_key e) (doc (cl a)) e (wf_sorted _ Wa)). rewrite Hf. by apply find_spec; [apply Wb|]. }
  assert (Hcmp : forall s, cl s = set_clock (clock (cl s)) (cl a) ->
            exists s', digest_compare_locked envA (me envB) d s = (Some (true, dg_doc_hash d), s') /\ same_work s s').
  { intros s Hs. pose proof (compare_work envA (me envB) d s) as Hw.
    assert (Hk : scope_kind_of (cl s) = SCOPE_FULL) by (rewrite Hs; done).
    assert (Hds : doc (cl s) = doc (cl a)) by (rewrite Hs; done).
    destruct (scoped_digest_ext (crc32 envA) (ClusterScope SCOPE_FULL 0) (doc (cl a)) (doc (cl b)) Wa Wb ltac:(intros; apply Hf)) as (H1 & H2 & H3).
    assert (Hm : (my_scope envA s).1 = ClusterScope SCOPE_FULL 0 /\ doc (cl (my_scope envA s).2) = doc (cl s))
      by (unfold my_scope, my_scope_locked; rewrite Hk; done).
    unfold digest_compare_locked in *. destruct (my_scope envA s) as [mine s1]. cbn [fst snd] in Hm. destruct Hm as [-> Hds1].
    change (scope_from_pb (dg_scope d) (me envB)) with (ClusterScope SCOPE_FULL 0, true) in *. cbv zeta in *. cbn [sc_kind] in *.
    rewrite bool_decide_true in * by done. cbn [andb] in *.
    change (scope_eq (meshtastic_cluster_scope_intersect (ClusterScope SCOPE_FULL 0) (ClusterScope SCOPE_FULL 0)) (ClusterScope SCOPE_FULL 0)) with true in *.
    set (s2 := if negb (me envB =? me envA) then set_backstop_peer (me envB) s1 else s1) in *.
    assert (Hd2 : doc (cl s2) = doc (cl a)) by (unfold s2; destruct (negb _); cbn; congruence).
    exists s2. split; [|exact Hw]. rewrite Hd2, H1, H2, H3. unfold d. cbn [my_digest dg_doc_hash dg_entry_count dg_max_stamp].
    rewrite Hcrc, !Z.eqb_refl, (proj2 (hlc_compare_eq _ _) eq_refl). done. }
  split; [done|]. split.
  { destruct (Hcmp a ltac:(by destruct (cl a))) as (s' & E & _). rewrite E. eauto. }
  unfold on_digest. set (s1 := on_cl _ a). destruct (Hcmp s1 ltac:(done)) as (s' & E & W1 & _ & _ & W4). rewrite E.
  cbv zeta. pose proof (peer_note_work envA (me envB) d true true (dg_doc_hash d) s') as (N1 & _ & _ & N4).
  split; [etrans; [exact N1 | exact W1] | etrans; [exact N4 | exact W4]].
Qed.

(** ** A concrete pair *)

(** The node 7, which holds fourteen rows, and the node 9, which has asked it for them. *)
Definition rows : list cluster_entry := (fun i => foreign_entry (100 + Z.of_nat i)) <$> seq 0 14.
Definition holder : sync := sync_run filled (booted 20).
Definition asker : sync := sync_run [EvPull (peer_env 9 5) 7] (booted 20).

Lemma holder_rows : entries (doc (cl holder)) = rows.
Proof. vm_compute. reflexivity. Qed.
Lemma asker_lacks : lacks (peer_env 9 5) asker holder = rows.
Proof. vm_compute. reflexivity. Qed.
Lemma run_wf evs cap : sync_wf (sync_run evs (booted cap)).
Proof. destruct (init_ok (demo_env 0) cap 0) as (W & S & _). apply (sync_run_inv evs _ W S). Qed.
Lemma rows_Forall (P : cluster_entry -> Prop) : (forall node, 0 <= node - 100 < 14 -> P (foreign_entry node)) -> Forall P rows.
Proof.
  intros H. apply Forall_fmap, Forall_forall. intros i Hi%elem_of_seq. apply H. lia.
Qed.

Lemma pair_ok : exchange_ok (peer_env 9 5) (peer_env 7 5) asker holder.
Proof.
  assert (Ht : Forall (takes (ce (peer_env 9 5)) (cl asker)) rows).
  { repeat (apply Forall_cons; split; [split; [vm_compute; reflexivity | vm_compute; reflexivity|]|]); [..|apply Forall_nil_2];
      intros [] Hf1 Hf2; cbn in Hf1, Hf2; subst; vm_compute; reflexivity. }
  split; [done | done | by exists 0 | by exists 0 | done | apply run_wf | apply run_wf | reflexivity | by repeat split
         |by split | discriminate | by repeat split | | | | |].
  - right. vm_compute. split; [congruence | reflexivity].
  - vm_compute. congruence.
  - rewrite holder_rows. apply rows_Forall. intros node Hn. 
    split; [|split; [done | split; [unfold in_u32, UINT32_MAX; cbn; lia | done]]|by intros s [= <-]].
    unfold entry_ok, key_is_valid. cbn. by rewrite (proj2 (Z.eqb_neq node 0)) by lia.
  - rewrite asker_lacks. by apply Forall_take.
  - rewrite asker_lacks. vm_compute. lia.
Qed.

Lemma exchange_brings_rows_witness :
  let '(a', b') := exchange (peer_env 9 5) (peer_env 7 5) 29 asker holder in
  meshtastic_cluster_doc_find (ClusterKey LAYER_NODE 100 6) (doc (cl a')) = Some (foreign_entry 100) /\
  lacks (peer_env 9 5) a' b' = drop CLUSTER_PULL_KEYS rows.
Proof.
  assert (Hf : (length (entries (doc (cl holder))) + 14 < 29)%nat) by (rewrite holder_rows; vm_compute; lia).
  pose proof (exchange_brings_rows (peer_env 9 5) (peer_env 7 5) 29 asker holder pair_ok Hf) as H.
  destruct (exchange _ _ _ _ _) as [a' b']. cbv zeta in H. rewrite asker_lacks in H. destruct H as (H1 & _ & _ & _ & H5).
  split; [apply (H1 (foreign_entry 100)); left | exact H5].
Defined.

Lemma caught_up_is_silent_witness :
  pull_state (on_digest (peer_env 9 5) (me (peer_env 7 5)) (my_digest (peer_env 7 5) (my_scope (peer_env 7 5) holder).1 (doc (cl holder))) holder) = PULL_IDLE.
Proof.
  destruct (caught_up_is_silent (peer_env 9 5) (peer_env 7 5) holder holder) as (_ & _ & -> & _); try reflexivity.
  - rewrite holder_rows. vm_compute. lia.
  - rewrite holder_rows. vm_compute. lia.
  - apply run_wf.
  - apply run_wf.
  - rewrite holder_rows. apply Forall_forall, rows_Forall. done.
  - rewrite holder_rows. apply Forall_forall, rows_Forall. done.
  - rewrite holder_rows. intros e e' He He' Hk _.
    assert (Hr : forall x, x ∈ rows -> x = foreign_entry (k_node_id (e_key x))) by (apply Forall_forall, rows_Forall; done).
    rewrite elem_of_app in He, He'. rewrite (Hr e), (Hr e'), Hk; tauto.
Defined.
