(* ===== verification/NodeDb.v ===== *)
(** * The node database (src/src/meshtastic_nodedb.c)

    What a node knows of its peers: the hot store of full records, the warm ring of keys
    of peers that were evicted from it, and the operations on them, in the build with
    peer keys, records, public-key encryption and positions enabled. The array of hot
    records is the list of its first [nodedb_entry_count] slots: [used] is set when a slot
    enters that range and never cleared in it. A call that takes [nodedb_lock] is one
    atomic function. Saves that are scheduled, notifications and synchronous writes are
    the outputs; the record and page formats are [NodeStore]. The decoders, the clock, the
    node's own key and role are arguments. *)
From S2P Require Import Prelude Sched Packet Utf8 Routes.
Open Scope Z_scope.

Definition IS_KEY_MANUALLY_VERIFIED_BIT : Z := 0.
Definition IS_MUTED_BIT : Z := 1.
Definition VIA_MQTT_BIT : Z := 2.
Definition IS_FAVORITE_BIT : Z := 3.
Definition IS_IGNORED_BIT : Z := 4.
Definition HAS_USER_BIT : Z := 5.
Definition IS_LICENSED_BIT : Z := 6.
Definition IS_UNMESSAGABLE_BIT : Z := 7.
Definition HAS_IS_UNMESSAGABLE_BIT : Z := 8.
Definition HAS_XEDDSA_SIGNED_BIT : Z := 9.
Definition HAS_SNR_BIT : Z := 10.

Definition MESHTASTIC_NODEDB_PUBLIC_KEY_MAX_LEN : nat := 32.
Definition MESHTASTIC_NODEDB_LONG_NAME_LEN : nat := 25.
Definition MESHTASTIC_NODEDB_SHORT_NAME_LEN : nat := 5.
Definition MESHTASTIC_USER_LONG_NAME_LEN : nat := 40.
Definition NODEDB_PROTECTED_RESERVE : nat := 2.
Definition MESHTASTIC_PORT_POSITION : Z := 3.
Definition MESHTASTIC_PORT_NODEINFO : Z := 4.

(** ** Data *)

(** Names are the characters before the terminator; a key is its [size] bytes. *)
Record node_info := NodeInfoLite {
  ni_num : Z;
  ni_long_name : list Z;
  ni_short_name : list Z;
  ni_hw_model : Z;
  ni_role : Z;
  ni_public_key : list Z;
  ni_bitfield : Z;
  ni_last_heard : Z;
  ni_snr : Z;
  ni_snr_q4 : Z;
  ni_channel : Z;
  ni_next_hop : Z;
  ni_has_hops_away : bool;
  ni_hops_away : Z;
}.
Definition set_ni_num (v : Z) (r : node_info) : node_info :=
NodeInfoLite v (ni_long_name r) (ni_short_name r) (ni_hw_model r) (ni_role r) (ni_public_key
    r) (ni_bitfield r) (ni_last_heard r) (ni_snr r) (ni_snr_q4 r) (ni_channel r)
    (ni_next_hop r) (ni_has_hops_away r) (ni_hops_away r).
Definition set_ni_long_name (v : list Z) (r : node_info) : node_info :=
NodeInfoLite (ni_num r) v (ni_short_name r) (ni_hw_model r) (ni_role r) (ni_public_key r)
    (ni_bitfield r) (ni_last_heard r) (ni_snr r) (ni_snr_q4 r) (ni_channel r) (ni_next_hop
    r) (ni_has_hops_away r) (ni_hops_away r).
Definition set_ni_short_name (v : list Z) (r : node_info) : node_info :=
NodeInfoLite (ni_num r) (ni_long_name r) v (ni_hw_model r) (ni_role r) (ni_public_key r)
    (ni_bitfield r) (ni_last_heard r) (ni_snr r) (ni_snr_q4 r) (ni_channel r) (ni_next_hop
    r) (ni_has_hops_away r) (ni_hops_away r).
Definition set_ni_hw_model (v : Z) (r : node_info) : node_info :=
NodeInfoLite (ni_num r) (ni_long_name r) (ni_short_name r) v (ni_role r) (ni_public_key r)
    (ni_bitfield r) (ni_last_heard r) (ni_snr r) (ni_snr_q4 r) (ni_channel r) (ni_next_hop
    r) (ni_has_hops_away r) (ni_hops_away r).
Definition set_ni_role (v : Z) (r : node_info) : node_info :=
NodeInfoLite (ni_num r) (ni_long_name r) (ni_short_name r) (ni_hw_model r) v (ni_public_key
    r) (ni_bitfield r) (ni_last_heard r) (ni_snr r) (ni_snr_q4 r) (ni_channel r)
    (ni_next_hop r) (ni_has_hops_away r) (ni_hops_away r).
Definition set_ni_public_key (v : list Z) (r : node_info) : node_info :=
NodeInfoLite (ni_num r) (ni_long_name r) (ni_short_name r) (ni_hw_model r) (ni_role r) v
    (ni_bitfield r) (ni_last_heard r) (ni_snr r) (ni_snr_q4 r) (ni_channel r) (ni_next_hop
    r) (ni_has_hops_away r) (ni_hops_away r).
Definition set_ni_bitfield (v : Z) (r : node_info) : node_info :=
NodeInfoLite (ni_num r) (ni_long_name r) (ni_short_name r) (ni_hw_model r) (ni_role r)
    (ni_public_key r) v (ni_last_heard r) (ni_snr r) (ni_snr_q4 r) (ni_channel r)
    (ni_next_hop r) (ni_has_hops_away r) (ni_hops_away r).
Definition set_ni_last_heard (v : Z) (r : node_info) : node_info :=
NodeInfoLite (ni_num r) (ni_long_name r) (ni_short_name r) (ni_hw_model r) (ni_role r)
    (ni_public_key r) (ni_bitfield r) v (ni_snr r) (ni_snr_q4 r) (ni_channel r) (ni_next_hop
    r) (ni_has_hops_away r) (ni_hops_away r).
Definition set_ni_snr (v : Z) (r : node_info) : node_info :=
NodeInfoLite (ni_num r) (ni_long_name r) (ni_short_name r) (ni_hw_model r) (ni_role r)
    (ni_public_key r) (ni_bitfield r) (ni_last_heard r) v (ni_snr_q4 r) (ni_channel r)
    (ni_next_hop r) (ni_has_hops_away r) (ni_hops_away r).
Definition set_ni_snr_q4 (v : Z) (r : node_info) : node_info :=
NodeInfoLite (ni_num r) (ni_long_name r) (ni_short_name r) (ni_hw_model r) (ni_role r)
    (ni_public_key r) (ni_bitfield r) (ni_last_heard r) (ni_snr r) v (ni_channel r)
    (ni_next_hop r) (ni_has_hops_away r) (ni_hops_away r).
Definition set_ni_channel (v : Z) (r : node_info) : node_info :=
NodeInfoLite (ni_num r) (ni_long_name r) (ni_short_name r) (ni_hw_model r) (ni_role r)
    (ni_public_key r) (ni_bitfield r) (ni_last_heard r) (ni_snr r) (ni_snr_q4 r) v
    (ni_next_hop r) (ni_has_hops_away r) (ni_hops_away r).
Definition set_ni_next_hop (v : Z) (r : node_info) : node_info :=
NodeInfoLite (ni_num r) (ni_long_name r) (ni_short_name r) (ni_hw_model r) (ni_role r)
    (ni_public_key r) (ni_bitfield r) (ni_last_heard r) (ni_snr r) (ni_snr_q4 r) (ni_channel
    r) v (ni_has_hops_away r) (ni_hops_away r).
Definition set_ni_has_hops_away (v : bool) (r : node_info) : node_info :=
NodeInfoLite (ni_num r) (ni_long_name r) (ni_short_name r) (ni_hw_model r) (ni_role r)
    (ni_public_key r) (ni_bitfield r) (ni_last_heard r) (ni_snr r) (ni_snr_q4 r) (ni_channel
    r) (ni_next_hop r) v (ni_hops_away r).
Definition set_ni_hops_away (v : Z) (r : node_info) : node_info :=
NodeInfoLite (ni_num r) (ni_long_name r) (ni_short_name r) (ni_hw_model r) (ni_role r)
    (ni_public_key r) (ni_bitfield r) (ni_last_heard r) (ni_snr r) (ni_snr_q4 r) (ni_channel
    r) (ni_next_hop r) (ni_has_hops_away r) v.

Record position_lite := PositionLite {
  pl_latitude_i : Z; pl_longitude_i : Z; pl_altitude : Z; pl_time : Z; pl_location_source : Z; pl_precision_bits : Z }.

Record nodedb_entry := NodeEntry {
  en_node : node_info;
  en_last_heard_epoch : Z;
  en_position : option position_lite;
  en_heard_preset1 : Z;
}.
Definition set_en_node (v : node_info) (r : nodedb_entry) : nodedb_entry :=
NodeEntry v (en_last_heard_epoch r) (en_position r) (en_heard_preset1 r).
Definition set_en_last_heard_epoch (v : Z) (r : nodedb_entry) : nodedb_entry :=
NodeEntry (en_node r) v (en_position r) (en_heard_preset1 r).
Definition set_en_position (v : option position_lite) (r : nodedb_entry) : nodedb_entry :=
NodeEntry (en_node r) (en_last_heard_epoch r) v (en_heard_preset1 r).
Definition set_en_heard_preset1 (v : Z) (r : nodedb_entry) : nodedb_entry :=
NodeEntry (en_node r) (en_last_heard_epoch r) (en_position r) v.

#[export] Instance node_info_eq_dec : EqDecision node_info.
Proof. solve_decision. Defined.
#[export] Instance position_lite_eq_dec : EqDecision position_lite.
Proof. solve_decision. Defined.
#[export] Instance nodedb_entry_eq_dec : EqDecision nodedb_entry.
Proof. solve_decision. Defined.

Record warm_key := WarmKey {
  wk_num : Z;
  wk_last_seen : Z;
  wk_role : Z;
  wk_known_signer : Z;
  wk_pub : list Z;
}.
Definition set_wk_num (v : Z) (r : warm_key) : warm_key :=
WarmKey v (wk_last_seen r) (wk_role r) (wk_known_signer r) (wk_pub r).
Definition set_wk_last_seen (v : Z) (r : warm_key) : warm_key :=
WarmKey (wk_num r) v (wk_role r) (wk_known_signer r) (wk_pub r).
Definition set_wk_role (v : Z) (r : warm_key) : warm_key :=
WarmKey (wk_num r) (wk_last_seen r) v (wk_known_signer r) (wk_pub r).
Definition set_wk_known_signer (v : Z) (r : warm_key) : warm_key :=
WarmKey (wk_num r) (wk_last_seen r) (wk_role r) v (wk_pub r).
Definition set_wk_pub (v : list Z) (r : warm_key) : warm_key :=
WarmKey (wk_num r) (wk_last_seen r) (wk_role r) (wk_known_signer r) v.

(** The messages of the air and of the phone, decoded. *)
Record user := User {
  us_long_name : list Z; us_short_name : list Z; us_hw_model : Z; us_role : Z; us_is_licensed : bool;
  us_public_key : list Z; us_is_unmessagable : option bool }.
Record position_msg := PositionMsg {
  pm_latitude_i : option Z; pm_longitude_i : option Z; pm_altitude : option Z; pm_time : Z;
  pm_location_source : Z; pm_precision_bits : Z }.

(** [al_pending] holds the name while an alert is raised and not taken. *)
Record nodedb := NodeDb {
  entries : list nodedb_entry;
  warm_keys : list warm_key;
  health : list route_health;
  nodedb_dirty : bool;
  nodedb_last_sort_ms : Z;
  nodekeys_reconcile : bool;
  mtrec_reconcile : bool;
  al_warned : bool;
  al_pending : option (list Z);
}.
Definition set_entries (v : list nodedb_entry) (r : nodedb) : nodedb :=
NodeDb v (warm_keys r) (health r) (nodedb_dirty r) (nodedb_last_sort_ms r)
    (nodekeys_reconcile r) (mtrec_reconcile r) (al_warned r) (al_pending r).
Definition set_warm_keys (v : list warm_key) (r : nodedb) : nodedb :=
NodeDb (entries r) v (health r) (nodedb_dirty r) (nodedb_last_sort_ms r) (nodekeys_reconcile
    r) (mtrec_reconcile r) (al_warned r) (al_pending r).
Definition set_health (v : list route_health) (r : nodedb) : nodedb :=
NodeDb (entries r) (warm_keys r) v (nodedb_dirty r) (nodedb_last_sort_ms r)
    (nodekeys_reconcile r) (mtrec_reconcile r) (al_warned r) (al_pending r).
Definition set_nodedb_dirty (v : bool) (r : nodedb) : nodedb :=
NodeDb (entries r) (warm_keys r) (health r) v (nodedb_last_sort_ms r) (nodekeys_reconcile r)
    (mtrec_reconcile r) (al_warned r) (al_pending r).
Definition set_nodedb_last_sort_ms (v : Z) (r : nodedb) : nodedb :=
NodeDb (entries r) (warm_keys r) (health r) (nodedb_dirty r) v (nodekeys_reconcile r)
    (mtrec_reconcile r) (al_warned r) (al_pending r).
Definition set_nodekeys_reconcile (v : bool) (r : nodedb) : nodedb :=
NodeDb (entries r) (warm_keys r) (health r) (nodedb_dirty r) (nodedb_last_sort_ms r) v
    (mtrec_reconcile r) (al_warned r) (al_pending r).
Definition set_mtrec_reconcile (v : bool) (r : nodedb) : nodedb :=
NodeDb (entries r) (warm_keys r) (health r) (nodedb_dirty r) (nodedb_last_sort_ms r)
    (nodekeys_reconcile r) v (al_warned r) (al_pending r).
Definition set_al_warned (v : bool) (r : nodedb) : nodedb :=
NodeDb (entries r) (warm_keys r) (health r) (nodedb_dirty r) (nodedb_last_sort_ms r)
    (nodekeys_reconcile r) (mtrec_reconcile r) v (al_pending r).
Definition set_al_pending (v : option (list Z)) (r : nodedb) : nodedb :=
NodeDb (entries r) (warm_keys r) (health r) (nodedb_dirty r) (nodedb_last_sort_ms r)
    (nodekeys_reconcile r) (mtrec_reconcile r) (al_warned r) v.

Record nd_env := NdEnv {
  nd_self : Z;                          (* meshtastic_get_node_id *)
  nd_uptime_ms : Z;                     (* k_uptime_get *)
  nd_epoch : Z;                         (* meshtastic_clock_now_epoch *)
  nd_uptime_to_epoch : Z -> Z;          (* meshtastic_clock_uptime_to_epoch *)
  nd_own_key : option (list Z);         (* meshtastic_pki_get_public_key *)
  nd_client_base : bool;                (* meshtastic_device_role() == CLIENT_BASE *)
  nd_decode_user : list Z -> option user;
  nd_decode_position : list Z -> option position_msg;
  nd_max_nodes : nat;                   (* CONFIG_MESHTASTIC_NODEDB_MAX_NODES *)
  nd_sort_throttle_ms : Z;
}.

(** What an operation asks of the rest. *)
Inductive nd_out :=
  | SaveKeys                  (* nodekeys_schedule_save *)
  | SaveRecords               (* mtrec_schedule_save *)
  | SaveIdentity              (* mtrec_schedule_identity_save *)
  | PersistKeysNow            (* cancel the delayed save, nodekeys_do_persist *)
  | PersistRecordsNow         (* cancel the delayed save, mtrec_do_persist *)
  | OwnKeyAlert (name : list Z).

Definition uptime_seconds (env : nd_env) : Z := u32 (nd_uptime_ms env / 1000).

Definition write_bit (bit : Z) (v : bool) (n : node_info) : node_info :=
  set_ni_bitfield (if v then Z.setbit (ni_bitfield n) bit else Z.clearbit (ni_bitfield n) bit) n.
Definition has_bit (bit : Z) (n : node_info) : bool := Z.testbit (ni_bitfield n) bit.

Definition copy_string (dst_len : nat) (src : list Z) : list Z := take (dst_len - 1) src.
(** [strncmp(a, b, n) != 0] *)
Definition strn_differs (n : nat) (a b : list Z) : bool := bool_decide (take n (a ++ [0]) <> take n (b ++ [0])).

Definition node_zero : node_info := NodeInfoLite 0 [] [] 0 0 [] 0 0 0 0 0 0 false 0.
Definition warm_zero : warm_key := WarmKey 0 0 0 0 (replicate MESHTASTIC_NODEDB_PUBLIC_KEY_MAX_LEN 0).

(** ** Finding and evicting *)

Definition is_node (num : Z) (e : nodedb_entry) : bool := ni_num (en_node e) =? num.
Definition find_entry_locked (num : Z) (db : nodedb) : option nat := find_index (is_node num) (entries db).
Definition entry_of (num : Z) (db : nodedb) : option nodedb_entry := find_entry_locked num db ≫= (entries db !!.).

Definition node_is_protected (n : node_info) : bool := has_bit IS_FAVORITE_BIT n || has_bit IS_IGNORED_BIT n.

Definition protected_count_locked (db : nodedb) : nat :=
  length (List.filter (fun e => node_is_protected (en_node e)) (entries db)).

(** A candidate of the scan: its age and its slot; [UINT32_MAX] and none at first. *)
Definition candidate : Type := Z * option nat.
Definition no_candidate : candidate := (UINT32_MAX, None).
Definition older (heard : Z) (i : nat) (c : candidate) : candidate := if heard <? c.1 then (heard, Some i) else c.

Fixpoint evict_scan (local : Z) (i : nat) (l : list nodedb_entry) (boring keyed verified : candidate)
    : candidate * candidate * candidate :=
  match l with
  | [] => (boring, keyed, verified)
  | e :: l' =>
      let n := en_node e in
      if (ni_num n =? local) || node_is_protected n then evict_scan local (S i) l' boring keyed verified
      else if (length (ni_public_key n) =? 0)%nat
      then evict_scan local (S i) l' (older (ni_last_heard n) i boring) keyed verified
      else if has_bit IS_KEY_MANUALLY_VERIFIED_BIT n
      then evict_scan local (S i) l' boring keyed (older (ni_last_heard n) i verified)
      else evict_scan local (S i) l' boring (older (ni_last_heard n) i keyed) verified
  end.

Definition oldest_evictable_index_locked (env : nd_env) (db : nodedb) : option nat :=
  let '(boring, keyed, verified) := evict_scan (nd_self env) 0 (entries db) no_candidate no_candidate no_candidate in
  match boring.2 with
  | Some i => Some i
  | None => match keyed.2 with Some i => Some i | None => verified.2 end
  end.

(** ** The warm ring *)

Definition warm_now (env : nd_env) : Z := if negb (nd_epoch env =? 0) then nd_epoch env else uptime_seconds env.

Definition warm_find_locked (num : Z) (db : nodedb) : option nat :=
  find_index (fun w => wk_num w =? num) (warm_keys db).
Definition warm_of (num : Z) (db : nodedb) : option warm_key := warm_find_locked num db ≫= (warm_keys db !!.).

Definition warm_get_role_locked (num : Z) (db : nodedb) : option Z := wk_role <$> warm_of num db.
Definition warm_get_known_signer_locked (num : Z) (db : nodedb) : bool :=
  match warm_of num db with Some w => negb (wk_known_signer w =? 0) | None => false end.

Definition warm_set_known_signer_locked (num : Z) (signer : bool) (db : nodedb) : nodedb * list nd_out :=
  let value := if signer then 1 else 0 in
  match warm_find_locked num db with
  | Some i =>
      match warm_keys db !! i with
      | Some w =>
          if wk_known_signer w =? value then (db, [])
          else (set_warm_keys (<[i := set_wk_known_signer value w]> (warm_keys db)) db, [SaveKeys])
      | None => (db, [])
      end
  | None => (db, [])
  end.

(** The least recent key of a hot node and of an evicted one, with an early exit at an
    empty slot. *)
Definition seen_before (w : warm_key) (lru : option (nat * Z)) : bool :=
  match lru with Some (_, t) => wk_last_seen w <? t | None => true end.

Fixpoint warm_scan (db : nodedb) (i : nat) (l : list warm_key) (hot cold : option (nat * Z)) : option nat :=
  match l with
  | [] => match hot with Some (j, _) => Some j | None => fst <$> cold end
  | w :: l' =>
      if wk_num w =? 0 then Some i
      else if negb (seen_before w hot) && negb (seen_before w cold) then warm_scan db (S i) l' hot cold
      else if bool_decide (is_Some (find_entry_locked (wk_num w) db))
      then warm_scan db (S i) l' (if seen_before w hot then Some (i, wk_last_seen w) else hot) cold
      else warm_scan db (S i) l' hot (if seen_before w cold then Some (i, wk_last_seen w) else cold)
  end.

Definition warm_slot_for_locked (num : Z) (db : nodedb) : option nat :=
  match warm_find_locked num db with
  | Some i => Some i
  | None => warm_scan db 0 (warm_keys db) None None
  end.

Definition warm_place_locked (num : Z) (pub : list Z) (role known_signer last_seen : Z) (db : nodedb) : nodedb :=
  if num =? 0 then db
  else match warm_slot_for_locked num db with
       | Some i =>
           let old := match warm_keys db !! i with Some w => wk_num w | None => 0 end in
           let db := if negb (old =? 0) && negb (old =? num) then set_nodekeys_reconcile true db else db in
           set_warm_keys (<[i := WarmKey num last_seen role known_signer pub]> (warm_keys db)) db
       | None => db
       end.

Definition warm_upsert_locked (env : nd_env) (num : Z) (pub : list Z) (role : Z) (db : nodedb) : nodedb :=
  warm_place_locked num pub role 0 (warm_now env) db.

Definition warm_absorb_locked (env : nd_env) (e : nodedb_entry) (db : nodedb) : nodedb * list nd_out :=
  let n := en_node e in
  if (ni_num n =? 0) || (ni_num n =? nd_self env) ||
     negb (length (ni_public_key n) =? MESHTASTIC_NODEDB_PUBLIC_KEY_MAX_LEN)%nat then (db, [])
  else
    let last_seen :=
      if negb (ni_last_heard n =? 0) then
        let age := u32 (uptime_seconds env - ni_last_heard n) in
        let now := warm_now env in
        if age <? now then now - age else 0
      else en_last_heard_epoch e in
    (warm_place_locked (ni_num n) (ni_public_key n) (u8 (ni_role n))
       (if has_bit HAS_XEDDSA_SIGNED_BIT n then 1 else 0) last_seen db, [SaveKeys]).

Definition warm_copy_key_locked (num : Z) (db : nodedb) : option (list Z) := wk_pub <$> warm_of num db.

(** ** Admission *)

(** The slot for a node that is not there, and what making room changed. *)
Definition admit_slot (env : nd_env) (db : nodedb) : option (nat * nodedb * list nd_out) :=
  if (length (entries db) <? nd_max_nodes env)%nat
  then Some (length (entries db), db, [])
  else match oldest_evictable_index_locked env db with
       | None => None
       | Some i =>
           match entries db !! i with
           | Some e =>
               let '(db, out) := warm_absorb_locked env e db in
               Some (i, set_mtrec_reconcile true db, out)
           | None => None
           end
       end.

Definition fresh_entry (num : Z) (db : nodedb) : nodedb_entry :=
  let n := set_ni_num num node_zero in
  let n := match warm_get_role_locked num db with Some r => set_ni_role r n | None => n end in
  let n := if warm_get_known_signer_locked num db then write_bit HAS_XEDDSA_SIGNED_BIT true n else n in
  NodeEntry n 0 None 0.

(** [entries[i] = e], or the next slot of the array. *)
Definition put_entry (i : nat) (e : nodedb_entry) (db : nodedb) : nodedb :=
  set_entries (if (i <? length (entries db))%nat then <[i := e]> (entries db) else entries db ++ [e]) db.

Definition get_or_create_entry_locked (env : nd_env) (num : Z) (db : nodedb) : option nat * nodedb * list nd_out :=
  if num =? 0 then (None, db, [])
  else match find_entry_locked num db with
       | Some i => (Some i, db, [])
       | None =>
           match admit_slot env db with
           | None => (None, db, [])
           | Some (i, db, out) => (Some i, put_entry i (fresh_entry num db) db, out)
           end
       end.

Definition on_node (i : nat) (f : node_info -> node_info) (db : nodedb) : nodedb :=
  set_entries (alter (fun e => set_en_node (f (en_node e)) e) i (entries db)) db.

(** ** Identity *)

(** The name of the alert, as the notification carries it. *)
Definition alert_name (long_name : list Z) : list Z :=
  let s := copy_string MESHTASTIC_USER_LONG_NAME_LEN long_name in
  c_string (default [] (meshtastic_utf8_sanitize
    (Some (s ++ replicate (MESHTASTIC_USER_LONG_NAME_LEN - length s) 0))).1).

Definition own_key_alert_take_locked (db : nodedb) : nodedb * list nd_out :=
  match al_pending db with
  | Some name => (set_al_pending None db, [OwnKeyAlert (copy_string MESHTASTIC_USER_LONG_NAME_LEN name)])
  | None => (db, [])
  end.

Definition full_key (k : list Z) : bool := (length k =? MESHTASTIC_NODEDB_PUBLIC_KEY_MAX_LEN)%nat.

(** Whether the update is refused, and whether for carrying our own key. *)
Inductive user_verdict := UserTaken | UserDropped | UserHasOurKey.

Definition user_verdict_of (env : nd_env) (n : node_info) (u : user) : user_verdict :=
  let key := take MESHTASTIC_NODEDB_PUBLIC_KEY_MAX_LEN (us_public_key u) in
  if full_key (ni_public_key n) && full_key key && bool_decide (ni_public_key n <> key) then UserDropped
  else if full_key key then
    let ours := bool_decide (nd_own_key env = Some key) in
    let have_own := bool_decide (is_Some (nd_own_key env)) in
    if (ni_num n =? nd_self env) && have_own && negb ours then UserDropped
    else if negb (ni_num n =? nd_self env) && ours then UserHasOurKey
    else UserTaken
  else UserTaken.

(** The record after the update, and whether the key and the record changed. *)
Definition user_record (n : node_info) (u : user) : node_info * bool * bool :=
  let key := take MESHTASTIC_NODEDB_PUBLIC_KEY_MAX_LEN (us_public_key u) in
  let changed :=
    strn_differs MESHTASTIC_NODEDB_LONG_NAME_LEN (ni_long_name n) (us_long_name u) ||
    strn_differs MESHTASTIC_NODEDB_SHORT_NAME_LEN (ni_short_name n) (us_short_name u) ||
    negb (ni_hw_model n =? u8 (us_hw_model u)) || negb (ni_role n =? u8 (us_role u)) in
  let n1 := set_ni_role (u8 (us_role u)) (set_ni_hw_model (u8 (us_hw_model u))
              (set_ni_short_name (copy_string MESHTASTIC_NODEDB_SHORT_NAME_LEN (us_short_name u))
                (set_ni_long_name (copy_string MESHTASTIC_NODEDB_LONG_NAME_LEN (us_long_name u)) n))) in
  let takes_key := full_key key || negb (full_key (ni_public_key n)) in
  let key_changed := takes_key && bool_decide (ni_public_key n <> key) in
  let n2 := if takes_key then set_ni_public_key key n1 else n1 in
  let n3 := write_bit IS_UNMESSAGABLE_BIT (default false (us_is_unmessagable u))
              (write_bit HAS_IS_UNMESSAGABLE_BIT (bool_decide (is_Some (us_is_unmessagable u)))
                (write_bit IS_LICENSED_BIT (us_is_licensed u) (write_bit HAS_USER_BIT true n2))) in
  (n3, key_changed, changed || key_changed || negb (ni_bitfield n3 =? ni_bitfield n)).

Definition apply_user (env : nd_env) (i : nat) (u : user) (db : nodedb) : nodedb * list nd_out :=
  match entries db !! i with
  | None => (db, [])
  | Some e =>
      let n := en_node e in
      match user_verdict_of env n u with
      | UserDropped => (db, [])
      | UserHasOurKey =>
          (if al_warned db then db
           else set_al_pending (Some (alert_name (us_long_name u))) (set_al_warned true db), [])
      | UserTaken =>
          let '(n', key_changed, changed) := user_record n u in
          let db := on_node i (fun _ => n') db in
          let mirror := key_changed && full_key (ni_public_key n') && negb (ni_num n =? nd_self env) in
          (if mirror then warm_upsert_locked env (ni_num n) (ni_public_key n') (u8 (ni_role n')) db else db,
           (if mirror then [SaveKeys] else []) ++ (if changed then [SaveIdentity] else []))
      end
  end.

(** ** Hearing a packet *)

Definition decode_user_payload (env : nd_env) (payload : option (list Z)) : option user :=
  match payload with Some ((_ :: _) as l) => nd_decode_user env l | _ => None end.

Definition decode_position_payload (env : nd_env) (payload : option (list Z)) : option (position_msg * Z * Z) :=
  match payload with
  | Some ((_ :: _) as l) =>
      match nd_decode_position env l with
      | Some p => match pm_latitude_i p, pm_longitude_i p with
                  | Some lat, Some lon => Some (p, lat, lon)
                  | _, _ => None
                  end
      | None => None
      end
  | _ => None
  end.

Definition apply_position (p : position_msg * Z * Z) (e : nodedb_entry) : nodedb_entry :=
  let '(pm, lat, lon) := p in
  let prior_time := match en_position e with Some q => pl_time q | None => 0 end in
  set_en_position
    (Some (PositionLite lat lon (default 0 (pm_altitude pm)) (if pm_time pm =? 0 then prior_time else pm_time pm)
             (pm_location_source pm) (pm_precision_bits pm))) e.

Definition packet_hops_away (p : packet) (mesh : option mesh_packet) : option Z :=
  let hop_start := dual mesh p (fun m => u8 (m_hop_start m)) p_hop_start in
  let hop_limit := dual mesh p (fun m => u8 (m_hop_limit m)) p_hop_limit in
  if (hop_start =? 0) || (hop_start <? hop_limit) then None else Some (hop_start - hop_limit).

(** [heard_on] is [rx_heard_on] of the packet, 0 without one. *)
Definition apply_basic_packet (p : packet) (heard_on : Z) (mesh : option mesh_packet) (now_sec : Z) (e : nodedb_entry)
    : nodedb_entry :=
  let channel_index :=
    dual mesh p (fun m => if m_channel m <? MESHTASTIC_MAX_CHANNELS then u8 (m_channel m)
                          else MESHTASTIC_CHANNEL_INDEX_INVALID) p_channel_index in
  let via_mqtt := dual mesh p m_via_mqtt p_via_mqtt in
  let n := set_ni_last_heard now_sec (en_node e) in
  let n := write_bit HAS_SNR_BIT true (set_ni_snr (dual mesh p m_rx_snr p_snr) n) in
  let n := set_ni_channel (if channel_index =? MESHTASTIC_CHANNEL_INDEX_INVALID then 0 else channel_index) n in
  let n := write_bit VIA_MQTT_BIT via_mqtt n in
  let n := match packet_hops_away p mesh with
           | Some h => set_ni_hops_away h (set_ni_has_hops_away true n)
           | None => n
           end in
  let e := set_en_node n e in
  if negb (heard_on =? 0) && negb via_mqtt then set_en_heard_preset1 heard_on e else e.

(** The struct is read only where there is no MeshPacket; [packet_zero] stands for NULL. *)
Definition meshtastic_module_nodedb_on_packet (env : nd_env) (packet : option packet) (heard_on : Z)
    (mesh : option mesh_packet) (db : nodedb) : nodedb * list nd_out :=
  if bool_decide (packet = None) && bool_decide (mesh = None) then (db, [])
  else
    let p := default packet_zero packet in
    let from := dual mesh p m_from p_from in
    if (from =? 0) || (from =? nd_self env) then (db, [])
    else
      let portnum := dual mesh p (fun m => d_portnum (m_decoded m)) p_portnum in
      let payload := dual mesh p (fun m => Some (d_payload (m_decoded m))) p_payload in
      let usr := if portnum =? MESHTASTIC_PORT_NODEINFO then decode_user_payload env payload else None in
      let pos := if portnum =? MESHTASTIC_PORT_NODEINFO then None
                 else if portnum =? MESHTASTIC_PORT_POSITION then decode_position_payload env payload else None in
      match get_or_create_entry_locked env from db with
      | (None, db, out) => (db, out)
      | (Some i, db, out) =>
          let db := set_nodedb_dirty true
            (set_entries (alter (apply_basic_packet p heard_on mesh (uptime_seconds env)) i (entries db)) db) in
          let '(db, out2) := match usr with Some u => apply_user env i u db | None => (db, []) end in
          let db := match pos with
                    | Some q => set_entries (alter (apply_position q) i (entries db)) db
                    | None => db
                    end in
          let '(db, out3) := own_key_alert_take_locked db in
          (db, out ++ out2 ++ out3)
      end.

(** ** Reading *)

Record nodedb_node := NodeSnapshot {
  sn_num : Z; sn_last_heard_uptime_sec : Z; sn_last_heard_epoch : Z; sn_snr : Z; sn_channel : Z;
  sn_heard_preset : Z; sn_next_hop : Z; sn_via_mqtt : bool; sn_hops_away : option Z; sn_is_favorite : bool;
  sn_is_ignored : bool; sn_is_muted : bool; sn_is_key_manually_verified : bool; sn_has_user : bool;
  sn_long_name : list Z; sn_short_name : list Z; sn_hw_model : Z; sn_role : Z; sn_is_licensed : bool;
  sn_has_is_unmessagable : bool; sn_is_unmessagable : bool; sn_public_key : list Z;
  sn_position : option position_lite }.

Definition fill_snapshot (env : nd_env) (e : nodedb_entry) : nodedb_node :=
  let n := en_node e in
  {| sn_num := ni_num n; sn_last_heard_uptime_sec := ni_last_heard n;
     sn_last_heard_epoch := if 0 <? ni_last_heard n then nd_uptime_to_epoch env (ni_last_heard n)
                            else en_last_heard_epoch e;
     sn_snr := ni_snr n; sn_channel := ni_channel n;
     sn_heard_preset := if negb (en_heard_preset1 e =? 0) then u8 (en_heard_preset1 e - 1) else 255;
     sn_next_hop := ni_next_hop n; sn_via_mqtt := has_bit VIA_MQTT_BIT n;
     sn_hops_away := if ni_has_hops_away n then Some (ni_hops_away n) else None;
     sn_is_favorite := has_bit IS_FAVORITE_BIT n; sn_is_ignored := has_bit IS_IGNORED_BIT n;
     sn_is_muted := has_bit IS_MUTED_BIT n;
     sn_is_key_manually_verified := has_bit IS_KEY_MANUALLY_VERIFIED_BIT n;
     sn_has_user := has_bit HAS_USER_BIT n;
     sn_long_name := copy_string MESHTASTIC_NODEDB_LONG_NAME_LEN (ni_long_name n);
     sn_short_name := copy_string MESHTASTIC_NODEDB_SHORT_NAME_LEN (ni_short_name n);
     sn_hw_model := ni_hw_model n; sn_role := ni_role n; sn_is_licensed := has_bit IS_LICENSED_BIT n;
     sn_has_is_unmessagable := has_bit HAS_IS_UNMESSAGABLE_BIT n;
     sn_is_unmessagable := has_bit IS_UNMESSAGABLE_BIT n;
     sn_public_key := take MESHTASTIC_NODEDB_PUBLIC_KEY_MAX_LEN (ni_public_key n);
     sn_position := en_position e |}.

Definition meshtastic_nodedb_count (db : nodedb) : nat := length (entries db).

(** A result pointer that is not NULL is assumed. *)
Definition meshtastic_nodedb_get (env : nd_env) (num : Z) (db : nodedb) : res nodedb_node :=
  match entry_of num db with Some e => Val (fill_snapshot env e) | None => Fail ENOENT end.

Definition meshtastic_nodedb_copy_pubkey (num : Z) (db : nodedb) : res (list Z) :=
  match entry_of num db with
  | Some e =>
      if full_key (ni_public_key (en_node e)) then Val (ni_public_key (en_node e))
      else match warm_copy_key_locked num db with Some k => Val k | None => Fail ENOENT end
  | None => match warm_copy_key_locked num db with Some k => Val k | None => Fail ENOENT end
  end.

Definition warm_used (db : nodedb) : list warm_key := List.filter (fun w => negb (wk_num w =? 0)) (warm_keys db).
Definition meshtastic_nodedb_warm_count (db : nodedb) : nat := length (warm_used db).
Definition meshtastic_nodedb_warm_get (index : nat) (db : nodedb) : res (Z * Z) :=
  match warm_used db !! index with Some w => Val (wk_num w, wk_last_seen w) | None => Fail ENOENT end.

Definition nodedb_sort_cmp (self : Z) (a b : nodedb_entry) : Z :=
  let na := en_node a in
  let nb := en_node b in
  if ni_num na =? self then -1
  else if ni_num nb =? self then 1
  else
    let af := has_bit IS_FAVORITE_BIT na in
    let bf := has_bit IS_FAVORITE_BIT nb in
    if negb (Bool.eqb af bf) then (if af then -1 else 1)
    else
      let ab := 0 <? ni_last_heard na in
      let bb := 0 <? ni_last_heard nb in
      if negb (Bool.eqb ab bb) then (if ab then -1 else 1)
      else if ab then
        if negb (ni_last_heard na =? ni_last_heard nb)
        then (if ni_last_heard nb <? ni_last_heard na then -1 else 1) else 0
      else if negb (en_last_heard_epoch a =? en_last_heard_epoch b)
      then (if en_last_heard_epoch b <? en_last_heard_epoch a then -1 else 1) else 0.

(** [qsort] is the C library's: what it is given, in an order the comparator allows. *)
Section Sorting.
Context (qsort : (nodedb_entry -> nodedb_entry -> Z) -> list nodedb_entry -> list nodedb_entry).

Definition nodedb_maybe_sort_locked (env : nd_env) (db : nodedb) : nodedb :=
  if negb (nodedb_dirty db) then db
  else if negb (nodedb_last_sort_ms db =? 0) &&
          (nd_uptime_ms env - nodedb_last_sort_ms db <? nd_sort_throttle_ms env) then db
  else set_nodedb_last_sort_ms (nd_uptime_ms env)
         (set_nodedb_dirty false (set_entries (qsort (nodedb_sort_cmp (nd_self env)) (entries db)) db)).

Definition meshtastic_nodedb_get_by_index (env : nd_env) (index : nat) (db : nodedb) : nodedb * res nodedb_node :=
  let db := nodedb_maybe_sort_locked env db in
  (db, match entries db !! index with Some e => Val (fill_snapshot env e) | None => Fail ENOENT end).
End Sorting.

Definition next_better (after : Z) (best : option nodedb_entry) (e : nodedb_entry) : option nodedb_entry :=
  if (after <? ni_num (en_node e)) &&
     match best with Some b => ni_num (en_node e) <? ni_num (en_node b) | None => true end
  then Some e else best.
Definition meshtastic_nodedb_get_next_after (env : nd_env) (after_num : Z) (db : nodedb) : res nodedb_node :=
  match foldl (next_better after_num) None (entries db) with
  | Some e => Val (fill_snapshot env e)
  | None => Fail ENOENT
  end.

(** ** Operator changes *)

(** The difference is unsigned: a table of one has no reserve. *)
Definition nodedb_set_bit (env : nd_env) (num bit : Z) (value : bool) (db : nodedb) : nodedb * list nd_out * cret :=
  match find_entry_locked num db, entry_of num db with
  | Some i, Some e =>
      if value && ((bit =? IS_FAVORITE_BIT) || (bit =? IS_IGNORED_BIT)) && negb (node_is_protected (en_node e)) &&
         (u32 (Z.of_nat (nd_max_nodes env) - Z.of_nat NODEDB_PROTECTED_RESERVE) <? Z.of_nat (protected_count_locked db) + 1)
      then (db, [], ERR ENOSPC)
      else
        let db := set_nodedb_dirty true (on_node i (write_bit bit value) db) in
        if (bit =? IS_FAVORITE_BIT) || (bit =? IS_IGNORED_BIT) || (bit =? IS_KEY_MANUALLY_VERIFIED_BIT)
        then (set_mtrec_reconcile true db, [SaveRecords], OK)
        else (db, [], OK)
  | _, _ => (db, [], ERR ENOENT)
  end.

Definition meshtastic_nodedb_set_favorite (env : nd_env) (num : Z) := nodedb_set_bit env num IS_FAVORITE_BIT.
Definition meshtastic_nodedb_set_key_verified (env : nd_env) (num : Z) :=
  nodedb_set_bit env num IS_KEY_MANUALLY_VERIFIED_BIT.
Definition meshtastic_nodedb_set_ignored (env : nd_env) (num : Z) := nodedb_set_bit env num IS_IGNORED_BIT.

(** [key] is the 32 bytes of a pointer that is not NULL. *)
Definition commit_pubkey (env : nd_env) (num : Z) (key : list Z) (create : bool) (db : nodedb)
    : nodedb * list nd_out * cret :=
  if create && ((num =? 0) || (num =? MESHTASTIC_NODE_BROADCAST) || (num =? nd_self env)) then (db, [], ERR EINVAL)
  else
    let '(slot, db, out) :=
      if create then get_or_create_entry_locked env num db else (find_entry_locked num db, db, []) in
    match slot with
    | None => (db, out, ERR (if create then ENOMEM else ENOENT))
    | Some i =>
        let db := on_node i (set_ni_public_key key) db in
        let role := match entries db !! i with Some e => u8 (ni_role (en_node e)) | None => 0 end in
        let '(db, out2) := if num =? nd_self env then (db, [])
                           else (warm_upsert_locked env num key role db, [SaveKeys]) in
        (set_mtrec_reconcile true db, out ++ out2 ++ [SaveRecords], OK)
    end.

Definition meshtastic_nodedb_commit_pubkey (env : nd_env) (num : Z) (key : list Z) := commit_pubkey env num key false.
Definition meshtastic_nodedb_commit_admin_pubkey (env : nd_env) (num : Z) (key : list Z) :=
  commit_pubkey env num key true.

Definition meshtastic_nodedb_note_xeddsa_signer (env : nd_env) (num : Z) (db : nodedb) : nodedb * list nd_out :=
  if (num =? 0) || (num =? nd_self env) then (db, [])
  else
    let '(slot, db, out) := get_or_create_entry_locked env num db in
    let db := match slot with Some i => on_node i (write_bit HAS_XEDDSA_SIGNED_BIT true) db | None => db end in
    let '(db, out2) := warm_set_known_signer_locked num true db in
    (db, out ++ out2).

Definition meshtastic_nodedb_is_xeddsa_signer (num : Z) (db : nodedb) : bool :=
  match entry_of num db with
  | Some e => has_bit HAS_XEDDSA_SIGNED_BIT (en_node e)
  | None => warm_get_known_signer_locked num db
  end.

Definition entry_has (bit num : Z) (db : nodedb) : bool :=
  match entry_of num db with Some e => has_bit bit (en_node e) | None => false end.
Definition meshtastic_nodedb_is_from_or_to_favorite (from to : Z) (db : nodedb) : bool :=
  if entry_has IS_FAVORITE_BIT from db then true
  else if negb (to =? MESHTASTIC_NODE_BROADCAST) then entry_has IS_FAVORITE_BIT to db else false.
Definition meshtastic_nodedb_is_ignored (num : Z) (db : nodedb) : bool := entry_has IS_IGNORED_BIT num db.

Definition is_err (e : errno) (r : cret) : bool := bool_decide (r = ERR e).

(** The part of adding a contact under the lock. *)
Definition contact_locked (env : nd_env) (num : Z) (u : user) (manually_verified should_ignore : bool) (db : nodedb)
    : nodedb * list nd_out * cret :=
  let key := take MESHTASTIC_NODEDB_PUBLIC_KEY_MAX_LEN (us_public_key u) in
  match get_or_create_entry_locked env num db with
  | (None, db, out) => (db, out, ERR ENOMEM)
  | (Some i, db, out) =>
      let n := match entries db !! i with Some e => en_node e | None => node_zero end in
      let differs := bool_decide (ni_public_key n <> key) in
      if has_bit IS_KEY_MANUALLY_VERIFIED_BIT n && negb manually_verified && full_key (ni_public_key n) && differs
      then (db, out, ERR EPERM)
      else
        let db := if full_key key && differs then on_node i (set_ni_public_key []) db else db in
        let '(db, out2) := apply_user env i u db in
        let db := if negb should_ignore && nd_client_base env
                  then on_node i (set_ni_last_heard (uptime_seconds env)) db else db in
        let '(db, out3) := own_key_alert_take_locked (set_nodedb_dirty true db) in
        (db, out ++ out2 ++ out3, OK)
  end.

Definition meshtastic_nodedb_add_contact (env : nd_env) (num : Z) (u : user) (manually_verified should_ignore : bool)
    (db : nodedb) : nodedb * list nd_out * cret :=
  if (num =? 0) || (num =? MESHTASTIC_NODE_BROADCAST) || (num =? nd_self env) then (db, [], ERR EINVAL)
  else
    let '(db, out, ret) := contact_locked env num u manually_verified should_ignore db in
    match ret with
    | ERR _ => (db, out, ret)
    | OK =>
        if should_ignore then
          let '(db, o1, r1) := meshtastic_nodedb_set_ignored env num true db in
          let '(db, o2, _) := meshtastic_nodedb_set_favorite env num false db in
          (db, out ++ o1 ++ o2, if is_err ENOSPC r1 then OK else r1)
        else
          let '(db, o1, _) := if negb (nd_client_base env) then meshtastic_nodedb_set_favorite env num true db
                              else (db, [], OK) in
          let '(db, o2, r2) := if manually_verified then meshtastic_nodedb_set_key_verified env num true db
                               else (db, [], OK) in
          (db, out ++ o1 ++ o2, if is_err ENOSPC r2 then OK else r2)
    end.

(** The new state of the bit, or an error. *)
Definition meshtastic_nodedb_toggle_muted (num : Z) (db : nodedb) : nodedb * list nd_out * res bool :=
  match find_entry_locked num db, entry_of num db with
  | Some i, Some e =>
      let muted := negb (has_bit IS_MUTED_BIT (en_node e)) in
      (on_node i (write_bit IS_MUTED_BIT muted) db,
       if node_is_protected (en_node e) then [SaveRecords] else [], Val muted)
  | _, _ => (db, [], Fail ENOENT)
  end.

Definition swap_remove {A} (i : nat) (l : list A) : list A :=
  match last l with
  | Some x => take (length l - 1) (<[i := x]> l)
  | None => l
  end.

Definition meshtastic_nodedb_remove (env : nd_env) (num : Z) (db : nodedb) : nodedb * list nd_out * cret :=
  if num =? nd_self env then (db, [], ERR EINVAL)
  else match find_entry_locked num db with
       | Some i =>
           (set_mtrec_reconcile true
              (set_health (route_health_drop_locked num (health db))
                (set_nodedb_dirty true (set_entries (swap_remove i (entries db)) db))),
            [SaveRecords], OK)
       | None => (db, [], ERR ENOENT)
       end.

Definition meshtastic_nodedb_forget (env : nd_env) (num : Z) (db : nodedb) : nodedb * list nd_out * cret :=
  let '(db, out, ret) := meshtastic_nodedb_remove env num db in
  match warm_find_locked num db with
  | Some i =>
      (set_warm_keys (<[i := warm_zero]> (warm_keys db)) db, out ++ [SaveKeys], if is_err ENOENT ret then OK else ret)
  | None => (db, out, ret)
  end.

Definition meshtastic_nodedb_reset (env : nd_env) (keep_favorites : bool) (db : nodedb) : nodedb * list nd_out :=
  let keep e := is_node (nd_self env) e || (keep_favorites && has_bit IS_FAVORITE_BIT (en_node e)) in
  let db := set_entries (List.filter keep (entries db)) db in
  let db := set_health (replicate ROUTE_HEALTH_SIZE health_zero) db in
  let db := set_nodedb_last_sort_ms 0 (set_nodedb_dirty true db) in
  let db := set_nodekeys_reconcile true (set_warm_keys (replicate (length (warm_keys db)) warm_zero) db) in
  (set_mtrec_reconcile true db, [PersistKeysNow; PersistRecordsNow]).

(** A stored record, put back. *)
Definition mtrec_apply (env : nd_env) (num : Z) (n : node_info) (db : nodedb) : nodedb * list nd_out :=
  match get_or_create_entry_locked env num db with
  | (Some i, db, out) =>
      (set_entries (alter (fun e => set_en_node (set_ni_last_heard 0 (set_ni_num num n))
                                      (set_en_last_heard_epoch (ni_last_heard n) e)) i (entries db)) db, out)
  | (None, db, out) => (db, out)
  end.

(** The zeroed statics, with room for [warm] keys. *)
Definition nodedb_zero (warm : nat) : nodedb :=
  NodeDb [] (replicate warm warm_zero) (replicate ROUTE_HEALTH_SIZE health_zero) false 0 false false false None.

(** [restore] is what the stores put back: keys first, then records. *)
Definition meshtastic_nodedb_init (env : nd_env) (me : user) (restore : nodedb -> nodedb) (db : nodedb)
    : nodedb * list nd_out * cret :=
  let db := set_entries [] db in
  let '(slot, db, _) := get_or_create_entry_locked env (nd_self env) db in
  let '(db, out) := match slot with
                    | Some i => apply_user env i me (on_node i (set_ni_last_heard (uptime_seconds env)) db)
                    | None => (db, [])
                    end in
  let db := set_mtrec_reconcile true (set_nodekeys_reconcile true (restore db)) in
  (db, out ++ [SaveKeys; SaveRecords], match slot with Some _ => OK | None => ERR ENOMEM end).

(** ** The hot store's invariant *)

Definition nums (l : list nodedb_entry) : list Z := (fun e => ni_num (en_node e)) <$> l.
Definition protected (e : nodedb_entry) : bool := node_is_protected (en_node e).
Definition prot (l : list nodedb_entry) : nat := length (List.filter protected l).
Definition entry_ok (e : nodedb_entry) : Prop :=
  ni_num (en_node e) <> 0 /\ ni_last_heard (en_node e) < UINT32_MAX /\
  (length (ni_public_key (en_node e)) <= MESHTASTIC_NODEDB_PUBLIC_KEY_MAX_LEN)%nat.

Record hot_wf (self : Z) (max : nat) (l : list nodedb_entry) : Prop := {
  hw_nodup : NoDup (nums l);
  hw_self : self ∈ nums l;
  hw_ok : Forall entry_ok l;
  hw_len : (length l <= max)%nat;
  hw_prot : (NODEDB_PROTECTED_RESERVE <= max -> prot l <= max - NODEDB_PROTECTED_RESERVE)%nat;
}.

Lemma nums_cons x l : nums (x :: l) = ni_num (en_node x) :: nums l.
Proof. done. Qed.

Lemma prot_perm l l' : l ≡ₚ l' -> prot l = prot l'.
Proof.
  unfold prot. induction 1 as [|x l l' _ IH|x y l|l l' l'' _ IH _ IH']; cbn; [done|..].
  - destruct (protected x); cbn; congruence.
  - by destruct (protected x), (protected y).
  - congruence.
Qed.

Lemma hot_wf_perm self max l l' : l ≡ₚ l' -> hot_wf self max l -> hot_wf self max l'.
Proof.
  intros HP [H1 H2 H3 H4 H5]. assert (Hn : nums l ≡ₚ nums l') by (by apply fmap_Permutation).
  split; [by rewrite <- Hn | by rewrite <- Hn | by rewrite <- HP | by rewrite <- HP | by rewrite <- (prot_perm _ _ HP)].
Qed.

Lemma split_perm {A} (l : list A) i x : l !! i = Some x -> l ≡ₚ x :: (take i l ++ drop (S i) l).
Proof. intros H. rewrite <- (take_drop_middle l i x H) at 1. by rewrite Permutation_middle. Qed.

Lemma insert_perm {A} (l : list A) i x y : l !! i = Some x -> <[i := y]> l ≡ₚ y :: (take i l ++ drop (S i) l).
Proof.
  intros H. pose proof (lookup_lt_Some _ _ _ H). rewrite insert_take_drop by done. by rewrite Permutation_middle.
Qed.

Lemma prot_cons x l : prot (x :: l) = ((if protected x then 1 else 0) + prot l)%nat.
Proof. unfold prot. cbn. by destruct (protected x). Qed.

(** A record rewritten in place. *)
Lemma hot_wf_update self max l i x y :
  hot_wf self max l -> l !! i = Some x -> ni_num (en_node y) = ni_num (en_node x) -> entry_ok y ->
  (protected y = true -> protected x = true \/ (NODEDB_PROTECTED_RESERVE <= max -> prot l < max - NODEDB_PROTECTED_RESERVE)%nat) ->
  hot_wf self max (<[i := y]> l).
Proof.
  intros Hwf Hx Hn Hok Hp. apply (hot_wf_perm _ _ (y :: (take i l ++ drop (S i) l))); [by rewrite (insert_perm l i x y Hx)|].
  pose proof (prot_perm _ _ (split_perm l i x Hx)) as Hpc. apply (hot_wf_perm _ _ _ _ (split_perm l i x Hx)) in Hwf.
  destruct Hwf as [H1 H2 H3 H4 H5]. rewrite prot_cons in Hpc, H5. split; rewrite ?prot_cons.
  - rewrite nums_cons in *. by rewrite Hn.
  - rewrite nums_cons in *. by rewrite Hn.
  - apply Forall_cons in H3 as [_ H3]. by apply Forall_cons.
  - exact H4.
  - destruct (protected y); [|destruct (protected x); lia]. destruct (Hp eq_refl) as [Hx'|Hx']; [rewrite Hx' in H5; lia | lia].
Qed.

(** A record replaced by a new node's. *)
Lemma hot_wf_replace self max l i x y :
  hot_wf self max l -> l !! i = Some x -> ni_num (en_node x) <> self -> ni_num (en_node y) ∉ nums l -> entry_ok y ->
  protected y = false -> hot_wf self max (<[i := y]> l).
Proof.
  intros Hwf Hx Hs Hn Hok Hp. apply (hot_wf_perm _ _ (y :: (take i l ++ drop (S i) l))); [by rewrite (insert_perm l i x y Hx)|].
  assert (Hn' : ni_num (en_node y) ∉ nums (x :: (take i l ++ drop (S i) l))).
  { intros H. apply Hn. by rewrite (fmap_Permutation (fun e => ni_num (en_node e)) _ _ (split_perm l i x Hx)). }
  apply (hot_wf_perm _ _ _ _ (split_perm l i x Hx)) in Hwf. destruct Hwf as [H1 H2 H3 H4 H5].
  rewrite prot_cons in H5. rewrite nums_cons in H1, H2, Hn'. apply NoDup_cons in H1 as [_ H1].
  apply Forall_cons in H3 as [_ H3]. rewrite not_elem_of_cons in Hn'.
  split; rewrite ?nums_cons, ?prot_cons, ?Hp.
  - apply NoDup_cons. tauto.
  - apply elem_of_cons in H2 as [->|H2]; [done | by right].
  - by apply Forall_cons.
  - exact H4.
  - cbn. lia.
Qed.

Lemma hot_wf_append self max l y :
  hot_wf self max l -> (length l < max)%nat -> ni_num (en_node y) ∉ nums l -> entry_ok y -> protected y = false ->
  hot_wf self max (l ++ [y]).
Proof.
  intros [H1 H2 H3 H4 H5] Hl Hn Hok Hp. apply (hot_wf_perm _ _ (y :: l)); [apply Permutation_cons_append|].
  
  split; rewrite ?nums_cons, ?prot_cons, ?Hp; [by apply NoDup_cons | by right | by apply Forall_cons | cbn; lia | cbn; lia].
Qed.

Lemma hot_wf_filter self max l keep :
  hot_wf self max l -> (forall e, ni_num (en_node e) = self -> keep e = true) -> hot_wf self max (List.filter keep l).
Proof.
  intros [H1 H2 H3 H4 H5] Hk.
  assert (Hsub : sublist (nums (List.filter keep l)) (nums l)).
  { clear. induction l as [|x l IH]; cbn; [constructor|]. destruct (keep x); [by apply sublist_skip | by apply sublist_cons]. }
  split.
  - by apply (sublist_NoDup _ (nums l)).
  - apply list_elem_of_fmap in H2 as (e & -> & He). apply list_elem_of_fmap. exists e. split; [done|].
    apply list_elem_of_In, filter_In. split; [by apply list_elem_of_In | by apply Hk].
  - apply Forall_forall. intros x Hx%list_elem_of_In. apply filter_In in Hx as [Hx _].
    rewrite Forall_forall in H3. by apply H3, list_elem_of_In.
  - apply sublist_length in Hsub. unfold nums in Hsub. rewrite !length_fmap in Hsub. lia.
  - assert (prot (List.filter keep l) <= prot l)%nat; [|lia]. unfold prot.
    clear. induction l as [|x l IH]; cbn; [lia|]. destruct (keep x); cbn; destruct (protected x); cbn; lia.
Qed.

(** ** The choice of a victim *)

Definition evictable (local : Z) (e : nodedb_entry) : bool :=
  negb (ni_num (en_node e) =? local) && negb (protected e).
(** Keyless nodes go first, then keyed ones, then those verified by hand. *)
Definition tier (e : nodedb_entry) : nat :=
  if (length (ni_public_key (en_node e)) =? 0)%nat then 0
  else if has_bit IS_KEY_MANUALLY_VERIFIED_BIT (en_node e) then 2 else 1.
Definition heard (e : nodedb_entry) : Z := ni_last_heard (en_node e).

(** A candidate of a tier, after a prefix of the array. *)
Definition cand_ok (local : Z) (t : nat) (pre : list nodedb_entry) (c : candidate) : Prop :=
  (forall e, e ∈ pre -> evictable local e = true -> tier e = t -> c.1 <= heard e) /\
  match c.2 with
  | None => c.1 = UINT32_MAX
  | Some j => exists e, pre !! j = Some e /\ evictable local e = true /\ tier e = t /\ heard e = c.1
  end.

Lemma cand_skip local t pre c e : (evictable local e = true -> tier e <> t) -> cand_ok local t pre c -> cand_ok local t (pre ++ [e]) c.
Proof.
  intros Hs [H1 H2]. split.
  - intros x [Hx|Hx%list_elem_of_singleton]%elem_of_app Hv Ht; [by apply H1 | subst; by destruct (Hs Hv)].
  - destruct c.2 as [j|]; [|done]. destruct H2 as (x & Hx & H2). exists x. split; [by apply lookup_app_l_Some | done].
Qed.

Lemma cand_older local t pre c e :
  evictable local e = true -> tier e = t -> cand_ok local t pre c -> cand_ok local t (pre ++ [e]) (older (heard e) (length pre) c).
Proof.
  intros Hv Ht [H1 H2]. unfold older. destruct (Z.ltb_spec (heard e) c.1) as [Hl|Hl].
  - split; cbn [fst snd].
    + intros x [Hx|Hx%list_elem_of_singleton]%elem_of_app Hxv Hxt; [|subst; lia]. specialize (H1 x Hx Hxv Hxt). lia.
    + exists e. split; [by rewrite list_lookup_middle|]. done.
  - split.
    + intros x [Hx|Hx%list_elem_of_singleton]%elem_of_app Hxv Hxt; [by apply H1 | subst; lia].
    + destruct c.2 as [j|]; [|done]. destruct H2 as (x & Hx & H2). exists x. split; [by apply lookup_app_l_Some | done].
Qed.

Lemma evict_scan_ok local l : forall pre b k v,
  cand_ok local 0 pre b -> cand_ok local 1 pre k -> cand_ok local 2 pre v ->
  let '(b', k', v') := evict_scan local (length pre) l b k v in
  cand_ok local 0 (pre ++ l) b' /\ cand_ok local 1 (pre ++ l) k' /\ cand_ok local 2 (pre ++ l) v'.
Proof.
  induction l as [|e l IH]; intros pre b k v Hb Hk Hv; cbn [evict_scan]; [by rewrite app_nil_r|]. cbv zeta.
  rewrite cons_middle, app_assoc. assert (Hl : S (length pre) = length (pre ++ [e])) by (rewrite length_app; cbn; lia). rewrite Hl.
  destruct ((ni_num (en_node e) =? local) || node_is_protected (en_node e)) eqn:Es.
  { assert (evictable local e = false) as Ev by (unfold evictable, protected; by rewrite <- negb_orb, Es).
    apply IH; apply cand_skip; congruence. }
  assert (evictable local e = true) as Ev by (unfold evictable, protected; by rewrite <- negb_orb, Es).
  fold (heard e). destruct (length (ni_public_key (en_node e)) =? 0)%nat eqn:E0.
  { assert (tier e = 0%nat) by (unfold tier; by rewrite E0). apply IH; [by apply cand_older | apply cand_skip; congruence..]. }
  destruct (has_bit IS_KEY_MANUALLY_VERIFIED_BIT (en_node e)) eqn:E1.
  - assert (tier e = 2%nat) by (unfold tier; by rewrite E0, E1).
    apply IH; [apply cand_skip; congruence | apply cand_skip; congruence | by apply cand_older].
  - assert (tier e = 1%nat) by (unfold tier; by rewrite E0, E1).
    apply IH; [apply cand_skip; congruence | by apply cand_older | apply cand_skip; congruence].
Qed.

Lemma no_candidate_ok local t : cand_ok local t [] no_candidate.
Proof. split; [by intros e He%elem_of_nil | done]. Qed.

(** The victim is of the first tier that has any, and the oldest of it. *)
Lemma victim_spec env db :
  Forall entry_ok (entries db) ->
  match oldest_evictable_index_locked env db with
  | Some i => exists e, entries db !! i = Some e /\ evictable (nd_self env) e = true /\
      forall e', e' ∈ entries db -> evictable (nd_self env) e' = true ->
        (tier e < tier e')%nat \/ (tier e = tier e' /\ heard e <= heard e')
  | None => forall e, e ∈ entries db -> evictable (nd_self env) e = false
  end.
Proof.
  intros Hok. unfold oldest_evictable_index_locked.
  pose proof (evict_scan_ok (nd_self env) (entries db) [] no_candidate no_candidate no_candidate
                (no_candidate_ok _ _) (no_candidate_ok _ _) (no_candidate_ok _ _)) as S.
  cbn [length app] in S. destruct (evict_scan _ _ _ _ _ _) as [[[hb [i|]] [hk oj]] [hv ov]]; destruct S as ([B1 B2] & [K1 K2] & [V1 V2]); cbn [fst snd] in *.
  - destruct B2 as (e & Hi & Hev & Ht & Hh). exists e. split; [done|]. split; [done|]. intros e' He' Hev'.
    destruct (decide (tier e' = 0%nat)) as [T|T]; [right; specialize (B1 _ He' Hev' T); lia | left; lia].
  - assert (Hnb : forall e', e' ∈ entries db -> evictable (nd_self env) e' = true -> tier e' <> 0%nat).
    { intros e' He' Hev' T. specialize (B1 _ He' Hev' T). rewrite Forall_forall in Hok. destruct (Hok _ He') as (_ & Hh & _).
      unfold heard in B1. lia. }
    destruct oj as [j|].
    + destruct K2 as (e & Hi & Hev & Ht & Hh). exists e. split; [done|]. split; [done|]. intros e' He' Hev'.
      pose proof (Hnb _ He' Hev'). destruct (decide (tier e' = 1%nat)) as [T|T]; [right; specialize (K1 _ He' Hev' T); lia | left; lia].
    + assert (Hnk : forall e', e' ∈ entries db -> evictable (nd_self env) e' = true -> tier e' <> 1%nat).
      { intros e' He' Hev' T. specialize (K1 _ He' Hev' T). rewrite Forall_forall in Hok. destruct (Hok _ He') as (_ & Hh & _).
        unfold heard in K1. lia. }
      assert (H2 : forall e', e' ∈ entries db -> evictable (nd_self env) e' = true -> tier e' = 2%nat).
      { intros e' He' Hev'. pose proof (Hnb _ He' Hev'). pose proof (Hnk _ He' Hev'). unfold tier in *. repeat case_match; lia. }
      destruct ov as [j|].
      * destruct V2 as (e & Hi & Hev & Ht & Hh). exists e. split; [done|]. split; [done|]. intros e' He' Hev'.
        right. pose proof (H2 _ He' Hev'). specialize (V1 _ He' Hev' ltac:(done)). lia.
      * intros e He. destruct (evictable (nd_self env) e) eqn:Hev; [|done]. exfalso.
        specialize (V1 _ He Hev (H2 _ He Hev)). rewrite Forall_forall in Hok. destruct (Hok _ He) as (_ & Hh & _). unfold heard in V1. lia.
Qed.

(** ** Admission, case by case *)

Lemma has_write_bit b b' v n : 0 <= b -> 0 <= b' -> has_bit b (write_bit b' v n) = if b =? b' then v else has_bit b n.
Proof.
  intros Hb Hb'. unfold has_bit, write_bit. cbn. destruct (Z.eqb_spec b b') as [->|Hne].
  - destruct v; [by apply Z.setbit_eq | by apply Z.clearbit_eq].
  - destruct v; [by apply Z.setbit_neq | by apply Z.clearbit_neq].
Qed.

Lemma protected_write b v n :
  0 <= b -> b <> IS_FAVORITE_BIT -> b <> IS_IGNORED_BIT -> node_is_protected (write_bit b v n) = node_is_protected n.
Proof.
  intros Hb H1 H2. unfold node_is_protected. unfold IS_FAVORITE_BIT, IS_IGNORED_BIT in *. rewrite !has_write_bit by lia.
  by rewrite !(proj2 (Z.eqb_neq _ b)) by lia.
Qed.

Lemma fresh_ok num db :
  ni_num (en_node (fresh_entry num db)) = num /\ ni_public_key (en_node (fresh_entry num db)) = [] /\
  heard (fresh_entry num db) = 0 /\ protected (fresh_entry num db) = false.
Proof.
  unfold fresh_entry, heard, protected. destruct (warm_get_role_locked num db), (warm_get_known_signer_locked num db); cbn; by repeat split.
Qed.

Lemma find_entry_Some num db i :
  find_entry_locked num db = Some i -> exists e, entries db !! i = Some e /\ ni_num (en_node e) = num.
Proof. intros (e & He & H%Z.eqb_eq)%find_index_Some_1. eauto. Qed.

Lemma find_entry_None num db : find_entry_locked num db = None <-> num ∉ nums (entries db).
Proof.
  unfold find_entry_locked. rewrite find_index_None. unfold nums. rewrite list_elem_of_fmap. split.
  - intros H (e & -> & [i Hi]%list_elem_of_lookup). specialize (H i e Hi). unfold is_node in H. by rewrite Z.eqb_refl in H.
  - intros H i e Hi. apply Z.eqb_neq. intros <-. apply H. exists e. split; [done | by eapply list_elem_of_lookup_2].
Qed.

(** The first record of a number is the only one. *)
Lemma entry_of_Some num db e :
  NoDup (nums (entries db)) -> entry_of num db = Some e <-> e ∈ entries db /\ ni_num (en_node e) = num.
Proof.
  intros Hnd. unfold entry_of. split.
  - intros H. apply bind_Some in H as (i & Hf & Hi). apply find_entry_Some in Hf as (e' & He' & Hn).
    rewrite He' in Hi. injection Hi as <-. split; [by eapply list_elem_of_lookup_2 | done].
  - intros [[i Hi]%list_elem_of_lookup Hn]. destruct (find_entry_locked num db) as [j|] eqn:Ef.
    + destruct (find_entry_Some _ _ _ Ef) as (e' & He' & Hn'). cbn.
      assert (i = j) as ->; [|by rewrite Hi].
      apply (NoDup_lookup (nums (entries db)) i j num Hnd); unfold nums; rewrite list_lookup_fmap;
        [by rewrite Hi; cbn; rewrite Hn | by rewrite He'; cbn; rewrite Hn'].
    + exfalso. apply find_entry_None in Ef. apply Ef. unfold nums. rewrite <- Hn. by apply (list_elem_of_fmap_2' (fun e => ni_num (en_node e)) _ e _ (list_elem_of_lookup_2 _ _ _ Hi)).
Qed.

Lemma warm_place_frame num pub role sig seen db :
  entries (warm_place_locked num pub role sig seen db) = entries db /\
  al_warned (warm_place_locked num pub role sig seen db) = al_warned db /\
  al_pending (warm_place_locked num pub role sig seen db) = al_pending db.
Proof.
  unfold warm_place_locked. destruct (num =? 0); [done|]. destruct (warm_slot_for_locked num db); [|done].
  cbv zeta. by destruct (_ && _).
Qed.

Lemma warm_absorb_frame env e db : entries (warm_absorb_locked env e db).1 = entries db.
Proof. unfold warm_absorb_locked. destruct (_ || _); [done|]. cbn [fst]. apply warm_place_frame. Qed.

(** What [get_or_create_entry_locked] does to the hot store. *)
Inductive admission (env : nd_env) (num : Z) (db : nodedb) : option nat -> nodedb -> Prop :=
  | AdmZero : num = 0 -> admission env num db None db
  | AdmFull : num <> 0 -> num ∉ nums (entries db) -> (nd_max_nodes env <= length (entries db))%nat ->
      oldest_evictable_index_locked env db = None -> admission env num db None db
  | AdmFound i e : num <> 0 -> entries db !! i = Some e -> ni_num (en_node e) = num -> find_entry_locked num db = Some i ->
      admission env num db (Some i) db
  | AdmAppend : num <> 0 -> num ∉ nums (entries db) -> (length (entries db) < nd_max_nodes env)%nat ->
      admission env num db (Some (length (entries db))) (set_entries (entries db ++ [fresh_entry num db]) db)
  | AdmEvict i e : num <> 0 -> num ∉ nums (entries db) -> (nd_max_nodes env <= length (entries db))%nat ->
      oldest_evictable_index_locked env db = Some i -> entries db !! i = Some e ->
      let db1 := set_mtrec_reconcile true (warm_absorb_locked env e db).1 in
      admission env num db (Some i) (set_entries (<[i := fresh_entry num db1]> (entries db)) db1).

Lemma get_or_create_cases env num db :
  let '(r, db', _) := get_or_create_entry_locked env num db in admission env num db r db'.
Proof.
  unfold get_or_create_entry_locked. destruct (Z.eqb_spec num 0); [by apply AdmZero|].
  destruct (find_entry_locked num db) as [i|] eqn:Ef.
  { destruct (find_entry_Some _ _ _ Ef) as (e & He & Hn). by apply (AdmFound _ _ _ i e). }
  pose proof (proj1 (find_entry_None _ _) Ef) as Hn. unfold admit_slot.
  destruct (Nat.ltb_spec (length (entries db)) (nd_max_nodes env)).
  { unfold put_entry. rewrite (proj2 (Nat.ltb_ge _ _)) by lia. by apply AdmAppend. }
  destruct (oldest_evictable_index_locked env db) as [i|] eqn:Eo; [|by apply AdmFull].
  destruct (entries db !! i) as [e|] eqn:He.
  - pose proof (AdmEvict env num db i e n Hn H Eo He) as A. cbv zeta in A.
    pose proof (warm_absorb_frame env e db) as F. destruct (warm_absorb_locked env e db) as [db1 out]. cbn [fst] in *.
    unfold put_entry. change (entries (set_mtrec_reconcile true db1)) with (entries db1). rewrite F.
    rewrite (proj2 (Nat.ltb_lt _ _)) by (by eapply lookup_lt_Some). exact A.
  - exfalso. unfold oldest_evictable_index_locked in Eo.
    pose proof (evict_scan_ok (nd_self env) (entries db) [] no_candidate no_candidate no_candidate
                  (no_candidate_ok _ _) (no_candidate_ok _ _) (no_candidate_ok _ _)) as S. cbn [length app] in S.
    destruct (evict_scan _ _ _ _ _ _) as [[[hb [b|]] [hk [k|]]] [hv [v|]]]; destruct S as ([_ B] & [_ K] & [_ V]); cbn [snd] in *;
      simplify_eq; naive_solver congruence.
Qed.

(** ** The warm ring's invariant *)

Record warm_wf (ring : nat) (l : list warm_key) : Prop := {
  ww_len : length l = ring;
  ww_some : (0 < ring)%nat;
  ww_pub : Forall (fun w => length (wk_pub w) = MESHTASTIC_NODEDB_PUBLIC_KEY_MAX_LEN) l;
  ww_nodup : forall i j w w', l !! i = Some w -> l !! j = Some w' -> wk_num w = wk_num w' -> wk_num w <> 0 -> i = j;
}.

Definition is_hot (db : nodedb) (w : warm_key) : Prop := is_Some (find_entry_locked (wk_num w) db).

(** A candidate slot of the scan, of hot nodes or of evicted ones. *)
Definition lru_ok (pre : list warm_key) (P : warm_key -> Prop) (c : option (nat * Z)) : Prop :=
  match c with
  | Some (j, t) => exists w, pre !! j = Some w /\ P w
  | None => forall w, w ∈ pre -> ~ P w
  end.

Lemma lru_snoc pre P c w : (P w -> is_Some c) -> lru_ok pre P c -> lru_ok (pre ++ [w]) P c.
Proof.
  intros Hw H. destruct c as [[j t]|]; cbn in *.
  - destruct H as (x & Hx & HP). exists x. split; [by apply lookup_app_l_Some | done].
  - intros x [Hx|Hx%list_elem_of_singleton]%elem_of_app; [by apply H|]. subst x. intros HP. by destruct (Hw HP).
Qed.
Lemma lru_new pre (P : warm_key -> Prop) w t : P w -> lru_ok (pre ++ [w]) P (Some (length pre, t)).
Proof. intros HP. exists w. split; [by rewrite list_lookup_middle | done]. Qed.

Lemma warm_scan_spec db l : forall pre hot cold,
  (forall w, w ∈ pre -> wk_num w <> 0) -> lru_ok pre (is_hot db) hot -> lru_ok pre (fun w => ~ is_hot db w) cold ->
  match warm_scan db (length pre) l hot cold with
  | Some j => exists w, (pre ++ l) !! j = Some w /\
      (wk_num w = 0 \/ is_hot db w \/ forall w', w' ∈ pre ++ l -> wk_num w' <> 0 /\ ~ is_hot db w')
  | None => pre ++ l = []
  end.
Proof.
  induction l as [|w l IH]; intros pre hot cold Hz Hh Hc; cbn [warm_scan].
  - rewrite app_nil_r. destruct hot as [[j t]|]; cbn in Hh.
    + destruct Hh as (w & Hw & H). exists w. tauto.
    + destruct cold as [[j t]|]; cbn in Hc |- *.
      * destruct Hc as (w & Hw & _). exists w. split; [done|]. right. right. intros w' Hw'. split; [by apply Hz | by apply Hh].
      * destruct pre as [|w pre]; [done|]. exfalso. apply (Hc w); [left|]. apply Hh. left.
  - destruct (Z.eqb_spec (wk_num w) 0) as [E|E].
    { exists w. split; [by rewrite list_lookup_middle | by left]. }
    assert (Hz' : forall x, x ∈ pre ++ [w] -> wk_num x <> 0).
    { intros x [Hx|Hx%list_elem_of_singleton]%elem_of_app; [by apply Hz | by subst]. }
    assert (Hl : S (length pre) = length (pre ++ [w])) by (rewrite length_app; cbn; lia). rewrite Hl.
    assert (Ha : pre ++ w :: l = (pre ++ [w]) ++ l) by (by rewrite <- app_assoc). rewrite Ha. destruct (negb (seen_before w hot) && negb (seen_before w cold)) eqn:Es.
    { apply IH; [done|..]; apply lru_snoc; try done; intros _; destruct hot, cold; cbn in Es; bools; done. }
    destruct (bool_decide_reflect (is_Some (find_entry_locked (wk_num w) db))) as [Hw|Hw].
    + apply IH; [done| |by apply lru_snoc]. destruct (seen_before w hot) eqn:Eb; [by apply lru_new|].
      apply lru_snoc; [|done]. intros _. destruct hot; [done|]. cbn in Eb. done.
    + apply IH; [done|by apply lru_snoc|]. destruct (seen_before w cold) eqn:Eb; [by apply lru_new|].
      apply lru_snoc; [|done]. intros _. destruct cold; [done|]. cbn in Eb. done.
Qed.

Lemma warm_find_spec num db i :
  warm_find_locked num db = Some i -> exists w, warm_keys db !! i = Some w /\ wk_num w = num.
Proof. intros (w & Hw & H%Z.eqb_eq)%find_index_Some_1. eauto. Qed.

Lemma warm_find_None num db w : warm_find_locked num db = None -> w ∈ warm_keys db -> wk_num w <> num.
Proof.
  intros H [i Hi]%list_elem_of_lookup. unfold warm_find_locked in H. rewrite find_index_None in H. specialize (H i w Hi). by apply Z.eqb_neq.
Qed.

Lemma warm_of_Some ring num db w :
  warm_wf ring (warm_keys db) -> num <> 0 -> warm_of num db = Some w <-> w ∈ warm_keys db /\ wk_num w = num.
Proof.
  intros Hwf Hn. unfold warm_of. split.
  - intros H. apply bind_Some in H as (i & Hf & Hi). destruct (warm_find_spec _ _ _ Hf) as (w' & Hw' & E).
    rewrite Hw' in Hi. injection Hi as <-. split; [by eapply list_elem_of_lookup_2 | done].
  - intros [Hin E]. destruct (warm_find_locked num db) as [j|] eqn:Ef; [|by destruct (warm_find_None _ _ w Ef Hin)].
    destruct (warm_find_spec _ _ _ Ef) as (w' & Hw' & E'). apply list_elem_of_lookup in Hin as [i Hi]. cbn.
    assert (i = j) as -> by (apply (ww_nodup _ _ Hwf i j w w' Hi Hw'); congruence). congruence.
Qed.

(** The slot a key takes: its own; else an empty one or a hot node's; else any. *)
Lemma warm_slot_spec ring num db :
  warm_wf ring (warm_keys db) ->
  exists j w, warm_slot_for_locked num db = Some j /\ warm_keys db !! j = Some w /\
    (wk_num w = num \/
     ((forall w', w' ∈ warm_keys db -> wk_num w' <> num) /\
      (wk_num w = 0 \/ is_hot db w \/ forall w', w' ∈ warm_keys db -> wk_num w' <> 0 /\ ~ is_hot db w'))).
Proof.
  intros Hwf. unfold warm_slot_for_locked. destruct (warm_find_locked num db) as [i|] eqn:Ef.
  { destruct (warm_find_spec _ _ _ Ef) as (w & Hw & E). exists i, w. auto. }
  pose proof (warm_scan_spec db (warm_keys db) [] None None) as S. cbn [length app] in S.
  specialize (S ltac:(by intros w Hw%elem_of_nil) ltac:(by intros w Hw%elem_of_nil) ltac:(by intros w Hw%elem_of_nil)).
  destruct (warm_scan _ _ _ _ _) as [j|].
  - destruct S as (w & Hw & H). exists j, w. split; [done|]. split; [done|]. right. split; [|done].
    intros w' Hw'. by apply (warm_find_None num db).
  - exfalso. pose proof (ww_len _ _ Hwf) as L. pose proof (ww_some _ _ Hwf). rewrite S in L. cbn in L. lia.
Qed.

Lemma warm_place_spec ring num pub role sig seen db :
  warm_wf ring (warm_keys db) -> num <> 0 -> length pub = MESHTASTIC_NODEDB_PUBLIC_KEY_MAX_LEN ->
  exists j w, warm_slot_for_locked num db = Some j /\ warm_keys db !! j = Some w /\
    warm_keys (warm_place_locked num pub role sig seen db) = <[j := WarmKey num seen role sig pub]> (warm_keys db) /\
    warm_wf ring (warm_keys (warm_place_locked num pub role sig seen db)) /\
    (wk_num w = num \/
     ((forall w', w' ∈ warm_keys db -> wk_num w' <> num) /\
      (wk_num w = 0 \/ is_hot db w \/ forall w', w' ∈ warm_keys db -> wk_num w' <> 0 /\ ~ is_hot db w'))).
Proof.
  intros Hwf Hn Hp. destruct (warm_slot_spec ring num db Hwf) as (j & w & Hj & Hw & Hs). exists j, w.
  assert (E : warm_keys (warm_place_locked num pub role sig seen db) = <[j := WarmKey num seen role sig pub]> (warm_keys db)).
  { unfold warm_place_locked. rewrite (proj2 (Z.eqb_neq _ _) Hn), Hj. cbv zeta. by destruct (_ && _). }
  split; [done|]. split; [done|]. split; [done|]. split; [|done]. rewrite E. pose proof (lookup_lt_Some _ _ _ Hw) as Hlt.
  destruct Hwf as [W1 W2 W3 W4]. split; [by rewrite length_insert | done | by apply Forall_insert |].
  assert (Hothers : forall i w', warm_keys db !! i = Some w' -> i <> j -> wk_num w' <> num).
  { intros i w' Hi Hne E'. destruct Hs as [Hs|[Hs _]].
    - apply Hne, (W4 i j w' w Hi Hw); congruence.
    - apply (Hs w'); [by eapply list_elem_of_lookup_2 | done]. }
  intros a b wa wb Ha Hb Heq Hz. destruct (decide (a = j)) as [->|Ha'], (decide (b = j)) as [->|Hb']; try done.
  - rewrite list_lookup_insert_eq in Ha by done. rewrite list_lookup_insert_ne in Hb by done. injection Ha as <-. cbn in Heq.
    by destruct (Hothers b wb Hb Hb').
  - rewrite list_lookup_insert_eq in Hb by done. rewrite list_lookup_insert_ne in Ha by done. injection Hb as <-. cbn in Heq.
    by destruct (Hothers a wa Ha Ha').
  - rewrite list_lookup_insert_ne in Ha, Hb by done. by apply (W4 a b wa wb).
Qed.

(** ** Every operation keeps both invariants *)
Section Preservation.
Context (self : Z) (max ring : nat).
Hypothesis self_ok : self <> 0.

Definition env_ok (env : nd_env) : Prop :=
  nd_self env = self /\ nd_max_nodes env = max /\ uptime_seconds env < UINT32_MAX.

Record nd_wf (db : nodedb) : Prop := {
  nw_hot : hot_wf self max (entries db);
  nw_warm : warm_wf ring (warm_keys db);
}.

Definition tiers (db : nodedb) := (entries db, warm_keys db).

Lemma tiers_wf db db' : tiers db' = tiers db -> nd_wf db -> nd_wf db'.
Proof. intros [= E1 E2] [H1 H2]. split; [by rewrite E1 | by rewrite E2]. Qed.

(** A change of one record that keeps its number and does not protect it anew. *)
Definition tame (f : nodedb_entry -> nodedb_entry) : Prop :=
  forall e, entry_ok e -> ni_num (en_node (f e)) = ni_num (en_node e) /\ entry_ok (f e) /\
            (protected (f e) = true -> protected e = true).

Lemma alter_hot_wf f i l :
  hot_wf self max l -> tame f -> hot_wf self max (alter f i l).
Proof.
  intros Hwf Hf. destruct (l !! i) as [e|] eqn:He; [|by rewrite alter_none].
  rewrite (alter_insert_lookup _ _ _ _ He). pose proof (hw_ok _ _ _ Hwf) as Hok. rewrite Forall_forall in Hok.
  destruct (Hf e (Hok e (list_elem_of_lookup_2 _ _ _ He))) as (H1 & H2 & H3).
  apply (hot_wf_update _ _ _ _ e); [done..|]. intros Hp. left. by apply H3.
Qed.

Lemma alter_wf f i db : nd_wf db -> tame f -> nd_wf (set_entries (alter f i (entries db)) db).
Proof. intros [H1 H2] Hf. split; [by apply alter_hot_wf | done]. Qed.

Lemma warm_place_wf num pub role sig seen db :
  nd_wf db -> length pub = MESHTASTIC_NODEDB_PUBLIC_KEY_MAX_LEN -> nd_wf (warm_place_locked num pub role sig seen db).
Proof.
  intros [H1 H2] Hp. destruct (decide (num = 0)) as [->|Hn]; [done|].
  destruct (warm_place_spec ring num pub role sig seen db H2 Hn Hp) as (j & w & _ & _ & _ & Hw & _).
  split; [|done]. by rewrite (proj1 (warm_place_frame num pub role sig seen db)).
Qed.

Lemma warm_absorb_wf env e db : nd_wf db -> nd_wf (warm_absorb_locked env e db).1.
Proof.
  intros Hwf. unfold warm_absorb_locked. destruct (_ || _) eqn:E; [done|]. cbn [fst]. apply warm_place_wf; [done|].
  apply orb_false_iff in E as [_ E]. by apply negb_false_iff, Nat.eqb_eq in E.
Qed.

Lemma fresh_entry_ok num db : num <> 0 -> entry_ok (fresh_entry num db).
Proof. intros Hn. destruct (fresh_ok num db) as (F1 & F2 & F3 & _). split; [by rewrite F1|]. rewrite F2. unfold heard in F3. rewrite F3. cbn. unfold UINT32_MAX. lia. Qed.

Lemma victim_in env db i e :
  hot_wf self max (entries db) -> nd_self env = self -> oldest_evictable_index_locked env db = Some i ->
  entries db !! i = Some e -> evictable self e = true.
Proof.
  intros Hwf Hs Ho He. pose proof (victim_spec env db (hw_ok _ _ _ Hwf)) as V. rewrite Ho in V.
  destruct V as (e' & He' & Hev & _). rewrite Hs in Hev. congruence.
Qed.

Lemma admission_wf env num db r db' : env_ok env -> nd_wf db -> admission env num db r db' -> nd_wf db'.
Proof.
  intros (E1 & E2 & _) Hwf A. pose proof (nw_hot _ Hwf) as Hh.
  destruct A as [Hz|Hn Hout Hfull Ho|i e Hn He Hnum Hf|Hn Hout Hroom|i e Hn Hout Hfull Ho He db1]; try done.
  - destruct (fresh_ok num db) as (F1 & _ & _ & F4). split; [|apply Hwf]. cbn [entries set_entries].
    apply hot_wf_append; [done | lia | by rewrite F1 | by apply fresh_entry_ok | done].
  - pose proof (warm_absorb_wf env e db Hwf) as Ha. pose proof (warm_absorb_frame env e db) as Hf.
    destruct (fresh_ok num db1) as (F1 & _ & _ & F4). pose proof (victim_in env db i e Hh E1 Ho He) as Hv.
    unfold evictable in Hv. split; [|apply Ha]. cbn [entries set_entries].
    apply (hot_wf_replace _ _ _ _ e); [done | done | bools; congruence | by rewrite F1 | by apply fresh_entry_ok | done].
Qed.

Lemma get_or_create_wf env num db : env_ok env -> nd_wf db -> nd_wf (get_or_create_entry_locked env num db).1.2.
Proof.
  intros He Hwf. pose proof (get_or_create_cases env num db) as A. destruct (get_or_create_entry_locked env num db) as [[r db'] out].
  by apply (admission_wf env num db r).
Qed.

Lemma protected_bits n n' : ni_bitfield n = ni_bitfield n' -> node_is_protected n = node_is_protected n'.
Proof. unfold node_is_protected, has_bit. by intros ->. Qed.

Lemma basic_fields p h mesh now e :
  let n := en_node (apply_basic_packet p h mesh now e) in
  ni_num n = ni_num (en_node e) /\ ni_last_heard n = now /\ ni_public_key n = ni_public_key (en_node e) /\
  node_is_protected n = node_is_protected (en_node e).
Proof.
  assert (B : ni_bitfield (en_node (apply_basic_packet p h mesh now e)) =
              ni_bitfield (write_bit VIA_MQTT_BIT (dual mesh p m_via_mqtt p_via_mqtt) (write_bit HAS_SNR_BIT true (en_node e)))).
  { unfold apply_basic_packet. cbv zeta. by destruct (negb (h =? 0) && _), (packet_hops_away p mesh). }
  cbv zeta. rewrite (protected_bits _ _ B), !protected_write by done.
  unfold apply_basic_packet. cbv zeta. by destruct (negb (h =? 0) && _), (packet_hops_away p mesh).
Qed.

Lemma tame_basic p h mesh env : env_ok env -> tame (apply_basic_packet p h mesh (uptime_seconds env)).
Proof.
  intros (_ & _ & Hu) e (O1 & O2 & O3). destruct (basic_fields p h mesh (uptime_seconds env) e) as (H1 & H2 & H3 & H4).
  split; [done|]. split; [split; [by rewrite H1 | split; [by rewrite H2 | by rewrite H3]]|]. unfold protected. by rewrite H4.
Qed.

(** What an accepted identity changes. *)
Lemma user_fields n u :
  let n' := (user_record n u).1.1 in
  let key := take MESHTASTIC_NODEDB_PUBLIC_KEY_MAX_LEN (us_public_key u) in
  ni_num n' = ni_num n /\ ni_last_heard n' = ni_last_heard n /\ node_is_protected n' = node_is_protected n /\
  ni_public_key n' = (if full_key key || negb (full_key (ni_public_key n)) then key else ni_public_key n) /\
  has_bit HAS_XEDDSA_SIGNED_BIT n' = has_bit HAS_XEDDSA_SIGNED_BIT n.
Proof.
  unfold user_record. cbv zeta. cbn [fst]. rewrite !protected_write by done.
  split; [by destruct (_ || _)|]. split; [by destruct (_ || _)|]. split; [by destruct (_ || _)|].
  split; [by destruct (_ || _)|]. rewrite !has_write_bit by done. cbn. by destruct (_ || _).
Qed.

Lemma tame_user u : tame (fun e => set_en_node (user_record (en_node e) u).1.1 e).
Proof.
  intros e (O1 & O2 & O3). destruct (user_fields (en_node e) u) as (U1 & U2 & U3 & U4 & _). cbn [en_node set_en_node].
  split; [done|]. split; [|unfold protected; cbn [en_node set_en_node]; by rewrite U3].
  unfold entry_ok. cbn [en_node set_en_node]. rewrite U1, U2, U4. split; [done|]. split; [done|].
  destruct (_ || _); [|done]. rewrite length_take. lia.
Qed.

Lemma on_node_const i n db e :
  entries db !! i = Some e -> entries (on_node i (fun _ => n) db) = <[i := set_en_node n e]> (entries db).
Proof. intros He. cbn. by rewrite (alter_insert_lookup _ _ _ _ He). Qed.

Lemma apply_user_wf env i u db : nd_wf db -> nd_wf (apply_user env i u db).1.
Proof.
  intros Hwf. unfold apply_user. destruct (entries db !! i) as [e|] eqn:He; [|done].
  destruct (user_verdict_of env (en_node e) u); [|done|destruct (al_warned db); [done | by apply (tiers_wf db)]].
  pose proof (tame_user u) as Ht. pose proof (alter_wf _ i db Hwf Ht) as Ha.
  destruct (user_record (en_node e) u) as [[n' kc] ch] eqn:Eu. cbv zeta. cbn [fst].
  assert (Hw : nd_wf (on_node i (fun _ => n') db)).
  { apply (tiers_wf (set_entries (alter (fun e => set_en_node (user_record (en_node e) u).1.1 e) i (entries db)) db)); [|done].
    unfold tiers, on_node. cbn [entries warm_keys set_entries]. by rewrite !(alter_insert_lookup _ _ _ _ He), Eu. }
  destruct (_ && _ && _) eqn:E; [|done]. unfold warm_upsert_locked. apply warm_place_wf; [done|].
  apply andb_true_iff in E as [E _]. apply andb_true_iff in E as [_ E]. by apply Nat.eqb_eq.
Qed.

Lemma alert_tiers db : tiers (own_key_alert_take_locked db).1 = tiers db.
Proof. unfold own_key_alert_take_locked. by destruct (al_pending db). Qed.

Lemma tame_position q : tame (apply_position q).
Proof. intros e H. destruct q as [[pm lat] lon]. split; [done|]. by split. Qed.

Lemma on_packet_wf env packet h mesh db :
  env_ok env -> nd_wf db -> nd_wf (meshtastic_module_nodedb_on_packet env packet h mesh db).1.
Proof.
  intros He Hwf. unfold meshtastic_module_nodedb_on_packet. destruct (_ && _); [done|]. cbv zeta. destruct (_ || _); [done|].
  pose proof (get_or_create_wf env (dual mesh (default packet_zero packet) m_from p_from) db He Hwf) as G.
  destruct (get_or_create_entry_locked _ _ _) as [[[i|] db1] out]; cbn [fst snd] in G; [|done].
  set (db2 := set_nodedb_dirty true _).
  assert (W2 : nd_wf db2) by (apply (tiers_wf (set_entries (alter (apply_basic_packet (default packet_zero packet) h mesh (uptime_seconds env)) i (entries db1)) db1)); [done|]; apply alter_wf; [done | by apply tame_basic]).
  clearbody db2. set (usr := if _ =? MESHTASTIC_PORT_NODEINFO then decode_user_payload _ _ else None).
  assert (W3 : nd_wf (match usr with Some u => apply_user env i u db2 | None => (db2, []) end).1) by (destruct usr; [by apply apply_user_wf | done]).
  destruct (match usr with Some u => _ | None => _ end) as [db3 out2]. cbn [fst] in W3.
  set (pos := if _ =? MESHTASTIC_PORT_NODEINFO then None else _).
  set (db4 := match pos with Some q => _ | None => _ end).
  assert (W4 : nd_wf db4) by (unfold db4; destruct pos; [apply alter_wf; [done | apply tame_position] | done]).
  pose proof (alert_tiers db4) as A. destruct (own_key_alert_take_locked db4) as [db5 out3]. cbn [fst] in *. by apply (tiers_wf db4).
Qed.


Lemma unprotect_tame bit : 0 <= bit -> tame (fun e => set_en_node (write_bit bit false (en_node e)) e).
Proof.
  intros Hb e (O1 & O2 & O3). split; [done|]. split; [done|]. unfold protected, node_is_protected. cbn [en_node set_en_node].
  unfold IS_FAVORITE_BIT, IS_IGNORED_BIT. rewrite !has_write_bit by lia.
  repeat case_match; cbn; rewrite ?orb_false_r; try done; intros ->; by rewrite ?orb_true_r.
Qed.

Lemma set_bit_wf env num bit v db : env_ok env -> nd_wf db -> 0 <= bit -> nd_wf (nodedb_set_bit env num bit v db).1.1.
Proof.
  intros (_ & Em & _) Hwf Hb. unfold nodedb_set_bit. destruct (find_entry_locked num db) as [i|] eqn:Ef; [|done].
  destruct (entry_of num db) as [e|] eqn:Ee; [|done]. unfold entry_of in Ee. rewrite Ef in Ee. cbn in Ee.
  destruct (_ && _ && _ && _) eqn:Eg; [done|]. cbv zeta.
  assert (W : nd_wf (set_nodedb_dirty true (on_node i (write_bit bit v) db))).
  { destruct Hwf as [Hh Hw]. split; [|done]. cbn. rewrite (alter_insert_lookup _ _ _ _ Ee).
    pose proof (hw_ok _ _ _ Hh) as Hok. rewrite Forall_forall in Hok. pose proof (Hok e (list_elem_of_lookup_2 _ _ _ Ee)) as (O1 & O2 & O3).
    apply (hot_wf_update _ _ _ _ e); [done | done | done | done|].
    intros Hp. destruct (protected e) eqn:Hpe; [by left|]. right. unfold protected in *. cbn [en_node set_en_node] in Hp.
    destruct v; [|destruct (unprotect_tame bit Hb e ltac:(done)) as (_ & _ & H); specialize (H Hp); unfold protected in H; congruence].
    rewrite Hpe in Eg. cbn [andb negb] in Eg. rewrite andb_true_r in Eg. rewrite Em in Eg.
    change (protected_count_locked db) with (prot (entries db)) in Eg.
    destruct ((bit =? IS_FAVORITE_BIT) || (bit =? IS_IGNORED_BIT)) eqn:Ebit.
    - cbn [andb] in Eg. apply Z.ltb_ge in Eg. intros Hmax.
      assert (u32 (Z.of_nat max - Z.of_nat NODEDB_PROTECTED_RESERVE) <= Z.of_nat max - Z.of_nat NODEDB_PROTECTED_RESERVE);
        [apply Z.mod_le; lia | lia].
    - apply orb_false_iff in Ebit as [B1 B2]. rewrite protected_write in Hp by lia. congruence. }
  destruct (_ || _ || _); [by apply (tiers_wf (set_nodedb_dirty true (on_node i (write_bit bit v) db))) | done].
Qed.

Lemma swap_remove_perm {A} (l : list A) i x : l !! i = Some x -> l ≡ₚ x :: swap_remove i l.
Proof.
  intros Hi. unfold swap_remove. destruct l as [|y l _] using rev_ind; [done|]. rewrite last_snoc, length_app. cbn [length].
  replace (length l + 1 - 1)%nat with (length l) by lia.
  destruct (decide (i = length l)) as [->|Hne].
  - rewrite list_lookup_middle in Hi by done. injection Hi as ->. rewrite insert_app_r_alt by lia.
    rewrite take_app_length. by rewrite Permutation_app_comm.
  - assert (Hlt : (i < length l)%nat) by (apply lookup_lt_Some in Hi; rewrite length_app in Hi; cbn in Hi; lia).
    rewrite lookup_app_l in Hi by done. rewrite insert_app_l by done.
    rewrite take_app_le by (rewrite length_insert; lia). rewrite take_ge by (rewrite length_insert; lia).
    rewrite (insert_perm l i x y Hi), (split_perm l i x Hi) at 1. rewrite Permutation_app_comm. cbn. apply Permutation_swap.
Qed.

Lemma hot_wf_uncons x l : hot_wf self max (x :: l) -> ni_num (en_node x) <> self -> hot_wf self max l.
Proof.
  intros [H1 H2 H3 H4 H5] Hn. rewrite nums_cons in H1, H2. rewrite prot_cons in H5. apply NoDup_cons in H1 as [_ H1].
  apply elem_of_cons in H2 as [H2|H2]; [done|]. apply Forall_cons in H3 as [_ H3]. cbn in H4. split; [done | done | done | lia | lia].
Qed.

Lemma remove_wf env num db : env_ok env -> nd_wf db -> nd_wf (meshtastic_nodedb_remove env num db).1.1.
Proof.
  intros (Es & _ & _) [Hh Hw]. unfold meshtastic_nodedb_remove. rewrite Es. destruct (Z.eqb_spec num self); [done|].
  destruct (find_entry_locked num db) as [i|] eqn:Ef; [|done]. cbn. split; [|done]. cbn.
  destruct (find_entry_Some _ _ _ Ef) as (e & He & Hn). apply (hot_wf_uncons e); [|congruence].
  by apply (hot_wf_perm _ _ (entries db)), Hh; apply swap_remove_perm.
Qed.

Lemma insert_warm_wf i w l :
  warm_wf ring l -> length (wk_pub w) = MESHTASTIC_NODEDB_PUBLIC_KEY_MAX_LEN ->
  (wk_num w = 0 \/ exists w0, l !! i = Some w0 /\ wk_num w0 = wk_num w) -> warm_wf ring (<[i := w]> l).
Proof.
  intros [W1 W2 W3 W4] Hp Hn. split; [by rewrite length_insert | done | by apply Forall_insert|].
  intros a b wa wb Ha Hb Heq Hz. destruct (decide (i < length l)%nat) as [Hi|Hi]; [|rewrite list_insert_ge in Ha, Hb by lia; by apply (W4 a b wa wb)].
  destruct (decide (a = i)) as [->|Ha'], (decide (b = i)) as [->|Hb']; try done.
  - rewrite list_lookup_insert_eq in Ha by done. rewrite list_lookup_insert_ne in Hb by done. injection Ha as <-.
    destruct Hn as [Hn|(w0 & H0 & Hn)]; [congruence|]. apply (W4 i b w0 wb H0 Hb); congruence.
  - rewrite list_lookup_insert_eq in Hb by done. rewrite list_lookup_insert_ne in Ha by done. injection Hb as <-.
    destruct Hn as [Hn|(w0 & H0 & Hn)]; [congruence|]. apply (W4 a i wa w0 Ha H0); congruence.
  - rewrite list_lookup_insert_ne in Ha, Hb by done. by apply (W4 a b wa wb).
Qed.

Lemma forget_wf env num db : env_ok env -> nd_wf db -> nd_wf (meshtastic_nodedb_forget env num db).1.1.
Proof.
  intros He Hwf. unfold meshtastic_nodedb_forget. pose proof (remove_wf env num db He Hwf) as R.
  destruct (meshtastic_nodedb_remove env num db) as [[db1 out] ret]. cbn [fst] in R.
  destruct (warm_find_locked num db1); [|done]. destruct R as [R1 R2]. split; [done|]. cbn. apply insert_warm_wf; [done | done | by left].
Qed.

Lemma replicate_warm_wf : (0 < ring)%nat -> warm_wf ring (replicate ring warm_zero).
Proof.
  intros Hr. split; [apply length_replicate | done | by apply Forall_replicate|].
  intros i j w w' Hi _ _ Hz. apply lookup_replicate in Hi as [-> _]. done.
Qed.

Lemma reset_wf env keep db : env_ok env -> nd_wf db -> nd_wf (meshtastic_nodedb_reset env keep db).1.
Proof.
  intros (Es & _ & _) [Hh Hw]. split; cbn.
  - apply hot_wf_filter; [done|]. intros e He. unfold is_node. by rewrite Es, He, Z.eqb_refl.
  - rewrite (ww_len _ _ Hw). apply replicate_warm_wf, (ww_some _ _ Hw).
Qed.

Lemma tame_key key : (length key <= MESHTASTIC_NODEDB_PUBLIC_KEY_MAX_LEN)%nat -> tame (fun e => set_en_node (set_ni_public_key key (en_node e)) e).
Proof. intros Hk e (O1 & O2 & O3). split; [done|]. by split. Qed.
Lemma tame_heard env : env_ok env -> tame (fun e => set_en_node (set_ni_last_heard (uptime_seconds env) (en_node e)) e).
Proof. intros (_ & _ & Hu) e (O1 & O2 & O3). split; [done|]. by split. Qed.
Lemma tame_plain_bit bit v : 0 <= bit -> bit <> IS_FAVORITE_BIT -> bit <> IS_IGNORED_BIT ->
  tame (fun e => set_en_node (write_bit bit v (en_node e)) e).
Proof.
  intros Hb H1 H2 e (O1 & O2 & O3). split; [done|]. split; [done|]. unfold protected. cbn [en_node set_en_node]. by rewrite protected_write.
Qed.

Lemma commit_wf env num key create db :
  env_ok env -> nd_wf db -> length key = MESHTASTIC_NODEDB_PUBLIC_KEY_MAX_LEN -> nd_wf (commit_pubkey env num key create db).1.1.
Proof.
  intros He Hwf Hk. unfold commit_pubkey. destruct (_ && _); [done|].
  pose proof (get_or_create_wf env num db He Hwf) as G.
  assert (W : nd_wf (if create then get_or_create_entry_locked env num db else (find_entry_locked num db, db, [])).1.2) by (by destruct create).
  destruct (if create then _ else _) as [[[i|] db1] out]; cbn [fst snd] in W; [|done].
  assert (W1 : nd_wf (on_node i (set_ni_public_key key) db1)) by (apply (alter_wf (fun e => set_en_node (set_ni_public_key key (en_node e)) e)); [done | apply tame_key; lia]).
  cbv zeta. destruct (num =? nd_self env); [by apply (tiers_wf (on_node i (set_ni_public_key key) db1))|].
  cbn [fst]. set (role := match _ !! i with Some e => _ | None => 0 end).
  apply (tiers_wf (warm_upsert_locked env num key role (on_node i (set_ni_public_key key) db1))); [done | by apply warm_place_wf].
Qed.

Lemma signer_warm_wf num v db : nd_wf db -> nd_wf (warm_set_known_signer_locked num v db).1.
Proof.
  intros [Hh Hw]. unfold warm_set_known_signer_locked. destruct (warm_find_locked num db) as [i|] eqn:Ef; [|done].
  destruct (warm_keys db !! i) as [w|] eqn:Ew; [|done]. cbv zeta. destruct (_ =? _); [done|]. split; [done|]. cbn.
  apply insert_warm_wf; [done| |right; by exists w]. pose proof (ww_pub _ _ Hw) as Hp. rewrite Forall_forall in Hp.
  exact (Hp w (list_elem_of_lookup_2 _ _ _ Ew)).
Qed.

Lemma note_signer_wf env num db : env_ok env -> nd_wf db -> nd_wf (meshtastic_nodedb_note_xeddsa_signer env num db).1.
Proof.
  intros He Hwf. unfold meshtastic_nodedb_note_xeddsa_signer. destruct (_ || _); [done|].
  pose proof (get_or_create_wf env num db He Hwf) as G. destruct (get_or_create_entry_locked env num db) as [[slot db1] out]. cbn [fst snd] in G.
  cbv zeta. set (db2 := match slot with Some i => _ | None => _ end).
  assert (W : nd_wf db2) by (unfold db2; destruct slot; [apply (alter_wf (fun e => set_en_node (write_bit HAS_XEDDSA_SIGNED_BIT true (en_node e)) e)); [done | by apply tame_plain_bit] | done]).
  pose proof (signer_warm_wf num true db2 W) as W2. by destruct (warm_set_known_signer_locked num true db2).
Qed.

Lemma toggle_wf num db : nd_wf db -> nd_wf (meshtastic_nodedb_toggle_muted num db).1.1.
Proof.
  intros Hwf. unfold meshtastic_nodedb_toggle_muted. destruct (find_entry_locked num db); [|done]. destruct (entry_of num db) as [e|]; [|done].
  cbn [fst]. apply (alter_wf (fun e' => set_en_node (write_bit IS_MUTED_BIT (negb (has_bit IS_MUTED_BIT (en_node e))) (en_node e')) e')); [done | by apply tame_plain_bit].
Qed.

Lemma contact_locked_wf env num u mv ig db : env_ok env -> nd_wf db -> nd_wf (contact_locked env num u mv ig db).1.1.
Proof.
  intros He Hwf. unfold contact_locked. cbv zeta. pose proof (get_or_create_wf env num db He Hwf) as G.
  destruct (get_or_create_entry_locked env num db) as [[[i|] db1] out]; cbn [fst snd] in G; [|done].
  destruct (_ && _ && _ && _); [done|]. set (db2 := if _ && _ then _ else db1).
  assert (W2 : nd_wf db2) by (unfold db2; destruct (_ && _); [apply (alter_wf (fun e => set_en_node (set_ni_public_key [] (en_node e)) e)); [done | apply tame_key; cbn; lia] | done]).
  clearbody db2. pose proof (apply_user_wf env i u db2 W2) as W3. destruct (apply_user env i u db2) as [db3 out2]. cbn [fst] in W3.
  set (db4 := if _ && _ then _ else db3).
  assert (W4 : nd_wf db4) by (unfold db4; destruct (_ && _); [apply (alter_wf (fun e => set_en_node (set_ni_last_heard (uptime_seconds env) (en_node e)) e)); [done | by apply tame_heard] | done]).
  pose proof (alert_tiers (set_nodedb_dirty true db4)) as A. destruct (own_key_alert_take_locked (set_nodedb_dirty true db4)) as [db5 out3].
  cbn [fst] in *. by apply (tiers_wf db4).
Qed.

Lemma add_contact_wf env num u mv ig db : env_ok env -> nd_wf db -> nd_wf (meshtastic_nodedb_add_contact env num u mv ig db).1.1.
Proof.
  intros He Hwf. unfold meshtastic_nodedb_add_contact. destruct (_ || _ || _); [done|].
  pose proof (contact_locked_wf env num u mv ig db He Hwf) as C. destruct (contact_locked env num u mv ig db) as [[db1 out] ret]. cbn [fst] in C.
  destruct ret; [|done]. destruct ig.
  - pose proof (set_bit_wf env num IS_IGNORED_BIT true db1 He C ltac:(done)) as W. unfold meshtastic_nodedb_set_ignored.
    destruct (nodedb_set_bit env num IS_IGNORED_BIT true db1) as [[db2 o1] r1]. cbn [fst] in W.
    pose proof (set_bit_wf env num IS_FAVORITE_BIT false db2 He W ltac:(done)) as W2. unfold meshtastic_nodedb_set_favorite.
    by destruct (nodedb_set_bit env num IS_FAVORITE_BIT false db2) as [[db3 o2] r2].
  - assert (W : nd_wf (if negb (nd_client_base env) then meshtastic_nodedb_set_favorite env num true db1 else (db1, [], OK)).1.1).
    { destruct (negb _); [|done]. by apply set_bit_wf. }
    destruct (if negb (nd_client_base env) then _ else _) as [[db2 o1] r1]. cbn [fst] in W.
    assert (W2 : nd_wf (if mv then meshtastic_nodedb_set_key_verified env num true db2 else (db2, [], OK)).1.1).
    { destruct mv; [|done]. by apply set_bit_wf. }
    by destruct (if mv then _ else _) as [[db3 o2] r2].
Qed.

(** ** Runs *)

Inductive nd_event :=
  | NdPacket (env : nd_env) (packet : option packet) (heard_on : Z) (mesh : option mesh_packet)
  | NdSetFavorite (env : nd_env) (num : Z) (v : bool)
  | NdSetIgnored (env : nd_env) (num : Z) (v : bool)
  | NdSetVerified (env : nd_env) (num : Z) (v : bool)
  | NdCommitKey (env : nd_env) (num : Z) (key : list Z) (create : bool)
  | NdSigner (env : nd_env) (num : Z)
  | NdContact (env : nd_env) (num : Z) (u : user) (manually_verified should_ignore : bool)
  | NdToggleMuted (env : nd_env) (num : Z)
  | NdRemove (env : nd_env) (num : Z)
  | NdForget (env : nd_env) (num : Z)
  | NdReset (env : nd_env) (keep_favorites : bool)
  | NdReadIndex (env : nd_env) (index : nat).

Definition nd_event_env (ev : nd_event) : nd_env :=
  match ev with
  | NdPacket env _ _ _ | NdSetFavorite env _ _ | NdSetIgnored env _ _ | NdSetVerified env _ _ | NdCommitKey env _ _ _
  | NdSigner env _ | NdContact env _ _ _ _ | NdToggleMuted env _ | NdRemove env _ | NdForget env _ | NdReset env _
  | NdReadIndex env _ => env
  end.

Definition nd_event_ok (ev : nd_event) : Prop :=
  env_ok (nd_event_env ev) /\
  match ev with NdCommitKey _ _ key _ => length key = MESHTASTIC_NODEDB_PUBLIC_KEY_MAX_LEN | _ => True end.

Context (qsort : (nodedb_entry -> nodedb_entry -> Z) -> list nodedb_entry -> list nodedb_entry).

Definition nd_step (db : nodedb) (ev : nd_event) : nodedb :=
  match ev with
  | NdPacket env packet h mesh => (meshtastic_module_nodedb_on_packet env packet h mesh db).1
  | NdSetFavorite env num v => (meshtastic_nodedb_set_favorite env num v db).1.1
  | NdSetIgnored env num v => (meshtastic_nodedb_set_ignored env num v db).1.1
  | NdSetVerified env num v => (meshtastic_nodedb_set_key_verified env num v db).1.1
  | NdCommitKey env num key create => (commit_pubkey env num key create db).1.1
  | NdSigner env num => (meshtastic_nodedb_note_xeddsa_signer env num db).1
  | NdContact env num u mv ig => (meshtastic_nodedb_add_contact env num u mv ig db).1.1
  | NdToggleMuted env num => (meshtastic_nodedb_toggle_muted num db).1.1
  | NdRemove env num => (meshtastic_nodedb_remove env num db).1.1
  | NdForget env num => (meshtastic_nodedb_forget env num db).1.1
  | NdReset env keep => (meshtastic_nodedb_reset env keep db).1
  | NdReadIndex env index => (meshtastic_nodedb_get_by_index qsort env index db).1
  end.

Hypothesis qsort_permutes : forall cmp l, qsort cmp l ≡ₚ l.

Lemma nd_step_wf db ev : nd_event_ok ev -> nd_wf db -> nd_wf (nd_step db ev).
Proof.
  intros [He Hk] Hwf. destruct ev; cbn [nd_event_env nd_step] in *.
  - by apply on_packet_wf.
  - by apply set_bit_wf.
  - by apply set_bit_wf.
  - by apply set_bit_wf.
  - by apply commit_wf.
  - by apply note_signer_wf.
  - by apply add_contact_wf.
  - by apply toggle_wf.
  - by apply remove_wf.
  - by apply forget_wf.
  - by apply reset_wf.
  - unfold meshtastic_nodedb_get_by_index, nodedb_maybe_sort_locked. cbv zeta. cbn [fst].
    destruct (negb _); [done|]. destruct (_ && _); [done|]. destruct Hwf as [Hh Hw]. split; [|done]. cbn.
    by apply (hot_wf_perm _ _ (entries db)).
Qed.

Lemma nd_run_wf evs : forall db, Forall nd_event_ok evs -> nd_wf db -> nd_wf (foldl nd_step db evs).
Proof.
  induction evs as [|ev evs IH]; intros db Hok Hwf; [done|]. apply Forall_cons in Hok as [H1 H2]. cbn [foldl].
  apply IH; [done | by apply nd_step_wf].
Qed.

Lemma apply_user_entries env i u db e :
  entries db !! i = Some e ->
  entries (apply_user env i u db).1 =
    match user_verdict_of env (en_node e) u with
    | UserTaken => <[i := set_en_node (user_record (en_node e) u).1.1 e]> (entries db)
    | _ => entries db
    end.
Proof.
  intros He. unfold apply_user. rewrite He. destruct (user_verdict_of env (en_node e) u); [|done|by destruct (al_warned db)].
  destruct (user_record (en_node e) u) as [[n' kc] ch]. cbv zeta. cbn [fst]. rewrite <- (on_node_const i n' db e He).
  destruct (_ && _ && _); [|done]. unfold warm_upsert_locked. by rewrite (proj1 (warm_place_frame _ _ _ _ _ _)).
Qed.
Lemma apply_user_prot env i u db : prot (entries (apply_user env i u db).1) = prot (entries db).
Proof.
  destruct (entries db !! i) as [e|] eqn:He; [|unfold apply_user; by rewrite He]. rewrite (apply_user_entries env i u db e He).
  destruct (user_verdict_of env (en_node e) u); [|done|done].
  rewrite (prot_perm _ _ (insert_perm _ _ _ _ He)), (prot_perm _ _ (split_perm _ _ _ He)), !prot_cons.
  unfold protected at 1. cbn [en_node set_en_node]. destruct (user_fields (en_node e) u) as (_ & _ & -> & _). done.
Qed.
(** The slot that is found or made is the node's. *)
Lemma admission_slot env num db i db' : admission env num db (Some i) db' ->
  exists e, entries db' !! i = Some e /\ ni_num (en_node e) = num /\ num <> 0.
Proof.
  intros A. inversion A; subst; cbn [entries set_entries].
  - eauto.
  - eexists. split; [by rewrite list_lookup_middle|]. split; [apply fresh_ok | done].
  - eexists. split; [apply list_lookup_insert_eq; by eapply lookup_lt_Some|]. split; [apply fresh_ok | done].
Qed.

(** What the stores put back: the ring as the keys' store left it, then record after record. *)
Definition restore_stores (env : nd_env) (warm : list warm_key) (recs : list (Z * node_info)) (db : nodedb) : nodedb :=
  foldl (fun db r => (mtrec_apply env r.1 r.2 db).1) (set_warm_keys warm db) recs.
Definition protected_in (recs : list (Z * node_info)) : nat := length (List.filter (fun r => node_is_protected r.2) recs).
(** The stored favourites and blocked nodes leave the reserve. *)
Definition stores_ok (warm : list warm_key) (recs : list (Z * node_info)) : Prop :=
  warm_wf ring warm /\ Forall (fun r => (length (ni_public_key r.2) <= MESHTASTIC_NODEDB_PUBLIC_KEY_MAX_LEN)%nat) recs /\
  (NODEDB_PROTECTED_RESERVE <= max -> protected_in recs <= max - NODEDB_PROTECTED_RESERVE)%nat.

Lemma prot_insert_le l i x y : l !! i = Some x -> (prot (<[i := y]> l) <= prot l + if protected y then 1 else 0)%nat.
Proof.
  intros Hx. rewrite (prot_perm _ _ (insert_perm l i x y Hx)), (prot_perm _ _ (split_perm l i x Hx)), !prot_cons.
  destruct (protected x), (protected y); lia.
Qed.
Lemma admission_prot env num db r db' : admission env num db r db' -> (prot (entries db') <= prot (entries db))%nat.
Proof.
  intros A. inversion A; subst; cbn [entries set_entries]; try lia.
  - assert (entries db ++ [fresh_entry num db] ≡ₚ fresh_entry num db :: entries db) as HP by (symmetry; apply Permutation_cons_append).
    rewrite (prot_perm _ _ HP), prot_cons. destruct (fresh_ok num db) as (_ & _ & _ & ->). lia.
  - match goal with He : entries db !! _ = Some ?e |- context [fresh_entry num ?d] =>
      pose proof (prot_insert_le _ _ _ (fresh_entry num d) He) as Hle; destruct (fresh_ok num d) as (_ & _ & _ & Hf) end.
    rewrite Hf in Hle. lia.
Qed.
Lemma mtrec_apply_wf env num n db : env_ok env -> nd_wf db -> (length (ni_public_key n) <= MESHTASTIC_NODEDB_PUBLIC_KEY_MAX_LEN)%nat ->
  (NODEDB_PROTECTED_RESERVE <= max -> prot (entries db) + (if node_is_protected n then 1 else 0) <= max - NODEDB_PROTECTED_RESERVE)%nat ->
  nd_wf (mtrec_apply env num n db).1 /\
  (prot (entries (mtrec_apply env num n db).1) <= prot (entries db) + if node_is_protected n then 1 else 0)%nat.
Proof.
  intros He Hwf Hk Hp. pose proof (get_or_create_wf env num db He Hwf) as W. pose proof (get_or_create_cases env num db) as A.
  unfold mtrec_apply. destruct (get_or_create_entry_locked env num db) as [[[i|] db1] out] eqn:G; cbn [fst snd] in *;
    pose proof (admission_prot _ _ _ _ _ A) as Hle; [|split; [done | lia]].
  destruct (admission_slot env num db i db1 A) as (e & Hi & Hn & Hz). cbn [entries set_entries].
  set (f := fun e => set_en_node (set_ni_last_heard 0 (set_ni_num num n)) (set_en_last_heard_epoch (ni_last_heard n) e)).
  rewrite (alter_insert_lookup _ _ _ _ Hi). pose proof (prot_insert_le _ _ _ (f e) Hi) as Hin.
  assert (protected (f e) = node_is_protected n) as Hpf by (by apply protected_bits). rewrite Hpf in Hin. split; [|lia].
  destruct W as [Hh Hw]. split; [|done]. cbn [entries set_entries]. apply (hot_wf_update _ _ _ _ e); [done | done | done | |].
  - split; [done|]. split; [done|]. exact Hk.
  - rewrite Hpf. intros Hpr. rewrite Hpr in Hp. right. intros Hm. specialize (Hp Hm). lia.
Qed.
Lemma restore_wf env recs : env_ok env -> forall db, nd_wf db ->
  Forall (fun r => (length (ni_public_key r.2) <= MESHTASTIC_NODEDB_PUBLIC_KEY_MAX_LEN)%nat) recs ->
  (NODEDB_PROTECTED_RESERVE <= max -> prot (entries db) + protected_in recs <= max - NODEDB_PROTECTED_RESERVE)%nat ->
  nd_wf (foldl (fun db r => (mtrec_apply env r.1 r.2 db).1) db recs).
Proof.
  intros He. induction recs as [|[num n] recs IH]; intros db Hwf Hk Hp; [done|]. apply Forall_cons in Hk as [Hk1 Hk]. cbn [foldl fst snd] in *.
  assert (protected_in ((num, n) :: recs) = (if node_is_protected n then 1 else 0) + protected_in recs)%nat as Hc
    by (unfold protected_in; cbn; by destruct (node_is_protected n)).
  destruct (mtrec_apply_wf env num n db He Hwf Hk1) as [W Hle]; [lia|]. apply IH; [done | done | lia].
Qed.

Lemma first_entry env : env_ok env -> (1 <= max)%nat -> (0 < ring)%nat ->
  let '(slot, db, _) := get_or_create_entry_locked env (nd_self env) (set_entries [] (nodedb_zero ring)) in
  slot = Some 0%nat /\ nd_wf (on_node 0 (set_ni_last_heard (uptime_seconds env)) db) /\ prot (entries (on_node 0 (set_ni_last_heard (uptime_seconds env)) db)) = 0%nat.
Proof.
  intros He Hm Hr. pose proof He as (Es & Em & Hu).
  unfold get_or_create_entry_locked. rewrite (proj2 (Z.eqb_neq _ _)) by congruence. unfold admit_slot. cbn [find_entry_locked find_index entries set_entries nodedb_zero length].
  rewrite (proj2 (Nat.ltb_lt _ _)) by lia. unfold put_entry. cbn [entries set_entries length Nat.ltb Nat.leb app].
  set (fe := fresh_entry _ _). destruct (fresh_ok (nd_self env) (set_entries [] (nodedb_zero ring))) as (F1 & F2 & F3 & F4). fold fe in F1, F2, F3, F4.
  split; [done|]. split.
  - apply (alter_wf (fun e => set_en_node (set_ni_last_heard (uptime_seconds env) (en_node e)) e)); [|by apply tame_heard].
    split; [|by apply replicate_warm_wf]. cbn [entries set_entries].
    assert (entry_ok fe) by (apply fresh_entry_ok; congruence).
    split; [apply NoDup_singleton | rewrite nums_cons, F1, Es; left | by apply Forall_singleton | cbn; lia | rewrite prot_cons, F4; cbn; lia].
  - change (prot [set_en_node (set_ni_last_heard (uptime_seconds env) (en_node fe)) fe] = 0%nat). rewrite prot_cons.
    assert (protected (set_en_node (set_ni_last_heard (uptime_seconds env) (en_node fe)) fe) = protected fe) as -> by (by apply protected_bits).
    by rewrite F4.
Qed.
Lemma init_wf env me warm recs : env_ok env -> (1 <= max)%nat -> (0 < ring)%nat -> stores_ok warm recs ->
  nd_wf (meshtastic_nodedb_init env me (restore_stores env warm recs) (nodedb_zero ring)).1.1.
Proof.
  intros He Hm Hr (Hw & Hk & Hp). unfold meshtastic_nodedb_init. cbv zeta.
  pose proof (first_entry env He Hm Hr) as F.
  destruct (get_or_create_entry_locked env (nd_self env) _) as [[slot db] o]. destruct F as (-> & W & P0).
  set (db1 := on_node 0 _ _) in *. pose proof (apply_user_wf env 0 me db1 W) as W2. pose proof (apply_user_prot env 0 me db1) as P1.
  destruct (apply_user env 0 me db1) as [db2 out]. cbn [fst] in *.
  apply (tiers_wf (restore_stores env warm recs db2)); [done|]. unfold restore_stores. apply restore_wf; [done | | done |].
  - destruct W2 as [Hh _]. by split.
  - cbn [entries set_warm_keys]. rewrite P1, P0. exact Hp.
Qed.

(** Among the unprotected nodes there is always one that is not the node itself. *)
Lemma victim_exists env db :
  env_ok env -> nd_wf db -> (NODEDB_PROTECTED_RESERVE < max)%nat -> (max <= length (entries db))%nat ->
  is_Some (oldest_evictable_index_locked env db).
Proof.
  intros (Es & Em & _) [Hh _] Hr Hfull. pose proof (victim_spec env db (hw_ok _ _ _ Hh)) as V.
  destruct (oldest_evictable_index_locked env db) as [i|]; [by exists i|]. exfalso. rewrite Es in V.
  assert (Hc : (length (entries db) <= prot (entries db) + 1)%nat).
  { pose proof (hw_nodup _ _ _ Hh) as Hnd. clear Hh Hfull Em. unfold prot. induction (entries db) as [|e l IH]; cbn; [lia|].
    rewrite nums_cons in Hnd. apply NoDup_cons in Hnd as [Hnot Hnd].
    destruct (protected e) eqn:Hp; cbn.
    { assert (length l <= length (List.filter protected l) + 1)%nat; [|lia]. apply IH; [|done]. intros x Hx. apply V. by right. }
    assert (Hself : ni_num (en_node e) = self).
    { specialize (V e ltac:(left)). unfold evictable in V. rewrite Hp in V. apply andb_false_iff in V as [V|V]; [|done].
      by apply negb_false_iff, Z.eqb_eq in V. }
    assert (Hall : forall x, x ∈ l -> protected x = true).
    { intros x Hx. specialize (V x ltac:(by right)). unfold evictable in V. apply andb_false_iff in V as [V|V]; [|by apply negb_false_iff].
      apply negb_false_iff, Z.eqb_eq in V. exfalso. apply Hnot. rewrite Hself, <- V. unfold nums. by apply (list_elem_of_fmap_2' (fun e => ni_num (en_node e)) _ x). }
    assert (length (List.filter protected l) = length l); [|lia]. clear -Hall. induction l as [|x l IH]; cbn; [done|].
    rewrite Hall by left. cbn. f_equal. apply IH. intros y Hy. apply Hall. by right. }
  pose proof (hw_prot _ _ _ Hh). unfold NODEDB_PROTECTED_RESERVE in *. lia.
Qed.

End Preservation.

(** ** What a packet does to the records *)

(** A full key is only ever confirmed. *)
Lemma user_keeps_full_key env n u :
  full_key (ni_public_key n) = true -> user_verdict_of env n u = UserTaken ->
  ni_public_key (user_record n u).1.1 = ni_public_key n.
Proof.
  intros Hf Hv. destruct (user_fields n u) as (_ & _ & _ & -> & _). rewrite Hf. cbn [negb]. rewrite orb_false_r.
  unfold user_verdict_of in Hv. rewrite Hf in Hv. destruct (full_key (take _ _)) eqn:E; [|done]. cbn [andb] in Hv.
  destruct (bool_decide_reflect (ni_public_key n <> take MESHTASTIC_NODEDB_PUBLIC_KEY_MAX_LEN (us_public_key u))) as [H|H]; [done|].
  by destruct (decide (ni_public_key n = take MESHTASTIC_NODEDB_PUBLIC_KEY_MAX_LEN (us_public_key u))).
Qed.

(** How the sender's record is changed. *)
Record heard_as (now : Z) (e e' : nodedb_entry) : Prop := {
  ha_num : ni_num (en_node e') = ni_num (en_node e);
  ha_heard : ni_last_heard (en_node e') = now;
  ha_prot : protected e' = protected e;
  ha_key : full_key (ni_public_key (en_node e)) = true -> ni_public_key (en_node e') = ni_public_key (en_node e);
}.

Definition packet_from (packet : option packet) (mesh : option mesh_packet) : Z :=
  dual mesh (default packet_zero packet) m_from p_from.

Lemma on_packet_records env packet h mesh db i db1 out :
  (packet <> None \/ mesh <> None) -> packet_from packet mesh <> 0 -> packet_from packet mesh <> nd_self env ->
  get_or_create_entry_locked env (packet_from packet mesh) db = (Some i, db1, out) ->
  exists e e', entries db1 !! i = Some e /\ ni_num (en_node e) = packet_from packet mesh /\
    entries (meshtastic_module_nodedb_on_packet env packet h mesh db).1 = <[i := e']> (entries db1) /\
    heard_as (uptime_seconds env) e e'.
Proof.
  intros Hsome H0 Hs G. unfold packet_from in *.
  assert (He : exists e, entries db1 !! i = Some e /\ ni_num (en_node e) = dual mesh (default packet_zero packet) m_from p_from).
  { pose proof (get_or_create_cases env (dual mesh (default packet_zero packet) m_from p_from) db) as A. rewrite G in A.
    destruct (admission_slot _ _ _ _ _ A) as (e & ? & ? & _). eauto. }
  destruct He as (e & He & Hn). unfold meshtastic_module_nodedb_on_packet.
  assert (bool_decide (packet = None) && bool_decide (mesh = None) = false) as -> by (destruct packet, mesh; naive_solver). cbv zeta.
  rewrite (proj2 (Z.eqb_neq _ _) H0), (proj2 (Z.eqb_neq _ _) Hs). cbn [orb]. rewrite G.
  set (e1 := apply_basic_packet (default packet_zero packet) h mesh (uptime_seconds env) e).
  set (db2 := set_nodedb_dirty true _). assert (E2 : entries db2 = <[i := e1]> (entries db1)) by (unfold db2; cbn; by rewrite (alter_insert_lookup _ _ _ _ He)).
  pose proof (lookup_lt_Some _ _ _ He) as Hlt.
  assert (H2 : entries db2 !! i = Some e1) by (rewrite E2; by apply list_lookup_insert_eq). clearbody db2.
  set (usr := if _ =? MESHTASTIC_PORT_NODEINFO then decode_user_payload _ _ else None).
  destruct (basic_fields (default packet_zero packet) h mesh (uptime_seconds env) e) as (B1 & B2 & B3 & B4). fold e1 in B1, B2, B3, B4.
  assert (H3 : exists e2, entries (match usr with Some u => apply_user env i u db2 | None => (db2, []) end).1 = <[i := e2]> (entries db1) /\
                 heard_as (uptime_seconds env) e e2).
  { destruct usr as [u|].
    - rewrite (apply_user_entries env i u db2 e1 H2). rewrite E2. destruct (user_verdict_of env (en_node e1) u) eqn:Ev.
      + exists (set_en_node (user_record (en_node e1) u).1.1 e1). rewrite list_insert_insert_eq. split; [done|].
        destruct (user_fields (en_node e1) u) as (U1 & U2 & U3 & _). split; cbn [en_node set_en_node]; unfold protected; cbn [en_node set_en_node].
        * congruence.
        * congruence.
        * rewrite U3. exact B4.
        * intros Hf. rewrite <- B3 in Hf. rewrite (user_keeps_full_key env _ u Hf Ev). exact B3.
      + exists e1. split; [done|]. split; [done | done | exact B4 | by rewrite B3].
      + exists e1. split; [done|]. split; [done | done | exact B4 | by rewrite B3].
    - exists e1. split; [done|]. split; [done | done | exact B4 | by rewrite B3]. }
  destruct (match usr with Some u => _ | None => _ end) as [db3 out2]. cbn [fst] in H3. destruct H3 as (e2 & E3 & A2).
  set (pos := if _ =? MESHTASTIC_PORT_NODEINFO then None else _). set (db4 := match pos with Some q => _ | None => _ end).
  assert (H4 : exists e3, entries db4 = <[i := e3]> (entries db1) /\ heard_as (uptime_seconds env) e e3).
  { unfold db4. destruct pos as [[[pm lat] lon]|]; [|by exists e2]. cbn [entries set_entries]. rewrite E3.
    rewrite (alter_insert_lookup _ _ _ e2) by (by apply list_lookup_insert_eq). rewrite list_insert_insert_eq.
    eexists. split; [done|]. destruct A2. by split. }
  destruct H4 as (e3 & E4 & A4). exists e, e3. split; [done|]. split; [done|]. split; [|done].
  unfold own_key_alert_take_locked. destruct (al_pending db4); exact E4.
Qed.

(** Records that are not the victim stay. *)
Lemma admission_keeps env num db r db' e self max :
  hot_wf self max (entries db) -> nd_self env = self -> admission env num db r db' -> e ∈ entries db ->
  evictable self e = false -> e ∈ entries db'.
Proof.
  intros Hwf Hs A He Hev. destruct A as [Hz|Hn Hout Hfull Ho|i x Hn Hx Hnum Hf|Hn Hout Hroom|i x Hn Hout Hfull Ho Hx db1]; try done.
  - cbn [entries set_entries]. apply elem_of_app. by left.
  - cbn [entries set_entries]. apply list_elem_of_lookup in He as [k Hk]. destruct (decide (k = i)) as [->|Hne].
    + rewrite Hx in Hk. injection Hk as ->. pose proof (victim_in self max env db i e Hwf Hs Ho Hx). congruence.
    + apply (list_elem_of_lookup_2 _ k). by rewrite list_lookup_insert_ne by done.
Qed.

Lemma protected_not_evictable self e : protected e = true -> evictable self e = false.
Proof. intros H. unfold evictable. rewrite H. apply andb_false_r. Qed.

Lemma packet_keeps_protected self max ring env packet h mesh db x e :
  env_ok self max env -> nd_wf self max ring db -> entry_of x db = Some e ->
  protected e = true -> full_key (ni_public_key (en_node e)) = true ->
  exists e', entry_of x (meshtastic_module_nodedb_on_packet env packet h mesh db).1 = Some e' /\
    protected e' = true /\ ni_public_key (en_node e') = ni_public_key (en_node e).
Proof.
  intros Henv Hwf He Hp Hk. pose proof Henv as (Es & Em & Hu).
  pose proof (on_packet_wf self max ring env packet h mesh db Henv Hwf) as Hwf'.
  apply (entry_of_Some x db e (hw_nodup _ _ _ (nw_hot _ _ _ _ Hwf))) in He as [Hin Hnum].
  assert (Goal1 : exists e', e' ∈ entries (meshtastic_module_nodedb_on_packet env packet h mesh db).1 /\ ni_num (en_node e') = x /\
            protected e' = true /\ ni_public_key (en_node e') = ni_public_key (en_node e)).
  2: { destruct Goal1 as (e' & H1 & H2 & H3). exists e'. split; [|done]. by apply (entry_of_Some x _ e' (hw_nodup _ _ _ (nw_hot _ _ _ _ Hwf'))). }
  destruct (decide (packet = None /\ mesh = None)) as [[-> ->]|Hsome]; [by exists e|].
  destruct (decide (packet_from packet mesh = 0 \/ packet_from packet mesh = nd_self env)) as [Hz|Hz].
  { exists e. unfold meshtastic_module_nodedb_on_packet. destruct (_ && _); [done|]. cbv zeta.
    assert ((dual mesh (default packet_zero packet) m_from p_from =? 0) || (dual mesh (default packet_zero packet) m_from p_from =? nd_self env) = true) as ->; [|done].
    unfold packet_from in Hz. destruct Hz as [-> | ->]; [done|]. rewrite Z.eqb_refl. apply orb_true_r. }
  pose proof (get_or_create_cases env (packet_from packet mesh) db) as A.
  destruct (get_or_create_entry_locked env (packet_from packet mesh) db) as [[[i|] db1] out] eqn:G.
  - pose proof (admission_keeps env _ db _ db1 e self max (nw_hot _ _ _ _ Hwf) Es A Hin (protected_not_evictable _ _ Hp)) as Hin1.
    destruct (on_packet_records env packet h mesh db i db1 out) as (y & y' & Hy & Hyn & E & [Y1 Y2 Y3 Y4]); [destruct packet, mesh; naive_solver | tauto | tauto | done|].
    apply list_elem_of_lookup in Hin1 as [k Hk1]. destruct (decide (k = i)) as [->|Hne].
    + rewrite Hy in Hk1. injection Hk1 as ->. exists y'. rewrite E. split; [apply (list_elem_of_lookup_2 _ i), list_lookup_insert_eq; by eapply lookup_lt_Some|].
      split; [congruence|]. split; [congruence | by apply Y4].
    + exists e. rewrite E. split; [|done]. apply (list_elem_of_lookup_2 _ k). by rewrite list_lookup_insert_ne.
  - exists e. unfold meshtastic_module_nodedb_on_packet. destruct (_ && _); [done|]. cbv zeta. destruct (_ || _); [done|].
    unfold packet_from in G. rewrite G. split; [|done]. cbn [fst]. by inversion A; subst.
Qed.

(** ** Properties *)

Definition from_init (qsort : (nodedb_entry -> nodedb_entry -> Z) -> list nodedb_entry -> list nodedb_entry)
    (ring : nat) (env0 : nd_env) (me : user) (warm : list warm_key) (recs : list (Z * node_info)) (evs : list nd_event) : nodedb :=
  foldl (nd_step qsort) (meshtastic_nodedb_init env0 me (restore_stores env0 warm recs) (nodedb_zero ring)).1.1 evs.

Lemma empty_stores_ok max ring : (0 < ring)%nat -> stores_ok max ring (replicate ring warm_zero) [].
Proof. intros Hr. split; [by apply replicate_warm_wf|]. split; [by apply Forall_nil_2 | cbn; lia]. Qed.
Lemma from_init_wf self max ring qsort env0 me warm recs evs :
  self <> 0 -> (1 <= max)%nat -> (0 < ring)%nat -> (forall cmp l, qsort cmp l ≡ₚ l) -> env_ok self max env0 ->
  stores_ok max ring warm recs -> Forall (nd_event_ok self max) evs ->
  nd_wf self max ring (from_init qsort ring env0 me warm recs evs).
Proof. intros H1 H2 H3 H4 H5 H6 H7. apply nd_run_wf; [done | done | by apply init_wf]. Qed.

(** C25: The node database always learns a new peer. With room for three nodes or more, from a
    boot that puts any stored keys and records back, of which the favourites and the
    blocked nodes leave two places of the table, and after any sequence of packets,
    contacts, favourites, blocks, keys, removals and resets, a packet from any other node
    leaves a record of it that says it was heard now: blocked and favourite nodes never
    fill the table, the node itself is always in it, the table never holds two records of a
    node nor more than its size. *)
Theorem new_peer_always_learned self max ring qsort env0 me warm recs evs env packet heard_on mesh :
  self <> 0 -> (NODEDB_PROTECTED_RESERVE < max)%nat -> (0 < ring)%nat -> (forall cmp l, qsort cmp l ≡ₚ l) ->
  env_ok self max env0 -> stores_ok max ring warm recs -> Forall (nd_event_ok self max) evs -> env_ok self max env ->
  packet <> None \/ mesh <> None -> packet_from packet mesh <> 0 -> packet_from packet mesh <> self ->
  let db := (meshtastic_module_nodedb_on_packet env packet heard_on mesh (from_init qsort ring env0 me warm recs evs)).1 in
  (exists e, entry_of (packet_from packet mesh) db = Some e /\ ni_last_heard (en_node e) = uptime_seconds env) /\
  is_Some (entry_of self db) /\ NoDup (nums (entries db)) /\ (length (entries db) <= max)%nat.
Proof.
  intros Hs Hm Hr Hq H0 Hst Hevs Henv Hp Hz Hself.
  pose proof (from_init_wf self max ring qsort env0 me warm recs evs Hs ltac:(lia) Hr Hq H0 Hst Hevs) as Hwf.
  set (db0 := from_init qsort ring env0 me warm recs evs) in *. clearbody db0.
  pose proof (on_packet_wf self max ring env packet heard_on mesh db0 Henv Hwf) as Hwf'. cbv zeta.
  pose proof Henv as (Es & Em & Hu). pose proof (nw_hot _ _ _ _ Hwf') as Hh. pose proof (hw_nodup _ _ _ Hh) as Hnd.
  split; [|split; [|split; [done | apply Hh]]].
  - pose proof (get_or_create_cases env (packet_from packet mesh) db0) as A.
    destruct (get_or_create_entry_locked env (packet_from packet mesh) db0) as [[[i|] db1] out] eqn:G.
    + destruct (on_packet_records env packet heard_on mesh db0 i db1 out Hp Hz ltac:(congruence) G) as (y & y' & Hy & Hyn & E & [Y1 Y2 _ _]).
      exists y'. split; [|done]. apply (entry_of_Some _ _ y' Hnd). rewrite E.
      split; [apply (list_elem_of_lookup_2 _ i), list_lookup_insert_eq; by eapply lookup_lt_Some | congruence].
    + exfalso. inversion A; subst; [done|]. destruct (victim_exists (nd_self env) (nd_max_nodes env) ring env db1 Henv Hwf Hm) as [j Hj]; [done | congruence].
  - pose proof (hw_self _ _ _ Hh) as Hin. unfold nums in Hin. apply list_elem_of_fmap in Hin as (e & Hn & Hin).
    exists e. by apply (entry_of_Some self _ e Hnd).
Qed.

(** ** A pinned key *)

Definition pinned (x : Z) (key : list Z) (db : nodedb) : Prop :=
  exists e, e ∈ entries db /\ ni_num (en_node e) = x /\ protected e = true /\ ni_public_key (en_node e) = key.

Lemma pinned_entry self max ring x key db : nd_wf self max ring db ->
  pinned x key db <-> exists e, entry_of x db = Some e /\ protected e = true /\ ni_public_key (en_node e) = key.
Proof.
  intros Hwf. pose proof (hw_nodup _ _ _ (nw_hot _ _ _ _ Hwf)) as Hnd. split.
  - intros (e & Hin & Hn & H1). exists e. split; [by apply (entry_of_Some x db e Hnd) | done].
  - intros (e & He & H1). apply (entry_of_Some x db e Hnd) in He as [Hin Hn]. by exists e.
Qed.
Lemma on_node_pinned x key i f db : pinned x key db ->
  (forall e, entries db !! i = Some e -> ni_num (en_node e) = x -> let n := f (en_node e) in
     ni_num n = x /\ node_is_protected n = node_is_protected (en_node e) /\ ni_public_key n = ni_public_key (en_node e)) ->
  pinned x key (on_node i f db).
Proof.
  intros (e & Hin & Hn & Hp & Hk) Hf. apply list_elem_of_lookup in Hin as [j Hj]. destruct (decide (i = j)) as [->|Hne].
  - destruct (Hf e Hj Hn) as (F1 & F2 & F3). exists (set_en_node (f (en_node e)) e).
    split; [apply (list_elem_of_lookup_2 _ j); unfold on_node; cbn [entries set_entries]; by rewrite list_lookup_alter_eq, Hj|].
    split; [done|]. split; [unfold protected; cbn [en_node set_en_node]; by rewrite F2 | by cbn; rewrite F3].
  - exists e. split; [|done]. apply (list_elem_of_lookup_2 _ j). unfold on_node. cbn [entries set_entries]. by rewrite list_lookup_alter_ne.
Qed.
Lemma admission_pinned self max ring env num db r db' x key : env_ok self max env -> nd_wf self max ring db ->
  admission env num db r db' -> pinned x key db -> pinned x key db'.
Proof.
  intros (Es & _) Hwf A (e & Hin & Hn & Hp & Hk). destruct r as [i|].
  - exists e. split; [|done]. by apply (admission_keeps env num db _ db' e self max (nw_hot _ _ _ _ Hwf) Es A Hin (protected_not_evictable _ _ Hp)).
  - exists e. inversion A; subst; done.
Qed.

(** What a frame from the air can set off: the database's own handler, a signature that was
    checked, a key committed for another node; and the sorting of the table in between. *)
Definition from_air (x : Z) (ev : nd_event) : bool :=
  match ev with
  | NdPacket _ _ _ _ | NdSigner _ _ | NdReadIndex _ _ => true
  | NdCommitKey _ num _ _ => negb (num =? x)
  | _ => false
  end.

Lemma commit_pinned self max ring env num k create db x key : env_ok self max env -> nd_wf self max ring db -> num <> x ->
  pinned x key db -> pinned x key (commit_pubkey env num k create db).1.1.
Proof.
  intros He Hwf Hne Hp. unfold commit_pubkey. destruct (_ && _); [done|].
  assert (exists r db1 out, (if create then get_or_create_entry_locked env num db else (find_entry_locked num db, db, [])) = (r, db1, out) /\
    pinned x key db1 /\ forall i e, r = Some i -> entries db1 !! i = Some e -> ni_num (en_node e) = num) as (r & db1 & out & -> & Hp1 & Hi).
  { destruct create.
    - pose proof (get_or_create_cases env num db) as A. destruct (get_or_create_entry_locked env num db) as [[r db1] out].
      exists r, db1, out. split; [done|]. split; [by eapply admission_pinned|]. intros i e -> Hl.
      destruct (admission_slot _ _ _ _ _ A) as (e' & Hl' & Hn & _). congruence.
    - exists (find_entry_locked num db), db, []. split; [done|]. split; [done|]. intros i e Hf Hl.
      destruct (find_entry_Some _ _ _ Hf) as (e' & Hl' & Hn). congruence. }
  destruct r as [i|]; [|done].
  assert (pinned x key (on_node i (set_ni_public_key k) db1)) as H2.
  { apply on_node_pinned; [done|]. intros e Hl Hn. exfalso. apply Hne. rewrite <- (Hi i e eq_refl Hl). done. }
  destruct (num =? nd_self env); [exact H2|]. cbv zeta. cbn [fst]. destruct H2 as (e & Hin & H2). exists e. split; [|done].
  cbn [entries set_mtrec_reconcile]. unfold warm_upsert_locked. by rewrite (proj1 (warm_place_frame _ _ _ _ _ _)).
Qed.
Lemma signer_pinned self max ring env num db x key : env_ok self max env -> nd_wf self max ring db ->
  pinned x key db -> pinned x key (meshtastic_nodedb_note_xeddsa_signer env num db).1.
Proof.
  intros He Hwf Hp. unfold meshtastic_nodedb_note_xeddsa_signer. destruct (_ || _); [done|].
  pose proof (get_or_create_cases env num db) as A. destruct (get_or_create_entry_locked env num db) as [[r db1] out].
  pose proof (admission_pinned self max ring env num db r db1 x key He Hwf A Hp) as Hp1.
  set (db2 := match r with Some i => _ | None => _ end).
  assert (pinned x key db2) as Hp2.
  { unfold db2. destruct r as [i|]; [|done]. apply on_node_pinned; [done|]. intros e _ Hn. cbv zeta. split; [done|].
    split; [by apply protected_write | done]. }
  clearbody db2. unfold warm_set_known_signer_locked. repeat case_match; simplify_eq; try done.
Qed.
Lemma air_step_pinned self max ring qsort db x key ev : (forall cmp l, qsort cmp l ≡ₚ l) -> nd_wf self max ring db ->
  nd_event_ok self max ev -> from_air x ev = true -> full_key key = true -> pinned x key db -> pinned x key (nd_step qsort db ev).
Proof.
  intros Hq Hwf [He _] Ha Hf Hp. destruct ev; try discriminate; cbn [nd_event_env nd_step] in *.
  - pose proof Hp as (e & Hent & Hpr & Hk)%(pinned_entry self max ring x key db Hwf). subst key.
    destruct (packet_keeps_protected self max ring env packet heard_on mesh db x e He Hwf Hent Hpr Hf) as (e' & He' & Hp' & Hk').
    apply (pinned_entry self max ring); [by apply on_packet_wf|]. eauto.
  - cbn in Ha. apply negb_true_iff, Z.eqb_neq in Ha. by eapply commit_pinned.
  - by eapply signer_pinned.
  - destruct Hp as (e & Hin & Hp). exists e. split; [|done]. unfold meshtastic_nodedb_get_by_index, nodedb_maybe_sort_locked. cbv zeta. cbn [fst].
    destruct (negb _); [done|]. destruct (_ && _); [done|]. cbn [entries set_nodedb_dirty set_nodedb_last_sort_ms set_entries]. by rewrite Hq.
Qed.

(** C33: A protected peer's key cannot be taken over from the air. Whatever packets reach the node
    database, in any number and from anyone, whatever signatures are seen and whatever keys
    are committed for other nodes, a favourite or blocked node whose 32-byte key is known
    stays in the table, stays protected and keeps that key: no NodeInfo replaces it and no
    flood of new nodes evicts it. The one frame that may replace it is not among these: one
    from that very node, opened with a configured admin key, commits that key for it. *)
Theorem protected_key_is_pinned self max ring qsort db x e evs :
  self <> 0 -> (forall cmp l, qsort cmp l ≡ₚ l) -> nd_wf self max ring db ->
  Forall (fun ev => nd_event_ok self max ev /\ from_air x ev = true) evs ->
  entry_of x db = Some e -> node_is_protected (en_node e) = true -> full_key (ni_public_key (en_node e)) = true ->
  let db' := foldl (nd_step qsort) db evs in
  exists e', entry_of x db' = Some e' /\ node_is_protected (en_node e') = true /\
    ni_public_key (en_node e') = ni_public_key (en_node e).
Proof.
  intros Hs Hq Hwf Hok He Hp Hk. cbv zeta. assert (pinned x (ni_public_key (en_node e)) db) as Hpin.
  { apply (pinned_entry self max ring); [done|]. by exists e. }
  clear He Hp. revert db Hwf Hpin. induction evs as [|ev evs IH]; intros db Hwf Hpin.
  - by apply (pinned_entry self max ring) in Hpin.
  - apply Forall_cons in Hok as [[H1 H2] Hok]. cbn [foldl].
    apply IH; [done | by apply nd_step_wf | by eapply air_step_pinned].
Qed.

(** ** Keys across an eviction *)

Lemma copy_pubkey_hot num db e :
  entry_of num db = Some e -> full_key (ni_public_key (en_node e)) = true ->
  meshtastic_nodedb_copy_pubkey num db = Val (ni_public_key (en_node e)).
Proof. intros He Hf. unfold meshtastic_nodedb_copy_pubkey. by rewrite He, Hf. Qed.

Lemma copy_pubkey_warm num db w :
  (forall e, entry_of num db = Some e -> full_key (ni_public_key (en_node e)) = false) -> warm_of num db = Some w ->
  meshtastic_nodedb_copy_pubkey num db = Val (wk_pub w).
Proof.
  intros He Hw. unfold meshtastic_nodedb_copy_pubkey, warm_copy_key_locked. rewrite Hw.
  destruct (entry_of num db) as [e|]; [|done]. by rewrite (He e eq_refl).
Qed.

Lemma copy_pubkey_inv num db k :
  meshtastic_nodedb_copy_pubkey num db = Val k ->
  (exists e, entry_of num db = Some e /\ full_key (ni_public_key (en_node e)) = true /\ k = ni_public_key (en_node e)) \/
  ((forall e, entry_of num db = Some e -> full_key (ni_public_key (en_node e)) = false) /\
   exists w, warm_of num db = Some w /\ k = wk_pub w).
Proof.
  unfold meshtastic_nodedb_copy_pubkey, warm_copy_key_locked. destruct (entry_of num db) as [e|].
  - destruct (full_key (ni_public_key (en_node e))) eqn:Ef; [intros [= <-]; left; eauto|].
    destruct (warm_of num db) as [w|]; [|done]. intros [= <-]. right. split; [by intros e' [= <-] | eauto].
  - destruct (warm_of num db) as [w|]; [|done]. intros [= <-]. right. split; [done | eauto].
Qed.

Lemma entry_num num db e : entry_of num db = Some e -> ni_num (en_node e) = num.
Proof. intros (i & Hf & Hi)%bind_Some. destruct (find_entry_Some _ _ _ Hf) as (e' & He' & Hn). congruence. Qed.

Lemma warm_insert_other ring db db' j w0 w x :
  warm_wf ring (warm_keys db) -> warm_wf ring (warm_keys db') -> warm_keys db !! j = Some w0 ->
  warm_keys db' = <[j := w]> (warm_keys db) -> x <> 0 -> wk_num w0 <> x -> wk_num w <> x ->
  forall y, warm_of x db = Some y -> warm_of x db' = Some y.
Proof.
  intros W W' Hj E Hx H0 Hw y Hy. apply (warm_of_Some ring x db y W Hx) in Hy as [Hin Hn].
  apply (warm_of_Some ring x db' y W' Hx). split; [|done]. rewrite E. apply list_elem_of_lookup in Hin as [i Hi].
  apply (list_elem_of_lookup_2 _ i). rewrite list_lookup_insert_ne; [done|]. intros ->. congruence.
Qed.

Lemma is_hot_entry db w : is_hot db w <-> is_Some (entry_of (wk_num w) db).
Proof.
  unfold is_hot, entry_of. destruct (find_entry_locked (wk_num w) db) as [i|] eqn:E; cbn; [|by split; intros [? ?]].
  destruct (find_entry_Some _ _ _ E) as (e & -> & _). split; eauto.
Qed.

(** An evicted record's effect on the ring. *)
Lemma absorb_keeps self max ring env db i e x w :
  env_ok self max env -> nd_wf self max ring db -> entries db !! i = Some e -> evictable self e = true -> x <> 0 ->
  (exists w, w ∈ warm_keys db /\ (wk_num w = 0 \/ is_hot db w)) -> ni_num (en_node e) <> x -> find_entry_locked x db = None ->
  warm_of x db = Some w -> warm_of x (warm_absorb_locked env e db).1 = Some w.
Proof.
  intros Henv Hwf He Hev Hx Hroom Hne Hcold Hw. pose proof (warm_absorb_wf self max ring env e db Hwf) as Ha.
  unfold warm_absorb_locked in *. destruct (_ || _) eqn:Eg; [done|]. cbv zeta in Ha |- *. cbn [fst] in Ha |- *.
  apply orb_false_iff in Eg as [Eg Ek]. apply orb_false_iff in Eg as [Ez _]. apply Z.eqb_neq in Ez. apply negb_false_iff, Nat.eqb_eq in Ek.
  match goal with |- warm_of x (warm_place_locked ?n ?p ?r ?s ?t _) = _ =>
    destruct (warm_place_spec ring n p r s t db (nw_warm _ _ _ _ Hwf) Ez Ek) as (j & w0 & _ & Hj & E & W' & Hs) end.
  apply (warm_insert_other ring db _ j w0 _ x (nw_warm _ _ _ _ Hwf) W' Hj E Hx); [|done|done].
  intros E0. destruct Hs as [Hs|[_ [Hs|[Hs|Hs]]]]; [congruence | congruence | |].
  - unfold is_hot in Hs. rewrite E0, Hcold in Hs. by destruct Hs.
  - destruct Hroom as (w1 & Hin & H1). destruct (Hs w1 Hin). tauto.
Qed.

(** After an eviction the victim is gone, the new node is there, the others stay. *)
Section Evicted.
Context (self : Z) (max ring : nat) (env : nd_env) (num : Z) (db : nodedb) (i : nat) (e : nodedb_entry) (db1 : nodedb).
Hypothesis (Henv : env_ok self max env) (Hwf : nd_wf self max ring db).
Hypothesis (Hn : num <> 0) (He : entries db !! i = Some e) (Hev : evictable self e = true).
Let db' : nodedb := set_entries (<[i := fresh_entry num db1]> (entries db)) db1.
Hypothesis (Hwf' : nd_wf self max ring db').

Lemma evicted_stay x e1 : entry_of x db = Some e1 -> e1 <> e -> entry_of x db' = Some e1.
Proof.
  intros H1 Hne. apply (entry_of_Some x db e1 (hw_nodup _ _ _ (nw_hot _ _ _ _ Hwf))) in H1 as [H1 H2].
  apply (entry_of_Some x db' e1 (hw_nodup _ _ _ (nw_hot _ _ _ _ Hwf'))). split; [|done].
  unfold db'. cbn [entries set_entries]. apply list_elem_of_lookup in H1 as [k Hk].
  apply (list_elem_of_lookup_2 _ k). rewrite list_lookup_insert_ne; [done|]. intros ->. congruence.
Qed.

Lemma evicted_now x e1 :
  entry_of x db' = Some e1 -> ni_public_key (en_node e1) = [] \/ (entry_of x db = Some e1 /\ ni_num (en_node e1) <> ni_num (en_node e)).
Proof.
  intros H1. pose proof (hw_nodup _ _ _ (nw_hot _ _ _ _ Hwf)) as Hnd.
  apply (entry_of_Some x db' e1 (hw_nodup _ _ _ (nw_hot _ _ _ _ Hwf'))) in H1 as [H1 H2]. unfold db' in H1. cbn [entries set_entries] in H1.
  apply list_elem_of_lookup in H1 as [k Hk]. destruct (decide (k = i)) as [->|Hne].
  - left. rewrite list_lookup_insert_eq in Hk by (by eapply lookup_lt_Some). injection Hk as <-. apply fresh_ok.
  - right. rewrite list_lookup_insert_ne in Hk by done.
    split; [by apply (entry_of_Some x db e1 Hnd); split; [eapply list_elem_of_lookup_2|]|].
    intros Heq. apply Hne, (NoDup_lookup (nums (entries db)) k i (ni_num (en_node e)) Hnd); unfold nums; rewrite list_lookup_fmap;
      [by rewrite Hk; cbn; rewrite Heq | by rewrite He].
Qed.

Lemma evicted_list e0 : e0 ∈ entries db -> e0 = e \/ e0 ∈ entries db'.
Proof.
  intros [k Hk]%list_elem_of_lookup. destruct (decide (k = i)) as [->|Hne]; [left; congruence|]. right.
  apply (list_elem_of_lookup_2 _ k). unfold db'. cbn [entries set_entries]. by rewrite list_lookup_insert_ne.
Qed.
End Evicted.

(** The victim's key goes to the ring. *)
Lemma absorb_stores self max ring env db e :
  env_ok self max env -> nd_wf self max ring db -> evictable self e = true -> ni_num (en_node e) <> 0 ->
  full_key (ni_public_key (en_node e)) = true ->
  exists w, warm_of (ni_num (en_node e)) (warm_absorb_locked env e db).1 = Some w /\ wk_pub w = ni_public_key (en_node e).
Proof.
  intros (Es & _ & _) Hwf Hev Hx Hf. unfold warm_absorb_locked.
  assert (Hns : ni_num (en_node e) <> self) by (unfold evictable in Hev; apply andb_true_iff in Hev as [Hev _]; by apply negb_true_iff, Z.eqb_neq in Hev).
  rewrite Es, (proj2 (Z.eqb_neq _ _) Hns), (proj2 (Z.eqb_neq _ _) Hx). cbn [orb]. unfold full_key in Hf. rewrite Hf. cbn [negb]. cbv zeta. cbn [fst].
  apply Nat.eqb_eq in Hf.
  match goal with |- context [warm_place_locked ?n ?p ?r ?s ?t _] =>
    destruct (warm_place_spec ring n p r s t db (nw_warm _ _ _ _ Hwf) Hx Hf) as (j & w0 & _ & Hj & E & W' & _) end.
  match type of E with _ = <[_ := ?w]> _ => exists w end. split; [|done].
  apply (warm_of_Some ring _ _ _ W' Hx). split; [|done]. rewrite E. apply (list_elem_of_lookup_2 _ j), list_lookup_insert_eq. by eapply lookup_lt_Some.
Qed.

(** Evicting a node loses no key. When a new node needs a place, the node that makes room
    is the oldest one without a key, else the oldest with one, else the oldest verified
    by hand, never the node itself nor a protected one; and as long as the warm ring has
    a free slot or one whose node is in the table with its key, every key that could be
    read before can be read after, the evicted node's included. *)
Theorem eviction_keeps_keys self max ring env num db r db' out :
  env_ok self max env -> nd_wf self max ring db -> get_or_create_entry_locked env num db = (r, db', out) ->
  (exists w, w ∈ warm_keys db /\ (wk_num w = 0 \/ is_Some (entry_of (wk_num w) db))) ->
  (forall w e, w ∈ warm_keys db -> wk_num w <> 0 -> entry_of (wk_num w) db = Some e ->
     full_key (ni_public_key (en_node e)) = true) ->
  (forall x k, x <> 0 -> meshtastic_nodedb_copy_pubkey x db = Val k -> meshtastic_nodedb_copy_pubkey x db' = Val k) /\
  (forall e, e ∈ entries db -> e ∈ entries db' \/
     (evictable self e = true /\ forall e', e' ∈ entries db -> evictable self e' = true ->
        (tier e < tier e')%nat \/ (tier e = tier e' /\ heard e <= heard e'))).
Proof.
  intros Henv Hwf G Hroom Hred. pose proof (get_or_create_cases env num db) as A. rewrite G in A. pose proof Henv as (Es & _ & _).
  pose proof (nw_hot _ _ _ _ Hwf) as Hh. pose proof (hw_nodup _ _ _ Hh) as Hnd. pose proof (admission_wf self max ring env num db r db' Henv Hwf A) as Hwf'.
  pose proof (hw_nodup _ _ _ (nw_hot _ _ _ _ Hwf')) as Hnd'.
  destruct A as [Hz|Hn Hout Hfull Ho|i e Hn He Hnum Hf|Hn Hout Hroom'|i e Hn Hout Hfull Ho He db1]; try (split; [done|]; intros e0 He0; by left).
  - split; [|intros e0 He0; left; cbn [entries set_entries]; apply elem_of_app; by left]. intros x k Hx Hc.
    destruct (copy_pubkey_inv x db k Hc) as [(e & He & Hf & ->)|[Hnf (w & Hw & ->)]].
    + apply copy_pubkey_hot; [|done]. apply (entry_of_Some x _ e Hnd'). apply (entry_of_Some x db e Hnd) in He as [He1 He2].
      split; [|done]. cbn [entries set_entries]. apply elem_of_app. by left.
    + apply copy_pubkey_warm; [|done]. intros e He. apply (entry_of_Some x _ e Hnd') in He as [He1 He2]. cbn [entries set_entries] in He1.
      apply elem_of_app in He1 as [He1|He1%list_elem_of_singleton]; [apply Hnf; by apply (entry_of_Some x db e Hnd)|].
      subst e. destruct (fresh_ok num db) as (_ & -> & _). done.
  - pose proof (victim_spec env db (hw_ok _ _ _ Hh)) as V. rewrite Ho in V. destruct V as (e0 & He0 & Hev & Hmin).
    rewrite He in He0. injection He0 as <-. rewrite Es in Hev, Hmin. split.
    2: { intros e0 He0. destruct (evicted_list num db i e db1 He e0 He0) as [->|H]; [by right | by left]. }
    intros x k Hx Hc. destruct (copy_pubkey_inv x db k Hc) as [(e1 & He1 & Hf & ->)|[Hnf (w & Hw & ->)]].
    + destruct (decide (e1 = e)) as [->|Hne]; [|by apply copy_pubkey_hot; [by apply (evicted_stay self max ring num db i e db1)|]].
      pose proof (entry_num _ _ _ He1) as Hxe. destruct (absorb_stores self max ring env db e Henv Hwf Hev ltac:(congruence) Hf) as (w & Hw & <-).
      rewrite Hxe in Hw. apply copy_pubkey_warm; [|exact Hw]. intros e1 He1'.
      destruct (evicted_now self max ring num db i e db1 Hwf He Hwf' x e1 He1') as [->|[H1 H2]]; [done|].
      apply entry_num in H1. congruence.
    + assert (Hcold : find_entry_locked x db = None).
      { destruct (find_entry_locked x db) as [m|] eqn:Em; [|done]. exfalso. destruct (find_entry_Some _ _ _ Em) as (e1 & He1 & Hn1).
        assert (entry_of x db = Some e1) as H1 by (unfold entry_of; by rewrite Em).
        apply (warm_of_Some ring x db w (nw_warm _ _ _ _ Hwf) Hx) in Hw as [Hw1 Hw2].
        specialize (Hred w e1 Hw1 ltac:(congruence) ltac:(by rewrite Hw2)). specialize (Hnf e1 H1). congruence. }
      assert (Hxe : ni_num (en_node e) <> x).
      { intros E. apply find_entry_None in Hcold. apply Hcold. unfold nums. rewrite <- E. by apply (list_elem_of_fmap_2' (fun e => ni_num (en_node e)) _ e _ (list_elem_of_lookup_2 _ _ _ He)). }
      apply copy_pubkey_warm.
      * intros e1 He1. destruct (evicted_now self max ring num db i e db1 Hwf He Hwf' x e1 He1) as [->|[H1 _]]; [done | by apply Hnf].
      * change (warm_of x (warm_absorb_locked env e db).1 = Some w).
        apply (absorb_keeps self max ring env db i e x w Henv Hwf He Hev Hx); [|done|done|done].
        destruct Hroom as (w1 & H1 & H2). exists w1. split; [done|]. by rewrite is_hot_entry.
Qed.

(** ** Concrete runs *)

(** The node 1, at a time in seconds; a NodeInfo is decoded as a name and a filler for the
    key, taken from its first byte. *)
Definition nd_sample (max : nat) (now : Z) : nd_env :=
  {| nd_self := 1; nd_uptime_ms := now * 1000; nd_epoch := 0; nd_uptime_to_epoch := fun t => t;
     nd_own_key := Some (replicate 32 99); nd_client_base := false;
     nd_decode_user := fun p => match p with
       | b :: name => Some (User name [66] 1 0 false (replicate 32 b) None) | [] => None end;
     nd_decode_position := fun _ => None; nd_max_nodes := max; nd_sort_throttle_ms := 0 |}.
Definition nodeinfo_from (num : Z) (payload : list Z) : option packet :=
  Some (set_p_payload (Some payload) (set_p_portnum MESHTASTIC_PORT_NODEINFO (set_p_from num packet_zero))).
Definition text_from (num : Z) : option packet :=
  Some (set_p_payload (Some [104; 105]) (set_p_portnum 1 (set_p_from num packet_zero))).
Definition me_user : user := User [109; 101] [109] 1 0 false [] None.
Definition no_sort (cmp : nodedb_entry -> nodedb_entry -> Z) (l : list nodedb_entry) : list nodedb_entry := l.
Definition sample_run (max ring : nat) (evs : list nd_event) : nodedb :=
  from_init no_sort ring (nd_sample max 0) me_user (replicate ring warm_zero) [] evs.
Definition hears (max : nat) (now : Z) (p : option packet) : nd_event := NdPacket (nd_sample max now) p 0 None.

(** A boot with a stored favourite. *)
Definition stored_favorite (num : Z) : Z * node_info := (num, write_bit IS_FAVORITE_BIT true (set_ni_num num node_zero)).
Definition restored_run (max ring : nat) (recs : list (Z * node_info)) (evs : list nd_event) : nodedb :=
  from_init no_sort ring (nd_sample max 0) me_user (replicate ring warm_zero) recs evs.

Lemma new_peer_always_learned_witness :
  let db := (meshtastic_module_nodedb_on_packet (nd_sample 4 9) (text_from 8) 0 None
              (restored_run 4 2 [stored_favorite 2; (3, set_ni_num 3 node_zero)]
                 [hears 4 3 (text_from 5); NdSetIgnored (nd_sample 4 4) 5 true])).1 in
  (exists e, entry_of 8 db = Some e /\ ni_last_heard (en_node e) = 9) /\
  is_Some (entry_of 1 db) /\ NoDup (nums (entries db)) /\ (length (entries db) <= 4)%nat.
Proof.
  apply (new_peer_always_learned 1 4 2 no_sort (nd_sample 4 0) me_user (replicate 2 warm_zero)
    [stored_favorite 2; (3, set_ni_num 3 node_zero)] _ (nd_sample 4 9) (text_from 8) 0 None);
    [done | vm_compute; lia | lia | done | done | | | done | by left | done | done].
  - split; [apply replicate_warm_wf; lia|]. split; [|intros _; apply Nat.leb_le; reflexivity].
    repeat (apply Forall_cons; split; [cbn; lia|]). apply Forall_nil_2.
  - repeat (apply Forall_cons; split; [done|]). apply Forall_nil_2.
Defined.

(** The condition on the stored records is needed: favourites that were stored by a build with
    a larger table fill the smaller one, and no new peer is learned. *)
Lemma shrunk_table_learns_none :
  let db0 := restored_run 3 2 [stored_favorite 2; stored_favorite 3] [] in
  let db := (meshtastic_module_nodedb_on_packet (nd_sample 3 9) (text_from 8) 0 None db0).1 in
  length (entries db0) = 3%nat /\ entry_of 8 db = None.
Proof. by vm_compute. Qed.
(** And a table of one has no reserve: the difference wraps, and the node itself may be made a
    favourite. *)
Lemma table_of_one_unreserved :
  (nodedb_set_bit (nd_sample 1 5) 1 IS_FAVORITE_BIT true (sample_run 1 2 [])).2 = OK /\
  (nodedb_set_bit (nd_sample 2 5) 1 IS_FAVORITE_BIT true (sample_run 2 2 [])).2 = ERR ENOSPC.
Proof. by vm_compute. Qed.

(** A favourite with a key, among strangers. *)
Definition pinned_db : nodedb :=
  sample_run 3 2 [hears 3 1 (nodeinfo_from 2 [22; 65]); NdSetFavorite (nd_sample 3 2) 2 true].

Lemma sample_run_wf max ring evs :
  (1 <= max)%nat -> (0 < ring)%nat -> Forall (nd_event_ok 1 max) evs -> nd_wf 1 max ring (sample_run max ring evs).
Proof. intros H1 H2 H3. apply from_init_wf; try done. by apply empty_stores_ok. Qed.

Definition air_events : list nd_event :=
  [hears 3 5 (nodeinfo_from 2 [77; 66]); hears 3 6 (text_from 4); NdSigner (nd_sample 3 6) 2;
   NdCommitKey (nd_sample 3 7) 5 (replicate 32 55) true].
Lemma protected_key_is_pinned_witness :
  exists e e', entry_of 2 pinned_db = Some e /\ entry_of 2 (foldl (nd_step no_sort) pinned_db air_events) = Some e' /\
    ni_public_key (en_node e') = ni_public_key (en_node e).
Proof.
  assert (Hwf : nd_wf 1 3 2 pinned_db).
  { apply sample_run_wf; [lia | lia|]. repeat (apply Forall_cons; split; [done|]). apply Forall_nil_2. }
  destruct (entry_of 2 pinned_db) as [e|] eqn:He; [|vm_compute in He; done]. exists e.
  destruct (protected_key_is_pinned 1 3 2 no_sort pinned_db 2 e air_events) as (e' & H1 & _ & H2).
  - done.
  - done.
  - exact Hwf.
  - repeat (apply Forall_cons; split; [done|]). apply Forall_nil_2.
  - done.
  - vm_compute in He. injection He as <-. reflexivity.
  - vm_compute in He. injection He as <-. reflexivity.
  - exists e'. split; [reflexivity|]. split; [exact H1 | exact H2].
Defined.

(** The frame that may: the key of a favourite replaced by a commit for that node. *)
Lemma admin_commit_replaces_pin :
  exists e e', entry_of 2 pinned_db = Some e /\
    entry_of 2 (meshtastic_nodedb_commit_admin_pubkey (nd_sample 3 7) 2 (replicate 32 55) pinned_db).1.1 = Some e' /\
    node_is_protected (en_node e) = true /\ ni_public_key (en_node e) = replicate 32 22 /\ ni_public_key (en_node e') = replicate 32 55.
Proof. vm_compute. do 2 eexists. repeat split. Qed.

(** A full table of keyed nodes, all of them in the ring, which has one slot to spare. *)
Definition keyed_db : nodedb :=
  sample_run 3 3 [hears 3 1 (nodeinfo_from 2 [22]); hears 3 2 (nodeinfo_from 3 [33])].

Definition evicting : option nat * nodedb * list nd_out := get_or_create_entry_locked (nd_sample 3 5) 4 keyed_db.

Lemma evicting_eq : get_or_create_entry_locked (nd_sample 3 5) 4 keyed_db = (evicting.1.1, evicting.1.2, evicting.2).
Proof. unfold evicting. by destruct (get_or_create_entry_locked (nd_sample 3 5) 4 keyed_db) as [[r db'] out]. Qed.
Lemma keyed_wf : nd_wf 1 3 3 keyed_db.
Proof. apply sample_run_wf; [lia | lia|]. repeat (apply Forall_cons; split; [done|]). apply Forall_nil_2. Qed.
Lemma keyed_ring : warm_keys keyed_db = [WarmKey 2 1 0 0 (replicate 32 22); WarmKey 3 2 0 0 (replicate 32 33); warm_zero].
Proof. vm_compute. reflexivity. Qed.
Lemma keyed_redundant w e :
  w ∈ warm_keys keyed_db -> wk_num w <> 0 -> entry_of (wk_num w) keyed_db = Some e -> full_key (ni_public_key (en_node e)) = true.
Proof.
  rewrite keyed_ring. intros Hw Hz He.
  apply elem_of_cons in Hw as [->|Hw]; [vm_compute in He; injection He as <-; vm_compute; reflexivity|].
  apply elem_of_cons in Hw as [->|Hw]; [vm_compute in He; injection He as <-; vm_compute; reflexivity|].
  apply list_elem_of_singleton in Hw as ->. by destruct Hz.
Qed.
Lemma keyed_key : meshtastic_nodedb_copy_pubkey 2 keyed_db = Val (replicate 32 22).
Proof. vm_compute. reflexivity. Qed.
Lemma evicting_drops : entry_of 2 evicting.1.2 = None.
Proof. vm_compute. reflexivity. Qed.

Lemma eviction_keeps_keys_witness :
  entry_of 2 evicting.1.2 = None /\ meshtastic_nodedb_copy_pubkey 2 evicting.1.2 = Val (replicate 32 22).
Proof.
  split; [exact evicting_drops|].
  destruct (eviction_keeps_keys 1 3 3 (nd_sample 3 5) 4 keyed_db evicting.1.1 evicting.1.2 evicting.2) as [Hk _].
  - done.
  - exact keyed_wf.
  - exact evicting_eq.
  - exists warm_zero. rewrite keyed_ring. split; [right; right; left | by left].
  - exact keyed_redundant.
  - apply Hk; [done | exact keyed_key].
Defined.

(** A readmitted node's record has no key; its copy in the ring is taken for redundant and
    overwritten, although it is the only one. *)
Definition readmitted : list nd_event :=
  [hears 4 1 (nodeinfo_from 2 [22]); hears 4 2 (nodeinfo_from 3 [33]); hears 4 3 (nodeinfo_from 4 [44]);
   hears 4 4 (nodeinfo_from 5 [55]); hears 4 5 (text_from 2); NdSetFavorite (nd_sample 4 6) 2 true].
Lemma readmitted_key_lost :
  meshtastic_nodedb_copy_pubkey 2 (sample_run 4 3 readmitted) = Val (replicate 32 22) /\
  meshtastic_nodedb_copy_pubkey 2 (sample_run 4 3 (readmitted ++ [hears 4 7 (nodeinfo_from 6 [66])])) = Fail ENOENT.
Proof. vm_compute. done. Qed.

(** The pin does not outlive the record: after an eviction a different key is taken. *)
Lemma evicted_key_replaced :
  let evs := [hears 3 1 (nodeinfo_from 2 [22]); hears 3 2 (nodeinfo_from 3 [33]); hears 3 3 (nodeinfo_from 4 [44])] in
  meshtastic_nodedb_copy_pubkey 2 (sample_run 3 3 evs) = Val (replicate 32 22) /\
  meshtastic_nodedb_copy_pubkey 2 (sample_run 3 3 (evs ++ [hears 3 4 (nodeinfo_from 2 [77])])) = Val (replicate 32 77).
Proof. vm_compute. done. Qed.

(** A new key inherits what was learned of the old one. *)
Lemma new_key_still_signer :
  let evs := [hears 3 1 (nodeinfo_from 2 [22]); NdSigner (nd_sample 3 2) 2;
              NdContact (nd_sample 3 3) 2 (User [65] [66] 1 0 false (replicate 32 77) None) false false] in
  meshtastic_nodedb_copy_pubkey 2 (sample_run 3 3 evs) = Val (replicate 32 77) /\
  meshtastic_nodedb_is_xeddsa_signer 2 (sample_run 3 3 evs) = true.
Proof. vm_compute. done. Qed.

(** A name of 25 bytes or more never compares equal to its stored prefix. *)
Lemma long_name_always_changed :
  let hear now := (meshtastic_module_nodedb_on_packet (nd_sample 3 now) (nodeinfo_from 2 (22 :: replicate 30 65)) 0 None) in
  (hear 2 (hear 1 (sample_run 3 3 [])).1).2 = [SaveIdentity].
Proof. vm_compute. reflexivity. Qed.
