(* ===== verification/Lockdown.v ===== *)
(** * Lockdown (src/src/meshtastic_lockdown.c, meshtastic_lockdown.h)

    The passphrase lock over the settings store: the key hierarchy and its four records,
    the unlock token with its budget, the backoff after a wrong passphrase, sealed
    records, the session cap, and the work items that seal, reload and unseal the store.
    The settings store is a map from names to bytes; a save or a read may fail. The
    cryptographic library is the class [Crypto] with what it documents, the random source
    and the clocks are arguments. Work items run one at a time, in the order they were
    submitted. *)
From S2P Require Import Prelude.
Open Scope Z_scope.

Definition chars (s : string) : list Z := (Z.of_N ∘ Ascii.N_of_ascii) <$> String.list_ascii_of_string s.

Definition LD_KEY_LEN : nat := 16.
Definition LD_NONCE_LEN : nat := 12.
Definition LD_TAG_LEN : nat := 16.
Definition LD_KEY_DEK : list Z := chars "mtlock/dek".
Definition LD_KEY_TOKEN : list Z := chars "mtlock/token".
Definition LD_KEY_MONO : list Z := chars "mtlock/mono".
Definition LD_KEY_BACKOFF : list Z := chars "mtlock/backoff".
Definition LD_MAGIC_SEAL : Z := 0x4D454E43.
Definition LD_MAGIC_DEK : Z := 0x4D44454B.
Definition LD_MAGIC_TOKEN : Z := 0x55544F4B.
Definition KEK_DOMAIN : list Z := chars "meshtastic-tak-kek-v2".
Definition EKEK_DOMAIN : list Z := chars "meshtastic-tak-ephemeral-v1".
Definition DEK_LABEL : list Z := chars "mdek-auth".
Definition TOKEN_LABEL : list Z := chars "utok-auth".
Definition MONO_LABEL : list Z := chars "tokmono-auth".
Definition BACKOFF_LABEL : list Z := chars "backoff-auth".
Definition SEAL_LABEL : list Z := chars "menc-auth".
Definition DEK_REC_LEN : nat := 4 + 4 + LD_NONCE_LEN + LD_KEY_LEN + LD_TAG_LEN.
Definition TOKEN_META_LEN : nat := 1 + 4 + 4 + 4.
Definition TOKEN_REC_LEN : nat := 4 + LD_NONCE_LEN + LD_KEY_LEN + TOKEN_META_LEN + LD_TAG_LEN.
Definition MONO_REC_LEN : nat := 4 + LD_NONCE_LEN + LD_TAG_LEN.
Definition BACKOFF_BODY : nat := 6.
Definition BACKOFF_REC_LEN : nat := BACKOFF_BODY + LD_NONCE_LEN + LD_TAG_LEN.
Definition BACKOFF_MAX_ATTEMPTS : Z := 255.
Definition BACKOFF_CAP_S : Z := 900.
Definition MESHTASTIC_LOCKDOWN_PASSPHRASE_MAX : nat := 32.
Definition MESHTASTIC_LOCKDOWN_SEAL_OVERHEAD : nat := 32.
Definition LD_RAW_MAX : nat := 256 + MESHTASTIC_LOCKDOWN_SEAL_OVERHEAD.
Definition LD_REWRITE_NAME_LEN : nat := 32.
Definition SEAL_AAD_CAP : nat := 96.

(** ** The libraries underneath *)

(** AES-128-GCM, PBKDF2-HMAC-SHA256 and SHA-256, as PSA documents them. *)
Class Crypto := {
  gcm_enc : list Z -> list Z -> list Z -> list Z -> option (list Z);  (* key, nonce, aad, plaintext *)
  gcm_dec : list Z -> list Z -> list Z -> list Z -> option (list Z);
  pbkdf2 : list Z -> list Z -> Z -> option (list Z);                   (* password, salt, rounds *)
  sha256 : list Z -> option (list Z);
  gcm_dec_enc : forall k n a p c, gcm_enc k n a p = Some c -> gcm_dec k n a c = Some p;
  gcm_enc_len : forall k n a p c, gcm_enc k n a p = Some c -> length c = (length p + LD_TAG_LEN)%nat;
  gcm_enc_bytes : forall k n a p c, bytes_ok p -> gcm_enc k n a p = Some c -> bytes_ok c;
  pbkdf2_len : forall p s r k, pbkdf2 p s r = Some k -> length k = LD_KEY_LEN;
}.

Abbreviation store := (gmap (list Z) (list Z)).

Inductive work := RELOAD | REWRITE.
Inductive event := EV_LOCKED | EV_RELOADED | EV_DISABLED | EV_SESSION_ROLLED | EV_SESSION_EXHAUSTED.
Inductive ld_out :=
  | Emit (ev : event)
  | RunReload                     (* the reload hook *)
  | RunRewriteHooks (clear : bool).

#[export] Instance work_eq_dec : EqDecision work.
Proof. solve_decision. Defined.

(** What one call sees of the world. *)
Record ld_env := LdEnv {
  e_devid : option (list Z);                     (* hwinfo_get_device_id *)
  e_rand : nat -> nat -> option (list Z);        (* psa_generate_random: which draw, how many bytes *)
  e_save_ok : list Z -> bool;                    (* the store takes this record *)
  e_read_ok : list Z -> bool;                    (* the store gives this record back *)
  e_names : list Z -> store -> list (list Z);    (* the keys below a subtree, in the store's order *)
  e_export : list Z -> list (list Z * list Z);   (* what the owner of a subtree exports *)
  e_uptime : Z;                                  (* k_uptime_get *)
  e_clock : option Z;                            (* the wall clock, when it is valid *)
  e_iterations : Z;                              (* CONFIG_MESHTASTIC_LOCKDOWN_PBKDF2_ITERATIONS *)
  e_default_boots : Z;
  e_default_session : Z;
  e_max_names : nat;                             (* CONFIG_MESHTASTIC_LOCKDOWN_REWRITE_MAX_NAMES *)
}.

(** The static state, the store and the queued work. *)
Record ld := Ld {
  ekek : list Z;
  kek : list Z;
  dek : list Z;
  ekek_ok : bool;
  kek_ok : bool;
  dek_ok : bool;
  provisioned : bool;
  lock_reason : string;
  boots_remaining : Z;
  valid_until : Z;
  session_max_ms : Z;
  session_started_ms : Z;
  backoff_remaining_s : Z;
  last_fail_ms : Z;
  needs_reload : bool;
  reload_pending : bool;
  rewrite_pending : bool;
  sealing_off : bool;
  disable_done : bool;
  flash : store;
  draws : nat;
  wq : list work;
  session_due : option Z;
}.
Definition set_ekek (v : list Z) (r : ld) : ld :=
Ld v (kek r) (dek r) (ekek_ok r) (kek_ok r) (dek_ok r) (provisioned r) (lock_reason r)
    (boots_remaining r) (valid_until r) (session_max_ms r) (session_started_ms r)
    (backoff_remaining_s r) (last_fail_ms r) (needs_reload r) (reload_pending r)
    (rewrite_pending r) (sealing_off r) (disable_done r) (flash r) (draws r) (wq r)
    (session_due r).
Definition set_kek (v : list Z) (r : ld) : ld :=
Ld (ekek r) v (dek r) (ekek_ok r) (kek_ok r) (dek_ok r) (provisioned r) (lock_reason r)
    (boots_remaining r) (valid_until r) (session_max_ms r) (session_started_ms r)
    (backoff_remaining_s r) (last_fail_ms r) (needs_reload r) (reload_pending r)
    (rewrite_pending r) (sealing_off r) (disable_done r) (flash r) (draws r) (wq r)
    (session_due r).
Definition set_dek (v : list Z) (r : ld) : ld :=
Ld (ekek r) (kek r) v (ekek_ok r) (kek_ok r) (dek_ok r) (provisioned r) (lock_reason r)
    (boots_remaining r) (valid_until r) (session_max_ms r) (session_started_ms r)
    (backoff_remaining_s r) (last_fail_ms r) (needs_reload r) (reload_pending r)
    (rewrite_pending r) (sealing_off r) (disable_done r) (flash r) (draws r) (wq r)
    (session_due r).
Definition set_ekek_ok (v : bool) (r : ld) : ld :=
Ld (ekek r) (kek r) (dek r) v (kek_ok r) (dek_ok r) (provisioned r) (lock_reason r)
    (boots_remaining r) (valid_until r) (session_max_ms r) (session_started_ms r)
    (backoff_remaining_s r) (last_fail_ms r) (needs_reload r) (reload_pending r)
    (rewrite_pending r) (sealing_off r) (disable_done r) (flash r) (draws r) (wq r)
    (session_due r).
Definition set_kek_ok (v : bool) (r : ld) : ld :=
Ld (ekek r) (kek r) (dek r) (ekek_ok r) v (dek_ok r) (provisioned r) (lock_reason r)
    (boots_remaining r) (valid_until r) (session_max_ms r) (session_started_ms r)
    (backoff_remaining_s r) (last_fail_ms r) (needs_reload r) (reload_pending r)
    (rewrite_pending r) (sealing_off r) (disable_done r) (flash r) (draws r) (wq r)
    (session_due r).
Definition set_dek_ok (v : bool) (r : ld) : ld :=
Ld (ekek r) (kek r) (dek r) (ekek_ok r) (kek_ok r) v (provisioned r) (lock_reason r)
    (boots_remaining r) (valid_until r) (session_max_ms r) (session_started_ms r)
    (backoff_remaining_s r) (last_fail_ms r) (needs_reload r) (reload_pending r)
    (rewrite_pending r) (sealing_off r) (disable_done r) (flash r) (draws r) (wq r)
    (session_due r).
Definition set_provisioned (v : bool) (r : ld) : ld :=
Ld (ekek r) (kek r) (dek r) (ekek_ok r) (kek_ok r) (dek_ok r) v (lock_reason r)
    (boots_remaining r) (valid_until r) (session_max_ms r) (session_started_ms r)
    (backoff_remaining_s r) (last_fail_ms r) (needs_reload r) (reload_pending r)
    (rewrite_pending r) (sealing_off r) (disable_done r) (flash r) (draws r) (wq r)
    (session_due r).
Definition set_lock_reason (v : string) (r : ld) : ld :=
Ld (ekek r) (kek r) (dek r) (ekek_ok r) (kek_ok r) (dek_ok r) (provisioned r) v
    (boots_remaining r) (valid_until r) (session_max_ms r) (session_started_ms r)
    (backoff_remaining_s r) (last_fail_ms r) (needs_reload r) (reload_pending r)
    (rewrite_pending r) (sealing_off r) (disable_done r) (flash r) (draws r) (wq r)
    (session_due r).
Definition set_boots_remaining (v : Z) (r : ld) : ld :=
Ld (ekek r) (kek r) (dek r) (ekek_ok r) (kek_ok r) (dek_ok r) (provisioned r) (lock_reason
    r) v (valid_until r) (session_max_ms r) (session_started_ms r) (backoff_remaining_s r)
    (last_fail_ms r) (needs_reload r) (reload_pending r) (rewrite_pending r) (sealing_off r)
    (disable_done r) (flash r) (draws r) (wq r) (session_due r).
Definition set_valid_until (v : Z) (r : ld) : ld :=
Ld (ekek r) (kek r) (dek r) (ekek_ok r) (kek_ok r) (dek_ok r) (provisioned r) (lock_reason
    r) (boots_remaining r) v (session_max_ms r) (session_started_ms r) (backoff_remaining_s
    r) (last_fail_ms r) (needs_reload r) (reload_pending r) (rewrite_pending r) (sealing_off
    r) (disable_done r) (flash r) (draws r) (wq r) (session_due r).
Definition set_session_max_ms (v : Z) (r : ld) : ld :=
Ld (ekek r) (kek r) (dek r) (ekek_ok r) (kek_ok r) (dek_ok r) (provisioned r) (lock_reason
    r) (boots_remaining r) (valid_until r) v (session_started_ms r) (backoff_remaining_s r)
    (last_fail_ms r) (needs_reload r) (reload_pending r) (rewrite_pending r) (sealing_off r)
    (disable_done r) (flash r) (draws r) (wq r) (session_due r).
Definition set_session_started_ms (v : Z) (r : ld) : ld :=
Ld (ekek r) (kek r) (dek r) (ekek_ok r) (kek_ok r) (dek_ok r) (provisioned r) (lock_reason
    r) (boots_remaining r) (valid_until r) (session_max_ms r) v (backoff_remaining_s r)
    (last_fail_ms r) (needs_reload r) (reload_pending r) (rewrite_pending r) (sealing_off r)
    (disable_done r) (flash r) (draws r) (wq r) (session_due r).
Definition set_backoff_remaining_s (v : Z) (r : ld) : ld :=
Ld (ekek r) (kek r) (dek r) (ekek_ok r) (kek_ok r) (dek_ok r) (provisioned r) (lock_reason
    r) (boots_remaining r) (valid_until r) (session_max_ms r) (session_started_ms r) v
    (last_fail_ms r) (needs_reload r) (reload_pending r) (rewrite_pending r) (sealing_off r)
    (disable_done r) (flash r) (draws r) (wq r) (session_due r).
Definition set_last_fail_ms (v : Z) (r : ld) : ld :=
Ld (ekek r) (kek r) (dek r) (ekek_ok r) (kek_ok r) (dek_ok r) (provisioned r) (lock_reason
    r) (boots_remaining r) (valid_until r) (session_max_ms r) (session_started_ms r)
    (backoff_remaining_s r) v (needs_reload r) (reload_pending r) (rewrite_pending r)
    (sealing_off r) (disable_done r) (flash r) (draws r) (wq r) (session_due r).
Definition set_needs_reload (v : bool) (r : ld) : ld :=
Ld (ekek r) (kek r) (dek r) (ekek_ok r) (kek_ok r) (dek_ok r) (provisioned r) (lock_reason
    r) (boots_remaining r) (valid_until r) (session_max_ms r) (session_started_ms r)
    (backoff_remaining_s r) (last_fail_ms r) v (reload_pending r) (rewrite_pending r)
    (sealing_off r) (disable_done r) (flash r) (draws r) (wq r) (session_due r).
Definition set_reload_pending (v : bool) (r : ld) : ld :=
Ld (ekek r) (kek r) (dek r) (ekek_ok r) (kek_ok r) (dek_ok r) (provisioned r) (lock_reason
    r) (boots_remaining r) (valid_until r) (session_max_ms r) (session_started_ms r)
    (backoff_remaining_s r) (last_fail_ms r) (needs_reload r) v (rewrite_pending r)
    (sealing_off r) (disable_done r) (flash r) (draws r) (wq r) (session_due r).
Definition set_rewrite_pending (v : bool) (r : ld) : ld :=
Ld (ekek r) (kek r) (dek r) (ekek_ok r) (kek_ok r) (dek_ok r) (provisioned r) (lock_reason
    r) (boots_remaining r) (valid_until r) (session_max_ms r) (session_started_ms r)
    (backoff_remaining_s r) (last_fail_ms r) (needs_reload r) (reload_pending r) v
    (sealing_off r) (disable_done r) (flash r) (draws r) (wq r) (session_due r).
Definition set_sealing_off (v : bool) (r : ld) : ld :=
Ld (ekek r) (kek r) (dek r) (ekek_ok r) (kek_ok r) (dek_ok r) (provisioned r) (lock_reason
    r) (boots_remaining r) (valid_until r) (session_max_ms r) (session_started_ms r)
    (backoff_remaining_s r) (last_fail_ms r) (needs_reload r) (reload_pending r)
    (rewrite_pending r) v (disable_done r) (flash r) (draws r) (wq r) (session_due r).
Definition set_disable_done (v : bool) (r : ld) : ld :=
Ld (ekek r) (kek r) (dek r) (ekek_ok r) (kek_ok r) (dek_ok r) (provisioned r) (lock_reason
    r) (boots_remaining r) (valid_until r) (session_max_ms r) (session_started_ms r)
    (backoff_remaining_s r) (last_fail_ms r) (needs_reload r) (reload_pending r)
    (rewrite_pending r) (sealing_off r) v (flash r) (draws r) (wq r) (session_due r).
Definition set_flash (v : store) (r : ld) : ld :=
Ld (ekek r) (kek r) (dek r) (ekek_ok r) (kek_ok r) (dek_ok r) (provisioned r) (lock_reason
    r) (boots_remaining r) (valid_until r) (session_max_ms r) (session_started_ms r)
    (backoff_remaining_s r) (last_fail_ms r) (needs_reload r) (reload_pending r)
    (rewrite_pending r) (sealing_off r) (disable_done r) v (draws r) (wq r) (session_due r).
Definition set_draws (v : nat) (r : ld) : ld :=
Ld (ekek r) (kek r) (dek r) (ekek_ok r) (kek_ok r) (dek_ok r) (provisioned r) (lock_reason
    r) (boots_remaining r) (valid_until r) (session_max_ms r) (session_started_ms r)
    (backoff_remaining_s r) (last_fail_ms r) (needs_reload r) (reload_pending r)
    (rewrite_pending r) (sealing_off r) (disable_done r) (flash r) v (wq r) (session_due r).
Definition set_wq (v : list work) (r : ld) : ld :=
Ld (ekek r) (kek r) (dek r) (ekek_ok r) (kek_ok r) (dek_ok r) (provisioned r) (lock_reason
    r) (boots_remaining r) (valid_until r) (session_max_ms r) (session_started_ms r)
    (backoff_remaining_s r) (last_fail_ms r) (needs_reload r) (reload_pending r)
    (rewrite_pending r) (sealing_off r) (disable_done r) (flash r) (draws r) v (session_due
    r).
Definition set_session_due (v : option Z) (r : ld) : ld :=
Ld (ekek r) (kek r) (dek r) (ekek_ok r) (kek_ok r) (dek_ok r) (provisioned r) (lock_reason
    r) (boots_remaining r) (valid_until r) (session_max_ms r) (session_started_ms r)
    (backoff_remaining_s r) (last_fail_ms r) (needs_reload r) (reload_pending r)
    (rewrite_pending r) (sealing_off r) (disable_done r) (flash r) (draws r) (wq r) v.

Definition key_zero : list Z := replicate LD_KEY_LEN 0.

Section Lockdown.
Context `{Crypto}.

Definition now_epoch (env : ld_env) : Z := default 0 (e_clock env).

Definition aead_enc (key nonce aad p : list Z) : res (list Z) :=
  match gcm_enc key nonce aad p with Some c => Val c | None => Fail EIO end.
Definition aead_dec (key nonce aad c : list Z) (cap : nat) : res (list Z) :=
  match gcm_dec key nonce aad c with
  | Some p => if (length p <=? cap)%nat then Val p else Fail EBADMSG
  | None => Fail EBADMSG
  end.

Definition random_bytes (env : ld_env) (n : nat) (s : ld) : res (list Z) * ld :=
  (match e_rand env (draws s) n with Some r => Val r | None => Fail EIO end, set_draws (S (draws s)) s).

Definition settings_save_one (env : ld_env) (name v : list Z) (s : ld) : cret * ld :=
  if e_save_ok env name then (OK, set_flash (<[name := v]> (flash s)) s) else (ERR EIO, s).
Definition settings_delete (env : ld_env) (name : list Z) (s : ld) : ld :=
  if e_save_ok env name then set_flash (delete name (flash s)) s else s.

(** [None]: no record; a record too long or unreadable has no bytes. *)
Definition rec_read (env : ld_env) (name : list Z) (cap : nat) (s : ld) : option (list Z) :=
  match flash s !! name with
  | None => None
  | Some v => Some (if (cap <? length v)%nat then [] else if e_read_ok env name then v else [])
  end.

Definition k_work_submit (w : work) (s : ld) : ld :=
  if decide (w ∈ wq s) then s else set_wq (wq s ++ [w]) s.

(** ** Keys *)

Definition derive_ekek (env : ld_env) (s : ld) : cret * ld :=
  if ekek_ok s then (OK, s)
  else match e_devid env with
       | None => (ERR EIO, s)
       | Some id =>
           match sha256 (id ++ EKEK_DOMAIN) with
           | None => (ERR EIO, s)
           | Some hash => (OK, set_ekek_ok true (set_ekek (take LD_KEY_LEN hash) s))
           end
       end.

Definition derive_kek (env : ld_env) (pass : list Z) (iters : Z) (s : ld) : cret * ld :=
  match e_devid env with
  | None => (ERR EIO, s)
  | Some id =>
      match pbkdf2 pass (id ++ KEK_DOMAIN) iters with
      | None => (ERR EIO, set_kek_ok false (set_kek key_zero s))
      | Some k => (OK, set_kek_ok true (set_kek k s))
      end
  end.

Definition dek_aad (iters : Z) : list Z := DEK_LABEL ++ put_le32 iters.

Definition write_dek (env : ld_env) (iters : Z) (s : ld) : cret * ld :=
  let '(r, s) := random_bytes env LD_NONCE_LEN s in
  match r with
  | Fail e => (ERR e, s)
  | Val nonce =>
      match aead_enc (kek s) nonce (dek_aad iters) (dek s) with
      | Fail e => (ERR e, s)
      | Val ct => settings_save_one env LD_KEY_DEK (put_le32 LD_MAGIC_DEK ++ put_le32 iters ++ nonce ++ ct) s
      end
  end.

Definition dek_record (env : ld_env) (s : ld) : option (list Z) :=
  match rec_read env LD_KEY_DEK DEK_REC_LEN s with
  | Some r => if (length r =? DEK_REC_LEN)%nat && (get_le32 0 r =? LD_MAGIC_DEK) then Some r else None
  | None => None
  end.

Definition dek_iters (env : ld_env) (s : ld) : Z :=
  match dek_record env s with Some r => get_le32 4 r | None => 0 end.

Definition load_dek (env : ld_env) (s : ld) : cret * ld :=
  match dek_record env s with
  | None => (ERR ENOENT, s)
  | Some r =>
      match aead_dec (kek s) (take LD_NONCE_LEN (drop 8 r)) (dek_aad (get_le32 4 r))
              (drop (8 + LD_NONCE_LEN) r) LD_KEY_LEN with
      | Val k => if (length k =? LD_KEY_LEN)%nat then (OK, set_dek k s) else (ERR EACCES, set_dek key_zero s)
      | Fail _ => (ERR EACCES, set_dek key_zero s)
      end
  end.

Definition dek_record_exists (env : ld_env) (s : ld) : bool :=
  bool_decide (is_Some (rec_read env LD_KEY_DEK DEK_REC_LEN s)).

(** ** The counter and the backoff record *)

Definition read_mono (env : ld_env) (s : ld) : Z :=
  match rec_read env LD_KEY_MONO MONO_REC_LEN s with
  | Some r =>
      if negb (length r =? MONO_REC_LEN)%nat then 0
      else match aead_dec (ekek s) (take LD_NONCE_LEN (drop 4 r)) (MONO_LABEL ++ take 4 r)
                   (drop (4 + LD_NONCE_LEN) r) 0 with
           | Val _ => get_le32 0 r
           | Fail _ => 0
           end
  | None => 0
  end.

Definition write_mono (env : ld_env) (counter : Z) (s : ld) : cret * ld :=
  let '(r, s) := random_bytes env LD_NONCE_LEN s in
  match r with
  | Fail e => (ERR e, s)
  | Val nonce =>
      match aead_enc (ekek s) nonce (MONO_LABEL ++ put_le32 counter) [] with
      | Fail e => (ERR e, s)
      | Val tag => settings_save_one env LD_KEY_MONO (put_le32 counter ++ nonce ++ tag) s
      end
  end.

(** Attempts, boots since the last failure, epoch of the last failure. *)
Definition backoff : Type := Z * Z * Z.

Definition read_backoff (env : ld_env) (s : ld) : backoff :=
  match rec_read env LD_KEY_BACKOFF BACKOFF_REC_LEN s with
  | None => (0, 0, 0)
  | Some r =>
      if negb (length r =? BACKOFF_REC_LEN)%nat then (BACKOFF_MAX_ATTEMPTS, 0, 0)
      else match aead_dec (ekek s) (take LD_NONCE_LEN (drop BACKOFF_BODY r)) (BACKOFF_LABEL ++ take BACKOFF_BODY r)
                   (drop (BACKOFF_BODY + LD_NONCE_LEN) r) 0 with
           | Val _ => (byte_at r 0, byte_at r 1, get_le32 2 r)
           | Fail _ => (BACKOFF_MAX_ATTEMPTS, 0, 0)
           end
  end.

Definition write_backoff (env : ld_env) (b : backoff) (s : ld) : cret * ld :=
  let '(attempts, boots_since_fail, last_fail_epoch) := b in
  let body := [attempts; boots_since_fail] ++ put_le32 last_fail_epoch in
  let '(r, s) := random_bytes env LD_NONCE_LEN s in
  match r with
  | Fail e => (ERR e, s)
  | Val nonce =>
      match aead_enc (ekek s) nonce (BACKOFF_LABEL ++ body) [] with
      | Fail e => (ERR e, s)
      | Val tag => settings_save_one env LD_KEY_BACKOFF (body ++ nonce ++ tag) s
      end
  end.

Definition clear_backoff (env : ld_env) (s : ld) : ld :=
  let '(_, s) := write_backoff env (0, 0, 0) s in set_last_fail_ms 0 (set_backoff_remaining_s 0 s).

(** The loop from [i = 1] to [attempts - 1], the delay doubled each time. *)
Fixpoint backoff_loop (n : nat) (delay : Z) : Z :=
  match n with
  | O => delay
  | S n => let d := u32 (delay * 2) in if BACKOFF_CAP_S <=? d then BACKOFF_CAP_S else backoff_loop n d
  end.
Definition backoff_delay (attempts : Z) : Z :=
  if attempts =? 0 then 0 else backoff_loop (Z.to_nat (attempts - 1)) 5.

(** ** The unlock token *)

Definition token_meta (boots until session_s mono : Z) : list Z :=
  [boots] ++ put_le32 until ++ put_le32 session_s ++ put_le32 mono.

Definition write_token (env : ld_env) (boots until session_s : Z) (s : ld) : cret * ld :=
  let mono := u32 (read_mono env s + 1) in
  let '(r, s) := random_bytes env LD_NONCE_LEN s in
  match r with
  | Fail e => (ERR e, s)
  | Val nonce =>
      let meta := token_meta boots until session_s mono in
      match aead_enc (ekek s) nonce (TOKEN_LABEL ++ meta) (dek s) with
      | Fail e => (ERR e, s)
      | Val ct =>
          let '(r, s) := settings_save_one env LD_KEY_TOKEN
            (put_le32 LD_MAGIC_TOKEN ++ nonce ++ take LD_KEY_LEN ct ++ meta ++ drop LD_KEY_LEN ct) s in
          match r with
          | OK => (OK, (write_mono env mono s).2)
          | ERR e => (ERR e, s)
          end
      end
  end.

Definition delete_token (env : ld_env) (s : ld) : ld := settings_delete env LD_KEY_TOKEN s.

Definition meshtastic_lockdown_set_session (env : ld_env) (max_s : Z) (s : ld) : ld :=
  let s := set_session_started_ms (e_uptime env) (set_session_max_ms (u32 (max_s * 1000)) s) in
  set_session_due (if negb (max_s =? 0) then Some (e_uptime env + max_s * 1000) else None) s.

(** A refusal names why, forgets the key and deletes the token. *)
Definition refuse_token (env : ld_env) (why : string) (s : ld) : bool * ld :=
  (false, delete_token env (set_lock_reason why s)).

Definition consume_token (env : ld_env) (s : ld) : bool * ld :=
  match rec_read env LD_KEY_TOKEN TOKEN_REC_LEN s with
  | None => (false, set_lock_reason "token_missing" s)
  | Some r =>
      if negb (length r =? TOKEN_REC_LEN)%nat then refuse_token env "token_wrong_size" s
      else if negb (get_le32 0 r =? LD_MAGIC_TOKEN) then refuse_token env "token_bad_magic" s
      else
        let meta := take TOKEN_META_LEN (drop (4 + LD_NONCE_LEN + LD_KEY_LEN) r) in
        let ct := take LD_KEY_LEN (drop (4 + LD_NONCE_LEN) r) ++
                  drop (4 + LD_NONCE_LEN + LD_KEY_LEN + TOKEN_META_LEN) r in
        match aead_dec (ekek s) (take LD_NONCE_LEN (drop 4 r)) (TOKEN_LABEL ++ meta) ct LD_KEY_LEN with
        | Fail _ => refuse_token env "token_hmac_fail" (set_dek key_zero s)
        | Val k =>
            if negb (length k =? LD_KEY_LEN)%nat then refuse_token env "token_hmac_fail" (set_dek key_zero s)
            else
              let s := set_dek k s in
              let boots := byte_at meta 0 in
              let until := get_le32 1 meta in
              let session_s := get_le32 5 meta in
              let mono := get_le32 9 meta in
              let max_seen := read_mono env s in
              if mono <? max_seen then refuse_token env "token_rollback" (set_dek key_zero s)
              else
                let s := if max_seen <? mono then (write_mono env mono s).2 else s in
                if boots =? 0 then refuse_token env "token_boots_zero" (set_dek key_zero s)
                else if negb (until =? 0) && negb (now_epoch env =? 0) && (until <? now_epoch env)
                then refuse_token env "token_expired" (set_dek key_zero s)
                else
                  let s := set_valid_until until (set_boots_remaining (boots - 1) (set_dek_ok true s)) in
                  let s := if boots - 1 =? 0 then delete_token env s
                           else (write_token env (boots - 1) until session_s s).2 in
                  (true, set_lock_reason "ok" (meshtastic_lockdown_set_session env session_s s))
        end
  end.

Definition bump_boots_since_fail (env : ld_env) (s : ld) : ld :=
  let '(attempts, boots_since_fail, last_fail_epoch) := read_backoff env s in
  if (attempts =? 0) || (attempts =? BACKOFF_MAX_ATTEMPTS) then s
  else (write_backoff env (attempts, if boots_since_fail <? 255 then boots_since_fail + 1 else boots_since_fail,
                           last_fail_epoch) s).2.

(** ** State *)

Definition meshtastic_lockdown_reset (s : ld) : ld :=
  Ld key_zero key_zero key_zero false false false false "not_provisioned" 0 0 0 0 0 0 false false false false false
    (flash s) (draws s) (wq s) None.

Definition meshtastic_lockdown_init (env : ld_env) (s : ld) : ld :=
  let s := meshtastic_lockdown_reset s in
  match derive_ekek env s with
  | (ERR _, s) => s
  | (OK, s) =>
      let s := set_provisioned (dek_record_exists env s) s in
      if negb (provisioned s) then s
      else
        let '(unlocked, s) := consume_token env (bump_boots_since_fail env s) in
        if unlocked then s else set_needs_reload true s
  end.

(** A power cycle: what is not on flash is gone. *)
Definition power_cycle (env : ld_env) (s : ld) : ld := meshtastic_lockdown_init env (set_wq [] s).

Definition meshtastic_lockdown_active (s : ld) : bool := provisioned s.
Definition meshtastic_lockdown_unlocked (s : ld) : bool := dek_ok s.

(** ** Provision, unlock, lock *)

Definition boots_or_default (env : ld_env) (boots : Z) : Z :=
  if negb (boots =? 0) then boots else u8 (e_default_boots env).
Definition session_or_default (env : ld_env) (session_s : Z) : Z :=
  if negb (session_s =? 0) then session_s else u32 (e_default_session env).

(** [passphrase] is [None] for a NULL pointer. *)
Definition passphrase_bad (pass : option (list Z)) : bool :=
  match pass with
  | None => true
  | Some p => (length p =? 0)%nat || (MESHTASTIC_LOCKDOWN_PASSPHRASE_MAX <? length p)%nat
  end.

Definition forget_kek (s : ld) : ld := set_kek_ok false (set_kek key_zero s).

(** The end of both: the token, the budget, the session cap. *)
Definition issue_token (env : ld_env) (boots until session_s : Z) (s : ld) : ld :=
  let boots := boots_or_default env boots in
  let session_s := session_or_default env session_s in
  let s := (write_token env boots until session_s s).2 in
  let s := set_valid_until until (set_boots_remaining boots (set_dek_ok true s)) in
  set_lock_reason "ok" (meshtastic_lockdown_set_session env session_s s).

Definition meshtastic_lockdown_provision (env : ld_env) (pass : option (list Z)) (boots until session_s : Z) (s : ld)
    : cret * ld :=
  if passphrase_bad pass then (ERR EINVAL, s)
  else if provisioned s then (ERR EALREADY, s)
  else match derive_ekek env s with
  | (ERR e, s) => (ERR e, s)
  | (OK, s) =>
      let '(r, s) := random_bytes env LD_KEY_LEN s in
      match r with
      | Fail e => (ERR e, s)
      | Val k =>
          match derive_kek env (default [] pass) (e_iterations env) (set_dek k s) with
          | (ERR e, s) => (ERR e, set_dek key_zero s)
          | (OK, s) =>
              let '(r, s) := write_dek env (e_iterations env) s in
              let s := forget_kek s in
              match r with
              | ERR _ => (ERR EIO, set_dek key_zero s)
              | OK =>
                  let s := clear_backoff env (set_dek_ok true (set_provisioned true s)) in
                  let s := issue_token env boots until session_s s in
                  (OK, k_work_submit REWRITE (set_rewrite_pending true (set_sealing_off false s)))
              end
          end
      end
  end.

(** The three floors of the wait still to run. *)
Definition boots_needed (attempts : Z) : Z :=
  let b := Z.min 255 (u32 (backoff_delay attempts + 4) / 5) in if b =? 0 then 1 else b.

Definition floor_left (delay elapsed remaining : Z) : Z :=
  if elapsed <? delay then Z.max remaining (delay - elapsed) else remaining.

Definition backoff_remaining (env : ld_env) (b : backoff) (s : ld) : Z :=
  let '(attempts, boots_since_fail, last_fail_epoch) := b in
  if attempts <=? 0 then 0
  else
    let delay := backoff_delay attempts in
    let now := now_epoch env in
    let r := if negb (last_fail_ms s =? 0) then floor_left delay (u32 (Z.quot (e_uptime env - last_fail_ms s) 1000)) 0
             else 0 in
    let r := if negb (now =? 0) && negb (last_fail_epoch =? 0) && (last_fail_epoch <=? now)
             then floor_left delay (now - last_fail_epoch) r else r in
    if boots_since_fail <? boots_needed attempts
    then Z.max r (u32 ((boots_needed attempts - boots_since_fail) * 5)) else r.

(** Up to and with the reservation of the attempt. *)
Definition unlock_reserve (env : ld_env) (pass : option (list Z)) (s : ld) : res Z * ld :=
  if passphrase_bad pass then (Fail EINVAL, s)
  else if negb (provisioned s) then (Fail ENOENT, s)
  else match derive_ekek env s with
  | (ERR e, s) => (Fail e, s)
  | (OK, s) =>
      let b := read_backoff env s in
      let remaining := backoff_remaining env b s in
      if 0 <? remaining then (Fail EAGAIN, set_backoff_remaining_s remaining s)
      else match derive_kek env (default [] pass) (dek_iters env s) (set_backoff_remaining_s 0 s) with
      | (ERR e, s) => (Fail e, s)
      | (OK, s) =>
          let reserved := if b.1.1 <? BACKOFF_MAX_ATTEMPTS then b.1.1 + 1 else b.1.1 in
          (Val reserved, (write_backoff env (reserved, 0, now_epoch env) s).2)
      end
  end.

(** The check and what follows. *)
Definition unlock_check (env : ld_env) (reserved boots until session_s : Z) (s : ld) : cret * ld :=
  let '(r, s) := load_dek env s in
  let s := forget_kek s in
  match r with
  | ERR _ =>
      (ERR EACCES, set_backoff_remaining_s (backoff_delay reserved)
         (set_last_fail_ms (if e_uptime env =? 0 then 1 else e_uptime env) s))
  | OK =>
      let s := issue_token env boots until session_s (clear_backoff env s) in
      (OK, if needs_reload s then k_work_submit RELOAD (set_reload_pending true s) else s)
  end.

Definition meshtastic_lockdown_unlock (env : ld_env) (pass : option (list Z)) (boots until session_s : Z) (s : ld)
    : cret * ld :=
  match unlock_reserve env pass s with
  | (Fail e, s) => (ERR e, s)
  | (Val reserved, s) => unlock_check env reserved boots until session_s s
  end.

Definition lock_now_quiet (env : ld_env) (s : ld) : ld :=
  let s := delete_token env (set_session_due None s) in
  let s := set_kek_ok false (set_dek_ok false (set_kek key_zero (set_dek key_zero s))) in
  set_lock_reason "token_missing" (set_valid_until 0 (set_boots_remaining 0
    (set_session_started_ms 0 (set_session_max_ms 0 s)))).

Definition meshtastic_lockdown_lock_now (env : ld_env) (s : ld) : ld * list ld_out :=
  (lock_now_quiet env s, [Emit EV_LOCKED]).

Definition meshtastic_lockdown_remove_artifacts (env : ld_env) (s : ld) : ld :=
  let s := foldl (fun s name => settings_delete env name s) s [LD_KEY_DEK; LD_KEY_TOKEN; LD_KEY_MONO; LD_KEY_BACKOFF] in
  set_lock_reason "not_provisioned" (set_provisioned false (lock_now_quiet env s)).

(** ** Sealed records *)

Definition meshtastic_lockdown_is_sealed (buf : list Z) : bool :=
  (MESHTASTIC_LOCKDOWN_SEAL_OVERHEAD <=? length buf)%nat && (get_le32 0 buf =? LD_MAGIC_SEAL).

Definition seal_aad (name : list Z) : list Z := SEAL_LABEL ++ take (SEAL_AAD_CAP - length SEAL_LABEL) name.

(** The bytes written to the caller's buffer of [cap] bytes. *)
Definition meshtastic_lockdown_seal (env : ld_env) (name v : list Z) (cap : nat) (s : ld) : res (list Z) * ld :=
  if negb (provisioned s) then (Fail ENOTSUP, s)
  else if negb (dek_ok s) then (Fail EACCES, s)
  else if (cap <? length v + MESHTASTIC_LOCKDOWN_SEAL_OVERHEAD)%nat then (Fail EMSGSIZE, s)
  else
    let '(r, s) := random_bytes env LD_NONCE_LEN s in
    match r with
    | Fail e => (Fail e, s)
    | Val nonce =>
        match aead_enc (dek s) nonce (seal_aad name) v with
        | Fail e => (Fail e, s)
        | Val ct => (Val (put_le32 LD_MAGIC_SEAL ++ nonce ++ ct), s)
        end
    end.

Definition meshtastic_lockdown_open (name buf : list Z) (cap : nat) (s : ld) : res (list Z) :=
  if negb (meshtastic_lockdown_is_sealed buf) then Fail EBADMSG
  else if negb (provisioned s) then Fail ENOTSUP
  else if negb (dek_ok s) then Fail EACCES
  else aead_dec (dek s) (take LD_NONCE_LEN (drop 4 buf)) (seal_aad name) (drop (4 + LD_NONCE_LEN) buf) cap.

(** ** The session cap *)

Definition meshtastic_lockdown_session_expired (env : ld_env) (s : ld) : bool :=
  if session_max_ms s =? 0 then false else session_max_ms s <=? e_uptime env - session_started_ms s.

Definition meshtastic_lockdown_consume_session_boot (env : ld_env) (s : ld) : Z * ld :=
  if boots_remaining s =? 0 then (0, s)
  else
    let new_boots := boots_remaining s - 1 in
    let s := if new_boots =? 0 then delete_token env s
             else (write_token env new_boots (valid_until s) (session_max_ms s / 1000) s).2 in
    let s := set_boots_remaining new_boots s in
    (new_boots, meshtastic_lockdown_set_session env (session_max_ms s / 1000) s).

Definition session_work_fn (env : ld_env) (s : ld) : ld * list ld_out :=
  if negb (dek_ok s) || (session_max_ms s =? 0) then (s, [])
  else if boots_remaining s =? 0
  then (set_lock_reason "session_budget_exhausted" (lock_now_quiet env s), [Emit EV_SESSION_EXHAUSTED])
  else ((meshtastic_lockdown_consume_session_boot env s).2, [Emit EV_SESSION_ROLLED]).

(** ** The store wrap *)

Definition meshtastic_lockdown_locked (s : ld) : bool := provisioned s && negb (dek_ok s).
Definition meshtastic_lockdown_store_ready (s : ld) : bool :=
  if negb (provisioned s) then true else dek_ok s && negb (reload_pending s).

(** [write] is [settings_save_one], by itself or behind an export. *)
Definition wrap_write (env : ld_env) (name v : list Z) (s : ld) : cret * ld :=
  if negb (provisioned s) || sealing_off s then settings_save_one env name v s
  else if negb (meshtastic_lockdown_store_ready s) then (ERR EACCES, s)
  else match meshtastic_lockdown_seal env name v LD_RAW_MAX s with
       | (Fail e, s) => (ERR e, s)
       | (Val sealed, s) => settings_save_one env name sealed s
       end.

Definition meshtastic_lockdown_export := wrap_write.
Definition meshtastic_lockdown_save_one := wrap_write.

(** The read callback gives the record's bytes or an error. *)
Definition meshtastic_lockdown_read (name : list Z) (len : nat) (got : res (list Z)) (cap : nat) (s : ld) : res (list Z) :=
  if (LD_RAW_MAX <? len)%nat then Fail EMSGSIZE
  else match got with
       | Fail e => Fail e
       | Val raw =>
           if negb (length raw =? len)%nat then Fail EIO
           else if negb (meshtastic_lockdown_is_sealed raw)
           then if (cap <? len)%nat then Fail EMSGSIZE else Val raw
           else if negb (provisioned s) then Fail EBADMSG
           else if negb (dek_ok s) then Fail EACCES
           else meshtastic_lockdown_open name raw cap s
       end.

Definition meshtastic_lockdown_wrap_buf (env : ld_env) (name v : list Z) (cap : nat) (s : ld) : res (list Z) * ld :=
  if negb (provisioned s) || sealing_off s
  then (if (cap <? length v)%nat then Fail EMSGSIZE else Val v, s)
  else if negb (meshtastic_lockdown_store_ready s) then (Fail EACCES, s)
  else meshtastic_lockdown_seal env name v cap s.

Definition meshtastic_lockdown_unwrap_buf (name v : list Z) (cap : nat) (s : ld) : res (list Z) :=
  if negb (meshtastic_lockdown_is_sealed v) then if (cap <? length v)%nat then Fail EMSGSIZE else Val v
  else if negb (provisioned s) then Fail EBADMSG
  else if negb (dek_ok s) then Fail EACCES
  else meshtastic_lockdown_open name v cap s.

(** ** The work items *)

Definition reload_work_fn (s : ld) : ld * list ld_out :=
  (set_needs_reload false (set_reload_pending false s), [RunReload; Emit EV_RELOADED]).

Definition export_subtrees : list (list Z) := [chars "meshtastic"; chars "mtnode"; chars "mtrec"].
Definition direct_subtrees : list (list Z) := [chars "mtclus"; chars "mtbackup"].

(** The names collected for a subtree, each cut to its slot. *)
Definition rw_collect (env : ld_env) (subtree : list Z) (s : ld) : list (list Z) :=
  (fun key => take (LD_REWRITE_NAME_LEN - 1) (subtree ++ chars "/" ++ key)) <$>
  take (e_max_names env) (e_names env subtree (flash s)).

Definition rw_read (env : ld_env) (name : list Z) (s : ld) : option (list Z) :=
  match flash s !! name with
  | Some v => if (length v <=? LD_RAW_MAX)%nat && e_read_ok env name then Some v else None
  | None => None
  end.

Definition rw_one (env : ld_env) (seal : bool) (s : ld) (name : list Z) : ld :=
  match rw_read env name s with
  | None => s
  | Some raw =>
      if Bool.eqb seal (meshtastic_lockdown_is_sealed raw) then s
      else
        let '(r, s) := if seal then meshtastic_lockdown_seal env name raw LD_RAW_MAX s
                       else (meshtastic_lockdown_open name raw LD_RAW_MAX s, s) in
        match r with
        | Fail _ => s
        | Val out => (settings_save_one env name out s).2
        end
  end.

(** The owner of a subtree exports its records, up to one that is refused. *)
Fixpoint export_records (env : ld_env) (l : list (list Z * list Z)) (s : ld) : ld :=
  match l with
  | [] => s
  | (name, v) :: l =>
      match meshtastic_lockdown_export env name v s with
      | (OK, s) => export_records env l s
      | (ERR _, s) => s
      end
  end.

Definition rewrite_all (env : ld_env) (seal : bool) (s : ld) : ld * list ld_out :=
  let s := foldl (fun s t => export_records env (e_export env t) s) s export_subtrees in
  let s := foldl (fun s t => foldl (rw_one env seal) s (rw_collect env t s)) s direct_subtrees in
  (s, [RunRewriteHooks (sealing_off s)]).

Definition rewrite_work_fn (env : ld_env) (s : ld) : ld * list ld_out :=
  let seal := negb (sealing_off s) in
  let '(s, out) := rewrite_all env seal s in
  if seal then (set_rewrite_pending false s, out)
  else
    let s := meshtastic_lockdown_remove_artifacts env s in
    (set_rewrite_pending false (set_disable_done true (set_sealing_off false s)), out ++ [Emit EV_DISABLED]).

Definition meshtastic_lockdown_busy (s : ld) : bool := reload_pending s || rewrite_pending s.

Definition disable_now (s : ld) : ld :=
  k_work_submit REWRITE (set_rewrite_pending true (set_sealing_off true (set_disable_done false s))).

Definition meshtastic_lockdown_disable (env : ld_env) (pass : option (list Z)) (s : ld) : cret * ld :=
  if negb (provisioned s) then (ERR ENOENT, s)
  else if rewrite_pending s || reload_pending s then (ERR EBUSY, s)
  else if negb (dek_ok s) || needs_reload s
  then match meshtastic_lockdown_unlock env pass 0 0 0 s with
       | (ERR e, s) => (ERR e, s)
       | (OK, s) => (OK, disable_now s)
       end
  else
    let keep := dek s in
    let '(r, s) := derive_kek env (default [] pass) (dek_iters env s) s in
    let '(r, s) := match r with
                   | OK => let '(r, s) := load_dek env s in (r, set_dek keep s)
                   | ERR e => (ERR e, s)
                   end in
    let s := forget_kek s in
    match r with
    | ERR _ => (ERR EACCES, s)
    | OK => (OK, disable_now s)
    end.

(** The queue runs the item at its head, once the caller that queued it has returned. *)
Definition run_work (env : ld_env) (s : ld) : ld * list ld_out :=
  match wq s with
  | [] => (s, [])
  | RELOAD :: q => reload_work_fn (set_wq q s)
  | REWRITE :: q => rewrite_work_fn env (set_wq q s)
  end.

(** The session timer, when it is due. *)
Definition run_session (env : ld_env) (s : ld) : ld * list ld_out :=
  match session_due s with
  | Some t => if t <=? e_uptime env then session_work_fn env (set_session_due None s) else (s, [])
  | None => (s, [])
  end.
End Lockdown.

(** ** Frames *)

(** Nothing but the store under [ks], and the random source, has moved. *)
Definition touches (ks : list (list Z)) (s s' : ld) : Prop :=
  exists f d, s' = set_flash f (set_draws d s) /\ forall k, k ∉ ks -> f !! k = flash s !! k.

Lemma touches_refl ks s : touches ks s s.
Proof. exists (flash s), (draws s). split; [by destruct s | done]. Qed.
Lemma touches_trans ks s1 s2 s3 : touches ks s1 s2 -> touches ks s2 s3 -> touches ks s1 s3.
Proof.
  intros (f & d & -> & Hf) (f' & d' & -> & Hf'). exists f', d'. split; [by destruct s1|].
  intros k Hk. rewrite Hf' by done. cbn. by apply Hf.
Qed.
Lemma touches_draws ks d s : touches ks s (set_draws d s).
Proof. exists (flash s), d. split; [by destruct s | done]. Qed.
Lemma touches_mono ks ks' s s' : ks ⊆ ks' -> touches ks s s' -> touches ks' s s'.
Proof. intros Hs (f & d & -> & Hf). exists f, d. split; [done|]. intros k Hk. apply Hf. set_solver. Qed.
Create HintDb ldframe discriminated.
#[export] Hint Resolve touches_refl touches_draws : ldframe.

Section Frames.
Context `{Crypto}.

Lemma save_touches env k v s : touches [k] s (settings_save_one env k v s).2.
Proof.
  unfold settings_save_one. destruct (e_save_ok env k); [|apply touches_refl].
  exists (<[k := v]> (flash s)), (draws s). split; [by destruct s|]. intros k' Hk. apply lookup_insert_ne. set_solver.
Qed.
Lemma delete_touches env k s : touches [k] s (settings_delete env k s).
Proof.
  unfold settings_delete. destruct (e_save_ok env k); [|apply touches_refl].
  exists (delete k (flash s)), (draws s). split; [by destruct s|]. intros k' Hk. apply lookup_delete_ne. set_solver.
Qed.

(** Draw a nonce, encrypt, save: the shape of every write. *)
Ltac write_frame :=
  repeat match goal with
  | |- touches _ _ (match ?x with _ => _ end).2 => destruct x
  | |- touches _ _ (settings_save_one _ _ _ _).2 => eapply touches_trans; [|apply save_touches]
  end; cbn [snd]; eauto with ldframe.

Lemma write_dek_touches env it s : touches [LD_KEY_DEK] s (write_dek env it s).2.
Proof. unfold write_dek, random_bytes. cbn [fst snd]. write_frame. Qed.
Lemma write_mono_touches env c s : touches [LD_KEY_MONO] s (write_mono env c s).2.
Proof. unfold write_mono, random_bytes. cbn [fst snd]. write_frame. Qed.
Lemma write_backoff_touches env b s : touches [LD_KEY_BACKOFF] s (write_backoff env b s).2.
Proof. unfold write_backoff, random_bytes. destruct b as [[a b] e]. cbn [fst snd]. write_frame. Qed.

Definition token_keys : list (list Z) := [LD_KEY_TOKEN; LD_KEY_MONO].
Lemma write_token_touches env b u ss s : touches token_keys s (write_token env b u ss s).2.
Proof.
  unfold write_token, random_bytes. cbn [fst snd]. destruct (e_rand _ _ _) as [nonce|]; [|apply touches_draws].
  destruct (aead_enc _ _ _ _) as [ct|]; [|apply touches_draws].
  match goal with |- context [settings_save_one env LD_KEY_TOKEN ?v ?x] => pose proof (save_touches env LD_KEY_TOKEN v x) as Hs; destruct (settings_save_one env LD_KEY_TOKEN v x) as [r s'] end.
  cbn [snd] in Hs. assert (touches token_keys s s') as Hs'.
  { eapply touches_trans; [apply touches_draws | eapply touches_mono; [|exact Hs]; set_solver]. }
  destruct r; [|done]. eapply touches_trans; [exact Hs'|]. eapply touches_mono; [|apply write_mono_touches]. set_solver.
Qed.
Lemma bump_touches env s : touches [LD_KEY_BACKOFF] s (bump_boots_since_fail env s).
Proof. unfold bump_boots_since_fail. destruct (read_backoff env s) as [[a b] e]. destruct (_ || _); [apply touches_refl | apply write_backoff_touches]. Qed.
End Frames.

(** ** Runs *)

Section Runs.
Context `{Crypto}.

Inductive ld_event :=
  | LdBoot (env : ld_env)
  | LdCut (env : ld_env) (pass : option (list Z))   (* the power fails while a passphrase is checked *)
  | LdProvision (env : ld_env) (pass : option (list Z)) (boots until session_s : Z)
  | LdUnlock (env : ld_env) (pass : option (list Z)) (boots until session_s : Z)
  | LdDisable (env : ld_env) (pass : option (list Z))
  | LdLock (env : ld_env)
  | LdSession (env : ld_env)
  | LdWork (env : ld_env)
  | LdSave (env : ld_env) (name v : list Z)
  | LdWrap (env : ld_env) (name v : list Z) (cap : nat).

Definition ev_env (ev : ld_event) : ld_env :=
  match ev with
  | LdBoot env | LdCut env _ | LdProvision env _ _ _ _ | LdUnlock env _ _ _ _ | LdDisable env _ | LdLock env
  | LdSession env | LdWork env | LdSave env _ _ | LdWrap env _ _ _ => env
  end.

(** What the call returns, where it returns something, and the state after it. *)
Definition ld_step (ev : ld_event) (s : ld) : cret * ld :=
  match ev with
  | LdBoot env => (OK, power_cycle env s)
  | LdCut env pass => (OK, power_cycle env (unlock_reserve env pass s).2)
  | LdProvision env pass b u ss => meshtastic_lockdown_provision env pass b u ss s
  | LdUnlock env pass b u ss => meshtastic_lockdown_unlock env pass b u ss s
  | LdDisable env pass => meshtastic_lockdown_disable env pass s
  | LdLock env => (OK, (meshtastic_lockdown_lock_now env s).1)
  | LdSession env => (OK, (run_session env s).1)
  | LdWork env => (OK, (run_work env s).1)
  | LdSave env name v => meshtastic_lockdown_save_one env name v s
  | LdWrap env name v cap => (OK, (meshtastic_lockdown_wrap_buf env name v cap s).2)
  end.
Definition ld_next (s : ld) (ev : ld_event) : ld := (ld_step ev s).2.
Definition ld_run (s : ld) (evs : list ld_event) : ld := foldl ld_next s evs.

(** A passphrase is accepted. *)
Definition accepts (ev : ld_event) (s : ld) : bool :=
  match ev with
  | LdProvision _ _ _ _ _ | LdUnlock _ _ _ _ _ | LdDisable _ _ => bool_decide ((ld_step ev s).1 = OK)
  | _ => false
  end.
Fixpoint none_accepted (s : ld) (evs : list ld_event) : bool :=
  match evs with [] => true | ev :: evs => negb (accepts ev s) && none_accepted (ld_next s ev) evs end.

(** The boots of a run, and the passphrases of it that reached the check. *)
Definition boot_of (ev : ld_event) : nat := match ev with LdBoot _ | LdCut _ _ => 1 | _ => 0 end.
Definition boots_of (evs : list ld_event) : nat := sum_list (boot_of <$> evs).
Definition reserves (env : ld_env) (pass : option (list Z)) (s : ld) : nat :=
  match (unlock_reserve env pass s).1 with Val _ => 1 | Fail _ => 0 end.
Definition guess_of (ev : ld_event) (s : ld) : nat :=
  match ev with
  | LdUnlock env pass _ _ _ | LdCut env pass => reserves env pass s
  | LdDisable env pass =>
      if provisioned s && negb (rewrite_pending s || reload_pending s) && (negb (dek_ok s) || needs_reload s)
      then reserves env pass s else 0
  | _ => 0
  end.
Fixpoint guesses_of (s : ld) (evs : list ld_event) : nat :=
  match evs with [] => 0 | ev :: evs => guess_of ev s + guesses_of (ld_next s ev) evs end.

(** What a call relies on: the device id is the device's, the store takes what it is
    given, the random source and the cipher answer. *)
Record env_good (id : list Z) (env : ld_env) : Prop := {
  eg_id : e_devid env = Some id;
  eg_save : forall name, e_save_ok env name = true;
  eg_rand : forall i n, exists r, e_rand env i n = Some r /\ length r = n;
  eg_enc : forall k n a p, is_Some (gcm_enc k n a p);
  eg_clock : 0 <= now_epoch env <= UINT32_MAX;
}.

(** ** The backoff *)

Lemma backoff_loop_eq n : forall d, 5 <= d < 900 ->
  backoff_loop n d = Z.min 900 (d * 2 ^ Z.of_nat n).
Proof.
  induction n as [|n IH]; intros d Hd; cbn [backoff_loop]; [rewrite Z.mul_1_r; lia|].
  rewrite (u32_small (d * 2)) by lia. unfold BACKOFF_CAP_S. rewrite Nat2Z.inj_succ, Z.pow_succ_r by lia.
  pose proof (Z.pow_pos_nonneg 2 (Z.of_nat n) ltac:(lia) ltac:(lia)). destruct (900 <=? d * 2) eqn:E; bools.
  - nia.
  - rewrite IH by lia. f_equal. ring.
Qed.

Lemma backoff_delay_eq a : 0 < a -> backoff_delay a = Z.min 900 (5 * 2 ^ (a - 1)).
Proof.
  intros Ha. unfold backoff_delay. destruct (a =? 0) eqn:E; bools; [lia|]. rewrite backoff_loop_eq by lia.
  by rewrite Z2Nat.id by lia.
Qed.

Lemma boots_needed_eq a : 0 < a -> boots_needed a = Z.min 180 (2 ^ (a - 1)).
Proof.
  intros Ha. unfold boots_needed. rewrite backoff_delay_eq by done.
  pose proof (Z.pow_pos_nonneg 2 (a - 1) ltac:(lia) ltac:(lia)). rewrite u32_small by lia.
  destruct (Z.le_gt_cases 900 (5 * 2 ^ (a - 1))).
  - rewrite (Z.min_l 900) by lia. change (Z.min 255 ((900 + 4) / 5)) with 180. cbn [Z.eqb]. lia.
  - rewrite (Z.min_r 900) by lia. replace ((5 * 2 ^ (a - 1) + 4) / 5) with (2 ^ (a - 1)).
    2:{ apply Z.div_unique with 4; lia. }
    rewrite Z.min_r by lia. destruct (_ =? 0) eqn:E; bools; lia.
Qed.

Definition backoff_body (b : backoff) : list Z := [b.1.1; b.1.2] ++ put_le32 b.2.
Definition backoff_ok (b : backoff) : Prop := in_u8 b.1.1 /\ in_u8 b.1.2 /\ in_u32 b.2.

(** A record that [write_backoff] wrote under [key]. *)
Definition backoff_rec (key : list Z) (b : backoff) (r : list Z) : Prop :=
  exists nonce tag, r = backoff_body b ++ nonce ++ tag /\ length nonce = LD_NONCE_LEN /\
    gcm_enc key nonce (BACKOFF_LABEL ++ backoff_body b) [] = Some tag.

Lemma write_backoff_good id env b s :
  env_good id env -> exists d r, write_backoff env b s = (OK, set_flash (<[LD_KEY_BACKOFF := r]> (flash s)) (set_draws d s)) /\
    backoff_rec (ekek s) b r.
Proof.
  intros Hg. destruct b as [[a b] e]. unfold write_backoff, random_bytes. cbn [fst snd].
  destruct (eg_rand id env Hg (draws s) LD_NONCE_LEN) as (nonce & -> & Hl).
  destruct (eg_enc id env Hg (ekek s) nonce (BACKOFF_LABEL ++ backoff_body (a, b, e)) []) as [tag Ht].
  unfold aead_enc, settings_save_one. cbn [ekek set_draws]. unfold backoff_body in Ht. cbn [fst snd] in Ht. rewrite Ht, (eg_save id env Hg).
  exists (S (draws s)). eexists. split; [by destruct s|]. exists nonce, tag. done.
Qed.

Lemma read_backoff_rec env s b r :
  flash s !! LD_KEY_BACKOFF = Some r -> backoff_rec (ekek s) b r -> backoff_ok b ->
  read_backoff env s = b \/ read_backoff env s = (BACKOFF_MAX_ATTEMPTS, 0, 0).
Proof.
  intros Hf (nonce & tag & -> & Hn & He) Hok. pose proof (gcm_enc_len _ _ _ _ _ He) as Ht. cbn [length Nat.add] in Ht.
  unfold read_backoff, rec_read. rewrite Hf.
  assert (length (backoff_body b ++ nonce ++ tag) = BACKOFF_REC_LEN) as Hl.
  { unfold backoff_body. rewrite !length_app, Hn, Ht, length_le_put. reflexivity. }
  rewrite Hl. change (BACKOFF_REC_LEN <? BACKOFF_REC_LEN)%nat with false. cbv iota.
  destruct (e_read_ok env LD_KEY_BACKOFF); [|by right]. rewrite Hl, Nat.eqb_refl. cbn [negb]. left.
  assert (length (backoff_body b) = BACKOFF_BODY) as Hb by (unfold backoff_body; rewrite length_app, length_le_put; reflexivity).
  rewrite <- (drop_drop _ LD_NONCE_LEN BACKOFF_BODY), !(drop_app_length' _ _ BACKOFF_BODY), (take_app_length' _ _ BACKOFF_BODY),
    (take_app_length' nonce), (drop_app_length' nonce) by done.
  unfold aead_dec. rewrite (gcm_dec_enc _ _ _ _ _ He). cbn [length Nat.leb].
  destruct b as [[a b] e]. destruct Hok as (_ & _ & He'). cbn [fst snd] in He'. unfold backoff_body. cbn [fst snd].
  f_equal. change ([a; b] ++ put_le32 e) with ([a; b] ++ le_put 4 e). rewrite <- !app_assoc.
  rewrite (get_le_app_skip 4 2 [a; b]) by done. apply get_le_app_here. unfold in_u32, UINT32_MAX in He'. lia.
Qed.
End Runs.

(** ** A locked device *)

Section Locked.
Context `{Crypto}.

(** Reboots that [n] failed passphrases have cost before the last of them. *)
Definition cost (n : nat) : Z := sum_with boots_needed (Z.of_nat <$> seq 1 (n - 1)).

Lemma cost_S n : (0 < n)%nat -> cost (S n) = cost n + boots_needed (Z.of_nat n).
Proof.
  intros Hn. unfold cost. replace (S n - 1)%nat with (S (n - 1)) by lia. rewrite seq_S, fmap_app, sum_with_app.
  replace (1 + (n - 1))%nat with n by lia. cbn [fmap list_fmap]. rewrite sum_with_cons. unfold sum_with at 2. cbn [foldr]. lia.
Qed.

Lemma sum_with_ext {A} (f g : A -> Z) l : (forall x, x ∈ l -> f x = g x) -> sum_with f l = sum_with g l.
Proof.
  induction l as [|x l IH]; intros Hl; [done|]. rewrite !sum_with_cons, Hl, IH; [done | | set_solver].
  intros y Hy. apply Hl. set_solver.
Qed.

Lemma cost_eq n : cost n = sum_with (fun i => Z.min 180 (2 ^ (i - 1))) (Z.of_nat <$> seq 1 (n - 1)).
Proof.
  apply sum_with_ext. intros x Hx. apply list_elem_of_fmap in Hx as (i & -> & Hi). apply elem_of_seq in Hi.
  apply boots_needed_eq. lia.
Qed.

(** The wrap refuses every write. *)
Definition shut (s : ld) : Prop := provisioned s = true /\ dek_ok s = false /\ sealing_off s = false.

Lemma wrap_write_shut env k v s : shut s -> wrap_write env k v s = (ERR EACCES, s).
Proof. intros (Hp & Hd & Ho). unfold wrap_write, meshtastic_lockdown_store_ready. by rewrite Hp, Ho, Hd. Qed.
Lemma seal_shut env k v c s : shut s -> meshtastic_lockdown_seal env k v c s = (Fail EACCES, s).
Proof. intros (Hp & Hd & Ho). unfold meshtastic_lockdown_seal. by rewrite Hp, Hd. Qed.
Lemma export_shut env l s : shut s -> export_records env l s = s.
Proof. intros Hs. destruct l as [|[k v] l]; [done|]. cbn. unfold meshtastic_lockdown_export. by rewrite wrap_write_shut. Qed.
Lemma rw_one_shut env s k : shut s -> rw_one env true s k = s.
Proof.
  intros Hs. unfold rw_one. destruct (rw_read env k s); [|done]. destruct (Bool.eqb _ _); [done|].
  by rewrite seal_shut.
Qed.
Lemma foldl_fix {A B} (f : A -> B -> A) l s : (forall x, f s x = s) -> foldl f s l = s.
Proof. intros Hf. induction l as [|x l IH]; cbn; [done|]. by rewrite Hf. Qed.
Lemma rewrite_all_shut env s : shut s -> (rewrite_all env true s).1 = s.
Proof.
  intros Hs. unfold rewrite_all. cbn [fst]. rewrite (foldl_fix (fun s t => export_records env (e_export env t) s)) by (intros; by apply export_shut).
  apply foldl_fix. intros t. apply foldl_fix. intros k. by apply rw_one_shut.
Qed.

Context (id EK : list Z).
Hypothesis ek_of : exists hash, sha256 (id ++ EKEK_DOMAIN) = Some hash /\ take LD_KEY_LEN hash = EK.

Definition ekek_is (s : ld) : Prop := ekek_ok s = true -> ekek s = EK.

Lemma derive_ekek_ok env s : e_devid env = Some id -> ekek_is s ->
  exists s', derive_ekek env s = (OK, s') /\ s' = set_ekek_ok true (set_ekek EK s).
Proof.
  intros Hid He. destruct ek_of as (hash & Hh & Ht). unfold derive_ekek. destruct (ekek_ok s) eqn:E.
  - eexists. split; [done|]. rewrite <- (He E). destruct s; cbn in *. by subst.
  - rewrite Hid, Hh, Ht. eauto.
Qed.

Context (s0 : ld).

(** After [n] failed passphrases and [boots] boots. *)
Record locked (n boots : nat) (s : ld) : Prop := {
  lk_ekek : ekek_is s;
  lk_shut : shut s;
  lk_flash : forall k, k <> LD_KEY_BACKOFF -> flash s !! k = flash s0 !! k;
  lk_backoff : exists b, backoff_ok b /\
    ((flash s !! LD_KEY_BACKOFF = None /\ b = (0, 0, 0)) \/
     (exists r, flash s !! LD_KEY_BACKOFF = Some r /\ backoff_rec EK b r)) /\
    b.1.1 = Z.of_nat n /\ (b.1.1 = 255 -> b.1.2 = 0) /\ (0 < b.1.1 -> cost n + b.1.2 <= Z.of_nat boots);
}.

Lemma locked_ram n b s s' :
  locked n b s -> flash s' = flash s -> provisioned s' = provisioned s -> dek_ok s' = dek_ok s ->
  sealing_off s' = sealing_off s -> ekek_is s' -> locked n b s'.
Proof. intros [H1 H2 H3 H4] Hf Hp Hd Ho He. split; [done | unfold shut in *; by rewrite Hp, Hd, Ho | by rewrite Hf | by rewrite Hf]. Qed.

Ltac ram Hl := apply (locked_ram _ _ _ _ Hl); first [done | exact (lk_ekek _ _ _ Hl)].

Lemma read_backoff_locked n b env s :
  locked n b s -> ekek s = EK ->
  exists c, backoff_ok c /\ c.1.1 = Z.of_nat n /\ (c.1.1 = 255 -> c.1.2 = 0) /\ (0 < c.1.1 -> cost n + c.1.2 <= Z.of_nat b) /\
    (read_backoff env s = c \/ read_backoff env s = (BACKOFF_MAX_ATTEMPTS, 0, 0)).
Proof.
  intros [H1 H2 H3 (c & Hc & Hr & Hn & Hz & Hk)] He. exists c. do 4 (split; [done|]).
  destruct Hr as [[Hr ->]|(r & Hr & Hrec)].
  - left. unfold read_backoff, rec_read. by rewrite Hr.
  - rewrite <- He in Hrec. by eapply read_backoff_rec.
Qed.

Lemma ekek_is_ok s : ekek_is s -> ekek_is (set_ekek_ok true (set_ekek EK s)).
Proof. done. Qed.

Lemma write_backoff_locked env c n b s :
  env_good id env -> locked n b s -> ekek s = EK -> forall n' b', backoff_ok c -> c.1.1 = Z.of_nat n' ->
  (c.1.1 = 255 -> c.1.2 = 0) -> (0 < c.1.1 -> cost n' + c.1.2 <= Z.of_nat b') -> locked n' b' (write_backoff env c s).2.
Proof.
  intros Hg Hl He n' b' Hc Hn Hz Hk. destruct (write_backoff_good id env c s Hg) as (d & r & -> & Hr). cbn [snd].
  destruct Hl as [H1 H2 H3 H4]. split; [done | done | |].
  - intros k Hne. cbn [flash set_flash]. rewrite lookup_insert_ne by done. by apply H3.
  - exists c. split; [done|]. split; [|done]. right. exists r. rewrite He in Hr. split; [apply lookup_insert_eq | done].
Qed.

Lemma bump_locked env n b s :
  env_good id env -> locked n b s -> ekek s = EK -> locked n (S b) (bump_boots_since_fail env s).
Proof.
  intros Hg Hl He. unfold bump_boots_since_fail.
  destruct (read_backoff_locked n b env s Hl He) as (c & Hc & Hn & Hz & Hk & Hr).
  assert (locked n (S b) s) as Hl'.
  { destruct Hl as [H1 H2 H3 (c' & A1 & A2 & A3 & A4 & A5)]. split; [done..|]. exists c'. do 4 (split; [done|]). intros; specialize (A5 ltac:(done)). lia. }
  destruct Hr as [->| ->]; [|done]. destruct c as [[a bs] e]. cbn [fst snd] in *.
  destruct ((a =? 0) || (a =? BACKOFF_MAX_ATTEMPTS)) eqn:E; [done|]. apply orb_false_iff in E as [E1 E2]. unfold BACKOFF_MAX_ATTEMPTS in E2. bools.
  unfold backoff_ok, in_u8, UINT8_MAX in Hc. cbn [fst snd] in Hc.
  eapply write_backoff_locked; try done; cbn [fst snd]; branches; unfold backoff_ok, in_u8, UINT8_MAX; cbn [fst snd]; intuition lia.
Qed.

Hypothesis no_token : flash s0 !! LD_KEY_TOKEN = None.
Hypothesis has_dek : is_Some (flash s0 !! LD_KEY_DEK).

Lemma power_cycle_locked env n b s : env_good id env -> locked n b s -> locked n (S b) (power_cycle env s).
Proof.
  intros Hg Hl. unfold power_cycle, meshtastic_lockdown_init.
  set (s1 := meshtastic_lockdown_reset (set_wq [] s)).
  destruct (derive_ekek_ok env s1 (eg_id id env Hg)) as (s2 & -> & ->); [done|].
  pose proof (lk_flash _ _ _ Hl) as Hf.
  assert (dek_record_exists env (set_ekek_ok true (set_ekek EK s1)) = true) as Hd.
  { unfold dek_record_exists, rec_read. cbn [flash set_ekek_ok set_ekek s1 meshtastic_lockdown_reset set_wq]. rewrite Hf by done.
    destruct has_dek as [r ->]. by apply bool_decide_eq_true. }
  rewrite Hd. cbn [provisioned set_provisioned negb].
  set (s3 := set_provisioned true (set_ekek_ok true (set_ekek EK s1))).
  assert (locked n b s3) as Hl3.
  { destruct Hl as [H1 H2 H3 H4]. split; [by intros ? | by split_and! | exact H3 | exact H4]. }
  pose proof (bump_locked env n b s3 Hg Hl3 eq_refl) as Hl4. set (s4 := bump_boots_since_fail env s3) in *.
  assert (consume_token env s4 = (false, set_lock_reason "token_missing" s4)) as ->.
  { unfold consume_token, rec_read. by rewrite (lk_flash _ _ _ Hl4), no_token. }
  ram Hl4.
Qed.

Lemma floor_left_nonneg d e r : 0 <= r -> 0 <= floor_left d e r.
Proof. unfold floor_left. branches; lia. Qed.

Lemma reserve_locked env pass n b s :
  env_good id env -> locked n b s -> locked (n + reserves env pass s) b (unlock_reserve env pass s).2.
Proof.
  intros Hg Hl. unfold reserves, unlock_reserve. destruct (passphrase_bad pass); [by rewrite Nat.add_0_r|].
  pose proof (lk_shut _ _ _ Hl) as (Hp & Hd & Ho). rewrite Hp. cbn [negb].
  destruct (derive_ekek_ok env s (eg_id id env Hg) (lk_ekek _ _ _ Hl)) as (s1 & -> & Hs1).
  assert (locked n b s1) as Hl1 by (subst s1; ram Hl).
  assert (ekek s1 = EK) as He1 by by subst s1.
  destruct (read_backoff_locked n b env s1 Hl1 He1) as (c & Hc & Hn & Hz & Hk & Hr).
  destruct (0 <? backoff_remaining env (read_backoff env s1) s1) eqn:Erem; [rewrite Nat.add_0_r; ram Hl1|].
  destruct (derive_kek env _ _ _) as [r s2] eqn:Ek.
  assert (locked n b s2 /\ ekek s2 = EK) as [Hl2 He2].
  { revert Ek. unfold derive_kek. rewrite (eg_id id env Hg). destruct (pbkdf2 _ _ _); intros [= _ <-]; (split; [ram Hl1 | done]). }
  destruct r; [|rewrite Nat.add_0_r; done]. cbn [fst snd].
  assert (read_backoff env s1 = c /\ (0 < c.1.1 -> boots_needed c.1.1 <= c.1.2) /\ c.1.1 < 255) as (Hrc & Hneed & Hlt).
  { unfold backoff_remaining in Erem. destruct (read_backoff env s1) as [[a bs] e] eqn:E. apply Z.ltb_ge in Erem.
    assert (0 < a -> boots_needed a <= bs) as Hfl.
    { intros Ha. destruct (a <=? 0) eqn:Ea; bools; [lia|]. destruct (bs <? boots_needed a) eqn:Eb; bools; [exfalso | done].
      pose proof (boots_needed_eq a Ha) as Hbn. pose proof (Z.pow_pos_nonneg 2 (a - 1) ltac:(lia) ltac:(lia)).
      assert (0 <= bs) by (destruct Hr as [Hr|Hr]; [subst c; destruct Hc as (_ & Hc & _); unfold in_u8 in Hc; cbn in Hc; lia | injection Hr; lia]).
      rewrite (u32_small ((boots_needed a - bs) * 5)) in Erem by lia. lia. }
    destruct Hr as [Hr|Hr].
    - subst c. cbn [fst snd] in *. split; [done|]. split; [done|]. destruct Hc as (Hc1 & _ & _). unfold in_u8, UINT8_MAX in Hc1. cbn in Hc1.
      destruct (Z.eq_dec a 255) as [->|]; [|lia]. specialize (Hfl ltac:(lia)). rewrite (Hz eq_refl) in Hfl. vm_compute in Hfl. by destruct Hfl.
    - injection Hr as -> -> ->. specialize (Hfl ltac:(done)). vm_compute in Hfl. by destruct Hfl. }
  rewrite Hrc. unfold BACKOFF_MAX_ATTEMPTS. rewrite (proj2 (Z.ltb_lt _ _) Hlt). replace (n + 1)%nat with (S n) by lia.
  destruct Hc as (Hc1 & Hc2 & _). unfold in_u8, UINT8_MAX in *.
  eapply (write_backoff_locked env _ n b); try done; cbn [fst snd]; [|lia|].
  - split; [unfold in_u8, UINT8_MAX; cbn; lia|]. split; [done | apply (eg_clock id env Hg)].
  - intros _. destruct n as [|n]; [cbn; lia|]. rewrite cost_S by lia. rewrite Hn in *. specialize (Hneed ltac:(lia)). specialize (Hk ltac:(lia)). lia.
Qed.

Lemma check_locked env res bo u ss n b s :
  locked n b s -> (unlock_check env res bo u ss s).1 <> OK -> locked n b (unlock_check env res bo u ss s).2.
Proof.
  intros Hl. unfold unlock_check, load_dek. destruct (dek_record env s); [|intros _; ram Hl].
  destruct (aead_dec _ _ _ _ _) as [k|]; [destruct (_ =? _)%nat|]; cbn [fst snd]; try done;
    intros _; ram Hl.
Qed.

Lemma unlock_locked env pass bo u ss n b s :
  env_good id env -> locked n b s -> (meshtastic_lockdown_unlock env pass bo u ss s).1 <> OK ->
  locked (n + reserves env pass s) b (meshtastic_lockdown_unlock env pass bo u ss s).2.
Proof.
  intros Hg Hl. pose proof (reserve_locked env pass n b s Hg Hl) as Hr. unfold meshtastic_lockdown_unlock.
  destruct (unlock_reserve env pass s) as [[res|e] s1]; cbn [fst snd] in *; [by apply check_locked | done].
Qed.

Lemma locked_none n b s : locked n b s -> locked (n + 0) (b + 0) s.
Proof. by rewrite !Nat.add_0_r. Qed.

Lemma ld_step_locked ev n b s :
  env_good id (ev_env ev) -> locked n b s -> accepts ev s = false ->
  locked (n + guess_of ev s) (b + boot_of ev) (ld_next s ev).
Proof.
  intros Hg Hl Ha. pose proof (lk_shut _ _ _ Hl) as Hs. pose proof Hs as (Hp & Hd & Ho). pose proof (lk_ekek _ _ _ Hl) as He.
  unfold ld_next. destruct ev as [env|env pass|env pass bo u ss|env pass bo u ss|env pass|env|env|env|env k v|env k v cap]; cbn [ld_step guess_of boot_of ev_env accepts snd fst] in *.
  - rewrite Nat.add_0_r, Nat.add_1_r. by apply power_cycle_locked.
  - rewrite Nat.add_1_r. apply power_cycle_locked; [done|]. by apply reserve_locked.
  - apply locked_none. unfold meshtastic_lockdown_provision. destruct (passphrase_bad pass); [done|]. by rewrite Hp.
  - rewrite Nat.add_0_r. apply bool_decide_eq_false in Ha. by apply unlock_locked.
  - rewrite Nat.add_0_r. apply bool_decide_eq_false in Ha. unfold meshtastic_lockdown_disable in *. rewrite Hp, Hd in *. cbn [negb andb orb] in *.
    destruct (rewrite_pending s || reload_pending s); [by rewrite Nat.add_0_r|]. cbn [negb].
    pose proof (unlock_locked env pass 0 0 0 n b s Hg Hl) as Hu.
    destruct (meshtastic_lockdown_unlock env pass 0 0 0 s) as [[|e] s1]; cbn [fst snd] in *; [done | by apply Hu].
  - apply locked_none. unfold meshtastic_lockdown_lock_now, lock_now_quiet, delete_token, settings_delete. cbn [fst]. rewrite (eg_save id env Hg).
    destruct Hl as [H1 H2 H3 H4]. split; [done | done | |].
    + intros k Hk. cbn -[lookup delete]. destruct (decide (k = LD_KEY_TOKEN)) as [->|]; [by rewrite lookup_delete_eq, no_token | rewrite lookup_delete_ne by done; by apply H3].
    + cbn -[lookup delete]. by rewrite lookup_delete_ne.
  - apply locked_none. unfold run_session, session_work_fn. destruct (session_due s); [|done]. destruct (_ <=? _); [|done].
    cbn [dek_ok set_session_due]. rewrite Hd. cbn. ram Hl.
  - apply locked_none. unfold run_work. destruct (wq s) as [|[|] q]; [done | ram Hl|].
    unfold rewrite_work_fn. cbn [sealing_off set_wq]. rewrite Ho. cbn [negb].
    pose proof (rewrite_all_shut env (set_wq q s) Hs) as Hr. destruct (rewrite_all env true (set_wq q s)) as [s1 out]. cbn in Hr. subst s1. ram Hl.
  - apply locked_none. unfold meshtastic_lockdown_save_one. by rewrite wrap_write_shut.
  - apply locked_none. unfold meshtastic_lockdown_wrap_buf, meshtastic_lockdown_store_ready. by rewrite Hp, Ho, Hd.
Qed.

Lemma ld_run_locked evs : forall n b s,
  Forall (fun ev => env_good id (ev_env ev)) evs -> locked n b s -> none_accepted s evs = true ->
  locked (n + guesses_of s evs) (b + boots_of evs) (ld_run s evs).
Proof.
  induction evs as [|ev evs IH]; intros n b s Hg Hl Ha; cbn [guesses_of ld_run foldl]; [by apply locked_none|].
  apply Forall_cons in Hg as [Hg Hgs]. cbn in Ha. apply andb_true_iff in Ha as [Ha Has]. apply negb_true_iff in Ha.
  pose proof (IH _ _ _ Hgs (ld_step_locked ev n b s Hg Hl Ha) Has) as Hr.
  change (boots_of (ev :: evs)) with (boot_of ev + boots_of evs)%nat. rewrite !Nat.add_assoc. exact Hr.
Qed.
End Locked.

Section Guessing.
Context `{Crypto}.

(** Locked, with no token left and no failure on record. *)
Record newly_locked (id : list Z) (s : ld) : Prop := {
  nl_key : exists hash, sha256 (id ++ EKEK_DOMAIN) = Some hash /\ (ekek_ok s = true -> ekek s = take LD_KEY_LEN hash) /\
    (flash s !! LD_KEY_BACKOFF = None \/
     exists r, flash s !! LD_KEY_BACKOFF = Some r /\ backoff_rec (take LD_KEY_LEN hash) (0, 0, 0) r);
  nl_shut : provisioned s = true /\ dek_ok s = false /\ sealing_off s = false;
  nl_dek : is_Some (flash s !! LD_KEY_DEK);
  nl_token : flash s !! LD_KEY_TOKEN = None;
}.

(** C17: Guessing costs reboots, and runs out. From a locked device with no token, whatever is
    tried, power cuts in the middle of a check included, and as long as no passphrase is
    accepted: the [n]-th guess needs the reboots of all guesses before it (1, 2, 4, ...,
    180 each), there are at most 255 guesses ever, the device stays locked, and apart
    from the attempt record nothing in the store is changed, whoever tries to save. *)
Theorem guesses_cost_reboots id s evs :
  newly_locked id s -> Forall (fun ev => env_good id (ev_env ev)) evs -> none_accepted s evs = true ->
  let n := guesses_of s evs in
  (n <= 255)%nat /\
  sum_with (fun i => Z.min 180 (2 ^ (i - 1))) (Z.of_nat <$> seq 1 (n - 1)) <= Z.of_nat (boots_of evs) /\
  dek_ok (ld_run s evs) = false /\
  (forall name, name <> LD_KEY_BACKOFF -> flash (ld_run s evs) !! name = flash s !! name).
Proof.
  intros [(hash & Hh & He & Hb) (Hp & Hd & Ho) Hdek Htok] Hg Ha n.
  assert (locked (take LD_KEY_LEN hash) s 0 0 s) as Hl.
  { split; [done | done | done |]. exists (0, 0, 0). split; [by repeat split|]. split; [|by repeat split].
    destruct Hb as [Hb|Hb]; [by left | by right]. }
  pose proof (ld_run_locked id (take LD_KEY_LEN hash) ltac:(eauto) s Htok Hdek evs 0 0 s Hg Hl Ha) as [_ (_ & Hd' & _) Hf (b & Hb1 & _ & Hn & _ & Hc)].
  fold n in Hn, Hc. destruct Hb1 as ((_ & H1) & (H2 & _) & _). unfold UINT8_MAX in H1. rewrite Hn in *.
  split; [lia|]. split; [|by split]. rewrite <- (cost_eq n). destruct n as [|n]; [unfold cost, sum_with; cbn; lia|].
  specialize (Hc ltac:(lia)). cbn [Nat.add] in *. lia.
Qed.
End Guessing.

(** ** The owner's data *)

Lemma rec_read_full env k cap s r :
  rec_read env k cap s = Some r -> length r = cap -> (0 < cap)%nat -> flash s !! k = Some r.
Proof.
  unfold rec_read. destruct (flash s !! k) as [w|]; [|done]. intros [= <-] Hl Hc.
  destruct (_ <? _)%nat; [cbn in Hl; lia|]. destruct (e_read_ok _ _); [done | cbn in Hl; lia].
Qed.

(** A question about the names of the records, decided. *)
Ltac keys := apply (bool_decide_unpack _); vm_compute; exact I.

Section Helpers.
Context `{Crypto}.
Definition lock_keys : list (list Z) := [LD_KEY_DEK; LD_KEY_TOKEN; LD_KEY_MONO; LD_KEY_BACKOFF].

Lemma rw_names env t s name : t ∈ direct_subtrees -> name ∈ rw_collect env t s -> name ∉ lock_keys.
Proof.
  intros Ht Hn Hl. assert (name !! 2%nat = Some 108) as H1.
  { repeat (apply elem_of_cons in Hl as [->|Hl]; [reflexivity|]). by apply elem_of_nil in Hl. }
  apply list_elem_of_fmap in Hn as (key & -> & _). rewrite lookup_take_lt in H1 by (vm_compute; lia).
  repeat (apply elem_of_cons in Ht as [->|Ht]; [done|]). by apply elem_of_nil in Ht.
Qed.

Lemma foldl_inv {A B} (P : A -> Prop) (f : A -> B -> A) l : (forall s x, x ∈ l -> P s -> P (f s x)) -> forall s, P s -> P (foldl f s l).
Proof.
  induction l as [|x l IH]; intros Hf s Hs; [done|]. cbn. apply IH; [intros; apply Hf; [by right | done] | apply Hf; [by left | done]].
Qed.

Lemma seal_draws env name x cap s : exists d, (meshtastic_lockdown_seal env name x cap s).2 = set_draws d s.
Proof.
  unfold meshtastic_lockdown_seal, random_bytes. assert (s = set_draws (draws s) s) as Hs by by destruct s.
  destruct (negb (provisioned s)); [eauto|]. destruct (negb (dek_ok s)); [eauto|]. destruct (_ <? _)%nat; [eauto|].
  destruct (e_rand _ _ _); [|eauto]. destruct (aead_enc _ _ _ _); eauto.
Qed.
End Helpers.

Section Owned.
Context `{Crypto}.
Context (id EK PW KW K nm v : list Z) (it : Z).
Hypothesis ek_of : exists hash, sha256 (id ++ EKEK_DOMAIN) = Some hash /\ take LD_KEY_LEN hash = EK.
Hypothesis kw_of : pbkdf2 PW (id ++ KEK_DOMAIN) it = Some KW.
Hypothesis it_ok : in_u32 it.
Hypothesis k_len : length K = LD_KEY_LEN.

Hypothesis nm_ok : nm ∉ lock_keys.

(** What the store holds: the key under the passphrase, the key in any token, and the
    owner's record under the key. *)
Definition dek_rec (r : list Z) : Prop :=
  exists nonce ct, r = put_le32 LD_MAGIC_DEK ++ put_le32 it ++ nonce ++ ct /\ length nonce = LD_NONCE_LEN /\
    gcm_enc KW nonce (dek_aad it) K = Some ct.
Definition token_rec (r : list Z) : Prop :=
  exists nonce meta ct, r = put_le32 LD_MAGIC_TOKEN ++ nonce ++ take LD_KEY_LEN ct ++ meta ++ drop LD_KEY_LEN ct /\
    length nonce = LD_NONCE_LEN /\ length meta = TOKEN_META_LEN /\ gcm_enc EK nonce (TOKEN_LABEL ++ meta) K = Some ct.
Definition seal_rec (r : list Z) : Prop :=
  exists nonce ct, r = put_le32 LD_MAGIC_SEAL ++ nonce ++ ct /\ length nonce = LD_NONCE_LEN /\
    (length v + MESHTASTIC_LOCKDOWN_SEAL_OVERHEAD <= LD_RAW_MAX)%nat /\ gcm_enc K nonce (seal_aad nm) v = Some ct.

Context (kept : bool).  (* the owner's record has been saved *)
Record owned (f : store) : Prop := {
  ow_dek : exists r, f !! LD_KEY_DEK = Some r /\ dek_rec r;
  ow_token : forall r, f !! LD_KEY_TOKEN = Some r -> token_rec r;
  ow_rec : kept = true -> exists r, f !! nm = Some r /\ seal_rec r;
}.

Lemma nm_ne k : k ∈ lock_keys -> nm <> k.
Proof. intros Hk ->. by apply nm_ok. Qed.

Lemma owned_frame f f' (ks : list (list Z)) :
  owned f -> LD_KEY_DEK ∉ ks -> LD_KEY_TOKEN ∉ ks -> nm ∉ ks -> (forall k, k ∉ ks -> f' !! k = f !! k) -> owned f'.
Proof. intros [H1 H2 H3] A1 A2 A3 Hf. split; [by rewrite Hf | by rewrite Hf | by rewrite Hf]. Qed.
Lemma owned_touches s s' ks :
  touches ks s s' -> LD_KEY_DEK ∉ ks -> LD_KEY_TOKEN ∉ ks -> nm ∉ ks -> owned (flash s) -> owned (flash s').
Proof. intros (f & d & -> & Hf) A1 A2 A3 Ho. by eapply owned_frame. Qed.

Lemma nm_single k : k ∈ lock_keys -> nm ∉ [k].
Proof. intros Hk. apply not_elem_of_cons. split; [by apply nm_ne | apply not_elem_of_nil]. Qed.

Lemma owned_mono env c s : owned (flash s) -> owned (flash (write_mono env c s).2).
Proof. apply (owned_touches _ _ _ (write_mono_touches env c s)); [keys | keys |]. apply nm_single. keys. Qed.
Lemma owned_backoff env b s : owned (flash s) -> owned (flash (write_backoff env b s).2).
Proof. apply (owned_touches _ _ _ (write_backoff_touches env b s)); [keys | keys |]. apply nm_single. keys. Qed.

Record keyed (s : ld) : Prop := {
  ky_owned : owned (flash s);
  ky_ekek : ekek_is EK s;
  ky_prov : provisioned s = true;
  ky_off : sealing_off s = false;
  ky_dek : dek_ok s = true -> dek s = K /\ ekek s = EK;
}.

Lemma keyed_ram s s' :
  keyed s -> flash s' = flash s -> provisioned s' = provisioned s -> sealing_off s' = sealing_off s ->
  ekek_is EK s' -> (dek_ok s' = true -> dek s' = K /\ ekek s' = EK) -> keyed s'.
Proof. intros [H1 H2 H3 H4 H5] Hf Hp Ho He Hd. split; [by rewrite Hf | done | congruence | congruence | done]. Qed.

(** Only the store has moved. *)
Lemma keyed_flash s f d : keyed s -> owned f -> keyed (set_flash f (set_draws d s)).
Proof. intros [H1 H2 H3 H4 H5] Ho. by split. Qed.
Lemma keyed_touches ks s s' :
  touches ks s s' -> LD_KEY_DEK ∉ ks -> LD_KEY_TOKEN ∉ ks -> nm ∉ ks -> keyed s -> keyed s'.
Proof.
  intros Ht A1 A2 A3 Hk. pose proof (owned_touches s s' ks Ht A1 A2 A3 (ky_owned s Hk)) as Ho.
  destruct Ht as (f & d & -> & _). by apply keyed_flash.
Qed.
Lemma keyed_mono env c s : keyed s -> keyed (write_mono env c s).2.
Proof. apply (keyed_touches _ _ _ (write_mono_touches env c s)); [keys | keys |]. apply nm_single. keys. Qed.
Lemma keyed_backoff env b s : keyed s -> keyed (write_backoff env b s).2.
Proof. apply (keyed_touches _ _ _ (write_backoff_touches env b s)); [keys | keys |]. apply nm_single. keys. Qed.
Lemma keyed_bump env s : keyed s -> keyed (bump_boots_since_fail env s).
Proof. apply (keyed_touches _ _ _ (bump_touches env s)); [keys | keys |]. apply nm_single. keys. Qed.
Lemma keyed_delete_token env s : keyed s -> keyed (delete_token env s).
Proof.
  intros Hk. unfold delete_token, settings_delete. destruct (e_save_ok env LD_KEY_TOKEN); [|done].
  replace (set_flash _ s) with (set_flash (delete LD_KEY_TOKEN (flash s)) (set_draws (draws s) s)) by by destruct s.
  apply keyed_flash; [done|]. destruct (ky_owned s Hk) as [H1 H2 H3]. split.
  - rewrite lookup_delete_ne; [done | keys].
  - intros r Hr. by rewrite lookup_delete_eq in Hr.
  - rewrite lookup_delete_ne; [done|]. apply not_eq_sym, nm_ne. keys.
Qed.

Definition is_Val {A} (r : res A) : Prop := match r with Val _ => True | Fail _ => False end.
Definition rand_ok (env : ld_env) : Prop := forall i n r, e_rand env i n = Some r -> length r = n.

Lemma keyed_write_token env b u ss s :
  rand_ok env -> keyed s -> ekek s = EK -> dek s = K -> keyed (write_token env b u ss s).2.
Proof.
  intros Hr Hk He Hd. unfold write_token, random_bytes. cbn [fst snd].
  assert (keyed (set_draws (S (draws s)) s)) as Hk1 by by apply (keyed_ram s); [..|apply Hk|apply Hk].
  destruct (e_rand env (draws s) LD_NONCE_LEN) as [nonce|] eqn:Er; [|done]. unfold aead_enc. cbn [ekek dek set_draws].
  destruct (gcm_enc _ _ _ _) as [ct|] eqn:Ec; [|done]. unfold settings_save_one. destruct (e_save_ok env LD_KEY_TOKEN); [|done].
  cbn [snd]. apply keyed_mono.
  match goal with |- keyed (set_flash ?f ?x) => replace (set_flash f x) with (set_flash f (set_draws (S (draws s)) s)) by done end.
  apply keyed_flash; [done|]. destruct (ky_owned s Hk) as [H1 H2 H3]. split.
  - rewrite lookup_insert_ne; [done | keys].
  - intros r. cbn [flash set_draws]. rewrite lookup_insert_eq. intros Hr'. apply (inj Some) in Hr'. subst r. exists nonce. eexists _, ct. split; [reflexivity|]. split; [by eapply Hr|].
    split; [|congruence]. unfold token_meta. by rewrite !length_app, !length_le_put.
  - rewrite lookup_insert_ne; [done|]. apply not_eq_sym, nm_ne. keys.
Qed.

Lemma token_opens r :
  token_rec r -> aead_dec EK (take LD_NONCE_LEN (drop 4 r))
    (TOKEN_LABEL ++ take TOKEN_META_LEN (drop (4 + LD_NONCE_LEN + LD_KEY_LEN) r))
    (take LD_KEY_LEN (drop (4 + LD_NONCE_LEN) r) ++ drop (4 + LD_NONCE_LEN + LD_KEY_LEN + TOKEN_META_LEN) r) LD_KEY_LEN = Val K.
Proof.
  intros (nonce & meta & ct & -> & Hn & Hm & He). pose proof (gcm_enc_len _ _ _ _ _ He) as Hc. rewrite k_len in Hc.
  assert (length (take LD_KEY_LEN ct) = LD_KEY_LEN) as Hk by (rewrite length_take, Hc; reflexivity).
  rewrite <- !drop_drop. rewrite !(drop_app_length' _ _ 4), (take_app_length' nonce), !(drop_app_length' nonce), !(take_app_length' (take _ ct)),
    !(drop_app_length' (take _ ct)), (take_app_length' meta), (drop_app_length' meta) by done.
  rewrite take_drop. unfold aead_dec. rewrite (gcm_dec_enc _ _ _ _ _ He), k_len. reflexivity.
Qed.

Lemma consume_keyed env s :
  rand_ok env -> keyed s -> ekek s = EK -> dek_ok s = false -> keyed (consume_token env s).2.
Proof.
  intros Hr Hk He Hd.
  assert (forall d w, keyed (refuse_token env w (set_dek d s)).2) as Hrefuse.
  { intros d w. apply keyed_delete_token. apply (keyed_ram s); [done..| by intros ?|]. cbn. by rewrite Hd. }
  assert (forall w, keyed (refuse_token env w s).2) as Hrefuse'.
  { intros w. apply keyed_delete_token. apply (keyed_ram s); [done..| by intros ?|]. cbn. by rewrite Hd. }
  unfold consume_token. destruct (rec_read env LD_KEY_TOKEN TOKEN_REC_LEN s) as [r|] eqn:Er.
  2:{ apply (keyed_ram s); [done..| by intros ?|]. cbn. by rewrite Hd. }
  destruct (length r =? TOKEN_REC_LEN)%nat eqn:El; [|apply Hrefuse']. cbn [negb]. apply Nat.eqb_eq in El.
  destruct (get_le32 0 r =? LD_MAGIC_TOKEN); [|apply Hrefuse']. cbn [negb].
  pose proof (token_opens r (ow_token _ (ky_owned s Hk) r (rec_read_full env _ _ s r Er El ltac:(cbn; lia)))) as Ho. rewrite <- He in Ho. rewrite Ho, k_len, Nat.eqb_refl. cbn [negb].
  set (s1 := set_dek K s). assert (keyed s1 /\ ekek s1 = EK /\ dek s1 = K /\ dek_ok s1 = false) as (Hk1 & He1 & Hd1 & Hf1).
  { split; [|done]. apply (keyed_ram s); [done..| by intros ?|]. cbn. by rewrite Hd. }
  destruct (_ <? read_mono env s1); [apply (Hrefuse key_zero)|].
  set (s2 := if _ <? _ then _ else _). assert (keyed s2 /\ ekek s2 = EK /\ dek s2 = K /\ dek_ok s2 = false) as (Hk2 & He2 & Hd2 & Hf2).
  { unfold s2. destruct (_ <? _); [|done]. split; [by apply keyed_mono|]. pose proof (write_mono_touches env (get_le32 9 (take TOKEN_META_LEN (drop (4 + LD_NONCE_LEN + LD_KEY_LEN) r))) s1) as (f & d & -> & _). done. }
  assert (forall w, keyed (refuse_token env w (set_dek key_zero s2)).2) as Hrefuse2.
  { intros w. apply keyed_delete_token. apply (keyed_ram s2); [done..| by intros ?|]. cbn. by rewrite Hf2. }
  destruct (byte_at _ 0 =? 0); [apply Hrefuse2|]. destruct (_ && _ && _); [apply Hrefuse2|]. cbn [snd].
  set (s3 := set_valid_until _ _). assert (keyed s3) as Hk3 by (apply (keyed_ram s2); [done..| by intros ? | by intros _]).
  set (s4 := if _ =? 0 then _ else _). assert (keyed s4) as Hk4.
  { unfold s4. destruct (_ =? 0); [by apply keyed_delete_token | by apply keyed_write_token]. }
  by apply (keyed_ram s4); [..|apply Hk4|apply Hk4].
Qed.

Lemma power_cycle_keyed env s : rand_ok env -> e_devid env = Some id -> keyed s -> keyed (power_cycle env s).
Proof.
  intros Hr Hid Hk. unfold power_cycle, meshtastic_lockdown_init. set (s1 := meshtastic_lockdown_reset (set_wq [] s)).
  destruct (derive_ekek_ok id EK ek_of env s1 Hid) as (s2 & -> & ->); [done|].
  destruct (ow_dek _ (ky_owned s Hk)) as (r & Hr1 & Hr2).
  assert (dek_record_exists env (set_ekek_ok true (set_ekek EK s1)) = true) as Hd.
  { unfold dek_record_exists, rec_read. cbn [flash set_ekek_ok set_ekek s1 meshtastic_lockdown_reset set_wq]. rewrite Hr1. by apply bool_decide_eq_true. }
  rewrite Hd. cbn [provisioned set_provisioned negb]. set (s3 := set_provisioned true _).
  assert (keyed s3) as Hk3 by (split; [apply Hk | by intros ? | done | done | done]).
  pose proof (bump_touches env s3) as Ht. pose proof (keyed_bump env s3 Hk3) as Hk4. set (s4 := bump_boots_since_fail env s3) in *.
  assert (ekek s4 = EK /\ dek_ok s4 = false) as [He4 Hd4] by (destruct Ht as (f & d & -> & _); done).
  pose proof (consume_keyed env s4 Hr Hk4 He4 Hd4) as Hc. destruct (consume_token env s4) as [[] s5]; [done|].
  by apply (keyed_ram s5); [..|apply Hc|apply Hc].
Qed.

Lemma dek_record_owned env s :
  owned (flash s) -> dek_record env s = None \/ exists r, dek_record env s = Some r /\ dek_rec r.
Proof.
  intros Ho. unfold dek_record. destruct (rec_read env LD_KEY_DEK DEK_REC_LEN s) as [r|] eqn:Er; [|by left].
  destruct (_ && _) eqn:E; [|by left]. apply andb_true_iff in E as [El _]. apply Nat.eqb_eq in El. right. exists r. split; [done|].
  pose proof (rec_read_full env _ _ s r Er El ltac:(cbn; lia)) as Hf. destruct (ow_dek _ Ho) as (r' & Hr & Hd). congruence.
Qed.

Lemma dek_rec_iters r : dek_rec r -> get_le32 4 r = it.
Proof. intros (nonce & ct & -> & _). rewrite (get_le_app_skip 4 4) by done. apply get_le_app_here. unfold in_u32, UINT32_MAX in it_ok. lia. Qed.

Lemma load_dek_owner env s :
  owned (flash s) -> (kek s = KW \/ dek_record env s = None) ->
  load_dek env s = (ERR ENOENT, s) \/ load_dek env s = (OK, set_dek K s).
Proof.
  intros Ho Hk. unfold load_dek. destruct (dek_record_owned env s Ho) as [->|(r & Hr & Hd)]; [by left|]. rewrite Hr.
  destruct Hk as [->|Hk]; [|congruence]. rewrite (dek_rec_iters r Hd). destruct Hd as (nonce & ct & -> & Hn & He). right.
  change 8%nat with (4 + 4)%nat. rewrite <- !drop_drop, !(drop_app_length' (put_le32 _)), (take_app_length' nonce), (drop_app_length' nonce) by done.
  unfold aead_dec. rewrite (gcm_dec_enc _ _ _ _ _ He), k_len. change (LD_KEY_LEN <=? LD_KEY_LEN)%nat with true. cbv iota beta. by rewrite k_len.
Qed.

Lemma reserve_keyed env pass s :
  e_devid env = Some id -> keyed s ->
  keyed (unlock_reserve env pass s).2 /\ dek_ok (unlock_reserve env pass s).2 = dek_ok s /\
  (is_Val (unlock_reserve env pass s).1 -> ekek (unlock_reserve env pass s).2 = EK /\
     (pass = Some PW -> kek (unlock_reserve env pass s).2 = KW \/ dek_record env (unlock_reserve env pass s).2 = None)).
Proof.
  intros Hid Hk. unfold unlock_reserve. destruct (passphrase_bad pass); [done|]. rewrite (ky_prov s Hk). cbn [negb].
  destruct (derive_ekek_ok id EK ek_of env s Hid (ky_ekek s Hk)) as (s1 & -> & ->). set (s1 := set_ekek_ok true (set_ekek EK s)).
  assert (keyed s1) as Hk1 by (apply (keyed_ram s); [done..| by intros ? | intros Hd; by destruct (ky_dek s Hk Hd)]).
  destruct (0 <? _); [split; [|done]; by apply (keyed_ram s1); [..|apply Hk1|apply Hk1]|].
  set (s2 := set_backoff_remaining_s 0 s1). unfold derive_kek. rewrite Hid.
  destruct (pbkdf2 (default [] pass) (id ++ KEK_DOMAIN) (dek_iters env s1)) as [k|] eqn:Ek; cbn [fst snd]; [|split; [|done]; by apply (keyed_ram s1); [..|apply Hk1|apply Hk1]].
  set (s3 := set_kek_ok true (set_kek k s2)). assert (keyed s3) as Hk3 by by apply (keyed_ram s1); [..|apply Hk1|apply Hk1].
  set (b := (_, 0, now_epoch env)). pose proof (keyed_backoff env b s3 Hk3) as Hk4. pose proof (write_backoff_touches env b s3) as (f & d & Hs & Hf).
  split; [done|]. rewrite Hs. split; [done|]. intros _. split; [done|]. intros ->. change (default [] (Some PW)) with PW in Ek.
  assert (dek_record env (set_flash f (set_draws d s3)) = dek_record env s1) as Hdr.
  { unfold dek_record, rec_read. cbn [flash set_flash]. rewrite Hf by keys. done. }
  rewrite Hdr. unfold dek_iters in Ek. destruct (dek_record_owned env s1 (ky_owned s1 Hk1)) as [Hn|(r & Hr & Hd)]; [by right|]. left.
  rewrite Hr, (dek_rec_iters r Hd) in Ek. cbn. congruence.
Qed.

Lemma clear_backoff_keyed env s : keyed s -> ekek s = EK -> dek s = K ->
  keyed (clear_backoff env s) /\ ekek (clear_backoff env s) = EK /\ dek (clear_backoff env s) = K.
Proof.
  intros Hk He Hd. unfold clear_backoff. pose proof (keyed_backoff env (0, 0, 0) s Hk) as Hb. pose proof (write_backoff_touches env (0, 0, 0) s) as (f & d & Hs & _).
  destruct (write_backoff env (0, 0, 0) s) as [r s']. cbn [snd] in *. subst s'. split; [|done]. by apply (keyed_ram _ _ Hb); [..|apply Hb|apply Hb].
Qed.

Lemma issue_token_keyed env b u ss s : rand_ok env -> keyed s -> ekek s = EK -> dek s = K -> keyed (issue_token env b u ss s).
Proof.
  intros Hr Hk He Hd. unfold issue_token. pose proof (keyed_write_token env (boots_or_default env b) u (session_or_default env ss) s Hr Hk He Hd) as Hw.
  pose proof (write_token_touches env (boots_or_default env b) u (session_or_default env ss) s) as (f & d & Hs & _). rewrite Hs in *.
  apply (keyed_ram _ _ Hw); [done..| by intros ? | by intros _].
Qed.

Lemma submit_keyed w s : keyed s -> keyed (k_work_submit w s).
Proof. intros Hk. unfold k_work_submit. destruct (decide _); [done|]. by apply (keyed_ram _ _ Hk); [..|apply Hk|apply Hk]. Qed.

Lemma unlocked_keyed env b u ss s : rand_ok env -> keyed s -> ekek s = EK -> dek s = K ->
  keyed (let s := issue_token env b u ss (clear_backoff env s) in
         if needs_reload s then k_work_submit RELOAD (set_reload_pending true s) else s).
Proof.
  intros Hr Hk He Hd. destruct (clear_backoff_keyed env s Hk He Hd) as (Hk3 & He3 & Hd3).
  pose proof (issue_token_keyed env b u ss _ Hr Hk3 He3 Hd3) as Hk4. cbv zeta. revert Hk4. generalize (issue_token env b u ss (clear_backoff env s)).
  intros s4 Hk4. destruct (needs_reload s4); [|done]. apply submit_keyed. by apply (keyed_ram _ _ Hk4); [..|apply Hk4|apply Hk4].
Qed.

Lemma check_keyed env res b u ss s :
  rand_ok env -> keyed s -> ekek s = EK ->
  (kek s = KW \/ dek_record env s = None) \/ (dek_ok s = false /\ (unlock_check env res b u ss s).1 <> OK) ->
  keyed (unlock_check env res b u ss s).2.
Proof.
  intros Hr Hk He Hc. unfold unlock_check in *. destruct (load_dek env s) as [r s1] eqn:El.
  assert (exists k, s1 = set_dek k s) as [k ->].
  { revert El. unfold load_dek. destruct (dek_record env s); [|intros [= _ <-]; exists (dek s); by destruct s].
    destruct (aead_dec _ _ _ _ _); [destruct (_ =? _)%nat|]; intros [= _ <-]; eauto. }
  destruct r as [|e].
  - destruct Hc as [Hc|[_ Hc]]; [|done].
    destruct (load_dek_owner env s (ky_owned s Hk) Hc) as [E|E]; rewrite E in El; [done|]. injection El as <-.
    set (s2 := forget_kek (set_dek K s)). assert (keyed s2) as Hk2 by (apply (keyed_ram s); [done..| by intros ? | by intros _]).
    exact (unlocked_keyed env b u ss s2 Hr Hk2 He eq_refl).
  - cbn [snd]. apply (keyed_ram s); [done..| by intros ?|]. intros Hd. split; [|done]. cbn in Hd |- *.
    destruct Hc as [Hc|[Hc _]]; [|congruence]. destruct (load_dek_owner env s (ky_owned s Hk) Hc) as [E|E]; rewrite E in El; [|done].
    apply (f_equal (fun x => dek x.2)) in El. cbn in El. rewrite <- El. by apply Hk.
Qed.

Lemma unlock_keyed env pass b u ss s :
  rand_ok env -> e_devid env = Some id -> keyed s ->
  pass = Some PW \/ (dek_ok s = false /\ (meshtastic_lockdown_unlock env pass b u ss s).1 <> OK) ->
  keyed (meshtastic_lockdown_unlock env pass b u ss s).2.
Proof.
  intros Hr Hid Hk Hc. pose proof (reserve_keyed env pass s Hid Hk) as (Hk1 & Hd1 & Hv). unfold meshtastic_lockdown_unlock in *.
  destruct (unlock_reserve env pass s) as [[res|e] s1]; cbn [fst snd] in *; [|done]. destruct (Hv I) as [He Hkw].
  apply check_keyed; [done..|]. destruct Hc as [->|[Hc1 Hc2]]; [left; by apply Hkw | right; by rewrite Hd1].
Qed.

Ltac kram Hk :=
  let G := fresh in let x := fresh in
  pose proof Hk as G; match type of G with keyed ?y => revert G; generalize y; intros x G end;
  apply (keyed_ram _ _ G); [done..| exact (ky_ekek _ G) | exact (ky_dek _ G)].

Lemma disable_keyed env pass s :
  rand_ok env -> e_devid env = Some id -> keyed s ->
  (meshtastic_lockdown_disable env pass s).1 <> OK -> dek_ok s = false \/ needs_reload s = false ->
  keyed (meshtastic_lockdown_disable env pass s).2.
Proof.
  intros Hr Hid Hk Ha Hc. unfold meshtastic_lockdown_disable in *. rewrite (ky_prov s Hk) in *. cbn [negb] in *.
  destruct (rewrite_pending s || reload_pending s); [done|]. destruct (negb (dek_ok s) || needs_reload s) eqn:E.
  - assert (dek_ok s = false) as Hd by (destruct Hc as [Hc|Hc]; [done|]; rewrite Hc, orb_false_r in E; by apply negb_true_iff in E).
    pose proof (unlock_keyed env pass 0 0 0 s Hr Hid Hk) as Hu.
    destruct (meshtastic_lockdown_unlock env pass 0 0 0 s) as [[|e] s1]; cbn [fst snd] in *; [done|]. apply Hu. by right.
  - unfold derive_kek in *. rewrite Hid in *.
    destruct (pbkdf2 (default [] pass) (id ++ KEK_DOMAIN) (dek_iters env s)) as [k|]; cbn [fst snd] in *; [|kram Hk].
    destruct (load_dek env _) as [r s1] eqn:El.
    assert (exists d, s1 = set_dek d (set_kek_ok true (set_kek k s))) as [d ->].
    { revert El. unfold load_dek. destruct (dek_record env _); [|intros [= _ <-]; exists (dek s); by destruct s].
      destruct (aead_dec _ _ _ _ _); [destruct (_ =? _)%nat|]; intros [= _ <-]; eauto. }
    destruct r; cbn [fst snd] in *; [done | kram Hk].
Qed.

Lemma lock_keyed env s : keyed s -> keyed (lock_now_quiet env s).
Proof.
  intros Hk. unfold lock_now_quiet. assert (keyed (set_session_due None s)) as Hk1 by kram Hk.
  pose proof (keyed_delete_token env _ Hk1) as Hk2. apply (keyed_ram _ _ Hk2); [done..| exact (ky_ekek _ Hk2) | done].
Qed.

Lemma session_boot_keyed env s : rand_ok env -> keyed s -> dek_ok s = true ->
  keyed (meshtastic_lockdown_consume_session_boot env s).2.
Proof.
  intros Hr Hk Hd. unfold meshtastic_lockdown_consume_session_boot. destruct (boots_remaining s =? 0); [done|]. cbn [snd].
  destruct (ky_dek s Hk Hd) as [Hdk He]. set (s1 := if _ =? 0 then _ else _).
  assert (keyed s1) as Hk1 by (unfold s1; destruct (_ =? 0); [by apply keyed_delete_token | by apply keyed_write_token]).
  clearbody s1. kram Hk1.
Qed.

Lemma session_keyed env s : rand_ok env -> keyed s -> keyed (run_session env s).1.
Proof.
  intros Hr Hk. unfold run_session. destruct (session_due s); [|done]. destruct (_ <=? _); [|done].
  assert (keyed (set_session_due None s)) as Hk1 by kram Hk. revert Hk1. generalize (set_session_due None s). clear Hk s. intros s Hk.
  unfold session_work_fn. destruct (dek_ok s) eqn:Hd; [|done]. cbn [negb orb]. destruct (session_max_ms s =? 0); [done|].
  destruct (boots_remaining s =? 0); [|by apply session_boot_keyed]. pose proof (lock_keyed env s Hk) as Hl. cbn [fst]. kram Hl.
Qed.

(** Names the rest of the firmware writes. *)
Definition other (name : list Z) : Prop := name ∉ lock_keys /\ name <> nm.

Lemma owned_insert name x f : owned f -> name ∉ lock_keys -> (kept = true -> name <> nm) -> owned (<[name := x]> f).
Proof.
  intros [H1 H2 H3] Hn Hm. assert (forall k, k ∈ lock_keys -> name <> k) as Hne by (intros k Hk ->; done).
  split; [rewrite lookup_insert_ne | rewrite lookup_insert_ne |]; [done | apply Hne; keys | done | apply Hne; keys |].
  intros Hk. rewrite lookup_insert_ne; [by apply H3 | by apply Hm].
Qed.

Lemma save_keyed env name x s : keyed s -> name ∉ lock_keys -> (kept = true -> name <> nm) ->
  keyed (settings_save_one env name x s).2.
Proof.
  intros Hk Hn Hm. unfold settings_save_one. destruct (e_save_ok env name); [|done]. cbn [snd].
  replace (set_flash _ s) with (set_flash (<[name := x]> (flash s)) (set_draws (draws s) s)) by by destruct s.
  apply keyed_flash; [done|]. apply owned_insert; [apply Hk | done | done].
Qed.


Lemma seal_keyed env name x cap s : keyed s -> keyed (meshtastic_lockdown_seal env name x cap s).2.
Proof. intros Hk. destruct (seal_draws env name x cap s) as [d ->]. kram Hk. Qed.

Lemma wrap_write_keyed env name x s : keyed s -> other name -> keyed (wrap_write env name x s).2.
Proof.
  intros Hk [Hn Hm]. unfold wrap_write. rewrite (ky_prov s Hk), (ky_off s Hk). cbn [negb orb]. destruct (meshtastic_lockdown_store_ready s); [|done].
  cbn [negb]. pose proof (seal_keyed env name x LD_RAW_MAX s Hk) as Hs. destruct (meshtastic_lockdown_seal env name x LD_RAW_MAX s) as [[y|e] s1]; [|done].
  by apply save_keyed.
Qed.

Lemma export_keyed env l : forall s, keyed s -> Forall (fun p => other p.1) l -> keyed (export_records env l s).
Proof.
  induction l as [|[name x] l IH]; intros s Hk Hl; [done|]. apply Forall_cons in Hl as [Hn Hl]. cbn [export_records].
  pose proof (wrap_write_keyed env name x s Hk Hn) as Hw. unfold meshtastic_lockdown_export. destruct (wrap_write env name x s) as [[|e] s1]; [by apply IH | done].
Qed.

Lemma seal_rec_sealed r : seal_rec r -> meshtastic_lockdown_is_sealed r = true.
Proof.
  intros (nonce & ct & -> & Hn & _ & He). unfold meshtastic_lockdown_is_sealed. rewrite !length_app, length_le_put, Hn, (gcm_enc_len _ _ _ _ _ He).
  rewrite get_le_app_here by (vm_compute; done). apply andb_true_iff. split; [|done]. apply Nat.leb_le. unfold LD_NONCE_LEN, LD_TAG_LEN, MESHTASTIC_LOCKDOWN_SEAL_OVERHEAD. lia.
Qed.

Lemma rw_one_keyed env s name : keyed s -> name ∉ lock_keys -> keyed (rw_one env true s name).
Proof.
  intros Hk Hn. unfold rw_one, rw_read. destruct (flash s !! name) as [raw|] eqn:Ef; [|done].
  destruct (_ && _); [|done]. destruct (Bool.eqb true (meshtastic_lockdown_is_sealed raw)) eqn:Es; [done|].
  pose proof (seal_keyed env name raw LD_RAW_MAX s Hk) as Hs. destruct (meshtastic_lockdown_seal env name raw LD_RAW_MAX s) as [[y|e] s1]; [|done].
  apply save_keyed; [done | done |]. intros Hkept ->. destruct (ow_rec _ (ky_owned s Hk) Hkept) as (r & Hr & Hrec).
  rewrite Hr in Ef. injection Ef as ->. by rewrite (seal_rec_sealed raw Hrec) in Es.
Qed.



Lemma work_keyed env s : keyed s -> Forall (fun t => Forall (fun p => other p.1) (e_export env t)) export_subtrees ->
  keyed (run_work env s).1.
Proof.
  intros Hk Hx. unfold run_work. destruct (wq s) as [|[|] q]; [done | kram Hk|].
  assert (keyed (set_wq q s)) as Hk1 by kram Hk. revert Hk1. generalize (set_wq q s). clear Hk s. intros s Hk.
  unfold rewrite_work_fn. rewrite (ky_off s Hk). cbn [negb]. unfold rewrite_all. cbn [fst].
  set (s1 := foldl _ s export_subtrees). assert (keyed s1) as Hk1.
  { apply foldl_inv; [|done]. intros s' t Ht Hs. apply export_keyed; [done|]. by eapply Forall_forall in Hx. }
  set (s2 := foldl _ s1 direct_subtrees). assert (keyed s2) as Hk2.
  { apply foldl_inv; [|done]. intros s' t Ht Hs. apply foldl_inv; [|done]. intros s'' name Hn Hs'. apply rw_one_keyed; [done|]. by eapply rw_names. }
  clearbody s2. kram Hk2.
Qed.

(** Any event but one: a passphrase that is not the owner's while the device is unlocked,
    a disable that is accepted, a new value for the owner's record. *)
Definition calm (ev : ld_event) (s : ld) : Prop :=
  rand_ok (ev_env ev) /\ e_devid (ev_env ev) = Some id /\
  match ev with
  | LdUnlock _ pass _ _ _ => pass = Some PW \/ (dek_ok s = false /\ (ld_step ev s).1 <> OK)
  | LdDisable _ _ => (ld_step ev s).1 <> OK /\ (dek_ok s = false \/ needs_reload s = false)
  | LdWork env => Forall (fun t => Forall (fun p => other p.1) (e_export env t)) export_subtrees
  | LdSave _ name _ => other name
  | _ => True
  end.
Fixpoint calm_run (s : ld) (evs : list ld_event) : Prop :=
  match evs with [] => True | ev :: evs => calm ev s /\ calm_run (ld_next s ev) evs end.

Lemma ld_step_keyed ev s : keyed s -> calm ev s -> keyed (ld_next s ev).
Proof.
  intros Hk (Hr & Hid & Hc). unfold ld_next.
  destruct ev as [env|env pass|env pass bo u ss|env pass bo u ss|env pass|env|env|env|env k x|env k x cap]; cbn [ld_step ev_env snd fst] in *.
  - by apply power_cycle_keyed.
  - apply power_cycle_keyed; [done..|]. by apply (reserve_keyed env pass s Hid Hk).
  - unfold meshtastic_lockdown_provision. destruct (passphrase_bad pass); [done|]. by rewrite (ky_prov s Hk).
  - by apply unlock_keyed.
  - destruct Hc. by apply disable_keyed.
  - by apply lock_keyed.
  - by apply session_keyed.
  - by apply work_keyed.
  - by apply wrap_write_keyed.
  - unfold meshtastic_lockdown_wrap_buf. rewrite (ky_prov s Hk), (ky_off s Hk). cbn [negb orb]. destruct (meshtastic_lockdown_store_ready s); [|done].
    by apply seal_keyed.
Qed.

Lemma ld_run_keyed evs : forall s, keyed s -> calm_run s evs -> keyed (ld_run s evs).
Proof.
  induction evs as [|ev evs IH]; intros s Hk Hc; [done|]. destruct Hc as [Hc Hcs]. apply IH; [|done]. by apply ld_step_keyed.
Qed.

(** An unlocked device reads the record, a locked one does not. *)
Lemma keyed_reads s : keyed s -> kept = true -> exists raw, flash s !! nm = Some raw /\
  forall cap, (length v <= cap)%nat ->
    meshtastic_lockdown_read nm (length raw) (Val raw) cap s = if dek_ok s then Val v else Fail EACCES.
Proof.
  intros Hk Hkept. destruct (ow_rec _ (ky_owned s Hk) Hkept) as (raw & Hraw & Hs). exists raw. split; [done|]. intros cap Hcap.
  pose proof (seal_rec_sealed raw Hs) as Hsealed. pose proof Hs as (nonce & ct & Hr & Hn & Hl & He).
  pose proof (gcm_enc_len _ _ _ _ _ He) as Hct. unfold meshtastic_lockdown_read.
  assert (length raw <= LD_RAW_MAX)%nat as Hle.
  { subst raw. rewrite !length_app, length_le_put, Hn, Hct. unfold LD_NONCE_LEN, LD_TAG_LEN, MESHTASTIC_LOCKDOWN_SEAL_OVERHEAD in *. lia. }
  rewrite (proj2 (Nat.ltb_ge _ _) Hle), Nat.eqb_refl, Hsealed, (ky_prov s Hk). cbn [negb]. destruct (dek_ok s) eqn:Hd; [|done]. cbn [negb].
  unfold meshtastic_lockdown_open. rewrite Hsealed, (ky_prov s Hk), Hd. cbn [negb]. destruct (ky_dek s Hk Hd) as [-> _]. subst raw.
  rewrite <- drop_drop, !(drop_app_length' (put_le32 _)), (take_app_length' nonce), (drop_app_length' nonce) by done.
  unfold aead_dec. rewrite (gcm_dec_enc _ _ _ _ _ He). by rewrite (proj2 (Nat.leb_le _ _) Hcap).
Qed.

(** Once the wait is over the owner's passphrase opens the device. *)
Lemma owner_unlocks env b u ss s res :
  e_devid env = Some id -> keyed s -> e_read_ok env LD_KEY_DEK = true -> (unlock_reserve env (Some PW) s).1 = Val res ->
  (meshtastic_lockdown_unlock env (Some PW) b u ss s).1 = OK.
Proof.
  intros Hid Hk Hread Hv. pose proof (reserve_keyed env (Some PW) s Hid Hk) as (Hk1 & _ & Hx). unfold meshtastic_lockdown_unlock.
  destruct (unlock_reserve env (Some PW) s) as [[res'|e] s1]; cbn [fst snd] in *; [|done]. destruct (Hx I) as [He Hkw]. unfold unlock_check.
  destruct (load_dek_owner env s1 (ky_owned _ Hk1) (Hkw eq_refl)) as [E|E]; [exfalso | by rewrite E].
  destruct (ow_dek _ (ky_owned _ Hk1)) as (r & Hr & Hd). unfold load_dek in E.
  assert (dek_record env s1 = Some r) as Hdr.
  { unfold dek_record, rec_read. rewrite Hr, Hread. destruct Hd as (nonce & ct & -> & Hn & Henc).
    assert (length (put_le32 LD_MAGIC_DEK ++ put_le32 it ++ nonce ++ ct) = DEK_REC_LEN) as Hl by (rewrite !length_app, !length_le_put, Hn, (gcm_enc_len _ _ _ _ _ Henc), k_len; reflexivity).
    rewrite Hl, Nat.ltb_irrefl, Hl, Nat.eqb_refl, get_le_app_here by (vm_compute; done). done. }
  rewrite Hdr in E. destruct (aead_dec _ _ _ _ _); [destruct (_ =? _)%nat|]; done.
Qed.
End Owned.

Section Survives.
Context `{Crypto}.

Lemma random_spec env n s r s' :
  random_bytes env n s = (r, s') -> s' = set_draws (S (draws s)) s /\ forall k, r = Val k -> e_rand env (draws s) n = Some k.
Proof. unfold random_bytes. intros [= <- <-]. split; [done|]. destruct (e_rand env (draws s) n); naive_solver. Qed.

Lemma derive_kek_spec env pass it s s' :
  derive_kek env pass it s = (OK, s') ->
  exists id k, e_devid env = Some id /\ pbkdf2 pass (id ++ KEK_DOMAIN) it = Some k /\ s' = set_kek_ok true (set_kek k s).
Proof. unfold derive_kek. destruct (e_devid env); [|done]. destruct (pbkdf2 _ _ _) eqn:E; [|done]. intros [= <-]. eauto. Qed.

Lemma write_dek_spec env it s s' :
  write_dek env it s = (OK, s') -> exists nonce ct d,
    s' = set_flash (<[LD_KEY_DEK := put_le32 LD_MAGIC_DEK ++ put_le32 it ++ nonce ++ ct]> (flash s)) (set_draws d s) /\
    e_rand env (draws s) LD_NONCE_LEN = Some nonce /\ gcm_enc (kek s) nonce (dek_aad it) (dek s) = Some ct.
Proof.
  unfold write_dek. destruct (random_bytes env LD_NONCE_LEN s) as [r s1] eqn:E. apply random_spec in E as [-> Hr]. destruct r as [nonce|]; [|done].
  unfold aead_enc. cbn [kek dek set_draws]. destruct (gcm_enc _ _ _ _) as [ct|] eqn:Ec; [|done]. unfold settings_save_one.
  destruct (e_save_ok env LD_KEY_DEK); [|done]. intros E. apply (f_equal snd) in E. cbn [snd] in E. subst s'. exists nonce, ct, (S (draws s)). split; [done|]. split; [by apply Hr | done].
Qed.

Lemma provisioned_keyed EK KW K nm v it (Hnm : nm ∉ lock_keys) env b u ss s :
  rand_ok env -> keyed EK KW K nm v it false s -> ekek s = EK -> dek s = K ->
  keyed EK KW K nm v it false
    (k_work_submit REWRITE (set_rewrite_pending true (set_sealing_off false (issue_token env b u ss (clear_backoff env s))))).
Proof.
  intros Hr Hk He Hd. apply submit_keyed.
  destruct (clear_backoff_keyed EK KW K nm v it Hnm false env s Hk He Hd) as (Hk1 & He1 & Hd1).
  pose proof (issue_token_keyed EK KW K nm v it Hnm false env b u ss _ Hr Hk1 He1 Hd1) as Hk2. revert Hk2.
  generalize (issue_token env b u ss (clear_backoff env s)). intros s4 Hk2.
  apply (keyed_ram _ _ _ _ _ _ _ s4); [done | done | done | symmetry; apply Hk2 | apply Hk2 | apply Hk2].
Qed.

Lemma provision_keyed id hash PW nm v b u ss env s s1 :
  sha256 (id ++ EKEK_DOMAIN) = Some hash -> e_devid env = Some id -> rand_ok env -> in_u32 (e_iterations env) -> nm ∉ lock_keys ->
  ekek_is (take LD_KEY_LEN hash) s -> flash s !! LD_KEY_TOKEN = None -> sealing_off s = false ->
  meshtastic_lockdown_provision env (Some PW) b u ss s = (OK, s1) ->
  exists KW K, pbkdf2 PW (id ++ KEK_DOMAIN) (e_iterations env) = Some KW /\ length K = LD_KEY_LEN /\
    keyed (take LD_KEY_LEN hash) KW K nm v (e_iterations env) false s1.
Proof.
  intros Hh Hid Hr Hit Hnm He Ht Hoff. unfold meshtastic_lockdown_provision. destruct (passphrase_bad _); [done|]. destruct (provisioned s); [done|].
  destruct (derive_ekek_ok id _ ltac:(eauto) env s Hid He) as (s2 & -> & Hs2).
  destruct (random_bytes env LD_KEY_LEN s2) as [rk s3] eqn:Erk. apply random_spec in Erk as [Hs3 Hrk]. destruct rk as [K|]; [|done].
  destruct (derive_kek env _ _ _) as [r4 s4] eqn:E4. destruct r4; [|done]. apply derive_kek_spec in E4 as (id' & KW & Hid' & HKW & Hs4).
  destruct (write_dek env _ s4) as [r5 s5] eqn:E5. destruct r5; [|done]. apply write_dek_spec in E5 as (nonce & ct & d & Hs5 & Hn & Hc).
  rewrite Hid in Hid'. injection Hid' as <-. change (default [] (Some PW)) with PW in HKW.
  assert (ekek s5 = take LD_KEY_LEN hash /\ dek s5 = K /\ sealing_off s5 = false /\ kek s4 = KW /\ dek s4 = K /\ flash s4 = flash s) as (He5 & Hd5 & Ho5 & Hk4 & Hd4 & Hf4)
    by (rewrite Hs5, Hs4, Hs3, Hs2; done).
  rewrite Hk4, Hd4 in Hc. assert (flash s5 = <[LD_KEY_DEK := put_le32 LD_MAGIC_DEK ++ put_le32 (e_iterations env) ++ nonce ++ ct]> (flash s)) as Hf5
    by (rewrite Hs5; cbn [flash set_flash]; by rewrite Hf4).
  clear Hs2 Hs3 Hs4 Hs5. intros E. apply pair_equal_spec in E as [_ E]. rewrite <- E. exists KW, K. split; [done|]. split; [eapply Hr, Hrk; reflexivity|].
  assert (keyed (take LD_KEY_LEN hash) KW K nm v (e_iterations env) false (set_dek_ok true (set_provisioned true (forget_kek s5)))) as Hk.
  { split; [|intros _; exact He5 | done | exact Ho5 | intros _; exact (conj Hd5 He5)].
    change (flash (set_dek_ok true (set_provisioned true (forget_kek s5)))) with (flash s5). rewrite Hf5. split.
    - eexists. split; [apply lookup_insert_eq|]. exists nonce, ct. split; [done|]. split; [by eapply Hr | done].
    - intros r. rewrite lookup_insert_ne by keys. by rewrite Ht.
    - done. }
  exact (provisioned_keyed _ _ _ _ _ _ Hnm env b u ss _ Hr Hk He5 Hd5).
Qed.

Lemma issue_token_unlocks env b u ss s : dek_ok (issue_token env b u ss s) = true.
Proof. unfold issue_token. by generalize (write_token env (boots_or_default env b) u (session_or_default env ss) s).2. Qed.
Lemma submit_unlocked s : dek_ok s = true ->
  dek_ok (if needs_reload s then k_work_submit RELOAD (set_reload_pending true s) else s) = true.
Proof. intros Hd. destruct (needs_reload s); [|done]. unfold k_work_submit. by destruct (decide _). Qed.

Lemma unlock_unlocks env pass b u ss s :
  (meshtastic_lockdown_unlock env pass b u ss s).1 = OK -> dek_ok (meshtastic_lockdown_unlock env pass b u ss s).2 = true.
Proof.
  unfold meshtastic_lockdown_unlock. destruct (unlock_reserve env pass s) as [[r|e] s1]; [|done]. unfold unlock_check.
  destruct (load_dek env s1) as [[|e] s2]; [|done]. intros _. exact (submit_unlocked _ (issue_token_unlocks env b u ss _)).
Qed.

Lemma save_seals EK KW K nm v it env s s' :
  rand_ok env -> nm ∉ lock_keys -> keyed EK KW K nm v it false s -> meshtastic_lockdown_save_one env nm v s = (OK, s') ->
  keyed EK KW K nm v it true s'.
Proof.
  intros Hr Hnm Hk. unfold meshtastic_lockdown_save_one, wrap_write. rewrite (ky_prov _ _ _ _ _ _ _ _ Hk), (ky_off _ _ _ _ _ _ _ _ Hk). cbn [negb orb].
  unfold meshtastic_lockdown_store_ready. rewrite (ky_prov _ _ _ _ _ _ _ _ Hk). cbn [negb]. destruct (dek_ok s) eqn:Hd; [|done].
  destruct (reload_pending s); [done|]. cbn [andb negb]. unfold meshtastic_lockdown_seal, random_bytes. rewrite (ky_prov _ _ _ _ _ _ _ _ Hk), Hd. cbn [negb].
  destruct (LD_RAW_MAX <? _)%nat eqn:El; [done|]. apply Nat.ltb_ge in El. destruct (e_rand env _ _) as [nonce|] eqn:En; [|done].
  unfold aead_enc. cbn [dek set_draws]. destruct (ky_dek _ _ _ _ _ _ _ _ Hk Hd) as [Hdk _]. rewrite Hdk. destruct (gcm_enc K nonce _ v) as [ct|] eqn:Ec; [|done].
  unfold settings_save_one. destruct (e_save_ok env nm); [|done]. intros E. apply (f_equal snd) in E. cbn [snd] in E. subst s'.
  destruct Hk as [[H1 H2 _] K2 K3 K4 K5]. split; [|exact K2 | exact K3 | exact K4 | exact K5].
  assert (forall k, k ∈ lock_keys -> nm <> k) as Hne by (intros k Hin ->; done).
  split; cbn [flash set_flash set_draws]; [rewrite lookup_insert_ne by (apply Hne; keys); done | rewrite lookup_insert_ne by (apply Hne; keys); done |].
  intros _. eexists. split; [apply lookup_insert_eq|]. exists nonce, ct. split; [done|]. split; [by eapply Hr|]. done.
Qed.

End Survives.

(** ** The budget of a token *)

Section Budget.
Context `{Crypto}.

(** Unlocked without a passphrase: a boot on the token, or a session the timer extends. *)
Definition free_unlock (ev : ld_event) (s : ld) : nat :=
  match ev with
  | LdBoot _ | LdCut _ _ => if dek_ok (ld_next s ev) then 1 else 0
  | LdSession env => match (run_session env s).2 with [Emit EV_SESSION_ROLLED] => 1 | _ => 0 end
  | _ => 0
  end.
Fixpoint free_unlocks (s : ld) (evs : list ld_event) : nat :=
  match evs with [] => 0 | ev :: evs => free_unlock ev s + free_unlocks (ld_next s ev) evs end.

(** The rest of the firmware does not write the lock's own records. *)
Definition minds (ev : ld_event) : Prop :=
  match ev with
  | LdWork env => Forall (fun t => Forall (fun p => p.1 <> LD_KEY_TOKEN) (e_export env t)) export_subtrees
  | LdSave _ name _ => name <> LD_KEY_TOKEN
  | _ => True
  end.

Definition token_boots (f : store) : Z := match f !! LD_KEY_TOKEN with Some r => byte_at r 32 | None => 0 end.
Definition budget (m : Z) (s : ld) : Prop := 0 <= token_boots (flash s) <= m /\ 0 <= boots_remaining s <= m.

Lemma budget_ram m s s' : budget m s -> flash s' = flash s -> boots_remaining s' = boots_remaining s -> budget m s'.
Proof. unfold budget. by intros Hb -> ->. Qed.
Lemma budget_frame m s s' : budget m s -> flash s' !! LD_KEY_TOKEN = flash s !! LD_KEY_TOKEN -> boots_remaining s' = boots_remaining s -> budget m s'.
Proof. unfold budget, token_boots. by intros Hb -> ->. Qed.
Lemma budget_touches m ks s s' : touches ks s s' -> LD_KEY_TOKEN ∉ ks -> budget m s -> budget m s'.
Proof. intros (f & d & -> & Hf) Hk Hb. eapply budget_frame; [done | by apply Hf | done]. Qed.
Lemma budget_nonneg m s : budget m s -> 0 <= m.
Proof. unfold budget. lia. Qed.

Lemma delete_token_budget m env s : budget m s -> budget m (delete_token env s).
Proof.
  unfold delete_token, settings_delete. destruct (e_save_ok env LD_KEY_TOKEN); [|done]. intros [H1 H2]. split; [|done].
  cbn [flash set_flash]. unfold token_boots. rewrite lookup_delete_eq. lia.
Qed.
Lemma delete_token_zero id env s : env_good id env -> 0 <= boots_remaining s -> budget (boots_remaining s) (delete_token env s).
Proof.
  intros Hg Hb. unfold delete_token, settings_delete. rewrite (eg_save id env Hg). split; [|done].
  cbn [flash set_flash boots_remaining]. unfold token_boots. rewrite lookup_delete_eq. lia.
Qed.

Lemma write_token_boots id env b u ss s :
  env_good id env -> token_boots (flash (write_token env b u ss s).2) = b.
Proof.
  intros Hg. unfold write_token, random_bytes. cbn [fst snd].
  destruct (eg_rand id env Hg (draws s) LD_NONCE_LEN) as (nonce & -> & Hl). unfold aead_enc. cbn [ekek dek set_draws].
  set (meta := token_meta b u ss _). destruct (eg_enc id env Hg (ekek s) nonce (TOKEN_LABEL ++ meta) (dek s)) as [ct Hct]. rewrite Hct.
  unfold settings_save_one. rewrite (eg_save id env Hg). cbn [snd]. set (s1 := set_flash _ _). set (mono := u32 _).
  destruct (write_mono_touches env mono s1) as (f & d & -> & Hf). unfold token_boots. cbn [flash set_flash]. rewrite Hf by keys. cbn [flash set_flash s1]. rewrite lookup_insert_eq.
  assert (length (take LD_KEY_LEN ct) = LD_KEY_LEN) as Hk by (rewrite length_take, (gcm_enc_len _ _ _ _ _ Hct); unfold LD_KEY_LEN, LD_TAG_LEN; lia).
  unfold byte_at. rewrite lookup_app_r, lookup_app_r, lookup_app_r; rewrite ?length_le_put, ?Hl, ?Hk; [|unfold LD_NONCE_LEN, LD_KEY_LEN; lia..].
  by change (32 - 4 - LD_NONCE_LEN - LD_KEY_LEN)%nat with 0%nat.
Qed.

Lemma write_token_budget id env b u ss s :
  env_good id env -> 0 <= b -> 0 <= boots_remaining s <= b -> budget b (write_token env b u ss s).2.
Proof.
  intros Hg Hb Hr. split; [by rewrite (write_token_boots id)|]. destruct (write_token_touches env b u ss s) as (f & d & -> & _). done.
Qed.

Lemma delete_token_dek env s : dek_ok (delete_token env s) = dek_ok s /\ boots_remaining (delete_token env s) = boots_remaining s.
Proof. unfold delete_token, settings_delete. by destruct (e_save_ok env LD_KEY_TOKEN). Qed.

Definition boot_spent (m : Z) (was : bool) (x : bool * ld) : Prop :=
  if x.1 then budget (m - 1) x.2 else budget m x.2 /\ dek_ok x.2 = was.

Lemma refuse_spent env m w s : budget m s -> boot_spent m (dek_ok s) (refuse_token env w s).
Proof.
  intros Hb. split; [apply delete_token_budget; by apply (budget_ram m s)|].
  cbn [refuse_token snd]. by rewrite (proj1 (delete_token_dek env (set_lock_reason w s))).
Qed.
Lemma refuse_zeroed env m w s : budget m s -> boot_spent m (dek_ok s) (refuse_token env w (set_dek key_zero s)).
Proof. intros Hb. apply (refuse_spent env m w (set_dek key_zero s)). by apply (budget_ram m s). Qed.

(** A boot on a token spends one boot of it. *)
Lemma consume_budget id env m s :
  env_good id env -> budget m s -> boots_remaining s = 0 -> boot_spent m (dek_ok s) (consume_token env s).
Proof.
  intros Hg Hb H0. unfold consume_token. destruct (rec_read env LD_KEY_TOKEN TOKEN_REC_LEN s) as [r|] eqn:Er; [|split; [by apply (budget_ram m s) | done]].
  destruct (length r =? TOKEN_REC_LEN)%nat eqn:El; [|by apply refuse_spent]. cbn [negb]. apply Nat.eqb_eq in El.
  destruct (get_le32 0 r =? LD_MAGIC_TOKEN); [|by apply refuse_spent]. cbn [negb].
  pose proof (rec_read_full env _ _ s r Er El ltac:(cbn; lia)) as Hf.
  destruct (aead_dec _ _ _ _ _) as [k|]; [|by apply refuse_zeroed]. destruct (length k =? LD_KEY_LEN)%nat; [|by apply refuse_zeroed]. cbn [negb].
  assert (budget m (set_dek k s)) as Hb1 by (by apply (budget_ram m s)).
  assert (byte_at (take TOKEN_META_LEN (drop (4 + LD_NONCE_LEN + LD_KEY_LEN) r)) 0 = token_boots (flash s)) as Ht.
  { unfold token_boots. rewrite Hf. unfold byte_at. rewrite lookup_take_lt by (unfold TOKEN_META_LEN; lia). by rewrite lookup_drop. }
  rewrite Ht. generalize (token_boots (flash s)) (proj1 Hb). intros t Hbt. set (meta := take TOKEN_META_LEN _).
  destruct (_ <? read_mono env _); [exact (refuse_zeroed env m _ (set_dek k s) Hb1)|].
  set (s2 := if _ <? _ then _ else _). assert (budget m s2 /\ dek_ok s2 = dek_ok s /\ boots_remaining s2 = 0) as (Hb2 & Hd2 & H2).
  { unfold s2. destruct (_ <? _); [|done]. split; [eapply budget_touches; [apply write_mono_touches | keys | done]|].
    pose proof (write_mono_touches env (get_le32 9 meta) (set_dek k s)) as (f & d & -> & _). done. }
  clearbody s2. destruct (t =? 0) eqn:Et; [rewrite <- Hd2; by apply refuse_zeroed|]. apply Z.eqb_neq in Et.
  destruct (_ && _ && _); [rewrite <- Hd2; by apply refuse_zeroed|]. unfold boot_spent. cbn [fst snd].
  set (s3 := set_valid_until _ _). assert (boots_remaining s3 = t - 1) as H3 by done.
  assert (budget (t - 1) (if t - 1 =? 0 then delete_token env s3 else (write_token env (t - 1) (get_le32 1 meta) (get_le32 5 meta) s3).2)) as Hb4.
  { destruct (t - 1 =? 0); [rewrite <- H3; apply (delete_token_zero id); [done | lia] | apply (write_token_budget id); [done | lia | lia]]. }
  revert Hb4. generalize (if t - 1 =? 0 then delete_token env s3 else (write_token env (t - 1) (get_le32 1 meta) (get_le32 5 meta) s3).2). clear s3 H3. intros s4 Hb4.
  assert (budget (m - 1) s4) as Hb5 by (destruct Hb4; split; lia). by apply (budget_ram _ s4).
Qed.

Lemma power_cycle_budget id env m s :
  env_good id env -> budget m s ->
  if dek_ok (power_cycle env s) then budget (m - 1) (power_cycle env s) else budget m (power_cycle env s).
Proof.
  intros Hg Hb. unfold power_cycle, meshtastic_lockdown_init. set (s1 := meshtastic_lockdown_reset (set_wq [] s)).
  assert (budget m s1 /\ boots_remaining s1 = 0 /\ dek_ok s1 = false) as (Hb1 & H1 & Hd1) by (destruct Hb; split; [split; [done | cbn; lia] | done]).
  clearbody s1. destruct (derive_ekek env s1) as [r s2] eqn:Ed.
  assert (budget m s2 /\ boots_remaining s2 = 0 /\ dek_ok s2 = false) as (Hb2 & H2 & Hd2).
  { revert Ed. unfold derive_ekek. destruct (ekek_ok s1); [by intros [= _ <-]|]. destruct (e_devid env); [|by intros [= _ <-]].
    destruct (sha256 _); intros [= _ <-]; [|done]. split; [by apply (budget_ram m s1) | done]. }
  clear Ed. destruct r; [|by rewrite Hd2]. set (s3 := set_provisioned _ s2).
  assert (budget m s3 /\ boots_remaining s3 = 0 /\ dek_ok s3 = false) as (Hb3 & H3 & Hd3) by (split; [by apply (budget_ram m s2) | done]).
  clearbody s3. destruct (negb (provisioned s3)); [by rewrite Hd3|].
  pose proof (bump_touches env s3) as Ht. pose proof (budget_touches m _ _ _ Ht ltac:(keys) Hb3) as Hb4.
  assert (boots_remaining (bump_boots_since_fail env s3) = 0 /\ dek_ok (bump_boots_since_fail env s3) = false) as [H4 Hd4] by (destruct Ht as (f & d & -> & _); done).
  revert Hb4 H4 Hd4. generalize (bump_boots_since_fail env s3). intros s4 Hb4 H4 Hd4.
  pose proof (consume_budget id env m s4 Hg Hb4 H4) as Hc. unfold boot_spent in Hc.
  destruct (consume_token env s4) as [[] s5]; cbn [fst snd] in Hc.
  - destruct (dek_ok s5); [done|]. destruct Hc; split; lia.
  - destruct Hc as [Hb5 Hd5]. change (dek_ok (set_needs_reload true s5)) with (dek_ok s5). rewrite Hd5, Hd4. by apply (budget_ram m s5).
Qed.
Lemma wrap_write_budget m env name v s : budget m s -> name <> LD_KEY_TOKEN -> budget m (wrap_write env name v s).2.
Proof.
  intros Hb Hn. assert (forall x s', budget m s' -> budget m (settings_save_one env name x s').2) as Hsave.
  { intros x s' Hb'. apply (budget_touches m _ _ _ (save_touches env name x s')); [|done]. apply not_elem_of_cons. split; [done | apply not_elem_of_nil]. }
  unfold wrap_write. destruct (_ || _); [by apply Hsave|]. destruct (negb _); [done|].
  destruct (seal_draws env name v LD_RAW_MAX s) as [d Hd]. destruct (meshtastic_lockdown_seal env name v LD_RAW_MAX s) as [[y|e] s1]; cbn [snd] in *; subst s1.
  - apply Hsave. by apply (budget_ram m s).
  - by apply (budget_ram m s).
Qed.

Lemma export_budget m env l : forall s, budget m s -> Forall (fun p => p.1 <> LD_KEY_TOKEN) l -> budget m (export_records env l s).
Proof.
  induction l as [|[name x] l IH]; intros s Hb Hl; [done|]. apply Forall_cons in Hl as [Hn Hl]. cbn [export_records].
  pose proof (wrap_write_budget m env name x s Hb Hn) as Hw. unfold meshtastic_lockdown_export. destruct (wrap_write env name x s) as [[|e] s1]; [by apply IH | done].
Qed.

Lemma rw_one_budget m env seal s name : budget m s -> name ∉ lock_keys -> budget m (rw_one env seal s name).
Proof.
  intros Hb Hn. assert (forall x s', budget m s' -> budget m (settings_save_one env name x s').2) as Hsave.
  { intros x s' Hb'. apply (budget_touches m _ _ _ (save_touches env name x s')); [|done]. intros Hin. apply list_elem_of_singleton in Hin. subst name. apply Hn. keys. }
  unfold rw_one. destruct (rw_read env name s) as [raw|]; [|done]. destruct (Bool.eqb _ _); [done|].
  destruct seal; [|by destruct (meshtastic_lockdown_open name raw LD_RAW_MAX s); [apply Hsave|]].
  destruct (seal_draws env name raw LD_RAW_MAX s) as [d Hd]. destruct (meshtastic_lockdown_seal env name raw LD_RAW_MAX s) as [[y|e] s1]; cbn [snd] in *; subst s1.
  - apply Hsave. by apply (budget_ram m s).
  - by apply (budget_ram m s).
Qed.

Lemma lock_budget m env s : budget m s -> budget m (lock_now_quiet env s).
Proof.
  intros Hb. unfold lock_now_quiet. pose proof (delete_token_budget m env (set_session_due None s) (budget_ram m s _ Hb eq_refl eq_refl)) as Hb1.
  revert Hb1. generalize (delete_token env (set_session_due None s)). intros s1 [H1 H2]. split; [exact H1 | cbn; lia].
Qed.

Lemma remove_budget m env s : budget m s -> budget m (meshtastic_lockdown_remove_artifacts env s).
Proof.
  intros Hb. unfold meshtastic_lockdown_remove_artifacts. set (s1 := foldl _ s _). assert (budget m s1) as Hb1.
  { apply foldl_inv; [|done]. intros s' k _ Hs. destruct (decide (k = LD_KEY_TOKEN)) as [->|Hk]; [by apply delete_token_budget|].
    apply (budget_touches m _ _ _ (delete_touches env k s')); [|done]. intros Hin. apply list_elem_of_singleton in Hin. congruence. }
  clearbody s1. pose proof (lock_budget m env s1 Hb1) as Hb2. revert Hb2. generalize (lock_now_quiet env s1). intros s2 Hb2. by apply (budget_ram m s2).
Qed.

Lemma work_budget m env s : budget m s -> minds (LdWork env) -> budget m (run_work env s).1.
Proof.
  intros Hb Hx. cbn [minds] in Hx. unfold run_work. destruct (wq s) as [|[|] q]; [done | by apply (budget_ram m s)|].
  pose proof (budget_ram m s (set_wq q s) Hb eq_refl eq_refl) as Hb0. revert Hb0. generalize (set_wq q s). clear Hb s. intros s Hb.
  unfold rewrite_work_fn, rewrite_all. set (s1 := foldl _ s export_subtrees). assert (budget m s1) as Hb1.
  { apply foldl_inv; [|done]. intros s' t Ht Hs. apply export_budget; [done|]. by eapply Forall_forall in Hx. }
  set (s2 := foldl _ s1 direct_subtrees). assert (budget m s2) as Hb2.
  { apply foldl_inv; [|done]. intros s' t Ht Hs. apply foldl_inv; [|done]. intros s'' name Hn Hs'. apply rw_one_budget; [done|]. by eapply rw_names. }
  clearbody s2. destruct (negb (sealing_off s)); cbn [fst]; [by apply (budget_ram m s2)|].
  pose proof (remove_budget m env s2 Hb2) as Hb3. revert Hb3. generalize (meshtastic_lockdown_remove_artifacts env s2). intros s3 Hb3. by apply (budget_ram m s3).
Qed.

Lemma reserve_budget m env pass s : budget m s -> budget m (unlock_reserve env pass s).2.
Proof.
  intros Hb. unfold unlock_reserve. destruct (passphrase_bad pass); [done|]. destruct (negb _); [done|].
  destruct (derive_ekek env s) as [r s1] eqn:Ed. assert (budget m s1) as Hb1.
  { revert Ed. unfold derive_ekek. destruct (ekek_ok s); [by intros [= _ <-]|]. destruct (e_devid env); [|by intros [= _ <-]].
    destruct (sha256 _); intros [= _ <-]; [by apply (budget_ram m s) | done]. }
  clear Ed. destruct r; [|done]. destruct (0 <? _); [by apply (budget_ram m s1)|].
  destruct (derive_kek env _ _ _) as [r s2] eqn:Ek. assert (budget m s2) as Hb2.
  { revert Ek. unfold derive_kek. destruct (e_devid env); [|intros [= _ <-]; by apply (budget_ram m s1)].
    destruct (pbkdf2 _ _ _); intros [= _ <-]; by apply (budget_ram m s1). }
  clear Ek. destruct r; [|done]. cbn [snd]. eapply budget_touches; [apply write_backoff_touches | keys | done].
Qed.

Lemma load_dek_frame env s : flash (load_dek env s).2 = flash s /\ boots_remaining (load_dek env s).2 = boots_remaining s.
Proof. unfold load_dek. destruct (dek_record env s); [|done]. destruct (aead_dec _ _ _ _ _); [destruct (_ =? _)%nat|]; done. Qed.

Lemma unlock_budget m env pass b u ss s :
  budget m s -> (meshtastic_lockdown_unlock env pass b u ss s).1 <> OK -> budget m (meshtastic_lockdown_unlock env pass b u ss s).2.
Proof.
  intros Hb. pose proof (reserve_budget m env pass s Hb) as Hr. unfold meshtastic_lockdown_unlock.
  destruct (unlock_reserve env pass s) as [[r|e] s1]; cbn [snd] in *; [|done]. unfold unlock_check. destruct (load_dek_frame env s1) as [Hf Hbr].
  destruct (load_dek env s1) as [[|e] s2]; cbn [snd fst] in *; [done|]. intros _. by apply (budget_ram m s1).
Qed.

Lemma disable_budget m env pass s :
  budget m s -> (meshtastic_lockdown_disable env pass s).1 <> OK -> budget m (meshtastic_lockdown_disable env pass s).2.
Proof.
  intros Hb. unfold meshtastic_lockdown_disable. destruct (negb (provisioned s)); [done|]. destruct (rewrite_pending s || reload_pending s); [done|].
  destruct (negb (dek_ok s) || needs_reload s).
  - pose proof (unlock_budget m env pass 0 0 0 s Hb) as Hu. destruct (meshtastic_lockdown_unlock env pass 0 0 0 s) as [[|e] s1]; [done|]. cbn [fst snd] in *. exact Hu.
  - destruct (derive_kek env _ _ s) as [r s1] eqn:Ek. assert (budget m s1) as Hb1.
    { revert Ek. unfold derive_kek. destruct (e_devid env); [|by intros [= _ <-]]. destruct (pbkdf2 _ _ _); intros [= _ <-]; by apply (budget_ram m s). }
    clear Ek. destruct r; [|intros _; by apply (budget_ram m s1)]. destruct (load_dek_frame env s1) as [Hf Hbr].
    destruct (load_dek env s1) as [[|e] s2]; cbn [snd fst] in *; [done|]. intros _. by apply (budget_ram m s1).
Qed.

Lemma provision_budget m env pass b u ss s :
  budget m s -> (meshtastic_lockdown_provision env pass b u ss s).1 <> OK -> budget m (meshtastic_lockdown_provision env pass b u ss s).2.
Proof.
  intros Hb. unfold meshtastic_lockdown_provision. destruct (passphrase_bad pass); [done|]. destruct (provisioned s); [done|].
  destruct (derive_ekek env s) as [r s1] eqn:Ed. assert (budget m s1) as Hb1.
  { revert Ed. unfold derive_ekek. destruct (ekek_ok s); [by intros [= _ <-]|]. destruct (e_devid env); [|by intros [= _ <-]].
    destruct (sha256 _); intros [= _ <-]; [by apply (budget_ram m s) | done]. }
  clear Ed. destruct r; [|done]. destruct (random_bytes env LD_KEY_LEN s1) as [rk s2] eqn:Er. apply random_spec in Er as [Hs2 _].
  assert (budget m s2) as Hb2 by (subst s2; by apply (budget_ram m s1)). clear Hs2. destruct rk as [k|]; [|done].
  destruct (derive_kek env _ _ _) as [r s3] eqn:Ek. assert (budget m s3) as Hb3.
  { revert Ek. unfold derive_kek. destruct (e_devid env); [|intros [= _ <-]; by apply (budget_ram m s2)].
    destruct (pbkdf2 _ _ _); intros [= _ <-]; by apply (budget_ram m s2). }
  clear Ek. destruct r; [|intros _; by apply (budget_ram m s3)].
  pose proof (budget_touches m _ _ _ (write_dek_touches env (e_iterations env) s3) ltac:(keys) Hb3) as Hb4.
  destruct (write_dek env _ s3) as [[|e] s4]; cbn [fst snd] in *; [done|]. intros _. by apply (budget_ram m s4).
Qed.

Lemma session_budget id m env s :
  env_good id env -> budget m s -> budget (m - Z.of_nat (free_unlock (LdSession env) s)) (run_session env s).1.
Proof.
  intros Hg Hb. unfold free_unlock, run_session. destruct (session_due s); [|by rewrite Z.sub_0_r]. destruct (_ <=? _); [|by rewrite Z.sub_0_r].
  pose proof (budget_ram m s (set_session_due None s) Hb eq_refl eq_refl) as Hb0. revert Hb0. generalize (set_session_due None s). clear Hb s. intros s Hb.
  unfold session_work_fn. destruct (_ || _); [by rewrite Z.sub_0_r|]. destruct (boots_remaining s =? 0) eqn:E0; cbn [fst snd].
  - rewrite Z.sub_0_r. pose proof (lock_budget m env s Hb) as Hb1. revert Hb1. generalize (lock_now_quiet env s). intros s1 Hb1. by apply (budget_ram m s1).
  - unfold meshtastic_lockdown_consume_session_boot. rewrite E0. apply Z.eqb_neq in E0. cbn [snd]. set (n := boots_remaining s - 1).
    assert (0 <= n <= m - 1 /\ 0 <= boots_remaining s) as [Hn Hs] by (destruct Hb; lia).
    set (s1 := if n =? 0 then _ else _). assert (0 <= token_boots (flash s1) <= n) as Ht.
    { unfold s1. destruct (n =? 0).
      - unfold delete_token, settings_delete. rewrite (eg_save id env Hg). cbn [flash set_flash]. unfold token_boots. rewrite lookup_delete_eq. lia.
      - pose proof (write_token_boots id env n (valid_until s) (session_max_ms s / 1000) s Hg) as ->. lia. }
    clearbody s1. change (Z.of_nat 1) with 1. split; [cbn [flash set_session_due set_boots_remaining set_session_started_ms set_session_max_ms meshtastic_lockdown_set_session]; lia | cbn; lia].
Qed.

Lemma ld_step_budget id ev m s :
  env_good id (ev_env ev) -> minds ev -> accepts ev s = false -> budget m s ->
  budget (m - Z.of_nat (free_unlock ev s)) (ld_next s ev).
Proof.
  intros Hg Hm Ha Hb. unfold ld_next.
  destruct ev as [env|env pass|env pass bo u ss|env pass bo u ss|env pass|env|env|env|env k x|env k x cap]; cbn [ld_step ev_env snd fst accepts] in *; try apply bool_decide_eq_false in Ha.
  - pose proof (power_cycle_budget id env m s Hg Hb) as Hp. unfold free_unlock, ld_next. cbn [ld_step snd]. destruct (dek_ok (power_cycle env s)); [done | by rewrite Z.sub_0_r].
  - pose proof (power_cycle_budget id env m _ Hg (reserve_budget m env pass s Hb)) as Hp. unfold free_unlock, ld_next. cbn [ld_step snd].
    destruct (dek_ok (power_cycle env _)); [done | by rewrite Z.sub_0_r].
  - rewrite Z.sub_0_r. by apply provision_budget.
  - rewrite Z.sub_0_r. by apply unlock_budget.
  - rewrite Z.sub_0_r. by apply disable_budget.
  - rewrite Z.sub_0_r. by apply lock_budget.
  - by apply (session_budget id).
  - rewrite Z.sub_0_r. by apply work_budget.
  - rewrite Z.sub_0_r. by apply wrap_write_budget.
  - rewrite Z.sub_0_r. unfold meshtastic_lockdown_wrap_buf. destruct (_ || _); [done|]. destruct (negb _); [done|].
    destruct (seal_draws env k x cap s) as [d ->]. by apply (budget_ram m s).
Qed.
Lemma ld_run_budget id evs : forall m s,
  Forall (fun ev => env_good id (ev_env ev) /\ minds ev) evs -> none_accepted s evs = true -> budget m s ->
  budget (m - Z.of_nat (free_unlocks s evs)) (ld_run s evs).
Proof.
  induction evs as [|ev evs IH]; intros m s Hg Ha Hb; cbn [free_unlocks ld_run foldl]; [by rewrite Z.sub_0_r|].
  apply Forall_cons in Hg as [[Hg Hm] Hgs]. cbn in Ha. apply andb_true_iff in Ha as [Ha Has]. apply negb_true_iff in Ha.
  pose proof (IH _ _ Hgs Has (ld_step_budget id ev m s Hg Hm Ha Hb)) as Hr. rewrite Nat2Z.inj_add, Z.sub_add_distr. exact Hr.
Qed.

Lemma issue_token_budget id env b u ss s :
  env_good id env -> 0 <= boots_or_default env b -> budget (boots_or_default env b) (issue_token env b u ss s).
Proof.
  intros Hg Hb. unfold issue_token. pose proof (write_token_boots id env (boots_or_default env b) u (session_or_default env ss) s Hg) as Ht.
  revert Ht. generalize (write_token env (boots_or_default env b) u (session_or_default env ss) s).2. intros s1 Ht.
  split; [change (0 <= token_boots (flash s1) <= boots_or_default env b); lia | cbn; lia].
Qed.

Lemma submit_budget m w s : budget m s -> budget m (k_work_submit w s).
Proof. intros Hb. unfold k_work_submit. destruct (decide _); [done|]. by apply (budget_ram m s). Qed.

Lemma reload_budget m s : budget m s -> budget m (if needs_reload s then k_work_submit RELOAD (set_reload_pending true s) else s).
Proof. intros Hb. destruct (needs_reload s); [|done]. apply submit_budget. by apply (budget_ram m s). Qed.

(** An accepted passphrase, for the first time or later, with [boots] boots. *)
Inductive accepted (env : ld_env) (boots : Z) : ld -> Prop :=
  | AcceptedFirst pass u ss s0 s : meshtastic_lockdown_provision env pass boots u ss s0 = (OK, s) -> accepted env boots s
  | AcceptedAgain pass u ss s0 s : meshtastic_lockdown_unlock env pass boots u ss s0 = (OK, s) -> accepted env boots s.

Lemma accepted_budget id env b s : env_good id env -> 0 <= boots_or_default env b -> accepted env b s -> budget (boots_or_default env b) s.
Proof.
  intros Hg Hb [pass u ss s0 s1 E|pass u ss s0 s1 E].
  - unfold meshtastic_lockdown_provision in E. destruct (passphrase_bad pass); [done|]. destruct (provisioned s0); [done|].
    destruct (derive_ekek env s0) as [[|e] s2]; [|done]. destruct (random_bytes env LD_KEY_LEN s2) as [[k|e] s3]; [|done].
    destruct (derive_kek env _ _ _) as [[|e] s4]; [|done]. destruct (write_dek env _ s4) as [[|e] s5]; [|done].
    apply pair_equal_spec in E as [_ E]. rewrite <- E. apply submit_budget. cbv zeta.
    pose proof (issue_token_budget id env b u ss (clear_backoff env (set_dek_ok true (set_provisioned true (forget_kek s5)))) Hg Hb) as Hi.
    revert Hi. generalize (issue_token env b u ss (clear_backoff env (set_dek_ok true (set_provisioned true (forget_kek s5))))). intros s6 Hi. by apply (budget_ram _ s6).
  - unfold meshtastic_lockdown_unlock in E. destruct (unlock_reserve env pass s0) as [[r|e] s2]; [|done]. unfold unlock_check in E.
    destruct (load_dek env s2) as [[|e] s3]; [|done]. apply pair_equal_spec in E as [_ E]. rewrite <- E.
    exact (reload_budget _ _ (issue_token_budget id env b u ss (clear_backoff env (forget_kek s3)) Hg Hb)).
Qed.

(** An unlock buys what was asked for. After a passphrase is accepted with a budget of
    boots, and until one is accepted again, the boots that come up unlocked and the
    sessions the timer extends are together at most that budget, whatever the order of
    boots, power cuts, timeouts, locks, saves and wrong passphrases; once it is spent the
    next boot is a locked one. *)
Theorem unlock_budget_kept id env b s evs :
  env_good id env -> 0 <= b <= 255 -> accepted env b s ->
  Forall (fun ev => env_good id (ev_env ev) /\ minds ev) evs -> none_accepted s evs = true ->
  Z.of_nat (free_unlocks s evs) <= boots_or_default env b /\
  (forall env', env_good id env' -> Z.of_nat (free_unlocks s evs) = boots_or_default env b ->
     dek_ok (power_cycle env' (ld_run s evs)) = false).
Proof.
  intros Hg Hb Ha Hevs Hn. assert (0 <= boots_or_default env b) as Hbd by (unfold boots_or_default; destruct (negb _); [lia | apply u8_range]).
  pose proof (ld_run_budget id evs _ s Hevs Hn (accepted_budget id env b s Hg Hbd Ha)) as Hr.
  split; [pose proof (budget_nonneg _ _ Hr); lia|]. intros env' Hg' He. pose proof (power_cycle_budget id env' _ _ Hg' Hr) as Hp.
  destruct (dek_ok (power_cycle env' _)); [|done]. pose proof (budget_nonneg _ _ Hp). lia.
Qed.
End Budget.

(** ** A concrete cipher, for the examples *)

Definition toy_tag (k n a p : list Z) : list Z :=
  (fun i => (byte_at k i + foldr Z.add 0 n + foldr Z.add 0 a + foldr Z.add 0 p) `mod` 256) <$> seq 0 LD_TAG_LEN.
Definition toy_enc (k n a p : list Z) : option (list Z) := Some (p ++ toy_tag k n a p).
Definition toy_dec (k n a c : list Z) : option (list Z) :=
  let p := take (length c - LD_TAG_LEN) c in
  if bool_decide (c = p ++ toy_tag k n a p) then Some p else None.
Definition toy_kdf (p s : list Z) (r : Z) : option (list Z) := Some (take LD_KEY_LEN (p ++ replicate LD_KEY_LEN 0)).

Lemma toy_tag_len k n a p : length (toy_tag k n a p) = LD_TAG_LEN.
Proof. unfold toy_tag. by rewrite length_fmap, length_seq. Qed.

#[local] Program Instance toy_crypto : Crypto :=
  {| gcm_enc := toy_enc; gcm_dec := toy_dec; pbkdf2 := toy_kdf;
     sha256 := fun m => Some (take 32 (m ++ replicate 32 0)) |}.
Next Obligation.
  intros k n a p c [= <-]. unfold toy_dec. rewrite length_app, toy_tag_len, Nat.add_sub, take_app_length.
  by rewrite bool_decide_eq_true_2.
Qed.
Next Obligation. intros k n a p c [= <-]. by rewrite length_app, toy_tag_len. Qed.
Next Obligation.
  intros k n a p c Hp [= <-]. apply Forall_app. split; [done|]. apply Forall_fmap, Forall_forall. intros i _. cbn.
  unfold byte_ok. apply Z.mod_pos_bound. lia.
Qed.
Next Obligation. intros p s r k Hk. apply (inj Some) in Hk. subst k. rewrite length_take, length_app, length_replicate. apply Nat.min_l. lia. Qed.

Definition toy_names (t : list Z) (f : store) : list (list Z) :=
  let pre := t ++ chars "/" in
  (fun p => drop (length pre) p.1) <$> List.filter (fun p => bool_decide (take (length pre) p.1 = pre)) (map_to_list f).

Definition sample_id : list Z := [1; 2; 3; 4; 5; 6; 7; 8].
Definition sample_env (ms : Z) : ld_env :=
  {| e_devid := Some sample_id; e_rand := fun i n => Some (replicate n (Z.of_nat (S i) `mod` 256));
     e_save_ok := fun _ => true; e_read_ok := fun _ => true; e_names := toy_names; e_export := fun _ => [];
     e_uptime := ms; e_clock := None; e_iterations := 10000; e_default_boots := 50; e_default_session := 0;
     e_max_names := 16 |}.
Definition blank : ld := meshtastic_lockdown_reset (Ld [] [] [] false false false false "" 0 0 0 0 0 0 false false false false false ∅ 0 [] None).
Definition PP : option (list Z) := Some (chars "open sesame").
Definition WRONG : option (list Z) := Some (chars "guess").
Definition REC_NAME : list Z := chars "mtclus/a".

Lemma sample_good ms : env_good sample_id (sample_env ms).
Proof. split; [done | done | | by intros; eexists | done]. intros i n. eexists. split; [done|]. apply length_replicate. Qed.

Definition provisioned_now : ld := (meshtastic_lockdown_provision (sample_env 1000) PP 3 0 0 blank).2.
Definition locked_now : ld := (meshtastic_lockdown_lock_now (sample_env 2000) provisioned_now).1.
Definition guessing : list ld_event :=
  [LdUnlock (sample_env 3000) WRONG 0 0 0; LdUnlock (sample_env 9000) PP 0 0 0; LdSave (sample_env 9000) REC_NAME [1; 2; 3];
   LdCut (sample_env 9000) WRONG; LdUnlock (sample_env 9500) WRONG 0 0 0; LdBoot (sample_env 9000);
   LdCut (sample_env 9000) WRONG; LdBoot (sample_env 9000); LdBoot (sample_env 9000); LdBoot (sample_env 9000);
   LdDisable (sample_env 3000) WRONG].

Lemma locked_now_ok : newly_locked sample_id locked_now.
Proof.
  split; [|vm_compute; done | vm_compute; eauto | vm_compute; done].
  eexists. split; [reflexivity|]. split; [intros _; vm_compute; done|]. right. eexists. split; [vm_compute; reflexivity|].
  exists (replicate 12 3). eexists. split; [vm_compute; reflexivity|]. split; [done|]. vm_compute. reflexivity.
Qed.

Lemma guessing_fails : none_accepted locked_now guessing = true.
Proof. vm_compute. reflexivity. Qed.

Lemma guesses_cost_reboots_witness :
  guesses_of locked_now guessing = 3%nat /\ boots_of guessing = 6%nat /\
  sum_with (fun i => Z.min 180 (2 ^ (i - 1))) (Z.of_nat <$> seq 1 (3 - 1)) <= 6.
Proof.
  assert (guesses_of locked_now guessing = 3%nat) as Hn by (vm_compute; reflexivity).
  destruct (guesses_cost_reboots sample_id locked_now guessing locked_now_ok) as (_ & Hc & _).
  - repeat (apply Forall_cons_2; [apply sample_good|]). apply Forall_nil_2.
  - exact guessing_fails.
  - rewrite Hn in Hc. split; [exact Hn|]. split; [reflexivity | exact Hc].
Defined.

(** The owner's record through a lock, a reboot, two wrong passphrases and the wait. *)
Definition saved_now : ld := (meshtastic_lockdown_save_one (sample_env 1500) REC_NAME [7; 8; 9] (ld_run provisioned_now [LdWork (sample_env 1200); LdBoot (sample_env 100)])).2.
Definition afterwards : list ld_event :=
  [LdLock (sample_env 2000); LdUnlock (sample_env 3000) WRONG 0 0 0; LdSave (sample_env 3000) (chars "mtclus/b") [1];
   LdBoot (sample_env 100); LdCut (sample_env 100) WRONG; LdBoot (sample_env 100)].

Lemma provisioned_now_eq : meshtastic_lockdown_provision (sample_env 1000) PP 3 0 0 blank = (OK, provisioned_now).
Proof. vm_compute. reflexivity. Qed.
Lemma saved_now_eq :
  meshtastic_lockdown_save_one (sample_env 1500) REC_NAME [7; 8; 9] (ld_run provisioned_now [LdWork (sample_env 1200); LdBoot (sample_env 100)]) = (OK, saved_now).
Proof. vm_compute. reflexivity. Qed.
Lemma sample_rand ms : rand_ok (sample_env ms).
Proof. intros i n r [= <-]. apply length_replicate. Qed.
Lemma early_calm : calm_run sample_id (chars "open sesame") REC_NAME provisioned_now [LdWork (sample_env 1200); LdBoot (sample_env 100)].
Proof.
  split; [split; [apply sample_rand|]; split; [done | apply Forall_forall; intros t _; apply Forall_nil_2]|].
  split; [split; [apply sample_rand | done] | done].
Qed.
Lemma wrong_refused :
  let s := ld_run saved_now [LdLock (sample_env 2000)] in
  dek_ok s = false /\ (ld_step (LdUnlock (sample_env 3000) WRONG 0 0 0) s).1 = ERR EACCES.
Proof. vm_compute. done. Qed.
Lemma later_calm : calm_run sample_id (chars "open sesame") REC_NAME saved_now afterwards.
Proof.
  destruct wrong_refused as [Hd Hr]. cbn [afterwards calm_run].
  split; [split_and!; [apply sample_rand | done | done]|].
  split; [split_and!; [apply sample_rand | done | right; split; [exact Hd | intros Hx; pose proof (eq_trans (eq_sym Hr) Hx) as Hbad; discriminate Hbad]]|].
  split; [split_and!; [apply sample_rand | done | split; keys]|].
  repeat (split; [split_and!; [apply sample_rand | done | done]|]). done.
Qed.
Lemma after_locked : dek_ok (ld_run saved_now afterwards) = false.
Proof. vm_compute. reflexivity. Qed.


(** Three boots were bought, and three come up unlocked. *)
Definition boots : list ld_event := replicate 5 (LdBoot (sample_env 100)).
Lemma boots_refused : none_accepted provisioned_now boots = true.
Proof. vm_compute. reflexivity. Qed.
Lemma unlock_budget_kept_witness : free_unlocks provisioned_now boots = 3%nat /\ Z.of_nat (free_unlocks provisioned_now boots) <= 3.
Proof.
  split; [vm_compute; reflexivity|].
  apply (unlock_budget_kept sample_id (sample_env 1000) 3 provisioned_now boots).
  - apply sample_good.
  - lia.
  - eapply AcceptedFirst. exact provisioned_now_eq.
  - unfold boots. apply Forall_replicate. split; [apply sample_good | done].
  - exact boots_refused.
Defined.

(** ** What the code does otherwise *)

(** A wrong passphrase on an unlocked device erases the key in RAM and leaves it marked as
    present: what was sealed cannot be read, and what is saved now is sealed under zeros. *)
Lemma wrong_passphrase_zeroes_key :
  let s := (meshtastic_lockdown_unlock (sample_env 3000) WRONG 0 0 0 saved_now).2 in
  let raw := default [] (flash s !! REC_NAME) in
  let s' := (meshtastic_lockdown_save_one (sample_env 4000) (chars "mtclus/b") [1; 2] s).2 in
  let raw' := default [] (flash s' !! chars "mtclus/b") in
  meshtastic_lockdown_store_ready s = true /\ dek s = key_zero /\
  meshtastic_lockdown_read REC_NAME (length raw) (Val raw) 3 s = Fail EBADMSG /\
  gcm_dec key_zero (take 12 (drop 4 raw')) (seal_aad (chars "mtclus/b")) (drop 16 raw') = Some [1; 2].
Proof. vm_compute. done. Qed.

(** On an unlocked device the disable checks passphrases without counting them. *)
Lemma disable_guesses_unlimited :
  let guess := LdDisable (sample_env 3000) WRONG in
  let s := ld_run saved_now (replicate 300 guess) in
  (ld_step guess s).1 = ERR EACCES /\ read_backoff (sample_env 3000) s = (0, 0, 0) /\
  (ld_step (LdDisable (sample_env 3000) PP) s).1 = OK.
Proof. vm_compute. done. Qed.

(** At the last attempt the wait has no end: boots are no longer counted. *)
Lemma lockout_is_permanent :
  let s := set_flash (<[LD_KEY_BACKOFF := [0]]> (flash locked_now)) locked_now in
  (meshtastic_lockdown_unlock (sample_env 100000000) PP 0 0 0 (ld_run s (replicate 300 (LdBoot (sample_env 100))))).1 = ERR EAGAIN.
Proof. vm_compute. reflexivity. Qed.

(** A disable of a locked device lets saves through before the reload. *)
Lemma disable_before_reload_writes :
  let s := ld_run saved_now [LdLock (sample_env 2000); LdBoot (sample_env 100)] in
  let '(ret, s1) := ld_step (LdDisable (sample_env 500) PP) s in
  ret = OK /\ reload_pending s1 = true /\ flash (ld_next s1 (LdSave (sample_env 600) REC_NAME [0])) !! REC_NAME = Some [0].
Proof. vm_compute. done. Qed.

(** A lock between a disable and its rewrite loses the records written one by one. *)
Lemma lock_during_disable_loses :
  let s := ld_run saved_now [LdDisable (sample_env 2000) PP; LdLock (sample_env 2100); LdWork (sample_env 2200)] in
  let raw := default [] (flash s !! REC_NAME) in
  disable_done s = true /\ provisioned s = false /\ flash s !! LD_KEY_DEK = None /\
  meshtastic_lockdown_read REC_NAME (length raw) (Val raw) 3 s = Fail EBADMSG.
Proof. vm_compute. done. Qed.

(** So does a disable when a subtree has more records than it collects. *)
Definition many : list ld_event := (fun i => LdSave (sample_env 1600) (chars "mtclus/x" ++ [97 + Z.of_nat i]) [1]) <$> seq 0 17.
Lemma disable_overflow_loses :
  let s := ld_run saved_now (many ++ [LdDisable (sample_env 2000) PP; LdWork (sample_env 2200)]) in
  disable_done s = true /\ provisioned s = false /\
  existsb (fun p => meshtastic_lockdown_is_sealed p.2) (map_to_list (flash s)) = true.
Proof. vm_compute. done. Qed.

(** A cap of fifty days is over after a second, and the next token has none. *)
Lemma long_session_wraps :
  let s := (meshtastic_lockdown_provision (sample_env 1000) PP 3 0 4294968 blank).2 in
  meshtastic_lockdown_session_expired (sample_env 2000) s = true /\
  session_due (meshtastic_lockdown_consume_session_boot (sample_env 5000000000) s).2 = None.
Proof. vm_compute. done. Qed.
