(* ===== verification/LockdownPhone.v ===== *)
(** * Lockdown on the phone's connections (src/src/meshtastic_phoneapi_lockdown.c)

    Each transport has one connection at a time with an authorization flag. A packet from
    the phone passes the gate when lockdown is inactive or its connection has proven the
    passphrase; a passphrase travels in an admin packet to the node, is put in the one job
    slot and checked by a work item. The storage core is [Lockdown]; what it reports
    revokes or grants. Functions of the protobuf library are arguments; status frames and
    the reboot are outputs. A transport is its index in the table of transports. *)
From S2P Require Import Prelude Packet Lockdown.
Open Scope Z_scope.

Definition LOCKDOWN_REBOOT_SECONDS : Z := 7.
Definition TRANSPORTS_MAX : nat := 4.
Definition LOCK_REASON_LEN : nat := 32.
Definition ADMIN_APP : Z := 6.
Definition LOCKDOWN_AUTH_TAG : Z := 104.

(** ** Data *)

(** The lockdown fields of [struct meshtastic_phoneapi]. *)
Record conn := Conn {
  admin_authorized : bool;
  pending_unlock : bool;
  conn_epoch : Z;
}.
Definition set_admin_authorized (v : bool) (r : conn) : conn :=
Conn v (pending_unlock r) (conn_epoch r).
Definition set_pending_unlock (v : bool) (r : conn) : conn :=
Conn (admin_authorized r) v (conn_epoch r).
Definition set_conn_epoch (v : Z) (r : conn) : conn :=
Conn (admin_authorized r) (pending_unlock r) v.

(** LockdownAuth, decoded. *)
Record lockdown_auth := LockdownAuth {
  la_passphrase : list Z; la_boots_remaining : Z; la_valid_until_epoch : Z; la_lock_now : bool;
  la_max_session_seconds : Z; la_disable : bool }.

Record auth_job := AuthJob {
  j_api : nat; j_epoch : Z; j_passphrase : list Z; j_boots : Z; j_valid_until : Z; j_session_s : Z; j_disable : bool }.

Inductive status := LOCKED | UNLOCKED | UNLOCK_FAILED | DISABLED.
Record lockdown_status := LockdownStatus {
  ls_state : status; ls_lock_reason : string; ls_boots : Z; ls_until : Z; ls_backoff : Z }.

(** [p_job]: the slot, [None] while [job_busy] is clear. *)
Record phone := Phone {
  p_core : ld;
  p_conns : list conn;
  p_job : option auth_job;
  disable_by_phone : bool;
  reboot_at : option Z;
}.
Definition set_p_core (v : ld) (r : phone) : phone :=
Phone v (p_conns r) (p_job r) (disable_by_phone r) (reboot_at r).
Definition set_p_conns (v : list conn) (r : phone) : phone :=
Phone (p_core r) v (p_job r) (disable_by_phone r) (reboot_at r).
Definition set_p_job (v : option auth_job) (r : phone) : phone :=
Phone (p_core r) (p_conns r) v (disable_by_phone r) (reboot_at r).
Definition set_disable_by_phone (v : bool) (r : phone) : phone :=
Phone (p_core r) (p_conns r) (p_job r) v (reboot_at r).
Definition set_reboot_at (v : option Z) (r : phone) : phone :=
Phone (p_core r) (p_conns r) (p_job r) (disable_by_phone r) v.

(** A frame for a transport, in the order they are queued. *)
Abbreviation frames := (list (nat * lockdown_status)).

(** The protobuf library: the next tag (wire type, number, rest), a length-delimited field
    (its bytes, rest), the message, and the rest after a field that is skipped. *)
Inductive tag_read := Tag (wt tag : Z) (rest : list Z) | TagEof | TagBad.
Record pb_lib := PbLib {
  pb_decode_tag : list Z -> tag_read;
  pb_string : list Z -> option (list Z * list Z);
  pb_decode_auth : list Z -> option lockdown_auth;
  pb_skip_field : Z -> list Z -> option (list Z) }.
Definition PB_WT_STRING : Z := 2.

Section Phone.
Context `{Crypto}.

(** ** Authorization *)

Definition meshtastic_phoneapi_authorized (i : nat) (p : phone) : bool :=
  if negb (meshtastic_lockdown_active (p_core p)) then true
  else match p_conns p !! i with Some c => admin_authorized c | None => false end.

Definition on_conn (i : nat) (f : conn -> conn) (p : phone) : phone := set_p_conns (alter f i (p_conns p)) p.

Definition authorize (i : nat) (p : phone) : phone :=
  on_conn i (fun c => set_pending_unlock false (set_admin_authorized true c)) p.

Definition snapshot_transports (p : phone) : list nat := seq 0 (Nat.min (length (p_conns p)) TRANSPORTS_MAX).

Definition revoke_all (p : phone) : phone :=
  foldl (fun p i => on_conn i (fun c => set_pending_unlock false (set_admin_authorized false c)) p) p
    (snapshot_transports p).

(** The connection ends: [meshtastic_phoneapi_session_reset]. *)
Definition meshtastic_phoneapi_session_reset (i : nat) (p : phone) : phone :=
  on_conn i (fun c => Conn false false (u32 (conn_epoch c + 1))) p.

(** ** Status frames *)

(** The reason is cut to the field it is copied to. *)
Definition fill_status (st : status) (reason : option string) (boots until backoff : Z) : lockdown_status :=
  {| ls_state := st;
     ls_lock_reason := match st, reason with
                       | LOCKED, Some r => String.substring 0 (LOCK_REASON_LEN - 1) r
                       | _, _ => ""
                       end;
     ls_boots := boots; ls_until := until; ls_backoff := backoff |}.

Definition queue_status (i : nat) (st : status) (reason : option string) (boots until backoff : Z) : frames :=
  [(i, fill_status st reason boots until backoff)].

Definition broadcast_status (p : phone) (st : status) (reason : option string) (boots until backoff : Z) : frames :=
  (fun i => (i, fill_status st reason boots until backoff)) <$> snapshot_transports p.

Definition meshtastic_phoneapi_lockdown_fill_status (i : nat) (p : phone) : option lockdown_status :=
  let core := p_core p in
  if negb (meshtastic_lockdown_active core) then Some (fill_status DISABLED None 0 0 0)
  else if match p_conns p !! i with Some c => admin_authorized c | None => false end then None
  else Some (fill_status LOCKED
               (Some (if meshtastic_lockdown_unlocked core then "needs_auth" else lock_reason core)) 0 0 0).

Definition schedule_reboot (env : ld_env) (p : phone) : phone :=
  set_reboot_at (Some (e_uptime env + LOCKDOWN_REBOOT_SECONDS * 1000)) p.
Definition meshtastic_phoneapi_lockdown_reboot_pending (p : phone) : bool := bool_decide (is_Some (reboot_at p)).
Definition meshtastic_phoneapi_lockdown_cancel_reboot (p : phone) : phone := set_reboot_at None p.

(** ** The core's events *)

Definition is_pending (p : phone) (i : nat) : bool :=
  match p_conns p !! i with Some c => pending_unlock c | None => false end.

Definition complete_pending_unlocks (p : phone) : phone * frames :=
  let boots := boots_remaining (p_core p) in
  let until := valid_until (p_core p) in
  foldl (fun acc i =>
    if is_pending acc.1 i
    then (authorize i acc.1, acc.2 ++ queue_status i UNLOCKED None boots until 0)
    else acc) (p, []) (snapshot_transports p).

Definition on_event (env : ld_env) (ev : event) (p : phone) : phone * frames :=
  let core := p_core p in
  match ev with
  | EV_LOCKED =>
      let p := revoke_all p in (p, broadcast_status p LOCKED (Some (lock_reason core)) 0 0 0)
  | EV_RELOADED => complete_pending_unlocks p
  | EV_DISABLED =>
      (if disable_by_phone p then schedule_reboot env (set_disable_by_phone false p) else p,
       broadcast_status p DISABLED None 0 0 0)
  | EV_SESSION_ROLLED =>
      let p := revoke_all p in
      (p, broadcast_status p LOCKED (Some "needs_auth"%string) (boots_remaining core) (valid_until core) 0)
  | EV_SESSION_EXHAUSTED =>
      let p := revoke_all p in
      (schedule_reboot env p, broadcast_status p LOCKED (Some (lock_reason core)) 0 0 0)
  end.

(** A function of the core has run, and its events are delivered. *)
Fixpoint deliver (env : ld_env) (out : list ld_out) (p : phone) : phone * frames :=
  match out with
  | [] => (p, [])
  | Emit ev :: out =>
      let '(p, f) := on_event env ev p in
      let '(p, f') := deliver env out p in (p, f ++ f')
  | _ :: out => deliver env out p
  end.
Definition core_ran (env : ld_env) (x : ld * list ld_out) (p : phone) : phone * frames :=
  deliver env x.2 (set_p_core x.1 p).

(** ** The passphrase job *)

Definition job_failed (i : nat) (ret : errno) (p : phone) : frames :=
  let backoff := match ret with EACCES | EAGAIN => backoff_remaining_s (p_core p) | _ => 0 end in
  queue_status i UNLOCK_FAILED None 0 0 backoff.

(** What the core answers to the job. *)
Definition job_call (env : ld_env) (j : auth_job) (core : ld) : cret * ld :=
  let pass := Some (j_passphrase j) in
  if j_disable j then meshtastic_lockdown_disable env pass core
  else if negb (meshtastic_lockdown_active core)
  then meshtastic_lockdown_provision env pass (j_boots j) (j_valid_until j) (j_session_s j) core
  else meshtastic_lockdown_unlock env pass (j_boots j) (j_valid_until j) (j_session_s j) core.

Definition same_conn (j : auth_job) (p : phone) : bool :=
  match p_conns p !! j_api j with Some c => conn_epoch c =? j_epoch j | None => false end.

Definition auth_work_fn (env : ld_env) (p : phone) : phone * frames :=
  match p_job p with
  | None => (p, [])
  | Some j =>
      let i := j_api j in
      let '(ret, core) := job_call env j (p_core p) in
      let p := set_p_job None (set_p_core core p) in
      let same := same_conn j p in
      match ret with
      | ERR e => (p, if same then job_failed i e p else [])
      | OK =>
          if j_disable j
          then (set_disable_by_phone true (if same then authorize i p else p), [])
          else if negb (meshtastic_lockdown_store_ready core)
          then (if same then on_conn i (set_pending_unlock true) p else p, [])
          else if same
          then (authorize i p, queue_status i UNLOCKED None (boots_remaining core) (valid_until core) 0)
          else (p, [])
      end
  end.

(** ** The transport's thread *)

(** [fuel]: one round per tag; a tag takes a byte or more. *)
Fixpoint peek_loop (pb : pb_lib) (fuel : nat) (buf : list Z) : res (option lockdown_auth) :=
  match buf, fuel with
  | [], _ => Val None
  | _, O => Fail EBADMSG
  | _, S fuel =>
      match pb_decode_tag pb buf with
      | TagEof => Val None
      | TagBad => Fail EBADMSG
      | Tag wt tag rest =>
          if (tag =? LOCKDOWN_AUTH_TAG) && (wt =? PB_WT_STRING) then
            match pb_string pb rest with
            | None => Fail EBADMSG
            | Some (sub, _) => match pb_decode_auth pb sub with Some la => Val (Some la) | None => Fail EBADMSG end
            end
          else match pb_skip_field pb wt rest with
               | None => Fail EBADMSG
               | Some rest => peek_loop pb fuel rest
               end
      end
  end.
Definition peek_lockdown_auth (pb : pb_lib) (buf : list Z) : res (option lockdown_auth) := peek_loop pb (length buf) buf.

Definition handle_auth (env : ld_env) (i : nat) (la : lockdown_auth) (p : phone) : phone * frames :=
  let failed := queue_status i UNLOCK_FAILED None 0 0 0 in
  if la_lock_now la then
    if negb (meshtastic_phoneapi_authorized i p) || negb (meshtastic_lockdown_active (p_core p)) then (p, failed)
    else
      let '(p, f) := core_ran env (meshtastic_lockdown_lock_now env (p_core p)) p in (schedule_reboot env p, f)
  else if la_disable la && negb (meshtastic_lockdown_active (p_core p)) then (p, queue_status i DISABLED None 0 0 0)
  else if (length (la_passphrase la) =? 0)%nat || (MESHTASTIC_LOCKDOWN_PASSPHRASE_MAX <? length (la_passphrase la))%nat
  then (p, failed)
  else if 255 <? la_boots_remaining la then (p, failed)
  else match p_job p, p_conns p !! i with
       | None, Some c =>
           (set_p_job (Some (AuthJob i (conn_epoch c) (la_passphrase la) (u8 (la_boots_remaining la))
              (la_valid_until_epoch la) (la_max_session_seconds la) (la_disable la))) p, [])
       | _, _ => (p, failed)
       end.

(** An admin packet to this node that carries a LockdownAuth. *)
Definition packet_auth (pb : pb_lib) (self : Z) (pkt : mesh_packet) : option lockdown_auth :=
  match m_variant pkt with
  | VARIANT_DECODED =>
      if (d_portnum (m_decoded pkt) =? ADMIN_APP) && (m_to pkt =? self)
      then match peek_lockdown_auth pb (d_payload (m_decoded pkt)) with Val (Some la) => Some la | _ => None end
      else None
  | _ => None
  end.

(** What the caller does with the packet. *)
Inductive gate_verdict := Pass | Handled | Refused (e : errno).

Definition meshtastic_phoneapi_lockdown_gate (env : ld_env) (pb : pb_lib) (self : Z) (i : nat) (pkt : mesh_packet) (p : phone)
    : gate_verdict * phone * frames :=
  match packet_auth pb self pkt with
  | Some la => let '(p, f) := handle_auth env i la p in (Handled, p, f)
  | None => if meshtastic_phoneapi_authorized i p then (Pass, p, []) else (Refused EACCES, p, [])
  end.

(** ** Runs *)

Inductive ph_event :=
  | PhEnd (i : nat)                                                     (* the connection of a transport ends *)
  | PhPacket (env : ld_env) (pb : pb_lib) (self : Z) (i : nat) (pkt : mesh_packet)
  | PhAuth (env : ld_env)                                               (* the job's work item *)
  | PhWork (env : ld_env)                                               (* the core's work item *)
  | PhSession (env : ld_env)
  | PhLock (env : ld_env)                                               (* a lock from the console *)
  | PhCore (f : ld -> ld).                                              (* anything else that is done to the core *)

Definition ph_step (p : phone) (ev : ph_event) : phone :=
  match ev with
  | PhEnd i => meshtastic_phoneapi_session_reset i p
  | PhPacket env pb self i pkt => (meshtastic_phoneapi_lockdown_gate env pb self i pkt p).1.2
  | PhAuth env => (auth_work_fn env p).1
  | PhWork env => (core_ran env (run_work env (p_core p)) p).1
  | PhSession env => (core_ran env (run_session env (p_core p)) p).1
  | PhLock env => (core_ran env (meshtastic_lockdown_lock_now env (p_core p)) p).1
  | PhCore f => set_p_core (f (p_core p)) p
  end.

(** What a run has shown: the transports whose connection had a passphrase accepted since it
    began and since the last revocation, and whether the connection that sent the job in
    the slot is still the same. *)
Record shown := Shown { proven : list bool; live : bool }.

Definition revoking (o : ld_out) : bool :=
  match o with Emit EV_LOCKED | Emit EV_SESSION_ROLLED | Emit EV_SESSION_EXHAUSTED => true | _ => false end.
Definition after_core (out : list ld_out) (g : shown) : shown :=
  if existsb revoking out then Shown ((fun _ => false) <$> proven g) (live g) else g.
Definition locks (pb : pb_lib) (self : Z) (i : nat) (pkt : mesh_packet) (p : phone) : bool :=
  match packet_auth pb self pkt with
  | Some la => la_lock_now la && meshtastic_phoneapi_authorized i p && meshtastic_lockdown_active (p_core p)
  | None => false
  end.

Definition show (p : phone) (ev : ph_event) (g : shown) : shown :=
  match ev with
  | PhEnd i => Shown (<[i := false]> (proven g)) (live g && match p_job p with Some j => negb (j_api j =? i)%nat | None => true end)
  | PhPacket env pb self i pkt =>
      let g := if locks pb self i pkt p then Shown ((fun _ => false) <$> proven g) (live g) else g in
      match p_job p with None => Shown (proven g) true | Some _ => g end
  | PhAuth env =>
      match p_job p with
      | Some j => if bool_decide ((job_call env j (p_core p)).1 = OK) && live g
                  then Shown (<[j_api j := true]> (proven g)) (live g) else g
      | None => g
      end
  | PhWork env => after_core (run_work env (p_core p)).2 g
  | PhSession env => after_core (run_session env (p_core p)).2 g
  | PhLock env => after_core (meshtastic_lockdown_lock_now env (p_core p)).2 g
  | PhCore _ => g
  end.

Fixpoint ph_run (p : phone) (g : shown) (evs : list ph_event) : phone * shown :=
  match evs with [] => (p, g) | ev :: evs => ph_run (ph_step p ev) (show p ev g) evs end.
Definition ends (evs : list ph_event) : nat := length (List.filter (fun ev => match ev with PhEnd _ => true | _ => false end) evs).

(** ** Authorization invariant *)

Definition flag (c : conn) : bool := admin_authorized c || pending_unlock c.

(** The same connections, none with more than it had. *)
Definition weaker (l l' : list conn) : Prop :=
  length l' = length l /\
  forall i c', l' !! i = Some c' -> exists c, l !! i = Some c /\ conn_epoch c' = conn_epoch c /\ (flag c' = true -> flag c = true).

Lemma weaker_refl l : weaker l l.
Proof. split; [done|]. intros i c Hc. by exists c. Qed.
Lemma weaker_trans l1 l2 l3 : weaker l1 l2 -> weaker l2 l3 -> weaker l1 l3.
Proof.
  intros [H1 H2] [H3 H4]. split; [congruence|]. intros i c3 Hc. destruct (H4 i c3 Hc) as (c2 & Hc2 & E2 & F2).
  destruct (H2 i c2 Hc2) as (c1 & Hc1 & E1 & F1). exists c1. split; [done|]. split; [congruence | auto].
Qed.
Lemma weaker_alter f i (l : list conn) : (forall c, l !! i = Some c -> conn_epoch (f c) = conn_epoch c /\ (flag (f c) = true -> flag c = true)) -> weaker l (alter f i l).
Proof.
  intros Hf. split; [apply length_alter|]. intros j c' Hc. destruct (decide (i = j)) as [->|Hne].
  - rewrite list_lookup_alter_eq in Hc. destruct (l !! j) as [c|]; [|done]. injection Hc as <-. exists c. by split; [|apply Hf].
  - rewrite list_lookup_alter_ne in Hc by done. by exists c'.
Qed.

Definition cleared (l : list conn) : Prop := forall i c, l !! i = Some c -> flag c = false.
Lemma cleared_weaker l l' : cleared l -> weaker l l' -> cleared l'.
Proof. intros Hc [_ Hw] i c' Hi. destruct (Hw i c' Hi) as (c & Hi' & _ & Hf). destruct (flag c'); [|done]. rewrite (Hc i c Hi') in Hf. by specialize (Hf eq_refl). Qed.

Definition revoke (c : conn) : conn := set_pending_unlock false (set_admin_authorized false c).

Lemma revoke_fold p l : p_conns (foldl (fun p i => on_conn i revoke p) p l) = foldl (fun cs i => alter revoke i cs) (p_conns p) l.
Proof. revert p. induction l as [|i l IH]; intros p; [done|]. cbn [foldl]. by rewrite IH. Qed.

Lemma revoke_fold_lookup (l : list nat) (cs : list conn) i : (foldl (fun cs i => alter revoke i cs) cs l) !! i = if decide (i ∈ l) then revoke <$> cs !! i else cs !! i.
Proof.
  revert cs. induction l as [|j l IH]; intros cs; cbn [foldl]; [by rewrite decide_False by apply not_elem_of_nil|]. rewrite IH.
  destruct (decide (i = j)) as [->|Hne].
  - rewrite list_lookup_alter_eq, (decide_True (P := j ∈ j :: l)) by (by left). destruct (decide (j ∈ l)); [|done]. by destruct (cs !! j).
  - rewrite list_lookup_alter_ne by done. destruct (decide (i ∈ l)) as [Hi|Hi]; [rewrite decide_True by (by right); done|].
    rewrite decide_False; [done|]. intros [Heq|Hin]%elem_of_cons; [done | done].
Qed.

Lemma revoke_all_spec p : (length (p_conns p) <= TRANSPORTS_MAX)%nat ->
  weaker (p_conns p) (p_conns (revoke_all p)) /\ cleared (p_conns (revoke_all p)).
Proof.
  intros Hl. unfold revoke_all. change (fun c => set_pending_unlock false (set_admin_authorized false c)) with revoke. rewrite revoke_fold.
  assert (forall i c', foldl (fun cs i => alter revoke i cs) (p_conns p) (snapshot_transports p) !! i = Some c' ->
    exists c, p_conns p !! i = Some c /\ c' = revoke c) as Hc.
  { intros i c'. rewrite revoke_fold_lookup. destruct (decide _) as [Hi|Hi].
    - destruct (p_conns p !! i) as [c|]; [|done]. intros [= <-]. by exists c.
    - intros Hx. apply lookup_lt_Some in Hx as Hlt. exfalso. apply Hi. unfold snapshot_transports. apply elem_of_seq. lia. }
  split; [split|].
  - generalize (snapshot_transports p) (p_conns p). intros l. induction l as [|i l IH]; intros cs; [done|]. cbn. by rewrite IH, length_alter.
  - intros i c' Hi. destruct (Hc i c' Hi) as (c & Hi' & ->). by exists c.
  - intros i c' Hi. destruct (Hc i c' Hi) as (c & Hi' & ->). done.
Qed.

Lemma complete_weaker p : weaker (p_conns p) (p_conns (complete_pending_unlocks p).1) /\ p_job (complete_pending_unlocks p).1 = p_job p.
Proof.
  unfold complete_pending_unlocks. generalize (snapshot_transports p) (boots_remaining (p_core p)) (valid_until (p_core p)) (@nil (nat * lockdown_status)).
  intros l b u. revert p. induction l as [|i l IH]; intros p f; cbn [foldl]; [split; [apply weaker_refl | done]|].
  cbn [fst snd]. destruct (is_pending p i) eqn:Ep; [|apply IH]. destruct (IH (authorize i p) (f ++ queue_status i UNLOCKED None b u 0)) as [Hw Hj].
  split; [|by rewrite Hj]. eapply weaker_trans; [|exact Hw]. apply weaker_alter. intros c Hc. split; [done|]. intros _.
  unfold is_pending in Ep. rewrite Hc in Ep. unfold flag. by rewrite Ep, orb_true_r.
Qed.

Lemma on_event_spec env ev p : (length (p_conns p) <= TRANSPORTS_MAX)%nat ->
  weaker (p_conns p) (p_conns (on_event env ev p).1) /\ p_job (on_event env ev p).1 = p_job p /\
  (revoking (Emit ev) = true -> cleared (p_conns (on_event env ev p).1)).
Proof.
  intros Hl. destruct (revoke_all_spec p Hl) as [Hw Hc]. assert (p_job (revoke_all p) = p_job p) as Hj.
  { unfold revoke_all. generalize (snapshot_transports p). intros l. clear. revert p. induction l as [|i l IH]; intros p; [done|]. cbn [foldl]. by rewrite IH. }
  destruct ev; cbn [on_event fst revoking]; [done | | | done | done].
  - by destruct (complete_weaker p).
  - split; [|by destruct (disable_by_phone p)]. destruct (disable_by_phone p); apply weaker_refl.
Qed.

Lemma deliver_spec env out : forall p, (length (p_conns p) <= TRANSPORTS_MAX)%nat ->
  weaker (p_conns p) (p_conns (deliver env out p).1) /\ p_job (deliver env out p).1 = p_job p /\
  (existsb revoking out = true -> cleared (p_conns (deliver env out p).1)).
Proof.
  induction out as [|o out IH]; intros p Hl; cbn [deliver existsb]; [split; [apply weaker_refl | done]|].
  destruct o as [ev| |]; [|by apply IH..]. destruct (on_event_spec env ev p Hl) as (Hw & Hj & Hc).
  destruct (on_event env ev p) as [p1 f1]. cbn [fst] in *.
  assert (length (p_conns p1) <= TRANSPORTS_MAX)%nat as Hl1 by (destruct Hw as [-> _]; done).
  destruct (IH p1 Hl1) as (Hw2 & Hj2 & Hc2). destruct (deliver env out p1) as [p2 f2]. cbn [fst] in *.
  split; [by eapply weaker_trans|]. split; [congruence|]. intros [Hr|Hr]%orb_true_iff; [|by apply Hc2]. eapply cleared_weaker; [by apply Hc | done].
Qed.

(** [n]: the connections that have ended so far. *)
Record auth_inv (n : nat) (p : phone) (g : shown) : Prop := {
  ai_len : (length (p_conns p) <= TRANSPORTS_MAX)%nat;
  ai_same : length (proven g) = length (p_conns p);
  ai_flag : forall i c, p_conns p !! i = Some c -> flag c = true -> proven g !! i = Some true;
  ai_job : forall j, p_job p = Some j -> exists c (k : nat), p_conns p !! j_api j = Some c /\ (k <= n)%nat /\
    conn_epoch c = u32 (j_epoch j + Z.of_nat k) /\ in_u32 (j_epoch j) /\ live g = (k =? 0)%nat;
  ai_epoch : Forall (fun c => in_u32 (conn_epoch c)) (p_conns p);
}.

Lemma weaker_lookup l l' i c : weaker l l' -> l !! i = Some c -> exists c', l' !! i = Some c' /\ conn_epoch c' = conn_epoch c.
Proof.
  intros [Hl Hw] Hi. apply lookup_lt_Some in Hi as Hlt. destruct (lookup_lt_is_Some_2 l' i ltac:(lia)) as [c' Hc']. exists c'. split; [done|].
  destruct (Hw i c' Hc') as (c0 & Hc0 & He & _). congruence.
Qed.

(** The connections weaken and the slot stays. *)
Lemma inv_weaker n p g p' : auth_inv n p g -> weaker (p_conns p) (p_conns p') -> p_job p' = p_job p -> auth_inv n p' g.
Proof.
  intros [H1 H2 H3 H4 H5] Hw Hj. pose proof Hw as [Hl Hw']. split; [lia | lia | | |].
  - intros i c' Hi Hf. destruct (Hw' i c' Hi) as (c & Hc & _ & Hff). apply (H3 i c Hc). by apply Hff.
  - intros j Hjob. rewrite Hj in Hjob. destruct (H4 j Hjob) as (c & k & Hc & Hk & He & Hr). destruct (weaker_lookup _ _ _ c Hw Hc) as (c' & Hc' & He').
    exists c', k. split; [done|]. split; [done|]. split; [congruence | done].
  - apply Forall_lookup. intros i c' Hi. destruct (Hw' i c' Hi) as (c & Hc & -> & _). by eapply Forall_lookup_1 in H5.
Qed.

Lemma inv_cleared n p g : auth_inv n p g -> cleared (p_conns p) -> auth_inv n p (Shown ((fun _ => false) <$> proven g) (live g)).
Proof.
  intros [H1 H2 H3 H4 H5] Hc. split; [done | by cbn; rewrite length_fmap | | done | done].
  intros i c Hi Hf. by rewrite (Hc i c Hi) in Hf.
Qed.

Lemma core_ran_inv n env x p g : auth_inv n p g -> auth_inv n (core_ran env x p).1 (after_core x.2 g).
Proof.
  intros Hi. unfold core_ran, after_core. assert (auth_inv n (set_p_core x.1 p) g) as Hi' by (destruct Hi; by split).
  destruct (deliver_spec env x.2 (set_p_core x.1 p) (ai_len _ _ _ Hi')) as (Hw & Hj & Hc).
  pose proof (inv_weaker n _ g _ Hi' Hw Hj) as Hi2. destruct (existsb revoking x.2); [|done]. apply inv_cleared; [done | by apply Hc].
Qed.

Lemma inv_set n p g i f : auth_inv n p g -> proven g !! i = Some true ->
  (forall c, conn_epoch (f c) = conn_epoch c) -> auth_inv n (on_conn i f p) g.
Proof.
  intros [H1 H2 H3 H4 H5] Hp Hf. split; cbn [on_conn p_conns set_p_conns]; [by rewrite length_alter | by rewrite length_alter | | |].
  - intros j c Hj Hfl. destruct (decide (i = j)) as [->|Hne]; [done|]. rewrite list_lookup_alter_ne in Hj by done. by eapply H3.
  - intros j Hj. destruct (H4 j Hj) as (c & k & Hc & Hk). destruct (decide (i = j_api j)) as [->|Hne].
    + exists (f c), k. by rewrite list_lookup_alter_eq, Hc, Hf.
    + exists c, k. by rewrite list_lookup_alter_ne.
  - apply Forall_lookup. intros j c. destruct (decide (i = j)) as [->|Hne].
    + rewrite list_lookup_alter_eq. destruct (p_conns p !! j) eqn:Ej; [|done]. intros [= <-]. rewrite Hf. by eapply Forall_lookup_1 in H5.
    + rewrite list_lookup_alter_ne by done. intros Hj. by eapply Forall_lookup_1 in H5.
Qed.

(** The check of the job's connection is right, short of 2^32 reconnections. *)
Lemma same_conn_live n p g j : auth_inv n p g -> Z.of_nat n < 2 ^ 32 -> p_job p = Some j -> same_conn j p = live g.
Proof.
  intros [_ _ _ H4 _] Hn Hj. destruct (H4 j Hj) as (c & k & Hc & Hk & He & Hr & Hl). unfold same_conn. rewrite Hc, He, Hl. unfold in_u32, UINT32_MAX in Hr.
  destruct k as [|k]; [rewrite Z.add_0_r, u32_small by lia; by rewrite Z.eqb_refl|]. apply Z.eqb_neq. unfold wrap. intros Hx.
  assert ((j_epoch j + Z.of_nat (S k)) `mod` 2 ^ 32 = j_epoch j `mod` 2 ^ 32) as Hm by (rewrite Hx, (Z.mod_small (j_epoch j)) by lia; done).
  assert (Z.of_nat (S k) `mod` 2 ^ 32 = 0) as Hz.
  { replace (Z.of_nat (S k)) with ((j_epoch j + Z.of_nat (S k)) - j_epoch j) by lia. rewrite Zminus_mod, Hm, Z.sub_diag. reflexivity. }
  rewrite Z.mod_small in Hz by lia. lia.
Qed.

Definition end_of (ev : ph_event) : nat := match ev with PhEnd _ => 1 | _ => 0 end.

Lemma end_inv n p g i : auth_inv n p g -> auth_inv (n + 1) (ph_step p (PhEnd i)) (show p (PhEnd i) g).
Proof.
  intros [H1 H2 H3 H4 H5]. split; cbn [ph_step meshtastic_phoneapi_session_reset on_conn p_conns set_p_conns show proven live p_job].
  - by rewrite length_alter.
  - by rewrite length_alter, length_insert.
  - intros j c Hj Hf. destruct (decide (i = j)) as [->|Hne].
    + rewrite list_lookup_alter_eq in Hj. destruct (p_conns p !! j); [|done]. injection Hj as <-. done.
    + rewrite list_lookup_alter_ne in Hj by done. rewrite list_lookup_insert_ne by done. by eapply H3.
  - intros j Hj. destruct (H4 j Hj) as (c & k & Hc & Hk & He & Hr & Hl). rewrite Hj, Hl. destruct (decide (i = j_api j)) as [->|Hne].
    + eexists _, (S k). rewrite list_lookup_alter_eq, Hc. split; [done|]. split; [lia|]. split; [|split; [done | by rewrite Nat.eqb_refl, andb_false_r]].
      cbn [conn_epoch]. rewrite He. unfold wrap. rewrite Zplus_mod_idemp_l. f_equal. lia.
    + exists c, k. rewrite list_lookup_alter_ne by done. split; [done|]. split; [lia|]. split; [done|]. split; [done|].
      by rewrite (proj2 (Nat.eqb_neq (j_api j) i)), andb_true_r by congruence.
  - apply Forall_lookup. intros j c. destruct (decide (i = j)) as [->|Hne].
    + rewrite list_lookup_alter_eq. destruct (p_conns p !! j); [|done]. intros [= <-]. apply u32_range.
    + rewrite list_lookup_alter_ne by done. intros Hj. by eapply Forall_lookup_1 in H5.
Qed.

Lemma inv_no_job n p g b : auth_inv n p g -> p_job p = None -> auth_inv n p (Shown (proven g) b).
Proof. intros [H1 H2 H3 H4 H5] Hj. split; try done. intros j. by rewrite Hj. Qed.

Lemma packet_inv n p g env pb self i pkt :
  auth_inv n p g -> auth_inv n (ph_step p (PhPacket env pb self i pkt)) (show p (PhPacket env pb self i pkt) g).
Proof.
  intros Hi. cbn [ph_step show]. unfold meshtastic_phoneapi_lockdown_gate, locks.
  assert (auth_inv n p (match p_job p with None => Shown (proven g) true | Some _ => g end)) as Hsame
    by (destruct (p_job p) eqn:Ej; [done | by apply inv_no_job]).
  destruct (packet_auth pb self pkt) as [la|]; [|by destruct (meshtastic_phoneapi_authorized i p)].
  unfold handle_auth. destruct (la_lock_now la); cbn [andb].
  - destruct (meshtastic_phoneapi_authorized i p); cbn [negb andb orb]; [|done]. destruct (meshtastic_lockdown_active (p_core p)); cbn [negb]; [|done].
    pose proof (core_ran_inv n env (meshtastic_lockdown_lock_now env (p_core p)) p g Hi) as Hr. unfold after_core in Hr. cbn [existsb revoking orb meshtastic_lockdown_lock_now snd] in Hr.
    assert (p_job (core_ran env (meshtastic_lockdown_lock_now env (p_core p)) p).1 = p_job p) as Hj.
    { unfold core_ran. destruct (deliver_spec env (meshtastic_lockdown_lock_now env (p_core p)).2 (set_p_core (meshtastic_lockdown_lock_now env (p_core p)).1 p)) as (_ & -> & _); [apply Hi | done]. }
    destruct (core_ran env (meshtastic_lockdown_lock_now env (p_core p)) p) as [p1 f1]. cbn [fst snd] in *.
    assert (auth_inv n (schedule_reboot env p1) (Shown ((fun _ => false) <$> proven g) (live g))) as Hr' by (destruct Hr; by split).
    destruct (p_job p) eqn:Ej; [done|]. apply (inv_no_job n _ (Shown ((fun _ => false) <$> proven g) (live g))); [done | exact Hj].
  - destruct (la_disable la && _); [done|]. destruct (_ || _); [done|]. destruct (255 <? _); [done|].
    destruct (p_job p) eqn:Ej; [done|]. destruct (p_conns p !! i) as [c|] eqn:Ec; [|done]. cbn [fst snd].
    destruct Hi as [H1 H2 H3 H4 H5]. split; try done. intros j Hj. cbn in Hj. injection Hj as <-. cbn [j_api j_epoch live]. exists c, 0%nat.
    pose proof (Forall_lookup_1 _ _ _ _ H5 Ec) as Hu. split; [done|]. split; [lia|]. split; [|done]. rewrite Z.add_0_r. symmetry. apply u32_small. exact Hu.
Qed.

Lemma auth_work_inv n p g env :
  auth_inv n p g -> Z.of_nat n < 2 ^ 32 -> auth_inv n (ph_step p (PhAuth env)) (show p (PhAuth env) g).
Proof.
  intros Hi Hn. cbn [ph_step show]. unfold auth_work_fn. destruct (p_job p) as [j|] eqn:Ej; [|done].
  pose proof (same_conn_live n p g j Hi Hn Ej) as Hs. destruct (job_call env j (p_core p)) as [ret core]. cbn [fst].
  set (p1 := set_p_job None (set_p_core core p)). change (same_conn j p1) with (same_conn j p). rewrite Hs.
  assert (auth_inv n p1 g) as Hi1 by (destruct Hi; by split). destruct (ai_job _ _ _ Hi j Ej) as (c & k & Hc & _).
  destruct ret as [|e]; [|by rewrite bool_decide_eq_false_2]. rewrite bool_decide_eq_true_2 by done. cbn [andb].
  destruct (live g); [|destruct (j_disable j); cbn [fst]; [destruct Hi1; by split|]; by destruct (negb _)].
  assert (auth_inv n p1 (Shown (<[j_api j := true]> (proven g)) true) /\ <[j_api j := true]> (proven g) !! j_api j = Some true) as [Hi2 Hp].
  { destruct Hi1 as [H1 H2 H3 H4 H5]. assert (j_api j < length (proven g))%nat as Hlt by (rewrite H2; by eapply lookup_lt_Some).
    split; [|by apply list_lookup_insert_eq]. split; cbn [proven live]; [done | by rewrite length_insert | | done | done].
    intros i c' Hi' Hf. destruct (decide (j_api j = i)) as [<-|Hne]; [by apply list_lookup_insert_eq|]. rewrite list_lookup_insert_ne by done. by eapply H3. }
  clearbody p1. assert (auth_inv n (authorize (j_api j) p1) (Shown (<[j_api j := true]> (proven g)) true)) as Ha by (by apply inv_set).
  destruct (j_disable j); cbn [fst]; [destruct Ha; by split|]. destruct (negb _); cbn [fst]; [by apply inv_set | done].
Qed.

Lemma ph_step_inv n p g ev :
  auth_inv n p g -> Z.of_nat n < 2 ^ 32 -> auth_inv (n + end_of ev) (ph_step p ev) (show p ev g).
Proof.
  intros Hi Hn. destruct ev as [i|env pb self i pkt|env|env|env|env|f]; cbn [end_of]; [by apply end_inv | rewrite Nat.add_0_r..].
  - by apply packet_inv.
  - by apply auth_work_inv.
  - exact (core_ran_inv n env (run_work env (p_core p)) p g Hi).
  - exact (core_ran_inv n env (run_session env (p_core p)) p g Hi).
  - exact (core_ran_inv n env (meshtastic_lockdown_lock_now env (p_core p)) p g Hi).
  - cbn [ph_step show]. destruct Hi. by split.
Qed.

Lemma ends_cons ev evs : ends (ev :: evs) = (end_of ev + ends evs)%nat.
Proof. unfold ends. cbn. by destruct ev. Qed.

Lemma ph_run_inv evs : forall n p g, auth_inv n p g -> Z.of_nat (n + ends evs) < 2 ^ 32 ->
  auth_inv (n + ends evs) (ph_run p g evs).1 (ph_run p g evs).2.
Proof.
  induction evs as [|ev evs IH]; intros n p g Hi Hn; [by rewrite Nat.add_0_r|]. rewrite ends_cons, Nat.add_assoc in *. cbn [ph_run].
  apply IH; [apply ph_step_inv; [done | lia] | lia].
Qed.

(** A node that has just started: no connection has shown anything. *)
Definition fresh_phone (core : ld) (epochs : list Z) : phone := Phone core (Conn false false <$> epochs) None false None.
Definition nothing_shown (epochs : list Z) : shown := Shown ((fun _ => false) <$> epochs) false.

(** C34: Without the passphrase a phone gets nothing through. After any run of packets, checks,
    timeouts, locks, reloads, lost and new connections on up to four transports, whatever
    is done to the storage core in between: if lockdown is active and the gate lets a
    packet of a transport pass, then on that very connection a passphrase was accepted,
    after the last lock or session timeout. A check that ends after its connection was
    lost vouches for no later one. *)
Theorem phone_needs_passphrase core epochs evs env pb self i pkt :
  (length epochs <= TRANSPORTS_MAX)%nat -> Forall in_u32 epochs -> Z.of_nat (ends evs) < 2 ^ 32 ->
  let '(p, g) := ph_run (fresh_phone core epochs) (nothing_shown epochs) evs in
  let '(verdict, p', _) := meshtastic_phoneapi_lockdown_gate env pb self i pkt p in
  meshtastic_lockdown_active (p_core p) = true -> proven g !! i <> Some true ->
  verdict <> Pass /\ p_conns p' = p_conns p /\ p_core p' = p_core p /\ reboot_at p' = reboot_at p.
Proof.
  intros Hl He Hn. assert (auth_inv 0 (fresh_phone core epochs) (nothing_shown epochs)) as H0.
  { split; cbn; [by rewrite length_fmap | by rewrite !length_fmap | | done | by apply Forall_fmap].
    intros j c. rewrite list_lookup_fmap. destruct (epochs !! j); [|done]. by intros [= <-]. }
  pose proof (ph_run_inv evs 0 _ _ H0 Hn) as Hi. destruct (ph_run _ _ evs) as [p g]. cbn [fst snd] in Hi.
  destruct (meshtastic_phoneapi_lockdown_gate env pb self i pkt p) as [[verdict p'] f] eqn:Eg. intros Ha Hp.
  assert (meshtastic_phoneapi_authorized i p = false) as Hauth.
  { unfold meshtastic_phoneapi_authorized. rewrite Ha. cbn [negb]. destruct (p_conns p !! i) as [c|] eqn:Ec; [|done].
    destruct (admin_authorized c) eqn:Ea; [|done]. destruct Hp. apply (ai_flag _ _ _ Hi i c Ec). unfold flag. by rewrite Ea. }
  revert Eg. unfold meshtastic_phoneapi_lockdown_gate, handle_auth.
  destruct (packet_auth pb self pkt) as [la|]; [|rewrite Hauth; by intros [= <- <- _]]. rewrite Hauth, Ha. cbn [negb orb]. rewrite andb_false_r.
  destruct (la_lock_now la); [by intros [= <- <- _]|]. destruct (_ || _); [by intros [= <- <- _]|]. destruct (255 <? _); [by intros [= <- <- _]|].
  destruct (p_job p); [by intros [= <- <- _]|]. destruct (p_conns p !! i); by intros [= <- <- _].
Qed.

(** The fuel of the walk is enough when the library consumes what it reads. *)
Lemma peek_fuel pb fuel : forall buf,
  (forall b wt t r, pb_decode_tag pb b = Tag wt t r -> (length r < length b)%nat) ->
  (forall wt b r, pb_skip_field pb wt b = Some r -> (length r <= length b)%nat) ->
  (length buf <= fuel)%nat -> peek_loop pb fuel buf = peek_lockdown_auth pb buf.
Proof.
  unfold peek_lockdown_auth. intros buf Ht Hs. remember (length buf) as n eqn:Hn. revert buf Hn fuel.
  induction n as [n IH] using lt_wf_ind. intros [|x buf] Hn fuel Hf; [by destruct fuel, n|].
  destruct n as [|n]; [done|]. destruct fuel as [|fuel]; [lia|]. cbn [peek_loop]. destruct (pb_decode_tag pb (x :: buf)) as [wt t rest| |] eqn:Et; [|done..].
  destruct (_ && _); [done|]. destruct (pb_skip_field pb wt rest) as [r|] eqn:Es; [|done]. pose proof (Ht _ _ _ _ Et). pose proof (Hs _ _ _ Es).
  rewrite (IH (length r) ltac:(lia) r eq_refl fuel ltac:(lia)). symmetry. apply (IH (length r) ltac:(lia) r eq_refl). lia.
Qed.
End Phone.

(** ** Examples *)

#[local] Existing Instance toy_crypto.

(** A library that reads a byte as a tag and the rest as the passphrase. *)
Definition sample_pb : pb_lib :=
  {| pb_decode_tag := fun b => match b with t :: r => Tag 2 t r | [] => TagEof end;
     pb_string := fun b => Some (b, []);
     pb_decode_auth := fun b => Some (LockdownAuth b 3 0 false 0 false);
     pb_skip_field := fun _ b => Some b |}.
Definition admin_packet (payload : list Z) : mesh_packet :=
  MeshPacket 0 9 0 0 0 0 0 0 false false 0 0 false TRANSPORT_API VARIANT_DECODED (set_d_payload payload (set_d_portnum ADMIN_APP data_zero)).
Definition sends (i : nat) (pass : list Z) : ph_event :=
  PhPacket (sample_env 3000) sample_pb 9 i (admin_packet (LOCKDOWN_AUTH_TAG :: pass)).

Definition connected : phone := fresh_phone provisioned_now [0; 0].

(** The passphrase is sent on transport 0, which reconnects before the check has run; then
    transport 1 sends it and stays. *)
Definition two_phones : list ph_event :=
  [sends 0 (chars "open sesame"); PhEnd 0; PhAuth (sample_env 3500); sends 1 (chars "open sesame"); PhAuth (sample_env 4000)].

Definition after_two : phone * shown := ph_run connected (nothing_shown [0; 0]) two_phones.
Lemma after_two_facts :
  meshtastic_lockdown_active (p_core after_two.1) = true /\ proven after_two.2 = [false; true] /\
  meshtastic_phoneapi_authorized 1 after_two.1 = true.
Proof. vm_compute. done. Qed.

Lemma phone_needs_passphrase_witness :
  (meshtastic_phoneapi_lockdown_gate (sample_env 5000) sample_pb 9 0 (admin_packet [1]) after_two.1).1.1 <> Pass.
Proof.
  pose proof (phone_needs_passphrase provisioned_now [0; 0] two_phones (sample_env 5000) sample_pb 9 0 (admin_packet [1])) as Ht.
  specialize (Ht ltac:(cbn; unfold TRANSPORTS_MAX; lia) ltac:(repeat constructor; vm_compute; done) ltac:(vm_compute; done)).
  change (ph_run (fresh_phone provisioned_now [0; 0]) (nothing_shown [0; 0]) two_phones) with after_two in Ht.
  destruct after_two_facts as (Ha & Hp & _). destruct after_two as [p g]. cbn [fst snd] in *.
  destruct (meshtastic_phoneapi_lockdown_gate (sample_env 5000) sample_pb 9 0 (admin_packet [1]) p) as [[v p'] f].
  cbn [fst]. apply Ht; [exact Ha|]. rewrite Hp. done.
Defined.

(** Anyone who can connect erases the key of an unlocked node with one wrong passphrase; the
    node goes on saving, under a key of zeros. *)
Lemma stranger_erases_key :
  let p := (ph_run connected (nothing_shown [0; 0]) [sends 0 (chars "guess"); PhAuth (sample_env 3500)]).1 in
  meshtastic_phoneapi_authorized 0 p = false /\ meshtastic_lockdown_store_ready (p_core p) = true /\
  dek (p_core connected) <> key_zero /\ dek (p_core p) = key_zero.
Proof. vm_compute. done. Qed.
