(* ===== verification/Bulk.v ===== *)
(** * The bulk store (src/src/meshtastic_bulk.c, meshtastic_bulk.h)

    A second flash store for tables that can be rebuilt: blobs under 16-bit ids, each in a
    frame with a tag, its length and a CRC of the plaintext, wrapped by [Lockdown] when a
    passphrase is set. The flash store underneath is a map from ids to records whose
    mount, erase and writes may fail; the CRC is an argument. A call that takes the lock is
    one atomic function. *)
From S2P Require Import Prelude Lockdown.
Open Scope Z_scope.

Definition MESHTASTIC_BULK_BLOB_MAX : nat := 2048.
Definition MESHTASTIC_BULK_ID_USER_MAX : Z := 0xFEFF.
Definition BULK_ID_MAGIC : Z := 0xFF00.
Definition BULK_MAGIC : Z := 0x4B42544D.
Definition BULK_LAYOUT : Z := 1.
Definition BULK_FRAME_TAG : Z := 0x4B42.
Definition BULK_FRAME_HDR : nat := 8.
Definition BULK_SCRATCH_LEN : nat := BULK_FRAME_HDR + MESHTASTIC_BULK_BLOB_MAX + MESHTASTIC_LOCKDOWN_SEAL_OVERHEAD.

Abbreviation nvs := (gmap Z (list Z)).

(** [b_open]: the partition has been opened. [b_sectors] and [b_sector_size] are set by a mount. *)
Record bulk := BulkStore {
  b_ready : bool;
  b_formats : Z;
  b_open : bool;
  b_sectors : Z;
  b_sector_size : Z;
  b_nvs : nvs;
}.
Definition set_b_ready (v : bool) (r : bulk) : bulk :=
BulkStore v (b_formats r) (b_open r) (b_sectors r) (b_sector_size r) (b_nvs r).
Definition set_b_formats (v : Z) (r : bulk) : bulk :=
BulkStore (b_ready r) v (b_open r) (b_sectors r) (b_sector_size r) (b_nvs r).
Definition set_b_open (v : bool) (r : bulk) : bulk :=
BulkStore (b_ready r) (b_formats r) v (b_sectors r) (b_sector_size r) (b_nvs r).
Definition set_b_sectors (v : Z) (r : bulk) : bulk :=
BulkStore (b_ready r) (b_formats r) (b_open r) v (b_sector_size r) (b_nvs r).
Definition set_b_sector_size (v : Z) (r : bulk) : bulk :=
BulkStore (b_ready r) (b_formats r) (b_open r) (b_sectors r) v (b_nvs r).
Definition set_b_nvs (v : nvs) (r : bulk) : bulk :=
BulkStore (b_ready r) (b_formats r) (b_open r) (b_sectors r) (b_sector_size r) v.

Record bulk_env := BulkEnv {
  be_open : cret;                   (* flash_area_open *)
  be_page_info : cret;              (* flash_get_page_info_by_offs *)
  be_mount : cret;                  (* nvs_mount *)
  be_erase : cret;                  (* flash_area_erase *)
  be_torn : nvs;                    (* what a failed erase leaves *)
  be_read : Z -> cret;              (* nvs_read of an id that is there *)
  be_write : Z -> cret;             (* nvs_write of an id *)
  be_delete : Z -> cret;            (* nvs_delete of an id that is there *)
  be_sector_count : Z;              (* of the partition as it is now *)
  be_sector_size : Z;
  be_free : Z;                      (* nvs_calc_free_space *)
  be_crc32 : list Z -> Z;           (* crc32_ieee *)
}.

Section Bulk.
Context `{Crypto}.

Definition nvs_write (env : bulk_env) (id : Z) (v : list Z) (b : bulk) : cret * bulk :=
  match be_write env id with
  | OK => (OK, set_b_nvs (<[id := v]> (b_nvs b)) b)
  | ERR e => (ERR e, b)
  end.
Definition nvs_delete (env : bulk_env) (id : Z) (b : bulk) : cret * bulk :=
  if bool_decide (b_nvs b !! id = None) then (OK, b)
  else match be_delete env id with
       | OK => (OK, set_b_nvs (delete id (b_nvs b)) b)
       | ERR e => (ERR e, b)
       end.

Definition nvs_read (env : bulk_env) (id : Z) (b : bulk) : res (list Z) :=
  match b_nvs b !! id with
  | None => Fail ENOENT
  | Some r => match be_read env id with OK => Val r | ERR e => Fail e end
  end.

Definition mount_locked (env : bulk_env) (b : bulk) : cret * bulk :=
  match be_page_info env with
  | ERR e => (ERR e, set_b_sector_size 0 (set_b_sectors 0 b))
  | OK => (be_mount env, set_b_sector_size (be_sector_size env) (set_b_sectors (u16 (be_sector_count env)) b))
  end.

Definition magic_record (sectors : Z) : list Z := put_le32 BULK_MAGIC ++ put_le16 BULK_LAYOUT ++ put_le16 sectors.

Definition magic_ok_locked (env : bulk_env) (b : bulk) : bool :=
  match nvs_read env BULK_ID_MAGIC b with
  | Val m => (length m =? 8)%nat && (get_le32 0 m =? BULK_MAGIC) && (get_le16 4 m =? BULK_LAYOUT) &&
              (get_le16 6 m =? b_sectors b)
  | Fail _ => false
  end.

Definition format_locked (env : bulk_env) (b : bulk) : cret * bulk :=
  match be_erase env with
  | ERR e => (ERR e, set_b_nvs (be_torn env) b)
  | OK =>
      match mount_locked env (set_b_nvs ∅ b) with
      | (ERR e, b) => (ERR e, b)
      | (OK, b) =>
          match nvs_write env BULK_ID_MAGIC (magic_record (b_sectors b)) b with
          | (ERR e, b) => (ERR e, b)
          | (OK, b) => (OK, set_b_formats (u32 (b_formats b + 1)) b)
          end
      end
  end.

Definition meshtastic_bulk_init (env : bulk_env) (b : bulk) : cret * bulk :=
  if b_ready b then (OK, b)
  else
    let opened := if b_open b then OK else be_open env in
    match opened with
    | ERR e => (ERR e, b)
    | OK =>
        let '(ret, b) := mount_locked env (set_b_open true b) in
        if bool_decide (ret <> OK) || negb (magic_ok_locked env b)
        then match format_locked env b with
             | (ERR e, b) => (ERR e, b)
             | (OK, b) => (OK, set_b_ready true b)
             end
        else (OK, set_b_ready true b)
    end.

Definition meshtastic_bulk_ready (b : bulk) : bool := b_ready b.

(** "mtbulk/%04x" *)
Definition hex_digit (d : Z) : Z := if d <? 10 then 48 + d else 87 + d.
Fixpoint hex_digits (n : nat) (v : Z) : list Z :=
  match n with O => [] | S n => hex_digits n (v / 16) ++ [hex_digit (v mod 16)] end.
Definition blob_name (id : Z) : list Z := chars "mtbulk/" ++ hex_digits 4 id.

Definition frame (env : bulk_env) (data wrapped : list Z) : list Z :=
  put_le16 BULK_FRAME_TAG ++ put_le16 (Zlen data) ++ put_le32 (be_crc32 env data) ++ wrapped.

Definition meshtastic_bulk_write (env : bulk_env) (lenv : ld_env) (id : Z) (data : list Z) (s : ld * bulk) : cret * (ld * bulk) :=
  let '(l, b) := s in
  if MESHTASTIC_BULK_ID_USER_MAX <? id then (ERR EINVAL, s)
  else if (MESHTASTIC_BULK_BLOB_MAX <? length data)%nat then (ERR EMSGSIZE, s)
  else if negb (b_ready b) then (ERR ENODEV, s)
  else match meshtastic_lockdown_wrap_buf lenv (blob_name id) data (BULK_SCRATCH_LEN - BULK_FRAME_HDR) l with
       | (Fail e, l) => (ERR e, (l, b))
       | (Val w, l) => let '(ret, b) := nvs_write env id (frame env data w) b in (ret, (l, b))
       end.

Definition meshtastic_bulk_read (env : bulk_env) (id : Z) (cap : nat) (s : ld * bulk) : res (list Z) :=
  let '(l, b) := s in
  if MESHTASTIC_BULK_ID_USER_MAX <? id then Fail EINVAL
  else if negb (b_ready b) then Fail ENODEV
  else match nvs_read env id b with
       | Fail e => Fail e
       | Val r =>
           if (BULK_SCRATCH_LEN <? length r)%nat || (length r <? BULK_FRAME_HDR)%nat || negb (get_le16 0 r =? BULK_FRAME_TAG)
           then Fail EBADMSG
           else
             let plain_len := Z.to_nat (get_le16 2 r) in
             if (cap <? plain_len)%nat then Fail EMSGSIZE
             else match meshtastic_lockdown_unwrap_buf (blob_name id) (drop BULK_FRAME_HDR r) cap l with
                  | Fail e => Fail e
                  | Val data => if negb (length data =? plain_len)%nat || negb (be_crc32 env data =? get_le32 4 r)
                                then Fail EBADMSG else Val data
                  end
       end.

Definition meshtastic_bulk_delete (env : bulk_env) (id : Z) (b : bulk) : cret * bulk :=
  if MESHTASTIC_BULK_ID_USER_MAX <? id then (ERR EINVAL, b)
  else if b_ready b then nvs_delete env id b else (ERR ENODEV, b).

Definition meshtastic_bulk_wipe (env : bulk_env) (b : bulk) : cret * bulk :=
  if negb (b_open b) then (ERR ENODEV, b)
  else let '(ret, b) := format_locked env b in (ret, set_b_ready (bool_decide (ret = OK)) b).

(** ready, sectors, their size, free bytes, reformats. *)
Definition meshtastic_bulk_info_get (env : bulk_env) (b : bulk) : bool * Z * Z * Z * Z :=
  if b_ready b then (true, b_sectors b, b_sector_size b, be_free env, b_formats b) else (false, 0, 0, 0, b_formats b).

Definition meshtastic_bulk_test_unmount (b : bulk) : bulk := set_b_ready false b.

(** ** Properties *)

Lemma magic_record_ok env b :
  in_u16 (b_sectors b) -> nvs_read env BULK_ID_MAGIC b = Val (magic_record (b_sectors b)) -> magic_ok_locked env b = true.
Proof.
  intros Hs Hm. unfold magic_ok_locked. rewrite Hm. unfold magic_record. unfold in_u16, UINT16_MAX in Hs.
  rewrite get_le_app_here, (get_le_app_skip 2 4), get_le_app_here, (app_assoc (put_le32 _)), (get_le_app_skip 2 6) by (done || (vm_compute; done)).
  rewrite <- (app_nil_r (put_le16 (b_sectors b))), get_le_app_here by lia.
  rewrite !length_app, !length_le_put, !Z.eqb_refl. reflexivity.
Qed.

(** A store that came up is one of this layout: either what was there was, and it is
    untouched, or everything was erased. *)
Lemma bulk_init_spec env b b' :
  meshtastic_bulk_init env b = (OK, b') -> b_ready b = false -> be_read env BULK_ID_MAGIC = OK ->
  b_ready b' = true /\ magic_ok_locked env b' = true /\
  (b_nvs b' = b_nvs b \/ b_nvs b' = {[BULK_ID_MAGIC := magic_record (b_sectors b')]}).
Proof.
  unfold meshtastic_bulk_init. intros E Hr Hrd. rewrite Hr in E. destruct (if b_open b then OK else be_open env); [|done].
  unfold mount_locked in E. destruct (be_page_info env) eqn:Hpi.
  - set (b1 := set_b_sector_size _ (set_b_sectors _ (set_b_open true b))) in E.
    destruct (bool_decide (be_mount env <> OK) || negb (magic_ok_locked env b1)) eqn:Em.
    + unfold format_locked, mount_locked, nvs_write in E. rewrite Hpi in E.
      destruct (be_erase env); [|done]. destruct (be_mount env); [|done]. destruct (be_write env BULK_ID_MAGIC); [|done].
      injection E as <-. split; [done|]. split; [|by right]. apply magic_record_ok; [apply u16_range|].
      unfold nvs_read. rewrite Hrd. cbn [b_nvs set_b_nvs set_b_formats set_b_ready b_sectors]. by rewrite lookup_insert_eq.
    + apply orb_false_iff in Em as [_ Em]. apply negb_false_iff in Em. injection E as <-. split; [done|]. split; [exact Em | by left].
  - unfold format_locked, mount_locked in E. rewrite Hpi, bool_decide_true in E by done. cbn in E. by destruct (be_erase env).
Qed.

(** *** What is written is read back *)

(** The lock is as open for reading as it was. *)
Record same_lock (l l' : ld) : Prop := SameLock {
  sl_provisioned : provisioned l' = provisioned l; sl_dek : dek l' = dek l; sl_dek_ok : dek_ok l' = dek_ok l }.

#[export] Instance same_lock_equivalence : Equivalence same_lock.
Proof.
  split; [by split | intros l l' [E1 E2 E3]; by split | intros l1 l2 l3 [A1 A2 A3] [B1 B2 B3]; split; congruence].
Qed.

Lemma same_lock_draws d l : same_lock l (set_draws d l).
Proof. by split. Qed.

Lemma unwrap_same name v cap l l' : same_lock l l' -> meshtastic_lockdown_unwrap_buf name v cap l' = meshtastic_lockdown_unwrap_buf name v cap l.
Proof. intros [E1 E2 E3]. unfold meshtastic_lockdown_unwrap_buf, meshtastic_lockdown_open. by rewrite E1, E2, E3. Qed.

Lemma bulk_read_same env id cap l l' b : same_lock l l' -> meshtastic_bulk_read env id cap (l', b) = meshtastic_bulk_read env id cap (l, b).
Proof.
  intros E. unfold meshtastic_bulk_read. destruct (_ <? _); [done|]. destruct (negb (b_ready b)); [done|]. destruct (nvs_read env id b) as [r|]; [|done].
  by rewrite (unwrap_same _ _ _ l l' E).
Qed.

Lemma wrap_draws env name v cap l : exists d, (meshtastic_lockdown_wrap_buf env name v cap l).2 = set_draws d l.
Proof.
  unfold meshtastic_lockdown_wrap_buf. assert (l = set_draws (draws l) l) as Hl by by destruct l.
  destruct (_ || _); [eauto|]. destruct (negb _); [eauto | apply seal_draws].
Qed.

Lemma sealed_bytes nonce ct : length nonce = LD_NONCE_LEN -> (LD_TAG_LEN <= length ct)%nat ->
  meshtastic_lockdown_is_sealed (put_le32 LD_MAGIC_SEAL ++ nonce ++ ct) = true.
Proof.
  intros Hn Hc. unfold meshtastic_lockdown_is_sealed. rewrite !length_app, length_le_put, Hn, get_le_app_here by (vm_compute; done).
  apply andb_true_iff. split; [|done]. apply Nat.leb_le. unfold LD_NONCE_LEN, LD_TAG_LEN, MESHTASTIC_LOCKDOWN_SEAL_OVERHEAD in *. lia.
Qed.

Lemma plain_first_byte b l : 0 <= b < 256 -> b <> 0x43 -> meshtastic_lockdown_is_sealed (b :: l) = false.
Proof.
  intros Hb Hne. unfold meshtastic_lockdown_is_sealed. apply andb_false_iff. right. apply Z.eqb_neq.
  change (get_le32 0 (b :: l)) with (b + 256 * le_get (take 3 l)). unfold LD_MAGIC_SEAL. lia.
Qed.

(** A buffer that does not look sealed comes back from its wrapped form. *)
Lemma wrap_unwrap env name v cap cap' l w l' :
  rand_ok env -> meshtastic_lockdown_is_sealed v = false -> (length v <= cap')%nat ->
  meshtastic_lockdown_wrap_buf env name v cap l = (Val w, l') ->
  meshtastic_lockdown_unwrap_buf name w cap' l = Val v /\ (length w <= cap)%nat.
Proof.
  intros Hr Hs Hc E. apply (f_equal fst) in E. cbn [fst] in E. unfold meshtastic_lockdown_wrap_buf in E. destruct (_ || _) eqn:Hp.
  { cbn [fst] in E. destruct (cap <? length v)%nat eqn:Hl; simplify_eq. apply Nat.ltb_ge in Hl. unfold meshtastic_lockdown_unwrap_buf. rewrite Hs. cbn [negb].
    by rewrite (proj2 (Nat.ltb_ge _ _) Hc). }
  destruct (meshtastic_lockdown_store_ready l); [|done]. cbn [negb] in E. unfold meshtastic_lockdown_seal in E. destruct (provisioned l) eqn:Hpr; [|done]. destruct (dek_ok l) eqn:Hd; [|done].
  cbn [negb] in E. destruct (_ <? _)%nat eqn:Hl in E; [done|]. apply Nat.ltb_ge in Hl. unfold random_bytes in E. destruct (e_rand env _ _) as [nonce|] eqn:En; [|done].
  unfold aead_enc in E. cbn [dek set_draws] in E. destruct (gcm_enc _ _ _ _) as [ct|] eqn:Ec; [|done]. assert (w = put_le32 LD_MAGIC_SEAL ++ nonce ++ ct) as -> by (cbn [fst] in E; congruence).
  pose proof (gcm_enc_len _ _ _ _ _ Ec) as Hct. assert (length nonce = LD_NONCE_LEN) as Hn by by eapply Hr.
  assert (meshtastic_lockdown_is_sealed (put_le32 LD_MAGIC_SEAL ++ nonce ++ ct) = true) as Hsealed by (apply sealed_bytes; [done | lia]).
  split.
  - unfold meshtastic_lockdown_unwrap_buf, meshtastic_lockdown_open. rewrite Hsealed, Hpr, Hd. cbn [negb].
    rewrite <- drop_drop, !(drop_app_length' (put_le32 _)), (take_app_length' nonce), (drop_app_length' nonce) by done.
    unfold aead_dec. rewrite (gcm_dec_enc _ _ _ _ _ Ec). by rewrite (proj2 (Nat.leb_le _ _) Hc).
  - rewrite !length_app, length_le_put, Hn, Hct. unfold LD_NONCE_LEN, LD_TAG_LEN, MESHTASTIC_LOCKDOWN_SEAL_OVERHEAD in *. lia.
Qed.

Definition crc_ok (crc : list Z -> Z) : Prop := forall d, in_u32 (crc d).

Lemma frame_fields env data w : (length data <= MESHTASTIC_BULK_BLOB_MAX)%nat -> in_u32 (be_crc32 env data) ->
  get_le16 0 (frame env data w) = BULK_FRAME_TAG /\ get_le16 2 (frame env data w) = Zlen data /\
  get_le32 4 (frame env data w) = be_crc32 env data /\ drop BULK_FRAME_HDR (frame env data w) = w /\
  length (frame env data w) = (BULK_FRAME_HDR + length w)%nat.
Proof.
  unfold in_u32, UINT32_MAX, MESHTASTIC_BULK_BLOB_MAX, frame. intros Hl Hc. split_and!.
  - apply get_le_app_here. done.
  - rewrite get_le_app_skip by done. apply get_le_app_here. lia.
  - rewrite (app_assoc (put_le16 _)), get_le_app_skip by done. apply get_le_app_here. lia.
  - rewrite !app_assoc. by apply drop_app_length'.
  - rewrite !length_app, !length_le_put. unfold BULK_FRAME_HDR. lia.
Qed.

Lemma bulk_write_read env env' lenv id data cap l b l1 b1 l' :
  rand_ok lenv -> crc_ok (be_crc32 env) -> be_crc32 env' = be_crc32 env -> be_read env' id = OK ->
  meshtastic_lockdown_is_sealed data = false -> (length data <= cap)%nat ->
  meshtastic_bulk_write env lenv id data (l, b) = (OK, (l1, b1)) -> same_lock l l' ->
  meshtastic_bulk_read env' id cap (l', b1) = Val data.
Proof.
  intros Hr Hcrc Ec Hrd Hs Hcap E Hl. rewrite (bulk_read_same _ _ _ _ _ _ Hl). unfold meshtastic_bulk_write in E.
  destruct (_ <? id) eqn:Hid; [done|]. destruct (_ <? length data)%nat eqn:Hlen; [done|]. apply Nat.ltb_ge in Hlen.
  destruct (b_ready b) eqn:Hb; [|done]. cbn [negb] in E. set (cap0 := (BULK_SCRATCH_LEN - BULK_FRAME_HDR)%nat) in E.
  destruct (meshtastic_lockdown_wrap_buf _ _ _ _ _) as [[w|] l2] eqn:Ew; [|done].
  destruct (wrap_unwrap _ _ _ _ cap _ _ _ Hr Hs Hcap Ew) as [Hu Hw]. unfold nvs_write in E. destruct (be_write env id); [|done].
  apply pair_equal_spec in E as [_ E]. apply pair_equal_spec in E as [_ <-]. unfold meshtastic_bulk_read. rewrite Hid.
  cbn [b_ready set_b_nvs b_nvs]. rewrite Hb. cbn [negb]. unfold nvs_read. cbn [b_nvs set_b_nvs]. rewrite lookup_insert_eq, Hrd.
  destruct (frame_fields env data w Hlen (Hcrc data)) as (F1 & F2 & F3 & F4 & F5). rewrite F1, F2, F3, F4, F5.
  rewrite (proj2 (Nat.ltb_ge BULK_SCRATCH_LEN _)), (proj2 (Nat.ltb_ge _ BULK_FRAME_HDR))
    by (unfold cap0, BULK_SCRATCH_LEN, BULK_FRAME_HDR in *; lia).
  rewrite Z.eqb_refl, Nat2Z.id, (proj2 (Nat.ltb_ge _ _) Hcap). cbn [orb negb].
  by rewrite Hu, Ec, Nat.eqb_refl, Z.eqb_refl.
Qed.

Lemma bulk_write_frame env lenv id data l b r l1 b1 :
  meshtastic_bulk_write env lenv id data (l, b) = (r, (l1, b1)) ->
  (exists d, l1 = set_draws d l) /\ b_ready b1 = b_ready b /\ (forall j, j <> id -> b_nvs b1 !! j = b_nvs b !! j).
Proof.
  assert (l = set_draws (draws l) l) as Hl by by destruct l. intros E. unfold meshtastic_bulk_write in E.
  destruct (_ <? id); [apply pair_equal_spec in E as [_ [= <- <-]]; eauto|]. destruct (_ <? length data)%nat; [apply pair_equal_spec in E as [_ [= <- <-]]; eauto|].
  destruct (negb (b_ready b)); [apply pair_equal_spec in E as [_ [= <- <-]]; eauto|].
  destruct (wrap_draws lenv (blob_name id) data (BULK_SCRATCH_LEN - BULK_FRAME_HDR) l) as [d Hd].
  destruct (meshtastic_lockdown_wrap_buf _ _ _ _ _) as [[w|] l2]; cbn in Hd; subst l2.
  - unfold nvs_write in E. destruct (be_write env id); apply pair_equal_spec in E as [_ [= <- <-]]; [|eauto].
    split; [eauto|]. split; [done|]. intros j Hj. by apply lookup_insert_ne.
  - apply pair_equal_spec in E as [_ [= <- <-]]. eauto.
Qed.

Lemma bulk_write_errs env lenv id data s e s' :
  meshtastic_bulk_write env lenv id data s = (ERR e, s') -> be_write env id = ERR e \/ e <> ENOENT.
Proof.
  destruct s as [l b]. unfold meshtastic_bulk_write. intros E. apply (f_equal fst) in E. revert E. destruct (_ <? id); [cbn; intros [= <-]; by right|].
  destruct (_ <? length data)%nat; [cbn; intros [= <-]; by right|]. destruct (negb (b_ready b)); [cbn; intros [= <-]; by right|].
  destruct (meshtastic_lockdown_wrap_buf _ _ _ _ _) as [r l2] eqn:Ew. destruct r as [w|e'].
  - unfold nvs_write. destruct (be_write env id); cbn; [done | intros [= <-]; by left].
  - cbn. intros [= <-]. right. apply (f_equal fst) in Ew. cbn in Ew. unfold meshtastic_lockdown_wrap_buf, meshtastic_lockdown_seal, random_bytes, aead_enc in Ew.
    repeat case_match; simplify_eq/=; done.
Qed.

Lemma bulk_delete_spec env id b r b1 :
  id <= MESHTASTIC_BULK_ID_USER_MAX -> b_ready b = true -> meshtastic_bulk_delete env id b = (r, b1) ->
  b_ready b1 = true /\ (forall j, j <> id -> b_nvs b1 !! j = b_nvs b !! j) /\
  match r with OK => b_nvs b1 !! id = None | ERR e => be_delete env id = ERR e end.
Proof.
  intros Hi Hb. unfold meshtastic_bulk_delete, nvs_delete. rewrite (proj2 (Z.ltb_ge _ _) Hi), Hb.
  case_bool_decide as Ha; [intros [= <- <-]; done|]. destruct (be_delete env id); intros [= <- <-]; [|done].
  split; [done|]. split; [intros; by apply lookup_delete_ne | apply lookup_delete_eq].
Qed.

(** A read depends on its own record only. *)
Lemma bulk_read_frame env id cap l b b' :
  b_ready b' = b_ready b -> b_nvs b' !! id = b_nvs b !! id -> meshtastic_bulk_read env id cap (l, b') = meshtastic_bulk_read env id cap (l, b).
Proof. intros E1 E2. unfold meshtastic_bulk_read, nvs_read. by rewrite E1, E2. Qed.
End Bulk.
