(* ===== verification/Pages.v ===== *)
(** * Tables kept on flash (src/src/meshtastic_nodedb.c)

    What the two tables of the node database share on flash: records of the settings store
    named by a node's id, and tables of fixed-slot pages in the [Bulk] store, a page written
    only when its checksum changed. The settings store is the one of [Lockdown]. Numbers
    are parsed as where an [unsigned long] has 32 bits. *)
From S2P Require Import Prelude Sched Routes NodeDb Lockdown Bulk.
Open Scope Z_scope.

(** The stores and the node database over them. *)
Record world := World {
  wd_ld : ld;
  wd_bulk : bulk;
  wd_db : nodedb;
}.
Definition set_wd_ld (v : ld) (r : world) : world :=
World v (wd_bulk r) (wd_db r).
Definition set_wd_bulk (v : bulk) (r : world) : world :=
World (wd_ld r) v (wd_db r).
Definition set_wd_db (v : nodedb) (r : world) : world :=
World (wd_ld r) (wd_bulk r) v.

Record st_env := StEnv {
  st_nd : nd_env;
  st_bulk : bulk_env;
  st_lock : ld_env;
  st_confirmed : bool;     (* the running image is confirmed *)
}.

(** ** Settings records by node id *)

(** "<subtree>/%08x" *)
Definition id_name (subtree : list Z) (num : Z) : list Z := subtree ++ chars "/" ++ hex_digits 8 num.

Definition is_space (c : Z) : bool := (c =? 32) || ((9 <=? c) && (c <=? 13)).
Definition hex_value (c : Z) : option Z :=
  if (48 <=? c) && (c <=? 57) then Some (c - 48)
  else if (97 <=? c) && (c <=? 102) then Some (c - 87)
  else if (65 <=? c) && (c <=? 70) then Some (c - 55)
  else None.
Definition is_hex (c : Z) : bool := bool_decide (is_Some (hex_value c)).

Fixpoint skip_space (s : list Z) : list Z :=
  match s with c :: s' => if is_space c then skip_space s' else s | [] => [] end.
Definition skip_0x (s : list Z) : list Z :=
  match s with
  | z :: x :: d :: s' => if (z =? 48) && ((x =? 120) || (x =? 88)) && is_hex d then d :: s' else s
  | _ => s
  end.
(** The digits from the front, too large a value held at the maximum. *)
Fixpoint hex_run (acc : Z) (s : list Z) : Z * list Z :=
  match s with
  | c :: s' => match hex_value c with
               | Some d => hex_run (Z.min UINT32_MAX (16 * acc + d)) s'
               | None => (acc, s)
               end
  | [] => (acc, [])
  end.
(** [strtoul(s, &end, 16)]: the value and the characters from [end]. *)
Definition strtoul16 (s : list Z) : Z * list Z :=
  let t := skip_space s in
  let '(neg, t) := match t with
                   | c :: t' => if c =? 45 then (true, t') else if c =? 43 then (false, t') else (false, t)
                   | [] => (false, [])
                   end in
  let t := skip_0x t in
  match t with
  | d :: _ => if is_hex d then let '(v, r) := hex_run 0 t in (if neg then u32 (- v) else v, r) else (0, s)
  | [] => (0, s)
  end.

(** What follows the last '/'. *)
Fixpoint last_component (key : list Z) : list Z :=
  match key with
  | [] => []
  | c :: k => if existsb (Z.eqb 47) k then last_component k else if c =? 47 then k else key
  end.

Definition parse_id (s : list Z) : option Z :=
  match strtoul16 s with (num, []) => if num =? 0 then None else Some num | _ => None end.
Definition record_id (key : list Z) : option Z := parse_id (last_component key).

(** The keys below a subtree with their records, in the store's order. *)
Definition subtree_records (env : ld_env) (subtree : list Z) (l : ld) : list (list Z * list Z) :=
  omap (fun key => pair key <$> flash l !! (subtree ++ chars "/" ++ key)) (e_names env subtree (flash l)).

Record reconcile_ctx := ReconcileCtx {
  rc_orphans : list Z;
  rc_overflow : bool;
  rc_all : bool;
}.
Definition set_rc_orphans (v : list Z) (r : reconcile_ctx) : reconcile_ctx :=
ReconcileCtx v (rc_overflow r) (rc_all r).
Definition set_rc_overflow (v : bool) (r : reconcile_ctx) : reconcile_ctx :=
ReconcileCtx (rc_orphans r) v (rc_all r).
Definition set_rc_all (v : bool) (r : reconcile_ctx) : reconcile_ctx :=
ReconcileCtx (rc_orphans r) (rc_overflow r) v.
Definition ctx0 (all : bool) : reconcile_ctx := ReconcileCtx [] false all.

Definition collect_id (batch : nat) (num : Z) (ctx : reconcile_ctx) : reconcile_ctx :=
  if (length (rc_orphans ctx) <? batch)%nat then set_rc_orphans (rc_orphans ctx ++ [num]) ctx else set_rc_overflow true ctx.

Definition delete_ids (env : ld_env) (subtree : list Z) (ids : list Z) (l : ld) : ld :=
  foldl (fun l num => settings_delete env (id_name subtree num) l) l ids.

(** The name a record is saved under parses back to its id. *)
Lemma hex_digit_value d : 0 <= d < 16 -> hex_value (hex_digit d) = Some d.
Proof. intros Hd. assert (d ∈ Z.of_nat <$> seq 0 16) as Hin by (apply list_elem_of_fmap; exists (Z.to_nat d); split; [lia | apply elem_of_seq; lia]).
  revert Hin. generalize d. apply Forall_forall. repeat constructor.
Qed.

Lemma length_hex_digits n v : length (hex_digits n v) = n.
Proof. revert v. induction n as [|n IH]; intros v; [done|]. cbn. rewrite length_app, IH. cbn. lia. Qed.

Lemma hex_run_digits n : forall v acc r, 0 <= v < 16 ^ Z.of_nat n -> 0 <= acc -> 16 ^ Z.of_nat n * acc + v <= UINT32_MAX ->
  hex_run acc (hex_digits n v ++ r) = hex_run (16 ^ Z.of_nat n * acc + v) r.
Proof.
  induction n as [|n IH]; intros v acc r Hv Ha Hb; [cbn in Hv; replace v with 0 by lia; cbn [hex_digits app]; f_equal; lia|].
  rewrite Nat2Z.inj_succ, Z.pow_succ_r in * by lia. cbn [hex_digits]. rewrite <- app_assoc.
  assert (0 <= v / 16 < 16 ^ Z.of_nat n) by (split; [apply Z.div_pos; lia | apply Z.div_lt_upper_bound; lia]).
  pose proof (Z.div_mod v 16 ltac:(lia)) as Hdm. pose proof (Z.mod_pos_bound v 16 ltac:(lia)) as Hm.
  rewrite IH by nia. cbn [app hex_run]. rewrite hex_digit_value by done. f_equal. rewrite Z.min_r by nia. nia.
Qed.

Lemma hex_digits_hex n v : Forall (fun c => is_hex c = true /\ c <> 120 /\ c <> 88) (hex_digits n v).
Proof.
  revert v. induction n as [|n IH]; intros v; [constructor|]. cbn. apply Forall_app. split; [done|]. constructor; [|done].
  pose proof (Z.mod_pos_bound v 16 ltac:(lia)) as Hm. unfold is_hex. rewrite hex_digit_value by done. split; [by apply bool_decide_true|].
  unfold hex_digit. destruct (_ <? 10) eqn:E; bools; lia.
Qed.

Lemma hex_not_space c : is_hex c = true -> is_space c = false /\ (c =? 45) = false /\ (c =? 43) = false /\ c <> 47.
Proof.
  intros Hc. assert (48 <= c <= 57 \/ 97 <= c <= 102 \/ 65 <= c <= 70) as Hr.
  { unfold is_hex, hex_value in Hc. apply bool_decide_eq_true in Hc.
    destruct ((48 <=? c) && (c <=? 57)) eqn:E1; [bools; lia|]. destruct ((97 <=? c) && (c <=? 102)) eqn:E2; [bools; lia|].
    destruct ((65 <=? c) && (c <=? 70)) eqn:E3; [bools; lia | by destruct Hc]. }
  unfold is_space. rewrite orb_false_iff, andb_false_iff, !Z.eqb_neq, !Z.leb_gt. lia.
Qed.

Lemma parse_hex_digits num : 0 < num <= UINT32_MAX -> parse_id (hex_digits 8 num) = Some num.
Proof.
  intros Hn. pose proof (hex_digits_hex 8 num) as Hall. pose proof (length_hex_digits 8 num) as Hlen.
  pose proof (hex_run_digits 8 num 0 [] ltac:(unfold UINT32_MAX in *; lia) ltac:(lia) ltac:(unfold UINT32_MAX in *; lia)) as Hrun.
  rewrite app_nil_r in Hrun. unfold parse_id, strtoul16. destruct (hex_digits 8 num) as [|a [|b [|c l]]]; try done.
  apply Forall_cons in Hall as [(Ha & _) Hall]. apply Forall_cons in Hall as [(_ & Hb1 & Hb2) _]. destruct (hex_not_space a Ha) as (Hs & Hm & Hp & _).
  cbn [skip_space]. rewrite Hs, Hm, Hp. unfold skip_0x. rewrite (proj2 (Z.eqb_neq b 120)), (proj2 (Z.eqb_neq b 88)) by done.
  cbn [orb]. rewrite andb_false_r. cbn [andb]. rewrite Ha, Hrun. cbn [hex_run]. rewrite Z.mul_0_r, Z.add_0_l. by rewrite (proj2 (Z.eqb_neq num 0)) by lia.
Qed.

Lemma record_id_digits num : 0 < num <= UINT32_MAX -> record_id (hex_digits 8 num) = Some num.
Proof.
  intros Hn. unfold record_id. replace (last_component (hex_digits 8 num)) with (hex_digits 8 num); [by apply parse_hex_digits|].
  assert (forall l, Forall (fun c => is_hex c = true /\ c <> 120 /\ c <> 88) l -> existsb (Z.eqb 47) l = false) as Hno.
  { induction 1 as [|c l (Hc & _) _ IH]; [done|]. cbn [existsb]. rewrite IH. destruct (hex_not_space c Hc) as (_ & _ & _ & Hne). by rewrite (proj2 (Z.eqb_neq 47 c)) by congruence. }
  pose proof (hex_digits_hex 8 num) as Hall. destruct (hex_digits 8 num) as [|c l]; [done|]. apply Forall_cons in Hall as [(Hc & _) Hl].
  cbn [last_component]. rewrite Hno by done. destruct (hex_not_space c Hc) as (_ & _ & _ & Hne). by rewrite (proj2 (Z.eqb_neq c 47)).
Qed.

(** Slots of one length, side by side. *)
Lemma length_slots {A} (n : nat) (ls : list (list A)) : Forall (fun l => length l = n) ls -> length (mjoin ls) = (length ls * n)%nat.
Proof. induction 1 as [|l ls Hl _ IH]; [done|]. change (mjoin (l :: ls)) with (l ++ mjoin ls). rewrite length_app, Hl, IH. cbn. lia. Qed.

Lemma drop_slots {A} (n : nat) (ls : list (list A)) i x : Forall (fun l => length l = n) ls -> ls !! i = Some x ->
  exists r, drop (i * n) (mjoin ls) = x ++ r.
Proof.
  intros Hall. revert i. induction Hall as [|l ls Hl _ IH]; intros i Hi; [done|]. change (mjoin (l :: ls)) with (l ++ mjoin ls).
  destruct i as [|i]; cbn in Hi; [simplify_eq; eauto|]. destruct (IH i Hi) as [r Hr]. exists r. rewrite <- Hr.
  change (S i * n)%nat with (n + i * n)%nat. rewrite <- drop_drop. f_equal. by apply drop_app_length'.
Qed.

Lemma byte_at_app_l l l' i : (i < length l)%nat -> byte_at (l ++ l') i = byte_at l i.
Proof. intros Hi. unfold byte_at. by rewrite lookup_app_l. Qed.

Lemma header_used (a b c d a' b' c' d' : Z) l l' : [a; b; c; d] ++ l = [a'; b'; c'; d'] ++ l' -> c = c'.
Proof. by intros [= _ _ ? _ _]. Qed.

Section Pages.
Context `{Crypto}.

(** [export_func] is [settings_save_one]; the first error ends the export. *)
Fixpoint export_each (env : ld_env) (l : list (list Z * list Z)) (s : ld) : cret * ld :=
  match l with
  | [] => (OK, s)
  | (name, v) :: l =>
      match meshtastic_lockdown_export env name v s with
      | (OK, s) => export_each env l s
      | (ERR e, s) => (ERR e, s)
      end
  end.

(** ** Pages *)

Definition set_stores (s : ld * bulk) (w : world) : world := set_wd_ld s.1 (set_wd_bulk s.2 w).

(** A page that holds nothing is deleted. *)
Definition page_store (env : st_env) (id : Z) (page : list Z) (used : nat) (w : world) : cret * world :=
  if (0 <? used)%nat
  then let '(ret, s) := meshtastic_bulk_write (st_bulk env) (st_lock env) id page (wd_ld w, wd_bulk w) in (ret, set_stores s w)
  else let '(ret, b) := meshtastic_bulk_delete (st_bulk env) id (wd_bulk w) in (ret, set_wd_bulk b w).

Definition stored (ret : cret) : bool := bool_decide (ret = OK) || bool_decide (ret = ERR ENOENT).

(** The loop body of a table's save: [build p] is page [p] and how many of its slots are used. *)
Definition persist_page (env : st_env) (id : nat -> Z) (build : nat -> list Z * nat) (force : bool)
    (s : world * list (option Z)) (p : nat) : world * list (option Z) :=
  let '(w, crcs) := s in
  let '(page, used) := build p in
  let crc := be_crc32 (st_bulk env) page in
  if negb force && bool_decide (crcs !! p = Some (Some crc)) then s
  else
    let '(ret, w) := page_store env (id p) page used w in
    (w, <[p := if stored ret then Some crc else None]> crcs).

Definition persist_pages (env : st_env) (id : nat -> Z) (build : nat -> list Z * nat) (force : bool) (n : nat)
    (s : world * list (option Z)) : world * list (option Z) :=
  foldl (persist_page env id build force) s (seq 0 n).

Definition page_layout_ok (len ver : Z) (page : list Z) (per_page : Z) : bool :=
  (Zlen page =? len) && (byte_at page 0 =? ver) && (byte_at page 1 =? per_page).

(** The record that says the import is done. *)
Definition meta_bytes (magic : Z) : list Z := put_le32 magic ++ [1; 0; 0; 0].
Definition meta_migrated (magic : Z) (r : res (list Z)) : bool :=
  match r with
  | Val m => (length m =? 8)%nat && (get_le32 0 m =? magic) && (byte_at m 4 =? 1)
  | Fail _ => false
  end.
Definition meta_read (env : st_env) (id : Z) (w : world) : res (list Z) :=
  meshtastic_bulk_read (st_bulk env) id 8 (wd_ld w, wd_bulk w).
Definition meta_write (env : st_env) (id magic : Z) (w : world) : cret * world :=
  let '(ret, s) := meshtastic_bulk_write (st_bulk env) (st_lock env) id (meta_bytes magic) (wd_ld w, wd_bulk w) in
  (ret, set_stores s w).

(** ** A saved table *)

Record io_ok (env : st_env) : Prop := {
  io_rand : rand_ok (st_lock env);
  io_crc : crc_ok (be_crc32 (st_bulk env));
  io_read : forall id, be_read (st_bulk env) id = OK;
  io_write : forall id, be_write (st_bulk env) id <> ERR ENOENT;
  io_delete : forall id, be_delete (st_bulk env) id <> ERR ENOENT;
}.

(** A table: its pages' ids, their length, and what a page with no used slot looks like. *)
Record table := Table { tb_id : nat -> Z; tb_len : nat; tb_empty : list Z; tb_pages : nat }.

Definition page_at (env : st_env) (tb : table) (w : world) (p : nat) : res (list Z) :=
  meshtastic_bulk_read (st_bulk env) (tb_id tb p) (tb_len tb) (wd_ld w, wd_bulk w).

Record table_ok (tb : table) : Prop := {
  tk_id : forall p, (p < tb_pages tb)%nat -> tb_id tb p <= MESHTASTIC_BULK_ID_USER_MAX;
  tk_inj : forall p q, tb_id tb p = tb_id tb q -> p = q;
  tk_len : (tb_len tb <= MESHTASTIC_BULK_BLOB_MAX)%nat;
}.

Record build_ok (tb : table) (build : nat -> list Z * nat) : Prop := {
  bk_len : forall p, length (build p).1 = tb_len tb;
  bk_plain : forall p, meshtastic_lockdown_is_sealed (build p).1 = false;
  bk_empty : forall p, (build p).2 = 0%nat -> (build p).1 = tb_empty tb;
}.

(** A checksum that is known is that of the page in the store. *)
Definition page_synced (env : st_env) (tb : table) (w : world) (p : nat) (c : Z) : Prop :=
  (exists pg, page_at env tb w p = Val pg /\ length pg = tb_len tb /\ be_crc32 (st_bulk env) pg = c) \/
  (page_at env tb w p = Fail ENOENT /\ be_crc32 (st_bulk env) (tb_empty tb) = c).
Definition synced (env : st_env) (tb : table) (w : world) (crcs : list (option Z)) : Prop :=
  forall p c, (p < tb_pages tb)%nat -> crcs !! p = Some (Some c) -> page_synced env tb w p c.

(** The store holds what [build] gives. *)
Definition page_held (env : st_env) (tb : table) (build : nat -> list Z * nat) (w : world) (p : nat) : Prop :=
  page_at env tb w p = Val (build p).1 \/ (page_at env tb w p = Fail ENOENT /\ (build p).2 = 0%nat).

(** The checksum tells a new page from the one it replaces. *)
Definition crc_tells (env : st_env) (tb : table) (build : nat -> list Z * nat) (w : world) (p : nat) : Prop :=
  forall pg, page_at env tb w p = Val pg \/ (page_at env tb w p = Fail ENOENT /\ pg = tb_empty tb) ->
  be_crc32 (st_bulk env) pg = be_crc32 (st_bulk env) (build p).1 -> pg = (build p).1.

(** What a save leaves as it was. *)
Record saved_from (w w' : world) : Prop := {
  sf_db : wd_db w' = wd_db w;
  sf_lock : same_lock (wd_ld w) (wd_ld w');
  sf_ready : b_ready (wd_bulk w') = b_ready (wd_bulk w);
}.

#[export] Instance saved_from_refl : Reflexive saved_from.
Proof. intros w. by split. Qed.
#[export] Instance saved_from_trans : Transitive saved_from.
Proof. intros w1 w2 w3 [A1 A2 A3] [B1 B2 B3]. split; [congruence | by transitivity (wd_ld w2) | congruence]. Qed.

Lemma stored_true ret : stored ret = true -> ret = OK \/ ret = ERR ENOENT.
Proof. unfold stored. by repeat case_bool_decide; auto. Qed.

Section Table.
Context (env : st_env) (tb : table) (build : nat -> list Z * nat).
Hypothesis Hio : io_ok env.
Hypothesis Htb : table_ok tb.
Hypothesis Hbuild : build_ok tb build.

Lemma page_at_frame w w' p :
  same_lock (wd_ld w) (wd_ld w') -> b_ready (wd_bulk w') = b_ready (wd_bulk w) ->
  b_nvs (wd_bulk w') !! tb_id tb p = b_nvs (wd_bulk w) !! tb_id tb p -> page_at env tb w' p = page_at env tb w p.
Proof. intros Hl Hb Hn. unfold page_at. rewrite (bulk_read_same _ _ _ _ _ _ Hl). by apply bulk_read_frame. Qed.

Lemma page_store_spec w p ret w' :
  (p < tb_pages tb)%nat -> b_ready (wd_bulk w) = true ->
  page_store env (tb_id tb p) (build p).1 (build p).2 w = (ret, w') ->
  saved_from w w' /\ (forall q, q <> p -> page_at env tb w' q = page_at env tb w q) /\
  (stored ret = true -> page_held env tb build w' p).
Proof.
  intros Hp Hb. unfold page_store. destruct (0 <? (build p).2)%nat eqn:Hu.
  - destruct (meshtastic_bulk_write _ _ _ _ _) as [r [l1 b1]] eqn:Ew. intros [= -> <-].
    destruct (bulk_write_frame _ _ _ _ _ _ _ _ _ Ew) as ((d & ->) & Hr & Hf).
    assert (saved_from w (set_stores (set_draws d (wd_ld w), b1) w)) as Hs by (split; [done | apply same_lock_draws | done]).
    split; [exact Hs|]. split.
    + intros q Hq. apply page_at_frame; [apply Hs | apply Hs | apply Hf; intros E; apply Hq, (tk_inj _ Htb), E].
    + intros Hst. left. unfold page_at. destruct ret as [|e].
      * eapply (bulk_write_read _ _ (st_lock env)); [apply Hio | apply Hio | done | apply Hio | apply Hbuild | by rewrite (bk_len _ _ Hbuild) | exact Ew | apply same_lock_draws].
      * exfalso. destruct (bulk_write_errs _ _ _ _ _ _ _ Ew) as [He|He]; destruct (stored_true _ Hst); simplify_eq; by eapply (io_write _ Hio).
  - apply Nat.ltb_ge in Hu. destruct (meshtastic_bulk_delete _ _ _) as [r b1] eqn:Ed. intros [= -> <-].
    destruct (bulk_delete_spec _ _ _ _ _ (tk_id _ Htb p Hp) Hb Ed) as (Hr & Hf & Hd).
    assert (saved_from w (set_wd_bulk b1 w)) as Hs by (split; [done | done | by rewrite Hb]).
    split; [exact Hs|]. split.
    + intros q Hq. apply page_at_frame; [apply Hs | apply Hs | apply Hf; intros E; apply Hq, (tk_inj _ Htb), E].
    + intros Hst. right. split; [|lia]. destruct ret as [|e].
      * unfold page_at, meshtastic_bulk_read, nvs_read. cbn [wd_bulk set_wd_bulk]. by rewrite (proj2 (Z.ltb_ge _ _) (tk_id _ Htb p Hp)), Hr, Hd.
      * exfalso. destruct (stored_true _ Hst); simplify_eq. by eapply (io_delete _ Hio).
Qed.

Lemma held_synced w p : page_held env tb build w p -> page_synced env tb w p (be_crc32 (st_bulk env) (build p).1).
Proof.
  intros [E|[E Hu]]; [left; exists (build p).1; split; [done|]; by rewrite (bk_len _ _ Hbuild) | right; split; [done|]; by rewrite (bk_empty _ _ Hbuild p Hu)].
Qed.

(** A page that is skipped because its checksum is unchanged is the page in the store. *)
Lemma synced_held w p : page_synced env tb w p (be_crc32 (st_bulk env) (build p).1) -> crc_tells env tb build w p ->
  ((build p).1 = tb_empty tb -> (build p).2 = 0%nat) -> page_held env tb build w p.
Proof.
  intros [(pg & Hr & Hl & Hc)|[Hr Hc]] Ht Hemp.
  - left. rewrite Hr. f_equal. apply Ht; auto.
  - right. split; [done|]. apply Hemp. symmetry. apply Ht; auto.
Qed.

Hypothesis Hused : forall p, (build p).1 = tb_empty tb -> (build p).2 = 0%nat.

Lemma persist_page_spec force w crcs p w' crcs' :
  (p < tb_pages tb)%nat -> b_ready (wd_bulk w) = true -> length crcs = tb_pages tb -> synced env tb w crcs ->
  persist_page env (tb_id tb) build force (w, crcs) p = (w', crcs') ->
  saved_from w w' /\ synced env tb w' crcs' /\ length crcs' = tb_pages tb /\
  (forall q, q <> p -> page_at env tb w' q = page_at env tb w q /\ crcs' !! q = crcs !! q) /\
  (is_Some (mjoin (crcs' !! p)) -> crc_tells env tb build w p -> page_held env tb build w' p).
Proof.
  intros Hp Hb Hlen Hsy. unfold persist_page. pose proof (page_store_spec w p) as Hst. pose proof (synced_held w p) as Hsh.
  pose proof (fun w => held_synced w p) as Hhs. specialize (Hused p). destruct (build p) as [page used] eqn:Eb. cbn [fst snd] in *.
  destruct (negb force && bool_decide (crcs !! p = Some (Some (be_crc32 (st_bulk env) page)))) eqn:Esk.
  - intros [= <- <-]. apply andb_true_iff in Esk as [_ Hc%bool_decide_eq_true]. repeat split; try done. intros _ Ht. apply Hsh; [by apply Hsy | done | done].
  - destruct (page_store env (tb_id tb p) page used w) as [ret w1] eqn:Est. intros [= <- <-]. destruct (Hst _ _ Hp Hb eq_refl) as (Hsf & Hfr & Hh).
    split; [done|]. split.
    + intros q c Hq Hc. destruct (decide (q = p)) as [->|Hne].
      * rewrite list_lookup_insert_eq in Hc by lia. destruct (stored ret); [|done]. simplify_eq. apply Hhs; auto.
      * rewrite list_lookup_insert_ne in Hc by done. unfold page_synced. rewrite (Hfr _ Hne). by apply Hsy.
    + split; [by rewrite length_insert|]. split; [intros q Hq; split; [by apply Hfr | by apply list_lookup_insert_ne]|].
      rewrite list_lookup_insert_eq by lia. cbn. intros [c Hc] _. destruct (stored ret); [auto | done].
Qed.

(** After a save, whose pages all went through, the store holds the table. *)
Lemma persist_pages_spec force n w crcs w' crcs' :
  (n <= tb_pages tb)%nat -> b_ready (wd_bulk w) = true -> length crcs = tb_pages tb -> synced env tb w crcs ->
  persist_pages env (tb_id tb) build force n (w, crcs) = (w', crcs') ->
  saved_from w w' /\ synced env tb w' crcs' /\ length crcs' = tb_pages tb /\
  (forall q, (n <= q)%nat -> page_at env tb w' q = page_at env tb w q) /\
  (forall p, (p < n)%nat -> is_Some (mjoin (crcs' !! p)) -> crc_tells env tb build w p -> page_held env tb build w' p).
Proof.
  revert w' crcs'. induction n as [|n IH]; intros w' crcs' Hn Hb Hlen Hsy.
  - intros [= <- <-]. repeat split; try done. intros p Hp. lia.
  - unfold persist_pages in *. rewrite seq_S, foldl_app. destruct (foldl _ _ (seq 0 n)) as [w1 c1] eqn:E1. cbn [foldl].
    destruct (IH w1 c1 ltac:(lia) Hb Hlen Hsy eq_refl) as (S1 & Y1 & L1 & F1 & H1). intros E.
    destruct (persist_page_spec force w1 c1 n w' crcs' ltac:(lia) ltac:(by rewrite (sf_ready _ _ S1)) L1 Y1 E) as (S2 & Y2 & L2 & F2 & H2).
    split; [by transitivity w1|]. split; [done|]. split; [done|]. split; [intros q Hq; destruct (F2 q ltac:(lia)) as [-> _]; apply F1; lia|].
    intros p Hp Hs Ht. destruct (decide (p = n)) as [->|Hne]; [apply H2; [done|]; unfold crc_tells in *; by rewrite F1 by lia|].
    destruct (F2 p Hne) as [Fp Fc]. rewrite Fc in Hs. unfold page_held. rewrite Fp. apply H1; [lia | done | done].
Qed.
End Table.

(** Another call on the same device: the flash may fail differently. *)
Record same_kit (env env' : st_env) : Prop := {
  kt_io : io_ok env';
  kt_crc : be_crc32 (st_bulk env') = be_crc32 (st_bulk env);
  kt_self : nd_self (st_nd env') = nd_self (st_nd env);
}.

Lemma page_at_kit env env' tb w p : io_ok env -> same_kit env env' -> page_at env' tb w p = page_at env tb w p.
Proof.
  intros Hio Hk. unfold page_at, meshtastic_bulk_read, nvs_read. by rewrite (kt_crc _ _ Hk), (io_read _ Hio), (io_read _ (kt_io _ _ Hk)).
Qed.

Lemma synced_kit env env' tb w crcs : io_ok env -> same_kit env env' -> synced env tb w crcs <-> synced env' tb w crcs.
Proof.
  intros Hio Hk. unfold synced, page_synced. rewrite (kt_crc _ _ Hk). split; intros Hs p c; specialize (Hs p c); by rewrite (page_at_kit env env') in *.
Qed.

Lemma synced_none env tb w n : synced env tb w (replicate n None).
Proof. intros p c _ [E _]%lookup_replicate. done. Qed.
End Pages.
