(* ===== verification/KeyStore.v ===== *)
(** * The key tier on flash (src/src/meshtastic_nodedb.c, the [mtnode] subtree and the warm pages)

    How the warm ring of [NodeDb] is kept across a reboot: as [Pages] in the bulk store, or
    as one settings record a key where there is no bulk store; the one-time import of the
    settings records; the pruning of records whose key left the ring. A call that takes the
    page lock is one atomic function; delayed saves are outputs. *)
From S2P Require Import Prelude Sched Routes NodeDb Lockdown Bulk Pages.
Open Scope Z_scope.

Definition MTNODE_SUBTREE : list Z := chars "mtnode".
Definition MTNODE_REC_LEN : nat := 4 + 1 + 1 + MESHTASTIC_NODEDB_PUBLIC_KEY_MAX_LEN.
Definition WARM_RECONCILE_BATCH : nat := 32.
Definition PURGE_PASSES : nat := 64.
Definition WREC_SLOT_LEN : nat := 4 + MTNODE_REC_LEN.
Definition WREC_PAGE_HDR : nat := 4.
Definition WREC_PER_PAGE : nat := (MESHTASTIC_BULK_BLOB_MAX - WREC_PAGE_HDR) / WREC_SLOT_LEN.
Definition WREC_PAGE_LEN : nat := WREC_PAGE_HDR + WREC_PER_PAGE * WREC_SLOT_LEN.
Definition WREC_PAGE_ID (p : nat) : Z := 0x0200 + Z.of_nat p.
Definition WREC_META_ID : Z := 0x00F1.
Definition WREC_META_MAGIC : Z := 0x434E4B57.
Definition WREC_PAGE_VER : Z := 1.
Definition WREC_PAGES (db : nodedb) : nat := (length (warm_keys db) + WREC_PER_PAGE - 1) / WREC_PER_PAGE.

(** A page's checksum as last written or read, [None] when that is not known. *)
Record wrec := Wrec {
  wrec_crc : list (option Z);
  wrec_loaded : bool;
  wrec_legacy_pending : bool;
}.
Definition set_wrec_crc (v : list (option Z)) (r : wrec) : wrec :=
Wrec v (wrec_loaded r) (wrec_legacy_pending r).
Definition set_wrec_loaded (v : bool) (r : wrec) : wrec :=
Wrec (wrec_crc r) v (wrec_legacy_pending r).
Definition set_wrec_legacy_pending (v : bool) (r : wrec) : wrec :=
Wrec (wrec_crc r) (wrec_loaded r) v.

Definition warm_reconcile_cb (db : nodedb) (ctx : reconcile_ctx) (r : list Z * list Z) : reconcile_ctx :=
  match record_id r.1 with
  | None => ctx
  | Some num =>
      if rc_all ctx || bool_decide (warm_find_locked num db = None) then collect_id WARM_RECONCILE_BATCH num ctx else ctx
  end.

(** ** Settings keys *)

Section KeyStore.
Context `{Crypto}.

Definition wrec_active (w : world) : bool := meshtastic_bulk_ready (wd_bulk w).

Definition nodekeys_set (env : st_env) (t : wrec) (w : world) (r : list Z * list Z) : world :=
  let '(key, v) := r in
  if wrec_active w && wrec_loaded t then w
  else if negb (length v =? MTNODE_REC_LEN)%nat && negb (length v =? MTNODE_REC_LEN + MESHTASTIC_LOCKDOWN_SEAL_OVERHEAD)%nat
  then w
  else
    let name := MTNODE_SUBTREE ++ chars "/" ++ key in
    let got := if e_read_ok (st_lock env) name then Val v else Fail EIO in
    match meshtastic_lockdown_read name (length v) got MTNODE_REC_LEN (wd_ld w) with
    | Val buf =>
        if negb (length buf =? MTNODE_REC_LEN)%nat then w
        else match parse_id key with
             | None => w
             | Some num => set_wd_db (warm_place_locked num (drop 6 buf) (byte_at buf 4) (byte_at buf 5) (get_le32 0 buf) (wd_db w)) w
             end
    | Fail _ => w
    end.

Definition nodekeys_load (env : st_env) (t : wrec) (w : world) : world :=
  foldl (nodekeys_set env t) w (subtree_records (st_lock env) MTNODE_SUBTREE (wd_ld w)).

Definition mtnode_record (k : warm_key) : list Z :=
  put_le32 (wk_last_seen k) ++ [wk_role k; wk_known_signer k] ++ wk_pub k.
Definition warm_skipped (env : st_env) (k : warm_key) : bool := (wk_num k =? 0) || (wk_num k =? nd_self (st_nd env)).

Definition nodekeys_export (env : st_env) (w : world) : cret * world :=
  if wrec_active w then (OK, w)
  else
    let kept := List.filter (fun k => negb (warm_skipped env k)) (warm_keys (wd_db w)) in
    let '(ret, l) := export_each (st_lock env) ((fun k => (id_name MTNODE_SUBTREE (wk_num k), mtnode_record k)) <$> kept) (wd_ld w) in
    (ret, set_wd_ld l w).

(** Records of another length than today's, dropped before they are read. *)
Definition nodekeys_purge_cb (ctx : reconcile_ctx) (r : list Z * list Z) : reconcile_ctx :=
  if (length r.2 =? MTNODE_REC_LEN)%nat then ctx
  else match record_id r.1 with Some num => collect_id WARM_RECONCILE_BATCH num ctx | None => ctx end.

Fixpoint purge_passes (env : ld_env) (passes : nat) (l : ld) : ld :=
  match passes with
  | O => l
  | S passes =>
      let ctx := foldl nodekeys_purge_cb (ctx0 true) (subtree_records env MTNODE_SUBTREE l) in
      let l := delete_ids env MTNODE_SUBTREE (rc_orphans ctx) l in
      if rc_overflow ctx then purge_passes env passes l else l
  end.
Definition nodekeys_purge_foreign (env : ld_env) (l : ld) : ld := purge_passes env PURGE_PASSES l.

(** ** Warm pages *)

Definition wrec_slot (db : nodedb) (s : nat) : warm_key := default warm_zero (warm_keys db !! s).
Definition wrec_slot_bytes (env : st_env) (k : warm_key) : list Z :=
  if warm_skipped env k then replicate WREC_SLOT_LEN 0 else put_le32 (wk_num k) ++ mtnode_record k.

(** The page and how many of its slots are used. *)
Definition wrec_build_page_locked (env : st_env) (p : nat) (db : nodedb) : list Z * nat :=
  let ks := wrec_slot db <$> seq (p * WREC_PER_PAGE) WREC_PER_PAGE in
  let used := length (List.filter (fun k => negb (warm_skipped env k)) ks) in
  ([WREC_PAGE_VER; u8 (Z.of_nat WREC_PER_PAGE); u8 (Z.of_nat used); 0] ++ mjoin (wrec_slot_bytes env <$> ks), used).

Definition wrec_persist (env : st_env) (force : bool) (s : world * wrec) : world * wrec :=
  let '(w, t) := s in
  if negb (wrec_active w) || negb (wrec_loaded t) || negb (meshtastic_lockdown_store_ready (wd_ld w)) then s
  else
    let '(w', crc) := persist_pages env WREC_PAGE_ID (fun p => wrec_build_page_locked env p (wd_db w)) force (WREC_PAGES (wd_db w)) (w, wrec_crc t) in
    (w', set_wrec_crc crc t).

Definition slot_at (page : list Z) (i : nat) : list Z := drop (WREC_PAGE_HDR + i * WREC_SLOT_LEN) page.

(** A slot goes back to its own place; a ring smaller than the pages takes it as a new key. *)
Definition wrec_load_slot (env : st_env) (p : nat) (page : list Z) (a : nodedb * Z) (i : nat) : nodedb * Z :=
  let '(db, restored) := a in
  let slot := slot_at page i in
  let s := (p * WREC_PER_PAGE + i)%nat in
  let num := get_le32 0 slot in
  if (num =? 0) || (num =? nd_self (st_nd env)) then a
  else
    let pub := take MESHTASTIC_NODEDB_PUBLIC_KEY_MAX_LEN (drop 10 slot) in
    let free := match warm_keys db !! s with Some k => wk_num k =? 0 | None => false end in
    (if free then set_warm_keys (<[s := WarmKey num (get_le32 4 slot) (byte_at slot 8) (byte_at slot 9) pub]> (warm_keys db)) db
     else warm_place_locked num pub (byte_at slot 8) (byte_at slot 9) (get_le32 4 slot) db, restored + 1).

Definition wrec_page_read (env : st_env) (p : nat) (w : world) : res (list Z) :=
  meshtastic_bulk_read (st_bulk env) (WREC_PAGE_ID p) WREC_PAGE_LEN (wd_ld w, wd_bulk w).
Definition wrec_layout_ok (page : list Z) : bool :=
  page_layout_ok (Z.of_nat WREC_PAGE_LEN) WREC_PAGE_VER page (u8 (Z.of_nat WREC_PER_PAGE)).

Definition warm_clear (db : nodedb) : nodedb := set_warm_keys (replicate (length (warm_keys db)) warm_zero) db.

Fixpoint wrec_load_pages (env : st_env) (ps : list nat) (cleared : bool) (restored : Z) (s : world * wrec) : res Z * (world * wrec) :=
  let '(w, t) := s in
  match ps with
  | [] => (Val restored, (w, set_wrec_loaded true t))
  | p :: ps =>
      let r := wrec_page_read env p w in
      let t := set_wrec_crc (<[p := None]> (wrec_crc t)) t in
      match r with
      | Fail EACCES => (Fail EACCES, (w, t))
      | _ =>
          let w := if cleared then w else set_wd_db (warm_clear (wd_db w)) w in
          match r with
          | Val page =>
              if wrec_layout_ok page then
                let '(db, restored) := foldl (wrec_load_slot env p page) (wd_db w, restored) (seq 0 WREC_PER_PAGE) in
                wrec_load_pages env ps true restored
                  (set_wd_db db w, set_wrec_crc (<[p := Some (be_crc32 (st_bulk env) page)]> (wrec_crc t)) t)
              else wrec_load_pages env ps true restored (w, t)
          | Fail _ => wrec_load_pages env ps true restored (w, t)
          end
      end
  end.

Definition wrec_load (env : st_env) (s : world * wrec) : res Z * (world * wrec) :=
  wrec_load_pages env (seq 0 (WREC_PAGES (wd_db s.1))) false 0 s.

Definition wrec_count (env : st_env) (db : nodedb) : Z :=
  Zlen (List.filter (fun k => negb (warm_skipped env k)) (warm_keys db)).

Definition wrec_boot_restore (env : st_env) (s : world * wrec) : res Z * (world * wrec) :=
  let '(w, t) := s in
  let n := meta_read env WREC_META_ID w in
  let migrated := meta_migrated WREC_META_MAGIC n in
  let t := set_wrec_loaded false t in
  if bool_decide (n = Fail EACCES) then (Fail EACCES, (w, t))
  else if migrated then
    let '(restored, (w, t)) := wrec_load env (w, t) in
    (restored, (w, set_wrec_legacy_pending true t))
  else
    let w := nodekeys_load env t w in
    let want := wrec_count env (wd_db w) in
    let t := set_wrec_loaded true (set_wrec_crc (replicate (WREC_PAGES (wd_db w)) None) t) in
    let '(restored, (w, t)) := wrec_load env (wrec_persist env true (w, t)) in
    if bool_decide (restored = Val want) then
      let '(ret, w) := meta_write env WREC_META_ID WREC_META_MAGIC w in
      (restored, (w, if bool_decide (ret = OK) then set_wrec_legacy_pending true t else t))
    else (restored, (w, t)).

Definition wrec_image_confirmed (env : st_env) : bool := st_confirmed env.

Definition wrec_do_persist (env : st_env) (s : world * wrec) : world * wrec * list nd_out :=
  let '(w, t) := s in
  if wrec_legacy_pending t && wrec_loaded t && wrec_image_confirmed env then
    let ctx := foldl (warm_reconcile_cb (wd_db w)) (ctx0 true) (subtree_records (st_lock env) MTNODE_SUBTREE (wd_ld w)) in
    let w := set_wd_ld (delete_ids (st_lock env) MTNODE_SUBTREE (rc_orphans ctx) (wd_ld w)) w in
    (wrec_persist env false (w, set_wrec_legacy_pending (rc_overflow ctx) t), if rc_overflow ctx then [SaveKeys] else [])
  else (wrec_persist env false s, []).

Definition wrec_rewrite_hook (env : st_env) (s : world * wrec) : world * wrec := wrec_persist env true s.

(** ** Saving *)

Definition nodekeys_do_persist (env : st_env) (s : world * wrec) : world * wrec * list nd_out :=
  let '(w, t) := s in
  if negb (meshtastic_lockdown_store_ready (wd_ld w)) then (s, [])
  else if wrec_active w then wrec_do_persist env (set_wd_db (set_nodekeys_reconcile false (wd_db w)) w, t)
  else
    let w := if nodekeys_reconcile (wd_db w) then
               let ctx := foldl (warm_reconcile_cb (wd_db w)) (ctx0 false) (subtree_records (st_lock env) MTNODE_SUBTREE (wd_ld w)) in
               set_wd_db (set_nodekeys_reconcile (rc_overflow ctx) (wd_db w))
                 (set_wd_ld (delete_ids (st_lock env) MTNODE_SUBTREE (rc_orphans ctx) (wd_ld w)) w)
             else w in
    let '(_, w) := nodekeys_export env w in
    ((w, t), if nodekeys_reconcile (wd_db w) then [SaveKeys] else []).

Definition nodekeys_save_work_handler := nodekeys_do_persist.

(** ** Pages and the ring *)

Record wk_ok (k : warm_key) : Prop := {
  wo_num : in_u32 (wk_num k); wo_seen : in_u32 (wk_last_seen k); wo_role : in_u8 (wk_role k);
  wo_signer : in_u8 (wk_known_signer k); wo_pub : length (wk_pub k) = MESHTASTIC_NODEDB_PUBLIC_KEY_MAX_LEN }.

(** What the pages keep of a slot: our own key and stale bytes are not stored. *)
Definition warm_image (env : st_env) (k : warm_key) : warm_key := if warm_skipped env k then warm_zero else k.

Lemma warm_zero_ok : wk_ok warm_zero.
Proof. by split. Qed.

Lemma length_slot_bytes env k : wk_ok k -> length (wrec_slot_bytes env k) = WREC_SLOT_LEN.
Proof.
  intros Hk. unfold wrec_slot_bytes, mtnode_record. destruct (warm_skipped env k); [done|].
  rewrite !length_app, !length_le_put, (wo_pub _ Hk). done.
Qed.

Definition wrec_empty : list Z := [WREC_PAGE_VER; u8 (Z.of_nat WREC_PER_PAGE); 0; 0] ++ replicate (WREC_PER_PAGE * WREC_SLOT_LEN) 0.
Definition warm_table (db : nodedb) : table := Table WREC_PAGE_ID WREC_PAGE_LEN wrec_empty (WREC_PAGES db).

Lemma warm_table_ok db : (WREC_PAGES db <= 256)%nat -> table_ok (warm_table db).
Proof.
  intros Hp. split; cbn [warm_table tb_id tb_pages tb_len]; [intros p Hlt; unfold WREC_PAGE_ID, MESHTASTIC_BULK_ID_USER_MAX; lia | intros p q; unfold WREC_PAGE_ID; lia|].
  apply Nat.leb_le. by vm_compute.
Qed.

Section Build.
Context (env : st_env) (db : nodedb).
Hypothesis Hring : Forall wk_ok (warm_keys db).

Lemma wrec_slot_ok s : wk_ok (wrec_slot db s).
Proof. unfold wrec_slot. destruct (warm_keys db !! s) eqn:E; cbn; [by eapply Forall_lookup_1 | apply warm_zero_ok]. Qed.

Lemma page_slots p : Forall (fun l => length l = WREC_SLOT_LEN) (wrec_slot_bytes env <$> (wrec_slot db <$> seq (p * WREC_PER_PAGE) WREC_PER_PAGE)).
Proof. apply Forall_fmap, Forall_fmap, Forall_forall. intros s _. apply length_slot_bytes, wrec_slot_ok. Qed.

Lemma warm_build_ok : build_ok (warm_table db) (fun p => wrec_build_page_locked env p db).
Proof.
  split; intros p; unfold wrec_build_page_locked; cbn [fst snd warm_table tb_len tb_empty].
  - rewrite length_app, (length_slots WREC_SLOT_LEN) by apply page_slots. by rewrite !length_fmap, length_seq.
  - by apply plain_first_byte.
  - intros Hu. rewrite Hu. unfold wrec_empty. f_equal. revert Hu. generalize (seq (p * WREC_PER_PAGE) WREC_PER_PAGE) (length_seq WREC_PER_PAGE (p * WREC_PER_PAGE)).
    generalize WREC_PER_PAGE as n. intros n l <-. induction l as [|s l IH]; [done|]. cbn [fmap list_fmap List.filter].
    unfold wrec_slot_bytes at 1. destruct (warm_skipped env (wrec_slot db s)); cbn [negb]; [|done]. intros Hu.
    change (mjoin (?a :: ?b)) with (a ++ mjoin b). cbn [length Nat.mul]. rewrite replicate_add. f_equal. by apply IH.
Qed.

Lemma warm_build_used p : (wrec_build_page_locked env p db).1 = wrec_empty -> (wrec_build_page_locked env p db).2 = 0%nat.
Proof.
  unfold wrec_build_page_locked, wrec_empty. cbn [fst snd]. set (used := length _).
  intros E%header_used.
  assert (used <= 48)%nat as Hu by (unfold used; etransitivity; [apply List.filter_length_le|]; by rewrite !length_fmap, length_seq).
  rewrite u8_small in E by lia. lia.
Qed.

(** *** Reading a page back *)

Lemma page_slot_at p i : (i < WREC_PER_PAGE)%nat ->
  exists rest, slot_at (wrec_build_page_locked env p db).1 i = wrec_slot_bytes env (wrec_slot db (p * WREC_PER_PAGE + i)) ++ rest.
Proof.
  intros Hi. unfold slot_at, wrec_build_page_locked. cbn [fst]. rewrite <- drop_drop, (drop_app_length' [_; _; _; _]) by done.
  apply drop_slots; [apply page_slots|]. rewrite !list_lookup_fmap, lookup_seq_lt by done. done.
Qed.

(** The ring with its first [n] slots restored. *)
Definition filled (n : nat) : list warm_key :=
  take n (warm_image env <$> warm_keys db) ++ replicate (length (warm_keys db) - n) warm_zero.
Definition kept (n : nat) : Z := Zlen (List.filter (fun k => negb (warm_skipped env k)) (take n (warm_keys db))).

Lemma filled_step n k : warm_keys db !! n = Some k -> <[n := warm_image env k]> (filled n) = filled (S n).
Proof.
  intros Hk. pose proof (lookup_lt_Some _ _ _ Hk) as Hlt. unfold filled. replace (length (warm_keys db) - n)%nat with (S (length (warm_keys db) - S n)) by lia.
  rewrite (take_S_r _ n (warm_image env k)) by (rewrite list_lookup_fmap, Hk; done). cbn [replicate]. rewrite <- app_assoc. cbn [app].
  rewrite insert_app_r_alt by (rewrite length_take; lia). rewrite length_take, length_fmap. by replace (n - n `min` length (warm_keys db))%nat with 0%nat by lia.
Qed.

Lemma filled_past n : warm_keys db !! n = None -> filled (S n) = filled n /\ kept (S n) = kept n.
Proof.
  intros Hn%lookup_ge_None. unfold filled, kept. rewrite !take_ge by (rewrite ?length_fmap; lia). split; [|done]. f_equal. f_equal. lia.
Qed.

Lemma kept_step n k : warm_keys db !! n = Some k -> kept (S n) = kept n + (if warm_skipped env k then 0 else 1).
Proof.
  intros Hk. unfold kept. rewrite (take_S_r _ n k Hk), List.filter_app, length_app. cbn [List.filter]. destruct (warm_skipped env k); cbn [negb length]; lia.
Qed.

Lemma filled_free n k : warm_keys db !! n = Some k -> filled n !! n = Some warm_zero.
Proof.
  intros Hk%lookup_lt_Some. unfold filled. rewrite lookup_app_r by (rewrite length_take; lia). apply lookup_replicate.
  rewrite length_take, length_fmap. split; [done | lia].
Qed.

Lemma slot_fields k rest slot : wk_ok k -> slot = (put_le32 (wk_num k) ++ mtnode_record k) ++ rest ->
  get_le32 0 slot = wk_num k /\ get_le32 4 slot = wk_last_seen k /\ byte_at slot 8 = wk_role k /\ byte_at slot 9 = wk_known_signer k /\
  take MESHTASTIC_NODEDB_PUBLIC_KEY_MAX_LEN (drop 10 slot) = wk_pub k.
Proof.
  intros [Hn Hs _ _ Hp] ->. unfold in_u32, UINT32_MAX in *. unfold mtnode_record, byte_at. rewrite <- !app_assoc. split_and!.
  - apply get_le_app_here. lia.
  - rewrite get_le_app_skip by done. apply get_le_app_here. lia.
  - rewrite !lookup_app_r by (rewrite length_le_put; lia). rewrite !length_le_put. done.
  - rewrite !lookup_app_r by (rewrite length_le_put; lia). rewrite !length_le_put. done.
  - rewrite (app_assoc (put_le32 _)), app_assoc, drop_app_length' by done. by apply take_app_length'.
Qed.

Lemma load_slot_spec p i db' : (i < WREC_PER_PAGE)%nat -> warm_keys db' = filled (p * WREC_PER_PAGE + i) ->
  wrec_load_slot env p (wrec_build_page_locked env p db).1 (db', kept (p * WREC_PER_PAGE + i)) i =
  (set_warm_keys (filled (S (p * WREC_PER_PAGE + i))) db', kept (S (p * WREC_PER_PAGE + i))).
Proof.
  intros Hi Hdb. destruct (page_slot_at p i Hi) as [rest Hs]. set (n := (p * WREC_PER_PAGE + i)%nat) in *.
  unfold wrec_load_slot. fold n. rewrite Hs. unfold wrec_slot_bytes. pose proof (wrec_slot_ok n) as Hok.
  assert (set_warm_keys (filled n) db' = db') as Hid by (rewrite <- Hdb; by destruct db').
  destruct (warm_keys db !! n) as [k|] eqn:Hk.
  - assert (wrec_slot db n = k) as Hw by (unfold wrec_slot; by rewrite Hk). rewrite Hw in *. rewrite (kept_step n k Hk), <- (filled_step n k Hk).
    unfold warm_image. destruct (warm_skipped env k) eqn:Hsk.
    + change (get_le32 0 (replicate WREC_SLOT_LEN 0 ++ rest)) with 0. cbn [Z.eqb orb]. rewrite list_insert_id by by eapply filled_free. by rewrite Hid, Z.add_0_r.
    + destruct (slot_fields k rest _ Hok eq_refl) as (-> & -> & -> & -> & ->). unfold warm_skipped in Hsk. rewrite Hsk.
      rewrite Hdb, (filled_free n k Hk). cbn [wk_num warm_zero Z.eqb]. by destruct k.
  - destruct (filled_past n Hk) as [-> ->]. assert (wrec_slot db n = warm_zero) as -> by (unfold wrec_slot; by rewrite Hk).
    change (warm_skipped env warm_zero) with true. change (get_le32 0 (replicate WREC_SLOT_LEN 0 ++ rest)) with 0. cbn [Z.eqb orb]. by rewrite Hid.
Qed.

Lemma load_page_spec p db' : warm_keys db' = filled (p * WREC_PER_PAGE) ->
  foldl (wrec_load_slot env p (wrec_build_page_locked env p db).1) (db', kept (p * WREC_PER_PAGE)) (seq 0 WREC_PER_PAGE) =
  (set_warm_keys (filled (S p * WREC_PER_PAGE)) db', kept (S p * WREC_PER_PAGE)).
Proof.
  intros Hdb. assert (forall m, (m <= WREC_PER_PAGE)%nat ->
    foldl (wrec_load_slot env p (wrec_build_page_locked env p db).1) (db', kept (p * WREC_PER_PAGE)) (seq 0 m) =
    (set_warm_keys (filled (p * WREC_PER_PAGE + m)) db', kept (p * WREC_PER_PAGE + m))) as Hm.
  { induction m as [|m IH]; intros Hle; [rewrite Nat.add_0_r; cbn [seq foldl]; f_equal; rewrite <- Hdb; by destruct db'|].
    rewrite seq_S, foldl_app, IH by lia. cbn [foldl]. rewrite Nat.add_0_l, load_slot_spec by done. by rewrite <- Nat.add_succ_r. }
  rewrite Hm by done. by replace (S p * WREC_PER_PAGE)%nat with (p * WREC_PER_PAGE + WREC_PER_PAGE)%nat by lia.
Qed.

(** A page with no used slot restores nothing, and there is nothing to restore. *)
Lemma empty_page_spec p : (wrec_build_page_locked env p db).2 = 0%nat ->
  filled (S p * WREC_PER_PAGE) = filled (p * WREC_PER_PAGE) /\ kept (S p * WREC_PER_PAGE) = kept (p * WREC_PER_PAGE).
Proof.
  unfold wrec_build_page_locked. cbn [snd]. intros Hu. replace (S p * WREC_PER_PAGE)%nat with (p * WREC_PER_PAGE + WREC_PER_PAGE)%nat by lia.
  revert Hu. generalize (p * WREC_PER_PAGE)%nat as a. induction WREC_PER_PAGE as [|m IH]; intros a Hu; [by rewrite Nat.add_0_r|].
  cbn [seq fmap list_fmap List.filter] in Hu. destruct (warm_skipped env (wrec_slot db a)) eqn:Hs; cbn [negb length] in Hu; [|lia].
  destruct (IH (S a) Hu) as [E1 E2]. rewrite Nat.add_succ_r, <- Nat.add_succ_l, E1, E2.
  destruct (warm_keys db !! a) as [k|] eqn:Hk; [|by apply filled_past]. assert (wrec_slot db a = k) as Hw by (unfold wrec_slot; by rewrite Hk). rewrite Hw in Hs.
  split; [|rewrite (kept_step a k Hk), Hs; lia]. rewrite <- (filled_step a k Hk). apply list_insert_id. unfold warm_image. rewrite Hs. by eapply filled_free.
Qed.

Lemma built_layout p : wrec_layout_ok (wrec_build_page_locked env p db).1 = true.
Proof.
  unfold wrec_layout_ok, page_layout_ok. rewrite (bk_len _ _ warm_build_ok). cbn [warm_table tb_len]. rewrite Z.eqb_refl.
  unfold wrec_build_page_locked. cbn [fst]. by rewrite !(byte_at_app_l [_; _; _; _]) by (cbn; lia).
Qed.

Abbreviation held := (page_held env (warm_table db) (fun p => wrec_build_page_locked env p db)).

Lemma load_pages_held n : forall p w t,
  (forall q, (p <= q < p + n)%nat -> held w q) -> warm_keys (wd_db w) = filled (p * WREC_PER_PAGE) ->
  exists t', wrec_load_pages env (seq p n) true (kept (p * WREC_PER_PAGE)) (w, t) =
    (Val (kept ((p + n) * WREC_PER_PAGE)), (set_wd_db (set_warm_keys (filled ((p + n) * WREC_PER_PAGE)) (wd_db w)) w, t')) /\ wrec_loaded t' = true.
Proof.
  induction n as [|n IH]; intros p w t Hh Hw.
  - rewrite Nat.add_0_r, <- Hw. exists (set_wrec_loaded true t). split; [|done].
    assert (set_wd_db (set_warm_keys (warm_keys (wd_db w)) (wd_db w)) w = w) as -> by by destruct w as [? ? []]. done.
  - cbn [seq wrec_load_pages]. pose proof (Hh p ltac:(lia)) as Hp. unfold page_held, page_at in Hp. cbn [warm_table tb_id tb_len] in Hp.
    unfold wrec_page_read. replace (p + S n)%nat with (S p + n)%nat by lia. destruct Hp as [Hp|[Hp Hu]]; rewrite Hp.
    + rewrite built_layout, load_page_spec by done. set (w1 := set_wd_db _ w). set (t1 := set_wrec_crc _ (set_wrec_crc _ _)).
      destruct (IH (S p) w1 t1) as (t' & E & Ht'); [intros q Hq; apply (Hh q); lia | done|].
      exists t'. split; [|done]. rewrite E. done.
    + destruct (empty_page_spec p Hu) as [E1 E2]. rewrite <- E2. destruct (IH (S p) w (set_wrec_crc (<[p := None]> (wrec_crc t)) t)) as (t' & E & Ht');
        [intros q Hq; apply (Hh q); lia | by rewrite E1|]. exists t'. by rewrite E.
Qed.

Lemma pages_cover : (length (warm_keys db) <= WREC_PAGES db * WREC_PER_PAGE)%nat.
Proof.
  unfold WREC_PAGES. change WREC_PER_PAGE with 48%nat. pose proof (Nat.div_mod (length (warm_keys db) + 48 - 1) 48 ltac:(lia)).
  pose proof (Nat.mod_upper_bound (length (warm_keys db) + 48 - 1) 48 ltac:(lia)). lia.
Qed.

Lemma filled_all : filled (WREC_PAGES db * WREC_PER_PAGE) = warm_image env <$> warm_keys db /\ kept (WREC_PAGES db * WREC_PER_PAGE) = wrec_count env db.
Proof.
  pose proof pages_cover. unfold filled, kept, wrec_count. rewrite !take_ge by (rewrite ?length_fmap; lia).
  split; [|done]. rewrite (proj2 (Nat.sub_0_le _ _)) by lia. apply app_nil_r.
Qed.

(** Pages that hold the ring restore it, whatever is in memory. *)
Lemma load_held w t : (0 < length (warm_keys db))%nat -> length (warm_keys (wd_db w)) = length (warm_keys db) ->
  (forall p, (p < WREC_PAGES db)%nat -> held w p) ->
  exists t', wrec_load env (w, t) =
    (Val (wrec_count env db), (set_wd_db (set_warm_keys (warm_image env <$> warm_keys db) (wd_db w)) w, t')) /\ wrec_loaded t' = true.
Proof.
  intros Hpos Hlen Hh. destruct filled_all as [Ef Ek]. pose proof pages_cover as Hc. unfold wrec_load. cbn [fst].
  replace (WREC_PAGES (wd_db w)) with (WREC_PAGES db) by (unfold WREC_PAGES; by rewrite Hlen). set (w1 := set_wd_db (warm_clear (wd_db w)) w).
  assert (wrec_load_pages env (seq 0 (WREC_PAGES db)) false 0 (w, t) = wrec_load_pages env (seq 0 (WREC_PAGES db)) true 0 (w1, t)) as ->.
  { destruct (WREC_PAGES db) as [|n]; [lia|]. pose proof (Hh 0%nat ltac:(lia)) as H0. unfold page_held, page_at in H0. cbn [warm_table tb_id tb_len] in H0.
    cbn [seq wrec_load_pages]. change (wrec_page_read env 0 w1) with (wrec_page_read env 0 w). unfold wrec_page_read. by destruct H0 as [-> | [-> _]]. }
  destruct (load_pages_held (WREC_PAGES db) 0 w1 t) as (t' & E & Ht'); [intros q Hq; apply (Hh q); lia | |].
  { unfold filled. by rewrite Nat.mul_0_l, take_0, Nat.sub_0_r, <- Hlen. }
  exists t'. split; [|done]. change (kept (0 * WREC_PER_PAGE)) with 0 in E. rewrite E, Nat.add_0_l, Ef, Ek. done.
Qed.
End Build.

(** *** A run of saves *)

(** What may happen between two boots: the ring changes, it is saved, with any of the writes
    failing, and it is read back. *)
Inductive key_step (env0 : st_env) : world * wrec -> world * wrec -> Prop :=
  | step_ring ring w t :
      Forall wk_ok ring -> length ring = length (warm_keys (wd_db w)) ->
      key_step env0 (w, t) (set_wd_db (set_warm_keys ring (wd_db w)) w, t)
  | step_persist env force w t :
      same_kit env0 env -> Forall wk_ok (warm_keys (wd_db w)) ->
      key_step env0 (w, t) (wrec_persist env force (w, t))
  | step_load env w t :
      same_kit env0 env -> key_step env0 (w, t) (wrec_load env (w, t)).2.

Record key_inv (env0 : st_env) (l0 : ld) (size : nat) (s : world * wrec) : Prop := {
  ki_ready : b_ready (wd_bulk s.1) = true;
  ki_size : length (warm_keys (wd_db s.1)) = size;
  ki_lock : same_lock l0 (wd_ld s.1);
  ki_crcs : length (wrec_crc s.2) = WREC_PAGES (wd_db s.1);
  ki_synced : synced env0 (warm_table (wd_db s.1)) s.1 (wrec_crc s.2);
}.

Lemma warm_table_size db db' : length (warm_keys db') = length (warm_keys db) -> warm_table db' = warm_table db.
Proof. intros E. unfold warm_table, WREC_PAGES. by rewrite E. Qed.

Lemma pages_bound db : (length (warm_keys db) <= 256 * WREC_PER_PAGE)%nat -> (WREC_PAGES db <= 256)%nat.
Proof.
  unfold WREC_PAGES. change WREC_PER_PAGE with 48%nat. intros Hl. apply Nat.lt_succ_r, Nat.Div0.div_lt_upper_bound. lia.
Qed.

Lemma wrec_persist_spec env force w t w1 t1 :
  io_ok env -> (WREC_PAGES (wd_db w) <= 256)%nat -> Forall wk_ok (warm_keys (wd_db w)) -> b_ready (wd_bulk w) = true ->
  length (wrec_crc t) = WREC_PAGES (wd_db w) -> synced env (warm_table (wd_db w)) w (wrec_crc t) -> wrec_persist env force (w, t) = (w1, t1) ->
  saved_from w w1 /\ length (wrec_crc t1) = WREC_PAGES (wd_db w) /\ synced env (warm_table (wd_db w)) w1 (wrec_crc t1) /\
  (wrec_loaded t = true -> meshtastic_lockdown_store_ready (wd_ld w) = true ->
   forall p, (p < WREC_PAGES (wd_db w))%nat -> is_Some (mjoin (wrec_crc t1 !! p)) ->
   crc_tells env (warm_table (wd_db w)) (fun p => wrec_build_page_locked env p (wd_db w)) w p ->
   page_held env (warm_table (wd_db w)) (fun p => wrec_build_page_locked env p (wd_db w)) w1 p).
Proof.
  intros Hio Hp Hr Hb Hlen Hsy. unfold wrec_persist, wrec_active, meshtastic_bulk_ready. rewrite Hb. cbn [negb orb].
  destruct (wrec_loaded t) eqn:Hld; cbn [negb orb]; [|intros [= <- <-]; repeat split; done].
  destruct (meshtastic_lockdown_store_ready (wd_ld w)) eqn:Hrd; cbn [negb]; [|intros [= <- <-]; repeat split; done].
  destruct (persist_pages _ _ _ _ _ _) as [w' crc] eqn:Ep. intros [= <- <-].
  destruct (persist_pages_spec env (warm_table (wd_db w)) (fun p => wrec_build_page_locked env p (wd_db w)) Hio (warm_table_ok _ Hp) (warm_build_ok _ _ Hr) (warm_build_used env (wd_db w)) force (WREC_PAGES (wd_db w)) w (wrec_crc t) w' crc (le_n _) Hb Hlen Hsy Ep) as (S1 & Y1 & L1 & _ & H1).
  split; [exact S1|]. split; [exact L1|]. split; [exact Y1|]. auto.
Qed.

Lemma warm_place_length num pub role ks ls db : length (warm_keys (warm_place_locked num pub role ks ls db)) = length (warm_keys db).
Proof.
  unfold warm_place_locked. destruct (num =? 0); [done|]. destruct (warm_slot_for_locked num db); [|done].
  cbn [warm_keys set_warm_keys]. rewrite length_insert. by destruct (_ && _).
Qed.

Lemma load_slots_length env p page l : forall a, length (warm_keys (foldl (wrec_load_slot env p page) a l).1) = length (warm_keys a.1).
Proof.
  induction l as [|i l IH]; intros [db r]; [done|]. cbn [foldl]. rewrite IH. unfold wrec_load_slot. destruct (_ || _); [done|].
  cbn [fst]. destruct (match warm_keys db !! _ with Some _ => _ | None => _ end); [apply length_insert | apply warm_place_length].
Qed.

Lemma load_pages_inv env0 env l0 size ps : io_ok env0 -> same_kit env0 env -> forall cleared r s, key_inv env0 l0 size s ->
  key_inv env0 l0 size (wrec_load_pages env ps cleared r s).2.
Proof.
  intros Hio Hk. induction ps as [|p ps IH]; intros cleared r [w t] [H1 H2 H3 H4 H5]; cbn [fst snd] in *; [by split|].
  cbn [wrec_load_pages]. set (t1 := set_wrec_crc (<[p := None]> (wrec_crc t)) t).
  assert (key_inv env0 l0 size (w, t1)) as Hi1.
  { split; cbn [fst snd t1 wrec_crc set_wrec_crc]; try done; [by rewrite length_insert|]. intros q c Hq Hc. apply H5; [done|].
    apply list_lookup_insert_Some in Hc as [(_ & [=] & _)|[_ Hc]]. done. }
  set (w1 := if cleared then w else set_wd_db (warm_clear (wd_db w)) w).
  assert (wd_ld w1 = wd_ld w /\ wd_bulk w1 = wd_bulk w /\ length (warm_keys (wd_db w1)) = length (warm_keys (wd_db w))) as (El & Eb & Ez)
    by (unfold w1; destruct cleared; [done|]; split_and!; [done..|]; apply length_replicate).
  assert (forall db, length (warm_keys db) = length (warm_keys (wd_db w)) -> forall crcs, length crcs = length (wrec_crc t) ->
    synced env0 (warm_table (wd_db w)) w crcs -> key_inv env0 l0 size (set_wd_db db w1, set_wrec_crc crcs t1)) as Hmk.
  { intros db Hdb crcs Hcl Hcs. split; cbn [fst snd wd_bulk wd_ld wd_db set_wd_db wrec_crc set_wrec_crc]; [by rewrite Eb | congruence | by rewrite El | |].
    - rewrite Hcl, H4. unfold WREC_PAGES. by rewrite Hdb.
    - rewrite (warm_table_size _ _ Hdb). intros q c Hq Hc. unfold page_synced, page_at in *. cbn [wd_bulk wd_ld set_wd_db]. rewrite El, Eb. by apply Hcs. }
  assert (key_inv env0 l0 size (w1, t1)) as Hi2.
  { specialize (Hmk (wd_db w1) Ez (wrec_crc t1)). assert (set_wd_db (wd_db w1) w1 = w1) as E1 by by destruct w1. assert (set_wrec_crc (wrec_crc t1) t1 = t1) as E2 by by destruct t1.
    rewrite E1, E2 in Hmk. apply Hmk; [unfold t1; cbn [wrec_crc set_wrec_crc]; by rewrite length_insert | apply Hi1]. }
  destruct (wrec_page_read env p w) as [page|e] eqn:Er; [|destruct e; try (by apply IH); by exact Hi1].
  destruct (wrec_layout_ok page) eqn:Hl; [|by apply IH].
  pose proof (load_slots_length env p page (seq 0 WREC_PER_PAGE) (wd_db w1, r)) as Hdl. destruct (foldl _ _ _) as [db r']. apply IH. cbn [fst] in Hdl.
  apply Hmk; [congruence | unfold t1; cbn [wrec_crc set_wrec_crc]; by rewrite !length_insert|]. intros q c Hq Hc. destruct (decide (q = p)) as [->|Hne].
  - assert (p < length (wrec_crc t))%nat as Hpl by (rewrite H4; exact Hq). cbn [wrec_crc t1 set_wrec_crc] in Hc.
    rewrite list_lookup_insert_eq in Hc by by rewrite length_insert. simplify_eq. left. exists page. split.
    + rewrite <- (page_at_kit _ env) by done. exact Er.
    + split; [|by rewrite (kt_crc _ _ Hk)]. unfold wrec_layout_ok, page_layout_ok in Hl. bools. cbn [warm_table tb_len]. lia.
  - rewrite list_lookup_insert_ne in Hc by done. by apply Hi1.
Qed.

Lemma key_step_inv env0 l0 size s s' : io_ok env0 -> (size <= 256 * WREC_PER_PAGE)%nat -> key_step env0 s s' ->
  key_inv env0 l0 size s -> key_inv env0 l0 size s'.
Proof.
  intros Hio Hz Hst [H1 H2 H3 H4 H5]. destruct Hst as [ring w t Hr Hl|env force w t Hk Hr|env w t Hk]; cbn [fst snd] in *.
  - split; cbn [fst snd wd_db set_wd_db warm_keys set_warm_keys wd_bulk wd_ld]; [done | congruence | done | |].
    + rewrite H4. unfold WREC_PAGES. cbn [warm_keys set_warm_keys]. by rewrite Hl.
    + rewrite (warm_table_size (wd_db w)) by done. exact H5.
  - destruct (wrec_persist env force (w, t)) as [w1 t1] eqn:E.
    destruct (wrec_persist_spec env force w t w1 t1) as (S1 & L1 & Y1 & _); [apply Hk | by apply pages_bound; rewrite H2 | done | done | done | by apply (synced_kit env0 env) | done|].
    split; cbn [fst snd]; rewrite ?(sf_db _ _ S1); [by rewrite (sf_ready _ _ S1) | done | transitivity (wd_ld w); [done | apply S1] | done|].
    by apply (synced_kit env0 env).
  - apply (load_pages_inv env0 env); [done | done|]. by split.
Qed.

Lemma key_run_inv env0 l0 size s s' : io_ok env0 -> (size <= 256 * WREC_PER_PAGE)%nat -> rtc (key_step env0) s s' ->
  key_inv env0 l0 size s -> key_inv env0 l0 size s'.
Proof. intros Hio Hz. induction 1 as [|s1 s2 s3 Hst _ IH]; [done|]. intros Hi. apply IH. by eapply key_step_inv. Qed.

(** The pages depend on the device through its own id only. *)
Lemma build_kit env env' p db : same_kit env env' -> wrec_build_page_locked env' p db = wrec_build_page_locked env p db.
Proof. intros Hk. unfold wrec_build_page_locked, wrec_slot_bytes, warm_skipped. by rewrite (kt_self _ _ Hk). Qed.
Lemma image_kit env env' : same_kit env env' -> warm_image env' = warm_image env /\ wrec_count env' = wrec_count env.
Proof. intros Hk. unfold warm_image, wrec_count, warm_skipped. by rewrite (kt_self _ _ Hk). Qed.

Lemma same_kit_refl env : io_ok env -> same_kit env env.
Proof. by split. Qed.
Lemma same_kit_between env0 env env' : same_kit env0 env -> same_kit env0 env' -> same_kit env env'.
Proof. intros [A1 A2 A3] [B1 B2 B3]. split; congruence. Qed.

(** C18: The keys of every peer survive a reboot. Whatever saves, failed writes and reloads
    the device went through since it started, once a save has gone through the next boot
    finds the ring as it was, each key in its own slot, unchanged (our own entry and free
    slots excepted, which are not stored), sealed or not, though a page was written only
    when its checksum had changed, as long as the checksum tells the new page from the one
    it replaces. *)
Theorem warm_ring_survives env0 w0 t0 env w t force w1 t1 env2 w2 t2 :
  io_ok env0 -> same_kit env0 env -> same_kit env0 env2 ->
  b_ready (wd_bulk w0) = true -> wrec_crc t0 = replicate (WREC_PAGES (wd_db w0)) None ->
  (length (warm_keys (wd_db w0)) <= 256 * WREC_PER_PAGE)%nat ->
  rtc (key_step env0) (w0, t0) (w, t) ->
  Forall wk_ok (warm_keys (wd_db w)) -> warm_keys (wd_db w) <> [] -> wrec_loaded t = true -> meshtastic_lockdown_store_ready (wd_ld w) = true ->
  wrec_persist env force (w, t) = (w1, t1) ->
  (forall p, (p < WREC_PAGES (wd_db w))%nat -> is_Some (mjoin (wrec_crc t1 !! p)) /\
     crc_tells env (warm_table (wd_db w)) (fun p => wrec_build_page_locked env p (wd_db w)) w p) ->
  wd_bulk w2 = wd_bulk w1 -> same_lock (wd_ld w1) (wd_ld w2) -> length (warm_keys (wd_db w2)) = length (warm_keys (wd_db w)) ->
  meta_migrated WREC_META_MAGIC (meta_read env2 WREC_META_ID w2) = true ->
  exists w3 t3, wrec_boot_restore env2 (w2, t2) = (Val (wrec_count env0 (wd_db w)), (w3, t3)) /\ wrec_loaded t3 = true /\
    warm_keys (wd_db w3) = warm_image env0 <$> warm_keys (wd_db w).
Proof.
  intros Hio Hk Hk2 Hb Hc0 Hz Hrun Hok Hne Hld Hrd Ep Hall Eb El Elen Hm.
  destruct (key_run_inv env0 (wd_ld w0) _ _ _ Hio Hz Hrun) as [I1 I2 I3 I4 I5].
  { split; cbn [fst snd]; [done | done | done | by rewrite Hc0, length_replicate | rewrite Hc0; apply synced_none]. }
  cbn [fst snd] in *. destruct (wrec_persist_spec env force w t w1 t1) as (S1 & L1 & _ & Hh);
    [apply Hk | by apply pages_bound; rewrite I2 | done | done | done | by apply (synced_kit env0 env) | done|].
  pose proof (same_kit_between _ _ _ Hk Hk2) as Hk12. destruct (image_kit _ _ Hk2) as [Ei Ec]. rewrite <- Ei, <- Ec.
  destruct (load_held env2 (wd_db w) Hok w2 (set_wrec_loaded false t2)) as (t3 & E & Ht3); [by destruct (warm_keys (wd_db w)); cbn; [|lia] | done | |].
  { intros p Hp. destruct (Hall p Hp) as [Ha Ht]. specialize (Hh Hld Hrd p Hp Ha Ht). unfold page_held in *. rewrite (build_kit env env2) by done.
    rewrite (page_at_kit env env2) by (done || apply Hk). rewrite (page_at_frame env (warm_table (wd_db w)) w1 w2) by (done || by rewrite Eb). done. }
  unfold wrec_boot_restore. rewrite bool_decide_false, Hm by (intros EE; by rewrite EE in Hm). rewrite E. eauto.
Qed.

(** *** A boot that takes the pages for an older image's *)

Lemma load_nothing env ps : forall cleared r w t, (forall p, p ∈ ps -> wrec_page_read env p w = Fail ENOENT) ->
  exists t', wrec_load_pages env ps cleared r (w, t) =
    (Val r, (match ps with [] => w | _ => if cleared then w else set_wd_db (warm_clear (wd_db w)) w end, t')).
Proof.
  induction ps as [|p ps IH]; intros cleared r w t Hr; [by eexists|]. cbn [wrec_load_pages]. rewrite (Hr p) by left.
  set (w1 := if cleared then w else _). destruct (IH true r w1 (set_wrec_crc (<[p := None]> (wrec_crc t)) t)) as (t' & E).
  { intros q Hq. assert (wrec_page_read env q w1 = wrec_page_read env q w) as -> by (unfold w1; by destruct cleared). apply Hr. by right. }
  exists t'. rewrite E. f_equal. f_equal. destruct ps; done.
Qed.

Lemma persist_empties env build n : (forall p, (build p).2 = 0%nat) -> forall w crcs, (forall p, p ∈ seq 0 n -> WREC_PAGE_ID p <= MESHTASTIC_BULK_ID_USER_MAX) ->
  (forall id, be_delete (st_bulk env) id = OK) -> b_ready (wd_bulk w) = true ->
  let w' := (persist_pages env WREC_PAGE_ID build true n (w, crcs)).1 in
  wd_ld w' = wd_ld w /\ wd_db w' = wd_db w /\ b_ready (wd_bulk w') = true /\ (forall p, p ∈ seq 0 n -> b_nvs (wd_bulk w') !! WREC_PAGE_ID p = None).
Proof.
  intros Hu. unfold persist_pages. induction n as [|n IH]; intros w crcs Hid Hdel Hb; [cbn; split_and!; [done..|]; by intros p ?%elem_of_nil|].
  rewrite seq_S, foldl_app in *. specialize (IH w crcs). cbv zeta in IH.
  destruct (foldl _ _ (seq 0 n)) as [w1 c1]. destruct IH as (E1 & E2 & E3 & E4); [intros p Hp; apply Hid, elem_of_app; by left | done | done|]. cbn [fst] in *.
  cbn [foldl persist_page negb andb]. specialize (Hu (0 + n)%nat). destruct (build (0 + n)%nat) as [page used]. cbn [snd] in Hu. subst used.
  unfold page_store. cbn [Nat.ltb Nat.leb].
  destruct (meshtastic_bulk_delete (st_bulk env) (WREC_PAGE_ID (0 + n)) (wd_bulk w1)) as [r b1] eqn:Ed.
  destruct (bulk_delete_spec _ _ _ _ _ (Hid _ ltac:(apply elem_of_app; right; by left)) E3 Ed) as (F1 & F2 & F3). cbn [fst wd_ld wd_db wd_bulk set_wd_bulk].
  split_and!; [done..|]. intros p [Hp|Hp%list_elem_of_singleton]%elem_of_app.
  - rewrite F2; [by apply E4|]. unfold WREC_PAGE_ID. apply elem_of_seq in Hp. lia.
  - subst p. destruct r; [done|]. by rewrite Hdel in F3.
Qed.

(** With an import record that cannot be read, a boot imports from the settings store; where
    that holds no keys any more, it deletes every page. *)
Lemma unread_meta_erases env w t :
  meta_migrated WREC_META_MAGIC (meta_read env WREC_META_ID w) = false -> meta_read env WREC_META_ID w <> Fail EACCES ->
  subtree_records (st_lock env) MTNODE_SUBTREE (wd_ld w) = [] -> Forall (fun k => warm_skipped env k = true) (warm_keys (wd_db w)) ->
  (WREC_PAGES (wd_db w) <= 256)%nat -> (forall id, be_delete (st_bulk env) id = OK) ->
  b_ready (wd_bulk w) = true -> meshtastic_lockdown_store_ready (wd_ld w) = true ->
  forall p, (p < WREC_PAGES (wd_db w))%nat -> b_nvs (wd_bulk (wrec_boot_restore env (w, t)).2.1) !! WREC_PAGE_ID p = None.
Proof.
  intros Hm Hne Hsub Hring Hpg Hdel Hb Hrd p Hp. unfold wrec_boot_restore. rewrite bool_decide_false, Hm by done.
  unfold nodekeys_load. rewrite Hsub. cbn [foldl]. unfold wrec_persist at 1, wrec_active, meshtastic_bulk_ready. rewrite Hb, Hrd. cbn [wrec_loaded set_wrec_loaded negb orb].
  assert (forall p, (wrec_build_page_locked env p (wd_db w)).2 = 0%nat) as Hu.
  { intros q. unfold wrec_build_page_locked. cbn [snd]. generalize (seq (q * WREC_PER_PAGE) WREC_PER_PAGE). induction l as [|x l IH]; [done|]. cbn [fmap list_fmap List.filter].
    replace (warm_skipped env (wrec_slot (wd_db w) x)) with true; [exact IH|]. symmetry. unfold wrec_slot. destruct (warm_keys (wd_db w) !! x) eqn:E; [|done]. by eapply (Forall_lookup_1 _ _ _ _ Hring). }
  set (t1 := wrec_crc _). pose proof (persist_empties env _ (WREC_PAGES (wd_db w)) Hu w t1) as Hpe.
  destruct (persist_pages _ _ _ _ _ _) as [w1 c1]. cbn [fst] in Hpe. destruct Hpe as (E1 & E2 & E3 & E4); [|done|done|].
  { intros q Hq%elem_of_seq. unfold WREC_PAGE_ID, MESHTASTIC_BULK_ID_USER_MAX. lia. }
  unfold wrec_load. cbn [fst]. set (t2 := set_wrec_crc _ _). rewrite E2.
  destruct (load_nothing env (seq 0 (WREC_PAGES (wd_db w))) false 0 w1 t2) as (t3 & E).
  { intros q Hq. pose proof Hq as Hq'%elem_of_seq. unfold wrec_page_read, meshtastic_bulk_read, nvs_read.
    rewrite (proj2 (Z.ltb_ge _ _)) by (unfold WREC_PAGE_ID, MESHTASTIC_BULK_ID_USER_MAX; lia). by rewrite E3, (E4 q Hq). }
  rewrite E. set (w2 := match seq _ _ with [] => w1 | _ => _ end).
  assert (wd_bulk w2 = wd_bulk w1) as Eb by (unfold w2; by destruct (seq _ _)).
  assert (b_nvs (wd_bulk w2) !! WREC_PAGE_ID p = None) as Hnone by (rewrite Eb; apply E4, elem_of_seq; lia).
  destruct (bool_decide _); [|exact Hnone]. unfold meta_write. destruct (meshtastic_bulk_write _ _ _ _ _) as [r [l3 b3]] eqn:Ew.
  destruct (bulk_write_frame _ _ _ _ _ _ _ _ _ Ew) as (_ & _ & Hf). cbn [snd fst set_stores wd_bulk set_wd_ld set_wd_bulk]. rewrite Hf; [exact Hnone|]. unfold WREC_PAGE_ID, WREC_META_ID. lia.
Qed.
End KeyStore.

Definition learn (ring : list warm_key) (w : world) : world := set_wd_db (set_warm_keys ring (wd_db w)) w.

Lemma load_then_learn `{Crypto} env w t ring s : s = (wrec_load env (w, t)).2 ->
  io_ok env -> Forall wk_ok ring -> length ring = length (warm_keys (wd_db s.1)) ->
  rtc (key_step env) (w, t) (learn ring s.1, s.2).
Proof.
  intros -> Hio Hr Hl. eapply rtc_l; [by apply step_load, same_kit_refl|]. apply rtc_once. destruct (wrec_load env (w, t)).2 as [w1 t1]. by apply step_ring.
Qed.

(** ** Examples *)

Section Samples.
#[local] Existing Instance toy_crypto.

Definition sum_crc (l : list Z) : Z := foldl (fun a b => (31 * a + b) `mod` 65521) 7 l.
Definition good_bulk : bulk_env :=
  BulkEnv OK OK OK OK ∅ (fun _ => OK) (fun _ => OK) (fun _ => OK) 16 4096 60000 sum_crc.
Definition good_env : st_env := StEnv (nd_sample 8 0) good_bulk (sample_env 1000) true.
Definition fresh_bulk : bulk := (meshtastic_bulk_init good_bulk (BulkStore false 0 false 0 0 ∅)).2.
Definition boot_world (l : ld) : world := World l fresh_bulk (nodedb_zero 60).
Definition wrec_zero : wrec := Wrec (replicate 2 None) false false.

Lemma good_env_io : io_ok good_env.
Proof.
  split; [apply sample_rand | | done..]. intros d. unfold sum_crc. cbn [good_env good_bulk st_bulk be_crc32].
  assert (forall l a, 0 <= a < 65521 -> 0 <= foldl (fun a b => (31 * a + b) `mod` 65521) a l < 65521) as Hl
    by (induction l as [|x l IH]; intros a Ha; [done|]; cbn [foldl]; apply IH, Z.mod_pos_bound; lia).
  specialize (Hl d 7 ltac:(lia)). unfold in_u32, UINT32_MAX, sum_crc. lia.
Qed.
Lemma good_env_kit : same_kit good_env good_env.
Proof. by apply same_kit_refl, good_env_io. Qed.

Definition peer_ring : list warm_key :=
  <[0%nat := WarmKey 7 100 1 0 (replicate 32 9)]> (<[55%nat := WarmKey 8 200 2 1 (replicate 32 5)]> (replicate 60 warm_zero)).

Lemma peer_ring_ok : Forall wk_ok peer_ring.
Proof.
  do 2 (apply Forall_insert; [|by split]). apply Forall_replicate, warm_zero_ok.
Qed.

(** A device that was set up before boots with a passphrase set, learns two keys and saves
    them; the page that changed is written sealed. *)
Definition open_now : ld := ld_run provisioned_now [LdWork (sample_env 1200)].
Definition set_up : world := (wrec_boot_restore good_env (boot_world open_now, wrec_zero)).2.1.
Definition loaded_now : world * wrec := (wrec_load good_env (set_up, wrec_zero)).2.
Lemma loaded_now_eq : loaded_now = (wrec_load good_env (set_up, wrec_zero)).2.
Proof. reflexivity. Qed.
Definition learned : world := learn peer_ring loaded_now.1.
Definition saved_ring : world * wrec := wrec_persist good_env false (learned, loaded_now.2).
Definition reboot (w : world) : world := set_wd_db (nodedb_zero 60) w.
Definition rebooted : world := reboot saved_ring.1.
Lemma reboot_stores w : wd_bulk (reboot w) = wd_bulk w /\ same_lock (wd_ld w) (wd_ld (reboot w)) /\ length (warm_keys (wd_db (reboot w))) = 60%nat.
Proof. done. Qed.

Definition learned_build (p : nat) : list Z * nat := wrec_build_page_locked good_env p (wd_db learned).
Lemma learned_facts :
  b_ready (wd_bulk set_up) = true /\ wrec_crc wrec_zero = replicate (WREC_PAGES (wd_db set_up)) None /\
  length (warm_keys (wd_db set_up)) = 60%nat /\ length peer_ring = length (warm_keys (wd_db loaded_now.1)) /\ warm_keys (wd_db learned) = peer_ring /\
  wrec_loaded loaded_now.2 = true /\ meshtastic_lockdown_store_ready (wd_ld learned) = true /\ WREC_PAGES (wd_db learned) = 2%nat /\
  wrec_crc saved_ring.2 = [Some (sum_crc (learned_build 0).1); Some (sum_crc (learned_build 1).1)] /\
  meta_migrated WREC_META_MAGIC (meta_read good_env WREC_META_ID rebooted) = true /\
  (page_at good_env (warm_table (wd_db learned)) learned 0 = Fail ENOENT /\ page_at good_env (warm_table (wd_db learned)) learned 1 = Fail ENOENT) /\
  (sum_crc wrec_empty <> sum_crc (learned_build 0).1 /\ sum_crc wrec_empty <> sum_crc (learned_build 1).1) /\
  wrec_count good_env (wd_db learned) = 2 /\ warm_image good_env <$> peer_ring = peer_ring.
Proof. split_and!; vm_compute; done. Qed.

Lemma both_known (a b : Z) p : (p < 2)%nat -> is_Some (mjoin ([Some a; Some b] !! p)).
Proof. intros Hp. destruct p as [|[|p]]; [by eexists | by eexists | lia]. Qed.

Lemma learned_crc_tells p : (p < 2)%nat -> crc_tells good_env (warm_table (wd_db learned)) learned_build learned p.
Proof.
  intros Hp pg Hpg Hc. destruct learned_facts as (_ & _ & _ & _ & _ & _ & _ & _ & _ & _ & (E0 & E1) & (C0 & C1) & _).
  change (be_crc32 (st_bulk good_env)) with sum_crc in Hc. change (tb_empty (warm_table (wd_db learned))) with wrec_empty in Hpg.
  destruct p as [|[|p]]; [| |lia]; destruct Hpg as [E|[_ ->]]; congruence.
Qed.

Lemma warm_ring_survives_witness :
  exists w3 t3, wrec_boot_restore good_env (rebooted, wrec_zero) = (Val 2, (w3, t3)) /\ warm_keys (wd_db w3) = peer_ring.
Proof.
  destruct learned_facts as (F1 & F2 & F3 & F4 & F5 & F6 & F7 & F8 & F9 & F10 & _ & _ & F11 & F12).
  destruct (warm_ring_survives good_env set_up wrec_zero good_env learned loaded_now.2 false saved_ring.1 saved_ring.2 good_env rebooted wrec_zero)
    as (w3 & t3 & E & _ & Hr).
  - exact good_env_io.
  - exact good_env_kit.
  - exact good_env_kit.
  - exact F1.
  - exact F2.
  - rewrite F3. apply Nat.leb_le. reflexivity.
  - apply (load_then_learn good_env set_up wrec_zero peer_ring loaded_now loaded_now_eq good_env_io peer_ring_ok F4).
  - rewrite F5. exact peer_ring_ok.
  - rewrite F5. done.
  - exact F6.
  - exact F7.
  - exact (surjective_pairing saved_ring).
  - rewrite F8, F9. intros p Hp. exact (conj (both_known _ _ p Hp) (learned_crc_tells p Hp)).
  - exact (proj1 (reboot_stores saved_ring.1)).
  - exact (proj1 (proj2 (reboot_stores saved_ring.1))).
  - rewrite F5. exact (proj2 (proj2 (reboot_stores saved_ring.1))).
  - exact F10.
  - rewrite F11 in E. rewrite F5, F12 in Hr. exists w3, t3. exact (conj E Hr).
Defined.

(** *** Removing the passphrase *)

(** On a device that was set up with a passphrase, the record of the import is sealed. When
    the passphrase is removed the pages are rewritten in the clear, that record is not, and
    the key it was sealed with is gone: the next boot deletes every page. *)
Definition disabling : ld := (meshtastic_lockdown_disable (sample_env 2000) PP (wd_ld saved_ring.1)).2.
Definition rewritten : world * wrec := wrec_rewrite_hook good_env (set_wd_ld disabling saved_ring.1, saved_ring.2).
Definition disabled : ld := power_cycle (sample_env 100) (rewrite_work_fn (sample_env 2100) (wd_ld rewritten.1)).1.
Definition after_disable : world := set_wd_ld disabled (set_wd_db (nodedb_zero 60) rewritten.1).
Definition next_boot : res Z * (world * wrec) := wrec_boot_restore good_env (after_disable, wrec_zero).

Lemma disable_forgets_keys :
  (meshtastic_lockdown_disable (sample_env 2000) PP (wd_ld saved_ring.1)).1 = OK /\ provisioned disabled = false /\
  (* the pages are in the store, in the clear *)
  page_at good_env (warm_table (wd_db learned)) after_disable 0 = Val (learned_build 0).1 /\
  page_at good_env (warm_table (wd_db learned)) after_disable 1 = Val (learned_build 1).1 /\
  meta_read good_env WREC_META_ID after_disable = Fail EBADMSG /\
  (* and the next boot has deleted them *)
  next_boot.1 = Val 0 /\ warm_keys (wd_db next_boot.2.1) = replicate 60 warm_zero /\
  b_nvs (wd_bulk next_boot.2.1) !! WREC_PAGE_ID 0 = None /\ b_nvs (wd_bulk next_boot.2.1) !! WREC_PAGE_ID 1 = None.
Proof. split_and!; vm_compute; done. Qed.

(** A sealed record is not of today's length to the purge. *)
Lemma purge_drops_sealed :
  let name := id_name MTNODE_SUBTREE 7 in
  let '(ret, l) := meshtastic_lockdown_save_one (sample_env 1500) name (replicate MTNODE_REC_LEN 3) open_now in
  ret = OK /\ (meshtastic_lockdown_read name 70 (match flash l !! name with Some r => Val r | None => Fail EIO end) MTNODE_REC_LEN l = Val (replicate MTNODE_REC_LEN 3)) /\
  flash (nodekeys_purge_foreign (sample_env 100) l) !! name = None.
Proof. vm_compute. done. Qed.
End Samples.
