(* ===== verification/RecordStore.v ===== *)
(** * The record tier on flash (src/src/meshtastic_nodedb.c, the [mtrec] subtree and the node pages)

    How the hot store of [NodeDb] is kept across a reboot: a record per node, in a slot of
    [Pages] that the node keeps while it stays in the hot store, or in the settings store
    where there is no bulk store; the one-time import; the pruning; the delayed saves with
    their floor, and the periodic snapshot. Nanopb is the class [NodeCodec]; the conversion
    of a signal-to-noise ratio to quarter decibels and back is single-precision arithmetic
    and stays an argument. *)
From S2P Require Import Prelude Sched Routes NodeDb Lockdown Bulk Pages KeyStore.
Open Scope Z_scope.

(** What nanopb keeps of a message: an absent field reads back as zero. *)
Definition pb_normal (n : node_info) : node_info := if ni_has_hops_away n then n else set_ni_hops_away 0 n.

Class NodeCodec := {
  NodeInfoLite_size : nat;                            (* the generated maximum *)
  pb_encode : nat -> node_info -> option (list Z);    (* into a buffer of this many bytes *)
  pb_torn : nat -> node_info -> list Z;               (* what a failed encode leaves there *)
  pb_decode : list Z -> option node_info;
  pb_decode_encode : forall cap n b, pb_encode cap n = Some b -> pb_decode b = Some (pb_normal n);
  pb_encode_len : forall cap n b, pb_encode cap n = Some b -> (length b <= cap)%nat;
  pb_torn_len : forall cap n, (length (pb_torn cap n) <= cap)%nat;
  pb_size : (NodeInfoLite_size <= 251)%nat;           (* the record length is stored in a byte *)
}.

Record rs_env := RsEnv {
  rs_st :> st_env;
  rs_snr_to_q4 : Z -> Z;
  rs_snr_from_q4 : Z -> Z;
  rs_save_delay_ms : Z;          (* CONFIG_MESHTASTIC_SETTINGS_SAVE_DELAY_MS *)
  rs_identity_floor_s : Z;       (* CONFIG_MESHTASTIC_NODEDB_IDENTITY_SAVE_FLOOR_SEC *)
  rs_interval_s : Z;             (* CONFIG_MESHTASTIC_NODEDB_PERSIST_INTERVAL_SEC *)
}.

Definition MTREC_SUBTREE : list Z := chars "mtrec".
Definition MTREC_RECORD_VERSION : Z := 2.
Definition MTREC_HEADER_LEN : nat := 4.
Definition MTREC_RECONCILE_BATCH : nat := 32.

(** Node per slot, 0 when it is free; a page's checksum as last written or read; and the
    two delayed work items with the time each is due. *)
Record nrec := Nrec {
  nrec_slot : list Z;
  nrec_crc : list (option Z);
  nrec_loaded : bool;
  nrec_legacy_pending : bool;
  mtrec_saved_at_ms : Z;
  mtrec_saved_once : bool;
  mtrec_save_due : option Z;
  mtrec_snapshot_due : option Z;
}.
Definition set_nrec_slot (v : list Z) (r : nrec) : nrec :=
Nrec v (nrec_crc r) (nrec_loaded r) (nrec_legacy_pending r) (mtrec_saved_at_ms r)
    (mtrec_saved_once r) (mtrec_save_due r) (mtrec_snapshot_due r).
Definition set_nrec_crc (v : list (option Z)) (r : nrec) : nrec :=
Nrec (nrec_slot r) v (nrec_loaded r) (nrec_legacy_pending r) (mtrec_saved_at_ms r)
    (mtrec_saved_once r) (mtrec_save_due r) (mtrec_snapshot_due r).
Definition set_nrec_loaded (v : bool) (r : nrec) : nrec :=
Nrec (nrec_slot r) (nrec_crc r) v (nrec_legacy_pending r) (mtrec_saved_at_ms r)
    (mtrec_saved_once r) (mtrec_save_due r) (mtrec_snapshot_due r).
Definition set_nrec_legacy_pending (v : bool) (r : nrec) : nrec :=
Nrec (nrec_slot r) (nrec_crc r) (nrec_loaded r) v (mtrec_saved_at_ms r) (mtrec_saved_once r)
    (mtrec_save_due r) (mtrec_snapshot_due r).
Definition set_mtrec_saved_at_ms (v : Z) (r : nrec) : nrec :=
Nrec (nrec_slot r) (nrec_crc r) (nrec_loaded r) (nrec_legacy_pending r) v (mtrec_saved_once
    r) (mtrec_save_due r) (mtrec_snapshot_due r).
Definition set_mtrec_saved_once (v : bool) (r : nrec) : nrec :=
Nrec (nrec_slot r) (nrec_crc r) (nrec_loaded r) (nrec_legacy_pending r) (mtrec_saved_at_ms
    r) v (mtrec_save_due r) (mtrec_snapshot_due r).
Definition set_mtrec_save_due (v : option Z) (r : nrec) : nrec :=
Nrec (nrec_slot r) (nrec_crc r) (nrec_loaded r) (nrec_legacy_pending r) (mtrec_saved_at_ms
    r) (mtrec_saved_once r) v (mtrec_snapshot_due r).
Definition set_mtrec_snapshot_due (v : option Z) (r : nrec) : nrec :=
Nrec (nrec_slot r) (nrec_crc r) (nrec_loaded r) (nrec_legacy_pending r) (mtrec_saved_at_ms
    r) (mtrec_saved_once r) (mtrec_save_due r) v.

(** ** When to save *)

Definition mtrec_schedule_save (env : rs_env) (t : nrec) : nrec :=
  set_mtrec_save_due (Some (nd_uptime_ms (st_nd env) + rs_save_delay_ms env)) t.

(** [k_work_schedule] leaves a pending item where it is. *)
Definition mtrec_schedule_identity_save (env : rs_env) (t : nrec) : nrec :=
  let delay_ms :=
    if mtrec_saved_once t
    then Z.max (rs_save_delay_ms env) (rs_identity_floor_s env * 1000 - (nd_uptime_ms (st_nd env) - mtrec_saved_at_ms t))
    else rs_save_delay_ms env in
  match mtrec_save_due t with
  | Some _ => t
  | None => set_mtrec_save_due (Some (nd_uptime_ms (st_nd env) + delay_ms)) t
  end.

(** A stream of renames neither postpones the save nor brings it within the floor. *)
Lemma rename_stream_saved (env : rs_env) (envs : list rs_env) t : mtrec_save_due t = None -> mtrec_saved_at_ms t <= nd_uptime_ms (st_nd env) ->
  let t' := foldl (fun t env => mtrec_schedule_identity_save env t) t (env :: envs) in
  exists due, mtrec_save_due t' = Some due /\
    nd_uptime_ms (st_nd env) + rs_save_delay_ms env <= due <= nd_uptime_ms (st_nd env) + Z.max (rs_save_delay_ms env) (rs_identity_floor_s env * 1000) /\
    (mtrec_saved_once t = true -> mtrec_saved_at_ms t + rs_identity_floor_s env * 1000 <= due).
Proof.
  intros Hn Hat. cbn [foldl]. set (t1 := mtrec_schedule_identity_save env t).
  assert (exists due, mtrec_save_due t1 = Some due /\
    nd_uptime_ms (st_nd env) + rs_save_delay_ms env <= due <= nd_uptime_ms (st_nd env) + Z.max (rs_save_delay_ms env) (rs_identity_floor_s env * 1000) /\
    (mtrec_saved_once t = true -> mtrec_saved_at_ms t + rs_identity_floor_s env * 1000 <= due)) as (due & Hd & Hrest).
  { unfold t1, mtrec_schedule_identity_save. rewrite Hn. eexists. split; [reflexivity|]. destruct (mtrec_saved_once t); split; try done; lia. }
  exists due. split; [|exact Hrest]. clearbody t1. clear -Hd. revert t1 Hd. induction envs as [|e l IH]; intros t1 Hd; [done|]. cbn [foldl]. apply IH.
  unfold mtrec_schedule_identity_save. by rewrite Hd.
Qed.

Section RecordStore.
Context `{Crypto} `{NodeCodec}.

Definition MTREC_BUF_LEN : nat := NodeInfoLite_size + MTREC_HEADER_LEN.
Definition NREC_SLOT_LEN : nat := 4 + 1 + MTREC_BUF_LEN.
Definition NREC_PAGE_HDR : nat := 4.
Definition NREC_PER_PAGE : nat := (MESHTASTIC_BULK_BLOB_MAX - NREC_PAGE_HDR) / NREC_SLOT_LEN.
Definition NREC_PAGES (env : rs_env) : nat := (nd_max_nodes (st_nd env) + NREC_PER_PAGE - 1) / NREC_PER_PAGE.
Definition NREC_SLOTS (env : rs_env) : nat := NREC_PAGES env * NREC_PER_PAGE.
Definition NREC_PAGE_LEN : nat := NREC_PAGE_HDR + NREC_PER_PAGE * NREC_SLOT_LEN.
Definition NREC_PAGE_ID (p : nat) : Z := 0x0100 + Z.of_nat p.
Definition NREC_META_ID : Z := 0x00F0.
Definition NREC_META_MAGIC : Z := 0x4345524E.
Definition NREC_PAGE_VER : Z := 1.

(** ** A record *)

Definition mtrec_durable_copy (env : rs_env) (n : node_info) : node_info :=
  let q4 := if has_bit HAS_SNR_BIT n then rs_snr_to_q4 env (ni_snr n) else 0 in
  set_ni_snr_q4 q4 (set_ni_snr 0 (write_bit VIA_MQTT_BIT false (set_ni_next_hop 0 (set_ni_channel 0 n)))).

Definition durable_of (env : rs_env) (e : nodedb_entry) : node_info :=
  set_ni_last_heard
    (if 0 <? ni_last_heard (en_node e) then nd_uptime_to_epoch (st_nd env) (ni_last_heard (en_node e)) else en_last_heard_epoch e)
    (mtrec_durable_copy env (en_node e)).

Definition mtrec_header (b : list Z) : list Z := [MTREC_RECORD_VERSION; 0] ++ put_le16 (Zlen b).

Definition mtrec_encode (env : rs_env) (e : nodedb_entry) (buf_len : nat) : res (list Z) :=
  if (buf_len <? MTREC_HEADER_LEN)%nat then Fail EINVAL
  else match pb_encode (buf_len - MTREC_HEADER_LEN) (durable_of env e) with
       | None => Fail ENOMEM
       | Some b => Val (mtrec_header b ++ b)
       end.

Definition mtrec_decode (env : rs_env) (buf : list Z) : res node_info :=
  if (length buf <? MTREC_HEADER_LEN)%nat || negb (byte_at buf 0 =? MTREC_RECORD_VERSION) then Fail EINVAL
  else if negb (get_le16 2 buf =? Zlen buf - 4) then Fail EINVAL
  else match pb_decode (drop MTREC_HEADER_LEN buf) with
       | None => Fail EINVAL
       | Some n => Val (set_ni_snr_q4 0 (if has_bit HAS_SNR_BIT n then set_ni_snr (rs_snr_from_q4 env (ni_snr_q4 n)) n else n))
       end.

Definition mtrec_is_current (num : Z) (db : nodedb) : bool := bool_decide (find_entry_locked num db <> None).

Definition mtrec_reconcile_cb (db : nodedb) (ctx : reconcile_ctx) (r : list Z * list Z) : reconcile_ctx :=
  match record_id r.1 with
  | None => ctx
  | Some num => if negb (rc_all ctx) && mtrec_is_current num db then ctx else collect_id MTREC_RECONCILE_BATCH num ctx
  end.

(** ** Settings records *)

Definition nrec_active (w : world) : bool := meshtastic_bulk_ready (wd_bulk w).

(** What it puts back may push a key out of the hot store. *)
Definition put_back (env : rs_env) (num : Z) (n : node_info) (a : world * list nd_out) : world * list nd_out :=
  let '(w, out) := a in
  let '(db, o) := mtrec_apply (st_nd env) num n (wd_db w) in (set_wd_db db w, out ++ o).

Definition mtrec_set (env : rs_env) (t : nrec) (a : world * list nd_out) (r : list Z * list Z) : world * list nd_out :=
  let '(w, out) := a in
  let '(key, v) := r in
  if nrec_active w && nrec_loaded t then a
  else if (MTREC_BUF_LEN + MESHTASTIC_LOCKDOWN_SEAL_OVERHEAD <? length v)%nat then a
  else
    let name := MTREC_SUBTREE ++ chars "/" ++ key in
    let got := if e_read_ok (st_lock env) name then Val v else Fail EIO in
    match meshtastic_lockdown_read name (length v) got MTREC_BUF_LEN (wd_ld w) with
    | Fail _ | Val [] => a
    | Val buf =>
        match mtrec_decode env buf with
        | Fail _ => a
        | Val n => match parse_id key with
                   | None => a
                   | Some num => if num =? nd_self (st_nd env) then a else put_back env num n a
                   end
        end
    end.

Definition mtrec_load (env : rs_env) (t : nrec) (w : world) : world * list nd_out :=
  foldl (mtrec_set env t) (w, []) (subtree_records (st_lock env) MTREC_SUBTREE (wd_ld w)).

(** A record that will not encode is left out. *)
Definition mtrec_export (env : rs_env) (w : world) : cret * world :=
  if nrec_active w then (OK, w)
  else
    let recs := omap (fun e => if ni_num (en_node e) =? nd_self (st_nd env) then None
                               else match mtrec_encode env e MTREC_BUF_LEN with
                                    | Val b => Some (id_name MTREC_SUBTREE (ni_num (en_node e)), b)
                                    | Fail _ => None
                                    end) (entries (wd_db w)) in
    let '(ret, l) := export_each (st_lock env) recs (wd_ld w) in (ret, set_wd_ld l w).

(** ** Slots *)

Definition nrec_slot_of_locked (num : Z) (slots : list Z) : option nat := find_index (Z.eqb num) slots.

Definition free_slots (db : nodedb) (slots : list Z) : list Z :=
  (fun num => if negb (num =? 0) && bool_decide (find_entry_locked num db = None) then 0 else num) <$> slots.

Definition give_slot (env : rs_env) (slots : list Z) (e : nodedb_entry) : list Z :=
  let num := ni_num (en_node e) in
  if (num =? nd_self (st_nd env)) || bool_decide (is_Some (nrec_slot_of_locked num slots)) then slots
  else match nrec_slot_of_locked 0 slots with Some s => <[s := num]> slots | None => slots end.

Definition nrec_assign_slots_locked (env : rs_env) (db : nodedb) (slots : list Z) : list Z :=
  foldl (give_slot env) (free_slots db slots) (entries db).

(** ** Pages *)

Definition pad (n : nat) (l : list Z) : list Z := l ++ replicate (n - length l) 0.

(** A slot, and whether it is used. *)
Definition nrec_slot_bytes (env : rs_env) (db : nodedb) (num : Z) : list Z * bool :=
  if num =? 0 then (replicate NREC_SLOT_LEN 0, false)
  else match entry_of num db with
       | None => (replicate NREC_SLOT_LEN 0, false)
       | Some e =>
           match mtrec_encode env e MTREC_BUF_LEN with
           | Val b => (pad NREC_SLOT_LEN (put_le32 num ++ [u8 (Zlen b)] ++ b), true)
           | Fail _ => (pad NREC_SLOT_LEN (replicate 9 0 ++ pb_torn NodeInfoLite_size (durable_of env e)), false)
           end
       end.

Definition nrec_build_page_locked (env : rs_env) (slots : list Z) (db : nodedb) (p : nat) : list Z * nat :=
  let bs := (fun s => nrec_slot_bytes env db (default 0 (slots !! s))) <$> seq (p * NREC_PER_PAGE) NREC_PER_PAGE in
  let used := length (List.filter snd bs) in
  ([NREC_PAGE_VER; u8 (Z.of_nat NREC_PER_PAGE); u8 (Z.of_nat used); 0] ++ mjoin (fst <$> bs), used).

Definition nrec_persist (env : rs_env) (force : bool) (s : world * nrec) : world * nrec :=
  let '(w, t) := s in
  if negb (nrec_active w) || negb (nrec_loaded t) || negb (meshtastic_lockdown_store_ready (wd_ld w)) then s
  else
    let slots := nrec_assign_slots_locked env (wd_db w) (nrec_slot t) in
    let '(w', crc) := persist_pages env NREC_PAGE_ID (nrec_build_page_locked env slots (wd_db w)) force (NREC_PAGES env) (w, nrec_crc t) in
    (w', set_nrec_crc crc (set_nrec_slot slots t)).

Definition nrec_slot_at (page : list Z) (i : nat) : list Z := drop (NREC_PAGE_HDR + i * NREC_SLOT_LEN) page.

Definition nrec_load_slot (env : rs_env) (p : nat) (page : list Z) (a : world * list nd_out * list Z * Z) (i : nat)
    : world * list nd_out * list Z * Z :=
  let '(w, out, slots, restored) := a in
  let slot := nrec_slot_at page i in
  let num := get_le32 0 slot in
  let len := byte_at slot 4 in
  if (num =? 0) || (len =? 0) || (Z.of_nat MTREC_BUF_LEN <? len) || (num =? nd_self (st_nd env)) then a
  else match mtrec_decode env (take (Z.to_nat len) (drop 5 slot)) with
       | Fail _ => a
       | Val n => (put_back env num n (w, out), <[(p * NREC_PER_PAGE + i)%nat := num]> slots, restored + 1)
       end.

Definition nrec_page_read (env : rs_env) (p : nat) (w : world) : res (list Z) :=
  meshtastic_bulk_read (st_bulk env) (NREC_PAGE_ID p) NREC_PAGE_LEN (wd_ld w, wd_bulk w).
Definition nrec_layout_ok (page : list Z) : bool :=
  page_layout_ok (Z.of_nat NREC_PAGE_LEN) NREC_PAGE_VER page (u8 (Z.of_nat NREC_PER_PAGE)).

Fixpoint nrec_load_pages (env : rs_env) (ps : list nat) (restored : Z) (out : list nd_out) (s : world * nrec)
    : res Z * (world * nrec) * list nd_out :=
  let '(w, t) := s in
  match ps with
  | [] => (Val restored, (w, set_nrec_loaded true t), out)
  | p :: ps =>
      let t := set_nrec_crc (<[p := None]> (nrec_crc t)) t in
      match nrec_page_read env p w with
      | Fail EACCES => (Fail EACCES, (w, t), out)
      | Val page =>
          if nrec_layout_ok page then
            let '(w, out, slots, restored) := foldl (nrec_load_slot env p page) (w, out, nrec_slot t, restored) (seq 0 NREC_PER_PAGE) in
            nrec_load_pages env ps restored out
              (w, set_nrec_crc (<[p := Some (be_crc32 (st_bulk env) page)]> (nrec_crc t)) (set_nrec_slot slots t))
          else nrec_load_pages env ps restored out (w, t)
      | Fail _ => nrec_load_pages env ps restored out (w, t)
      end
  end.

Definition nrec_load (env : rs_env) (s : world * nrec) : res Z * (world * nrec) * list nd_out :=
  let '(w, t) := s in
  nrec_load_pages env (seq 0 (NREC_PAGES env)) 0 [] (w, set_nrec_slot (replicate (NREC_SLOTS env) 0) t).

Definition nrec_hot_peer_count (env : rs_env) (db : nodedb) : Z :=
  Zlen (List.filter (fun e => negb (ni_num (en_node e) =? nd_self (st_nd env))) (entries db)).

Definition nrec_boot_restore (env : rs_env) (s : world * nrec) : res Z * (world * nrec) * list nd_out :=
  let '(w, t) := s in
  let n := meta_read env NREC_META_ID w in
  let t := set_nrec_loaded false t in
  if bool_decide (n = Fail EACCES) then (Fail EACCES, (w, t), [])
  else if meta_migrated NREC_META_MAGIC n then
    let '(restored, (w, t), out) := nrec_load env (w, t) in
    (restored, (w, set_nrec_legacy_pending true t), out)
  else
    let '(w, out1) := mtrec_load env t w in
    let want := nrec_hot_peer_count env (wd_db w) in
    let t := set_nrec_loaded true (set_nrec_crc (replicate (NREC_PAGES env) None) t) in
    let '(restored, (w, t), out2) := nrec_load env (nrec_persist env true (w, t)) in
    if bool_decide (restored = Val want) then
      let '(ret, w) := meta_write env NREC_META_ID NREC_META_MAGIC w in
      (restored, (w, if bool_decide (ret = OK) then set_nrec_legacy_pending true t else t), out1 ++ out2)
    else (restored, (w, t), out1 ++ out2).

Definition nrec_image_confirmed (env : rs_env) : bool := st_confirmed env.

Definition nrec_do_persist (env : rs_env) (s : world * nrec) : world * nrec :=
  let '(w, t) := s in
  if nrec_legacy_pending t && nrec_loaded t && nrec_image_confirmed env then
    let ctx := foldl (mtrec_reconcile_cb (wd_db w)) (ctx0 true) (subtree_records (st_lock env) MTREC_SUBTREE (wd_ld w)) in
    let w := set_wd_ld (delete_ids (st_lock env) MTREC_SUBTREE (rc_orphans ctx) (wd_ld w)) w in
    let t := set_nrec_legacy_pending (rc_overflow ctx) t in
    nrec_persist env false (w, if rc_overflow ctx then mtrec_schedule_save env t else t)
  else nrec_persist env false s.

Definition nrec_rewrite_hook (env : rs_env) (s : world * nrec) : world * nrec := nrec_persist env true s.

(** ** Saving *)

Definition mtrec_do_persist (env : rs_env) (s : world * nrec) : world * nrec :=
  let '(w, t) := s in
  if negb (meshtastic_lockdown_store_ready (wd_ld w)) then s
  else if nrec_active w then nrec_do_persist env s
  else
    let w := if mtrec_reconcile (wd_db w) then
               let ctx := foldl (mtrec_reconcile_cb (wd_db w)) (ctx0 false) (subtree_records (st_lock env) MTREC_SUBTREE (wd_ld w)) in
               set_wd_db (set_mtrec_reconcile (rc_overflow ctx) (wd_db w))
                 (set_wd_ld (delete_ids (st_lock env) MTREC_SUBTREE (rc_orphans ctx) (wd_ld w)) w)
             else w in
    let '(_, w) := mtrec_export env w in
    (w, if mtrec_reconcile (wd_db w) then mtrec_schedule_save env t else t).

(** The work queue takes the item off before it runs it. *)
Definition mtrec_save_work_handler (env : rs_env) (s : world * nrec) : world * nrec :=
  let '(w, t) := mtrec_do_persist env (s.1, set_mtrec_save_due None s.2) in
  (w, set_mtrec_saved_once true (set_mtrec_saved_at_ms (nd_uptime_ms (st_nd env)) t)).

Definition mtrec_snapshot_work_handler (env : rs_env) (s : world * nrec) : world * nrec :=
  let '(w, t) := mtrec_do_persist env s in
  (w, set_mtrec_snapshot_due (Some (nd_uptime_ms (st_nd env) + rs_interval_s env * 1000)) t).

(** ** Both tables *)

(** The unlock's reload: keys first, as at boot. *)
Definition meshtastic_nodedb_bulk_reload (env : rs_env) (s : world * wrec * nrec) : res Z * (world * wrec * nrec) * list nd_out :=
  let '(w, k, t) := s in
  if negb (meshtastic_bulk_ready (wd_bulk w)) then (Fail ENODEV, s, [])
  else
    let '(_, (w, k)) := wrec_boot_restore env (w, k) in
    let '(ret, (w, t), out) := nrec_boot_restore env (w, t) in
    (ret, (w, k, t), out).

(** The part of [meshtastic_nodedb_init] that reads the stores. *)
Definition restore_at_boot (env : rs_env) (s : world * wrec * nrec) : world * wrec * nrec * list nd_out :=
  let '(w, k, t) := s in
  let '(w, k) := if wrec_active w then (wrec_boot_restore env (w, k)).2 else (nodekeys_load env k w, k) in
  let '(w, t, out) := if nrec_active w then let '(_, (w, t), out) := nrec_boot_restore env (w, t) in (w, t, out)
                      else let '(w, out) := mtrec_load env t w in (w, t, out) in
  (w, k, set_mtrec_snapshot_due (Some (nd_uptime_ms (st_nd env) + rs_interval_s env * 1000)) (mtrec_schedule_save env t), out).

(** ** A record through the store *)

(** What a boot restores of a record. *)
Definition restored_node (env : rs_env) (e : nodedb_entry) : node_info :=
  let n := pb_normal (durable_of env e) in
  set_ni_snr_q4 0 (if has_bit HAS_SNR_BIT n then set_ni_snr (rs_snr_from_q4 env (ni_snr_q4 n)) n else n).
Definition restored_entry (env : rs_env) (num : Z) (e : nodedb_entry) : nodedb_entry :=
  NodeEntry (set_ni_last_heard 0 (set_ni_num num (restored_node env e))) (ni_last_heard (restored_node env e)) None 0.

Lemma length_header b : length (mtrec_header b) = MTREC_HEADER_LEN.
Proof. done. Qed.

Lemma record_roundtrip env e b : mtrec_encode env e MTREC_BUF_LEN = Val b ->
  mtrec_decode env b = Val (restored_node env e) /\ (MTREC_HEADER_LEN <= length b <= MTREC_BUF_LEN)%nat.
Proof.
  unfold mtrec_encode. destruct (_ <? _)%nat eqn:Hl; [done|]. destruct (pb_encode _ _) as [pb|] eqn:Ep; [|done]. intros E. assert (b = mtrec_header pb ++ pb) as -> by congruence. clear E.
  pose proof (pb_encode_len _ _ _ Ep) as Hlen. pose proof pb_size as Hsz. unfold MTREC_BUF_LEN, MTREC_HEADER_LEN in *.
  split; [|rewrite length_app, length_header; unfold MTREC_HEADER_LEN; lia].
  unfold mtrec_decode. rewrite length_app, length_header, (proj2 (Nat.ltb_ge _ _)) by (unfold MTREC_HEADER_LEN; lia).
  assert (byte_at (mtrec_header pb ++ pb) 0 = MTREC_RECORD_VERSION) as -> by done. rewrite Z.eqb_refl. cbn [orb negb].
  assert (get_le16 2 (mtrec_header pb ++ pb) = Zlen pb) as ->.
  { unfold mtrec_header. rewrite <- app_assoc, get_le_app_skip by done. apply get_le_app_here. lia. }
  assert (Z.of_nat (MTREC_HEADER_LEN + length pb) - 4 = Zlen pb) as -> by (unfold MTREC_HEADER_LEN; lia). rewrite Z.eqb_refl. cbn [negb]. rewrite drop_app_length' by done. by rewrite (pb_decode_encode _ _ _ Ep).
Qed.

Lemma mtrec_apply_append env num n db :
  num <> 0 -> num ∉ nums (entries db) -> (length (entries db) < nd_max_nodes env)%nat ->
  mtrec_apply env num n db =
  (set_entries (entries db ++ [NodeEntry (set_ni_last_heard 0 (set_ni_num num n)) (ni_last_heard n) None 0]) db, []).
Proof.
  intros Hn Hin Hlt. unfold mtrec_apply, get_or_create_entry_locked. rewrite (proj2 (Z.eqb_neq _ _) Hn), (proj2 (find_entry_None _ _) Hin).
  unfold admit_slot. rewrite (proj2 (Nat.ltb_lt _ _) Hlt). unfold put_entry. rewrite Nat.ltb_irrefl. cbn [entries set_entries].
  rewrite alter_app_r_alt by lia. rewrite Nat.sub_diag. done.
Qed.

(** ** Slots *)

Definition busy (slots : list Z) : list Z := List.filter (fun num => negb (num =? 0)) slots.

Record slot_ok (env : rs_env) (slots : list Z) : Prop := {
  so_len : length slots = NREC_SLOTS env;
  so_nodup : NoDup (busy slots);
  so_self : nd_self (st_nd env) ∉ busy slots;
}.

Lemma busy_elem num slots : num ∈ busy slots <-> num ∈ slots /\ num <> 0.
Proof.
  unfold busy. rewrite !list_elem_of_In, filter_In, negb_true_iff, Z.eqb_neq. done.
Qed.

Lemma busy_app l l' : busy (l ++ l') = busy l ++ busy l'.
Proof. apply List.filter_app. Qed.

(** Freeing and keeping slots leaves those that are kept where they were. *)
Lemma free_slots_spec db slots :
  length (free_slots db slots) = length slots /\ busy (free_slots db slots) `sublist_of` busy slots /\
  (forall num, num ∈ busy (free_slots db slots) -> num ∈ nums (entries db)) /\
  (forall s num, slots !! s = Some num -> num ∈ nums (entries db) -> free_slots db slots !! s = Some num).
Proof.
  unfold free_slots. split; [apply length_fmap|]. split; [|split].
  - induction slots as [|n l IH]; [done|]. cbn [fmap list_fmap busy List.filter]. unfold busy in *.
    destruct (Z.eqb_spec n 0) as [->|Hn]; cbn [negb andb]; [exact IH|]. case_bool_decide; cbn [negb]; [change (0 =? 0) with true; cbn [negb]; by apply sublist_cons|].
    rewrite (proj2 (Z.eqb_neq n 0) Hn). cbn [negb]. by apply sublist_skip.
  - intros num [(n & -> & Hin)%list_elem_of_fmap Hne]%busy_elem. destruct (negb (n =? 0) && bool_decide _) eqn:E; [done|]. rewrite (proj2 (Z.eqb_neq n 0)) in E by (by destruct (negb _ && _)).
    cbn [negb andb] in E. bools. destruct (decide (n ∈ nums (entries db))) as [|Hni]; [done|]. by apply find_entry_None in Hni.
  - intros s num Hs Hin. rewrite list_lookup_fmap, Hs. cbn. rewrite andb_comm, bool_decide_false; [done|]. intros Hn. by apply find_entry_None in Hn.
Qed.

Lemma find_zero_spec slots s : nrec_slot_of_locked 0 slots = Some s ->
  slots = take s slots ++ 0 :: drop (S s) slots /\ (s < length slots)%nat.
Proof.
  intros (x & Hx & Hz%Z.eqb_eq)%find_index_Some_1. subst x. split; [|by eapply lookup_lt_Some]. symmetry. by apply take_drop_middle.
Qed.

Lemma busy_fill slots s num : nrec_slot_of_locked 0 slots = Some s -> num <> 0 -> busy (<[s := num]> slots) ≡ₚ num :: busy slots.
Proof.
  intros Hf Hn. destruct (find_zero_spec _ _ Hf) as [E Hlt]. rewrite E at 2. rewrite insert_take_drop by done. rewrite !busy_app.
  cbn [busy List.filter]. rewrite (proj2 (Z.eqb_neq num 0) Hn). cbn [negb]. change (0 =? 0) with true. cbn [negb]. fold (busy (drop (S s) slots)).
  by rewrite <- Permutation_middle.
Qed.

Lemma no_free_slot slots : nrec_slot_of_locked 0 slots = None -> busy slots = slots.
Proof.
  unfold nrec_slot_of_locked, busy. rewrite find_index_None. intros Hn. induction slots as [|n l IH]; [done|]. cbn [List.filter].
  rewrite (Z.eqb_sym n 0), (Hn 0%nat n eq_refl). cbn [negb]. f_equal. apply IH. intros i x Hi. exact (Hn (S i) x Hi).
Qed.

Lemma slot_of_Some num slots : is_Some (nrec_slot_of_locked num slots) <-> num ∈ slots.
Proof.
  unfold nrec_slot_of_locked. split.
  - intros [s (x & Hx & E%Z.eqb_eq)%find_index_Some_1]. subst x. by eapply list_elem_of_lookup_2.
  - intros [s Hs]%list_elem_of_lookup. eapply find_index_is_Some; [done | apply Z.eqb_refl].
Qed.

Section Assign.
Context (env : rs_env) (db : nodedb).
Hypothesis Hwf : hot_wf (nd_self (st_nd env)) (nd_max_nodes (st_nd env)) (entries db).
Hypothesis Hroom : (nd_max_nodes (st_nd env) <= NREC_SLOTS env)%nat.

Record assigned (slots : list Z) : Prop := {
  as_ok : slot_ok env slots;
  as_hot : forall num, num ∈ busy slots -> num ∈ nums (entries db);
}.

(** While a peer has no slot, one is free. *)
Lemma slot_free slots e : assigned slots -> e ∈ entries db -> ni_num (en_node e) <> nd_self (st_nd env) -> ni_num (en_node e) ∉ busy slots ->
  exists s, nrec_slot_of_locked 0 slots = Some s.
Proof.
  intros [[Hl Hnd Hs] Hh] He Hns Hnb. destruct (nrec_slot_of_locked 0 slots) as [s|] eqn:Ef; [by exists s|]. exfalso.
  pose proof (no_free_slot _ Ef) as Eb. pose proof (hw_len _ _ _ Hwf) as Hlen.
  assert (NoDup (ni_num (en_node e) :: busy slots)) as Hnd2 by by constructor.
  assert (length (ni_num (en_node e) :: busy slots) <= length (nums (entries db)))%nat as Hle.
  { apply submseteq_length, NoDup_submseteq; [done|]. intros x [->|Hx]%elem_of_cons; [|by apply Hh]. by apply (list_elem_of_fmap_2 (fun e => ni_num (en_node e))). }
  unfold nums in Hle. rewrite length_fmap in Hle. cbn [length] in Hle. rewrite Eb, Hl in Hle. lia.
Qed.

Lemma give_slot_spec slots e : assigned slots -> e ∈ entries db ->
  assigned (give_slot env slots e) /\ busy slots ⊆ busy (give_slot env slots e) /\
  (ni_num (en_node e) <> nd_self (st_nd env) -> ni_num (en_node e) ∈ busy (give_slot env slots e)) /\
  (forall s num, slots !! s = Some num -> num <> 0 -> give_slot env slots e !! s = Some num).
Proof.
  intros Ha He. assert (ni_num (en_node e) <> 0) as Hn0.
  { pose proof (hw_ok _ _ _ Hwf) as Hok. rewrite Forall_forall in Hok. apply (Hok e He). }
  unfold give_slot. destruct (Z.eqb_spec (ni_num (en_node e)) (nd_self (st_nd env))) as [Es|Es]; cbn [orb]; [done|].
  case_bool_decide as Hin; [rewrite slot_of_Some in Hin; split_and!; [done..| |done]; intros _; by apply busy_elem|]. rewrite slot_of_Some in Hin.
  assert (ni_num (en_node e) ∉ busy slots) as Hnb by (intros [? _]%busy_elem; done).
  destruct (slot_free slots e Ha He Es Hnb) as [s Ef]. rewrite Ef. destruct Ha as [[Hl Hnd Hs] Hh]. pose proof (busy_fill slots s _ Ef Hn0) as Hp.
  destruct (find_zero_spec _ _ Ef) as [E0 Hlt]. split_and!.
  - split; [split; [by rewrite length_insert | rewrite Hp; by constructor | rewrite Hp; by intros [|]%elem_of_cons]|].
    intros num. rewrite Hp. intros [->|Hx]%elem_of_cons; [by apply (list_elem_of_fmap_2 (fun e => ni_num (en_node e))) | by apply Hh].
  - intros x Hx. rewrite Hp. by right.
  - intros _. rewrite Hp. by left.
  - intros s' num Hs' Hne. rewrite list_lookup_insert_ne; [done|]. intros ->. apply find_index_Some_1 in Ef as (x & Hx & Ez%Z.eqb_eq). congruence.
Qed.

(** Every peer of the hot store has one slot, nobody else has one, and a node that had one
    keeps it. *)
Lemma assign_slots_spec slots : slot_ok env slots ->
  assigned (nrec_assign_slots_locked env db slots) /\
  (forall e, e ∈ entries db -> ni_num (en_node e) <> nd_self (st_nd env) -> ni_num (en_node e) ∈ busy (nrec_assign_slots_locked env db slots)) /\
  (forall s num, slots !! s = Some num -> num <> 0 -> num ∈ nums (entries db) -> nrec_assign_slots_locked env db slots !! s = Some num).
Proof.
  intros [Hl Hnd Hs]. destruct (free_slots_spec db slots) as (Fl & Fs & Fh & Fk).
  assert (assigned (free_slots db slots)) as Ha.
  { split; [split; [by rewrite Fl | by eapply sublist_NoDup | intros Hin; apply Hs; eapply elem_of_submseteq; [exact Hin | by apply sublist_submseteq]]|]. exact Fh. }
  unfold nrec_assign_slots_locked. assert (forall l slots0, l ⊆ entries db -> assigned slots0 ->
    assigned (foldl (give_slot env) slots0 l) /\ busy slots0 ⊆ busy (foldl (give_slot env) slots0 l) /\
    (forall e, e ∈ l -> ni_num (en_node e) <> nd_self (st_nd env) -> ni_num (en_node e) ∈ busy (foldl (give_slot env) slots0 l)) /\
    (forall s num, slots0 !! s = Some num -> num <> 0 -> foldl (give_slot env) slots0 l !! s = Some num)) as Hf.
  { induction l as [|e l IH]; intros slots0 Hsub Ha0; cbn [foldl]; [split_and!; [done..| |done]; by intros e ?%elem_of_nil|].
    destruct (give_slot_spec slots0 e Ha0 (Hsub e ltac:(left))) as (G1 & G2 & G3 & G4).
    destruct (IH (give_slot env slots0 e) ltac:(intros x Hx; apply Hsub; by right) G1) as (I1 & I2 & I3 & I4).
    split_and!; [done | set_solver | |]; [|intros s num Hs1 Hs2; auto].
    intros x [->|Hx]%elem_of_cons Hns; [by apply I2, G3 | by apply I3]. }
  destruct (Hf (entries db) (free_slots db slots) ltac:(done) Ha) as (R1 & _ & R3 & R4). split_and!; [done..|]. intros s num Hs1 Hn0 Hin. apply R4; auto.
Qed.
End Assign.

(** ** Pages *)

Definition nrec_empty : list Z := [NREC_PAGE_VER; u8 (Z.of_nat NREC_PER_PAGE); 0; 0] ++ replicate (NREC_PER_PAGE * NREC_SLOT_LEN) 0.
Definition nrec_table (env : rs_env) : table := Table NREC_PAGE_ID NREC_PAGE_LEN nrec_empty (NREC_PAGES env).

Lemma per_page_fits : (NREC_PER_PAGE * NREC_SLOT_LEN <= 2044)%nat /\ (1 <= NREC_PER_PAGE <= 255)%nat.
Proof.
  pose proof pb_size as Hsz. unfold NREC_PER_PAGE. change (MESHTASTIC_BULK_BLOB_MAX - NREC_PAGE_HDR)%nat with 2044%nat.
  assert (9 <= NREC_SLOT_LEN <= 260)%nat as Hs by (unfold NREC_SLOT_LEN, MTREC_BUF_LEN, MTREC_HEADER_LEN; lia).
  split; [rewrite Nat.mul_comm; apply Nat.Div0.mul_div_le|]. split.
  - apply Nat.div_le_lower_bound; lia.
  - etransitivity; [apply (Nat.div_le_compat_l 2044 9); lia | by vm_compute; apply Nat.leb_le].
Qed.

Lemma nrec_table_ok env : (NREC_PAGES env <= 256)%nat -> table_ok (nrec_table env).
Proof.
  intros Hp. split; cbn [nrec_table tb_id tb_pages tb_len]; [intros p Hlt; unfold NREC_PAGE_ID, MESHTASTIC_BULK_ID_USER_MAX; lia | intros p q; unfold NREC_PAGE_ID; lia|].
  pose proof per_page_fits. unfold NREC_PAGE_LEN, NREC_PAGE_HDR, MESHTASTIC_BULK_BLOB_MAX. lia.
Qed.

Lemma length_pad n l : (length l <= n)%nat -> length (pad n l) = n.
Proof. intros Hl. unfold pad. rewrite length_app, length_replicate. lia. Qed.

Lemma length_nrec_slot env db num : length (nrec_slot_bytes env db num).1 = NREC_SLOT_LEN.
Proof.
  unfold nrec_slot_bytes. destruct (num =? 0); [apply length_replicate|]. destruct (entry_of num db) as [e|]; [|apply length_replicate].
  destruct (mtrec_encode env e MTREC_BUF_LEN) as [b|] eqn:Ee; apply length_pad; rewrite !length_app.
  - destruct (record_roundtrip _ _ _ Ee) as [_ Hb]. rewrite length_le_put. unfold NREC_SLOT_LEN. cbn [length]. lia.
  - rewrite length_replicate. pose proof (pb_torn_len NodeInfoLite_size (durable_of env e)). unfold NREC_SLOT_LEN, MTREC_BUF_LEN, MTREC_HEADER_LEN. lia.
Qed.

Section RecBuild.
Context (env : rs_env) (db : nodedb) (slots : list Z).
(** Every record of the hot store fits its buffer. *)
Hypothesis Henc : forall e, e ∈ entries db -> exists b, mtrec_encode env e MTREC_BUF_LEN = Val b.

Definition slot_entry (num : Z) : option nodedb_entry := if num =? 0 then None else entry_of num db.
Definition slot_num (s : nat) : Z := default 0 (slots !! s).

Lemma slot_entry_in num e : slot_entry num = Some e -> e ∈ entries db /\ ni_num (en_node e) = num /\ num <> 0.
Proof.
  unfold slot_entry. destruct (Z.eqb_spec num 0) as [|Hn]; [done|]. unfold entry_of. intros (i & Hf & Hi)%bind_Some.
  destruct (find_entry_Some _ _ _ Hf) as (e' & He' & En). simplify_eq. split; [by eapply list_elem_of_lookup_2 | done].
Qed.

Lemma slot_bytes_cases num :
  match slot_entry num with
  | None => nrec_slot_bytes env db num = (replicate NREC_SLOT_LEN 0, false)
  | Some e => exists b, mtrec_encode env e MTREC_BUF_LEN = Val b /\
      nrec_slot_bytes env db num = (pad NREC_SLOT_LEN (put_le32 num ++ [u8 (Zlen b)] ++ b), true)
  end.
Proof.
  destruct (slot_entry num) as [e|] eqn:Es.
  - destruct (slot_entry_in _ _ Es) as (He & _ & Hn). destruct (Henc e He) as [b Eb]. exists b. split; [done|]. unfold slot_entry in Es. unfold nrec_slot_bytes.
    destruct (num =? 0); [done|]. by rewrite Es, Eb.
  - unfold slot_entry in Es. unfold nrec_slot_bytes. destruct (num =? 0); [done|]. by rewrite Es.
Qed.

Lemma rec_page_slots p : Forall (fun l => length l = NREC_SLOT_LEN)
  (fst <$> ((fun s => nrec_slot_bytes env db (default 0 (slots !! s))) <$> seq (p * NREC_PER_PAGE) NREC_PER_PAGE)).
Proof. apply Forall_fmap, Forall_fmap, Forall_forall. intros s _. apply length_nrec_slot. Qed.

Lemma rec_build_ok : build_ok (nrec_table env) (nrec_build_page_locked env slots db).
Proof.
  split; intros p; unfold nrec_build_page_locked; cbn [fst snd nrec_table tb_len tb_empty].
  - rewrite length_app, (length_slots NREC_SLOT_LEN) by apply rec_page_slots. by rewrite !length_fmap, length_seq.
  - by apply plain_first_byte.
  - intros Hu. rewrite Hu. unfold nrec_empty. f_equal. revert Hu. generalize (seq (p * NREC_PER_PAGE) NREC_PER_PAGE) (length_seq NREC_PER_PAGE (p * NREC_PER_PAGE)).
    generalize NREC_PER_PAGE as n. intros n l <-. induction l as [|s l IH]; [done|]. cbn [fmap list_fmap List.filter].
    pose proof (slot_bytes_cases (default 0 (slots !! s))) as Hc. destruct (slot_entry _) as [e|]; [destruct Hc as (b & _ & ->); done|]. rewrite Hc. cbn [fst snd]. intros Hu.
    change (mjoin (?a :: ?b)) with (a ++ mjoin b). cbn [length Nat.mul]. rewrite replicate_add. f_equal. by apply IH.
Qed.

Lemma rec_build_used p : (nrec_build_page_locked env slots db p).1 = nrec_empty -> (nrec_build_page_locked env slots db p).2 = 0%nat.
Proof.
  unfold nrec_build_page_locked, nrec_empty. cbn [fst snd]. set (used := length _). intros E%header_used.
  assert (used <= 255)%nat as Hu by (unfold used; etransitivity; [apply List.filter_length_le|]; rewrite !length_fmap, length_seq; apply per_page_fits).
  rewrite u8_small in E by lia. lia.
Qed.

Lemma rec_page_slot_at p i : (i < NREC_PER_PAGE)%nat ->
  exists rest, nrec_slot_at (nrec_build_page_locked env slots db p).1 i = (nrec_slot_bytes env db (slot_num (p * NREC_PER_PAGE + i))).1 ++ rest.
Proof.
  intros Hi. unfold nrec_slot_at, nrec_build_page_locked. cbn [fst]. rewrite <- drop_drop, (drop_app_length' [_; _; _; _]) by done.
  apply drop_slots; [apply rec_page_slots|]. rewrite !list_lookup_fmap, lookup_seq_lt by done. done.
Qed.

Lemma rec_slot_fields num b rest slot : in_u32 num -> (MTREC_HEADER_LEN <= length b <= MTREC_BUF_LEN)%nat ->
  slot = pad NREC_SLOT_LEN (put_le32 num ++ [u8 (Zlen b)] ++ b) ++ rest ->
  get_le32 0 slot = num /\ byte_at slot 4 = Zlen b /\ take (length b) (drop 5 slot) = b.
Proof.
  intros Hn Hb ->. pose proof pb_size as Hsz. unfold in_u32, UINT32_MAX, MTREC_HEADER_LEN, MTREC_BUF_LEN, MTREC_HEADER_LEN in *. unfold pad. rewrite <- !app_assoc. split_and!.
  - apply get_le_app_here. lia.
  - unfold byte_at. rewrite lookup_app_r by (rewrite length_le_put; lia). rewrite length_le_put. cbn. apply u8_small. lia.
  - rewrite (app_assoc (put_le32 num)), drop_app_length' by done. by apply take_app_length'.
Qed.

(** *** Reading the pages back *)

Context (env2 : rs_env) (db2 : nodedb).
Hypothesis Hs2 : nd_self (st_nd env2) = nd_self (st_nd env).
Hypothesis Hm2 : nd_max_nodes (st_nd env2) = nd_max_nodes (st_nd env).
Hypothesis Hq2 : rs_snr_from_q4 env2 = rs_snr_from_q4 env.
Hypothesis Hnum : Forall in_u32 slots.
Hypothesis Hself : nd_self (st_nd env) ∉ busy slots.
Hypothesis Hnodup : NoDup (busy slots).
Hypothesis Hnew : forall num, num ∈ busy slots -> num ∉ nums (entries db2).
Hypothesis Hfit : (length (entries db2) + length (omap slot_entry slots) <= nd_max_nodes (st_nd env))%nat.

Definition back (num : Z) : option nodedb_entry := restored_entry env num <$> slot_entry num.
Definition rec_filled (n : nat) : nodedb := set_entries (entries db2 ++ omap back (take n slots)) db2.
Definition rec_kept (n : nat) : Z := Zlen (omap slot_entry (take n slots)).
Definition slots_filled (n : nat) : list Z :=
  ((fun num => if bool_decide (is_Some (slot_entry num)) then num else 0) <$> take n slots) ++ replicate (length slots - n) 0.

Lemma back_len l : length (omap back l) = length (omap slot_entry l).
Proof. induction l as [|x l IH]; [done|]. rewrite !omap_cons_list. unfold back at 1. destruct (slot_entry x); cbn; by rewrite IH. Qed.

Lemma back_nums l : nums (omap back l) = List.filter (fun num => bool_decide (is_Some (slot_entry num))) l.
Proof.
  induction l as [|x l IH]; [done|]. rewrite omap_cons_list. cbn [List.filter]. unfold back at 1. destruct (slot_entry x) as [e|]; cbn; [|exact IH].
  rewrite <- IH. done.
Qed.

Lemma rec_past n : slots !! n = None -> rec_filled (S n) = rec_filled n /\ rec_kept (S n) = rec_kept n /\ slots_filled (S n) = slots_filled n.
Proof.
  intros Hn%lookup_ge_None. unfold rec_filled, rec_kept, slots_filled. rewrite !take_ge by lia. split_and!; [done..|]. f_equal. f_equal. lia.
Qed.

Lemma slots_step n num : slots !! n = Some num ->
  <[n := if bool_decide (is_Some (slot_entry num)) then num else 0]> (slots_filled n) = slots_filled (S n).
Proof.
  intros Hk. pose proof (lookup_lt_Some _ _ _ Hk) as Hlt. unfold slots_filled. replace (length slots - n)%nat with (S (length slots - S n)) by lia.
  rewrite (take_S_r _ n num Hk), fmap_app. cbn [replicate fmap list_fmap]. rewrite <- app_assoc. cbn [app].
  rewrite insert_app_r_alt by (rewrite length_fmap, length_take; lia). rewrite length_fmap, length_take. by replace (n - n `min` length slots)%nat with 0%nat by lia.
Qed.

Lemma slots_free n num : slots !! n = Some num -> slots_filled n !! n = Some 0.
Proof.
  intros Hk%lookup_lt_Some. unfold slots_filled. rewrite lookup_app_r by (rewrite length_fmap, length_take; lia). apply lookup_replicate.
  rewrite length_fmap, length_take. split; [done | lia].
Qed.

Lemma rec_step_none n num : slots !! n = Some num -> slot_entry num = None ->
  rec_filled (S n) = rec_filled n /\ rec_kept (S n) = rec_kept n /\ slots_filled (S n) = slots_filled n.
Proof.
  intros Hk Hs. rewrite <- (slots_step n num Hk). unfold rec_filled, rec_kept. rewrite (take_S_r _ n num Hk), !omap_app.
  assert (back num = None) as Hb by (unfold back; by rewrite Hs). change (omap back [num]) with (match back num with Some y => y :: [] | None => [] end).
  change (omap slot_entry [num]) with (match slot_entry num with Some y => y :: [] | None => [] end). rewrite Hb, Hs, !app_nil_r. split_and!; [done..|].
  apply list_insert_id. rewrite bool_decide_false by (by intros [? ?]). by eapply slots_free.
Qed.

Lemma rec_step_some n num e : slots !! n = Some num -> slot_entry num = Some e ->
  rec_filled (S n) = set_entries (entries (rec_filled n) ++ [restored_entry env num e]) (rec_filled n) /\ rec_kept (S n) = rec_kept n + 1 /\
  slots_filled (S n) = <[n := num]> (slots_filled n) /\
  num ∉ nums (entries (rec_filled n)) /\ (length (entries (rec_filled n)) < nd_max_nodes (st_nd env))%nat.
Proof.
  intros Hk Hs. destruct (slot_entry_in _ _ Hs) as (_ & _ & Hn0). assert (num ∈ busy slots) as Hb by (apply busy_elem; split; [by eapply list_elem_of_lookup_2 | done]).
  rewrite <- (slots_step n num Hk), (bool_decide_true (is_Some (slot_entry num))) by (rewrite Hs; by eexists).
  unfold rec_filled, rec_kept. cbn [entries set_entries]. rewrite (take_S_r _ n num Hk), !omap_app.
  assert (back num = Some (restored_entry env num e)) as Hbk by (unfold back; by rewrite Hs). change (omap back [num]) with (match back num with Some y => y :: [] | None => [] end).
  change (omap slot_entry [num]) with (match slot_entry num with Some y => y :: [] | None => [] end). rewrite Hbk, Hs. split_and!.
  - by rewrite app_assoc.
  - rewrite length_app. cbn [length]. lia.
  - done.
  - unfold nums. rewrite fmap_app. intros [Hin|Hin]%elem_of_app; [by apply (Hnew num Hb)|]. change (num ∈ nums (omap back (take n slots))) in Hin. rewrite back_nums in Hin.
    apply list_elem_of_In, filter_In in Hin as [Hin _]. apply list_elem_of_In in Hin.
    rewrite <- (take_drop_middle slots n num Hk), busy_app in Hnodup. apply NoDup_app in Hnodup as (_ & Hd & _). apply (Hd num); [by apply busy_elem|].
    apply busy_elem. split; [by left | done].
  - rewrite length_app, back_len. rewrite <- (take_drop_middle slots n num Hk), omap_app, length_app, omap_cons_list, Hs in Hfit. change (option_list (Some e)) with [e] in Hfit. cbn [app length] in Hfit. lia.
Qed.

Lemma rec_load_slot_spec p i w out : (i < NREC_PER_PAGE)%nat -> wd_db w = rec_filled (p * NREC_PER_PAGE + i) ->
  nrec_load_slot env2 p (nrec_build_page_locked env slots db p).1 (w, out, slots_filled (p * NREC_PER_PAGE + i), rec_kept (p * NREC_PER_PAGE + i)) i =
  (set_wd_db (rec_filled (S (p * NREC_PER_PAGE + i))) w, out, slots_filled (S (p * NREC_PER_PAGE + i)), rec_kept (S (p * NREC_PER_PAGE + i))).
Proof.
  intros Hi Hw. destruct (rec_page_slot_at p i Hi) as [rest Hs]. set (n := (p * NREC_PER_PAGE + i)%nat) in *.
  assert (set_wd_db (rec_filled n) w = w) as Hid by (rewrite <- Hw; by destruct w).
  assert (slot_entry (slot_num n) = None -> rec_filled (S n) = rec_filled n /\ rec_kept (S n) = rec_kept n /\ slots_filled (S n) = slots_filled n) as Hnone.
  { intros Hse. destruct (slots !! n) as [num|] eqn:Hk; [|by apply rec_past]. apply (rec_step_none n num Hk). unfold slot_num in Hse. by rewrite Hk in Hse. }
  unfold nrec_load_slot. fold n. rewrite Hs. pose proof (slot_bytes_cases (slot_num n)) as Hc. destruct (slot_entry (slot_num n)) as [e|] eqn:Hse.
  - destruct Hc as (b & Eb & ->). destruct (record_roundtrip _ _ _ Eb) as [Hdec Hlen]. cbn [fst].
    assert (slots !! n = Some (slot_num n)) as Hk.
    { unfold slot_num in *. destruct (slots !! n); [done|]. unfold slot_entry in Hse. cbn in Hse. done. }
    assert (in_u32 (slot_num n)) as Hu by by eapply (Forall_lookup_1 _ _ _ _ Hnum).
    destruct (rec_slot_fields _ b rest _ Hu Hlen eq_refl) as (-> & -> & Ht). assert (mtrec_decode env2 b = mtrec_decode env b) as Hd2 by (unfold mtrec_decode; by rewrite Hq2). rewrite Nat2Z.id, Ht, Hd2, Hdec.
    destruct (slot_entry_in _ _ Hse) as (_ & _ & Hn0). destruct (rec_step_some n _ e Hk Hse) as (-> & -> & -> & Hni & Hlt).
    rewrite (proj2 (Z.eqb_neq _ 0) Hn0), (proj2 (Z.eqb_neq (Zlen b) 0)), (proj2 (Z.ltb_ge _ _)) by (unfold MTREC_HEADER_LEN in *; lia).
    rewrite Hs2, (proj2 (Z.eqb_neq _ (nd_self _))) by (intros EE; apply Hself; rewrite <- EE; apply busy_elem; split; [by eapply list_elem_of_lookup_2 | done]).
    cbn [orb]. unfold put_back. rewrite Hw, mtrec_apply_append by (done || by rewrite Hm2). by rewrite app_nil_r.
  - rewrite Hc. cbn [fst]. assert (get_le32 0 (replicate NREC_SLOT_LEN 0 ++ rest) = 0) as ->.
    { unfold NREC_SLOT_LEN. done. }
    cbn [Z.eqb orb]. destruct (Hnone eq_refl) as (-> & -> & ->). by rewrite Hid.
Qed.

Lemma rec_load_page_spec p w out : wd_db w = rec_filled (p * NREC_PER_PAGE) ->
  foldl (nrec_load_slot env2 p (nrec_build_page_locked env slots db p).1) (w, out, slots_filled (p * NREC_PER_PAGE), rec_kept (p * NREC_PER_PAGE)) (seq 0 NREC_PER_PAGE) =
  (set_wd_db (rec_filled (S p * NREC_PER_PAGE)) w, out, slots_filled (S p * NREC_PER_PAGE), rec_kept (S p * NREC_PER_PAGE)).
Proof.
  intros Hw. assert (forall m, (m <= NREC_PER_PAGE)%nat ->
    foldl (nrec_load_slot env2 p (nrec_build_page_locked env slots db p).1) (w, out, slots_filled (p * NREC_PER_PAGE), rec_kept (p * NREC_PER_PAGE)) (seq 0 m) =
    (set_wd_db (rec_filled (p * NREC_PER_PAGE + m)) w, out, slots_filled (p * NREC_PER_PAGE + m), rec_kept (p * NREC_PER_PAGE + m))) as Hm.
  { induction m as [|m IH]; intros Hle.
    - rewrite Nat.add_0_r, <- Hw. assert (set_wd_db (wd_db w) w = w) as -> by by destruct w. done.
    - rewrite seq_S, foldl_app, IH by lia. cbn [foldl]. rewrite Nat.add_0_l, rec_load_slot_spec by done. by rewrite <- Nat.add_succ_r. }
  rewrite Hm by done. by replace (S p * NREC_PER_PAGE)%nat with (p * NREC_PER_PAGE + NREC_PER_PAGE)%nat by lia.
Qed.

Lemma rec_empty_page p : (nrec_build_page_locked env slots db p).2 = 0%nat ->
  rec_filled (S p * NREC_PER_PAGE) = rec_filled (p * NREC_PER_PAGE) /\ rec_kept (S p * NREC_PER_PAGE) = rec_kept (p * NREC_PER_PAGE) /\
  slots_filled (S p * NREC_PER_PAGE) = slots_filled (p * NREC_PER_PAGE).
Proof.
  unfold nrec_build_page_locked. cbn [snd]. intros Hu. replace (S p * NREC_PER_PAGE)%nat with (p * NREC_PER_PAGE + NREC_PER_PAGE)%nat by lia.
  revert Hu. generalize (p * NREC_PER_PAGE)%nat as a. induction NREC_PER_PAGE as [|m IH]; intros a Hu; [by rewrite Nat.add_0_r|].
  cbn [seq fmap list_fmap List.filter] in Hu. fold (slot_num a) in Hu. pose proof (slot_bytes_cases (slot_num a)) as Hc.
  destruct (slot_entry (slot_num a)) as [e|] eqn:Hse; [destruct Hc as (b & _ & Hc); rewrite Hc in Hu; done|]. rewrite Hc in Hu. cbn [snd] in Hu.
  destruct (IH (S a) Hu) as (E1 & E2 & E3). rewrite Nat.add_succ_r, <- Nat.add_succ_l, E1, E2, E3.
  destruct (slots !! a) as [num|] eqn:Hk; [|by apply rec_past]. apply (rec_step_none a num Hk). unfold slot_num in Hse. by rewrite Hk in Hse.
Qed.

Abbreviation rec_held := (page_held env2 (nrec_table env) (nrec_build_page_locked env slots db)).

Lemma layout_header (len ver per used : Z) l :
  Zlen ([ver; per; used; 0] ++ l) = len -> page_layout_ok len ver ([ver; per; used; 0] ++ l) per = true.
Proof. intros <-. unfold page_layout_ok. rewrite !(byte_at_app_l [_; _; _; _]) by (cbn; lia). cbn [byte_at lookup list_lookup default]. unfold byte_at. cbn. by rewrite !Z.eqb_refl. Qed.

Lemma rec_layout p : nrec_layout_ok (nrec_build_page_locked env slots db p).1 = true.
Proof.
  pose proof (bk_len _ _ rec_build_ok p) as Hl. apply layout_header. exact (f_equal Z.of_nat Hl).
Qed.

Lemma rec_load_pages_held n : forall p w t out,
  (forall q, (p <= q < p + n)%nat -> rec_held w q) -> wd_db w = rec_filled (p * NREC_PER_PAGE) -> nrec_slot t = slots_filled (p * NREC_PER_PAGE) ->
  exists t', nrec_load_pages env2 (seq p n) (rec_kept (p * NREC_PER_PAGE)) out (w, t) =
    (Val (rec_kept ((p + n) * NREC_PER_PAGE)), (set_wd_db (rec_filled ((p + n) * NREC_PER_PAGE)) w, t'), out) /\
    nrec_loaded t' = true /\ nrec_slot t' = slots_filled ((p + n) * NREC_PER_PAGE).
Proof.
  induction n as [|n IH]; intros p w t out Hh Hw Ht.
  - rewrite Nat.add_0_r, <- Hw. exists (set_nrec_loaded true t). assert (set_wd_db (wd_db w) w = w) as -> by by destruct w. done.
  - cbn [seq nrec_load_pages]. pose proof (Hh p ltac:(lia)) as Hp. unfold page_held, page_at in Hp. cbn [nrec_table tb_id tb_len] in Hp.
    unfold nrec_page_read. replace (p + S n)%nat with (S p + n)%nat by lia. destruct Hp as [Hp|[Hp Hu]]; rewrite Hp.
    + rewrite rec_layout. cbn [nrec_slot set_nrec_crc]. rewrite Ht, rec_load_page_spec by done.
      set (w1 := set_wd_db _ w). set (t1 := set_nrec_crc _ (set_nrec_slot _ _)).
      destruct (IH (S p) w1 t1 out) as (t' & E & Ht'); [intros q Hq; apply (Hh q); lia | done | done|].
      exists t'. split; [|done]. rewrite E. done.
    + destruct (rec_empty_page p Hu) as (E1 & E2 & E3). rewrite <- E2. destruct (IH (S p) w (set_nrec_crc (<[p := None]> (nrec_crc t)) t) out) as (t' & E & Ht');
        [intros q Hq; apply (Hh q); lia | by rewrite E1 | cbn [nrec_slot set_nrec_crc]; by rewrite E3|]. exists t'. by rewrite E.
Qed.

(** All of it. *)
Hypothesis Hslots : length slots = NREC_SLOTS env.
Hypothesis Hhot : forall num, num ∈ busy slots -> num ∈ nums (entries db).
Hypothesis Hdb : NoDup (nums (entries db)).

Lemma busy_entry num : num ∈ busy slots -> is_Some (slot_entry num).
Proof.
  intros Hb. pose proof (Hhot num Hb) as Hin. apply busy_elem in Hb as [_ Hn]. unfold slot_entry. rewrite (proj2 (Z.eqb_neq _ _) Hn).
  apply list_elem_of_fmap in Hin as (e & -> & He). exists e. by apply entry_of_Some.
Qed.

Lemma rec_filled_all : rec_filled (NREC_SLOTS env) = set_entries (entries db2 ++ omap back slots) db2 /\
  rec_kept (NREC_SLOTS env) = Zlen (omap slot_entry slots) /\ slots_filled (NREC_SLOTS env) = slots.
Proof.
  unfold rec_filled, rec_kept, slots_filled. rewrite !take_ge by lia. split_and!; [done..|]. rewrite Hslots, Nat.sub_diag, app_nil_r.
  rewrite <- (list_fmap_id slots) at 2. apply list_fmap_ext. intros s num Hs. unfold id. destruct (decide (num = 0)) as [->|Hn]; [by destruct (bool_decide _)|].
  rewrite bool_decide_true; [done|]. apply busy_entry, busy_elem. split; [by eapply list_elem_of_lookup_2 | done].
Qed.

Lemma back_busy : nums (omap back slots) = busy slots.
Proof.
  rewrite back_nums. unfold busy. apply List.filter_ext_in. intros num Hin. apply list_elem_of_In in Hin. destruct (Z.eqb_spec num 0) as [->|Hn]; cbn [negb].
  - apply bool_decide_false. unfold slot_entry. cbn. by intros [? ?].
  - apply bool_decide_true, busy_entry, busy_elem. done.
Qed.

Lemma restored_back e : e ∈ entries db -> ni_num (en_node e) ∈ busy slots -> NoDup (nums (entries db2)) ->
  entry_of (ni_num (en_node e)) (rec_filled (NREC_SLOTS env)) = Some (restored_entry env (ni_num (en_node e)) e).
Proof.
  intros He Hb Hnd2. destruct rec_filled_all as (-> & _). apply entry_of_Some; cbn [entries set_entries].
  - unfold nums. rewrite fmap_app. apply NoDup_app. split; [exact Hnd2|]. change ((fun e => ni_num (en_node e)) <$> omap back slots) with (nums (omap back slots)).
    rewrite back_busy. split; [|exact Hnodup]. intros x Hx Hxb. by apply (Hnew x Hxb).
  - split; [|done]. apply elem_of_app. right. apply list_elem_of_omap. exists (ni_num (en_node e)). apply busy_elem in Hb as [Hb Hn]. split; [done|].
    unfold back, slot_entry. rewrite (proj2 (Z.eqb_neq _ _) Hn). replace (entry_of (ni_num (en_node e)) db) with (Some e); [done|]. symmetry. by apply entry_of_Some.
Qed.

Lemma kept_count : Zlen (omap slot_entry slots) = Zlen (busy slots).
Proof. rewrite <- back_busy. unfold nums. by rewrite length_fmap, back_len. Qed.
End RecBuild.
(** ** Saving and booting *)

Lemma slots_cover (env : rs_env) : (nd_max_nodes (st_nd env) <= NREC_SLOTS env)%nat.
Proof.
  pose proof per_page_fits as [_ [Hp _]]. unfold NREC_SLOTS, NREC_PAGES. pose proof (Nat.div_mod (nd_max_nodes (st_nd env) + NREC_PER_PAGE - 1) NREC_PER_PAGE ltac:(lia)).
  pose proof (Nat.mod_upper_bound (nd_max_nodes (st_nd env) + NREC_PER_PAGE - 1) NREC_PER_PAGE ltac:(lia)). nia.
Qed.

Lemma slots_eq (env : rs_env) : (NREC_PAGES env * NREC_PER_PAGE)%nat = NREC_SLOTS env.
Proof. unfold NREC_SLOTS. exact eq_refl. Qed.
Lemma pages_same (env env2 : rs_env) : nd_max_nodes (st_nd env2) = nd_max_nodes (st_nd env) -> NREC_PAGES env2 = NREC_PAGES env /\ NREC_SLOTS env2 = NREC_SLOTS env.
Proof. intros E. unfold NREC_SLOTS, NREC_PAGES. rewrite E. split; exact eq_refl. Qed.

#[local] Strategy opaque [NREC_PER_PAGE NREC_PAGES NREC_SLOTS NREC_PAGE_LEN NREC_SLOT_LEN nrec_empty].

(** What a new device has, every save keeps and every boot restores. *)
Record rec_inv (env : rs_env) (s : world * nrec) : Prop := {
  ri_ready : b_ready (wd_bulk s.1) = true;
  ri_crcs : length (nrec_crc s.2) = NREC_PAGES env;
  ri_synced : synced env (nrec_table env) s.1 (nrec_crc s.2);
  ri_slots : slot_ok env (nrec_slot s.2);
}.

Lemma rec_inv_first (env : rs_env) w t : b_ready (wd_bulk w) = true -> nrec_crc t = replicate (NREC_PAGES env) None ->
  nrec_slot t = replicate (NREC_SLOTS env) 0 -> rec_inv env (w, t).
Proof.
  intros Hb Hc Hs. assert (busy (replicate (NREC_SLOTS env) 0) = []) as Hbz by (clear Hs; induction (NREC_SLOTS env) as [|n IH]; [done | exact IH]).
  split; cbn [fst snd]; [done | by rewrite Hc, length_replicate | rewrite Hc; apply synced_none|]. rewrite Hs.
  split; [apply length_replicate | rewrite Hbz; constructor | rewrite Hbz; apply not_elem_of_nil].
Qed.

(** The hot store as the device keeps it. *)
Record hot_ok (env : rs_env) (db : nodedb) : Prop := {
  ho_wf : hot_wf (nd_self (st_nd env)) (nd_max_nodes (st_nd env)) (entries db);
  ho_num : Forall in_u32 (nums (entries db));
  ho_enc : forall e, e ∈ entries db -> exists b, mtrec_encode env e MTREC_BUF_LEN = Val b;
}.

Lemma nrec_persist_spec (env : rs_env) force w t w1 t1 :
  io_ok env -> (NREC_PAGES env <= 256)%nat -> hot_ok env (wd_db w) -> rec_inv env (w, t) -> nrec_persist env force (w, t) = (w1, t1) ->
  rec_inv env (w1, t1) /\ saved_from w w1 /\
  (nrec_loaded t = true -> meshtastic_lockdown_store_ready (wd_ld w) = true ->
   assigned env (wd_db w) (nrec_slot t1) /\
   (forall e, e ∈ entries (wd_db w) -> ni_num (en_node e) <> nd_self (st_nd env) -> ni_num (en_node e) ∈ busy (nrec_slot t1)) /\
   (forall p, (p < NREC_PAGES env)%nat -> is_Some (mjoin (nrec_crc t1 !! p)) ->
    crc_tells env (nrec_table env) (nrec_build_page_locked env (nrec_slot t1) (wd_db w)) w p ->
    page_held env (nrec_table env) (nrec_build_page_locked env (nrec_slot t1) (wd_db w)) w1 p)).
Proof.
  intros Hio Hp [Hwf Hnum Henc] Hri. pose proof Hri as [Hb Hc Hsy Hso]. cbn [fst snd] in *. unfold nrec_persist, nrec_active, meshtastic_bulk_ready. rewrite Hb. cbn [negb orb].
  destruct (nrec_loaded t) eqn:Hld; cbn [negb orb]; [|intros [= <- <-]; done].
  destruct (meshtastic_lockdown_store_ready (wd_ld w)) eqn:Hrd; cbn [negb]; [|intros [= <- <-]; done].
  set (slots := nrec_assign_slots_locked env (wd_db w) (nrec_slot t)). destruct (assign_slots_spec env (wd_db w) Hwf (slots_cover env) _ Hso) as (A1 & A2 & _). fold slots in A1, A2.
  destruct (persist_pages _ _ _ _ _ _) as [w' crc] eqn:Ep. intros [= <- <-].
  destruct (persist_pages_spec env (nrec_table env) (nrec_build_page_locked env slots (wd_db w)) Hio (nrec_table_ok _ Hp) (rec_build_ok _ _ _ Henc) (rec_build_used env (wd_db w) slots)
    force (NREC_PAGES env) w (nrec_crc t) w' crc (le_n _) Hb Hc Hsy Ep) as (S1 & Y1 & L1 & _ & H1). cbn [nrec_table tb_pages] in L1.
  split; [split; cbn [fst snd nrec_crc nrec_slot set_nrec_crc set_nrec_slot]; [rewrite (sf_ready _ _ S1); exact Hb | exact L1 | exact Y1 | exact (as_ok _ _ _ A1)]|].
  split; [exact S1|]. intros _ _. split; [exact A1|]. split; [exact A2 | exact H1].
Qed.

Lemma rec_load_synced (env0 env : rs_env) ps : io_ok env0 -> same_kit env0 env -> forall r out w t,
  synced env0 (nrec_table env0) w (nrec_crc t) -> length (nrec_crc t) = NREC_PAGES env0 ->
  let s := (nrec_load_pages env ps r out (w, t)).1.2 in
  synced env0 (nrec_table env0) s.1 (nrec_crc s.2) /\ length (nrec_crc s.2) = NREC_PAGES env0 /\ wd_ld s.1 = wd_ld w /\ wd_bulk s.1 = wd_bulk w.
Proof.
  intros Hio Hk. induction ps as [|p ps IH]; intros r out w t Hs Hl; cbn [nrec_load_pages]; [done|].
  assert (synced env0 (nrec_table env0) w (<[p := None]> (nrec_crc t))) as Hs1.
  { intros q c Hq Hc. apply Hs; [done|]. apply list_lookup_insert_Some in Hc as [(_ & [=] & _)|[_ Hc]]. done. }
  destruct (nrec_page_read env p w) as [page|e] eqn:Er.
  2: { destruct e; try (apply IH; cbn [nrec_crc set_nrec_crc]; [done | by rewrite length_insert]). cbn [fst snd nrec_crc set_nrec_crc]. by rewrite length_insert. }
  destruct (nrec_layout_ok page) eqn:Hlay; [|apply IH; cbn [nrec_crc set_nrec_crc]; [done | by rewrite length_insert]].
  assert (forall l a, let w' := (foldl (nrec_load_slot env p page) a l).1.1.1 in wd_ld w' = wd_ld a.1.1.1 /\ wd_bulk w' = wd_bulk a.1.1.1) as Hfr.
  { induction l as [|i l IHl]; intros a; [done|]. cbn [foldl]. specialize (IHl (nrec_load_slot env p page a i)). cbv zeta in IHl. destruct IHl as [-> ->].
    destruct a as [[[w0 o0] s0] r0]. unfold nrec_load_slot. destruct (_ || _); [done|]. destruct (mtrec_decode _ _); [|done]. unfold put_back. by destruct (mtrec_apply _ _ _ _). }
  specialize (Hfr (seq 0 NREC_PER_PAGE) (w, out, nrec_slot (set_nrec_crc (<[p:=None]> (nrec_crc t)) t), r)). cbv zeta in Hfr. destruct (foldl _ _ _) as [[[w1 o1] s1] r1]. cbn [fst] in Hfr. destruct Hfr as [El Eb].
  set (t1 := set_nrec_crc _ (set_nrec_slot s1 _)). specialize (IH r1 o1 w1 t1). cbv zeta in IH. rewrite El, Eb in IH. apply IH.
  - assert (forall q, page_at env0 (nrec_table env0) w1 q = page_at env0 (nrec_table env0) w q) as Hpa by (intros q; unfold page_at; by rewrite El, Eb).
    intros q c Hq Hc. unfold page_synced. rewrite Hpa. cbn [nrec_crc t1 set_nrec_crc set_nrec_slot] in Hc. destruct (decide (q = p)) as [->|Hne].
    + rewrite list_lookup_insert_eq in Hc by (rewrite length_insert; unfold nrec_table in Hq; cbn [tb_pages] in Hq; lia). simplify_eq. left. exists page. split; [|split].
      * rewrite <- (page_at_kit _ env) by done. exact Er.
      * unfold nrec_layout_ok, page_layout_ok in Hlay. bools. cbn [nrec_table tb_len]. lia.
      * by rewrite (kt_crc _ _ Hk).
    + rewrite list_lookup_insert_ne in Hc by done. by apply Hs1.
  - cbn [nrec_crc t1 set_nrec_crc set_nrec_slot]. by rewrite !length_insert.
Qed.

(** What identifies a node to its user and to the cipher: all but the fields of a hearing. *)
Definition identity (n : node_info) : Z * list Z * list Z * Z * Z * list Z * Z * option Z :=
  (ni_num n, ni_long_name n, ni_short_name n, ni_hw_model n, ni_role n, ni_public_key n, Z.clearbit (ni_bitfield n) VIA_MQTT_BIT,
   if ni_has_hops_away n then Some (ni_hops_away n) else None).

Lemma clearbit_twice z b : Z.clearbit (Z.clearbit z b) b = Z.clearbit z b.
Proof. apply Z.bits_inj. intros i. rewrite !Z.clearbit_eqb. by destruct (Z.testbit z i), (b =? i). Qed.

Lemma identity_normal n : identity (pb_normal n) = identity n.
Proof. unfold pb_normal, identity. destruct (ni_has_hops_away n) eqn:E; [by rewrite E|]. cbn. by rewrite E. Qed.

Lemma identity_durable env e : identity (durable_of env e) = identity (en_node e).
Proof.
  unfold durable_of, mtrec_durable_copy, write_bit, identity. cbn [ni_num ni_long_name ni_short_name ni_hw_model ni_role ni_public_key ni_bitfield ni_has_hops_away ni_hops_away
    set_ni_last_heard set_ni_snr_q4 set_ni_snr set_ni_bitfield set_ni_next_hop set_ni_channel]. by rewrite clearbit_twice.
Qed.

Lemma restored_identity env e : identity (en_node (restored_entry env (ni_num (en_node e)) e)) = identity (en_node e).
Proof.
  rewrite <- (identity_durable env e), <- (identity_normal (durable_of env e)). unfold restored_entry, restored_node. cbn [en_node]. cbv zeta.
  assert (ni_num (en_node e) = ni_num (pb_normal (durable_of env e))) as -> by (unfold pb_normal; by destruct (ni_has_hops_away _)).
  set (n := pb_normal (durable_of env e)). by destruct (has_bit HAS_SNR_BIT n).
Qed.

Lemma filter_perm {A} (f : A -> bool) l l' : l ≡ₚ l' -> List.filter f l ≡ₚ List.filter f l'.
Proof.
  induction 1 as [|x l l' _ IH|x y l|l1 l2 l3 _ IH1 _ IH2]; cbn [List.filter]; [done | | |by transitivity (List.filter f l2)].
  - destruct (f x); [by constructor | done].
  - destruct (f x), (f y); try done. constructor.
Qed.

(** A stored favourite or blocked node comes back as one, and no other does; so what a node
    stores, all of it or a part, leaves the reserve of a table of the same size. *)
Lemma restored_fields env e :
  ni_bitfield (restored_node env e) = ni_bitfield (durable_of env e) /\ ni_public_key (restored_node env e) = ni_public_key (durable_of env e).
Proof.
  unfold restored_node. cbv zeta. set (d := durable_of env e). clearbody d. unfold pb_normal.
  destruct (ni_has_hops_away d), (has_bit HAS_SNR_BIT _); done.
Qed.
Lemma restored_key env e : ni_public_key (restored_node env e) = ni_public_key (en_node e).
Proof. rewrite (proj2 (restored_fields env e)). done. Qed.
Lemma restored_bits env e : Z.clearbit (ni_bitfield (restored_node env e)) VIA_MQTT_BIT = Z.clearbit (ni_bitfield (en_node e)) VIA_MQTT_BIT.
Proof.
  rewrite (proj1 (restored_fields env e)). unfold durable_of, mtrec_durable_copy, write_bit.
  cbn [ni_bitfield set_ni_last_heard set_ni_snr_q4 set_ni_snr set_ni_bitfield set_ni_next_hop set_ni_channel]. apply clearbit_twice.
Qed.
Lemma restored_bit env e b : b <> VIA_MQTT_BIT -> has_bit b (restored_node env e) = has_bit b (en_node e).
Proof.
  intros Hb. unfold has_bit. pose proof (f_equal (fun z => Z.testbit z b) (restored_bits env e)) as Hc. cbv beta in Hc.
  by rewrite !Z.clearbit_neq in Hc by congruence.
Qed.
Lemma restored_protected env e : node_is_protected (restored_node env e) = protected e.
Proof. unfold protected, node_is_protected. by rewrite !restored_bit. Qed.
Lemma saved_stores_ok env self max ring db warm recs : nd_wf self max ring db -> warm_wf ring warm ->
  recs ⊆+ ((fun e => (ni_num (en_node e), restored_node env e)) <$> entries db) -> stores_ok max ring warm recs.
Proof.
  intros [Hh _] Hw Hsub. split; [done|].
  assert (forall l, protected_in ((fun e => (ni_num (en_node e), restored_node env e)) <$> l) = prot l) as Hp.
  { induction l as [|e l IH]; [done|]. unfold protected_in, prot in *. cbn. rewrite restored_protected. destruct (protected e); cbn; by rewrite IH. }
  split.
  - apply Forall_forall. intros r Hr. apply (elem_of_submseteq _ _ r Hr) in Hsub. apply list_elem_of_fmap in Hsub as (e & -> & He).
    cbn [snd]. rewrite restored_key. pose proof (hw_ok _ _ _ Hh) as Hok. rewrite Forall_forall in Hok. by apply Hok.
  - intros Hm. apply submseteq_Permutation in Hsub as [rest Hperm]. pose proof (hw_prot _ _ _ Hh Hm) as Hle. rewrite <- Hp in Hle.
    unfold protected_in in *. rewrite (Permutation_length (filter_perm _ _ _ Hperm)), List.filter_app, length_app in Hle. lia.
Qed.

(** The hot store is the node itself and the nodes that have a slot. *)
Lemma hot_is_busy env db slots : hot_ok env db -> assigned env db slots ->
  (forall e, e ∈ entries db -> ni_num (en_node e) <> nd_self (st_nd env) -> ni_num (en_node e) ∈ busy slots) ->
  nums (entries db) ≡ₚ nd_self (st_nd env) :: busy slots.
Proof.
  intros [Hwf _ _] [[_ Hnd Hs] Hh] Hall. apply NoDup_Permutation; [apply Hwf | by constructor|]. intros x. rewrite elem_of_cons. split.
  - intros (e & -> & He)%list_elem_of_fmap. destruct (decide (ni_num (en_node e) = nd_self (st_nd env))); [by left | right; auto].
  - intros [->|Hx]; [apply Hwf | by apply Hh].
Qed.

Lemma peers_busy env db slots : hot_ok env db -> assigned env db slots -> nums (entries db) ≡ₚ nd_self (st_nd env) :: busy slots ->
  nrec_hot_peer_count env db = Zlen (busy slots) /\ length (entries db) = S (length (busy slots)).
Proof.
  intros Hok [[_ _ Hs] _] Hp. split.
  - unfold nrec_hot_peer_count. f_equal. transitivity (length (List.filter (fun x => negb (x =? nd_self (st_nd env))) (nums (entries db)))).
    { clear. unfold nums. induction (entries db) as [|e l IH]; [done|]. cbn [List.filter fmap list_fmap]. destruct (_ =? _); cbn [negb length]; [exact IH | by f_equal]. }
    rewrite (Permutation_length (filter_perm _ _ _ Hp)). cbn [List.filter]. rewrite Z.eqb_refl. cbn [negb].
    clear Hp. f_equal. induction (busy slots) as [|x l IH]; [done|]. cbn [List.filter]. apply not_elem_of_cons in Hs as [Hx Hs]. rewrite (proj2 (Z.eqb_neq x _)) by congruence. cbn [negb]. f_equal. by apply IH.
  - apply Permutation_length in Hp. unfold nums in Hp. by rewrite length_fmap in Hp.
Qed.

Lemma busy_slots_u32 env db slots : hot_ok env db -> assigned env db slots -> Forall in_u32 slots.
Proof.
  intros [_ Hnum _] [_ Hhot]. apply Forall_forall. intros x Hx. destruct (decide (x = 0)) as [->|Hn]; [done|].
  rewrite Forall_forall in Hnum. apply Hnum, Hhot, busy_elem. done.
Qed.

(** Pages that hold the hot store restore it on a boot that knows the node itself only. *)
Lemma load_back env db slots : hot_ok env db -> assigned env db slots -> nums (entries db) ≡ₚ nd_self (st_nd env) :: busy slots ->
  forall (env2 : rs_env) db2 me, nd_self (st_nd env2) = nd_self (st_nd env) -> nd_max_nodes (st_nd env2) = nd_max_nodes (st_nd env) ->
  rs_snr_from_q4 env2 = rs_snr_from_q4 env -> entries db2 = [me] -> ni_num (en_node me) = nd_self (st_nd env) ->
  forall t w2, wd_db w2 = db2 ->
  (forall p, (p < NREC_PAGES env)%nat -> page_held env2 (nrec_table env) (nrec_build_page_locked env slots db) w2 p) ->
  exists t3, nrec_load env2 (w2, t) = (Val (Zlen (busy slots)), (set_wd_db (rec_filled env db slots db2 (NREC_SLOTS env)) w2, t3), []) /\
    nrec_loaded t3 = true /\ nrec_slot t3 = slots /\
    entry_of (nd_self (st_nd env)) (rec_filled env db slots db2 (NREC_SLOTS env)) = Some me /\
    length (entries (rec_filled env db slots db2 (NREC_SLOTS env))) = S (length (busy slots)) /\
    (forall e, e ∈ entries db -> ni_num (en_node e) ∈ busy slots ->
       entry_of (ni_num (en_node e)) (rec_filled env db slots db2 (NREC_SLOTS env)) = Some (restored_entry env (ni_num (en_node e)) e)).
Proof.
  intros Hok Has Hperm env2 db2 me Hs2 Hm2 Hq2 Een Eme t w2 <- Hh. pose proof Hok as [Hwf _ Henc]. pose proof Has as [[Hsl Hnd Hns] Hhot].
  assert (forall num, num ∈ busy slots -> num ∉ nums (entries (wd_db w2))) as Hnew by (rewrite Een; intros num Hb ->%list_elem_of_singleton; by rewrite Eme in Hb).
  pose proof (hw_nodup _ _ _ Hwf) as Hdb. pose proof (kept_count env db slots Hhot Hdb) as Hkc. destruct (peers_busy env db slots Hok Has Hperm) as [_ Hle].
  assert (length (entries (wd_db w2)) + length (omap (slot_entry db) slots) <= nd_max_nodes (st_nd env))%nat as Hfit.
  { rewrite Een. cbn [length]. pose proof (hw_len _ _ _ Hwf). lia. }
  destruct (rec_filled_all env db slots env2 (wd_db w2) Hm2 Hfit Hsl Hhot Hdb) as (Ef & Ek & Es).
  destruct (rec_load_pages_held env db slots Henc env2 (wd_db w2) Hs2 Hm2 Hq2 (busy_slots_u32 env db slots Hok Has) Hns Hnd Hnew Hfit (NREC_PAGES env) 0 w2 (set_nrec_slot (replicate (NREC_SLOTS env) 0) t) [])
    as (t3 & E & L3 & S3); [intros q Hq; apply Hh; lia | | |].
  - unfold rec_filled. rewrite Nat.mul_0_l, take_0, app_nil_r. by destruct (wd_db w2).
  - unfold slots_filled. rewrite Nat.mul_0_l, take_0, Nat.sub_0_r. cbn [nrec_slot set_nrec_slot fmap list_fmap app]. by rewrite Hsl.
  - rewrite Nat.mul_0_l, Nat.add_0_l in E. rewrite Nat.add_0_l in S3. rewrite slots_eq in E, S3. exists t3. split_and!.
    + unfold nrec_load. destruct (pages_same env env2 Hm2) as [-> ->].
      change (rec_kept db slots 0) with 0 in E. rewrite E, Ek, Hkc. reflexivity.
    + exact L3.
    + by rewrite S3, Es.
    + rewrite Ef. unfold entry_of, find_entry_locked. cbn [entries set_entries]. rewrite Een. cbn [app find_index]. unfold is_node at 1. rewrite Eme, Z.eqb_refl. done.
    + rewrite Ef. cbn [entries set_entries]. rewrite length_app, back_len, Een. cbn [length]. lia.
    + intros e He Hb. eapply (restored_back env db slots env2); try done. rewrite Een. apply NoDup_singleton.
Qed.

(** C19: The list of nodes survives a reboot. Once a save of the records has gone through, the
    next boot puts every peer of the hot store back: its names, model, role, key, flags and
    distance, when it was last heard as a time of day, and its signal rounded to quarter
    decibels; nobody else is there, the node itself stays, each peer keeps its slot, and the
    store is again in the state from which this holds. A new device is in that state and
    every save keeps it; pages are written only when their checksum changed, sealed or not. *)
Theorem node_records_survive (env : rs_env) w t force w1 t1 (env2 : rs_env) w2 t2 me :
  io_ok env -> (NREC_PAGES env <= 256)%nat -> rec_inv env (w, t) -> hot_ok env (wd_db w) ->
  nrec_loaded t = true -> meshtastic_lockdown_store_ready (wd_ld w) = true ->
  nrec_persist env force (w, t) = (w1, t1) ->
  (forall p, (p < NREC_PAGES env)%nat -> is_Some (mjoin (nrec_crc t1 !! p)) /\
     crc_tells env (nrec_table env) (nrec_build_page_locked env (nrec_slot t1) (wd_db w)) w p) ->
  same_kit env env2 -> nd_max_nodes (st_nd env2) = nd_max_nodes (st_nd env) -> rs_snr_from_q4 env2 = rs_snr_from_q4 env ->
  wd_bulk w2 = wd_bulk w1 -> same_lock (wd_ld w1) (wd_ld w2) -> entries (wd_db w2) = [me] -> ni_num (en_node me) = nd_self (st_nd env) ->
  nrec_crc t2 = replicate (NREC_PAGES env) None -> meta_migrated NREC_META_MAGIC (meta_read env2 NREC_META_ID w2) = true ->
  exists w3 t3, nrec_boot_restore env2 (w2, t2) = (Val (nrec_hot_peer_count env (wd_db w)), (w3, t3), []) /\
    entry_of (nd_self (st_nd env)) (wd_db w3) = Some me /\ length (entries (wd_db w3)) = length (entries (wd_db w)) /\
    (forall e, e ∈ entries (wd_db w) -> ni_num (en_node e) <> nd_self (st_nd env) ->
       exists e', entry_of (ni_num (en_node e)) (wd_db w3) = Some e' /\ e' = restored_entry env (ni_num (en_node e)) e /\
         identity (en_node e') = identity (en_node e)) /\
    nrec_slot t3 = nrec_slot t1 /\ nrec_loaded t3 = true /\ rec_inv env (w3, t3).
Proof.
  intros Hio Hpg Hri Hok Hld Hrd Ep Hall Hk Hmax Hq4 Eb El Een Eme Ecrc Hm.
  destruct (nrec_persist_spec env force w t w1 t1 Hio Hpg Hok Hri Ep) as (Hri1 & Hsf & Hrest). destruct (Hrest Hld Hrd) as (Has & Hpeers & Hheld). clear Hrest.
  pose proof (hot_is_busy env _ _ Hok Has Hpeers) as Hperm. destruct (peers_busy env _ _ Hok Has Hperm) as [Hcnt Hlen].
  pose proof Hok as [Hwf Hnum Henc]. pose proof Has as [[Hsl Hnd Hns] Hhot]. set (slots := nrec_slot t1) in *.
  destruct (load_back env (wd_db w) slots Hok Has Hperm env2 (wd_db w2) me (kt_self _ _ Hk) Hmax Hq4 Een Eme (set_nrec_loaded false t2) w2 eq_refl) as (t3 & E & L3 & S3 & F1 & F2 & F3).
  { intros p Hp. destruct (Hall p Hp) as [Ha Ht]. specialize (Hheld p Hp Ha Ht). unfold page_held in *. rewrite (page_at_kit env env2) by done.
    rewrite (page_at_frame env (nrec_table env) w1 w2) by (done || by rewrite Eb). done. }
  destruct (rec_load_synced env env2 (seq 0 (NREC_PAGES env2)) Hio Hk 0 [] w2 (set_nrec_slot (replicate (NREC_SLOTS env2) 0) (set_nrec_loaded false t2))) as (Y1 & Y2 & Y3 & Y4);
    [cbn [nrec_crc set_nrec_slot set_nrec_loaded]; rewrite Ecrc; apply synced_none | cbn [nrec_crc set_nrec_slot set_nrec_loaded]; by rewrite Ecrc, length_replicate|].
  change (nrec_load_pages env2 (seq 0 (NREC_PAGES env2)) 0 [] _) with (nrec_load env2 (w2, set_nrec_loaded false t2)) in Y1, Y2, Y3, Y4.
  rewrite E in Y1, Y2, Y3, Y4. cbn [fst snd] in Y1, Y2, Y3, Y4.
  unfold nrec_boot_restore. rewrite bool_decide_false, Hm by (intros EE; by rewrite EE in Hm). rewrite E. eexists _, (set_nrec_legacy_pending true t3). rewrite Hcnt. split; [reflexivity|].
  split; [exact F1|]. split; [exact (eq_trans F2 (eq_sym Hlen))|]. split; [|split; [exact S3 | split; [exact L3|]]].
  - intros e He Hne. exists (restored_entry env (ni_num (en_node e)) e). split; [apply F3; auto|]. split; [done | apply restored_identity].
  - split; cbn [fst snd nrec_crc nrec_slot set_nrec_legacy_pending wd_bulk set_wd_db]; [|exact Y2|exact Y1|rewrite S3; apply Has].
    rewrite Eb, (sf_ready _ _ Hsf). apply Hri.
Qed.

(** ** A locked device *)

(** The calls on the stores, of both tables. *)
Inductive store_call :=
  | CallKeysPersist (env : rs_env)          (* the delayed save, or the reset's *)
  | CallRecordsPersist (env : rs_env)
  | CallSave (env : rs_env)                 (* the save work item *)
  | CallSnapshot (env : rs_env)
  | CallRewrite (env : rs_env)              (* the hooks of a rewrite *)
  | CallExport (env : rs_env)               (* a save of both settings subtrees *)
  | CallReload (env : rs_env)
  | CallBoot (env : rs_env)
  | CallChange (db : nodedb).               (* what the node database does meanwhile *)

Definition tables : Type := world * wrec * nrec.
Definition tb_world (s : tables) : world := s.1.1.

Definition store_do (c : store_call) (s : tables) : tables :=
  let '(w, k, t) := s in
  match c with
  | CallKeysPersist env => let '(w, k, _) := nodekeys_do_persist env (w, k) in (w, k, t)
  | CallRecordsPersist env => let '(w, t) := mtrec_do_persist env (w, t) in (w, k, t)
  | CallSave env => let '(w, t) := mtrec_save_work_handler env (w, t) in (w, k, t)
  | CallSnapshot env => let '(w, t) := mtrec_snapshot_work_handler env (w, t) in (w, k, t)
  | CallRewrite env => let '(w, k) := wrec_rewrite_hook env (w, k) in let '(w, t) := nrec_rewrite_hook env (w, t) in (w, k, t)
  | CallExport env => ((mtrec_export env (nodekeys_export env w).2).2, k, t)
  | CallReload env => (meshtastic_nodedb_bulk_reload env s).1.2
  | CallBoot env => (restore_at_boot env s).1
  | CallChange db => (set_wd_db db w, k, t)
  end.
Definition store_run (cs : list store_call) (s : tables) : tables := foldl (fun s c => store_do c s) s cs.

(** The stores are as they were. *)
Definition same_stores (w w' : world) : Prop := wd_ld w' = wd_ld w /\ wd_bulk w' = wd_bulk w.

#[local] Instance same_stores_refl : Reflexive same_stores.
Proof. by intros w. Qed.
#[local] Instance same_stores_trans : Transitive same_stores.
Proof. intros w1 w2 w3 [A1 A2] [B1 B2]. split; congruence. Qed.

Lemma set_db_stores db w : same_stores w (set_wd_db db w).
Proof. done. Qed.

Lemma foldl_stores {A B} (f : A -> B -> A) (g : A -> world) l : (forall a b, same_stores (g a) (g (f a b))) -> forall a, same_stores (g a) (g (foldl f a l)).
Proof. intros Hf. induction l as [|b l IH]; intros a; [done|]. cbn [foldl]. transitivity (g (f a b)); [apply Hf | apply IH]. Qed.

Lemma put_back_stores env num n a : same_stores a.1 (put_back env num n a).1.
Proof. destruct a as [w o]. unfold put_back. by destruct (mtrec_apply _ _ _ _). Qed.

Lemma nodekeys_load_stores env k w : same_stores w (nodekeys_load env k w).
Proof.
  unfold nodekeys_load. apply (foldl_stores _ id). intros a [key v]. unfold id, nodekeys_set. destruct (_ && _); [done|]. destruct (_ && _); [done|].
  destruct (meshtastic_lockdown_read _ _ _ _ _); [|done]. destruct (negb _); [done|]. by destruct (parse_id key).
Qed.

Lemma mtrec_load_stores env t w : same_stores w (mtrec_load env t w).1.
Proof.
  unfold mtrec_load. apply (foldl_stores (mtrec_set env t) fst _). intros [w0 o0] [key v]. unfold mtrec_set. destruct (_ && _); [done|]. destruct (_ <? _)%nat; [done|].
  destruct (meshtastic_lockdown_read _ _ _ _ _) as [[|b buf]|]; [done| |done]. destruct (mtrec_decode _ _); [|done]. destruct (parse_id key); [|done].
  destruct (_ =? _); [done | apply (put_back_stores env _ _ (w0, o0))].
Qed.

Lemma wrec_load_stores env ps : forall c r s, same_stores s.1 (wrec_load_pages env ps c r s).2.1.
Proof.
  induction ps as [|p ps IH]; intros c r [w k]; [done|]. cbn [wrec_load_pages fst]. set (w1 := if c then w else _).
  assert (same_stores w w1) as Hw by (unfold w1; by destruct c).
  destruct (wrec_page_read env p w) as [page|e]; [|destruct e; try (etransitivity; [exact Hw | apply (IH _ _ (w1, _))]); done].
  destruct (wrec_layout_ok page); [|etransitivity; [exact Hw | apply (IH _ _ (w1, _))]]. destruct (foldl _ _ _) as [db r']. etransitivity; [|apply (IH _ _ (set_wd_db db w1, _))]. exact Hw.
Qed.

Lemma nrec_load_stores env ps : forall r o s, same_stores s.1 (nrec_load_pages env ps r o s).1.2.1.
Proof.
  induction ps as [|p ps IH]; intros r o [w t]; [done|]. cbn [nrec_load_pages fst].
  destruct (nrec_page_read env p w) as [page|e]; [|destruct e; try apply (IH _ _ (w, _)); done]. destruct (nrec_layout_ok page); [|apply (IH _ _ (w, _))].
  pose proof (foldl_stores (nrec_load_slot env p page) (fun a => a.1.1.1) (seq 0 NREC_PER_PAGE)) as Hf. set (a0 := (w, o, _, r)). specialize (fun H => Hf H a0). cbn beta in Hf.
  destruct (foldl _ _ _) as [[[w1 o1] s1] r1]. etransitivity; [|apply (IH _ _ (w1, _))]. apply Hf. clear. intros [[[w0 o0] s0] r0] i. unfold nrec_load_slot.
  destruct (_ || _); [done|]. destruct (mtrec_decode _ _); [|done]. pose proof (put_back_stores env (get_le32 0 (nrec_slot_at page i)) a (w0, o0)) as Hp. by destruct (put_back _ _ _ _).
Qed.

Section Locked.
Context (l0 : ld).
Hypothesis Hshut : shut l0.

Lemma shut_not_ready : meshtastic_lockdown_store_ready l0 = false.
Proof. destruct Hshut as (Hp & Hd & _). unfold meshtastic_lockdown_store_ready. by rewrite Hp, Hd. Qed.

Lemma shut_wrap env name v cap : meshtastic_lockdown_wrap_buf env name v cap l0 = (Fail EACCES, l0).
Proof. pose proof shut_not_ready as Hr. destruct Hshut as (Hp & Hd & Ho). unfold meshtastic_lockdown_wrap_buf. by rewrite Hp, Ho, Hr. Qed.

Lemma shut_meta env id magic w : wd_ld w = l0 -> same_stores w (meta_write env id magic w).2.
Proof.
  intros Hl. unfold meta_write, meshtastic_bulk_write. rewrite Hl, shut_wrap. destruct (_ <? id); [by destruct w; cbn in *; subst|].
  destruct (_ <? _)%nat; [by destruct w; cbn in *; subst|]. by destruct (negb _); destruct w; cbn in *; subst.
Qed.

Lemma shut_export env l : export_each env l l0 = (OK, l0) \/ export_each env l l0 = (ERR EACCES, l0).
Proof. destruct l as [|[n v] l]; [by left | right]. cbn [export_each]. unfold meshtastic_lockdown_export. by rewrite wrap_write_shut. Qed.

Lemma shut_wrec_persist env force s : wd_ld s.1 = l0 -> wrec_persist env force s = s.
Proof. destruct s as [w k]. intros Hl. cbn in Hl. unfold wrec_persist. by rewrite Hl, shut_not_ready, orb_true_r. Qed.
Lemma shut_nrec_persist env force s : wd_ld s.1 = l0 -> nrec_persist env force s = s.
Proof. destruct s as [w t]. intros Hl. cbn in Hl. unfold nrec_persist. by rewrite Hl, shut_not_ready, orb_true_r. Qed.
Lemma shut_keys_persist env s : wd_ld s.1 = l0 -> nodekeys_do_persist env s = (s, []).
Proof. destruct s as [w k]. intros Hl. cbn in Hl. unfold nodekeys_do_persist. by rewrite Hl, shut_not_ready. Qed.
Lemma shut_records_persist env s : wd_ld s.1 = l0 -> mtrec_do_persist env s = s.
Proof. destruct s as [w t]. intros Hl. cbn in Hl. unfold mtrec_do_persist. by rewrite Hl, shut_not_ready. Qed.

Lemma shut_wrec_boot env s : wd_ld s.1 = l0 -> same_stores s.1 (wrec_boot_restore env s).2.1.
Proof.
  destruct s as [w k]. cbn [fst]. intros Hl. unfold wrec_boot_restore. destruct (bool_decide _); [done|]. destruct (meta_migrated _ _).
  - unfold wrec_load. pose proof (wrec_load_stores env (seq 0 (WREC_PAGES (wd_db w))) false 0 (w, set_wrec_loaded false k)) as Hs. cbn [fst] in *. by destruct (wrec_load_pages _ _ _ _ _) as [r [w1 k1]].
  - pose proof (nodekeys_load_stores env (set_wrec_loaded false k) w) as H1. set (w1 := nodekeys_load _ _ _) in *. rewrite shut_wrec_persist by (cbn [fst]; by rewrite (proj1 H1)).
    unfold wrec_load. set (k1 := set_wrec_loaded true _). pose proof (wrec_load_stores env (seq 0 (WREC_PAGES (wd_db w1))) false 0 (w1, k1)) as H2. cbn [fst] in *.
    destruct (wrec_load_pages _ _ _ _ _) as [r [w2 k2]]. cbn [fst snd] in H2. assert (same_stores w w2) as H3 by by transitivity w1. destruct (bool_decide _); [|exact H3].
    pose proof (shut_meta env WREC_META_ID WREC_META_MAGIC w2 ltac:(by rewrite (proj1 H3))) as H4. destruct (meta_write _ _ _ _). cbn [fst snd] in *. by transitivity w2.
Qed.

Lemma shut_nrec_boot env s : wd_ld s.1 = l0 -> same_stores s.1 (nrec_boot_restore env s).1.2.1.
Proof.
  destruct s as [w t]. cbn [fst]. intros Hl. unfold nrec_boot_restore. destruct (bool_decide _); [done|]. destruct (meta_migrated _ _).
  - unfold nrec_load. set (t1 := set_nrec_slot _ _). pose proof (nrec_load_stores env (seq 0 (NREC_PAGES env)) 0 [] (w, t1)) as Hs. cbn [fst] in *. by destruct (nrec_load_pages _ _ _ _ _) as [[r [w1 t2]] o].
  - pose proof (mtrec_load_stores env (set_nrec_loaded false t) w) as H1. destruct (mtrec_load _ _ _) as [w1 o1]. cbn [fst] in H1. rewrite shut_nrec_persist by (cbn [fst]; by rewrite (proj1 H1)).
    unfold nrec_load. set (t1 := set_nrec_slot _ _). pose proof (nrec_load_stores env (seq 0 (NREC_PAGES env)) 0 [] (w1, t1)) as H2. cbn [fst] in *.
    destruct (nrec_load_pages _ _ _ _ _) as [[r [w2 t2]] o2]. cbn [fst snd] in H2. assert (same_stores w w2) as H3 by by transitivity w1. destruct (bool_decide _); [|exact H3].
    pose proof (shut_meta env NREC_META_ID NREC_META_MAGIC w2 ltac:(by rewrite (proj1 H3))) as H4. destruct (meta_write _ _ _ _). cbn [fst snd] in *. by transitivity w2.
Qed.

Lemma shut_call c s : wd_ld (tb_world s) = l0 -> same_stores (tb_world s) (tb_world (store_do c s)).
Proof.
  destruct s as [[w k] t]. unfold tb_world. cbn [fst]. intros Hl. destruct c as [env|env|env|env|env|env|env|env|db]; cbn [store_do].
  - by rewrite shut_keys_persist.
  - by rewrite shut_records_persist.
  - unfold mtrec_save_work_handler. by rewrite shut_records_persist.
  - unfold mtrec_snapshot_work_handler. by rewrite shut_records_persist.
  - unfold wrec_rewrite_hook, nrec_rewrite_hook. rewrite shut_wrec_persist by done. by rewrite shut_nrec_persist.
  - cbn [fst]. assert (forall w0, wd_ld w0 = l0 -> same_stores w0 (nodekeys_export env w0).2) as Hk.
    { intros w0 E. unfold nodekeys_export. destruct (wrec_active w0); [done|]. rewrite E. destruct (shut_export (st_lock env) ((fun k => (id_name MTNODE_SUBTREE (wk_num k), mtnode_record k)) <$> List.filter (fun k => negb (warm_skipped env k)) (warm_keys (wd_db w0)))) as [-> | ->]; by rewrite <- E. }
    etransitivity; [by apply Hk|]. set (w1 := (nodekeys_export env w).2). assert (wd_ld w1 = l0) as E by (rewrite <- Hl; apply Hk, Hl).
    unfold mtrec_export. destruct (nrec_active w1); [done|]. rewrite E. match goal with |- context [export_each _ ?recs l0] => destruct (shut_export (st_lock env) recs) as [-> | ->] end; by rewrite <- E.
  - unfold meshtastic_nodedb_bulk_reload. destruct (negb _); [done|]. pose proof (shut_wrec_boot env (w, k) Hl) as H1. destruct (wrec_boot_restore _ _) as [r [w1 k1]]. cbn [fst snd] in H1.
    pose proof (shut_nrec_boot env (w1, t) ltac:(cbn [fst]; by rewrite (proj1 H1))) as H2. destruct (nrec_boot_restore _ _) as [[r2 [w2 t2]] o]. cbn [fst snd] in *. by transitivity w1.
  - unfold restore_at_boot. destruct (if wrec_active w then (wrec_boot_restore env (w, k)).2 else (nodekeys_load env k w, k)) as [w1 k1] eqn:E1.
    assert (same_stores w w1) as H1.
    { destruct (wrec_active w); [|injection E1 as <- _; apply nodekeys_load_stores]. pose proof (shut_wrec_boot env (w, k) Hl) as Hs. by rewrite E1 in Hs. }
    destruct (nrec_active w1).
    + pose proof (shut_nrec_boot env (w1, t) ltac:(cbn [fst]; by rewrite (proj1 H1))) as H2. destruct (nrec_boot_restore _ _) as [[r2 [w2 t2]] o]. cbn [fst snd] in *. by transitivity w1.
    + pose proof (mtrec_load_stores env t w1) as H2. destruct (mtrec_load _ _ _) as [w2 o]. cbn [fst snd] in *. by transitivity w1.
  - done.
Qed.
End Locked.

(** A locked device loses nothing. However long a device runs locked, with whatever is
    in memory in place of the records it could not open, and whatever saves, snapshots,
    resets, reloads, rewrites and boots run, neither store of the node database is written
    or pruned. *)
Theorem locked_store_untouched cs s : shut (wd_ld (tb_world s)) ->
  flash (wd_ld (tb_world (store_run cs s))) = flash (wd_ld (tb_world s)) /\
  b_nvs (wd_bulk (tb_world (store_run cs s))) = b_nvs (wd_bulk (tb_world s)).
Proof.
  intros Hs. assert (same_stores (tb_world s) (tb_world (store_run cs s))) as [-> ->]; [|done].
  revert s Hs. induction cs as [|c cs IH]; intros s Hs; [done|]. pose proof (shut_call _ Hs c s eq_refl) as H1.
  etransitivity; [exact H1|]. apply (IH (store_do c s)). by rewrite (proj1 H1).
Qed.
End RecordStore.

(** ** Examples *)

Section Samples.
#[local] Existing Instance toy_crypto.

(** A codec that lists the fields, the lengths of the strings, and the strings. *)
Definition list_encode (cap : nat) (n : node_info) : option (list Z) :=
  let b := [ni_num n; ni_hw_model n; ni_role n; ni_bitfield n; ni_last_heard n; ni_snr n; ni_snr_q4 n; ni_channel n; ni_next_hop n;
            if ni_has_hops_away n then 1 else 0; if ni_has_hops_away n then ni_hops_away n else 0;
            Zlen (ni_long_name n); Zlen (ni_short_name n)] ++ ni_long_name n ++ ni_short_name n ++ ni_public_key n in
  if (length b <=? cap)%nat then Some b else None.

Definition list_decode (b : list Z) : option node_info :=
  match b with
  | num :: hw :: role :: bf :: lh :: snr :: q4 :: ch :: nh :: hash :: hops :: ll :: ls :: r =>
      Some (NodeInfoLite num (take (Z.to_nat ll) r) (take (Z.to_nat ls) (drop (Z.to_nat ll) r)) hw role (drop (Z.to_nat ls) (drop (Z.to_nat ll) r))
              bf lh snr q4 ch nh (hash =? 1) hops)
  | _ => None
  end.

Lemma list_decode_encode cap n b : list_encode cap n = Some b -> list_decode b = Some (pb_normal n).
Proof.
  unfold list_encode. cbv zeta. destruct (_ <=? cap)%nat; [|done]. intros E. apply (inj Some) in E. subst b. cbn [app list_decode].
  rewrite !Nat2Z.id, take_app_length, !drop_app_length, take_app_length. unfold pb_normal. by destruct n as [? ? ? ? ? ? ? ? ? ? ? ? [] ?].
Qed.

#[local] Program Instance list_codec : NodeCodec :=
  {| NodeInfoLite_size := 120; pb_encode := list_encode; pb_torn := fun _ _ => []; pb_decode := list_decode |}.
Next Obligation. apply list_decode_encode. Qed.
Next Obligation. unfold list_encode. intros cap n b. cbv zeta. destruct (_ <=? cap)%nat eqn:E; [|done]. intros [= <-]. by apply Nat.leb_le. Qed.
Next Obligation. intros. apply Nat.le_0_l. Qed.
Next Obligation. apply Nat.leb_le. done. Qed.

Definition rs_good : rs_env := RsEnv good_env (fun snr => 4 * snr) (fun q => q / 4) 2000 60 300.
Definition me_entry : nodedb_entry := NodeEntry (set_ni_num 1 node_zero) 0 None 0.
Definition peer_entry : nodedb_entry :=
  NodeEntry (NodeInfoLite 7 [65; 66] [67] 9 2 (replicate 32 5) 1064 50 6 0 3 4 true 2) 0 None 1.
Definition hot_two : nodedb := set_entries [me_entry; peer_entry] (nodedb_zero 4).

(** A new device: the import record is written on its first boot. *)
Definition rec_world : world := World blank fresh_bulk (set_entries [me_entry] (nodedb_zero 4)).
Definition nrec_zero : nrec := Nrec (replicate (NREC_SLOTS rs_good) 0) (replicate (NREC_PAGES rs_good) None) false false 0 false None None.
Definition rec_set_up : world := (nrec_boot_restore rs_good (rec_world, nrec_zero)).1.2.1.
Definition with_peer : world := set_wd_db hot_two rec_set_up.
Definition rec_saved : world * nrec := nrec_persist rs_good false (with_peer, set_nrec_loaded true nrec_zero).
Definition boot_alone (w : world) : world := set_wd_db (set_entries [me_entry] (nodedb_zero 4)) w.

Lemma boot_alone_stores w : wd_bulk (boot_alone w) = wd_bulk w /\ same_lock (wd_ld w) (wd_ld (boot_alone w)) /\ entries (wd_db (boot_alone w)) = [me_entry].
Proof. done. Qed.

Definition rec_build (p : nat) : list Z * nat := nrec_build_page_locked rs_good (nrec_slot rec_saved.2) (wd_db with_peer) p.
Lemma rec_facts :
  b_ready (wd_bulk with_peer) = true /\ NREC_PAGES rs_good = 1%nat /\ meshtastic_lockdown_store_ready (wd_ld with_peer) = true /\
  nrec_crc rec_saved.2 = [Some (sum_crc (rec_build 0).1)] /\
  meta_migrated NREC_META_MAGIC (meta_read rs_good NREC_META_ID (boot_alone rec_saved.1)) = true /\
  page_at rs_good (nrec_table rs_good) with_peer 0 = Fail ENOENT /\ sum_crc nrec_empty <> sum_crc (rec_build 0).1.
Proof. split_and!; vm_compute; done. Qed.

Lemma hot_two_ok : hot_ok rs_good hot_two.
Proof.
  split.
  - split; [apply (bool_decide_unpack (NoDup [1; 7])); vm_compute; exact I | by left | repeat constructor; cbn; lia | cbn; lia | vm_compute; lia].
  - repeat constructor; cbn; unfold UINT32_MAX; lia.
  - intros e [->|[->|[]%elem_of_nil]%elem_of_cons]%elem_of_cons; eexists; vm_compute; reflexivity.
Qed.

Lemma rec_crc_tells : crc_tells rs_good (nrec_table rs_good) rec_build with_peer 0.
Proof.
  destruct rec_facts as (_ & _ & _ & _ & _ & E & C). intros pg Hpg Hc. change (be_crc32 (st_bulk rs_good)) with sum_crc in Hc.
  change (tb_empty (nrec_table rs_good)) with nrec_empty in Hpg. destruct Hpg as [E'|[_ ->]]; congruence.
Qed.

Lemma node_records_survive_witness :
  exists w3 t3 e', nrec_boot_restore rs_good (boot_alone rec_saved.1, nrec_zero) = (Val 1, (w3, t3), []) /\
    entry_of 7 (wd_db w3) = Some e' /\ identity (en_node e') = identity (en_node peer_entry) /\ rec_inv rs_good (w3, t3).
Proof.
  destruct rec_facts as (F1 & F2 & F3 & F4 & F5 & _ & _). destruct (boot_alone_stores rec_saved.1) as (B1 & B2 & B3).
  destruct (node_records_survive rs_good with_peer (set_nrec_loaded true nrec_zero) false rec_saved.1 rec_saved.2 rs_good (boot_alone rec_saved.1) nrec_zero me_entry)
    as (w3 & t3 & E & _ & _ & Hp & _ & _ & Hi).
  - exact good_env_io.
  - rewrite F2. apply Nat.leb_le. reflexivity.
  - exact (rec_inv_first rs_good with_peer (set_nrec_loaded true nrec_zero) F1 eq_refl eq_refl).
  - exact hot_two_ok.
  - reflexivity.
  - exact F3.
  - exact (surjective_pairing rec_saved).
  - rewrite F2, F4. intros p Hp. assert (p = 0%nat) as -> by lia. exact (conj (ex_intro _ _ eq_refl) rec_crc_tells).
  - exact good_env_kit.
  - reflexivity.
  - reflexivity.
  - exact B1.
  - exact B2.
  - exact B3.
  - reflexivity.
  - reflexivity.
  - exact F5.
  - destruct (Hp peer_entry) as (e' & E1 & _ & E2); [right; left | done|]. exists w3, t3, e'. split; [exact E|]. split; [exact E1|]. split; [exact E2 | exact Hi].
Defined.

(** A locked device on which everything that saves is run. *)
Definition locked_tables : tables := (World locked_now (wd_bulk rec_saved.1) hot_two, wrec_zero, set_nrec_loaded true nrec_zero).
Definition all_calls : list store_call :=
  [CallBoot rs_good; CallChange (set_entries [me_entry] (nodedb_zero 4)); CallKeysPersist rs_good; CallRecordsPersist rs_good; CallSave rs_good; CallSnapshot rs_good;
   CallRewrite rs_good; CallExport rs_good; CallReload rs_good].

Lemma locked_store_untouched_witness : shut (wd_ld (tb_world locked_tables)) /\
  b_nvs (wd_bulk (tb_world (store_run all_calls locked_tables))) = b_nvs (wd_bulk (tb_world locked_tables)).
Proof.
  assert (shut (wd_ld (tb_world locked_tables))) as Hs by (vm_compute; done). exact (conj Hs (proj2 (locked_store_untouched all_calls locked_tables Hs))).
Defined.
End Samples.
