(* ===== verification/Regions.v ===== *)
(** * Regions, presets and the frequency plan (src/src/meshtastic_region_presets.c, .h)

    The tables of modem presets and regions and what is computed from them: the map a phone
    gets, a preset's modem parameters and display name, and the frequency a region, a preset
    and a channel name stand for. Region and preset codes are the numbers of the protocol's
    enums, and any number may be asked about. A string is its bytes; a duty cycle is in
    tenths of a percent. *)
From S2P Require Import Prelude.
Open Scope Z_scope.

Definition R_UNSET : Z := 0.
Definition R_US : Z := 1.
Definition R_EU_433 : Z := 2.
Definition R_EU_868 : Z := 3.
Definition R_CN : Z := 4.
Definition R_JP : Z := 5.
Definition R_ANZ : Z := 6.
Definition R_KR : Z := 7.
Definition R_TW : Z := 8.
Definition R_RU : Z := 9.
Definition R_IN : Z := 10.
Definition R_NZ_865 : Z := 11.
Definition R_TH : Z := 12.
Definition R_LORA_24 : Z := 13.
Definition R_UA_433 : Z := 14.
Definition R_UA_868 : Z := 15.
Definition R_MY_433 : Z := 16.
Definition R_MY_919 : Z := 17.
Definition R_SG_923 : Z := 18.
Definition R_PH_433 : Z := 19.
Definition R_PH_868 : Z := 20.
Definition R_PH_915 : Z := 21.
Definition R_ANZ_433 : Z := 22.
Definition R_KZ_433 : Z := 23.
Definition R_KZ_863 : Z := 24.
Definition R_NP_865 : Z := 25.
Definition R_BR_902 : Z := 26.
Definition R_ITU1_2M : Z := 27.
Definition R_ITU2_2M : Z := 28.
Definition R_EU_866 : Z := 29.
Definition R_EU_874 : Z := 30.
Definition R_EU_917 : Z := 31.
Definition R_EU_N_868 : Z := 32.
Definition R_ITU3_2M : Z := 33.
Definition R_ITU1_70CM : Z := 34.
Definition R_ITU2_70CM : Z := 35.
Definition R_ITU3_70CM : Z := 36.
Definition R_ITU2_125CM : Z := 37.

Definition P_LONG_FAST : Z := 0.
Definition P_LONG_SLOW : Z := 1.
Definition P_VERY_LONG_SLOW : Z := 2.
Definition P_MEDIUM_SLOW : Z := 3.
Definition P_MEDIUM_FAST : Z := 4.
Definition P_SHORT_SLOW : Z := 5.
Definition P_SHORT_FAST : Z := 6.
Definition P_LONG_MODERATE : Z := 7.
Definition P_SHORT_TURBO : Z := 8.
Definition P_LONG_TURBO : Z := 9.
Definition P_LITE_FAST : Z := 10.
Definition P_LITE_SLOW : Z := 11.
Definition P_NARROW_FAST : Z := 12.
Definition P_NARROW_SLOW : Z := 13.
Definition P_TINY_FAST : Z := 14.
Definition P_TINY_SLOW : Z := 15.
Definition P_MEDIUM_TURBO : Z := 16.
Definition PRESET_MAX : Z := P_MEDIUM_TURBO.

(** ** The preset map *)

Definition PRESETS_STD : list Z :=
  [P_LONG_FAST; P_LONG_SLOW; P_MEDIUM_SLOW; P_MEDIUM_FAST; P_SHORT_SLOW; P_SHORT_FAST; P_LONG_MODERATE; P_SHORT_TURBO; P_LONG_TURBO; P_MEDIUM_TURBO].
Definition PRESETS_EU_868 : list Z :=
  [P_LONG_FAST; P_LONG_SLOW; P_MEDIUM_SLOW; P_MEDIUM_FAST; P_SHORT_SLOW; P_SHORT_FAST; P_LONG_MODERATE].
Definition PRESETS_UNDEF : list Z :=
  [P_LONG_FAST].
Definition PRESETS_LITE : list Z :=
  [P_LITE_FAST; P_LITE_SLOW].
Definition PRESETS_NARROW : list Z :=
  [P_NARROW_FAST; P_NARROW_SLOW].
Definition PRESETS_TINY : list Z :=
  [P_TINY_FAST; P_TINY_SLOW].

Record region_profile := RegionProfile {
  rp_presets : list Z; rp_licensed_only : bool; rp_spacing_hz : Z; rp_padding_hz : Z;
}.
Inductive profile_id := PROFILE_STD | PROFILE_EU868 | PROFILE_UNDEF | PROFILE_LITE | PROFILE_NARROW
  | PROFILE_HAM_20KHZ | PROFILE_HAM_100KHZ.
#[export] Instance profile_id_eq_dec : EqDecision profile_id.
Proof. solve_decision. Defined.
Definition profiles (i : profile_id) : region_profile :=
  match i with
  | PROFILE_STD => RegionProfile PRESETS_STD false 0 0
  | PROFILE_EU868 => RegionProfile PRESETS_EU_868 false 0 0
  | PROFILE_UNDEF => RegionProfile PRESETS_UNDEF true 0 0
  | PROFILE_LITE => RegionProfile PRESETS_LITE false 400000 37500
  | PROFILE_NARROW => RegionProfile PRESETS_NARROW false 0 10400
  | PROFILE_HAM_20KHZ => RegionProfile PRESETS_TINY true 0 2200
  | PROFILE_HAM_100KHZ => RegionProfile PRESETS_NARROW true 0 18750
  end.

Record region_row := RegionRow { rr_region : Z; rr_profile : profile_id; rr_default_preset : Z }.
Definition regions : list region_row := [
  RegionRow R_US PROFILE_STD P_LONG_FAST;
  RegionRow R_EU_433 PROFILE_STD P_LONG_FAST;
  RegionRow R_EU_868 PROFILE_EU868 P_LONG_FAST;
  RegionRow R_EU_866 PROFILE_LITE P_LITE_FAST;
  RegionRow R_EU_N_868 PROFILE_NARROW P_NARROW_SLOW;
  RegionRow R_CN PROFILE_STD P_LONG_FAST;
  RegionRow R_JP PROFILE_STD P_LONG_FAST;
  RegionRow R_ANZ PROFILE_STD P_LONG_FAST;
  RegionRow R_ANZ_433 PROFILE_STD P_LONG_FAST;
  RegionRow R_RU PROFILE_STD P_LONG_FAST;
  RegionRow R_KR PROFILE_STD P_LONG_FAST;
  RegionRow R_TW PROFILE_STD P_LONG_FAST;
  RegionRow R_IN PROFILE_STD P_LONG_FAST;
  RegionRow R_NZ_865 PROFILE_STD P_LONG_FAST;
  RegionRow R_TH PROFILE_STD P_LONG_FAST;
  RegionRow R_UA_433 PROFILE_STD P_LONG_FAST;
  RegionRow R_UA_868 PROFILE_STD P_LONG_FAST;
  RegionRow R_MY_433 PROFILE_STD P_LONG_FAST;
  RegionRow R_MY_919 PROFILE_STD P_LONG_FAST;
  RegionRow R_SG_923 PROFILE_STD P_LONG_FAST;
  RegionRow R_PH_433 PROFILE_STD P_LONG_FAST;
  RegionRow R_PH_868 PROFILE_STD P_LONG_FAST;
  RegionRow R_PH_915 PROFILE_STD P_LONG_FAST;
  RegionRow R_KZ_433 PROFILE_STD P_LONG_FAST;
  RegionRow R_KZ_863 PROFILE_STD P_LONG_FAST;
  RegionRow R_NP_865 PROFILE_STD P_LONG_FAST;
  RegionRow R_BR_902 PROFILE_STD P_LONG_FAST;
  RegionRow R_ITU1_2M PROFILE_HAM_20KHZ P_TINY_FAST;
  RegionRow R_ITU2_2M PROFILE_HAM_20KHZ P_TINY_FAST;
  RegionRow R_ITU3_2M PROFILE_HAM_20KHZ P_TINY_FAST;
  RegionRow R_ITU2_125CM PROFILE_HAM_100KHZ P_NARROW_SLOW;
  RegionRow R_ITU1_70CM PROFILE_HAM_100KHZ P_NARROW_SLOW;
  RegionRow R_ITU2_70CM PROFILE_HAM_100KHZ P_NARROW_SLOW;
  RegionRow R_ITU3_70CM PROFILE_HAM_100KHZ P_NARROW_SLOW;
  RegionRow R_LORA_24 PROFILE_STD P_LONG_FAST;
  RegionRow R_UNSET PROFILE_UNDEF P_LONG_FAST].

Record preset_group := PresetGroup { pg_presets : list Z; pg_default_preset : Z; pg_licensed_only : bool }.
#[export] Instance preset_group_eq_dec : EqDecision preset_group.
Proof. solve_decision. Defined.
Record region_map := RegionMap { rm_groups : list preset_group; rm_region_groups : list (Z * nat) }.

(** The capacities of the message's arrays. *)
Definition MAX_GROUPS : nat := 8.
Definition MAX_REGIONS : nat := 38.
Definition MAX_PRESETS : nat := 11.

(** [gp] is the code's [group_profile]. The loop breaks when the regions are full and goes
    on without a region whose group does not fit. *)
Fixpoint build_rows (rows : list region_row) (gp : list profile_id) (map : region_map) : region_map :=
  match rows with
  | [] => map
  | r :: rest =>
      if (MAX_REGIONS <=? length (rm_region_groups map))%nat then map
      else
        let add gi := fun m => RegionMap (rm_groups m) (rm_region_groups m ++ [(rr_region r, gi)]) in
        match find_index (fun g => bool_decide (g.1 = rr_profile r) && (pg_default_preset g.2 =? rr_default_preset r))
                (zip gp (rm_groups map)) with
        | Some gi => build_rows rest gp (add gi map)
        | None =>
            if (MAX_GROUPS <=? length (rm_groups map))%nat then build_rows rest gp map
            else
              let p := profiles (rr_profile r) in
              let grp := PresetGroup (take MAX_PRESETS (rp_presets p)) (rr_default_preset r) (rp_licensed_only p) in
              build_rows rest (gp ++ [rr_profile r])
                (add (length (rm_groups map)) (RegionMap (rm_groups map ++ [grp]) (rm_region_groups map)))
        end
  end.
Definition meshtastic_build_region_preset_map : region_map := build_rows regions [] (RegionMap [] []).

(** ** Modem parameters *)

Record preset_params_row := PresetParams {
  pp_preset : Z; pp_bw_narrow_hz : Z; pp_bw_wide_hz : Z; pp_spread_factor : Z; pp_coding_rate : Z;
}.
Definition preset_params : list preset_params_row := [
  PresetParams P_SHORT_TURBO 500000 1625000 7 5;
  PresetParams P_SHORT_FAST 250000 812500 7 5;
  PresetParams P_SHORT_SLOW 250000 812500 8 5;
  PresetParams P_MEDIUM_FAST 250000 812500 9 5;
  PresetParams P_MEDIUM_SLOW 250000 812500 10 5;
  PresetParams P_MEDIUM_TURBO 500000 1625000 9 5;
  PresetParams P_LONG_TURBO 500000 1625000 11 8;
  PresetParams P_LONG_MODERATE 125000 406250 11 8;
  PresetParams P_LONG_SLOW 125000 406250 12 8;
  PresetParams P_LITE_FAST 125000 125000 9 5;
  PresetParams P_LITE_SLOW 125000 125000 10 5;
  PresetParams P_NARROW_FAST 62500 62500 7 6;
  PresetParams P_NARROW_SLOW 62500 62500 8 6;
  PresetParams P_TINY_FAST 15600 15600 7 5;
  PresetParams P_TINY_SLOW 15600 15600 8 6].
Definition preset_params_default : preset_params_row := PresetParams P_LONG_FAST 250000 812500 11 5.

Record modem_params := ModemParams { mp_bandwidth_hz : Z; mp_spread_factor : Z; mp_coding_rate : Z }.
Definition params_of (wide_lora : bool) (row : preset_params_row) : modem_params :=
  ModemParams (if wide_lora then pp_bw_wide_hz row else pp_bw_narrow_hz row) (pp_spread_factor row) (pp_coding_rate row).
Definition meshtastic_preset_to_params (preset : Z) (wide_lora : bool) : modem_params :=
  params_of wide_lora (default preset_params_default (List.find (fun row => pp_preset row =? preset) preset_params)).

(** ** Names and their hash *)

Definition meshtastic_djb2_hash (s : option (list Z)) : Z :=
  match s with
  | None => 5381
  | Some s => foldl (fun hash c => u32 (u32 (u32 (Z.shiftl hash 5) + hash) + c)) 5381 s
  end.

Definition bytes_of_string (s : string) : list Z :=
  (fun a => Z.of_nat (Ascii.nat_of_ascii a)) <$> String.list_ascii_of_string s.
Definition meshtastic_preset_display_name (preset : Z) (use_preset : bool) : list Z :=
  let eqp (p : Z) : bool := preset =? p in
  bytes_of_string (
    if negb use_preset then "Custom"
    else if eqp P_SHORT_TURBO then "ShortTurbo"
    else if eqp P_SHORT_FAST then "ShortFast"
    else if eqp P_SHORT_SLOW then "ShortSlow"
    else if eqp P_MEDIUM_FAST then "MediumFast"
    else if eqp P_MEDIUM_SLOW then "MediumSlow"
    else if eqp P_MEDIUM_TURBO then "MediumTurbo"
    else if eqp P_LONG_FAST then "LongFast"
    else if eqp P_LONG_SLOW then "LongSlow"
    else if eqp P_LONG_MODERATE then "LongMod"
    else if eqp P_LONG_TURBO then "LongTurbo"
    else if eqp P_LITE_FAST then "LiteFast"
    else if eqp P_LITE_SLOW then "LiteSlow"
    else if eqp P_NARROW_FAST then "NarrowFast"
    else if eqp P_NARROW_SLOW then "NarrowSlow"
    else if eqp P_TINY_FAST then "TinyFast"
    else if eqp P_TINY_SLOW then "TinySlow"
    else "Invalid")%string.

(** ** The frequency plan *)

Definition OVERRIDE_SLOT_PRESET_HASH : Z := -1.
Record region_freq := RegionFreq {
  rf_region : Z; rf_start_hz : Z; rf_end_hz : Z; rf_duty_tenths : Z; rf_power_limit_dbm : Z;
  rf_override_slot : Z; rf_wide_lora : bool;
}.
Definition region_freqs : list region_freq := [
  RegionFreq R_US 902000000 928000000 1000 30 0 false;
  RegionFreq R_EU_433 433000000 434000000 100 10 0 false;
  RegionFreq R_EU_868 869400000 869650000 100 27 0 false;
  RegionFreq R_EU_866 865600000 867600000 25 27 0 false;
  RegionFreq R_EU_N_868 869400000 869650000 100 27 1 false;
  RegionFreq R_CN 470000000 510000000 1000 19 0 false;
  RegionFreq R_JP 920500000 923500000 1000 13 0 false;
  RegionFreq R_ANZ 915000000 928000000 1000 30 0 false;
  RegionFreq R_ANZ_433 433050000 434790000 1000 14 0 false;
  RegionFreq R_RU 868700000 869200000 1000 20 0 false;
  RegionFreq R_KR 920000000 923000000 1000 23 0 false;
  RegionFreq R_TW 920000000 925000000 1000 27 0 false;
  RegionFreq R_IN 865000000 867000000 1000 30 0 false;
  RegionFreq R_NZ_865 864000000 868000000 1000 36 0 false;
  RegionFreq R_TH 920000000 925000000 100 27 0 false;
  RegionFreq R_UA_433 433000000 434700000 100 10 0 false;
  RegionFreq R_MY_433 433000000 435000000 1000 20 0 false;
  RegionFreq R_MY_919 919000000 924000000 1000 27 0 false;
  RegionFreq R_SG_923 917000000 925000000 1000 20 0 false;
  RegionFreq R_PH_433 433000000 434700000 1000 10 0 false;
  RegionFreq R_PH_868 868000000 869400000 1000 14 0 false;
  RegionFreq R_PH_915 915000000 918000000 1000 24 0 false;
  RegionFreq R_KZ_433 433075000 434775000 1000 10 0 false;
  RegionFreq R_KZ_863 863000000 868000000 1000 30 0 false;
  RegionFreq R_NP_865 865000000 868000000 1000 30 0 false;
  RegionFreq R_BR_902 902000000 907500000 1000 30 0 false;
  RegionFreq R_ITU1_2M 144000000 146000000 1000 30 26 false;
  RegionFreq R_ITU2_2M 144000000 148000000 1000 30 51 false;
  RegionFreq R_ITU3_2M 144000000 148000000 1000 30 33 false;
  RegionFreq R_ITU2_125CM 220000000 225000000 1000 30 37 false;
  RegionFreq R_ITU1_70CM 430000000 440000000 1000 30 37 false;
  RegionFreq R_ITU2_70CM 420000000 450000000 1000 30 137 false;
  RegionFreq R_ITU3_70CM 430000000 450000000 1000 30 37 false;
  RegionFreq R_LORA_24 2400000000 2483500000 1000 10 0 true;
  RegionFreq R_UNSET 902000000 928000000 1000 30 0 false].

Record freq_plan := FreqPlan { fp_frequency_hz : Z; fp_slot_width_hz : Z; fp_num_slots : Z; fp_slot : Z; fp_duty_tenths : Z }.

Definition find_freq (region : Z) : option region_freq := List.find (fun r => rf_region r =? region) region_freqs.
Definition find_row (region : Z) : option region_row := List.find (fun r => rr_region r =? region) regions.

Definition slot_width (prof : region_profile) (bw : Z) : Z := u32 (u32 (rp_spacing_hz prof + u32 (2 * rp_padding_hz prof)) + bw).
Definition num_slots (rf : region_freq) (prof : region_profile) (width : Z) : Z :=
  let span := u32 (u32 (rf_end_hz rf - rf_start_hz rf) + rp_spacing_hz prof) in
  let n := u32 (span + width / 2) / width in
  if n =? 0 then 1 else n.
Definition plan_slot (rf : region_freq) (preset : Z) (channel_name : list Z) (use_preset : bool) (n : Z) : Z :=
  if 0 <? rf_override_slot rf then
    let slot := u32 (rf_override_slot rf - 1) in if n <=? slot then u32 (n - 1) else slot
  else if rf_override_slot rf =? OVERRIDE_SLOT_PRESET_HASH then
    meshtastic_djb2_hash (Some (meshtastic_preset_display_name preset use_preset)) mod n
  else meshtastic_djb2_hash (Some channel_name) mod n.

Definition plan_at (rf : region_freq) (prof : region_profile) (bw width n slot : Z) : freq_plan :=
  FreqPlan (u32 (u32 (u32 (rf_start_hz rf + bw / 2) + rp_padding_hz prof) + u32 (slot * width)))
    width (u16 n) (u16 slot) (rf_duty_tenths rf).

Definition meshtastic_region_freq_plan (region preset : Z) (channel_name : option (list Z)) (use_preset : bool) : res freq_plan :=
  match channel_name with
  | None => Fail EINVAL
  | Some name =>
      match find_freq region, find_row region with
      | Some rf, Some row =>
          let prof := profiles (rr_profile row) in
          let modem := meshtastic_preset_to_params preset (rf_wide_lora rf) in
          let width := slot_width prof (mp_bandwidth_hz modem) in
          if width =? 0 then Fail ENOTSUP
          else
            let n := num_slots rf prof width in
            Val (plan_at rf prof (mp_bandwidth_hz modem) width n (plan_slot rf preset name use_preset n))
      | _, _ => Fail ENOTSUP
      end
  end.

Record region_info := RegionInfo {
  ri_freq_start_hz : Z; ri_freq_end_hz : Z; ri_duty_tenths : Z; ri_power_limit_dbm : Z;
  ri_licensed_only : bool; ri_wide_lora : bool;
}.
Definition meshtastic_region_info (region : Z) : res region_info :=
  match find_freq region, find_row region with
  | Some rf, Some row =>
      Val (RegionInfo (rf_start_hz rf) (rf_end_hz rf) (rf_duty_tenths rf) (rf_power_limit_dbm rf)
             (rp_licensed_only (profiles (rr_profile row))) (rf_wide_lora rf))
  | _, _ => Fail ENOTSUP
  end.


(** ** Slots *)

(** Bands whose width is not a whole number of slots and rounds up: the last slot's edge is
    past the band's end. *)
Definition rounded_up_bands : list Z := [R_ANZ_433; R_UA_433; R_PH_433; R_PH_868; R_KZ_433; R_LORA_24].

(** What the tables give a region's legal preset: nothing wraps, the slots start in the band
    and end in it, the last one at worst half a slot late. *)
Definition geometry_ok (rf : region_freq) (prof : region_profile) (bw : Z) : bool :=
  let w := slot_width prof bw in
  let n := num_slots rf prof w in
  let top k := rf_start_hz rf + bw / 2 + rp_padding_hz prof + k * w + bw / 2 in
  (0 <? w) && (0 <? n) && (n <=? 65535) && (0 <=? rf_start_hz rf) && (0 <=? rp_padding_hz prof) && (0 <? bw) &&
  (top n + w <? 2 ^ 32) && (top (n - 1) <=? rf_end_hz rf + w / 2) && (w =? rp_spacing_hz prof + 2 * rp_padding_hz prof + bw) &&
  (rf_start_hz rf + bw / 2 + rp_padding_hz prof + (n - 1) * w <=? rf_end_hz rf) &&
  (existsb (fun r => r =? rf_region rf) rounded_up_bands || (top (n - 1) <=? rf_end_hz rf)) &&
  ((n =? 1) || (top (n - 2) <=? rf_end_hz rf)).
Definition region_ok (rf : region_freq) : bool :=
  match find_row (rf_region rf) with
  | Some row => let prof := profiles (rr_profile row) in
      forallb (fun p => geometry_ok rf prof (mp_bandwidth_hz (meshtastic_preset_to_params p (rf_wide_lora rf)))) (rp_presets prof)
  | None => false
  end.
Lemma tables_ok : forallb region_ok region_freqs = true.
Proof. by vm_compute. Qed.

Lemma find_freq_in region rf : find_freq region = Some rf -> rf_region rf = region /\ region_ok rf = true.
Proof.
  intros [Hin Hr]%List.find_some. bools. split; [done|]. by apply (proj1 (forallb_forall _ _) tables_ok).
Qed.
Lemma legal_geometry region rf row p :
  find_freq region = Some rf -> find_row region = Some row -> p ∈ rp_presets (profiles (rr_profile row)) ->
  geometry_ok rf (profiles (rr_profile row)) (mp_bandwidth_hz (meshtastic_preset_to_params p (rf_wide_lora rf))) = true.
Proof.
  intros [<- Hok]%find_freq_in Hrow Hp. unfold region_ok in Hok. rewrite Hrow in Hok.
  rewrite forallb_forall in Hok. by apply Hok, list_elem_of_In.
Qed.

Lemma plan_slot_range rf p name up n : 0 < n -> n <= 65535 -> 0 <= plan_slot rf p name up n < n.
Proof.
  intros Hn Hn'. unfold plan_slot. branches; try (apply Z.mod_pos_bound; lia); bools.
  - rewrite (u32_small (n - 1)); lia.
  - pose proof (u32_range (rf_override_slot rf - 1)). lia.
Qed.

(** The sums of a slot in a geometry that fits. *)
Lemma plan_at_eq rf prof bw n k (w := slot_width prof bw) : n = num_slots rf prof w ->
  geometry_ok rf prof bw = true -> 0 <= k < n ->
  plan_at rf prof bw w n k =
    FreqPlan (rf_start_hz rf + bw / 2 + rp_padding_hz prof + k * w) w n k (rf_duty_tenths rf).
Proof.
  intros -> Hg Hk. unfold geometry_ok in Hg. fold w in Hg. set (n := num_slots rf prof w) in *.
  apply andb_true_iff in Hg as [Hg _]. apply andb_true_iff in Hg as [Hg _]. bools.
  assert (0 <= k * w) by nia. assert (k * w <= n * w) by nia.
  assert (0 <= bw / 2) by (apply Z.div_pos; lia).
  unfold plan_at. rewrite (u32_small (k * w)) by lia. rewrite (u32_small (rf_start_hz rf + bw / 2)) by lia.
  rewrite (u32_small (rf_start_hz rf + bw / 2 + rp_padding_hz prof)) by lia. rewrite u32_small by lia.
  by rewrite !u16_small by lia.
Qed.

(** C16: a legal preset of a region with band data always gets a plan, whatever the channel is
    called: no sum in it wraps, its slot is one of the band's, the signal starts in the band
    and its centre is in the band; the signal ends in the band too, except in the last slot of
    the six bands whose width rounds up to whole slots, where it ends less than half a slot
    past it. *)
Theorem plan_in_band region preset name use_preset rf row :
  find_freq region = Some rf -> find_row region = Some row ->
  preset ∈ rp_presets (profiles (rr_profile row)) ->
  let prof := profiles (rr_profile row) in
  let bw := mp_bandwidth_hz (meshtastic_preset_to_params preset (rf_wide_lora rf)) in
  exists plan, meshtastic_region_freq_plan region preset (Some name) use_preset = Val plan /\
    0 <= fp_slot plan < fp_num_slots plan /\
    fp_slot_width_hz plan = rp_spacing_hz prof + 2 * rp_padding_hz prof + bw /\
    fp_frequency_hz plan =
      rf_start_hz rf + bw / 2 + rp_padding_hz prof + fp_slot plan * fp_slot_width_hz plan /\
    rf_start_hz rf <= fp_frequency_hz plan - bw / 2 /\ fp_frequency_hz plan <= rf_end_hz rf /\
    (fp_frequency_hz plan + bw / 2 <= rf_end_hz rf \/
     (region ∈ rounded_up_bands /\ fp_slot plan = fp_num_slots plan - 1 /\
      fp_frequency_hz plan + bw / 2 <= rf_end_hz rf + fp_slot_width_hz plan / 2)).
Proof.
  intros Hrf Hrow Hp prof bw. pose proof (legal_geometry region rf row preset Hrf Hrow Hp) as Hg.
  fold prof bw in Hg. pose proof Hg as Hg'. unfold geometry_ok in Hg'.
  set (w := slot_width prof bw) in *. set (n := num_slots rf prof w) in *. cbv zeta in Hg'.
  apply andb_true_iff in Hg' as [Hg' Htop2]. apply andb_true_iff in Hg' as [Hg' Htop1]. bools.
  pose proof (plan_slot_range rf preset name use_preset n ltac:(lia) ltac:(lia)) as Hslot.
  set (k := plan_slot rf preset name use_preset n) in *.
  exists (plan_at rf prof bw w n k). split.
  { unfold meshtastic_region_freq_plan. rewrite Hrf, Hrow. fold prof bw w. fold n.
    by replace (w =? 0) with false by (symmetry; apply Z.eqb_neq; lia). }
  pose proof (plan_at_eq rf prof bw n k eq_refl Hg Hslot) as Heq. fold w in Heq. rewrite Heq. clear Heq.
  cbn [fp_slot fp_num_slots fp_slot_width_hz fp_frequency_hz].
  assert (k * w <= (n - 1) * w) by nia. split; [done|]. split; [lia|]. split; [done|].
  split; [nia|]. split; [lia|]. destruct (decide (k = n - 1)) as [->|Hlast].
  - apply orb_true_iff in Htop1 as [Hr|Ht]; [right | left; bools; lia]. split; [|split; [done | lia]].
    apply existsb_exists in Hr as (r & Hin & Hr). apply Z.eqb_eq in Hr as ->.
    apply find_freq_in in Hrf as [<- _]. by apply list_elem_of_In.
  - left. apply orb_true_iff in Htop2 as [Ht|Ht]; bools; [lia|]. assert (k * w <= (n - 2) * w) by nia. lia.
Qed.

Lemma plan_in_band_witness :
  exists plan, meshtastic_region_freq_plan R_US P_LONG_FAST (Some (bytes_of_string "LongFast")) true = Val plan /\
    fp_frequency_hz plan = 906875000 /\ fp_frequency_hz plan <= 928000000.
Proof.
  destruct (plan_in_band R_US P_LONG_FAST (bytes_of_string "LongFast") true
    (RegionFreq R_US 902000000 928000000 1000 30 0 false) (RegionRow R_US PROFILE_STD P_LONG_FAST))
    as (plan & Hp & _ & _ & _ & _ & Hend & _).
  - reflexivity.
  - reflexivity.
  - apply list_elem_of_In. vm_compute. auto.
  - exists plan. split; [exact Hp|]. split; [|exact Hend]. vm_compute in Hp. injection Hp as <-. reflexivity.
Defined.

(** The default channel of one of those bands is in its last slot: its signal ends 100 kHz
    past the band. *)
Lemma default_channel_leaves_band :
  exists plan, meshtastic_region_freq_plan R_PH_868 P_LONG_FAST (Some (meshtastic_preset_display_name P_LONG_FAST true)) true = Val plan /\
    fp_frequency_hz plan + 250000 / 2 = 869400000 + 100000.
Proof. eexists. split; [vm_compute; reflexivity | vm_compute; reflexivity]. Qed.

(** A region without band data, or unknown, is refused whatever the preset. *)
Lemma no_band_no_plan region preset name up :
  find_freq region = None \/ find_row region = None ->
  meshtastic_region_freq_plan region preset name up = Fail (if name then ENOTSUP else EINVAL).
Proof.
  unfold meshtastic_region_freq_plan. destruct name; [|done].
  destruct (find_freq region), (find_row region); intros [?|?]; done.
Qed.

(** ** The map

    Nothing is left out: every region's entry is in the map, in order, with a group that has
    its profile's presets and licence and its own default. *)
Lemma preset_map_complete :
  let map := meshtastic_build_region_preset_map in
  (rm_region_groups map).*1 = rr_region <$> regions /\
  (fun e => rm_groups map !! e.2) <$> rm_region_groups map =
  (fun r => Some (PresetGroup (rp_presets (profiles (rr_profile r))) (rr_default_preset r) (rp_licensed_only (profiles (rr_profile r)))))
    <$> regions.
Proof. vm_compute. split; reflexivity. Qed.

(** Every region's default is one of its presets. *)
Lemma defaults_legal :
  Forall (fun r => rr_default_preset r ∈ rp_presets (profiles (rr_profile r))) regions.
Proof. apply (bool_decide_eq_true_1 (Forall _ _)). vm_compute. reflexivity. Qed.

(** The names tell the presets apart, whatever number is asked about. *)
Lemma display_name_named p :
  meshtastic_preset_display_name p true <> bytes_of_string "Invalid" -> p ∈ seqZ 0 17.
Proof.
  intros Hn. destruct (decide (p ∈ seqZ 0 17)) as [|Hp]; [done|]. destruct Hn.
  rewrite elem_of_seqZ in Hp. unfold meshtastic_preset_display_name. cbn [negb].
  repeat match goal with |- context [if p =? ?c then _ else _] =>
    replace (p =? c) with false by (symmetry; apply Z.eqb_neq; unfold c; lia) end. done.
Qed.
Definition names_apart : bool :=
  let ps := seqZ 0 17 in
  forallb (fun p => bool_decide (meshtastic_preset_display_name p true = bytes_of_string "Invalid") ||
    forallb (fun q => negb (bool_decide (meshtastic_preset_display_name p true = meshtastic_preset_display_name q true)) || (p =? q)) ps) ps.
Lemma display_name_inj p q :
  meshtastic_preset_display_name p true <> bytes_of_string "Invalid" ->
  meshtastic_preset_display_name p true = meshtastic_preset_display_name q true -> p = q.
Proof.
  intros Hp He. assert (Hq : meshtastic_preset_display_name q true <> bytes_of_string "Invalid") by congruence.
  apply display_name_named in Hp as Hp'. apply display_name_named in Hq.
  assert (Ha : names_apart = true) by (by vm_compute). unfold names_apart in Ha. cbv zeta in Ha.
  rewrite forallb_forall in Ha. specialize (Ha p (proj1 (list_elem_of_In _ _) Hp')).
  apply orb_true_iff in Ha as [Ha|Ha]; [bools; done|]. rewrite forallb_forall in Ha.
  specialize (Ha q (proj1 (list_elem_of_In _ _) Hq)). apply orb_true_iff in Ha as [Ha|Ha]; bools; done.
Qed.
