(* ===== verification/TxPower.v ===== *)
(** * Transmit power (src/src/meshtastic_tx_power.c, meshtastic_tx_power.h)

    From the power an operator asks for to the level the transceiver is driven at: the
    region's limit, the front end's gain and the chip's range. Powers are dBm in eight signed
    bits. A board without a front end has no gain table. *)
From S2P Require Import Prelude Regions.
Open Scope Z_scope.

Definition TX_POWER_SANE_MIN : Z := -30.
Definition TX_POWER_SANE_MAX : Z := 40.
Definition INT8_MIN : Z := -128.
Definition INT8_MAX : Z := 127.
Definition CLAMP (v lo hi : Z) : Z := if v <=? lo then lo else Z.min v hi.

(** CONFIG_MESHTASTIC_DEFAULT_REGION, _TX_POWER and the two _RADIO_..._TX_POWER. *)
Record power_config := PowerConfig {
  pc_default_region : Z; pc_fallback : Z; pc_radio_min : Z; pc_radio_max : Z;
}.

Definition implausible (dbm : Z) : bool := (dbm <? TX_POWER_SANE_MIN) || (TX_POWER_SANE_MAX <? dbm).
Definition meshtastic_tx_power_resolve (cfg : power_config) (configured region : Z) (licensed : bool) : Z :=
  let region := if region =? R_UNSET then pc_default_region cfg else region in
  let limit :=
    match meshtastic_region_info region with
    | Val info => if implausible (ri_power_limit_dbm info) then 0 else ri_power_limit_dbm info
    | Fail _ => 0
    end in
  let configured := if implausible configured then 0 else configured in
  let configured :=
    if (configured =? 0) || ((0 <? limit) && (limit <? configured) && negb licensed) then limit else configured in
  if configured =? 0 then to_i8 (pc_fallback cfg) else configured.

(** The loop from level [i] on. *)
Fixpoint gain_loop (gain : list Z) (i desired : Z) : Z :=
  match gain with
  | [] => desired
  | g :: rest =>
      let reachable := i + g in
      if (desired <? reachable) || (bool_decide (rest = []) && (reachable <=? desired))
      then CLAMP (desired - g) INT8_MIN INT8_MAX
      else gain_loop rest (i + 1) desired
  end.
Definition meshtastic_fem_gain_convert (gain : option (list Z)) (desired : Z) : Z :=
  match gain with
  | None | Some [] => desired
  | Some gain => gain_loop (take (Z.to_nat INT8_MAX) gain) 0 desired
  end.
Definition meshtastic_tx_power_chip_drive (cfg : power_config) (gain : option (list Z)) (radiated_dbm : Z) (licensed : bool) : Z :=
  let drive := if licensed then radiated_dbm else meshtastic_fem_gain_convert gain radiated_dbm in
  CLAMP drive (pc_radio_min cfg) (pc_radio_max cfg).

(** ** The limit holds at the antenna *)

Lemma gain_loop_spec gain i desired : gain <> [] -> exists k g,
  gain !! k = Some g /\ gain_loop gain i desired = CLAMP (desired - g) INT8_MIN INT8_MAX /\
  (forall j y, (j < k)%nat -> gain !! j = Some y -> i + Z.of_nat j + y <= desired) /\
  (desired < i + Z.of_nat k + g \/ k = (length gain - 1)%nat).
Proof.
  revert i. induction gain as [|g rest IH]; intros i Hne; [done|]. cbn [gain_loop].
  destruct (Z.ltb_spec desired (i + g)); cbn [orb].
  { exists 0%nat, g. split; [done|]. split; [done|]. split; [intros; lia|]. left. lia. }
  destruct rest as [|g' rest].
  { rewrite bool_decide_eq_true_2 by done. destruct (Z.leb_spec (i + g) desired); [|lia]. cbn [andb].
    exists 0%nat, g. split; [done|]. split; [done|]. split; [intros; lia|]. by right. }
  rewrite bool_decide_eq_false_2 by done. cbn [andb]. destruct (IH (i + 1)) as (k & x & Hk & Hl & Hj & Hc); [done|].
  exists (S k), x. split; [done|]. split; [done|]. split.
  - intros [|j] y Hlt Hy; [injection Hy as <-; lia|]. specialize (Hj j y ltac:(lia) Hy). lia.
  - cbn [length] in *. destruct Hc as [Hc|Hc]; [left; lia | right; lia].
Qed.

(** Every region's declared limit is a power one can mean. *)
Definition limits_ok : bool := forallb (fun rf => (0 <? rf_power_limit_dbm rf) && (rf_power_limit_dbm rf <=? TX_POWER_SANE_MAX)) region_freqs.
Lemma limit_range region info : meshtastic_region_info region = Val info -> 0 < ri_power_limit_dbm info <= TX_POWER_SANE_MAX.
Proof.
  unfold meshtastic_region_info. destruct (find_freq region) as [rf|] eqn:E; [|done]. destruct (find_row region); [|done].
  intros [= <-]. cbn. apply List.find_some in E as [Hin _]. assert (Hok : limits_ok = true) by (by vm_compute).
  unfold limits_ok in Hok. rewrite forallb_forall in Hok. specialize (Hok rf Hin). bools. lia.
Qed.
Lemma resolve_within cfg configured region info : region <> R_UNSET -> meshtastic_region_info region = Val info ->
  let r := meshtastic_tx_power_resolve cfg configured region false in
  TX_POWER_SANE_MIN <= r <= ri_power_limit_dbm info /\ r <> 0.
Proof.
  intros Hr Hi. pose proof (limit_range region info Hi) as Hl. unfold meshtastic_tx_power_resolve, implausible, TX_POWER_SANE_MIN, TX_POWER_SANE_MAX in *.
  apply Z.eqb_neq in Hr. rewrite Hr, Hi. set (l := ri_power_limit_dbm info) in *.
  replace ((l <? -30) || (40 <? l)) with false by (symmetry; apply orb_false_iff; split; apply Z.ltb_ge; lia).
  replace (0 <? l) with true by (symmetry; apply Z.ltb_lt; lia). cbn [andb negb].
  set (c := if (configured <? -30) || (40 <? configured) then 0 else configured).
  assert (Hc : -30 <= c <= 40) by (unfold c; destruct (Z.ltb_spec configured (-30)), (Z.ltb_spec 40 configured); cbn; lia).
  clearbody c. rewrite andb_true_r. destruct (Z.eqb_spec c 0) as [->|Hc0]; cbn [orb].
  { destruct (Z.eqb_spec l 0); lia. }
  destruct (Z.ltb_spec l c).
  - destruct (Z.eqb_spec l 0); lia.
  - destruct (Z.eqb_spec c 0); lia.
Qed.

(** C22: an operator without a licence never radiates more than the region allows, whatever
    power is configured and whatever the front end adds: the level the chip is driven at is
    one it has, and, with the gain the board's table gives at that very level (the last one,
    past the table's end), it comes to no more than the region's limit, unless it is the
    chip's lowest. *)
Theorem power_within_region_limit cfg gain configured region info
    (d := meshtastic_tx_power_chip_drive cfg (Some gain) (meshtastic_tx_power_resolve cfg configured region false) false) :
  region <> R_UNSET -> meshtastic_region_info region = Val info ->
  pc_radio_min cfg <= pc_radio_max cfg -> 0 < Z.of_nat (length gain) <= INT8_MAX ->
  Forall (fun g => 0 <= g <= 255) gain ->
  pc_radio_min cfg <= d <= pc_radio_max cfg /\
  (0 <= d -> d = pc_radio_min cfg \/ exists g, gain !! (Z.to_nat d `min` (length gain - 1))%nat = Some g /\ d + g <= ri_power_limit_dbm info).
Proof.
  intros Hr Hi Hmm Hlen Hg. destruct (resolve_within cfg configured region info Hr Hi) as [Hres _].
  pose proof (limit_range region info Hi) as Hl. unfold d, meshtastic_tx_power_chip_drive. clear d.
  set (r := meshtastic_tx_power_resolve cfg configured region false) in *. clearbody r.
  unfold meshtastic_fem_gain_convert. destruct gain as [|g0 gain']; [cbn in Hlen; unfold CLAMP; case_match; bools; lia|].
  set (gain := g0 :: gain') in *. assert (Hne : gain <> []) by done.
  replace (take (Z.to_nat INT8_MAX) gain) with gain by (symmetry; apply take_ge; lia). clearbody gain.
  destruct (gain_loop_spec gain 0 r Hne) as (k & g & Hk & -> & Hj & Hc).
  assert (Hgk : 0 <= g <= 255) by (by apply (proj1 (Forall_lookup _ _) Hg k)).
  apply lookup_lt_Some in Hk as Hkl. unfold TX_POWER_SANE_MIN, TX_POWER_SANE_MAX, INT8_MIN, INT8_MAX in *.
  set (c := CLAMP (r - g) (-128) 127). set (v := CLAMP c (pc_radio_min cfg) (pc_radio_max cfg)).
  assert (Hv : pc_radio_min cfg <= v <= pc_radio_max cfg) by (unfold v, CLAMP; destruct (Z.leb_spec c (pc_radio_min cfg)); lia).
  split; [done|]. intros Hd. destruct (Z.leb_spec c (pc_radio_min cfg)) as [Hcm|Hcm].
  { left. unfold v, CLAMP. by destruct (Z.leb_spec c (pc_radio_min cfg)); [|lia]. }
  assert (Hvc : v <= c) by (unfold v, CLAMP; destruct (Z.leb_spec c (pc_radio_min cfg)); lia).
  assert (Hcr : c = r - g) by (revert Hvc; unfold c, CLAMP; destruct (Z.leb_spec (r - g) (-128)); lia).
  right. destruct (Nat.lt_ge_cases (Z.to_nat v) k) as [Hlt|Hge].
  - destruct (lookup_lt_is_Some_2 gain (Z.to_nat v)) as [y Hy]; [lia|]. exists y.
    replace (Z.to_nat v `min` (length gain - 1))%nat with (Z.to_nat v) by lia. split; [done|].
    specialize (Hj _ y Hlt Hy). lia.
  - exists g. split; [|lia]. destruct Hc as [Hc|Hc]; [lia|].
    by replace (Z.to_nat v `min` (length gain - 1))%nat with k by lia.
Qed.

(** The Heltec V4's smaller front end, at its own drive levels. *)
Definition gain_gc1109 : list Z := replicate 16 11 ++ [10; 10; 9; 9; 8; 7].
Definition sx1262 : power_config := PowerConfig R_US 17 (-9) 22.
Lemma power_within_region_limit_witness :
  let d := meshtastic_tx_power_chip_drive sx1262 (Some gain_gc1109) (meshtastic_tx_power_resolve sx1262 40 R_EU_868 false) false in
  d = 18 /\ exists g, gain_gc1109 !! 18%nat = Some g /\ d + g <= 27.
Proof.
  assert (Hg : Forall (fun g => 0 <= g <= 255) gain_gc1109) by (vm_compute; repeat constructor; discriminate).
  destruct (power_within_region_limit sx1262 gain_gc1109 40 R_EU_868 (RegionInfo 869400000 869650000 100 27 false false)) as [_ H];
    [discriminate | reflexivity | vm_compute; discriminate | vm_compute; split; [reflexivity | discriminate] | exact Hg|].
  assert (Hd : meshtastic_tx_power_chip_drive sx1262 (Some gain_gc1109) (meshtastic_tx_power_resolve sx1262 40 R_EU_868 false) false = 18)
    by (vm_compute; reflexivity).
  rewrite Hd in H. cbv zeta. rewrite Hd. split; [reflexivity|].
  destruct (H ltac:(lia)) as [Hm|Hx]; [discriminate Hm | exact Hx].
Defined.

(** A region the table has no band for, or one with no default either, gives the fallback. *)
Lemma no_limit_fallback cfg licensed : 0 <= pc_fallback cfg <= 40 ->
  meshtastic_tx_power_resolve cfg 0 R_EU_874 licensed = pc_fallback cfg.
Proof.
  intros H. unfold meshtastic_tx_power_resolve. cbn. unfold to_signed, wrap.
  rewrite Z.mod_small by lia. case_match; lia.
Qed.
