(* ===== verification/Channels.v ===== *)
(** * The channel table (src/src/meshtastic_channels.c, meshtastic_channels.h)

    Eight slots with their names and keys, the hash byte each is known by on the air, and the
    primary channel's key, hash and name kept ready for sending. The device's role and
    rebroadcast mode live here too, as in the code. A channel name is its bytes up to the
    terminator, a key its bytes; a slot number is a [nat]. *)
From S2P Require Import Prelude Regions.
Open Scope Z_scope.

Definition MESHTASTIC_MAX_CHANNELS : nat := 8.
Definition NODE_BROADCAST : Z := 4294967295.
Definition ROLE_DISABLED : Z := 0.
Definition ROLE_PRIMARY : Z := 1.
Definition ROLE_SECONDARY : Z := 2.
Definition NAME_MAX : nat := 11.
Definition KEY_MAX : nat := 32.

Definition meshtastic_default_psk : list Z :=
  [212; 241; 187; 58; 32; 41; 7; 89; 240; 188; 255; 171; 207; 78; 105; 1].

Inductive device_role_t := CLIENT | CLIENT_MUTE | ROUTER | TRACKER | CLIENT_HIDDEN | ROUTER_LATE | CLIENT_BASE | RoleOther.
Inductive rebroadcast_t := RB_ALL | ALL_SKIP_DECODING | LOCAL_ONLY | KNOWN_ONLY | RB_NONE | CORE_PORTNUMS_ONLY.
#[export] Instance device_role_eq_dec : EqDecision device_role_t.
Proof. solve_decision. Defined.
#[export] Instance rebroadcast_eq_dec : EqDecision rebroadcast_t.
Proof. solve_decision. Defined.

Record module_settings := ModuleSettings {
  position_precision : Z;
  is_muted : bool;
}.
Definition set_position_precision (v : Z) (r : module_settings) : module_settings :=
ModuleSettings v (is_muted r).
Definition set_is_muted (v : bool) (r : module_settings) : module_settings :=
ModuleSettings (position_precision r) v.
Record channel_settings := ChannelSettings {
  channel_num : Z;
  psk : list Z;
  name : list Z;
  cs_id : Z;
  uplink_enabled : bool;
  downlink_enabled : bool;
  cs_module : option module_settings;
}.
Definition set_channel_num (v : Z) (r : channel_settings) : channel_settings :=
ChannelSettings v (psk r) (name r) (cs_id r) (uplink_enabled r) (downlink_enabled r)
    (cs_module r).
Definition set_psk (v : list Z) (r : channel_settings) : channel_settings :=
ChannelSettings (channel_num r) v (name r) (cs_id r) (uplink_enabled r) (downlink_enabled r)
    (cs_module r).
Definition set_name (v : list Z) (r : channel_settings) : channel_settings :=
ChannelSettings (channel_num r) (psk r) v (cs_id r) (uplink_enabled r) (downlink_enabled r)
    (cs_module r).
Definition set_cs_id (v : Z) (r : channel_settings) : channel_settings :=
ChannelSettings (channel_num r) (psk r) (name r) v (uplink_enabled r) (downlink_enabled r)
    (cs_module r).
Definition set_uplink_enabled (v : bool) (r : channel_settings) : channel_settings :=
ChannelSettings (channel_num r) (psk r) (name r) (cs_id r) v (downlink_enabled r) (cs_module
    r).
Definition set_downlink_enabled (v : bool) (r : channel_settings) : channel_settings :=
ChannelSettings (channel_num r) (psk r) (name r) (cs_id r) (uplink_enabled r) v (cs_module
    r).
Definition set_cs_module (v : option module_settings) (r : channel_settings) :
    channel_settings :=
ChannelSettings (channel_num r) (psk r) (name r) (cs_id r) (uplink_enabled r)
    (downlink_enabled r) v.
(** A message without settings has zeroed ones: [has_settings] is a field of its own. *)
Record channel := Channel {
  ch_index : Z;
  has_settings : bool;
  settings : channel_settings;
  ch_role : Z;
}.
Definition set_ch_index (v : Z) (r : channel) : channel :=
Channel v (has_settings r) (settings r) (ch_role r).
Definition set_has_settings (v : bool) (r : channel) : channel :=
Channel (ch_index r) v (settings r) (ch_role r).
Definition set_settings (v : channel_settings) (r : channel) : channel :=
Channel (ch_index r) (has_settings r) v (ch_role r).
Definition set_ch_role (v : Z) (r : channel) : channel :=
Channel (ch_index r) (has_settings r) (settings r) v.

Definition settings_zero : channel_settings := ChannelSettings 0 [] [] 0 false false None.
Definition channel_zero : channel := Channel 0 false settings_zero ROLE_DISABLED.

(** [modem_preset] on are the fields of the global context the table reads and keeps. *)
Record chans := Chans {
  channel_slots : list channel;
  channel_hashes : list Z;
  primary_index : nat;
  device_role : device_role_t;
  rebroadcast_mode : rebroadcast_t;
  modem_preset : Z;
  use_preset : bool;
  mt_psk : list Z;
  mt_ch_hash : Z;
  mt_channel_name : list Z;
}.
Definition set_channel_slots (v : list channel) (r : chans) : chans :=
Chans v (channel_hashes r) (primary_index r) (device_role r) (rebroadcast_mode r)
    (modem_preset r) (use_preset r) (mt_psk r) (mt_ch_hash r) (mt_channel_name r).
Definition set_channel_hashes (v : list Z) (r : chans) : chans :=
Chans (channel_slots r) v (primary_index r) (device_role r) (rebroadcast_mode r)
    (modem_preset r) (use_preset r) (mt_psk r) (mt_ch_hash r) (mt_channel_name r).
Definition set_primary_index (v : nat) (r : chans) : chans :=
Chans (channel_slots r) (channel_hashes r) v (device_role r) (rebroadcast_mode r)
    (modem_preset r) (use_preset r) (mt_psk r) (mt_ch_hash r) (mt_channel_name r).
Definition set_device_role (v : device_role_t) (r : chans) : chans :=
Chans (channel_slots r) (channel_hashes r) (primary_index r) v (rebroadcast_mode r)
    (modem_preset r) (use_preset r) (mt_psk r) (mt_ch_hash r) (mt_channel_name r).
Definition set_rebroadcast_mode (v : rebroadcast_t) (r : chans) : chans :=
Chans (channel_slots r) (channel_hashes r) (primary_index r) (device_role r) v (modem_preset
    r) (use_preset r) (mt_psk r) (mt_ch_hash r) (mt_channel_name r).
Definition set_modem_preset (v : Z) (r : chans) : chans :=
Chans (channel_slots r) (channel_hashes r) (primary_index r) (device_role r)
    (rebroadcast_mode r) v (use_preset r) (mt_psk r) (mt_ch_hash r) (mt_channel_name r).
Definition set_use_preset (v : bool) (r : chans) : chans :=
Chans (channel_slots r) (channel_hashes r) (primary_index r) (device_role r)
    (rebroadcast_mode r) (modem_preset r) v (mt_psk r) (mt_ch_hash r) (mt_channel_name r).
Definition set_mt_psk (v : list Z) (r : chans) : chans :=
Chans (channel_slots r) (channel_hashes r) (primary_index r) (device_role r)
    (rebroadcast_mode r) (modem_preset r) (use_preset r) v (mt_ch_hash r) (mt_channel_name
    r).
Definition set_mt_ch_hash (v : Z) (r : chans) : chans :=
Chans (channel_slots r) (channel_hashes r) (primary_index r) (device_role r)
    (rebroadcast_mode r) (modem_preset r) (use_preset r) (mt_psk r) v (mt_channel_name r).
Definition set_mt_channel_name (v : list Z) (r : chans) : chans :=
Chans (channel_slots r) (channel_hashes r) (primary_index r) (device_role r)
    (rebroadcast_mode r) (modem_preset r) (use_preset r) (mt_psk r) (mt_ch_hash r) v.

Definition slot_at (s : chans) (i : nat) : channel := default channel_zero (channel_slots s !! i).
Definition put_channel (i : nat) (c : channel) (s : chans) : chans := set_channel_slots (<[i := c]> (channel_slots s)) s.
Definition slot_ids : list nat := seq 0 MESHTASTIC_MAX_CHANNELS.
Definition preset_ids : list Z := seqZ 0 (PRESET_MAX + 1).

(** ** Keys and hashes *)

Definition xor_hash_bytes (data : list Z) : Z := foldl Z.lxor 0 data.

Definition expand_short_psk (psk_index : Z) : list Z :=
  if 1 <? psk_index
  then take 15 meshtastic_default_psk ++ [u8 (byte_at meshtastic_default_psk 15 + (psk_index - 1))]
  else meshtastic_default_psk.
Definition pad_to (n : nat) (l : list Z) : list Z := l ++ replicate (n - length l) 0.

(** One call; [borrow] is what the call for the primary's slot gives. *)
Definition slot_key (s : chans) (i : nat) (borrow : res (list Z)) : res (list Z) :=
  if (MESHTASTIC_MAX_CHANNELS <=? i)%nat then Fail EINVAL
  else
    let ch := slot_at s i in
    if negb (has_settings ch) || (ch_role ch =? ROLE_DISABLED) then Fail ENOENT
    else
      let k := psk (settings ch) in
      match k with
      | [] => if (ch_role ch =? ROLE_SECONDARY) && negb (i =? primary_index s)%nat then borrow else Val []
      | _ =>
          let long := fun k => if (KEY_MAX <? length k)%nat then Fail EINVAL
                               else if (length k <? 16)%nat then Val (pad_to 16 k)
                               else if negb (length k =? 16)%nat && (length k <? 32)%nat then Val (pad_to 32 k)
                               else Val k in
          match k with
          | [x] => if x =? 0 then Val [] else long (expand_short_psk x)
          | _ => long k
          end
      end.
(** The recursion is one call deep: the primary's slot does not borrow from itself. *)
Definition channel_get_key (s : chans) (i : nat) : res (list Z) :=
  slot_key s i (slot_key s (primary_index s) (Fail EINVAL)).
Definition meshtastic_channels_get_key (s : chans) (i : nat) : res (list Z) := channel_get_key s i.
Definition meshtastic_channels_primary_key (s : chans) : res (list Z) := channel_get_key s (primary_index s).

Definition meshtastic_channels_get_name (s : chans) (i : nat) : list Z :=
  if (MESHTASTIC_MAX_CHANNELS <=? i)%nat then []
  else
    let ch := slot_at s i in
    if negb (has_settings ch) || bool_decide (name (settings ch) = [])
    then meshtastic_preset_display_name (modem_preset s) (use_preset s)
    else name (settings ch).
Definition meshtastic_channels_primary_name (s : chans) : list Z := meshtastic_channels_get_name s (primary_index s).

Definition key_hash (key name : list Z) : Z :=
  let h := xor_hash_bytes name in
  if bool_decide (key = []) then h else Z.lxor h (xor_hash_bytes key).
Definition channel_generate_hash (s : chans) (i : nat) : Z :=
  match channel_get_key s i with
  | Fail _ => 0
  | Val key => key_hash key (meshtastic_channels_get_name s i)
  end.

Definition fixed (i : nat) (ch : channel) : channel :=
  let ch := set_ch_index (Z.of_nat i) ch in
  let ch := if has_settings ch then ch
            else set_has_settings true (set_settings settings_zero (set_ch_role ROLE_DISABLED ch)) in
  if bool_decide (name (settings ch) = bytes_of_string "Default")
  then set_settings (set_name [] (settings ch)) ch else ch.
Definition rehash (i : nat) (s : chans) : chans :=
  set_channel_hashes (<[i := channel_generate_hash s i]> (channel_hashes s)) s.
Definition channel_fixup (i : nat) (s : chans) : chans := rehash i (put_channel i (fixed i (slot_at s i)) s).

(** ** The primary channel *)

Definition demote_one (keep : nat) (s : chans) (i : nat) : chans :=
  if (i =? keep)%nat then s
  else if ch_role (slot_at s i) =? ROLE_PRIMARY
       then channel_fixup i (put_channel i (set_ch_role ROLE_SECONDARY (slot_at s i)) s) else s.
Definition demote_other_primary (keep : nat) (s : chans) : chans := foldl (demote_one keep) s slot_ids.

Definition default_primary : channel :=
  Channel 0 true (ChannelSettings 0 [1] [] 0 true true (Some (ModuleSettings 13 false))) ROLE_PRIMARY.
Definition seed_default_primary (i : nat) (s : chans) : chans :=
  channel_fixup i (put_channel i (set_ch_index (Z.of_nat i) default_primary) s).

Definition is_primary (s : chans) (i : nat) : bool := ch_role (slot_at s i) =? ROLE_PRIMARY.
Definition enforce_primary_invariant (s : chans) : chans :=
  let s' := foldl (fun s' i => if is_primary s i then set_primary_index i s' else s') s slot_ids in
  if existsb (is_primary s) slot_ids then s'
  else if ch_role (slot_at s (primary_index s)) =? ROLE_SECONDARY
  then channel_fixup (primary_index s)
         (put_channel (primary_index s) (set_ch_role ROLE_PRIMARY (slot_at s (primary_index s))) s)
  else set_primary_index 0 (seed_default_primary 0 s).

Definition meshtastic_channels_primary_hash (s : chans) : Z := default 0 (channel_hashes s !! primary_index s).
(** What a frame is sent with, from the primary slot. *)
Definition refresh_context (s : chans) : chans :=
  let s := match meshtastic_channels_primary_key s with Val k => set_mt_psk k s | Fail _ => s end in
  set_mt_channel_name (meshtastic_channels_primary_name s) (set_mt_ch_hash (meshtastic_channels_primary_hash s) s).

Definition meshtastic_channels_init_defaults (s : chans) : chans :=
  let s := set_primary_index 0 (set_channel_hashes (replicate MESHTASTIC_MAX_CHANNELS 0)
             (set_channel_slots (replicate MESHTASTIC_MAX_CHANNELS channel_zero) s)) in
  foldl (fun s i => channel_fixup i (put_channel i (set_has_settings true channel_zero) s))
    (seed_default_primary 0 s) (tail slot_ids).

Record mt_config := MtConfig { cfg_channel_name : option (list Z); cfg_psk : list Z }.
(** The application's name and key in the primary slot's settings. *)
Definition configured (cfg : mt_config) (st : channel_settings) : channel_settings :=
  let st := match cfg_channel_name cfg with Some n => set_name (take NAME_MAX n) st | None => st end in
  if bool_decide (cfg_psk cfg = meshtastic_default_psk) then st else set_psk (cfg_psk cfg) st.
Definition configure_context (cfg : mt_config) (s : chans) : chans :=
  let s := set_mt_psk (cfg_psk cfg) (set_mt_ch_hash (meshtastic_channels_primary_hash s) s) in
  set_mt_channel_name (meshtastic_channels_primary_name s) s.
Definition meshtastic_channels_init_from_config (cfg : option mt_config) (s : chans) : chans :=
  let s := meshtastic_channels_init_defaults s in
  match cfg with
  | None => s
  | Some cfg =>
      let ch := slot_at s 0 in
      configure_context cfg (channel_fixup 0 (put_channel 0 (set_settings (configured cfg (settings ch)) ch) s))
  end.

Definition meshtastic_channels_set_slot (i : nat) (ch : option channel) (s : chans) : chans * cret :=
  match ch with
  | None => (s, ERR EINVAL)
  | Some ch =>
      if (MESHTASTIC_MAX_CHANNELS <=? i)%nat then (s, ERR EINVAL)
      else
        let s := put_channel i (set_ch_index (Z.of_nat i) ch) s in
        let s := if ch_role (slot_at s i) =? ROLE_PRIMARY
                 then demote_other_primary i (set_primary_index i s) else s in
        (refresh_context (enforce_primary_invariant (channel_fixup i s)), OK)
  end.
Definition meshtastic_channels_refresh_derived (s : chans) : chans :=
  refresh_context (foldl (fun s i => channel_fixup i s) s slot_ids).

(** ** Questions about a slot *)

Definition meshtastic_channels_count : nat := MESHTASTIC_MAX_CHANNELS.
Definition meshtastic_channels_get (s : chans) (i : nat) : option channel :=
  if (MESHTASTIC_MAX_CHANNELS <=? i)%nat then None else Some (slot_at s i).
Definition meshtastic_channels_get_hash (s : chans) (i : nat) : Z :=
  if (MESHTASTIC_MAX_CHANNELS <=? i)%nat then 0 else default 0 (channel_hashes s !! i).
Definition meshtastic_channels_decrypt_for_hash (s : chans) (i : nat) (wire_hash : Z) : bool :=
  negb (MESHTASTIC_MAX_CHANNELS <=? i)%nat && (default 0 (channel_hashes s !! i) =? wire_hash).

Definition preset_name (preset : Z) : list Z := meshtastic_preset_display_name preset true.
Definition meshtastic_channels_hash_for_preset (s : chans) (i : nat) (preset : Z) : Z :=
  if (MESHTASTIC_MAX_CHANNELS <=? i)%nat then 0
  else
    let ch := slot_at s i in
    let own_name := name (settings ch) in
    if (has_settings ch && negb (bool_decide (own_name = [])) &&
        negb (bool_decide (own_name = preset_name (modem_preset s)))) ||
       (PRESET_MAX <? preset) || (preset =? u8 (modem_preset s))
    then default 0 (channel_hashes s !! i)
    else match channel_get_key s i with
    | Fail _ => 0
    | Val key => key_hash key (preset_name preset)
    end.
Definition meshtastic_channels_decrypt_for_hash_on (s : chans) (i : nat) (wire_hash preset : Z) : bool :=
  negb (MESHTASTIC_MAX_CHANNELS <=? i)%nat && (meshtastic_channels_hash_for_preset s i preset =? wire_hash).

(** An enabled slot with a stored name. *)
Definition named (ch : channel) : bool :=
  negb ((ch_role ch =? ROLE_DISABLED) || negb (has_settings ch) || bool_decide (name (settings ch) = [])).
Definition meshtastic_channels_named_for_preset (s : chans) (i : nat) (preset : Z) : bool :=
  negb ((MESHTASTIC_MAX_CHANNELS <=? i)%nat || (PRESET_MAX <? preset) || (preset =? u8 (modem_preset s))) &&
  named (slot_at s i) && bool_decide (name (settings (slot_at s i)) = preset_name preset).
Definition meshtastic_channels_custom_named (s : chans) (i : nat) : bool :=
  negb (MESHTASTIC_MAX_CHANNELS <=? i)%nat && named (slot_at s i) &&
  forallb (fun p => negb (bool_decide (name (settings (slot_at s i)) = preset_name p))) preset_ids.

Definition enabled (ch : channel) : bool := negb (ch_role ch =? ROLE_DISABLED).
Definition meshtastic_channels_is_default (s : chans) (i : nat) : bool :=
  match meshtastic_channels_get s i with
  | None => false
  | Some ch =>
      enabled ch &&
      bool_decide (meshtastic_channels_get_name s i = meshtastic_preset_display_name (modem_preset s) (use_preset s)) &&
      bool_decide (meshtastic_channels_get_key s i = Val meshtastic_default_psk)
  end.
(** The default key or one of the nine others of its family. *)
Definition default_family (key : list Z) : bool :=
  (length key =? 16)%nat && bool_decide (take 15 key = take 15 meshtastic_default_psk) &&
  (1 <=? byte_at key 15) && (byte_at key 15 <=? 10).
Definition preset_named (n : list Z) : bool := existsb (fun p => bool_decide (n = preset_name p)) preset_ids.
Definition meshtastic_channels_is_well_known (s : chans) (i : nat) : bool :=
  match meshtastic_channels_get s i with
  | None => false
  | Some ch =>
      if negb (enabled ch) || negb (has_settings ch) then false
      else
        let key_ok :=
          if (1 <? length (psk (settings ch)))%nat then
            match meshtastic_channels_get_key s i with
            | Fail _ => false
            | Val key => bool_decide (key = []) || default_family key
            end
          else true in
        key_ok && preset_named (meshtastic_channels_get_name s i)
  end.
Definition meshtastic_channels_is_public_default (s : chans) (i : nat) : bool :=
  match meshtastic_channels_get s i with
  | None => false
  | Some ch =>
      enabled ch && bool_decide (meshtastic_channels_get_key s i = Val meshtastic_default_psk) &&
      preset_named (meshtastic_channels_get_name s i)
  end.

(** [peer_channel] is the node database's channel of a node it knows. *)
Definition meshtastic_channels_resolve_send_index (s : chans) (peer_channel : Z -> option Z)
    (dest : Z) (channel_index : nat) (wire_hash : Z) : nat :=
  if (channel_index <? MESHTASTIC_MAX_CHANNELS)%nat && enabled (slot_at s channel_index) then channel_index
  else
    match (if negb (wire_hash =? 0)
           then List.find (fun i => meshtastic_channels_decrypt_for_hash s i wire_hash) slot_ids else None) with
    | Some i => i
    | None =>
        let peer :=
          if negb (dest =? 0) && negb (dest =? NODE_BROADCAST) then
            match peer_channel dest with
            | Some ch =>
                let i := Z.to_nat (u8 ch) in
                if negb (ch =? 0) && (i <? MESHTASTIC_MAX_CHANNELS)%nat && enabled (slot_at s i) then Some i else None
            | None => None
            end
          else None in
        default (primary_index s) peer
    end.

Definition meshtastic_channels_uplink_enabled (s : chans) (i : nat) : bool :=
  match meshtastic_channels_get s i with
  | Some ch => enabled ch && has_settings ch && uplink_enabled (settings ch)
  | None => false
  end.
Definition meshtastic_channels_downlink_enabled (s : chans) (i : nat) : bool :=
  match meshtastic_channels_get s i with
  | Some ch => enabled ch && has_settings ch && downlink_enabled (settings ch)
  | None => false
  end.
Definition meshtastic_channels_matches_mqtt_name (s : chans) (channel_id : option (list Z)) : bool :=
  match channel_id with
  | None => false
  | Some n => existsb (fun i => enabled (slot_at s i) && bool_decide (n = meshtastic_channels_get_name s i)) slot_ids
  end.

Definition meshtastic_set_device_role (r : device_role_t) (s : chans) : chans := set_device_role r s.
Definition meshtastic_set_rebroadcast_mode (m : rebroadcast_t) (s : chans) : chans := set_rebroadcast_mode m s.
Definition meshtastic_is_rebroadcaster (s : chans) : bool :=
  negb (bool_decide (device_role s = CLIENT_MUTE)) && negb (bool_decide (rebroadcast_mode s = RB_NONE)).
(** [known] is whether the node database has the sender. *)
Definition meshtastic_decode_known_only (s : chans) (known : bool) : bool :=
  if negb (bool_decide (rebroadcast_mode s = KNOWN_ONLY)) then true else known.

(** The stored configuration is applied: the modem first, then every slot in turn
    (meshtastic_config_store_apply_core). *)
Definition apply_channels (chs : list channel) (s : chans) : chans :=
  foldl (fun s e => (meshtastic_channels_set_slot e.1 (Some e.2) s).1) s (zip slot_ids chs).

(** What changes the table. A preset switch refreshes it at once. *)
Inductive chan_op :=
  | OpSetSlot (i : nat) (ch : option channel)
  | OpPreset (preset : Z) (named : bool)
  | OpApply (preset : Z) (named : bool) (chs : list channel)
  | OpDeviceRole (r : device_role_t)
  | OpRebroadcast (m : rebroadcast_t).
Definition chan_step (s : chans) (op : chan_op) : chans :=
  match op with
  | OpSetSlot i ch => (meshtastic_channels_set_slot i ch s).1
  | OpPreset p up => meshtastic_channels_refresh_derived (set_use_preset up (set_modem_preset p s))
  | OpApply p up chs => apply_channels chs (set_use_preset up (set_modem_preset p s))
  | OpDeviceRole r => meshtastic_set_device_role r s
  | OpRebroadcast m => meshtastic_set_rebroadcast_mode m s
  end.
Definition chans_run (cfg : option mt_config) (boot : chans) (ops : list chan_op) : chans :=
  foldl chan_step (meshtastic_channels_init_from_config cfg boot) ops.

(** ** What an update of some slots does to the table *)

Definition sized (s : chans) : Prop :=
  length (channel_slots s) = MESHTASTIC_MAX_CHANNELS /\ length (channel_hashes s) = MESHTASTIC_MAX_CHANNELS.
(** The slot's key does not come from the primary's. *)
Definition own_keyed (c : channel) : Prop := psk (settings c) <> [] \/ ch_role c <> ROLE_SECONDARY.
(** The cached hash is the one of the slot's key and name. *)
Definition fresh (s : chans) (i : nat) : Prop :=
  own_keyed (slot_at s i) -> channel_hashes s !! i = Some (channel_generate_hash s i).
Definition slot_ok (i : nat) (c : channel) : Prop :=
  has_settings c = true /\ ch_index c = Z.of_nat i /\ name (settings c) <> bytes_of_string "Default".

Lemma fixed_ok i c : slot_ok i (fixed i c).
Proof.
  unfold fixed. destruct c as [ix hs [n k nm id u d m] r]. destruct hs; cbn;
    destruct (bool_decide _) eqn:E; bools; cbn; split_and!; done.
Qed.
Lemma fixed_id i c : slot_ok i c -> fixed i c = c.
Proof.
  intros (Hs & Hi & Hn). unfold fixed. destruct c as [ix hs st r]. cbn in *. subst hs. cbn.
  rewrite bool_decide_eq_false_2 by done. by rewrite Hi.
Qed.
Lemma fixed_role i c : ch_role (fixed i c) = if has_settings c then ch_role c else ROLE_DISABLED.
Proof. unfold fixed. destruct c as [ix hs st r]. destruct hs; cbn; by destruct (bool_decide _). Qed.
Lemma fixed_psk i c : has_settings c = true -> psk (settings (fixed i c)) = psk (settings c).
Proof. unfold fixed. destruct c as [ix hs st r]. intros [= ->]. cbn. by destruct (bool_decide _). Qed.

Lemma slot_at_put i c s j : sized s -> (i < MESHTASTIC_MAX_CHANNELS)%nat ->
  slot_at (put_channel i c s) j = if decide (j = i) then c else slot_at s j.
Proof.
  intros [Hl _] Hi. unfold slot_at, put_channel. cbn. destruct (decide (j = i)) as [->|].
  - by rewrite list_lookup_insert_eq by lia.
  - by rewrite list_lookup_insert_ne by done.
Qed.
Lemma put_sized i c s : sized s -> sized (put_channel i c s).
Proof. intros [? ?]. split; [by cbn; rewrite length_insert | done]. Qed.
Lemma put_same i s : put_channel i (slot_at s i) s = s.
Proof.
  unfold put_channel, slot_at. destruct (channel_slots s !! i) eqn:E; cbn.
  - rewrite list_insert_id by done. by destruct s.
  - rewrite list_insert_ge by (by apply lookup_ge_None). by destruct s.
Qed.

(** A slot with a key of its own: nothing else in the table matters to its key and hash. *)
Lemma get_key_own s s' i : slot_at s' i = slot_at s i -> own_keyed (slot_at s i) ->
  channel_get_key s' i = channel_get_key s i.
Proof.
  intros Hs [Hk|Hr]; unfold channel_get_key, slot_key; rewrite Hs; destruct (psk (settings (slot_at s i))) as [|x k] eqn:E;
    try done.
  apply Z.eqb_neq in Hr. by rewrite Hr.
Qed.
Lemma fresh_transfer s s' i : slot_at s' i = slot_at s i -> channel_hashes s' !! i = channel_hashes s !! i ->
  modem_preset s' = modem_preset s -> use_preset s' = use_preset s -> fresh s i -> fresh s' i.
Proof.
  intros Hs Hh Hm Hu Hf Hown. rewrite Hs in Hown. rewrite Hh, (Hf Hown). f_equal.
  unfold channel_generate_hash. rewrite (get_key_own s s' i Hs Hown).
  unfold meshtastic_channels_get_name. by rewrite Hs, Hm, Hu.
Qed.

(** [g] is applied to the slots of [l]; the primary and the modem stay. *)
Record updated (l : list nat) (g : nat -> channel -> channel) (s s' : chans) : Prop := Updated {
  up_sized : sized s';
  up_primary : primary_index s' = primary_index s;
  up_modem : modem_preset s' = modem_preset s /\ use_preset s' = use_preset s;
  up_slot : forall j, slot_at s' j = if decide (j ∈ l) then g j (slot_at s j) else slot_at s j;
  up_fresh : forall j, fresh s j -> fresh s' j;
}.
Lemma updated_nil g s : sized s -> updated [] g s s.
Proof. intros Hs. by split; [|done|done| |]. Qed.
Lemma updated_cons i l g s s1 s2 : i ∉ l -> updated [i] g s s1 -> updated l g s1 s2 -> updated (i :: l) g s s2.
Proof.
  intros Hi [? H1p [H1m H1u] H1s H1f] [? H2p [H2m H2u] H2s H2f]. split; [done | congruence | split; congruence | |].
  - intros j. rewrite H2s, H1s. clear -Hi.
    repeat case_decide; try done; exfalso; set_solver.
  - auto.
Qed.

Definition upd (f : channel -> channel) (i : nat) (s : chans) : chans := channel_fixup i (put_channel i (f (slot_at s i)) s).
Lemma fixup_upd i s : channel_fixup i s = upd id i s.
Proof. unfold upd. change (id (slot_at s i)) with (slot_at s i). by rewrite put_same. Qed.

Lemma upd_updated f i s : sized s -> (i < MESHTASTIC_MAX_CHANNELS)%nat ->
  updated [i] (fun j c => fixed j (f c)) s (upd f i s) /\ fresh (upd f i s) i.
Proof.
  intros Hs Hi. unfold upd, channel_fixup. rewrite (slot_at_put i) by done. rewrite decide_True by done.
  set (s1 := put_channel i (fixed i (f (slot_at s i))) (put_channel i (f (slot_at s i)) s)).
  assert (Hs1 : sized s1) by (by apply put_sized, put_sized).
  assert (Hsl : forall j, slot_at s1 j = if decide (j = i) then fixed i (f (slot_at s i)) else slot_at s j).
  { intros j. unfold s1. rewrite slot_at_put by (done || by apply put_sized). destruct (decide (j = i)); [done|].
    rewrite slot_at_put by done. by rewrite decide_False. }
  assert (Hi' : fresh (rehash i s1) i).
  { intros _. change (channel_hashes (rehash i s1)) with (<[i := channel_generate_hash s1 i]> (channel_hashes s1)).
    apply list_lookup_insert_eq. destruct Hs1 as [_ ->]. done. }
  split; [|done]. split.
  - destruct Hs1. split; [done|]. by cbn; rewrite length_insert.
  - done.
  - done.
  - intros j. change (slot_at (rehash i s1) j) with (slot_at s1 j). rewrite Hsl.
    destruct (decide (j = i)) as [->|]; [by rewrite decide_True by set_solver | by rewrite decide_False by set_solver].
  - intros j Hf. destruct (decide (j = i)) as [->|Hj]; [done|]. apply (fresh_transfer s); try done.
    + change (slot_at (rehash i s1) j) with (slot_at s1 j). rewrite Hsl. by rewrite decide_False.
    + change (channel_hashes (rehash i s1)) with (<[i := channel_generate_hash s1 i]> (channel_hashes s)).
      by rewrite list_lookup_insert_ne by done.
Qed.
Lemma upd_all f l s : sized s -> NoDup l -> Forall (fun i => i < MESHTASTIC_MAX_CHANNELS)%nat l ->
  let s' := foldl (fun s i => upd f i s) s l in
  updated l (fun j c => fixed j (f c)) s s' /\ (forall j, j ∈ l -> fresh s' j).
Proof.
  revert s. induction l as [|i l IH]; intros s Hs Hnd Hl; cbn; [split; [by apply updated_nil | set_solver]|].
  apply NoDup_cons in Hnd as [Hi Hnd]. apply Forall_cons in Hl as [Hi8 Hl].
  destruct (upd_updated f i s Hs Hi8) as [Hu Hf].
  destruct (IH (upd f i s) (up_sized _ _ _ _ Hu) Hnd Hl) as [Hu' Hf'].
  split; [by eapply updated_cons|]. intros j [->|Hj]%elem_of_cons; [by apply (up_fresh _ _ _ _ Hu') | auto].
Qed.
Lemma slot_ids_ok : NoDup slot_ids /\ Forall (fun i => i < MESHTASTIC_MAX_CHANNELS)%nat slot_ids.
Proof. split; [apply NoDup_seq|]. apply Forall_forall. intros i Hi. unfold slot_ids in Hi. apply elem_of_seq in Hi. lia. Qed.

(** ** One primary channel *)

(** Between the edit of a slot and the check: at most the slot of [primary_index] is primary. *)
Record edited (s : chans) : Prop := Edited {
  ed_sized : sized s;
  ed_index : (primary_index s < MESHTASTIC_MAX_CHANNELS)%nat;
  ed_slot : forall i, (i < MESHTASTIC_MAX_CHANNELS)%nat -> slot_ok i (slot_at s i);
  ed_role : forall i, (i < MESHTASTIC_MAX_CHANNELS)%nat -> ch_role (slot_at s i) = ROLE_PRIMARY -> i = primary_index s;
}.
Definition one_primary (s : chans) : Prop := edited s /\ ch_role (slot_at s (primary_index s)) = ROLE_PRIMARY.

Lemma updated_ext l g g' s s' : (forall j, j ∈ l -> g j (slot_at s j) = g' j (slot_at s j)) ->
  updated l g s s' -> updated l g' s s'.
Proof.
  intros Hg [? ? ? Hs ?]. split; try done. intros j. rewrite Hs. destruct (decide (j ∈ l)); [by apply Hg | done].
Qed.
Lemma updated_same i g s : sized s -> g i (slot_at s i) = slot_at s i -> updated [i] g s s.
Proof.
  intros Hs Hg. split; try done. intros j. destruct (decide (j ∈ [i])) as [->%list_elem_of_singleton|]; [by rewrite Hg | done].
Qed.

Definition demoted (keep j : nat) (c : channel) : channel :=
  if (j =? keep)%nat then c
  else if ch_role c =? ROLE_PRIMARY then fixed j (set_ch_role ROLE_SECONDARY c) else c.
Lemma demote_updated keep l s : sized s -> NoDup l -> Forall (fun i => i < MESHTASTIC_MAX_CHANNELS)%nat l ->
  updated l (demoted keep) s (foldl (demote_one keep) s l).
Proof.
  revert s. induction l as [|i l IH]; intros s Hs Hnd Hl; cbn; [by apply updated_nil|].
  apply NoDup_cons in Hnd as [Hi Hnd]. apply Forall_cons in Hl as [Hi8 Hl].
  assert (H1 : updated [i] (demoted keep) s (demote_one keep s i)).
  { unfold demote_one. destruct (i =? keep)%nat eqn:Ek; [apply updated_same; [done | unfold demoted; by rewrite Ek]|].
    destruct (ch_role (slot_at s i) =? ROLE_PRIMARY) eqn:Er.
    - eapply updated_ext; [|apply (upd_updated (set_ch_role ROLE_SECONDARY) i s Hs Hi8)].
      intros j ->%list_elem_of_singleton. unfold demoted. by rewrite Ek, Er.
    - apply updated_same; [done | unfold demoted; by rewrite Ek, Er]. }
  eapply updated_cons; [done | done|]. apply IH; [apply H1 | done | done].
Qed.
Lemma slot_id_iff i : i ∈ slot_ids <-> (i < MESHTASTIC_MAX_CHANNELS)%nat.
Proof. unfold slot_ids. rewrite elem_of_seq. lia. Qed.

(** The edit itself, before the check. *)
Definition edit (i : nat) (ch : channel) (s : chans) : chans :=
  let s := put_channel i (set_ch_index (Z.of_nat i) ch) s in
  channel_fixup i (if ch_role (slot_at s i) =? ROLE_PRIMARY then demote_other_primary i (set_primary_index i s) else s).

Lemma set_index_sized k s : sized s -> sized (set_primary_index k s).
Proof. done. Qed.

Lemma edit_spec i ch s (w := edit i ch s) : one_primary s -> (i < MESHTASTIC_MAX_CHANNELS)%nat ->
  edited w /\ modem_preset w = modem_preset s /\ use_preset w = use_preset s /\ fresh w i /\
  forall j, j <> i -> fresh s j -> fresh w j.
Proof.
  intros [[Hs Hidx Hok Hrole] Hp] Hi. unfold w, edit. clear w.
  set (c := set_ch_index (Z.of_nat i) ch). set (s1 := put_channel i c s).
  assert (Hs1 : sized s1) by (by apply put_sized).
  assert (Hsl1 : forall j, slot_at s1 j = if decide (j = i) then c else slot_at s j) by (intros; by apply slot_at_put).
  assert (Hf1 : forall j, j <> i -> fresh s j -> fresh s1 j).
  { intros j Hj. apply fresh_transfer; try done. rewrite Hsl1. by rewrite decide_False. }
  destruct (ch_role (slot_at s1 i) =? ROLE_PRIMARY) eqn:Er.
  - assert (Hs2 : sized (set_primary_index i s1)) by done.
    pose proof (demote_updated i slot_ids _ Hs2 (proj1 slot_ids_ok) (proj2 slot_ids_ok)) as Hd.
    fold (demote_other_primary i (set_primary_index i s1)) in Hd.
    set (s3 := demote_other_primary i (set_primary_index i s1)) in *. destruct Hd as [Hd1 Hd2 [Hd3 Hd4] Hd5 Hd6].
    rewrite fixup_upd. destruct (upd_updated id i s3 Hd1 Hi) as [[Hu1 Hu2 [Hu3 Hu4] Hu5 Hu6] Hu7].
    split; [|split_and!].
    + split; [done | by rewrite Hu2, Hd2 | |].
      * intros j Hj. rewrite Hu5, Hd5. change (slot_at (set_primary_index i s1) j) with (slot_at s1 j). rewrite Hsl1.
        destruct (decide (j ∈ [i])); [apply fixed_ok|]. rewrite decide_True by (by apply slot_id_iff).
        rewrite decide_False by set_solver. unfold demoted. clear -Hok Hj. repeat case_match; [by apply Hok | apply fixed_ok | by apply Hok].
      * intros j Hj. rewrite Hu5, Hd5, Hu2, Hd2. change (slot_at (set_primary_index i s1) j) with (slot_at s1 j). rewrite Hsl1.
        destruct (decide (j ∈ [i])) as [->%list_elem_of_singleton|Hji]; [done|].
        rewrite decide_True by (by apply slot_id_iff). rewrite decide_False by set_solver. unfold demoted.
        destruct (Nat.eqb_spec j i) as [->|]; [done|]. destruct (Z.eqb_spec (ch_role (slot_at s j)) ROLE_PRIMARY); [|done].
        rewrite fixed_role. by destruct (has_settings _).
    + by rewrite Hu3, Hd3.
    + by rewrite Hu4, Hd4.
    + done.
    + intros j Hj Hf. apply Hu6, Hd6. by apply (fresh_transfer s1), Hf1.
  - rewrite fixup_upd. destruct (upd_updated id i s1 Hs1 Hi) as [[Hu1 Hu2 [Hu3 Hu4] Hu5 Hu6] Hu7].
    split; [|split_and!]; [|done|done|done|auto].
    rewrite Hsl1, decide_True in Er by done. bools. split; [done | by rewrite Hu2 | |].
    + intros j Hj. rewrite Hu5, Hsl1. destruct (decide (j ∈ [i])); [apply fixed_ok|]. rewrite decide_False by set_solver. auto.
    + intros j Hj. rewrite Hu5, Hu2, Hsl1. destruct (decide (j ∈ [i])) as [->%list_elem_of_singleton|].
      * rewrite decide_True by done. unfold id. rewrite fixed_role. by destruct (has_settings c).
      * rewrite decide_False by set_solver. auto.
Qed.

Lemma scan_primary s l s' :
  (forall i, i ∈ l -> is_primary s i = true -> i = primary_index s) -> primary_index s' = primary_index s ->
  foldl (fun s' i => if is_primary s i then set_primary_index i s' else s') s' l = s'.
Proof.
  revert s'. induction l as [|i l IH]; intros s' Hl Hp; [done|]. cbn [foldl].
  assert (Hl' : forall j, j ∈ l -> is_primary s j = true -> j = primary_index s) by (intros j Hj; apply Hl; by right).
  destruct (is_primary s i) eqn:E; [|by apply IH].
  assert (Hi : i = primary_index s') by (rewrite Hp; apply Hl; [by left | done]).
  replace (set_primary_index i s') with s' by (subst i; by destruct s'). by apply IH.
Qed.

Lemma enforce_spec s (w := enforce_primary_invariant s) : edited s ->
  one_primary w /\ modem_preset w = modem_preset s /\ use_preset w = use_preset s /\
  forall j, (j < MESHTASTIC_MAX_CHANNELS)%nat -> fresh s j -> fresh w j.
Proof.
  intros Hed. pose proof Hed as [Hs Hidx Hok Hrole]. unfold w, enforce_primary_invariant. clear w.
  rewrite scan_primary; [|intros i Hi%slot_id_iff Hp; apply Hrole; [done | by apply Z.eqb_eq]|done].
  destruct (existsb (is_primary s) slot_ids) eqn:Eex.
  { apply existsb_exists in Eex as (i & Hi%list_elem_of_In%slot_id_iff & Hp). apply Z.eqb_eq in Hp.
    split; [split; [done | by rewrite <- (Hrole i Hi Hp)]|done]. }
  assert (Hnone : forall i, (i < MESHTASTIC_MAX_CHANNELS)%nat -> ch_role (slot_at s i) <> ROLE_PRIMARY).
  { intros i Hi Hp. assert (existsb (is_primary s) slot_ids = true); [|congruence].
    apply existsb_exists. exists i. split; [by apply list_elem_of_In, slot_id_iff | by apply Z.eqb_eq]. }
  destruct (Z.eqb_spec (ch_role (slot_at s (primary_index s))) ROLE_SECONDARY) as [E|E].
  - fold (upd (set_ch_role ROLE_PRIMARY) (primary_index s) s).
    destruct (upd_updated (set_ch_role ROLE_PRIMARY) _ s Hs Hidx) as [[Hu1 Hu2 [Hu3 Hu4] Hu5 Hu6] Hu7].
    set (u := upd _ _ _) in *. split_and!; [|done|done|auto]. split; [split|].
    + done.
    + by rewrite Hu2.
    + intros j Hj. rewrite Hu5. destruct (decide _); [apply fixed_ok | auto].
    + intros j Hj. rewrite Hu5, Hu2. destruct (decide _) as [->%list_elem_of_singleton|]; [done|]. by intros ?%Hnone.
    + rewrite Hu2, Hu5, decide_True by set_solver. rewrite fixed_role.
      destruct (Hok _ Hidx) as [Hhs _]. unfold set_ch_role. cbn [has_settings ch_role]. by rewrite Hhs.
  - unfold seed_default_primary. clear E.
    change (channel_fixup 0 (put_channel 0 (set_ch_index (Z.of_nat 0) default_primary) s)) with (upd (fun _ => default_primary) 0 s).
    assert (H8 : (0 < MESHTASTIC_MAX_CHANNELS)%nat) by (unfold MESHTASTIC_MAX_CHANNELS; lia).
    destruct (upd_updated (fun _ => default_primary) 0 s Hs H8) as [[Hu1 Hu2 [Hu3 Hu4] Hu5 Hu6] Hu7].
    set (u := upd (fun _ => default_primary) 0 s) in *. split_and!; [|done|done|].
    + split; [split|].
      * done.
      * done.
      * intros j Hj. change (slot_at (set_primary_index 0 u) j) with (slot_at u j). rewrite Hu5.
        destruct (decide _); [apply fixed_ok | auto].
      * intros j Hj. change (slot_at (set_primary_index 0 u) j) with (slot_at u j). rewrite Hu5.
        destruct (decide _) as [->%list_elem_of_singleton|]; [done|]. by intros ?%Hnone.
      * change (ch_role (slot_at u 0) = ROLE_PRIMARY). rewrite Hu5, decide_True by set_solver. done.
    + intros j Hj Hf. by apply (fresh_transfer u), Hu6.
Qed.

(** What a frame is sent with is the primary slot's key, hash and name. *)
Definition context_ok (s : chans) : Prop :=
  meshtastic_channels_primary_key s = Val (mt_psk s) /\
  mt_ch_hash s = channel_generate_hash s (primary_index s) /\
  mt_channel_name s = meshtastic_channels_primary_name s.

(** The keys' type, and what comes of it: no key, sixteen bytes or thirty-two. *)
Definition keys_typed (s : chans) : Prop :=
  forall i, (i < MESHTASTIC_MAX_CHANNELS)%nat -> (length (psk (settings (slot_at s i))) <= KEY_MAX)%nat.
Definition key_len_ok (k : list Z) : Prop := length k = 0%nat \/ length k = 16%nat \/ length k = 32%nat.

Lemma expand_length x : length (expand_short_psk x) = 16%nat.
Proof. unfold expand_short_psk. by destruct (1 <? x). Qed.
Lemma pad_length n k : (length k <= n)%nat -> length (pad_to n k) = n.
Proof. intros. unfold pad_to. rewrite length_app, length_replicate. lia. Qed.

Lemma slot_key_len s i b : (length (psk (settings (slot_at s i))) <= KEY_MAX)%nat ->
  (forall k, b = Val k -> key_len_ok k) -> forall k, slot_key s i b = Val k -> key_len_ok k.
Proof.
  intros Hl Hb k. unfold slot_key. destruct (_ <=? i)%nat; [done|]. destruct (_ || _); [done|].
  unfold KEY_MAX in *. destruct (psk _) as [|x [|y l]] eqn:E.
  - destruct (_ && _); [apply Hb | intros [= <-]; by left].
  - destruct (x =? 0); [intros [= <-]; by left|]. rewrite expand_length. cbn [Nat.ltb Nat.leb Nat.eqb negb andb].
    intros [= <-]. right. left. apply expand_length.
  - set (p := x :: y :: l) in *. destruct (Nat.ltb_spec 32 (length p)); [done|].
    destruct (Nat.ltb_spec (length p) 16); [intros [= <-]; right; left; apply pad_length; lia|].
    destruct (Nat.eqb_spec (length p) 16); cbn [negb andb]; [intros [= <-]; by right; left|].
    destruct (Nat.ltb_spec (length p) 32); intros [= <-]; right; right; [apply pad_length; lia | lia].
Qed.
Lemma get_key_len s i k : keys_typed s -> channel_get_key s i = Val k -> key_len_ok k.
Proof.
  intros Ht. unfold channel_get_key.
  assert (Hlen : forall i, (length (psk (settings (slot_at s i))) <= KEY_MAX)%nat \/ (MESHTASTIC_MAX_CHANNELS <= i)%nat).
  { intros j. destruct (Nat.lt_ge_cases j MESHTASTIC_MAX_CHANNELS); [left; auto | by right]. }
  assert (Hany : forall j b, (forall k, b = Val k -> key_len_ok k) -> forall k, slot_key s j b = Val k -> key_len_ok k).
  { intros j b Hb k'. destruct (Hlen j) as [|Hge]; [by apply slot_key_len|].
    unfold slot_key. apply Nat.leb_le in Hge. by rewrite Hge. }
  apply Hany. intros k'. by apply Hany.
Qed.

Lemma primary_key_some s : one_primary s -> keys_typed s -> exists k, meshtastic_channels_primary_key s = Val k.
Proof.
  intros [[Hs Hidx Hok Hrole] Hp] Ht. unfold meshtastic_channels_primary_key, channel_get_key, slot_key.
  replace (MESHTASTIC_MAX_CHANNELS <=? primary_index s)%nat with false by (symmetry; by apply Nat.leb_gt).
  destruct (Hok _ Hidx) as [-> _]. specialize (Ht _ Hidx). rewrite Hp. cbn [negb orb Z.eqb].
  change (ROLE_PRIMARY =? ROLE_DISABLED) with false. change (ROLE_PRIMARY =? ROLE_SECONDARY) with false. cbn [andb].
  destruct (psk _) as [|x [|y l]]; [eauto| |].
  - destruct (x =? 0); [eauto|]. rewrite expand_length. cbn. eauto.
  - set (p := x :: y :: l) in *. replace (KEY_MAX <? length p)%nat with false by (symmetry; by apply Nat.ltb_ge).
    repeat case_match; eauto.
Qed.
Lemma refresh_ok s : one_primary s -> keys_typed s -> fresh s (primary_index s) -> context_ok (refresh_context s).
Proof.
  intros H1 Ht Hf. destruct (primary_key_some s H1 Ht) as [k Hk]. unfold refresh_context. rewrite Hk.
  assert (Hown : own_keyed (slot_at s (primary_index s))) by (right; rewrite (proj2 H1); done).
  split; [done|]. split; [|done]. cbn. unfold meshtastic_channels_primary_hash. cbn. by rewrite (Hf Hown).
Qed.

(** A table at rest. *)
Record ready (s : chans) : Prop := Ready {
  rd_primary : one_primary s;
  rd_keys : keys_typed s;
  rd_fresh : forall i, (i < MESHTASTIC_MAX_CHANNELS)%nat -> fresh s i;
  rd_context : context_ok s;
}.

Definition key_short (c : channel) : Prop := (length (psk (settings c)) <= KEY_MAX)%nat.
Lemma fixed_key_short i c : key_short c -> key_short (fixed i c).
Proof.
  unfold key_short, fixed. destruct c as [ix hs st r]. destruct hs; cbn; destruct (bool_decide _); cbn; lia || done.
Qed.
Lemma updated_keys l g s s' : updated l g s s' -> (forall j c, key_short c -> key_short (g j c)) ->
  keys_typed s -> keys_typed s'.
Proof.
  intros [_ _ _ Hs _] Hg Ht j Hj. rewrite Hs. destruct (decide _); [by apply Hg, Ht | by apply Ht].
Qed.
Lemma demoted_key_short i j c : key_short c -> key_short (demoted i j c).
Proof. intros. unfold demoted. repeat case_match; try done. by apply fixed_key_short. Qed.

Lemma edit_keys i ch s : one_primary s -> (i < MESHTASTIC_MAX_CHANNELS)%nat -> key_short ch ->
  keys_typed s -> keys_typed (edit i ch s).
Proof.
  intros [[Hs _ _ _] _] Hi Hch Ht. unfold edit. set (s1 := put_channel i _ s).
  assert (Hs1 : sized s1) by (by apply put_sized).
  assert (Ht1 : keys_typed s1).
  { intros j Hj. unfold s1. rewrite slot_at_put by done. destruct (decide _); [done | by apply Ht]. }
  rewrite fixup_upd.
  assert (Hfix : forall s2, sized s2 -> keys_typed s2 -> keys_typed (upd id i s2)).
  { intros s2 H2 Ht2. eapply updated_keys; [apply (upd_updated id i s2 H2 Hi) | | done]. intros. by apply fixed_key_short. }
  destruct (_ =? ROLE_PRIMARY); [|by apply Hfix].
  assert (Hs2 : sized (set_primary_index i s1)) by done.
  pose proof (demote_updated i slot_ids _ Hs2 (proj1 slot_ids_ok) (proj2 slot_ids_ok)) as Hd.
  apply Hfix; [apply Hd|]. eapply updated_keys; [apply Hd | intros; by apply demoted_key_short | done].
Qed.
Lemma enforce_keys s : edited s -> keys_typed s -> keys_typed (enforce_primary_invariant s).
Proof.
  intros [Hs Hidx _ Hrole] Ht. unfold enforce_primary_invariant.
  rewrite scan_primary; [|intros i Hi%slot_id_iff Hp; apply Hrole; [done | by apply Z.eqb_eq]|done].
  destruct (existsb _ _); [done|]. destruct (_ =? ROLE_SECONDARY).
  - eapply updated_keys; [apply (upd_updated (set_ch_role ROLE_PRIMARY) _ s Hs Hidx) | | done]. intros. by apply fixed_key_short.
  - assert (H8 : (0 < MESHTASTIC_MAX_CHANNELS)%nat) by (unfold MESHTASTIC_MAX_CHANNELS; lia).
    assert (keys_typed (upd (fun _ => default_primary) 0 s)); [|done].
    eapply updated_keys; [apply (upd_updated (fun _ => default_primary) 0 s Hs H8) | | done].
    intros. apply fixed_key_short. unfold key_short, KEY_MAX. cbn. lia.
Qed.

Lemma refresh_ready s : one_primary s -> keys_typed s -> (forall i, (i < MESHTASTIC_MAX_CHANNELS)%nat -> fresh s i) ->
  ready (refresh_context s).
Proof.
  intros H1 Ht Hf. pose proof (refresh_ok s H1 Ht (Hf _ (ed_index _ (proj1 H1)))) as Hc.
  destruct (primary_key_some s H1 Ht) as [k Hk]. unfold refresh_context in *. rewrite Hk in *.
  destruct H1 as [[? ? ? ?] ?]. split; [by split; [split|] | done | done | done].
Qed.

Lemma set_slot_spec i ch s (w := (meshtastic_channels_set_slot i (Some ch) s).1) :
  one_primary s -> keys_typed s -> (i < MESHTASTIC_MAX_CHANNELS)%nat -> key_short ch ->
  one_primary w /\ keys_typed w /\ fresh w i /\
  (forall j, (j < MESHTASTIC_MAX_CHANNELS)%nat -> fresh s j -> fresh w j) /\
  ((forall j, (j < MESHTASTIC_MAX_CHANNELS)%nat -> j <> i -> fresh s j) -> ready w).
Proof.
  intros H1 Ht Hi Hch. unfold w, meshtastic_channels_set_slot. clear w.
  replace (MESHTASTIC_MAX_CHANNELS <=? i)%nat with false by (symmetry; by apply Nat.leb_gt). cbn [fst].
  fold (edit i ch s). destruct (edit_spec i ch s H1 Hi) as (He & _ & _ & Hfi & Hfj).
  destruct (enforce_spec _ He) as (H1' & _ & _ & Hf'). pose proof (enforce_keys _ He (edit_keys i ch s H1 Hi Hch Ht)) as Htw.
  apply (Hf' i Hi) in Hfi. revert H1' Hf' Htw Hfi. generalize (enforce_primary_invariant (edit i ch s)). intros w H1' Hf' Htw Hfi.
  assert (Hfw : forall j, (j < MESHTASTIC_MAX_CHANNELS)%nat -> fresh s j -> fresh w j).
  { intros j Hj Hf. destruct (decide (j = i)) as [->|]; [done | by apply Hf', Hfj]. }
  destruct (primary_key_some w H1' Htw) as [k Hk].
  assert (Hr : (forall j, (j < MESHTASTIC_MAX_CHANNELS)%nat -> j <> i -> fresh s j) -> ready (refresh_context w)).
  { intros Hf. apply refresh_ready; [done | done|]. intros j Hj.
    destruct (decide (j = i)) as [->|]; [done | by apply Hfw, Hf]. }
  split; [|split; [|split; [|split; [|exact Hr]]]]; unfold refresh_context; rewrite Hk; [|exact Htw | exact Hfi | exact Hfw].
  destruct H1' as [[? ? ? ?] ?]. by split; [split|].
Qed.
Lemma set_slot_ready i ch s : ready s -> (i < MESHTASTIC_MAX_CHANNELS)%nat -> key_short ch ->
  ready (meshtastic_channels_set_slot i (Some ch) s).1.
Proof. intros [H1 Ht Hf _] Hi Hch. destruct (set_slot_spec i ch s H1 Ht Hi Hch) as (_ & _ & _ & _ & Hr). auto. Qed.

(** The slots are set one after the other; all are right when the last is. *)
Lemma apply_channels_ready n chs s : length chs = n -> (n + 1 <= MESHTASTIC_MAX_CHANNELS)%nat -> forall ch,
  one_primary s -> keys_typed s -> Forall key_short (ch :: chs) ->
  (forall j, (j < MESHTASTIC_MAX_CHANNELS - (n + 1))%nat -> fresh s j) ->
  ready (foldl (fun s e => (meshtastic_channels_set_slot e.1 (Some e.2) s).1) s
           (zip (seq (MESHTASTIC_MAX_CHANNELS - (n + 1)) (n + 1)) (ch :: chs))).
Proof.
  revert chs s. induction n as [|n IH]; intros chs s Hl Hn ch H1 Ht [Hch Hchs]%Forall_cons Hf.
  - destruct chs; [|done]. cbn [foldl zip zip_with seq Nat.add fst snd].
    destruct (set_slot_spec (MESHTASTIC_MAX_CHANNELS - 1) ch s H1 Ht) as (_ & _ & _ & _ & Hr);
      [unfold MESHTASTIC_MAX_CHANNELS; lia | done|].
    apply Hr. intros j Hj Hne. apply Hf. unfold MESHTASTIC_MAX_CHANNELS in *. lia.
  - destruct chs as [|ch' chs]; [done|]. injection Hl as Hl.
    set (i := (MESHTASTIC_MAX_CHANNELS - (S n + 1))%nat) in *.
    destruct (set_slot_spec i ch s H1 Ht) as (H1' & Ht' & Hfi & Hfj & _); [unfold i, MESHTASTIC_MAX_CHANNELS in *; lia | done|].
    change (S n + 1)%nat with (S (n + 1)). cbn [seq zip zip_with foldl fst snd].
    replace (S i) with (MESHTASTIC_MAX_CHANNELS - (n + 1))%nat by (unfold i, MESHTASTIC_MAX_CHANNELS in *; lia).
    apply IH; [done | lia | done | done | done|]. intros j Hj.
    destruct (decide (j = i)) as [->|]; [done|]. apply Hfj; [unfold MESHTASTIC_MAX_CHANNELS in *; lia|].
    apply Hf. unfold i, MESHTASTIC_MAX_CHANNELS in *. lia.
Qed.

(** Two tables with the same slots, primary and preset: the same keys and hashes. *)
Definition same_table (s s' : chans) : Prop :=
  channel_slots s' = channel_slots s /\ primary_index s' = primary_index s /\
  modem_preset s' = modem_preset s /\ use_preset s' = use_preset s.
Lemma same_generate s s' i : same_table s s' -> channel_generate_hash s' i = channel_generate_hash s i.
Proof.
  intros (Hs & Hp & Hm & Hu). unfold channel_generate_hash, channel_get_key, slot_key, meshtastic_channels_get_name, slot_at.
  by rewrite Hs, Hp, Hm, Hu.
Qed.
Lemma fixup_same i s : sized s -> slot_ok i (slot_at s i) -> (i < MESHTASTIC_MAX_CHANNELS)%nat ->
  same_table s (channel_fixup i s) /\
  channel_hashes (channel_fixup i s) = <[i := channel_generate_hash s i]> (channel_hashes s).
Proof. intros Hs Hok Hi. unfold channel_fixup. rewrite fixed_id, put_same by done. split; [by split_and!|done]. Qed.

Lemma fixups_same l s : sized s -> (forall i, i ∈ l -> (i < MESHTASTIC_MAX_CHANNELS)%nat /\ slot_ok i (slot_at s i)) ->
  let w := foldl (fun s i => channel_fixup i s) s l in
  same_table s w /\ length (channel_hashes w) = MESHTASTIC_MAX_CHANNELS /\
  (forall i, channel_hashes w !! i = Some (channel_generate_hash s i) \/ (i ∉ l /\ channel_hashes w !! i = channel_hashes s !! i)).
Proof.
  revert s. induction l as [|k l IH]; intros s Hs Hl; cbn [foldl].
  { split; [done|]. split; [apply Hs|]. intros i. right. split; [set_solver | done]. }
  destruct (Hl k) as [Hk Hok]; [by left|]. destruct (fixup_same k s Hs Hok Hk) as [Hsame Hh].
  set (s1 := channel_fixup k s) in *. pose proof Hsame as (Hss & _).
  assert (Hs1 : sized s1) by (split; [by rewrite Hss; apply Hs | rewrite Hh, length_insert; apply Hs]).
  destruct (IH s1 Hs1) as (Hsame' & Hlen & Hhash).
  { intros i Hi. unfold slot_at. rewrite Hss. apply Hl. by right. }
  split; [|split; [done|]].
  - destruct Hsame as (?&?&?&?), Hsame' as (?&?&?&?). split_and!; congruence.
  - intros i. destruct (Hhash i) as [E|[Hi E]]; [left; by rewrite E, (same_generate s s1)|].
    rewrite E, Hh. destruct (decide (i = k)) as [->|Hne].
    + left. apply list_lookup_insert_eq. destruct Hs as [_ ->]. done.
    + right. split; [set_solver|]. by rewrite list_lookup_insert_ne.
Qed.

Definition all_hashed (s : chans) : Prop :=
  forall i, (i < MESHTASTIC_MAX_CHANNELS)%nat -> channel_hashes s !! i = Some (channel_generate_hash s i).
Lemma refreshed_context w : one_primary w -> keys_typed w -> all_hashed w ->
  ready (refresh_context w) /\ same_table w (refresh_context w) /\ all_hashed (refresh_context w).
Proof.
  intros H1 Ht Hh. split; [apply refresh_ready; [done | done | intros j Hj _; auto]|].
  destruct (primary_key_some w H1 Ht) as [k Hk]. unfold refresh_context. rewrite Hk.
  assert (Hs : same_table w (set_mt_channel_name (meshtastic_channels_primary_name (set_mt_psk k w))
    (set_mt_ch_hash (meshtastic_channels_primary_hash (set_mt_psk k w)) (set_mt_psk k w)))) by (by split_and!).
  split; [exact Hs|]. intros i Hi. rewrite (same_generate w _ i Hs). exact (Hh i Hi).
Qed.
Lemma same_one_primary s w : one_primary s -> same_table s w -> length (channel_hashes w) = MESHTASTIC_MAX_CHANNELS -> one_primary w.
Proof.
  intros [[Hs Hidx Hok Hrole] Hp] (Hss & Hsp & _) Hlen.
  assert (Hsl : forall j, slot_at w j = slot_at s j) by (intros; unfold slot_at; by rewrite Hss).
  split; [split; [split; [by rewrite Hss; apply Hs | done] | by rewrite Hsp | |]|].
  - intros j Hj. rewrite Hsl. auto.
  - intros j Hj. rewrite Hsl, Hsp. auto.
  - by rewrite Hsp, Hsl.
Qed.

(** Refreshing changes no slot, and makes every hash, borrowed keys' too. *)
Lemma refresh_derived_spec s : one_primary s -> keys_typed s ->
  ready (meshtastic_channels_refresh_derived s) /\ same_table s (meshtastic_channels_refresh_derived s) /\
  all_hashed (meshtastic_channels_refresh_derived s).
Proof.
  intros H1 Ht. unfold meshtastic_channels_refresh_derived. pose proof (fixups_same slot_ids s (ed_sized _ (proj1 H1))) as H.
  cbv zeta in H. revert H. generalize (foldl (fun s i => channel_fixup i s) s slot_ids). intros w Hw.
  destruct Hw as (Hsame & Hlen & Hhash); [intros i Hi%slot_id_iff; split; [done | by apply (ed_slot _ (proj1 H1))]|].
  assert (Htw : keys_typed w) by (intros j Hj; unfold slot_at; rewrite (proj1 Hsame); by apply Ht).
  destruct (refreshed_context w (same_one_primary s w H1 Hsame Hlen) Htw) as (Hr & Hs' & Hh).
  - intros i Hi. destruct (Hhash i) as [->|[Hni _]]; [by rewrite (same_generate s w)|]. by destruct Hni; apply slot_id_iff.
  - split; [done|]. split; [|done]. destruct Hsame as (?&?&?&?), Hs' as (?&?&?&?). split_and!; congruence.
Qed.
Lemma refresh_derived_ready s : one_primary s -> keys_typed s -> ready (meshtastic_channels_refresh_derived s).
Proof. intros H1 Ht. by apply refresh_derived_spec. Qed.

(** What the application may configure: no key or one of the two full lengths. *)
Definition config_ok (cfg : mt_config) : Prop := key_len_ok (cfg_psk cfg).

Lemma defaults_ready boot (s := meshtastic_channels_init_defaults boot) :
  one_primary s /\ keys_typed s /\ (forall i, (i < MESHTASTIC_MAX_CHANNELS)%nat -> fresh s i) /\
  primary_index s = 0%nat /\ slot_at s 0 = default_primary.
Proof.
  unfold s, meshtastic_channels_init_defaults. clear s. set (s0 := set_primary_index 0 _).
  assert (H0 : sized s0) by done.
  assert (Hz : forall j, slot_at s0 j = channel_zero).
  { intros j. unfold slot_at, s0. cbn [channel_slots set_primary_index set_channel_hashes set_channel_slots].
    destruct (replicate _ _ !! j) eqn:E; [|done]. by apply lookup_replicate in E as [-> _]. }
  unfold seed_default_primary.
  change (channel_fixup 0 (put_channel 0 (set_ch_index (Z.of_nat 0) default_primary) s0)) with (upd (fun _ => default_primary) 0 s0).
  assert (H8 : (0 < MESHTASTIC_MAX_CHANNELS)%nat) by (unfold MESHTASTIC_MAX_CHANNELS; lia).
  destruct (upd_updated (fun _ => default_primary) 0 s0 H0 H8) as [[Hu1 Hu2 _ Hu5 _] Hu7].
  set (s1 := upd (fun _ => default_primary) 0 s0) in *.
  set (z := set_has_settings true channel_zero).
  change (foldl (fun s i => channel_fixup i (put_channel i z s)) s1 (tail slot_ids))
    with (foldl (fun s i => upd (fun _ => z) i s) s1 (seq 1 7)).
  assert (Hnd : NoDup (seq 1 7)) by apply NoDup_seq.
  assert (Hlt : Forall (fun i => i < MESHTASTIC_MAX_CHANNELS)%nat (seq 1 7)).
  { apply Forall_forall. intros i Hi%elem_of_seq. unfold MESHTASTIC_MAX_CHANNELS. lia. }
  destruct (upd_all (fun _ => z) (seq 1 7) s1 Hu1 Hnd Hlt) as [Hv Hvf].
  set (s2 := foldl (fun s i => upd (fun _ => z) i s) s1 (seq 1 7)) in *.
  assert (Hs0 : slot_at s2 0 = default_primary).
  { rewrite (up_slot _ _ _ _ Hv), decide_False by (rewrite elem_of_seq; lia). rewrite Hu5. by rewrite decide_True by set_solver. }
  assert (Hsj : forall j, (j < MESHTASTIC_MAX_CHANNELS)%nat -> j <> 0%nat -> slot_at s2 j = fixed j z).
  { intros j Hj Hj0. unfold MESHTASTIC_MAX_CHANNELS in Hj. rewrite (up_slot _ _ _ _ Hv), decide_True by (rewrite elem_of_seq; lia). done. }
  assert (Hp : primary_index s2 = 0%nat) by (rewrite (up_primary _ _ _ _ Hv), Hu2; done).
  split; [|split_and!; [| | done | done]].
  - split; [split; [apply Hv | by rewrite Hp | |] | by rewrite Hp, Hs0].
    + intros j Hj. destruct (decide (j = 0%nat)) as [->|]; [rewrite Hs0 | rewrite Hsj by done; apply fixed_ok].
      split_and!; done.
    + intros j Hj. rewrite Hp. destruct (decide (j = 0%nat)) as [->|]; [done|]. by rewrite Hsj.
  - intros j Hj. destruct (decide (j = 0%nat)) as [->|]; [rewrite Hs0; unfold KEY_MAX; cbn; lia|].
    rewrite Hsj by done. apply fixed_key_short. unfold key_short, KEY_MAX. cbn. lia.
  - intros j Hj. destruct (decide (j = 0%nat)) as [->|].
    + by apply (up_fresh _ _ _ _ Hv).
    + apply Hvf. rewrite elem_of_seq. unfold MESHTASTIC_MAX_CHANNELS in Hj. lia.
Qed.

Lemma slot_key_val s i k b : (i < MESHTASTIC_MAX_CHANNELS)%nat -> has_settings (slot_at s i) = true ->
  ch_role (slot_at s i) = ROLE_PRIMARY -> key_len_ok k -> psk (settings (slot_at s i)) = k -> slot_key s i b = Val k.
Proof.
  intros Hi Hh Hr Hk Hp. unfold slot_key. replace (MESHTASTIC_MAX_CHANNELS <=? i)%nat with false by (symmetry; by apply Nat.leb_gt).
  rewrite Hh, Hr, Hp. cbn [negb orb]. change (ROLE_PRIMARY =? ROLE_DISABLED) with false.
  change (ROLE_PRIMARY =? ROLE_SECONDARY) with false. cbn [andb].
  destruct k as [|x [|y l]]; [done | destruct Hk as [|[|]]; done|]. set (p := x :: y :: l) in *.
  unfold KEY_MAX. destruct Hk as [H|[H|H]]; rewrite H; done.
Qed.

Lemma configure_context_ready cfg w : one_primary w -> keys_typed w ->
  (forall i, (i < MESHTASTIC_MAX_CHANNELS)%nat -> fresh w i) ->
  meshtastic_channels_primary_key w = Val (cfg_psk cfg) -> ready (configure_context cfg w).
Proof.
  intros [[? Hidx ? ?] Hp] ? Hf Hk. split; [by split; [split|] | done | done|]. split; [exact Hk|]. split; [|done].
  change (default 0 (channel_hashes w !! primary_index w) = channel_generate_hash w (primary_index w)).
  rewrite (Hf _ Hidx); [done|]. right. by rewrite Hp.
Qed.
Lemma configured_psk cfg st :
  psk (configured cfg st) = if bool_decide (cfg_psk cfg = meshtastic_default_psk) then psk st else cfg_psk cfg.
Proof. unfold configured. destruct (cfg_channel_name cfg); by case_bool_decide. Qed.

(** The configured slot 0 of a table that has only its defaults. *)
Lemma configured_slot cfg s w : config_ok cfg -> one_primary s -> keys_typed s -> primary_index s = 0%nat ->
  slot_at s 0 = default_primary ->
  updated [0%nat] (fun j c => fixed j (set_settings (configured cfg (settings default_primary)) c)) s w ->
  one_primary w /\ keys_typed w /\ meshtastic_channels_primary_key w = Val (cfg_psk cfg).
Proof.
  intros Hcfg [[Hs _ Hok Hrole] _] Ht Hp H0 Hu. set (st := configured cfg (settings default_primary)) in *.
  assert (Hw0 : slot_at w 0 = fixed 0 (set_settings st default_primary)).
  { rewrite (up_slot _ _ _ _ Hu), decide_True by set_solver. by rewrite H0. }
  assert (Hwj : forall j, j <> 0%nat -> slot_at w j = slot_at s j).
  { intros j Hj. by rewrite (up_slot _ _ _ _ Hu), decide_False by set_solver. }
  assert (Hpsk : psk (settings (slot_at w 0)) = if bool_decide (cfg_psk cfg = meshtastic_default_psk) then [1] else cfg_psk cfg).
  { rewrite Hw0, fixed_psk by done. apply (configured_psk cfg (settings default_primary)). }
  assert (Hrl : ch_role (slot_at w 0) = ROLE_PRIMARY) by (by rewrite Hw0, fixed_role).
  assert (Hwp : primary_index w = 0%nat) by (by rewrite (up_primary _ _ _ _ Hu)).
  assert (Hhs : has_settings (slot_at w 0) = true) by (rewrite Hw0; apply fixed_ok).
  split; [|split].
  - split; [split|by rewrite Hwp]; [apply Hu | rewrite Hwp; unfold MESHTASTIC_MAX_CHANNELS; lia | |].
    + intros j Hj. destruct (decide (j = 0%nat)) as [->|]; [rewrite Hw0; apply fixed_ok | rewrite Hwj by done; auto].
    + intros j Hj. rewrite Hwp. destruct (decide (j = 0%nat)) as [->|]; [done|]. rewrite Hwj by done. rewrite <- Hp. auto.
  - intros j Hj. destruct (decide (j = 0%nat)) as [->|]; [|rewrite Hwj by done; by apply Ht].
    rewrite Hpsk. unfold KEY_MAX. case_bool_decide; [cbn; lia|]. destruct Hcfg as [Hl|[Hl|Hl]]; rewrite Hl; lia.
  - unfold meshtastic_channels_primary_key, channel_get_key. rewrite Hwp. case_bool_decide as Hd.
    + unfold slot_key at 1. rewrite Hhs, Hrl, Hpsk, Hd. done.
    + apply slot_key_val; [unfold MESHTASTIC_MAX_CHANNELS; lia | done | done | exact Hcfg | done].
Qed.

Lemma init_ready cfg boot : config_ok cfg -> ready (meshtastic_channels_init_from_config (Some cfg) boot).
Proof.
  intros Hcfg. destruct (defaults_ready boot) as (H1 & Ht & Hf & Hp & H0). unfold meshtastic_channels_init_from_config.
  revert H1 Ht Hf Hp H0. generalize (meshtastic_channels_init_defaults boot). intros s H1 Ht Hf Hp H0. cbv zeta.
  assert (H8 : (0 < MESHTASTIC_MAX_CHANNELS)%nat) by (unfold MESHTASTIC_MAX_CHANNELS; lia).
  rewrite H0. assert (Hput : put_channel 0 (set_settings (configured cfg (settings default_primary)) default_primary) s =
    put_channel 0 (set_settings (configured cfg (settings default_primary)) (slot_at s 0)) s) by (by rewrite H0).
  rewrite Hput. fold (upd (set_settings (configured cfg (settings default_primary))) 0 s).
  destruct (upd_updated (set_settings (configured cfg (settings default_primary))) 0 s (ed_sized _ (proj1 H1)) H8) as [Hu _].
  revert Hu. generalize (upd (set_settings (configured cfg (settings default_primary))) 0 s). intros w Hu.
  destruct (configured_slot cfg s w Hcfg H1 Ht Hp H0 Hu) as (Hw1 & Hwt & Hwk).
  apply configure_context_ready; [done | done | | done]. intros i Hi. apply (up_fresh _ _ _ _ Hu). auto.
Qed.

(** ** What the table promises *)

Definition op_ok (op : chan_op) : Prop :=
  match op with
  | OpSetSlot _ (Some ch) => key_short ch
  | OpApply _ _ chs => length chs = MESHTASTIC_MAX_CHANNELS /\ Forall key_short chs
  | _ => True
  end.

Lemma step_ready s op : ready s -> op_ok op -> ready (chan_step s op).
Proof.
  intros Hr Hop. destruct op as [i [ch|]|p up|p up chs|r|m]; cbn [chan_step].
  - destruct (Nat.lt_ge_cases i MESHTASTIC_MAX_CHANNELS) as [Hi|Hi]; [by apply set_slot_ready|].
    unfold meshtastic_channels_set_slot. apply Nat.leb_le in Hi. by rewrite Hi.
  - done.
  - destruct Hr as [[[? ? ? ?] ?] ? _ _]. apply refresh_derived_ready; [by split; [split|]|done].
  - destruct Hr as [[[? ? ? ?] ?] ? _ _], Hop as [Hl Hks]. destruct chs as [|ch chs]; [done|]. injection Hl as Hl.
    unfold apply_channels. apply (apply_channels_ready 7 chs); [done | done | by split; [split|] | done | done|].
    unfold MESHTASTIC_MAX_CHANNELS. lia.
  - destruct Hr as [[[? ? ? ?] ?] ? ? ?]. split; [by split; [split|] | done | done | done].
  - destruct Hr as [[[? ? ? ?] ?] ? ? ?]. split; [by split; [split|] | done | done | done].
Qed.
Lemma run_ready cfg boot ops : config_ok cfg -> Forall op_ok ops -> ready (chans_run (Some cfg) boot ops).
Proof.
  intros Hc Ho. unfold chans_run. assert (H : ready (meshtastic_channels_init_from_config (Some cfg) boot)) by (by apply init_ready).
  revert H. generalize (meshtastic_channels_init_from_config (Some cfg) boot).
  induction ops as [|op ops IH]; intros s H; [done|]. apply Forall_cons in Ho as [Hop Ho]. by apply IH, step_ready.
Qed.

(** C11: however the slots are edited, by whomever and into whatever roles, there is one
    primary channel, the one the index names; it is enabled and has settings; every slot
    that can be used has a key of no, sixteen or thirty-two bytes; the cached hash of every
    slot with a key of its own is the one of that key and its name on the modem's preset; and
    what a frame is sent with is the primary slot's key, hash and name. *)
Theorem channels_always_usable cfg boot ops (s := chans_run (Some cfg) boot ops) :
  config_ok cfg -> Forall op_ok ops ->
  (primary_index s < meshtastic_channels_count)%nat /\
  (forall i ch, meshtastic_channels_get s i = Some ch -> (ch_role ch = ROLE_PRIMARY <-> i = primary_index s) /\ has_settings ch = true) /\
  (forall i key, meshtastic_channels_get_key s i = Val key -> length key = 0%nat \/ length key = 16%nat \/ length key = 32%nat) /\
  (forall i ch, meshtastic_channels_get s i = Some ch -> own_keyed ch -> meshtastic_channels_get_hash s i = channel_generate_hash s i) /\
  meshtastic_channels_primary_key s = Val (mt_psk s) /\
  mt_ch_hash s = channel_generate_hash s (primary_index s) /\
  mt_channel_name s = meshtastic_channels_primary_name s.
Proof.
  intros Hc Ho. pose proof (run_ready cfg boot ops Hc Ho) as Hr. fold s in Hr.
  clearbody s. destruct Hr as [[[Hs Hidx Hok Hrole] Hp] Ht Hf Hctx].
  split; [done|]. split; [|split; [|split; [|done]]].
  - intros i ch. unfold meshtastic_channels_get. destruct (Nat.leb_spec MESHTASTIC_MAX_CHANNELS i); [done|]. intros [= <-].
    split; [|by apply Hok]. split; [by apply Hrole | by intros ->].
  - intros i key. by apply get_key_len.
  - intros i ch. unfold meshtastic_channels_get, meshtastic_channels_get_hash.
    destruct (Nat.leb_spec MESHTASTIC_MAX_CHANNELS i); [done|]. intros [= <-] Hown. by rewrite (Hf i ltac:(lia) Hown).
Qed.

(** A packet is never sent on a disabled channel: whatever channel, hash and peer a sender
    names, the slot picked is one of the table's and enabled. *)
Theorem send_channel_enabled cfg boot ops peers dest i wire_hash (s := chans_run (Some cfg) boot ops)
    (k := meshtastic_channels_resolve_send_index s peers dest i wire_hash) :
  config_ok cfg -> Forall op_ok ops ->
  (k < meshtastic_channels_count)%nat /\ ch_role (slot_at s k) <> ROLE_DISABLED /\
  ((i < meshtastic_channels_count)%nat -> ch_role (slot_at s i) <> ROLE_DISABLED -> k = i).
Proof.
  intros Hc Ho. pose proof (run_ready cfg boot ops Hc Ho) as Hr. fold s in Hr.
  subst k. clearbody s. destruct Hr as [[[Hs Hidx Hok Hrole] Hp] Ht Hf Hctx].
  unfold meshtastic_channels_resolve_send_index.
  assert (Hen : forall j, enabled (slot_at s j) = true <-> ch_role (slot_at s j) <> ROLE_DISABLED).
  { intros j. unfold enabled. by rewrite negb_true_iff, Z.eqb_neq. }
  destruct ((i <? MESHTASTIC_MAX_CHANNELS)%nat && enabled (slot_at s i)) eqn:E1.
  { apply andb_true_iff in E1 as [E1 E2]. apply Nat.ltb_lt in E1. apply Hen in E2. done. }
  match goal with |- ?A /\ ?P /\ ?Q => cut ((A /\ P) /\ Q); [tauto|] end.
  split; [|intros Hi He; apply Nat.ltb_lt in Hi; apply Hen in He; unfold meshtastic_channels_count in Hi; by rewrite Hi, He in E1].
  clear E1. destruct (if negb (wire_hash =? 0) then _ else _) as [j|] eqn:E2.
  - destruct (Z.eqb_spec wire_hash 0); [done|]. cbn [negb] in E2. apply List.find_some in E2 as [Hj E2].
    apply list_elem_of_In, slot_id_iff in Hj. unfold meshtastic_channels_decrypt_for_hash in E2.
    apply andb_true_iff in E2 as [_ E2]. apply Z.eqb_eq in E2. split; [done|]. intros Hd.
    assert (Hh : channel_hashes s !! j = Some (channel_generate_hash s j)) by (apply Hf; [done | right; by rewrite Hd]).
    rewrite Hh in E2. unfold channel_generate_hash, channel_get_key, slot_key in E2.
    replace (MESHTASTIC_MAX_CHANNELS <=? j)%nat with false in E2 by (symmetry; by apply Nat.leb_gt).
    rewrite Hd, orb_true_r in E2. by cbn in E2.
  - clear E2. assert (Hprim : (primary_index s < MESHTASTIC_MAX_CHANNELS)%nat /\ ch_role (slot_at s (primary_index s)) <> ROLE_DISABLED) by (by rewrite Hp).
    destruct (_ && _); [|done]. destruct (peers dest) as [ch|]; [|done]. cbv zeta.
    destruct (negb (ch =? 0) && _ && _) eqn:E; [|done]. cbn [default from_option id].
    apply andb_true_iff in E as [E E2]. apply andb_true_iff in E as [_ E1]. apply Nat.ltb_lt in E1. by apply Hen in E2.
Qed.

(** The name node [b] hashes its slot under for frames of another preset: the slot's own, but
    a slot without a name, or named after the preset [b] itself is on, takes that preset's. *)
Definition heard_as (b : chans) (j : nat) (preset : Z) : list Z :=
  let n := name (settings (slot_at b j)) in
  if bool_decide (n = []) || bool_decide (n = preset_name (modem_preset b)) then preset_name preset else n.

(** Node [a]'s slot and node [b]'s are one channel to the mesh: both go by the name of the
    preset they are on, or both have the same name and it is not that of [b]'s preset. *)
Definition same_channel (a b : chans) (i j : nat) : Prop :=
  let na := name (settings (slot_at a i)) in
  let nb := name (settings (slot_at b j)) in
  ((na = [] \/ na = preset_name (modem_preset a)) /\ (nb = [] \/ nb = preset_name (modem_preset b))) \/
  (na = nb /\ na <> [] /\ na <> preset_name (modem_preset b)).

Lemma in_table k : (k < MESHTASTIC_MAX_CHANNELS)%nat -> (MESHTASTIC_MAX_CHANNELS <=? k)%nat = false.
Proof. by apply Nat.leb_gt. Qed.

Lemma own_hash s i key : ready s -> (i < MESHTASTIC_MAX_CHANNELS)%nat -> own_keyed (slot_at s i) ->
  meshtastic_channels_get_key s i = Val key ->
  meshtastic_channels_get_hash s i = key_hash key (meshtastic_channels_get_name s i).
Proof.
  intros [_ _ Hf _] Hi Ho Hk. unfold meshtastic_channels_get_key in Hk.
  unfold meshtastic_channels_get_hash. rewrite (in_table i Hi), (Hf i Hi Ho). cbn [default from_option id].
  unfold channel_generate_hash. by rewrite Hk.
Qed.

Lemma hash_heard s j key preset : ready s -> (j < MESHTASTIC_MAX_CHANNELS)%nat -> own_keyed (slot_at s j) ->
  meshtastic_channels_get_key s j = Val key -> preset <= PRESET_MAX -> preset <> u8 (modem_preset s) ->
  meshtastic_channels_hash_for_preset s j preset = key_hash key (heard_as s j preset).
Proof.
  intros Hr Hj Ho Hk Hp Hne. pose proof (own_hash s j key Hr Hj Ho Hk) as E.
  destruct Hr as [[[_ _ Hok _] _] _ _ _]. destruct (Hok j Hj) as [Hh _].
  unfold meshtastic_channels_hash_for_preset, heard_as. rewrite (in_table j Hj), Hh. cbv zeta.
  replace (PRESET_MAX <? preset) with false by (symmetry; apply Z.ltb_ge; lia).
  apply Z.eqb_neq in Hne. rewrite Hne, !orb_false_r. cbn [andb].
  destruct (bool_decide_reflect (name (settings (slot_at s j)) = [])) as [En|En]; cbn [negb andb orb].
  { unfold meshtastic_channels_get_key in Hk. by rewrite Hk. }
  destruct (bool_decide _) eqn:Ep; cbn [negb].
  { unfold meshtastic_channels_get_key in Hk. by rewrite Hk. }
  unfold meshtastic_channels_get_hash in E. rewrite (in_table j Hj) in E. rewrite E. f_equal.
  unfold meshtastic_channels_get_name. rewrite (in_table j Hj), Hh. cbn [negb orb]. by rewrite bool_decide_eq_false_2.
Qed.

(** C12: a frame a node sends on its preset is taken, by a node that listens to that preset
    through another radio, for the slot with the same key exactly when the name the listener
    hashes the slot under for that preset gives the sender's hash byte; the listener puts the same
    byte on what it sends to that preset. So a channel that goes by the preset's name on both
    nodes is taken although it hashes differently on their own presets, and a channel with one
    name on both is taken on any preset, unless the name is that of the preset the listener
    itself is on: such a slot is heard under the other preset's name. Both slots have keys of
    their own. *)
Theorem frame_matches_across_presets cfga boota opsa cfgb bootb opsb i j key
    (a := chans_run (Some cfga) boota opsa) (b := chans_run (Some cfgb) bootb opsb) :
  config_ok cfga -> config_ok cfgb -> Forall op_ok opsa -> Forall op_ok opsb ->
  0 <= modem_preset a <= PRESET_MAX -> modem_preset a <> u8 (modem_preset b) ->
  (i < meshtastic_channels_count)%nat -> (j < meshtastic_channels_count)%nat ->
  own_keyed (slot_at a i) -> own_keyed (slot_at b j) ->
  meshtastic_channels_get_key a i = Val key -> meshtastic_channels_get_key b j = Val key ->
  let sent := meshtastic_channels_get_hash a i in
  let taken := meshtastic_channels_decrypt_for_hash_on b j sent (modem_preset a) in
  meshtastic_channels_hash_for_preset b j (modem_preset a) = key_hash key (heard_as b j (modem_preset a)) /\
  sent = key_hash key (meshtastic_channels_get_name a i) /\
  (taken = true <-> meshtastic_channels_hash_for_preset b j (modem_preset a) = sent) /\
  (use_preset a = true -> same_channel a b i j -> taken = true).
Proof.
  intros Hca Hcb Hoa Hob Hpa Hne Hi Hj Howna Hownb Hka Hkb.
  pose proof (run_ready cfga boota opsa Hca Hoa) as Ra. pose proof (run_ready cfgb bootb opsb Hcb Hob) as Rb.
  fold a in Ra. fold b in Rb. clearbody a b. unfold meshtastic_channels_count in Hi, Hj. cbv zeta.
  pose proof (own_hash a i key Ra Hi Howna Hka) as Es.
  pose proof (hash_heard b j key (modem_preset a) Rb Hj Hownb Hkb ltac:(lia) Hne) as Eh.
  unfold meshtastic_channels_decrypt_for_hash_on. rewrite (in_table j Hj). cbn [negb andb].
  split; [done|]. split; [done|]. split; [by rewrite Z.eqb_eq|]. intros Hup Hsame. apply Z.eqb_eq. rewrite Eh, Es. f_equal.
  destruct Ra as [[[_ _ Hoka _] _] _ _ _]. destruct (Hoka i Hi) as [Hha _].
  unfold heard_as, meshtastic_channels_get_name. rewrite (in_table i Hi), Hha, Hup. cbn [negb orb].
  fold (preset_name (modem_preset a)). destruct Hsame as [[Hna Hnb]|(Hnab & Hna & Hnp)].
  - assert (bool_decide (name (settings (slot_at b j)) = []) || bool_decide (name (settings (slot_at b j)) = preset_name (modem_preset b)) = true) as ->.
    { apply orb_true_iff. by destruct Hnb; [left|right]; apply bool_decide_eq_true_2. }
    destruct (bool_decide_reflect (name (settings (slot_at a i)) = [])); [done|]. by destruct Hna.
  - rewrite <- Hnab. by rewrite !bool_decide_eq_false_2 by done.
Qed.

(** ** A node and its neighbours *)

Definition chans_boot : chans := Chans [] [] 0 CLIENT RB_ALL P_LONG_FAST true [] 0 [].
Definition stock_config : mt_config := MtConfig None meshtastic_default_psk.
Definition secondary (psk name : list Z) : channel := Channel 0 true (ChannelSettings 0 psk name 0 false false None) ROLE_SECONDARY.
Definition family_ops : list chan_op :=
  [OpSetSlot 1 (Some (secondary [5; 6; 7] (bytes_of_string "family"))); OpPreset P_MEDIUM_FAST true].

Lemma channels_always_usable_witness :
  let s := chans_run (Some stock_config) chans_boot family_ops in
  mt_psk s = meshtastic_default_psk /\ meshtastic_channels_primary_key s = Val (mt_psk s) /\
  mt_channel_name s = bytes_of_string "MediumFast".
Proof.
  assert (Hok : Forall op_ok family_ops) by (repeat constructor; vm_compute; lia).
  destruct (channels_always_usable stock_config chans_boot family_ops (or_intror (or_introl eq_refl)) Hok) as (_ & _ & _ & _ & Hk & _).
  split; [vm_compute; reflexivity|]. split; [exact Hk | vm_compute; reflexivity].
Defined.
Lemma send_channel_enabled_witness :
  let s := chans_run (Some stock_config) chans_boot family_ops in
  meshtastic_channels_resolve_send_index s (fun _ => Some 1) 77 9 0 = 1%nat /\ ch_role (slot_at s 1) <> ROLE_DISABLED.
Proof.
  assert (Hok : Forall op_ok family_ops) by (repeat constructor; vm_compute; lia).
  pose proof (send_channel_enabled stock_config chans_boot family_ops (fun _ => Some 1) 77 9 0 (or_intror (or_introl eq_refl)) Hok) as (_ & He & _).
  split; [vm_compute; reflexivity|]. exact He.
Defined.
(** A node on MediumFast, and a brain on LongFast that hears it through a head. *)
Lemma frame_matches_across_presets_witness :
  let a := chans_run (Some stock_config) chans_boot [OpPreset P_MEDIUM_FAST true] in
  let b := chans_run (Some stock_config) chans_boot [] in
  meshtastic_channels_get_hash a 0 <> meshtastic_channels_get_hash b 0 /\
  meshtastic_channels_decrypt_for_hash_on b 0 (meshtastic_channels_get_hash a 0) P_MEDIUM_FAST = true.
Proof.
  split; [vm_compute; discriminate|].
  destruct (frame_matches_across_presets stock_config chans_boot [OpPreset P_MEDIUM_FAST true] stock_config chans_boot [] 0 0 meshtastic_default_psk)
    as (_ & _ & _ & H); [right; left; reflexivity | right; left; reflexivity | repeat constructor | constructor | vm_compute; split; discriminate
    | vm_compute; discriminate | unfold meshtastic_channels_count, MESHTASTIC_MAX_CHANNELS; lia | unfold meshtastic_channels_count, MESHTASTIC_MAX_CHANNELS; lia
    | left; vm_compute; discriminate | left; vm_compute; discriminate | vm_compute; reflexivity | vm_compute; reflexivity
    | apply H; [reflexivity | left; vm_compute; auto]].
Defined.

(** Two nodes share a channel named LongFast; the one on MediumFast sends, the one on
    LongFast does not take the frame for it, although the header says a named slot hashes
    the same everywhere. *)
Lemma own_preset_name_not_heard :
  let op := OpSetSlot 1 (Some (secondary (replicate 16 9) (bytes_of_string "LongFast"))) in
  let a := chans_run (Some stock_config) chans_boot [op; OpPreset P_MEDIUM_FAST true] in
  let b := chans_run (Some stock_config) chans_boot [op] in
  slot_at a 1 = slot_at b 1 /\ meshtastic_channels_get_hash a 1 = meshtastic_channels_get_hash b 1 /\
  meshtastic_channels_decrypt_for_hash_on b 1 (meshtastic_channels_get_hash a 1) P_MEDIUM_FAST = false.
Proof. vm_compute. split_and!; reflexivity. Qed.

(** A secondary without a key uses the primary's, and its hash is not made again when the
    primary's key is: until a preset switch or the stored configuration's next
    application the node puts the old hash on what it sends there, and takes no frame that
    carries the right one. *)
Lemma borrowed_hash_stale :
  let s := chans_run (Some stock_config) chans_boot [OpSetSlot 1 (Some (secondary [] (bytes_of_string "ops")))] in
  let primary := set_settings (set_psk (replicate 16 9) (settings (slot_at s 0))) (slot_at s 0) in
  let s' := (meshtastic_channels_set_slot 0 (Some primary) s).1 in
  meshtastic_channels_get_key s' 1 = Val (replicate 16 9) /\
  meshtastic_channels_get_hash s' 1 = meshtastic_channels_get_hash s 1 /\
  meshtastic_channels_get_hash s' 1 <> channel_generate_hash s' 1 /\
  meshtastic_channels_get_hash (meshtastic_channels_refresh_derived s') 1 = channel_generate_hash s' 1.
Proof. vm_compute. split_and!; (reflexivity || discriminate). Qed.

(** A primary without settings cannot be: its slot is disabled, and slot 0, whatever channel
    was there, is overwritten with the default one. *)
Lemma empty_primary_resets_slot_0 :
  let s := chans_run (Some (MtConfig (Some (bytes_of_string "mine")) (replicate 16 9))) chans_boot [] in
  let s' := (meshtastic_channels_set_slot 3 (Some (set_ch_role ROLE_PRIMARY channel_zero)) s).1 in
  name (settings (slot_at s 0)) = bytes_of_string "mine" /\ slot_at s' 0 = default_primary /\
  ch_role (slot_at s' 3) = ROLE_DISABLED.
Proof. vm_compute. split_and!; reflexivity. Qed.

(** A secondary without a key counts as well known although its key is the primary's private one. *)
Lemma private_key_well_known :
  let s := chans_run (Some (MtConfig (Some (bytes_of_string "mine")) (replicate 16 9))) chans_boot
             [OpSetSlot 1 (Some (secondary [] []))] in
  meshtastic_channels_is_well_known s 1 = true /\ meshtastic_channels_get_key s 1 = Val (replicate 16 9).
Proof. vm_compute. split; reflexivity. Qed.
