(* ===== verification/Presets.v ===== *)
(** * Runtime preset switching (src/src/meshtastic_preset.c, meshtastic_preset.h)

    A switch moves four things that have to agree: the modem, every channel's hash, the
    frequency and the radio. It is built on [Channels] and [Regions]. The scheduled switch,
    [meshtastic_preset_hop], first asks whether the node is free to leave its preset. *)
From S2P Require Import Prelude Regions Channels.
Open Scope Z_scope.

Inductive preset_hold := HOLD_NONE | HOLD_NO_CLOCK | HOLD_SCANNING | HOLD_RELIABLE | HOLD_TX_QUEUED | HOLD_SWITCHING.
#[export] Instance preset_hold_eq_dec : EqDecision preset_hold.
Proof. solve_decision. Defined.
Definition hold_no (h : preset_hold) : nat :=
  match h with
  | HOLD_NONE => 0 | HOLD_NO_CLOCK => 1 | HOLD_SCANNING => 2 | HOLD_RELIABLE => 3
  | HOLD_TX_QUEUED => 4 | HOLD_SWITCHING => 5
  end.
Definition PRESET_HOLD_COUNT : nat := 6.

Record gate := Gate {
  generation : Z;
  settle_until : Z;
  hops : Z;
  holds : list Z;
  tx_stale : Z;
  settle_waits : Z;
}.
Definition set_generation (v : Z) (r : gate) : gate :=
Gate v (settle_until r) (hops r) (holds r) (tx_stale r) (settle_waits r).
Definition set_settle_until (v : Z) (r : gate) : gate :=
Gate (generation r) v (hops r) (holds r) (tx_stale r) (settle_waits r).
Definition set_hops (v : Z) (r : gate) : gate :=
Gate (generation r) (settle_until r) v (holds r) (tx_stale r) (settle_waits r).
Definition set_holds (v : list Z) (r : gate) : gate :=
Gate (generation r) (settle_until r) (hops r) v (tx_stale r) (settle_waits r).
Definition set_tx_stale (v : Z) (r : gate) : gate :=
Gate (generation r) (settle_until r) (hops r) (holds r) v (settle_waits r).
Definition set_settle_waits (v : Z) (r : gate) : gate :=
Gate (generation r) (settle_until r) (hops r) (holds r) (tx_stale r) v.
Definition gate_boot : gate := Gate 1 0 0 (replicate PRESET_HOLD_COUNT 0) 0 0.

(** [pw_chans] has the modem's preset and whether one is used; [pw_radio] is what the radio
    was last given. *)
Record pworld := PWorld {
  pw_chans : chans;
  pw_modem : modem_params;
  pw_frequency : Z;
  pw_radio : option (Z * modem_params);
  pw_gate : gate;
}.
Definition set_pw_chans (v : chans) (r : pworld) : pworld :=
PWorld v (pw_modem r) (pw_frequency r) (pw_radio r) (pw_gate r).
Definition set_pw_modem (v : modem_params) (r : pworld) : pworld :=
PWorld (pw_chans r) v (pw_frequency r) (pw_radio r) (pw_gate r).
Definition set_pw_frequency (v : Z) (r : pworld) : pworld :=
PWorld (pw_chans r) (pw_modem r) v (pw_radio r) (pw_gate r).
Definition set_pw_radio (v : option (Z * modem_params)) (r : pworld) : pworld :=
PWorld (pw_chans r) (pw_modem r) (pw_frequency r) v (pw_gate r).
Definition set_pw_gate (v : gate) (r : pworld) : pworld :=
PWorld (pw_chans r) (pw_modem r) (pw_frequency r) (pw_radio r) v.

Record penv := PEnv {
  pe_now : Z;                                 (* k_uptime_get *)
  pe_settle_ms : Z;                           (* CONFIG_MESHTASTIC_PRESET_SETTLE_MS *)
  pe_drain_ms : Z;                            (* CONFIG_MESHTASTIC_PRESET_DRAIN_MS *)
  pe_default_region : Z;                      (* CONFIG_MESHTASTIC_DEFAULT_REGION *)
  pe_stored_region : option Z;                (* the stored LoRa configuration's region *)
  pe_retune : Z -> modem_params -> cret;      (* meshtastic_radio_retune *)
  pe_clock_valid : bool;
  pe_scanning : bool;
  pe_reliable_pending : Z;
  pe_outbound_pending : Z;
}.

Record preset_result := PresetResult {
  pr_preset : Z; pr_frequency_hz : Z; pr_bandwidth_hz : Z; pr_spread_factor : Z; pr_channel_hash : Z;
}.

Definition meshtastic_preset_region (env : penv) : Z :=
  match pe_stored_region env with
  | Some r => if r =? R_UNSET then pe_default_region env else r
  | None => pe_default_region env
  end.

Definition settle_arm (env : penv) (g : gate) : gate :=
  if pe_settle_ms env =? 0 then g else set_settle_until (pe_now env + pe_settle_ms env) g.
Definition next_generation (g : gate) : gate := set_generation (u32 (generation g + 1)) g.

(** The tail the two ways of changing the modem share: the radio, the result, the stamp on
    frames and the pause. *)
Definition push_to_radio (env : penv) (w : pworld) : pworld * res preset_result :=
  match pe_retune env (pw_frequency w) (pw_modem w) with
  | ERR e => (w, Fail e)
  | OK =>
      let w := set_pw_radio (Some (pw_frequency w, pw_modem w)) w in
      (set_pw_gate (settle_arm env (next_generation (pw_gate w))) w,
       Val (PresetResult (modem_preset (pw_chans w)) (pw_frequency w) (mp_bandwidth_hz (pw_modem w))
              (mp_spread_factor (pw_modem w)) (mt_ch_hash (pw_chans w))))
  end.

(** The modem and the hashes, for a preset. *)
Definition set_modem_to (preset : Z) (w : pworld) : pworld :=
  set_pw_chans (meshtastic_channels_refresh_derived (set_modem_preset preset (pw_chans w)))
    (set_pw_modem (meshtastic_preset_to_params preset false) w).
Definition primary_plan (env : penv) (preset : Z) (w : pworld) : res freq_plan :=
  meshtastic_region_freq_plan (meshtastic_preset_region env) preset
    (Some (meshtastic_channels_primary_name (pw_chans w))) (use_preset (pw_chans w)).
Definition legal_preset (preset : Z) : bool :=
  negb (bool_decide (meshtastic_preset_display_name preset true = bytes_of_string "Invalid")).

Definition meshtastic_preset_switch (env : penv) (preset : Z) (w : pworld) : pworld * res preset_result :=
  if negb (legal_preset preset) then (w, Fail EINVAL)
  else
    let prev := modem_preset (pw_chans w) in
    let w := set_modem_to preset w in
    match primary_plan env preset w with
    | Fail e => (set_modem_to prev w, Fail e)
    | Val plan => push_to_radio env (set_pw_frequency (fp_frequency_hz plan) w)
    end.

Definition meshtastic_preset_apply_stored (env : penv) (w : pworld) : pworld * res preset_result :=
  match primary_plan env (modem_preset (pw_chans w)) w with
  | Fail e => (w, Fail e)
  | Val plan => push_to_radio env (set_pw_frequency (fp_frequency_hz plan) w)
  end.

(** ** The interlocks *)

Definition meshtastic_preset_hold_check (env : penv) : preset_hold :=
  if negb (pe_clock_valid env) then HOLD_NO_CLOCK
  else if pe_scanning env then HOLD_SCANNING
  else if 0 <? pe_reliable_pending env then HOLD_RELIABLE
  else if 0 <? pe_outbound_pending env then HOLD_TX_QUEUED
  else HOLD_NONE.

Definition on_gate (f : gate -> gate) (w : pworld) : pworld := set_pw_gate (f (pw_gate w)) w.
Definition count_hold (h : preset_hold) (g : gate) : gate :=
  set_holds (alter (fun n => u32 (n + 1)) (hold_no h) (holds g)) g.
Definition hop_refuse (h : preset_hold) (w : pworld) : pworld * res preset_result :=
  (on_gate (count_hold h) w, Fail EBUSY).

(** The wait for the queue: what is pending and the uptime at each look, a millisecond or
    more apart. [None] is the model's fuel spent, which [drain_decides] excludes. *)
Fixpoint drain (fuel : nat) (look : nat -> Z * Z) (i : nat) (deadline : Z) : option bool :=
  let '(pending, now) := look i in
  if pending <=? 0 then Some true
  else if deadline <=? now then Some false
  else match fuel with O => None | S fuel => drain fuel look (S i) deadline end.

Definition drain_fuel (env : penv) : nat := Z.to_nat (pe_drain_ms env).
(** [later] is the node when the switch is made: others run while the queue drains.
    [locked] is another hop under way. *)
Definition meshtastic_preset_hop (env : penv) (locked : bool) (look : nat -> Z * Z) (later : pworld -> penv * pworld)
    (preset : Z) (w : pworld) : option (pworld * res preset_result) :=
  if locked then Some (hop_refuse HOLD_SWITCHING w)
  else
    let reason := meshtastic_preset_hold_check env in
    if negb (bool_decide (reason = HOLD_NONE)) && negb (bool_decide (reason = HOLD_TX_QUEUED))
    then Some (hop_refuse reason w)
    else match drain (drain_fuel env) look 0 (pe_now env + pe_drain_ms env) with
    | None => None
    | Some false => Some (hop_refuse HOLD_TX_QUEUED w)
    | Some true =>
        let '(env, w) := later w in
        let '(w, ret) := meshtastic_preset_switch env preset w in
        Some (match ret with
              | Val _ => on_gate (fun g => set_hops (u32 (hops g + 1)) g) w
              | Fail _ => w
              end, ret)
    end.

Definition meshtastic_preset_generation (w : pworld) : Z := generation (pw_gate w).
Definition meshtastic_preset_note_tx_stale (w : pworld) : pworld := on_gate (fun g => set_tx_stale (u32 (tx_stale g + 1)) g) w.
Definition meshtastic_preset_note_settle_wait (w : pworld) : pworld := on_gate (fun g => set_settle_waits (u32 (settle_waits g + 1)) g) w.
Definition meshtastic_preset_settle_remaining_ms (now : Z) (w : pworld) : Z :=
  let left := settle_until (pw_gate w) - now in if left <=? 0 then 0 else u32 left.
Definition meshtastic_preset_hops (w : pworld) : Z := hops (pw_gate w).
Definition meshtastic_preset_holds (h : nat) (w : pworld) : Z :=
  if (PRESET_HOLD_COUNT <=? h)%nat then 0 else default 0 (holds (pw_gate w) !! h).
Definition meshtastic_preset_tx_stale (w : pworld) : Z := tx_stale (pw_gate w).
Definition meshtastic_preset_settle_waits (w : pworld) : Z := settle_waits (pw_gate w).
Definition meshtastic_preset_stats_reset (w : pworld) : pworld :=
  on_gate (fun g => Gate (generation g) (settle_until g) 0 (replicate PRESET_HOLD_COUNT 0) 0 0) w.

(** ** A switch takes hold whole, or is undone *)

Definition all_rows : list preset_params_row := preset_params_default :: preset_params.
Definition widths_ok : bool :=
  forallb (fun row => forallb (fun wide => forallb (fun prof => negb (slot_width (profiles prof) (mp_bandwidth_hz (params_of wide row)) =? 0))
    [PROFILE_STD; PROFILE_EU868; PROFILE_UNDEF; PROFILE_LITE; PROFILE_NARROW; PROFILE_HAM_20KHZ; PROFILE_HAM_100KHZ])
    [true; false]) all_rows.
Lemma width_nonzero prof preset wide :
  (slot_width (profiles prof) (mp_bandwidth_hz (meshtastic_preset_to_params preset wide)) =? 0) = false.
Proof.
  assert (Hok : widths_ok = true) by (by vm_compute). unfold widths_ok in Hok. rewrite forallb_forall in Hok.
  unfold meshtastic_preset_to_params.
  assert (Hin : In (default preset_params_default (List.find (fun row => pp_preset row =? preset) preset_params)) all_rows).
  { destruct (List.find _ _) as [row|] eqn:E; [right; apply List.find_some in E as [E _]; exact E | left; reflexivity]. }
  specialize (Hok _ Hin). rewrite forallb_forall in Hok.
  assert (Hw : In wide [true; false]) by (destruct wide; cbn; tauto). specialize (Hok wide Hw). rewrite forallb_forall in Hok.
  apply negb_true_iff, Hok. destruct prof; cbn; tauto.
Qed.

(** The region has band data: it has a plan for every preset and name. *)
Definition has_band (region : Z) : Prop := is_Some (find_freq region) /\ is_Some (find_row region).
Lemma plan_exists region preset name up : has_band region ->
  exists plan, meshtastic_region_freq_plan region preset (Some name) up = Val plan.
Proof.
  intros [[rf Hrf] [row Hrow]]. unfold meshtastic_region_freq_plan. rewrite Hrf, Hrow. rewrite width_nonzero. eauto.
Qed.

(** The node is on a preset: what it hashes, what the modem is set to and where it is tuned. *)
Definition hashes_on (preset : Z) (s : chans) : Prop := ready s /\ all_hashed s /\ modem_preset s = preset.
Definition same_channels (s s' : chans) : Prop :=
  channel_slots s' = channel_slots s /\ primary_index s' = primary_index s /\ use_preset s' = use_preset s.

Lemma set_modem_spec preset w (w' := set_modem_to preset w) : ready (pw_chans w) ->
  hashes_on preset (pw_chans w') /\ same_channels (pw_chans w) (pw_chans w') /\
  pw_modem w' = meshtastic_preset_to_params preset false /\
  pw_frequency w' = pw_frequency w /\ pw_radio w' = pw_radio w /\ pw_gate w' = pw_gate w.
Proof.
  intros [[[? ? ? ?] ?] Ht _ _].
  assert (H1 : one_primary (set_modem_preset preset (pw_chans w))) by (by split; [split|]).
  destruct (refresh_derived_spec _ H1 Ht) as (Hr & (Hs & Hp & Hm & Hu) & Hh).
  unfold w', set_modem_to. cbn [pw_chans pw_modem pw_frequency pw_radio pw_gate set_pw_chans set_pw_modem].
  split_and!; try done.
Qed.

(** C13: a node that switches its preset is in one of four places. An unknown preset, or one
    the region has no plan for, leaves its channels, preset, frequency, radio and frame stamp
    as they were, with every hash right for them. Otherwise the preset, the modem's
    parameters, every channel's hash and the frequency of the primary channel's name under
    the new preset all belong together; and the radio has been given them and frames composed
    before are told apart by the stamp, or the radio refused and neither has changed. *)
Theorem switch_takes_hold_whole env preset w (r := meshtastic_preset_region env) :
  ready (pw_chans w) ->
  let '(w', ret) := meshtastic_preset_switch env preset w in
  same_channels (pw_chans w) (pw_chans w') /\ ready (pw_chans w') /\
  (legal_preset preset = false -> w' = w /\ ret = Fail EINVAL) /\
  (legal_preset preset = true -> ~ has_band r ->
     ret = Fail ENOTSUP /\ hashes_on (modem_preset (pw_chans w)) (pw_chans w') /\
     pw_modem w' = meshtastic_preset_to_params (modem_preset (pw_chans w)) false /\
     pw_frequency w' = pw_frequency w /\ pw_radio w' = pw_radio w /\ pw_gate w' = pw_gate w) /\
  (legal_preset preset = true -> has_band r ->
     hashes_on preset (pw_chans w') /\ pw_modem w' = meshtastic_preset_to_params preset false /\
     (exists plan, meshtastic_region_freq_plan r preset (Some (meshtastic_channels_primary_name (pw_chans w')))
        (use_preset (pw_chans w')) = Val plan /\ pw_frequency w' = fp_frequency_hz plan) /\
     match ret with
     | Val res =>
         pw_radio w' = Some (pw_frequency w', pw_modem w') /\
         meshtastic_preset_generation w' = u32 (meshtastic_preset_generation w + 1) /\
         res = PresetResult preset (pw_frequency w') (mp_bandwidth_hz (pw_modem w')) (mp_spread_factor (pw_modem w'))
                 (channel_generate_hash (pw_chans w') (primary_index (pw_chans w')))
     | Fail e => pe_retune env (pw_frequency w') (pw_modem w') = ERR e /\ pw_radio w' = pw_radio w /\ pw_gate w' = pw_gate w
     end).
Proof.
  intros Hr. destruct (set_modem_spec preset w Hr) as (Hon & Hsame & Hmod & Hfr & Hrad & Hgate).
  unfold meshtastic_preset_switch. destruct (legal_preset preset) eqn:Hl; cbn [negb].
  2: { split_and!; try done. }
  set (w1 := set_modem_to preset w) in *. unfold primary_plan. fold r.
  destruct (meshtastic_region_freq_plan r preset _ _) as [plan|e] eqn:Ep.
  - unfold push_to_radio. cbn [pw_frequency pw_modem set_pw_frequency pw_chans].
    destruct Hon as (Hrd & Hall & Hmp). assert (Hband : has_band r).
    { unfold meshtastic_region_freq_plan in Ep. unfold has_band. destruct (find_freq r), (find_row r); try done; by split; eexists. }
    destruct (pe_retune env (fp_frequency_hz plan) (pw_modem w1)) as [|e] eqn:Et;
      cbn [pw_chans pw_modem pw_frequency pw_radio pw_gate set_pw_radio set_pw_gate set_pw_frequency].
    + split; [done|]. split; [done|]. split; [done|]. split; [done|]. intros _ _. split; [done|]. split; [done|].
      split; [by exists plan|]. split; [done|]. split.
      * unfold meshtastic_preset_generation. cbn [pw_gate]. rewrite Hgate. unfold settle_arm, next_generation. by case_match.
      * rewrite Hmp. pose proof (rd_context _ Hrd) as Hc. unfold context_ok in Hc. destruct Hc as (_ & Hc & _). by rewrite Hc.
    + split; [done|]. split; [done|]. split; [done|]. split; [done|]. intros _ _. split; [done|]. split; [done|].
      split; [by exists plan | done].
  - assert (Hnb : ~ has_band r).
    { intros Hb. destruct (plan_exists r preset (meshtastic_channels_primary_name (pw_chans w1)) (use_preset (pw_chans w1)) Hb). congruence. }
    assert (e = ENOTSUP) as ->.
    { unfold meshtastic_region_freq_plan in Ep. destruct (find_freq r) as [rf|] eqn:E1, (find_row r) as [row|] eqn:E2; try congruence.
      destruct Hnb. split; eauto. }
    destruct Hon as (Hrd & _). destruct (set_modem_spec (modem_preset (pw_chans w)) w1 Hrd) as (Hon' & Hsame' & Hmod' & Hfr' & Hrad' & Hgate').
    split; [destruct Hsame as (?&?&?), Hsame' as (?&?&?); split_and!; congruence|]. split; [apply Hon'|].
    split; [done|]. split; [|done]. intros _ _. split_and!; (apply Hon' || congruence).
Qed.

(** The looks at the queue are a millisecond or more apart, from the moment the hop began. *)
Definition looks_advance (env : penv) (look : nat -> Z * Z) : Prop :=
  forall i, pe_now env + Z.of_nat i <= (look i).2.

Lemma drain_decides look deadline fuel : forall i,
  (forall j, (look (i + j)%nat).2 >= deadline - Z.of_nat fuel + Z.of_nat j) ->
  exists b, drain fuel look i deadline = Some b /\
    if b then exists k, (i <= k)%nat /\ (look k).1 <= 0 /\ forall j, (i <= j < k)%nat -> (look j).2 < deadline
    else exists k, (i <= k)%nat /\ deadline <= (look k).2 /\ forall j, (i <= j <= k)%nat -> 0 < (look j).1.
Proof.
  induction fuel as [|fuel IH]; intros i Hadv; cbn [drain].
  - specialize (Hadv 0%nat). rewrite Nat.add_0_r in Hadv. destruct (look i) as [p now] eqn:E. cbn [snd] in Hadv.
    destruct (Z.leb_spec p 0).
    + exists true. split; [done|]. exists i. rewrite E. split; [lia|]. split; [done | intros; lia].
    + destruct (Z.leb_spec deadline now); [|lia]. exists false. split; [done|]. exists i. rewrite E.
      split; [lia|]. split; [done|]. intros j Hj. replace j with i by lia. by rewrite E.
  - pose proof (Hadv 0%nat) as H0. rewrite Nat.add_0_r in H0. destruct (look i) as [p now] eqn:E. cbn [snd] in H0.
    destruct (Z.leb_spec p 0).
    + exists true. split; [done|]. exists i. rewrite E. split; [lia|]. split; [done | intros; lia].
    + destruct (Z.leb_spec deadline now).
      * exists false. split; [done|]. exists i. rewrite E. split; [lia|]. split; [done|].
        intros j Hj. replace j with i by lia. by rewrite E.
      * destruct (IH (S i)) as (b & Hb & Hk).
        { intros j. replace (S i + j)%nat with (i + S j)%nat by lia. specialize (Hadv (S j)). lia. }
        exists b. split; [done|]. destruct b; destruct Hk as (k & Hk1 & Hk2 & Hk3); exists k; (split; [lia|]); (split; [done|]);
          intros j Hj; (destruct (decide (j = i)) as [->|]; [by rewrite E | apply Hk3; lia]).
Qed.

(** C21: a scheduled hop always comes to an answer, a millisecond per look and its own patience
    being enough. It is refused, and then nothing but the refusal's own counter has changed;
    or the node was free to leave its preset: the clock was set, no survey had the radio, no
    acknowledged send was open, and the queue was seen empty before the patience ran out. Then
    the hop is the switch, made on the node as it is when the queue is empty. *)
Theorem hop_waits_its_turn env locked look later preset w :
  0 <= pe_drain_ms env -> looks_advance env look ->
  exists w' ret, meshtastic_preset_hop env locked look later preset w = Some (w', ret) /\
  ((exists h, h <> HOLD_NONE /\ (w', ret) = hop_refuse h w /\
      (h = HOLD_TX_QUEUED -> exists k, pe_now env + pe_drain_ms env <= (look k).2 /\ forall j, (j <= k)%nat -> 0 < (look j).1)) \/
   (locked = false /\ pe_clock_valid env = true /\ pe_scanning env = false /\ pe_reliable_pending env <= 0 /\
    (exists k, (look k).1 <= 0 /\ forall j, (j < k)%nat -> (look j).2 < pe_now env + pe_drain_ms env) /\
    let '(env', w1) := later w in
    ret = (meshtastic_preset_switch env' preset w1).2 /\
    pw_chans w' = pw_chans (meshtastic_preset_switch env' preset w1).1 /\
    pw_radio w' = pw_radio (meshtastic_preset_switch env' preset w1).1)).
Proof.
  intros Hd Hadv. unfold meshtastic_preset_hop. destruct locked.
  { do 2 eexists. split; [reflexivity|]. left. by exists HOLD_SWITCHING. }
  destruct (negb (bool_decide (meshtastic_preset_hold_check env = HOLD_NONE)) &&
            negb (bool_decide (meshtastic_preset_hold_check env = HOLD_TX_QUEUED))) eqn:Eh.
  { bools. do 2 eexists. split; [reflexivity|]. left. by exists (meshtastic_preset_hold_check env). }
  assert (Hfree : pe_clock_valid env = true /\ pe_scanning env = false /\ pe_reliable_pending env <= 0).
  { unfold meshtastic_preset_hold_check in Eh. destruct (pe_clock_valid env), (pe_scanning env); try done.
    cbn [negb] in Eh. destruct (Z.ltb_spec 0 (pe_reliable_pending env)); [done | by split_and!]. }
  destruct (drain_decides look (pe_now env + pe_drain_ms env) (drain_fuel env) 0) as (b & Hb & Hk).
  { intros j. specialize (Hadv j). unfold drain_fuel. rewrite Z2Nat.id by done. cbn [Nat.add]. lia. }
  rewrite Hb. destruct b; destruct Hk as (k & _ & Hk1 & Hk2).
  - destruct (later w) as [env' w1] eqn:El. destruct (meshtastic_preset_switch env' preset w1) as [w2 ret] eqn:Es.
    do 2 eexists. split; [reflexivity|]. right. destruct Hfree as (?&?&?). split; [done|]. split; [done|]. split; [done|].
    split; [done|]. split; [exists k; split; [done | intros j Hj; apply Hk2; lia]|].
    split; [done|]. by destruct ret.
  - do 2 eexists. split; [reflexivity|]. left. exists HOLD_TX_QUEUED. split; [done|]. split; [done|]. intros _.
    exists k. split; [done|]. intros j Hj. apply Hk2. lia.
Qed.

(** ** On one node *)

Definition stock_world : pworld :=
  PWorld (chans_run (Some stock_config) chans_boot []) (meshtastic_preset_to_params P_LONG_FAST false) 906875000 None gate_boot.
Definition penv_in (region : Z) : penv :=
  PEnv 1000 50 200 R_US (Some region) (fun _ _ => OK) true false 0 2.
Definition queue_look (i : nat) : Z * Z := (2 - Z.of_nat i, 1000 + 5 * Z.of_nat i).

Lemma stock_ready : ready (pw_chans stock_world).
Proof. apply (run_ready stock_config chans_boot []); [right; by left | constructor]. Qed.

Lemma switch_takes_hold_whole_witness :
  let w' := (meshtastic_preset_switch (penv_in R_US) P_MEDIUM_FAST stock_world).1 in
  modem_preset (pw_chans w') = P_MEDIUM_FAST /\ pw_frequency w' = 913125000 /\ ready (pw_chans w').
Proof.
  pose proof (switch_takes_hold_whole (penv_in R_US) P_MEDIUM_FAST stock_world stock_ready) as H.
  destruct (meshtastic_preset_switch (penv_in R_US) P_MEDIUM_FAST stock_world) as [w' ret] eqn:E.
  destruct H as (_ & Hr & _). cbv zeta. cbn [fst]. vm_compute in E. injection E as <- <-.
  split; [reflexivity|]. split; [reflexivity | exact Hr].
Defined.
Lemma hop_waits_its_turn_witness :
  exists w' ret, meshtastic_preset_hop (penv_in R_US) false queue_look (fun w => (penv_in R_US, w)) P_MEDIUM_FAST stock_world = Some (w', ret) /\
    meshtastic_preset_hops w' = 1.
Proof.
  destruct (hop_waits_its_turn (penv_in R_US) false queue_look (fun w => (penv_in R_US, w)) P_MEDIUM_FAST stock_world) as (w' & ret & Hh & _).
  - vm_compute. discriminate.
  - intros i. cbn [snd queue_look penv_in pe_now]. lia.
  - exists w', ret. split; [exact Hh|]. vm_compute in Hh. injection Hh as <- <-. reflexivity.
Defined.

(** A switch that is undone for want of a plan gives the modem the parameters of the preset's
    name: a node on a modem of its own, which no preset has, does not get its own back. *)
Lemma undone_switch_loses_custom_modem :
  let custom := set_pw_modem (ModemParams 31250 12 8) stock_world in
  let '(w', ret) := meshtastic_preset_switch (penv_in R_EU_874) P_MEDIUM_FAST custom in
  ret = Fail ENOTSUP /\ pw_modem w' <> pw_modem custom.
Proof. vm_compute. split; [reflexivity | discriminate]. Qed.

(** The stored configuration is always pushed with the plan's frequency, whatever frequency
    was resolved from it, an override's included. *)
Lemma stored_frequency_replaced f :
  pw_frequency (meshtastic_preset_apply_stored (penv_in R_US) (set_pw_frequency f stock_world)).1 = 906875000.
Proof. by vm_compute. Qed.
