(* ===== verification/ConfigStore.v ===== *)
(** * The configuration store (src/src/meshtastic_config_store.c, meshtastic_settings.c)

    The node's configuration in RAM, section by section with the version of each, and the
    records it is kept in on flash: what a setter, a merge, a load, a save, a flush and a
    wipe do to both. The build modelled is a node's: the settings and the administration
    are in, the lockdown and the attachment head are not. The settings subsystem is what its
    documentation says: a record written with success is the one that is loaded, one whose
    write failed is the old or the new one, and a load hands over the records there are, in
    any order. The protocol-buffer library is the class [ConfigCodec]. A C string is its
    bytes up to the terminator. *)
From Stdlib Require Import Floats.SpecFloat.
From S2P Require Import Prelude Hlc Regions TxPower Channels Presets.
Open Scope Z_scope.
#[local] Open Scope c_scope.

(** ** Data *)

Definition STORE_RECORD_VERSION : Z := 1.
Definition STORE_RECORD_VERSION_MIN : Z := 1.
Definition STORE_RECORD_HEADER_LEN : nat := 4.
Definition OWNER_LONG_NAME_LEN : nat := 40.
Definition OWNER_SHORT_NAME_LEN : nat := 5.
Definition MESHTASTIC_CANNED_MESSAGES_LEN : nat := 201.
Definition MESHTASTIC_STORE_VALUE_MAX : nat := 256.
Definition STORE_OWNER_RECORD_V1_LEN : nat := 46.
Definition STORE_OWNER_RECORD_LEN : nat := 48.
Definition STORE_CANNED_RECORD_LEN : nat := 202.
Definition STORE_POSITION_FIXED_RECORD_LEN : nat := 18.
Definition STORE_HLC_RECORD_LEN : nat := 17.
Definition POSITION_SEED_VERSION : Z := 1.

(** The sections of meshtastic_Config with the fields the store reads or writes; [*_rest] is
    the remainder of a message. *)
Record device_config := DeviceConfig {
  dv_role : Z;
  dv_rebroadcast_mode : Z;
  dv_serial_enabled : bool;
  dv_node_info_broadcast_secs : Z;
  dv_rest : list Z;
}.
Definition set_dv_role (v : Z) (r : device_config) : device_config :=
DeviceConfig v (dv_rebroadcast_mode r) (dv_serial_enabled r) (dv_node_info_broadcast_secs r)
    (dv_rest r).
Definition set_dv_rebroadcast_mode (v : Z) (r : device_config) : device_config :=
DeviceConfig (dv_role r) v (dv_serial_enabled r) (dv_node_info_broadcast_secs r) (dv_rest
    r).
Definition set_dv_serial_enabled (v : bool) (r : device_config) : device_config :=
DeviceConfig (dv_role r) (dv_rebroadcast_mode r) v (dv_node_info_broadcast_secs r) (dv_rest
    r).
Definition set_dv_node_info_broadcast_secs (v : Z) (r : device_config) : device_config :=
DeviceConfig (dv_role r) (dv_rebroadcast_mode r) (dv_serial_enabled r) v (dv_rest r).
Definition set_dv_rest (v : list Z) (r : device_config) : device_config :=
DeviceConfig (dv_role r) (dv_rebroadcast_mode r) (dv_serial_enabled r)
    (dv_node_info_broadcast_secs r) v.
Record position_config := PositionConfig {
  ps_gps_mode : Z;
  ps_smart_enabled : bool;
  ps_minimum_distance : Z;
  ps_minimum_interval : Z;
  ps_flags : Z;
  ps_fixed_position : bool;
  ps_rest : list Z;
}.
Definition set_ps_gps_mode (v : Z) (r : position_config) : position_config :=
PositionConfig v (ps_smart_enabled r) (ps_minimum_distance r) (ps_minimum_interval r)
    (ps_flags r) (ps_fixed_position r) (ps_rest r).
Definition set_ps_smart_enabled (v : bool) (r : position_config) : position_config :=
PositionConfig (ps_gps_mode r) v (ps_minimum_distance r) (ps_minimum_interval r) (ps_flags
    r) (ps_fixed_position r) (ps_rest r).
Definition set_ps_minimum_distance (v : Z) (r : position_config) : position_config :=
PositionConfig (ps_gps_mode r) (ps_smart_enabled r) v (ps_minimum_interval r) (ps_flags r)
    (ps_fixed_position r) (ps_rest r).
Definition set_ps_minimum_interval (v : Z) (r : position_config) : position_config :=
PositionConfig (ps_gps_mode r) (ps_smart_enabled r) (ps_minimum_distance r) v (ps_flags r)
    (ps_fixed_position r) (ps_rest r).
Definition set_ps_flags (v : Z) (r : position_config) : position_config :=
PositionConfig (ps_gps_mode r) (ps_smart_enabled r) (ps_minimum_distance r)
    (ps_minimum_interval r) v (ps_fixed_position r) (ps_rest r).
Definition set_ps_fixed_position (v : bool) (r : position_config) : position_config :=
PositionConfig (ps_gps_mode r) (ps_smart_enabled r) (ps_minimum_distance r)
    (ps_minimum_interval r) (ps_flags r) v (ps_rest r).
Definition set_ps_rest (v : list Z) (r : position_config) : position_config :=
PositionConfig (ps_gps_mode r) (ps_smart_enabled r) (ps_minimum_distance r)
    (ps_minimum_interval r) (ps_flags r) (ps_fixed_position r) v.
Record lora_config := LoraConfig {
  lo_use_preset : bool;
  lo_modem_preset : Z;
  lo_bandwidth : Z;
  lo_spread_factor : Z;
  lo_coding_rate : Z;
  lo_region : Z;
  lo_hop_limit : Z;
  lo_tx_enabled : bool;
  lo_tx_power : Z;
  lo_override_duty_cycle : bool;
  lo_override_frequency : spec_float;
  lo_rx_boosted_gain : bool;
  lo_fem_lna_mode : Z;
  lo_ok_to_mqtt : bool;
  lo_rest : list Z;
}.
Definition set_lo_use_preset (v : bool) (r : lora_config) : lora_config :=
LoraConfig v (lo_modem_preset r) (lo_bandwidth r) (lo_spread_factor r) (lo_coding_rate r)
    (lo_region r) (lo_hop_limit r) (lo_tx_enabled r) (lo_tx_power r) (lo_override_duty_cycle
    r) (lo_override_frequency r) (lo_rx_boosted_gain r) (lo_fem_lna_mode r) (lo_ok_to_mqtt
    r) (lo_rest r).
Definition set_lo_modem_preset (v : Z) (r : lora_config) : lora_config :=
LoraConfig (lo_use_preset r) v (lo_bandwidth r) (lo_spread_factor r) (lo_coding_rate r)
    (lo_region r) (lo_hop_limit r) (lo_tx_enabled r) (lo_tx_power r) (lo_override_duty_cycle
    r) (lo_override_frequency r) (lo_rx_boosted_gain r) (lo_fem_lna_mode r) (lo_ok_to_mqtt
    r) (lo_rest r).
Definition set_lo_bandwidth (v : Z) (r : lora_config) : lora_config :=
LoraConfig (lo_use_preset r) (lo_modem_preset r) v (lo_spread_factor r) (lo_coding_rate r)
    (lo_region r) (lo_hop_limit r) (lo_tx_enabled r) (lo_tx_power r) (lo_override_duty_cycle
    r) (lo_override_frequency r) (lo_rx_boosted_gain r) (lo_fem_lna_mode r) (lo_ok_to_mqtt
    r) (lo_rest r).
Definition set_lo_spread_factor (v : Z) (r : lora_config) : lora_config :=
LoraConfig (lo_use_preset r) (lo_modem_preset r) (lo_bandwidth r) v (lo_coding_rate r)
    (lo_region r) (lo_hop_limit r) (lo_tx_enabled r) (lo_tx_power r) (lo_override_duty_cycle
    r) (lo_override_frequency r) (lo_rx_boosted_gain r) (lo_fem_lna_mode r) (lo_ok_to_mqtt
    r) (lo_rest r).
Definition set_lo_coding_rate (v : Z) (r : lora_config) : lora_config :=
LoraConfig (lo_use_preset r) (lo_modem_preset r) (lo_bandwidth r) (lo_spread_factor r) v
    (lo_region r) (lo_hop_limit r) (lo_tx_enabled r) (lo_tx_power r) (lo_override_duty_cycle
    r) (lo_override_frequency r) (lo_rx_boosted_gain r) (lo_fem_lna_mode r) (lo_ok_to_mqtt
    r) (lo_rest r).
Definition set_lo_region (v : Z) (r : lora_config) : lora_config :=
LoraConfig (lo_use_preset r) (lo_modem_preset r) (lo_bandwidth r) (lo_spread_factor r)
    (lo_coding_rate r) v (lo_hop_limit r) (lo_tx_enabled r) (lo_tx_power r)
    (lo_override_duty_cycle r) (lo_override_frequency r) (lo_rx_boosted_gain r)
    (lo_fem_lna_mode r) (lo_ok_to_mqtt r) (lo_rest r).
Definition set_lo_hop_limit (v : Z) (r : lora_config) : lora_config :=
LoraConfig (lo_use_preset r) (lo_modem_preset r) (lo_bandwidth r) (lo_spread_factor r)
    (lo_coding_rate r) (lo_region r) v (lo_tx_enabled r) (lo_tx_power r)
    (lo_override_duty_cycle r) (lo_override_frequency r) (lo_rx_boosted_gain r)
    (lo_fem_lna_mode r) (lo_ok_to_mqtt r) (lo_rest r).
Definition set_lo_tx_enabled (v : bool) (r : lora_config) : lora_config :=
LoraConfig (lo_use_preset r) (lo_modem_preset r) (lo_bandwidth r) (lo_spread_factor r)
    (lo_coding_rate r) (lo_region r) (lo_hop_limit r) v (lo_tx_power r)
    (lo_override_duty_cycle r) (lo_override_frequency r) (lo_rx_boosted_gain r)
    (lo_fem_lna_mode r) (lo_ok_to_mqtt r) (lo_rest r).
Definition set_lo_tx_power (v : Z) (r : lora_config) : lora_config :=
LoraConfig (lo_use_preset r) (lo_modem_preset r) (lo_bandwidth r) (lo_spread_factor r)
    (lo_coding_rate r) (lo_region r) (lo_hop_limit r) (lo_tx_enabled r) v
    (lo_override_duty_cycle r) (lo_override_frequency r) (lo_rx_boosted_gain r)
    (lo_fem_lna_mode r) (lo_ok_to_mqtt r) (lo_rest r).
Definition set_lo_override_duty_cycle (v : bool) (r : lora_config) : lora_config :=
LoraConfig (lo_use_preset r) (lo_modem_preset r) (lo_bandwidth r) (lo_spread_factor r)
    (lo_coding_rate r) (lo_region r) (lo_hop_limit r) (lo_tx_enabled r) (lo_tx_power r) v
    (lo_override_frequency r) (lo_rx_boosted_gain r) (lo_fem_lna_mode r) (lo_ok_to_mqtt r)
    (lo_rest r).
Definition set_lo_override_frequency (v : spec_float) (r : lora_config) : lora_config :=
LoraConfig (lo_use_preset r) (lo_modem_preset r) (lo_bandwidth r) (lo_spread_factor r)
    (lo_coding_rate r) (lo_region r) (lo_hop_limit r) (lo_tx_enabled r) (lo_tx_power r)
    (lo_override_duty_cycle r) v (lo_rx_boosted_gain r) (lo_fem_lna_mode r) (lo_ok_to_mqtt
    r) (lo_rest r).
Definition set_lo_rx_boosted_gain (v : bool) (r : lora_config) : lora_config :=
LoraConfig (lo_use_preset r) (lo_modem_preset r) (lo_bandwidth r) (lo_spread_factor r)
    (lo_coding_rate r) (lo_region r) (lo_hop_limit r) (lo_tx_enabled r) (lo_tx_power r)
    (lo_override_duty_cycle r) (lo_override_frequency r) v (lo_fem_lna_mode r)
    (lo_ok_to_mqtt r) (lo_rest r).
Definition set_lo_fem_lna_mode (v : Z) (r : lora_config) : lora_config :=
LoraConfig (lo_use_preset r) (lo_modem_preset r) (lo_bandwidth r) (lo_spread_factor r)
    (lo_coding_rate r) (lo_region r) (lo_hop_limit r) (lo_tx_enabled r) (lo_tx_power r)
    (lo_override_duty_cycle r) (lo_override_frequency r) (lo_rx_boosted_gain r) v
    (lo_ok_to_mqtt r) (lo_rest r).
Definition set_lo_ok_to_mqtt (v : bool) (r : lora_config) : lora_config :=
LoraConfig (lo_use_preset r) (lo_modem_preset r) (lo_bandwidth r) (lo_spread_factor r)
    (lo_coding_rate r) (lo_region r) (lo_hop_limit r) (lo_tx_enabled r) (lo_tx_power r)
    (lo_override_duty_cycle r) (lo_override_frequency r) (lo_rx_boosted_gain r)
    (lo_fem_lna_mode r) v (lo_rest r).
Definition set_lo_rest (v : list Z) (r : lora_config) : lora_config :=
LoraConfig (lo_use_preset r) (lo_modem_preset r) (lo_bandwidth r) (lo_spread_factor r)
    (lo_coding_rate r) (lo_region r) (lo_hop_limit r) (lo_tx_enabled r) (lo_tx_power r)
    (lo_override_duty_cycle r) (lo_override_frequency r) (lo_rx_boosted_gain r)
    (lo_fem_lna_mode r) (lo_ok_to_mqtt r) v.
Record bluetooth_config := BluetoothConfig {
  bt_enabled : bool;
  bt_mode : Z;
  bt_fixed_pin : Z;
  bt_rest : list Z;
}.
Definition set_bt_enabled (v : bool) (r : bluetooth_config) : bluetooth_config :=
BluetoothConfig v (bt_mode r) (bt_fixed_pin r) (bt_rest r).
Definition set_bt_mode (v : Z) (r : bluetooth_config) : bluetooth_config :=
BluetoothConfig (bt_enabled r) v (bt_fixed_pin r) (bt_rest r).
Definition set_bt_fixed_pin (v : Z) (r : bluetooth_config) : bluetooth_config :=
BluetoothConfig (bt_enabled r) (bt_mode r) v (bt_rest r).
Definition set_bt_rest (v : list Z) (r : bluetooth_config) : bluetooth_config :=
BluetoothConfig (bt_enabled r) (bt_mode r) (bt_fixed_pin r) v.
Record security_config := SecurityConfig {
  sc_private_key : list Z;
  sc_public_key : list Z;
  sc_admin_key : list (list Z);
  sc_is_managed : bool;
  sc_serial_enabled : bool;
  sc_debug_log_api_enabled : bool;
  sc_admin_channel_enabled : bool;
  sc_rest : list Z;
}.
Definition set_sc_private_key (v : list Z) (r : security_config) : security_config :=
SecurityConfig v (sc_public_key r) (sc_admin_key r) (sc_is_managed r) (sc_serial_enabled r)
    (sc_debug_log_api_enabled r) (sc_admin_channel_enabled r) (sc_rest r).
Definition set_sc_public_key (v : list Z) (r : security_config) : security_config :=
SecurityConfig (sc_private_key r) v (sc_admin_key r) (sc_is_managed r) (sc_serial_enabled r)
    (sc_debug_log_api_enabled r) (sc_admin_channel_enabled r) (sc_rest r).
Definition set_sc_admin_key (v : list (list Z)) (r : security_config) : security_config :=
SecurityConfig (sc_private_key r) (sc_public_key r) v (sc_is_managed r) (sc_serial_enabled
    r) (sc_debug_log_api_enabled r) (sc_admin_channel_enabled r) (sc_rest r).
Definition set_sc_is_managed (v : bool) (r : security_config) : security_config :=
SecurityConfig (sc_private_key r) (sc_public_key r) (sc_admin_key r) v (sc_serial_enabled r)
    (sc_debug_log_api_enabled r) (sc_admin_channel_enabled r) (sc_rest r).
Definition set_sc_serial_enabled (v : bool) (r : security_config) : security_config :=
SecurityConfig (sc_private_key r) (sc_public_key r) (sc_admin_key r) (sc_is_managed r) v
    (sc_debug_log_api_enabled r) (sc_admin_channel_enabled r) (sc_rest r).
Definition set_sc_debug_log_api_enabled (v : bool) (r : security_config) : security_config :=
SecurityConfig (sc_private_key r) (sc_public_key r) (sc_admin_key r) (sc_is_managed r)
    (sc_serial_enabled r) v (sc_admin_channel_enabled r) (sc_rest r).
Definition set_sc_admin_channel_enabled (v : bool) (r : security_config) : security_config :=
SecurityConfig (sc_private_key r) (sc_public_key r) (sc_admin_key r) (sc_is_managed r)
    (sc_serial_enabled r) (sc_debug_log_api_enabled r) v (sc_rest r).
Definition set_sc_rest (v : list Z) (r : security_config) : security_config :=
SecurityConfig (sc_private_key r) (sc_public_key r) (sc_admin_key r) (sc_is_managed r)
    (sc_serial_enabled r) (sc_debug_log_api_enabled r) (sc_admin_channel_enabled r) v.

Inductive config :=
  | NoConfig                             (* meshtastic_Config_init_zero *)
  | CDevice (c : device_config)
  | CPosition (c : position_config)
  | CPower (c : list Z)
  | CNetwork (c : list Z)
  | CDisplay (c : list Z)
  | CLora (c : lora_config)
  | CBluetooth (c : bluetooth_config)
  | CSecurity (c : security_config)
  | CSessionkey (c : list Z)
  | CDeviceUi (c : list Z).
Definition which_config (c : config) : Z :=
  match c with
  | NoConfig => 0 | CDevice _ => 1 | CPosition _ => 2 | CPower _ => 3 | CNetwork _ => 4 | CDisplay _ => 5
  | CLora _ => 6 | CBluetooth _ => 7 | CSecurity _ => 8 | CSessionkey _ => 9 | CDeviceUi _ => 10
  end.

Record mqtt_config := MqttConfig {
  mq_enabled : bool;
  mq_address : list Z;
  mq_username : list Z;
  mq_password : list Z;
  mq_root : list Z;
  mq_encryption_enabled : bool;
  mq_map_reporting_enabled : bool;
  mq_proxy_to_client : bool;
  mq_map_report : option (Z * Z * bool);
  mq_rest : list Z;
}.
Definition set_mq_enabled (v : bool) (r : mqtt_config) : mqtt_config :=
MqttConfig v (mq_address r) (mq_username r) (mq_password r) (mq_root r)
    (mq_encryption_enabled r) (mq_map_reporting_enabled r) (mq_proxy_to_client r)
    (mq_map_report r) (mq_rest r).
Definition set_mq_address (v : list Z) (r : mqtt_config) : mqtt_config :=
MqttConfig (mq_enabled r) v (mq_username r) (mq_password r) (mq_root r)
    (mq_encryption_enabled r) (mq_map_reporting_enabled r) (mq_proxy_to_client r)
    (mq_map_report r) (mq_rest r).
Definition set_mq_username (v : list Z) (r : mqtt_config) : mqtt_config :=
MqttConfig (mq_enabled r) (mq_address r) v (mq_password r) (mq_root r)
    (mq_encryption_enabled r) (mq_map_reporting_enabled r) (mq_proxy_to_client r)
    (mq_map_report r) (mq_rest r).
Definition set_mq_password (v : list Z) (r : mqtt_config) : mqtt_config :=
MqttConfig (mq_enabled r) (mq_address r) (mq_username r) v (mq_root r)
    (mq_encryption_enabled r) (mq_map_reporting_enabled r) (mq_proxy_to_client r)
    (mq_map_report r) (mq_rest r).
Definition set_mq_root (v : list Z) (r : mqtt_config) : mqtt_config :=
MqttConfig (mq_enabled r) (mq_address r) (mq_username r) (mq_password r) v
    (mq_encryption_enabled r) (mq_map_reporting_enabled r) (mq_proxy_to_client r)
    (mq_map_report r) (mq_rest r).
Definition set_mq_encryption_enabled (v : bool) (r : mqtt_config) : mqtt_config :=
MqttConfig (mq_enabled r) (mq_address r) (mq_username r) (mq_password r) (mq_root r) v
    (mq_map_reporting_enabled r) (mq_proxy_to_client r) (mq_map_report r) (mq_rest r).
Definition set_mq_map_reporting_enabled (v : bool) (r : mqtt_config) : mqtt_config :=
MqttConfig (mq_enabled r) (mq_address r) (mq_username r) (mq_password r) (mq_root r)
    (mq_encryption_enabled r) v (mq_proxy_to_client r) (mq_map_report r) (mq_rest r).
Definition set_mq_proxy_to_client (v : bool) (r : mqtt_config) : mqtt_config :=
MqttConfig (mq_enabled r) (mq_address r) (mq_username r) (mq_password r) (mq_root r)
    (mq_encryption_enabled r) (mq_map_reporting_enabled r) v (mq_map_report r) (mq_rest r).
Definition set_mq_map_report (v : option (Z * Z * bool)) (r : mqtt_config) : mqtt_config :=
MqttConfig (mq_enabled r) (mq_address r) (mq_username r) (mq_password r) (mq_root r)
    (mq_encryption_enabled r) (mq_map_reporting_enabled r) (mq_proxy_to_client r) v (mq_rest
    r).
Definition set_mq_rest (v : list Z) (r : mqtt_config) : mqtt_config :=
MqttConfig (mq_enabled r) (mq_address r) (mq_username r) (mq_password r) (mq_root r)
    (mq_encryption_enabled r) (mq_map_reporting_enabled r) (mq_proxy_to_client r)
    (mq_map_report r) v.
Record extnotify_config := ExtnotifyConfig {
  en_enabled : bool;
  en_active : bool;
  en_alert_message : bool;
  en_output_ms : Z;
  en_nag_timeout : Z;
  en_rest : list Z;
}.
Definition set_en_enabled (v : bool) (r : extnotify_config) : extnotify_config :=
ExtnotifyConfig v (en_active r) (en_alert_message r) (en_output_ms r) (en_nag_timeout r)
    (en_rest r).
Definition set_en_active (v : bool) (r : extnotify_config) : extnotify_config :=
ExtnotifyConfig (en_enabled r) v (en_alert_message r) (en_output_ms r) (en_nag_timeout r)
    (en_rest r).
Definition set_en_alert_message (v : bool) (r : extnotify_config) : extnotify_config :=
ExtnotifyConfig (en_enabled r) (en_active r) v (en_output_ms r) (en_nag_timeout r) (en_rest
    r).
Definition set_en_output_ms (v : Z) (r : extnotify_config) : extnotify_config :=
ExtnotifyConfig (en_enabled r) (en_active r) (en_alert_message r) v (en_nag_timeout r)
    (en_rest r).
Definition set_en_nag_timeout (v : Z) (r : extnotify_config) : extnotify_config :=
ExtnotifyConfig (en_enabled r) (en_active r) (en_alert_message r) (en_output_ms r) v
    (en_rest r).
Definition set_en_rest (v : list Z) (r : extnotify_config) : extnotify_config :=
ExtnotifyConfig (en_enabled r) (en_active r) (en_alert_message r) (en_output_ms r)
    (en_nag_timeout r) v.
Record telemetry_config := TelemetryConfig {
  te_device_enabled : bool;
  te_environment_enabled : bool;
  te_rest : list Z;
}.
Definition set_te_device_enabled (v : bool) (r : telemetry_config) : telemetry_config :=
TelemetryConfig v (te_environment_enabled r) (te_rest r).
Definition set_te_environment_enabled (v : bool) (r : telemetry_config) : telemetry_config :=
TelemetryConfig (te_device_enabled r) v (te_rest r).
Definition set_te_rest (v : list Z) (r : telemetry_config) : telemetry_config :=
TelemetryConfig (te_device_enabled r) (te_environment_enabled r) v.
Record traffic_config := TrafficConfig {
  tm_position_min_interval_secs : Z;
  tm_rest : list Z;
}.
Definition set_tm_position_min_interval_secs (v : Z) (r : traffic_config) : traffic_config :=
TrafficConfig v (tm_rest r).
Definition set_tm_rest (v : list Z) (r : traffic_config) : traffic_config :=
TrafficConfig (tm_position_min_interval_secs r) v.

Inductive module_config :=
  | MMqtt (m : mqtt_config)
  | MExtnotify (m : extnotify_config)
  | MTelemetry (m : telemetry_config)
  | MTraffic (m : traffic_config)
  | MOther (tag : Z) (m : list Z).       (* the other thirteen, by their tag; 0 for none *)
Definition which_module (m : module_config) : Z :=
  match m with MMqtt _ => 1 | MExtnotify _ => 3 | MTelemetry _ => 6 | MTraffic _ => 15 | MOther tag _ => tag end.

Definition config_names : list (string * Z) := [
  ("device", 1); ("position", 2); ("power", 3); ("network", 4); ("display", 5);
  ("lora", 6); ("bluetooth", 7); ("security", 8); ("sessionkey", 9); ("device_ui", 10)].
Definition module_names : list (string * Z) := [
  ("mqtt", 1); ("serial", 2); ("external_notification", 3); ("store_forward", 4); ("range_test", 5);
  ("telemetry", 6); ("canned_message", 7); ("audio", 8); ("remote_hardware", 9); ("neighbor_info", 10);
  ("ambient_lighting", 11); ("detection_sensor", 12); ("paxcounter", 13); ("statusmessage", 14);
  ("traffic_management", 15); ("tak", 16); ("mesh_beacon", 17)].

Record fixed_position := FixedPosition {
  fp_has_latitude : bool;
  fp_latitude_i : Z;
  fp_has_longitude : bool;
  fp_longitude_i : Z;
  fp_has_altitude : bool;
  fp_altitude : Z;
  fp_precision_bits : Z;
  fp_location_source : Z;
  fp_rest : list Z;
}.
Definition set_fp_has_latitude (v : bool) (r : fixed_position) : fixed_position :=
FixedPosition v (fp_latitude_i r) (fp_has_longitude r) (fp_longitude_i r) (fp_has_altitude
    r) (fp_altitude r) (fp_precision_bits r) (fp_location_source r) (fp_rest r).
Definition set_fp_latitude_i (v : Z) (r : fixed_position) : fixed_position :=
FixedPosition (fp_has_latitude r) v (fp_has_longitude r) (fp_longitude_i r) (fp_has_altitude
    r) (fp_altitude r) (fp_precision_bits r) (fp_location_source r) (fp_rest r).
Definition set_fp_has_longitude (v : bool) (r : fixed_position) : fixed_position :=
FixedPosition (fp_has_latitude r) (fp_latitude_i r) v (fp_longitude_i r) (fp_has_altitude r)
    (fp_altitude r) (fp_precision_bits r) (fp_location_source r) (fp_rest r).
Definition set_fp_longitude_i (v : Z) (r : fixed_position) : fixed_position :=
FixedPosition (fp_has_latitude r) (fp_latitude_i r) (fp_has_longitude r) v (fp_has_altitude
    r) (fp_altitude r) (fp_precision_bits r) (fp_location_source r) (fp_rest r).
Definition set_fp_has_altitude (v : bool) (r : fixed_position) : fixed_position :=
FixedPosition (fp_has_latitude r) (fp_latitude_i r) (fp_has_longitude r) (fp_longitude_i r)
    v (fp_altitude r) (fp_precision_bits r) (fp_location_source r) (fp_rest r).
Definition set_fp_altitude (v : Z) (r : fixed_position) : fixed_position :=
FixedPosition (fp_has_latitude r) (fp_latitude_i r) (fp_has_longitude r) (fp_longitude_i r)
    (fp_has_altitude r) v (fp_precision_bits r) (fp_location_source r) (fp_rest r).
Definition set_fp_precision_bits (v : Z) (r : fixed_position) : fixed_position :=
FixedPosition (fp_has_latitude r) (fp_latitude_i r) (fp_has_longitude r) (fp_longitude_i r)
    (fp_has_altitude r) (fp_altitude r) v (fp_location_source r) (fp_rest r).
Definition set_fp_location_source (v : Z) (r : fixed_position) : fixed_position :=
FixedPosition (fp_has_latitude r) (fp_latitude_i r) (fp_has_longitude r) (fp_longitude_i r)
    (fp_has_altitude r) (fp_altitude r) (fp_precision_bits r) v (fp_rest r).
Definition set_fp_rest (v : list Z) (r : fixed_position) : fixed_position :=
FixedPosition (fp_has_latitude r) (fp_latitude_i r) (fp_has_longitude r) (fp_longitude_i r)
    (fp_has_altitude r) (fp_altitude r) (fp_precision_bits r) (fp_location_source r) v.
Definition position_zero : fixed_position := FixedPosition false 0 false 0 false 0 0 0 [].
Definition LOC_MANUAL : Z := 1.

Record store := Store {
  s_long_name : list Z;
  s_short_name : list Z;
  s_is_licensed : bool;
  s_is_unmessagable : bool;
  s_canned_messages : list Z;
  s_channels : list channel;
  s_configs : list config;
  s_modules : list module_config;
  s_fixed_position : option fixed_position;
  s_hlc : hlc;
  s_config_stamps : list hlc_stamp;
  s_module_stamps : list hlc_stamp;
  s_position_seed : Z;
}.
Definition set_s_long_name (v : list Z) (r : store) : store :=
Store v (s_short_name r) (s_is_licensed r) (s_is_unmessagable r) (s_canned_messages r)
    (s_channels r) (s_configs r) (s_modules r) (s_fixed_position r) (s_hlc r)
    (s_config_stamps r) (s_module_stamps r) (s_position_seed r).
Definition set_s_short_name (v : list Z) (r : store) : store :=
Store (s_long_name r) v (s_is_licensed r) (s_is_unmessagable r) (s_canned_messages r)
    (s_channels r) (s_configs r) (s_modules r) (s_fixed_position r) (s_hlc r)
    (s_config_stamps r) (s_module_stamps r) (s_position_seed r).
Definition set_s_is_licensed (v : bool) (r : store) : store :=
Store (s_long_name r) (s_short_name r) v (s_is_unmessagable r) (s_canned_messages r)
    (s_channels r) (s_configs r) (s_modules r) (s_fixed_position r) (s_hlc r)
    (s_config_stamps r) (s_module_stamps r) (s_position_seed r).
Definition set_s_is_unmessagable (v : bool) (r : store) : store :=
Store (s_long_name r) (s_short_name r) (s_is_licensed r) v (s_canned_messages r) (s_channels
    r) (s_configs r) (s_modules r) (s_fixed_position r) (s_hlc r) (s_config_stamps r)
    (s_module_stamps r) (s_position_seed r).
Definition set_s_canned_messages (v : list Z) (r : store) : store :=
Store (s_long_name r) (s_short_name r) (s_is_licensed r) (s_is_unmessagable r) v (s_channels
    r) (s_configs r) (s_modules r) (s_fixed_position r) (s_hlc r) (s_config_stamps r)
    (s_module_stamps r) (s_position_seed r).
Definition set_s_channels (v : list channel) (r : store) : store :=
Store (s_long_name r) (s_short_name r) (s_is_licensed r) (s_is_unmessagable r)
    (s_canned_messages r) v (s_configs r) (s_modules r) (s_fixed_position r) (s_hlc r)
    (s_config_stamps r) (s_module_stamps r) (s_position_seed r).
Definition set_s_configs (v : list config) (r : store) : store :=
Store (s_long_name r) (s_short_name r) (s_is_licensed r) (s_is_unmessagable r)
    (s_canned_messages r) (s_channels r) v (s_modules r) (s_fixed_position r) (s_hlc r)
    (s_config_stamps r) (s_module_stamps r) (s_position_seed r).
Definition set_s_modules (v : list module_config) (r : store) : store :=
Store (s_long_name r) (s_short_name r) (s_is_licensed r) (s_is_unmessagable r)
    (s_canned_messages r) (s_channels r) (s_configs r) v (s_fixed_position r) (s_hlc r)
    (s_config_stamps r) (s_module_stamps r) (s_position_seed r).
Definition set_s_fixed_position (v : option fixed_position) (r : store) : store :=
Store (s_long_name r) (s_short_name r) (s_is_licensed r) (s_is_unmessagable r)
    (s_canned_messages r) (s_channels r) (s_configs r) (s_modules r) v (s_hlc r)
    (s_config_stamps r) (s_module_stamps r) (s_position_seed r).
Definition set_s_hlc (v : hlc) (r : store) : store :=
Store (s_long_name r) (s_short_name r) (s_is_licensed r) (s_is_unmessagable r)
    (s_canned_messages r) (s_channels r) (s_configs r) (s_modules r) (s_fixed_position r) v
    (s_config_stamps r) (s_module_stamps r) (s_position_seed r).
Definition set_s_config_stamps (v : list hlc_stamp) (r : store) : store :=
Store (s_long_name r) (s_short_name r) (s_is_licensed r) (s_is_unmessagable r)
    (s_canned_messages r) (s_channels r) (s_configs r) (s_modules r) (s_fixed_position r)
    (s_hlc r) v (s_module_stamps r) (s_position_seed r).
Definition set_s_module_stamps (v : list hlc_stamp) (r : store) : store :=
Store (s_long_name r) (s_short_name r) (s_is_licensed r) (s_is_unmessagable r)
    (s_canned_messages r) (s_channels r) (s_configs r) (s_modules r) (s_fixed_position r)
    (s_hlc r) (s_config_stamps r) v (s_position_seed r).
Definition set_s_position_seed (v : Z) (r : store) : store :=
Store (s_long_name r) (s_short_name r) (s_is_licensed r) (s_is_unmessagable r)
    (s_canned_messages r) (s_channels r) (s_configs r) (s_modules r) (s_fixed_position r)
    (s_hlc r) (s_config_stamps r) (s_module_stamps r) v.

(** What the configuration is applied to: the global context with the radio's modem and the
    channel table ([mt_world]), the duty limiter's ceiling and the front end. *)
Record context := Context_ {
  mt_world : pworld;
  mt_node_id : Z;
  mt_hop_limit : Z;
  mt_tx_power : Z;
  mt_licensed : bool;
  mt_rx_boosted_gain : bool;
  mt_tx_enabled : bool;
  mt_ok_to_mqtt : bool;
  mt_duty_override : bool;
  mt_duty_region : option (Z * Z);
  mt_fem_lna : option bool;
}.
Definition set_mt_world (v : pworld) (r : context) : context :=
Context_ v (mt_node_id r) (mt_hop_limit r) (mt_tx_power r) (mt_licensed r)
    (mt_rx_boosted_gain r) (mt_tx_enabled r) (mt_ok_to_mqtt r) (mt_duty_override r)
    (mt_duty_region r) (mt_fem_lna r).
Definition set_mt_node_id (v : Z) (r : context) : context :=
Context_ (mt_world r) v (mt_hop_limit r) (mt_tx_power r) (mt_licensed r) (mt_rx_boosted_gain
    r) (mt_tx_enabled r) (mt_ok_to_mqtt r) (mt_duty_override r) (mt_duty_region r)
    (mt_fem_lna r).
Definition set_mt_hop_limit (v : Z) (r : context) : context :=
Context_ (mt_world r) (mt_node_id r) v (mt_tx_power r) (mt_licensed r) (mt_rx_boosted_gain
    r) (mt_tx_enabled r) (mt_ok_to_mqtt r) (mt_duty_override r) (mt_duty_region r)
    (mt_fem_lna r).
Definition set_mt_tx_power (v : Z) (r : context) : context :=
Context_ (mt_world r) (mt_node_id r) (mt_hop_limit r) v (mt_licensed r) (mt_rx_boosted_gain
    r) (mt_tx_enabled r) (mt_ok_to_mqtt r) (mt_duty_override r) (mt_duty_region r)
    (mt_fem_lna r).
Definition set_mt_licensed (v : bool) (r : context) : context :=
Context_ (mt_world r) (mt_node_id r) (mt_hop_limit r) (mt_tx_power r) v (mt_rx_boosted_gain
    r) (mt_tx_enabled r) (mt_ok_to_mqtt r) (mt_duty_override r) (mt_duty_region r)
    (mt_fem_lna r).
Definition set_mt_rx_boosted_gain (v : bool) (r : context) : context :=
Context_ (mt_world r) (mt_node_id r) (mt_hop_limit r) (mt_tx_power r) (mt_licensed r) v
    (mt_tx_enabled r) (mt_ok_to_mqtt r) (mt_duty_override r) (mt_duty_region r) (mt_fem_lna
    r).
Definition set_mt_tx_enabled (v : bool) (r : context) : context :=
Context_ (mt_world r) (mt_node_id r) (mt_hop_limit r) (mt_tx_power r) (mt_licensed r)
    (mt_rx_boosted_gain r) v (mt_ok_to_mqtt r) (mt_duty_override r) (mt_duty_region r)
    (mt_fem_lna r).
Definition set_mt_ok_to_mqtt (v : bool) (r : context) : context :=
Context_ (mt_world r) (mt_node_id r) (mt_hop_limit r) (mt_tx_power r) (mt_licensed r)
    (mt_rx_boosted_gain r) (mt_tx_enabled r) v (mt_duty_override r) (mt_duty_region r)
    (mt_fem_lna r).
Definition set_mt_duty_override (v : bool) (r : context) : context :=
Context_ (mt_world r) (mt_node_id r) (mt_hop_limit r) (mt_tx_power r) (mt_licensed r)
    (mt_rx_boosted_gain r) (mt_tx_enabled r) (mt_ok_to_mqtt r) v (mt_duty_region r)
    (mt_fem_lna r).
Definition set_mt_duty_region (v : option (Z * Z)) (r : context) : context :=
Context_ (mt_world r) (mt_node_id r) (mt_hop_limit r) (mt_tx_power r) (mt_licensed r)
    (mt_rx_boosted_gain r) (mt_tx_enabled r) (mt_ok_to_mqtt r) (mt_duty_override r) v
    (mt_fem_lna r).
Definition set_mt_fem_lna (v : option bool) (r : context) : context :=
Context_ (mt_world r) (mt_node_id r) (mt_hop_limit r) (mt_tx_power r) (mt_licensed r)
    (mt_rx_boosted_gain r) (mt_tx_enabled r) (mt_ok_to_mqtt r) (mt_duty_override r)
    (mt_duty_region r) v.

(** One record of the flash; [None] is an entry of the table that is not in use. *)
Record track_entry := TrackEntry { te_name_crc : Z; te_val_crc : Z; te_len : Z }.
Record saver := Saver {
  track : list (option track_entry);
  save_written : Z;
  save_skipped : Z;
  save_pending : bool;
  save_suppressed : bool;
  flash : gmap string (list Z);
}.
Definition set_track (v : list (option track_entry)) (r : saver) : saver :=
Saver v (save_written r) (save_skipped r) (save_pending r) (save_suppressed r) (flash r).
Definition set_save_written (v : Z) (r : saver) : saver :=
Saver (track r) v (save_skipped r) (save_pending r) (save_suppressed r) (flash r).
Definition set_save_skipped (v : Z) (r : saver) : saver :=
Saver (track r) (save_written r) v (save_pending r) (save_suppressed r) (flash r).
Definition set_save_pending (v : bool) (r : saver) : saver :=
Saver (track r) (save_written r) (save_skipped r) v (save_suppressed r) (flash r).
Definition set_save_suppressed (v : bool) (r : saver) : saver :=
Saver (track r) (save_written r) (save_skipped r) (save_pending r) v (flash r).
Definition set_flash (v : gmap string (list Z)) (r : saver) : saver :=
Saver (track r) (save_written r) (save_skipped r) (save_pending r) (save_suppressed r) v.

Record cnode := CNode {
  cn_store : store;
  cn_mt : context;
  cn_saver : saver;
}.
Definition set_cn_store (v : store) (r : cnode) : cnode :=
CNode v (cn_mt r) (cn_saver r).
Definition set_cn_mt (v : context) (r : cnode) : cnode :=
CNode (cn_store r) v (cn_saver r).
Definition set_cn_saver (v : saver) (r : cnode) : cnode :=
CNode (cn_store r) (cn_mt r) v.

(** The build: the Kconfig values the store is seeded from, and the board. *)
Record mqtt_build := MqttBuild {
  kq_address : list Z; kq_username : list Z; kq_password : list Z; kq_root : list Z;
  kq_encryption : bool; kq_proxy : bool; kq_broker : bool; kq_map_report : option (Z * Z);
}.
Record build := Build {
  k_long_name : list Z; k_short_name : list Z; k_rebroadcast_mode : Z; k_serial : bool; k_gnss : bool;
  k_ok_to_mqtt : bool; k_region : Z; k_tx_enabled : bool; k_ble : bool; k_ble_passkey : option Z;
  k_device_metrics : bool; k_environment_metrics : bool;
  k_extnotify : option bool;                 (* built in: seeded enabled? *)
  k_traffic_interval : option Z; k_mqtt : option mqtt_build;
  k_power : power_config; k_fem_can_control : bool; k_track_cap : nat;
  k_crc32 : list Z -> Z;                     (* crc32_ieee *)
}.
(** What one call reads: the clock, and what retuning the radio needs. *)
Record cenv := CEnv { ce_epoch_ms : Z; ce_preset : penv }.

Class ConfigCodec := {
  pb_config : config -> option (list Z);  pb_config_decode : list Z -> option config;
  pb_module : module_config -> option (list Z);  pb_module_decode : list Z -> option module_config;
  pb_channel : channel -> option (list Z);  pb_channel_decode : list Z -> option channel;
  pb_config_round : forall c b, pb_config c = Some b -> pb_config_decode b = Some c;
  pb_module_round : forall m b, pb_module m = Some b -> pb_module_decode b = Some m;
  pb_channel_round : forall c b, pb_channel c = Some b -> pb_channel_decode b = Some c;
}.

(** ** Names and tags *)

Definition index_for (p : string * Z -> bool) (l : list (string * Z)) : option nat := fst <$> list_find (fun e => p e = true) l.
Definition index_for_config_tag (tag : Z) : option nat := index_for (fun e => e.2 =? tag) config_names.
Definition index_for_module_tag (tag : Z) : option nat := index_for (fun e => e.2 =? tag) module_names.
Definition index_for_config_name (name : string) : option nat := index_for (fun e => String.eqb e.1 name) config_names.
Definition index_for_module_name (name : string) : option nat := index_for (fun e => String.eqb e.1 name) module_names.

(** What follows a prefix: strncmp and the pointer past it. *)
Fixpoint strip (pre s : string) : option string :=
  match pre, s with
  | EmptyString, _ => Some s
  | String a pre, String b s => if Ascii.eqb a b then strip pre s else None
  | _, _ => None
  end.

(** strtoul in base 10, with what is left of the text; unsigned long has 32 bits. *)
Definition is_space (a : Ascii.ascii) : bool := let n := Ascii.nat_of_ascii a in (n =? 32)%nat || ((9 <=? n)%nat && (n <=? 13)%nat).
Definition digit (a : Ascii.ascii) : option Z :=
  let n := Z.of_nat (Ascii.nat_of_ascii a) in if (48 <=? n) && (n <=? 57) then Some (n - 48) else None.
Fixpoint digits (s : string) (acc : Z) : Z * string :=
  match s with
  | String a t => match digit a with Some d => digits t (Z.min UINT32_MAX (acc * 10 + d)) | None => (acc, s) end
  | EmptyString => (acc, s)
  end.
Fixpoint skip_space (s : string) : string :=
  match s with String a t => if is_space a then skip_space t else s | EmptyString => s end.
Definition strtoul (s : string) : Z * string :=
  let '(neg, t) := match skip_space s with
    | String a t => if (Ascii.nat_of_ascii a =? 45)%nat then (true, t) else if (Ascii.nat_of_ascii a =? 43)%nat then (false, t) else (false, String a t)
    | EmptyString => (false, EmptyString)
    end in
  match t with
  | String a _ =>
      match digit a with
      | Some _ => let '(v, rest) := digits t 0 in (if neg then u32 (- v) else v, rest)
      | None => (0, s)
      end
  | EmptyString => (0, s)
  end.
Definition parse_channel_index (name : string) : res nat :=
  match name with
  | EmptyString => Fail EINVAL
  | _ =>
      let '(parsed, rest) := strtoul name in
      match rest with
      | EmptyString => if Z.of_nat MESHTASTIC_MAX_CHANNELS <=? parsed then Fail EINVAL else Val (Z.to_nat parsed)
      | _ => Fail EINVAL
      end
  end.

(** ** Validity *)

Definition channel_is_valid (ch : channel) : bool :=
  (ch_role ch <=? ROLE_SECONDARY) &&
  let n := length (psk (settings ch)) in (n =? 0)%nat || (n =? 1)%nat || (n =? 16)%nat || (n =? 32)%nat.

(** binary32, and the conversion to an integer of 32 bits. *)
Definition f32_mul : spec_float -> spec_float -> spec_float := SFmul 24 128.
Definition f32_million : spec_float := S754_finite false 16000000 (-4).
Definition f32_positive (f : spec_float) : bool := match SFcompare f (S754_zero false) with Some Gt => true | _ => false end.
Definition f32_to_u32 (f : spec_float) : Z :=
  match f with
  | S754_finite s m e => u32 (let v := if e <? 0 then Zpos m / 2 ^ (- e) else Zpos m * 2 ^ e in if s then - v else v)
  | _ => 0
  end.
Definition override_hz (l : lora_config) : Z := f32_to_u32 (f32_mul (lo_override_frequency l) f32_million).

Definition lora_is_valid (l : lora_config) : bool :=
  if lo_region l =? R_LORA_24 then false
  else
    let band_ok :=
      if negb (lo_region l =? R_UNSET) then
        match meshtastic_region_info (lo_region l) with
        | Fail _ => false
        | Val info =>
            if ri_licensed_only info then false
            else if f32_positive (lo_override_frequency l) then
              negb ((override_hz l <? ri_freq_start_hz info) || (ri_freq_end_hz info <? override_hz l))
            else true
        end
      else negb (f32_positive (lo_override_frequency l)) in
    band_ok && (lo_hop_limit l <=? 7).
Definition ROLE_CLIENT_BASE : Z := 12.
Definition MODE_CORE_PORTNUMS_ONLY : Z := 5.
Definition PAIRING_NO_PIN : Z := 2.
Definition PAIRING_FIXED_PIN : Z := 1.
Definition config_is_valid (c : config) : bool :=
  match index_for_config_tag (which_config c) with
  | None => false
  | Some _ =>
      match c with
      | CDevice d => (dv_role d <=? ROLE_CLIENT_BASE) && (dv_rebroadcast_mode d <=? MODE_CORE_PORTNUMS_ONLY)
      | CLora l => lora_is_valid l
      | CBluetooth b => bt_mode b <=? PAIRING_NO_PIN
      | _ => true
      end
  end.
Definition module_is_valid (m : module_config) : bool := bool_decide (is_Some (index_for_module_tag (which_module m))).

(** ** C strings *)

Fixpoint until_nul (l : list Z) : list Z :=
  match l with [] => [] | b :: t => if b =? 0 then [] else b :: until_nul t end.
Definition copy_string (dst_len : nat) (src : list Z) : list Z := take (dst_len - 1) src.
Definition copy_fixed_string (dst_len : nat) (src : list Z) (src_len : nat) : list Z :=
  take (dst_len - 1) (until_nul (take src_len src)).
Definition hex_digit (d : Z) : Z := if d <? 10 then 48 + d else 87 + d.
Definition hex4 (v : Z) : list Z := (fun k => hex_digit (Z.land (Z.shiftr v (4 * k)) 15)) <$> [3; 2; 1; 0].

(** ** Versions *)

Definition stamp_local (env : cenv) (mt : context) (st : store) : store * hlc_stamp :=
  let '(h, s) := hlc_local (s_hlc st) (mt_node_id mt) (ce_epoch_ms env) in (set_s_hlc h st, s).
Definition stamp_config (env : cenv) (mt : context) (i : nat) (st : store) : store :=
  let '(st, s) := stamp_local env mt st in set_s_config_stamps (<[i := s]> (s_config_stamps st)) st.
Definition stamp_module (env : cenv) (mt : context) (i : nat) (st : store) : store :=
  let '(st, s) := stamp_local env mt st in set_s_module_stamps (<[i := s]> (s_module_stamps st)) st.
Definition observe_stamp (env : cenv) (seen : hlc_stamp) (st : store) : store :=
  set_s_hlc (hlc_observe (s_hlc st) seen (ce_epoch_ms env)).1 st.

Definition put_config (i : nat) (c : config) (st : store) : store := set_s_configs (<[i := c]> (s_configs st)) st.
Definition put_module (i : nat) (m : module_config) (st : store) : store := set_s_modules (<[i := m]> (s_modules st)) st.

(** ** The sections' places in the tables *)

Definition DEVICE_IDX : nat := 0.
Definition POSITION_IDX : nat := 1.
Definition LORA_IDX : nat := 5.
Definition BLUETOOTH_IDX : nat := 6.
Definition SECURITY_IDX : nat := 7.
Definition MQTT_IDX : nat := 0.
Definition EXTNOTIFY_IDX : nat := 2.
Definition TELEMETRY_IDX : nat := 5.
Definition TRAFFIC_IDX : nat := 14.

Definition device_zero : device_config := DeviceConfig 0 0 false 0 [].
Definition position_config_zero : position_config := PositionConfig 0 false 0 0 0 false [].
Definition lora_zero : lora_config := LoraConfig false 0 0 0 0 0 0 false 0 false (S754_zero false) false 0 false [].
Definition bluetooth_zero : bluetooth_config := BluetoothConfig false 0 0 [].
Definition security_zero : security_config := SecurityConfig [] [] [] false false false false [].
(** A field of a section that is in the table under its own tag. *)
Definition on_device (f : device_config -> device_config) (c : config) : config := match c with CDevice d => CDevice (f d) | c => c end.
Definition on_position (f : position_config -> position_config) (c : config) : config := match c with CPosition p => CPosition (f p) | c => c end.
Definition on_lora (f : lora_config -> lora_config) (c : config) : config := match c with CLora l => CLora (f l) | c => c end.
Definition on_bluetooth (f : bluetooth_config -> bluetooth_config) (c : config) : config := match c with CBluetooth b => CBluetooth (f b) | c => c end.
Definition on_telemetry (f : telemetry_config -> telemetry_config) (m : module_config) : module_config := match m with MTelemetry t => MTelemetry (f t) | m => m end.
Definition on_traffic (f : traffic_config -> traffic_config) (m : module_config) : module_config := match m with MTraffic t => MTraffic (f t) | m => m end.
Definition on_extnotify (f : extnotify_config -> extnotify_config) (m : module_config) : module_config := match m with MExtnotify t => MExtnotify (f t) | m => m end.
Definition on_mqtt (f : mqtt_config -> mqtt_config) (m : module_config) : module_config := match m with MMqtt t => MMqtt (f t) | m => m end.
Definition edit_config (i : nat) (f : config -> config) (st : store) : store := set_s_configs (alter f i (s_configs st)) st.
Definition edit_module (i : nat) (f : module_config -> module_config) (st : store) : store := set_s_modules (alter f i (s_modules st)) st.

Definition device_of (st : store) : device_config := match s_configs st !! DEVICE_IDX with Some (CDevice d) => d | _ => device_zero end.
Definition lora_of (st : store) : lora_config := match s_configs st !! LORA_IDX with Some (CLora l) => l | _ => lora_zero end.

(** An entry of the tables, zeroed but for its tag. *)
Definition init_config_entry (tag : Z) : config :=
  match tag with
  | 1 => CDevice device_zero | 2 => CPosition position_config_zero | 3 => CPower [] | 4 => CNetwork [] | 5 => CDisplay []
  | 6 => CLora lora_zero | 7 => CBluetooth bluetooth_zero | 8 => CSecurity security_zero | 9 => CSessionkey []
  | 10 => CDeviceUi [] | _ => NoConfig
  end.
Definition init_module_entry (tag : Z) : module_config :=
  match tag with
  | 1 => MMqtt (MqttConfig false [] [] [] [] false false false None [])
  | 3 => MExtnotify (ExtnotifyConfig false false false 0 0 [])
  | 6 => MTelemetry (TelemetryConfig false false [])
  | 15 => MTraffic (TrafficConfig 0 [])
  | t => MOther t []
  end.

Definition FLAGS_SEED : Z := foldr Z.lor 0 [1; 2; 512; 256; 8; 32].  (* ALTITUDE ALTITUDE_MSL SPEED HEADING DOP SATINVIEW *)
Definition GPS_ENABLED : Z := 1.
Definition GPS_NOT_PRESENT : Z := 2.
Definition LNA_DISABLED : Z := 0.
Definition LNA_ENABLED : Z := 1.
Definition LNA_NOT_PRESENT : Z := 2.

(** The role and the rebroadcast mode by their numbers, as [Channels] has them. *)
Definition role_of (r : Z) : device_role_t :=
  match r with 0 => CLIENT | 1 => CLIENT_MUTE | 2 => ROUTER | 5 => TRACKER | 8 => CLIENT_HIDDEN | 11 => ROUTER_LATE | 12 => CLIENT_BASE | _ => RoleOther end.
Definition mode_of (m : Z) : rebroadcast_t :=
  match m with 0 => RB_ALL | 1 => ALL_SKIP_DECODING | 2 => LOCAL_ONLY | 3 => KNOWN_ONLY | 4 => RB_NONE | _ => CORE_PORTNUMS_ONLY end.

(** ** Seeds *)

Definition position_seeded (p : position_config) : position_config :=
  set_ps_flags FLAGS_SEED (set_ps_minimum_interval 300 (set_ps_minimum_distance 100 (set_ps_smart_enabled true p))).
Definition seed_position_broadcast (st : store) : store := edit_config POSITION_IDX (on_position position_seeded) st.
Definition seed_position_once (st : store) : store :=
  edit_config POSITION_IDX (on_position (fun p =>
    let flags := ps_flags p in let p := position_seeded p in if negb (flags =? 0) then set_ps_flags flags p else p)) st.

Section Build.
Context (k : build).

Definition seed_telemetry_flags (st : store) : store :=
  edit_module TELEMETRY_IDX (on_telemetry (fun t =>
    set_te_environment_enabled (k_environment_metrics k) (set_te_device_enabled (k_device_metrics k) t))) st.
Definition stamp_at (l : list hlc_stamp) (i : nat) : hlc_stamp := default unset_stamp (l !! i).
Definition reconcile_stamped_seeds_locked (st : store) : store :=
  let st := if meshtastic_hlc_stamp_is_unset (stamp_at (s_module_stamps st) TELEMETRY_IDX) then seed_telemetry_flags st else st in
  if meshtastic_hlc_stamp_is_unset (stamp_at (s_config_stamps st) POSITION_IDX) then seed_position_broadcast st else st.
Definition reconcile_seeds_locked (st : store) : store :=
  let st := reconcile_stamped_seeds_locked st in
  if s_position_seed st <? POSITION_SEED_VERSION then seed_position_once st else st.
Definition meshtastic_config_store_reconcile_seeds (st : store) : store := reconcile_seeds_locked st.

(** [role] is meshtastic_device_role, read from the running node. *)
Definition seed_config_defaults (role : Z) (mt : context) (st : store) : store :=
  let st := set_s_configs ((fun e => init_config_entry e.2) <$> config_names) st in
  let st := edit_config DEVICE_IDX (on_device (fun d =>
    set_dv_serial_enabled (k_serial k) (set_dv_rebroadcast_mode (k_rebroadcast_mode k) (set_dv_role role d)))) st in
  let st := edit_config POSITION_IDX (on_position (set_ps_gps_mode (if k_gnss k then GPS_ENABLED else GPS_NOT_PRESENT))) st in
  let st := seed_position_broadcast st in
  let st := edit_config LORA_IDX (on_lora (fun l =>
    let l := set_lo_modem_preset P_LONG_FAST (set_lo_ok_to_mqtt (k_ok_to_mqtt k) (set_lo_use_preset true l)) in
    let l := set_lo_hop_limit (mt_hop_limit mt) (set_lo_region (k_region k) l) in
    let l := set_lo_tx_power (mt_tx_power mt) (set_lo_tx_enabled (k_tx_enabled k) l) in
    set_lo_fem_lna_mode (if k_fem_can_control k then LNA_ENABLED else LNA_NOT_PRESENT) (set_lo_rx_boosted_gain true l))) st in
  edit_config BLUETOOTH_IDX (on_bluetooth (fun b =>
    let b := set_bt_enabled (k_ble k) b in
    match k_ble_passkey k with
    | Some pin => set_bt_fixed_pin pin (set_bt_mode PAIRING_FIXED_PIN b)
    | None => set_bt_mode PAIRING_NO_PIN b
    end)) st.

Definition seed_mqtt (m : mqtt_config) : mqtt_config :=
  match k_mqtt k with
  | None => set_mq_enabled false m
  | Some q =>
      let m := set_mq_username (copy_string 64 (kq_username q)) (set_mq_address (copy_string 64 (kq_address q)) (set_mq_enabled true m)) in
      let m := set_mq_root (copy_string 32 (kq_root q)) (set_mq_password (copy_string 32 (kq_password q)) m) in
      let m := set_mq_map_reporting_enabled (bool_decide (is_Some (kq_map_report q))) (set_mq_encryption_enabled (kq_encryption q) m) in
      let m := set_mq_proxy_to_client (kq_proxy q && negb (kq_broker q)) m in
      match kq_map_report q with Some (secs, prec) => set_mq_map_report (Some (secs, prec, true)) m | None => m end
  end.
Definition seed_module_defaults (st : store) : store :=
  let st := set_s_modules ((fun e => init_module_entry e.2) <$> module_names) st in
  let st := match k_extnotify k with
    | Some on => edit_module EXTNOTIFY_IDX (on_extnotify (fun e => ExtnotifyConfig on true true 1000 60 (en_rest e))) st
    | None => st
    end in
  let st := match k_traffic_interval k with
    | Some secs => edit_module TRAFFIC_IDX (on_traffic (set_tm_position_min_interval_secs secs)) st
    | None => st
    end in
  edit_module MQTT_IDX (on_mqtt seed_mqtt) (seed_telemetry_flags st).

(** The names the application gives, when it does. *)
Definition meshtastic_config_store_seed (long short : option (list Z)) (role : Z) (mt : context) (st : store) : store :=
  let id := Z.land (mt_node_id mt) 65535 in
  let long := match long with
    | Some n => copy_string OWNER_LONG_NAME_LEN n
    | None => if bool_decide (k_long_name k <> []) then copy_string OWNER_LONG_NAME_LEN (k_long_name k)
              else bytes_of_string "Meshtastic " ++ hex4 id
    end in
  let short := match short with
    | Some n => copy_string OWNER_SHORT_NAME_LEN n
    | None => if bool_decide (k_short_name k <> []) then copy_string OWNER_SHORT_NAME_LEN (k_short_name k) else hex4 id
    end in
  let st := set_s_short_name short (set_s_long_name long st) in
  let chs := (fun i => set_ch_index (Z.of_nat i) (default channel_zero (meshtastic_channels_get (pw_chans (mt_world mt)) i))) <$> slot_ids in
  seed_module_defaults (seed_config_defaults role mt (set_s_channels chs st)).

(** ** The configuration applied *)

Definition lora_bw_code_to_hz (code : Z) : res Z :=
  match code with
  | 16 => Val 15600 | 62 => Val 62500 | 125 => Val 125000 | 250 => Val 250000
  | 400 => Val 406250 | 500 => Val 500000 | 800 => Val 812500 | 1600 => Val 1625000
  | _ => Fail EINVAL
  end.
Fixpoint set_slots (l : list (nat * channel)) (s : chans) : chans * cret :=
  match l with
  | [] => (s, OK)
  | (i, ch) :: l => let '(s, ret) := meshtastic_channels_set_slot i (Some ch) s in
      match ret with OK => set_slots l s | ERR e => (s, ERR e) end
  end.
Definition custom_modem (l : lora_config) : modem_params :=
  match lora_bw_code_to_hz (lo_bandwidth l) with
  | Val bw =>
      if (5 <=? lo_spread_factor l) && (lo_spread_factor l <=? 12) && (5 <=? lo_coding_rate l) && (lo_coding_rate l <=? 8)
      then ModemParams bw (lo_spread_factor l) (lo_coding_rate l)
      else meshtastic_preset_to_params (lo_modem_preset l) false
  | Fail _ => meshtastic_preset_to_params (lo_modem_preset l) false
  end.
Definition on_world (f : pworld -> pworld) (mt : context) : context := set_mt_world (f (mt_world mt)) mt.
Definition on_chans (f : chans -> chans) : context -> context := on_world (fun w => set_pw_chans (f (pw_chans w)) w).

(** The frequency: the override when it is in the American band, else the plan's. *)
Definition apply_frequency (l : lora_config) (mt : context) : context :=
  if f32_positive (lo_override_frequency l) then
    let hz := override_hz l in
    if (902000000 <=? hz) && (hz <=? 928000000) then on_world (set_pw_frequency hz) mt else mt
  else
    let region := if lo_region l =? R_UNSET then k_region k else lo_region l in
    let s := pw_chans (mt_world mt) in
    match meshtastic_region_freq_plan region (modem_preset s) (Some (meshtastic_channels_primary_name s)) (use_preset s) with
    | Val plan => set_mt_duty_region (Some (region, fp_duty_tenths plan)) (on_world (set_pw_frequency (fp_frequency_hz plan)) mt)
    | Fail _ => mt
    end.

Definition meshtastic_config_store_apply_core (n : cnode) : cnode * cret :=
  let st := reconcile_stamped_seeds_locked (cn_store n) in
  let n := set_cn_store st n in
  let d := device_of st in
  let l := lora_of st in
  let mt := on_chans (fun s => set_use_preset (lo_use_preset l) (set_modem_preset (lo_modem_preset l) s)) (cn_mt n) in
  let mt := set_mt_duty_override (lo_override_duty_cycle l) (set_mt_ok_to_mqtt (lo_ok_to_mqtt l) mt) in
  let '(s, ret) := set_slots (zip slot_ids (s_channels st)) (pw_chans (mt_world mt)) in
  let mt := on_chans (fun _ => s) mt in
  match ret with
  | ERR e => (set_cn_mt mt n, ERR e)
  | OK =>
      let mt := on_chans (meshtastic_set_device_role (role_of (dv_role d))) mt in
      let mt := on_chans (meshtastic_set_rebroadcast_mode (mode_of (dv_rebroadcast_mode d))) mt in
      let mt := if (1 <=? lo_hop_limit l) && (lo_hop_limit l <=? 7) then set_mt_hop_limit (lo_hop_limit l) mt else mt in
      let mt := set_mt_tx_power (meshtastic_tx_power_resolve (k_power k) (lo_tx_power l) (lo_region l) (s_is_licensed st)) mt in
      let mt := set_mt_licensed (s_is_licensed st) mt in
      let mt := on_world (set_pw_modem (if lo_use_preset l then meshtastic_preset_to_params (lo_modem_preset l) false else custom_modem l)) mt in
      let mt := set_mt_tx_enabled (lo_tx_enabled l) (set_mt_rx_boosted_gain (lo_rx_boosted_gain l) mt) in
      let '(mt, st) :=
        if k_fem_can_control k then (set_mt_fem_lna (Some (negb (lo_fem_lna_mode l =? LNA_DISABLED))) mt, st)
        else if negb (lo_fem_lna_mode l =? LNA_NOT_PRESENT) then (mt, edit_config LORA_IDX (on_lora (set_lo_fem_lna_mode LNA_NOT_PRESENT)) st)
        else (mt, st) in
      (set_cn_store st (set_cn_mt (apply_frequency l mt) n), OK)
  end.

(** ** Getters and setters *)

Definition meshtastic_config_store_long_name (n : cnode) : list Z := s_long_name (cn_store n).
Definition meshtastic_config_store_short_name (n : cnode) : list Z := s_short_name (cn_store n).
Definition meshtastic_config_store_get_channel (i : nat) (n : cnode) : res channel :=
  if (MESHTASTIC_MAX_CHANNELS <=? i)%nat then Fail EINVAL else Val (default channel_zero (s_channels (cn_store n) !! i)).
Definition meshtastic_config_store_get_config (tag : Z) (n : cnode) : res config :=
  match index_for_config_tag tag with Some i => Val (default NoConfig (s_configs (cn_store n) !! i)) | None => Fail EINVAL end.
Definition meshtastic_config_store_get_module (tag : Z) (n : cnode) : res module_config :=
  match index_for_module_tag tag with Some i => Val (default (MOther 0 []) (s_modules (cn_store n) !! i)) | None => Fail EINVAL end.
Definition meshtastic_config_store_get_config_stamp (tag : Z) (n : cnode) : res hlc_stamp :=
  match index_for_config_tag tag with Some i => Val (stamp_at (s_config_stamps (cn_store n)) i) | None => Fail EINVAL end.
Definition meshtastic_config_store_get_module_stamp (tag : Z) (n : cnode) : res hlc_stamp :=
  match index_for_module_tag tag with Some i => Val (stamp_at (s_module_stamps (cn_store n)) i) | None => Fail EINVAL end.
Definition meshtastic_config_store_get_fixed_position (n : cnode) : res fixed_position :=
  match s_fixed_position (cn_store n) with Some p => Val p | None => Fail ENOENT end.
Definition meshtastic_config_store_get_owner_flags (n : cnode) : bool * bool := (s_is_licensed (cn_store n), s_is_unmessagable (cn_store n)).
Definition meshtastic_config_store_get_canned_messages (cap : nat) (n : cnode) : list Z :=
  if (cap =? 0)%nat then [] else copy_string cap (s_canned_messages (cn_store n)).
Definition meshtastic_config_store_get_device_ui (n : cnode) : res (list Z) :=
  let! c := meshtastic_config_store_get_config 10 n in Val (match c with CDeviceUi u => u | _ => [] end).

Definition on_store (f : store -> store) (n : cnode) : cnode := set_cn_store (f (cn_store n)) n.
Definition on_saver (f : saver -> saver) (n : cnode) : cnode := set_cn_saver (f (cn_saver n)) n.

Definition meshtastic_config_store_set_save_suppressed (b : bool) (n : cnode) : cnode := on_saver (set_save_suppressed b) n.
Definition meshtastic_settings_schedule_save (n : cnode) : cnode := on_saver (set_save_pending true) n.
Definition meshtastic_settings_save_pending (n : cnode) : bool := save_pending (cn_saver n).
Definition store_schedule_save (n : cnode) : cnode :=
  if save_suppressed (cn_saver n) then n else meshtastic_settings_schedule_save n.

(** meshtastic_preset_apply_stored reads the region from the store. *)
Definition preset_env (env : cenv) (st : store) : penv :=
  let e := ce_preset env in
  PEnv (pe_now e) (pe_settle_ms e) (pe_drain_ms e) (k_region k) (Some (lo_region (lora_of st))) (pe_retune e)
    (pe_clock_valid e) (pe_scanning e) (pe_reliable_pending e) (pe_outbound_pending e).
Definition apply_stored (env : cenv) (n : cnode) : cnode * cret :=
  let '(w, ret) := meshtastic_preset_apply_stored (preset_env env (cn_store n)) (mt_world (cn_mt n)) in
  (set_cn_mt (set_mt_world w (cn_mt n)) n, match ret with Val _ => OK | Fail e => ERR e end).

Definition meshtastic_config_store_set_channel (env : cenv) (i : nat) (ch : channel) (n : cnode) : cnode * cret :=
  if (MESHTASTIC_MAX_CHANNELS <=? i)%nat || negb (channel_is_valid ch) then (n, ERR EINVAL)
  else
    let n := on_store (fun st => set_s_channels (<[i := set_ch_index (Z.of_nat i) ch]> (s_channels st)) st) n in
    let '(s, ret) := meshtastic_channels_set_slot i (Some ch) (pw_chans (mt_world (cn_mt n))) in
    let n := set_cn_mt (on_chans (fun _ => s) (cn_mt n)) n in
    match ret with
    | ERR e => (n, ERR e)
    | OK => let '(n, ret) := apply_stored env n in
        match ret with ERR e => (n, ERR e) | OK => (store_schedule_save n, OK) end
    end.

Definition meshtastic_config_store_set_config (env : cenv) (c : config) (n : cnode) : cnode * cret :=
  if negb (config_is_valid c) then (n, ERR EINVAL)
  else match index_for_config_tag (which_config c) with
  | None => (n, ERR EINVAL)
  | Some i =>
      let n := on_store (fun st => stamp_config env (cn_mt n) i (put_config i c st)) n in
      let '(n, ret) := meshtastic_config_store_apply_core n in
      match ret with
      | ERR e => (n, ERR e)
      | OK =>
          let '(n, ret) := match c with CLora _ => apply_stored env n | _ => (n, OK) end in
          match ret with ERR e => (n, ERR e) | OK => (store_schedule_save n, OK) end
      end
  end.

Definition meshtastic_config_store_set_position_fixed (env : cenv) (b : bool) (n : cnode) : cnode :=
  store_schedule_save (on_store (fun st => stamp_config env (cn_mt n) POSITION_IDX
    (edit_config POSITION_IDX (on_position (set_ps_fixed_position b)) st)) n).
Definition meshtastic_config_store_set_fixed_position (p : fixed_position) (n : cnode) : cnode :=
  store_schedule_save (on_store (set_s_fixed_position (Some p)) n).
Definition meshtastic_config_store_clear_fixed_position (n : cnode) : cnode :=
  store_schedule_save (on_store (set_s_fixed_position None) n).

Definition meshtastic_config_store_set_module (env : cenv) (m : module_config) (n : cnode) : cnode * cret :=
  match index_for_module_tag (which_module m) with
  | None => (n, ERR EINVAL)
  | Some i => (store_schedule_save (on_store (fun st => stamp_module env (cn_mt n) i (put_module i m st)) n), OK)
  end.
Definition meshtastic_config_store_stamp_all_local (env : cenv) (n : cnode) : cnode :=
  on_store (fun st =>
    let st := foldl (fun st i => stamp_config env (cn_mt n) i st) st (seq 0 (length config_names)) in
    foldl (fun st i => stamp_module env (cn_mt n) i st) st (seq 0 (length module_names))) n.

(** Whether the section was taken. *)
Definition meshtastic_config_store_merge_config (env : cenv) (c : config) (stamp : hlc_stamp) (n : cnode) : cnode * res bool :=
  if negb (config_is_valid c) then (n, Fail EINVAL)
  else match index_for_config_tag (which_config c) with
  | None => (n, Fail EINVAL)
  | Some i =>
      let n := on_store (observe_stamp env stamp) n in
      if meshtastic_hlc_newer stamp (stamp_at (s_config_stamps (cn_store n)) i) then
        let n := on_store (fun st => set_s_config_stamps (<[i := stamp]> (s_config_stamps st)) (put_config i c st)) n in
        let '(n, _) := meshtastic_config_store_apply_core n in
        (store_schedule_save n, Val true)
      else (n, Val false)
  end.
Definition meshtastic_config_store_merge_module (env : cenv) (m : module_config) (stamp : hlc_stamp) (n : cnode) : cnode * res bool :=
  match index_for_module_tag (which_module m) with
  | None => (n, Fail EINVAL)
  | Some i =>
      let n := on_store (observe_stamp env stamp) n in
      if meshtastic_hlc_newer stamp (stamp_at (s_module_stamps (cn_store n)) i) then
        (store_schedule_save (on_store (fun st => set_s_module_stamps (<[i := stamp]> (s_module_stamps st)) (put_module i m st)) n), Val true)
      else (n, Val false)
  end.

Definition edit_device (env : cenv) (f : device_config -> device_config) (n : cnode) : cnode :=
  on_store (fun st => stamp_config env (cn_mt n) DEVICE_IDX (edit_config DEVICE_IDX (on_device f) st)) n.
Definition meshtastic_config_store_set_device_role (env : cenv) (role : Z) (n : cnode) : cnode * cret :=
  if ROLE_CLIENT_BASE <? role then (n, ERR EINVAL)
  else
    let n := edit_device env (set_dv_role role) n in
    (store_schedule_save (set_cn_mt (on_chans (meshtastic_set_device_role (role_of role)) (cn_mt n)) n), OK).
Definition meshtastic_config_store_set_rebroadcast_mode (env : cenv) (mode : Z) (n : cnode) : cnode * cret :=
  if MODE_CORE_PORTNUMS_ONLY <? mode then (n, ERR EINVAL)
  else
    let n := edit_device env (set_dv_rebroadcast_mode mode) n in
    (store_schedule_save (set_cn_mt (on_chans (meshtastic_set_rebroadcast_mode (mode_of mode)) (cn_mt n)) n), OK).
Definition meshtastic_config_store_set_node_info_interval (env : cenv) (secs : Z) (n : cnode) : cnode :=
  store_schedule_save (edit_device env (set_dv_node_info_broadcast_secs secs) n).

Record user := User { u_long_name : list Z; u_short_name : list Z; u_is_licensed : bool; u_is_unmessagable : option bool }.
Definition meshtastic_config_store_set_owner (u : user) (n : cnode) : cnode :=
  let st := cn_store n in
  let st := if bool_decide (u_long_name u <> []) then set_s_long_name (copy_string OWNER_LONG_NAME_LEN (u_long_name u)) st else st in
  let st := if bool_decide (u_short_name u <> []) then set_s_short_name (copy_string OWNER_SHORT_NAME_LEN (u_short_name u)) st else st in
  let st := set_s_is_unmessagable (default false (u_is_unmessagable u)) (set_s_is_licensed (u_is_licensed u) st) in
  let power := meshtastic_tx_power_resolve (k_power k) (lo_tx_power (lora_of st)) (lo_region (lora_of st)) (s_is_licensed st) in
  store_schedule_save (set_cn_mt (set_mt_licensed (s_is_licensed st) (set_mt_tx_power power (cn_mt n))) (set_cn_store st n)).
Definition meshtastic_config_store_set_canned_messages (m : list Z) (n : cnode) : cnode :=
  store_schedule_save (on_store (set_s_canned_messages (copy_string MESHTASTIC_CANNED_MESSAGES_LEN m)) n).

(** ** Records *)

Section Codec.
Context `{ConfigCodec}.

(** The header, and the message when it fits. *)
Definition encode_record (msg : option (list Z)) (buf_len : nat) : res (list Z) :=
  if (buf_len <? STORE_RECORD_HEADER_LEN)%nat then Fail EINVAL
  else match msg with
  | Some b => if (length b <=? buf_len - STORE_RECORD_HEADER_LEN)%nat
              then Val ([STORE_RECORD_VERSION; 0] ++ put_le16 (u16 (Zlen b)) ++ b) else Fail ENOMEM
  | None => Fail ENOMEM
  end.
Definition decode_record {A} (decode : list Z -> option A) (buf : list Z) : res A :=
  if (length buf <? STORE_RECORD_HEADER_LEN)%nat then Fail EINVAL
  else if (byte_at buf 0 <? STORE_RECORD_VERSION_MIN) || (STORE_RECORD_VERSION <? byte_at buf 0) then Fail EINVAL
  else if negb (get_le16 2 buf =? Zlen buf - Z.of_nat STORE_RECORD_HEADER_LEN) then Fail EINVAL
  else match decode (drop STORE_RECORD_HEADER_LEN buf) with Some m => Val m | None => Fail EINVAL end.

Definition encode_hlc_record (s : hlc_stamp) (buf_len : nat) : res (list Z) :=
  if (buf_len <? STORE_HLC_RECORD_LEN)%nat then Fail EINVAL
  else Val (STORE_RECORD_VERSION :: put_le64 (wrap 64 (st_physical_ms s)) ++ put_le32 (st_counter s) ++ put_le32 (st_node_id s)).
Definition decode_hlc_record (buf : list Z) : hlc_stamp :=
  if (length buf <? STORE_HLC_RECORD_LEN)%nat then unset_stamp
  else if (byte_at buf 0 <? STORE_RECORD_VERSION_MIN) || (STORE_RECORD_VERSION <? byte_at buf 0) then unset_stamp
  else HlcStamp (to_signed 64 (get_le64 1 buf)) (get_le32 9 buf) (get_le32 13 buf).

Definition flag (b : bool) : Z := if b then 1 else 0.
Definition setting_get_fixed_position (buf_len : nat) (st : store) : res (list Z) :=
  if (buf_len <? STORE_POSITION_FIXED_RECORD_LEN)%nat then Fail ENOMEM
  else Val (STORE_RECORD_VERSION ::
    match s_fixed_position st with
    | Some p => [1; flag (fp_has_latitude p); flag (fp_has_longitude p); flag (fp_has_altitude p); u8 (fp_precision_bits p)] ++
        put_le32 (u32 (fp_latitude_i p)) ++ put_le32 (u32 (fp_longitude_i p)) ++ put_le32 (u32 (fp_altitude p))
    | None => replicate 17 0
    end).
Definition setting_set_fixed_position (buf : list Z) (st : store) : store * cret :=
  if (length buf <? STORE_POSITION_FIXED_RECORD_LEN)%nat || negb (byte_at buf 0 =? STORE_RECORD_VERSION) then (st, ERR EINVAL)
  else if negb (byte_at buf 1 =? 0) then
    (set_s_fixed_position (Some (FixedPosition (negb (byte_at buf 2 =? 0)) (to_i32 (get_le32 6 buf))
       (negb (byte_at buf 3 =? 0)) (to_i32 (get_le32 10 buf)) (negb (byte_at buf 4 =? 0)) (to_i32 (get_le32 14 buf))
       (byte_at buf 5) LOC_MANUAL [])) st, OK)
  else (set_s_fixed_position None st, OK).

Definition setting_get_owner (buf_len : nat) (st : store) : res (list Z) :=
  if (buf_len <? STORE_OWNER_RECORD_LEN)%nat then Fail ENOMEM
  else Val (STORE_RECORD_VERSION :: pad_to OWNER_LONG_NAME_LEN (copy_string OWNER_LONG_NAME_LEN (s_long_name st)) ++
    pad_to OWNER_SHORT_NAME_LEN (copy_string OWNER_SHORT_NAME_LEN (s_short_name st)) ++
    [flag (s_is_licensed st); flag (s_is_unmessagable st)]).
Definition setting_set_owner (buf : list Z) (st : store) : store * cret :=
  if (length buf <? STORE_OWNER_RECORD_V1_LEN)%nat || negb (byte_at buf 0 =? STORE_RECORD_VERSION) then (st, ERR EINVAL)
  else
    let st := set_s_long_name (copy_fixed_string OWNER_LONG_NAME_LEN (drop 1 buf) OWNER_LONG_NAME_LEN) st in
    let st := set_s_short_name (copy_fixed_string OWNER_SHORT_NAME_LEN (drop 41 buf) OWNER_SHORT_NAME_LEN) st in
    let whole := (STORE_OWNER_RECORD_LEN <=? length buf)%nat in
    (set_s_is_unmessagable (whole && negb (byte_at buf 47 =? 0)) (set_s_is_licensed (whole && negb (byte_at buf 46 =? 0)) st), OK).

Definition setting_get_canned (buf_len : nat) (st : store) : res (list Z) :=
  if (buf_len <? STORE_CANNED_RECORD_LEN)%nat then Fail ENOMEM
  else Val (STORE_RECORD_VERSION :: pad_to MESHTASTIC_CANNED_MESSAGES_LEN (copy_string MESHTASTIC_CANNED_MESSAGES_LEN (s_canned_messages st))).
Definition setting_set_canned (buf : list Z) (st : store) : store * cret :=
  if (length buf <? 2)%nat || negb (byte_at buf 0 =? STORE_RECORD_VERSION) then (st, ERR EINVAL)
  else (set_s_canned_messages (copy_fixed_string MESHTASTIC_CANNED_MESSAGES_LEN (drop 1 buf)
          (Nat.min (length buf - 1) MESHTASTIC_CANNED_MESSAGES_LEN)) st, OK).

(** The record kept under a name. *)
Definition meshtastic_config_store_setting_get (key : string) (buf_len : nat) (st : store) : res (list Z) :=
  if String.eqb key "owner" then setting_get_owner buf_len st
  else if String.eqb key "seed/position" then
    if (buf_len <? 1)%nat then Fail ENOMEM else Val [s_position_seed st]
  else if String.eqb key "canned" then setting_get_canned buf_len st
  else if String.eqb key "position_fixed" then setting_get_fixed_position buf_len st
  else match strip "channel/" key with
  | Some t => let! i := parse_channel_index t in encode_record (pb_channel (default channel_zero (s_channels st !! i))) buf_len
  | None =>
  match strip "hlc/config/" key with
  | Some t => match index_for_config_name t with
      | Some i => encode_hlc_record (stamp_at (s_config_stamps st) i) buf_len | None => Fail ENOENT end
  | None =>
  match strip "hlc/module/" key with
  | Some t => match index_for_module_name t with
      | Some i => encode_hlc_record (stamp_at (s_module_stamps st) i) buf_len | None => Fail ENOENT end
  | None =>
  match strip "config/" key with
  | Some t => match index_for_config_name t with
      | Some i => encode_record (pb_config (default NoConfig (s_configs st !! i))) buf_len | None => Fail ENOENT end
  | None =>
  match strip "module/" key with
  | Some t => match index_for_module_name t with
      | Some i => encode_record (pb_module (default (MOther 0 []) (s_modules st !! i))) buf_len | None => Fail ENOENT end
  | None => Fail ENOENT
  end end end end end.

Definition tag_at (l : list (string * Z)) (i : nat) : Z := default 0 (snd <$> l !! i).
Definition meshtastic_config_store_setting_set (env : cenv) (key : string) (buf : list Z) (st : store) : store * cret :=
  if String.eqb key "owner" then setting_set_owner buf st
  else if String.eqb key "seed/position" then (set_s_position_seed (byte_at buf 0) st, OK)
  else if String.eqb key "canned" then setting_set_canned buf st
  else if String.eqb key "position_fixed" then setting_set_fixed_position buf st
  else match strip "channel/" key with
  | Some t =>
      match parse_channel_index t with
      | Fail e => (st, ERR e)
      | Val i =>
          match decode_record pb_channel_decode buf with
          | Val ch => if channel_is_valid ch then (set_s_channels (<[i := set_ch_index (Z.of_nat i) ch]> (s_channels st)) st, OK)
                      else (st, ERR EINVAL)
          | Fail _ => (st, ERR EINVAL)
          end
      end
  | None =>
  match strip "hlc/config/" key with
  | Some t => match index_for_config_name t with
      | Some i => let s := decode_hlc_record buf in
          (observe_stamp env s (set_s_config_stamps (<[i := s]> (s_config_stamps st)) st), OK)
      | None => (st, ERR ENOENT) end
  | None =>
  match strip "hlc/module/" key with
  | Some t => match index_for_module_name t with
      | Some i => let s := decode_hlc_record buf in
          (observe_stamp env s (set_s_module_stamps (<[i := s]> (s_module_stamps st)) st), OK)
      | None => (st, ERR ENOENT) end
  | None =>
  match strip "config/" key with
  | Some t => match index_for_config_name t with
      | Some i => match decode_record pb_config_decode buf with
          | Val c => if negb (which_config c =? tag_at config_names i) || negb (config_is_valid c) then (st, ERR EINVAL)
                     else (put_config i c st, OK)
          | Fail _ => (st, ERR EINVAL) end
      | None => (st, ERR ENOENT) end
  | None =>
  match strip "module/" key with
  | Some t => match index_for_module_name t with
      | Some i => match decode_record pb_module_decode buf with
          | Val m => if negb (which_module m =? tag_at module_names i) || negb (module_is_valid m) then (st, ERR EINVAL)
                     else (put_module i m st, OK)
          | Fail _ => (st, ERR EINVAL) end
      | None => (st, ERR ENOENT) end
  | None => (st, ERR ENOENT)
  end end end end end.

(** ** The walk over every record *)

(** [T] is what the function given each record works on; the first failure ends the walk. *)
Section Export.
Context {T : Type} (f : string -> list Z -> T -> T * cret).
Definition export_one (name : string) (st : store) (t : T) : T * cret :=
  match meshtastic_config_store_setting_get name MESHTASTIC_STORE_VALUE_MAX st with
  | Fail e => (t, ERR e)
  | Val v => f name v t
  end.
Fixpoint export_all (names : list string) (st : store) (t : T) : T * cret :=
  match names with
  | [] => (t, OK)
  | name :: names => let '(t, ret) := export_one name st t in
      match ret with OK => export_all names st t | ERR e => (t, ERR e) end
  end.
Definition channel_key (i : nat) : string := ("channel/" ++ String (Ascii.ascii_of_nat (48 + i)) "")%string.
Definition keys_under (pre : string) (l : list (string * Z)) : list string := (fun e => (pre ++ e.1)%string) <$> l.
Definition value_keys : list string :=
  ["owner"; "canned"; "position_fixed"] ++ (channel_key <$> slot_ids) ++ keys_under "config/" config_names ++ keys_under "module/" module_names.
Definition version_keys : list string :=
  "seed/position" :: keys_under "hlc/config/" config_names ++ keys_under "hlc/module/" module_names.
Definition meshtastic_config_store_export (st : store) (t : T) : store * T * cret :=
  let '(t, ret) := export_all value_keys st t in
  match ret with
  | ERR e => (st, t, ERR e)
  | OK =>
      let st := set_s_position_seed POSITION_SEED_VERSION st in
      let '(t, ret) := export_all version_keys st t in (st, t, ret)
  end.
End Export.

(** ** The settings subsystem *)

(** What becomes of a write or a deletion of a record: it is made, or it is refused and made
    or not. *)
Inductive outcome := Made | Refused (e : errno) (made : bool).
Definition outcomes : Type := string -> outcome.
Definition settle (o : outcome) (fl' fl : gmap string (list Z)) : gmap string (list Z) * cret :=
  match o with Made => (fl', OK) | Refused e made => (if made then fl' else fl, ERR e) end.
Definition settings_save_one (w : outcomes) (name : string) (val : list Z) (fl : gmap string (list Z)) :=
  settle (w name) (<[name := val]> fl) fl.
Definition settings_delete (w : outcomes) (name : string) (fl : gmap string (list Z)) := settle (w name) (delete name fl) fl.

Definition SETTINGS_NAME_SIZE : nat := 74.     (* SETTINGS_MAX_NAME_LEN + SETTINGS_EXTRA_LEN + 1 *)
Definition SUBTREE : string := "meshtastic/".
Definition full_name (name : string) : res string :=
  let s := (SUBTREE ++ name)%string in if (String.length s <? SETTINGS_NAME_SIZE)%nat then Val s else Fail EINVAL.
Definition on_flash (r : gmap string (list Z) * cret) (s : saver) : saver * cret := (set_flash r.1 s, r.2).

(** ** The records known to be on flash *)

Definition track_is (nc : Z) (e : option track_entry) : bool := match e with Some e => te_name_crc e =? nc | None => false end.
Definition name_crc (name : string) : Z := k_crc32 k (bytes_of_string name).
Definition track_note (name : string) (val : list Z) (s : saver) : saver :=
  let nc := name_crc name in
  let slot := match list_find (fun e => track_is nc e = true) (track s) with
    | Some (i, _) => Some i
    | None => fst <$> list_find (fun e => e = None) (track s)
    end in
  match slot with
  | Some i => set_track (<[i := Some (TrackEntry nc (k_crc32 k val) (u16 (Zlen val)))]> (track s)) s
  | None => s
  end.
Definition track_unchanged (name : string) (val : list Z) (s : saver) : bool :=
  match list_find (fun e => track_is (name_crc name) e = true) (track s) with
  | Some (_, Some e) => (te_len e =? Zlen val) && (te_val_crc e =? k_crc32 k val)
  | _ => false
  end.
Definition track_clear (s : saver) : saver := set_track (replicate (k_track_cap k) None) s.

(** ** Load, save, flush, wipe *)

Definition settings_get_cb (key : string) (val_len_max : nat) (n : cnode) : res (list Z) :=
  meshtastic_config_store_setting_get key val_len_max (cn_store n).

(** [read] is what reading the record gives. *)
Definition settings_set_cb (env : cenv) (key : string) (len : nat) (read : res (list Z)) (n : cnode) : cnode :=
  if (MESHTASTIC_STORE_VALUE_MAX <? len)%nat then n
  else match read with
  | Fail _ => n
  | Val buf =>
      let n := on_saver (track_note key buf) n in
      on_store (fun st => (meshtastic_config_store_setting_set env key buf st).1) n
  end.
Definition settings_commit_cb (n : cnode) : cnode := on_store meshtastic_config_store_reconcile_seeds n.
(** The subtree's records, each with what reading it gives; then the commit. *)
Definition settings_load (env : cenv) (recs : list (string * res (list Z))) (n : cnode) : cnode :=
  settings_commit_cb (foldl (fun n r => settings_set_cb env r.1 (match r.2 with Val v => length v | Fail _ => 0 end) r.2 n) n recs).

Definition settings_export_prefixed (w : outcomes) (name : string) (val : list Z) (s : saver) : saver * cret :=
  match full_name name with
  | Fail e => (s, ERR e)
  | Val full => let '(s, ret) := on_flash (settings_save_one w full val (flash s)) s in
      match ret with OK => (track_note name val s, OK) | ERR e => (s, ERR e) end
  end.
Definition save_changed_one (w : outcomes) (name : string) (val : list Z) (s : saver) : saver * cret :=
  if track_unchanged name val s then (set_save_skipped (u32 (save_skipped s + 1)) s, OK)
  else match full_name name with
  | Fail e => (s, ERR e)
  | Val full => let '(s, ret) := on_flash (settings_save_one w full val (flash s)) s in
      match ret with OK => (set_save_written (u32 (save_written s + 1)) (track_note name val s), OK) | ERR e => (s, ERR e) end
  end.
Definition settings_wipe_one (w : outcomes) (preserve_security : bool) (name : string) (val : list Z) (s : saver) : saver * cret :=
  if preserve_security && (String.eqb name "config/security" || String.eqb name "hlc/config/security") then (s, OK)
  else match full_name name with
  | Fail e => (s, ERR e)
  | Val full => on_flash (settings_delete w full (flash s)) s
  end.
Definition export_node (f : string -> list Z -> saver -> saver * cret) (n : cnode) : cnode * cret :=
  let '(st, s, ret) := meshtastic_config_store_export f (cn_store n) (cn_saver n) in (set_cn_saver s (set_cn_store st n), ret).

Definition save_work_handler (w : outcomes) (n : cnode) : cnode :=
  let n := on_saver (set_save_pending false) n in
  if save_suppressed (cn_saver n) then n else (export_node (save_changed_one w) n).1.
Definition meshtastic_settings_flush (w : outcomes) (n : cnode) : cnode * cret :=
  export_node (settings_export_prefixed w) (on_saver (set_save_pending false) n).
Definition meshtastic_settings_wipe (w : outcomes) (preserve_security : bool) (n : cnode) : cnode * cret :=
  let '(n, ret) := export_node (settings_wipe_one w preserve_security) (on_saver (set_save_pending false) n) in
  (on_saver track_clear n, ret).
Definition meshtastic_settings_init (env : cenv) (subsys load : cret) (recs : list (string * res (list Z))) (n : cnode) : cnode * cret :=
  match subsys with
  | ERR e => (n, ERR e)
  | OK => (settings_load env recs n, load)
  end.
Definition meshtastic_settings_save_stats (n : cnode) : Z * Z := (save_written (cn_saver n), save_skipped (cn_saver n)).

(** ** The operator's security section (src/src/meshtastic_admin.c) *)

Definition SECURITY_KEY_LEN : nat := 32.
Definition security_clear_managed_without_admin_key (s : security_config) : security_config :=
  if sc_is_managed s && negb (existsb (fun a => (length a =? 32)%nat) (take 3 (sc_admin_key s))) then set_sc_is_managed false s else s.
Definition meshtastic_admin_prepare_security_write (incoming current : security_config) : security_config :=
  let whole (key : list Z) := (length key =? SECURITY_KEY_LEN)%nat in
  if negb (whole (sc_private_key incoming)) && whole (sc_private_key current) then
    security_clear_managed_without_admin_key
      (set_sc_public_key (sc_public_key current) (set_sc_private_key (sc_private_key current) incoming))
  else
    let bare_rotation := whole (sc_private_key incoming) &&
      negb (whole (sc_private_key current) && bool_decide (sc_private_key incoming = sc_private_key current)) &&
      bool_decide (sc_admin_key incoming = []) && negb (sc_is_managed incoming) && negb (sc_serial_enabled incoming) &&
      negb (sc_debug_log_api_enabled incoming) && negb (sc_admin_channel_enabled incoming) in
    security_clear_managed_without_admin_key
      (if bare_rotation then set_sc_public_key (sc_public_key incoming) (set_sc_private_key (sc_private_key incoming) current)
       else incoming).
Definition security_of (n : cnode) : option security_config :=
  match meshtastic_config_store_get_config 8 n with Val (CSecurity s) => Some s | _ => None end.
(** The handler of an admin message's set_config, up to the store. *)
Definition admin_set_config (env : cenv) (c : config) (n : cnode) : cnode * cret :=
  let c := match c, security_of n with
    | CSecurity s, Some cur => CSecurity (meshtastic_admin_prepare_security_write s cur)
    | c, _ => c
    end in
  meshtastic_config_store_set_config env c n.
Definition admin_managed_sanity_apply (env : cenv) (n : cnode) : cnode :=
  match security_of n with
  | Some s =>
      if sc_is_managed s then
        let s := security_clear_managed_without_admin_key s in
        if sc_is_managed s then n else (meshtastic_config_store_set_config env (CSecurity s) n).1
      else n
  | None => n
  end.

(** ** A boot up to the keys (src/src/meshtastic.c: meshtastic_init) *)

(** What a boot finds: the running context, the application's names, the role, what the
    settings subsystem answers and the records it hands over. Of the hooks that
    meshtastic_settings_apply_all runs, one writes the store, the one that clears a managed
    mode nobody could leave; the others read it, and none fails. *)
Record boot_env := BootEnv {
  be_env : cenv; be_mt : context; be_long : option (list Z); be_short : option (list Z); be_role : Z;
  be_subsys : cret; be_load : cret; be_recs : list (string * res (list Z));
}.
Definition store_zero : store :=
  Store [] [] false false [] (replicate MESHTASTIC_MAX_CHANNELS channel_zero) (replicate (length config_names) NoConfig)
    (replicate (length module_names) (MOther 0 [])) None (Hlc 0 0) (replicate (length config_names) unset_stamp)
    (replicate (length module_names) unset_stamp) 0.
Definition saver_boot (fl : gmap string (list Z)) : saver := Saver (replicate (k_track_cap k) None) 0 0 false false fl.
Definition config_boot (b : boot_env) (fl : gmap string (list Z)) : cnode * cret :=
  let st := meshtastic_config_store_seed (be_long b) (be_short b) (be_role b) (be_mt b) store_zero in
  let '(n, ret) := meshtastic_settings_init (be_env b) (be_subsys b) (be_load b) (be_recs b) (CNode st (be_mt b) (saver_boot fl)) in
  match ret with
  | ERR e => (n, ERR e)
  | OK =>
      let '(n, ret) := meshtastic_config_store_apply_core n in
      match ret with
      | ERR e => (n, ERR e)
      | OK => (admin_managed_sanity_apply (be_env b) n, OK)
      end
  end.
(** The load hands over every record of the subtree, once, as it is on flash. *)
Definition subtree (fl : gmap string (list Z)) : list (string * res (list Z)) :=
  omap (fun e => (fun key => (key, Val e.2)) <$> strip SUBTREE e.1) (map_to_list fl).
Definition loads (fl : gmap string (list Z)) (recs : list (string * res (list Z))) : Prop := recs ≡ₚ subtree fl.

(** ** What happens to the store while the node runs *)

Inductive cfg_op :=
  | OpSetChannel (env : cenv) (i : nat) (ch : channel)
  | OpSetConfig (env : cenv) (c : config)
  | OpAdminSetConfig (env : cenv) (c : config)
  | OpSetPositionFixed (env : cenv) (b : bool)
  | OpFixedPosition (p : option fixed_position)
  | OpSetModule (env : cenv) (m : module_config)
  | OpStampAll (env : cenv)
  | OpMergeConfig (env : cenv) (c : config) (stamp : hlc_stamp)
  | OpMergeModule (env : cenv) (m : module_config) (stamp : hlc_stamp)
  | OpSetRole (env : cenv) (role : Z)
  | OpSetRebroadcast (env : cenv) (mode : Z)
  | OpSetInterval (env : cenv) (secs : Z)
  | OpSetOwner (u : user)
  | OpSetCanned (m : list Z)
  | OpSuppress (b : bool)
  | OpSave (w : outcomes)
  | OpFlush (w : outcomes)
  | OpWipe (w : outcomes) (preserve_security : bool)
  | OpLoad (env : cenv) (recs : list (string * res (list Z))).
Definition cfg_step (op : cfg_op) (n : cnode) : cnode :=
  match op with
  | OpSetChannel env i ch => (meshtastic_config_store_set_channel env i ch n).1
  | OpSetConfig env c => (meshtastic_config_store_set_config env c n).1
  | OpAdminSetConfig env c => (admin_set_config env c n).1
  | OpSetPositionFixed env b => meshtastic_config_store_set_position_fixed env b n
  | OpFixedPosition (Some p) => meshtastic_config_store_set_fixed_position p n
  | OpFixedPosition None => meshtastic_config_store_clear_fixed_position n
  | OpSetModule env m => (meshtastic_config_store_set_module env m n).1
  | OpStampAll env => meshtastic_config_store_stamp_all_local env n
  | OpMergeConfig env c stamp => (meshtastic_config_store_merge_config env c stamp n).1
  | OpMergeModule env m stamp => (meshtastic_config_store_merge_module env m stamp n).1
  | OpSetRole env role => (meshtastic_config_store_set_device_role env role n).1
  | OpSetRebroadcast env mode => (meshtastic_config_store_set_rebroadcast_mode env mode n).1
  | OpSetInterval env secs => meshtastic_config_store_set_node_info_interval env secs n
  | OpSetOwner u => meshtastic_config_store_set_owner u n
  | OpSetCanned m => meshtastic_config_store_set_canned_messages m n
  | OpSuppress b => meshtastic_config_store_set_save_suppressed b n
  | OpSave w => save_work_handler w n
  | OpFlush w => (meshtastic_settings_flush w n).1
  | OpWipe w preserve => (meshtastic_settings_wipe w preserve n).1
  | OpLoad env recs => settings_load env recs n
  end.
End Codec.
End Build.

(** ** The security section in RAM *)

Definition sec_of (st : store) : option config := s_configs st !! SECURITY_IDX.
Definition SECURITY_KEY : string := "config/security".
Definition SECURITY_RECORD : string := "meshtastic/config/security".

Lemma strip_app pre s t : strip pre s = Some t <-> s = (pre ++ t)%string.
Proof.
  revert s. induction pre as [|a pre IH]; intros s; cbn.
  - split; [by intros [= ->]|by intros ->].
  - destruct s as [|b s]; [split; discriminate|]. destruct (Ascii.eqb_spec a b) as [->|Hne].
    + rewrite IH. split; [by intros ->|by intros [= ->]].
    + split; [discriminate|]. intros [= ? _]. congruence.
Qed.

Lemma index_for_name_security t : index_for_config_name t = Some SECURITY_IDX -> t = "security"%string.
Proof.
  unfold index_for_config_name, index_for. intros (x & Hx & Hi)%fmap_Some. destruct x as [i e]. cbn in Hi. subst i.
  apply list_find_Some in Hx as (Hl & He & _). cbn in Hl. injection Hl as <-. symmetry. by apply String.eqb_eq in He.
Qed.
Lemma index_for_tag_security c : index_for_config_tag (which_config c) = Some SECURITY_IDX -> exists s, c = CSecurity s.
Proof. destruct c; try (vm_compute; discriminate). eauto. Qed.

Lemma edit_config_sec i f st : i <> SECURITY_IDX -> sec_of (edit_config i f st) = sec_of st.
Proof. intros Hi. unfold sec_of, edit_config. cbn. by rewrite list_lookup_alter_ne. Qed.
Lemma put_config_sec i c st : i <> SECURITY_IDX -> sec_of (put_config i c st) = sec_of st.
Proof. intros Hi. unfold sec_of, put_config. cbn. by rewrite list_lookup_insert_ne. Qed.
Lemma put_security_sec c st : is_Some (sec_of st) -> sec_of (put_config SECURITY_IDX c st) = Some c.
Proof. intros Hs. unfold sec_of, put_config. cbn. apply list_lookup_insert_eq. by apply lookup_lt_is_Some. Qed.
Lemma stamp_config_sec env mt i st : sec_of (stamp_config env mt i st) = sec_of st.
Proof. unfold stamp_config, stamp_local. by destruct (hlc_local _ _ _). Qed.
Lemma stamp_module_sec env mt i st : sec_of (stamp_module env mt i st) = sec_of st.
Proof. unfold stamp_module, stamp_local. by destruct (hlc_local _ _ _). Qed.

Create HintDb sec.
#[export] Hint Rewrite stamp_config_sec stamp_module_sec : sec.

Section Proofs.
Context (k : build) `{ConfigCodec}.

Lemma reconcile_stamped_sec st : sec_of (reconcile_stamped_seeds_locked k st) = sec_of st.
Proof.
  unfold reconcile_stamped_seeds_locked. cbv zeta.
  set (st1 := if meshtastic_hlc_stamp_is_unset _ then seed_telemetry_flags k st else st).
  assert (sec_of st1 = sec_of st) as <- by (unfold st1; by destruct (meshtastic_hlc_stamp_is_unset _)).
  clearbody st1. destruct (meshtastic_hlc_stamp_is_unset _); [|done]. by apply edit_config_sec.
Qed.
Lemma reconcile_sec st : sec_of (meshtastic_config_store_reconcile_seeds k st) = sec_of st.
Proof.
  unfold meshtastic_config_store_reconcile_seeds, reconcile_seeds_locked.
  destruct (_ <? _); [unfold seed_position_once; rewrite edit_config_sec by done|]; apply reconcile_stamped_sec.
Qed.

(** What leaves the security section and the flash as they are. *)
Definition kept (n n' : cnode) : Prop :=
  sec_of (cn_store n') = sec_of (cn_store n) /\ flash (cn_saver n') = flash (cn_saver n).
#[global] Instance kept_pre : PreOrder kept.
Proof. split; [done|]. intros a b c [H1 H2] [H3 H4]. split; congruence. Qed.

Lemma schedule_kept n : kept n (store_schedule_save n).
Proof. unfold store_schedule_save. by destruct (save_suppressed _). Qed.
Lemma on_store_kept f n : sec_of (f (cn_store n)) = sec_of (cn_store n) -> kept n (on_store f n).
Proof. done. Qed.
Lemma apply_stored_kept env n : kept n (apply_stored k env n).1.
Proof. unfold apply_stored. by destruct (meshtastic_preset_apply_stored _ _). Qed.
Lemma apply_core_kept n : kept n (meshtastic_config_store_apply_core k n).1.
Proof.
  pose proof (reconcile_stamped_sec (cn_store n)) as Hr. unfold meshtastic_config_store_apply_core. cbv zeta.
  destruct (set_slots _ _) as [s [|e]]; [|by split].
  destruct (k_fem_can_control k); [by split|]. destruct (negb _); [|by split]. split; [|done].
  change (sec_of (edit_config LORA_IDX (on_lora (set_lo_fem_lna_mode LNA_NOT_PRESENT)) (reconcile_stamped_seeds_locked k (cn_store n))) = sec_of (cn_store n)).
  by rewrite edit_config_sec.
Qed.

Lemma set_config_sec env c n n' ret : meshtastic_config_store_set_config k env c n = (n', ret) -> is_Some (sec_of (cn_store n)) ->
  flash (cn_saver n') = flash (cn_saver n) /\
  match c with
  | CSecurity s => sec_of (cn_store n') = Some (CSecurity s)
  | _ => sec_of (cn_store n') = sec_of (cn_store n)
  end.
Proof.
  unfold meshtastic_config_store_set_config. intros Hc Hs.
  destruct (config_is_valid c) eqn:Ev; cbn [negb] in Hc.
  2:{ simplify_eq. split; [done|]. by destruct c. }
  destruct (index_for_config_tag (which_config c)) as [i|] eqn:Ei.
  2:{ unfold config_is_valid in Ev. by rewrite Ei in Ev. }
  set (m := on_store _ n) in Hc. pose proof (apply_core_kept m) as [Ha1 Ha2].
  assert (kept m n') as [Hk1 Hk2].
  { destruct (meshtastic_config_store_apply_core k m) as [m1 [|e]]; [|by simplify_eq].
    assert (kept m (match c with CLora _ => apply_stored k env m1 | _ => (m1, OK) end).1) as Hm2.
    { destruct c; try done. etrans; [by split|]. apply apply_stored_kept. }
    destruct (match c with CLora _ => _ | _ => _ end) as [m2 [|e]]; simplify_eq; [|done].
    etrans; [exact Hm2|]. apply schedule_kept. }
  rewrite Hk1, Hk2. unfold m. cbn [on_store cn_store set_cn_store cn_saver]. rewrite stamp_config_sec. split; [done|].
  destruct (decide (i = SECURITY_IDX)) as [->|Hne].
  - destruct (index_for_tag_security _ Ei) as [s ->]. by apply put_security_sec.
  - rewrite put_config_sec by done. destruct c; try done. exfalso. apply Hne. vm_compute in Ei. by injection Ei as <-.
Qed.

(** ** The private key in RAM and on flash *)

Definition ram_key (P : list Z) (st : store) : Prop := exists s, sec_of st = Some (CSecurity s) /\ sc_private_key s = P.
(** The record is one that is loaded, with that key. *)
Definition holds_key (P : list Z) (v : list Z) : Prop :=
  (length v <= MESHTASTIC_STORE_VALUE_MAX)%nat /\
  exists s, decode_record pb_config_decode v = Val (CSecurity s) /\ sc_private_key s = P.
Definition flash_key (P : list Z) (fl : gmap string (list Z)) : Prop := exists v, fl !! SECURITY_RECORD = Some v /\ holds_key P v.

Lemma ram_key_some P st : ram_key P st -> is_Some (sec_of st).
Proof. intros (s & -> & _). eauto. Qed.
Lemma ram_key_eq P st st' : sec_of st' = sec_of st -> ram_key P st -> ram_key P st'.
Proof. intros He (s & Hs & Hp). exists s. by rewrite He. Qed.
Lemma security_of_sec n : security_of n = match sec_of (cn_store n) with Some (CSecurity s) => Some s | _ => None end.
Proof.
  unfold security_of, meshtastic_config_store_get_config, sec_of.
  assert (index_for_config_tag 8 = Some SECURITY_IDX) as -> by done.
  by destruct (s_configs (cn_store n) !! SECURITY_IDX) as [[]|].
Qed.

(** A record that was encoded is read back. *)
Lemma encode_decode c v : encode_record (pb_config c) MESHTASTIC_STORE_VALUE_MAX = Val v ->
  (length v <= MESHTASTIC_STORE_VALUE_MAX)%nat /\ decode_record pb_config_decode v = Val c.
Proof.
  unfold encode_record. destruct (_ <? _)%nat; [done|]. destruct (pb_config c) as [b|] eqn:Eb; [|done].
  destruct (Nat.leb_spec (length b) (MESHTASTIC_STORE_VALUE_MAX - STORE_RECORD_HEADER_LEN)) as [Hl|]; [|done].
  intros Hv. assert (v = [STORE_RECORD_VERSION; 0] ++ put_le16 (u16 (Zlen b)) ++ b) as -> by congruence. unfold MESHTASTIC_STORE_VALUE_MAX, STORE_RECORD_HEADER_LEN in *.
  change (256 - 4)%nat with 252%nat in Hl.
  assert (length ([STORE_RECORD_VERSION; 0%Z] ++ put_le16 (u16 (Zlen b)) ++ b) = 4 + length b)%nat as Hlen
    by (rewrite !length_app, length_le_put; done).
  split; [rewrite Hlen; lia|]. unfold decode_record, STORE_RECORD_HEADER_LEN. rewrite Hlen.
  destruct (Nat.ltb_spec (4 + length b) 4); [lia|].
  assert (byte_at ([STORE_RECORD_VERSION; 0] ++ put_le16 (u16 (Zlen b)) ++ b) 0 = 1) as -> by done. cbn [Z.ltb Z.compare orb].
  assert (get_le16 2 ([STORE_RECORD_VERSION; 0] ++ put_le16 (u16 (Zlen b)) ++ b) = Zlen b) as ->.
  { rewrite u16_small by lia. rewrite (get_le_app_skip _ 2) by done. apply get_le_app_here. cbn. lia. }
  destruct (Z.eqb_spec (Zlen b) (Z.of_nat (4 + length b) - Z.of_nat 4)); [|lia]. cbn [negb].
  change (drop 4 ([STORE_RECORD_VERSION; 0] ++ put_le16 (u16 (Zlen b)) ++ b)) with b. by rewrite (pb_config_round _ _ Eb).
Qed.

(** ** The walk *)

Section Walk.
Context {T : Type} (f : string -> list Z -> T -> T * cret).

Lemma export_all_inv (Q : T -> Prop) names st t :
  (forall name v t, meshtastic_config_store_setting_get name MESHTASTIC_STORE_VALUE_MAX st = Val v -> Q t -> Q (f name v t).1) ->
  Q t -> Q (export_all f names st t).1.
Proof.
  intros Hf. revert t. induction names as [|name names IH]; intros t Ht; [done|]. cbn. unfold export_one.
  destruct (meshtastic_config_store_setting_get _ _ _) as [v|e] eqn:Ev; [|done]. specialize (Hf _ _ _ Ev Ht).
  destruct (f name v t) as [t' [|e]]; [by apply IH|done].
Qed.

(** A walk that ends well has been to every name; what one of them brings about and none
    undoes holds at the end. *)
Lemma export_all_done (Q : T -> Prop) name names st t t' :
  (forall name v t, meshtastic_config_store_setting_get name MESHTASTIC_STORE_VALUE_MAX st = Val v -> Q t -> Q (f name v t).1) ->
  (forall v t t', meshtastic_config_store_setting_get name MESHTASTIC_STORE_VALUE_MAX st = Val v -> f name v t = (t', OK) -> Q t') ->
  name ∈ names -> export_all f names st t = (t', OK) -> Q t'.
Proof.
  intros Hf Hq. revert t. induction names as [|x names IH]; intros t Hin; [by apply elem_of_nil in Hin|].
  cbn. unfold export_one. destruct (meshtastic_config_store_setting_get x _ _) as [v|e] eqn:Ev; [|done].
  destruct (f x v t) as [t1 [|e]] eqn:Ef; [|done]. intros He. apply elem_of_cons in Hin as [->|Hin]; [|by eapply IH].
  specialize (Hq _ _ _ Ev Ef). pose proof (export_all_inv Q names st t1 Hf Hq) as Hr. by rewrite He in Hr.
Qed.

(** The marker of the position's seed is no part of the security section. *)
Lemma export_inv (Q : T -> Prop) st t st' t' ret :
  (forall st1 name v t, sec_of st1 = sec_of st ->
     meshtastic_config_store_setting_get name MESHTASTIC_STORE_VALUE_MAX st1 = Val v -> Q t -> Q (f name v t).1) ->
  meshtastic_config_store_export f st t = (st', t', ret) -> sec_of st' = sec_of st /\ (Q t -> Q t').
Proof.
  intros Hf. unfold meshtastic_config_store_export.
  destruct (export_all f value_keys st t) as [t1 r1] eqn:E1.
  assert (Q t -> Q t1) as H1.
  { intros Ht. assert (Q (export_all f value_keys st t).1) as Hr by (apply export_all_inv; [intros name v t0 Hg Hq; by apply (Hf st name v t0)|done]). by rewrite E1 in Hr. }
  destruct r1 as [|e]; [|intros [= <- <- _]; by split].
  destruct (export_all f version_keys _ t1) as [t2 r2] eqn:E2. intros [= <- <- <-]. split; [done|]. intros Ht.
  assert (Q (export_all f version_keys (set_s_position_seed POSITION_SEED_VERSION st) t1).1) as Hr
    by (apply export_all_inv; [intros name v t0 Hg Hq; by eapply (Hf _ name v t0); [|exact Hg|]|by apply H1]).
  by rewrite E2 in Hr.
Qed.
End Walk.

(** ** Writing the records *)

Lemma get_security st : meshtastic_config_store_setting_get SECURITY_KEY MESHTASTIC_STORE_VALUE_MAX st =
  encode_record (pb_config (default NoConfig (sec_of st))) MESHTASTIC_STORE_VALUE_MAX.
Proof. reflexivity. Qed.
Lemma get_security_holds P st v : ram_key P st ->
  meshtastic_config_store_setting_get SECURITY_KEY MESHTASTIC_STORE_VALUE_MAX st = Val v -> holds_key P v.
Proof.
  intros (s & Hs & Hp). rewrite get_security, Hs. cbn [default from_option]. intros Hv. destruct (encode_decode _ _ Hv) as [Hl Hd].
  split; [done|]. eauto.
Qed.
Lemma full_name_inj name full : full_name name = Val full -> full = SECURITY_RECORD -> name = SECURITY_KEY.
Proof.
  unfold full_name. destruct (_ <? _)%nat; [|done]. intros [= <-] He.
  assert (strip SUBTREE SECURITY_RECORD = Some name) as Hs by (by apply strip_app). vm_compute in Hs. by injection Hs as <-.
Qed.

Lemma track_note_flash name v s : flash (track_note k name v s) = flash s.
Proof. unfold track_note. cbv zeta. by destruct (match list_find _ _ with Some _ => _ | None => _ end). Qed.
Lemma save_one_key P w name full v fl : full_name name = Val full -> (name = SECURITY_KEY -> holds_key P v) ->
  flash_key P fl -> flash_key P (settings_save_one w full v fl).1.
Proof.
  intros Hf Hv Hk. assert (flash_key P (<[full := v]> fl)) as Hn.
  { destruct (decide (full = SECURITY_RECORD)) as [->|Hne].
    - exists v. rewrite lookup_insert_eq. split; [done|]. by apply Hv, (full_name_inj _ _ Hf).
    - destruct Hk as (v0 & Hl & Hh). exists v0. by rewrite lookup_insert_ne. }
  unfold settings_save_one, settle. destruct (w full) as [|e [|]]; done.
Qed.

Lemma save_changed_key P w st name v s : ram_key P st ->
  meshtastic_config_store_setting_get name MESHTASTIC_STORE_VALUE_MAX st = Val v ->
  flash_key P (flash s) -> flash_key P (flash (save_changed_one k w name v s).1).
Proof.
  intros Hr Hg Hk. unfold save_changed_one. destruct (track_unchanged _ _ _ _); [done|].
  destruct (full_name name) as [full|e] eqn:Ef; [|done].
  pose proof (save_one_key P w name full v (flash s) Ef ltac:(intros ->; by eapply get_security_holds) Hk) as Hs.
  unfold on_flash. destruct (settings_save_one _ _ _ _) as [fl [|e]]; [|done]. cbn. by rewrite track_note_flash.
Qed.
Lemma export_prefixed_key P w st name v s : ram_key P st ->
  meshtastic_config_store_setting_get name MESHTASTIC_STORE_VALUE_MAX st = Val v ->
  flash_key P (flash s) -> flash_key P (flash (settings_export_prefixed k w name v s).1).
Proof.
  intros Hr Hg Hk. unfold settings_export_prefixed. destruct (full_name name) as [full|e] eqn:Ef; [|done].
  pose proof (save_one_key P w name full v (flash s) Ef ltac:(intros ->; by eapply get_security_holds) Hk) as Hs.
  unfold on_flash. destruct (settings_save_one _ _ _ _) as [fl [|e]]; [|done]. cbn. by rewrite track_note_flash.
Qed.
Lemma wipe_one_key P w name v s : flash_key P (flash s) -> flash_key P (flash (settings_wipe_one w true name v s).1).
Proof.
  intros Hk. unfold settings_wipe_one. destruct (String.eqb_spec name "config/security") as [->|Hne]; [done|]. cbn [andb orb].
  destruct (_ =? _)%string; [done|]. destruct (full_name name) as [full|e] eqn:Ef; [|done].
  assert (flash_key P (delete full (flash s))) as Hd.
  { destruct Hk as (v0 & Hl & Hh). exists v0. rewrite lookup_delete_ne; [done|]. intros ->. by apply Hne, (full_name_inj _ _ Ef). }
  unfold on_flash, settings_delete, settle. destruct (w full) as [|e [|]]; done.
Qed.
Lemma export_node_key P f n n' ret : ram_key P (cn_store n) ->
  (forall st name v s, ram_key P st -> meshtastic_config_store_setting_get name MESHTASTIC_STORE_VALUE_MAX st = Val v ->
     flash_key P (flash s) -> flash_key P (flash (f name v s).1)) ->
  export_node f n = (n', ret) ->
  ram_key P (cn_store n') /\ (flash_key P (flash (cn_saver n)) -> flash_key P (flash (cn_saver n'))).
Proof.
  intros Hr Hf. unfold export_node. destruct (meshtastic_config_store_export _ _ _) as [[st s] r] eqn:E. intros [= <- <-].
  destruct (export_inv f (fun s => flash_key P (flash s)) _ _ _ _ _
    ltac:(intros st1 name v t Hs Hg Hq; eapply Hf; [by eapply ram_key_eq|done|done]) E) as [Hs Hq].
  split; [by eapply ram_key_eq|done].
Qed.

Lemma security_in_values : SECURITY_KEY ∈ value_keys.
Proof. apply list_elem_of_In. vm_compute. tauto. Qed.
(** A flush that succeeds has put the key of the RAM on flash. *)
Lemma flush_key P w n n' : ram_key P (cn_store n) -> meshtastic_settings_flush k w n = (n', OK) ->
  ram_key P (cn_store n') /\ flash_key P (flash (cn_saver n')).
Proof.
  intros Hr. unfold meshtastic_settings_flush, export_node, meshtastic_config_store_export. cbn [cn_store cn_saver on_saver set_cn_saver].
  destruct (export_all _ value_keys _ _) as [t1 [|e]] eqn:E1; [|done].
  destruct (export_all _ version_keys _ _) as [t2 r2] eqn:E2. intros [= <- ->]. cbn [cn_store cn_saver set_cn_saver set_cn_store].
  split; [done|].
  assert (flash_key P (flash t1)) as H1.
  { eapply (export_all_done (settings_export_prefixed k w) (fun s => flash_key P (flash s)) SECURITY_KEY);
      [intros name v t Hg Hq; by eapply export_prefixed_key| |exact security_in_values|exact E1].
    intros v t t' Hg. unfold settings_export_prefixed. assert (full_name SECURITY_KEY = Val SECURITY_RECORD) as -> by done.
    unfold settings_save_one, on_flash, settle. destruct (w SECURITY_RECORD); [|done]. cbn. intros [= <-]. rewrite track_note_flash. cbn.
    exists v. rewrite lookup_insert_eq. split; [done|]. by eapply get_security_holds. }
  pose proof (export_all_inv (settings_export_prefixed k w) (fun s => flash_key P (flash s)) version_keys
    (set_s_position_seed POSITION_SEED_VERSION (cn_store n)) t1
    ltac:(intros name v t Hg Hq; eapply export_prefixed_key; [|exact Hg|exact Hq]; exact Hr) H1) as H2.
  by rewrite E2 in H2.
Qed.
Lemma flush_keeps P w n n' ret : ram_key P (cn_store n) -> meshtastic_settings_flush k w n = (n', ret) ->
  ram_key P (cn_store n') /\ (flash_key P (flash (cn_saver n)) -> flash_key P (flash (cn_saver n'))).
Proof.
  intros Hr Hf. apply (export_node_key P (settings_export_prefixed k w) (on_saver (set_save_pending false) n) n' ret Hr); [|exact Hf].
  intros st name v s Hst Hg Hk. by eapply export_prefixed_key.
Qed.

(** ** Loading the records *)

(** A record of another name leaves the section alone. *)
Lemma setting_set_other env key buf st : key <> SECURITY_KEY -> sec_of (meshtastic_config_store_setting_set env key buf st).1 = sec_of st.
Proof.
  intros Hne. unfold meshtastic_config_store_setting_set, setting_set_owner, setting_set_canned, setting_set_fixed_position.
  repeat case_match; try done. cbn [fst]. apply put_config_sec. intros ->. apply Hne.
  match goal with Hs : strip "config/" key = Some _, Hi : index_for_config_name _ = Some _ |- _ =>
    apply strip_app in Hs; apply index_for_name_security in Hi; by subst end.
Qed.
(** The section's own record replaces it, when it is a security section that decodes. *)
Lemma setting_set_security env buf st :
  sec_of (meshtastic_config_store_setting_set env SECURITY_KEY buf st).1 = sec_of st \/
  exists s, decode_record pb_config_decode buf = Val (CSecurity s) /\
    (meshtastic_config_store_setting_set env SECURITY_KEY buf st).1 = put_config SECURITY_IDX (CSecurity s) st.
Proof.
  change (meshtastic_config_store_setting_set env SECURITY_KEY buf st) with
    (match decode_record pb_config_decode buf with
     | Val c => if negb (which_config c =? 8) || negb (config_is_valid c) then (st, ERR EINVAL) else (put_config SECURITY_IDX c st, OK)
     | Fail _ => (st, ERR EINVAL) end).
  destruct (decode_record _ _) as [c|e]; [|by left]. destruct c; try by left. right. eauto.
Qed.
Lemma setting_set_key env P buf st : holds_key P buf -> is_Some (sec_of st) ->
  ram_key P (meshtastic_config_store_setting_set env SECURITY_KEY buf st).1.
Proof.
  intros (_ & s & Hd & Hp) Hs.
  change (meshtastic_config_store_setting_set env SECURITY_KEY buf st) with
    (match decode_record pb_config_decode buf with
     | Val c => if negb (which_config c =? 8) || negb (config_is_valid c) then (st, ERR EINVAL) else (put_config SECURITY_IDX c st, OK)
     | Fail _ => (st, ERR EINVAL) end).
  rewrite Hd. exists s. split; [by apply put_security_sec|done].
Qed.

(** The flash is read, not written; the records' keys. *)
Definition load_one (env : cenv) (n : cnode) (r : string * res (list Z)) : cnode :=
  settings_set_cb k env r.1 (match r.2 with Val v => length v | Fail _ => 0 end) r.2 n.
Lemma load_one_spec env n key r :
  flash (cn_saver (load_one env n (key, r))) = flash (cn_saver n) /\
  (cn_store (load_one env n (key, r)) = cn_store n \/
   exists v, r = Val v /\ cn_store (load_one env n (key, r)) = (meshtastic_config_store_setting_set env key v (cn_store n)).1) /\
  (forall v, r = Val v -> (length v <= MESHTASTIC_STORE_VALUE_MAX)%nat ->
     cn_store (load_one env n (key, r)) = (meshtastic_config_store_setting_set env key v (cn_store n)).1).
Proof.
  unfold load_one, settings_set_cb. cbn [fst snd]. destruct r as [v|e].
  - destruct (Nat.ltb_spec MESHTASTIC_STORE_VALUE_MAX (length v)).
    + split; [done|]. split; [by left|]. intros v' [= <-] ?. lia.
    + cbn. rewrite track_note_flash. split; [done|]. split; [right; by exists v|]. by intros v' [= <-].
  - destruct (_ <? _)%nat; split_and!; try done; by left.
Qed.
Lemma loads_entry fl recs key r : loads fl recs -> (key, r) ∈ recs ->
  exists v, r = Val v /\ (key = SECURITY_KEY -> fl !! SECURITY_RECORD = Some v).
Proof.
  intros Hl Hin. rewrite Hl in Hin. unfold subtree in Hin. apply list_elem_of_omap in Hin as ([full v] & Hm & Hs).
  apply fmap_Some in Hs as (key' & Hs & [= -> ->]). exists v. split; [done|]. intros ->. apply strip_app in Hs. cbn in Hs. subst full.
  by apply elem_of_map_to_list in Hm.
Qed.
Lemma loads_security fl recs v : loads fl recs -> fl !! SECURITY_RECORD = Some v -> (SECURITY_KEY, Val v) ∈ recs.
Proof.
  intros Hl Hv. rewrite Hl. unfold subtree. apply list_elem_of_omap. exists (SECURITY_RECORD, v).
  split; [by apply elem_of_map_to_list|done].
Qed.

(** The key on flash is the key in RAM after a load. *)
Lemma fold_load_key env P fl recs n : flash_key P fl ->
  (forall key r, (key, r) ∈ recs -> exists v, r = Val v /\ (key = SECURITY_KEY -> fl !! SECURITY_RECORD = Some v)) ->
  is_Some (sec_of (cn_store n)) -> (ram_key P (cn_store n) \/ exists r, (SECURITY_KEY, r) ∈ recs) ->
  ram_key P (cn_store (foldl (load_one env) n recs)).
Proof.
  intros (v0 & Hv0 & Hh). revert n. induction recs as [|[key r] recs IH]; intros n Hall Hs Hor.
  { destruct Hor as [?|[r Hr]]; [done|]. by apply elem_of_nil in Hr. }
  cbn [foldl]. destruct (load_one_spec env n key r) as (_ & Hst & Hin). destruct (Hall key r) as (v & -> & Hk); [by left|].
  assert (key = SECURITY_KEY -> ram_key P (cn_store (load_one env n (key, Val v)))) as Hsec.
  { intros ->. specialize (Hk eq_refl). rewrite Hv0 in Hk. injection Hk as <-. rewrite (Hin v0) by (done || apply Hh). by apply setting_set_key. }
  assert (key <> SECURITY_KEY -> sec_of (cn_store (load_one env n (key, Val v))) = sec_of (cn_store n)) as Hoth.
  { intros Hne. destruct Hst as [->|(v' & _ & ->)]; [done|]. by apply setting_set_other. }
  apply IH; [intros; apply Hall; by right| |].
  - destruct (decide (key = SECURITY_KEY)) as [He|Hne]; [by eapply ram_key_some, Hsec|]. by rewrite Hoth.
  - destruct (decide (key = SECURITY_KEY)) as [He|Hne]; [left; by apply Hsec|].
    destruct Hor as [Hr|[r Hr]]; [left; eapply ram_key_eq; [by apply Hoth|done]|right].
    exists r. apply elem_of_cons in Hr as [[= <- _]|Hr]; [done|exact Hr].
Qed.
Lemma fold_load_flash env recs n : flash (cn_saver (foldl (load_one env) n recs)) = flash (cn_saver n).
Proof. revert n. induction recs as [|[key r] recs IH]; intros n; [done|]. cbn. rewrite IH. apply load_one_spec. Qed.
Lemma load_flash env recs n : flash (cn_saver (settings_load k env recs n)) = flash (cn_saver n).
Proof. apply (fold_load_flash env recs n). Qed.
Lemma load_key env P n recs : is_Some (sec_of (cn_store n)) -> flash_key P (flash (cn_saver n)) -> loads (flash (cn_saver n)) recs ->
  ram_key P (cn_store (settings_load k env recs n)).
Proof.
  intros Hs Hf Hl. eapply ram_key_eq; [apply reconcile_sec|]. apply (fold_load_key env P (flash (cn_saver n)) recs n Hf); [|done|].
  - intros key r. by apply loads_entry.
  - right. destruct Hf as (v & Hv & _). eexists. by apply (loads_security _ _ v Hl).
Qed.

(** After a load the key in RAM is a record's, or it was there before. *)
Definition key_from (fl : gmap string (list Z)) (K : list Z -> Prop) (st : store) : Prop :=
  exists s, sec_of st = Some (CSecurity s) /\ (K (sc_private_key s) \/ flash_key (sc_private_key s) fl).
Lemma fold_load_from env fl K recs n :
  (forall key r, (key, r) ∈ recs -> exists v, r = Val v /\ (key = SECURITY_KEY -> fl !! SECURITY_RECORD = Some v)) ->
  key_from fl K (cn_store n) -> key_from fl K (cn_store (foldl (load_one env) n recs)).
Proof.
  revert n. induction recs as [|[key r] recs IH]; intros n Hall Hk; [done|]. cbn [foldl].
  apply IH; [intros; apply Hall; by right|]. destruct (Hall key r) as (v & -> & Hv); [by left|].
  unfold load_one, settings_set_cb. cbn [fst snd]. destruct (Nat.ltb_spec MESHTASTIC_STORE_VALUE_MAX (length v)); [done|]. cbn.
  destruct (decide (key = SECURITY_KEY)) as [->|Hne].
  - destruct (setting_set_security env v (cn_store n)) as [He|(s & Hd & ->)].
    + destruct Hk as (s & Hs & Hp). exists s. by rewrite He.
    + exists s. split; [apply put_security_sec; destruct Hk as (? & -> & _); eauto|]. right. exists v. split; [by apply Hv|]. split; [done|]. eauto.
  - destruct Hk as (s & Hs & Hp). exists s. by rewrite setting_set_other.
Qed.

(** ** A boot *)

Lemma seed_module_sec st : sec_of (seed_module_defaults k st) = sec_of st.
Proof. unfold seed_module_defaults. by destruct (k_extnotify k), (k_traffic_interval k). Qed.
Lemma seed_sec long short role mt st : sec_of (meshtastic_config_store_seed k long short role mt st) = Some (CSecurity security_zero).
Proof.
  unfold meshtastic_config_store_seed. cbv zeta. rewrite seed_module_sec. unfold seed_config_defaults. cbv zeta.
  rewrite edit_config_sec by done. rewrite edit_config_sec by done. unfold seed_position_broadcast.
  rewrite !edit_config_sec by done. done.
Qed.

Lemma clear_managed_private s : sc_private_key (security_clear_managed_without_admin_key s) = sc_private_key s.
Proof. unfold security_clear_managed_without_admin_key. by destruct (_ && _). Qed.
Lemma sanity_key env P n : ram_key P (cn_store n) ->
  ram_key P (cn_store (admin_managed_sanity_apply k env n)) /\
  flash (cn_saver (admin_managed_sanity_apply k env n)) = flash (cn_saver n).
Proof.
  intros Hr. pose proof (ram_key_some _ _ Hr) as Hs. destruct Hr as (s & He & Hp). unfold admin_managed_sanity_apply.
  rewrite security_of_sec, He. destruct (sc_is_managed s); [|split; [by exists s|done]]. cbv zeta.
  destruct (sc_is_managed (security_clear_managed_without_admin_key s)); [split; [by exists s|done]|].
  destruct (meshtastic_config_store_set_config _ _ _ _) as [n' ret] eqn:E. destruct (set_config_sec _ _ _ _ _ E Hs) as [Hf Hc].
  split; [|done]. eexists. split; [exact Hc|]. by rewrite clear_managed_private.
Qed.

Lemma boot_loaded b fl n : config_boot k b fl = (n, OK) ->
  exists m, m = settings_load k (be_env b) (be_recs b)
              (CNode (meshtastic_config_store_seed k (be_long b) (be_short b) (be_role b) (be_mt b) store_zero) (be_mt b) (saver_boot k fl)) /\
    (forall P, ram_key P (cn_store m) -> ram_key P (cn_store n)) /\
    (is_Some (security_of m) -> flash (cn_saver n) = fl).
Proof.
  unfold config_boot. destruct (meshtastic_settings_init _ _ _ _ _ _) as [n1 [|e]] eqn:Ei; [|done].
  unfold meshtastic_settings_init in Ei. destruct (be_subsys b); [|done]. injection Ei as Em _.
  pose proof (apply_core_kept n1) as [Hk1 Hk2]. destruct (meshtastic_config_store_apply_core k n1) as [n2 [|e]]; [|done]. cbn [fst] in *.
  intros [= <-]. exists n1. split; [done|]. split.
  - intros P HP. apply sanity_key. by eapply ram_key_eq.
  - intros [s Hs]. rewrite security_of_sec in Hs. destruct (sec_of (cn_store n1)) as [[]|] eqn:Es; try done.
    rewrite (proj2 (sanity_key (be_env b) (sc_private_key c) n2 ltac:(exists c; split; [by rewrite Hk1|done]))), Hk2, <- Em. apply load_flash.
Qed.
(** A boot that gets through leaves the flash alone; it comes up with the key on flash, and
    with no key but that one. *)
Lemma boot_key b fl n : config_boot k b fl = (n, OK) -> loads fl (be_recs b) ->
  flash (cn_saver n) = fl /\ (forall P, flash_key P fl -> ram_key P (cn_store n)) /\
  exists s, sec_of (cn_store n) = Some (CSecurity s) /\ (sc_private_key s = [] \/ flash_key (sc_private_key s) fl).
Proof.
  intros Hb Hl. destruct (boot_loaded _ _ _ Hb) as (m & Em & Hr & Hf).
  set (n0 := CNode _ _ _) in Em. assert (sec_of (cn_store n0) = Some (CSecurity security_zero)) as H0 by apply seed_sec.
  assert (key_from fl (fun p => p = []) (cn_store m)) as (s & Hs & Hp).
  { destruct (fold_load_from (be_env b) fl (fun p => p = []) (be_recs b) n0) as (s & Hs & Hp).
    - intros key r. by apply loads_entry.
    - exists security_zero. split; [done|by left].
    - exists s. split; [|done]. rewrite Em. unfold settings_load, settings_commit_cb. cbn [on_store cn_store set_cn_store]. rewrite reconcile_sec. exact Hs. }
  split; [apply Hf; rewrite security_of_sec, Hs; eauto|]. split.
  - intros P HP. apply Hr. rewrite Em. apply load_key; [rewrite H0; eauto|done|done].
  - destruct (Hr (sc_private_key s)) as (s' & Hs' & Hp'); [by exists s|]. exists s'. by rewrite Hp'.
Qed.

Lemma boot_fails_flash b fl n e : config_boot k b fl = (n, ERR e) -> flash (cn_saver n) = fl.
Proof.
  unfold config_boot. intros Hb. destruct (meshtastic_settings_init _ _ _ _ _ _) as [n1 r] eqn:Ei.
  assert (flash (cn_saver n1) = fl) as H1.
  { unfold meshtastic_settings_init in Ei. destruct (be_subsys b); simplify_eq; [by rewrite load_flash|done]. }
  destruct r as [|e1]; [|by simplify_eq]. pose proof (apply_core_kept n1) as [_ Hk].
  destruct (meshtastic_config_store_apply_core k n1) as [n2 [|e2]]; [done|]. simplify_eq. exact Hk.
Qed.

(** ** While the node runs *)

(** What may happen to the store: anything but a write that sets another private key, a wipe
    of the identity and a load that does not hand over what is on flash. *)
Definition keeps_key (P : list Z) (n : cnode) (op : cfg_op) : Prop :=
  match op with
  | OpSetConfig _ (CSecurity s) | OpMergeConfig _ (CSecurity s) _ => sc_private_key s = P
  | OpAdminSetConfig _ (CSecurity s) => length (sc_private_key s) = SECURITY_KEY_LEN -> sc_private_key s = P
  | OpWipe _ preserve => preserve = true
  | OpLoad _ recs => loads (flash (cn_saver n)) recs
  | _ => True
  end.
Definition secure (P : list Z) (n : cnode) : Prop := ram_key P (cn_store n) /\ flash_key P (flash (cn_saver n)).

Lemma kept_secure P n n' : kept n n' -> secure P n -> secure P n'.
Proof. intros [H1 H2] [Hr Hf]. split; [by eapply ram_key_eq|by rewrite H2]. Qed.
Lemma set_config_secure env c P n : secure P n -> match c with CSecurity s => sc_private_key s = P | _ => True end ->
  secure P (meshtastic_config_store_set_config k env c n).1.
Proof.
  intros [Hr Hf] Hc. destruct (meshtastic_config_store_set_config k env c n) as [n' ret] eqn:E.
  destruct (set_config_sec _ _ _ _ _ E (ram_key_some _ _ Hr)) as [Hfl Hs]. split; [|by cbn; rewrite Hfl]. cbn [fst].
  destruct c; try (by eapply ram_key_eq). by exists c.
Qed.
Lemma prepare_private incoming current P : length P = SECURITY_KEY_LEN -> sc_private_key current = P ->
  (length (sc_private_key incoming) = SECURITY_KEY_LEN -> sc_private_key incoming = P) ->
  sc_private_key (meshtastic_admin_prepare_security_write incoming current) = P.
Proof.
  intros HP Hc Hi. unfold meshtastic_admin_prepare_security_write. cbv zeta. rewrite Hc, HP, Nat.eqb_refl.
  destruct (Nat.eqb_spec (length (sc_private_key incoming)) SECURITY_KEY_LEN) as [He|Hne]; cbn [negb andb].
  - rewrite clear_managed_private. destruct (_ && _); cbn; by apply Hi.
  - by rewrite clear_managed_private.
Qed.
Lemma merge_config_secure env c stamp P n : secure P n -> match c with CSecurity s => sc_private_key s = P | _ => True end ->
  secure P (meshtastic_config_store_merge_config k env c stamp n).1.
Proof.
  intros [Hr Hf] Hc. unfold meshtastic_config_store_merge_config. destruct (negb _); [done|].
  destruct (index_for_config_tag (which_config c)) as [i|] eqn:Ei; [|done]. cbv zeta. destruct (meshtastic_hlc_newer _ _); [|done].
  set (m := on_store _ (on_store _ n)).
  assert (secure P m) as Hm.
  { split; [|done]. destruct (decide (i = SECURITY_IDX)) as [->|Hne].
    - destruct (index_for_tag_security _ Ei) as [s ->]. exists s. split; [|done]. by apply (put_security_sec (CSecurity s) (cn_store n)), (ram_key_some P).
    - eapply ram_key_eq; [by apply (put_config_sec i c (cn_store n))|done]. }
  pose proof (apply_core_kept m) as Ha. destruct (meshtastic_config_store_apply_core k m) as [m' r]. cbn [fst] in *.
  eapply kept_secure; [apply schedule_kept|]. by eapply kept_secure.
Qed.
Lemma stamp_all_kept env n : kept n (meshtastic_config_store_stamp_all_local env n).
Proof.
  apply on_store_kept. cbv zeta.
  assert (forall (f : store -> nat -> store), (forall st i, sec_of (f st i) = sec_of st) -> forall l st, sec_of (foldl f st l) = sec_of st) as Hfold.
  { intros f Hf l. induction l as [|i l IH]; intros st; [done|]. cbn [foldl]. rewrite IH. apply Hf. }
  rewrite Hfold by (intros; apply stamp_module_sec). apply Hfold. intros. apply stamp_config_sec.
Qed.

(** The setters that do not touch the section. *)
Lemma set_channel_kept env i ch n : kept n (meshtastic_config_store_set_channel k env i ch n).1.
Proof.
  unfold meshtastic_config_store_set_channel. destruct (_ || _); [done|]. cbv zeta.
  destruct (meshtastic_channels_set_slot _ _ _) as [s [|e]]; [|done].
  match goal with |- context [apply_stored k env ?m] => pose proof (apply_stored_kept env m) as Ha; destruct (apply_stored k env m) as [n' [|e]] end; [|done].
  etrans; [exact Ha|]. apply schedule_kept.
Qed.
Lemma edit_device_kept env f n : kept n (edit_device env f n).
Proof. apply on_store_kept. rewrite stamp_config_sec. by apply edit_config_sec. Qed.
Definition plain (op : cfg_op) : bool :=
  match op with
  | OpSetConfig _ _ | OpAdminSetConfig _ _ | OpMergeConfig _ _ _ | OpSave _ | OpFlush _ | OpWipe _ _ | OpLoad _ _ => false
  | _ => true
  end.
Lemma plain_kept op n : plain op = true -> kept n (cfg_step k op n).
Proof.
  destruct op; try discriminate; intros _; cbn [cfg_step].
  - apply set_channel_kept.
  - etrans; [|apply schedule_kept]. apply on_store_kept. rewrite stamp_config_sec. by apply edit_config_sec.
  - destruct p; (etrans; [|apply schedule_kept]; done).
  - unfold meshtastic_config_store_set_module. destruct (index_for_module_tag _); [|done].
    etrans; [|apply schedule_kept]. apply on_store_kept. by rewrite stamp_module_sec.
  - apply stamp_all_kept.
  - unfold meshtastic_config_store_merge_module. destruct (index_for_module_tag _); [|done]. cbv zeta.
    destruct (meshtastic_hlc_newer _ _); [|done]. etrans; [|apply schedule_kept]. done.
  - unfold meshtastic_config_store_set_device_role. destruct (_ <? _); [done|].
    etrans; [|apply schedule_kept]. apply (edit_device_kept env (set_dv_role role)).
  - unfold meshtastic_config_store_set_rebroadcast_mode. destruct (_ <? _); [done|].
    etrans; [|apply schedule_kept]. apply (edit_device_kept env (set_dv_rebroadcast_mode mode)).
  - etrans; [|apply schedule_kept]. apply edit_device_kept.
  - unfold meshtastic_config_store_set_owner. cbv zeta. etrans; [|apply schedule_kept].
    split; [|done]. by destruct (bool_decide _), (bool_decide _).
  - etrans; [|apply schedule_kept]. done.
  - done.
Qed.

(** The writers of the flash. *)
Lemma export_secure P f n : secure P n ->
  (forall st name v s, ram_key P st -> meshtastic_config_store_setting_get name MESHTASTIC_STORE_VALUE_MAX st = Val v ->
     flash_key P (flash s) -> flash_key P (flash (f name v s).1)) ->
  secure P (export_node f (on_saver (set_save_pending false) n)).1.
Proof.
  intros [Hr Hf] Hk. destruct (export_node _ _) as [n' r] eqn:E.
  destruct (export_node_key P f (on_saver (set_save_pending false) n) n' r Hr Hk E) as [Hr' Hf']. split; [done|by apply Hf'].
Qed.
Lemma wipe_secure P w n : secure P n -> secure P (meshtastic_settings_wipe k w true n).1.
Proof.
  intros Hn. unfold meshtastic_settings_wipe.
  pose proof (export_secure P (settings_wipe_one w true) n Hn ltac:(intros; by apply wipe_one_key)) as Hs.
  by destruct (export_node _ _) as [n' r].
Qed.

Lemma cfg_step_secure P n op : length P = SECURITY_KEY_LEN -> secure P n -> keeps_key P n op -> secure P (cfg_step k op n).
Proof.
  intros HP Hn Hok. destruct (plain op) eqn:Ep; [by apply (kept_secure P n); [apply plain_kept|]|].
  destruct op; try discriminate; cbn [cfg_step] in *.
  - apply set_config_secure; [done|]. by destruct c.
  - unfold admin_set_config. cbv zeta. destruct Hn as [Hr Hf]. pose proof Hr as (s & Hs & Hp). rewrite security_of_sec, Hs.
    apply set_config_secure; [done|]. destruct c; try done. by apply prepare_private.
  - apply merge_config_secure; [done|]. by destruct c.
  - unfold save_work_handler. cbv zeta. destruct (save_suppressed _); [done|]. apply export_secure; [done|]. intros. by eapply save_changed_key.
  - apply export_secure; [done|]. intros. by eapply export_prefixed_key.
  - cbn in Hok. subst. by apply wipe_secure.
  - destruct Hn as [Hr Hf]. split; [apply load_key; [by eapply ram_key_some|done|done]|]. by rewrite load_flash.
Qed.
End Proofs.

(** ** Examples *)

#[global] Instance spec_float_eq_dec : EqDecision spec_float.
Proof. solve_decision. Defined.
#[global] Instance device_config_eq_dec : EqDecision device_config.
Proof. solve_decision. Defined.
#[global] Instance position_config_eq_dec : EqDecision position_config.
Proof. solve_decision. Defined.
#[global] Instance lora_config_eq_dec : EqDecision lora_config.
Proof. solve_decision. Defined.
#[global] Instance bluetooth_config_eq_dec : EqDecision bluetooth_config.
Proof. solve_decision. Defined.
#[global] Instance security_config_eq_dec : EqDecision security_config.
Proof. solve_decision. Defined.
#[global] Instance config_eq_dec : EqDecision config.
Proof. solve_decision. Defined.
#[global] Instance mqtt_config_eq_dec : EqDecision mqtt_config.
Proof. solve_decision. Defined.
#[global] Instance extnotify_config_eq_dec : EqDecision extnotify_config.
Proof. solve_decision. Defined.
#[global] Instance telemetry_config_eq_dec : EqDecision telemetry_config.
Proof. solve_decision. Defined.
#[global] Instance traffic_config_eq_dec : EqDecision traffic_config.
Proof. solve_decision. Defined.
#[global] Instance module_config_eq_dec : EqDecision module_config.
Proof. solve_decision. Defined.
#[global] Instance module_settings_eq_dec : EqDecision module_settings.
Proof. solve_decision. Defined.
#[global] Instance channel_settings_eq_dec : EqDecision channel_settings.
Proof. solve_decision. Defined.
#[global] Instance channel_eq_dec : EqDecision channel.
Proof. solve_decision. Defined.

(** A codec that writes what it can read back. *)
Definition bit (z : Z) : bool := negb (z =? 0).
Definition toy_config (c : config) : list Z :=
  match c with
  | NoConfig => [0]
  | CDevice d => [1; dv_role d; dv_rebroadcast_mode d; flag (dv_serial_enabled d); dv_node_info_broadcast_secs d]
  | CPosition p => [2; ps_gps_mode p; flag (ps_smart_enabled p); ps_minimum_distance p; ps_minimum_interval p; ps_flags p; flag (ps_fixed_position p)]
  | CPower l => 3 :: l
  | CNetwork l => 4 :: l
  | CDisplay l => 5 :: l
  | CLora l => [6; flag (lo_use_preset l); lo_modem_preset l; lo_bandwidth l; lo_spread_factor l; lo_coding_rate l; lo_region l;
      lo_hop_limit l; flag (lo_tx_enabled l); lo_tx_power l; flag (lo_override_duty_cycle l); flag (lo_rx_boosted_gain l);
      lo_fem_lna_mode l; flag (lo_ok_to_mqtt l)]
  | CBluetooth b => [7; flag (bt_enabled b); bt_mode b; bt_fixed_pin b]
  | CSecurity s => 8 :: flag (sc_is_managed s) :: Z.of_nat (length (sc_private_key s)) :: sc_private_key s ++ sc_public_key s
  | CSessionkey l => 9 :: l
  | CDeviceUi l => 10 :: l
  end.
Definition toy_config_read (b : list Z) : option config :=
  match b with
  | [0] => Some NoConfig
  | [1; r; m; s; i] => Some (CDevice (DeviceConfig r m (bit s) i []))
  | [2; g; s; d; i; f; x] => Some (CPosition (PositionConfig g (bit s) d i f (bit x) []))
  | 3 :: l => Some (CPower l)
  | 4 :: l => Some (CNetwork l)
  | 5 :: l => Some (CDisplay l)
  | [6; u; mp; bw; sf; cr; r; h; t; p; d; g; f; q] =>
      Some (CLora (LoraConfig (bit u) mp bw sf cr r h (bit t) p (bit d) (S754_zero false) (bit g) f (bit q) []))
  | [7; e; m; p] => Some (CBluetooth (BluetoothConfig (bit e) m p []))
  | 8 :: m :: n :: l => Some (CSecurity (SecurityConfig (take (Z.to_nat n) l) (drop (Z.to_nat n) l) [] (bit m) false false false []))
  | 9 :: l => Some (CSessionkey l)
  | 10 :: l => Some (CDeviceUi l)
  | _ => None
  end.
Definition toy_module (m : module_config) : list Z :=
  match m with
  | MMqtt q => [1; flag (mq_enabled q)]
  | MExtnotify e => [3; flag (en_enabled e); flag (en_active e); flag (en_alert_message e); en_output_ms e; en_nag_timeout e]
  | MTelemetry t => [6; flag (te_device_enabled t); flag (te_environment_enabled t)]
  | MTraffic t => [15; tm_position_min_interval_secs t]
  | MOther tag l => tag :: l
  end.
Definition toy_module_read (b : list Z) : option module_config :=
  match b with
  | [1; e] => Some (MMqtt (MqttConfig (bit e) [] [] [] [] false false false None []))
  | [3; e; a; m; o; n] => Some (MExtnotify (ExtnotifyConfig (bit e) (bit a) (bit m) o n []))
  | [6; d; e] => Some (MTelemetry (TelemetryConfig (bit d) (bit e) []))
  | [15; s] => Some (MTraffic (TrafficConfig s []))
  | tag :: l => Some (MOther tag l)
  | _ => None
  end.
Definition toy_channel (c : channel) : list Z :=
  let s := settings c in
  [ch_index c; flag (has_settings c); ch_role c; channel_num s; cs_id s; flag (uplink_enabled s); flag (downlink_enabled s);
   match cs_module s with Some m => 1 + 2 * position_precision m + flag (is_muted m) | None => 0 end; Z.of_nat (length (psk s))] ++ psk s ++ name s.
Definition toy_channel_read (b : list Z) : option channel :=
  match b with
  | i :: h :: r :: n :: d :: u :: w :: m :: k :: l =>
      Some (Channel i (bit h) (ChannelSettings n (take (Z.to_nat k) l) (drop (Z.to_nat k) l) d (bit u) (bit w)
        (if m =? 0 then None else Some (ModuleSettings ((m - 1) / 2) (bit ((m - 1) mod 2))))) r)
  | _ => None
  end.
Definition faithful {A} `{EqDecision A} (write : A -> list Z) (read : list Z -> option A) (x : A) : option (list Z) :=
  if bool_decide (read (write x) = Some x) then Some (write x) else None.
Lemma faithful_round {A} `{EqDecision A} (write : A -> list Z) read x b : faithful write read x = Some b -> read b = Some x.
Proof. unfold faithful. case_bool_decide; [|done]. by intros [= <-]. Qed.
#[global] Instance toy_config_codec : ConfigCodec := {|
  pb_config := faithful toy_config toy_config_read; pb_config_decode := toy_config_read;
  pb_module := faithful toy_module toy_module_read; pb_module_decode := toy_module_read;
  pb_channel := faithful toy_channel toy_channel_read; pb_channel_decode := toy_channel_read;
  pb_config_round := faithful_round _ _; pb_module_round := faithful_round _ _; pb_channel_round := faithful_round _ _;
|}.

Definition toy_build : build :=
  Build [] [] 4 true false false R_US true true None true true None None None (PowerConfig R_US 17 (-9) 22) false 8
    (fun b => u32 (foldr (fun x acc => x + 31 * acc) 0 b)).
Definition toy_penv : penv := PEnv 0 0 0 R_US None (fun _ _ => OK) true false 0 0.
Definition toy_cenv (now : Z) : cenv := CEnv now toy_penv.
Definition toy_chans : chans := meshtastic_channels_init_defaults (Chans [] [] 0 CLIENT RB_ALL P_LONG_FAST true [] 0 []).
Definition toy_mt : context :=
  Context_ (PWorld toy_chans (meshtastic_preset_to_params P_LONG_FAST false) 906875000 None gate_boot)
    4660 3 20 false true true false false None None.
Definition toy_boot (fl : gmap string (list Z)) : boot_env := BootEnv (toy_cenv 1000) toy_mt None None 0 OK OK (subtree fl).
Definition all_made : outcomes := fun _ => Made.
