(* ===== verification/Pki.v ===== *)
(** * Public-key encryption (src/src/meshtastic_pki.c, meshtastic_pki.h)

    The node's X25519 key pair: minted once, stored before it is used, loaded at every boot
    from the configuration store of [ConfigStore]; the one key pending manual verification;
    direct messages under the key two nodes share; and the signing thread. The cryptographic
    library is the class [PkiCrypto] with what it documents. Pointer arguments that the
    callers never pass as NULL are values. *)
From S2P Require Import Prelude NodeDb Lockdown ConfigStore.
Open Scope Z_scope.
#[local] Open Scope c_scope.

Definition PKI_KEY_LEN : nat := 32.
Definition PKI_TAG_LEN : nat := 8.
Definition PKI_EXTRA_LEN : nat := 4.
Definition PKI_NONCE_LEN : nat := 13.
Definition MESHTASTIC_PKI_OVERHEAD : nat := 12.
Definition MESHTASTIC_HWID_LEN : nat := 16.
Definition PKI_IDENTITY_DOMAIN : list Z := chars "meshtastic-zephyr x25519 identity v1".

(** X25519, SHA-256 and AES-256-CCM as PSA documents them; [None] is a failed call. *)
Class PkiCrypto := {
  x25519_base : list Z -> option (list Z);             (* import a scalar, export its public key *)
  x25519 : list Z -> list Z -> option (list Z);        (* our scalar, their public key *)
  psa_sha256 : list Z -> option (list Z);
  aes_import : list Z -> bool;
  ccm_encrypt : list Z -> list Z -> list Z -> option (list Z);    (* key, nonce, plaintext *)
  ccm_decrypt : list Z -> list Z -> list Z -> option (list Z);
  x25519_base_len : forall a p, x25519_base a = Some p -> length p = PKI_KEY_LEN;
  x25519_agree : forall a b pa pb, x25519_base a = Some pa -> x25519_base b = Some pb -> x25519 a pb = x25519 b pa;
  psa_sha256_len : forall m h, psa_sha256 m = Some h -> length h = PKI_KEY_LEN;
  ccm_decrypt_encrypt : forall k n p c, ccm_encrypt k n p = Some c -> ccm_decrypt k n c = Some p;
  ccm_encrypt_len : forall k n p c, ccm_encrypt k n p = Some c -> length c = (length p + PKI_TAG_LEN)%nat;
}.

Record pki := Pki {
  g_priv : list Z;
  g_pub : list Z;
  g_have_key : bool;
  pending_node : Z;
  pending_key : list Z;
  sign_q_started : bool;
}.
Definition set_g_priv (v : list Z) (r : pki) : pki :=
Pki v (g_pub r) (g_have_key r) (pending_node r) (pending_key r) (sign_q_started r).
Definition set_g_pub (v : list Z) (r : pki) : pki :=
Pki (g_priv r) v (g_have_key r) (pending_node r) (pending_key r) (sign_q_started r).
Definition set_g_have_key (v : bool) (r : pki) : pki :=
Pki (g_priv r) (g_pub r) v (pending_node r) (pending_key r) (sign_q_started r).
Definition set_pending_node (v : Z) (r : pki) : pki :=
Pki (g_priv r) (g_pub r) (g_have_key r) v (pending_key r) (sign_q_started r).
Definition set_pending_key (v : list Z) (r : pki) : pki :=
Pki (g_priv r) (g_pub r) (g_have_key r) (pending_node r) v (sign_q_started r).
Definition set_sign_q_started (v : bool) (r : pki) : pki :=
Pki (g_priv r) (g_pub r) (g_have_key r) (pending_node r) (pending_key r) v.

Definition key_zero : list Z := replicate PKI_KEY_LEN 0.
Definition pki_boot : pki := Pki key_zero key_zero false 0 key_zero false.

Record pki_env := PkiEnv {
  pe_rnd : option (list Z);      (* psa_generate_random, 32 bytes *)
  pe_hwid : option (list Z);     (* meshtastic_hwid_get *)
  pe_ticks : Z;                  (* k_uptime_ticks *)
  pe_cycles : Z;                 (* k_cycle_get_32 *)
}.

Definition succeeded (ret : cret) : bool := match ret with OK => true | ERR _ => false end.

Section Pki.
Context `{PkiCrypto}.

(** ** The key pair *)

Definition meshtastic_pki_identity_from (rnd hwid : list Z) (ticks cycles : Z) : res (list Z) :=
  match psa_sha256 (rnd ++ hwid ++ put_le64 ticks ++ put_le32 cycles ++ PKI_IDENTITY_DOMAIN) with
  | Some priv => Val priv
  | None => Fail EIO
  end.

Definition pki_derive_public (p : pki) : pki * cret :=
  match x25519_base (g_priv p) with Some pub => (set_g_pub pub p, OK) | None => (p, ERR EIO) end.

(** Each output is written as soon as it is known. *)
Definition pki_generate (env : pki_env) (p : pki) : pki * cret :=
  match pe_rnd env with
  | None => (p, ERR EIO)
  | Some rnd =>
      let hwid := match pe_hwid env with Some h => h | None => replicate MESHTASTIC_HWID_LEN 0 end in
      match meshtastic_pki_identity_from rnd hwid (pe_ticks env) (pe_cycles env) with
      | Fail e => (p, ERR e)
      | Val priv =>
          let p := set_g_priv priv p in
          match x25519_base priv with Some pub => (set_g_pub pub p, OK) | None => (p, ERR EIO) end
      end
  end.

Section Store.
Context (k : build) `{ConfigCodec}.

Definition stored_key (n : cnode) : option security_config :=
  match security_of n with
  | Some cfg => if (length (sc_private_key cfg) =? PKI_KEY_LEN)%nat then Some cfg else None
  | None => None
  end.

(** [w] is what becomes of the writes of a flush. *)
Definition meshtastic_pki_init (cenv : cenv) (w : outcomes) (env : pki_env) (n : cnode) (p : pki) : pki * cnode * cret :=
  match stored_key n with
  | Some cfg =>
      let '(p, ret) := pki_derive_public (set_g_priv (sc_private_key cfg) p) in
      if negb (succeeded ret) then (p, n, ERR EIO)
      else
        let p := set_g_have_key true p in
        if bool_decide (sc_public_key cfg <> g_pub p) then
          let '(n, ret) := meshtastic_config_store_set_config k cenv (CSecurity (set_sc_public_key (g_pub p) cfg)) n in
          let n := if succeeded ret then (meshtastic_settings_flush k w n).1 else n in
          (p, n, OK)
        else (p, n, OK)
  | None =>
      let '(p, ret) := pki_generate env p in
      if negb (succeeded ret) then (p, n, ERR EIO)
      else
        let cfg := default security_zero (security_of n) in
        let cfg := set_sc_public_key (g_pub p) (set_sc_private_key (g_priv p) cfg) in
        let '(n, ret) := meshtastic_config_store_set_config k cenv (CSecurity cfg) n in
        let '(n, ret) := if succeeded ret then meshtastic_settings_flush k w n else (n, ret) in
        if negb (succeeded ret) then
          (set_g_have_key false (set_g_pub key_zero (set_g_priv key_zero p)), n, ret)
        else (set_g_have_key true p, n, OK)
  end.
End Store.

Definition meshtastic_pki_have_key (p : pki) : bool := g_have_key p.
Definition meshtastic_pki_get_public_key (p : pki) : option (list Z) := if g_have_key p then Some (g_pub p) else None.

(** ** The pending key *)

Definition meshtastic_pki_set_pending_key (node : Z) (key : list Z) (p : pki) : pki :=
  if node =? 0 then p else set_pending_key key (set_pending_node node p).
Definition meshtastic_pki_get_pending_key (node : Z) (p : pki) : option (list Z) :=
  if (node =? 0) || negb (pending_node p =? node) then None else Some (pending_key p).
Definition meshtastic_pki_clear_pending_key (p : pki) : pki := set_pending_key key_zero (set_pending_node 0 p).

(** ** Direct messages *)

Definition pki_shared_aes_key (peer_pub : list Z) (p : pki) : res (list Z) :=
  match x25519 (g_priv p) peer_pub with
  | Some secret => match psa_sha256 secret with Some k => Val k | None => Fail EIO end
  | None => Fail EIO
  end.

Definition meshtastic_pki_nonce_build (id from extra : Z) : list Z := put_le32 id ++ put_le32 extra ++ put_le32 from ++ [0].

Definition pki_peer_pub (node : Z) (db : nodedb) (p : pki) : res (list Z) :=
  match meshtastic_nodedb_copy_pubkey node db with
  | Val k => Val k
  | Fail e => match meshtastic_pki_get_pending_key node p with Some k => Val k | None => Fail e end
  end.

Definition meshtastic_pki_decrypt_with (peer_pub : list Z) (from id : Z) (enc : list Z) (out_cap : nat) (p : pki)
    : res (list Z) :=
  if negb (g_have_key p) then Fail EINVAL
  else if (length enc <=? MESHTASTIC_PKI_OVERHEAD)%nat then Fail EINVAL
  else
    let! aes_key := pki_shared_aes_key peer_pub p in
    let ct_tag_len := (length enc - PKI_EXTRA_LEN)%nat in
    let extra := get_le32 ct_tag_len enc in
    let nonce := meshtastic_pki_nonce_build id from extra in
    if negb (aes_import aes_key) then Fail EIO
    else match ccm_decrypt aes_key nonce (take ct_tag_len enc) with
    | Some out => if (length out <=? out_cap)%nat then Val out else Fail EBADMSG
    | None => Fail EBADMSG
    end.

Definition meshtastic_pki_decrypt (from id : Z) (enc : list Z) (out_cap : nat) (db : nodedb) (p : pki) : res (list Z) :=
  if negb (g_have_key p) then Fail EINVAL
  else if (length enc <=? MESHTASTIC_PKI_OVERHEAD)%nat then Fail EINVAL
  else let! peer_pub := pki_peer_pub from db p in meshtastic_pki_decrypt_with peer_pub from id enc out_cap p.

(** [rnd] is the 32-bit extra nonce, when the random source gives one. *)
Definition meshtastic_pki_encrypt (to from id : Z) (plain : list Z) (out_cap : nat) (rnd : option Z) (db : nodedb) (p : pki)
    : res (list Z) :=
  if negb (g_have_key p) then Fail EINVAL
  else if (out_cap <? length plain + MESHTASTIC_PKI_OVERHEAD)%nat then Fail ENOSPC
  else
    let! peer_pub := pki_peer_pub to db p in
    let! aes_key := pki_shared_aes_key peer_pub p in
    match rnd with
    | None => Fail EIO
    | Some extra =>
        let nonce := meshtastic_pki_nonce_build id from extra in
        if negb (aes_import aes_key) then Fail EIO
        else match ccm_encrypt aes_key nonce plain with
        | Some ct_tag => if (length ct_tag =? length plain + PKI_TAG_LEN)%nat then Val (ct_tag ++ put_le32 extra) else Fail EIO
        | None => Fail EIO
        end
    end.

(** ** The signing thread *)

(** [sign] is meshtastic_xeddsa_sign; [z] is what the hedging buffer holds, random or not.
    EWOULDBLOCK is EAGAIN. *)
Definition sign_work_fn (sign : list Z -> list Z -> list Z -> option (list Z)) (z msg : list Z) (p : pki) : res (list Z) :=
  match sign (g_priv p) msg z with Some sig => Val sig | None => Fail EIO end.

Definition meshtastic_pki_sign_bytes (sign : list Z -> list Z -> list Z -> option (list Z)) (in_isr on_sign_thread : bool)
    (z msg : list Z) (p : pki) : pki * res (list Z) :=
  if (length msg =? 0)%nat then (p, Fail EINVAL)
  else if negb (meshtastic_pki_have_key p) then (p, Fail EACCES)
  else if in_isr then (p, Fail EAGAIN)
  else
    let p := set_sign_q_started true p in
    if on_sign_thread then (p, Fail EAGAIN) else (p, sign_work_fn sign z msg p).

(** [buf] is what meshtastic_xeddsa_build_signing_buffer made of the packet, empty when it does not fit. *)
Definition meshtastic_pki_sign_packet (sign : list Z -> list Z -> list Z -> option (list Z)) (in_isr on_sign_thread : bool)
    (z buf : list Z) (p : pki) : pki * res (list Z) :=
  if (length buf =? 0)%nat then (p, Fail EMSGSIZE) else meshtastic_pki_sign_bytes sign in_isr on_sign_thread z buf p.
End Pki.

(** ** Theorems *)

(** Two messages between the same two nodes share a nonce only if they share the sender, the
    packet id and the extra nonce. *)
Lemma nonce_injective id from x id' from' x' :
  in_u32 id -> in_u32 from -> in_u32 x -> in_u32 id' -> in_u32 from' -> in_u32 x' ->
  meshtastic_pki_nonce_build id from x = meshtastic_pki_nonce_build id' from' x' -> id = id' /\ from = from' /\ x = x'.
Proof.
  unfold in_u32, UINT32_MAX. intros H1 H2 H3 H4 H5 H6. unfold meshtastic_pki_nonce_build.
  intros [E1 [E2 [E3 _]%app_inj_1]%app_inj_1]%app_inj_1; rewrite ?length_le_put; try done.
  apply (f_equal le_get) in E1, E2, E3. rewrite !le_get_put in * by (cbn; lia). done.
Qed.

Section Keys.
Context `{PkiCrypto}.

(** The public half is the private half's. *)
Definition key_pair (p : pki) : Prop := x25519_base (g_priv p) = Some (g_pub p).

Lemma shared_key_agrees a b :
  key_pair a -> key_pair b -> pki_shared_aes_key (g_pub b) a = pki_shared_aes_key (g_pub a) b.
Proof. intros Ha Hb. unfold pki_shared_aes_key. by rewrite (x25519_agree _ _ _ _ Ha Hb). Qed.

Lemma wire_split c extra : in_u32 extra ->
  let enc := c ++ put_le32 extra in
  let n := (length enc - PKI_EXTRA_LEN)%nat in take n enc = c /\ get_le32 n enc = extra.
Proof.
  intros Hx enc n. assert (n = length c) as ->.
  { unfold n, enc. rewrite length_app, length_le_put. unfold PKI_EXTRA_LEN. lia. }
  split; [by apply take_app_length|]. unfold enc. rewrite get_le_app_skip by done.
  rewrite <- (app_nil_r (put_le32 extra)). apply get_le_app_here. unfold in_u32, UINT32_MAX in Hx. cbn. lia.
Qed.

Lemma encrypt_wire a peer dba na nb id plain extra k ct out_cap :
  g_have_key a = true -> pki_peer_pub nb dba a = Val peer -> pki_shared_aes_key peer a = Val k -> aes_import k = true ->
  ccm_encrypt k (meshtastic_pki_nonce_build id na extra) plain = Some ct ->
  (length plain + MESHTASTIC_PKI_OVERHEAD <= out_cap)%nat ->
  meshtastic_pki_encrypt nb na id plain out_cap (Some extra) dba a = Val (ct ++ put_le32 extra) /\
  length (ct ++ put_le32 extra) = (length plain + MESHTASTIC_PKI_OVERHEAD)%nat.
Proof.
  intros Hka Hpa Hsk Haes Hct Hout. pose proof (ccm_encrypt_len _ _ _ _ Hct) as Hlen. split.
  - unfold meshtastic_pki_encrypt. rewrite Hka, Hpa. cbn [negb res_bind].
    assert ((out_cap <? length plain + MESHTASTIC_PKI_OVERHEAD)%nat = false) as -> by (by apply Nat.ltb_ge).
    rewrite Hsk. cbn [res_bind]. rewrite Haes, Hct. cbn [negb]. by rewrite Hlen, Nat.eqb_refl.
  - rewrite length_app, length_le_put, Hlen. unfold PKI_TAG_LEN, MESHTASTIC_PKI_OVERHEAD. lia.
Qed.

Lemma decrypt_wire b peer dbb na id plain extra k ct in_cap :
  g_have_key b = true -> pki_peer_pub na dbb b = Val peer -> pki_shared_aes_key peer b = Val k -> aes_import k = true ->
  ccm_encrypt k (meshtastic_pki_nonce_build id na extra) plain = Some ct -> in_u32 extra ->
  plain <> [] -> (length plain <= in_cap)%nat ->
  meshtastic_pki_decrypt na id (ct ++ put_le32 extra) in_cap dbb b = Val plain.
Proof.
  intros Hkb Hpb Hsk Haes Hct Hx Hne Hin. pose proof (ccm_encrypt_len _ _ _ _ Hct) as Hlen.
  assert ((length (ct ++ put_le32 extra) <=? MESHTASTIC_PKI_OVERHEAD)%nat = false) as Hover.
  { apply Nat.leb_gt. rewrite length_app, length_le_put, Hlen. unfold PKI_TAG_LEN, MESHTASTIC_PKI_OVERHEAD.
    destruct plain; [done|]. cbn. lia. }
  unfold meshtastic_pki_decrypt, meshtastic_pki_decrypt_with. rewrite Hkb, Hover, Hpb. cbn [negb res_bind].
  rewrite Hsk. cbn [res_bind]. rewrite Haes. cbn [negb].
  destruct (wire_split ct extra Hx) as [-> ->]. rewrite (ccm_decrypt_encrypt _ _ _ _ Hct).
  assert ((length plain <=? in_cap)%nat = true) as -> by (by apply Nat.leb_le). done.
Qed.

(** C32: A direct message reaches the node it is for. When two nodes have their key pairs and
    hold each other's public key, in the node database or pending, and the library's calls
    succeed, the sender puts out the message with twelve bytes more, and the receiver
    decrypts exactly the message, for any sender, packet id and extra nonce. *)
Theorem direct_message_arrives a b dba dbb na nb id plain extra secret k ct out_cap in_cap :
  key_pair a -> key_pair b -> g_have_key a = true -> g_have_key b = true ->
  pki_peer_pub nb dba a = Val (g_pub b) -> pki_peer_pub na dbb b = Val (g_pub a) ->
  x25519 (g_priv a) (g_pub b) = Some secret -> psa_sha256 secret = Some k -> aes_import k = true ->
  ccm_encrypt k (meshtastic_pki_nonce_build id na extra) plain = Some ct -> in_u32 extra ->
  plain <> [] -> (length plain + MESHTASTIC_PKI_OVERHEAD <= out_cap)%nat -> (length plain <= in_cap)%nat ->
  exists wire, meshtastic_pki_encrypt nb na id plain out_cap (Some extra) dba a = Val wire /\
    length wire = (length plain + MESHTASTIC_PKI_OVERHEAD)%nat /\
    meshtastic_pki_decrypt na id wire in_cap dbb b = Val plain.
Proof.
  intros Ha Hb Hka Hkb Hpa Hpb Hs Hk Haes Hct Hx Hne Hout Hin.
  assert (pki_shared_aes_key (g_pub b) a = Val k) as Hsk by (unfold pki_shared_aes_key; by rewrite Hs, Hk).
  destruct (encrypt_wire a (g_pub b) dba na nb id plain extra k ct out_cap Hka Hpa Hsk Haes Hct Hout) as [He Hl].
  exists (ct ++ put_le32 extra). split; [exact He|]. split; [exact Hl|].
  eapply decrypt_wire; try done. by rewrite <- (shared_key_agrees a b Ha Hb).
Qed.

Section Boots.
Context (k : build) `{ConfigCodec}.

(** ** A node's life: boots, and what happens to the store in between *)

Record pboot := PBoot { pb_boot : boot_env; pb_outcomes : outcomes; pb_env : pki_env }.
(** [pn_up] is false after a boot that stopped before the keys: nothing runs until the next. *)
Record pnode := PNode {
  pn_cfg : cnode;
  pn_pki : pki;
  pn_up : bool;
}.
Definition set_pn_cfg (v : cnode) (r : pnode) : pnode :=
PNode v (pn_pki r) (pn_up r).
Definition set_pn_pki (v : pki) (r : pnode) : pnode :=
PNode (pn_cfg r) v (pn_up r).
Definition set_pn_up (v : bool) (r : pnode) : pnode :=
PNode (pn_cfg r) (pn_pki r) v.
Definition node_boot (b : pboot) (fl : gmap string (list Z)) : pnode :=
  let '(n, ret) := config_boot k (pb_boot b) fl in
  match ret with
  | ERR _ => PNode n pki_boot false
  | OK => let '(p, n, _) := meshtastic_pki_init k (be_env (pb_boot b)) (pb_outcomes b) (pb_env b) n pki_boot in PNode n p true
  end.
Inductive node_event := EvBoot (b : pboot) | EvStore (op : cfg_op).
Definition node_flash (s : pnode) : gmap string (list Z) := flash (cn_saver (pn_cfg s)).
Definition node_step (s : pnode) (ev : node_event) : pnode :=
  match ev with
  | EvBoot b => node_boot b (node_flash s)
  | EvStore op => if pn_up s then set_pn_cfg (cfg_step k op (pn_cfg s)) s else s
  end.
(** Every boot is handed the records that are on flash, and the store's operations keep the
    private key. *)
Definition calm (P : list Z) (s : pnode) (ev : node_event) : Prop :=
  match ev with
  | EvBoot b => loads (node_flash s) (be_recs (pb_boot b))
  | EvStore op => keeps_key P (pn_cfg s) op
  end.
Fixpoint calm_life (P : list Z) (s : pnode) (evs : list node_event) : Prop :=
  match evs with [] => True | ev :: evs => calm P s ev /\ calm_life P (node_step s ev) evs end.

Lemma stored_key_ram P n : ram_key P (cn_store n) -> length P = PKI_KEY_LEN ->
  exists cfg, stored_key n = Some cfg /\ sc_private_key cfg = P.
Proof.
  intros (s & Hs & Hp) Hl. exists s. unfold stored_key. rewrite security_of_sec, Hs, Hp, Hl. done.
Qed.

(** With the key in RAM and on flash, the node comes up with it and it stays there. *)
Lemma init_loads cenv w env n p P pub : secure P n -> length P = PKI_KEY_LEN -> x25519_base P = Some pub ->
  let '(p', n', _) := meshtastic_pki_init k cenv w env n p in
  g_have_key p' = true /\ g_priv p' = P /\ g_pub p' = pub /\ secure P n'.
Proof.
  intros Hsec Hl Hb. destruct (stored_key_ram P n) as (cfg & Hst & Hp); [apply Hsec|done|].
  unfold meshtastic_pki_init. rewrite Hst. unfold pki_derive_public. cbn [g_priv set_g_priv]. rewrite Hp, Hb. cbn [succeeded negb].
  destruct (bool_decide _); [|done].
  pose proof (set_config_secure k cenv (CSecurity (set_sc_public_key pub cfg)) P n Hsec Hp) as Hc.
  cbn [g_pub set_g_have_key set_g_pub]. destruct (meshtastic_config_store_set_config _ _ _ _) as [n1 ret]. cbn [fst] in Hc.
  split; [done|]. split; [done|]. split; [done|]. destruct (succeeded ret); [|done].
  apply export_secure; [done|]. intros. by eapply export_prefixed_key.
Qed.

(** A boot that comes up with a key has it in RAM and on flash. *)
Lemma first_key b fl : loads fl (be_recs (pb_boot b)) -> g_have_key (pn_pki (node_boot b fl)) = true ->
  let s := node_boot b fl in
  key_pair (pn_pki s) /\ length (g_priv (pn_pki s)) = PKI_KEY_LEN /\ secure (g_priv (pn_pki s)) (pn_cfg s).
Proof.
  intros Hl Hk. unfold node_boot in *. destruct (config_boot k (pb_boot b) fl) as [n [|e]] eqn:Eb; [|done].
  destruct (boot_key k _ _ _ Eb Hl) as (Hf & _ & s & Hs & Hor).
  destruct (stored_key n) as [cfg|] eqn:Est.
  - unfold stored_key in Est. rewrite security_of_sec, Hs in Est. destruct (Nat.eqb_spec (length (sc_private_key s)) PKI_KEY_LEN) as [Hlen|]; [|done].
    injection Est as ->. destruct Hor as [Hnil|Hfk]; [by rewrite Hnil in Hlen|].
    assert (secure (sc_private_key cfg) n) as Hsec by (split; [by exists cfg|by rewrite Hf]).
    destruct (x25519_base (sc_private_key cfg)) as [pub|] eqn:Ex.
    + pose proof (init_loads (be_env (pb_boot b)) (pb_outcomes b) (pb_env b) n pki_boot _ pub Hsec Hlen Ex) as Hi.
      destruct (meshtastic_pki_init _ _ _ _ _ _) as [[p' n'] r]. destruct Hi as (_ & Hp & Hpub & Hse). cbn. unfold key_pair. by rewrite Hp, Hpub.
    + exfalso. destruct (stored_key_ram (sc_private_key cfg) n) as (c & Hst & Hp); [apply Hsec|done|].
      unfold meshtastic_pki_init in Hk. rewrite Hst in Hk. unfold pki_derive_public in Hk. cbn [g_priv set_g_priv] in Hk.
      rewrite Hp, Ex in Hk. done.
  - unfold meshtastic_pki_init in *. rewrite Est in *. unfold pki_generate, meshtastic_pki_identity_from in *.
    destruct (pe_rnd (pb_env b)) as [rnd|]; [|done]. destruct (psa_sha256 _) as [priv|] eqn:Eh; [|done].
    destruct (x25519_base priv) as [pub|] eqn:Ex; [|done]. cbn [succeeded negb g_pub g_priv set_g_pub set_g_priv] in *.
    set (c := set_sc_public_key pub _) in *.
    destruct (meshtastic_config_store_set_config k (be_env (pb_boot b)) (CSecurity c) n) as [n1 [|e]] eqn:Es; cbn [succeeded negb] in *; [|done].
    destruct (set_config_sec k _ _ _ _ _ Es ltac:(rewrite Hs; eauto)) as [_ Hc].
    destruct (meshtastic_settings_flush k (pb_outcomes b) n1) as [n2 [|e]] eqn:Ef; cbn [succeeded negb] in *; [|done].
    destruct (flush_key k priv _ _ _ ltac:(by exists c) Ef) as [H1 H2]. split; [done|]. split; [by eapply psa_sha256_len|done].
Qed.

(** The node's key, while it is up; none when it is not. *)
Definition comes_up_with (P pub : list Z) (s : pnode) : Prop :=
  flash_key P (node_flash s) /\
  if pn_up s then g_have_key (pn_pki s) = true /\ g_priv (pn_pki s) = P /\ g_pub (pn_pki s) = pub /\ ram_key P (cn_store (pn_cfg s))
  else g_have_key (pn_pki s) = false.
Lemma node_step_key P pub s ev : length P = PKI_KEY_LEN -> x25519_base P = Some pub ->
  comes_up_with P pub s -> calm P s ev -> comes_up_with P pub (node_step s ev).
Proof.
  intros Hl Hx [Hf Hs] Hc. destruct ev as [b|op]; cbn [node_step calm] in *.
  - unfold node_boot. destruct (config_boot k (pb_boot b) (node_flash s)) as [n [|e]] eqn:Eb.
    + destruct (boot_key k _ _ _ Eb Hc) as (Hfl & Hr & _).
      assert (secure P n) as Hsec by (split; [by apply Hr|by rewrite Hfl]).
      pose proof (init_loads (be_env (pb_boot b)) (pb_outcomes b) (pb_env b) n pki_boot P pub Hsec Hl Hx) as Hi.
      destruct (meshtastic_pki_init _ _ _ _ _ _) as [[p' n'] r]. destruct Hi as (? & ? & ? & [? ?]). by split.
    + split; [|done]. unfold node_flash. cbn. by rewrite (boot_fails_flash k _ _ _ _ Eb).
  - destruct (pn_up s) eqn:Eu; [|by split; [|rewrite Eu]]. destruct Hs as (Hk & Hp & Hpub & Hr).
    destruct (cfg_step_secure k P (pn_cfg s) op Hl (conj Hr Hf) Hc) as [Hr' Hf']. split; [done|]. cbn. by rewrite Eu.
Qed.
Lemma life_key P pub evs s : length P = PKI_KEY_LEN -> x25519_base P = Some pub ->
  comes_up_with P pub s -> calm_life P s evs -> comes_up_with P pub (foldl node_step s evs).
Proof.
  intros Hl Hx. revert s. induction evs as [|ev evs IH]; intros s Hs Hc; [done|]. destruct Hc as [Hc Hc'].
  cbn [foldl]. apply IH; [|done]. by apply node_step_key.
Qed.

(** C24: A node's identity is stable. Once a boot has come up with a key pair, which is minted and
    stored, or loaded, the pair is whole, and every later boot that gets through its start-up
    comes up with that very pair, one that does not comes up with none: whatever
    configuration is set, merged, edited by an operator, saved, flushed, wiped short of the
    identity or read again in between, in any order, with saves and flushes that fail at
    any record, and whatever the random source does. It is assumed that the flash keeps the records it
    accepted and hands them all over when they are loaded, and that no write of the security
    section brings a different private key. *)
Theorem identity_is_stable b fl evs :
  let s := node_boot b fl in
  let P := g_priv (pn_pki s) in
  let s' := foldl node_step s evs in
  loads fl (be_recs (pb_boot b)) -> meshtastic_pki_have_key (pn_pki s) = true -> calm_life P s evs ->
  key_pair (pn_pki s) /\
  (if pn_up s' then
     meshtastic_pki_get_public_key (pn_pki s') = meshtastic_pki_get_public_key (pn_pki s) /\ g_priv (pn_pki s') = P
   else meshtastic_pki_get_public_key (pn_pki s') = None).
Proof.
  intros s P s' Hl Hk Hc. destruct (first_key b fl Hl Hk) as (Hpair & Hlen & Hsec). fold s in Hpair, Hlen, Hsec.
  assert (pn_up s = true) as Hup.
  { unfold s, node_boot in *. destruct (config_boot _ _ _) as [n [|e]]; [|done]. by destruct (meshtastic_pki_init _ _ _ _ _ _) as [[??]?]. }
  split; [done|]. destruct (life_key P (g_pub (pn_pki s)) evs s Hlen Hpair) as [_ Hs']; [|done|].
  - split; [apply Hsec|]. rewrite Hup. split_and!; [done..|apply Hsec].
  - fold s' in Hs'. unfold meshtastic_pki_get_public_key. unfold meshtastic_pki_have_key in Hk. rewrite Hk.
    destruct (pn_up s'); [|by rewrite Hs']. destruct Hs' as (-> & -> & -> & _). done.
Qed.
End Boots.
End Keys.

(** ** Examples *)

Definition toy_val (k : list Z) : Z := u8 (foldr Z.add 0 k).
Definition toy_pub (k : list Z) : list Z := put_le32 (7 * toy_val k) ++ replicate 28 0.

Lemma toy_pub_val k : get_le32 0 (toy_pub k) = 7 * toy_val k.
Proof. unfold toy_pub. apply get_le_app_here. unfold toy_val. pose proof (u8_range (foldr Z.add 0 k)). cbn. lia. Qed.

Definition toy_pad (n : nat) (m : list Z) : list Z := take n (m ++ replicate n 0).
Lemma length_toy_pad n m : length (toy_pad n m) = n.
Proof. unfold toy_pad. rewrite length_take, length_app, length_replicate. lia. Qed.

Definition toy_unpad (c : list Z) : list Z := take (length c - 8) c.
Lemma toy_unpad_pad p n : toy_unpad (p ++ toy_pad 8 n) = p.
Proof. unfold toy_unpad. rewrite length_app, length_toy_pad, Nat.add_sub. by rewrite take_app_length. Qed.

#[global] Instance toy_crypto : PkiCrypto.
Proof.
  refine {|
    x25519_base := fun a => Some (toy_pub a);
    x25519 := fun a p => Some (put_le64 (toy_val a * get_le32 0 p));
    psa_sha256 := fun m => Some (toy_pad 32 m);
    aes_import := fun _ => true;
    ccm_encrypt := fun _ n p => Some (p ++ toy_pad 8 n);
    ccm_decrypt := fun _ _ c => Some (toy_unpad c) |}.
  - intros a p [= <-]. done.
  - intros a b pa pb [= <-] [= <-]. rewrite !toy_pub_val. do 2 f_equal. lia.
  - intros m h [= <-]. apply length_toy_pad.
  - intros k n p c [= <-]. by rewrite toy_unpad_pad.
  - intros k n p c [= <-]. by rewrite length_app, length_toy_pad.
Defined.

Definition toy_env (seed : Z) : pki_env := PkiEnv (Some (replicate 32 seed)) None 1 2.
Definition minted (seed : Z) : pki := set_g_have_key true (pki_generate (toy_env seed) pki_boot).1.
Definition node_a : pki := minted 3.
Definition node_b : pki := minted 5.
Definition meets (node : Z) (peer p : pki) : pki := meshtastic_pki_set_pending_key node (g_pub peer) p.

Lemma direct_message_arrives_witness :
  exists wire, meshtastic_pki_encrypt 2 1 77 [104; 105] 64 (Some 9) (nodedb_zero 1) (meets 2 node_b node_a) = Val wire /\
    length wire = 14%nat /\
    meshtastic_pki_decrypt 1 77 wire 64 (nodedb_zero 1) (meets 1 node_a node_b) = Val [104; 105].
Proof.
  apply (direct_message_arrives (meets 2 node_b node_a) (meets 1 node_a node_b) (nodedb_zero 1) (nodedb_zero 1) 1 2 77
    [104; 105] 9 (put_le64 (toy_val (g_priv node_a) * get_le32 0 (g_pub node_b)))
    (toy_pad 32 (put_le64 (toy_val (g_priv node_a) * get_le32 0 (g_pub node_b))))
    ([104; 105] ++ toy_pad 8 (meshtastic_pki_nonce_build 77 1 9)) 64 64);
    try (vm_compute; reflexivity).
  - unfold in_u32, UINT32_MAX. lia.
  - discriminate.
  - unfold MESHTASTIC_PKI_OVERHEAD. cbn. lia.
  - cbn. lia.
Defined.

Definition toy_pboot (seed : Z) (fl : gmap string (list Z)) : pboot := PBoot (toy_boot fl) all_made (toy_env seed).
Abbreviation toy_first := (node_boot toy_build (toy_pboot 3 ∅) ∅).
(** An operator's security section without a key, a save that fails at the channels, a reset
    that keeps the identity. *)
Definition toy_life : list node_event := [
  EvStore (OpAdminSetConfig (toy_cenv 2000) (CSecurity (set_sc_is_managed true security_zero)));
  EvStore (OpSave (fun name => if String.eqb name "meshtastic/channel/2" then Refused EIO true else Made));
  EvStore (OpWipe all_made true)].
Definition toy_after : pnode := foldl (node_step toy_build) toy_first toy_life.

Lemma identity_is_stable_witness :
  meshtastic_pki_have_key (pn_pki toy_first) = true /\
  let s' := foldl (node_step toy_build) toy_first (toy_life ++ [EvBoot (toy_pboot 8 (node_flash toy_after))]) in
  pn_up s' = true /\ meshtastic_pki_get_public_key (pn_pki s') = meshtastic_pki_get_public_key (pn_pki toy_first).
Proof.
  split; [vm_compute; reflexivity|].
  pose proof (identity_is_stable toy_build (toy_pboot 3 ∅) ∅ (toy_life ++ [EvBoot (toy_pboot 8 (node_flash toy_after))])) as H.
  assert (pn_up (foldl (node_step toy_build) toy_first (toy_life ++ [EvBoot (toy_pboot 8 (node_flash toy_after))])) = true) as Hup
    by (vm_compute; reflexivity).
  split; [exact Hup|].
  destruct H as [_ H].
  - unfold loads. vm_compute. reflexivity.
  - vm_compute. reflexivity.
  - unfold toy_life, calm_life, calm, keeps_key, app. split; [vm_compute; discriminate|]. split; [exact I|]. split; [reflexivity|].
    split; [|exact I]. unfold loads. vm_compute. reflexivity.
  - cbv zeta in H. rewrite Hup in H. exact (proj1 H).
Defined.

(** The condition on the flash is needed: a boot that is handed the record of the security
    section with a read error takes the section for empty, mints a new pair and writes it
    over the stored one. *)
Definition unreadable (recs : list (string * res (list Z))) : list (string * res (list Z)) :=
  (fun r => if String.eqb r.1 "config/security" then (r.1, Fail EIO) else r) <$> recs.
Lemma unread_record_new_identity :
  let fl := node_flash toy_first in
  let b := BootEnv (toy_cenv 1000) toy_mt None None 0 OK OK (unreadable (subtree fl)) in
  let s' := node_boot toy_build (PBoot b all_made (toy_env 8)) fl in
  g_have_key (pn_pki s') = true /\ g_priv (pn_pki s') <> g_priv (pn_pki toy_first) /\
  node_flash s' !! SECURITY_RECORD <> fl !! SECURITY_RECORD.
Proof. vm_compute. split; [reflexivity|]. split; discriminate. Qed.
