(* ===== verification/KeyVerify.v ===== *)
(** * Manual key verification (src/src/meshtastic_keyverify.c, meshtastic_keyverify.h)

    The three-message handshake by which two users confirm each other's keys, over the node
    database of [NodeDb] and the pending key of [Pki]: the session with its timeouts, the
    initiator's and the responder's side, and what each side sends and shows. A call sees
    one uptime; nanopb is the class [KvCodec] with its round trip, SHA-256 that of
    [PkiCrypto]. The wording of the notifications is left out, what they carry is not. *)
From S2P Require Import Prelude Packet Routing NodeDb Pki.
Open Scope Z_scope.

Definition KV_IDLE_TIMEOUT_MS : Z := 60 * 1000.
Definition KV_MAX_SESSION_MS : Z := 3 * 60 * 1000.
Definition KV_REMOTE_COOLDOWN_MS : Z := 60 * 1000.
Definition KV_HASH_LEN : nat := 32.
Definition KV_LONGNAME_LEN : nat := 40.

Inductive meshtastic_keyverify_state :=
  | KV_IDLE | KV_SENDER_HAS_INITIATED | KV_SENDER_AWAITING_NUMBER | KV_SENDER_AWAITING_USER
  | KV_RECEIVER_AWAITING_USER | KV_RECEIVER_AWAITING_HASH1.

#[export] Instance kv_state_eq_dec : EqDecision meshtastic_keyverify_state.
Proof. solve_decision. Defined.

Record kv := Kv {
  state : meshtastic_keyverify_state;
  remote : Z;
  nonce : Z;
  security_number : Z;
  progressed_ms : Z;
  started_ms : Z;
  last_remote_end_ms : Z;
  session_from_remote : bool;
  hash1 : list Z;
  hash2 : list Z;
}.
Definition set_state (v : meshtastic_keyverify_state) (r : kv) : kv :=
Kv v (remote r) (nonce r) (security_number r) (progressed_ms r) (started_ms r)
    (last_remote_end_ms r) (session_from_remote r) (hash1 r) (hash2 r).
Definition set_remote (v : Z) (r : kv) : kv :=
Kv (state r) v (nonce r) (security_number r) (progressed_ms r) (started_ms r)
    (last_remote_end_ms r) (session_from_remote r) (hash1 r) (hash2 r).
Definition set_nonce (v : Z) (r : kv) : kv :=
Kv (state r) (remote r) v (security_number r) (progressed_ms r) (started_ms r)
    (last_remote_end_ms r) (session_from_remote r) (hash1 r) (hash2 r).
Definition set_security_number (v : Z) (r : kv) : kv :=
Kv (state r) (remote r) (nonce r) v (progressed_ms r) (started_ms r) (last_remote_end_ms r)
    (session_from_remote r) (hash1 r) (hash2 r).
Definition set_progressed_ms (v : Z) (r : kv) : kv :=
Kv (state r) (remote r) (nonce r) (security_number r) v (started_ms r) (last_remote_end_ms
    r) (session_from_remote r) (hash1 r) (hash2 r).
Definition set_started_ms (v : Z) (r : kv) : kv :=
Kv (state r) (remote r) (nonce r) (security_number r) (progressed_ms r) v
    (last_remote_end_ms r) (session_from_remote r) (hash1 r) (hash2 r).
Definition set_last_remote_end_ms (v : Z) (r : kv) : kv :=
Kv (state r) (remote r) (nonce r) (security_number r) (progressed_ms r) (started_ms r) v
    (session_from_remote r) (hash1 r) (hash2 r).
Definition set_session_from_remote (v : bool) (r : kv) : kv :=
Kv (state r) (remote r) (nonce r) (security_number r) (progressed_ms r) (started_ms r)
    (last_remote_end_ms r) v (hash1 r) (hash2 r).
Definition set_hash1 (v : list Z) (r : kv) : kv :=
Kv (state r) (remote r) (nonce r) (security_number r) (progressed_ms r) (started_ms r)
    (last_remote_end_ms r) (session_from_remote r) v (hash2 r).
Definition set_hash2 (v : list Z) (r : kv) : kv :=
Kv (state r) (remote r) (nonce r) (security_number r) (progressed_ms r) (started_ms r)
    (last_remote_end_ms r) (session_from_remote r) (hash1 r) v.

Definition hash_zero : list Z := replicate KV_HASH_LEN 0.
Definition kv_zero : kv := Kv KV_IDLE 0 0 0 0 0 0 false hash_zero hash_zero.

(** The session, the key pair with its pending key, and the node database. *)
Record kvw := KvWorld {
  kv_s : kv;
  kv_pki : pki;
  kv_db : nodedb;
}.
Definition set_kv_s (v : kv) (r : kvw) : kvw :=
KvWorld v (kv_pki r) (kv_db r).
Definition set_kv_pki (v : pki) (r : kvw) : kvw :=
KvWorld (kv_s r) v (kv_db r).
Definition set_kv_db (v : nodedb) (r : kvw) : kvw :=
KvWorld (kv_s r) (kv_pki r) v.

Record kv_msg := KvMsg { km_nonce : Z; km_hash1 : list Z; km_hash2 : list Z }.

(** Nanopb, into a payload buffer: the module's message, and the Data message around a payload
    of its port, with the wish for a response. *)
Class KvCodec := {
  kv_encode : kv_msg -> option (list Z);
  kv_decode : list Z -> option kv_msg;
  kv_decode_encode : forall m b, kv_encode m = Some b -> kv_decode b = Some m;
  data_encode : list Z -> bool -> option (list Z);
  data_decode : list Z -> option (list Z * bool);
  data_decode_encode : forall m r b, data_encode m r = Some b -> data_decode b = Some (m, r);
}.

(** What a side sends, shows its user and asks of the node-info module. *)
Inductive kv_out :=
  | KvSend (to : Z) (payload : list Z) (no_pkc : bool)
  | KvNumberRequest (nonce : Z) (name : list Z)
  | KvNumberInform (nonce number : Z) (name : list Z)
  | KvFinal (nonce : Z) (is_sender : bool) (name code : list Z)
  | KvNodeInfo (to : Z).

Record kv_env := KvEnv {
  ke_nd :> nd_env;                                   (* our node id, the uptime *)
  ke_nonce : option Z;                               (* psa_generate_random, 8 bytes *)
  ke_entropy : option Z;                             (* psa_generate_random, 4 bytes *)
  ke_send : Z -> list Z -> bool -> cret;             (* meshtastic_send_packet *)
}.
Definition ke_now (env : kv_env) : Z := nd_uptime_ms env.

Record kv_reply := KvReply { rp_to : Z; rp_payload : list Z; rp_request_id : Z; rp_no_pkc : bool }.

Definition on_kv (f : kv -> kv) (w : kvw) : kvw := set_kv_s (f (kv_s w)) w.
Definition on_pki (f : pki -> pki) (w : kvw) : kvw := set_kv_pki (f (kv_pki w)) w.

Section KeyVerify.
Context `{PkiCrypto} `{KvCodec}.

(** ** Helpers *)

Definition compute_hash1 (number nonce initiator responder : Z) (pk_init pk_resp : list Z) : option (list Z) :=
  psa_sha256 (put_le32 number ++ put_le64 nonce ++ put_le32 initiator ++ put_le32 responder ++ pk_init ++ pk_resp).
Definition compute_hash2 (nonce : Z) (h1 : list Z) : option (list Z) := psa_sha256 (put_le64 nonce ++ h1).

Definition code_char (h1 : list Z) (i : nat) : Z := Z.shiftr (byte_at h1 i) 2 + 48.
Definition verification_code (h1 : list Z) : list Z := (code_char h1 <$> seq 0 4) ++ [32] ++ (code_char h1 <$> seq 5 4).

Definition nodedb_key (node : Z) (w : kvw) : option (list Z) :=
  match meshtastic_nodedb_copy_pubkey node (kv_db w) with Val k => Some k | Fail _ => None end.
Definition pending_of (node : Z) (w : kvw) : option (list Z) := meshtastic_pki_get_pending_key node (kv_pki w).
(** The node database first, then the pending key. *)
Definition peer_key (node : Z) (w : kvw) : option (list Z) :=
  match nodedb_key node w with Some k => Some k | None => pending_of node w end.
Definition our_key (w : kvw) : option (list Z) := meshtastic_pki_get_public_key (kv_pki w).

Definition UNKNOWN_NAME : list Z := [85; 110; 107; 110; 111; 119; 110].
Definition remote_long_name (env : kv_env) (node : Z) (w : kvw) : list Z :=
  match meshtastic_nodedb_get env node (kv_db w) with
  | Val n => if sn_has_user n && negb (length (sn_long_name n) =? 0)%nat then take (KV_LONGNAME_LEN - 1) (sn_long_name n)
             else UNKNOWN_NAME
  | Fail _ => UNKNOWN_NAME
  end.

Definition reset_session_locked (env : kv_env) (w : kvw) : kvw :=
  on_pki meshtastic_pki_clear_pending_key
    (on_kv (fun s => set_last_remote_end_ms (if session_from_remote s then ke_now env else last_remote_end_ms s) kv_zero) w).

Definition session_expired (env : kv_env) (s : kv) : bool :=
  (KV_MAX_SESSION_MS <=? ke_now env - started_ms s) || (KV_IDLE_TIMEOUT_MS <=? ke_now env - progressed_ms s).

Definition update_state_locked (env : kv_env) (refresh : bool) (w : kvw) : kvw :=
  if bool_decide (state (kv_s w) = KV_IDLE) then w
  else if session_expired env (kv_s w) then reset_session_locked env w
  else if refresh then on_kv (set_progressed_ms (ke_now env)) w
  else w.

Definition send_kv (env : kv_env) (to nonce : Z) (h1 h2 : list Z) (no_pkc : bool) : list kv_out * cret :=
  match kv_encode (KvMsg nonce h1 h2) with
  | None => ([], ERR ENOMEM)
  | Some payload => ([KvSend to payload no_pkc], ke_send env to payload no_pkc)
  end.

(** ** The initiator *)

Definition open_session (env : kv_env) (node n : Z) : kv -> kv := fun s =>
  set_state KV_SENDER_HAS_INITIATED (set_session_from_remote false (set_progressed_ms (ke_now env)
    (set_started_ms (ke_now env) (set_remote node (set_nonce n s))))).

Definition meshtastic_keyverify_start (env : kv_env) (remote_node : Z) (w : kvw) : kvw * list kv_out * cret :=
  if (remote_node =? 0) || (remote_node =? MESHTASTIC_NODE_BROADCAST) || (remote_node =? nd_self env) then (w, [], ERR EINVAL)
  else match our_key w with
  | None => (w, [], ERR EACCES)
  | Some our_pk =>
      let w := update_state_locked env false w in
      if bool_decide (state (kv_s w) <> KV_IDLE) then (w, [], ERR EBUSY)
      else match ke_nonce env with
      | None => (reset_session_locked env w, [], ERR EIO)
      | Some n =>
          if n =? 0 then (reset_session_locked env w, [], ERR EIO)
          else
            let w := on_kv (open_session env remote_node n) w in
            let peer_known := bool_decide (is_Some (nodedb_key remote_node w)) in
            let '(out, ret) := send_kv env remote_node n our_pk [] (negb peer_known) in
            match ret with
            | ERR e => (reset_session_locked env w, out, ERR e)
            | OK => (w, out, OK)
            end
      end
  end.

Definition meshtastic_keyverify_provide_number (env : kv_env) (n number : Z) (w : kvw) : kvw * list kv_out * cret :=
  let w := update_state_locked env false w in
  let s := kv_s w in
  if bool_decide (state s <> KV_SENDER_AWAITING_NUMBER) || negb (n =? nonce s) then (w, [], ERR EINVAL)
  else
    match our_key w, peer_key (remote s) w with
    | Some our_pk, Some peer_pk =>
        match compute_hash1 number (nonce s) (nd_self env) (remote s) our_pk peer_pk with
        | None => (w, [], ERR EIO)
        | Some h1 =>
            match compute_hash2 (nonce s) h1 with
            | None => (w, [], ERR EIO)
            | Some h2 =>
                if bool_decide (h2 <> hash2 s) then (w, [], ERR EACCES)
                else
                  let w := on_kv (fun s => set_security_number number (set_hash1 h1 s)) w in
                  let '(out, ret) := send_kv env (remote s) (nonce s) h1 [] false in
                  match ret with
                  | ERR e => (w, out, ERR e)
                  | OK =>
                      let w := on_kv (fun s => set_progressed_ms (ke_now env) (set_state KV_SENDER_AWAITING_USER s)) w in
                      (w, out ++ [KvFinal (nonce s) true (remote_long_name env (remote s) w) (verification_code h1)], OK)
                  end
            end
        end
    | _, _ => (reset_session_locked env w, [], ERR EACCES)
    end.

(** ** Both sides *)

Definition meshtastic_keyverify_accept (env : kv_env) (n : Z) (w : kvw) : kvw * list kv_out * cret :=
  let w := update_state_locked env false w in
  let s := kv_s w in
  if (bool_decide (state s <> KV_SENDER_AWAITING_USER) && bool_decide (state s <> KV_RECEIVER_AWAITING_USER)) ||
     negb (n =? nonce s) then (w, [], ERR EINVAL)
  else
    let '(db, ret) :=
      match peer_key (remote s) w with
      | Some k => let '(db, _, ret) := meshtastic_nodedb_commit_pubkey env (remote s) k (kv_db w) in (db, ret)
      | None => (kv_db w, ERR EACCES)
      end in
    let '(db, ret) :=
      match ret with
      | OK => let '(db, _, ret) := meshtastic_nodedb_set_key_verified env (remote s) true db in (db, ret)
      | ERR _ => (db, ret)
      end in
    let w := set_kv_db db w in
    match ret with
    | ERR e => (w, [], ERR e)
    | OK => (reset_session_locked env w, [KvNodeInfo (remote s)], OK)
    end.

Definition meshtastic_keyverify_reject (env : kv_env) (w : kvw) : kvw := reset_session_locked env w.

Record keyverify_status := KvStatus {
  ks_state : meshtastic_keyverify_state; ks_remote_node : Z; ks_nonce : Z; ks_security_number : Z; ks_code : list Z }.

Definition meshtastic_keyverify_status (env : kv_env) (w : kvw) : kvw * keyverify_status :=
  let w := update_state_locked env false w in
  let s := kv_s w in
  (w, KvStatus (state s) (remote s) (nonce s) (security_number s)
        (match state s with
         | KV_SENDER_AWAITING_USER | KV_RECEIVER_AWAITING_USER | KV_RECEIVER_AWAITING_HASH1 => verification_code (hash1 s)
         | _ => []
         end)).

Definition meshtastic_keyverify_reset (w : kvw) : kvw := on_pki meshtastic_pki_clear_pending_key (set_kv_s kv_zero w).
Definition meshtastic_keyverify_init (w : kvw) : kvw * cret := (meshtastic_keyverify_reset w, OK).

(** ** Receiving *)

(** A frame as one of its two representations holds it. *)
Definition kv_from (p : packet) (mesh : option mesh_packet) : Z := dual mesh p m_from p_from.
Definition kv_to (p : packet) (mesh : option mesh_packet) : Z := dual mesh p m_to p_to.
Definition kv_pkc (p : packet) (mesh : option mesh_packet) : bool := dual mesh p m_pki_encrypted p_pki_encrypted.
Definition decode_kv (p : packet) (mesh : option mesh_packet) : option kv_msg :=
  match dual mesh p (fun m => Some (d_payload (m_decoded m))) p_payload with
  | Some payload => kv_decode payload
  | None => None
  end.

Definition full_hash (h : list Z) : bool := (length h =? KV_HASH_LEN)%nat.

(** M2: the responder answered. *)
Definition take_m2 (env : kv_env) (from : Z) (r : kv_msg) (w : kvw) : kvw * list kv_out :=
  let w := on_kv (set_hash2 (km_hash2 r)) w in
  let w := match nodedb_key from w with
           | Some _ => w
           | None => on_pki (meshtastic_pki_set_pending_key from (km_hash1 r)) w
           end in
  let w := on_kv (fun s => set_progressed_ms (ke_now env) (set_state KV_SENDER_AWAITING_NUMBER s)) w in
  (w, [KvNumberRequest (nonce (kv_s w)) (remote_long_name env from w)]).

(** M3: the initiator's H1. *)
Definition take_m3 (env : kv_env) (from : Z) (r : kv_msg) (w : kvw) : kvw * list kv_out :=
  if bool_decide (hash1 (kv_s w) = km_hash1 r) then
    let w := on_kv (fun s => set_progressed_ms (ke_now env) (set_state KV_RECEIVER_AWAITING_USER s)) w in
    (w, [KvFinal (nonce (kv_s w)) false (remote_long_name env from w) (verification_code (hash1 (kv_s w)))])
  else (w, []).

Definition keyverify_on_packet (env : kv_env) (packet : option packet) (mesh : option mesh_packet) (w : kvw)
    : kvw * list kv_out :=
  match packet with
  | None => (w, [])
  | Some p =>
      let from := kv_from p mesh in
      if negb (kv_to p mesh =? nd_self env) || (from =? 0) || (from =? nd_self env) then (w, [])
      else
        let w := update_state_locked env false w in
        let s := kv_s w in
        if bool_decide (state s = KV_IDLE) || negb (from =? remote s) then (w, [])
        else match decode_kv p mesh with
        | None => (w, [])
        | Some r =>
            if negb (km_nonce r =? nonce s) then (w, [])
            else if bool_decide (state s = KV_SENDER_HAS_INITIATED) && full_hash (km_hash2 r) && full_hash (km_hash1 r)
            then take_m2 env from r w
            else if bool_decide (state s = KV_RECEIVER_AWAITING_HASH1) && kv_pkc p mesh && full_hash (km_hash1 r)
            then take_m3 env from r w
            else (w, [])
        end
  end.

Definition answer_session (env : kv_env) (number n from : Z) : kv -> kv := fun s =>
  set_session_from_remote true (set_progressed_ms (ke_now env) (set_started_ms (ke_now env)
    (set_remote from (set_nonce n (set_security_number number s))))).

(** The session's hashes and state, and M2; the key pair and the peer's key are at hand. *)
Definition answer_m1 (env : kv_env) (req_id from n : Z) (our_pk sender_pk : list Z) (in_nodedb : bool) (entropy : Z) (w : kvw)
    : kvw * list kv_out * res kv_reply :=
  let number := entropy mod 999999 + 1 in
  let w := on_kv (answer_session env number n from) w in
  match compute_hash1 number n from (nd_self env) sender_pk our_pk with
  | None => (reset_session_locked env w, [], Fail EIO)
  | Some h1 =>
      match compute_hash2 n h1 with
      | None => (reset_session_locked env (on_kv (set_hash1 h1) w), [], Fail EIO)
      | Some h2 =>
          let w := on_kv (fun s => set_state KV_RECEIVER_AWAITING_HASH1 (set_hash2 h2 (set_hash1 h1 s))) w in
          match kv_encode (KvMsg n our_pk h2) with
          | None => (reset_session_locked env w, [], Fail ENOMEM)
          | Some payload =>
              (w, [KvNumberInform n number (remote_long_name env from w)],
               Val (KvReply from payload req_id (negb in_nodedb)))
          end
      end
  end.

(** A request and a reply that are not NULL. *)
Definition keyverify_alloc_reply (env : kv_env) (req : packet) (mesh : option mesh_packet) (w : kvw)
    : kvw * list kv_out * res kv_reply :=
  let from := kv_from req mesh in
  if (from =? 0) || (from =? nd_self env) then (w, [], Fail ENOENT)
  else match decode_kv req mesh with
  | None => (w, [], Fail ENOENT)
  | Some r =>
      if negb (length (km_hash2 r) =? 0)%nat || negb (full_hash (km_hash1 r)) then (w, [], Fail ENOENT)
      else match our_key w with
      | None => (w, [], Fail ENOENT)
      | Some our_pk =>
          let w := update_state_locked env false w in
          if bool_decide (state (kv_s w) <> KV_IDLE) then (w, [], Fail ENOENT)
          else if negb (last_remote_end_ms (kv_s w) =? 0) && (ke_now env - last_remote_end_ms (kv_s w) <? KV_REMOTE_COOLDOWN_MS)
          then (w, [], Fail ENOENT)
          else
            let known := nodedb_key from w in
            let sender_pk := match known with Some k => k | None => km_hash1 r end in
            let w := match known with Some _ => w | None => on_pki (meshtastic_pki_set_pending_key from sender_pk) w end in
            match ke_entropy env with
            | None => (on_pki meshtastic_pki_clear_pending_key w, [], Fail EIO)
            | Some entropy =>
                answer_m1 env (p_id req) from (km_nonce r) our_pk sender_pk (bool_decide (is_Some known)) entropy w
            end
      end
  end.
End KeyVerify.

(** ** Steps *)

Lemma elem_last {A} (x : A) l : x ∈ l ++ [x].
Proof. set_solver. Qed.

Inductive kv_event :=
  | EvStart (env : kv_env) (node : Z)
  | EvNumber (env : kv_env) (n number : Z)
  | EvAccept (env : kv_env) (n : Z)
  | EvReject (env : kv_env)
  | EvStatus (env : kv_env)
  | EvPacket (env : kv_env) (p : option packet) (mesh : option mesh_packet)
  | EvRequest (env : kv_env) (req : packet) (mesh : option mesh_packet)
  | EvOther (env : kv_env) (db : nodedb).     (* the node database moves on *)

Definition ev_env (ev : kv_event) : kv_env :=
  match ev with
  | EvStart env _ | EvNumber env _ _ | EvAccept env _ | EvReject env | EvStatus env | EvPacket env _ _ | EvRequest env _ _
  | EvOther env _ => env
  end.

Section Steps.
Context `{PkiCrypto} `{KvCodec}.

Definition kv_step (w : kvw) (ev : kv_event) : kvw * list kv_out :=
  match ev with
  | EvStart env node => (meshtastic_keyverify_start env node w).1
  | EvNumber env n number => (meshtastic_keyverify_provide_number env n number w).1
  | EvAccept env n => (meshtastic_keyverify_accept env n w).1
  | EvReject env => (meshtastic_keyverify_reject env w, [])
  | EvStatus env => ((meshtastic_keyverify_status env w).1, [])
  | EvPacket env p mesh => keyverify_on_packet env p mesh w
  | EvRequest env req mesh => (keyverify_alloc_reply env req mesh w).1
  | EvOther _ db => (set_kv_db db w, [])
  end.

(** The rest of the node may do to the node database what it likes, short of changing the
    key it holds of the peer of an open session. *)
Definition event_ok (me : Z) (w : kvw) (ev : kv_event) : Prop :=
  nd_self (ev_env ev) = me /\
  match ev with
  | EvOther _ db => state (kv_s w) = KV_IDLE \/ peer_key (remote (kv_s w)) (set_kv_db db w) = peer_key (remote (kv_s w)) w
  | _ => True
  end.

Inductive kv_reach (me : Z) (w0 : kvw) : list kv_event -> list kv_out -> kvw -> Prop :=
  | reach_start : kv_s w0 = kv_zero -> kv_reach me w0 [] [] w0
  | reach_step evs outs w ev w' out : kv_reach me w0 evs outs w -> event_ok me w ev -> kv_step w ev = (w', out) ->
      kv_reach me w0 (evs ++ [ev]) (outs ++ out) w'.

(** The code shown, the hash it stands for and the keys the hash covers. *)
Definition covers (me : Z) (sender : bool) (s : kv) (our k : list Z) : Prop :=
  compute_hash1 (security_number s) (nonce s) (if sender then me else remote s) (if sender then remote s else me)
    (if sender then our else k) (if sender then k else our) = Some (hash1 s).

Definition keys_covered (me : Z) (sender : bool) (w : kvw) : Prop :=
  exists our k, our_key w = Some our /\ peer_key (remote (kv_s w)) w = Some k /\ covers me sender (kv_s w) our k.
Definition code_shown (sender : bool) (s : kv) (outs : list kv_out) : Prop :=
  exists name, KvFinal (nonce s) sender name (verification_code (hash1 s)) ∈ outs.
Definition number_shown (s : kv) (outs : list kv_out) : Prop := exists name, KvNumberInform (nonce s) (security_number s) name ∈ outs.

(** The initiator's M3 that a responder waits for: from the peer, under its key, with our H1. *)
Definition m3_received (s : kv) (evs : list kv_event) : Prop :=
  exists env p mesh r, EvPacket env (Some p) mesh ∈ evs /\ kv_from p mesh = remote s /\ kv_pkc p mesh = true /\
    decode_kv p mesh = Some r /\ km_nonce r = nonce s /\ km_hash1 r = hash1 s.

Definition bound (me : Z) (evs : list kv_event) (outs : list kv_out) (w : kvw) : Prop :=
  let s := kv_s w in
  match state s with
  | KV_SENDER_AWAITING_USER => keys_covered me true w /\ code_shown true s outs /\ compute_hash2 (nonce s) (hash1 s) = Some (hash2 s)
  | KV_RECEIVER_AWAITING_HASH1 => keys_covered me false w /\ number_shown s outs
  | KV_RECEIVER_AWAITING_USER => keys_covered me false w /\ number_shown s outs /\ code_shown false s outs /\ m3_received s evs
  | _ => True
  end.

Lemma bound_same me evs evs' outs outs' w w' :
  kv_s w' = kv_s w -> our_key w' = our_key w ->
  (state (kv_s w) = KV_IDLE \/ peer_key (remote (kv_s w)) w' = peer_key (remote (kv_s w)) w) ->
  bound me evs outs w -> bound me (evs ++ evs') (outs ++ outs') w'.
Proof.
  intros Es Eo Ep. unfold bound, keys_covered, code_shown, number_shown, m3_received. rewrite Es, Eo.
  destruct Ep as [->| ->]; [done|]. destruct (state (kv_s w)); try done; setoid_rewrite elem_of_app; naive_solver.
Qed.

Lemma bound_grow me evs evs' outs outs' w : bound me evs outs w -> bound me (evs ++ evs') (outs ++ outs') w.
Proof. apply bound_same; auto. Qed.

Lemma bound_idle me evs outs w : state (kv_s w) = KV_IDLE -> bound me evs outs w.
Proof. unfold bound. by intros ->. Qed.

Lemma reset_frame env w :
  state (kv_s (reset_session_locked env w)) = KV_IDLE /\ our_key (reset_session_locked env w) = our_key w /\
  kv_db (reset_session_locked env w) = kv_db w.
Proof. done. Qed.

Lemma bound_reset me evs outs env w : bound me evs outs (reset_session_locked env w).
Proof. by apply bound_idle. Qed.

Lemma bound_update me evs outs env w : bound me evs outs w -> bound me evs outs (update_state_locked env false w).
Proof. unfold update_state_locked. intros Hb. branches; auto using bound_reset. Qed.

Lemma update_frame env w : our_key (update_state_locked env false w) = our_key w /\ kv_db (update_state_locked env false w) = kv_db w.
Proof. unfold update_state_locked. by branches. Qed.

#[local] Hint Resolve bound_grow bound_reset bound_update bound_idle : kvb.

Lemma start_bound me evs outs ev env node w :
  bound me evs outs w ->
  bound me (evs ++ [ev]) (outs ++ (meshtastic_keyverify_start env node w).1.2) (meshtastic_keyverify_start env node w).1.1.
Proof.
  intros Hb. unfold meshtastic_keyverify_start. destruct (_ || _); [by apply bound_grow|].
  destruct (our_key w); [|by apply bound_grow].
  destruct (bool_decide (state _ <> KV_IDLE)) eqn:Es; [cbn; auto with kvb|].
  destruct (ke_nonce env) as [n|]; [|cbn; auto with kvb]. destruct (n =? 0); [cbn; auto with kvb|].
  destruct (send_kv _ _ _ _ _ _) as [out [|e]]; cbn; auto with kvb.
Qed.

Lemma number_bound me evs outs ev (env : kv_env) n number w :
  nd_self env = me -> bound me evs outs w ->
  bound me (evs ++ [ev]) (outs ++ (meshtastic_keyverify_provide_number env n number w).1.2)
    (meshtastic_keyverify_provide_number env n number w).1.1.
Proof.
  intros <- Hb0. unfold meshtastic_keyverify_provide_number.
  pose proof (bound_update _ _ _ env _ Hb0) as Hb. set (u := update_state_locked env false w) in *. clearbody u.
  destruct (_ || _) eqn:Eg; [by apply bound_grow|]. bools.
  destruct (our_key u) as [our|] eqn:Eo; [|apply bound_reset]. destruct (peer_key _ u) as [k|] eqn:Ek; [|apply bound_reset].
  destruct (compute_hash1 _ _ _ _ _ _) as [h1|] eqn:E1; [|by apply bound_grow].
  destruct (compute_hash2 _ h1) as [h2|] eqn:E2; [|by apply bound_grow].
  destruct (bool_decide (h2 <> _)) eqn:Eh; [by apply bound_grow|]. bools.
  assert (state (kv_s u) = KV_SENDER_AWAITING_NUMBER) as Est by (by destruct (decide (state (kv_s u) = KV_SENDER_AWAITING_NUMBER))).
  assert (h2 = hash2 (kv_s u)) as Eh2 by (by destruct (decide (h2 = hash2 (kv_s u)))).
  destruct (send_kv _ _ _ _ _ _) as [out [|e]]; cbn [fst snd].
  - unfold bound. cbn. split; [|split].
    + exists our, k. done.
    + eexists. cbn. rewrite app_assoc. apply elem_last.
    + by rewrite E2, Eh2.
  - unfold bound. cbn. by rewrite Est.
Qed.

(** Committing a key and marking it go together: the node is in the hot store, or neither happens. *)
Definition verified_with (node : Z) (k : list Z) (db : nodedb) : Prop :=
  exists e, entry_of node db = Some e /\ ni_public_key (en_node e) = k /\ has_bit IS_KEY_MANUALLY_VERIFIED_BIT (en_node e) = true.

Lemma commit_cases (env : nd_env) node k db :
  meshtastic_nodedb_commit_pubkey env node k db = (db, [], ERR ENOENT) \/
  exists i e db1 out, find_entry_locked node db = Some i /\ entries db !! i = Some e /\
    meshtastic_nodedb_commit_pubkey env node k db = (db1, out, OK) /\
    entries db1 = <[i := set_en_node (set_ni_public_key k (en_node e)) e]> (entries db).
Proof.
  unfold meshtastic_nodedb_commit_pubkey, commit_pubkey. cbn [andb].
  destruct (find_entry_locked node db) as [i|] eqn:Ef; [right|by left].
  destruct (find_entry_Some _ _ _ Ef) as (e & He & _).
  destruct (node =? nd_self env).
  - do 4 eexists. do 3 (split; [done|]). cbn. by erewrite alter_insert_lookup.
  - do 4 eexists. do 3 (split; [done|]). cbn [entries set_mtrec_reconcile]. unfold warm_upsert_locked.
    rewrite (proj1 (warm_place_frame _ _ _ _ _ _)). cbn. by erewrite alter_insert_lookup.
Qed.

Lemma commit_verifies (env : nd_env) node k db db1 out :
  meshtastic_nodedb_commit_pubkey env node k db = (db1, out, OK) ->
  exists db2 out2, meshtastic_nodedb_set_key_verified env node true db1 = (db2, out2, OK) /\ verified_with node k db2.
Proof.
  intros Hc. destruct (commit_cases env node k db) as [E|(i & e & db1' & out' & Ef & He & E & Een)]; [congruence|].
  rewrite Hc in E. injection E as <- <-. set (e1 := set_en_node (set_ni_public_key k (en_node e)) e) in *.
  assert (entries db1 !! i = Some e1) as He1.
  { rewrite Een. apply list_lookup_insert_eq. by eapply lookup_lt_Some. }
  assert (find_entry_locked node db1 = Some i) as Ef1.
  { unfold find_entry_locked. rewrite Een, (find_index_insert_same _ _ _ e) by done. done. }
  unfold meshtastic_nodedb_set_key_verified, nodedb_set_bit. unfold entry_of at 1. rewrite Ef1. cbn. rewrite He1. cbn.
  do 2 eexists. split; [done|]. exists (set_en_node (write_bit IS_KEY_MANUALLY_VERIFIED_BIT true (en_node e1)) e1).
  split; [|split; [done|]].
  - unfold entry_of, find_entry_locked. cbn. rewrite (alter_insert_lookup _ _ _ _ He1).
    rewrite (find_index_insert_same _ _ _ e1) by done. fold (find_entry_locked node db1). rewrite Ef1. cbn.
    apply list_lookup_insert_eq. by eapply lookup_lt_Some.
  - cbn [en_node set_en_node]. by rewrite has_write_bit by done.
Qed.

Lemma accept_cases env n w : let u := update_state_locked env false w in
  (exists e, meshtastic_keyverify_accept env n w = (u, [], ERR e)) \/
  exists k db, (state (kv_s u) = KV_SENDER_AWAITING_USER \/ state (kv_s u) = KV_RECEIVER_AWAITING_USER) /\
    n = nonce (kv_s u) /\ peer_key (remote (kv_s u)) u = Some k /\ verified_with (remote (kv_s u)) k db /\
    meshtastic_keyverify_accept env n w = (reset_session_locked env (set_kv_db db u), [KvNodeInfo (remote (kv_s u))], OK).
Proof.
  intros u. unfold meshtastic_keyverify_accept. fold u. destruct (_ || _) eqn:Eg; [by left; eexists|].
  apply orb_false_iff in Eg as [Es En]. bools.
  assert (forall e : errno, (set_kv_db (kv_db u) u, @nil kv_out, ERR e) = (u, [], ERR e)) as Hsame by (by intros; destruct u).
  destruct (peer_key _ u) as [k|] eqn:Ek; [|left; eexists; apply Hsame].
  destruct (commit_cases env (remote (kv_s u)) k (kv_db u)) as [E|(i & e & db1 & out & _ & _ & E & _)]; rewrite E.
  - left. eexists. apply Hsame.
  - destruct (commit_verifies _ _ _ _ _ _ E) as (db2 & out2 & E2 & Hv). rewrite E2. right. exists k, db2.
    split; [|done]. apply andb_false_iff in Es as [Es|Es]; bools; [left|right].
    + by destruct (decide (state (kv_s u) = KV_SENDER_AWAITING_USER)).
    + by destruct (decide (state (kv_s u) = KV_RECEIVER_AWAITING_USER)).
Qed.

Lemma accept_bound me evs outs ev env n w :
  bound me evs outs w ->
  bound me (evs ++ [ev]) (outs ++ (meshtastic_keyverify_accept env n w).1.2) (meshtastic_keyverify_accept env n w).1.1.
Proof.
  intros Hb. destruct (accept_cases env n w) as [[e ->]|(k & db & _ & _ & _ & _ & ->)]; cbn; auto with kvb.
Qed.

Lemma m2_bound me evs outs env from r w : bound me evs outs (take_m2 env from r w).1.
Proof. unfold take_m2. destruct (nodedb_key from _); done. Qed.

Lemma m3_bound me evs outs ev (env : kv_env) p mesh r w :
  ev = EvPacket env (Some p) mesh -> kv_from p mesh = remote (kv_s w) -> kv_pkc p mesh = true -> decode_kv p mesh = Some r ->
  km_nonce r = nonce (kv_s w) -> state (kv_s w) = KV_RECEIVER_AWAITING_HASH1 -> bound me evs outs w ->
  bound me (evs ++ [ev]) (outs ++ (take_m3 env (kv_from p mesh) r w).2) (take_m3 env (kv_from p mesh) r w).1.
Proof.
  intros -> Hf Hp Hd Hn Hst Hb. unfold take_m3. destruct (bool_decide _) eqn:Eh; [|by apply bound_grow]. bools.
  unfold bound in *. rewrite Hst in Hb. destruct Hb as [Hk [name Hnum]]. cbn. split; [|split; [|split]].
  - done.
  - exists name. cbn. set_solver.
  - eexists. cbn. apply elem_last.
  - exists env, p, mesh, r. cbn. split; [set_solver|]. auto.
Qed.

Lemma packet_bound me evs outs (env : kv_env) p mesh w :
  bound me evs outs w ->
  bound me (evs ++ [EvPacket env p mesh]) (outs ++ (keyverify_on_packet env p mesh w).2) (keyverify_on_packet env p mesh w).1.
Proof.
  intros Hb0. unfold keyverify_on_packet. destruct p as [p|]; [|by apply bound_grow]. destruct (_ || _); [by apply bound_grow|].
  pose proof (bound_update _ _ _ env _ Hb0) as Hb. set (u := update_state_locked env false w) in *. clearbody u.
  destruct (_ || _) eqn:E1; [by apply bound_grow|]. destruct (decode_kv p mesh) as [r|] eqn:Ed; [|by apply bound_grow].
  destruct (negb (km_nonce r =? _)) eqn:En; [by apply bound_grow|]. destruct (_ && _ && _) eqn:E2; [apply m2_bound|].
  destruct (_ && kv_pkc p mesh && _) eqn:E3; [|by apply bound_grow]. bools. by apply m3_bound.
Qed.

Lemma pending_set node key w : node <> 0 -> pending_of node (on_pki (meshtastic_pki_set_pending_key node key) w) = Some key.
Proof.
  intros Hn. unfold pending_of, meshtastic_pki_get_pending_key, meshtastic_pki_set_pending_key. cbn.
  rewrite (proj2 (Z.eqb_neq _ _) Hn). cbn. by rewrite Z.eqb_refl.
Qed.

Lemma pending_keeps_ours node key w : our_key (on_pki (meshtastic_pki_set_pending_key node key) w) = our_key w.
Proof. unfold our_key, on_pki, meshtastic_pki_set_pending_key. cbn. by destruct (node =? 0). Qed.

Lemma answer_bound me evs outs (env : kv_env) id from n our k known x w :
  nd_self env = me -> our_key w = Some our -> peer_key from w = Some k ->
  bound me evs (outs ++ (answer_m1 env id from n our k known x w).1.2) (answer_m1 env id from n our k known x w).1.1.
Proof.
  intros <- Ho Hk. unfold answer_m1.
  destruct (compute_hash1 _ _ _ _ _ _) as [h1|] eqn:E1; [|apply bound_reset].
  destruct (compute_hash2 _ _) as [h2|] eqn:E2; [|apply bound_reset].
  destruct (kv_encode _) as [b|] eqn:E3; [|apply bound_reset]. cbn [fst snd]. unfold bound. cbn -[Z.modulo].
  split; [exists our, k; done|]. eexists. cbn -[Z.modulo]. apply elem_last.
Qed.

Lemma request_bound me evs outs ev (env : kv_env) req mesh w :
  nd_self env = me -> bound me evs outs w ->
  bound me (evs ++ [ev]) (outs ++ (keyverify_alloc_reply env req mesh w).1.2) (keyverify_alloc_reply env req mesh w).1.1.
Proof.
  intros Hme Hb0. unfold keyverify_alloc_reply. destruct (_ || _) eqn:Ef; [by apply bound_grow|]. bools.
  destruct (decode_kv req mesh) as [r|]; [|by apply bound_grow]. destruct (_ || _); [by apply bound_grow|].
  destruct (our_key w) as [our|] eqn:Eo; [|by apply bound_grow].
  destruct (update_frame env w) as [Eu _]. pose proof (bound_update _ _ _ env _ Hb0) as Hb.
  set (u := update_state_locked env false w) in *. clearbody u.
  destruct (bool_decide _) eqn:Est; [by apply bound_grow|]. destruct (_ && _); [by apply bound_grow|]. bools.
  destruct (ke_entropy env) as [x|].
  - apply answer_bound; [done| |].
    + destruct (nodedb_key _ u); [congruence|]. rewrite pending_keeps_ours. congruence.
    + unfold peer_key. destruct (nodedb_key (kv_from req mesh) u) as [k|] eqn:Ek; [by rewrite Ek|].
      change (nodedb_key (kv_from req mesh) (on_pki _ u)) with (nodedb_key (kv_from req mesh) u). rewrite Ek. by apply pending_set.
  - apply bound_idle. cbn. destruct (nodedb_key _ u); cbn; by destruct (decide (state (kv_s u) = KV_IDLE)).
Qed.

Lemma reach_bound me w0 evs outs w : kv_reach me w0 evs outs w -> bound me evs outs w.
Proof.
  induction 1 as [Hz|evs outs w ev w' out _ IH [Hme Hok] Hst]; [apply bound_idle; by rewrite Hz|].
  destruct ev as [env node|env n x|env n|env|env|env p mesh|env p mesh|env db]; cbn in Hst, Hme.
  - pose proof (start_bound me evs outs (EvStart env node) env node w IH) as Hb. by rewrite Hst in Hb.
  - pose proof (number_bound me evs outs (EvNumber env n x) env n x w Hme IH) as Hb. by rewrite Hst in Hb.
  - pose proof (accept_bound me evs outs (EvAccept env n) env n w IH) as Hb. by rewrite Hst in Hb.
  - simplify_eq. apply bound_reset.
  - simplify_eq. by apply bound_grow, bound_update.
  - pose proof (packet_bound me evs outs env p mesh w IH) as Hb. by rewrite Hst in Hb.
  - pose proof (request_bound me evs outs (EvRequest env p mesh) env p mesh w Hme IH) as Hb. by rewrite Hst in Hb.
  - simplify_eq. by eapply (bound_same _ evs [EvOther env db] outs [] w).
Qed.

(** C9: A key is marked as verified only if it is the key the user compared. In any run in
    which the rest of the node leaves the key it holds of the session's peer alone, an
    accept that succeeds marks exactly one key: the one that, with our own key, both node
    ids, the nonce and the security number, is hashed into the code this side showed its
    user. On the initiator's side the number typed had reproduced the peer's hash; on the
    responder's side the peer had sent our own hash back under the key. *)
Theorem verified_key_was_compared me w0 evs outs w (env : kv_env) n w' out :
  kv_reach me w0 evs outs w -> meshtastic_keyverify_accept env n w = (w', out, OK) ->
  let s := kv_s w in
  exists (sender : bool) our k, our_key w = Some our /\ covers me sender s our k /\ n = nonce s /\
    code_shown sender s outs /\ verified_with (remote s) k (kv_db w') /\ state (kv_s w') = KV_IDLE /\
    (if sender then compute_hash2 n (hash1 s) = Some (hash2 s) else number_shown s outs /\ m3_received s evs).
Proof.
  intros Hr Ha s. pose proof (reach_bound _ _ _ _ _ Hr) as Hb.
  destruct (accept_cases env n w) as [[e E]|(k & db & Hst & Hn & Hk & Hv & E)]; [congruence|].
  assert (update_state_locked env false w = w) as Eu.
  { revert Hst. unfold update_state_locked. branches; [done| |done]. cbn. naive_solver. }
  rewrite Eu in *. rewrite Ha in E. injection E as -> ->. unfold bound in Hb. fold s in Hst, Hn, Hk, Hv, Hb.
  destruct Hst as [Hst|Hst]; rewrite Hst in Hb.
  - destruct Hb as ((our & k' & Ho & Hk' & Hc) & Hs & H2). assert (k' = k) as -> by (fold s in Hk'; congruence).
    exists true, our, k. rewrite Hn. auto 10.
  - destruct Hb as ((our & k' & Ho & Hk' & Hc) & Hnum & Hs & Hm). assert (k' = k) as -> by (fold s in Hk'; congruence).
    exists false, our, k. auto 10.
Qed.

(** ** How often a stranger gets a session *)

Definition spaced (t : Z) (w : kvw) : Prop :=
  (state (kv_s w) = KV_IDLE -> session_from_remote (kv_s w) = false) /\
  (session_from_remote (kv_s w) = true \/ t <= last_remote_end_ms (kv_s w)).

Lemma spaced_reset t env w : t <= ke_now env -> spaced t w -> spaced t (reset_session_locked env w).
Proof. intros Ht [_ Hs]. split; [done|]. right. cbn. destruct (session_from_remote (kv_s w)); [done|]. by destruct Hs. Qed.

Lemma spaced_update t env w : t <= ke_now env -> spaced t w -> spaced t (update_state_locked env false w).
Proof. intros Ht Hs. unfold update_state_locked. branches; auto using spaced_reset. Qed.

(** Only the session's flag, its end and whether it is idle matter. *)
Lemma spaced_same t w w' :
  session_from_remote (kv_s w') = session_from_remote (kv_s w) -> last_remote_end_ms (kv_s w') = last_remote_end_ms (kv_s w) ->
  (state (kv_s w') = KV_IDLE -> state (kv_s w) = KV_IDLE) -> spaced t w -> spaced t w'.
Proof. unfold spaced. intros -> -> Hi [H1 H2]. auto. Qed.

#[local] Hint Resolve spaced_reset spaced_update : kvb.

Lemma start_spaced t env node w : t <= ke_now env -> spaced t w -> spaced t (meshtastic_keyverify_start env node w).1.1.
Proof.
  intros Ht Hs. unfold meshtastic_keyverify_start. destruct (_ || _); [done|]. destruct (our_key w); [|done].
  pose proof (spaced_update t env w Ht Hs) as Hu. set (u := update_state_locked env false w) in *. clearbody u.
  destruct (bool_decide _) eqn:Es; [done|]. bools.
  assert (state (kv_s u) = KV_IDLE) as Hi by (by destruct (decide (state (kv_s u) = KV_IDLE))).
  destruct (ke_nonce env) as [n|]; [|cbn; auto with kvb]. destruct (n =? 0); [cbn; auto with kvb|].
  assert (spaced t (on_kv (open_session env node n) u)) as Ho.
  { destruct Hu as [H1 H2]. split; [done|]. right. cbn. rewrite (H1 Hi) in H2. by destruct H2. }
  destruct (send_kv _ _ _ _ _ _) as [out [|e]]; cbn; auto with kvb.
Qed.

Lemma number_spaced t env n x w : t <= ke_now env -> spaced t w -> spaced t (meshtastic_keyverify_provide_number env n x w).1.1.
Proof.
  intros Ht Hs. unfold meshtastic_keyverify_provide_number.
  pose proof (spaced_update t env w Ht Hs) as Hu. set (u := update_state_locked env false w) in *. clearbody u.
  destruct (_ || _) eqn:Eg; [done|]. bools. destruct (our_key u); [|cbn; auto with kvb]. destruct (peer_key _ u); [|cbn; auto with kvb].
  destruct (compute_hash1 _ _ _ _ _ _); [|done]. destruct (compute_hash2 _ _); [|done]. destruct (bool_decide _); [done|].
  destruct (send_kv _ _ _ _ _ _) as [out [|e]]; by apply (spaced_same t u).
Qed.

Lemma packet_spaced t env p mesh w : t <= ke_now env -> spaced t w -> spaced t (keyverify_on_packet env p mesh w).1.
Proof.
  intros Ht Hs. unfold keyverify_on_packet. destruct p as [p|]; [|done]. destruct (_ || _); [done|].
  pose proof (spaced_update t env w Ht Hs) as Hu. set (u := update_state_locked env false w) in *. clearbody u.
  destruct (_ || _); [done|]. destruct (decode_kv p mesh) as [r|]; [|done]. destruct (negb _); [done|].
  destruct (_ && _ && _); [|destruct (_ && _ && _); [|done]].
  - unfold take_m2. destruct (nodedb_key _ _); by apply (spaced_same t u).
  - unfold take_m3. destruct (bool_decide _); [|done]. by apply (spaced_same t u).
Qed.

Lemma answer_spaced t (env : kv_env) rid from n our k known x w :
  t <= ke_now env ->
  spaced t (answer_m1 env rid from n our k known x w).1.1 /\
  (forall r, (answer_m1 env rid from n our k known x w).2 = Val r ->
     session_from_remote (kv_s (answer_m1 env rid from n our k known x w).1.1) = true).
Proof.
  intros Ht. unfold answer_m1. set (number := _ + 1).
  assert (forall f, session_from_remote (kv_s (on_kv f (on_kv (answer_session env number n from) w))) = true ->
    spaced t (reset_session_locked env (on_kv f (on_kv (answer_session env number n from) w)))) as Hr.
  { intros f Hf. split; [done|]. right. cbn in *. by rewrite Hf. }
  destruct (compute_hash1 _ _ _ _ _ _) as [h1|]; [|by split; [apply (Hr id)|]].
  destruct (compute_hash2 _ _) as [h2|]; [|by split; [apply (Hr (set_hash1 h1))|]].
  destruct (kv_encode _); [|by split; [apply Hr|]]. split; [|done]. split; [done|]. by left.
Qed.

Lemma request_spaced t (env : kv_env) req mesh w : t <= ke_now env -> spaced t w ->
  spaced t (keyverify_alloc_reply env req mesh w).1.1.
Proof.
  intros Ht Hs. unfold keyverify_alloc_reply. destruct (_ || _); [done|]. destruct (decode_kv req mesh) as [r|]; [|done].
  destruct (_ || _); [done|]. destruct (our_key w); [|done].
  pose proof (spaced_update t env w Ht Hs) as Hu. set (u := update_state_locked env false w) in *. clearbody u.
  destruct (bool_decide _); [done|]. destruct (_ && _); [done|].
  destruct (ke_entropy env); [by apply answer_spaced|]. destruct (nodedb_key _ _); by apply (spaced_same t u).
Qed.

Lemma step_spaced t w ev : t <= ke_now (ev_env ev) -> spaced t w -> spaced t (kv_step w ev).1.
Proof.
  intros Ht Hs. destruct ev; cbn [kv_step ev_env] in *.
  - by apply start_spaced.
  - by apply number_spaced.
  - destruct (accept_cases env n w) as [[e ->]|(k & db & _ & _ & _ & _ & ->)]; cbn [fst]; [auto with kvb|].
    apply spaced_reset; [done|]. eapply (spaced_same _ (update_state_locked env false w)); auto with kvb.
  - cbn. auto with kvb.
  - cbn. auto with kvb.
  - by apply packet_spaced.
  - by apply request_spaced.
  - by apply (spaced_same t w).
Qed.

Lemma run_spaced t evs : forall w, Forall (fun ev => t <= ke_now (ev_env ev)) evs -> spaced t w ->
  spaced t (foldl (fun w ev => (kv_step w ev).1) w evs).
Proof.
  induction evs as [|ev evs IH]; intros w Hall Hs; [done|]. inversion Hall; subst. apply IH; [done|]. by apply step_spaced.
Qed.

(** What a request that is answered went through. *)
Lemma answered_inv (env : kv_env) req mesh w w' out r :
  keyverify_alloc_reply env req mesh w = (w', out, Val r) ->
  let u := update_state_locked env false w in
  state (kv_s u) = KV_IDLE /\
  (last_remote_end_ms (kv_s u) = 0 \/ KV_REMOTE_COOLDOWN_MS <= ke_now env - last_remote_end_ms (kv_s u)) /\
  (forall t, t <= ke_now env -> spaced t w') /\ session_from_remote (kv_s w') = true.
Proof.
  intros Hr u. unfold keyverify_alloc_reply in Hr. destruct (_ || _); [done|]. destruct (decode_kv req mesh) as [m|]; [|done].
  destruct (_ || _); [done|]. destruct (our_key w); [|done]. fold u in Hr.
  destruct (bool_decide _) eqn:Es; [done|]. destruct (_ && _) eqn:Ec; [done|]. bools.
  destruct (ke_entropy env) as [x|]; [|done].
  match type of Hr with answer_m1 ?e ?i ?f ?n ?o ?k ?b ?x ?v = _ =>
    assert (forall t, t <= ke_now env -> spaced t w') as H1;
      [intros t Ht; pose proof (answer_spaced t e i f n o k b x v Ht) as [Hsp _]; by rewrite Hr in Hsp|];
    pose proof (answer_spaced (ke_now env) e i f n o k b x v ltac:(lia)) as [_ H2]
  end.
  rewrite Hr in H2. split; [by destruct (decide (state (kv_s u) = KV_IDLE))|]. split; [|split; [done|by eapply H2]].
  apply andb_false_iff in Ec as [Ec|Ec]; bools; [by left|by right].
Qed.

(** However often strangers ask and whatever else happens, a node answers at most one
    request a minute: between two requests that it answers, and so between two security
    numbers it shows, at least sixty seconds pass. *)
Theorem one_request_a_minute (env1 : kv_env) req1 mesh1 w w1 out1 r1 evs (env2 : kv_env) req2 mesh2 w3 out2 r2 :
  keyverify_alloc_reply env1 req1 mesh1 w = (w1, out1, Val r1) -> 0 < ke_now env1 ->
  Forall (fun ev => ke_now env1 <= ke_now (ev_env ev)) evs -> ke_now env1 <= ke_now env2 ->
  keyverify_alloc_reply env2 req2 mesh2 (foldl (fun w ev => (kv_step w ev).1) w1 evs) = (w3, out2, Val r2) ->
  ke_now env1 + KV_REMOTE_COOLDOWN_MS <= ke_now env2.
Proof.
  intros H1 Hpos Hall Hle H2. destruct (answered_inv _ _ _ _ _ _ _ H1) as (_ & _ & Hs & _).
  pose proof (run_spaced (ke_now env1) evs w1 Hall (Hs (ke_now env1) ltac:(lia))) as Hs2.
  destruct (answered_inv _ _ _ _ _ _ _ H2) as (Hi & Hc & _).
  destruct (spaced_update _ env2 _ Hle Hs2) as [Hf Hl]. rewrite (Hf Hi) in Hl. destruct Hl as [|Hl]; [done|]. lia.
Qed.

(** An expired session answers nothing any more. *)
Lemma expired_session_gone (env : kv_env) n x w :
  session_expired env (kv_s w) = true ->
  (meshtastic_keyverify_accept env n w).2 = ERR EINVAL /\ (meshtastic_keyverify_provide_number env n x w).2 = ERR EINVAL /\
  forall p mesh, (keyverify_on_packet env p mesh w).2 = [].
Proof.
  intros He. assert (state (kv_s (update_state_locked env false w)) = KV_IDLE) as Hi.
  { unfold update_state_locked. rewrite He. by branches. }
  unfold meshtastic_keyverify_accept, meshtastic_keyverify_provide_number, keyverify_on_packet. rewrite Hi. cbn.
  repeat split. intros [p|] mesh; [|done]. by destruct (_ || _).
Qed.
End Steps.

(** ** Two honest nodes *)

Section Handshake.
Context `{PkiCrypto} `{KvCodec}.

(** A frame of this port as the receiver gets it. *)
Definition carried_to (from to : Z) (payload : list Z) (pkc want_response : bool) : packet :=
  MkPacket from to 1 12 (Some payload) 0 0 0 0 3 3 0 0 0 0 0 0 false false pkc want_response false 0 0 0.

Definition MESHTASTIC_PKT_MAX : nat := 255.
Definition MESHTASTIC_HDR_LEN : nat := 16.
(** [sizeof(mt_ws.enc_buf)], [sizeof(mt_ws.rx_dec)] *)
Definition WS_BUF_LEN : nat := MESHTASTIC_PKT_MAX - MESHTASTIC_HDR_LEN + 16.

(** How a frame of this port crosses the air between two nodes that are not licensed. A frame
    that opts out of public-key encryption goes on the channel, which both nodes have. Any
    other one is encrypted for the receiver's key, which the sender must hold, and opened with
    the sender's, which the receiver must hold: without it the frame is not delivered (the
    receiver has no admin key that would open it either). *)
Definition crosses (from to : Z) (payload : list Z) (no_pkc want_response : bool) (extra : Z) (ws wr : kvw) : option packet :=
  if no_pkc then Some (carried_to from to payload false want_response)
  else
    plain ← data_encode payload want_response;
    if (MESHTASTIC_PKT_MAX <? MESHTASTIC_HDR_LEN + length plain + MESHTASTIC_PKI_OVERHEAD)%nat then None
    else match meshtastic_pki_encrypt to from 1 plain WS_BUF_LEN (Some extra) (kv_db ws) (kv_pki ws) with
    | Fail _ => None
    | Val wire =>
        match meshtastic_pki_decrypt from 1 wire WS_BUF_LEN (kv_db wr) (kv_pki wr) with
        | Fail _ => None
        | Val plain => '(payload, want_response) ← data_decode plain; Some (carried_to from to payload true want_response)
        end
    end.

(** The module's part of a received frame: the observer, then the reply it is asked for. *)
Definition kv_receive (env : kv_env) (p : packet) (w : kvw) : kvw * list kv_out * res kv_reply :=
  let '(w, out) := keyverify_on_packet env (Some p) None w in
  if p_want_response p then let '(w, out', r) := keyverify_alloc_reply env p None w in (w, out ++ out', r)
  else (w, out, Fail ENOENT).

Definition sent (out : list kv_out) : option (list Z * bool) :=
  head (omap (fun o => match o with KvSend _ m no_pkc => Some (m, no_pkc) | _ => None end) out).
Definition number_of (out : list kv_out) : option Z :=
  head (omap (fun o => match o with KvNumberInform _ x _ => Some x | _ => None end) out).
Definition code_of (out : list kv_out) : option (list Z) :=
  head (omap (fun o => match o with KvFinal _ _ _ c => Some c | _ => None end) out).

(** The whole handshake: A's user starts it, types the number B shows, both accept. The
    result is both nodes and the two codes their users compared; there is none when a frame
    is not sent or cannot be opened. [x1], [x2], [x3] are the nonces of encrypted frames. *)
Definition handshake (na nb n x1 x2 x3 : Z) (a1 a2 a3 a4 b1 b2 b3 : kv_env) (wa wb : kvw) : option (kvw * kvw * list Z * list Z) :=
  let '(wa, o1, _) := meshtastic_keyverify_start a1 nb wa in
  '(m1, no_pkc1) ← sent o1;
  p1 ← crosses na nb m1 no_pkc1 true x1 wa wb;
  let '(wb, o2, r2) := kv_receive b1 p1 wb in
  m2 ← match r2 with Val r => Some r | Fail _ => None end;
  number ← number_of o2;
  p2 ← crosses nb na (rp_payload m2) (rp_no_pkc m2) false x2 wb wa;
  let '(wa, _, _) := kv_receive a2 p2 wa in
  let '(wa, o4, _) := meshtastic_keyverify_provide_number a3 n number wa in
  '(m3, no_pkc3) ← sent o4;
  code_a ← code_of o4;
  p3 ← crosses na nb m3 no_pkc3 true x3 wa wb;
  let '(wb, o5, _) := kv_receive b2 p3 wb in
  code_b ← code_of o5;
  let '(wa, _, ra) := meshtastic_keyverify_accept a4 n wa in
  let '(wb, _, rb) := meshtastic_keyverify_accept b3 n wb in
  if succeeded ra && succeeded rb then Some (wa, wb, code_a, code_b) else None.

(** A node that can take part: its key pair, the peer in its hot store, of the peer no key or
    the right one, and none pending. *)
Record ready (me peer : Z) (our peers : list Z) (w : kvw) : Prop := {
  rd_idle : state (kv_s w) = KV_IDLE;
  rd_our : our_key w = Some our;
  rd_len : length our = KV_HASH_LEN;
  rd_hot : is_Some (find_entry_locked peer (kv_db w));
  rd_key : forall k, nodedb_key peer w = Some k -> k = peers;
  rd_pair : x25519_base (g_priv (kv_pki w)) = Some our;
  rd_none : pending_of peer w = None;
}.

Definition knows (peer : Z) (w : kvw) : bool := bool_decide (is_Some (nodedb_key peer w)).

(** The library's calls and the encoders do not fail. *)
Record works (pka pkb : list Z) (priv : list Z) : Prop := {
  wk_sha : forall m, is_Some (psa_sha256 m);
  wk_dh : is_Some (x25519 priv pkb);
  wk_aes : forall k, aes_import k = true;
  wk_ccm : forall k n m, is_Some (ccm_encrypt k n m);
  wk_msg : forall k g h, (length g <= 32)%nat -> (length h <= 32)%nat ->
    exists m, kv_encode (KvMsg k g h) = Some m /\
      forall r, exists d, data_encode m r = Some d /\ d <> [] /\ (MESHTASTIC_HDR_LEN + length d + MESHTASTIC_PKI_OVERHEAD <= MESHTASTIC_PKT_MAX)%nat;
}.

(** A session in progress, of which [w0] was the start. *)
Record in_session (st : meshtastic_keyverify_state) (peer n t : Z) (our : list Z) (w0 w : kvw) : Prop := {
  is_state : state (kv_s w) = st;
  is_remote : remote (kv_s w) = peer;
  is_nonce : nonce (kv_s w) = n;
  is_started : t <= started_ms (kv_s w);
  is_progressed : t <= progressed_ms (kv_s w);
  is_our : our_key w = Some our;
  is_priv : g_priv (kv_pki w) = g_priv (kv_pki w0);
  is_db : kv_db w = kv_db w0;
}.

Lemma peer_key_pub node w k : peer_key node w = Some k <-> pki_peer_pub node (kv_db w) (kv_pki w) = Val k.
Proof.
  unfold peer_key, nodedb_key, pending_of, pki_peer_pub. destruct (meshtastic_nodedb_copy_pubkey node (kv_db w)) as [v|e].
  - split; congruence.
  - destruct (meshtastic_pki_get_pending_key node (kv_pki w)); split; congruence.
Qed.
Lemma our_key_have w our : our_key w = Some our -> g_have_key (kv_pki w) = true /\ g_pub (kv_pki w) = our.
Proof. unfold our_key, meshtastic_pki_get_public_key. destruct (g_have_key (kv_pki w)); [by intros [= <-] | done]. Qed.

(** Two nodes that hold each other's key read each other. *)
Lemma crosses_known from to pkf pkt m wr extra d ws wt :
  our_key ws = Some pkf -> our_key wt = Some pkt -> x25519_base (g_priv (kv_pki ws)) = Some pkf ->
  x25519_base (g_priv (kv_pki wt)) = Some pkt -> peer_key to ws = Some pkt -> peer_key from wt = Some pkf -> in_u32 extra ->
  (forall s, is_Some (psa_sha256 s)) -> is_Some (x25519 (g_priv (kv_pki ws)) pkt) -> (forall k, aes_import k = true) ->
  (forall k n x, is_Some (ccm_encrypt k n x)) -> data_encode m wr = Some d -> d <> [] ->
  (MESHTASTIC_HDR_LEN + length d + MESHTASTIC_PKI_OVERHEAD <= MESHTASTIC_PKT_MAX)%nat ->
  crosses from to m false wr extra ws wt = Some (carried_to from to m true wr).
Proof.
  intros Hof Hot Hbf Hbt Hps Hpt Hx Hsha [sec Hdh] Haes Hccm Hd Hne Hl.
  apply our_key_have in Hof as [Hhf Hgf], Hot as [Hht Hgt]. apply peer_key_pub in Hps, Hpt. rewrite <- Hgf in Hbf. rewrite <- Hgt in Hbt.
  destruct (Hsha sec) as [k Hk].
  assert (pki_shared_aes_key pkt (kv_pki ws) = Val k) as Hsk by (unfold pki_shared_aes_key; by rewrite Hdh, Hk).
  pose proof (shared_key_agrees _ _ Hbf Hbt) as Hag. rewrite Hgf, Hgt, Hsk in Hag.
  destruct (Hccm k (meshtastic_pki_nonce_build 1 from extra) d) as [ct Hct].
  unfold crosses. rewrite Hd. cbn [option_bind mbind]. rewrite (proj2 (Nat.ltb_ge _ _) Hl).
  unfold MESHTASTIC_HDR_LEN, MESHTASTIC_PKI_OVERHEAD, MESHTASTIC_PKT_MAX in Hl.
  destruct (encrypt_wire _ _ _ from to 1 d extra k ct WS_BUF_LEN Hhf Hps Hsk (Haes k) Hct) as [-> _].
  { unfold WS_BUF_LEN, MESHTASTIC_PKI_OVERHEAD, MESHTASTIC_PKT_MAX, MESHTASTIC_HDR_LEN. lia. }
  rewrite (decrypt_wire _ _ _ from 1 d extra k ct WS_BUF_LEN Hht Hpt (eq_sym Hag) (Haes k) Hct Hx Hne).
  - by rewrite (data_decode_encode _ _ _ Hd).
  - unfold WS_BUF_LEN, MESHTASTIC_PKT_MAX, MESHTASTIC_HDR_LEN. lia.
Qed.
(** A frame encrypted for a node that has no key of the sender is not delivered. *)
Lemma crosses_unknown from to m wr extra ws wt : peer_key from wt = None -> crosses from to m false wr extra ws wt = None.
Proof.
  intros Hk. unfold crosses. destruct (data_encode m wr); [|done]. cbn [mbind option_bind]. destruct (_ <? _)%nat; [done|].
  destruct (meshtastic_pki_encrypt _ _ _ _ _ _ _ _) as [wire|]; [|done].
  assert (exists e, meshtastic_pki_decrypt from 1 wire WS_BUF_LEN (kv_db wt) (kv_pki wt) = Fail e) as [e ->]; [|done].
  unfold meshtastic_pki_decrypt. destruct (negb _); [by eexists|]. destruct (_ <=? _)%nat; [by eexists|].
  destruct (pki_peer_pub from (kv_db wt) (kv_pki wt)) as [k|e] eqn:E; [apply peer_key_pub in E; congruence | by exists e].
Qed.

(** Calls of one node within the minute that [t] opens. *)
Definition timely (me t : Z) (envs : list kv_env) : Prop :=
  Forall (fun env : kv_env => nd_self env = me /\ t <= ke_now env < t + KV_IDLE_TIMEOUT_MS) envs.

Lemma update_idle env w : state (kv_s w) = KV_IDLE -> update_state_locked env false w = w.
Proof. unfold update_state_locked. intros ->. by rewrite bool_decide_true. Qed.

Lemma update_open env w t : t <= started_ms (kv_s w) -> t <= progressed_ms (kv_s w) -> ke_now env < t + KV_IDLE_TIMEOUT_MS ->
  update_state_locked env false w = w.
Proof.
  intros H1 H2 H3. unfold update_state_locked, session_expired. destruct (bool_decide _); [done|].
  unfold KV_MAX_SESSION_MS, KV_IDLE_TIMEOUT_MS in *.
  by rewrite (proj2 (Z.leb_gt _ (ke_now env - started_ms (kv_s w)))), (proj2 (Z.leb_gt _ (ke_now env - progressed_ms (kv_s w)))) by lia.
Qed.

Lemma accept_ok (env : kv_env) n k w :
  update_state_locked env false w = w -> state (kv_s w) = KV_SENDER_AWAITING_USER \/ state (kv_s w) = KV_RECEIVER_AWAITING_USER ->
  nonce (kv_s w) = n -> peer_key (remote (kv_s w)) w = Some k -> is_Some (find_entry_locked (remote (kv_s w)) (kv_db w)) ->
  exists w' out, meshtastic_keyverify_accept env n w = (w', out, OK) /\ verified_with (remote (kv_s w)) k (kv_db w').
Proof.
  intros Eu Hst Hn Hk [i Hi]. unfold meshtastic_keyverify_accept. rewrite Eu, Hk.
  destruct (_ || _) eqn:Eg.
  { exfalso. rewrite Hn, Z.eqb_refl, orb_false_r in Eg. bools. naive_solver. }
  destruct (commit_cases env (remote (kv_s w)) k (kv_db w)) as [E|(j & e & db1 & out & _ & _ & E & _)].
  { exfalso. unfold meshtastic_nodedb_commit_pubkey, commit_pubkey in E. rewrite Hi in E. cbn [andb] in E.
    by destruct (_ =? nd_self env) in E. }
  rewrite E. destruct (commit_verifies _ _ _ _ _ _ E) as (db2 & out2 & -> & Hv). do 2 eexists. split; [done|]. done.
Qed.

Lemma session_open env st peer n t our w0 w :
  in_session st peer n t our w0 w -> ke_now env < t + KV_IDLE_TIMEOUT_MS -> update_state_locked env false w = w.
Proof. intros [_ _ _ H1 H2 _ _ _] Ht. by eapply update_open. Qed.

Lemma nodedb_key_db node w w' : kv_db w' = kv_db w -> nodedb_key node w' = nodedb_key node w.
Proof. unfold nodedb_key. by intros ->. Qed.

Lemma honest_start (env : kv_env) me peer our peers n w m :
  ready me peer our peers w -> nd_self env = me -> peer <> 0 -> peer <> MESHTASTIC_NODE_BROADCAST -> peer <> me ->
  ke_nonce env = Some n -> n <> 0 -> kv_encode (KvMsg n our []) = Some m -> (forall b, ke_send env peer m b = OK) ->
  exists w', meshtastic_keyverify_start env peer w = (w', [KvSend peer m (negb (knows peer w))], OK) /\
    in_session KV_SENDER_HAS_INITIATED peer n (ke_now env) our w w' /\ peer_key peer w' = nodedb_key peer w.
Proof.
  intros [Hi Ho Hl Hh Hk _ Hno] Hme Hz Hb Hp Hn Hn0 Hm Hs. unfold meshtastic_keyverify_start. rewrite Hme.
  rewrite (proj2 (Z.eqb_neq _ _) Hz), (proj2 (Z.eqb_neq _ _) Hb), (proj2 (Z.eqb_neq _ _) Hp), Ho, update_idle by done.
  cbn [orb]. rewrite bool_decide_false by (by intros []). rewrite Hn, (proj2 (Z.eqb_neq _ _) Hn0).
  unfold send_kv. rewrite Hm, Hs. eexists. split; [done|]. split; [by constructor|].
  unfold peer_key. change (nodedb_key peer (on_kv _ w)) with (nodedb_key peer w).
  change (pending_of peer (on_kv _ w)) with (pending_of peer w). rewrite Hno. by destruct (nodedb_key peer w).
Qed.

Lemma pending_db node key w : kv_db (on_pki (meshtastic_pki_set_pending_key node key) w) = kv_db w.
Proof. done. Qed.

Lemma honest_answer (env : kv_env) me peer our peers n x w m1 m2 h1 h2 b :
  ready me peer our peers w -> nd_self env = me -> peer <> 0 -> peer <> me -> length peers = KV_HASH_LEN ->
  ke_entropy env = Some x ->
  last_remote_end_ms (kv_s w) = 0 \/ KV_REMOTE_COOLDOWN_MS <= ke_now env - last_remote_end_ms (kv_s w) ->
  kv_encode (KvMsg n peers []) = Some m1 -> kv_encode (KvMsg n our h2) = Some m2 ->
  compute_hash1 (x mod 999999 + 1) n peer me peers our = Some h1 -> compute_hash2 n h1 = Some h2 ->
  exists w' name, kv_receive env (carried_to peer me m1 b true) w =
      (w', [KvNumberInform n (x mod 999999 + 1) name], Val (KvReply peer m2 1 (negb (knows peer w)))) /\
    in_session KV_RECEIVER_AWAITING_HASH1 peer n (ke_now env) our w w' /\ peer_key peer w' = Some peers /\ hash1 (kv_s w') = h1.
Proof.
  intros [Hi Ho Hl Hh Hk _ _] Hme Hz Hp Hlp Hx Hc Hm1 Hm2 E1 E2. unfold kv_receive, keyverify_on_packet, keyverify_alloc_reply.
  assert (kv_from (carried_to peer me m1 b true) None = peer) as -> by done.
  assert (kv_to (carried_to peer me m1 b true) None = me) as -> by done.
  assert (decode_kv (carried_to peer me m1 b true) None = Some (KvMsg n peers [])) as -> by (apply (kv_decode_encode _ _ Hm1)).
  rewrite Hme, Z.eqb_refl, (proj2 (Z.eqb_neq _ _) Hz), (proj2 (Z.eqb_neq _ _) Hp). cbn [negb orb].
  rewrite update_idle, Hi by done. rewrite bool_decide_true by done. cbn [orb p_want_response carried_to km_hash2 km_hash1 km_nonce length Nat.eqb negb].
  unfold full_hash. rewrite Hlp, Nat.eqb_refl, Ho. cbn [negb orb]. rewrite update_idle, Hi by done.
  rewrite bool_decide_false by (by intros []).
  assert (negb (last_remote_end_ms (kv_s w) =? 0) && (ke_now env - last_remote_end_ms (kv_s w) <? KV_REMOTE_COOLDOWN_MS) = false) as ->.
  { destruct Hc as [->|Hc]; [done|]. apply andb_false_iff. right. by apply Z.ltb_ge. }
  rewrite Hx.
  assert ((match nodedb_key peer w with Some k => k | None => peers end) = peers) as ->.
  { destruct (nodedb_key peer w) as [k|] eqn:Ek; [by apply Hk|done]. }
  unfold answer_m1. rewrite Hme, E1, E2, Hm2. cbn [app].
  do 2 eexists. split; [done|]. split; [|split; [|done]].
  - constructor; try done; try (cbn; lia).
    + destruct (nodedb_key peer w); [exact Ho|]. transitivity (our_key w); [apply (pending_keeps_ours peer peers w)|exact Ho].
    + destruct (nodedb_key peer w); [done|]. unfold on_pki, meshtastic_pki_set_pending_key. cbn. by destruct (peer =? 0).
    + destruct (nodedb_key peer w); done.
  - unfold peer_key. destruct (nodedb_key peer w) as [k|] eqn:Ek.
    + change (nodedb_key peer (on_kv _ _)) with (nodedb_key peer w). rewrite Ek. by rewrite (Hk k).
    + change (nodedb_key peer (on_kv _ _)) with (nodedb_key peer w). rewrite Ek. by apply (pending_set peer peers w).
Qed.

Lemma honest_m2 (env : kv_env) me peer our peers n t w0 w m h2 b :
  in_session KV_SENDER_HAS_INITIATED peer n t our w0 w -> nd_self env = me -> peer <> 0 -> peer <> me ->
  t <= ke_now env < t + KV_IDLE_TIMEOUT_MS -> kv_encode (KvMsg n peers h2) = Some m -> length peers = KV_HASH_LEN ->
  length h2 = KV_HASH_LEN -> (forall k, nodedb_key peer w0 = Some k -> k = peers) ->
  exists w' out, kv_receive env (carried_to peer me m b false) w = (w', out, Fail ENOENT) /\
    in_session KV_SENDER_AWAITING_NUMBER peer n t our w0 w' /\ peer_key peer w' = Some peers /\ hash2 (kv_s w') = h2.
Proof.
  intros Hs Hme Hz Hp Ht Hm Hlp Hl2 Hk. pose proof (session_open env _ _ _ _ _ _ _ Hs ltac:(lia)) as Eu.
  destruct Hs as [Hst Hr Hn Hsd Hpd Ho Hpv Hdb]. unfold kv_receive, keyverify_on_packet.
  assert (kv_from (carried_to peer me m b false) None = peer) as -> by done.
  assert (kv_to (carried_to peer me m b false) None = me) as -> by done.
  assert (decode_kv (carried_to peer me m b false) None = Some (KvMsg n peers h2)) as -> by (apply (kv_decode_encode _ _ Hm)).
  rewrite Hme, Z.eqb_refl, (proj2 (Z.eqb_neq _ _) Hz), (proj2 (Z.eqb_neq _ _) Hp), Eu, Hst, Hr, Hn. cbn [negb orb km_nonce km_hash1 km_hash2].
  rewrite !Z.eqb_refl, bool_decide_false, bool_decide_true by done. unfold full_hash. rewrite Hlp, Hl2. cbn [negb orb andb Nat.eqb].
  rewrite Nat.eqb_refl. unfold take_m2. cbn [andb km_hash1 km_hash2 p_want_response carried_to].
  assert (nodedb_key peer (on_kv (set_hash2 h2) w) = nodedb_key peer w0) as -> by (by apply nodedb_key_db).
  do 2 eexists. split; [done|]. split; [|split].
  - constructor; try done; try (destruct (nodedb_key peer w0); cbn; done || lia).
    + destruct (nodedb_key peer w0); [exact Ho|]. transitivity (our_key w); [apply (pending_keeps_ours peer peers w)|exact Ho].
    + rewrite <- Hpv. destruct (nodedb_key peer w0); [done|]. unfold on_pki, meshtastic_pki_set_pending_key. cbn. by destruct (peer =? 0).
  - unfold peer_key. destruct (nodedb_key peer w0) as [k|] eqn:Ek.
    + assert (nodedb_key peer w = Some k) as Ew by (rewrite <- Ek; by apply nodedb_key_db).
      change (nodedb_key peer (on_kv _ _)) with (nodedb_key peer w). rewrite Ew. by rewrite (Hk k).
    + assert (nodedb_key peer w = None) as Ew by (rewrite <- Ek; by apply nodedb_key_db).
      change (nodedb_key peer (on_kv _ _)) with (nodedb_key peer w). rewrite Ew. by apply (pending_set peer peers w).
  - by destruct (nodedb_key peer w0).
Qed.

Lemma honest_number (env : kv_env) me peer our peers n number t w0 w m h1 h2 :
  in_session KV_SENDER_AWAITING_NUMBER peer n t our w0 w -> peer_key peer w = Some peers -> hash2 (kv_s w) = h2 ->
  nd_self env = me -> t <= ke_now env < t + KV_IDLE_TIMEOUT_MS ->
  compute_hash1 number n me peer our peers = Some h1 -> compute_hash2 n h1 = Some h2 ->
  kv_encode (KvMsg n h1 []) = Some m -> (forall b, ke_send env peer m b = OK) ->
  exists w' name, meshtastic_keyverify_provide_number env n number w =
      (w', [KvSend peer m false; KvFinal n true name (verification_code h1)], OK) /\
    in_session KV_SENDER_AWAITING_USER peer n t our w0 w' /\ peer_key peer w' = Some peers.
Proof.
  intros Hs Hk H2 Hme Ht E1 E2 Hm Hsend. pose proof (session_open env _ _ _ _ _ _ _ Hs ltac:(lia)) as Eu.
  destruct Hs as [Hst Hr Hn Hsd Hpd Ho Hpv Hdb]. unfold meshtastic_keyverify_provide_number.
  rewrite Eu, Hst, Hr, Hn, Hk, Hme, Ho, E1, E2, H2, Z.eqb_refl, !bool_decide_false by (intros []; done). cbn [orb negb].
  unfold send_kv. rewrite Hm, Hsend. do 2 eexists. split; [done|]. split; [|exact Hk].
  constructor; try done. cbn. lia.
Qed.

Lemma honest_m3 (env : kv_env) me peer our peers n t w0 w m h1 :
  in_session KV_RECEIVER_AWAITING_HASH1 peer n t our w0 w -> peer_key peer w = Some peers -> hash1 (kv_s w) = h1 ->
  nd_self env = me -> peer <> 0 -> peer <> me -> t <= ke_now env < t + KV_IDLE_TIMEOUT_MS ->
  kv_encode (KvMsg n h1 []) = Some m -> length h1 = KV_HASH_LEN ->
  exists w' name r, kv_receive env (carried_to peer me m true true) w = (w', [KvFinal n false name (verification_code h1)], r) /\
    in_session KV_RECEIVER_AWAITING_USER peer n t our w0 w' /\ peer_key peer w' = Some peers.
Proof.
  intros Hs Hk H1 Hme Hz Hp Ht Hm Hl. pose proof (session_open env _ _ _ _ _ _ _ Hs ltac:(lia)) as Eu.
  destruct Hs as [Hst Hr Hn Hsd Hpd Ho Hpv Hdb]. unfold kv_receive, keyverify_on_packet.
  assert (kv_from (carried_to peer me m true true) None = peer) as -> by done.
  assert (kv_to (carried_to peer me m true true) None = me) as -> by done.
  assert (kv_pkc (carried_to peer me m true true) None = true) as -> by done.
  assert (decode_kv (carried_to peer me m true true) None = Some (KvMsg n h1 [])) as Ed by (apply (kv_decode_encode _ _ Hm)).
  rewrite Ed, Hme, Z.eqb_refl, (proj2 (Z.eqb_neq _ _) Hz), (proj2 (Z.eqb_neq _ _) Hp), Eu, Hst, Hr, Hn.
  cbn [negb orb km_nonce km_hash1 km_hash2]. rewrite !Z.eqb_refl, !bool_decide_false, bool_decide_true by done.
  unfold full_hash. rewrite Hl. cbn [negb orb andb length]. rewrite Nat.eqb_refl. unfold take_m3. cbn [km_hash1].
  rewrite bool_decide_true by done. cbn [p_want_response carried_to].
  set (w' := on_kv _ w). set (fin := KvFinal _ _ _ _).
  assert (in_session KV_RECEIVER_AWAITING_USER peer n t our w0 w') as Hs'.
  { constructor; try done; cbn; lia. }
  assert (exists r, keyverify_alloc_reply env (carried_to peer me m true true) None w' = (w', [], Fail r)) as [r Er].
  { unfold keyverify_alloc_reply. rewrite Ed. destruct (_ || _); [by eexists|]. destruct (_ || _); [by eexists|].
    destruct (our_key w'); [|by eexists]. rewrite (session_open env _ _ _ _ _ _ _ Hs' ltac:(lia)).
    rewrite (is_state _ _ _ _ _ _ _ Hs'), bool_decide_true by done. by eexists. }
  fold (carried_to peer me m true true). rewrite Er. do 3 eexists. split; [|split; [exact Hs'|exact Hk]].
  unfold fin. cbn. rewrite Hn, H1. done.
Qed.

Lemma honest_accept (env : kv_env) st peer n t our peers w0 w :
  in_session st peer n t our w0 w -> (st = KV_SENDER_AWAITING_USER \/ st = KV_RECEIVER_AWAITING_USER) ->
  peer_key peer w = Some peers -> t <= ke_now env < t + KV_IDLE_TIMEOUT_MS -> is_Some (find_entry_locked peer (kv_db w0)) ->
  exists w' out, meshtastic_keyverify_accept env n w = (w', out, OK) /\ verified_with peer peers (kv_db w').
Proof.
  intros Hs Hst Hk Ht Hh. pose proof (session_open env _ _ _ _ _ _ _ Hs ltac:(lia)) as Eu.
  destruct Hs as [Est Hr Hn _ _ _ _ Hdb]. subst peer. apply accept_ok; try done; [by rewrite Est|by rewrite Hdb].
Qed.

(** The frame that opens a session, or answers it: encrypted when the sender knows the receiver. *)
Lemma crosses_hello from to pkf pkt m wr extra d k ws wt :
  our_key ws = Some pkf -> our_key wt = Some pkt -> x25519_base (g_priv (kv_pki ws)) = Some pkf ->
  x25519_base (g_priv (kv_pki wt)) = Some pkt ->
  (k = true -> peer_key to ws = Some pkt) -> (k = true -> peer_key from wt = Some pkf) -> in_u32 extra ->
  (forall s, is_Some (psa_sha256 s)) -> is_Some (x25519 (g_priv (kv_pki ws)) pkt) -> (forall k, aes_import k = true) ->
  (forall k n x, is_Some (ccm_encrypt k n x)) -> data_encode m wr = Some d -> d <> [] ->
  (MESHTASTIC_HDR_LEN + length d + MESHTASTIC_PKI_OVERHEAD <= MESHTASTIC_PKT_MAX)%nat ->
  crosses from to m (negb k) wr extra ws wt = Some (carried_to from to m k wr).
Proof. intros. destruct k; [|done]. eapply crosses_known; eauto. Qed.

Lemma knows_key peer our peers me w : ready me peer our peers w -> knows peer w = true -> nodedb_key peer w = Some peers.
Proof. intros R [k Hk]%bool_decide_eq_true. by rewrite Hk, (rd_key _ _ _ _ _ R k Hk). Qed.
Lemma ready_peer peer our peers me w : ready me peer our peers w -> peer_key peer w = nodedb_key peer w.
Proof. intros R. unfold peer_key. rewrite (rd_none _ _ _ _ _ R). by destruct (nodedb_key peer w). Qed.

Section Pair.
Context (na nb : Z) (pka pkb : list Z) (n x x1 x2 x3 : Z) (a1 a2 a3 a4 b1 b2 b3 : kv_env) (wa wb : kvw).
Hypothesis (Ra : ready na nb pka pkb wa) (Rb : ready nb na pkb pka wb).
Hypothesis (Hna : na <> 0) (Hnb : nb <> 0) (Hab : na <> nb) (Hbr : nb <> MESHTASTIC_NODE_BROADCAST).
Hypothesis (Ta : timely na (ke_now a1) [a1; a2; a3; a4]) (Tb : timely nb (ke_now b1) [b1; b2; b3]).
Hypothesis (Hcool : last_remote_end_ms (kv_s wb) = 0 \/ KV_REMOTE_COOLDOWN_MS <= ke_now b1 - last_remote_end_ms (kv_s wb)).
Hypothesis (Hn : ke_nonce a1 = Some n) (Hn0 : n <> 0) (Hx : ke_entropy b1 = Some x) (Hxs : Forall in_u32 [x1; x2; x3]).
Hypothesis (Hs1 : forall m b, ke_send a1 nb m b = OK) (Hs3 : forall m b, ke_send a3 nb m b = OK).
Hypothesis (Hw : works pka pkb (g_priv (kv_pki wa))).
#[local] Abbreviation result := (handshake na nb n x1 x2 x3 a1 a2 a3 a4 b1 b2 b3 wa wb).

Lemma pair_lengths : (length pka <= 32)%nat /\ (length pkb <= 32)%nat.
Proof. pose proof (rd_len _ _ _ _ _ Ra) as La. pose proof (rd_len _ _ _ _ _ Rb) as Lb. unfold KV_HASH_LEN in *. lia. Qed.

Lemma pair_hashes : exists h1 h2, compute_hash1 (x mod 999999 + 1) n na nb pka pkb = Some h1 /\ compute_hash2 n h1 = Some h2 /\
  length h1 = 32%nat /\ length h2 = 32%nat.
Proof.
  destruct (wk_sha _ _ _ Hw (put_le32 (x mod 999999 + 1) ++ put_le64 n ++ put_le32 na ++ put_le32 nb ++ pka ++ pkb)) as [h1 E1].
  destruct (wk_sha _ _ _ Hw (put_le64 n ++ h1)) as [h2 E2]. exists h1, h2.
  split; [exact E1|]. split; [exact E2|]. by rewrite (psa_sha256_len _ _ E1), (psa_sha256_len _ _ E2).
Qed.

Lemma pair_times : (nd_self a1 = na /\ nd_self b1 = nb) /\
  Forall (fun env : kv_env => nd_self env = na /\ ke_now a1 <= ke_now env < ke_now a1 + KV_IDLE_TIMEOUT_MS) [a2; a3; a4] /\
  Forall (fun env : kv_env => nd_self env = nb /\ ke_now b1 <= ke_now env < ke_now b1 + KV_IDLE_TIMEOUT_MS) [b2; b3].
Proof. apply Forall_cons in Ta as [[A1 _] Ta'], Tb as [[B1 _] Tb']. done. Qed.

(** Only one knew the other. *)
Lemma pair_fails : knows nb wa <> knows na wb -> result = None.
Proof.
  intros Hk. destruct pair_lengths as [La Lb], pair_hashes as (h1 & h2 & E1 & E2 & L1 & L2), pair_times as [[A1 B1] _].
  destruct (wk_msg _ _ _ Hw n pka [] La ltac:(cbn; lia)) as (m1 & M1 & _), (wk_msg _ _ _ Hw n pkb h2 Lb ltac:(lia)) as (m2 & M2 & _).
  unfold handshake. destruct (honest_start a1 na nb pka pkb n wa m1 Ra) as (wa1 & -> & Sa1 & Pa1); try done.
  cbn [sent omap head list_omap option_bind mbind]. destruct (knows nb wa) eqn:Eka; cbn [negb].
  - rewrite crosses_unknown; [done|]. rewrite (ready_peer _ _ _ _ _ Rb). unfold knows in Hk.
    destruct (nodedb_key na wb); [|done]. by rewrite bool_decide_true in Hk.
  - change (crosses na nb m1 true true x1 wa1 wb) with (Some (carried_to na nb m1 false true)). cbn [mbind option_bind].
    destruct (honest_answer b1 nb na pkb pka n x wb m1 m2 h1 h2 false Rb) as (wb1 & name & -> & _); try done; [apply Ra|].
    cbn [number_of omap head list_omap option_bind mbind rp_payload rp_no_pkc].
    destruct (knows na wb) eqn:Ekb; [|done]. cbn [negb]. rewrite crosses_unknown; [done|]. rewrite Pa1.
    unfold knows in Eka. destruct (nodedb_key nb wa); [|done]. by rewrite bool_decide_true in Eka.
Qed.

Lemma pair_succeeds : knows nb wa = knows na wb -> exists wa' wb' code, result = Some (wa', wb', code, code) /\
  verified_with nb pkb (kv_db wa') /\ verified_with na pka (kv_db wb').
Proof.
  intros Hk. destruct pair_lengths as [La Lb], pair_hashes as (h1 & h2 & E1 & E2 & L1 & L2), pair_times as [[A1 B1] [TA TB]].
  apply Forall_cons in TA as [[A2 T2] [[A3 T3] [[A4 T4] _]%Forall_cons]%Forall_cons], TB as [[B2 U2] [[B3 U3] _]%Forall_cons].
  apply Forall_cons in Hxs as [X1 [X2 [X3 _]%Forall_cons]%Forall_cons]. destruct Hw as [Hsha Hdh Haes Hccm Hmsg].
  destruct (Hmsg n pka [] La ltac:(cbn; lia)) as (m1 & M1 & D1), (D1 true) as (d1 & D1a & D1b & D1c).
  destruct (Hmsg n pkb h2 Lb ltac:(lia)) as (m2 & M2 & D2), (D2 false) as (d2 & D2a & D2b & D2c).
  destruct (Hmsg n h1 [] ltac:(lia) ltac:(cbn; lia)) as (m3 & M3 & D3), (D3 true) as (d3 & D3a & D3b & D3c).
  assert (Hdb : is_Some (x25519 (g_priv (kv_pki wb)) pka))
    by (by rewrite <- (x25519_agree _ _ _ _ (rd_pair _ _ _ _ _ Ra) (rd_pair _ _ _ _ _ Rb))).
  pose proof (knows_key _ _ _ _ _ Ra) as Ka. pose proof (knows_key _ _ _ _ _ Rb) as Kb. unfold handshake.
  destruct (honest_start a1 na nb pka pkb n wa m1 Ra) as (wa1 & -> & Sa1 & Pa1); try done.
  cbn [sent omap head list_omap option_bind mbind].
  rewrite (crosses_hello na nb pka pkb m1 true x1 d1); try done;
    [|apply Sa1 | apply Rb | rewrite (is_priv _ _ _ _ _ _ _ Sa1); apply Ra | apply Rb
     | by rewrite Pa1 | by rewrite Hk, (ready_peer _ _ _ _ _ Rb) | by rewrite (is_priv _ _ _ _ _ _ _ Sa1)].
  cbn [option_bind mbind].
  destruct (honest_answer b1 nb na pkb pka n x wb m1 m2 h1 h2 (knows nb wa) Rb) as (wb1 & name & -> & Sb1 & Kb1 & Hb1); try done; [apply Ra|].
  cbn [number_of omap head list_omap option_bind mbind rp_payload rp_no_pkc].
  rewrite (crosses_hello nb na pkb pka m2 false x2 d2); try done;
    [|apply Sb1 | apply Sa1 | rewrite (is_priv _ _ _ _ _ _ _ Sb1); apply Rb | rewrite (is_priv _ _ _ _ _ _ _ Sa1); apply Ra
     | rewrite <- Hk, Pa1; done | by rewrite (is_priv _ _ _ _ _ _ _ Sb1)].
  cbn [option_bind mbind].
  destruct (honest_m2 a2 na nb pka pkb n (ke_now a1) wa wa1 m2 h2 (knows na wb) Sa1) as (wa2 & o & -> & Sa2 & Ka2 & Ha2);
    try done; [apply Rb | apply (rd_key _ _ _ _ _ Ra)|].
  destruct (honest_number a3 na nb pka pkb n (x mod 999999 + 1) (ke_now a1) wa wa2 m3 h1 h2 Sa2 Ka2 Ha2) as (wa3 & nm & -> & Sa3 & Ka3); try done.
  cbn [sent code_of omap head list_omap option_bind mbind].
  rewrite (crosses_known na nb pka pkb m3 true x3 d3); try done;
    [|apply Sa3 | apply Sb1 | rewrite (is_priv _ _ _ _ _ _ _ Sa3); apply Ra | rewrite (is_priv _ _ _ _ _ _ _ Sb1); apply Rb
     | by rewrite (is_priv _ _ _ _ _ _ _ Sa3)].
  cbn [option_bind mbind].
  destruct (honest_m3 b2 nb na pkb pka n (ke_now b1) wb wb1 m3 h1 Sb1 Kb1 Hb1) as (wb2 & nm' & r & -> & Sb2 & Kb2); try done.
  cbn [code_of omap head list_omap option_bind mbind].
  destruct (honest_accept a4 _ nb n _ pka pkb wa wa3 Sa3) as (wa4 & oa & -> & Va); try done; [by left|apply (rd_hot _ _ _ _ _ Ra)|].
  destruct (honest_accept b3 _ na n _ pkb pka wb wb2 Sb2) as (wb3 & ob & -> & Vb); try done; [by right|apply (rd_hot _ _ _ _ _ Rb)|].
  cbn [succeeded andb]. do 3 eexists. done.
Qed.
End Pair.

(** C20: Two honest nodes verify each other when both had the other's key before, or neither:
    whatever keys and names they have, when the frames get through within a minute, A's user
    types the number B shows and both accept, then both users were shown the same code, and
    each node has the other's key, marked as verified. Each frame is encrypted and opened as
    the nodes' keys allow it at that moment. When only one of them had the other's key before,
    the first frame or its answer is encrypted for a node that cannot open it, and the
    handshake ends there. *)
Theorem honest_pair_verifies na nb pka pkb n x x1 x2 x3 (a1 a2 a3 a4 b1 b2 b3 : kv_env) wa wb :
  ready na nb pka pkb wa -> ready nb na pkb pka wb ->
  na <> 0 -> nb <> 0 -> na <> nb -> nb <> MESHTASTIC_NODE_BROADCAST ->
  timely na (ke_now a1) [a1; a2; a3; a4] -> timely nb (ke_now b1) [b1; b2; b3] ->
  last_remote_end_ms (kv_s wb) = 0 \/ KV_REMOTE_COOLDOWN_MS <= ke_now b1 - last_remote_end_ms (kv_s wb) ->
  ke_nonce a1 = Some n -> n <> 0 -> ke_entropy b1 = Some x -> Forall in_u32 [x1; x2; x3] ->
  (forall m b, ke_send a1 nb m b = OK) -> (forall m b, ke_send a3 nb m b = OK) ->
  works pka pkb (g_priv (kv_pki wa)) ->
  let result := handshake na nb n x1 x2 x3 a1 a2 a3 a4 b1 b2 b3 wa wb in
  (knows nb wa = knows na wb -> exists wa' wb' code, result = Some (wa', wb', code, code) /\
     verified_with nb pkb (kv_db wa') /\ verified_with na pka (kv_db wb')) /\
  (knows nb wa <> knows na wb -> result = None).
Proof.
  intros. split; [by apply (pair_succeeds na nb pka pkb n x) | by apply (pair_fails na nb pka pkb n x)].
Qed.
End Handshake.

(** ** Examples *)

#[global] Instance toy_codec : KvCodec.
Proof.
  refine {| kv_encode := fun m => Some (km_nonce m :: Z.of_nat (length (km_hash1 m)) :: km_hash1 m ++ km_hash2 m);
            kv_decode := fun b => match b with
              | n :: l :: r => Some (KvMsg n (take (Z.to_nat l) r) (drop (Z.to_nat l) r)) | _ => None end;
            data_encode := fun m r => Some ((if r then 1 else 0) :: m);
            data_decode := fun b => match b with f :: m => Some (m, f =? 1) | [] => None end |}.
  - intros [n g h] b [= <-]. cbn. by rewrite Nat2Z.id, take_app_length, drop_app_length.
  - intros m [] b [= <-]; done.
Defined.

Definition at_node (me now : Z) : kv_env :=
  KvEnv {| nd_self := me; nd_uptime_ms := now; nd_epoch := 0; nd_uptime_to_epoch := fun t => t;
           nd_own_key := None; nd_client_base := false;
           nd_decode_user := nd_decode_user (nd_sample 4 0); nd_decode_position := fun _ => None;
           nd_max_nodes := 4; nd_sort_throttle_ms := 0 |} (Some 77) (Some 123456) (fun _ _ _ => OK).

(** A node that has heard of the other, without a key of it. *)
Definition heard_of (me peer : Z) (p : pki) : kvw :=
  KvWorld kv_zero p (meshtastic_module_nodedb_on_packet (at_node me 500) (text_from peer) 0 None (nodedb_zero 4)).1.
Definition alice : kvw := heard_of 1 2 node_a.
Definition bob : kvw := heard_of 2 1 node_b.

Lemma alice_ready : ready 1 2 (g_pub node_a) (g_pub node_b) alice.
Proof. constructor; try (vm_compute; reflexivity). - vm_compute. by eexists. - intros k. vm_compute. discriminate. Qed.
Lemma bob_ready : ready 2 1 (g_pub node_b) (g_pub node_a) bob.
Proof. constructor; try (vm_compute; reflexivity). - vm_compute. by eexists. - intros k. vm_compute. discriminate. Qed.

Lemma honest_pair_verifies_witness :
  exists wa' wb' code,
    handshake 1 2 77 5 6 7 (at_node 1 1000) (at_node 1 2000) (at_node 1 20000) (at_node 1 40000)
      (at_node 2 7000) (at_node 2 26000) (at_node 2 50000) alice bob = Some (wa', wb', code, code) /\
    verified_with 2 (g_pub node_b) (kv_db wa') /\ verified_with 1 (g_pub node_a) (kv_db wb').
Proof.
  destruct (honest_pair_verifies 1 2 (g_pub node_a) (g_pub node_b) 77 123456 5 6 7 (at_node 1 1000) (at_node 1 2000)
    (at_node 1 20000) (at_node 1 40000) (at_node 2 7000) (at_node 2 26000) (at_node 2 50000) alice bob) as [Hok _];
    [apply alice_ready | apply bob_ready | lia | lia | lia | vm_compute; congruence
    | repeat constructor; vm_compute; congruence | repeat constructor; vm_compute; congruence | left; reflexivity
    | reflexivity | lia | reflexivity | repeat constructor; vm_compute; congruence | reflexivity | reflexivity | |].
  - constructor; try (intros; eexists; reflexivity). intros k g h Hg Hh. eexists. split; [reflexivity|].
    intros r. eexists. split; [reflexivity|]. split; [done|]. cbn. rewrite length_app.
    unfold MESHTASTIC_HDR_LEN, MESHTASTIC_PKI_OVERHEAD, MESHTASTIC_PKT_MAX. lia.
  - apply Hok. vm_compute. reflexivity.
Defined.

(** B had A's key before, A not B's: B answers encrypted, A cannot read it, and the users
    see nothing of it. *)
Definition bob_knows : kvw :=
  set_kv_db (meshtastic_nodedb_commit_pubkey (at_node 2 600) 1 (g_pub node_a) (kv_db bob)).1.1 bob.
Lemma one_sided_handshake_fails :
  nodedb_key 1 bob_knows = Some (g_pub node_a) /\ nodedb_key 2 alice = None /\
  handshake 1 2 77 5 6 7 (at_node 1 1000) (at_node 1 2000) (at_node 1 20000) (at_node 1 40000)
    (at_node 2 7000) (at_node 2 26000) (at_node 2 50000) alice bob_knows = None /\
  is_Some (handshake 1 2 77 5 6 7 (at_node 1 1000) (at_node 1 2000) (at_node 1 20000) (at_node 1 40000)
    (at_node 2 7000) (at_node 2 26000) (at_node 2 50000) alice bob).
Proof. vm_compute. split_and!; try reflexivity. by eexists. Qed.

(** B's answer to the request A makes above. *)
Definition m2_of_bob : list Z :=
  match kv_receive (at_node 2 7000) (carried_to 1 2 (77 :: 32 :: g_pub node_a) false true) bob with
  | (_, _, Val r) => rp_payload r
  | _ => []
  end.
Definition run_kv (evs : list kv_event) (w : kvw) : kvw * list kv_out :=
  foldl (fun '(w, out) ev => let '(w, o) := kv_step w ev in (w, out ++ o)) (w, []) evs.

Definition compared : list kv_event :=
  [EvStart (at_node 1 1000) 2; EvPacket (at_node 1 2000) (Some (carried_to 2 1 m2_of_bob false false)) None;
   EvNumber (at_node 1 20000) 77 123457].

Lemma run_reach me w0 evs : kv_s w0 = kv_zero -> Forall (fun ev => nd_self (ev_env ev) = me /\ match ev with EvOther _ _ => False | _ => True end) evs ->
  kv_reach me w0 evs (run_kv evs w0).2 (run_kv evs w0).1.
Proof.
  intros Hz. induction evs as [|ev evs IH] using rev_ind; intros Hall; [by constructor|].
  apply Forall_app in Hall as [Hall [[Hme Hev] _]%Forall_cons]. specialize (IH Hall).
  unfold run_kv in *. rewrite foldl_app. destruct (foldl _ _ evs) as [w out]. cbn in *. destruct (kv_step w ev) as [w' o] eqn:E. cbn.
  eapply reach_step; [exact IH| |exact E]. split; [done|]. by destruct ev.
Qed.

Lemma verified_key_was_compared_witness :
  let w := (run_kv compared alice).1 in
  exists (sender : bool) our k, our_key w = Some our /\ covers 1 sender (kv_s w) our k /\
    code_shown sender (kv_s w) (run_kv compared alice).2 /\
    verified_with 2 k (kv_db (meshtastic_keyverify_accept (at_node 1 40000) 77 w).1.1).
Proof.
  destruct (verified_key_was_compared 1 alice compared (run_kv compared alice).2 (run_kv compared alice).1
    (at_node 1 40000) 77 (meshtastic_keyverify_accept (at_node 1 40000) 77 (run_kv compared alice).1).1.1 [KvNodeInfo 2])
    as (sender & our & k & Ho & Hc & _ & Hs & Hv & _).
  - apply run_reach; [reflexivity|]. repeat constructor.
  - vm_compute. reflexivity.
  - exists sender, our, k. split; [exact Ho|]. split; [exact Hc|]. split; [exact Hs|]. exact Hv.
Defined.

Lemma one_request_a_minute_witness :
  let w1 := (keyverify_alloc_reply (at_node 2 7000) (carried_to 1 2 (77 :: 32 :: g_pub node_a) false true) None bob).1.1 in
  let w2 := (run_kv [EvReject (at_node 2 8000)] w1).1 in
  7000 + KV_REMOTE_COOLDOWN_MS <= 68000 /\
  (keyverify_alloc_reply (at_node 2 67999) (carried_to 1 2 (78 :: 32 :: g_pub node_a) false true) None w2).2 = Fail ENOENT.
Proof.
  split; [|vm_compute; reflexivity].
  pose (reply1 := keyverify_alloc_reply (at_node 2 7000) (carried_to 1 2 (77 :: 32 :: g_pub node_a) false true) None bob).
  pose (reply2 := keyverify_alloc_reply (at_node 2 68000) (carried_to 1 2 (78 :: 32 :: g_pub node_a) false true) None
    (foldl (fun w ev => (kv_step w ev).1) reply1.1.1 [EvReject (at_node 2 8000)])).
  apply (one_request_a_minute (at_node 2 7000) (carried_to 1 2 (77 :: 32 :: g_pub node_a) false true) None bob
    reply1.1.1 reply1.1.2 (KvReply 1 m2_of_bob 1 true) [EvReject (at_node 2 8000)] (at_node 2 68000)
    (carried_to 1 2 (78 :: 32 :: g_pub node_a) false true) None reply2.1.1 reply2.1.2
    (match reply2.2 with Val r => r | Fail _ => KvReply 0 [] 0 false end)).
  - vm_compute. reflexivity.
  - vm_compute. reflexivity.
  - repeat constructor. vm_compute. discriminate.
  - vm_compute. discriminate.
  - vm_compute. reflexivity.
Defined.

(** When the node database learns a key of the peer between the code and the accept, from a
    NodeInfo anybody can send in the peer's name, that key is what the accept marks as
    verified: not the one the user compared, which was only pending. *)
Lemma forged_nodeinfo_verified :
  let w := (run_kv compared alice).1 in
  let forged := (meshtastic_module_nodedb_on_packet (at_node 1 30000) (nodeinfo_from 2 [66; 66]) 0 None (kv_db w)).1 in
  let '(w', _, ret) := meshtastic_keyverify_accept (at_node 1 40000) 77 (set_kv_db forged w) in
  ret = OK /\ peer_key 2 w = Some (g_pub node_b) /\ verified_with 2 (replicate 32 66) (kv_db w').
Proof. vm_compute. split; [done|]. split; [done|]. by eexists. Qed.

(** An M3 has the shape of an M1: a node that holds the sender's key and has lost its session,
    here to a restart, takes it for a request and shows its user a new number. *)
Lemma m3_opens_session :
  let knows := set_kv_db (meshtastic_module_nodedb_on_packet (at_node 2 600) (nodeinfo_from 1 [44; 65]) 0 None (kv_db bob)).1 bob in
  let '(w, out, _) := kv_receive (at_node 2 9000) (carried_to 1 2 (77 :: 32 :: replicate 32 5) true true) knows in
  state (kv_s w) = KV_RECEIVER_AWAITING_HASH1 /\ number_of out = Some 123457.
Proof. by vm_compute. Qed.
