(* ===== verification/Clock.v ===== *)
(** * The wall clock (src/src/meshtastic_clock.c, meshtastic_clock_persist.c, meshtastic_sntp.c)

    What time the node believes it is: the anchor with the trust of its source, the rate
    correction learned from two syncs, the readings, the lock-free reader against a writer,
    the record that carries the time across a warm reset and the SNTP query. The uptime of
    each call is an argument; a 64-bit product wraps where the C code would overflow. *)
From S2P Require Import Prelude.
Open Scope Z_scope.

Inductive meshtastic_clock_quality := QUALITY_NONE | QUALITY_DEVICE | QUALITY_NET | QUALITY_NTP | QUALITY_GPS.
Inductive meshtastic_clock_precision := PRECISION_SECOND | PRECISION_SUBSECOND.

#[export] Instance quality_eq_dec : EqDecision meshtastic_clock_quality.
Proof. solve_decision. Defined.
#[export] Instance precision_eq_dec : EqDecision meshtastic_clock_precision.
Proof. solve_decision. Defined.

(** The value of the enumerator, by which sources are ordered. *)
Definition trust (q : meshtastic_clock_quality) : Z :=
  match q with QUALITY_NONE => 0 | QUALITY_DEVICE => 1 | QUALITY_NET => 2 | QUALITY_NTP => 3 | QUALITY_GPS => 4 end.

Definition MESHTASTIC_EPOCH_MIN : Z := 1577836800.
Definition MESHTASTIC_EPOCH_MAX : Z := MESHTASTIC_EPOCH_MIN + 40 * 365 * 24 * 60 * 60.
Definition MESHTASTIC_CLOCK_NTP_REAPPLY_MS : Z := 30 * 60 * 1000.
Definition MESHTASTIC_CLOCK_READ_RETRIES : nat := 4.
Definition SKEW_PPB_PER_PPM : Z := 1000.

Class ClockKconfig := {
  clock_skew : bool;                  (* CONFIG_MESHTASTIC_CLOCK_SKEW *)
  skew_max_ppm : Z;
  skew_min_window_s : Z;
  persist_max_downtime_s : Z;
  skew_max_range : 1 <= skew_max_ppm <= 10000;
  skew_window_range : 60 <= skew_min_window_s <= 604800;
  persist_downtime_range : 1 <= persist_max_downtime_s <= 28800;
}.

(** Without the rate correction the last two fields do not exist; they stay 0 and false. *)
Record clock_anchor := ClockAnchor {
  epoch_ms : Z;
  anchor_uptime_ms : Z;
  quality : meshtastic_clock_quality;
  valid : bool;
  skew_ppb : Z;
  skew_valid : bool;
}.
Definition set_epoch_ms (v : Z) (r : clock_anchor) : clock_anchor :=
ClockAnchor v (anchor_uptime_ms r) (quality r) (valid r) (skew_ppb r) (skew_valid r).
Definition set_anchor_uptime_ms (v : Z) (r : clock_anchor) : clock_anchor :=
ClockAnchor (epoch_ms r) v (quality r) (valid r) (skew_ppb r) (skew_valid r).
Definition set_quality (v : meshtastic_clock_quality) (r : clock_anchor) : clock_anchor :=
ClockAnchor (epoch_ms r) (anchor_uptime_ms r) v (valid r) (skew_ppb r) (skew_valid r).
Definition set_valid (v : bool) (r : clock_anchor) : clock_anchor :=
ClockAnchor (epoch_ms r) (anchor_uptime_ms r) (quality r) v (skew_ppb r) (skew_valid r).
Definition set_skew_ppb (v : Z) (r : clock_anchor) : clock_anchor :=
ClockAnchor (epoch_ms r) (anchor_uptime_ms r) (quality r) (valid r) v (skew_valid r).
Definition set_skew_valid (v : bool) (r : clock_anchor) : clock_anchor :=
ClockAnchor (epoch_ms r) (anchor_uptime_ms r) (quality r) (valid r) (skew_ppb r) v.

Record clock := Clock {
  anchor : clock_anchor;
  anchor_seq : Z;
  skew_base_epoch_ms : Z;
  skew_base_uptime_ms : Z;
  skew_last_uptime_ms : Z;
  skew_base_valid : bool;
}.
Definition set_anchor (v : clock_anchor) (r : clock) : clock :=
Clock v (anchor_seq r) (skew_base_epoch_ms r) (skew_base_uptime_ms r) (skew_last_uptime_ms
    r) (skew_base_valid r).
Definition set_anchor_seq (v : Z) (r : clock) : clock :=
Clock (anchor r) v (skew_base_epoch_ms r) (skew_base_uptime_ms r) (skew_last_uptime_ms r)
    (skew_base_valid r).
Definition set_skew_base_epoch_ms (v : Z) (r : clock) : clock :=
Clock (anchor r) (anchor_seq r) v (skew_base_uptime_ms r) (skew_last_uptime_ms r)
    (skew_base_valid r).
Definition set_skew_base_uptime_ms (v : Z) (r : clock) : clock :=
Clock (anchor r) (anchor_seq r) (skew_base_epoch_ms r) v (skew_last_uptime_ms r)
    (skew_base_valid r).
Definition set_skew_last_uptime_ms (v : Z) (r : clock) : clock :=
Clock (anchor r) (anchor_seq r) (skew_base_epoch_ms r) (skew_base_uptime_ms r) v
    (skew_base_valid r).
Definition set_skew_base_valid (v : bool) (r : clock) : clock :=
Clock (anchor r) (anchor_seq r) (skew_base_epoch_ms r) (skew_base_uptime_ms r)
    (skew_last_uptime_ms r) v.

Definition anchor_zero : clock_anchor := ClockAnchor 0 0 QUALITY_NONE false 0 false.
Definition clock_boot : clock := Clock anchor_zero 0 0 0 0 false.

Abbreviation i64 := (to_signed 64).

(** The two words of a 64-bit integer. *)
Definition lo32 (z : Z) : Z := u32 z.
Definition hi32 (z : Z) : Z := u32 (z / 2 ^ 32).
Definition of_halves (lo hi : Z) : Z := i64 (lo + hi * 2 ^ 32).

(** ** Operations *)

Section Ops.
Context `{ClockKconfig}.

Definition SKEW_MAX_PPB : Z := skew_max_ppm * SKEW_PPB_PER_PPM.
Definition SKEW_MIN_WINDOW_MS : Z := skew_min_window_s * 1000.

(** The writer's two increments around the copy, when nobody reads in between. *)
Definition anchor_write (next : clock_anchor) (c : clock) : clock :=
  set_anchor_seq (u32 (anchor_seq c + 2)) (set_anchor next c).

(** One pass of the reader over a quiet anchor, at most [n] times. *)
Fixpoint anchor_read_loop (n : nat) (c : clock) : option clock_anchor :=
  match n with
  | O => None
  | S n =>
      let before := anchor_seq c in
      if negb (Z.land before 1 =? 0) then anchor_read_loop n c
      else
        let out := anchor c in
        if anchor_seq c =? before then (if valid out then Some out else None) else anchor_read_loop n c
  end.
Definition anchor_read : clock -> option clock_anchor := anchor_read_loop MESHTASTIC_CLOCK_READ_RETRIES.

Definition skew_estimate (d_ref_ms d_local_ms : Z) : option Z :=
  if d_local_ms <? SKEW_MIN_WINDOW_MS then None
  else
    let ppb := Z.quot (i64 ((d_ref_ms - d_local_ms) * 1000000000)) d_local_ms in
    if (SKEW_MAX_PPB <? ppb) || (ppb <? - SKEW_MAX_PPB) then None else Some (to_i32 ppb).

(** What is fed, the anchor about to be published, and whether it now has a new rate. *)
Definition skew_feed (epoch uptime : Z) (q : meshtastic_clock_quality) (p : meshtastic_clock_precision)
    (next : clock_anchor) (c : clock) : clock * clock_anchor * bool :=
  if trust q <? trust QUALITY_NTP then (c, next, false)
  else if bool_decide (p <> PRECISION_SUBSECOND) then (c, next, false)
  else if negb (skew_base_valid c) then
    (set_skew_base_valid true (set_skew_last_uptime_ms uptime (set_skew_base_uptime_ms uptime
       (set_skew_base_epoch_ms epoch c))), next, false)
  else
    let c := set_skew_last_uptime_ms uptime c in
    match skew_estimate (epoch - skew_base_epoch_ms c) (uptime - skew_base_uptime_ms c) with
    | None => (c, next, false)
    | Some ppb => (c, set_skew_valid true (set_skew_ppb ppb next), true)
    end.

Definition clock_should_set (q : meshtastic_clock_quality) (now_ms : Z) (a : clock_anchor) : bool :=
  if trust (quality a) <? trust q then true
  else if bool_decide (q = QUALITY_GPS) then true
  else bool_decide (q = QUALITY_NTP) && (MESHTASTIC_CLOCK_NTP_REAPPLY_MS <=? now_ms - anchor_uptime_ms a).

Definition epoch_in_range (epoch : Z) : bool :=
  let sec := Z.quot epoch 1000 in
  negb (epoch <? 0) && negb ((sec <? MESHTASTIC_EPOCH_MIN) || (MESHTASTIC_EPOCH_MAX <? sec)).

Definition clock_set (now_ms epoch at_uptime : Z) (q : meshtastic_clock_quality) (p : meshtastic_clock_precision)
    (c : clock) : clock :=
  if negb (epoch_in_range epoch) then c
  else
    let at_uptime := if (now_ms <? at_uptime) || (at_uptime <? 0) then now_ms else at_uptime in
    if clock_should_set q now_ms (anchor c) then
      let next := ClockAnchor epoch at_uptime q true (skew_ppb (anchor c)) (skew_valid (anchor c)) in
      if clock_skew then
        let '(c, next, _) := skew_feed epoch at_uptime q p next c in anchor_write next c
      else anchor_write next c
    else c.

Definition meshtastic_clock_set_epoch_ms_at (now_ms epoch at_uptime : Z) := clock_set now_ms epoch at_uptime.
Definition meshtastic_clock_set_epoch_ms (now_ms epoch : Z) := meshtastic_clock_set_epoch_ms_at now_ms epoch now_ms.
Definition meshtastic_clock_set_epoch (now_ms epoch_now : Z) (q : meshtastic_clock_quality) :=
  clock_set now_ms (epoch_now * 1000) now_ms q PRECISION_SECOND.

Definition meshtastic_clock_get_quality (c : clock) : meshtastic_clock_quality :=
  match anchor_read c with Some a => quality a | None => QUALITY_NONE end.
Definition meshtastic_clock_valid (c : clock) : bool := bool_decide (is_Some (anchor_read c)).

Definition epoch_ms_at_uptime (a : clock_anchor) (uptime_ms : Z) : Z :=
  let elapsed_ms := uptime_ms - anchor_uptime_ms a in
  if clock_skew then epoch_ms a + elapsed_ms + Z.quot (i64 (elapsed_ms * skew_ppb a)) 1000000000
  else epoch_ms a + elapsed_ms.

Definition meshtastic_clock_uptime_ms_to_epoch_ms (uptime_ms : Z) (c : clock) : Z :=
  match anchor_read c with Some a => epoch_ms_at_uptime a uptime_ms | None => 0 end.
Definition meshtastic_clock_now_epoch_ms (now_ms : Z) (c : clock) : Z :=
  match anchor_read c with Some a => epoch_ms_at_uptime a now_ms | None => 0 end.
Definition meshtastic_clock_now_epoch (now_ms : Z) (c : clock) : Z :=
  match anchor_read c with Some a => u32 (Z.quot (epoch_ms_at_uptime a now_ms) 1000) | None => 0 end.
Definition meshtastic_clock_uptime_to_epoch (uptime_sec : Z) (c : clock) : Z :=
  match anchor_read c with Some a => u32 (Z.quot (epoch_ms_at_uptime a (uptime_sec * 1000)) 1000) | None => 0 end.

(** The estimate, whether there is one, and the length of the window in seconds. *)
Definition meshtastic_clock_skew (c : clock) : bool * Z * Z :=
  (skew_valid (anchor c), skew_ppb (anchor c),
   if skew_base_valid c then u32 (Z.quot (skew_last_uptime_ms c - skew_base_uptime_ms c) 1000) else 0).

(** [bits] is the width of a log timestamp. *)
Definition meshtastic_log_timestamp (bits up_ms : Z) (c : clock) : Z :=
  match anchor_read c with Some a => wrap bits (epoch_ms_at_uptime a up_ms) | None => wrap bits up_ms end.

(** *** SNTP *)

(** [uncertainty] is CONFIG_SNTP_UNCERTAINTY. *)
Definition meshtastic_sntp_subsecond_ms (uncertainty : bool) (fraction rsp_delay_us : Z) : Z :=
  if uncertainty then to_i32 (fraction / 1000)
  else to_i32 (Z.shiftr (fraction * 1000) 32) + to_i32 (rsp_delay_us / 1000).

(** [reply] is the query's seconds, fraction and path delay, or a failure; the result is the
    clock and the delay to the next query, if one is scheduled. *)
Definition sntp_do_sync (uncertainty : bool) (resync_hours now_ms : Z) (reply : option (Z * Z * Z)) (c : clock)
    : clock * option Z :=
  match reply with
  | Some (seconds, fraction, delay) =>
      if seconds =? 0 then (c, Some 30000)
      else (meshtastic_clock_set_epoch_ms now_ms
              (seconds * 1000 + meshtastic_sntp_subsecond_ms uncertainty fraction delay) QUALITY_NTP PRECISION_SUBSECOND c,
            if 0 <? resync_hours then Some (resync_hours * 3600000) else None)
  | None => (c, Some 30000)
  end.

(** *** The record in retained RAM *)

Definition PERSIST_MAGIC : Z := 0x4D435031.
Definition PERSIST_VERSION : Z := 2.

Record persist_body := PersistBody {
  pb_epoch_ms : Z;
  pb_counter_ticks : Z;
  pb_quality : Z;
  pb_reserved : Z;
}.
Definition set_pb_epoch_ms (v : Z) (r : persist_body) : persist_body :=
PersistBody v (pb_counter_ticks r) (pb_quality r) (pb_reserved r).
Definition set_pb_counter_ticks (v : Z) (r : persist_body) : persist_body :=
PersistBody (pb_epoch_ms r) v (pb_quality r) (pb_reserved r).
Definition set_pb_quality (v : Z) (r : persist_body) : persist_body :=
PersistBody (pb_epoch_ms r) (pb_counter_ticks r) v (pb_reserved r).
Definition set_pb_reserved (v : Z) (r : persist_body) : persist_body :=
PersistBody (pb_epoch_ms r) (pb_counter_ticks r) (pb_quality r) v.

Record saved_record := Saved {
  sl_magic : Z;
  sl_version : Z;
  sl_len : Z;
  sl_sum : Z;
  sv_b : persist_body;
}.
Definition set_sl_magic (v : Z) (r : saved_record) : saved_record :=
Saved v (sl_version r) (sl_len r) (sl_sum r) (sv_b r).
Definition set_sl_version (v : Z) (r : saved_record) : saved_record :=
Saved (sl_magic r) v (sl_len r) (sl_sum r) (sv_b r).
Definition set_sl_len (v : Z) (r : saved_record) : saved_record :=
Saved (sl_magic r) (sl_version r) v (sl_sum r) (sv_b r).
Definition set_sl_sum (v : Z) (r : saved_record) : saved_record :=
Saved (sl_magic r) (sl_version r) (sl_len r) v (sv_b r).
Definition set_sv_b (v : persist_body) (r : saved_record) : saved_record :=
Saved (sl_magic r) (sl_version r) (sl_len r) (sl_sum r) v.

(** The bytes of the body, as the little-endian targets lay it out. *)
Definition body_bytes (b : persist_body) : list Z :=
  put_le64 (pb_epoch_ms b) ++ put_le32 (pb_counter_ticks b) ++ put_le16 (pb_quality b) ++ put_le16 (pb_reserved b).

Definition meshtastic_retained_sum (body : list Z) : Z :=
  foldl (fun h b => u32 (Z.lxor h b * 16777619)) 2166136261 body.

Definition meshtastic_retained_valid (s : saved_record) (magic version : Z) (body : list Z) : bool :=
  (sl_magic s =? magic) && (sl_version s =? version) && (sl_len s =? u16 (Zlen body)) &&
  (sl_sum s =? meshtastic_retained_sum body).

Definition saved_valid (s : saved_record) : bool :=
  meshtastic_retained_valid s PERSIST_MAGIC PERSIST_VERSION (body_bytes (sv_b s)).

(** The stores, one at a time and in the order the barriers keep. *)
Abbreviation stores := (list (saved_record -> saved_record)).
Definition on_body (f : persist_body -> persist_body) (s : saved_record) : saved_record := set_sv_b (f (sv_b s)) s.
Definition meshtastic_retained_void : stores := [set_sl_magic 0].
Definition meshtastic_retained_seal (magic version : Z) : stores :=
  [set_sl_magic 0; set_sl_version version; (fun s => set_sl_len (u16 (Zlen (body_bytes (sv_b s)))) s);
   (fun s => set_sl_sum (meshtastic_retained_sum (body_bytes (sv_b s))) s); set_sl_magic magic].
Definition save_stores (now_ms ticks : Z) (q : meshtastic_clock_quality) : stores :=
  meshtastic_retained_void ++
  [on_body (set_pb_quality (u16 (trust q))); on_body (set_pb_reserved 0);
   (fun s => on_body (set_pb_epoch_ms (of_halves (lo32 now_ms) (hi32 (pb_epoch_ms (sv_b s))))) s);
   on_body (set_pb_epoch_ms now_ms); on_body (set_pb_counter_ticks ticks)] ++
  meshtastic_retained_seal PERSIST_MAGIC PERSIST_VERSION.
Definition run_stores (fs : stores) (s : saved_record) : saved_record := foldl (fun s f => f s) s fs.

(** What the save would store; [ticks] is the counter, when it can be read. *)
Definition persist_save_stores (now_ms : Z) (ticks : option Z) (c : clock) : stores :=
  match ticks with
  | Some t =>
      if meshtastic_clock_valid c then
        let e := meshtastic_clock_now_epoch_ms now_ms c in
        if e <=? 0 then [] else save_stores e t (meshtastic_clock_get_quality c)
      else []
  | None => []
  end.
Definition persist_save (now_ms : Z) (ticks : option Z) (c : clock) (s : saved_record) : saved_record :=
  run_stores (persist_save_stores now_ms ticks c) s.

Inductive meshtastic_clock_persist_result :=
  | PERSIST_NOT_ATTEMPTED | PERSIST_RESTORED | PERSIST_COLD | PERSIST_NO_RECORD | PERSIST_NO_COUNTER | PERSIST_IMPLAUSIBLE.

(** The result, the downtime reported and the clock. *)
Definition persist_apply (now_ms downtime_ms : Z) (s : saved_record) (c : clock)
    : meshtastic_clock_persist_result * Z * clock :=
  if persist_max_downtime_s * 1000 <? downtime_ms then (PERSIST_IMPLAUSIBLE, Z.min downtime_ms UINT32_MAX, c)
  else (PERSIST_RESTORED, u32 downtime_ms,
        meshtastic_clock_set_epoch_ms now_ms (pb_epoch_ms (sv_b s) + downtime_ms) QUALITY_DEVICE PRECISION_SUBSECOND c).

(** [counter] is the counter's value and frequency, when it is ready. *)
Definition persist_restore (warm : bool) (counter : option (Z * Z)) (now_ms : Z) (s : saved_record) (c : clock)
    : meshtastic_clock_persist_result * Z * clock :=
  if negb warm then (PERSIST_COLD, 0, c)
  else if negb (saved_valid s) then (PERSIST_NO_RECORD, 0, c)
  else match counter with
  | None => (PERSIST_NO_COUNTER, 0, c)
  | Some (now_ticks, freq) =>
      if freq =? 0 then (PERSIST_NO_COUNTER, 0, c)
      else
        let delta := u32 (now_ticks - pb_counter_ticks (sv_b s)) in
        persist_apply now_ms (delta * 1000 / freq) s c
  end.

End Ops.

(** ** The reader against a writer

    The anchor is eight words of memory. A writer, alone under its spinlock, makes the
    sequence odd, stores the words in whatever order the compiler chose, and makes it even
    again; a reader loads them in any order in between two looks at the sequence. *)

Definition quality_of (z : Z) : meshtastic_clock_quality :=
  if z =? 1 then QUALITY_DEVICE else if z =? 2 then QUALITY_NET else if z =? 3 then QUALITY_NTP
  else if z =? 4 then QUALITY_GPS else QUALITY_NONE.

Definition anchor_words (a : clock_anchor) : list Z :=
  [lo32 (epoch_ms a); hi32 (epoch_ms a); lo32 (anchor_uptime_ms a); hi32 (anchor_uptime_ms a);
   trust (quality a); Z.b2z (valid a); u32 (skew_ppb a); Z.b2z (skew_valid a)].
Definition words_anchor (l : list Z) : clock_anchor :=
  ClockAnchor (of_halves (byte_at l 0) (byte_at l 1)) (of_halves (byte_at l 2) (byte_at l 3))
    (quality_of (byte_at l 4)) (negb (byte_at l 5 =? 0)) (to_i32 (byte_at l 6)) (negb (byte_at l 7 =? 0)).

Definition anchor_fits (a : clock_anchor) : Prop :=
  in_signed 64 (epoch_ms a) /\ in_signed 64 (anchor_uptime_ms a) /\ in_i32 (skew_ppb a).

Inductive reader :=
  | Trying (left : nat)
  | Copying (left : nat) (before : Z) (got : list (option Z))
  | Done (out : option clock_anchor).

Record seqlock := Seqlock {
  sq : Z;
  cells : list Z;
  writer : option clock_anchor;
  rd : reader;
}.
Definition set_sq (v : Z) (r : seqlock) : seqlock :=
Seqlock v (cells r) (writer r) (rd r).
Definition set_cells (v : list Z) (r : seqlock) : seqlock :=
Seqlock (sq r) v (writer r) (rd r).
Definition set_writer (v : option clock_anchor) (r : seqlock) : seqlock :=
Seqlock (sq r) (cells r) v (rd r).
Definition set_rd (v : reader) (r : seqlock) : seqlock :=
Seqlock (sq r) (cells r) (writer r) v.

Inductive seq_label :=
  | WBegin (next : clock_anchor) | WStore (i : nat) | WPublish
  | RBegin | RLoad (i : nat) | REnd.

Definition checked (a : clock_anchor) : option clock_anchor := if valid a then Some a else None.

Definition write_step (l : seq_label) (s : seqlock) : option seqlock :=
  match l, writer s with
  | WBegin a, None => Some (set_writer (Some a) (set_sq (u32 (sq s + 1)) s))
  | WStore i, Some a => match anchor_words a !! i with Some w => Some (set_cells (<[i := w]> (cells s)) s) | None => None end
  | WPublish, Some a =>
      if bool_decide (cells s = anchor_words a) then Some (set_writer None (set_sq (u32 (sq s + 1)) s)) else None
  | _, _ => None
  end.

Definition read_step (l : seq_label) (s : seqlock) : option seqlock :=
  match l, rd s with
  | RBegin, Trying O => Some (set_rd (Done None) s)
  | RBegin, Trying (S n) =>
      Some (set_rd (if negb (Z.land (sq s) 1 =? 0) then Trying n else Copying n (sq s) (replicate 8 None)) s)
  | RLoad i, Copying n b got =>
      match cells s !! i with Some w => Some (set_rd (Copying n b (<[i := Some w]> got)) s) | None => None end
  | REnd, Copying n b got =>
      match mapM id got with
      | Some ws => Some (set_rd (if sq s =? b then Done (checked (words_anchor ws)) else Trying n) s)
      | None => None
      end
  | _, _ => None
  end.

Definition seq_step (l : seq_label) (s : seqlock) : option seqlock :=
  match l with WBegin _ | WStore _ | WPublish => write_step l s | _ => read_step l s end.
Definition seq_run (ls : list seq_label) (s : seqlock) : option seqlock :=
  foldl (fun o l => o ≫= seq_step l) (Some s) ls.

(** A reader about to start, on a clock nobody is writing. *)
Definition seq_start (c : clock) : seqlock :=
  Seqlock (anchor_seq c) (anchor_words (anchor c)) None (Trying MESHTASTIC_CLOCK_READ_RETRIES).

Definition undisturbed : list seq_label := RBegin :: (RLoad <$> seq 0 8) ++ [REnd].

Lemma to_signed_small w z : 0 < w -> in_signed w z -> to_signed w z = z.
Proof.
  intros Hw Hz. rewrite <- (to_signed_wrap w z) at 2 by done. unfold to_signed, wrap. by rewrite Zmod_mod.
Qed.

Lemma halves_back z : in_signed 64 z -> of_halves (lo32 z) (hi32 z) = z.
Proof.
  intros Hz. unfold of_halves, lo32, hi32. unfold wrap, in_signed in *. cbn in Hz.
  assert (z mod 2 ^ 32 + (z / 2 ^ 32) mod 2 ^ 32 * 2 ^ 32 = wrap 64 z) as ->.
  { unfold wrap. rewrite (Z.mul_comm _ (2 ^ 32)). change (2 ^ 64) with (2 ^ 32 * 2 ^ 32).
    rewrite Z.rem_mul_r by lia. lia. }
  apply to_signed_wrap; [lia|]. unfold in_signed. lia.
Qed.

Lemma words_back a : anchor_fits a -> words_anchor (anchor_words a) = a.
Proof.
  intros (He & Hu & Hs). destruct a as [e u q v p w]; cbn in *. unfold words_anchor, byte_at; cbn.
  rewrite !halves_back by done. rewrite to_i32_signed, to_signed_wrap by (done || lia).
  by destruct q, v, w.
Qed.

Lemma seq_run_snoc ls l s : seq_run (ls ++ [l]) s = seq_run ls s ≫= seq_step l.
Proof. unfold seq_run. by rewrite foldl_app. Qed.

(** Increments of the sequence, and writes begun. *)
Definition incs (ls : list seq_label) : nat :=
  length (List.filter (fun l => match l with WBegin _ | WPublish => true | _ => false end) ls).
Definition writes (ls : list seq_label) : list clock_anchor :=
  omap (fun l => match l with WBegin a => Some a | _ => None end) ls.

Lemma incs_snoc ls l : incs (ls ++ [l]) = (incs ls + match l with WBegin _ | WPublish => 1 | _ => 0 end)%nat.
Proof. unfold incs. rewrite List.filter_app, length_app. by destruct l. Qed.
Lemma writes_snoc ls l : writes (ls ++ [l]) = writes ls ++ match l with WBegin a => [a] | _ => [] end.
Proof. unfold writes. rewrite omap_app. by destruct l. Qed.

(** The anchor that was in memory, whole, at some moment of the run. *)
Definition published_in (c : clock) (ls : list seq_label) (a : clock_anchor) (ls1 ls2 : list seq_label) : Prop :=
  ls = ls1 ++ ls2 /\ a ∈ anchor c :: writes ls1 /\
  exists s1, seq_run ls1 (seq_start c) = Some s1 /\ writer s1 = None /\ cells s1 = anchor_words a.

Definition reader_ok (c : clock) (ls : list seq_label) (s : seqlock) : Prop :=
  match rd s with
  | Copying n b got => length got = 8%nat /\
      exists a ls1 ls2, published_in c ls a ls1 ls2 /\ b = u32 (anchor_seq c + Z.of_nat (incs ls1)) /\
        (incs ls = incs ls1 -> writer s = None /\ cells s = anchor_words a /\
           forall i w, got !! i = Some (Some w) -> anchor_words a !! i = Some w)
  | Done (Some a) => valid a = true /\ exists ls1 ls2, published_in c ls a ls1 ls2
  | _ => True
  end.

Record seq_inv (c : clock) (ls : list seq_label) (s : seqlock) : Prop := {
  si_seq : sq s = u32 (anchor_seq c + Z.of_nat (incs ls));
  si_count : (incs ls + match writer s with None => 0 | Some _ => 1 end = 2 * length (writes ls))%nat;
  si_len : length (cells s) = 8%nat;
  si_writer : forall a, writer s = Some a -> a ∈ writes ls;
  si_quiet : writer s = None -> exists a, a ∈ anchor c :: writes ls /\ cells s = anchor_words a;
  si_reader : reader_ok c ls s;
}.

Lemma published_later c ls l a ls1 ls2 : published_in c ls a ls1 ls2 -> published_in c (ls ++ [l]) a ls1 (ls2 ++ [l]).
Proof. intros (-> & Ha & Hs). split; [by rewrite app_assoc|]. done. Qed.

Lemma incs_le ls1 ls2 : (incs ls1 <= incs (ls1 ++ ls2))%nat.
Proof. unfold incs. rewrite List.filter_app, length_app. lia. Qed.

Lemma published_incs c ls a ls1 ls2 : published_in c ls a ls1 ls2 -> (incs ls1 <= incs ls)%nat.
Proof. intros (-> & _). apply incs_le. Qed.

Lemma odd_land z : Z.land z 1 = z mod 2.
Proof. change 1 with (Z.ones 1). rewrite Z.land_ones by lia. done. Qed.

Lemma u32_parity z : Z.land (u32 z) 1 = z mod 2.
Proof. rewrite odd_land. unfold wrap. apply Z.mod_mod_divide. by exists (2 ^ 31). Qed.

Lemma mapM_id_Some (got : list (option Z)) ws : mapM id got = Some ws -> got = Some <$> ws.
Proof. intros Hm%mapM_Some. induction Hm as [|x y l k Hx _ IH]; [done|]. cbn in *. unfold id in Hx. by subst. Qed.

(** All eight words loaded from the same whole anchor. *)
Lemma whole_copy got ws (a : clock_anchor) :
  mapM id got = Some ws -> length got = 8%nat -> (forall i w, got !! i = Some (Some w) -> anchor_words a !! i = Some w) ->
  ws = anchor_words a.
Proof.
  intros ->%mapM_id_Some Hl Hw. rewrite length_fmap in Hl.
  eapply list_eq_same_length; [done|done|]. intros i x y Hi Hx Hy.
  assert (anchor_words a !! i = Some x) as He by (apply Hw; by rewrite list_lookup_fmap, Hx). congruence.
Qed.

Lemma write_cases l s s' : write_step l s = Some s' ->
  (exists a, l = WBegin a /\ writer s = None /\ s' = set_writer (Some a) (set_sq (u32 (sq s + 1)) s)) \/
  (exists a i w, l = WStore i /\ writer s = Some a /\ anchor_words a !! i = Some w /\ s' = set_cells (<[i := w]> (cells s)) s) \/
  (exists a, l = WPublish /\ writer s = Some a /\ cells s = anchor_words a /\ s' = set_writer None (set_sq (u32 (sq s + 1)) s)).
Proof.
  unfold write_step. intros Hst. destruct l, (writer s) eqn:Ew; try done.
  - left. eexists. by injection Hst as <-.
  - right. left. destruct (anchor_words _ !! i) eqn:Ei; [|done]. injection Hst as <-. by repeat eexists.
  - right. right. destruct (bool_decide _) eqn:Eb; [|done]. bools. injection Hst as <-. by repeat eexists.
Qed.

Section Torn.
Context (c : clock) (Heven : Z.land (anchor_seq c) 1 = 0).

Lemma inv_write ls l s s' : seq_inv c ls s -> write_step l s = Some s' -> seq_inv c (ls ++ [l]) s'.
Proof.
  intros [Hs Hc Hl Hw Hq Hr] Hst.
  assert (reader_ok c (ls ++ [l]) s') as Hr'.
  { assert (rd s' = rd s) as Erd by (destruct (write_cases _ _ _ Hst) as [(? & _ & _ & ->)|[(? & ? & ? & _ & _ & _ & ->)|(? & _ & _ & _ & ->)]]; done).
    unfold reader_ok in *. rewrite Erd. destruct (rd s) as [|n b got|[a|]]; try done.
    - destruct Hr as (Hg & a & ls1 & ls2 & Hp & Hb & Hsame). split; [done|].
      exists a, ls1, (ls2 ++ [l]). split; [by apply published_later|]. split; [done|].
      intros He. exfalso. pose proof (published_incs _ _ _ _ _ Hp). rewrite incs_snoc in He.
      assert (incs ls = incs ls1) as He' by lia. destruct (Hsame He') as [Hnone _].
      destruct (write_cases _ _ _ Hst) as [(? & -> & _)|[(? & ? & ? & -> & Hso & _)|(? & -> & _)]];
        [lia|congruence|lia].
    - destruct Hr as (Hv & ls1 & ls2 & Hp). split; [done|]. exists ls1, (ls2 ++ [l]). by apply published_later. }
  destruct (write_cases _ _ _ Hst) as [(a & -> & Hn & ->)|[(a & i & w & -> & Hso & Hi & ->)|(a & -> & Hso & Hcl & ->)]];
    constructor; try done; rewrite ?incs_snoc, ?writes_snoc; cbn [sq cells writer rd set_sq set_cells set_writer].
  - rewrite Hs. unfold wrap. rewrite Zplus_mod_idemp_l. f_equal. lia.
  - rewrite Hn in Hc. rewrite length_app. cbn [length]. lia.
  - intros x [= ->]. set_solver.
  - rewrite Hs. f_equal. lia.
  - rewrite app_nil_r, Hso in *. lia.
  - by rewrite length_insert.
  - rewrite app_nil_r. apply Hw.
  - intros Hn. congruence.
  - rewrite Hs. unfold wrap. rewrite Zplus_mod_idemp_l. f_equal. lia.
  - rewrite app_nil_r, Hso in *. lia.
  - intros _. exists a. rewrite app_nil_r. split; [|done]. specialize (Hw _ Hso). set_solver.
Qed.

Lemma reader_frame ls l s s' :
  (match l with WBegin _ | WStore _ | WPublish => true | _ => false end) = false -> seq_step l s = Some s' ->
  sq s' = sq s /\ cells s' = cells s /\ writer s' = writer s /\ incs (ls ++ [l]) = incs ls /\ writes (ls ++ [l]) = writes ls.
Proof.
  intros Hlab Hst. rewrite incs_snoc, writes_snoc.
  destruct l; try done; cbn in Hst; destruct (rd s) as [[]| |]; try done; repeat case_match; simplify_eq; cbn;
    rewrite app_nil_r; auto with lia.
Qed.

Lemma quiet_when_even ls s : seq_inv c ls s -> Z.land (sq s) 1 = 0 -> writer s = None.
Proof.
  intros Hi. rewrite (si_seq _ _ _ Hi), u32_parity. rewrite odd_land in Heven.
  pose proof (si_count _ _ _ Hi) as Hc. destruct (writer s); [|done].
  intros He. exfalso. apply Z.mod_divide in He, Heven; [|lia..]. destruct He as [x Hx], Heven as [y Hy]. lia.
Qed.

Lemma inv_begin ls s s' : seq_run ls (seq_start c) = Some s -> seq_inv c ls s -> seq_step RBegin s = Some s' ->
  reader_ok c (ls ++ [RBegin]) s'.
Proof.
  intros Hrun Hi Hst. cbn in Hst. unfold reader_ok. destruct (rd s) as [[|n]| |] eqn:Er; simplify_eq; [done|]. cbn.
  branches; [done|]. split; [done|].
  assert (writer s = None) as Hw by (by eapply quiet_when_even).
  destruct (si_quiet _ _ _ Hi Hw) as (a & Ha & Hc). exists a, ls, [RBegin]. split; [by repeat (split || eexists)|].
  split; [apply (si_seq _ _ _ Hi)|]. intros _. repeat split; [done..|].
  intros i w Hg. change (replicate 8 None !! i = Some (Some w)) in Hg. by apply lookup_replicate in Hg as [? _].
Qed.

Lemma inv_load ls i s s' : seq_inv c ls s -> seq_step (RLoad i) s = Some s' -> reader_ok c (ls ++ [RLoad i]) s'.
Proof.
  intros Hi Hst. pose proof (si_reader _ _ _ Hi) as Hr. cbn in Hst. unfold reader_ok in *.
  destruct (rd s) as [|n b got|]; try done. destruct (cells s !! i) as [w|] eqn:Ew; simplify_eq. cbn.
  destruct Hr as (Hg & a & ls1 & ls2 & Hp & Hb & Hsame). rewrite length_insert. split; [done|].
  exists a, ls1, (ls2 ++ [RLoad i]). split; [by apply published_later|]. split; [done|].
  rewrite incs_snoc, Nat.add_0_r. intros He. destruct (Hsame He) as (Hw & Hc & Hgot). repeat split; [done..|].
  intros j x [(<- & Hx & _)|[_ Hj]]%list_lookup_insert_Some; [|by apply Hgot]. congruence.
Qed.

Lemma inv_end ls s s' :
  Z.of_nat (length (writes ls)) < 2 ^ 31 -> Forall anchor_fits (anchor c :: writes ls) ->
  seq_inv c ls s -> seq_step REnd s = Some s' -> reader_ok c (ls ++ [REnd]) s'.
Proof.
  intros Hn Hfit Hi Hst. pose proof (si_reader _ _ _ Hi) as Hr. cbn in Hst. unfold reader_ok in *.
  destruct (rd s) as [|n b got|]; try done. destruct (mapM id got) as [ws|] eqn:Ews; simplify_eq. cbn.
  destruct Hr as (Hg & a & ls1 & ls2 & Hp & Hb & Hsame). branches; [|done].
  assert (incs ls = incs ls1) as He.
  { pose proof (published_incs _ _ _ _ _ Hp). pose proof (si_count _ _ _ Hi) as Hcnt.
    assert (u32 (anchor_seq c + Z.of_nat (incs ls)) = u32 (anchor_seq c + Z.of_nat (incs ls1))) as Heq
      by (rewrite <- (si_seq _ _ _ Hi); lia).
    unfold wrap in Heq. apply Z.cong_iff_0 in Heq. replace (_ - _) with (Z.of_nat (incs ls - incs ls1)) in Heq by lia.
    rewrite Z.mod_small in Heq by (destruct (writer s); lia). lia. }
  destruct (Hsame He) as (Hw & Hc & Hgot). rewrite (whole_copy _ _ _ Ews Hg Hgot).
  assert (anchor_fits a) as Ha.
  { destruct Hp as (-> & Ha & _). rewrite Forall_forall in Hfit. apply Hfit.
    unfold writes in *. rewrite omap_app. set_solver. }
  rewrite words_back by done. unfold checked. destruct (valid a) eqn:Ev; [|done]. split; [done|].
  exists ls1, (ls2 ++ [REnd]). by apply published_later.
Qed.

Lemma inv_run ls s :
  Z.of_nat (length (writes ls)) < 2 ^ 31 -> Forall anchor_fits (anchor c :: writes ls) -> in_u32 (anchor_seq c) ->
  seq_run ls (seq_start c) = Some s -> seq_inv c ls s.
Proof.
  intros Hn Hfit Hseq. revert s Hn Hfit. induction ls as [|l ls IH] using rev_ind; intros s Hn Hfit Hrun.
  - cbn in Hrun. injection Hrun as <-. constructor; cbn; try done.
    + rewrite Z.add_0_r. symmetry. by apply u32_small.
    + intros _. exists (anchor c). split; [set_solver|done].
  - rewrite seq_run_snoc in Hrun. destruct (seq_run ls (seq_start c)) as [s0|] eqn:Hr; [|done]. cbn in Hrun.
    assert (seq_inv c ls s0) as Hi.
    { apply IH; [|  |done]; rewrite writes_snoc in *.
      - rewrite length_app in Hn. lia.
      - inversion Hfit as [|x y Ha Hf]; subst. apply Forall_app in Hf as [Hf _]. by constructor. }
    destruct (match l with WBegin _ | WStore _ | WPublish => true | _ => false end) eqn:Hl; [by eapply inv_write; [|destruct l]|].
    destruct (reader_frame ls l s0 s Hl Hrun) as (Es & Ec & Ew & Ein & Ewr).
    assert (reader_ok c (ls ++ [l]) s) as Hrd.
    { destruct l; try done; [by eapply inv_begin|by eapply inv_load|].
      eapply inv_end; [| |done|done]; by rewrite Ewr in *. }
    destruct Hi as [H1 H2 H3 H4 H5 _]. constructor; rewrite ?Es, ?Ec, ?Ew, ?Ein, ?Ewr; done.
Qed.
End Torn.

Definition is_begin (l : seq_label) : bool := match l with RBegin => true | _ => false end.
Definition tries (ls : list seq_label) : nat := length (List.filter is_begin ls).

Lemma tries_bound ls c s : seq_run ls (seq_start c) = Some s ->
  (tries ls + match rd s with Trying n | Copying n _ _ => n | Done _ => 0 end <= 5)%nat /\
  (match rd s with Trying n | Copying n _ _ => tries ls + n <= 4 | Done _ => True end)%nat.
Proof.
  revert s. induction ls as [|l ls IH] using rev_ind; intros s Hrun.
  - injection Hrun as <-. unfold tries, seq_start, MESHTASTIC_CLOCK_READ_RETRIES. cbn. lia.
  - rewrite seq_run_snoc in Hrun. destruct (seq_run ls (seq_start c)) as [s0|]; [|done]. cbn in Hrun.
    specialize (IH s0 eq_refl). unfold tries in *. rewrite List.filter_app, length_app.
    destruct (match l with WBegin _ | WStore _ | WPublish => true | _ => false end) eqn:El.
    + assert (rd s = rd s0) as ->.
      { assert (write_step l s0 = Some s) as Hw by (by destruct l).
        destruct (write_cases _ _ _ Hw) as [(? & _ & _ & ->)|[(? & ? & ? & _ & _ & _ & ->)|(? & _ & _ & _ & ->)]]; done. }
      destruct l; try done; cbn [List.filter is_begin length]; rewrite Nat.add_0_r; exact IH.
    + destruct l; try done; cbn in Hrun; destruct (rd s0) as [[]|? ? got|]; try done;
        try destruct (cells s0 !! i); try destruct (mapM id got); try done; injection Hrun as <-;
        cbn [rd set_rd]; branches; cbn in *; lia.
Qed.

Lemma quiet_read c : Z.land (anchor_seq c) 1 = 0 -> anchor_fits (anchor c) ->
  seq_run undisturbed (seq_start c) = Some (set_rd (Done (anchor_read c)) (seq_start c)).
Proof.
  intros He Hf. unfold undisturbed, seq_run. cbn -[anchor_words]. rewrite He. cbn. rewrite !Z.eqb_refl. cbn.
  pose proof (words_back _ Hf) as Hb. unfold anchor_words in Hb. rewrite Hb. done.
Qed.

(** C23: A reader of the clock that runs against writers, however their steps interleave and
    in whatever order either side touches the words, tries at most four times before it
    gives up, and what it returns is an anchor that was in memory whole at one moment of
    the read. *)
Theorem clock_read_not_torn c ls s :
  Z.land (anchor_seq c) 1 = 0 -> in_u32 (anchor_seq c) -> Forall anchor_fits (anchor c :: writes ls) ->
  Z.of_nat (length (writes ls)) < 2 ^ 31 -> seq_run ls (seq_start c) = Some s ->
  (tries ls <= S MESHTASTIC_CLOCK_READ_RETRIES)%nat /\
  match rd s with
  | Done (Some a) => valid a = true /\ exists ls1 ls2, published_in c ls a ls1 ls2
  | _ => True
  end.
Proof.
  intros He Hu Hf Hn Hrun. split.
  - pose proof (tries_bound ls c s Hrun) as [Hb _]. unfold MESHTASTIC_CLOCK_READ_RETRIES. lia.
  - pose proof (si_reader _ _ _ (inv_run c He ls s Hn Hf Hu Hrun)) as Hr. unfold reader_ok in Hr.
    by destruct (rd s) as [| |[]].
Qed.

(** ** Which source is believed *)

Section Sources.
Context `{ClockKconfig}.

Record clock_write := ClockWrite {
  cw_now : Z; cw_epoch : Z; cw_at : Z; cw_q : meshtastic_clock_quality; cw_p : meshtastic_clock_precision }.

Definition write_clock (c : clock) (w : clock_write) : clock :=
  meshtastic_clock_set_epoch_ms_at (cw_now w) (cw_epoch w) (cw_at w) (cw_q w) (cw_p w) c.
Definition written (ws : list clock_write) : clock := foldl write_clock clock_boot ws.

(** The uptime the value is anchored at. *)
Definition cw_at' (w : clock_write) : Z := if (cw_now w <? cw_at w) || (cw_at w <? 0) then cw_now w else cw_at w.
Definition sane (w : clock_write) : bool := epoch_in_range (cw_epoch w) && (0 <? trust (cw_q w)).

Definition rate_ok (a : clock_anchor) : Prop := Z.abs (skew_ppb a) <= SKEW_MAX_PPB.
Definition anchored (w : clock_write) (a : clock_anchor) : Prop :=
  epoch_ms a = cw_epoch w /\ anchor_uptime_ms a = cw_at' w /\ quality a = cw_q w /\ valid a = true /\ rate_ok a.

Lemma ppb_fits x : Z.abs x <= SKEW_MAX_PPB -> in_i32 x.
Proof. pose proof skew_max_range. unfold SKEW_MAX_PPB, SKEW_PPB_PER_PPM, in_signed. cbn. lia. Qed.

Lemma estimate_bounded r l p : skew_estimate r l = Some p -> Z.abs p <= SKEW_MAX_PPB.
Proof.
  unfold skew_estimate. intros He. branches; [done|done|]. injection He as <-.
  assert (Z.abs (Z.quot (i64 ((r - l) * 1000000000)) l) <= SKEW_MAX_PPB) as Hb by lia.
  rewrite to_i32_signed, to_signed_small by (lia || by apply ppb_fits). done.
Qed.

Lemma feed_spec e u q p next c c' next' b : skew_feed e u q p next c = (c', next', b) ->
  rate_ok next ->
  anchor c' = anchor c /\ anchor_seq c' = anchor_seq c /\ rate_ok next' /\
  epoch_ms next' = epoch_ms next /\ anchor_uptime_ms next' = anchor_uptime_ms next /\ quality next' = quality next /\
  valid next' = valid next.
Proof.
  unfold skew_feed, rate_ok. intros Hf Hr.
  destruct (trust q <? trust QUALITY_NTP); [by simplify_eq|]. destruct (bool_decide _); [by simplify_eq|].
  destruct (skew_base_valid c); cbn in Hf; [|by simplify_eq].
  destruct (skew_estimate _ _) as [x|] eqn:Ex; simplify_eq; [|done]. cbn. repeat split; try done. by eapply estimate_bounded.
Qed.

Definition wf (c : clock) : Prop := Z.land (anchor_seq c) 1 = 0 /\ in_u32 (anchor_seq c) /\ rate_ok (anchor c).

Lemma seq_even x : Z.land x 1 = 0 -> Z.land (u32 (x + 2)) 1 = 0.
Proof.
  rewrite u32_parity, odd_land. intros Hx. apply Z.mod_divide in Hx; [|lia]. destruct Hx as [y ->].
  apply Z.mod_divide; [lia|]. exists (y + 1). lia.
Qed.

Lemma write_taken w c :
  wf c -> epoch_in_range (cw_epoch w) = true -> clock_should_set (cw_q w) (cw_now w) (anchor c) = true ->
  wf (write_clock c w) /\ anchored w (anchor (write_clock c w)).
Proof.
  intros (Hs & Hu & Hr) Hi Hset. unfold write_clock, meshtastic_clock_set_epoch_ms_at, clock_set. rewrite Hi, Hset. cbn [negb].
  fold (cw_at' w). set (next := ClockAnchor _ _ _ _ _ _).
  assert (rate_ok next) as Hn by done.
  destruct clock_skew.
  - destruct (skew_feed _ _ _ _ _ _) as [[c' next'] b] eqn:Ef.
    destruct (feed_spec _ _ _ _ _ _ _ _ _ Ef Hn) as (Ea & Esq & Hr' & E1 & E2 & E3 & E4).
    unfold anchor_write, wf, anchored; cbn. rewrite Esq, E1, E2, E3, E4. repeat split; try done; [by apply seq_even|apply u32_range..].
  - unfold anchor_write, wf, anchored; cbn. repeat split; try done; [by apply seq_even|apply u32_range..].
Qed.

Lemma write_refused w c :
  epoch_in_range (cw_epoch w) = false \/ clock_should_set (cw_q w) (cw_now w) (anchor c) = false -> write_clock c w = c.
Proof.
  intros Hor. unfold write_clock, meshtastic_clock_set_epoch_ms_at, clock_set.
  destruct (epoch_in_range (cw_epoch w)); cbn; [|done]. destruct Hor as [?| ->]; done.
Qed.

(** A later write that leaves [w]'s anchor in place. *)
Definition gives_way (w w' : clock_write) : Prop :=
  sane w' = true ->
  trust (cw_q w') <= trust (cw_q w) /\ cw_q w' <> QUALITY_GPS /\
  (cw_q w' = QUALITY_NTP -> cw_now w' - cw_at' w < MESHTASTIC_CLOCK_NTP_REAPPLY_MS).

Definition believes (ws : list clock_write) (c : clock) : Prop :=
  (Forall (fun w => sane w = false) ws /\ c = clock_boot) \/
  exists pre w post, ws = pre ++ w :: post /\ sane w = true /\ anchored w (anchor c) /\
    Forall (fun w' => sane w' = true -> trust (cw_q w') <= trust (cw_q w) \/ cw_q w = QUALITY_NTP) pre /\
    Forall (gives_way w) post.

Lemma boot_wf : wf clock_boot.
Proof. pose proof skew_max_range. unfold wf, rate_ok, SKEW_MAX_PPB, SKEW_PPB_PER_PPM, in_u32, UINT32_MAX. cbn. repeat split; lia. Qed.

Lemma should_set_spec q now a :
  clock_should_set q now a = false <->
  trust q <= trust (quality a) /\ q <> QUALITY_GPS /\
  (q = QUALITY_NTP -> now - anchor_uptime_ms a < MESHTASTIC_CLOCK_NTP_REAPPLY_MS).
Proof.
  unfold clock_should_set. destruct (trust (quality a) <? trust q) eqn:E1; bools; [split; [done|lia]|].
  destruct (bool_decide (q = QUALITY_GPS)) eqn:E2; bools; [split; [done|naive_solver]|].
  destruct (bool_decide (q = QUALITY_NTP)) eqn:E3; bools; cbn; [|naive_solver].
  rewrite Z.leb_gt. naive_solver lia.
Qed.

Lemma written_snoc ws w : written (ws ++ [w]) = write_clock (written ws) w.
Proof. unfold written. by rewrite foldl_app. Qed.

Lemma untrusted_refused w c : sane w = false -> write_clock c w = c.
Proof.
  unfold sane. intros [Hs|Hs]%andb_false_iff; apply write_refused; [by left|right].
  bools. apply should_set_spec. destruct (cw_q w); cbn in *; try lia.
  repeat split; try done. by destruct (quality _); cbn.
Qed.

Lemma written_wf ws : wf (written ws) /\ believes ws (written ws).
Proof.
  induction ws as [|w ws [Hwf Hb]] using rev_ind; [split; [apply boot_wf|by left]|]. rewrite written_snoc.
  destruct (sane w) eqn:Es.
  2:{ rewrite untrusted_refused by done. split; [done|].
      destruct Hb as [[Hf Hc]|(pre & w0 & post & -> & Hs & Ha & Hp & Hq)]; [left|right].
      - split; [|done]. apply Forall_app; auto.
      - exists pre, w0, (post ++ [w]). rewrite <- app_assoc. cbn. do 4 (split; [done|]). apply Forall_app. split; [done|].
        constructor; [|done]. intros ?. congruence. }
  assert (epoch_in_range (cw_epoch w) = true) as Hi by (by apply andb_true_iff in Es as [? _]).
  destruct (clock_should_set (cw_q w) (cw_now w) (anchor (written ws))) eqn:Eset.
  - destruct (write_taken w _ Hwf Hi Eset) as [Hwf' Ha']. split; [done|]. right. exists ws, w, []. do 3 (split; [done|]). split; [|done].
    destruct Hb as [[Hf Hc]|(pre & w0 & post & -> & Hs & Ha & Hp & Hq)].
    + eapply Forall_impl; [exact Hf|]. cbn. congruence.
    + assert (trust (cw_q w0) <= trust (cw_q w) \/ cw_q w = QUALITY_NTP) as Hle.
      { destruct Ha as (_ & _ & Eq & _). unfold clock_should_set in Eset. rewrite Eq in Eset.
        destruct (_ <? _) eqn:E1; bools; [lia|]. destruct (bool_decide (cw_q w = _)) eqn:E2; bools.
        - left. rewrite E2. destruct (cw_q w0); cbn; lia.
        - by right. }
      apply Forall_app; split; [|constructor].
      * eapply Forall_impl; [exact Hp|]. cbn. intros x Hx Hsx. destruct Hle as [Hle|Hle]; [|by right].
        destruct (Hx Hsx) as [?|En]; [lia|]. rewrite En in Hle. destruct (cw_q w), (cw_q x); cbn in *; auto; lia.
      * tauto.
      * eapply Forall_impl; [exact Hq|]. cbn. intros x Hx Hsx. destruct Hle as [Hle|Hle]; [|by right].
        destruct (Hx Hsx). lia.
  - rewrite write_refused by auto. split; [done|]. right. apply should_set_spec in Eset as (Ht & Hg & Hn).
    destruct Hb as [[Hf Hc]|(pre & w0 & post & -> & Hs & Ha & Hp & Hq)].
    + exfalso. rewrite Hc in Ht. unfold sane in Es. bools. cbn in Ht. lia.
    + exists pre, w0, (post ++ [w]). rewrite <- app_assoc. cbn. do 4 (split; [done|]). apply Forall_app. split; [done|].
      constructor; [|done]. intros _. destruct Ha as (_ & Eu & Eq & _). by rewrite <- Eq, <- Eu.
Qed.

(** ** What is read *)

Lemma read_wf c : wf c -> anchor_read c = checked (anchor c).
Proof.
  intros (He & _). unfold anchor_read, MESHTASTIC_CLOCK_READ_RETRIES. cbn. rewrite He. cbn. by rewrite Z.eqb_refl.
Qed.

(** Moving a numerator by [d] wholes moves a truncated quotient by no more than [d]. *)
Lemma quot_step a b d n : 0 < n -> 0 <= d -> b <= a <= b + d * n -> Z.quot b n <= Z.quot a n <= Z.quot b n + d.
Proof.
  intros Hn Hd Hab. split; [by apply Z.quot_le_mono; lia|].
  assert (Z.quot (b + d * n) n <= Z.quot b n + d) as Hs; [|etrans; [apply Z.quot_le_mono; [done|apply Hab]|done]].
  destruct (Z_lt_le_dec (b + d * n) 0) as [Hneg|Hpos].
  - rewrite Z.quot_add by nia. lia.
  - destruct (Z_lt_le_dec b 0) as [Hb|Hb].
    + rewrite (Z.quot_div_nonneg (b + d * n)) by lia. rewrite Z.div_add by lia.
      replace (Z.quot b n) with (- ((- b) / n)).
      * pose proof (Z.div_mod b n). pose proof (Z.mod_pos_bound b n). pose proof (Z.div_mod (- b) n).
        pose proof (Z.mod_pos_bound (- b) n). nia.
      * rewrite <- (Z.opp_involutive b) at 2. rewrite Z.quot_opp_l by lia. by rewrite (Z.quot_div_nonneg (- b)) by lia.
    + rewrite Z.quot_add by nia. lia.
Qed.

(** Twenty-eight years of uptime. *)
Definition UPTIME_MAX : Z := 900000000000.

Definition ran_on (a : clock_anchor) (t : Z) : Prop := 0 <= t - anchor_uptime_ms a <= UPTIME_MAX.

Lemma reading_exact a t : rate_ok a -> ran_on a t ->
  epoch_ms_at_uptime a t =
  epoch_ms a + (t - anchor_uptime_ms a) +
  (if clock_skew then Z.quot ((t - anchor_uptime_ms a) * skew_ppb a) 1000000000 else 0).
Proof.
  unfold epoch_ms_at_uptime, ran_on, rate_ok, SKEW_MAX_PPB, SKEW_PPB_PER_PPM, UPTIME_MAX. intros Hr Ht.
  pose proof skew_max_range. destruct clock_skew; [|lia].
  rewrite to_signed_small; [done|lia|]. unfold in_signed. cbn. nia.
Qed.

(** Between two syncs a later reading is not smaller, and it advances at the rate of the
    uptime, within the plausible rate error and one millisecond. *)
Lemma reading_rate a t1 t2 : rate_ok a -> ran_on a t1 -> ran_on a t2 -> t1 <= t2 ->
  epoch_ms_at_uptime a t1 <= epoch_ms_at_uptime a t2 /\
  Z.abs ((epoch_ms_at_uptime a t2 - epoch_ms_at_uptime a t1) - (t2 - t1)) * 1000000000 <= (t2 - t1) * SKEW_MAX_PPB + 1000000000.
Proof.
  intros Hr H1 H2 Ht. rewrite !reading_exact by done. unfold rate_ok in Hr. pose proof skew_max_range as Hm.
  assert (SKEW_MAX_PPB <= 10000000) as Hs by (unfold SKEW_MAX_PPB, SKEW_PPB_PER_PPM; lia).
  destruct clock_skew; [|unfold SKEW_MAX_PPB, SKEW_PPB_PER_PPM in *; nia].
  set (p := skew_ppb a) in *. set (x := t1 - anchor_uptime_ms a). set (y := t2 - anchor_uptime_ms a).
  assert (0 <= x <= y) as Hxy by (unfold x, y, ran_on in *; lia). replace (t2 - t1) with (y - x) by (unfold x, y; lia).
  pose proof (Z.quot_rem' (x * p) 1000000000) as Ex. pose proof (Z.quot_rem' (y * p) 1000000000) as Ey.
  assert (Z.abs (Z.rem (x * p) 1000000000) < 1000000000) as Rx by (apply Z.rem_bound_abs; lia).
  assert (Z.abs (Z.rem (y * p) 1000000000) < 1000000000) as Ry by (apply Z.rem_bound_abs; lia).
  assert (Z.abs (y * p - x * p) <= (y - x) * SKEW_MAX_PPB) as Hd by nia.
  destruct (Z_lt_le_dec p 0) as [Hp|Hp].
  - pose proof (quot_step (x * p) (y * p) (y - x) 1000000000 ltac:(lia) ltac:(lia) ltac:(nia)) as Hq.
    assert (Z.rem (x * p) 1000000000 <= 0) by (apply Z.rem_nonpos; nia).
    assert (Z.rem (y * p) 1000000000 <= 0) by (apply Z.rem_nonpos; nia). split; [lia|nia].
  - assert (Z.quot (x * p) 1000000000 <= Z.quot (y * p) 1000000000) as Hq by (apply Z.quot_le_mono; nia).
    assert (0 <= Z.rem (x * p) 1000000000) by (apply Z.rem_nonneg; nia).
    assert (0 <= Z.rem (y * p) 1000000000) by (apply Z.rem_nonneg; nia). split; [lia|nia].
Qed.

(** C10: Whatever sources write the clock and in whatever order, the time it gives comes from
    one accepted write: nothing before it was more trusted unless it is an NTP-class
    source, and everything after it was less trusted, or NTP-class within thirty minutes.
    From the instant that write named, where the clock gives exactly its value, the clock
    never runs backwards and keeps the uptime's rate within the plausible error; before
    any such write it says that it is not set. *)
Theorem clock_follows_best_source ws :
  (Forall (fun w => sane w = false) ws /\ forall t, meshtastic_clock_now_epoch_ms t (written ws) = 0) \/
  exists pre w post, ws = pre ++ w :: post /\ sane w = true /\ meshtastic_clock_get_quality (written ws) = cw_q w /\
    Forall (fun w' => sane w' = true -> trust (cw_q w') <= trust (cw_q w) \/ cw_q w = QUALITY_NTP) pre /\
    Forall (gives_way w) post /\
    meshtastic_clock_now_epoch_ms (cw_at' w) (written ws) = cw_epoch w /\
    forall t1 t2, cw_at' w <= t1 <= t2 -> t2 <= cw_at' w + UPTIME_MAX ->
      let r1 := meshtastic_clock_now_epoch_ms t1 (written ws) in
      let r2 := meshtastic_clock_now_epoch_ms t2 (written ws) in
      r1 <= r2 /\ Z.abs ((r2 - r1) - (t2 - t1)) * 1000000000 <= (t2 - t1) * SKEW_MAX_PPB + 1000000000.
Proof.
  destruct (written_wf ws) as [Hwf [[Hf ->]|(pre & w & post & E & Hs & Ha & Hp & Hq)]].
  - left. split; [done|]. intros t. unfold meshtastic_clock_now_epoch_ms. by rewrite read_wf by apply boot_wf.
  - right. exists pre, w, post. destruct Ha as (E1 & E2 & E3 & E4 & E5).
    unfold meshtastic_clock_now_epoch_ms, meshtastic_clock_get_quality. rewrite read_wf by done. unfold checked. rewrite E4.
    do 5 (split; [done|]). split.
    + rewrite reading_exact by (done || unfold ran_on, UPTIME_MAX; lia). rewrite E1, E2, Z.sub_diag, Z.mul_0_l, Z.quot_0_l by lia. destruct clock_skew; lia.
    + intros t1 t2 H1 H2. apply reading_rate; [done|unfold ran_on; rewrite E2; lia..|lia].
Qed.

(** ** Across a reset *)

Definition sealed (b : persist_body) : saved_record :=
  Saved PERSIST_MAGIC PERSIST_VERSION 16 (meshtastic_retained_sum (body_bytes b)) b.
Definition body_of (e t : Z) (q : meshtastic_clock_quality) : persist_body := PersistBody e t (u16 (trust q)) 0.

Lemma save_whole e t q s : run_stores (save_stores e t q) s = sealed (body_of e t q).
Proof. by destruct s as [? ? ? ? [? ? ? ?]]. Qed.

Lemma sealed_valid b : saved_valid (sealed b) = true.
Proof. unfold saved_valid, meshtastic_retained_valid, sealed. cbn -[meshtastic_retained_sum]. by rewrite Z.eqb_refl. Qed.

(** A reset in the middle of a save leaves the old record, no record or the new one. *)
Lemma save_torn k e t q s :
  run_stores (take k (save_stores e t q)) s = s \/ saved_valid (run_stores (take k (save_stores e t q)) s) = false \/
  run_stores (take k (save_stores e t q)) s = sealed (body_of e t q).
Proof.
  destruct (le_lt_dec 11 k) as [Hk|Hk].
  - right; right. rewrite take_ge by done. apply save_whole.
  - destruct k as [|k]; [by left|]. right; left. unfold saved_valid, meshtastic_retained_valid.
    assert (forall m, sl_magic (run_stores (take m (tail (save_stores e t q))) (set_sl_magic 0 s)) = 0 \/ (10 <= m)%nat) as Hm.
    { intros m. do 10 (destruct m as [|m]; [by left|]). right. lia. }
    destruct (Hm k) as [Hz|?]; [|lia].
    change (run_stores (take (S k) (save_stores e t q)) s) with (run_stores (take k (tail (save_stores e t q))) (set_sl_magic 0 s)).
    by rewrite Hz.
Qed.

Lemma apply_boot now d s :
  (persist_apply now d s clock_boot).1.1 = PERSIST_RESTORED -> epoch_in_range (pb_epoch_ms (sv_b s) + d) = true ->
  meshtastic_clock_now_epoch_ms now (persist_apply now d s clock_boot).2 = pb_epoch_ms (sv_b s) + d /\
  meshtastic_clock_get_quality (persist_apply now d s clock_boot).2 = QUALITY_DEVICE.
Proof.
  unfold persist_apply. branches; cbn [fst snd]; [done|]. intros _ Hin.
  set (w := ClockWrite now (pb_epoch_ms (sv_b s) + d) now QUALITY_DEVICE PRECISION_SUBSECOND).
  assert (cw_at' w = now) as Eat by (unfold cw_at'; cbn; branches; lia).
  destruct (write_taken w clock_boot boot_wf Hin eq_refl) as [Hwf (E1 & E2 & E3 & E4 & E5)].
  change (meshtastic_clock_set_epoch_ms _ _ _ _ _) with (write_clock clock_boot w).
  unfold meshtastic_clock_now_epoch_ms, meshtastic_clock_get_quality. rewrite read_wf by done. unfold checked. rewrite E4.
  rewrite Eat in E2. split; [|done]. rewrite reading_exact by (done || unfold ran_on, UPTIME_MAX; lia).
  rewrite E1, E2, Z.sub_diag, Z.mul_0_l, Z.quot_0_l by lia. cbn [w cw_epoch]. destruct clock_skew; lia.
Qed.

(** The clock after a restart with [n] ticks of the counter gone since the save. *)
Definition carried (e n freq now : Z) (c : clock) : Prop :=
  meshtastic_clock_now_epoch_ms now c = e + n * 1000 / freq /\ meshtastic_clock_get_quality c = QUALITY_DEVICE.

Lemma restore_carries e t q n freq now :
  0 <= n < 2 ^ 32 -> 0 < freq -> n * 1000 / freq <= persist_max_downtime_s * 1000 -> epoch_in_range (e + n * 1000 / freq) = true ->
  (persist_restore true (Some (u32 (t + n), freq)) now (sealed (body_of e t q)) clock_boot).1.1 = PERSIST_RESTORED /\
  carried e n freq now (persist_restore true (Some (u32 (t + n), freq)) now (sealed (body_of e t q)) clock_boot).2.
Proof.
  intros Hn Hf Hd Hin. unfold persist_restore. rewrite sealed_valid. cbn [negb].
  assert ((freq =? 0) = false) as -> by lia. cbn [sealed body_of sv_b pb_counter_ticks].
  assert (u32 (u32 (t + n) - t) = n) as ->.
  { unfold wrap. rewrite Zminus_mod_idemp_l. replace (t + n - t) with n by lia. by apply Z.mod_small. }
  assert ((persist_apply now (n * 1000 / freq) (sealed (body_of e t q)) clock_boot).1.1 = PERSIST_RESTORED) as Hr.
  { unfold persist_apply. branches; [lia|done]. }
  split; [done|]. by apply apply_boot.
Qed.

(** C31: The time survives a warm reset. After a save that completed, a reset during a later
    save, at whatever store it falls, leaves a record from which the next boot sets exactly
    the time of the one save or of the other, moved on by what the counter has run since, at
    the trust of an onboard clock, or none; and if no later save had begun, it sets it. *)
Theorem time_survives_reset u1 t1 c1 s0 u2 t2 c2 k ticks freq now :
  let e1 := meshtastic_clock_now_epoch_ms u1 c1 in
  let e2 := meshtastic_clock_now_epoch_ms u2 c2 in
  let s1 := persist_save u1 (Some t1) c1 s0 in
  let s2 := run_stores (take k (persist_save_stores u2 (Some t2) c2)) s1 in
  let c3 := (persist_restore true (Some (ticks, freq)) now s2 clock_boot).2 in
  let n1 := u32 (ticks - t1) in
  let n2 := u32 (ticks - t2) in
  meshtastic_clock_valid c1 = true -> 0 < e1 -> in_u32 ticks -> 0 < freq ->
  (c3 = clock_boot \/ carried e1 n1 freq now c3 \/ carried e2 n2 freq now c3) /\
  (k = 0%nat -> n1 * 1000 / freq <= persist_max_downtime_s * 1000 -> epoch_in_range (e1 + n1 * 1000 / freq) = true ->
   carried e1 n1 freq now c3).
Proof.
  intros e1 e2 s1 s2 c3 n1 n2 Hv He Ht Hf.
  set (d1 := body_of e1 t1 (meshtastic_clock_get_quality c1)).
  assert (s1 = sealed d1) as Es1.
  { unfold s1, persist_save, persist_save_stores. rewrite Hv. fold e1. assert ((e1 <=? 0) = false) as -> by lia. apply save_whole. }
  assert (forall t, u32 (t + u32 (ticks - t)) = ticks) as Hback.
  { intros t. unfold wrap. rewrite Zplus_mod_idemp_r. replace (t + (ticks - t)) with ticks by lia. by apply u32_small. }
  assert (forall e t q, let c := (persist_restore true (Some (ticks, freq)) now (sealed (body_of e t q)) clock_boot).2 in
    c = clock_boot \/ carried e (u32 (ticks - t)) freq now c) as Hone.
  { intros e t q. cbn zeta.
    destruct (Z_lt_le_dec (persist_max_downtime_s * 1000) (u32 (ticks - t) * 1000 / freq)) as [Hb|Hb];
      [|destruct (epoch_in_range (e + u32 (ticks - t) * 1000 / freq)) eqn:Ei].
    - left. unfold persist_restore. rewrite sealed_valid. cbn [negb]. assert ((freq =? 0) = false) as -> by lia.
      unfold persist_apply. cbn [sealed body_of sv_b pb_counter_ticks]. by assert ((_ <? _) = true) as -> by (apply Z.ltb_lt; exact Hb).
    - right. pose proof (restore_carries e t q (u32 (ticks - t)) freq now) as Hc. rewrite Hback in Hc.
      apply Hc; [apply wrap_range; lia|done..].
    - left. unfold persist_restore. rewrite sealed_valid. cbn [negb]. assert ((freq =? 0) = false) as -> by lia.
      unfold persist_apply. cbn [sealed body_of sv_b pb_counter_ticks pb_epoch_ms]. branches; [done|]. cbn [snd].
      unfold meshtastic_clock_set_epoch_ms, meshtastic_clock_set_epoch_ms_at, clock_set. by rewrite Ei. }
  split.
  - unfold c3, s2, persist_save_stores. rewrite Es1.
    destruct (meshtastic_clock_valid c2); [|rewrite take_nil; unfold d1; cbn -[persist_restore]; destruct (Hone e1 t1 (meshtastic_clock_get_quality c1)); auto].
    fold e2. destruct (e2 <=? 0); [rewrite take_nil; destruct (Hone e1 t1 (meshtastic_clock_get_quality c1)); auto|].
    destruct (save_torn k e2 t2 (meshtastic_clock_get_quality c2) (sealed d1)) as [-> |[Hi| ->]].
    + destruct (Hone e1 t1 (meshtastic_clock_get_quality c1)); auto.
    + left. unfold persist_restore. by rewrite Hi.
    + destruct (Hone e2 t2 (meshtastic_clock_get_quality c2)); auto.
  - intros -> Hd Hin. unfold c3, s2. cbn [take]. cbn [run_stores foldl]. rewrite Es1.
    pose proof (restore_carries e1 t1 (meshtastic_clock_get_quality c1) n1 freq now) as Hc. unfold n1 in Hc. rewrite Hback in Hc.
    apply Hc; [apply wrap_range; lia|done..].
Qed.

End Sources.

(** ** Examples *)

#[global] Program Instance clock_defaults : ClockKconfig := {|
  clock_skew := true; skew_max_ppm := 100; skew_min_window_s := 3600; persist_max_downtime_s := 300 |}.
Next Obligation. lia. Qed.
Next Obligation. lia. Qed.
Next Obligation. lia. Qed.

Definition anchor_a : clock_anchor := ClockAnchor 1700000000000 5000 QUALITY_NTP true (-2000) true.
Definition anchor_b : clock_anchor := ClockAnchor 1700000900123 905000 QUALITY_GPS true (-2000) true.
Definition clock_a : clock := Clock anchor_a 6 0 0 0 false.

(** A reader overtaken by a writer, which then starts over. *)
Definition overtaken : list seq_label :=
  [RBegin; RLoad 0; RLoad 7; WBegin anchor_b] ++ (WStore <$> [4; 0; 1; 2; 3]%nat) ++ (RLoad <$> seq 1 6) ++ [REnd; RBegin] ++
  (WStore <$> [5; 6; 7]%nat) ++ [WPublish] ++ undisturbed.

Lemma clock_read_not_torn_witness :
  (exists s, seq_run overtaken (seq_start clock_a) = Some s /\ rd s = Done (Some anchor_b)) /\
  exists ls1 ls2, published_in clock_a overtaken anchor_b ls1 ls2.
Proof.
  split; [eexists; split; vm_compute; reflexivity|].
  destruct (clock_read_not_torn clock_a overtaken
    (default (seq_start clock_a) (seq_run overtaken (seq_start clock_a)))) as [_ Hr].
  - reflexivity.
  - unfold in_u32, UINT32_MAX; cbn; lia.
  - repeat constructor; vm_compute; discriminate.
  - vm_compute. reflexivity.
  - vm_compute. reflexivity.
  - assert (rd (default (seq_start clock_a) (seq_run overtaken (seq_start clock_a))) = Done (Some anchor_b)) as E
      by (vm_compute; reflexivity).
    rewrite E in Hr. destruct Hr as [_ Hr]. exact Hr.
Defined.

Definition one_ntp : clock := written [ClockWrite 5000 1700000000000 5000 QUALITY_NTP PRECISION_SUBSECOND].
Definition two_ntp : clock :=
  written [ClockWrite 5000 1700000000000 5000 QUALITY_NTP PRECISION_SUBSECOND;
           ClockWrite 6000 1700000001234 6000 QUALITY_GPS PRECISION_SUBSECOND].

Definition blank_record : saved_record := Saved 0 0 0 0 (PersistBody 0 0 0 0).

Lemma time_survives_reset_witness :
  let s1 := persist_save 6000 (Some 4294967000) one_ntp blank_record in
  let s2 := run_stores (take 0 (persist_save_stores 9000 (Some 1000) two_ntp)) s1 in
  carried 1700000001000 136296 136000 10 (persist_restore true (Some (136000, 136000)) 10 s2 clock_boot).2.
Proof.
  destruct (time_survives_reset 6000 4294967000 one_ntp blank_record 9000 1000 two_ntp 0 136000 136000 10) as [_ Hk].
  - vm_compute. reflexivity.
  - vm_compute. reflexivity.
  - unfold in_u32, UINT32_MAX. lia.
  - lia.
  - apply Hk; [reflexivity|vm_compute; discriminate|vm_compute; reflexivity].
Defined.

(** The header says that a less trusted source never overwrites what a better one set; half
    an hour after the last fix, SNTP or a phone does, and the clock is then NTP-class. *)
Lemma ntp_overrides_gps :
  let c := written [ClockWrite 0 1700000000000 0 QUALITY_GPS PRECISION_SUBSECOND;
                    ClockWrite 1800000 1600000000000 1800000 QUALITY_NTP PRECISION_SECOND] in
  meshtastic_clock_get_quality c = QUALITY_NTP /\ meshtastic_clock_now_epoch_ms 1800000 c = 1600000000000.
Proof. by vm_compute. Qed.

(** Two syncs 213 days apart on the wall and an hour apart on the board are no rate, yet the
    product leaves 64 bits and comes back as one inside the plausible bound. *)
Lemma skew_overflow_accepted :
  Z.quot ((18450344381 - 3600000) * 1000000000) 3600000 > SKEW_MAX_PPB /\
  skew_estimate 18450344381 3600000 = Some 85358.
Proof. by vm_compute. Qed.
