(* ===== verification/Attachment.v ===== *)
(** * The brain's attachment table (src/src/meshtastic_attachment.c, meshtastic_attachment.h)

    The radios a node hears and sends through: its own as attachment 0 and the heads that
    speak to it in the envelopes of [AttachmentCodec]. Admission and eviction, the ingest of
    envelopes, the wanted presets, the choice of the radio a packet leaves by, and the sends
    to a head. A slot in use is [Some]; a slot given up is zeroed in the code. Every function
    takes its regions under the lock as it comes to them; what other threads do while the
    lock is free is an argument of the functions that leave it and come back. *)
From Stdlib Require Import Sorted.
From S2P Require Import Prelude Sched Contention AttachmentCodec Regions Channels.
Open Scope Z_scope.

Definition MESHTASTIC_PRESET_UNKNOWN : Z := 255.
Definition WANT_RETRY_MS : Z := 5000.
Definition ETIME : Z := 62.
Definition MESHTASTIC_ATTACHMENT_RC_CANCELLED : Z := -128.
Definition MESHTASTIC_ATTACHMENT_ST_TX_ENABLED : Z := 1.
Definition MESHTASTIC_ATTACHMENT_ST_RX_ONLY : Z := 8.
Definition MESHTASTIC_ATTACHMENT_TXF_WANT_RESULT : Z := 1.
Definition MESHTASTIC_ATTACHMENT_POL_HAS_TX_POWER : Z := 1.
Definition MESHTASTIC_PKT_MAX : Z := 255.
Definition WIRE_HEADER_LEN : Z := 16.
Definition WIRE_CHANNEL_OFF : nat := 13.
Definition INT16_MAX : Z := 32767.
Definition INT16_MIN : Z := -32768.
Definition LAG_RING : nat := 16.

Inductive attach_auth := AUTH_NONE | AUTH_PHYSICAL | AUTH_ENCRYPTED.
#[export] Instance auth_eq_dec : EqDecision attach_auth.
Proof. solve_decision. Defined.

(** A bearer is known by its address; [None] is the test seam's NULL. *)
Record head := Head {
  a_id : Z;
  a_node : Z;
  a_bearer : option Z;
  a_link_up : bool;
  a_down_ms : Z;
  a_preset : Z;
  a_status : option status;
  a_last_ms : Z;
  a_rx_frames : Z;
  a_rx_dropped : Z;
  a_tx_frames : Z;
  a_tx_results : Z;
  a_rejected : Z;
  a_last_rssi : Z;
  a_last_snr : Z;
  a_rssi_min : Z;
  a_rssi_max : Z;
  a_lat_n : Z;
  a_lat_min_ms : Z;
  a_lat_max_ms : Z;
  a_lat_sum_ms : Z;
  a_tx_seq : Z;
  a_last_tx_rc : Z;
  a_last_tx_defers : Z;
  a_tx_failed : Z;
  a_tx_cancelled : Z;
  a_tx_late : Z;
  a_lag : list Z;
  a_lag_n : nat;
  a_lag_next : nat;
  a_lag_p50_ms : Z;
  a_lag_p90_ms : Z;
  a_lag_max_ms : Z;
  a_want_asked_ms : Z;
  a_want_due : bool;
  a_warn_fast_head : bool;
  a_warn_lag : bool;
  a_warned_fast_head : bool;
  a_warned_lag : bool;
}.
Definition set_a_id (v : Z) (r : head) : head :=
Head v (a_node r) (a_bearer r) (a_link_up r) (a_down_ms r) (a_preset r) (a_status r)
    (a_last_ms r) (a_rx_frames r) (a_rx_dropped r) (a_tx_frames r) (a_tx_results r)
    (a_rejected r) (a_last_rssi r) (a_last_snr r) (a_rssi_min r) (a_rssi_max r) (a_lat_n r)
    (a_lat_min_ms r) (a_lat_max_ms r) (a_lat_sum_ms r) (a_tx_seq r) (a_last_tx_rc r)
    (a_last_tx_defers r) (a_tx_failed r) (a_tx_cancelled r) (a_tx_late r) (a_lag r) (a_lag_n
    r) (a_lag_next r) (a_lag_p50_ms r) (a_lag_p90_ms r) (a_lag_max_ms r) (a_want_asked_ms r)
    (a_want_due r) (a_warn_fast_head r) (a_warn_lag r) (a_warned_fast_head r) (a_warned_lag
    r).
Definition set_a_node (v : Z) (r : head) : head :=
Head (a_id r) v (a_bearer r) (a_link_up r) (a_down_ms r) (a_preset r) (a_status r)
    (a_last_ms r) (a_rx_frames r) (a_rx_dropped r) (a_tx_frames r) (a_tx_results r)
    (a_rejected r) (a_last_rssi r) (a_last_snr r) (a_rssi_min r) (a_rssi_max r) (a_lat_n r)
    (a_lat_min_ms r) (a_lat_max_ms r) (a_lat_sum_ms r) (a_tx_seq r) (a_last_tx_rc r)
    (a_last_tx_defers r) (a_tx_failed r) (a_tx_cancelled r) (a_tx_late r) (a_lag r) (a_lag_n
    r) (a_lag_next r) (a_lag_p50_ms r) (a_lag_p90_ms r) (a_lag_max_ms r) (a_want_asked_ms r)
    (a_want_due r) (a_warn_fast_head r) (a_warn_lag r) (a_warned_fast_head r) (a_warned_lag
    r).
Definition set_a_bearer (v : option Z) (r : head) : head :=
Head (a_id r) (a_node r) v (a_link_up r) (a_down_ms r) (a_preset r) (a_status r) (a_last_ms
    r) (a_rx_frames r) (a_rx_dropped r) (a_tx_frames r) (a_tx_results r) (a_rejected r)
    (a_last_rssi r) (a_last_snr r) (a_rssi_min r) (a_rssi_max r) (a_lat_n r) (a_lat_min_ms
    r) (a_lat_max_ms r) (a_lat_sum_ms r) (a_tx_seq r) (a_last_tx_rc r) (a_last_tx_defers r)
    (a_tx_failed r) (a_tx_cancelled r) (a_tx_late r) (a_lag r) (a_lag_n r) (a_lag_next r)
    (a_lag_p50_ms r) (a_lag_p90_ms r) (a_lag_max_ms r) (a_want_asked_ms r) (a_want_due r)
    (a_warn_fast_head r) (a_warn_lag r) (a_warned_fast_head r) (a_warned_lag r).
Definition set_a_link_up (v : bool) (r : head) : head :=
Head (a_id r) (a_node r) (a_bearer r) v (a_down_ms r) (a_preset r) (a_status r) (a_last_ms
    r) (a_rx_frames r) (a_rx_dropped r) (a_tx_frames r) (a_tx_results r) (a_rejected r)
    (a_last_rssi r) (a_last_snr r) (a_rssi_min r) (a_rssi_max r) (a_lat_n r) (a_lat_min_ms
    r) (a_lat_max_ms r) (a_lat_sum_ms r) (a_tx_seq r) (a_last_tx_rc r) (a_last_tx_defers r)
    (a_tx_failed r) (a_tx_cancelled r) (a_tx_late r) (a_lag r) (a_lag_n r) (a_lag_next r)
    (a_lag_p50_ms r) (a_lag_p90_ms r) (a_lag_max_ms r) (a_want_asked_ms r) (a_want_due r)
    (a_warn_fast_head r) (a_warn_lag r) (a_warned_fast_head r) (a_warned_lag r).
Definition set_a_down_ms (v : Z) (r : head) : head :=
Head (a_id r) (a_node r) (a_bearer r) (a_link_up r) v (a_preset r) (a_status r) (a_last_ms
    r) (a_rx_frames r) (a_rx_dropped r) (a_tx_frames r) (a_tx_results r) (a_rejected r)
    (a_last_rssi r) (a_last_snr r) (a_rssi_min r) (a_rssi_max r) (a_lat_n r) (a_lat_min_ms
    r) (a_lat_max_ms r) (a_lat_sum_ms r) (a_tx_seq r) (a_last_tx_rc r) (a_last_tx_defers r)
    (a_tx_failed r) (a_tx_cancelled r) (a_tx_late r) (a_lag r) (a_lag_n r) (a_lag_next r)
    (a_lag_p50_ms r) (a_lag_p90_ms r) (a_lag_max_ms r) (a_want_asked_ms r) (a_want_due r)
    (a_warn_fast_head r) (a_warn_lag r) (a_warned_fast_head r) (a_warned_lag r).
Definition set_a_preset (v : Z) (r : head) : head :=
Head (a_id r) (a_node r) (a_bearer r) (a_link_up r) (a_down_ms r) v (a_status r) (a_last_ms
    r) (a_rx_frames r) (a_rx_dropped r) (a_tx_frames r) (a_tx_results r) (a_rejected r)
    (a_last_rssi r) (a_last_snr r) (a_rssi_min r) (a_rssi_max r) (a_lat_n r) (a_lat_min_ms
    r) (a_lat_max_ms r) (a_lat_sum_ms r) (a_tx_seq r) (a_last_tx_rc r) (a_last_tx_defers r)
    (a_tx_failed r) (a_tx_cancelled r) (a_tx_late r) (a_lag r) (a_lag_n r) (a_lag_next r)
    (a_lag_p50_ms r) (a_lag_p90_ms r) (a_lag_max_ms r) (a_want_asked_ms r) (a_want_due r)
    (a_warn_fast_head r) (a_warn_lag r) (a_warned_fast_head r) (a_warned_lag r).
Definition set_a_status (v : option status) (r : head) : head :=
Head (a_id r) (a_node r) (a_bearer r) (a_link_up r) (a_down_ms r) (a_preset r) v (a_last_ms
    r) (a_rx_frames r) (a_rx_dropped r) (a_tx_frames r) (a_tx_results r) (a_rejected r)
    (a_last_rssi r) (a_last_snr r) (a_rssi_min r) (a_rssi_max r) (a_lat_n r) (a_lat_min_ms
    r) (a_lat_max_ms r) (a_lat_sum_ms r) (a_tx_seq r) (a_last_tx_rc r) (a_last_tx_defers r)
    (a_tx_failed r) (a_tx_cancelled r) (a_tx_late r) (a_lag r) (a_lag_n r) (a_lag_next r)
    (a_lag_p50_ms r) (a_lag_p90_ms r) (a_lag_max_ms r) (a_want_asked_ms r) (a_want_due r)
    (a_warn_fast_head r) (a_warn_lag r) (a_warned_fast_head r) (a_warned_lag r).
Definition set_a_last_ms (v : Z) (r : head) : head :=
Head (a_id r) (a_node r) (a_bearer r) (a_link_up r) (a_down_ms r) (a_preset r) (a_status r)
    v (a_rx_frames r) (a_rx_dropped r) (a_tx_frames r) (a_tx_results r) (a_rejected r)
    (a_last_rssi r) (a_last_snr r) (a_rssi_min r) (a_rssi_max r) (a_lat_n r) (a_lat_min_ms
    r) (a_lat_max_ms r) (a_lat_sum_ms r) (a_tx_seq r) (a_last_tx_rc r) (a_last_tx_defers r)
    (a_tx_failed r) (a_tx_cancelled r) (a_tx_late r) (a_lag r) (a_lag_n r) (a_lag_next r)
    (a_lag_p50_ms r) (a_lag_p90_ms r) (a_lag_max_ms r) (a_want_asked_ms r) (a_want_due r)
    (a_warn_fast_head r) (a_warn_lag r) (a_warned_fast_head r) (a_warned_lag r).
Definition set_a_rx_frames (v : Z) (r : head) : head :=
Head (a_id r) (a_node r) (a_bearer r) (a_link_up r) (a_down_ms r) (a_preset r) (a_status r)
    (a_last_ms r) v (a_rx_dropped r) (a_tx_frames r) (a_tx_results r) (a_rejected r)
    (a_last_rssi r) (a_last_snr r) (a_rssi_min r) (a_rssi_max r) (a_lat_n r) (a_lat_min_ms
    r) (a_lat_max_ms r) (a_lat_sum_ms r) (a_tx_seq r) (a_last_tx_rc r) (a_last_tx_defers r)
    (a_tx_failed r) (a_tx_cancelled r) (a_tx_late r) (a_lag r) (a_lag_n r) (a_lag_next r)
    (a_lag_p50_ms r) (a_lag_p90_ms r) (a_lag_max_ms r) (a_want_asked_ms r) (a_want_due r)
    (a_warn_fast_head r) (a_warn_lag r) (a_warned_fast_head r) (a_warned_lag r).
Definition set_a_rx_dropped (v : Z) (r : head) : head :=
Head (a_id r) (a_node r) (a_bearer r) (a_link_up r) (a_down_ms r) (a_preset r) (a_status r)
    (a_last_ms r) (a_rx_frames r) v (a_tx_frames r) (a_tx_results r) (a_rejected r)
    (a_last_rssi r) (a_last_snr r) (a_rssi_min r) (a_rssi_max r) (a_lat_n r) (a_lat_min_ms
    r) (a_lat_max_ms r) (a_lat_sum_ms r) (a_tx_seq r) (a_last_tx_rc r) (a_last_tx_defers r)
    (a_tx_failed r) (a_tx_cancelled r) (a_tx_late r) (a_lag r) (a_lag_n r) (a_lag_next r)
    (a_lag_p50_ms r) (a_lag_p90_ms r) (a_lag_max_ms r) (a_want_asked_ms r) (a_want_due r)
    (a_warn_fast_head r) (a_warn_lag r) (a_warned_fast_head r) (a_warned_lag r).
Definition set_a_tx_frames (v : Z) (r : head) : head :=
Head (a_id r) (a_node r) (a_bearer r) (a_link_up r) (a_down_ms r) (a_preset r) (a_status r)
    (a_last_ms r) (a_rx_frames r) (a_rx_dropped r) v (a_tx_results r) (a_rejected r)
    (a_last_rssi r) (a_last_snr r) (a_rssi_min r) (a_rssi_max r) (a_lat_n r) (a_lat_min_ms
    r) (a_lat_max_ms r) (a_lat_sum_ms r) (a_tx_seq r) (a_last_tx_rc r) (a_last_tx_defers r)
    (a_tx_failed r) (a_tx_cancelled r) (a_tx_late r) (a_lag r) (a_lag_n r) (a_lag_next r)
    (a_lag_p50_ms r) (a_lag_p90_ms r) (a_lag_max_ms r) (a_want_asked_ms r) (a_want_due r)
    (a_warn_fast_head r) (a_warn_lag r) (a_warned_fast_head r) (a_warned_lag r).
Definition set_a_tx_results (v : Z) (r : head) : head :=
Head (a_id r) (a_node r) (a_bearer r) (a_link_up r) (a_down_ms r) (a_preset r) (a_status r)
    (a_last_ms r) (a_rx_frames r) (a_rx_dropped r) (a_tx_frames r) v (a_rejected r)
    (a_last_rssi r) (a_last_snr r) (a_rssi_min r) (a_rssi_max r) (a_lat_n r) (a_lat_min_ms
    r) (a_lat_max_ms r) (a_lat_sum_ms r) (a_tx_seq r) (a_last_tx_rc r) (a_last_tx_defers r)
    (a_tx_failed r) (a_tx_cancelled r) (a_tx_late r) (a_lag r) (a_lag_n r) (a_lag_next r)
    (a_lag_p50_ms r) (a_lag_p90_ms r) (a_lag_max_ms r) (a_want_asked_ms r) (a_want_due r)
    (a_warn_fast_head r) (a_warn_lag r) (a_warned_fast_head r) (a_warned_lag r).
Definition set_a_rejected (v : Z) (r : head) : head :=
Head (a_id r) (a_node r) (a_bearer r) (a_link_up r) (a_down_ms r) (a_preset r) (a_status r)
    (a_last_ms r) (a_rx_frames r) (a_rx_dropped r) (a_tx_frames r) (a_tx_results r) v
    (a_last_rssi r) (a_last_snr r) (a_rssi_min r) (a_rssi_max r) (a_lat_n r) (a_lat_min_ms
    r) (a_lat_max_ms r) (a_lat_sum_ms r) (a_tx_seq r) (a_last_tx_rc r) (a_last_tx_defers r)
    (a_tx_failed r) (a_tx_cancelled r) (a_tx_late r) (a_lag r) (a_lag_n r) (a_lag_next r)
    (a_lag_p50_ms r) (a_lag_p90_ms r) (a_lag_max_ms r) (a_want_asked_ms r) (a_want_due r)
    (a_warn_fast_head r) (a_warn_lag r) (a_warned_fast_head r) (a_warned_lag r).
Definition set_a_last_rssi (v : Z) (r : head) : head :=
Head (a_id r) (a_node r) (a_bearer r) (a_link_up r) (a_down_ms r) (a_preset r) (a_status r)
    (a_last_ms r) (a_rx_frames r) (a_rx_dropped r) (a_tx_frames r) (a_tx_results r)
    (a_rejected r) v (a_last_snr r) (a_rssi_min r) (a_rssi_max r) (a_lat_n r) (a_lat_min_ms
    r) (a_lat_max_ms r) (a_lat_sum_ms r) (a_tx_seq r) (a_last_tx_rc r) (a_last_tx_defers r)
    (a_tx_failed r) (a_tx_cancelled r) (a_tx_late r) (a_lag r) (a_lag_n r) (a_lag_next r)
    (a_lag_p50_ms r) (a_lag_p90_ms r) (a_lag_max_ms r) (a_want_asked_ms r) (a_want_due r)
    (a_warn_fast_head r) (a_warn_lag r) (a_warned_fast_head r) (a_warned_lag r).
Definition set_a_last_snr (v : Z) (r : head) : head :=
Head (a_id r) (a_node r) (a_bearer r) (a_link_up r) (a_down_ms r) (a_preset r) (a_status r)
    (a_last_ms r) (a_rx_frames r) (a_rx_dropped r) (a_tx_frames r) (a_tx_results r)
    (a_rejected r) (a_last_rssi r) v (a_rssi_min r) (a_rssi_max r) (a_lat_n r) (a_lat_min_ms
    r) (a_lat_max_ms r) (a_lat_sum_ms r) (a_tx_seq r) (a_last_tx_rc r) (a_last_tx_defers r)
    (a_tx_failed r) (a_tx_cancelled r) (a_tx_late r) (a_lag r) (a_lag_n r) (a_lag_next r)
    (a_lag_p50_ms r) (a_lag_p90_ms r) (a_lag_max_ms r) (a_want_asked_ms r) (a_want_due r)
    (a_warn_fast_head r) (a_warn_lag r) (a_warned_fast_head r) (a_warned_lag r).
Definition set_a_rssi_min (v : Z) (r : head) : head :=
Head (a_id r) (a_node r) (a_bearer r) (a_link_up r) (a_down_ms r) (a_preset r) (a_status r)
    (a_last_ms r) (a_rx_frames r) (a_rx_dropped r) (a_tx_frames r) (a_tx_results r)
    (a_rejected r) (a_last_rssi r) (a_last_snr r) v (a_rssi_max r) (a_lat_n r) (a_lat_min_ms
    r) (a_lat_max_ms r) (a_lat_sum_ms r) (a_tx_seq r) (a_last_tx_rc r) (a_last_tx_defers r)
    (a_tx_failed r) (a_tx_cancelled r) (a_tx_late r) (a_lag r) (a_lag_n r) (a_lag_next r)
    (a_lag_p50_ms r) (a_lag_p90_ms r) (a_lag_max_ms r) (a_want_asked_ms r) (a_want_due r)
    (a_warn_fast_head r) (a_warn_lag r) (a_warned_fast_head r) (a_warned_lag r).
Definition set_a_rssi_max (v : Z) (r : head) : head :=
Head (a_id r) (a_node r) (a_bearer r) (a_link_up r) (a_down_ms r) (a_preset r) (a_status r)
    (a_last_ms r) (a_rx_frames r) (a_rx_dropped r) (a_tx_frames r) (a_tx_results r)
    (a_rejected r) (a_last_rssi r) (a_last_snr r) (a_rssi_min r) v (a_lat_n r) (a_lat_min_ms
    r) (a_lat_max_ms r) (a_lat_sum_ms r) (a_tx_seq r) (a_last_tx_rc r) (a_last_tx_defers r)
    (a_tx_failed r) (a_tx_cancelled r) (a_tx_late r) (a_lag r) (a_lag_n r) (a_lag_next r)
    (a_lag_p50_ms r) (a_lag_p90_ms r) (a_lag_max_ms r) (a_want_asked_ms r) (a_want_due r)
    (a_warn_fast_head r) (a_warn_lag r) (a_warned_fast_head r) (a_warned_lag r).
Definition set_a_lat_n (v : Z) (r : head) : head :=
Head (a_id r) (a_node r) (a_bearer r) (a_link_up r) (a_down_ms r) (a_preset r) (a_status r)
    (a_last_ms r) (a_rx_frames r) (a_rx_dropped r) (a_tx_frames r) (a_tx_results r)
    (a_rejected r) (a_last_rssi r) (a_last_snr r) (a_rssi_min r) (a_rssi_max r) v
    (a_lat_min_ms r) (a_lat_max_ms r) (a_lat_sum_ms r) (a_tx_seq r) (a_last_tx_rc r)
    (a_last_tx_defers r) (a_tx_failed r) (a_tx_cancelled r) (a_tx_late r) (a_lag r) (a_lag_n
    r) (a_lag_next r) (a_lag_p50_ms r) (a_lag_p90_ms r) (a_lag_max_ms r) (a_want_asked_ms r)
    (a_want_due r) (a_warn_fast_head r) (a_warn_lag r) (a_warned_fast_head r) (a_warned_lag
    r).
Definition set_a_lat_min_ms (v : Z) (r : head) : head :=
Head (a_id r) (a_node r) (a_bearer r) (a_link_up r) (a_down_ms r) (a_preset r) (a_status r)
    (a_last_ms r) (a_rx_frames r) (a_rx_dropped r) (a_tx_frames r) (a_tx_results r)
    (a_rejected r) (a_last_rssi r) (a_last_snr r) (a_rssi_min r) (a_rssi_max r) (a_lat_n r)
    v (a_lat_max_ms r) (a_lat_sum_ms r) (a_tx_seq r) (a_last_tx_rc r) (a_last_tx_defers r)
    (a_tx_failed r) (a_tx_cancelled r) (a_tx_late r) (a_lag r) (a_lag_n r) (a_lag_next r)
    (a_lag_p50_ms r) (a_lag_p90_ms r) (a_lag_max_ms r) (a_want_asked_ms r) (a_want_due r)
    (a_warn_fast_head r) (a_warn_lag r) (a_warned_fast_head r) (a_warned_lag r).
Definition set_a_lat_max_ms (v : Z) (r : head) : head :=
Head (a_id r) (a_node r) (a_bearer r) (a_link_up r) (a_down_ms r) (a_preset r) (a_status r)
    (a_last_ms r) (a_rx_frames r) (a_rx_dropped r) (a_tx_frames r) (a_tx_results r)
    (a_rejected r) (a_last_rssi r) (a_last_snr r) (a_rssi_min r) (a_rssi_max r) (a_lat_n r)
    (a_lat_min_ms r) v (a_lat_sum_ms r) (a_tx_seq r) (a_last_tx_rc r) (a_last_tx_defers r)
    (a_tx_failed r) (a_tx_cancelled r) (a_tx_late r) (a_lag r) (a_lag_n r) (a_lag_next r)
    (a_lag_p50_ms r) (a_lag_p90_ms r) (a_lag_max_ms r) (a_want_asked_ms r) (a_want_due r)
    (a_warn_fast_head r) (a_warn_lag r) (a_warned_fast_head r) (a_warned_lag r).
Definition set_a_lat_sum_ms (v : Z) (r : head) : head :=
Head (a_id r) (a_node r) (a_bearer r) (a_link_up r) (a_down_ms r) (a_preset r) (a_status r)
    (a_last_ms r) (a_rx_frames r) (a_rx_dropped r) (a_tx_frames r) (a_tx_results r)
    (a_rejected r) (a_last_rssi r) (a_last_snr r) (a_rssi_min r) (a_rssi_max r) (a_lat_n r)
    (a_lat_min_ms r) (a_lat_max_ms r) v (a_tx_seq r) (a_last_tx_rc r) (a_last_tx_defers r)
    (a_tx_failed r) (a_tx_cancelled r) (a_tx_late r) (a_lag r) (a_lag_n r) (a_lag_next r)
    (a_lag_p50_ms r) (a_lag_p90_ms r) (a_lag_max_ms r) (a_want_asked_ms r) (a_want_due r)
    (a_warn_fast_head r) (a_warn_lag r) (a_warned_fast_head r) (a_warned_lag r).
Definition set_a_tx_seq (v : Z) (r : head) : head :=
Head (a_id r) (a_node r) (a_bearer r) (a_link_up r) (a_down_ms r) (a_preset r) (a_status r)
    (a_last_ms r) (a_rx_frames r) (a_rx_dropped r) (a_tx_frames r) (a_tx_results r)
    (a_rejected r) (a_last_rssi r) (a_last_snr r) (a_rssi_min r) (a_rssi_max r) (a_lat_n r)
    (a_lat_min_ms r) (a_lat_max_ms r) (a_lat_sum_ms r) v (a_last_tx_rc r) (a_last_tx_defers
    r) (a_tx_failed r) (a_tx_cancelled r) (a_tx_late r) (a_lag r) (a_lag_n r) (a_lag_next r)
    (a_lag_p50_ms r) (a_lag_p90_ms r) (a_lag_max_ms r) (a_want_asked_ms r) (a_want_due r)
    (a_warn_fast_head r) (a_warn_lag r) (a_warned_fast_head r) (a_warned_lag r).
Definition set_a_last_tx_rc (v : Z) (r : head) : head :=
Head (a_id r) (a_node r) (a_bearer r) (a_link_up r) (a_down_ms r) (a_preset r) (a_status r)
    (a_last_ms r) (a_rx_frames r) (a_rx_dropped r) (a_tx_frames r) (a_tx_results r)
    (a_rejected r) (a_last_rssi r) (a_last_snr r) (a_rssi_min r) (a_rssi_max r) (a_lat_n r)
    (a_lat_min_ms r) (a_lat_max_ms r) (a_lat_sum_ms r) (a_tx_seq r) v (a_last_tx_defers r)
    (a_tx_failed r) (a_tx_cancelled r) (a_tx_late r) (a_lag r) (a_lag_n r) (a_lag_next r)
    (a_lag_p50_ms r) (a_lag_p90_ms r) (a_lag_max_ms r) (a_want_asked_ms r) (a_want_due r)
    (a_warn_fast_head r) (a_warn_lag r) (a_warned_fast_head r) (a_warned_lag r).
Definition set_a_last_tx_defers (v : Z) (r : head) : head :=
Head (a_id r) (a_node r) (a_bearer r) (a_link_up r) (a_down_ms r) (a_preset r) (a_status r)
    (a_last_ms r) (a_rx_frames r) (a_rx_dropped r) (a_tx_frames r) (a_tx_results r)
    (a_rejected r) (a_last_rssi r) (a_last_snr r) (a_rssi_min r) (a_rssi_max r) (a_lat_n r)
    (a_lat_min_ms r) (a_lat_max_ms r) (a_lat_sum_ms r) (a_tx_seq r) (a_last_tx_rc r) v
    (a_tx_failed r) (a_tx_cancelled r) (a_tx_late r) (a_lag r) (a_lag_n r) (a_lag_next r)
    (a_lag_p50_ms r) (a_lag_p90_ms r) (a_lag_max_ms r) (a_want_asked_ms r) (a_want_due r)
    (a_warn_fast_head r) (a_warn_lag r) (a_warned_fast_head r) (a_warned_lag r).
Definition set_a_tx_failed (v : Z) (r : head) : head :=
Head (a_id r) (a_node r) (a_bearer r) (a_link_up r) (a_down_ms r) (a_preset r) (a_status r)
    (a_last_ms r) (a_rx_frames r) (a_rx_dropped r) (a_tx_frames r) (a_tx_results r)
    (a_rejected r) (a_last_rssi r) (a_last_snr r) (a_rssi_min r) (a_rssi_max r) (a_lat_n r)
    (a_lat_min_ms r) (a_lat_max_ms r) (a_lat_sum_ms r) (a_tx_seq r) (a_last_tx_rc r)
    (a_last_tx_defers r) v (a_tx_cancelled r) (a_tx_late r) (a_lag r) (a_lag_n r)
    (a_lag_next r) (a_lag_p50_ms r) (a_lag_p90_ms r) (a_lag_max_ms r) (a_want_asked_ms r)
    (a_want_due r) (a_warn_fast_head r) (a_warn_lag r) (a_warned_fast_head r) (a_warned_lag
    r).
Definition set_a_tx_cancelled (v : Z) (r : head) : head :=
Head (a_id r) (a_node r) (a_bearer r) (a_link_up r) (a_down_ms r) (a_preset r) (a_status r)
    (a_last_ms r) (a_rx_frames r) (a_rx_dropped r) (a_tx_frames r) (a_tx_results r)
    (a_rejected r) (a_last_rssi r) (a_last_snr r) (a_rssi_min r) (a_rssi_max r) (a_lat_n r)
    (a_lat_min_ms r) (a_lat_max_ms r) (a_lat_sum_ms r) (a_tx_seq r) (a_last_tx_rc r)
    (a_last_tx_defers r) (a_tx_failed r) v (a_tx_late r) (a_lag r) (a_lag_n r) (a_lag_next
    r) (a_lag_p50_ms r) (a_lag_p90_ms r) (a_lag_max_ms r) (a_want_asked_ms r) (a_want_due r)
    (a_warn_fast_head r) (a_warn_lag r) (a_warned_fast_head r) (a_warned_lag r).
Definition set_a_tx_late (v : Z) (r : head) : head :=
Head (a_id r) (a_node r) (a_bearer r) (a_link_up r) (a_down_ms r) (a_preset r) (a_status r)
    (a_last_ms r) (a_rx_frames r) (a_rx_dropped r) (a_tx_frames r) (a_tx_results r)
    (a_rejected r) (a_last_rssi r) (a_last_snr r) (a_rssi_min r) (a_rssi_max r) (a_lat_n r)
    (a_lat_min_ms r) (a_lat_max_ms r) (a_lat_sum_ms r) (a_tx_seq r) (a_last_tx_rc r)
    (a_last_tx_defers r) (a_tx_failed r) (a_tx_cancelled r) v (a_lag r) (a_lag_n r)
    (a_lag_next r) (a_lag_p50_ms r) (a_lag_p90_ms r) (a_lag_max_ms r) (a_want_asked_ms r)
    (a_want_due r) (a_warn_fast_head r) (a_warn_lag r) (a_warned_fast_head r) (a_warned_lag
    r).
Definition set_a_lag (v : list Z) (r : head) : head :=
Head (a_id r) (a_node r) (a_bearer r) (a_link_up r) (a_down_ms r) (a_preset r) (a_status r)
    (a_last_ms r) (a_rx_frames r) (a_rx_dropped r) (a_tx_frames r) (a_tx_results r)
    (a_rejected r) (a_last_rssi r) (a_last_snr r) (a_rssi_min r) (a_rssi_max r) (a_lat_n r)
    (a_lat_min_ms r) (a_lat_max_ms r) (a_lat_sum_ms r) (a_tx_seq r) (a_last_tx_rc r)
    (a_last_tx_defers r) (a_tx_failed r) (a_tx_cancelled r) (a_tx_late r) v (a_lag_n r)
    (a_lag_next r) (a_lag_p50_ms r) (a_lag_p90_ms r) (a_lag_max_ms r) (a_want_asked_ms r)
    (a_want_due r) (a_warn_fast_head r) (a_warn_lag r) (a_warned_fast_head r) (a_warned_lag
    r).
Definition set_a_lag_n (v : nat) (r : head) : head :=
Head (a_id r) (a_node r) (a_bearer r) (a_link_up r) (a_down_ms r) (a_preset r) (a_status r)
    (a_last_ms r) (a_rx_frames r) (a_rx_dropped r) (a_tx_frames r) (a_tx_results r)
    (a_rejected r) (a_last_rssi r) (a_last_snr r) (a_rssi_min r) (a_rssi_max r) (a_lat_n r)
    (a_lat_min_ms r) (a_lat_max_ms r) (a_lat_sum_ms r) (a_tx_seq r) (a_last_tx_rc r)
    (a_last_tx_defers r) (a_tx_failed r) (a_tx_cancelled r) (a_tx_late r) (a_lag r) v
    (a_lag_next r) (a_lag_p50_ms r) (a_lag_p90_ms r) (a_lag_max_ms r) (a_want_asked_ms r)
    (a_want_due r) (a_warn_fast_head r) (a_warn_lag r) (a_warned_fast_head r) (a_warned_lag
    r).
Definition set_a_lag_next (v : nat) (r : head) : head :=
Head (a_id r) (a_node r) (a_bearer r) (a_link_up r) (a_down_ms r) (a_preset r) (a_status r)
    (a_last_ms r) (a_rx_frames r) (a_rx_dropped r) (a_tx_frames r) (a_tx_results r)
    (a_rejected r) (a_last_rssi r) (a_last_snr r) (a_rssi_min r) (a_rssi_max r) (a_lat_n r)
    (a_lat_min_ms r) (a_lat_max_ms r) (a_lat_sum_ms r) (a_tx_seq r) (a_last_tx_rc r)
    (a_last_tx_defers r) (a_tx_failed r) (a_tx_cancelled r) (a_tx_late r) (a_lag r) (a_lag_n
    r) v (a_lag_p50_ms r) (a_lag_p90_ms r) (a_lag_max_ms r) (a_want_asked_ms r) (a_want_due
    r) (a_warn_fast_head r) (a_warn_lag r) (a_warned_fast_head r) (a_warned_lag r).
Definition set_a_lag_p50_ms (v : Z) (r : head) : head :=
Head (a_id r) (a_node r) (a_bearer r) (a_link_up r) (a_down_ms r) (a_preset r) (a_status r)
    (a_last_ms r) (a_rx_frames r) (a_rx_dropped r) (a_tx_frames r) (a_tx_results r)
    (a_rejected r) (a_last_rssi r) (a_last_snr r) (a_rssi_min r) (a_rssi_max r) (a_lat_n r)
    (a_lat_min_ms r) (a_lat_max_ms r) (a_lat_sum_ms r) (a_tx_seq r) (a_last_tx_rc r)
    (a_last_tx_defers r) (a_tx_failed r) (a_tx_cancelled r) (a_tx_late r) (a_lag r) (a_lag_n
    r) (a_lag_next r) v (a_lag_p90_ms r) (a_lag_max_ms r) (a_want_asked_ms r) (a_want_due r)
    (a_warn_fast_head r) (a_warn_lag r) (a_warned_fast_head r) (a_warned_lag r).
Definition set_a_lag_p90_ms (v : Z) (r : head) : head :=
Head (a_id r) (a_node r) (a_bearer r) (a_link_up r) (a_down_ms r) (a_preset r) (a_status r)
    (a_last_ms r) (a_rx_frames r) (a_rx_dropped r) (a_tx_frames r) (a_tx_results r)
    (a_rejected r) (a_last_rssi r) (a_last_snr r) (a_rssi_min r) (a_rssi_max r) (a_lat_n r)
    (a_lat_min_ms r) (a_lat_max_ms r) (a_lat_sum_ms r) (a_tx_seq r) (a_last_tx_rc r)
    (a_last_tx_defers r) (a_tx_failed r) (a_tx_cancelled r) (a_tx_late r) (a_lag r) (a_lag_n
    r) (a_lag_next r) (a_lag_p50_ms r) v (a_lag_max_ms r) (a_want_asked_ms r) (a_want_due r)
    (a_warn_fast_head r) (a_warn_lag r) (a_warned_fast_head r) (a_warned_lag r).
Definition set_a_lag_max_ms (v : Z) (r : head) : head :=
Head (a_id r) (a_node r) (a_bearer r) (a_link_up r) (a_down_ms r) (a_preset r) (a_status r)
    (a_last_ms r) (a_rx_frames r) (a_rx_dropped r) (a_tx_frames r) (a_tx_results r)
    (a_rejected r) (a_last_rssi r) (a_last_snr r) (a_rssi_min r) (a_rssi_max r) (a_lat_n r)
    (a_lat_min_ms r) (a_lat_max_ms r) (a_lat_sum_ms r) (a_tx_seq r) (a_last_tx_rc r)
    (a_last_tx_defers r) (a_tx_failed r) (a_tx_cancelled r) (a_tx_late r) (a_lag r) (a_lag_n
    r) (a_lag_next r) (a_lag_p50_ms r) (a_lag_p90_ms r) v (a_want_asked_ms r) (a_want_due r)
    (a_warn_fast_head r) (a_warn_lag r) (a_warned_fast_head r) (a_warned_lag r).
Definition set_a_want_asked_ms (v : Z) (r : head) : head :=
Head (a_id r) (a_node r) (a_bearer r) (a_link_up r) (a_down_ms r) (a_preset r) (a_status r)
    (a_last_ms r) (a_rx_frames r) (a_rx_dropped r) (a_tx_frames r) (a_tx_results r)
    (a_rejected r) (a_last_rssi r) (a_last_snr r) (a_rssi_min r) (a_rssi_max r) (a_lat_n r)
    (a_lat_min_ms r) (a_lat_max_ms r) (a_lat_sum_ms r) (a_tx_seq r) (a_last_tx_rc r)
    (a_last_tx_defers r) (a_tx_failed r) (a_tx_cancelled r) (a_tx_late r) (a_lag r) (a_lag_n
    r) (a_lag_next r) (a_lag_p50_ms r) (a_lag_p90_ms r) (a_lag_max_ms r) v (a_want_due r)
    (a_warn_fast_head r) (a_warn_lag r) (a_warned_fast_head r) (a_warned_lag r).
Definition set_a_want_due (v : bool) (r : head) : head :=
Head (a_id r) (a_node r) (a_bearer r) (a_link_up r) (a_down_ms r) (a_preset r) (a_status r)
    (a_last_ms r) (a_rx_frames r) (a_rx_dropped r) (a_tx_frames r) (a_tx_results r)
    (a_rejected r) (a_last_rssi r) (a_last_snr r) (a_rssi_min r) (a_rssi_max r) (a_lat_n r)
    (a_lat_min_ms r) (a_lat_max_ms r) (a_lat_sum_ms r) (a_tx_seq r) (a_last_tx_rc r)
    (a_last_tx_defers r) (a_tx_failed r) (a_tx_cancelled r) (a_tx_late r) (a_lag r) (a_lag_n
    r) (a_lag_next r) (a_lag_p50_ms r) (a_lag_p90_ms r) (a_lag_max_ms r) (a_want_asked_ms r)
    v (a_warn_fast_head r) (a_warn_lag r) (a_warned_fast_head r) (a_warned_lag r).
Definition set_a_warn_fast_head (v : bool) (r : head) : head :=
Head (a_id r) (a_node r) (a_bearer r) (a_link_up r) (a_down_ms r) (a_preset r) (a_status r)
    (a_last_ms r) (a_rx_frames r) (a_rx_dropped r) (a_tx_frames r) (a_tx_results r)
    (a_rejected r) (a_last_rssi r) (a_last_snr r) (a_rssi_min r) (a_rssi_max r) (a_lat_n r)
    (a_lat_min_ms r) (a_lat_max_ms r) (a_lat_sum_ms r) (a_tx_seq r) (a_last_tx_rc r)
    (a_last_tx_defers r) (a_tx_failed r) (a_tx_cancelled r) (a_tx_late r) (a_lag r) (a_lag_n
    r) (a_lag_next r) (a_lag_p50_ms r) (a_lag_p90_ms r) (a_lag_max_ms r) (a_want_asked_ms r)
    (a_want_due r) v (a_warn_lag r) (a_warned_fast_head r) (a_warned_lag r).
Definition set_a_warn_lag (v : bool) (r : head) : head :=
Head (a_id r) (a_node r) (a_bearer r) (a_link_up r) (a_down_ms r) (a_preset r) (a_status r)
    (a_last_ms r) (a_rx_frames r) (a_rx_dropped r) (a_tx_frames r) (a_tx_results r)
    (a_rejected r) (a_last_rssi r) (a_last_snr r) (a_rssi_min r) (a_rssi_max r) (a_lat_n r)
    (a_lat_min_ms r) (a_lat_max_ms r) (a_lat_sum_ms r) (a_tx_seq r) (a_last_tx_rc r)
    (a_last_tx_defers r) (a_tx_failed r) (a_tx_cancelled r) (a_tx_late r) (a_lag r) (a_lag_n
    r) (a_lag_next r) (a_lag_p50_ms r) (a_lag_p90_ms r) (a_lag_max_ms r) (a_want_asked_ms r)
    (a_want_due r) (a_warn_fast_head r) v (a_warned_fast_head r) (a_warned_lag r).
Definition set_a_warned_fast_head (v : bool) (r : head) : head :=
Head (a_id r) (a_node r) (a_bearer r) (a_link_up r) (a_down_ms r) (a_preset r) (a_status r)
    (a_last_ms r) (a_rx_frames r) (a_rx_dropped r) (a_tx_frames r) (a_tx_results r)
    (a_rejected r) (a_last_rssi r) (a_last_snr r) (a_rssi_min r) (a_rssi_max r) (a_lat_n r)
    (a_lat_min_ms r) (a_lat_max_ms r) (a_lat_sum_ms r) (a_tx_seq r) (a_last_tx_rc r)
    (a_last_tx_defers r) (a_tx_failed r) (a_tx_cancelled r) (a_tx_late r) (a_lag r) (a_lag_n
    r) (a_lag_next r) (a_lag_p50_ms r) (a_lag_p90_ms r) (a_lag_max_ms r) (a_want_asked_ms r)
    (a_want_due r) (a_warn_fast_head r) (a_warn_lag r) v (a_warned_lag r).
Definition set_a_warned_lag (v : bool) (r : head) : head :=
Head (a_id r) (a_node r) (a_bearer r) (a_link_up r) (a_down_ms r) (a_preset r) (a_status r)
    (a_last_ms r) (a_rx_frames r) (a_rx_dropped r) (a_tx_frames r) (a_tx_results r)
    (a_rejected r) (a_last_rssi r) (a_last_snr r) (a_rssi_min r) (a_rssi_max r) (a_lat_n r)
    (a_lat_min_ms r) (a_lat_max_ms r) (a_lat_sum_ms r) (a_tx_seq r) (a_last_tx_rc r)
    (a_last_tx_defers r) (a_tx_failed r) (a_tx_cancelled r) (a_tx_late r) (a_lag r) (a_lag_n
    r) (a_lag_next r) (a_lag_p50_ms r) (a_lag_p90_ms r) (a_lag_max_ms r) (a_want_asked_ms r)
    (a_want_due r) (a_warn_fast_head r) (a_warn_lag r) (a_warned_fast_head r) v.

Definition head_zero : head :=
  Head 0 0 None false 0 0 None 0 0 0 0 0 0 0 0 0 0 0 0 0 0 0 0 0 0 0 0 (replicate LAG_RING 0) 0 0 0 0 0 0 false false false false false.

Record attach_stats := AttachStats {
  admission_refused : Z;
  not_admitted_malformed : Z;
  evicted : Z;
}.
Definition set_admission_refused (v : Z) (r : attach_stats) : attach_stats :=
AttachStats v (not_admitted_malformed r) (evicted r).
Definition set_not_admitted_malformed (v : Z) (r : attach_stats) : attach_stats :=
AttachStats (admission_refused r) v (evicted r).
Definition set_evicted (v : Z) (r : attach_stats) : attach_stats :=
AttachStats (admission_refused r) (not_admitted_malformed r) v.

Record att := Att {
  tab : list (option head);
  stats : attach_stats;
  allow : list Z;
  want : list (Z * Z);
  auto_ch_pending : list Z;
  auto_ch_work : bool;
  want_work : bool;
  evict_due : option Z;
}.
Definition set_tab (v : list (option head)) (r : att) : att :=
Att v (stats r) (allow r) (want r) (auto_ch_pending r) (auto_ch_work r) (want_work r)
    (evict_due r).
Definition set_stats (v : attach_stats) (r : att) : att :=
Att (tab r) v (allow r) (want r) (auto_ch_pending r) (auto_ch_work r) (want_work r)
    (evict_due r).
Definition set_allow (v : list Z) (r : att) : att :=
Att (tab r) (stats r) v (want r) (auto_ch_pending r) (auto_ch_work r) (want_work r)
    (evict_due r).
Definition set_want (v : list (Z * Z)) (r : att) : att :=
Att (tab r) (stats r) (allow r) v (auto_ch_pending r) (auto_ch_work r) (want_work r)
    (evict_due r).
Definition set_auto_ch_pending (v : list Z) (r : att) : att :=
Att (tab r) (stats r) (allow r) (want r) v (auto_ch_work r) (want_work r) (evict_due r).
Definition set_auto_ch_work (v : bool) (r : att) : att :=
Att (tab r) (stats r) (allow r) (want r) (auto_ch_pending r) v (want_work r) (evict_due r).
Definition set_want_work (v : bool) (r : att) : att :=
Att (tab r) (stats r) (allow r) (want r) (auto_ch_pending r) (auto_ch_work r) v (evict_due
    r).
Definition set_evict_due (v : option Z) (r : att) : att :=
Att (tab r) (stats r) (allow r) (want r) (auto_ch_pending r) (auto_ch_work r) (want_work r)
    v.

(** What the table asks of the rest. *)
Inductive at_out :=
  | OSaveAllow | OSaveWant | ODeleteWant | ODeleteAllow
  | OInject (wire : list Z) (id preset rssi snr rx_ms : Z)      (* meshtastic_radio_rx_inject_meta *)
  | OSend (node : Z) (env : list Z)                             (* meshtastic_attachment_send *)
  | OWire (wire : list Z) (tier : Z) (id : nat).                         (* meshtastic_radio_send_wire_after_on *)

Record at_env := AtEnv {
  ae_now : Z;                                        (* k_uptime_get *)
  ae_max : nat;                                      (* CONFIG_MESHTASTIC_ATTACHMENT_MAX *)
  ae_allow_max : nat;                                (* CONFIG_MESHTASTIC_ATTACHMENT_ALLOW_MAX *)
  ae_evict_sec : Z;                                  (* CONFIG_MESHTASTIC_ATTACHMENT_EVICT_SEC *)
  ae_link : option Z -> Z -> option (bool * attach_auth);   (* link_info: up, auth *)
  ae_own_modem : Z * Z;                              (* mt.modem: spreading factor, bandwidth *)
  ae_last_signal : Z * Z;                            (* mt.status: last rssi, snr *)
  ae_sched : sched_config;
  ae_chans : chans;                                  (* the channel table, with mt.modem_preset *)
  ae_inject : list Z -> cret;                        (* meshtastic_radio_rx_inject_meta *)
  ae_send : Z -> list Z -> cret;                     (* the bearers deliver *)
  ae_wire_ok : list Z -> nat -> bool;                (* the transmit queue takes the frame *)
}.

Definition count1 (x : Z) : Z := u32 (x + 1).
(** The preset of the node's own radio. *)
Definition own_preset (env : at_env) : Z := u8 (modem_preset (ae_chans env)).

(** ** The allow-list *)

Definition allowed_locked (node : Z) (t : att) : bool := existsb (fun n => n =? node) (allow t).

Definition meshtastic_attachment_allow_add (node : Z) (t : att) : att * list at_out * cret :=
  if node =? 0 then (t, [], ERR EINVAL)
  else if allowed_locked node t then (t, [], OK)
  else match find_index (fun n => n =? 0) (allow t) with
  | Some i => (set_allow (<[i := node]> (allow t)) t, [OSaveAllow], OK)
  | None => (t, [], ERR ENOSPC)
  end.
Definition meshtastic_attachment_allow_clear (t : att) : att * list at_out :=
  (set_allow (replicate (length (allow t)) 0) t, [OSaveAllow]).
Definition meshtastic_attachment_allow_get (i : nat) (t : att) : option Z :=
  match allow t !! i with Some n => if n =? 0 then None else Some n | None => None end.
Definition meshtastic_attachment_is_allowed (node : Z) (t : att) : bool := allowed_locked node t.
Definition meshtastic_attachment_stats_get (t : att) : attach_stats := stats t.

(** A stored record: the allow-list's words, or the wishes as pairs; [None] is a failed read. *)
Inductive at_setting := SetAllow (v : option (list Z)) | SetWant (v : option (list (Z * Z))) | SetOther.
Definition attach_settings_set (k : at_setting) (t : att) : att * cret :=
  match k with
  | SetWant None => (t, ERR EINVAL)
  | SetWant (Some w) =>
      let n := length (want t) in (set_want (take n (w ++ replicate n (0, 0))) t, OK)
  | SetAllow None => (t, ERR EINVAL)
  | SetAllow (Some a) =>
      let n := length (allow t) in
      if (n <? length a)%nat then (t, ERR EINVAL) else (set_allow (take n (a ++ replicate n 0)) t, OK)
  | SetOther => (t, ERR ENOENT)
  end.

(** Whether the intent is set, and the two counts of its detail. *)
Definition brain_intent_is_set (t : att) : bool * nat * nat :=
  let heads := length (List.filter (fun w => negb (w.1 =? 0)) (want t)) in
  let allowed := length (List.filter (fun n => negb (n =? 0)) (allow t)) in
  (negb (heads =? 0)%nat || negb (allowed =? 0)%nat, heads, allowed).
(** [del] is what deleting a stored key returns. *)
Definition brain_intent_clear (del : bool -> cret) (t : att) : att * list at_out * cret :=
  let t := set_allow (replicate (length (allow t)) 0) (set_want (replicate (length (want t)) (0, 0)) t) in
  let gone r := if bool_decide (r = ERR ENOENT) then OK else r in
  let ret := gone (del true) in
  (t, [ODeleteWant; ODeleteAllow], if bool_decide (ret = OK) then gone (del false) else ret).

Definition link_trusted (env : at_env) (b : option Z) (node : Z) : bool :=
  match ae_link env b node with Some (up, auth) => up && bool_decide (auth <> AUTH_NONE) | None => false end.

(** ** The table *)

Definition is_head (node : Z) (s : option head) : bool := match s with Some a => a_node a =? node | None => false end.
(** Slot 0 is the node's own radio and never looked at. *)
Definition find_locked (node : Z) (t : att) : option nat := S <$> find_index (is_head node) (tail (tab t)).
Definition slot (i : nat) (t : att) : option head := default None (tab t !! i).
Definition put_slot (i : nat) (s : option head) (t : att) : att := set_tab (<[i := s]> (tab t)) t.
Definition on_slot (i : nat) (f : head -> head) (t : att) : att :=
  match slot i t with Some a => put_slot i (Some (f a)) t | None => t end.

Definition evict_delay_ms (env : at_env) : Z := ae_evict_sec env * 1000 / 2.
Definition evict_now (env : at_env) (a : head) : bool :=
  negb (a_link_up a) && negb (a_down_ms a =? 0) && (ae_evict_sec env * 1000 <=? ae_now env - a_down_ms a).
Definition evict_slot (env : at_env) (s : option head) : option head :=
  match s with Some a => if evict_now env a then None else Some a | None => None end.
Definition evictions (env : at_env) (l : list (option head)) : nat :=
  length (List.filter (fun s => match s with Some a => evict_now env a | None => false end) l).
Definition evict_fn (env : at_env) (t : att) : att :=
  let heads := tail (tab t) in
  let st := set_evicted (u32 (evicted (stats t) + Z.of_nat (evictions env heads))) (stats t) in
  set_evict_due (Some (ae_now env + evict_delay_ms env))
    (set_stats st (set_tab (take 1 (tab t) ++ (evict_slot env <$> heads)) t)).
Definition meshtastic_attachment_start (env : at_env) (t : att) : att :=
  match evict_due t with
  | Some _ => t
  | None => set_evict_due (Some (ae_now env + evict_delay_ms env)) t
  end.

Definition admit_locked (node : Z) (t : att) : option (nat * att) :=
  match find_index (fun s => bool_decide (s = None)) (tail (tab t)) with
  | None => None
  | Some i =>
      let i := S i in
      let a := set_a_rssi_max INT16_MIN (set_a_rssi_min INT16_MAX (set_a_preset MESHTASTIC_PRESET_UNKNOWN
                 (set_a_node node (set_a_id (u8 (Z.of_nat i)) head_zero)))) in
      Some (i, put_slot i (Some a) t)
  end.

(** ** Placement guards *)

Definition preset_slot_ms (env : at_env) (preset : Z) : Z :=
  if PRESET_MAX <? preset then 0
  else
    let p := meshtastic_preset_to_params preset false in
    meshtastic_contention_effective_slot_ms (ae_sched env) (mp_spread_factor p) (mp_bandwidth_hz p) false.
Definition router_window_ms (env : at_env) (preset : Z) : Z := u32 (5 * preset_slot_ms env preset).
Definition role_relays_early (env : at_env) : bool :=
  bool_decide (device_role (ae_chans env) = ROUTER) || bool_decide (device_role (ae_chans env) = ROUTER_LATE).
Definition lag_bites (env : at_env) (a : head) : bool :=
  negb (a_lag_n a =? 0)%nat && role_relays_early env && negb (a_preset a =? MESHTASTIC_PRESET_UNKNOWN) &&
  (router_window_ms env (a_preset a) / 2 <? a_lag_p90_ms a).

(** One turn of the insertion sort, on the sorted part read from its end. *)
Fixpoint shift_in (x : Z) (sorted_rev : list Z) : list Z :=
  match sorted_rev with
  | y :: l => if x <? y then y :: shift_in x l else x :: y :: l
  | [] => [x]
  end.
Definition lag_sort (v : list Z) : list Z := rev (foldl (fun l x => shift_in x l) [] v).

Definition lag_recompute_locked (env : at_env) (a : head) : head :=
  let n := a_lag_n a in
  if (n =? 0)%nat then a
  else
    let v := lag_sort (take n (a_lag a)) in
    let a := set_a_lag_max_ms (nth (n - 1) v 0)
               (set_a_lag_p90_ms (nth ((n * 9 + 9) / 10 - 1) v 0) (set_a_lag_p50_ms (nth ((n - 1) / 2) v 0) a)) in
    let a := set_a_warn_lag (lag_bites env a) a in
    if a_warn_lag a then set_a_warned_lag true a else a.

Definition fast_head_check_locked (env : at_env) (a : head) : head :=
  let ours := meshtastic_contention_effective_slot_ms (ae_sched env) (ae_own_modem env).1 (ae_own_modem env).2 false in
  let theirs := preset_slot_ms env (a_preset a) in
  let a := set_a_warn_fast_head (negb (theirs =? 0) && negb (ours =? 0) && (theirs <? ours)) a in
  if a_warn_fast_head a then set_a_warned_fast_head true a else a.

(** ** A channel for each preset a head brings *)

Definition channel_slot_for (cs : chans) : option nat :=
  List.find (fun i => negb (i =? 0)%nat && (ch_role (slot_at cs i) =? ROLE_DISABLED)) slot_ids.
Definition default_channel (i : nat) (p : Z) : channel :=
  Channel (Z.of_nat i) true (ChannelSettings 0 [1] (take NAME_MAX (preset_name p)) 0 false false None) ROLE_SECONDARY.
(** [store] is meshtastic_config_store_set_channel, which puts the channel in the table; its
    answer is only logged. *)
Definition auto_channel_one (store : nat -> channel -> chans -> chans) (pending : list Z) (cs : chans) (p : Z) : chans :=
  if negb (existsb (fun q => q =? p) pending) || (p =? u8 (modem_preset cs)) then cs
  else if existsb (fun i => meshtastic_channels_named_for_preset cs i p) slot_ids then cs
  else match channel_slot_for cs with Some i => store i (default_channel i p) cs | None => cs end.
Definition auto_channel_work_fn (store : nat -> channel -> chans -> chans) (cs : chans) (t : att) : att * chans :=
  (set_auto_ch_work false (set_auto_ch_pending [] t),
   foldl (auto_channel_one store (auto_ch_pending t)) cs preset_ids).

Definition note_preset_locked (i : nat) (preset : Z) (t : att) : att :=
  match slot i t with
  | None => t
  | Some a =>
      if a_preset a =? preset then t
      else
        let t := on_slot i (set_a_preset preset) t in
        if preset <=? PRESET_MAX
        then set_auto_ch_work true (set_auto_ch_pending (preset :: auto_ch_pending t) t) else t
  end.

(** ** The wanted presets *)

Definition want_find_locked (node : Z) (t : att) : option nat := find_index (fun w => w.1 =? node) (want t).
Definition want_preset (node : Z) (t : att) : option Z :=
  match want_find_locked node t with Some k => snd <$> want t !! k | None => None end.

Definition want_check_locked (env : at_env) (i : nat) (t : att) : att :=
  match slot i t with
  | None => t
  | Some a =>
      let met := match want_preset (a_node a) t with None => true | Some p => a_preset a =? p end in
      if met then on_slot i (set_a_want_asked_ms 0) t
      else if negb (a_want_asked_ms a =? 0) && (ae_now env - a_want_asked_ms a <? WANT_RETRY_MS) then t
      else set_want_work true (on_slot i (fun a => set_a_want_due true (set_a_want_asked_ms (ae_now env) a)) t)
  end.

(** One slot's turn: the region under the lock, then the send. *)
Definition want_turn (env : at_env) (i : nat) (t : att) : att * list at_out :=
  match slot i t with
  | None => (t, [])
  | Some a =>
      if negb (a_want_due a) then (t, [])
      else
        let t := on_slot i (set_a_want_due false) t in
        match want_preset (a_node a) t with
        | None => (t, [])
        | Some p =>
            if (p =? a_preset a) || (a_node a =? 0) then (t, [])
            else match meshtastic_attachment_encode_set_preset p (Some MESHTASTIC_ATTACHMENT_SET_PRESET_LEN) with
            | Val e => (t, [OSend (a_node a) e])
            | Fail _ => (t, [])
            end
        end
  end.
(** [others i] is what other threads do before slot [i]'s turn. *)
Definition want_fn (env : at_env) (others : nat -> att -> att) (t : att) : att * list at_out :=
  foldl (fun acc i => let '(t, out) := acc in
                      let '(t, more) := want_turn env i (others i t) in (t, out ++ more))
        (set_want_work false t, []) (seq 1 (length (tab t) - 1)).

Definition meshtastic_attachment_want_clear (t : att) : att * list at_out :=
  (set_want (replicate (length (want t)) (0, 0)) t, [OSaveWant]).
Definition meshtastic_attachment_wanted_preset (node : Z) (t : att) : Z :=
  if node =? 0 then MESHTASTIC_PRESET_UNKNOWN else default MESHTASTIC_PRESET_UNKNOWN (want_preset node t).

(** The entry to use: the head's own, a free one, one whose head is not attached. *)
Definition want_place (node : Z) (t : att) : option nat :=
  match want_find_locked node t with
  | Some k => Some k
  | None =>
      match want_find_locked 0 t with
      | Some k => Some k
      | None => find_index (fun w => bool_decide (find_locked w.1 t = None)) (want t)
      end
  end.
Definition want_set_locked (node preset : Z) (t : att) : att * list at_out * cret :=
  if preset =? MESHTASTIC_PRESET_UNKNOWN then
    match want_find_locked node t with
    | Some k => (set_want (<[k := (0, 0)]> (want t)) t, [OSaveWant], OK)
    | None => (t, [], OK)
    end
  else match want_place node t with
  | None => (t, [], ERR ENOSPC)
  | Some k =>
      if bool_decide (want t !! k = Some (node, preset)) then (t, [], OK)
      else (set_want (<[k := (node, preset)]> (want t)) t, [OSaveWant], OK)
  end.

(** ** What comes from the heads *)

Definition meshtastic_attachment_link_down (env : at_env) (b : option Z) (node : Z) (t : att) : att :=
  match find_locked node t with
  | None => t
  | Some i =>
      on_slot i (fun a =>
        if bool_decide (a_bearer a = b) || bool_decide (a_bearer a = None)
        then set_a_down_ms (ae_now env) (set_a_link_up false a) else a) t
  end.

(** An envelope from the head in slot [i], whatever it holds. *)
Definition heard (env : at_env) (b : option Z) (a : head) : head :=
  set_a_last_ms (ae_now env) (set_a_down_ms 0 (set_a_link_up true (set_a_bearer b a))).
Definition reject (a : head) : head := set_a_rejected (count1 (a_rejected a)) a.

Definition ingest_rx (env : at_env) (i : nat) (m : rx_frame) (t : att) : att * list at_out * cret :=
  let t := want_check_locked env i (note_preset_locked i (rf_preset m) t) in
  let t := on_slot i (fun a =>
             set_a_rssi_max (Z.max (a_rssi_max a) (rf_rssi m)) (set_a_rssi_min (Z.min (a_rssi_min a) (rf_rssi m))
               (set_a_last_snr (rf_snr m) (set_a_last_rssi (rf_rssi m) a)))) t in
  let ret := ae_inject env (rf_wire m) in
  let t := on_slot i (fun a =>
             if bool_decide (ret = OK) then set_a_rx_frames (count1 (a_rx_frames a)) a
             else set_a_rx_dropped (count1 (a_rx_dropped a)) a) t in
  (t, [OInject (rf_wire m) (match slot i t with Some a => a_id a | None => 0 end)
         (rf_preset m) (rf_rssi m) (rf_snr m) (rf_rx_ms m)], ret).

Definition ingest_status (env : at_env) (i : nat) (s : status) (t : att) : att :=
  let t := on_slot i (set_a_status (Some s)) t in
  let t := want_check_locked env i (note_preset_locked i (st_preset s) t) in
  on_slot i (fast_head_check_locked env) t.

Definition note_result (rc : Z) (a : head) : head :=
  if rc =? MESHTASTIC_ATTACHMENT_RC_CANCELLED then set_a_tx_cancelled (count1 (a_tx_cancelled a)) a
  else if rc =? - ETIME then set_a_tx_late (count1 (a_tx_late a)) a
  else if negb (rc =? 0) then set_a_tx_failed (count1 (a_tx_failed a)) a
  else a.
Definition note_lag (env : at_env) (ms : Z) (a : head) : head :=
  let a := set_a_lag (<[a_lag_next a := ms]> (a_lag a)) a in
  let a := set_a_lag_next ((a_lag_next a + 1) mod LAG_RING)%nat a in
  let a := if (a_lag_n a <? LAG_RING)%nat then set_a_lag_n (S (a_lag_n a)) a else a in
  lag_recompute_locked env a.
Definition ingest_result (env : at_env) (r : tx_result) (a : head) : head :=
  let a := set_a_last_tx_defers (tr_defers r) (set_a_last_tx_rc (tr_rc r)
             (set_a_tx_results (count1 (a_tx_results a)) a)) in
  let a := note_result (tr_rc r) a in
  if tr_has_lag r then note_lag env (tr_lag_ms r) a else a.

Definition ingest_msg (env : at_env) (i : nat) (m : attachment_msg) (t : att) : att * list at_out * cret :=
  match m with
  | MsgRx r => ingest_rx env i r t
  | MsgStatus s => (ingest_status env i s t, [], OK)
  | MsgResult r => (on_slot i (ingest_result env r) t, [], OK)
  | MsgTx _ | MsgPreset _ | MsgCancel _ _ | MsgPolicy _ _ => (on_slot i reject t, [], ERR EBADMSG)
  end.

(** The head in slot [i] has spoken. *)
Definition ingest_known (env : at_env) (b : option Z) (i : nat) (msg : res attachment_msg) (t : att) :
    att * list at_out * cret :=
  let t := on_slot i (heard env b) t in
  match msg with
  | Fail _ => (on_slot i reject t, [], ERR EBADMSG)
  | Val m => ingest_msg env i m t
  end.

Definition meshtastic_attachment_ingest_from (env : at_env) (b : option Z) (node : Z) (e : option (list Z)) (t : att) :
    att * list at_out * cret :=
  match e with
  | None => (t, [], ERR EINVAL)
  | Some e =>
      if node =? 0 then (t, [], ERR EINVAL)
      else
        let msg := meshtastic_attachment_decode e in
        match find_locked node t with
        | Some i => ingest_known env b i msg t
        | None =>
            match msg with
            | Fail _ =>
                (set_stats (set_not_admitted_malformed (count1 (not_admitted_malformed (stats t))) (stats t)) t,
                 [], ERR EBADMSG)
            | Val _ =>
                if negb (allowed_locked node t) && negb (link_trusted env b node) then
                  (set_stats (set_admission_refused (count1 (admission_refused (stats t))) (stats t)) t,
                   [], ERR EACCES)
                else match admit_locked node t with
                | None => (t, [], ERR ENOSPC)
                | Some (i, t) => ingest_known env b i msg t
                end
            end
        end
  end.
Definition meshtastic_attachment_ingest (env : at_env) (node : Z) (e : option (list Z)) (t : att) :
    att * list at_out * cret := meshtastic_attachment_ingest_from env None node e t.

Definition meshtastic_attachment_count (t : att) : nat :=
  length (List.filter (fun s => negb (bool_decide (s = None))) (tab t)).

Definition id_known (id : nat) (t : att) : bool := negb (id =? 0)%nat && (id <? length (tab t))%nat.
Definition meshtastic_attachment_note_latency (id : nat) (ms : Z) (t : att) : att :=
  if negb (id_known id t) then t
  else on_slot id (fun a =>
    let a := if (a_lat_n a =? 0) || (ms <? a_lat_min_ms a) then set_a_lat_min_ms ms a else a in
    let a := if a_lat_max_ms a <? ms then set_a_lat_max_ms ms a else a in
    set_a_lat_n (count1 (a_lat_n a)) (set_a_lat_sum_ms (u32 (a_lat_sum_ms a + ms)) a)) t.
Definition meshtastic_attachment_get (env : at_env) (id : nat) (t : att) : option head :=
  match slot id t with
  | None => None
  | Some a =>
      let a := set_a_warn_lag (lag_bites env a) a in
      Some (if (id =? 0)%nat
            then set_a_last_snr (ae_last_signal env).2 (set_a_last_rssi (ae_last_signal env).1
                   (set_a_preset (own_preset env) a))
            else a)
  end.
Definition meshtastic_attachment_id_for_node (node : Z) (t : att) : Z :=
  match find_locked node t with
  | Some i => match slot i t with Some a => a_id a | None => 0 end
  | None => 0
  end.
Definition meshtastic_attachment_forget (id : nat) (t : att) : att * cret :=
  if negb (id_known id t) then (t, ERR EINVAL) else (put_slot id None t, OK).

(** ** Which radio *)

(** Neither an ear nor a head whose transmitter is off, as far as it said. *)
Definition can_tx (a : head) : bool :=
  match a_status a with
  | None => true
  | Some s => negb (has_flag (st_flags s) MESHTASTIC_ATTACHMENT_ST_RX_ONLY) &&
              has_flag (st_flags s) MESHTASTIC_ATTACHMENT_ST_TX_ENABLED
  end.
Definition meshtastic_attachment_tx_ready (id : nat) (t : att) : bool :=
  id_known id t && match slot id t with Some a => a_link_up a && can_tx a | None => false end.

Definition for_preset_step (preset : Z) (t : att) (acc : nat * Z) (id : nat) : nat * Z :=
  match slot id t with
  | None => acc
  | Some a =>
      if negb (a_link_up a) || negb (a_preset a =? preset) then acc
      else if negb (can_tx a) then acc
      else if (acc.1 =? 0)%nat || (acc.2 <? a_last_ms a) then (id, a_last_ms a) else acc
  end.
Definition head_ids (t : att) : list nat := seq 1 (length (tab t) - 1).
Definition meshtastic_attachment_for_preset (env : at_env) (preset : Z) (t : att) : nat :=
  if (preset =? MESHTASTIC_PRESET_UNKNOWN) || (preset =? own_preset env) then 0%nat
  else (foldl (for_preset_step preset t) (0%nat, -2 ^ 63) (head_ids t)).1.

(** [ENETUNREACH] is the only failure. *)
Inductive radio_ret := ByRadio (id : nat) | NetUnreach.
Definition meshtastic_attachment_for_channel (env : at_env) (index : nat) (t : att) : radio_ret :=
  match List.find (meshtastic_channels_named_for_preset (ae_chans env) index) preset_ids with
  | None => ByRadio 0
  | Some preset =>
      let h := meshtastic_attachment_for_preset env preset t in
      if negb (h =? 0)%nat then ByRadio h else NetUnreach
  end.

(** A slot's fields as memory has them: a free slot is zeroed. *)
Definition preset_at (t : att) (id : nat) : Z := match slot id t with Some a => a_preset a | None => 0 end.
Definition last_ms_at (t : att) (id : nat) : Z := match slot id t with Some a => a_last_ms a | None => 0 end.
Fixpoint fan_place (t : att) (id : nat) (ids : list nat) : option (list nat) :=
  match ids with
  | [] => None
  | k :: l =>
      if preset_at t k =? preset_at t id
      then Some ((if last_ms_at t k <? last_ms_at t id then id else k) :: l)
      else cons k <$> fan_place t id l
  end.
Definition fan_takes (env : at_env) (a : head) : bool :=
  negb (negb (a_link_up a) || (a_preset a =? MESHTASTIC_PRESET_UNKNOWN) ||
        (a_preset a =? own_preset env)) && can_tx a.
Definition fan_step (env : at_env) (t : att) (ids : list nat) (id : nat) : list nat :=
  match slot id t with
  | Some a =>
      if fan_takes env a
      then match fan_place t id ids with Some l => l | None => ids ++ [id] end
      else ids
  | None => ids
  end.
Definition fan_ids (env : at_env) (t : att) : list nat := foldl (fan_step env t) [] (head_ids t).

Definition meshtastic_attachment_tx_hash (env : at_env) (id : nat) (index : nat) (t : att) : Z :=
  let preset := match id with
                | O => MESHTASTIC_PRESET_UNKNOWN
                | _ => match slot id t with Some a => a_preset a | None => MESHTASTIC_PRESET_UNKNOWN end
                end in
  if preset =? MESHTASTIC_PRESET_UNKNOWN then meshtastic_channels_get_hash (ae_chans env) index
  else meshtastic_channels_hash_for_preset (ae_chans env) index preset.

(** The frame for one head; [t] is the table as this turn finds it. *)
Definition fan_frame (env : at_env) (wire : list Z) (index : nat) (id : nat) (t : att) : list Z :=
  if (index <? MESHTASTIC_MAX_CHANNELS)%nat &&
     (byte_at wire WIRE_CHANNEL_OFF =? meshtastic_channels_get_hash (ae_chans env) index)
  then <[WIRE_CHANNEL_OFF := meshtastic_attachment_tx_hash env id index t]> wire else wire.
(** [later id] is the table when [id]'s turn comes. *)
Definition meshtastic_attachment_fan_out (env : at_env) (wire : option (list Z)) (tier : Z) (index : nat)
    (later : nat -> att) (t : att) : list at_out * nat :=
  match wire with
  | None => ([], 0%nat)
  | Some w =>
      if (Zlen w <? WIRE_HEADER_LEN) || (MESHTASTIC_PKT_MAX <? Zlen w) then ([], 0%nat)
      else
        let ids := fan_ids env t in
        (map (fun id => OWire (fan_frame env w index id (later id)) tier id) ids,
         length (List.filter (fun id => ae_wire_ok env (fan_frame env w index id (later id)) id) ids))
  end.

(** ** Sends to a head

    [o1], [o2], ... are what other threads do where the function has let the lock go. *)

Definition node_at (t : att) (id : nat) : Z := match slot id t with Some a => a_node a | None => 0 end.
Definition count_tx_ret (ret : cret) (id : nat) (t : att) : att :=
  on_slot id (fun a => if bool_decide (ret = OK) then set_a_tx_frames (count1 (a_tx_frames a)) a
                       else set_a_tx_failed (count1 (a_tx_failed a)) a) t.
(** The next sequence number; the increment of a freed slot's zeroes goes with the slot. *)
Definition take_seq (id : nat) (t : att) : Z * att :=
  (u16 (match slot id t with Some a => a_tx_seq a | None => 0 end + 1),
   on_slot id (fun a => set_a_tx_seq (u16 (a_tx_seq a + 1)) a) t).
Definition wire_refused (w : option (list Z)) : bool :=
  match w with None => true | Some w => (Zlen w =? 0) || (MESHTASTIC_ATTACHMENT_WIRE_MAX <? Zlen w) end.

Definition meshtastic_attachment_tx (env : at_env) (id : nat) (wire : option (list Z)) (flags : Z)
    (o1 o2 : att -> att) (t : att) : att * list at_out * cret :=
  if wire_refused wire then (t, [], ERR EINVAL)
  else if negb (meshtastic_attachment_tx_ready id t) then (t, [], ERR EHOSTUNREACH)
  else
    let t := o1 t in
    let '(seq, t') := take_seq id t in
    match meshtastic_attachment_encode_tx_frame
            (TxFrame (preset_at t id) flags seq 0 0 0 0 0 (default [] wire)) (Some MESHTASTIC_ATTACHMENT_ENV_MAX) with
    | Fail e => (t', [], ERR e)
    | Val e =>
        let ret := ae_send env (node_at t id) e in
        (count_tx_ret ret id (o2 t'), [OSend (node_at t id) e], ret)
    end.

Definition attachment_send_env (env : at_env) (id : nat) (e : list Z) (count_tx : bool)
    (o : att -> att) (t : att) : att * list at_out * cret :=
  let ret := ae_send env (node_at t id) e in
  (if count_tx then count_tx_ret ret id (o t) else t, [OSend (node_at t id) e], ret).

Definition relay_frame (preset seq : Z) (src pkt_id rx_ms not_before_ms dupe : Z) (wire : list Z) : tx_frame :=
  TxFrame preset (Z.lor MESHTASTIC_ATTACHMENT_TXF_WANT_RESULT MESHTASTIC_ATTACHMENT_TXF_RELAY) seq
    src pkt_id rx_ms not_before_ms dupe wire.
Definition meshtastic_attachment_relay (env : at_env) (id : nat) (wire : option (list Z))
    (src pkt_id rx_ms not_before_ms dupe : Z) (o1 o2 o3 : att -> att) (t : att) : att * list at_out * cret :=
  if wire_refused wire then (t, [], ERR EINVAL)
  else if negb (meshtastic_attachment_tx_ready id t) then (t, [], ERR EHOSTUNREACH)
  else
    let t := o1 t in
    let '(seq, t') := take_seq id t in
    match meshtastic_attachment_encode_tx_frame
            (relay_frame (preset_at t id) seq src pkt_id rx_ms not_before_ms dupe (default [] wire))
            (Some MESHTASTIC_ATTACHMENT_ENV_MAX) with
    | Fail e => (t', [], ERR e)
    | Val e => attachment_send_env env id e true o3 (o2 t')
    end.

Definition meshtastic_attachment_set_tx_power (env : at_env) (id : nat) (dbm : Z)
    (o : att -> att) (t : att) : att * list at_out * cret :=
  if negb (id_known id t) then (t, [], ERR EINVAL)
  else if bool_decide (slot id t = None) then (t, [], ERR ENOENT)
  else match meshtastic_attachment_encode_set_policy MESHTASTIC_ATTACHMENT_POL_HAS_TX_POWER dbm
               (Some MESHTASTIC_ATTACHMENT_SET_POLICY_LEN) with
  | Fail e => (t, [], ERR e)
  | Val e => attachment_send_env env id e false (fun t => t) (o t)
  end.

Definition meshtastic_attachment_cancel (env : at_env) (id : nat) (src pkt_id : Z)
    (o : att -> att) (t : att) : att * list at_out * cret :=
  if negb (id_known id t) then (t, [], ERR EINVAL)
  else if negb (match slot id t with Some a => a_link_up a | None => false end) then (t, [], ERR ENOTCONN)
  else match meshtastic_attachment_encode_tx_cancel src pkt_id (Some MESHTASTIC_ATTACHMENT_TX_CANCEL_LEN) with
  | Fail e => (t, [], ERR e)
  | Val e => attachment_send_env env id e false (fun t => t) (o t)
  end.

Definition meshtastic_attachment_modem (id : nat) (t : att) : option (Z * Z) :=
  if negb (id_known id t) then None
  else
    let preset := match slot id t with Some a => a_preset a | None => MESHTASTIC_PRESET_UNKNOWN end in
    if preset =? MESHTASTIC_PRESET_UNKNOWN then None
    else let p := meshtastic_preset_to_params preset false in Some (mp_spread_factor p, mp_bandwidth_hz p).

Definition meshtastic_attachment_set_preset (env : at_env) (id : nat) (preset : Z) (t : att) :
    att * list at_out * cret :=
  if (id =? 0)%nat then (t, [], ERR EINVAL)
  else if negb (preset =? MESHTASTIC_PRESET_UNKNOWN) && (PRESET_MAX <? preset) then (t, [], ERR EINVAL)
  else if negb (id_known id t) then (t, [], ERR ENOENT)
  else match slot id t with
  | None => (t, [], ERR ENOENT)
  | Some a =>
      let '(t, out, ret) := want_set_locked (a_node a) preset t in
      let t := on_slot id (fun a => set_a_want_due false (set_a_want_asked_ms (ae_now env) a)) t in
      if negb (bool_decide (ret = OK)) || (preset =? MESHTASTIC_PRESET_UNKNOWN) then (t, out, ret)
      else match meshtastic_attachment_encode_set_preset preset (Some MESHTASTIC_ATTACHMENT_SET_PRESET_LEN) with
      | Fail e => (t, out, ERR e)
      | Val e => (t, out ++ [OSend (a_node a) e], ae_send env (a_node a) e)
      end
  end.

(** ** The lag ring's order statistics *)

Lemma shift_in_perm x l : shift_in x l ≡ₚ x :: l.
Proof. induction l as [|y l IH]; cbn [shift_in]; [done|]. case_match; [rewrite IH; apply perm_swap | done]. Qed.
Lemma lag_fold_perm v : forall l, foldl (fun l x => shift_in x l) l v ≡ₚ l ++ v.
Proof.
  induction v as [|x v IH]; intros l; cbn [foldl]; [by rewrite app_nil_r|].
  rewrite IH, shift_in_perm. cbn [app]. apply Permutation_middle.
Qed.
Lemma shift_in_sorted x l : StronglySorted Z.ge l -> StronglySorted Z.ge (shift_in x l).
Proof.
  induction l as [|y l IH]; cbn [shift_in]; intros Hs; [by repeat constructor|].
  apply StronglySorted_inv in Hs as [Hs Hy]. destruct (Z.ltb_spec x y).
  - constructor; [by apply IH|]. rewrite shift_in_perm. constructor; [lia | done].
  - constructor; [by constructor|]. constructor; [lia|]. eapply Forall_impl; [exact Hy|]. cbn. lia.
Qed.
(** The sort is one: the samples, the largest last. *)
Lemma lag_sort_spec v : lag_sort v ≡ₚ v /\ StronglySorted Z.ge (rev (lag_sort v)).
Proof.
  unfold lag_sort. split.
  - rewrite <- Permutation_rev. apply (lag_fold_perm v []).
  - rewrite rev_involutive. assert (H : StronglySorted Z.ge (@nil Z)) by constructor. revert H. generalize (@nil Z).
    induction v as [|x v IH]; intros l H; cbn [foldl]; [done|]. by apply IH, shift_in_sorted.
Qed.

(** ** Choosing a radio *)

(** Slot [k] holds a head on preset [p] that can be given a frame now. *)
Definition ready_on (t : att) (p : Z) (k : nat) : bool :=
  match slot k t with Some a => a_link_up a && (a_preset a =? p) && can_tx a | None => false end.
(** Of those, the most recently heard; the lower slot where two are equal. *)
Definition best_on (t : att) (p : Z) (k : nat) : Prop :=
  (1 <= k < length (tab t))%nat /\ ready_on t p k = true /\
  forall j, (1 <= j < length (tab t))%nat -> ready_on t p j = true ->
    last_ms_at t j < last_ms_at t k \/ (last_ms_at t j = last_ms_at t k /\ (k <= j)%nat).
Definition other_preset (env : at_env) (p : Z) : Prop := p <> MESHTASTIC_PRESET_UNKNOWN /\ p <> own_preset env.

Lemma for_preset_step_eq p t acc id :
  for_preset_step p t acc id =
  if ready_on t p id then (if (acc.1 =? 0)%nat || (acc.2 <? last_ms_at t id) then (id, last_ms_at t id) else acc) else acc.
Proof.
  unfold for_preset_step, ready_on, last_ms_at. destruct (slot id t) as [a|]; [|done].
  by destruct (a_link_up a), (a_preset a =? p), (can_tx a).
Qed.

Section Choice.
Context (env : at_env) (t : att).

(** The best of the first [n] heads. *)
Definition best_upto (p : Z) (n : nat) : nat * Z := foldl (for_preset_step p t) (0%nat, -2 ^ 63) (seq 1 n).

Lemma best_upto_S p n : best_upto p (S n) = for_preset_step p t (best_upto p n) (S n).
Proof. unfold best_upto. by rewrite seq_S, foldl_app. Qed.

Lemma best_upto_spec p n :
  let '(k, ms) := best_upto p n in
  (k = 0%nat /\ forall j, (1 <= j <= n)%nat -> ready_on t p j = false) \/
  ((1 <= k <= n)%nat /\ ms = last_ms_at t k /\ ready_on t p k = true /\
   forall j, (1 <= j <= n)%nat -> ready_on t p j = true ->
     last_ms_at t j < last_ms_at t k \/ (last_ms_at t j = last_ms_at t k /\ (k <= j)%nat)).
Proof.
  induction n as [|n IH]; [left; split; [done | lia]|].
  rewrite best_upto_S, for_preset_step_eq. destruct (best_upto p n) as [k ms]. cbn [fst snd].
  destruct (ready_on t p (S n)) eqn:Hr.
  - destruct IH as [[-> IH]|(Hk & -> & Hrk & IH)].
    + right. cbn. split; [lia|]. split; [done|]. split; [done|]. intros j Hj Hrj.
      destruct (decide (j = S n)) as [->|]; [right; lia | rewrite IH in Hrj; [done | lia]].
    + assert ((k =? 0)%nat = false) as -> by (apply Nat.eqb_neq; lia). cbn [orb].
      destruct (Z.ltb_spec (last_ms_at t k) (last_ms_at t (S n))).
      * right. split; [lia|]. split; [done|]. split; [done|]. intros j Hj Hrj.
        destruct (decide (j = S n)) as [->|]; [right; lia|]. destruct (IH j); [lia | done | lia | lia].
      * right. split; [lia|]. split; [done|]. split; [done|]. intros j Hj Hrj.
        destruct (decide (j = S n)) as [->|]; [lia | apply IH; [lia | done]].
  - destruct IH as [[-> IH]|(Hk & -> & Hrk & IH)]; [left | right].
    + split; [done|]. intros j Hj. destruct (decide (j = S n)) as [->|]; [done | apply IH; lia].
    + split; [lia|]. split; [done|]. split; [done|]. intros j Hj Hrj.
      destruct (decide (j = S n)) as [->|]; [congruence | apply IH; [lia | done]].
Qed.

Lemma ready_preset p k : ready_on t p k = true -> preset_at t k = p.
Proof. unfold ready_on, preset_at. destruct (slot k t); [|done]. intros ?; by bools. Qed.

Lemma best_upto_preset p n : (best_upto p n).1 <> 0%nat -> preset_at t (best_upto p n).1 = p.
Proof.
  pose proof (best_upto_spec p n). destruct (best_upto p n) as [k ms].
  destruct H as [[-> _]|(_ & _ & ? & _)]; [done|]. intros _. by apply ready_preset.
Qed.

Lemma fan_place_None id ids : fan_place t id ids = None -> preset_at t id ∉ (preset_at t <$> ids).
Proof.
  induction ids as [|k ids IH]; cbn; [set_solver|]. destruct (Z.eqb_spec (preset_at t k) (preset_at t id)); [done|].
  destruct (fan_place t id ids); [done|]. intros _. specialize (IH eq_refl). set_solver.
Qed.
Lemma fan_place_Some id ids l : fan_place t id ids = Some l ->
  exists pre k post, ids = pre ++ k :: post /\ preset_at t k = preset_at t id /\
    l = pre ++ (if last_ms_at t k <? last_ms_at t id then id else k) :: post.
Proof.
  revert l. induction ids as [|k ids IH]; cbn; [done|]. intros l.
  destruct (Z.eqb_spec (preset_at t k) (preset_at t id)).
  - intros [= <-]. by exists [], k, ids.
  - destruct (fan_place t id ids) as [l'|]; [|done]. intros [= <-].
    destruct (IH l' eq_refl) as (pre & k' & post & -> & ? & ->). by exists (k :: pre), k', post.
Qed.

Lemma fan_takes_ready a k : slot k t = Some a ->
  fan_takes env a = true <-> other_preset env (a_preset a) /\ ready_on t (a_preset a) k = true.
Proof.
  intros Hs. unfold fan_takes, ready_on, other_preset. rewrite Hs, Z.eqb_refl.
  destruct (a_link_up a), (can_tx a); cbn; rewrite ?andb_false_r; try by intuition congruence.
  rewrite !andb_true_r, negb_true_iff, orb_false_iff, !Z.eqb_neq. intuition.
Qed.
(** The heads the fan-out has picked after [n] slots. *)
Definition fan_inv (n : nat) (ids : list nat) : Prop :=
  NoDup (preset_at t <$> ids) /\
  (forall k, k ∈ ids <-> k <> 0%nat /\ exists p, other_preset env p /\ (best_upto p n).1 = k).

Lemma fan_inv_same n ids : fan_inv n ids ->
  (forall p, other_preset env p -> (best_upto p (S n)).1 = (best_upto p n).1) -> fan_inv (S n) ids.
Proof.
  intros [Hnd Hin] Hsame. split; [done|]. intros k. rewrite Hin. split; intros (Hk & p & Hp & He); (split; [done|]); exists p; (split; [done|]);
    specialize (Hsame p Hp); congruence.
Qed.

(** The new slot [S n] is the best of its preset from now on; other presets keep theirs. *)
Lemma fan_inv_new n ids ids' p0 : fan_inv n ids -> other_preset env p0 ->
  preset_at t (S n) = p0 -> (best_upto p0 (S n)).1 = S n ->
  (forall p, p <> p0 -> (best_upto p (S n)).1 = (best_upto p n).1) ->
  NoDup (preset_at t <$> ids') ->
  (forall k, k ∈ ids' <-> k = S n \/ (k ∈ ids /\ preset_at t k <> p0)) ->
  fan_inv (S n) ids'.
Proof.
  intros [_ Hin] Hp0 Hpre Hbest Hsame Hnd Hin'. split; [done|]. intros k. rewrite Hin', Hin. split.
  - intros [->|[(Hk & p & Hp & He) Hne]]; [split; [lia | by exists p0]|].
    split; [done|]. exists p. split; [done|]. rewrite Hsame; [done|].
    intros ->. apply Hne. rewrite <- He. apply best_upto_preset. congruence.
  - intros (Hk & p & Hp & He). destruct (decide (p = p0)) as [->|Hne]; [left; congruence | right].
    rewrite Hsame in He by done. split; [split; [done | by exists p]|].
    rewrite <- He, best_upto_preset by congruence. done.
Qed.

Lemma best_upto_other p n :
  ready_on t p (S n) = false -> (best_upto p (S n)).1 = (best_upto p n).1.
Proof. intros Hr. by rewrite best_upto_S, for_preset_step_eq, Hr. Qed.

Lemma best_upto_here n : ready_on t (preset_at t (S n)) (S n) = true ->
  best_upto (preset_at t (S n)) (S n) =
  let b := best_upto (preset_at t (S n)) n in
  if (b.1 =? 0)%nat || (last_ms_at t b.1 <? last_ms_at t (S n)) then (S n, last_ms_at t (S n)) else b.
Proof.
  intros Hr. rewrite best_upto_S, for_preset_step_eq, Hr. cbv zeta.
  pose proof (best_upto_spec (preset_at t (S n)) n) as H. destruct (best_upto _ n) as [k ms]; cbn [fst snd].
  destruct H as [[-> _]|(_ & -> & _)]; done.
Qed.

Lemma best_upto_else p n : p <> preset_at t (S n) -> (best_upto p (S n)).1 = (best_upto p n).1.
Proof.
  intros Hp. apply best_upto_other. destruct (ready_on t p (S n)) eqn:E; [|done].
  destruct Hp. symmetry. by apply ready_preset.
Qed.

(** The new head meets another on its preset, or is the first there. *)
Lemma fan_inv_placed n ids l : fan_inv n ids -> other_preset env (preset_at t (S n)) ->
  ready_on t (preset_at t (S n)) (S n) = true -> fan_place t (S n) ids = Some l -> fan_inv (S n) l.
Proof.
  intros [Hnd Hin] Hop Hr (pre & k & post & -> & Hk & ->)%fan_place_Some.
  pose proof (best_upto_here n Hr) as Hb. cbv zeta in Hb.
  assert ((best_upto (preset_at t (S n)) n).1 = k /\ k <> 0%nat) as [Hbk Hk0].
  { destruct (proj1 (Hin k)) as (? & p & Hp & He); [set_solver|]. split; [|done].
    rewrite <- Hk, <- He, best_upto_preset; congruence. }
  rewrite Hbk in Hb. apply Nat.eqb_neq in Hk0 as Hk0'. rewrite Hk0' in Hb. cbn [orb] in Hb.
  destruct (last_ms_at t k <? last_ms_at t (S n)).
  - apply (fan_inv_new n (pre ++ k :: post) _ (preset_at t (S n)));
      [done | done | done | by rewrite Hb | intros; by apply best_upto_else | |].
    + rewrite !fmap_app, !fmap_cons in *. by rewrite Hk in Hnd.
    + rewrite fmap_app, fmap_cons in Hnd. apply NoDup_app in Hnd as (_ & Hpre & Hpost).
      apply NoDup_cons in Hpost as [Hpost _]. intros j. rewrite !elem_of_app, !elem_of_cons. split.
      * intros [Hj|[->|Hj]]; [right|by left|right]; (split; [tauto|]); intros He.
        -- apply (Hpre (preset_at t j)); [by apply list_elem_of_fmap_2 | rewrite He, Hk; set_solver].
        -- apply Hpost. rewrite Hk, <- He. by apply list_elem_of_fmap_2.
      * intros [->|[[Hj|[->|Hj]] ?]]; [tauto | tauto | congruence | tauto].
  - apply fan_inv_same; [by split|]. intros p Hp.
    destruct (decide (p = preset_at t (S n))) as [->|]; [by rewrite Hb | by apply best_upto_else].
Qed.
Lemma fan_inv_first n ids : fan_inv n ids -> other_preset env (preset_at t (S n)) ->
  ready_on t (preset_at t (S n)) (S n) = true -> fan_place t (S n) ids = None -> fan_inv (S n) (ids ++ [S n]).
Proof.
  intros [Hnd Hin] Hop Hr Hf%fan_place_None. pose proof (best_upto_here n Hr) as Hb. cbv zeta in Hb.
  assert (Hb0 : (best_upto (preset_at t (S n)) n).1 = 0%nat).
  { destruct (decide ((best_upto (preset_at t (S n)) n).1 = 0%nat)) as [|Hne]; [done|]. destruct Hf.
    rewrite <- (best_upto_preset _ n Hne). apply list_elem_of_fmap_2. apply Hin. split; [done|]. eauto. }
  rewrite Hb0 in Hb. cbn [Nat.eqb orb] in Hb.
  apply (fan_inv_new n ids _ (preset_at t (S n)));
    [by split | done | done | by rewrite Hb | intros; by apply best_upto_else | |].
  - rewrite fmap_app. apply NoDup_app. split; [done|]. split; [set_solver | apply NoDup_singleton].
  - intros j. rewrite elem_of_app, list_elem_of_singleton. split; [|tauto].
    intros [Hj|]; [right; split; [done|] | by left]. intros He. apply Hf. rewrite <- He. by apply list_elem_of_fmap_2.
Qed.

Lemma fan_step_inv n ids : fan_inv n ids -> fan_inv (S n) (fan_step env t ids (S n)).
Proof.
  intros Hinv. unfold fan_step. destruct (slot (S n) t) as [a|] eqn:Hs.
  2: { apply fan_inv_same; [done|]. intros p _. apply best_upto_other. unfold ready_on. by rewrite Hs. }
  assert (Hpa : preset_at t (S n) = a_preset a) by (unfold preset_at; by rewrite Hs).
  destruct (fan_takes env a) eqn:Ht.
  - apply (fan_takes_ready a (S n) Hs) in Ht as [Hop Hr]. rewrite <- Hpa in Hr, Hop.
    destruct (fan_place t (S n) ids) as [l|] eqn:Hf; [by eapply fan_inv_placed | by apply fan_inv_first].
  - apply fan_inv_same; [done|]. intros p Hp. apply best_upto_other.
    destruct (ready_on t p (S n)) eqn:Hr; [|done]. pose proof (ready_preset p (S n) Hr) as Hq.
    assert (fan_takes env a = true); [|congruence]. apply (fan_takes_ready a (S n) Hs). split; congruence.
Qed.

Lemma fan_ids_inv : fan_inv (length (tab t) - 1) (fan_ids env t).
Proof.
  unfold fan_ids, head_ids. induction (length (tab t) - 1)%nat as [|n IH].
  - split; [constructor|]. intros k. split; [by intros ?%not_elem_of_nil | intros (Hk & p & _ & He); by destruct Hk].
  - rewrite seq_S, foldl_app. by apply fan_step_inv.
Qed.
End Choice.

Lemma for_preset_spec env p t (k := meshtastic_attachment_for_preset env p t) :
  (k = 0%nat /\ (~ other_preset env p \/ forall j, (1 <= j < length (tab t))%nat -> ready_on t p j = false)) \/
  (other_preset env p /\ best_on t p k).
Proof.
  unfold k, meshtastic_attachment_for_preset. clear k. unfold other_preset.
  destruct (Z.eqb_spec p MESHTASTIC_PRESET_UNKNOWN); [left; split; [done | left; tauto]|].
  destruct (Z.eqb_spec p (own_preset env)); [left; split; [done | left; tauto]|]. cbn [orb].
  pose proof (best_upto_spec t p (length (tab t) - 1)) as H. unfold best_upto in H.
  change (seq 1 (length (tab t) - 1)) with (head_ids t) in H. destruct (foldl _ _ (head_ids t)) as [k ms]. cbn [fst].
  destruct H as [[-> H]|(Hk & _ & Hr & H)].
  - left. split; [done|]. right. intros j Hj. apply H. lia.
  - right. split; [done|]. split; [lia|]. split; [done|]. intros j Hj. apply H. lia.
Qed.
Lemma for_preset_upto env p t : other_preset env p ->
  meshtastic_attachment_for_preset env p t = (best_upto t p (length (tab t) - 1)).1.
Proof.
  intros [H1 H2]. unfold meshtastic_attachment_for_preset. apply Z.eqb_neq in H1, H2. by rewrite H1, H2.
Qed.
Lemma fan_ids_spec env t k :
  k ∈ fan_ids env t <-> k <> 0%nat /\ exists p, meshtastic_attachment_for_preset env p t = k.
Proof.
  destruct (fan_ids_inv env t) as [_ Hin]. rewrite Hin. split; intros (Hk & p & H).
  - destruct H as [Hp <-]. split; [done|]. exists p. by apply for_preset_upto.
  - split; [done|]. exists p. destruct (for_preset_spec env p t) as [[H0 _]|[Hp _]]; [congruence|].
    split; [done|]. by rewrite <- (for_preset_upto env).
Qed.
Lemma named_other env index p :
  meshtastic_channels_named_for_preset (ae_chans env) index p = true -> other_preset env p.
Proof.
  unfold meshtastic_channels_named_for_preset, other_preset, own_preset. intros H.
  apply andb_true_iff in H as [H _]. apply andb_true_iff in H as [H _]. bools. split; [|done].
  intros ->. by vm_compute in *.
Qed.

(** The heads a list of effects hands frames to. *)
Definition wired (out : list at_out) : list nat := omap (fun o => match o with OWire _ _ k => Some k | _ => None end) out.

Lemma wired_map f tier ids : wired (map (fun k => OWire (f k) tier k) ids) = ids.
Proof. induction ids as [|k ids IH]; [done|]. unfold wired in *. cbn. by rewrite IH. Qed.

Lemma fan_frame_now env w index t k : k ∈ fan_ids env t ->
  fan_frame env w index k t =
  if (index <? MESHTASTIC_MAX_CHANNELS)%nat && (byte_at w WIRE_CHANNEL_OFF =? meshtastic_channels_get_hash (ae_chans env) index)
  then <[WIRE_CHANNEL_OFF := meshtastic_channels_hash_for_preset (ae_chans env) index (preset_at t k)]> w else w.
Proof.
  intros Hid. unfold fan_frame. destruct (_ && _); [|done]. f_equal.
  apply fan_ids_spec in Hid as (Hk & p & Hp). destruct (for_preset_spec env p t) as [[H0 _]|[[Hu _] (Hr & Hrd & _)]]; [congruence|].
  rewrite Hp in Hrd. unfold meshtastic_attachment_tx_hash, preset_at. destruct k as [|k]; [done|].
  apply ready_preset in Hrd as Hpre. unfold preset_at in Hpre. unfold ready_on in Hrd. destruct (slot (S k) t) as [a|]; [|done].
  rewrite Hpre. apply Z.eqb_neq in Hu. by rewrite Hu.
Qed.

Lemma fan_out_exact env t w tier index later (frame := fun k =>
    if (index <? MESHTASTIC_MAX_CHANNELS)%nat && (byte_at w WIRE_CHANNEL_OFF =? meshtastic_channels_get_hash (ae_chans env) index)
    then <[WIRE_CHANNEL_OFF := meshtastic_channels_hash_for_preset (ae_chans env) index (preset_at t k)]> w else w) :
  WIRE_HEADER_LEN <= Zlen w <= MESHTASTIC_PKT_MAX ->
  wired (meshtastic_attachment_fan_out env (Some w) tier index later t).1 = fan_ids env t /\
  meshtastic_attachment_fan_out env (Some w) tier index (fun _ => t) t =
    ((fun k => OWire (frame k) tier k) <$> fan_ids env t,
     length (filter (fun k => ae_wire_ok env (frame k) k = true) (fan_ids env t))).
Proof.
  intros Hw. unfold meshtastic_attachment_fan_out.
  rewrite (proj2 (Z.ltb_ge (Zlen w) WIRE_HEADER_LEN)), (proj2 (Z.ltb_ge MESHTASTIC_PKT_MAX (Zlen w))) by lia. cbn [orb fst].
  split; [apply wired_map|]. pose proof (fun k => fan_frame_now env w index t k) as Hf. f_equal.
  - apply map_ext_in. intros k Hk%list_elem_of_In. unfold frame. by rewrite Hf.
  - induction (fan_ids env t) as [|k ids IH]; [done|]. cbn [List.filter]. rewrite filter_cons.
    rewrite Hf by left. fold (frame k). specialize (IH (fun k0 H => Hf k0 (list_elem_of_further _ _ _ H))).
    destruct (ae_wire_ok env (frame k) k); [rewrite decide_True by done | by rewrite decide_False].
    cbn [length]. by rewrite IH.
Qed.

(** C14: a packet leaves by the right radio. For one preset, that is the most recently heard
    head on it that is up and can transmit, none for the node's own. A channel named for
    another preset goes to that preset's head or, with none ready, nowhere, never to the
    node's own radio; any other channel goes to the own radio. A packet for every preset is
    handed, once each, to exactly the heads that a packet for one preset would go to, one for
    each preset that has one, whatever becomes of the table meanwhile; the frame for each is
    the frame given, with the slot's hash, where it bore it, replaced by the slot's hash under
    the preset the head is on, and the result counts the heads that took it. A frame without a
    whole header or longer than a packet goes nowhere. *)
Theorem packet_leaves_by_right_radio env t :
  (forall p, let k := meshtastic_attachment_for_preset env p t in
     (k = 0%nat /\ (~ other_preset env p \/ forall j, (1 <= j < length (tab t))%nat -> ready_on t p j = false)) \/
     (other_preset env p /\ best_on t p k)) /\
  (forall index, let named := meshtastic_channels_named_for_preset (ae_chans env) index in
     match meshtastic_attachment_for_channel env index t with
     | ByRadio O => forall p, p ∈ preset_ids -> named p = false
     | ByRadio k => exists p, named p = true /\ best_on t p k
     | NetUnreach => exists p, named p = true /\ forall j, (1 <= j < length (tab t))%nat -> ready_on t p j = false
     end) /\
  NoDup (preset_at t <$> fan_ids env t) /\
  (forall k, k ∈ fan_ids env t <-> k <> 0%nat /\ exists p, meshtastic_attachment_for_preset env p t = k) /\
  (forall w tier index later, WIRE_HEADER_LEN <= Zlen w <= MESHTASTIC_PKT_MAX ->
     wired (meshtastic_attachment_fan_out env (Some w) tier index later t).1 = fan_ids env t /\
     let frame k :=
       if (index <? MESHTASTIC_MAX_CHANNELS)%nat && (byte_at w WIRE_CHANNEL_OFF =? meshtastic_channels_get_hash (ae_chans env) index)
       then <[WIRE_CHANNEL_OFF := meshtastic_channels_hash_for_preset (ae_chans env) index (preset_at t k)]> w else w in
     meshtastic_attachment_fan_out env (Some w) tier index (fun _ => t) t =
       ((fun k => OWire (frame k) tier k) <$> fan_ids env t,
        length (filter (fun k => ae_wire_ok env (frame k) k = true) (fan_ids env t)))) /\
  (forall wire tier index later, (forall w, wire = Some w -> ~ WIRE_HEADER_LEN <= Zlen w <= MESHTASTIC_PKT_MAX) ->
     meshtastic_attachment_fan_out env wire tier index later t = ([], 0%nat)).
Proof.
  split; [intros p; apply for_preset_spec|]. split; [|split; [apply (fan_ids_inv env t)|split; [apply fan_ids_spec|]]].
  - intros index. cbv zeta. unfold meshtastic_attachment_for_channel.
    destruct (List.find _ preset_ids) as [p|] eqn:Ef.
    + apply List.find_some in Ef as [_ Hn]. pose proof (named_other env index p Hn) as Ho.
      destruct (for_preset_spec env p t) as [[Hk Hno]|[_ Hbest]].
      * rewrite Hk. cbn [Nat.eqb negb]. exists p. split; [done|]. destruct Hno; [done | done].
      * destruct (meshtastic_attachment_for_preset env p t) as [|k]; [destruct Hbest; lia|].
        cbn [Nat.eqb negb]. by exists p.
    + intros p Hp%list_elem_of_In. by apply (List.find_none _ _ Ef).
  - split.
    + intros w tier index later Hw. apply (fan_out_exact env t w tier index later Hw).
    + intros wire tier index later Hw. unfold meshtastic_attachment_fan_out. destruct wire as [w|]; [|done].
      specialize (Hw w eq_refl). destruct (Z.ltb_spec (Zlen w) WIRE_HEADER_LEN), (Z.ltb_spec MESHTASTIC_PKT_MAX (Zlen w)); try done. lia.
Qed.

(** ** The table over time *)

Inductive at_event :=
  | EvEnvelope (env : at_env) (b : option Z) (node : Z) (e : option (list Z))
  | EvLinkDown (env : at_env) (b : option Z) (node : Z)
  | EvStart (env : at_env)
  | EvEvict (env : at_env)
  | EvForget (id : nat)
  | EvAllowAdd (node : Z)
  | EvAllowClear
  | EvSettings (k : at_setting)
  | EvIntentClear (del : bool -> cret)
  | EvLatency (id : nat) (ms : Z)
  | EvAutoChannels (store : nat -> channel -> chans -> chans) (cs : chans)
  | EvWanted (env : at_env)
  | EvWantClear
  | EvSetPreset (env : at_env) (id : nat) (preset : Z)
  | EvTx (env : at_env) (id : nat) (wire : option (list Z)) (flags : Z)
  | EvRelay (env : at_env) (id : nat) (wire : option (list Z)) (src pkt_id rx_ms not_before_ms dupe : Z).
Definition at_step (t : att) (ev : at_event) : att * list at_out :=
  match ev with
  | EvEnvelope env b node e => (meshtastic_attachment_ingest_from env b node e t).1
  | EvLinkDown env b node => (meshtastic_attachment_link_down env b node t, [])
  | EvStart env => (meshtastic_attachment_start env t, [])
  | EvEvict env => (evict_fn env t, [])
  | EvForget id => ((meshtastic_attachment_forget id t).1, [])
  | EvAllowAdd node => (meshtastic_attachment_allow_add node t).1
  | EvAllowClear => meshtastic_attachment_allow_clear t
  | EvSettings k => ((attach_settings_set k t).1, [])
  | EvIntentClear del => (brain_intent_clear del t).1
  | EvLatency id ms => (meshtastic_attachment_note_latency id ms t, [])
  | EvAutoChannels store cs => ((auto_channel_work_fn store cs t).1, [])
  | EvWanted env => want_fn env (fun _ t => t) t
  | EvWantClear => meshtastic_attachment_want_clear t
  | EvSetPreset env id preset => (meshtastic_attachment_set_preset env id preset t).1
  | EvTx env id wire flags => (meshtastic_attachment_tx env id wire flags (fun t => t) (fun t => t) t).1
  | EvRelay env id wire src pkt_id rx_ms nb dupe =>
      (meshtastic_attachment_relay env id wire src pkt_id rx_ms nb dupe (fun t => t) (fun t => t) (fun t => t) t).1
  end.
Definition at_run (t : att) (evs : list at_event) : att * list at_out :=
  foldl (fun acc ev => let '(t, out) := acc in let '(t, more) := at_step t ev in (t, out ++ more)) (t, []) evs.

(** Who is in which slot: node and attachment id. *)
Definition who_in (s : option head) : option (Z * Z) := (fun a => (a_node a, a_id a)) <$> s.
Definition who (t : att) : list (option (Z * Z)) := who_in <$> tab t.
Definition keeps_who (f : head -> head) : Prop := forall a, a_node (f a) = a_node a /\ a_id (f a) = a_id a.
(** Slots are given up, never handed on. *)
Definition who_less (l l' : list (option (Z * Z))) : Prop := forall i x, l' !! i = Some (Some x) -> l !! i = Some (Some x).

#[export] Instance who_less_refl : Reflexive who_less.
Proof. by intros l i x. Qed.
#[export] Instance who_less_trans : Transitive who_less.
Proof. intros l l' l'' H1 H2 i x H. by apply H1, H2. Qed.

Lemma slot_lookup i t a : slot i t = Some a -> tab t !! i = Some (Some a).
Proof. unfold slot. destruct (tab t !! i) as [[]|]; cbn; congruence. Qed.
Lemma who_on_slot i f t : keeps_who f -> who (on_slot i f t) = who t.
Proof.
  intros Hf. unfold on_slot. destruct (slot i t) as [a|] eqn:E; [|done]. apply slot_lookup in E.
  unfold who, put_slot. cbn [tab set_tab]. rewrite list_fmap_insert. apply list_insert_id.
  rewrite list_lookup_fmap, E. cbn. destruct (Hf a) as [-> ->]. done.
Qed.
Lemma who_free_slot i t : who_less (who t) (who (put_slot i None t)).
Proof.
  intros j x. unfold who, put_slot. cbn [tab set_tab]. rewrite list_fmap_insert. cbn.
  intros [[_ H]|[Hne H]]%list_lookup_insert_Some; [destruct H; congruence | done].
Qed.

Lemma keeps_id : keeps_who id.
Proof. done. Qed.
Ltac keeps := intros ?; repeat case_match; split; reflexivity.

Lemma keeps_lag env : keeps_who (lag_recompute_locked env).
Proof. unfold lag_recompute_locked. keeps. Qed.
Lemma keeps_fast env : keeps_who (fast_head_check_locked env).
Proof. unfold fast_head_check_locked. keeps. Qed.
Lemma keeps_heard env b : keeps_who (heard env b).
Proof. unfold heard. keeps. Qed.
Lemma keeps_reject : keeps_who reject.
Proof. unfold reject. keeps. Qed.
Lemma keeps_compose f g : keeps_who f -> keeps_who g -> keeps_who (fun a => g (f a)).
Proof. intros Hf Hg a. destruct (Hf a), (Hg (f a)). split; congruence. Qed.
Lemma keeps_note_result rc : keeps_who (note_result rc).
Proof. unfold note_result. keeps. Qed.
Lemma keeps_note_lag env ms : keeps_who (note_lag env ms).
Proof.
  intros a. unfold note_lag. match goal with |- context [lag_recompute_locked env ?x] => destruct (keeps_lag env x) as [-> ->] end.
  case_match; split; reflexivity.
Qed.
Lemma keeps_result env r : keeps_who (ingest_result env r).
Proof.
  intros a. unfold ingest_result.
  match goal with |- context [note_result (tr_rc r) ?x] => destruct (keeps_note_result (tr_rc r) x) as [H1 H2]; set (y := note_result (tr_rc r) x) in * end.
  destruct (tr_has_lag r); [destruct (keeps_note_lag env (tr_lag_ms r) y) as [-> ->]|]; split; (rewrite H1 || rewrite H2); reflexivity.
Qed.

(** Every operation but an envelope leaves who is in which slot, or frees slots; none but an
    envelope hands the router a frame. *)
Definition no_inject (out : list at_out) : Prop := forall w id p r s ms, OInject w id p r s ms ∉ out.
Lemma who_note_preset i p t : who (note_preset_locked i p t) = who t.
Proof.
  unfold note_preset_locked. destruct (slot i t); [|done]. case_match; [done|].
  assert (who (on_slot i (set_a_preset p) t) = who t) by (apply who_on_slot; keeps). by case_match.
Qed.
Lemma who_want_check env i t : who (want_check_locked env i t) = who t.
Proof. unfold want_check_locked. destruct (slot i t); [|done]. repeat case_match; try done; apply who_on_slot; keeps. Qed.
Lemma who_rx env i m t : who (ingest_rx env i m t).1.1 = who t.
Proof.
  unfold ingest_rx. cbn [fst]. rewrite who_on_slot by (intros ?; case_match; split; reflexivity).
  rewrite who_on_slot by keeps. by rewrite who_want_check, who_note_preset.
Qed.
Lemma who_status env i s t : who (ingest_status env i s t) = who t.
Proof.
  unfold ingest_status. rewrite who_on_slot by apply keeps_fast. rewrite who_want_check, who_note_preset.
  apply who_on_slot. keeps.
Qed.
Lemma who_known env b i msg t : who (ingest_known env b i msg t).1.1 = who t.
Proof.
  unfold ingest_known. assert (H : who (on_slot i (heard env b) t) = who t) by (apply who_on_slot, keeps_heard).
  set (u := on_slot i (heard env b) t) in *. clearbody u. destruct msg as [[r|x|r|s|p|src id|f p]|e]; cbn [ingest_msg fst];
    rewrite ?who_rx, ?who_status; [done|..]; try (rewrite who_on_slot; [done|apply keeps_reject || apply keeps_result]). done.
Qed.
Lemma who_want_turn env i t : who (want_turn env i t).1 = who t /\ no_inject (want_turn env i t).2.
Proof.
  unfold want_turn. destruct (slot i t) as [a|]; [|split; [done | intros ???????; set_solver]].
  destruct (negb _); [split; [done | intros ???????; set_solver]|].
  assert (H : who (on_slot i (set_a_want_due false) t) = who t) by (apply who_on_slot; keeps).
  repeat case_match; (split; [done|]); intros ???????; set_solver.
Qed.
Lemma who_want_fn env t : who (want_fn env (fun _ t => t) t).1 = who t /\ no_inject (want_fn env (fun _ t => t) t).2.
Proof.
  unfold want_fn. set (l := seq 1 _). clearbody l.
  assert (H : forall u out, who u = who t -> no_inject out ->
    let r := foldl (fun acc i => let '(t, out) := acc in let '(t, more) := want_turn env i t in (t, out ++ more)) (u, out) l in
    who r.1 = who t /\ no_inject r.2).
  { induction l as [|i l IH]; intros u out Hu Ho; cbn [foldl]; [done|].
    destruct (who_want_turn env i u) as [Hw Hn]. destruct (want_turn env i u) as [u' more]. cbn [fst snd] in *.
    apply IH; [congruence|]. intros w id p r s ms. rewrite elem_of_app. specialize (Ho w id p r s ms). specialize (Hn w id p r s ms). tauto. }
  apply H; [done | intros ???????; set_solver].
Qed.
Lemma who_evict env t : who_less (who t) (who (evict_fn env t)).
Proof.
  assert (Ht : tab (evict_fn env t) = take 1 (tab t) ++ (evict_slot env <$> tail (tab t))) by done.
  intros i x. unfold who. rewrite Ht. destruct (tab t) as [|s0 l]; [done|]. destruct i as [|i]; [done|].
  cbn [take tail app]. rewrite !fmap_cons. cbn [lookup list_lookup]. fold (lookup (M := list (option (Z * Z)))).
  intros H. apply list_lookup_fmap_Some in H as (y & Hx & H). apply list_lookup_fmap_Some in H as (z & -> & H).
  apply list_lookup_fmap_Some. exists z. split; [|done]. destruct z as [a|]; cbn [evict_slot] in *; [|done]. by case_match.
Qed.
Lemma who_count_tx ret id t : who (count_tx_ret ret id t) = who t.
Proof. apply who_on_slot. keeps. Qed.
Lemma who_want_set node p t : who (want_set_locked node p t).1.1 = who t /\ no_inject (want_set_locked node p t).1.2.
Proof. unfold want_set_locked. repeat case_match; (split; [done|]); intros ???????; set_solver. Qed.

Lemma no_inject_nil : no_inject [].
Proof. intros ???????. set_solver. Qed.
#[local] Hint Resolve no_inject_nil : core.
Lemma no_inject_app l l' : no_inject l -> no_inject l' -> no_inject (l ++ l').
Proof. intros H H' w i p r s ms. rewrite elem_of_app. intros [?|?]; [by eapply H | by eapply H']. Qed.
Lemma no_inject_send n e : no_inject [OSend n e].
Proof. intros ???????. set_solver. Qed.

Lemma who_set_preset env id p t :
  who (meshtastic_attachment_set_preset env id p t).1.1 = who t /\ no_inject (meshtastic_attachment_set_preset env id p t).1.2.
Proof.
  unfold meshtastic_attachment_set_preset. repeat (case_match; [split; [reflexivity | auto]|]).
  destruct (slot id t) as [a|]; [|split; [reflexivity | auto]].
  destruct (who_want_set (a_node a) p t) as [Hw Hn]. destruct (want_set_locked _ _ _) as [[u out] ret]. cbn [fst snd] in *.
  assert (Hu : who (on_slot id (fun a => set_a_want_due false (set_a_want_asked_ms (ae_now env) a)) u) = who t).
  { rewrite who_on_slot by keeps. exact Hw. }
  revert Hu. generalize (on_slot id (fun a => set_a_want_due false (set_a_want_asked_ms (ae_now env) a)) u). intros v Hv.
  repeat case_match; (split; [exact Hv|]); try exact Hn. apply no_inject_app; [exact Hn | apply no_inject_send].
Qed.
Lemma who_take_seq id t : who (take_seq id t).2 = who t.
Proof. unfold take_seq. apply who_on_slot. keeps. Qed.
Lemma who_tx env id wire fl t :
  let r := meshtastic_attachment_tx env id wire fl (fun t => t) (fun t => t) t in who r.1.1 = who t /\ no_inject r.1.2.
Proof.
  unfold meshtastic_attachment_tx. repeat (case_match; [split; [reflexivity | auto]|]). cbv beta zeta.
  pose proof (who_take_seq id t) as Ht. destruct (take_seq id t) as [sq u]. cbn [snd] in Ht.
  case_match; cbn [fst snd]; (split; [rewrite ?who_count_tx; exact Ht|]); [apply no_inject_send | auto].
Qed.
Lemma who_relay env id wire src pid rx nb d t :
  let r := meshtastic_attachment_relay env id wire src pid rx nb d (fun t => t) (fun t => t) (fun t => t) t in
  who r.1.1 = who t /\ no_inject r.1.2.
Proof.
  unfold meshtastic_attachment_relay. repeat (case_match; [split; [reflexivity | auto]|]). cbv beta zeta.
  pose proof (who_take_seq id t) as Ht. destruct (take_seq id t) as [sq u]. cbn [snd] in Ht.
  case_match; unfold attachment_send_env; cbn [fst snd]; (split; [rewrite ?who_count_tx; exact Ht|]); [apply no_inject_send | auto].
Qed.
Lemma who_link_down env b node t : who (meshtastic_attachment_link_down env b node t) = who t.
Proof. unfold meshtastic_attachment_link_down. case_match; [|reflexivity]. apply who_on_slot. keeps. Qed.
Lemma who_latency id ms t : who (meshtastic_attachment_note_latency id ms t) = who t.
Proof. unfold meshtastic_attachment_note_latency. case_match; [reflexivity|]. apply who_on_slot. keeps. Qed.
Lemma who_allow_add node t : who (meshtastic_attachment_allow_add node t).1.1 = who t /\ no_inject (meshtastic_attachment_allow_add node t).1.2.
Proof. unfold meshtastic_attachment_allow_add. repeat case_match; (split; [reflexivity|]); intros ???????; set_solver. Qed.
Lemma who_settings k t : who (attach_settings_set k t).1 = who t.
Proof. unfold attach_settings_set. by repeat case_match. Qed.

Lemma who_kept l l' o : l' = l /\ no_inject o -> who_less l l' /\ no_inject o.
Proof. by intros [-> ?]. Qed.
Definition not_envelope (ev : at_event) : Prop := match ev with EvEnvelope _ _ _ _ => False | _ => True end.
Lemma who_step t ev : not_envelope ev -> who_less (who t) (who (at_step t ev).1) /\ no_inject (at_step t ev).2.
Proof.
  destruct ev; intros He; [destruct He|..].
  - apply who_kept. split; [apply who_link_down | exact no_inject_nil].
  - apply who_kept. split; [cbn; unfold meshtastic_attachment_start; by case_match | exact no_inject_nil].
  - split; [apply who_evict | exact no_inject_nil].
  - split; [|exact no_inject_nil]. cbn. unfold meshtastic_attachment_forget. case_match; [reflexivity | apply who_free_slot].
  - apply who_kept, who_allow_add.
  - apply who_kept. split; [reflexivity|]. intros ???????. cbn. set_solver.
  - apply who_kept. split; [apply who_settings | exact no_inject_nil].
  - apply who_kept. split; [reflexivity|]. intros ???????. cbn. set_solver.
  - apply who_kept. split; [apply who_latency | exact no_inject_nil].
  - apply who_kept. split; [reflexivity | exact no_inject_nil].
  - apply who_kept, who_want_fn.
  - apply who_kept. split; [reflexivity|]. intros ???????. cbn. set_solver.
  - apply who_kept, who_set_preset.
  - apply who_kept, who_tx.
  - apply who_kept, who_relay.
Qed.

Lemma who_slot i t x : who t !! i = Some (Some x) <-> exists a, slot i t = Some a /\ x = (a_node a, a_id a).
Proof.
  unfold who, slot. rewrite list_lookup_fmap_Some. split.
  - intros (s & Hx & Hs). rewrite Hs. cbn. destruct s as [a|]; [|done]. injection Hx as ->. by exists a.
  - intros (a & Ha & ->). destruct (tab t !! i) as [s|]; cbn in Ha; [|done]. subst s. by exists (Some a).
Qed.
Lemma find_locked_some node t i : find_locked node t = Some i ->
  (1 <= i)%nat /\ exists k, who t !! i = Some (Some (node, k)).
Proof.
  unfold find_locked. destruct (find_index _ _) as [j|] eqn:E; [|done]. intros [= <-]. split; [lia|].
  apply find_index_Some_1 in E as (s & Hs & Hn). destruct s as [a|]; [|done]. cbn in Hn. apply Z.eqb_eq in Hn.
  exists (a_id a). apply who_slot. exists a. split; [|by rewrite Hn]. unfold slot. destruct (tab t) as [|s0 l]; [done|].
  cbn [tail] in Hs. change ((s0 :: l) !! S j) with (l !! j). by rewrite Hs.
Qed.
Lemma find_locked_none node t i k : find_locked node t = None -> (1 <= i)%nat -> who t !! i <> Some (Some (node, k)).
Proof.
  unfold find_locked. intros Hf Hi Hw. apply who_slot in Hw as (a & Ha & [= -> ->]). apply slot_lookup in Ha.
  destruct (find_index _ _) eqn:E; [done|]. rewrite find_index_None in E. destruct i as [|i]; [lia|].
  destruct (tab t) as [|s0 l]; [done|]. specialize (E i (Some a) Ha). cbn in E. by apply Z.eqb_neq in E.
Qed.
Lemma admit_who node t i u : admit_locked node t = Some (i, u) ->
  (1 <= i)%nat /\ who t !! i = Some None /\ who u = <[i := Some (node, u8 (Z.of_nat i))]> (who t).
Proof.
  unfold admit_locked. destruct (find_index _ _) as [j|] eqn:E; [|done]. intros [= <- <-]. split; [lia|].
  apply find_index_Some_1 in E as (s & Hs & Hn). bools. subst s. split.
  - unfold who. rewrite list_lookup_fmap. destruct (tab t) as [|s0 l]; [done|]. cbn [tail] in Hs.
    change ((s0 :: l) !! S j) with (l !! j). by rewrite Hs.
  - unfold who, put_slot. cbn [tab set_tab]. by rewrite list_fmap_insert.
Qed.

Lemma known_inject env b i msg t x w id p rssi snr ms : who t !! i = Some (Some x) ->
  OInject w id p rssi snr ms ∈ (ingest_known env b i msg t).1.2 ->
  id = x.2 /\ exists m, msg = Val (MsgRx m) /\ (w, p, rssi, snr, ms) = (rf_wire m, rf_preset m, rf_rssi m, rf_snr m, rf_rx_ms m).
Proof.
  intros Hx. pose proof (who_known env b i msg t) as Hk. unfold ingest_known in *.
  set (u := on_slot i (heard env b) t) in *. clearbody u.
  destruct msg as [[m|y|r|s|q|src pid|f q]|e]; cbn [ingest_msg fst snd]; try set_solver.
  cbn [ingest_msg] in Hk. unfold ingest_rx in Hk |- *. cbn [fst snd] in Hk |- *.
  match goal with |- context [slot i ?v] => set (z := v) in * end. clearbody z.
  intros [= -> -> -> -> -> ->]%list_elem_of_singleton. split; [|by exists m].
  assert (Hz : who z !! i = Some (Some x)) by (by rewrite Hk). apply who_slot in Hz as (a & -> & ->). done.
Qed.

(** An envelope: whom it may admit, and what it may hand to the router. *)
Definition may_enter (env : at_env) (b : option Z) (node : Z) (e : list Z) (t : att) : Prop :=
  node <> 0 /\ (exists m, meshtastic_attachment_decode e = Val m) /\
  (allowed_locked node t = true \/ link_trusted env b node = true).
Lemma envelope_who env b node e t (t' := (meshtastic_attachment_ingest_from env b node (Some e) t).1.1) :
  who t' = who t \/
  (find_locked node t = None /\ may_enter env b node e t /\
   exists i, (1 <= i)%nat /\ who t !! i = Some None /\ who t' = <[i := Some (node, u8 (Z.of_nat i))]> (who t)).
Proof.
  unfold t', meshtastic_attachment_ingest_from. destruct (Z.eqb_spec node 0) as [->|Hn]; [by left|].
  destruct (find_locked node t) as [i|] eqn:Ef; [left; apply who_known|].
  destruct (meshtastic_attachment_decode e) as [m|er] eqn:Ed; [|by left].
  destruct (negb (allowed_locked node t) && negb (link_trusted env b node)) eqn:Et; [by left|].
  destruct (admit_locked node t) as [[i u]|] eqn:Ea; [|by left]. right. split; [done|]. split.
  - split; [done|]. split; [eauto|]. apply andb_false_iff in Et as [Et|Et]; bools; auto.
  - apply admit_who in Ea as (Hi & Hfree & Hu). exists i. split; [done|]. split; [done|]. by rewrite who_known.
Qed.
Lemma envelope_inject env b node e t (r := meshtastic_attachment_ingest_from env b node (Some e) t) w id p rssi snr ms :
  OInject w id p rssi snr ms ∈ r.1.2 ->
  (exists i, (1 <= i)%nat /\ who r.1.1 !! i = Some (Some (node, id))) /\
  exists m, meshtastic_attachment_decode e = Val (MsgRx m) /\
    (w, p, rssi, snr, ms) = (rf_wire m, rf_preset m, rf_rssi m, rf_snr m, rf_rx_ms m).
Proof.
  unfold r, meshtastic_attachment_ingest_from. clear r. destruct (node =? 0); [set_solver|].
  destruct (find_locked node t) as [i|] eqn:Ef.
  - apply find_locked_some in Ef as (Hi & k & Hk). intros Hin.
    destruct (known_inject env b i _ t _ _ _ _ _ _ _ Hk Hin) as (-> & Hm). split; [|done].
    exists i. split; [done|]. by rewrite who_known.
  - destruct (meshtastic_attachment_decode e) as [m|er]; [|set_solver]. destruct (_ && _); [set_solver|].
    destruct (admit_locked node t) as [[i u]|] eqn:Ea; [|set_solver]. apply admit_who in Ea as (Hi & Hfree & Hu). intros Hin.
    assert (Hk : who u !! i = Some (Some (node, u8 (Z.of_nat i)))).
    { rewrite Hu. apply list_lookup_insert_eq. by apply lookup_lt_Some in Hfree. }
    destruct (known_inject env b i _ u _ _ _ _ _ _ _ Hk Hin) as (-> & Hm). split; [|done].
    exists i. split; [done|]. by rewrite who_known.
Qed.

(** One slot per head, each with its slot's number. *)
Definition who_ok (l : list (option (Z * Z))) : Prop :=
  forall i n k, (1 <= i)%nat -> l !! i = Some (Some (n, k)) -> n <> 0 /\ k = u8 (Z.of_nat i) /\
    forall j k', (1 <= j)%nat -> l !! j = Some (Some (n, k')) -> j = i.
Lemma who_ok_less l l' : who_less l l' -> who_ok l -> who_ok l'.
Proof.
  intros Hl Hok i n k Hi Hk. destruct (Hok i n k Hi (Hl _ _ Hk)) as (? & ? & Hu). split; [done|]. split; [done|].
  intros j k' Hj Hk'. apply (Hu j k' Hj (Hl _ _ Hk')).
Qed.
Lemma who_ok_enter l i n : who_ok l -> n <> 0 -> (1 <= i)%nat ->
  (forall j k, (1 <= j)%nat -> l !! j <> Some (Some (n, k))) -> who_ok (<[i := Some (n, u8 (Z.of_nat i))]> l).
Proof.
  intros Hok Hn Hi Hnone j m k Hj. intros [(-> & [= <- <-] & _)|[Hne Hl]]%list_lookup_insert_Some.
  - split; [done|]. split; [done|]. intros j' k' Hj' [(-> & _)|[_ Hl]]%list_lookup_insert_Some; [done | by destruct (Hnone j' k')].
  - destruct (Hok j m k Hj Hl) as (? & ? & Hu). split; [done|]. split; [done|].
    intros j' k' Hj' [(-> & E & _)|[_ Hl']]%list_lookup_insert_Some; [|by apply (Hu j' k')].
    injection E as -> _. by destruct (Hnone j k).
Qed.
Lemma step_who_ok t ev : who_ok (who t) -> who_ok (who (at_step t ev).1).
Proof.
  intros Hok. destruct ev; try (by eapply who_ok_less; [apply who_step|]). destruct e as [e|]; [|exact Hok].
  destruct (envelope_who env b node e t) as [H|(Hf & (Hn & _) & i & Hi & _ & H)]; cbn [at_step]; rewrite H; [done|].
  apply who_ok_enter; [done | done | done|]. intros j k Hj. by apply find_locked_none.
Qed.

(** ** Whose frames the router gets *)

Definition no_heads (t : att) : Prop := forall i x, (1 <= i)%nat -> who t !! i <> Some (Some x).
(** At some point the head was let in: by its link or by the operator's list. *)
Definition vouched (t0 : att) (evs : list at_event) (node : Z) : Prop :=
  exists pre env b e post, evs = pre ++ EvEnvelope env b node (Some e) :: post /\ may_enter env b node e (at_run t0 pre).1.
Definition injected_by (t0 : att) (evs : list at_event) (w : list Z) (id p rssi snr ms : Z) : Prop :=
  exists pre env b node e post m i,
    evs = pre ++ EvEnvelope env b node (Some e) :: post /\
    meshtastic_attachment_decode e = Val (MsgRx m) /\
    (w, p, rssi, snr, ms) = (rf_wire m, rf_preset m, rf_rssi m, rf_snr m, rf_rx_ms m) /\
    vouched t0 (pre ++ [EvEnvelope env b node (Some e)]) node /\
    (1 <= i)%nat /\ id = u8 (Z.of_nat i) /\
    who (at_run t0 (pre ++ [EvEnvelope env b node (Some e)])).1 !! i = Some (Some (node, id)).

Lemma at_run_snoc t0 evs ev : at_run t0 (evs ++ [ev]) =
  ((at_step (at_run t0 evs).1 ev).1, (at_run t0 evs).2 ++ (at_step (at_run t0 evs).1 ev).2).
Proof.
  unfold at_run. rewrite foldl_app. cbn [foldl]. destruct (foldl _ _ evs) as [t out]. cbn [fst snd].
  by destruct (at_step t ev).
Qed.
Lemma vouched_snoc t0 evs ev n : vouched t0 evs n -> vouched t0 (evs ++ [ev]) n.
Proof. intros (pre & env & b & e & post & -> & H). exists pre, env, b, e, (post ++ [ev]). by rewrite <- app_assoc. Qed.

Lemma run_vouched t0 evs : no_heads t0 ->
  who_ok (who (at_run t0 evs).1) /\
  forall i n k, (1 <= i)%nat -> who (at_run t0 evs).1 !! i = Some (Some (n, k)) -> vouched t0 evs n.
Proof.
  intros H0. induction evs as [|ev evs [IHok IH]] using rev_ind.
  { cbn. split; [intros i n k Hi Hk; by destruct (H0 i (n, k)) | intros i n k Hi Hk; by destruct (H0 i (n, k))]. }
  rewrite at_run_snoc. cbn [fst]. split; [by apply step_who_ok|]. set (t := (at_run t0 evs).1) in *.
  assert (Hold : forall l', who_less (who t) l' -> forall i n k, (1 <= i)%nat -> l' !! i = Some (Some (n, k)) -> vouched t0 (evs ++ [ev]) n).
  { intros l' Hl i n k Hi Hk. eapply vouched_snoc, IH; [exact Hi | by apply Hl]. }
  destruct ev; try (apply Hold; by apply who_step). destruct e as [e|]; [|by apply Hold].
  intros i n k Hi Hk. destruct (envelope_who env b node e t) as [H|(Hf & Hmay & i' & Hi' & _ & H)];
    cbn [at_step] in Hk; rewrite H in Hk; [by apply (Hold (who t)) with i k|].
  apply list_lookup_insert_Some in Hk as [(-> & E & _)|[_ Hk]]; [|by apply (Hold (who t)) with i k].
  injection E as -> _. exists evs, env, b, e, []. done.
Qed.

(** C15: every frame the table hands to the router came in an envelope of a head that was let
    in: at or before that envelope the head's link was up and authenticated or the head was
    on the operator's list, and its envelope decoded. The frame carries that envelope's
    preset, signal and time, and the number of the one slot that head has. *)
Theorem injected_frames_vouched t0 evs w id p rssi snr ms :
  no_heads t0 -> OInject w id p rssi snr ms ∈ (at_run t0 evs).2 ->
  injected_by t0 evs w id p rssi snr ms /\ who_ok (who (at_run t0 evs).1).
Proof.
  intros H0 Hin. split; [|by apply run_vouched]. revert Hin. induction evs as [|ev evs IH] using rev_ind; [cbn; set_solver|].
  rewrite at_run_snoc. cbn [snd]. intros [Hin|Hin]%elem_of_app.
  - destruct (IH Hin) as (pre & env & b & node & e & post & m & i & -> & Hd & Hf & Hv & Hrest).
    exists pre, env, b, node, e, (post ++ [ev]), m, i. rewrite <- app_assoc. done.
  - destruct ev; try (match type of Hin with context [at_step _ ?ev] =>
      by destruct (proj2 (who_step (at_run t0 evs).1 ev I) _ _ _ _ _ _ Hin) end).
    destruct e as [e|]; [|set_solver].
    cbn [at_step] in Hin. apply envelope_inject in Hin as ((i & Hi & Hw) & m & Hd & Hf).
    pose proof (run_vouched t0 (evs ++ [EvEnvelope env b node (Some e)]) H0) as [Hok Hv].
    assert (Hw' : who (at_run t0 (evs ++ [EvEnvelope env b node (Some e)])).1 !! i = Some (Some (node, id)))
      by (by rewrite at_run_snoc).
    exists evs, env, b, node, e, [], m, i. split; [done|]. split; [done|]. split; [done|]. split; [by eapply Hv|].
    split; [done|]. split; [by apply (Hok i node id)|done].
Qed.

(** ** Pressing a wish *)

Lemma slot_on_slot i j f t : slot j (on_slot i f t) = if decide (j = i) then f <$> slot i t else slot j t.
Proof.
  unfold on_slot. destruct (slot i t) as [a|] eqn:E; [|by destruct (decide (j = i)) as [->|]; rewrite ?E].
  unfold slot, put_slot. cbn [tab set_tab]. destruct (decide (j = i)) as [->|].
  - apply slot_lookup in E. rewrite list_lookup_insert_eq by (by apply lookup_lt_Some in E). done.
  - by rewrite list_lookup_insert_ne.
Qed.
Lemma want_on_slot i f t : want (on_slot i f t) = want t.
Proof. unfold on_slot. by destruct (slot i t). Qed.
Lemma tab_length_on_slot i f t : length (tab (on_slot i f t)) = length (tab t).
Proof. unfold on_slot. destruct (slot i t); [|done]. unfold put_slot. cbn [tab set_tab]. by rewrite length_insert. Qed.

Lemma want_turn_state env i t : (want_turn env i t).1 = on_slot i (set_a_want_due false) t.
Proof.
  unfold want_turn. destruct (slot i t) as [a|] eqn:E; [|unfold on_slot; by rewrite E].
  destruct (a_want_due a) eqn:Ed; cbn [negb].
  - by repeat case_match.
  - unfold on_slot. rewrite E. replace (set_a_want_due false a) with a by (destruct a; cbn in Ed; by subst).
    unfold put_slot. rewrite list_insert_id by (by apply slot_lookup). by destruct t.
Qed.
Lemma want_turn_sends env i t n x : OSend n x ∈ (want_turn env i t).2 <->
  exists a p, slot i t = Some a /\ a_want_due a = true /\ a_node a = n /\ n <> 0 /\
    want_preset n t = Some p /\ p <> a_preset a /\ x = [MESHTASTIC_ATTACHMENT_SET_PRESET; p].
Proof.
  unfold want_turn. destruct (slot i t) as [a|]; [|split; [set_solver | intros (a & p & [=] & _)]].
  destruct (a_want_due a) eqn:Ed; cbn [negb].
  2: { split; [set_solver|]. intros (b & p & [= <-] & Hd & _). congruence. }
  assert (Hw : want_preset (a_node a) (on_slot i (set_a_want_due false) t) = want_preset (a_node a) t)
    by (unfold want_preset, want_find_locked; by rewrite want_on_slot).
  cbv zeta. rewrite Hw. destruct (want_preset (a_node a) t) as [p|] eqn:Ep.
  2: { split; [set_solver|]. intros (b & p & [= <-] & _ & <- & _ & Hp & _). congruence. }
  destruct ((p =? a_preset a) || (a_node a =? 0)) eqn:Eq.
  { split; [set_solver|]. intros (b & p' & [= <-] & _ & <- & Hn & Hp & Hne & _).
    rewrite Ep in Hp. injection Hp as <-. apply orb_true_iff in Eq as [Eq|Eq]; bools; congruence. }
  bools. cbn. rewrite list_elem_of_singleton. split.
  - intros [= -> ->]. exists a, p. done.
  - intros (b & p' & [= <-] & _ & <- & _ & Hp & _ & ->). rewrite Ep in Hp. by injection Hp as <-.
Qed.

Lemma want_turn_sends_same env i t u n x : slot i t = slot i u -> want t = want u ->
  OSend n x ∈ (want_turn env i t).2 -> OSend n x ∈ (want_turn env i u).2.
Proof.
  intros Hs Hw. rewrite !want_turn_sends, Hs. unfold want_preset, want_find_locked. by rewrite Hw.
Qed.

Section Wanted.
Context (env : at_env).
Definition wanted_fold (acc : att * list at_out) (l : list nat) : att * list at_out :=
  foldl (fun acc i => let '(t, out) := acc in let '(t, more) := want_turn env i t in (t, out ++ more)) acc l.

Lemma wanted_fold_spec l : forall t out, NoDup l ->
  let r := wanted_fold (t, out) l in
  want r.1 = want t /\
  (forall j, slot j r.1 = if decide (j ∈ l) then set_a_want_due false <$> slot j t else slot j t) /\
  (forall n x, OSend n x ∈ r.2 <-> OSend n x ∈ out \/ exists i, i ∈ l /\ OSend n x ∈ (want_turn env i t).2).
Proof.
  induction l as [|i l IH]; intros t out Hnd; cbn [wanted_fold foldl].
  { split; [done|]. split; [intros j; by rewrite decide_False by set_solver|]. intros n x. cbn. set_solver. }
  apply NoDup_cons in Hnd as [Hi Hnd]. pose proof (want_turn_state env i t) as Hst.
  destruct (want_turn env i t) as [u more] eqn:Et. cbn [fst] in Hst. fold (wanted_fold (u, out ++ more) l).
  destruct (IH u (out ++ more) Hnd) as (Hw & Hs & Ho). cbv zeta in Hw, Hs, Ho |- *. split; [|split].
  - rewrite Hw, Hst. apply want_on_slot.
  - intros j. rewrite Hs, Hst, slot_on_slot. clear -Hi. destruct (decide (j = i)) as [->|Hne].
    + rewrite decide_False by done. by rewrite decide_True by (by left).
    + destruct (decide (j ∈ l)); [rewrite decide_True by (by right) | rewrite decide_False by (by rewrite elem_of_cons; intros [?|?])]; done.
  - intros n x. rewrite Ho, elem_of_app. split.
    + intros [[H|H]|(k & Hk & H)]; [by left | right; exists i; split; [by left | by rewrite Et] |].
      right. exists k. split; [by right|]. revert H. apply want_turn_sends_same; [by rewrite Hst, slot_on_slot, decide_False by set_solver|].
      by rewrite Hst, want_on_slot.
    + intros [H|(k & [->|Hk]%elem_of_cons & H)]; [by left; left | left; right; by rewrite Et in H|].
      right. exists k. split; [done|]. revert H. apply want_turn_sends_same; [by rewrite Hst, slot_on_slot, decide_False by set_solver|].
      by rewrite Hst, want_on_slot.
Qed.
End Wanted.

(** The preset an envelope says its head is on. *)
Definition reported (m : attachment_msg) : option Z :=
  match m with MsgRx r => Some (rf_preset r) | MsgStatus s => Some (st_preset s) | _ => None end.
(** What the wishes depend on, and the check's effect on it. *)
Definition mind (a : head) : Z * Z * Z * bool := (a_node a, a_preset a, a_want_asked_ms a, a_want_due a).
Definition pressing (env : at_env) (w : option Z) (q asked : Z) (due : bool) : Z * bool :=
  if match w with None => true | Some p => q =? p end then (0, due)
  else if negb (asked =? 0) && (ae_now env - asked <? WANT_RETRY_MS) then (asked, due)
  else (ae_now env, true).
Lemma pressing_due env p q asked due : p <> q ->
  (pressing env (Some p) q asked due).2 = true <-> due = true \/ asked = 0 \/ WANT_RETRY_MS <= ae_now env - asked.
Proof.
  intros Hne. unfold pressing. destruct (Z.eqb_spec q p); [congruence|]. destruct (Z.eqb_spec asked 0); cbn [negb andb]; [tauto|].
  destruct (Z.ltb_spec (ae_now env - asked) WANT_RETRY_MS); cbn [snd]; [|tauto]. intuition lia.
Qed.
Lemma pressing_asked env w q asked due : (pressing env w q asked due).1 =
  if bool_decide (w = None \/ w = Some q) then 0
  else if bool_decide (asked = 0 \/ WANT_RETRY_MS <= ae_now env - asked) then ae_now env else asked.
Proof.
  unfold pressing. destruct w as [p|]; [|by rewrite bool_decide_eq_true_2 by auto].
  destruct (Z.eqb_spec q p) as [->|Hne]; [by rewrite bool_decide_eq_true_2 by auto|].
  rewrite (bool_decide_eq_false_2 (Some p = None \/ Some p = Some q)) by (intros [?|?]; congruence).
  destruct (Z.eqb_spec asked 0); [by rewrite bool_decide_eq_true_2 by auto|]. cbn [negb andb].
  destruct (Z.ltb_spec (ae_now env - asked) WANT_RETRY_MS); cbn [fst];
    [rewrite bool_decide_eq_false_2 by lia | rewrite bool_decide_eq_true_2 by auto]; done.
Qed.
(** Slot [i] alone has changed, to a head with the given mind. *)
Definition only_mind (i : nat) (x : Z * Z * Z * bool) (t t' : att) : Prop :=
  want t' = want t /\ length (tab t') = length (tab t) /\ (forall j, j <> i -> slot j t' = slot j t) /\
  exists a, slot i t' = Some a /\ mind a = x.

Lemma only_on_slot i f x y t u : only_mind i x t u -> (forall a, mind a = x -> mind (f a) = y) -> only_mind i y t (on_slot i f u).
Proof.
  intros (Hw & Hl & Hj & a & Ha & Hm) Hf. split; [by rewrite want_on_slot|]. split; [by rewrite tab_length_on_slot|]. split.
  - intros j Hne. rewrite slot_on_slot, decide_False by done. by apply Hj.
  - exists (f a). rewrite slot_on_slot, decide_True by done. rewrite Ha. split; [done | by apply Hf].
Qed.
Lemma only_trivial i x t u u' : only_mind i x t u -> tab u' = tab u -> want u' = want u -> only_mind i x t u'.
Proof. unfold only_mind, slot. by intros H -> ->. Qed.
Lemma only_note i n p0 ask due p t u : only_mind i (n, p0, ask, due) t u ->
  only_mind i (n, p, ask, due) t (note_preset_locked i p u).
Proof.
  intros H. pose proof H as (_ & _ & _ & a & Ha & Hm). unfold note_preset_locked. rewrite Ha.
  destruct (Z.eqb_spec (a_preset a) p) as [E|E].
  - replace p with p0; [done|]. unfold mind in Hm. congruence.
  - assert (H' : only_mind i (n, p, ask, due) t (on_slot i (set_a_preset p) u)).
    { eapply only_on_slot; [done|]. intros b. unfold mind. cbn. by intros [= -> _ -> ->]. }
    case_match; [by eapply only_trivial | done].
Qed.
Lemma only_check env i n p ask due t u : only_mind i (n, p, ask, due) t u ->
  only_mind i (n, p, (pressing env (want_preset n t) p ask due).1, (pressing env (want_preset n t) p ask due).2)
    t (want_check_locked env i u).
Proof.
  intros H. pose proof H as (Hw & _ & _ & a & Ha & Hm). unfold want_check_locked. rewrite Ha.
  assert (a_node a = n /\ a_preset a = p /\ a_want_asked_ms a = ask) as (En & Ep & Eask)
    by (unfold mind in Hm; injection Hm; auto).
  replace (want_preset (a_node a) u) with (want_preset n t) by (unfold want_preset, want_find_locked; by rewrite Hw, En).
  rewrite Ep, Eask. unfold pressing. cbv zeta.
  destruct (match want_preset n t with None => true | Some q => p =? q end).
  { eapply only_on_slot; [done|]. intros b. unfold mind. cbn. by intros [= -> -> _ ->]. }
  destruct (negb (ask =? 0) && (ae_now env - ask <? WANT_RETRY_MS)); [done|].
  eapply only_trivial; [|reflexivity|reflexivity]. eapply only_on_slot; [exact H|]. intros b. unfold mind. cbn.
  by intros [= -> -> _ _].
Qed.

Lemma report_mind env b t node i a e m q (t1 := (meshtastic_attachment_ingest_from env b node (Some e) t).1.1)
    (w := want_preset node t) : node <> 0 ->
  find_locked node t = Some i -> slot i t = Some a -> a_node a = node ->
  meshtastic_attachment_decode e = Val m -> reported m = Some q ->
  only_mind i (node, q, (pressing env w q (a_want_asked_ms a) (a_want_due a)).1,
                        (pressing env w q (a_want_asked_ms a) (a_want_due a)).2) t t1.
Proof.
  intros Hn Hf Ha Hna Hd Hr. unfold t1, meshtastic_attachment_ingest_from. rewrite Hf, Hd. apply Z.eqb_neq in Hn. rewrite Hn.
  unfold ingest_known. assert (H : only_mind i (mind a) t (on_slot i (heard env b) t)).
  { eapply only_on_slot; [|by intros c <-]. split; [done|]. split; [done|]. split; [done|]. by exists a. }
  unfold mind in H. rewrite Hna in H. destruct m as [r|x|r|s|p|src id|fl p]; try done; injection Hr as <-; cbn [ingest_msg].
  - unfold ingest_rx. cbn [fst]. eapply only_on_slot; [eapply only_on_slot; [eapply only_check, only_note, H|]|].
    + intros c Hc. exact Hc.
    + intros c Hc. case_match; exact Hc.
  - unfold ingest_status. cbn [fst]. eapply only_on_slot; [eapply only_check, only_note; eapply only_on_slot; [exact H | intros c Hc; exact Hc]|].
    intros c Hc. unfold fast_head_check_locked. cbv zeta. case_match; exact Hc.
Qed.

(** A head is asked for the preset wanted of it exactly when it reports another one and
    was never asked, was asked five seconds ago or more, or an asking is still to be made:
    after the report the worker sends SET_PRESET with that preset, and nothing else to that
    head. The asking is then on record with its time, and a head that reports the preset
    wanted of it, or of which none is wanted, starts afresh. *)
Theorem wish_pressed_when_due env b t node i a e m q
    (t1 := (meshtastic_attachment_ingest_from env b node (Some e) t).1.1)
    (r := want_fn env (fun _ t => t) t1) (w := want_preset node t) :
  who_ok (who t) -> find_locked node t = Some i -> slot i t = Some a ->
  meshtastic_attachment_decode e = Val m -> reported m = Some q ->
  (forall x, OSend node x ∈ r.2 <->
     exists p, w = Some p /\ p <> q /\ x = [MESHTASTIC_ATTACHMENT_SET_PRESET; p] /\
       (a_want_due a = true \/ a_want_asked_ms a = 0 \/ WANT_RETRY_MS <= ae_now env - a_want_asked_ms a)) /\
  exists a', slot i r.1 = Some a' /\ a_preset a' = q /\ a_want_due a' = false /\
    a_want_asked_ms a' =
      if bool_decide (w = None \/ w = Some q) then 0
      else if bool_decide (a_want_asked_ms a = 0 \/ WANT_RETRY_MS <= ae_now env - a_want_asked_ms a) then ae_now env
      else a_want_asked_ms a.
Proof.
  intros Hok Hf Ha Hd Hr. pose proof (find_locked_some node t i Hf) as (Hi & k & Hk).
  pose proof (Hok i node k Hi Hk) as (Hn & _ & Huniq). apply who_slot in Hk as (a' & Ha' & [= Hna _]).
  rewrite Ha in Ha'. injection Ha' as <-. symmetry in Hna.
  pose proof (report_mind env b t node i a e m q Hn Hf Ha Hna Hd Hr) as (Hw1 & Hlen & Hother & a1 & Ha1 & Hm1).
  fold t1 in Hw1, Hlen, Hother, Ha1. fold w in Hm1. clearbody t1. unfold mind in Hm1. injection Hm1 as Hn1 Hq1 Hask1 Hdue1.
  assert (Hwp : want_preset node (set_want_work false t1) = w) by (unfold want_preset, want_find_locked; cbn [want set_want_work]; by rewrite Hw1).
  set (t2 := set_want_work false t1) in *. change (slot i t1) with (slot i t2) in Ha1.
  assert (Hi2 : i ∈ seq 1 (length (tab t1) - 1)).
  { apply elem_of_seq. apply slot_lookup in Ha1. apply lookup_lt_Some in Ha1. change (tab t2) with (tab t1) in Ha1. lia. }
  destruct (wanted_fold_spec env (seq 1 (length (tab t1) - 1)) t2 [] (NoDup_seq _ _)) as (_ & Hslots & Hsends).
  fold (wanted_fold env (t2, []) (seq 1 (length (tab t1) - 1))) in r.
  change r with (wanted_fold env (t2, []) (seq 1 (length (tab t1) - 1))). clear r. split.
  - intros x. rewrite Hsends. split.
    + intros [Hx|(j & Hj & Hx)]; [set_solver|]. apply want_turn_sends in Hx as (c & p & Hc & Hcd & Hcn & _ & Hp & Hpc & ->).
      assert (j = i) as ->.
      { apply elem_of_seq in Hj. destruct (decide (j = i)) as [|Hne]; [done|]. apply (Huniq j (a_id c)); [lia|].
        apply who_slot. exists c. change (slot j t2) with (slot j t1) in Hc. rewrite <- (Hother j Hne). by rewrite Hc, Hcn. }
      rewrite Ha1 in Hc. injection Hc as <-. rewrite Hwp in Hp. exists p. split; [done|]. split; [congruence|]. split; [done|].
      rewrite Hdue1, Hp in Hcd. apply pressing_due in Hcd; [done | congruence].
    + intros (p & Hp & Hpq & -> & Hcase). right. exists i. split; [done|]. apply want_turn_sends. exists a1, p.
      split; [done|]. split; [|split; [done|]; split; [done|]; split; [by rewrite Hwp|]; split; [by rewrite Hq1 | done]].
      rewrite Hdue1, Hp. by apply pressing_due.
  - exists (set_a_want_due false a1). rewrite Hslots, decide_True by done. rewrite Ha1. split; [done|]. split; [done|]. split; [done|].
    change (a_want_asked_ms (set_a_want_due false a1)) with (a_want_asked_ms a1). rewrite Hask1. apply pressing_asked.
Qed.

(** ** A brain and its heads *)

Definition brain_sched : sched_config :=
  SchedConfig ORDER_FIFO OVF_DROP_NEWEST 8 PHONE_PROTECT 0 600 3 0 0 3 8 2 0.
Definition brain_chans : chans :=
  chans_run (Some stock_config) chans_boot [OpSetSlot 2 (Some (secondary [1] (preset_name P_MEDIUM_FAST)))].
(** Node 7's link is encrypted, node 8's is up and nothing more. *)
Definition brain_env (now : Z) : at_env :=
  AtEnv now 3 2 60 (fun _ n => if n =? 7 then Some (true, AUTH_ENCRYPTED) else Some (true, AUTH_NONE)) (11, 250000) (0, 0)
    brain_sched brain_chans (fun _ => OK) (fun _ _ => OK) (fun _ _ => true).
Definition brain_boot : att :=
  Att (Some head_zero :: replicate 3 None) (AttachStats 0 0 0) (replicate 2 0) (replicate 3 (0, 0)) [] false false None.
Definition heard_on (preset : Z) : option (list Z) :=
  Some ([MESHTASTIC_ATTACHMENT_RX_FRAME; preset; 156; 255; 20; 1; 0; 0; 0; 0] ++ replicate 20 9).
Definition head_up (now : Z) (node preset : Z) : at_event := EvEnvelope (brain_env now) (Some 1) node (heard_on preset).
Definition with_head : att := (at_run brain_boot [head_up 1000 7 P_MEDIUM_FAST; EvSetPreset (brain_env 2000) 1 P_MEDIUM_FAST]).1.

Lemma brain_boot_empty : no_heads brain_boot.
Proof.
  intros i x Hi Hx. apply who_slot in Hx as (a & Ha & _). unfold slot, brain_boot in Ha. cbn [tab] in Ha.
  destruct i as [|i]; [lia|]. do 4 (destruct i as [|i]; [discriminate Ha|]). discriminate Ha.
Qed.

Lemma packet_leaves_by_right_radio_witness :
  meshtastic_attachment_for_channel (brain_env 3000) 2 with_head = ByRadio 1 /\
  meshtastic_attachment_for_channel (brain_env 3000) 0 with_head = ByRadio 0 /\
  meshtastic_attachment_for_channel (brain_env 3000) 2 brain_boot = NetUnreach /\
  fan_ids (brain_env 3000) with_head = [1%nat] /\
  wired (meshtastic_attachment_fan_out (brain_env 3000) (Some (replicate 20 9)) 1 0 (fun _ => brain_boot) with_head).1 =
    fan_ids (brain_env 3000) with_head.
Proof.
  destruct (packet_leaves_by_right_radio (brain_env 3000) with_head) as (_ & _ & _ & _ & Hn & _).
  do 4 (split; [vm_compute; reflexivity|]). apply Hn. vm_compute. split; discriminate.
Defined.
Lemma injected_frames_vouched_witness :
  injected_by brain_boot [head_up 900 8 P_LONG_SLOW; head_up 1000 7 P_MEDIUM_FAST] (replicate 20 9) 1 P_MEDIUM_FAST (-100) 20 1.
Proof.
  apply (injected_frames_vouched brain_boot [head_up 900 8 P_LONG_SLOW; head_up 1000 7 P_MEDIUM_FAST]); [exact brain_boot_empty|].
  apply list_elem_of_In. vm_compute. auto.
Defined.
Lemma wish_pressed_when_due_witness :
  let t1 := (meshtastic_attachment_ingest_from (brain_env 9000) (Some 1) 7 (heard_on P_LONG_SLOW) with_head).1.1 in
  OSend 7 [MESHTASTIC_ATTACHMENT_SET_PRESET; P_MEDIUM_FAST] ∈ (want_fn (brain_env 9000) (fun _ t => t) t1).2.
Proof.
  assert (Hok : who_ok (who with_head)).
  { apply (run_vouched brain_boot [head_up 1000 7 P_MEDIUM_FAST; EvSetPreset (brain_env 2000) 1 P_MEDIUM_FAST] brain_boot_empty). }
  destruct (slot 1 with_head) as [a|] eqn:Ha; [|vm_compute in Ha; discriminate Ha].
  destruct (wish_pressed_when_due (brain_env 9000) (Some 1) with_head 7 1 a (default [] (heard_on P_LONG_SLOW))
    (MsgRx (RxFrame P_LONG_SLOW (-100) 20 1 0 (replicate 20 9))) P_LONG_SLOW Hok) as [Hiff _];
    [vm_compute; reflexivity | exact Ha | vm_compute; reflexivity | reflexivity|].
  apply Hiff. exists P_MEDIUM_FAST. vm_compute in Ha. injection Ha as <-. split; [vm_compute; reflexivity|].
  split; [discriminate|]. split; [reflexivity|]. right. right. vm_compute. discriminate.
Defined.

(** A head once let in is heard over any link: the gate asks about a node that is not in the
    table. *)
Lemma known_head_not_asked_again :
  let untrusted := AtEnv 5000 3 2 60 (fun _ _ => Some (true, AUTH_NONE)) (11, 250000) (0, 0) brain_sched brain_chans
    (fun _ => OK) (fun _ _ => OK) (fun _ _ => true) in
  (meshtastic_attachment_ingest_from untrusted (Some 2) 7 (heard_on P_MEDIUM_FAST) with_head).2 = OK /\
  (meshtastic_attachment_ingest_from untrusted (Some 2) 7 (heard_on P_MEDIUM_FAST) brain_boot).2 = ERR EACCES.
Proof. vm_compute. split; reflexivity. Qed.

(** A relay takes its preset and its head under two locks: when the slot is given to another
    head in between, that head is sent the first one's preset. *)
Lemma relay_crosses_heads :
  let swapped t := (at_step (meshtastic_attachment_forget 1 t).1 (head_up 3000 7 P_LONG_SLOW)).1 in
  let '(_, out, ret) := meshtastic_attachment_relay (brain_env 3000) 1 (Some (replicate 20 9)) 5 6 0 0 0
    (fun t => t) swapped (fun t => t) (on_slot 1 (set_a_node 9) with_head) in
  ret = OK /\ exists e, out = [OSend 7 e] /\ byte_at e 1 = P_MEDIUM_FAST /\
    preset_at (swapped with_head) 1 = P_LONG_SLOW.
Proof. vm_compute. split; [reflexivity|]. eexists. split; [reflexivity|]. split; reflexivity. Qed.
